(* ===== verification/_CoqProject ===== *)
-Q . S2P
Prelude.v
Ids.v
ReceivedIds.v
PtsWaiter.v
SparseIdsList.v
AutoDownload.v
SparseIds.v
Tcp.v
Text.v
Plurals.v
Cards.v
Fields.v
DownloadQueue.v
StateMonad.v
Requests.v
RequestFacts.v
Session.v
SessionFacts.v
SessionSend.v
SessionResend.v
SessionCalm.v
SessionAck.v
SessionSystem.v
Receive.v
ReceiveFacts.v
SessionLife.v
Errors.v
Dcenter.v
Instance.v
InstanceFacts.v
InstanceRetry.v
InstanceExample.v
InstanceSystem.v
Download.v
DownloadFacts.v
DownloadSend.v
DownloadRemove.v
DownloadSystem.v
FileLoader.v
FileFacts.v
Streaming.v
Loaders.v
LoaderSystem.v
DownloadExample.v
SliceCache.v
Slices.v
CacheFacts.v
SliceFacts.v
SlicesFacts.v
SlicesWrite.v
SlicesFill.v
SlicesRead.v
SlicesEnd.v
Reader.v
ReaderSystem.v
ReaderFacts.v
ReaderSteps.v
ReaderDown.v
ReaderWorld.v
ReaderFine.v
ReaderEvents.v
ReaderRun.v
ReaderWaits.v
ReaderEnd.v
ReaderExample.v
ReaderStale.v
ChatReading.v
ChatFacts.v
Histories.v
HistoriesFacts.v
HistoriesSend.v
HistoriesFinish.v
HistoriesRead.v
HistoriesApply.v
HistoriesEntries.v
HistoriesAnswers.v
HistoriesSteps.v
HistoriesSystem.v
HistoriesExample.v
