(* ===== verification/Prelude.v ===== *)
(** * Telegram Desktop: a verification library

    Models of the parts of Telegram Desktop that decide what the client
    believes: which messages of a session are new, in which order updates are
    applied, which message ids a chat has and which of them are read, how
    packets travel, how files are downloaded and played while they come, and a
    few self-contained calculators whose rules are easy to get wrong. Paths are
    below [Telegram/SourceFiles/] of the repository.

    ** Parts and files

    - [Ids] ([mtproto/core_types.h], [mtproto/facade.h], [data/data_msg_id.h],
      [data/data_peer_id.h], [data/data_peer_id.cpp]): identifiers. Data center
      ids with a shift, message id ranges, and peer ids, which carry their kind
      in high bits and have three number forms (local, serialized, the one of
      the API).
    - [ReceivedIds] ([mtproto/details/mtproto_received_ids_manager.cpp]): the
      window of message ids a session has received.
    - [PtsWaiter] ([data/data_pts_waiter.cpp]): the state machine that applies
      updates in the order of their [pts] and keeps those that arrive early.
    - [SparseIdsList] ([storage/storage_sparse_ids_list.cpp]): what is known of
      a server list of message ids, as slices with the ranges they cover.
    - [SparseIds] ([data/data_sparse_ids.cpp], [data/data_abstract_sparse_ids.h]):
      the clients of those lists: a merged view of two of them ([Merged]) and
      the builder of one window ([Builder]), which follows the list's updates
      without rereading it.
    - [AutoDownload] ([data/data_auto_download.cpp]): download limits by chat
      type and media type, their serialization and the decisions taken by them.
    - [Tcp] ([mtproto/connection_tcp.cpp], [mtproto/connection_abstract.cpp],
      [mtproto/mtproto_auth_key.cpp]): the transport. [Protocol] is the framing
      of packets in its three versions, behind the class [Framing]; [Connection]
      is the socket handler with its two receiving buffers, which alias, and
      the cipher stream; [NotSecure] the packets without encryption.
    - [Requests], [RequestFacts]
      ([mtproto/details/mtproto_serialized_request.cpp]): the words of a request
      and of the messages made of it, and what they read back as.
    - [Session] ([mtproto/session_private.cpp], the queue of
      [mtproto/session.cpp]): the requests of a session as shared objects in a
      store, with the tables that refer to them (in line, sent, resent, answered,
      in containers), and every operation on them: [tryToSend] with its two
      branches, [prepareToSend], [resend], [resendAll], [checkSentRequests],
      [clearOldContainers], [requestsAcked], [handleMsgsStates], [wasSent].
    - [SessionFacts] (the invariant of the tables and the rules of total
      correctness), [SessionSend], [SessionResend], [SessionAck] (one operation
      after another): that requests are kept, and what packets they are sent in.
      [SessionCalm]: which requests a message id stands for, by itself or
      through its container. [SessionSystem] makes steps of the operations and
      has the theorems on sending.
    - [Receive] ([mtproto/session_private.cpp]): the packets a session receives,
      from [handleReceived] down: the checks, the registration of message ids
      ([ReceivedIds]), containers and packed messages, and the handler of every
      service message, which calls the operations of [Session]. The readers of
      values are the class [Scheme]. [ReceiveFacts]: what a message does to the
      requests. [SessionLife]: operations and packets as one state machine.
    - [Errors] ([mtproto/mtproto_response.cpp]): errors of requests as code,
      type and description, and the types the client deals with.
    - [Dcenter] ([mtproto/details/mtproto_dcenter.cpp], the owner of a creation
      in [mtproto/session.cpp]): which session creates the keys of a data center.
    - [Instance] ([mtproto/mtp_instance.cpp], [Session::tryToReceive]): the
      sessions of the data centers with the request objects they share, the
      tables of requests, and everything done to them: [sendRequest],
      [processCallback] down to every branch of [onErrorDefault], the import and
      export of authorization, [checkDelayedRequests], [unregisterRequest],
      [cancel], [setMainDcId], [logout]. A session is the [receiver] of
      [Receive], which is lent the store of objects while it works.
      [InstanceFacts] (the invariant, sending, requests that wait),
      [InstanceRetry] (errors branch by branch), [InstanceExample] (a concrete
      one) and [InstanceSystem] (the theorems).
    - [StateMonad]: a state and failure monad ([None] fails), loops over lists
      and the rules of total correctness, used by everything with operations.
    - [DownloadQueue], [Download] ([storage/download_manager_mtproto.cpp]): parts
      of files requested through several sessions of a data center: the queue
      of tasks by priority, the balance between the sessions, requests sent,
      moved, cancelled and answered, the content network. Tasks are objects in
      a store, what they do with their parts is the class [Loader]; [LoaderLaws]
      of [DownloadFacts] is what the manager relies on. [DownloadFacts] has the
      invariant (what each session carries), [DownloadSend] and [DownloadRemove]
      the operations that send and that take away, [DownloadSystem] the state
      machine and the theorems.
    - [FileLoader] ([storage/file_download.cpp],
      [storage/file_download_mtproto.cpp]): a file put together of its parts, an
      instance of [Loader]; [FileFacts]: that it is the file. [Streaming]
      ([media/streaming/media_streaming_loader.cpp]): the parts a player waits
      for. [Loaders] ([media/streaming/media_streaming_loader_mtproto.cpp]): the
      loader of a player, the other instance, and both as tasks of one manager;
      [LoaderSystem] that they keep its invariant; [DownloadExample] runs them.
    - [SliceCache], [Slices], [Reader]
      ([media/streaming/media_streaming_reader.cpp]): a file that is played while
      it comes. [SliceCache] has the formats of the entries of the cache;
      [Slices] the parts in memory, by slices of 64 of them and a header of those
      that came first, with the mode the header is in; [Reader] what the
      streaming thread (fills), the main thread (parts that come, tasks), the
      cache and a download of the same file do with them. A call of the loader,
      the cache database, a semaphore or the main queue is put in a log, which
      [ReaderSystem] acts on: a [World] is a reader with the entries of the
      database, the reads under way, the tasks of the main queue and the offsets
      at the loader, and an [Event] is anything that can happen to it.
      [CacheFacts], [SliceFacts], [SlicesFacts] (the invariant [sound]),
      [SlicesWrite], [SlicesFill], [SlicesRead], [SlicesEnd] are about the
      slices; [ReaderFacts] (the invariants [main] and [down], and [steady], what
      an operation leaves as it is), [ReaderSteps], [ReaderDown] about the
      reader; [ReaderWorld], [ReaderFine] (the invariant [fine], the events that
      are [allowed]), [ReaderEvents] (one event after another), [ReaderRun],
      [ReaderWaits], [ReaderEnd] (the theorems) about the world; [ReaderExample]
      plays a small file, and [ReaderStale] has the two ways in which a reader
      does fail.
    - [ChatReading] ([history/history.cpp]): what is read in a chat, with the
      messages that are loaded and what the server says of the chat;
      [ChatFacts]: what every change keeps, and that unread messages are counted
      right.
    - [Histories] ([data/data_histories.cpp]): the requests of each chat, those
      for messages waiting for deletions ([sendRequest], [finishSentRequest],
      [cancelRequest]); reading that is reported at once or after a while
      ([readInboxTill], [sendReadRequests]); entries of the list of chats, asked
      for together, and what waits for them ([requestDialogEntry],
      [sendDialogRequests], [dialogEntryApplied]); deletions. A request that is
      made stays in [api] until it is answered ([answered]) or cancelled. The
      closures of the code are constructors of [Generator] and [Callback], with
      what their handlers do to the requests. [HistoriesFacts] has the invariant
      [inv], with the places an operation may leave open ([Open]);
      [HistoriesSend], [HistoriesFinish], [HistoriesRead], [HistoriesApply],
      [HistoriesEntries], [HistoriesAnswers], [HistoriesSteps] that one operation
      after another keeps it; [HistoriesSystem] is the state machine with the
      theorems, [HistoriesExample] a run.
    - [Text]: strings as UTF-16 code units, and decimal numbers.
    - [Plurals] ([lang/lang_tag.cpp]): plural rules, short counts and tags.
    - [Cards] ([payments/stripe/stripe_card_validator.cpp]): bank cards.
    - [Fields] ([payments/ui/payments_edit_card.cpp],
      [payments/ui/payments_field.cpp], [ui/text/format_values.cpp]): the input
      fields of the payment form, over [Cards].

    This file has what they share: notation for early returns, machine
    integers, the sorted containers of the code ([base::flat_map] and
    [base::flat_set], which are maps and sets here with their order recovered),
    partition points (the binary searches of the code) and tactics.

    ** How the code is modelled

    An object is a record, a method a function to the new record (and its
    result), named as in the code; a method that can fail (an [Expects] or an
    [Assert], a subspan out of range, [back()] of an empty vector) returns an
    option and [None] is the failure, and theorems that say a call succeeds say
    that it is not [None]. Signals and callbacks are appended to a log or
    handed to a parameter. Integers are [Z]; where the width matters the
    wrap-around is written with [wrapu] and [wraps], and C++ division with
    [crem] and [cquot]. What is not in the repository's source is a parameter:
    the block cipher and the hash of OpenSSL, the clock, the order [std::sort]
    gives to equivalent elements, generated API code.

    Loops are structural recursions where the source iterates over a
    container. The others have fuel: [Tcp.Connection.packetLoop] the bytes
    unread plus one, since every packet takes at least one; the reading loop
    one step per chunk read; [Text.digits] twenty digits, enough for 64 bits;
    [Fields.Money.thousands_loop] the number of digits, of which it passes
    three a step; the recursions of [Session.resend] and
    [Session.requestsAcked], which take a container out of the table each time,
    more than there are containers, which is shown to be enough
    ([session_loops_end]); the loop for a free message id one step, since ids
    do not repeat; [Instance.closureLoop], which looks for requests that wait,
    one pass more than there are ([InstanceFacts.closure_loop]);
    [Download.sendLoop], which sends parts while it can, one more than all the
    sessions carry together ([DownloadSend.sendLoop_ok]);
    [Slices.offsetsFromLoader] 256 offsets, since it runs over a slice of 64
    parts or a file of at most 80; [SliceCache.padded] four, of which two
    are used at most; [Reader.finalizeLoop] the slices and two, since each turn
    writes one of the slices or the header. The theorems are stated on the functions with this fuel, so
    that running out would falsify them.

    Received messages nest, so [Receive.handleOneReceived] has a depth, and
    unpacking has fuel; [ReceiveFacts.readable] says of a message that they are
    enough for it, that it is not empty and that its answers have bodies.

    The instance reads the clock once in each call. What handlers of callers do
    is a parameter, of which [InstanceRetry.Handlers] says that they use the
    instance through its methods.

    A manager of downloads reads the clock once in each call, and what a method
    of a task changes in itself is put down after what it calls of the manager.
    A task is destroyed in a step of its own, not within a notification of
    itself. What the disk answers to opening and writing is a parameter. The
    invariant is of downloads that are not redirected to the content network;
    the code of the redirection is modelled, and fails in [DownloadExample].

    An operation of a reader is atomic, and each turn of the loop of [fill] is a
    step, between which anything can come; the semaphore a fill sleeps on is its
    state. [ReaderFine.allowed] says what the surroundings keep to: one fill at a
    time and of at most a slice within the file, and only while streaming is
    active; [headerDone], [startSleep] and the end of streaming come between
    fills; a part of the right length that the loader brings is of the file; an
    answer of the cache is what its entry is when it comes, so that an entry is
    not written while it is being read. Sizes are
    up to 510 slices ([slices_count_bounds] says what is above). What the
    database returns is what was put in it; that entries are of the file at the
    beginning is a hypothesis ([ReaderRun.honest]), and so is that a database
    with parts of the file has its header ([ReaderFine.headed]). Without the
    last two things asked of the cache a reader fails
    ([ReaderStale.late_answer_fails], [ReaderStale.evicted_header_fails]).

    Of chats, [HistoriesSystem.allowed] says what the rest of the program keeps
    to: what it requests is for messages or sends something, it cancels only
    requests for messages, and a handler that is called late is of a request
    that ended; a change of a chat by another part leaves what is read read. A chat never goes away, a message is known by its id,
    and the number of a request does not wrap around. Loops go over the maps as
    they are; none needs fuel.

    The operations of a session run one at a time, each under the locks it
    takes, in any order and between any packets ([SessionLife.lives]). Message
    ids come from a clock
    that gives [limit] distinct numbers ([SessionFacts.MsgIds]); an operation
    that sends needs ids left for what it sends. The words of a service request
    and the random padding are parameters ([SessionFacts.Surroundings]).

    ** What the theorems show

    - Transport: any split of the cipher stream into reads delivers exactly the
      packets sent ([tcp_stream_delivered]); framing is a round trip in every
      version ([tcp_packet_roundtrip]); the connection prefix tells the server
      the keys and the data center ([start_prefix_understood]).
    - Requests: no operation of a session fails, nor does any packet whose
      messages can be read, and a request waits in line or for its answer until
      it is answered, cancelled, or acknowledged with nobody waiting
      ([session_requests_kept], [requests_never_lost]); a call that may send
      everything gives each request in line to the connection in a packet
      ([session_sends_all]); a container reads back as the requests in it, each
      invoked after the one it names, and records their ids under its own
      ([container_carries_requests]), so
      that it can be sent again ([container_resent]); a container that is
      received is handled message by message ([container_received]); an answer
      is queued once and ends its request alone ([answer_delivered]), unless its
      id was forgotten ([late_answer_dropped]).
    - The instance: an answer ends its request or leaves it where it will be
      sent again ([answer_or_retry]), and after an answer that ended it or after
      it was cancelled no other calls a handler ([answered_at_most_once]); what waits for a time, for a request or for
      authorization is sent when that comes ([delayed_requests_sent],
      [dependent_requests_sent], [import_sends_waiters]), or is lost where the
      code loses it ([failed_import_blocks], [migration_moves_main]); a
      cancelled request is gone ([cancelled_request_gone]); delays double
      ([internal_errors_back_off]); ids are distinct ([request_ids_distinct]);
      errors are read back ([error_parsed]); one session at a time creates the
      keys of a data center ([key_creation_exclusive]), and none does after a
      refusal ([refused_release_blocks]).
    - Downloads: no operation of the manager fails and what it counts is what is
      under way ([downloads_never_fail]), also with files and players as tasks
      ([loaders_never_fail]); a task with a part to send is left waiting only
      when every session is full, or something is under way and the first of
      the queue has a higher, positive priority ([downloads_keep_busy]); a
      session that is removed loses nothing ([removed_session_moves]); a file is
      what its parts are, in whatever order they come ([file_downloaded]); queues are in order ([download_queue_order],
      [asked_last_comes_first]); time outs are not noticed
      ([download_timeouts_ignored]); in a run of the content network an invalid
      token asks for a part that is there ([cdn_hashes_requested_as_part]).
    - Streaming: nothing a reader does fails, and a fill that succeeds gives the
      bytes of the file ([reader_never_fails]); who waits waits for something on
      its way ([player_waits_for_something]); the slices and queues are well
      formed between events ([reader_well_formed]); a download gets what the
      loader brings as it is and besides only whole parts of the
      file ([download_gets_file]), and so does the cache, in which everything
      that changed is at the end, if the header is known ([finalize_saves]); the count of slices is right
      within its bounds ([slices_count_bounds]).
    - Chats: no operation on their requests fails ([histories_never_fail]);
      requests for messages and deletions take turns ([requests_take_turns]);
      what waits for an entry waits for something on its way
      ([entries_are_on_their_way]) in a chat of which no deletion as a channel
      was answered, and so does what was read, until the server
      confirmed it ([reading_is_reported]); reading is never forgotten
      ([reading_is_noted]); the messages left unread are counted right
      ([still_unread_right]). The deletion of a channel is never finished
      ([HistoriesExample.channel_deletion_blocks]).
    - Received ids and updates: an id is accepted at most once
      ([received_at_most_once]) and the window keeps the newest
      ([shrink_keeps_newest]); updates that arrive in any order are applied
      once the gap closes ([out_of_order_updates], [update_not_saved]).
    - Message lists: after any sequence of operations that reports the server
      truthfully, what the list knows is true ([sparse_list_accurate]), no
      operation fails ([sparse_list_no_failure]) and a snapshot is a window of
      the server's list ([snapshot_is_window]); the builder's ids stay a segment
      of the list and its counts are right, but after the events that
      [builder_follows_list] names, and it stays within its limits
      ([slice_within_limits]); merged views show both lists in order
      ([merged_slice_shows], [merged_slice_counts]).
    - Settings and identifiers: round trips of serialized forms
      ([auto_download_roundtrip], [peer_id_serialization], [shifted_dc_ids],
      [peer_id_conversions]) and the decisions taken on them
      ([auto_download_read], [auto_download_decision], [disabled_auto_play]).
    - Language: the code of every plural rule computes the CLDR table of its
      languages ([plural_rules_are_cldr]), the rule of a language is the one of
      its id or of its parent ([language_rule]), tags are replaced one at a
      time ([replace_tag_first]), counts are shortened by truncation
      ([short_count_text]).
    - Payments: the verdict on a card does not depend on the sort and is the
      Luhn test in the longest range ([card_verdict]), which no single slip
      passes ([mistyped_card_rejected]); fields keep digits and cursor through
      edits ([card_field_edit], [money_field_normal]); dates are read back as
      they were checked ([expire_field_request], [parsed_expire_date]).

    Lemmas that are not in these groups record where the code departs from its
    intent: [Tcp.finalize_largest], [Tcp.not_secure_span_overruns],
    [SparseIds.skipped_after_stale], [SparseIds.index_past_end],
    [SparseIds.zero_key_absent],
    [ReaderStale.evicted_header_fails], [ReaderStale.late_answer_fails],
    [AutoDownload.truncated_settings_accepted], [Plurals.short_count_number],
    [Fields.krone_field_nul], [SessionLife.empty_message_fails],
    [SessionLife.empty_answer_fails], [SessionLife.fatal_error_keeps_request],
    [InstanceSystem.negative_session].

    ** Not modelled

    Of the session: its timers, the choice of a connection, the keys (what
    [destroyTemporaryKey] and [applyAuthKey] do), the waiting times of
    [onSentSome] and [onReceivedSome]. Of the instance: the mode that destroys
    keys, the loading of its configuration, threads, proxies and device names;
    the counter of request ids, which all instances share, is in each. Of downloads: images read from
    loaded files, the kinds of location, downloads from the web. Of streaming:
    the interleaving of threads within an operation of the reader (its locks and
    queues are taken as they are written), the codecs that read from it. Of chats:
    the messages themselves and how they come, the list of chats and the message
    it shows for each, unread bars, what others read, the deletion of messages
    of several chats at once, and that a state of a chat is kept by a pointer
    while others may be inserted. Widgets,
    painting, decoding and playback, calls, local storage and the operating
    system; the API layer, whose types are generated; the key
    exchange and the cryptography itself; floating point formatting. *)

From Stdlib Require Export ZArith Lia.
From stdpp Require Export base numbers gmap fin_maps sorting strings list.

(** ** Notations of the development *)

Create Rewrite HintDb tg.
Declare Scope tg_scope.
Delimit Scope tg_scope with tg.
#[global] Open Scope Z_scope.
#[global] Open Scope tg_scope.

(** [x <-? o ; k] is the early return of a handler: when [o] holds no value
    the handler returns [None]. *)
Notation "x '<-?' o ; k" := (match o with Some x => k | None => None end)
  (at level 100, o at next level, k at level 200, right associativity)
  : tg_scope.

(** A loop whose body may return early. *)
Fixpoint fold_opt {A B} (f : B -> A -> option B) (l : list A) (b : B) : option B :=
  match l with
  | [] => Some b
  | x :: l' => b' <-? f b x ; fold_opt f l' b'
  end.

Lemma fold_opt_app {A B} (f : B -> A -> option B) (l k : list A) (b : B) :
  fold_opt f (l ++ k) b = (b' <-? fold_opt f l b ; fold_opt f k b').
Proof. revert b. induction l as [|x l IH]; intros b; simpl; [done|]. by destruct (f b x). Qed.

(** An invariant of a loop: when every step succeeds and keeps it, so does
    the loop. *)
Lemma fold_opt_inv {A B} (P : B -> Prop) (f : B -> A -> option B) (l : list A) (b : B) :
  (forall b x, x ∈ l -> P b -> exists b', f b x = Some b' /\ P b') ->
  P b -> exists b', fold_opt f l b = Some b' /\ P b'.
Proof.
  revert b. induction l as [|x l IH]; intros b Hstep Hb; simpl; [eauto|].
  destruct (Hstep b x ltac:(left) Hb) as (b1 & -> & Hb1).
  apply IH; [|done]. intros. apply Hstep; [by right|done].
Qed.

(** The same, when a step may fail. *)
Lemma fold_opt_keeps {A B} (P : B -> Prop) (f : B -> A -> option B) (l : list A) (b b' : B) :
  (forall b x b', x ∈ l -> P b -> f b x = Some b' -> P b') ->
  P b -> fold_opt f l b = Some b' -> P b'.
Proof.
  revert b. induction l as [|x l IH]; intros b Hstep Hb; simpl; [by intros [= <-]|].
  destruct (f b x) as [b1|] eqn:E; [|done]. apply IH.
  - intros. eapply Hstep; [by right| |]; done.
  - eapply Hstep; [by left| |]; done.
Qed.

(** ** Machine integers

    A [w]-bit integer is a [Z]; the wrap-around of the C++ conversions and
    operations is written out with these two functions. *)

Definition wrapu (w z : Z) : Z := z mod 2 ^ w.
Definition wraps (w z : Z) : Z := (z + 2 ^ (w - 1)) mod 2 ^ w - 2 ^ (w - 1).

(** The C++ remainder and quotient, truncating towards zero. *)
Definition crem (a b : Z) : Z := Z.rem a b.
Definition cquot (a b : Z) : Z := Z.quot a b.

Definition fits_u (w z : Z) : Prop := 0 <= z < 2 ^ w.
Definition fits_s (w z : Z) : Prop := - 2 ^ (w - 1) <= z < 2 ^ (w - 1).

Lemma wrapu_bound (w z : Z) : 0 <= w -> fits_u w (wrapu w z).
Proof. intros Hw. apply Z.mod_pos_bound. by apply Z.pow_pos_nonneg. Qed.

Lemma wrapu_small (w z : Z) : fits_u w z -> wrapu w z = z.
Proof. apply Z.mod_small. Qed.

Lemma wraps_small (w z : Z) : 0 < w -> fits_s w z -> wraps w z = z.
Proof.
  unfold wraps, fits_s. intros Hw Hz.
  assert (2 ^ w = 2 * 2 ^ (w - 1)) as Hp.
  { rewrite <- Z.pow_succ_r by lia. f_equal; lia. }
  rewrite Z.mod_small by lia. lia.
Qed.

Lemma wraps_bound (w z : Z) : 0 < w -> fits_s w (wraps w z).
Proof.
  unfold wraps, fits_s. intros Hw.
  assert (2 ^ w = 2 * 2 ^ (w - 1)) as Hp.
  { rewrite <- Z.pow_succ_r by lia. f_equal; lia. }
  pose proof (Z.mod_pos_bound (z + 2 ^ (w - 1)) (2 ^ w)
    ltac:(apply Z.pow_pos_nonneg; lia)). lia.
Qed.

Lemma wrapu_add_r (w a b : Z) : wrapu w (a + wrapu w b) = wrapu w (a + b).
Proof. unfold wrapu. apply Zplus_mod_idemp_r. Qed.

Lemma wrapu_wraps (w z : Z) : 0 < w -> wrapu w (wraps w z) = wrapu w z.
Proof.
  intros Hw. unfold wrapu, wraps.
  rewrite Zminus_mod_idemp_l. f_equal. lia.
Qed.

Lemma wraps_wrapu (w z : Z) : wraps w (wrapu w z) = wraps w z.
Proof. unfold wrapu, wraps. by rewrite Zplus_mod_idemp_l. Qed.

Lemma land_ones_small (a : Z) (n : Z) : 0 <= n -> 0 <= a < 2 ^ n -> Z.land a (Z.ones n) = a.
Proof. intros. rewrite Z.land_ones by done. by apply Z.mod_small. Qed.

Lemma testbit_above (a n i : Z) : 0 <= n <= i -> 0 <= a < 2 ^ n -> Z.testbit a i = false.
Proof.
  intros [? ?] [? ?]. destruct (decide (a = 0)) as [->|]; [apply Z.bits_0|].
  apply Z.bits_above_log2; [lia|]. apply Z.log2_lt_pow2; [lia|].
  apply Z.lt_le_trans with (2 ^ n); [done|]. apply Z.pow_le_mono_r; lia.
Qed.

Lemma land_shiftl_low (a m n : Z) : 0 <= n -> 0 <= a < 2 ^ n -> Z.land a (Z.shiftl m n) = 0.
Proof.
  intros Hn Ha. apply Z.bits_inj'. intros i Hi. rewrite Z.land_spec, Z.bits_0.
  destruct (decide (i < n)).
  - rewrite Z.shiftl_spec_low by lia. apply andb_false_r.
  - by rewrite (testbit_above a n) by lia.
Qed.

Lemma lor_shiftl_low (a m n : Z) :
  0 <= n -> 0 <= a < 2 ^ n -> Z.lor (Z.shiftl m n) a = m * 2 ^ n + a.
Proof.
  intros Hn Ha. rewrite Z.lor_comm. pose proof (land_shiftl_low a m n Hn Ha) as Hl.
  pose proof (Z.add_lor_land a (Z.shiftl m n)) as H.
  rewrite Z.shiftl_mul_pow2 in * by done. lia.
Qed.

(** ** Ordered containers

    [base::flat_map] and [base::flat_set] keep their keys sorted, and the
    code relies on it ([begin()], iteration, [lower_bound]). They are [gmap]s
    and [gset]s here; the order is recovered by these two functions. *)

Definition sorted_elements (s : gset Z) : list Z := merge_sort Z.le (elements s).

Definition sorted_keys {V} (m : gmap Z V) : list Z := sorted_elements (dom m).

Definition first_key {V} (m : gmap Z V) : option Z := head (sorted_keys m).
Definition last_key {V} (m : gmap Z V) : option Z := last (sorted_keys m).

(** The entries in key order. *)
Definition entries {V} (m : gmap Z V) : list (Z * V) :=
  omap (fun k => (fun v => (k, v)) <$> m !! k) (sorted_keys m).

(** [emplace]: the first value inserted under a key stays. *)
Definition emplace {V} (k : Z) (v : V) (m : gmap Z V) : gmap Z V :=
  match m !! k with Some _ => m | None => <[k := v]> m end.

Lemma elem_of_sorted_elements (s : gset Z) (x : Z) :
  x ∈ sorted_elements s <-> x ∈ s.
Proof. unfold sorted_elements. by rewrite merge_sort_Permutation, elem_of_elements. Qed.

Lemma sorted_elements_NoDup (s : gset Z) : NoDup (sorted_elements s).
Proof. unfold sorted_elements. rewrite merge_sort_Permutation. apply NoDup_elements. Qed.

Lemma sorted_elements_length (s : gset Z) : length (sorted_elements s) = size s.
Proof. unfold sorted_elements. by rewrite merge_sort_Permutation. Qed.

Lemma StronglySorted_le_lt (l : list Z) :
  NoDup l -> StronglySorted Z.le l -> StronglySorted Z.lt l.
Proof.
  induction l as [|a l IH]; intros Hnd Hs; [constructor|].
  apply NoDup_cons in Hnd as [Ha Hnd]. inversion Hs as [|? ? Hs' Hall]; subst.
  constructor; [auto|]. rewrite Forall_forall in *.
  intros x Hx. specialize (Hall x Hx). assert (x <> a) by (by intros ->). lia.
Qed.

Lemma sorted_elements_sorted (s : gset Z) : StronglySorted Z.lt (sorted_elements s).
Proof.
  apply StronglySorted_le_lt; [apply sorted_elements_NoDup|].
  apply (StronglySorted_merge_sort Z.le).
Qed.

Lemma StronglySorted_lt_unique (l k : list Z) :
  StronglySorted Z.lt l -> StronglySorted Z.lt k ->
  (forall x, x ∈ l <-> x ∈ k) -> l = k.
Proof.
  revert k. induction l as [|a l IH]; intros [|b k] Hl Hk Heq; auto.
  - exfalso. apply (not_elem_of_nil b), Heq. left.
  - exfalso. apply (not_elem_of_nil a), Heq. left.
  - inversion Hl as [|? ? Hl' Ha]; inversion Hk as [|? ? Hk' Hb]; subst.
    rewrite Forall_forall in Ha, Hb.
    assert (a = b) as <-.
    { pose proof (Heq a) as Ea. pose proof (Heq b) as Eb.
      rewrite !elem_of_cons in Ea, Eb.
      destruct Ea as [[-> | Hin] _]; [by left|done|].
      destruct Eb as [_ [-> | Hin']]; [by left|done|].
      specialize (Ha _ Hin'). specialize (Hb _ Hin). lia. }
    f_equal. apply IH; auto. intros x. specialize (Heq x).
    rewrite !elem_of_cons in Heq. destruct Heq as [Hlk Hkl]. split; intros Hx.
    + specialize (Ha _ Hx). pose proof (Hlk (or_intror Hx)) as [Ex|?]; [subst; lia|done].
    + specialize (Hb _ Hx). pose proof (Hkl (or_intror Hx)) as [Ex|?]; [subst; lia|done].
Qed.

Lemma last_sorted_Some (s : gset Z) (m : Z) :
  last (sorted_elements s) = Some m -> m ∈ s /\ forall x, x ∈ s -> x <= m.
Proof.
  intros H. apply last_Some in H as [l Hl].
  pose proof (sorted_elements_sorted s) as Hs. split.
  - apply elem_of_sorted_elements. rewrite Hl. apply elem_of_app. right. left.
  - intros x Hx. apply elem_of_sorted_elements in Hx. rewrite Hl in Hx, Hs.
    apply elem_of_app in Hx as [Hx| ->%list_elem_of_singleton]; [|lia].
    clear Hl. induction l as [|a l IH]; [by apply not_elem_of_nil in Hx|].
    inversion Hs as [|? ? Hs' Hall]; subst. rewrite Forall_forall in Hall.
    apply elem_of_cons in Hx as [->|Hx]; [|by apply IH].
    apply Z.lt_le_incl, Hall, elem_of_app. right. left.
Qed.

Lemma last_sorted_None (s : gset Z) : last (sorted_elements s) = None -> s = ∅.
Proof.
  intros H. apply last_None in H. apply set_eq. intros x.
  rewrite <- elem_of_sorted_elements, H. split; [by intros ?%not_elem_of_nil|by intros ?%elem_of_empty].
Qed.

(** A key above all others is free. *)
Lemma next_key_fresh {V} (m : gmap Z V) : m !! (default 0 (last_key m) + 1) = None.
Proof.
  apply eq_None_not_Some. unfold last_key, sorted_keys. intros Hs.
  destruct (last (sorted_elements (dom m))) as [k|] eqn:E; simpl in Hs.
  - apply last_sorted_Some in E as [_ E]. apply elem_of_dom, E in Hs. lia.
  - apply last_sorted_None in E. apply elem_of_dom in Hs. rewrite E in Hs. by apply elem_of_empty in Hs.
Qed.

Lemma elem_of_sorted_keys {V} (m : gmap Z V) (k : Z) :
  k ∈ sorted_keys m <-> is_Some (m !! k).
Proof. unfold sorted_keys. by rewrite elem_of_sorted_elements, elem_of_dom. Qed.

Lemma sorted_keys_length {V} (m : gmap Z V) : length (sorted_keys m) = size m.
Proof. unfold sorted_keys. by rewrite sorted_elements_length, size_dom. Qed.

Lemma elem_of_entries {V} (m : gmap Z V) (k : Z) (v : V) :
  (k, v) ∈ entries m <-> m !! k = Some v.
Proof.
  unfold entries. rewrite list_elem_of_omap. split.
  - intros (j & _ & Hj). destruct (m !! j) eqn:E; simplify_eq/=. done.
  - intros Hk. exists k. rewrite Hk. split; [|done].
    apply elem_of_sorted_keys. by rewrite Hk.
Qed.

Lemma entries_keys {V} (m : gmap Z V) : (entries m).*1 = sorted_keys m.
Proof.
  unfold entries. assert (forall k, k ∈ sorted_keys m -> is_Some (m !! k)) as H
    by (intros; by apply elem_of_sorted_keys).
  induction (sorted_keys m) as [|k l IH]; [done|]. simpl.
  destruct (H k ltac:(left)) as [v ->]. simpl. f_equal. apply IH.
  intros j Hj. apply H. by right.
Qed.

Lemma entries_perm {V} (m : gmap Z V) : entries m ≡ₚ map_to_list m.
Proof.
  apply NoDup_Permutation.
  - apply (NoDup_fmap_1 fst). rewrite entries_keys. apply sorted_elements_NoDup.
  - apply NoDup_map_to_list.
  - intros [k v]. by rewrite elem_of_entries, elem_of_map_to_list.
Qed.

Lemma entries_fmap {V W} (f : V -> W) (m : gmap Z V) :
  entries (f <$> m) = (fun kv => (kv.1, f kv.2)) <$> entries m.
Proof.
  unfold entries, sorted_keys. rewrite dom_fmap_L.
  induction (sorted_elements (dom m)) as [|k l IH]; [done|]. simpl.
  rewrite lookup_fmap. destruct (m !! k); simpl; [by f_equal|done].
Qed.

Lemma entries_sorted {V} (m : gmap Z V) :
  StronglySorted (fun a b => a.1 < b.1) (entries m).
Proof.
  pose proof (sorted_elements_sorted (dom m)) as H. fold (sorted_keys m) in H.
  rewrite <- entries_keys in H. induction (entries m) as [|kv l IH]; [constructor|].
  inversion H as [|? ? Hs Hall]; subst. constructor; [auto|].
  rewrite Forall_fmap in Hall. exact Hall.
Qed.

Lemma first_key_None {V} (m : gmap Z V) : first_key m = None <-> m = ∅.
Proof.
  unfold first_key. rewrite <- (map_size_empty_iff m), <- sorted_keys_length.
  by destruct (sorted_keys m).
Qed.

Lemma first_key_Some {V} (m : gmap Z V) (k : Z) :
  first_key m = Some k ->
  is_Some (m !! k) /\ (forall j, is_Some (m !! j) -> k <= j).
Proof.
  unfold first_key. intros Hk.
  pose proof (sorted_elements_sorted (dom m)) as Hs.
  assert (forall j, is_Some (m !! j) <-> j ∈ sorted_keys m) as Hin
    by (intros; by rewrite elem_of_sorted_keys).
  unfold sorted_keys in *. destruct (sorted_elements (dom m)) as [|a l]; [done|].
  simplify_eq/=. inversion Hs as [|? ? _ Ha]; subst. rewrite Forall_forall in Ha.
  split; [apply Hin; left|]. intros j Hj. apply Hin in Hj.
  apply elem_of_cons in Hj as [->|Hj]; [lia|]. specialize (Ha _ Hj). lia.
Qed.

Lemma lookup_emplace_eq {V} (k : Z) (v : V) (m : gmap Z V) :
  emplace k v m !! k = Some (default v (m !! k)).
Proof. unfold emplace. destruct (m !! k) eqn:E; simpl; [done|apply lookup_insert_eq]. Qed.

Lemma lookup_emplace_ne {V} (k j : Z) (v : V) (m : gmap Z V) :
  k <> j -> emplace k v m !! j = m !! j.
Proof. intros. unfold emplace. destruct (m !! k); [done|by apply lookup_insert_ne]. Qed.

Lemma emplace_fresh {V} (k : Z) (v : V) (m : gmap Z V) :
  m !! k = None -> emplace k v m = <[k := v]> m.
Proof. unfold emplace. by intros ->. Qed.

(** [ranges::lower_bound] and [ranges::upper_bound] return the partition
    point of a partitioned range: the length of the longest prefix on which
    the predicate holds. *)
Fixpoint partition_point {A} (p : A -> bool) (l : list A) : nat :=
  match l with
  | [] => 0%nat
  | x :: l' => if p x then S (partition_point p l') else 0%nat
  end.

Lemma partition_point_le {A} (p : A -> bool) (l : list A) :
  (partition_point p l <= length l)%nat.
Proof. induction l; simpl; [lia|]. destruct (p a); lia. Qed.

Lemma partition_point_before {A} (p : A -> bool) (l : list A) (i : nat) (x : A) :
  (i < partition_point p l)%nat -> l !! i = Some x -> p x = true.
Proof.
  revert i. induction l as [|a l IH]; intros i Hi Hx; [done|]. simpl in Hi.
  destruct (p a) eqn:E; [|lia]. destruct i; simpl in Hx; [by simplify_eq|].
  apply (IH i); [lia|done].
Qed.

Lemma partition_point_at {A} (p : A -> bool) (l : list A) (x : A) :
  l !! partition_point p l = Some x -> p x = false.
Proof.
  induction l as [|a l IH]; [done|]. simpl. destruct (p a) eqn:E; simpl; [auto|].
  by intros [= ->].
Qed.

Lemma partition_point_mono {A} (p q : A -> bool) (l : list A) :
  (forall x, x ∈ l -> p x = true -> q x = true) ->
  (partition_point p l <= partition_point q l)%nat.
Proof.
  induction l as [|a l IH]; intros H; simpl; [lia|].
  destruct (p a) eqn:E; [|lia]. rewrite (H a ltac:(left) E).
  apply le_n_S, IH. intros x Hx. apply H. by right.
Qed.

(** On a partitioned range the predicate fails from the partition point on. *)
Lemma partition_point_after {A} (p : A -> bool) (l : list A) (x : A) :
  StronglySorted (fun a b => p b = true -> p a = true) l ->
  x ∈ drop (partition_point p l) l -> p x = false.
Proof.
  induction 1 as [|a l Hs IH Hall]; simpl; [by intros ?%not_elem_of_nil|].
  destruct (p a) eqn:E; simpl; [done|].
  intros [->|Hx]%elem_of_cons; [done|]. rewrite Forall_forall in Hall.
  specialize (Hall x Hx). destruct (p x); [|done]. specialize (Hall eq_refl). congruence.
Qed.

Lemma partition_point_take {A} (p : A -> bool) (l : list A) (x : A) :
  x ∈ take (partition_point p l) l -> p x = true.
Proof.
  induction l as [|a l IH]; simpl; [by intros ?%not_elem_of_nil|].
  destruct (p a) eqn:E; simpl; [|by intros ?%not_elem_of_nil].
  intros [->|Hx]%elem_of_cons; auto.
Qed.

Lemma partition_point_app {A} (p : A -> bool) (l k : list A) :
  (forall x, x ∈ l -> p x = true) -> (forall x, x ∈ k -> p x = false) ->
  partition_point p (l ++ k) = length l.
Proof.
  intros Hl Hk. induction l as [|a l IH]; simpl.
  - destruct k as [|x k]; [done|]. simpl. by rewrite (Hk x ltac:(left)).
  - rewrite (Hl a ltac:(left)). f_equal. apply IH. intros x Hx. apply Hl. by right.
Qed.

Lemma StronglySorted_impl {A} (R S : A -> A -> Prop) (l : list A) :
  (forall a b, a ∈ l -> b ∈ l -> R a b -> S a b) -> StronglySorted R l -> StronglySorted S l.
Proof.
  intros H. induction 1 as [|a l Hs IH Hall]; constructor.
  - apply IH. intros. apply H; [by right..|done].
  - rewrite Forall_forall in *. intros x Hx. apply H; [by left|by right|auto].
Qed.

Lemma StronglySorted_app_iff {A} (R : A -> A -> Prop) (l k : list A) :
  StronglySorted R (l ++ k) <->
  StronglySorted R l /\ StronglySorted R k /\ (forall x y, x ∈ l -> y ∈ k -> R x y).
Proof.
  induction l as [|a l IH]; simpl.
  - split; [|tauto]. intros H. split_and!; [constructor|done|]. by intros ? ? ?%not_elem_of_nil.
  - split.
    + inversion 1 as [|? ? Hs Hall]; subst. apply IH in Hs as (H1 & H2 & H3).
      rewrite Forall_forall in Hall. split_and!; [|done|].
      * constructor; [done|]. apply Forall_forall. intros x Hx. apply Hall, elem_of_app. by left.
      * intros x y [->|Hx]%elem_of_cons Hy; [|by apply H3]. apply Hall, elem_of_app. by right.
    + intros (H1 & H2 & H3). inversion H1 as [|? ? Hs Hall]; subst. constructor.
      * apply IH. split_and!; [done|done|]. intros. apply H3; [by right|done].
      * rewrite Forall_forall in *. intros x [Hx|Hx]%elem_of_app; [by apply Hall|].
        apply H3; [by left|done].
Qed.

(** The elements in an interval are a segment of the sorted set. *)
Lemma sorted_interval (T ms : gset Z) (lo hi : Z) :
  lo <= hi -> (forall x, x ∈ ms <-> x ∈ T /\ lo <= x <= hi) ->
  exists A B, sorted_elements T = A ++ sorted_elements ms ++ B
    /\ (forall x, x ∈ A -> x ∈ T /\ x < lo) /\ (forall x, x ∈ B -> x ∈ T /\ hi < x).
Proof.
  intros Hlh Hms.
  set (A := sorted_elements (filter (fun x => x < lo) T)).
  set (B := sorted_elements (filter (fun x => hi < x) T)).
  assert (forall x, x ∈ A <-> x < lo /\ x ∈ T) as HA
    by (intros; unfold A; by rewrite elem_of_sorted_elements, elem_of_filter).
  assert (forall x, x ∈ B <-> hi < x /\ x ∈ T) as HB
    by (intros; unfold B; by rewrite elem_of_sorted_elements, elem_of_filter).
  assert (forall x, x ∈ sorted_elements ms <-> x ∈ T /\ lo <= x <= hi) as HM
    by (intros; by rewrite elem_of_sorted_elements).
  exists A, B. split; [|split; [intros x Hx; apply HA in Hx; tauto|intros x Hx; apply HB in Hx; tauto]].
  apply StronglySorted_lt_unique; [apply sorted_elements_sorted| |].
  - apply StronglySorted_app_iff. split_and!; [apply sorted_elements_sorted| |].
    + apply StronglySorted_app_iff. split_and!; [apply sorted_elements_sorted..|].
      intros x y Hx%HM Hy%HB. lia.
    + intros x y Hx%HA [Hy%HM|Hy%HB]%elem_of_app; lia.
  - intros x. rewrite elem_of_sorted_elements, !elem_of_app, HA, HM, HB.
    destruct (decide (x < lo)), (decide (hi < x)); intuition lia.
Qed.

(** Splitting a list at two positions. *)
Lemma split_two {A} (l : list A) (a b : nat) :
  (a <= b)%nat -> l = take a l ++ drop a (take b l) ++ drop b l.
Proof.
  intros Hab. rewrite app_assoc. rewrite <- (take_drop b l) at 1. f_equal.
  rewrite <- (take_drop a (take b l)) at 1. by rewrite take_take, Nat.min_l.
Qed.

(** ** Tactics *)

(** Split the boolean tests of a goal or hypothesis, keeping the equations,
    and turn the arithmetic ones into propositions. *)
Ltac bool_to_prop :=
  repeat match goal with
  | H : (_ && _)%bool = true |- _ => apply andb_true_iff in H as [? ?]
  | H : (_ || _)%bool = false |- _ => apply orb_false_iff in H as [? ?]
  | H : negb _ = true |- _ => apply negb_true_iff in H
  | H : negb _ = false |- _ => apply negb_false_iff in H
  | H : Z.ltb _ _ = true |- _ => apply Z.ltb_lt in H
  | H : Z.ltb _ _ = false |- _ => apply Z.ltb_ge in H
  | H : Z.leb _ _ = true |- _ => apply Z.leb_le in H
  | H : Z.leb _ _ = false |- _ => apply Z.leb_gt in H
  | H : Z.gtb _ _ = _ |- _ => rewrite Z.gtb_ltb in H
  | H : Z.geb _ _ = _ |- _ => rewrite Z.geb_leb in H
  | H : Z.eqb _ _ = true |- _ => apply Z.eqb_eq in H
  | H : Z.eqb _ _ = false |- _ => apply Z.eqb_neq in H
  end.

(** Case analysis on every test and match the goal branches on. *)
Ltac split_tests :=
  repeat (case_match; simplify_eq/=); bool_to_prop.

#[export] Hint Rewrite @lookup_emplace_eq : tg.
#[export] Hint Rewrite @lookup_emplace_ne using done : tg.
