(* ===== verification/Ids.v ===== *)
(** * Identifiers: data centers, messages and peers

    [mtproto/core_types.h] and [mtproto/facade.h] (the shifted data center
    ids), [data/data_msg_id.h] (message ids and ranges) and
    [data/data_peer_id.h], [data/data_peer_id.cpp] (peer ids and their
    serialization). *)

From S2P Require Import Prelude.

(** ** Data center ids: a bare id plus 10000 times a shift *)
Module Dc.

Definition kDcShift : Z := 10000.
Definition kConfigDcShift : Z := 0x01.
Definition kLogoutDcShift : Z := 0x02.
Definition kUpdaterDcShift : Z := 0x03.
Definition kExportDcShift : Z := 0x04.
Definition kExportMediaDcShift : Z := 0x05.
Definition kGroupCallStreamDcShift : Z := 0x06.
Definition kMaxMediaDcCount : Z := 0x10.
Definition kBaseDownloadDcShift : Z := 0x10.
Definition kBaseUploadDcShift : Z := 0x20.
Definition kDestroyKeyStartDcShift : Z := 0x100.
Definition kTemporaryMainDc : Z := 1000.
Definition kUploadSessionsCount : Z := 2.

Definition BareDcId (shiftedDcId : Z) : Z := crem shiftedDcId kDcShift.
Definition ShiftDcId (dcId value : Z) : Z := dcId + kDcShift * value.
Definition GetDcIdShift (shiftedDcId : Z) : Z := cquot shiftedDcId kDcShift.

Definition configDcId (dcId : Z) : Z := ShiftDcId dcId kConfigDcShift.
Definition logoutDcId (dcId : Z) : Z := ShiftDcId dcId kLogoutDcShift.
Definition updaterDcId (dcId : Z) : Z := ShiftDcId dcId kUpdaterDcShift.
Definition groupCallStreamDcId (dcId : Z) : Z :=
  ShiftDcId dcId kGroupCallStreamDcShift.

(** [Expects(index < kMaxMediaDcCount)] is the guard of the option. *)
Definition downloadDcId (dcId index : Z) : option Z :=
  if index <? kMaxMediaDcCount
  then Some (ShiftDcId dcId (kBaseDownloadDcShift + index))
  else None.

Definition isDownloadDcId (shiftedDcId : Z) : bool :=
  (default 0 (downloadDcId 0 0) <=? shiftedDcId)
  && (shiftedDcId <? default 0 (downloadDcId 0 (kMaxMediaDcCount - 1)) + kDcShift).

Definition isMediaClusterDcId (shiftedDcId : Z) : bool :=
  let shift := GetDcIdShift shiftedDcId in
  isDownloadDcId shiftedDcId
  || (shift =? kGroupCallStreamDcShift)
  || (shift =? kExportMediaDcShift)
  || (shift =? kUpdaterDcShift).

Definition isTemporaryDcId (shiftedDcId : Z) : bool :=
  let dcId := BareDcId shiftedDcId in kTemporaryMainDc <=? dcId.

Definition getRealIdFromTemporaryDcId (shiftedDcId : Z) : Z :=
  let dcId := BareDcId shiftedDcId in
  if kTemporaryMainDc <=? dcId then dcId - kTemporaryMainDc else 0.

Definition getTemporaryIdFromRealDcId (shiftedDcId : Z) : Z :=
  let dcId := BareDcId shiftedDcId in
  if dcId <? kTemporaryMainDc then dcId + kTemporaryMainDc else 0.

Definition uploadDcIdFor (dcId index : Z) : Z :=
  ShiftDcId dcId (kBaseUploadDcShift + index).

Definition uploadDcId (index : Z) : option Z :=
  if (0 <=? index) && (index <? kUploadSessionsCount)
  then Some (uploadDcIdFor 0 index) else None.

Definition isUploadDcId (shiftedDcId : Z) : bool :=
  (uploadDcIdFor 0 0 <=? shiftedDcId)
  && (shiftedDcId <? uploadDcIdFor 0 (kUploadSessionsCount - 1) + kDcShift).

Definition destroyKeyNextDcId (shiftedDcId : Z) : Z :=
  let shift := GetDcIdShift shiftedDcId in
  ShiftDcId (BareDcId shiftedDcId)
    (if shift =? 0 then kDestroyKeyStartDcShift else shift + 1).

(** Bare ids are below [kDcShift]; this is what makes the packing injective. *)
Definition bare (dcId : Z) : Prop := 0 <= dcId < kDcShift.

Lemma BareDcId_ShiftDcId (d v : Z) : bare d -> 0 <= v -> BareDcId (ShiftDcId d v) = d.
Proof.
  unfold bare, BareDcId, ShiftDcId, crem, kDcShift. intros.
  rewrite Z.rem_mod_nonneg by lia.
  rewrite Z.mul_comm, Z_mod_plus_full. by apply Z.mod_small.
Qed.

Lemma GetDcIdShift_ShiftDcId (d v : Z) :
  bare d -> 0 <= v -> GetDcIdShift (ShiftDcId d v) = v.
Proof.
  unfold bare, GetDcIdShift, ShiftDcId, cquot, kDcShift. intros.
  rewrite Z.quot_div_nonneg by lia.
  rewrite Z.mul_comm, Z.div_add by lia. rewrite Z.div_small; lia.
Qed.

#[export] Hint Rewrite BareDcId_ShiftDcId GetDcIdShift_ShiftDcId
  using (unfold bare, kDcShift in *; lia) : tg.

Lemma isDownloadDcId_shift (d v : Z) :
  bare d -> 0 <= v -> isDownloadDcId (ShiftDcId d v) = (16 <=? v) && (v <? 32).
Proof.
  unfold bare, isDownloadDcId, ShiftDcId, kDcShift. intros; simpl.
  unfold ShiftDcId, kBaseDownloadDcShift, kMaxMediaDcCount, kDcShift.
  apply eq_iff_eq_true; rewrite !andb_true_iff, !Z.leb_le, !Z.ltb_lt; lia.
Qed.

Lemma isUploadDcId_shift (d v : Z) :
  bare d -> 0 <= v -> isUploadDcId (ShiftDcId d v) = (32 <=? v) && (v <? 34).
Proof.
  unfold bare, isUploadDcId, uploadDcIdFor, ShiftDcId, kBaseUploadDcShift,
    kUploadSessionsCount, kDcShift. intros.
  apply eq_iff_eq_true; rewrite !andb_true_iff, !Z.leb_le, !Z.ltb_lt; lia.
Qed.

End Dc.

(** ** Message ids *)
Module Msg.

Definition StartClientMsgId : Z := 0x01 - Z.shiftl 1 58.
Definition EndClientMsgId : Z := - Z.shiftl 1 57.
Definition ServerMaxMsgId : Z := Z.shiftl 1 56.
Definition ScheduledMsgIdsRange : Z := Z.shiftl 1 32.
Definition SpecialMsgIdShift : Z := EndClientMsgId.

Definition IsClientMsgId (id : Z) : bool :=
  (StartClientMsgId <=? id) && (id <? EndClientMsgId).

Definition IsServerMsgId (id : Z) : bool := (0 <? id) && (id <? ServerMaxMsgId).

Record MsgRange := mk_range { from : Z; till : Z }.

#[export] Instance MsgRange_eq_dec : EqDecision MsgRange.
Proof. solve_decision. Defined.

Record FullMsgId := mk_full { fm_peer : Z; fm_msg : Z }.

Definition FullMsgId_lt (a b : FullMsgId) : bool :=
  if fm_peer a <? fm_peer b then true
  else if fm_peer b <? fm_peer a then false
  else fm_msg a <? fm_msg b.

Record GlobalMsgId := mk_global { gm_item : FullMsgId; gm_session : Z }.

Definition GlobalMsgId_lt (a b : GlobalMsgId) : bool :=
  if FullMsgId_lt (gm_item a) (gm_item b) then true
  else if FullMsgId_lt (gm_item b) (gm_item a) then false
  else gm_session a <? gm_session b.

Lemma FullMsgId_lt_spec (a b : FullMsgId) :
  FullMsgId_lt a b = true <->
  fm_peer a < fm_peer b \/ (fm_peer a = fm_peer b /\ fm_msg a < fm_msg b).
Proof.
  unfold FullMsgId_lt. split_tests; split; intros; try done; rewrite ?Z.ltb_lt in *; lia.
Qed.

End Msg.

(** ** Peer ids: the kind of the peer in the bits above 48 *)
Module Peer.

Definition kReservedBit : Z := 0x80.
Definition kChatTypeMask : Z := 0xFFFFFFFFFFFF.

(** [ChatIdType<Shift>]: the four kinds of chats and their [kShift]. *)
Inductive ChatKind := UserId | ChatId | ChannelId | FakeChatId.

Definition kShift (k : ChatKind) : Z :=
  match k with UserId => 0 | ChatId => 1 | ChannelId => 2 | FakeChatId => 0x7F end.

(** [PeerId(ChatIdType<Shift> id)] *)
Definition PeerId_of (k : ChatKind) (id_bare : Z) : Z :=
  Z.lor id_bare (Z.shiftl (kShift k) 48).

(** [is<SomeChatIdType>()] and [to<SomeChatIdType>()] *)
Definition isKind (k : ChatKind) (value : Z) : bool :=
  Z.land (Z.shiftr value 48) 0xFF =? kShift k.

Definition toKind (k : ChatKind) (value : Z) : Z :=
  if isKind k value then Z.land value kChatTypeMask else 0.

(** [MTPPeer] and its three constructors. *)
Inductive MTPPeer := peerUser (id : Z) | peerChat (id : Z) | peerChannel (id : Z).

Definition peerFromMTP (peer : MTPPeer) : Z :=
  match peer with
  | peerUser id => PeerId_of UserId id
  | peerChat id => PeerId_of ChatId id
  | peerChannel id => PeerId_of ChannelId id
  end.

Definition peerToBareMTPInt (id : Z) : Z := Z.land id kChatTypeMask.

Definition peerToMTP (id : Z) : MTPPeer :=
  if isKind UserId id then peerUser (peerToBareMTPInt id)
  else if isKind ChatId id then peerChat (peerToBareMTPInt id)
  else if isKind ChannelId id then peerChannel (peerToBareMTPInt id)
  else peerUser 0.

Definition DeserializePeerId (serialized : Z) : Z :=
  let flag := Z.shiftl kReservedBit 48 in
  let legacy := Z.land serialized (Z.shiftl kReservedBit 48) =? 0 in
  if negb legacy then Z.land serialized (Z.lnot flag)
  else
    let PeerIdMask := 0xFFFFFFFF in
    let PeerIdTypeMask := 0xF00000000 in
    let PeerIdUserShift := 0x000000000 in
    let PeerIdChatShift := 0x100000000 in
    let PeerIdChannelShift := 0x200000000 in
    let PeerIdFakeShift := 0xF00000000 in
    let type := Z.land serialized PeerIdTypeMask in
    let id := Z.land serialized PeerIdMask in
    if type =? PeerIdUserShift then PeerId_of UserId id
    else if type =? PeerIdChatShift then PeerId_of ChatId id
    else if type =? PeerIdChannelShift then PeerId_of ChannelId id
    else if type =? PeerIdFakeShift then PeerId_of FakeChatId id
    else 0.

(** [Expects(!(id.value & (UserId::kReservedBit << 48)))] *)
Definition SerializePeerId (id : Z) : option Z :=
  if Z.land id (Z.shiftl kReservedBit 48) =? 0
  then Some (Z.lor id (Z.shiftl kReservedBit 48))
  else None.

(** A bare id of a chat fits in the 48 bits below the kind. *)
Definition bare_id (id : Z) : Prop := 0 <= id < 2 ^ 48.

Lemma kShift_bound (k : ChatKind) : 0 <= kShift k < 2 ^ 7.
Proof. destruct k; simpl; lia. Qed.

Lemma PeerId_of_shiftr (k : ChatKind) (id : Z) :
  bare_id id -> Z.shiftr (PeerId_of k id) 48 = kShift k.
Proof.
  intros Hid. unfold PeerId_of. rewrite Z.shiftr_lor, Z.shiftr_shiftl_l by lia.
  rewrite Z.shiftr_div_pow2, Z.div_small by (unfold bare_id in Hid; lia).
  by rewrite Z.lor_0_l, Z.shiftl_0_r.
Qed.

Lemma PeerId_of_mask (k : ChatKind) (id : Z) :
  bare_id id -> Z.land (PeerId_of k id) kChatTypeMask = id.
Proof.
  intros Hid. unfold PeerId_of. rewrite Z.land_lor_distr_l.
  change kChatTypeMask with (Z.ones 48). rewrite land_ones_small by (unfold bare_id in *; lia).
  rewrite Z.land_ones, Z.shiftl_mul_pow2, Z_mod_mult by lia. apply Z.lor_0_r.
Qed.

Lemma isKind_PeerId_of (k k' : ChatKind) (id : Z) :
  bare_id id -> isKind k' (PeerId_of k id) = (kShift k =? kShift k').
Proof.
  intros Hid. unfold isKind. rewrite PeerId_of_shiftr by done.
  change 0xFF with (Z.ones 8). rewrite land_ones_small; [done|lia|].
  pose proof (kShift_bound k). lia.
Qed.

Lemma PeerId_of_bound (k : ChatKind) (id : Z) : bare_id id -> 0 <= PeerId_of k id < 2 ^ 55.
Proof.
  intros Hid. pose proof (PeerId_of_shiftr k id Hid) as Hs.
  pose proof (kShift_bound k). rewrite Z.shiftr_div_pow2 in Hs by lia.
  pose proof (Z.div_mod (PeerId_of k id) (2 ^ 48) ltac:(lia)).
  pose proof (Z.mod_pos_bound (PeerId_of k id) (2 ^ 48) ltac:(lia)). lia.
Qed.

End Peer.

(** ** Properties *)

(** The bare data center id and the shift of a shifted id are recovered
    from it, and the predicates on shifted ids are exactly the ranges of the
    shift: 16..31 download, 32..33 upload, and the media cluster ids are the
    download ones and the three named shifts. *)
Theorem shifted_dc_ids (d v : Z) :
  Dc.bare d -> 0 <= v ->
  Dc.BareDcId (Dc.ShiftDcId d v) = d
  /\ Dc.GetDcIdShift (Dc.ShiftDcId d v) = v
  /\ Dc.isDownloadDcId (Dc.ShiftDcId d v) = (16 <=? v) && (v <? 32)
  /\ Dc.isUploadDcId (Dc.ShiftDcId d v) = (32 <=? v) && (v <? 34)
  /\ Dc.isMediaClusterDcId (Dc.ShiftDcId d v)
     = ((16 <=? v) && (v <? 32)) || (v =? 6) || (v =? 5) || (v =? 3)
  /\ Dc.BareDcId (Dc.destroyKeyNextDcId (Dc.ShiftDcId d v)) = d
  /\ Dc.GetDcIdShift (Dc.destroyKeyNextDcId (Dc.ShiftDcId d v))
     = (if v =? 0 then 256 else v + 1)
  /\ (0 < Dc.getTemporaryIdFromRealDcId d ->
      Dc.isTemporaryDcId (Dc.getTemporaryIdFromRealDcId d) = true
      /\ Dc.getRealIdFromTemporaryDcId (Dc.getTemporaryIdFromRealDcId d) = d).
Proof.
  intros Hd Hv. unfold Dc.isMediaClusterDcId, Dc.destroyKeyNextDcId.
  rewrite (Dc.BareDcId_ShiftDcId d v Hd Hv), (Dc.GetDcIdShift_ShiftDcId d v Hd Hv).
  rewrite Dc.isDownloadDcId_shift, Dc.isUploadDcId_shift by done.
  assert (0 <= (if v =? 0 then Dc.kDestroyKeyStartDcShift else v + 1)) as Hn.
  { unfold Dc.kDestroyKeyStartDcShift. destruct (v =? 0); lia. }
  rewrite (Dc.BareDcId_ShiftDcId d _ Hd Hn), (Dc.GetDcIdShift_ShiftDcId d _ Hd Hn).
  repeat split; try done.
  all: unfold Dc.bare, Dc.isTemporaryDcId, Dc.getTemporaryIdFromRealDcId,
    Dc.getRealIdFromTemporaryDcId, Dc.BareDcId, Dc.kDcShift, Dc.kTemporaryMainDc,
    crem in *.
  all: rewrite (Z.rem_small d) in * by lia; destruct (d <? 1000) eqn:E; bool_to_prop;
    [|lia]; rewrite Z.rem_small by lia; try lia.
  destruct (1000 <=? d + 1000) eqn:E'; bool_to_prop; lia.
Qed.

Lemma shifted_dc_ids_witness :
  Dc.BareDcId (Dc.ShiftDcId 4 17) = 4 /\ Dc.isDownloadDcId (Dc.ShiftDcId 4 17) = true.
Proof.
  destruct (shifted_dc_ids 4 17) as (H1 & _ & H2 & _);
    [unfold Dc.bare, Dc.kDcShift; lia | lia |].
  split; [exact H1 | exact H2].
Defined.

(** Peer ids survive serialization: every id [SerializePeerId] accepts is
    read back by [DeserializePeerId], and the serialized form has the reserved
    bit set, so it is never mistaken for a legacy one. *)
Theorem peer_id_serialization (id s : Z) :
  fits_u 64 id -> Peer.SerializePeerId id = Some s ->
  Peer.DeserializePeerId s = id /\ Z.testbit s 55 = true.
Proof.
  unfold Peer.SerializePeerId, Peer.DeserializePeerId. intros Hid Hs.
  change (Z.shiftl Peer.kReservedBit 48) with (2 ^ 55) in *.
  destruct (Z.land id (2 ^ 55) =? 0) eqn:E; simplify_eq. bool_to_prop.
  assert (Z.testbit id 55 = false) as Hb.
  { apply (f_equal (fun z => Z.testbit z 55)) in E.
    by rewrite Z.land_spec, Z.pow2_bits_true, andb_true_r, Z.bits_0 in E by lia. }
  assert (Z.testbit (Z.lor id (2 ^ 55)) 55 = true) as Hset
    by (rewrite Z.lor_spec, Z.pow2_bits_true by lia; apply orb_true_r).
  split; [|done].
  destruct (Z.land (Z.lor id (2 ^ 55)) (2 ^ 55) =? 0) eqn:E2; bool_to_prop.
  - apply (f_equal (fun z => Z.testbit z 55)) in E2.
    rewrite Z.land_spec, Hset, Z.pow2_bits_true, Z.bits_0 in E2 by lia. done.
  - cbn [negb]. apply Z.bits_inj'. intros n Hn.
    rewrite Z.land_spec, Z.lor_spec, Z.lnot_spec, Z.pow2_bits_eqb by lia.
    destruct (Z.eqb_spec 55 n) as [<-|]; [by rewrite Hb|]; cbn [negb].
    by rewrite orb_false_r, andb_true_r.
Qed.

Lemma peer_id_serialization_witness :
  Peer.DeserializePeerId (Z.lor (Peer.PeerId_of Peer.ChannelId 1234) (2 ^ 55))
  = Peer.PeerId_of Peer.ChannelId 1234.
Proof.
  apply (peer_id_serialization (Peer.PeerId_of Peer.ChannelId 1234)).
  - split; vm_compute; congruence.
  - reflexivity.
Defined.

(** The API peer of a chat with a 48-bit bare id is recovered from its
    [PeerId], and a legacy serialized id (a 32-bit bare id under the type bits
    32..35) is read as the peer of that kind. *)
Theorem peer_id_conversions (id : Z) :
  Peer.bare_id id ->
  Peer.peerToMTP (Peer.peerFromMTP (Peer.peerUser id)) = Peer.peerUser id
  /\ Peer.peerToMTP (Peer.peerFromMTP (Peer.peerChat id)) = Peer.peerChat id
  /\ Peer.peerToMTP (Peer.peerFromMTP (Peer.peerChannel id)) = Peer.peerChannel id
  /\ (forall k k', Peer.toKind k' (Peer.PeerId_of k id)
        = if Peer.kShift k =? Peer.kShift k' then id else 0)
  /\ (id < 2 ^ 32 ->
      forall k, Peer.DeserializePeerId
          (id + 2 ^ 32 * (match k with Peer.FakeChatId => 15 | k => Peer.kShift k end))
        = Peer.PeerId_of k id).
Proof.
  intros Hid. unfold Peer.peerToMTP, Peer.peerToBareMTPInt, Peer.peerFromMTP.
  rewrite !Peer.isKind_PeerId_of, !Peer.PeerId_of_mask by done.
  repeat split.
  - intros k k'. unfold Peer.toKind.
    by rewrite Peer.isKind_PeerId_of, Peer.PeerId_of_mask.
  - intros Hlt k. unfold Peer.bare_id in Hid. unfold Peer.DeserializePeerId.
    set (t := match k with Peer.FakeChatId => 15 | k => Peer.kShift k end).
    assert (0 <= t < 16) as Ht by (destruct k; simpl in t; subst t; lia).
    assert (id + 2 ^ 32 * t = Z.lor id (Z.shiftl t 32)) as ->
      by (rewrite Z.lor_comm, lor_shiftl_low; lia).
    rewrite !Z.land_lor_distr_l.
    assert (Z.land id 0xF00000000 = 0 /\ Z.land id (Z.shiftl Peer.kReservedBit 48) = 0
      /\ Z.land id 0xFFFFFFFF = id) as (-> & -> & ->).
    { change 0xF00000000 with (Z.shiftl 15 32).
      change (Z.shiftl Peer.kReservedBit 48) with (Z.shiftl (2 ^ 23) 32).
      change 0xFFFFFFFF with (Z.ones 32).
      rewrite !land_shiftl_low, land_ones_small by lia. done. }
    rewrite !Z.lor_0_l. subst t.
    destruct k; vm_compute Z.shiftl; vm_compute Z.land; cbn [negb Z.eqb];
      rewrite ?Z.lor_0_r; reflexivity.
Qed.

Lemma peer_id_conversions_witness :
  Peer.peerToMTP (Peer.peerFromMTP (Peer.peerChat 77)) = Peer.peerChat 77.
Proof. apply (peer_id_conversions 77). unfold Peer.bare_id; lia. Defined.
