(* ===== verification/ReceivedIds.v ===== *)
(** * The received message ids of a session

    [mtproto/details/mtproto_received_ids_manager.cpp]: the window of the last
    [kIdsBufferSize] message ids the session keeps, with which it drops
    duplicates and refuses replayed old messages. *)

From S2P Require Import Prelude.

Definition kIdsBufferSize : nat := 400.

(** [State] and [Result] of [ReceivedIdsManager]. *)
Inductive State := NotFound | NeedsAck | NoAckNeeded.
Inductive Result := Success | Duplicate | TooOld.

#[export] Instance Result_eq_dec : EqDecision Result.
Proof. solve_decision. Defined.

(** The manager: [base::flat_map<mtpMsgId, bool> _idsNeedAck]. *)
Abbreviation manager := (gmap Z bool).

Definition min (idsNeedAck : manager) : Z := default 0 (first_key idsNeedAck).
Definition max (idsNeedAck : manager) : Z := default 0 (last_key idsNeedAck).

Definition registerMsgId (idsNeedAck : manager) (msgId : Z) (needAck : bool) :
    Result * manager :=
  match idsNeedAck !! msgId with
  | Some _ => (Duplicate, idsNeedAck)
  | None =>
      if bool_decide (size idsNeedAck < kIdsBufferSize)%nat || (min idsNeedAck <? msgId)
      then (Success, emplace msgId needAck idsNeedAck)
      else (TooOld, idsNeedAck)
  end.

Definition lookupId (idsNeedAck : manager) (msgId : Z) : State :=
  match idsNeedAck !! msgId with
  | None => NotFound
  | Some true => NeedsAck
  | Some false => NoAckNeeded
  end.

(** [_idsNeedAck.erase(_idsNeedAck.begin())] *)
Definition eraseBegin (idsNeedAck : manager) : manager :=
  match first_key idsNeedAck with
  | Some k => delete k idsNeedAck
  | None => idsNeedAck
  end.

(** [while (size-- > kIdsBufferSize)], the loop over the size read before it. *)
Fixpoint shrinkLoop (size : nat) (idsNeedAck : manager) : manager :=
  if bool_decide (kIdsBufferSize < size)%nat then
    match size with
    | O => idsNeedAck
    | S size' => shrinkLoop size' (eraseBegin idsNeedAck)
    end
  else idsNeedAck.

Definition shrink (idsNeedAck : manager) : manager :=
  shrinkLoop (size idsNeedAck) idsNeedAck.

(** How a session uses the manager: it registers ids in any order, several
    of them between two calls of [shrink] when they arrive in a container. *)
Inductive op := Register (msgId : Z) (needAck : bool) | Shrink.

(** The ids accepted by a run, in order, and the final window. *)
Fixpoint run (ops : list op) (m : manager) : list Z * manager :=
  match ops with
  | [] => ([], m)
  | Register id needAck :: ops' =>
      let '(res, m1) := registerMsgId m id needAck in
      let '(acc, m2) := run ops' m1 in
      ((if decide (res = Success) then id :: acc else acc), m2)
  | Shrink :: ops' => run ops' (shrink m)
  end.

(** ** Lemmas *)

Lemma eraseBegin_size (m : manager) : size (eraseBegin m) = pred (size m).
Proof.
  unfold eraseBegin. destruct (first_key m) as [k|] eqn:Hk.
  - apply first_key_Some in Hk as [[v Hv] _]. by rewrite map_size_delete_Some by eauto.
  - apply first_key_None in Hk as ->. done.
Qed.

Lemma eraseBegin_lookup (m : manager) (k : Z) :
  is_Some (eraseBegin m !! k) ->
  is_Some (m !! k) /\ min m < k /\ m !! k = eraseBegin m !! k.
Proof.
  unfold eraseBegin, min. destruct (first_key m) as [j|] eqn:Hj; simpl.
  - pose proof (first_key_Some m j Hj) as [_ Hmin].
    destruct (decide (j = k)) as [->|]; [rewrite lookup_delete_eq; by intros []|].
    rewrite lookup_delete_ne by done. intros Hk. specialize (Hmin _ Hk).
    split_and!; [done|lia|done].
  - apply first_key_None in Hj as ->. rewrite lookup_empty. by intros [].
Qed.

Lemma min_le (m : manager) (k : Z) : is_Some (m !! k) -> min m <= k.
Proof.
  unfold min. destruct (first_key m) as [j|] eqn:Hj; simpl; intros Hk.
  - by apply (first_key_Some m j Hj).
  - apply first_key_None in Hj as ->. rewrite lookup_empty in Hk. by destruct Hk.
Qed.

(** The window remembers a set [seen] of ids when every one of them is either
    still in it or below all its ids, and it only forgets when it is full. *)
Definition remembers (m : manager) (seen : gset Z) : Prop :=
  forall x, x ∈ seen -> is_Some (m !! x) \/
    ((kIdsBufferSize <= size m)%nat /\ forall k, is_Some (m !! k) -> x < k).

Lemma eraseBegin_remembers (m : manager) (seen : gset Z) :
  (kIdsBufferSize < size m)%nat -> remembers m seen -> remembers (eraseBegin m) seen.
Proof.
  intros Hsz Hr x Hx. rewrite eraseBegin_size.
  destruct (eraseBegin m !! x) eqn:E; [by left; eauto|right].
  split; [lia|]. intros k Hk. apply eraseBegin_lookup in Hk as (Hk & Hlt & _).
  destruct (Hr x Hx) as [Hm|[_ Hm]]; [|by apply Hm].
  unfold eraseBegin, min in *. destruct (first_key m) as [j|] eqn:Hj; simpl in *.
  - destruct (decide (j = x)) as [->|]; [done|].
    rewrite lookup_delete_ne in E by done. rewrite E in Hm. by destruct Hm.
  - rewrite E in Hm. by destruct Hm.
Qed.

Lemma shrinkLoop_spec (n : nat) (m : manager) (seen : gset Z) :
  size m = n -> remembers m seen ->
  remembers (shrinkLoop n m) seen
  /\ size (shrinkLoop n m) = Nat.min n kIdsBufferSize
  /\ (forall k, is_Some (shrinkLoop n m !! k) -> shrinkLoop n m !! k = m !! k).
Proof.
  revert m. induction n as [|n IH]; intros m Hsz Hr; cbn [shrinkLoop].
  - rewrite bool_decide_false by lia. split_and!; [done|lia|done].
  - case_bool_decide as Hn.
    + destruct (IH (eraseBegin m)) as (H1 & H2 & H3).
      { rewrite eraseBegin_size. lia. }
      { apply eraseBegin_remembers; [lia|done]. }
      split_and!; [done|lia|]. intros k Hk. pose proof (H3 k Hk) as E.
      rewrite E in Hk |- *. by apply eraseBegin_lookup in Hk as (_ & _ & ->).
    + split_and!; [done|lia|done].
Qed.

(** What the guard of [registerMsgId] lets into a full window is newer than
    everything the window has forgotten. *)
Lemma guard_above (m : manager) (id x : Z) :
  bool_decide (size m < kIdsBufferSize)%nat || (min m <? id) = true ->
  (kIdsBufferSize <= size m)%nat -> (forall k, is_Some (m !! k) -> x < k) -> x < id.
Proof.
  intros HE Hsz Hlt. apply orb_true_iff in HE as [E|E]; [apply bool_decide_eq_true in E; lia|].
  bool_to_prop. unfold min in E. destruct (first_key m) as [j|] eqn:Hj; simpl in E.
  - apply first_key_Some in Hj as [Hj _]. specialize (Hlt _ Hj). lia.
  - apply first_key_None in Hj as ->. rewrite map_size_empty in Hsz. vm_compute in Hsz. lia.
Qed.

Lemma register_remembers (m m' : manager) (seen : gset Z) (id : Z) (b : bool) (r : Result) :
  registerMsgId m id b = (r, m') -> remembers m seen ->
  remembers m' seen /\ (r = Success -> (id ∉ seen) /\ remembers m' ({[id]} ∪ seen)).
Proof.
  unfold registerMsgId. intros Hreg Hr. destruct (m !! id) eqn:Hid; simplify_eq; [done|].
  destruct (bool_decide _ || _) eqn:E; simplify_eq; [|done].
  assert (id ∉ seen) as Hnew.
  { intros Hin. destruct (Hr id Hin) as [Hs|[Hsz Hlt]].
    - rewrite Hid in Hs. by destruct Hs.
    - pose proof (guard_above m id id E Hsz Hlt). lia. }
  assert (remembers (emplace id b m) ({[id]} ∪ seen)) as Hall.
  { intros x Hx. apply elem_of_union in Hx as [->%elem_of_singleton|Hx].
    - left. rewrite lookup_emplace_eq. eauto.
    - assert (id <> x) as Hne by (by intros ->).
      destruct (Hr x Hx) as [Hs|[Hsz Hlt]]; [left; by rewrite lookup_emplace_ne|right].
      unfold emplace. rewrite Hid, map_size_insert_None by done. split; [lia|].
      intros k. destruct (decide (id = k)) as [->|].
      + intros _. by apply (guard_above m).
      + rewrite lookup_insert_ne by done. apply Hlt. }
  split; [|done]. intros x Hx. apply Hall. by apply elem_of_union_r.
Qed.

Lemma run_accepted (ops : list op) (m : manager) (seen : gset Z) :
  remembers m seen -> NoDup (run ops m).1 /\ (forall x, x ∈ (run ops m).1 -> x ∉ seen).
Proof.
  revert m seen. induction ops as [|[id b|] ops IH]; intros m seen Hr; simpl.
  - split; [constructor|]. by intros x ?%not_elem_of_nil.
  - destruct (registerMsgId m id b) as [r m1] eqn:Hreg.
    apply register_remembers with (seen := seen) in Hreg as [Hr1 Hs]; [|done].
    destruct (run ops m1) as [acc m2] eqn:Hrun. simpl.
    destruct (decide (r = Success)) as [->|].
    + destruct (Hs eq_refl) as [Hnew Hr2]. destruct (IH _ _ Hr2) as [Hnd Hnot].
      rewrite Hrun in Hnd, Hnot; simpl in *. split.
      * apply NoDup_cons. split; [|done]. intros Hin. by apply (Hnot id Hin), elem_of_union_l, elem_of_singleton.
      * intros x [->|Hin]%elem_of_cons; [done|]. intros Hx. apply (Hnot x Hin). by apply elem_of_union_r.
    + specialize (IH _ _ Hr1). by rewrite Hrun in IH.
  - apply IH. by apply shrinkLoop_spec.
Qed.

(** ** Properties *)

(** C33. Whatever ids arrive, in whatever order, and however registrations and
    shrinks interleave, no message id is accepted twice: a message the window
    has already forgotten is refused as too old, never handled again. *)
Theorem received_at_most_once (ops : list op) : NoDup (run ops ∅).1.
Proof. apply (run_accepted ops ∅ ∅). by intros x ?%elem_of_empty. Qed.

(** [shrink] keeps at most [kIdsBufferSize] ids, only drops ids when there
    were more, drops the oldest ones, and leaves the acknowledgement flag of
    the ids it keeps. *)
Theorem shrink_keeps_newest (m : manager) :
  size (shrink m) = Nat.min (size m) kIdsBufferSize
  /\ (forall k, is_Some (shrink m !! k) -> shrink m !! k = m !! k)
  /\ (forall x k, is_Some (m !! x) -> shrink m !! x = None -> is_Some (shrink m !! k) -> x < k).
Proof.
  destruct (shrinkLoop_spec (size m) m (dom m) eq_refl) as (Hr & Hsz & Hk).
  { intros x Hx. left. by apply elem_of_dom. }
  split_and!; [done|done|]. intros x k Hx Hnone Hin.
  destruct (Hr x) as [Hs|[_ Hlt]]; [by apply elem_of_dom| |by apply Hlt].
  unfold shrink in Hnone. rewrite Hnone in Hs. by destruct Hs.
Qed.
