(* ===== verification/PtsWaiter.v ===== *)
(** * The pts waiter: updates that arrive out of order

    [data/data_pts_waiter.h] and [data/data_pts_waiter.cpp]. Every update of
    a box (an account or a channel) carries the box state [pts] after it and
    the number [count] of events in it. The waiter applies an update at once
    when no event before it is missing, and otherwise saves it until the gap
    is filled.

    The calls to the owner ([Api::Updates]) are the events of the log: timers
    started or stopped and updates handed over to be applied. *)

From S2P Require Import Prelude.

Section PtsWaiter.

(** The two API types an update comes in, [MTPUpdate] and [MTPUpdates]. *)
Context {MTPUpdate MTPUpdates : Type}.

(** [PtsSkippedQueue] *)
Inductive PtsSkippedQueue := SkippedUpdate | SkippedUpdates.

(** The calls to the owner, in order. *)
Inductive event :=
  | StartTimer (ms : Z)
  | ApplyUpdate (u : option MTPUpdate)
  | ApplyUpdates (us : option MTPUpdates).

Record waiter := mk_waiter {
  queue : gmap Z PtsSkippedQueue;
  updateQueue : gmap Z MTPUpdate;
  updatesQueue : gmap Z MTPUpdates;
  good : Z;
  last_pts : Z;
  count : Z;
  applySkippedLevel : Z;
  requesting : bool;
  waitingForSkipped : bool;
  waitingForShortPoll : bool;
  skippedKey : Z;
  log : list event;
}.

Definition kWaitForSkippedTimeout : Z := 1000.

Definition emit (e : event) (w : waiter) : waiter :=
  mk_waiter (queue w) (updateQueue w) (updatesQueue w) (good w) (last_pts w) (count w)
    (applySkippedLevel w) (requesting w) (waitingForSkipped w) (waitingForShortPoll w)
    (skippedKey w) (log w ++ [e]).

Definition set_level (l : Z) (w : waiter) : waiter :=
  mk_waiter (queue w) (updateQueue w) (updatesQueue w) (good w) (last_pts w) (count w)
    l (requesting w) (waitingForSkipped w) (waitingForShortPoll w) (skippedKey w) (log w).

Definition set_waiting (b : bool) (w : waiter) : waiter :=
  mk_waiter (queue w) (updateQueue w) (updatesQueue w) (good w) (last_pts w) (count w)
    (applySkippedLevel w) (requesting w) b (waitingForShortPoll w) (skippedKey w) (log w).

Definition set_poll (b : bool) (w : waiter) : waiter :=
  mk_waiter (queue w) (updateQueue w) (updatesQueue w) (good w) (last_pts w) (count w)
    (applySkippedLevel w) (requesting w) (waitingForSkipped w) b (skippedKey w) (log w).

Definition set_pts (g l c : Z) (w : waiter) : waiter :=
  mk_waiter (queue w) (updateQueue w) (updatesQueue w) g l c (applySkippedLevel w)
    (requesting w) (waitingForSkipped w) (waitingForShortPoll w) (skippedKey w) (log w).

Definition clearSkippedUpdates (w : waiter) : waiter :=
  mk_waiter ∅ ∅ ∅ (good w) (last_pts w) (count w) 0 (requesting w) (waitingForSkipped w)
    (waitingForShortPoll w) (skippedKey w) (log w).

Definition init (pts : Z) (w : waiter) : waiter :=
  clearSkippedUpdates (set_pts pts pts pts w).

Definition inited (w : waiter) : bool := 0 <? good w.

Definition setRequesting (isRequesting : bool) (w : waiter) : waiter :=
  let w := mk_waiter (queue w) (updateQueue w) (updatesQueue w) (good w) (last_pts w)
    (count w) (applySkippedLevel w) isRequesting (waitingForSkipped w)
    (waitingForShortPoll w) (skippedKey w) (log w) in
  if isRequesting then clearSkippedUpdates w else w.

(** [ptsKey]: the key orders by pts, then by arrival. *)
Definition ptsKey (q : PtsSkippedQueue) (pts : Z) (w : waiter) : Z * waiter :=
  let skipped := wrapu 32 (skippedKey w + 1) in
  let key := Z.lor (wrapu 64 (Z.shiftl (wrapu 32 pts) 32)) skipped in
  (key, mk_waiter (emplace key q (queue w)) (updateQueue w) (updatesQueue w) (good w)
    (last_pts w) (count w) (applySkippedLevel w) (requesting w) (waitingForSkipped w)
    (waitingForShortPoll w) skipped (log w)).

Definition checkForWaiting (w : waiter) : waiter :=
  if negb (waitingForSkipped w) && negb (waitingForShortPoll w)
  then emit (StartTimer (-1)) w else w.

Definition setWaitingForSkipped (ms : Z) (w : waiter) : waiter :=
  if 0 <=? ms then set_waiting true (emit (StartTimer ms) w)
  else checkForWaiting (set_waiting false w).

Definition setWaitingForShortPoll (ms : Z) (w : waiter) : waiter :=
  if 0 <=? ms then set_poll true (emit (StartTimer ms) w)
  else checkForWaiting (set_poll false w).

(** The body of the loop of [applySkippedUpdates]. *)
Definition applyOne (w : waiter) (i : Z * PtsSkippedQueue) : waiter :=
  match i.2 with
  | SkippedUpdate => emit (ApplyUpdate (updateQueue w !! i.1)) w
  | SkippedUpdates => emit (ApplyUpdates (updatesQueue w !! i.1)) w
  end.

Definition applySkippedUpdates (w : waiter) : waiter :=
  if negb (waitingForSkipped w) then w
  else
    let w := setWaitingForSkipped (-1) w in
    if bool_decide (queue w = ∅) then w
    else
      let w := set_level (applySkippedLevel w + 1) w in
      let w := foldl applyOne w (entries (queue w)) in
      clearSkippedUpdates (set_level (applySkippedLevel w - 1) w).

(** [check]: false if the update has to be saved and applied later. *)
Definition check (pts cnt : Z) (w : waiter) : bool * waiter :=
  if negb (inited w) then (true, init pts w)
  else
    let w := set_pts (good w) (Z.max (last_pts w) pts) (wraps 32 (count w + cnt)) w in
    if last_pts w =? count w then (true, set_pts (last_pts w) (last_pts w) (count w) w)
    else
      let w := if last_pts w <? count w then setWaitingForSkipped 1 w
               else setWaitingForSkipped kWaitForSkippedTimeout w in
      (cnt =? 0, w).

Definition emplaceUpdates (pts : Z) (updates : MTPUpdates) (w : waiter) : waiter :=
  let '(key, w) := ptsKey SkippedUpdates pts w in
  mk_waiter (queue w) (updateQueue w) (emplace key updates (updatesQueue w)) (good w)
    (last_pts w) (count w) (applySkippedLevel w) (requesting w) (waitingForSkipped w)
    (waitingForShortPoll w) (skippedKey w) (log w).

Definition emplaceUpdate (pts : Z) (update : MTPUpdate) (w : waiter) : waiter :=
  let '(key, w) := ptsKey SkippedUpdate pts w in
  mk_waiter (queue w) (emplace key update (updateQueue w)) (updatesQueue w) (good w)
    (last_pts w) (count w) (applySkippedLevel w) (requesting w) (waitingForSkipped w)
    (waitingForShortPoll w) (skippedKey w) (log w).

Definition updatedUpdates (pts cnt : Z) (updates : MTPUpdates) (w : waiter) :
    bool * waiter :=
  if requesting w || negb (applySkippedLevel w =? 0) then (true, w)
  else if (pts <=? good w) && (0 <? cnt) then (false, w)
  else
    let '(ok, w) := check pts cnt w in
    if ok then (true, w) else (false, emplaceUpdates pts updates w).

Definition updatedUpdate (pts cnt : Z) (update : MTPUpdate) (w : waiter) : bool * waiter :=
  if requesting w || negb (applySkippedLevel w =? 0) then (true, w)
  else if (pts <=? good w) && (0 <? cnt) then (false, w)
  else
    let '(ok, w) := check pts cnt w in
    if ok then (true, w) else (false, emplaceUpdate pts update w).

Definition updatedBare (pts cnt : Z) (w : waiter) : bool * waiter :=
  if requesting w || negb (applySkippedLevel w =? 0) then (true, w)
  else if (pts <=? good w) && (0 <? cnt) then (false, w)
  else check pts cnt w.

Definition updateAndApplyUpdates (pts cnt : Z) (updates : MTPUpdates) (w : waiter) :
    bool * waiter :=
  let '(ok, w) := updatedUpdates pts cnt updates w in
  if negb ok then (false, w)
  else if negb (waitingForSkipped w) || bool_decide (queue w = ∅)
  then (true, emit (ApplyUpdates (Some updates)) w)
  else (true, applySkippedUpdates (emplaceUpdates pts updates w)).

Definition updateAndApplyUpdate (pts cnt : Z) (update : MTPUpdate) (w : waiter) :
    bool * waiter :=
  let '(ok, w) := updatedUpdate pts cnt update w in
  if negb ok then (false, w)
  else if negb (waitingForSkipped w) || bool_decide (queue w = ∅)
  then (true, emit (ApplyUpdate (Some update)) w)
  else (true, applySkippedUpdates (emplaceUpdate pts update w)).

Definition updateAndApplyBare (pts cnt : Z) (w : waiter) : bool * waiter :=
  let '(ok, w) := updatedBare pts cnt w in
  if negb ok then (false, w) else (true, applySkippedUpdates w).

(** ** A run of the waiter *)

(** One update as it arrives: its [pts], its [count] and its body, of either
    of the two API types. *)
Record item := mk_item { i_pts : Z; i_cnt : Z; i_body : MTPUpdate + MTPUpdates }.

Definition deliver (w : waiter) (i : item) : waiter :=
  match i_body i with
  | inl u => (updateAndApplyUpdate (i_pts i) (i_cnt i) u w).2
  | inr us => (updateAndApplyUpdates (i_pts i) (i_cnt i) us w).2
  end.

(** The bodies handed over to be applied, in order. *)
Definition applied_event (e : event) : option (MTPUpdate + MTPUpdates) :=
  match e with
  | StartTimer _ => None
  | ApplyUpdate u => inl <$> u
  | ApplyUpdates us => inr <$> us
  end.
Definition applied (w : waiter) : list (MTPUpdate + MTPUpdates) :=
  omap applied_event (log w).

(** A gapless history from the box state [p]: every update has events in it
    and starts where the one before it ended. *)
Fixpoint gapless (p : Z) (l : list item) : Prop :=
  match l with
  | [] => True
  | i :: l' => 0 < i_cnt i /\ i_pts i = p + i_cnt i /\ gapless (i_pts i) l'
  end.

Definition end_pts (p : Z) (l : list item) : Z := foldl (fun _ i => i_pts i) p l.
Definition total (l : list item) : Z := foldr (fun i s => i_cnt i + s) 0 l.
Definition max_pts (p : Z) (l : list item) : Z := foldr (fun i m => Z.max (i_pts i) m) p l.

Lemma total_app (l k : list item) : total (l ++ k) = total l + total k.
Proof. induction l; simpl; lia. Qed.

Lemma total_perm (l k : list item) : l ≡ₚ k -> total l = total k.
Proof. induction 1; simpl; lia. Qed.

Lemma max_pts_perm (p : Z) (l k : list item) : l ≡ₚ k -> max_pts p l = max_pts p k.
Proof. induction 1; simpl; lia. Qed.

Lemma end_pts_total (p : Z) (l : list item) : gapless p l -> end_pts p l = p + total l.
Proof.
  revert p. induction l as [|i l IH]; intros p; simpl; [lia|].
  intros (? & E & H). rewrite IH by done. lia.
Qed.

Lemma gapless_app (p : Z) (l k : list item) :
  gapless p (l ++ k) <-> gapless p l /\ gapless (end_pts p l) k.
Proof.
  revert p. induction l as [|i l IH]; intros p; simpl; [tauto|]. rewrite IH. tauto.
Qed.

Lemma total_nonneg (p : Z) (l : list item) : gapless p l -> 0 <= total l.
Proof.
  revert p. induction l as [|i l IH]; intros p; simpl; [lia|].
  intros (? & _ & Hg). specialize (IH _ Hg). lia.
Qed.

Lemma gapless_pos (p : Z) (l : list item) (i : item) :
  gapless p l -> i ∈ l -> 0 < i_cnt i /\ p < i_pts i /\ i_pts i <= end_pts p l.
Proof.
  revert p. induction l as [|j l IH]; intros p Hg Hi; [by apply not_elem_of_nil in Hi|].
  destruct Hg as (Hc & E & Hg). pose proof (end_pts_total _ _ Hg).
  pose proof (total_nonneg _ _ Hg).
  apply elem_of_cons in Hi as [->|Hi]; simpl; [lia|].
  destruct (IH _ Hg Hi) as (? & ? & ?). lia.
Qed.

Lemma gapless_sorted (p : Z) (l : list item) :
  gapless p l -> StronglySorted (fun i j => i_pts i < i_pts j) l.
Proof.
  revert p. induction l as [|i l IH]; intros p; simpl; [constructor|].
  intros (? & ? & Hg). constructor; [by eapply IH|].
  apply Forall_forall. intros j Hj. by eapply gapless_pos.
Qed.

Lemma max_pts_ge (p : Z) (l : list item) : p <= max_pts p l.
Proof. induction l; simpl; lia. Qed.

Lemma max_pts_le (p q : Z) (l : list item) :
  p <= q -> max_pts q l <= Z.max q (max_pts p l).
Proof. intros. induction l; simpl; lia. Qed.

(** The base of the maximum does not matter below the elements. *)
Lemma max_pts_base (p q : Z) (d : list item) :
  d <> [] -> (forall j, j ∈ d -> p <= i_pts j /\ q <= i_pts j) -> max_pts p d = max_pts q d.
Proof.
  destruct d as [|i d]; [done|]. intros _ H. simpl.
  pose proof (H i ltac:(left)) as [? ?]. clear H. induction d; simpl; lia.
Qed.

(** A part [d] of a gapless history that starts with [i]: either [i] is in it
    or all of it comes after [i]. *)
Lemma gapless_head (p : Z) (i : item) (l d r : list item) :
  gapless p (i :: l) -> d ++ r ≡ₚ i :: l ->
  (exists d', d ≡ₚ i :: d' /\ d' ++ r ≡ₚ l)
  \/ (exists r', d ++ r' ≡ₚ l /\ forall j, j ∈ d -> i_pts i < i_pts j).
Proof.
  intros (Hc & E & Hg) Hp.
  assert (i ∈ d ++ r) as Hi by (rewrite Hp; left).
  apply elem_of_app in Hi as [Hi|Hi]; apply elem_of_Permutation in Hi as [k Hk].
  - left. exists k. split; [done|]. apply (inj (cons i)).
    by rewrite <- Hp, Hk.
  - right. exists k. assert (d ++ k ≡ₚ l) as Hl.
    { apply (inj (cons i)). rewrite <- Hp, Hk. by rewrite Permutation_middle. }
    split; [done|]. intros j Hj. eapply gapless_pos; [done|].
    rewrite <- Hl. apply elem_of_app. by left.
Qed.

Lemma part_max (p : Z) (l d r : list item) :
  gapless p l -> d ++ r ≡ₚ l -> p + total d <= max_pts p d.
Proof.
  revert p d r. induction l as [|i l IH]; intros p d r Hg Hp.
  { apply Permutation_nil_r, app_eq_nil in Hp as [-> _]. simpl; lia. }
  pose proof Hg as (Hc & E & Hg').
  destruct (gapless_head p i l d r Hg Hp) as [(d' & Hd & Hp')|(r' & Hp' & Hlow)].
  - rewrite (max_pts_perm _ _ _ Hd), (total_perm _ _ Hd). simpl.
    specialize (IH _ _ _ Hg' Hp').
    pose proof (max_pts_le p (i_pts i) d' ltac:(lia)). lia.
  - specialize (IH _ _ _ Hg' Hp'). destruct d as [|j d]; [simpl in *; lia|].
    rewrite (max_pts_base p (i_pts i)) in * by
      (done || intros k Hk; specialize (Hlow k Hk); lia). lia.
Qed.

Lemma max_pts_end (p : Z) (l : list item) : gapless p l -> max_pts p l = p + total l.
Proof.
  intros Hg. pose proof (part_max p l l [] Hg ltac:(by rewrite app_nil_r)).
  enough (max_pts p l <= p + total l) by lia.
  assert (forall m k, p <= m -> (forall i, i ∈ k -> i_pts i <= m) -> max_pts p k <= m) as Hm.
  { intros m k Hpm. induction k as [|i k IH]; simpl; intros Hk; [lia|].
    pose proof (Hk i ltac:(left)). specialize (IH ltac:(intros; apply Hk; by right)). lia. }
  apply Hm; [pose proof (total_nonneg _ _ Hg); lia|].
  intros i Hi. rewrite <- end_pts_total by done. by eapply gapless_pos.
Qed.

(** What the code relies on: a part of a gapless history whose newest update
    ends where the events received end is a prefix of the history. *)
Lemma closed_is_prefix (p : Z) (l d r : list item) :
  gapless p l -> d ++ r ≡ₚ l -> max_pts p d = p + total d ->
  exists a b, l = a ++ b /\ d ≡ₚ a.
Proof.
  revert p d r. induction l as [|i l IH]; intros p d r Hg Hp Hmax.
  { exists [], []. apply Permutation_nil_r, app_eq_nil in Hp as [-> ->]. done. }
  pose proof Hg as (Hc & E & Hg').
  destruct (gapless_head p i l d r Hg Hp) as [(d' & Hd & Hp')|(r' & Hp' & Hlow)].
  - destruct (IH (i_pts i) d' r) as (a & b & -> & Ha); [done|done| |].
    { rewrite (max_pts_perm _ _ _ Hd), (total_perm _ _ Hd) in Hmax. simpl in Hmax.
      pose proof (part_max _ _ _ _ Hg' Hp'). pose proof (max_pts_ge (i_pts i) d').
      pose proof (max_pts_le p (i_pts i) d' ltac:(lia)). lia. }
    exists (i :: a), b. split; [done|]. by rewrite Hd, Ha.
  - pose proof (part_max _ _ _ _ Hg' Hp') as Hge. destruct d as [|j d].
    { exists [], (i :: l). done. }
    rewrite (max_pts_base p (i_pts i)) in Hmax by
      (done || intros k Hk; specialize (Hlow k Hk); lia). lia.
Qed.

(** *** The saved updates *)

Definition kind_of (i : item) : PtsSkippedQueue :=
  match i_body i with inl _ => SkippedUpdate | inr _ => SkippedUpdates end.
Definition as_update (i : item) : option MTPUpdate :=
  match i_body i with inl u => Some u | inr _ => None end.
Definition as_updates (i : item) : option MTPUpdates :=
  match i_body i with inl _ => None | inr us => Some us end.

(** The three queues of the waiter hold the items of [q]. *)
Definition holds (w : waiter) (q : gmap Z item) : Prop :=
  queue w = kind_of <$> q /\ updateQueue w = omap as_update q
  /\ updatesQueue w = omap as_updates q.

(** A saved item is keyed by its pts and the number of its arrival. *)
Definition keyed (sk : Z) (q : gmap Z item) : Prop :=
  forall k i, q !! k = Some i -> exists s, k = i_pts i * 2 ^ 32 + s /\ 0 <= s <= sk.

(** What the queue operations leave alone. *)
Definition frame (w w' : waiter) : Prop :=
  good w' = good w /\ last_pts w' = last_pts w /\ count w' = count w
  /\ requesting w' = requesting w /\ applySkippedLevel w' = applySkippedLevel w.

Definition in_order (q : gmap Z item) : list item := (entries q).*2.

Definition enqueue (i : item) (w : waiter) : waiter :=
  match i_body i with
  | inl u => emplaceUpdate (i_pts i) u w
  | inr us => emplaceUpdates (i_pts i) us w
  end.

Definition applyNow (i : item) (w : waiter) : waiter :=
  match i_body i with
  | inl u => emit (ApplyUpdate (Some u)) w
  | inr us => emit (ApplyUpdates (Some us)) w
  end.

Lemma in_order_insert (q : gmap Z item) (k : Z) (i : item) :
  q !! k = None -> in_order (<[k := i]> q) ≡ₚ i :: in_order q.
Proof. intros H. unfold in_order. by rewrite !entries_perm, map_to_list_insert. Qed.

Lemma in_order_empty : in_order ∅ = [].
Proof. reflexivity. Qed.

Lemma in_order_sorted (sk : Z) (q : gmap Z item) :
  keyed sk q -> sk < 2 ^ 32 ->
  StronglySorted (fun i j => i_pts i <= i_pts j) (in_order q).
Proof.
  intros Hk Hsk. unfold in_order.
  assert (forall kv, kv ∈ entries q -> exists s, kv.1 = i_pts kv.2 * 2 ^ 32 + s /\ 0 <= s <= sk) as H.
  { intros [k i] Hin%elem_of_entries. by apply Hk. }
  pose proof (entries_sorted q) as Hs.
  induction (entries q) as [|kv l IH]; [constructor|].
  inversion Hs as [|? ? Hs' Hall]; subst. simpl. constructor.
  - apply IH; [|done]. intros. apply H. by right.
  - apply Forall_fmap, Forall_forall. intros kv' Hin. simpl.
    rewrite Forall_forall in Hall. specialize (Hall _ Hin).
    destruct (H kv ltac:(left)) as (s & E & ?), (H kv' ltac:(by right)) as (s' & E' & ?). nia.
Qed.

(** Applying the queues hands over the items in key order. *)
Lemma apply_queue (w : waiter) (q : gmap Z item) :
  holds w q ->
  foldl applyOne w (entries (queue w))
  = foldl (fun w i => applyNow i w) w (in_order q).
Proof.
  intros (Hq & Hu & Hus). rewrite Hq, entries_fmap. unfold in_order.
  assert (forall kv, kv ∈ entries q -> q !! kv.1 = Some kv.2) as H.
  { intros [k i]. by rewrite elem_of_entries. }
  revert w Hu Hus Hq. induction (entries q) as [|[k i] l IH]; intros w Hu Hus Hq; [done|].
  simpl. pose proof (H (k, i) ltac:(left)) as Hk. simpl in Hk.
  assert (applyOne w (k, kind_of i) = applyNow i w) as ->.
  { unfold applyOne, applyNow, kind_of. rewrite Hu, Hus. simpl.
    destruct (i_body i) eqn:E; rewrite lookup_omap, Hk; simpl;
      unfold as_update, as_updates; by rewrite E. }
  apply IH; [intros; apply H; by right| | |]; unfold applyNow; by destruct (i_body i).
Qed.

Lemma foldl_applyNow (l : list item) (w : waiter) :
  let w' := foldl (fun w i => applyNow i w) w l in
  applied w' = applied w ++ (i_body <$> l) /\ frame w w' /\ skippedKey w' = skippedKey w.
Proof.
  revert w. induction l as [|i l IH]; intros w; simpl; [by rewrite app_nil_r|].
  destruct (IH (applyNow i w)) as (-> & Hf & ->).
  assert (applied (applyNow i w) = applied w ++ [i_body i]) as ->.
  { unfold applied, applyNow. destruct (i_body i); simpl; by rewrite omap_app. }
  rewrite <- app_assoc. unfold frame in *. unfold applyNow in *.
  by destruct (i_body i).
Qed.

Lemma ptsKey_key (q : PtsSkippedQueue) (pts : Z) (w : waiter) :
  0 <= pts < 2 ^ 31 -> 0 <= skippedKey w -> skippedKey w + 1 < 2 ^ 32 ->
  (ptsKey q pts w).1 = pts * 2 ^ 32 + (skippedKey w + 1).
Proof.
  intros Hp Hs Hs'. unfold ptsKey. simpl.
  rewrite (wrapu_small 32 pts), (wrapu_small 32 (_ + 1)), Z.shiftl_mul_pow2
    by (unfold fits_u; lia).
  rewrite wrapu_small by (unfold fits_u; lia).
  rewrite <- Z.shiftl_mul_pow2, lor_shiftl_low, ?Z.shiftl_mul_pow2 by lia. lia.
Qed.

Lemma enqueue_spec (i : item) (w : waiter) (q : gmap Z item) :
  holds w q -> keyed (skippedKey w) q ->
  0 <= i_pts i < 2 ^ 31 -> 0 <= skippedKey w -> skippedKey w + 1 < 2 ^ 32 ->
  exists k, q !! k = None /\ holds (enqueue i w) (<[k := i]> q)
    /\ keyed (skippedKey w + 1) (<[k := i]> q)
    /\ skippedKey (enqueue i w) = skippedKey w + 1 /\ frame w (enqueue i w)
    /\ waitingForSkipped (enqueue i w) = waitingForSkipped w
    /\ log (enqueue i w) = log w.
Proof.
  intros (Hq & Hu & Hus) Hkeyed Hp Hs Hs'.
  pose proof (ptsKey_key (kind_of i) (i_pts i) w Hp Hs Hs') as Hkey.
  set (k := i_pts i * 2 ^ 32 + (skippedKey w + 1)) in *. exists k.
  assert (q !! k = None) as Hnone.
  { destruct (q !! k) as [j|] eqn:E; [|done]. exfalso.
    destruct (Hkeyed k j E) as (s & Ek & ?). subst k. nia. }
  assert (wrapu 32 (skippedKey w + 1) = skippedKey w + 1) as Hw
    by (apply wrapu_small; unfold fits_u; lia).
  split; [done|]. unfold enqueue, emplaceUpdate, emplaceUpdates in *.
  assert (keyed (skippedKey w + 1) (<[k:=i]> q)) as Hk'.
  { intros k' j. destruct (decide (k = k')) as [<-|].
    - rewrite lookup_insert_eq. intros [= ->]. exists (skippedKey w + 1). subst k. lia.
    - rewrite lookup_insert_ne by done. intros Hj. destruct (Hkeyed _ _ Hj) as (s & ? & ?).
      exists s. lia. }
  unfold kind_of in Hkey. unfold frame.
  destruct (i_body i) eqn:Ei; simpl in *; rewrite Hkey; (split; [|done]); unfold holds; simpl;
    rewrite Hq, Hu, Hus, !emplace_fresh by (by rewrite ?lookup_fmap, ?lookup_omap, Hnone);
    rewrite fmap_insert; unfold kind_of at 2; rewrite Ei; (split; [done|]).
  - split.
    + by rewrite (omap_insert_Some _ _ _ _ m) by (unfold as_update; by rewrite Ei).
    + rewrite omap_insert_None by (unfold as_updates; by rewrite Ei).
      by rewrite delete_id by (by rewrite lookup_omap, Hnone).
  - split.
    + rewrite omap_insert_None by (unfold as_update; by rewrite Ei).
      by rewrite delete_id by (by rewrite lookup_omap, Hnone).
    + by rewrite (omap_insert_Some _ _ _ _ m) by (unfold as_updates; by rewrite Ei).
Qed.

Lemma applySkipped_spec (w : waiter) (q : gmap Z item) :
  holds w q -> waitingForSkipped w = true -> q <> ∅ ->
  let w' := applySkippedUpdates w in
  applied w' = applied w ++ (i_body <$> in_order q)
  /\ holds w' ∅
  /\ good w' = good w /\ last_pts w' = last_pts w /\ count w' = count w
  /\ requesting w' = requesting w /\ applySkippedLevel w' = 0
  /\ skippedKey w' = skippedKey w.
Proof.
  intros Hq Hw Hne w'. subst w'. unfold applySkippedUpdates. rewrite Hw. cbn [negb].
  set (w1 := setWaitingForSkipped (-1) w).
  assert (holds w1 q /\ frame w w1 /\ skippedKey w1 = skippedKey w
    /\ applied w1 = applied w) as (Hq1 & Hf1 & Hs1 & Ha1).
  { subst w1. unfold setWaitingForSkipped, checkForWaiting, frame, applied. simpl.
    destruct (negb (waitingForShortPoll w)); simpl; rewrite ?omap_app, ?app_nil_r; done. }
  rewrite bool_decide_false by (destruct Hq1 as [-> _]; intros E%fmap_empty_inv; done).
  assert (holds (set_level (applySkippedLevel w1 + 1) w1) q) as Hq2 by done.
  rewrite (apply_queue _ q Hq2).
  destruct (foldl_applyNow (in_order q) (set_level (applySkippedLevel w1 + 1) w1))
    as (Ha & Hf & Hs).
  unfold frame in *. simpl in *. destruct Hf as (-> & -> & -> & -> & _).
  destruct Hf1 as (-> & -> & -> & -> & _). rewrite Hs, Hs1. unfold applied in *. simpl in *.
  by rewrite Ha, Ha1.
Qed.

(** What [deliver] does to an update no older than the applied ones. *)
Lemma deliver_eq (w : waiter) (i : item) :
  requesting w = false -> applySkippedLevel w = 0 -> good w < i_pts i ->
  deliver w i =
    let '(ok, w1) := check (i_pts i) (i_cnt i) w in
    if ok then
      if negb (waitingForSkipped w1) || bool_decide (queue w1 = ∅)
      then applyNow i w1 else applySkippedUpdates (enqueue i w1)
    else enqueue i w1.
Proof.
  intros Hr Hl Hg. unfold deliver, updateAndApplyUpdate, updateAndApplyUpdates,
    updatedUpdate, updatedUpdates, applyNow, enqueue.
  rewrite Hr, Hl. replace (i_pts i <=? good w) with false by (symmetry; apply Z.leb_gt; lia).
  simpl. destruct (check _ _ w) as [[] w1], (i_body i); simpl; try done;
    by destruct (negb _ || _).
Qed.

Lemma gapless_inj (p : Z) (l : list item) (i j : item) :
  gapless p l -> i ∈ l -> j ∈ l -> i_pts i = i_pts j -> i = j.
Proof.
  revert p. induction l as [|a l IH]; intros p Hg Hi Hj E; [by apply not_elem_of_nil in Hi|].
  destruct Hg as (Hc & Ea & Hg).
  apply elem_of_cons in Hi as [->|Hi]; apply elem_of_cons in Hj as [->|Hj]; [done| | |by eapply IH].
  - pose proof (gapless_pos _ _ j Hg Hj). lia.
  - pose proof (gapless_pos _ _ i Hg Hi). lia.
Qed.

(** *** The invariant of a run

    After the updates [d] arrived, a prefix [a] of the history is applied and
    the rest of [d] is saved in [q]. *)
Record run_inv (p : Z) (base : list (MTPUpdate + MTPUpdates)) (chain d a b : list item)
    (q : gmap Z item) (w : waiter) : Prop := {
  ri_split : chain = a ++ b;
  ri_perm : d ≡ₚ a ++ in_order q;
  ri_good : good w = end_pts p a;
  ri_last : last_pts w = max_pts p d;
  ri_count : count w = p + total d;
  ri_holds : holds w q;
  ri_keyed : keyed (skippedKey w) q;
  ri_waiting : waitingForSkipped w = true \/ q = ∅;
  ri_closed : last_pts w = count w -> q = ∅;
  ri_applied : applied w = base ++ (i_body <$> a);
  ri_idle : requesting w = false /\ applySkippedLevel w = 0;
}.

Lemma run_rest (p : Z) base (chain d a b r : list item) (q : gmap Z item) (w : waiter) (i : item) :
  run_inv p base chain d a b q w -> d ++ i :: r ≡ₚ chain ->
  in_order q ++ i :: r ≡ₚ b.
Proof.
  intros [Hs Hp _ _ _ _ _ _ _ _ _] Hd. apply (inj (app a)).
  by rewrite <- Hs, <- Hd, Hp, app_assoc.
Qed.

(** When the update closes the gap, the saved items and it are, in key order,
    the next part of the history. *)
Lemma closing (p : Z) base (chain d a b r : list item) (q : gmap Z item) (w : waiter) (i : item) :
  gapless p chain -> run_inv p base chain d a b q w -> d ++ i :: r ≡ₚ chain ->
  max_pts p (d ++ [i]) = p + total (d ++ [i]) ->
  exists c b', chain = (a ++ c) ++ b' /\ c ≡ₚ in_order q ++ [i] /\ d ++ [i] ≡ₚ a ++ c.
Proof.
  intros Hg Hinv Hd Hmax.
  assert ((d ++ [i]) ++ r ≡ₚ chain) as Hd' by (by rewrite <- app_assoc).
  destruct (closed_is_prefix _ _ _ _ Hg Hd' Hmax) as (a' & b' & E & Ha').
  destruct Hinv as [Hs Hp _ _ _ _ _ _ _ _ _].
  assert (length a <= length a')%nat as Hlen.
  { rewrite <- Ha', Hp, !length_app. lia. }
  exists (drop (length a) a'), b'.
  assert (a' = a ++ drop (length a) a') as Ea'.
  { rewrite <- (take_drop (length a) a') at 1. f_equal.
    rewrite E in Hs. apply (f_equal (take (length a))) in Hs.
    by rewrite take_app_le, take_app_length in Hs. }
  split_and!; [by rewrite <- Ea'| |by rewrite <- Ea'].
  apply (inj (app a)). rewrite <- Ea', <- Ha', Hp. by rewrite app_assoc.
Qed.

Section step.
Context (p : Z) (base : list (MTPUpdate + MTPUpdates)) (chain : list item).
Hypothesis Hp : 0 < p.
Hypothesis Hchain : gapless p chain.
Hypothesis Hfits : end_pts p chain < 2 ^ 31.

Section delivery.
Context (d a b r : list item) (q : gmap Z item) (w : waiter) (i : item).
Hypothesis Hinv : run_inv p base chain d a b q w.
Hypothesis Hd : d ++ i :: r ≡ₚ chain.
Hypothesis Hsk : 0 <= skippedKey w /\ skippedKey w + 1 < 2 ^ 32.

Lemma next_after_good : good w < i_pts i /\ 0 < i_cnt i /\ i_pts i < 2 ^ 31 /\ 0 < good w.
Proof using Hinv Hd Hp Hchain Hfits.
  pose proof (run_rest _ _ _ _ _ _ _ _ _ _ Hinv Hd) as Hrest.
  destruct Hinv as [Hs _ -> _ _ _ _ _ _ _ _].
  pose proof Hchain as Hc. rewrite Hs in Hc. apply gapless_app in Hc as [Ha Hb].
  assert (i ∈ b) as Hi by (rewrite <- Hrest; apply elem_of_app; right; left).
  destruct (gapless_pos _ _ _ Hb Hi) as (? & ? & ?).
  assert (i ∈ chain) as Hi' by (rewrite Hs; apply elem_of_app; by right).
  destruct (gapless_pos _ _ _ Hchain Hi') as (? & ? & ?).
  pose proof (end_pts_total _ _ Ha). pose proof (total_nonneg _ _ Ha). lia.
Qed.

Lemma count_fits : wraps 32 (count w + i_cnt i) = p + total (d ++ [i]).
Proof using Hinv Hd Hp Hchain Hfits.
  destruct Hinv as [_ _ _ _ -> _ _ _ _ _ _]. rewrite total_app. simpl.
  pose proof (end_pts_total _ _ Hchain) as E.
  rewrite <- (total_perm _ _ Hd), total_app in E. simpl in E.
  assert (forall k, (forall j, j ∈ k -> j ∈ chain) -> 0 <= total k) as Hnn.
  { intros k Hk. induction k as [|j k IH]; simpl; [lia|].
    pose proof (gapless_pos _ _ j Hchain (Hk j ltac:(left))).
    specialize (IH ltac:(intros; apply Hk; by right)). lia. }
  pose proof (Hnn d ltac:(intros; rewrite <- Hd; apply elem_of_app; by left)).
  pose proof (Hnn r ltac:(intros; rewrite <- Hd; apply elem_of_app; right; by right)).
  pose proof next_after_good.
  rewrite wraps_small; unfold fits_s; lia.
Qed.

Lemma max_pts_snoc : Z.max (last_pts w) (i_pts i) = max_pts p (d ++ [i]).
Proof using Hinv.
  destruct Hinv as [_ _ _ -> _ _ _ _ _ _ _].
  rewrite (max_pts_perm p (d ++ [i]) (i :: d)) by (by rewrite Permutation_app_comm). simpl. lia.
Qed.

(** The saved items and the update that closes the gap are handed over in
    the order of the history. *)
Lemma closing_order (c : list item) (k : Z) :
  q !! k = None -> keyed (skippedKey w + 1) (<[k := i]> q) ->
  (forall j, j ∈ c -> j ∈ chain) -> StronglySorted (fun i j => i_pts i < i_pts j) c ->
  c ≡ₚ in_order q ++ [i] -> in_order (<[k := i]> q) = c.
Proof using Hchain Hsk.
  intros Hk Hkeyed Hc Hsort Hperm.
  apply (StronglySorted_unique_strong (fun i j => i_pts i <= i_pts j)).
  - intros x y Hx Hy ? ?. assert (forall j, j ∈ in_order (<[k := i]> q) -> j ∈ chain) as Hin.
    { intros j. rewrite in_order_insert by done. intros Hj. apply Hc. rewrite Hperm.
      rewrite elem_of_app, list_elem_of_singleton. apply elem_of_cons in Hj as [->|?]; auto. }
    apply (gapless_inj p chain); auto. lia.
  - apply (in_order_sorted (skippedKey w + 1)); [done|lia].
  - clear -Hsort. induction Hsort as [|j l Hl IH Hall]; constructor; [done|].
    eapply Forall_impl; [done|]. simpl. lia.
  - rewrite in_order_insert, Hperm by done. by rewrite (Permutation_app_comm _ [i]).
Qed.

(** The state in which the invariant is restored once a prefix is applied. *)
Lemma closed_inv (c b' : list item) (w' : waiter) :
  chain = (a ++ c) ++ b' -> d ++ [i] ≡ₚ a ++ c -> holds w' ∅ ->
  good w' = max_pts p (d ++ [i]) -> last_pts w' = max_pts p (d ++ [i]) ->
  count w' = p + total (d ++ [i]) ->
  max_pts p (d ++ [i]) = p + total (d ++ [i]) ->
  requesting w' = false -> applySkippedLevel w' = 0 ->
  applied w' = applied w ++ (i_body <$> c) ->
  run_inv p base chain (d ++ [i]) (a ++ c) b' ∅ w'.
Proof using Hinv Hchain.
  intros Es Hd' Hh Eg El Ec Eclosed Hr Hl Ha.
  constructor; try done; [by rewrite in_order_empty, app_nil_r| | |].
  - rewrite Eg, Eclosed. rewrite (total_perm _ _ Hd'). symmetry. apply end_pts_total.
    pose proof Hchain as Hg. rewrite Es in Hg. by apply gapless_app in Hg as [? _].
  - by right.
  - rewrite Ha, (ri_applied _ _ _ _ _ _ _ _ Hinv), <- app_assoc. by rewrite <- fmap_app.
Qed.

Lemma closed_step (w1 : waiter) :
  max_pts p (d ++ [i]) = p + total (d ++ [i]) ->
  w1 = set_pts (max_pts p (d ++ [i])) (max_pts p (d ++ [i])) (p + total (d ++ [i])) w ->
  let w' := if negb (waitingForSkipped w1) || bool_decide (queue w1 = ∅)
            then applyNow i w1 else applySkippedUpdates (enqueue i w1) in
  exists a' b' q', run_inv p base chain (d ++ [i]) a' b' q' w'
    /\ 0 <= skippedKey w' <= skippedKey w + 1.
Proof using All.
  intros Eclosed E1. pose proof next_after_good as (Hgood & Hcnt & Hpts & Hpos).
  pose proof Hinv as [Hs Hperm Eg El Ec Hh Hk Hw Hcl Happ [Hr Hl]].
  destruct (closing p base chain d a b r q w i Hchain Hinv Hd Eclosed)
    as (c & b' & Es & Hc & Hd').
  exists (a ++ c), b', ∅.
  assert (holds w1 q /\ applied w1 = applied w /\ waitingForSkipped w1 = waitingForSkipped w
    /\ skippedKey w1 = skippedKey w) as (Hh1 & Ha1 & Hw1 & Hsk1) by (by rewrite E1).
  destruct (negb _ || _) eqn:E.
  - assert (q = ∅) as Hq0.
    { apply orb_true_iff in E as [E|E].
      - destruct Hw as [Hw|?]; [|done]. by rewrite Hw1, Hw in E.
      - apply bool_decide_eq_true in E. destruct Hh1 as [Hq1 _]. rewrite Hq1 in E.
        by apply fmap_empty_inv in E. }
    rewrite Hq0, in_order_empty in Hc. apply Permutation_singleton_r in Hc as ->.
    rewrite Hq0 in Hh1.
    assert (frame w1 (applyNow i w1) /\ holds (applyNow i w1) ∅
      /\ skippedKey (applyNow i w1) = skippedKey w
      /\ applied (applyNow i w1) = applied w ++ [i_body i]) as (Hf & Hh2 & -> & Ha2).
    { rewrite <- Ha1, <- Hsk1. unfold applyNow, frame, applied.
      destruct (i_body i); simpl; rewrite omap_app; done. }
    split; [|lia]. destruct Hf as (F1 & F2 & F3 & F4 & F5).
    apply closed_inv; try done; by rewrite ?F1, ?F2, ?F3, ?F4, ?F5, ?E1.
  - apply orb_false_iff in E as [E _]. apply negb_false_iff in E.
    destruct (enqueue_spec i w1 q) as (k & Hk1 & Hh2 & Hk2 & Hs2 & Hf2 & Hw2 & Hl2);
      rewrite ?Hsk1; try done; [lia|lia|lia|].
    rewrite Hsk1 in Hk2, Hs2.
    destruct (applySkipped_spec (enqueue i w1) (<[k:=i]> q))
      as (Ha3 & Hh3 & G1 & G2 & G3 & G4 & G5 & G6); [done|by rewrite Hw2| |].
    { apply insert_non_empty. }
    destruct Hf2 as (F1 & F2 & F3 & F4 & F5).
    split; [|lia]. apply closed_inv; try done;
      rewrite ?G1, ?G2, ?G3, ?G4, ?F1, ?F2, ?F3, ?F4, ?E1; try done.
    + rewrite <- E1. rewrite Ha3, (closing_order c k); try done.
      * unfold applied at 1. rewrite Hl2. fold (applied w1). by rewrite Ha1.
      * intros j Hj. rewrite Es, !elem_of_app. auto.
      * pose proof Hchain as Hg. rewrite Es, <- app_assoc in Hg.
        apply gapless_app in Hg as [_ Hg]. apply gapless_app in Hg as [Hg _].
        by eapply gapless_sorted.
Qed.

Lemma open_step (w1 : waiter) :
  max_pts p (d ++ [i]) <> p + total (d ++ [i]) ->
  holds w1 q -> applied w1 = applied w -> waitingForSkipped w1 = true ->
  skippedKey w1 = skippedKey w ->
  frame (set_pts (good w) (max_pts p (d ++ [i])) (p + total (d ++ [i])) w) w1 ->
  exists a' b' q', run_inv p base chain (d ++ [i]) a' b' q' (enqueue i w1)
    /\ 0 <= skippedKey (enqueue i w1) <= skippedKey w + 1.
Proof using All.
  intros Eopen Hh1 Ha1 Hw1 Hsk1 (F1 & F2 & F3 & F4 & F5).
  pose proof next_after_good as (Hgood & Hcnt & Hpts & Hpos).
  pose proof Hinv as [Hs Hperm Eg El Ec Hh Hk Hw Hcl Happ [Hr Hl]].
  destruct (enqueue_spec i w1 q) as (k & Hk1 & Hh2 & Hk2 & Hs2 & (G1 & G2 & G3 & G4 & G5) & Hw2 & Hl2);
    rewrite ?Hsk1; try done; [lia|lia|lia|].
  exists a, b, (<[k:=i]> q). split; [|lia].
  constructor; try done.
  - rewrite in_order_insert by done. rewrite Hperm, <- app_assoc.
    by rewrite (Permutation_app_comm _ [i]).
  - rewrite G1, F1. done.
  - rewrite G2, F2. done.
  - rewrite G3, F3. done.
  - by rewrite Hs2.
  - left. by rewrite Hw2.
  - rewrite G2, G3, F2, F3. simpl. intros E. by destruct Eopen.
  - unfold applied. rewrite Hl2. fold (applied w1). by rewrite Ha1.
  - by rewrite G4, G5, F4, F5.
Qed.

(** One delivery keeps the invariant. *)
Lemma deliver_inv :
  exists a' b' q', run_inv p base chain (d ++ [i]) a' b' q' (deliver w i)
    /\ 0 <= skippedKey (deliver w i) <= skippedKey w + 1.
Proof using All.
  pose proof next_after_good as (Hgood & Hcnt & Hpts & Hpos).
  pose proof count_fits as Hcount. pose proof max_pts_snoc as Hmax.
  pose proof Hinv as [Hs Hperm Eg El Ec Hh Hk Hw Hcl Happ [Hr Hl]].
  rewrite deliver_eq by done. unfold check, inited.
  replace (0 <? good w) with true by (symmetry; apply Z.ltb_lt; lia). cbn [negb].
  rewrite Hcount, Hmax. cbn [last_pts count set_pts].
  destruct (max_pts p (d ++ [i]) =? p + total (d ++ [i])) eqn:E; bool_to_prop.
  - by apply closed_step.
  - replace (i_cnt i =? 0) with false by (symmetry; apply Z.eqb_neq; lia).
    apply open_step; try done; unfold setWaitingForSkipped, kWaitForSkippedTimeout, applied;
      destruct (_ <? _); simpl; rewrite ?omap_app, ?app_nil_r; try done.
Qed.

End delivery.
Lemma run_all (r d a b : list item) (q : gmap Z item) (w : waiter) :
  run_inv p base chain d a b q w -> d ++ r ≡ₚ chain ->
  0 <= skippedKey w -> skippedKey w + Z.of_nat (length r) < 2 ^ 32 ->
  exists d' a' b' q', run_inv p base chain d' a' b' q' (foldl deliver w r) /\ d' ≡ₚ chain.
Proof using Hp Hchain Hfits.
  revert d a b q w. induction r as [|i r IH]; intros d a b q w Hinv Hd Hsk Hlen.
  - exists d, a, b, q. by rewrite app_nil_r in Hd.
  - simpl in *.
    destruct (deliver_inv d a b r q w i Hinv Hd) as (a' & b' & q' & Hinv' & Hsk'); [lia|].
    eapply IH; [done| |lia|lia]. by rewrite <- app_assoc.
Qed.

End step.

(** *** Properties *)

(** C22. Updates are applied in the order of the history, each exactly once, in
    whatever order they arrive: from a waiter at box state [p] with nothing
    saved, any arrival order of a gapless history ends with exactly the bodies
    of the history handed over, in its order, the box state at its end and
    nothing left in the queues. *)
Theorem out_of_order_updates (p : Z) (history arrival : list item) (w : waiter) :
  0 < p -> good w = p -> last_pts w = p -> count w = p ->
  queue w = ∅ -> updateQueue w = ∅ -> updatesQueue w = ∅ ->
  requesting w = false -> applySkippedLevel w = 0 -> 0 <= skippedKey w ->
  gapless p history -> end_pts p history < 2 ^ 31 -> arrival ≡ₚ history ->
  skippedKey w + Z.of_nat (length arrival) < 2 ^ 32 ->
  let w' := foldl deliver w arrival in
  applied w' = applied w ++ (i_body <$> history)
  /\ good w' = end_pts p history /\ queue w' = ∅ /\ updateQueue w' = ∅
  /\ updatesQueue w' = ∅.
Proof.
  intros Hp Hg Hl Hc Hq Hu Hus Hr Hlv Hsk Hgap Hend Harr Hlen w'.
  assert (run_inv p (applied w) history [] [] history ∅ w) as Hinv.
  { constructor; try done; simpl; try lia; [by right|by rewrite app_nil_r]. }
  destruct (run_all p _ history Hp Hgap Hend arrival [] [] history ∅ w Hinv Harr Hsk Hlen)
    as (d & a & b & q & [Hs Hperm Eg El Ec Hh _ _ Hcl Ha _] & Hd).
  assert (q = ∅) as ->.
  { apply Hcl. rewrite El, Ec, (max_pts_perm _ _ _ Hd), (total_perm _ _ Hd).
    by apply max_pts_end. }
  rewrite in_order_empty, app_nil_r in Hperm.
  assert (b = []) as ->.
  { rewrite Hperm, Hs in Hd. apply Permutation_length in Hd. rewrite length_app in Hd.
    apply length_zero_iff_nil. lia. }
  rewrite app_nil_r in Hs. destruct Hh as (Q1 & Q2 & Q3). subst w'.
  split_and!; [by rewrite Ha, Hs|by rewrite Eg, Hs|done|done|done].
Qed.

(** An update that is already covered by the applied box state changes
    nothing; while a difference is requested (or saved updates are being
    applied) nothing is saved and the update is handed over directly. *)
Theorem update_not_saved (w : waiter) (i : item) :
  0 < i_cnt i ->
  (requesting w = false -> applySkippedLevel w = 0 -> i_pts i <= good w -> deliver w i = w)
  /\ (requesting w = true -> queue w = ∅ -> deliver w i = applyNow i w).
Proof.
  intros Hc. unfold deliver, updateAndApplyUpdate, updateAndApplyUpdates, updatedUpdate,
    updatedUpdates, applyNow. split.
  - intros Hr Hl Hle. rewrite Hr, Hl. replace (i_pts i <=? good w) with true by (symmetry; apply Z.leb_le; lia).
    replace (0 <? i_cnt i) with true by (symmetry; apply Z.ltb_lt; lia).
    by destruct (i_body i).
  - intros Hr Hq. rewrite Hr.
    destruct (i_body i); simpl; rewrite bool_decide_true, orb_true_r by done; done.
Qed.

End PtsWaiter.

(** A waiter at pts 10 with nothing saved. *)
Definition fresh_waiter : waiter (MTPUpdate := Z) (MTPUpdates := Z) :=
  mk_waiter ∅ ∅ ∅ 10 10 10 0 false false false 0 [].

Lemma out_of_order_updates_witness :
  let h := [mk_item 11 1 (inl 100); mk_item 13 2 (inr 200); mk_item 14 1 (inl 300)] in
  let arr := [mk_item 14 1 (inl 300); mk_item 13 2 (inr 200); mk_item 11 1 (inl 100)] in
  applied (foldl deliver fresh_waiter arr) = [inl 100; inr 200; inl 300].
Proof.
  intros h arr.
  destruct (out_of_order_updates 10 h arr fresh_waiter) as (H & _);
    [lia|reflexivity|reflexivity|reflexivity|reflexivity|reflexivity|reflexivity
    |reflexivity|reflexivity|simpl; lia| | | | |exact H].
  - simpl. repeat split; lia.
  - simpl. lia.
  - apply (Permutation_trans (l' := [mk_item 14 1 (inl 300); mk_item 11 1 (inl 100); mk_item 13 2 (inr 200)]));
      repeat constructor. apply (Permutation_trans (l' := [mk_item 11 1 (inl 100); mk_item 14 1 (inl 300); mk_item 13 2 (inr 200)])); repeat constructor.
  - simpl. lia.
Defined.

Lemma update_not_saved_witness :
  deliver fresh_waiter (mk_item 9 2 (inl 5)) = fresh_waiter.
Proof. apply (update_not_saved fresh_waiter (mk_item 9 2 (inl 5))); simpl; lia || reflexivity. Defined.
