(* ===== verification/SparseIdsList.v ===== *)
(** * Sparse lists of message ids

    [storage/storage_sparse_ids_list.h] and
    [storage/storage_sparse_ids_list.cpp]: what the client knows of a long
    list of message ids that it loads piece by piece. A slice is a set of ids
    together with a range in which nothing is missing; the list keeps its
    slices sorted, disjoint and not touching, and merges them when a new range
    connects them. *)

From S2P Require Import Prelude Ids.
Import Msg.

Record Slice := mk_slice { messages : gset Z; range : MsgRange }.

#[export] Instance Slice_eq_dec : EqDecision Slice.
Proof. solve_decision. Defined.

(** [SparseIdsSliceUpdate], the event fired on a change. *)
Record SliceUpdate := mk_update {
  u_messages : option (gset Z);
  u_range : MsgRange;
  u_count : option Z;
}.

(** [SparseIdsList]: [_count] and [_slices] (a [flat_set] ordered by
    [range.from]). *)
Record ids_list := mk_list { count : option Z; slices : list Slice }.

(** [Slice::merge], with its two [Expects]. *)
Definition merge (s : Slice) (moreMessages : gset Z) (moreNoSkipRange : MsgRange) :
    option Slice :=
  if (from moreNoSkipRange <=? till (range s)) && (from (range s) <=? till moreNoSkipRange)
  then Some (mk_slice (messages s ∪ moreMessages)
    (mk_range (Z.min (from (range s)) (from moreNoSkipRange))
              (Z.max (till (range s)) (till moreNoSkipRange))))
  else None.

(** Merging the slices that follow into the first one of the united range. *)
Fixpoint merge_all (s : Slice) (rest : list Slice) : option Slice :=
  match rest with
  | [] => Some s
  | it :: rest' => s' <-? merge s (messages it) (range it); merge_all s' rest'
  end.

(** [uniteAndAdd]: the slices from [uniteFrom] to [uniteTill] become one. *)
Definition uniteAndAdd (sl : list Slice) (uniteFrom uniteTill : nat)
    (ms : gset Z) (noSkipRange : MsgRange) : option (SliceUpdate * Z * list Slice) :=
  match drop uniteFrom (take uniteTill sl) with
  | [] => None
  | first :: rest =>
      let was := Z.of_nat (size (messages first)) in
      merged <-? merge first ms noSkipRange;
      united <-? merge_all merged rest;
      Some (mk_update (Some (messages united)) (range united) None,
            Z.of_nat (size (messages united)) - was,
            take uniteFrom sl ++ united :: drop uniteTill sl)
  end.

(** [_slices.emplace]: inserted at its place in the order by [range.from];
    with an equivalent slice present nothing is inserted. *)
Definition emplaceSlice (s : Slice) (sl : list Slice) : Slice * list Slice :=
  let at_ := partition_point (fun t => from (range t) <? from (range s)) sl in
  match drop at_ sl with
  | t :: post =>
      if from (range s) <? from (range t) then (s, take at_ sl ++ s :: t :: post)
      else (t, sl)
  | [] => (s, take at_ sl ++ [s])
  end.

Definition uniteFromIndex (sl : list Slice) (r : MsgRange) : nat :=
  partition_point (fun s => till (range s) <? from r) sl.
Definition uniteTillIndex (sl : list Slice) (r : MsgRange) : nat :=
  partition_point (fun s => from (range s) <=? till r) sl.

Definition addRangeItemsAndCountNew (sl : list Slice) (ms : gset Z) (noSkipRange : MsgRange) :
    option (SliceUpdate * Z * list Slice) :=
  if negb (from noSkipRange <=? till noSkipRange) then None
  else if (from noSkipRange =? till noSkipRange) && bool_decide (ms = ∅)
  then Some (mk_update None (mk_range 0 0) None, 0, sl)
  else
    let uniteFrom := uniteFromIndex sl noSkipRange in
    let uniteTill := uniteTillIndex sl noSkipRange in
    if bool_decide (uniteFrom < uniteTill)%nat
    then uniteAndAdd sl uniteFrom uniteTill ms noSkipRange
    else
      let '(slice, sl') := emplaceSlice (mk_slice ms noSkipRange) sl in
      Some (mk_update (Some (messages slice)) (range slice) None,
            Z.of_nat (size (messages slice)), sl').

(** What [addRange] does to a list of one slice: when it holds as many ids as
    the list has, nothing is missing anywhere; and a slice over the whole
    range says how many ids there are. *)
Definition settleSingle (l : ids_list) : ids_list :=
  match slices l with
  | [s] =>
      let s := match count l with
        | Some c => if c <=? Z.of_nat (size (messages s))
                    then mk_slice (messages s) (mk_range 0 ServerMaxMsgId) else s
        | None => s
        end in
      mk_list (if bool_decide (range s = mk_range 0 ServerMaxMsgId)
               then Some (Z.of_nat (size (messages s))) else count l) [s]
  | _ => l
  end.

(** [addRange], with the event it fires; [None] when an [Expects] fails. *)
Definition addRange (l : ids_list) (ms : gset Z) (noSkipRange : MsgRange)
    (cnt : option Z) (incrementCount : bool) : option (ids_list * SliceUpdate) :=
  if bool_decide (is_Some cnt) && incrementCount then None
  else
    r <-? addRangeItemsAndCountNew (slices l) ms noSkipRange;
    let '(update, added, sl) := r in
    let c := match cnt with
      | Some _ => cnt
      | None => if incrementCount && (0 <? added) then Z.add added <$> count l else count l
      end in
    let l := settleSingle (mk_list c sl) in
    let c := match count l, u_messages update with
      | Some c, Some m => Some (Z.max c (Z.of_nat (size m)))
      | c, _ => c
      end in
    Some (mk_list c (slices l), mk_update (u_messages update) (u_range update) c).

Definition addNew (l : ids_list) (messageId : Z) : option (ids_list * SliceUpdate) :=
  addRange l {[messageId]} (mk_range messageId ServerMaxMsgId) None true.

Definition addExisting (l : ids_list) (messageId : Z) (noSkipRange : MsgRange) :
    option (ids_list * SliceUpdate) :=
  addRange l {[messageId]} noSkipRange None false.

Definition addSlice (l : ids_list) (messageIds : list Z) (noSkipRange : MsgRange)
    (cnt : option Z) : option (ids_list * SliceUpdate) :=
  addRange l (list_to_set messageIds) noSkipRange cnt false.

(** [ranges::lower_bound(_slices, id, ..., range.till)] *)
Definition sliceIndex (sl : list Slice) (id : Z) : nat :=
  partition_point (fun s => till (range s) <? id) sl.

Definition removeOne (l : ids_list) (messageId : Z) : ids_list :=
  let i := sliceIndex (slices l) messageId in
  let sl := match slices l !! i with
    | Some s => if from (range s) <=? messageId
                then <[i := mk_slice (messages s ∖ {[messageId]}) (range s)]> (slices l)
                else slices l
    | None => slices l
    end in
  mk_list (Z.pred <$> count l) sl.

Definition removeAll (l : ids_list) : ids_list :=
  mk_list (Some 0) [mk_slice ∅ (mk_range 0 ServerMaxMsgId)].

Definition invalidateBottom (l : ids_list) : ids_list :=
  let i := pred (length (slices l)) in
  let sl := match slices l !! i with
    | Some last =>
        if till (range last) =? ServerMaxMsgId
        then <[i := mk_slice (messages last) (mk_range (from (range last))
               (default (from (range last)) (list.last (sorted_elements (messages last)))))]>
             (slices l)
        else slices l
    | None => slices l
    end in
  mk_list None sl.

(** [SparseIdsListQuery] and [SparseIdsListResult] *)
Record Query := mk_query { aroundId : Z; limitBefore : Z; limitAfter : Z }.
Record QueryResult := mk_result {
  r_count : option Z;
  r_skippedBefore : option Z;
  r_skippedAfter : option Z;
  r_messageIds : list Z;
}.
Definition emptyResult : QueryResult := mk_result None None None [].

Definition queryFromSlice (l : ids_list) (q : Query) (s : Slice) : QueryResult :=
  let ids := sorted_elements (messages s) in
  let position := partition_point (fun id => id <? aroundId q) ids in
  let haveBefore := Z.of_nat position in
  let haveEqualOrAfter := Z.of_nat (length ids) - Z.of_nat position in
  let before := Z.min haveBefore (limitBefore q) in
  let equalOrAfter := Z.min haveEqualOrAfter (limitAfter q + 1) in
  let found := take (Z.to_nat (before + equalOrAfter))
                 (drop (Z.to_nat (haveBefore - before)) ids) in
  let skippedBefore := if from (range s) =? 0 then Some (haveBefore - before) else None in
  let skippedAfter := if till (range s) =? ServerMaxMsgId
    then Some (haveEqualOrAfter - equalOrAfter) else None in
  match count l with
  | None => mk_result None skippedBefore skippedAfter found
  | Some c =>
      let n := Z.of_nat (length found) in
      match skippedBefore, skippedAfter with
      | None, Some a => mk_result (Some c) (Some (c - a - n)) (Some a) found
      | Some b, None => mk_result (Some c) (Some b) (Some (c - b - n)) found
      | _, _ => mk_result (Some c) skippedBefore skippedAfter found
      end
  end.

(** The slice a query falls in. [aroundId == 0] finds none. *)
Definition sliceAround (l : ids_list) (id : Z) : option Slice :=
  if id =? 0 then None
  else s <-? slices l !! sliceIndex (slices l) id;
       if from (range s) <=? id then Some s else None.

Definition snapshot (l : ids_list) (q : Query) : QueryResult :=
  match sliceAround l (aroundId q) with
  | Some s => queryFromSlice l q s
  | None => match count l with
            | Some c => mk_result (Some c) None None []
            | None => emptyResult
            end
  end.

(** [query]: the values put to the consumer before it is done. *)
Definition query (l : ids_list) (q : Query) : list QueryResult :=
  match sliceAround l (aroundId q) with
  | Some s => [queryFromSlice l q s]
  | None => match count l with
            | Some c => [mk_result (Some c) None None []]
            | None => []
            end
  end.

Definition isEmpty (l : ids_list) : bool :=
  forallb (fun s => bool_decide (messages s = ∅)) (slices l).

(** ** Well-formed lists *)

Definition slice_ok (s : Slice) : Prop :=
  0 <= from (range s) <= till (range s) /\ till (range s) <= ServerMaxMsgId
  /\ forall x, x ∈ messages s -> from (range s) <= x <= till (range s).

Definition apart (s t : Slice) : Prop := till (range s) < from (range t).

(** Slices are in their ranges, sorted, disjoint and do not touch. *)
Definition wf (sl : list Slice) : Prop := Forall slice_ok sl /\ StronglySorted apart sl.

Lemma wf_app (l k : list Slice) :
  wf (l ++ k) <-> wf l /\ wf k /\ forall s t, s ∈ l -> t ∈ k -> apart s t.
Proof. unfold wf. rewrite Forall_app, StronglySorted_app_iff. tauto. Qed.

Lemma wf_cons (s : Slice) (l : list Slice) :
  wf (s :: l) <-> slice_ok s /\ wf l /\ forall t, t ∈ l -> apart s t.
Proof.
  unfold wf. rewrite Forall_cons. split.
  - intros [[? ?] Hs]. inversion Hs as [|? ? ? Hall]; subst. rewrite Forall_forall in Hall. auto.
  - intros (? & [? ?] & ?). split; [done|]. constructor; [done|]. by apply Forall_forall.
Qed.

Lemma wf_ok (l : list Slice) (s : Slice) : wf l -> s ∈ l -> slice_ok s.
Proof. intros [H _]. rewrite Forall_forall in H. auto. Qed.

(** The slices of a well-formed list that a range meets are the ones between
    the two bounds the code computes. *)
Lemma cut (sl : list Slice) (r : MsgRange) :
  wf sl -> from r <= till r ->
  let a := uniteFromIndex sl r in
  let b := uniteTillIndex sl r in
  (a <= b)%nat
  /\ (forall s, s ∈ take a sl -> till (range s) < from r)
  /\ (forall s, s ∈ drop a (take b sl) -> from r <= till (range s) /\ from (range s) <= till r)
  /\ (forall s, s ∈ drop b sl -> till r < from (range s)).
Proof.
  intros Hwf Hr a b. pose proof Hwf as [Hok Hs]. rewrite Forall_forall in Hok.
  assert (forall s, s ∈ sl -> from (range s) <= till (range s)) as Hle.
  { intros s Hin. destruct (Hok s Hin) as [? _]. lia. }
  assert (forall s, s ∈ drop b sl -> till r < from (range s)) as Hpost.
  { intros s Hin. enough ((from (range s) <=? till r) = false) by (bool_to_prop; lia).
    revert Hin. apply (partition_point_after (fun s => from (range s) <=? till r)). revert Hs.
    apply StronglySorted_impl. unfold apart. intros s1 s2 H1 H2 Hlt E.
    specialize (Hle s1 H1). bool_to_prop. apply Z.leb_le. lia. }
  split_and!; [| |intros s Hin; split|done].
  - apply partition_point_mono. intros s Hin E. specialize (Hle s Hin). bool_to_prop.
    apply Z.leb_le. lia.
  - intros s Hin. by apply partition_point_take, Z.ltb_lt in Hin.
  - enough ((till (range s) <? from r) = false) by (bool_to_prop; lia).
    assert (s ∈ drop a sl) as Hin'.
    { rewrite <- (take_drop b (drop a sl)). rewrite skipn_firstn_comm in Hin.
      rewrite take_drop. rewrite <- (take_drop (b - a) (drop a sl)). apply elem_of_app. by left. }
    revert Hin'. apply (partition_point_after (fun s => till (range s) <? from r)). revert Hs.
    apply StronglySorted_impl. unfold apart. intros s1 s2 H1 H2 Hlt E.
    specialize (Hle s2 H2). bool_to_prop. apply Z.ltb_lt. lia.
  - assert (s ∈ take b sl) as Hin'.
    { rewrite <- (take_drop a (take b sl)). apply elem_of_app. by right. }
    by apply partition_point_take, Z.leb_le in Hin'.
Qed.

(** *** Merging *)

Lemma merge_all_spec (s : Slice) (rest : list Slice) :
  (forall t, t ∈ rest -> from (range t) <= till (range s) /\ from (range s) <= till (range t)) ->
  Forall slice_ok rest -> slice_ok s ->
  exists s', merge_all s rest = Some s' /\ slice_ok s'
    /\ messages s' = messages s ∪ ⋃ (messages <$> rest)
    /\ from (range s') <= from (range s) /\ till (range s) <= till (range s')
    /\ (forall t, t ∈ rest -> from (range s') <= from (range t) /\ till (range t) <= till (range s'))
    /\ (forall x, from (range s') <= x <= till (range s') ->
          from (range s) <= x <= till (range s)
          \/ exists t, t ∈ rest /\ from (range t) <= x <= till (range t)).
Proof.
  revert s. induction rest as [|it rest IH]; intros s Hmeet Hok Hs; simpl.
  { exists s. simpl. rewrite union_empty_r_L.
    split_and!; try lia; try done; try (by intros ? ?%not_elem_of_nil); auto. }
  apply Forall_cons in Hok as [Hit Hok].
  destruct (Hmeet it ltac:(left)) as [M1 M2]. unfold merge.
  replace (_ && _) with true
    by (symmetry; apply andb_true_iff; split; apply Z.leb_le; lia).
  destruct Hs as (? & ? & Hsm), Hit as (? & ? & Hitm).
  destruct (IH (mk_slice (messages s ∪ messages it) (mk_range (Z.min (from (range s)) (from (range it)))
      (Z.max (till (range s)) (till (range it)))))) as (s' & -> & Hok' & Hm & Hf & Ht & Hin & Hcov).
  - intros t Hin. simpl. destruct (Hmeet t ltac:(by right)). lia.
  - done.
  - split_and!; simpl; try lia. intros x [Hx|Hx]%elem_of_union;
      [specialize (Hsm x Hx)|specialize (Hitm x Hx)]; lia.
  - exists s'. simpl in *. split_and!; try done; try lia.
    + rewrite Hm. by rewrite assoc_L by apply _.
    + intros t [->|Ht']%elem_of_cons; [lia|by apply Hin].
    + intros x Hx. destruct (Hcov x Hx) as [Hx'|(t & Ht' & Hx')].
      * destruct (decide (from (range s) <= x <= till (range s))); [by left|right].
        exists it. split; [left|lia].
      * right. exists t. split; [by right|done].
Qed.

(** *** Adding a range of items *)

Definition in_range (r : MsgRange) (x : Z) : Prop := from r <= x <= till r.

(** What [addRangeItemsAndCountNew] makes of a list: the slices [mid] the range
    meets (none when a new slice is inserted) become one slice with the new
    ids, over exactly the union of their ranges. *)
Record united (sl : list Slice) (ms : gset Z) (r : MsgRange)
    (u : SliceUpdate) (added : Z) (sl' : list Slice) (mid : list Slice) (s' : Slice) : Prop := {
  un_split : exists pre post, sl = pre ++ mid ++ post /\ sl' = pre ++ s' :: post;
  un_messages : messages s' = ms ∪ ⋃ (messages <$> mid);
  un_range : forall x, in_range (range s') x <->
    in_range r x \/ exists t, t ∈ mid /\ in_range (range t) x;
  un_update : u_messages u = Some (messages s') /\ u_range u = range s' /\ u_count u = None;
  un_added : added = Z.of_nat (size (messages s'))
    - match mid with t :: _ => Z.of_nat (size (messages t)) | [] => 0 end;
  un_meets : forall t, t ∈ mid -> from r <= till (range t) /\ from (range t) <= till r;
}.

Lemma emplace_between (pre post : list Slice) (s : Slice) :
  (forall t, t ∈ pre -> from (range t) < from (range s)) ->
  (forall t, t ∈ post -> from (range s) < from (range t)) ->
  emplaceSlice s (pre ++ post) = (s, pre ++ s :: post).
Proof.
  intros Hpre Hpost. unfold emplaceSlice.
  rewrite (partition_point_app _ pre post).
  - rewrite take_app_length, drop_app_length. destruct post as [|t post]; [done|].
    replace (_ <? _) with true; [done|]. symmetry. apply Z.ltb_lt, Hpost. left.
  - intros t Ht. by apply Z.ltb_lt, Hpre.
  - intros t Ht. apply Z.ltb_ge. specialize (Hpost t Ht). lia.
Qed.

Lemma wf_united (pre mid post : list Slice) (r : MsgRange) (s' : Slice) :
  wf (pre ++ mid ++ post) -> slice_ok s' ->
  (forall s, s ∈ pre -> till (range s) < from r) ->
  (forall s, s ∈ post -> till r < from (range s)) ->
  (forall x, in_range (range s') x -> in_range r x \/ exists t, t ∈ mid /\ in_range (range t) x) ->
  wf (pre ++ s' :: post).
Proof.
  intros Hwf Hok Hpre Hpost Hcov. apply wf_app in Hwf as (W1 & W2 & W3).
  apply wf_app in W2 as (W2 & W4 & W5). unfold apart, in_range in *.
  pose proof Hok as (? & _ & _).
  apply wf_app. split_and!; [done|apply wf_cons; split_and!; [done|done|]|].
  - intros t Ht. unfold apart. destruct (Hcov (till (range s'))) as [Hx|(m & Hm & Hx)]; [lia| |].
    + specialize (Hpost t Ht). lia.
    + specialize (W5 m t Hm Ht). lia.
  - intros s t Hs [->|Ht]%elem_of_cons; unfold apart.
    + destruct (Hcov (from (range s'))) as [Hx|(m & Hm & Hx)]; [lia| |].
      * specialize (Hpre s Hs). lia.
      * specialize (W3 s m Hs ltac:(apply elem_of_app; by left)). lia.
    + apply W3; [done|]. apply elem_of_app. by right.
Qed.

Lemma unite_spec (first : Slice) (rest : list Slice) (ms : gset Z) (r : MsgRange) :
  wf (first :: rest) -> slice_ok (mk_slice ms r) ->
  (forall t, t ∈ first :: rest -> from r <= till (range t) /\ from (range t) <= till r) ->
  exists merged s', merge first ms r = Some merged /\ merge_all merged rest = Some s'
    /\ slice_ok s' /\ messages s' = ms ∪ ⋃ (messages <$> (first :: rest))
    /\ (forall x, in_range (range s') x <->
          in_range r x \/ exists t, t ∈ first :: rest /\ in_range (range t) x).
Proof.
  intros Hwf Hnew Hmeets. apply wf_cons in Hwf as (Hfok & Hrest & Hap).
  destruct (Hmeets first ltac:(left)) as [M1 M2]. unfold merge.
  replace (_ && _) with true by (symmetry; apply andb_true_iff; split; apply Z.leb_le; lia).
  destruct Hnew as (N1 & N2 & N3), Hfok as (F1 & F2 & F3). simpl in *.
  set (merged := mk_slice _ _).
  destruct (merge_all_spec merged rest) as (s' & Hs' & Hok & Hm & Hf & Ht & Hin & Hcov).
  - intros t Ht. destruct (Hmeets t ltac:(by right)). specialize (Hap t Ht). unfold apart in Hap.
    pose proof (wf_ok rest t Hrest Ht) as [? _]. subst merged. simpl. lia.
  - apply Hrest.
  - subst merged. unfold slice_ok. simpl. split_and!; try lia.
    intros x [Hx|Hx]%elem_of_union; [specialize (F3 x Hx)|specialize (N3 x Hx)]; lia.
  - exists merged, s'. subst merged. simpl in *. unfold in_range. split_and!; try done.
    + rewrite Hm. by rewrite (comm_L (∪) (messages first) ms), assoc_L by apply _.
    + intros x. split.
      * intros Hx. destruct (Hcov x Hx) as [Hx'|(t & Ht' & Hx')].
        -- destruct (decide (from (range first) <= x <= till (range first))); [|left; lia].
           right. exists first. split; [left|lia].
        -- right. exists t. split; [by right|done].
      * intros [Hx|(t & [->|Ht']%elem_of_cons & Hx)]; [lia|lia|].
        specialize (Hin t Ht'). lia.
Qed.

Lemma add_items_spec (sl : list Slice) (ms : gset Z) (r : MsgRange) :
  wf sl -> slice_ok (mk_slice ms r) ->
  exists u added sl', addRangeItemsAndCountNew sl ms r = Some (u, added, sl') /\ wf sl'
    /\ ((from r = till r /\ ms = ∅ /\ sl' = sl /\ u_messages u = None /\ added = 0)
        \/ exists mid s', united sl ms r u added sl' mid s').
Proof.
  intros Hwf Hnew. pose proof Hnew as (N1 & N2 & N3). simpl in *.
  unfold addRangeItemsAndCountNew.
  replace (negb _) with false by (symmetry; apply negb_false_iff, Z.leb_le; lia).
  destruct (_ && bool_decide _) eqn:E.
  { apply andb_true_iff in E as [E1 E2%bool_decide_eq_true]. bool_to_prop.
    eexists _, _, _. split; [done|]. split; [done|]. left. done. }
  clear E. destruct (cut sl r Hwf ltac:(lia)) as (Hle & Hpre & Hmid & Hpost).
  pose proof (split_two sl _ _ Hle) as Hsplit.
  set (a := uniteFromIndex sl r) in *. set (b := uniteTillIndex sl r) in *.
  set (pre := take a sl) in *. set (mid := drop a (take b sl)) in *. set (post := drop b sl) in *.
  case_bool_decide as Hab.
  - unfold uniteAndAdd. fold pre post. fold mid. destruct mid as [|first rest] eqn:Emid.
    { exfalso. assert (length mid = 0%nat) as Hl by (by rewrite Emid).
      subst mid. rewrite length_drop, length_take in Hl.
      assert (b <= length sl)%nat by apply partition_point_le. lia. }
    pose proof Hwf as Hwf'. rewrite Hsplit in Hwf'. apply wf_app in Hwf' as (_ & W & _).
    apply wf_app in W as (W & _ & _).
    destruct (unite_spec first rest ms r W Hnew Hmid) as (merged & s' & -> & -> & Hok & Hm & Hcov).
    eexists _, _, _. split; [done|]. split.
    + rewrite Hsplit in Hwf. eapply wf_united; try done. intros x. by apply Hcov.
    + right. exists (first :: rest), s'. constructor; try done.
      exists pre, post. done.
  - assert (mid = []) as Em.
    { subst mid. replace b with a by lia. apply drop_ge. rewrite length_take. lia. }
    rewrite Em in Hsplit. simpl in Hsplit.
    assert (emplaceSlice (mk_slice ms r) sl = (mk_slice ms r, pre ++ mk_slice ms r :: post)) as ->.
    { rewrite Hsplit. apply emplace_between; simpl.
      - intros t Ht. specialize (Hpre t Ht). assert (t ∈ sl) as Hin by (rewrite Hsplit; apply elem_of_app; by left).
        destruct (wf_ok sl t Hwf Hin) as [? _]. lia.
      - intros t Ht. specialize (Hpost t Ht). lia. }
    eexists _, _, _. split; [done|]. split.
    + apply (wf_united pre [] post r); try done; [by rewrite Hsplit in Hwf|auto].
    + right. exists [], (mk_slice ms r). constructor; simpl.
      * exists pre, post. done.
      * by rewrite union_empty_r_L.
      * intros x. split; [auto|]. intros [?|(? & ?%not_elem_of_nil & _)]; done.
      * done.
      * lia.
      * by intros t ?%not_elem_of_nil.
Qed.

(** ** What the list knows is true

    [T] is the full list of ids as the server has it. A list is accurate when
    its slices hold exactly the ids of [T] in their ranges, and its count, when
    it has one, is the size of [T]. *)
Record accurate (T : gset Z) (l : ids_list) : Prop := {
  acc_server : forall x, x ∈ T -> IsServerMsgId x = true;
  acc_wf : wf (slices l);
  acc_slices : forall s x, s ∈ slices l -> in_range (range s) x -> x ∈ messages s <-> x ∈ T;
  acc_count : forall c, count l = Some c -> c = Z.of_nat (size T);
}.

Lemma ServerMax_pos : 0 < ServerMaxMsgId.
Proof. reflexivity. Qed.

Lemma server_range (x : Z) : IsServerMsgId x = true -> 0 < x < ServerMaxMsgId.
Proof. unfold IsServerMsgId. intros. bool_to_prop. lia. Qed.

Lemma slice_subset (T : gset Z) (l : ids_list) (s : Slice) :
  accurate T l -> s ∈ slices l -> messages s ⊆ T.
Proof.
  intros [_ Hwf Hs _] Hin x Hx. apply (Hs s x Hin); [|done].
  by apply (wf_ok _ _ Hwf Hin).
Qed.

Lemma full_slice (T : gset Z) (l : ids_list) (s : Slice) :
  accurate T l -> s ∈ slices l -> range s = mk_range 0 ServerMaxMsgId -> messages s = T.
Proof.
  intros Hacc Hin Hr. apply set_eq. intros x. split; [by apply slice_subset with l|].
  intros Hx. apply (acc_slices _ _ Hacc s x Hin); [|done].
  rewrite Hr. unfold in_range. simpl. pose proof (server_range x (acc_server _ _ Hacc x Hx)). lia.
Qed.

Lemma settle_accurate (T : gset Z) (l : ids_list) :
  accurate T l -> accurate T (settleSingle l).
Proof.
  intros Hacc. unfold settleSingle. destruct (slices l) as [|s [|]] eqn:E; try done.
  assert (s ∈ slices l) as Hin by (rewrite E; left).
  set (s' := match count l with Some _ => _ | None => _ end).
  assert (accurate T (mk_list (count l) [s'])) as Hacc'.
  { subst s'. destruct (count l) as [c|] eqn:Ec; [|by rewrite <- Ec, <- E; destruct l].
    destruct (c <=? _) eqn:Ele; [|by rewrite <- Ec, <- E; destruct l]. bool_to_prop.
    pose proof (slice_subset T l s Hacc Hin) as Hsub.
    pose proof (acc_count _ _ Hacc c Ec) as Hc.
    assert (messages s = T) as HT by (apply (set_subseteq_size_eq _ _ Hsub); lia).
    constructor; simpl.
    - apply Hacc.
    - apply wf_cons. split_and!; [|split; constructor|by intros ? ?%not_elem_of_nil].
      unfold slice_ok; simpl. pose proof ServerMax_pos. split_and!; try lia.
      intros x Hx. rewrite HT in Hx. pose proof (server_range x (acc_server _ _ Hacc x Hx)). lia.
    - intros t x ->%list_elem_of_singleton _. simpl. by rewrite HT.
    - by intros ? [= <-]. }
  constructor; simpl; [apply Hacc|apply Hacc'|apply Hacc'|].
  intros c. case_bool_decide as Hr; [|apply Hacc].
  intros [= <-]. by rewrite (full_slice T _ s' Hacc' ltac:(left) Hr).
Qed.

(** Slices that agree with [T] except that they may lack ids in the range [r]. *)
Definition up_to (T : gset Z) (r : MsgRange) (sl : list Slice) : Prop :=
  forall s x, s ∈ sl ->
    (x ∈ messages s -> x ∈ T)
    /\ (in_range (range s) x -> ~ in_range r x -> x ∈ T -> x ∈ messages s).

Lemma accurate_up_to (T : gset Z) (l : ids_list) (r : MsgRange) :
  accurate T l -> up_to T r (slices l).
Proof.
  intros Hacc s x Hs. split; [by apply (slice_subset T l s Hacc Hs)|].
  intros Hx _. by apply (acc_slices _ _ Hacc s x Hs).
Qed.

(** Adding items that are, in the range they come with, exactly those of [T]. *)
Lemma add_items_accurate (T : gset Z) (sl : list Slice) (ms : gset Z) (r : MsgRange) :
  wf sl -> up_to T r sl ->
  slice_ok (mk_slice ms r) -> (forall x, in_range r x -> x ∈ ms <-> x ∈ T) ->
  exists u added sl', addRangeItemsAndCountNew sl ms r = Some (u, added, sl') /\ wf sl'
    /\ (forall s x, s ∈ sl' -> in_range (range s) x -> x ∈ messages s <-> x ∈ T)
    /\ (forall m, u_messages u = Some m -> m ⊆ T).
Proof.
  intros Hwf Hs Hok Hms.
  destruct (add_items_spec sl ms r Hwf Hok) as (u & added & sl' & E & Hwf' & Hcase).
  exists u, added, sl'. split; [done|]. split; [done|].
  destruct Hcase as [(E1 & E2 & -> & Hu & Ha)|(mid & s' & Hun)].
  { split; [|intros m; by rewrite Hu]. intros s x Hin Hx. destruct (Hs s x Hin) as [H1 H2].
    split; [done|]. intros HT. apply H2; try done. intros Hr. apply Hms in HT; [|done].
    by rewrite E2 in HT. }
  pose proof Hun as [(pre & post & -> & ->) Hm Hr [Hu _] _ _].
  assert (forall t, t ∈ mid -> t ∈ pre ++ mid ++ post) as Hmid
    by (intros; rewrite !elem_of_app; auto).
  assert (forall x, x ∈ messages s' -> x ∈ T) as Hsub.
  { intros x. rewrite Hm, elem_of_union, elem_of_union_list.
    intros [Hin|(y & (t & -> & Ht)%list_elem_of_fmap & Hin)].
    - apply Hms; [|done]. by apply Hok in Hin.
    - by apply (Hs t x (Hmid t Ht)). }
  assert (forall s x, s ∈ pre \/ s ∈ post -> in_range (range s) x -> ~ in_range r x) as Hout.
  { intros s x Hin Hx Hxr. assert (in_range (range s') x) as Hx' by (apply Hr; by left).
    apply wf_app in Hwf' as (_ & W & W'). apply wf_cons in W as (_ & _ & W).
    unfold in_range, apart in *. destruct Hin as [Hin|Hin].
    - specialize (W' s s' Hin ltac:(left)). lia.
    - specialize (W s Hin). lia. }
  split; [|intros m; rewrite Hu; by intros [= <-]].
  assert (forall s x, s ∈ pre \/ s ∈ post -> in_range (range s) x -> x ∈ messages s <-> x ∈ T) as Hrest.
  { intros s x Hin Hx. destruct (Hs s x) as [H1 H2]; [rewrite !elem_of_app; tauto|].
    split; [done|]. by apply H2, Hout with s. }
  intros s x [Hin|[->|Hin]%elem_of_cons]%elem_of_app Hx; [by apply Hrest; auto| |by apply Hrest; auto].
  split; [apply Hsub|]. intros HT. rewrite Hm, elem_of_union, elem_of_union_list.
  destruct (decide (in_range r x)); [left; by apply Hms|right].
  apply Hr in Hx as [Hx|(t & Ht & Hx)]; [done|].
  exists (messages t). split; [by apply list_elem_of_fmap_2|]. by apply (Hs t x (Hmid t Ht)).
Qed.

(** The last part of [addRange], common to its three callers. *)
Lemma addRange_accurate (T : gset Z) (l : ids_list) (ms : gset Z) (r : MsgRange)
    (cnt : option Z) (inc : bool) :
  (forall x, x ∈ T -> IsServerMsgId x = true) ->
  wf (slices l) -> up_to T r (slices l) ->
  slice_ok (mk_slice ms r) -> (forall x, in_range r x -> x ∈ ms <-> x ∈ T) ->
  (is_Some cnt -> inc = false) -> (forall c, cnt = Some c -> c = Z.of_nat (size T)) ->
  (forall u added sl', addRangeItemsAndCountNew (slices l) ms r = Some (u, added, sl') ->
     cnt = None -> forall c, count l = Some c ->
     (if inc && (0 <? added) then added + c else c) = Z.of_nat (size T)) ->
  exists l' u, addRange l ms r cnt inc = Some (l', u) /\ accurate T l'
    /\ (forall c, u_count u = Some c -> c = Z.of_nat (size T)).
Proof.
  intros HT Hwf Hs Hok Hms Hinc Hcnt Hcount.
  destruct (add_items_accurate T _ ms r Hwf Hs Hok Hms)
    as (u & added & sl' & E & Hwf' & Hs' & Hu).
  unfold addRange. rewrite E.
  assert (bool_decide (is_Some cnt) && inc = false) as ->.
  { case_bool_decide as Hc; [by rewrite (Hinc Hc)|done]. }
  set (c1 := match cnt with Some _ => cnt | None => _ end).
  assert (accurate T (mk_list c1 sl')) as Hacc.
  { constructor; simpl; try done. subst c1. intros c Hc. destruct cnt as [c'|]; [by apply Hcnt|].
    destruct (count l) as [c0|] eqn:E0; [|by destruct (inc && _)].
    specialize (Hcount _ _ _ E eq_refl c0 eq_refl).
    destruct (inc && (0 <? added)); simpl in Hc; by simplify_eq. }
  apply settle_accurate in Hacc. set (l1 := settleSingle _) in *.
  assert (forall c, match count l1, u_messages u with
      | Some c, Some m => Some (Z.max c (Z.of_nat (size m)))
      | c, _ => c end = Some c -> c = Z.of_nat (size T)) as Hc2.
  { intros c. destruct (count l1) as [c1'|] eqn:E1; [|by destruct (u_messages u)].
    apply (acc_count _ _ Hacc) in E1 as ->.
    destruct (u_messages u) as [m|] eqn:Em; intros [= <-]; [|done].
    pose proof (subseteq_size _ _ (Hu m eq_refl)). lia. }
  eexists _, _. split; [done|]. split; [|apply Hc2].
  destruct Hacc as [H1 H2 H3 H4]. constructor; simpl; done.
Qed.

(** *** The operations keep the list accurate *)

(** A new message is newer than all the others. *)
Lemma addNew_added (T : gset Z) (sl sl' : list Slice) (id : Z) u added :
  wf sl -> (forall s x, s ∈ sl -> x ∈ messages s -> x < id) ->
  0 < id < ServerMaxMsgId ->
  addRangeItemsAndCountNew sl {[id]} (mk_range id ServerMaxMsgId) = Some (u, added, sl') ->
  added = 1.
Proof.
  intros Hwf Hold Hid E.
  destruct (add_items_spec sl {[id]} (mk_range id ServerMaxMsgId) Hwf) as (u' & a' & l' & E' & _ & Hc).
  { unfold slice_ok; simpl. split_and!; try lia. intros x ->%elem_of_singleton. lia. }
  rewrite E in E'. simplify_eq.
  destruct Hc as [(? & Hemp & _)|(mid & s' & [(pre & post & -> & _) Hm _ _ -> Hmeet])].
  { simpl in *. lia. }
  rewrite Hm. apply wf_app in Hwf as (_ & W & _). apply wf_app in W as (W & _ & _).
  destruct mid as [|first rest].
  { change (⋃ (messages <$> [])) with (∅ : gset Z). rewrite union_empty_r_L, size_singleton. lia. }
  change (⋃ (messages <$> first :: rest)) with (messages first ∪ ⋃ (messages <$> rest)).
  apply wf_cons in W as (Hf & W & Hap). destruct (Hmeet first ltac:(left)) as [Hmf _]. simpl in Hmf.
  assert (⋃ (messages <$> rest) = ∅) as ->.
  { apply empty_union_list_L, Forall_fmap, Forall_forall. intros t Ht. simpl.
    apply elem_of_equiv_empty_L. intros x Hx. specialize (Hap t Ht). unfold apart in Hap.
    pose proof (wf_ok _ t W Ht) as (_ & _ & Hin). specialize (Hin x Hx).
    enough (x < id) by lia. apply (Hold t); [|done].
    apply elem_of_app. right. apply elem_of_app. left. by right. }
  rewrite union_empty_r_L, size_union, size_singleton; [lia|].
  apply disjoint_singleton_l. intros Hx. enough (id < id) by lia. apply (Hold first); [|done].
  apply elem_of_app. right. left.
Qed.

Lemma addNew_accurate (T : gset Z) (l : ids_list) (id : Z) :
  accurate T l -> IsServerMsgId id = true -> (forall x, x ∈ T -> x < id) ->
  exists l' u, addNew l id = Some (l', u) /\ accurate ({[id]} ∪ T) l'
    /\ (forall c, u_count u = Some c -> c = Z.of_nat (size ({[id]} ∪ T))).
Proof.
  intros Hacc Hid Hnew. pose proof (server_range id Hid) as Hr.
  assert (size ({[id]} ∪ T) = S (size T)) as Hsz.
  { rewrite size_union, size_singleton; [done|]. apply disjoint_singleton_l.
    intros Hx. specialize (Hnew id Hx). lia. }
  apply addRange_accurate; try done.
  - intros x [->%elem_of_singleton|Hx]%elem_of_union; [done|by apply (acc_server _ _ Hacc)].
  - apply Hacc.
  - intros s x Hs. pose proof (slice_subset T l s Hacc Hs x) as Hsub. split.
    + intros Hx. apply elem_of_union_r. auto.
    + intros Hx Hnr [->%elem_of_singleton|HT]%elem_of_union.
      * destruct Hnr. unfold in_range; simpl; lia.
      * by apply (acc_slices _ _ Hacc s x Hs).
  - unfold slice_ok; simpl. split_and!; try lia. intros x ->%elem_of_singleton. lia.
  - unfold in_range; simpl. intros x Hx. rewrite elem_of_union. split; [by left|].
    intros [?|HT]; [done|]. specialize (Hnew x HT). lia.
  - intros u added sl' E _ c Hc. apply (addNew_added T) in E as ->; [| | |done].
    + simpl. rewrite (acc_count _ _ Hacc c Hc), Hsz. lia.
    + apply Hacc.
    + intros s x Hs Hx. apply Hnew. by apply (slice_subset T l s Hacc Hs).
Qed.

(** A message that was there all along, with a range it is alone in. *)
Lemma addExisting_accurate (T : gset Z) (l : ids_list) (id : Z) (r : MsgRange) :
  accurate T l -> slice_ok (mk_slice {[id]} r) ->
  (forall x, in_range r x -> x ∈ T <-> x = id) ->
  exists l' u, addExisting l id r = Some (l', u) /\ accurate T l'
    /\ (forall c, u_count u = Some c -> c = Z.of_nat (size T)).
Proof.
  intros Hacc Hok Hr. apply addRange_accurate; try done.
  - apply Hacc.
  - apply Hacc.
  - by apply accurate_up_to.
  - intros x Hx. rewrite (Hr x Hx). apply elem_of_singleton.
  - intros u added sl' _ _ c Hc. simpl. by rewrite (acc_count _ _ Hacc c Hc).
Qed.

(** A piece of the list from the server. *)
Lemma addSlice_accurate (T : gset Z) (l : ids_list) (ids : list Z) (r : MsgRange) (cnt : option Z) :
  accurate T l -> 0 <= from r <= till r -> till r <= ServerMaxMsgId ->
  (forall x, x ∈ ids <-> x ∈ T /\ in_range r x) ->
  (forall c, cnt = Some c -> c = Z.of_nat (size T)) ->
  exists l' u, addSlice l ids r cnt = Some (l', u) /\ accurate T l'
    /\ (forall c, u_count u = Some c -> c = Z.of_nat (size T)).
Proof.
  intros Hacc Hr Hr' Hids Hcnt. apply addRange_accurate; try done.
  - apply Hacc.
  - apply Hacc.
  - by apply accurate_up_to.
  - split; [done|]. split; [done|]. intros x Hx. simpl in *.
    rewrite elem_of_list_to_set in Hx. by apply Hids in Hx as [_ Hx].
  - intros x Hx. rewrite elem_of_list_to_set, Hids. tauto.
  - intros u added sl' _ -> c Hc. simpl. by rewrite (acc_count _ _ Hacc c Hc).
Qed.

Lemma sliceIndex_covers (sl : list Slice) (id : Z) (s : Slice) :
  wf sl -> s ∈ sl -> in_range (range s) id -> sl !! sliceIndex sl id = Some s.
Proof.
  intros Hwf Hs Hid. apply list_elem_of_split in Hs as (pre & post & ->).
  apply wf_app in Hwf as (W1 & W2 & W3). apply wf_cons in W2 as (_ & W2 & W3').
  unfold sliceIndex. unfold in_range, apart in *.
  assert (partition_point (fun s => till (range s) <? id) (pre ++ s :: post) = length pre) as ->.
  { apply partition_point_app.
    - intros t Ht. apply Z.ltb_lt. specialize (W3 t s Ht ltac:(left)). lia.
    - intros t [->|Ht]%elem_of_cons; apply Z.ltb_ge; [lia|].
      specialize (W3' t Ht). pose proof (wf_ok _ t W2 Ht) as [? _]. lia. }
  by rewrite list_lookup_middle.
Qed.

Lemma sliceIndex_found (sl : list Slice) (id : Z) (s : Slice) :
  sl !! sliceIndex sl id = Some s -> id <= till (range s).
Proof. intros H. by apply partition_point_at, Z.ltb_ge in H. Qed.

(** Narrowing one slice keeps the list well formed. *)
Lemma wf_narrow (pre post : list Slice) (s s' : Slice) :
  wf (pre ++ s :: post) -> slice_ok s' ->
  from (range s) <= from (range s') -> till (range s') <= till (range s) ->
  wf (pre ++ s' :: post).
Proof.
  intros Hwf Hok Hf Ht. apply wf_app in Hwf as (W1 & W2 & W3).
  apply wf_cons in W2 as (_ & W2 & W4). unfold apart in *.
  apply wf_app. split_and!; [done|apply wf_cons; split_and!; [done|done|]|].
  - intros t Hin. specialize (W4 t Hin). unfold apart. lia.
  - intros t u Hin [->|Hu]%elem_of_cons; unfold apart.
    + specialize (W3 t s Hin ltac:(left)). lia.
    + apply W3; [done|by right].
Qed.

Lemma insert_split (sl : list Slice) (i : nat) (s s' : Slice) :
  sl !! i = Some s -> exists pre post, sl = pre ++ s :: post /\ <[i := s']> sl = pre ++ s' :: post
    /\ length pre = i.
Proof.
  intros H. exists (take i sl), (drop (S i) sl).
  pose proof (lookup_lt_Some _ _ _ H). split_and!.
  - by rewrite take_drop_middle.
  - by rewrite insert_take_drop.
  - rewrite length_take. lia.
Qed.

Lemma removeOne_accurate (T : gset Z) (l : ids_list) (id : Z) :
  accurate T l -> id ∈ T -> accurate (T ∖ {[id]}) (removeOne l id).
Proof.
  intros Hacc Hid. pose proof Hacc as [HT Hwf Hs Hc].
  assert (forall sl : list Slice, (forall s, s ∈ sl -> s ∈ slices l) -> (forall s, s ∈ sl -> ~ in_range (range s) id) ->
    forall s x, s ∈ sl -> in_range (range s) x -> x ∈ messages s <-> x ∈ T ∖ {[id]}) as Hrest.
  { intros sl Hin Hno s x Hs' Hx. rewrite elem_of_difference, elem_of_singleton.
    rewrite (Hs s x (Hin s Hs') Hx). split; [|tauto]. intros Hx'. split; [done|].
    intros ->. by apply (Hno s Hs'). }
  constructor; simpl.
  - intros x [Hx _]%elem_of_difference. auto.
  - destruct (slices l !! _) as [s|] eqn:E; [|done]. destruct (_ <=? id) eqn:Ef; [|done].
    destruct (insert_split _ _ s (mk_slice (messages s ∖ {[id]}) (range s)) E)
      as (pre & post & Esl & -> & _).
    rewrite Esl in Hwf. pose proof (wf_ok _ s Hwf ltac:(apply elem_of_app; right; left)) as (?&?&Hm).
    eapply wf_narrow; [done| |simpl; lia|simpl; lia].
    split; [done|]. split; [done|]. simpl. intros x [Hx _]%elem_of_difference. auto.
  - destruct (slices l !! _) as [s|] eqn:E.
    + pose proof (sliceIndex_found _ _ _ E) as Ht. destruct (_ <=? id) eqn:Ef; bool_to_prop.
      * destruct (insert_split _ _ s (mk_slice (messages s ∖ {[id]}) (range s)) E)
          as (pre & post & Esl & -> & _).
        assert (forall t, t ∈ pre \/ t ∈ post -> ~ in_range (range t) id) as Hno.
        { rewrite Esl in Hwf. apply wf_app in Hwf as (W1 & W2 & W3).
          apply wf_cons in W2 as (_ & _ & W4). unfold apart, in_range in *. intros t [Hin|Hin] ?.
          - specialize (W3 t s Hin ltac:(left)). lia.
          - specialize (W4 t Hin). lia. }
        intros t x [Hin|[->|Hin]%elem_of_cons]%elem_of_app Hx.
        -- apply (Hrest pre); auto. intros u Hu. rewrite Esl. apply elem_of_app. by left.
        -- simpl in *. rewrite !elem_of_difference. rewrite (Hs s x); [done| |done].
           rewrite Esl. apply elem_of_app. right. left.
        -- apply (Hrest post); auto. intros u Hu. rewrite Esl. apply elem_of_app. right. by right.
      * apply Hrest; [done|]. intros t Hin Hr. pose proof (sliceIndex_covers _ _ _ Hwf Hin Hr) as E'.
        rewrite E in E'. simplify_eq. unfold in_range in Hr. lia.
    + apply Hrest; [done|]. intros t Hin Hr. pose proof (sliceIndex_covers _ _ _ Hwf Hin Hr) as E'.
      by rewrite E in E'.
  - intros c. destruct (count l) as [c0|] eqn:E0; intros [= <-].
    rewrite (Hc c0 eq_refl), size_difference, size_singleton by (by apply singleton_subseteq_l).
    assert (size T <> 0%nat); [|lia]. intros E. apply size_empty_inv in E. by rewrite (E id) in Hid.
Qed.

Lemma removeAll_accurate (l : ids_list) : accurate ∅ (removeAll l).
Proof.
  constructor; simpl.
  - by intros x ?%elem_of_empty.
  - apply wf_cons. split_and!; [|split; constructor|by intros ? ?%not_elem_of_nil].
    unfold slice_ok; simpl. pose proof ServerMax_pos. split_and!; try lia.
    by intros x ?%elem_of_empty.
  - by intros s x ->%list_elem_of_singleton _.
  - by intros c [= <-].
Qed.

(** [invalidateBottom] keeps what is known up to the last id it keeps. *)
Lemma invalidateBottom_slices (l : ids_list) :
  wf (slices l) ->
  wf (slices (invalidateBottom l)) /\
  forall s', s' ∈ slices (invalidateBottom l) ->
  exists s, s ∈ slices l /\ messages s' = messages s
    /\ from (range s') = from (range s) /\ till (range s') <= till (range s).
Proof.
  intros Hwf. unfold invalidateBottom. simpl.
  destruct (slices l !! _) as [s|] eqn:E; [|split; [done|eauto with lia]].
  destruct (_ =? _) eqn:Et; [|split; [done|eauto with lia]]. bool_to_prop.
  set (s' := mk_slice (messages s) _).
  destruct (insert_split _ _ s s' E) as (pre & post & Esl & -> & _).
  rewrite Esl in Hwf |- *.
  pose proof (wf_ok _ s Hwf ltac:(apply elem_of_app; right; left)) as (F1 & F2 & Fm).
  assert (from (range s) <= till (range s') <= till (range s)
    /\ forall x, x ∈ messages s -> x <= till (range s')) as [Hb Hm].
  { subst s'. simpl. destruct (list.last _) as [m|] eqn:Em; simpl.
    - apply last_sorted_Some in Em as [Hin Hmax]. specialize (Fm m Hin). split; [lia|done].
    - apply last_sorted_None in Em as ->. split; [lia|]. by intros x ?%elem_of_empty. }
  split.
  - eapply wf_narrow; [done| |subst s'; simpl; lia|lia].
    split; [subst s'; simpl in *; lia|]. split; [lia|]. intros x Hx. split; [|by apply Hm].
    subst s'; simpl in *. specialize (Fm x Hx). lia.
  - intros t [Hin|[->|Hin]%elem_of_cons]%elem_of_app.
    + exists t. split_and!; try done. apply elem_of_app. by left.
    + exists s. split_and!; try done; [apply elem_of_app; right; left|lia].
    + exists t. split_and!; try done. apply elem_of_app. right. by right.
Qed.

Lemma invalidateBottom_accurate (T T' : gset Z) (l : ids_list) :
  accurate T l -> (forall x, x ∈ T' -> IsServerMsgId x = true) ->
  (forall s x, s ∈ slices (invalidateBottom l) -> x <= till (range s) -> x ∈ T' <-> x ∈ T) ->
  accurate T' (invalidateBottom l).
Proof.
  intros [_ Hwf Hs _] HT' Hsame. destruct (invalidateBottom_slices l Hwf) as [Hwf' Hsub].
  constructor; try done.
  intros s' x Hin Hx. destruct (Hsub s' Hin) as (s & Hs' & -> & Ef & Et).
  unfold in_range in *. rewrite (Hsame s' x Hin) by lia. apply Hs; [done|]. unfold in_range. lia.
Qed.

(** ** The list as a state machine

    [step] pairs the list with the true list of ids and moves both. *)
Inductive step : gset Z * ids_list -> gset Z * ids_list -> Prop :=
  | step_new T l l' u id :
      IsServerMsgId id = true -> (forall x, x ∈ T -> x < id) ->
      addNew l id = Some (l', u) -> step (T, l) ({[id]} ∪ T, l')
  | step_existing T l l' u id r :
      slice_ok (mk_slice {[id]} r) -> (forall x, in_range r x -> x ∈ T <-> x = id) ->
      addExisting l id r = Some (l', u) -> step (T, l) (T, l')
  | step_slice T l l' u ids r cnt :
      0 <= from r <= till r -> till r <= ServerMaxMsgId ->
      (forall x, x ∈ ids <-> x ∈ T /\ in_range r x) ->
      (forall c, cnt = Some c -> c = Z.of_nat (size T)) ->
      addSlice l ids r cnt = Some (l', u) -> step (T, l) (T, l')
  | step_remove T l id :
      id ∈ T -> step (T, l) (T ∖ {[id]}, removeOne l id)
  | step_clear T l : step (T, l) (∅, removeAll l)
  | step_invalidate T T' l :
      (forall x, x ∈ T' -> IsServerMsgId x = true) ->
      (forall s x, s ∈ slices (invalidateBottom l) -> x <= till (range s) -> x ∈ T' <-> x ∈ T) ->
      step (T, l) (T', invalidateBottom l).

Definition empty_list : ids_list := mk_list None [].

Lemma step_accurate (a b : gset Z * ids_list) :
  step a b -> accurate a.1 a.2 -> accurate b.1 b.2.
Proof.
  intros Hstep Hacc. destruct Hstep as
    [T l l' u id Hid Hnew E|T l l' u id r Hok Hr E|T l l' u ids r cnt H1 H2 H3 H4 E|T l id Hid|T l|T T' l H1 H2];
    simpl in *.
  - destruct (addNew_accurate T l id Hacc Hid Hnew) as (? & ? & E' & ? & _). by simplify_eq.
  - destruct (addExisting_accurate T l id r Hacc Hok Hr) as (? & ? & E' & ? & _). by simplify_eq.
  - destruct (addSlice_accurate T l ids r cnt Hacc H1 H2 H3 H4) as (? & ? & E' & ? & _). by simplify_eq.
  - by apply removeOne_accurate.
  - apply removeAll_accurate.
  - by eapply invalidateBottom_accurate.
Qed.

Lemma empty_accurate (T : gset Z) :
  (forall x, x ∈ T -> IsServerMsgId x = true) -> accurate T empty_list.
Proof.
  intros HT. constructor; [done|split; constructor| |done].
  by intros s x ?%not_elem_of_nil.
Qed.

Lemma reachable_accurate (T : gset Z) (b : gset Z * ids_list) :
  (forall x, x ∈ T -> IsServerMsgId x = true) -> rtc step (T, empty_list) b -> accurate b.1 b.2.
Proof.
  intros HT Hrtc. assert (accurate T empty_list) as H0 by (by apply empty_accurate).
  remember (T, empty_list) as a eqn:Ea.
  assert (accurate a.1 a.2) as Ha by (by subst). clear Ea H0.
  induction Hrtc as [|a b c Hstep _ IH]; [done|]. apply IH. by apply (step_accurate a).
Qed.

(** ** Queries *)

(** Around a slice, the sorted true list is what is below its range, the ids
    of the slice, and what is above. *)
Lemma slice_in_list (T : gset Z) (l : ids_list) (s : Slice) :
  accurate T l -> s ∈ slices l ->
  exists A B, sorted_elements T = A ++ sorted_elements (messages s) ++ B
    /\ (forall x, x ∈ A -> x ∈ T /\ x < from (range s))
    /\ (forall x, x ∈ B -> x ∈ T /\ till (range s) < x).
Proof.
  intros Hacc Hin. pose proof (wf_ok _ s (acc_wf _ _ Hacc) Hin) as (Hr & _ & Hm).
  apply (sorted_interval T (messages s) (from (range s)) (till (range s))); [apply Hr|].
  intros x. split.
  - intros Hx. split; [by apply (slice_subset T l s)|]. by apply Hm.
  - intros [HT Hx]. by apply (acc_slices _ _ Hacc s x).
Qed.

(** The result of a query is a window of the true list around an id: what is
    in it is contiguous, what is before it is below the id and what is after
    it is not, it respects the limits, and the numbers it reports are right. *)
Record window (T : gset Z) (q : Query) (res : QueryResult) : Prop := {
  win_split : exists pre suf, sorted_elements T = pre ++ r_messageIds res ++ suf
    /\ (forall n, r_skippedBefore res = Some n -> n = Z.of_nat (length pre))
    /\ (forall n, r_skippedAfter res = Some n -> n = Z.of_nat (length suf))
    /\ (forall x, x ∈ pre -> x < aroundId q)
    /\ (forall x, x ∈ suf -> aroundId q <= x);
  win_count : forall c, r_count res = Some c -> c = Z.of_nat (size T);
  win_limit : Z.of_nat (length (r_messageIds res)) <= limitBefore q + limitAfter q + 1;
}.

(** The part of the ids of a slice a query takes. *)
Definition take_around (ids : list Z) (q : Query) : list Z * list Z * list Z :=
  let pos := Z.of_nat (partition_point (fun id => id <? aroundId q) ids) in
  let before := Z.min pos (limitBefore q) in
  let after := Z.min (Z.of_nat (length ids) - pos) (limitAfter q + 1) in
  (take (Z.to_nat (pos - before)) ids,
   take (Z.to_nat (before + after)) (drop (Z.to_nat (pos - before)) ids),
   drop (Z.to_nat (pos + after)) ids).

Lemma take_around_spec (ids : list Z) (q : Query) :
  StronglySorted Z.lt ids -> 0 <= limitBefore q -> 0 <= limitAfter q ->
  let '(pre, found, suf) := take_around ids q in
  let pos := Z.of_nat (partition_point (fun id => id <? aroundId q) ids) in
  ids = pre ++ found ++ suf
  /\ Z.of_nat (length pre) = pos - Z.min pos (limitBefore q)
  /\ Z.of_nat (length suf) = Z.of_nat (length ids) - pos
       - Z.min (Z.of_nat (length ids) - pos) (limitAfter q + 1)
  /\ Z.of_nat (length found) <= limitBefore q + limitAfter q + 1
  /\ (forall x, x ∈ pre -> x < aroundId q) /\ (forall x, x ∈ suf -> aroundId q <= x).
Proof.
  intros Hs Hb Ha. unfold take_around.
  pose proof (partition_point_le (fun id => id <? aroundId q) ids) as Hle.
  set (pos := partition_point (fun id => id <? aroundId q) ids) in *.
  split_and!.
  - rewrite <- (take_drop (Z.to_nat (Z.of_nat pos - Z.min (Z.of_nat pos) (limitBefore q))) ids) at 1.
    f_equal. rewrite <- (take_drop (Z.to_nat (Z.min (Z.of_nat pos) (limitBefore q)
      + Z.min (Z.of_nat (length ids) - Z.of_nat pos) (limitAfter q + 1))) (drop _ ids)) at 1.
    f_equal. rewrite drop_drop. f_equal. lia.
  - rewrite length_take. lia.
  - rewrite length_drop. lia.
  - rewrite length_take, length_drop. lia.
  - intros x Hx. apply Z.ltb_lt. apply (partition_point_take (fun id => id <? aroundId q) ids).
    fold pos. set (k := Z.to_nat _) in Hx.
    rewrite <- (take_drop k (take pos ids)). apply elem_of_app. left.
    rewrite take_take. replace (Nat.min k pos) with k by (subst k; lia). done.
  - intros x Hx. apply Z.ltb_ge. apply (partition_point_after (fun id => id <? aroundId q) ids).
    + revert Hs. apply StronglySorted_impl. intros a b _ _ Hab E. bool_to_prop.
      apply Z.ltb_lt. lia.
    + fold pos. rewrite <- (take_drop (Z.to_nat (Z.min (Z.of_nat (length ids) - Z.of_nat pos)
        (limitAfter q + 1))) (drop pos ids)).
      apply elem_of_app. right. rewrite drop_drop.
      replace (pos + _)%nat with (Z.to_nat (Z.of_nat pos + Z.min (Z.of_nat (length ids) - Z.of_nat pos)
        (limitAfter q + 1))) by lia. done.
Qed.

Lemma query_window (T : gset Z) (l : ids_list) (s : Slice) (A B : list Z) (q : Query) :
  accurate T l -> 0 <= limitBefore q -> 0 <= limitAfter q ->
  sorted_elements T = A ++ sorted_elements (messages s) ++ B ->
  (forall x, x ∈ A -> x ∈ T /\ x < from (range s)) ->
  (forall x, x ∈ B -> x ∈ T /\ till (range s) < x) ->
  from (range s) <= aroundId q <= till (range s) ->
  window T q (queryFromSlice l q s).
Proof.
  intros Hacc Hb Ha HAB HA HB Hq. set (ids := sorted_elements (messages s)) in *.
  pose proof (take_around_spec ids q (sorted_elements_sorted _) Hb Ha) as Hta.
  destruct (take_around ids q) as [[pre found] suf] eqn:Etk.
  destruct Hta as (Hids & Hpre & Hsuf & Hlim & Hpre' & Hsuf').
  set (pos := Z.of_nat (partition_point (fun id => id <? aroundId q) ids)) in *.
  assert (from (range s) = 0 -> A = []) as HA0.
  { intros E0. destruct A as [|x A']; [done|]. exfalso. destruct (HA x ltac:(left)) as [Hx ?].
    pose proof (server_range x (acc_server _ _ Hacc x Hx)). lia. }
  assert (till (range s) = ServerMaxMsgId -> B = []) as HB0.
  { intros E0. destruct B as [|x B']; [done|]. exfalso. destruct (HB x ltac:(left)) as [Hx ?].
    pose proof (server_range x (acc_server _ _ Hacc x Hx)). lia. }
  assert (Z.of_nat (size T) = Z.of_nat (length A) + Z.of_nat (length ids) + Z.of_nat (length B)) as Hsz.
  { rewrite <- sorted_elements_length, HAB, !length_app. lia. }
  assert (Z.of_nat (length ids) = Z.of_nat (length pre) + Z.of_nat (length found) + Z.of_nat (length suf))
    as Hlen by (rewrite Hids, !length_app; lia).
  assert (forall c, count l = Some c -> c = Z.of_nat (size T)) as Hcount by apply Hacc.
  unfold take_around in Etk. injection Etk as _ Ef _.
  unfold queryFromSlice. fold ids. fold pos. fold pos in Ef. rewrite Ef.
  assert (forall (b a : option Z) (cnt : option Z),
    (forall n, b = Some n -> n = Z.of_nat (length (A ++ pre))) ->
    (forall n, a = Some n -> n = Z.of_nat (length (suf ++ B))) ->
    (forall c, cnt = Some c -> c = Z.of_nat (size T)) ->
    window T q (mk_result cnt b a found)) as Hwin.
  { intros b a cnt H1 H2 H3. constructor; simpl; [|done|done].
    exists (A ++ pre), (suf ++ B). split_and!; try done.
    - by rewrite HAB, Hids, <- !app_assoc.
    - intros x [Hx|Hx]%elem_of_app; [|by apply Hpre']. destruct (HA x Hx). lia.
    - intros x [Hx|Hx]%elem_of_app; [by apply Hsuf'|]. destruct (HB x Hx). lia. }
  rewrite !length_app in Hwin.
  destruct (Z.eqb_spec (from (range s)) 0) as [E0|_]; [rewrite (HA0 E0) in *|];
    (destruct (Z.eqb_spec (till (range s)) ServerMaxMsgId) as [E1|_]; [rewrite (HB0 E1) in *|]);
    simpl in *; destruct (count l) as [c|] eqn:Ec;
    try (pose proof (Hcount c eq_refl)); apply Hwin; intros; simplify_eq; try done; lia.
Qed.

Lemma snapshot_window (T : gset Z) (l : ids_list) (q : Query) :
  accurate T l -> 0 <= limitBefore q -> 0 <= limitAfter q ->
  is_Some (sliceAround l (aroundId q)) -> window T q (snapshot l q).
Proof.
  intros Hacc Hb Ha [s Hs].
  unfold snapshot. rewrite Hs. unfold sliceAround in Hs.
  destruct (aroundId q =? 0); [done|]. destruct (slices l !! _) as [s0|] eqn:E; [|done].
  destruct (_ <=? _) eqn:Ef; simplify_eq. bool_to_prop.
  pose proof (sliceIndex_found _ _ _ E) as Et. apply list_elem_of_lookup_2 in E.
  destruct (slice_in_list T l s Hacc E) as (A & B & HAB & HA & HB).
  apply (query_window T l s A B q); done || lia.
Qed.

(** *** Properties *)

(** C24. The list is always right about what it claims to know: from an empty
    list, after any sequence of additions, removals and invalidations that
    tell the truth about the full list of ids, the slices are sorted, disjoint
    and hold exactly the ids of the full list in their ranges, and the count,
    when known, is the size of the full list. *)
Theorem sparse_list_accurate (T0 T : gset Z) (l : ids_list) :
  (forall x, x ∈ T0 -> IsServerMsgId x = true) ->
  rtc step (T0, empty_list) (T, l) ->
  wf (slices l)
  /\ (forall s x, s ∈ slices l -> in_range (range s) x -> x ∈ messages s <-> x ∈ T)
  /\ (forall c, count l = Some c -> c = Z.of_nat (size T)).
Proof.
  intros HT Hr. pose proof (reachable_accurate T0 _ HT Hr) as Hacc. simpl in Hacc.
  split_and!; apply Hacc.
Qed.

(** No [Expects] of the list fails: in every reachable state a new message,
    an existing one or a piece of the list can be added, and the count of the
    event fired is the size of the full list. *)
Theorem sparse_list_no_failure (T0 T : gset Z) (l : ids_list) :
  (forall x, x ∈ T0 -> IsServerMsgId x = true) ->
  rtc step (T0, empty_list) (T, l) ->
  (forall id, IsServerMsgId id = true -> (forall x, x ∈ T -> x < id) ->
     exists l' u, addNew l id = Some (l', u)
       /\ forall c, u_count u = Some c -> c = Z.of_nat (S (size T)))
  /\ (forall ids r cnt, 0 <= from r <= till r -> till r <= ServerMaxMsgId ->
       (forall x, x ∈ ids <-> x ∈ T /\ in_range r x) ->
       (forall c, cnt = Some c -> c = Z.of_nat (size T)) ->
       exists l' u, addSlice l ids r cnt = Some (l', u)
         /\ forall c, u_count u = Some c -> c = Z.of_nat (size T)).
Proof.
  intros HT Hr. pose proof (reachable_accurate T0 _ HT Hr) as Hacc. simpl in Hacc. split.
  - intros id Hid Hnew. destruct (addNew_accurate T l id Hacc Hid Hnew) as (l' & u & E & _ & Hc).
    exists l', u. split; [done|]. intros c Hcc. rewrite (Hc c Hcc). f_equal.
    rewrite size_union, size_singleton; [done|]. apply disjoint_singleton_l.
    intros Hx. specialize (Hnew id Hx). lia.
  - intros ids r cnt H1 H2 H3 H4.
    destruct (addSlice_accurate T l ids r cnt Hacc H1 H2 H3 H4) as (l' & u & E & _ & Hc).
    by exists l', u.
Qed.

(** A query around a known id returns a window of the full list: the ids
    it returns are contiguous in it and within the limits, the numbers of ids
    skipped before and after are the real ones, and so is the count. *)
Theorem snapshot_is_window (T0 T : gset Z) (l : ids_list) (q : Query) :
  (forall x, x ∈ T0 -> IsServerMsgId x = true) ->
  rtc step (T0, empty_list) (T, l) ->
  0 <= limitBefore q -> 0 <= limitAfter q -> is_Some (sliceAround l (aroundId q)) ->
  window T q (snapshot l q).
Proof.
  intros HT Hr Hb Ha Hs. by apply snapshot_window; [apply (reachable_accurate T0 _ HT Hr)| | |].
Qed.

(** *** Witnesses *)

(** The full list 5, 7, 9, 12; the range up to 8 is loaded, then 7 is removed. *)
Definition ex_full : gset Z := list_to_set [5; 7; 9; 12].
Definition ex_loaded : ids_list :=
  match addSlice empty_list [5; 7] (mk_range 0 8) (Some 4) with
  | Some (l, _) => l
  | None => empty_list
  end.

Lemma ex_full_server (x : Z) : x ∈ ex_full -> IsServerMsgId x = true.
Proof.
  unfold ex_full. rewrite elem_of_list_to_set, !elem_of_cons.
  by intros [->|[->|[->|[->|?%not_elem_of_nil]]]].
Qed.

Lemma ex_reached : rtc step (ex_full, empty_list) (ex_full ∖ {[7]}, removeOne ex_loaded 7).
Proof.
  apply rtc_l with (ex_full, ex_loaded).
  - destruct (addSlice empty_list [5; 7] (mk_range 0 8) (Some 4)) as [[l u]|] eqn:E;
      [|vm_compute in E; discriminate].
    apply (step_slice _ _ _ u [5; 7] (mk_range 0 8) (Some 4)); simpl; [lia|by vm_compute| | |].
    + intros x. unfold ex_full, in_range. rewrite elem_of_list_to_set, !elem_of_cons, elem_of_nil.
      simpl. lia.
    + by intros c [= <-].
    + unfold ex_loaded. by rewrite E.
  - apply rtc_once. apply step_remove. unfold ex_full. set_solver.
Qed.

(** What is known around 5: the window of 5, 9 and 12 that holds 5. *)
Lemma ex_window :
  window (ex_full ∖ {[7]}) (mk_query 5 2 2) (mk_result (Some 3) (Some 0) (Some 2) [5]).
Proof.
  replace (mk_result (Some 3) (Some 0) (Some 2) [5])
    with (snapshot (removeOne ex_loaded 7) (mk_query 5 2 2)) by (by vm_compute).
  apply snapshot_window; simpl; [apply (reachable_accurate ex_full _ ex_full_server ex_reached)|lia|lia|].
  vm_compute. eauto.
Qed.

Lemma sparse_list_accurate_witness :
  wf (slices (removeOne ex_loaded 7)) /\ slices (removeOne ex_loaded 7) <> [].
Proof.
  split; [|by vm_compute].
  apply (sparse_list_accurate ex_full _ _ ex_full_server ex_reached).
Defined.

Lemma sparse_list_no_failure_witness :
  exists l' u, addNew (removeOne ex_loaded 7) 20 = Some (l', u)
    /\ forall c, u_count u = Some c -> c = Z.of_nat (S (size (ex_full ∖ {[7]}))).
Proof.
  destruct (sparse_list_no_failure ex_full _ _ ex_full_server ex_reached) as [H _].
  apply H; [done|]. intros x. unfold ex_full.
  rewrite elem_of_difference, elem_of_list_to_set, !elem_of_cons.
  intros [[->|[->|[->|[->|?%not_elem_of_nil]]]] _]; done || lia.
Defined.

Lemma snapshot_is_window_witness :
  window (ex_full ∖ {[7]}) (mk_query 5 2 2) (snapshot (removeOne ex_loaded 7) (mk_query 5 2 2))
  /\ snapshot (removeOne ex_loaded 7) (mk_query 5 2 2) = mk_result (Some 3) (Some 0) (Some 2) [5].
Proof.
  split; [|by vm_compute].
  apply (snapshot_is_window ex_full _ _ _ ex_full_server ex_reached); simpl; [lia|lia|].
  vm_compute. eauto.
Defined.
