(* ===== verification/AutoDownload.v ===== *)
(** * Automatic media downloads

    [data/data_auto_download.h] and [data/data_auto_download.cpp]: the limits
    per source and media type, their serialization in the settings (with the
    upgrade of the first version), the defaults and the decisions to download
    and to play automatically.

    A failed [Expects] is [None]. The peers, documents and photos are records
    of the answers the decisions ask them for. *)

From S2P Require Import Prelude.

Definition kMaxBytesLimit : Z := 8000 * (512 * 1024).

Inductive Source := User | Group | Channel.
Definition kSourcesCount : Z := 3.

Inductive Type_ := Photo | AutoPlayVideo | VoiceMessage | AutoPlayVideoMessage | Music
  | AutoPlayGIF | File.
Definition kTypesCount : Z := 7.

Definition sourceIndex (s : Source) : Z :=
  match s with User => 0x00 | Group => 0x01 | Channel => 0x02 end.
Definition typeIndex (t : Type_) : Z :=
  match t with
  | Photo => 0x00 | AutoPlayVideo => 0x01 | VoiceMessage => 0x02
  | AutoPlayVideoMessage => 0x03 | Music => 0x04 | AutoPlayGIF => 0x05 | File => 0x06
  end.

#[export] Instance Source_eq_dec : EqDecision Source.
Proof. solve_decision. Defined.
#[export] Instance Type_eq_dec : EqDecision Type_.
Proof. solve_decision. Defined.

Definition kAutoPlayTypes : list Type_ := [AutoPlayVideo; AutoPlayVideoMessage; AutoPlayGIF].
Definition kStreamedTypes : list Type_ := [VoiceMessage; Music].

(** [enums_view<Source>(kSourcesCount)], [enums_view<Type>(kTypesCount)] *)
Definition all_sources : list Source := [User; Group; Channel].
Definition all_types : list Type_ :=
  [Photo; AutoPlayVideo; VoiceMessage; AutoPlayVideoMessage; Music; AutoPlayGIF; File].

Definition kDefaultMaxSize : Z := 8 * (1024 * 1024).
Definition kDefaultAutoPlaySize : Z := 50 * (1024 * 1024).
Definition kVersion1 : Z := 1.
Definition kVersion : Z := 2.

(** ** [Single]: one limit, a 32-bit integer, -1 when there is none *)
Module Single.

Definition initial : Z := -1.
Definition hasValue (limit : Z) : bool := negb (limit =? -1).

Definition setBytesLimit (bytesLimit : Z) : option Z :=
  if (0 <=? bytesLimit) && (bytesLimit <=? kMaxBytesLimit) then
    let limit := wraps 32 (wrapu 32 bytesLimit) in
    if hasValue limit then Some limit else None
  else None.

Definition bytesLimit (limit : Z) : option Z :=
  if hasValue limit then Some (wrapu 32 limit) else None.

Definition shouldDownload (limit fileSize : Z) : option bool :=
  if hasValue limit then
    realLimit <-? bytesLimit limit ;
    Some ((0 <? realLimit) && (fileSize <=? realLimit))
  else None.

Definition serialize (limit : Z) : Z := limit.

(** The new limit, or no value when the function returns [false]. *)
Definition setFromSerialized (serialized : Z) : option Z :=
  let realLimit := wrapu 32 serialized in
  if negb (serialized =? -1) && (kMaxBytesLimit <? realLimit) then None else Some serialized.

End Single.

(** ** [Set]: the limits of one source, an array indexed by the type *)
Module Set_.

Definition initial : list Z := replicate (Z.to_nat kTypesCount) Single.initial.

Definition single (set : list Z) (type : Type_) : option Z :=
  if (0 <=? typeIndex type) && (typeIndex type <? kTypesCount)
  then set !! Z.to_nat (typeIndex type) else None.

Definition setBytesLimit (set : list Z) (type : Type_) (bytesLimit : Z) : option (list Z) :=
  _ <-? single set type ;
  limit <-? Single.setBytesLimit bytesLimit ;
  Some (<[Z.to_nat (typeIndex type) := limit]> set).

Definition hasValue (set : list Z) (type : Type_) : option bool :=
  limit <-? single set type ; Some (Single.hasValue limit).

Definition shouldDownload (set : list Z) (type : Type_) (fileSize : Z) : option bool :=
  limit <-? single set type ; Single.shouldDownload limit fileSize.

Definition bytesLimit (set : list Z) (type : Type_) : option Z :=
  limit <-? single set type ; Single.bytesLimit limit.

Definition serialize (set : list Z) (type : Type_) : option Z :=
  limit <-? single set type ; Some (Single.serialize limit).

Definition setFromSerialized (set : list Z) (type : Type_) (serialized : Z) :
    option (list Z) :=
  if (typeIndex type <? 0) || (kTypesCount <=? typeIndex type) then None
  else
    limit <-? Single.setFromSerialized serialized ;
    Some (<[Z.to_nat (typeIndex type) := limit]> set).

End Set_.

(** ** [Full]: the sets of the three sources *)
Abbreviation Full := (list (list Z)).

Definition initial : Full := replicate (Z.to_nat kSourcesCount) Set_.initial.

Definition set (data : Full) (source : Source) : option (list Z) :=
  if (0 <=? sourceIndex source) && (sourceIndex source <? kSourcesCount)
  then data !! Z.to_nat (sourceIndex source) else None.

Definition setBytesLimit (data : Full) (source : Source) (type : Type_) (bytesLimit : Z) :
    option Full :=
  s <-? set data source ;
  s <-? Set_.setBytesLimit s type bytesLimit ;
  Some (<[Z.to_nat (sourceIndex source) := s]> data).

(** The body of a nested loop over sources and types: one option-returning
    step per pair, in the order of the loops. *)
Definition pairs (types : list Type_) : list (Source * Type_) :=
  s ← all_sources; t ← types; [(s, t)].

Definition FullDisabled : option Full :=
  fold_opt (fun result st => setBytesLimit result st.1 st.2 0) (pairs all_types) initial.

Definition SetDefaultsForSource (data : Full) (source : Source) : option Full :=
  data <-? setBytesLimit data source Photo kDefaultMaxSize ;
  data <-? setBytesLimit data source VoiceMessage kDefaultMaxSize ;
  data <-? setBytesLimit data source AutoPlayVideoMessage kDefaultAutoPlaySize ;
  data <-? setBytesLimit data source AutoPlayGIF kDefaultAutoPlaySize ;
  let channelsFileLimit := if decide (source = Channel) then 0 else kDefaultMaxSize in
  data <-? setBytesLimit data source File channelsFileLimit ;
  data <-? setBytesLimit data source AutoPlayVideo kDefaultAutoPlaySize ;
  setBytesLimit data source Music channelsFileLimit.

Definition Defaults : option Full :=
  result <-? FullDisabled ; fold_opt SetDefaultsForSource all_sources result.

Definition setOrDefault (data : Full) (source : Source) (type : Type_) : option (list Z) :=
  my <-? set data source ;
  myHas <-? Set_.hasValue my type ;
  result <-? (if myHas : bool then Some my
              else defaults <-? Defaults ; set defaults source) ;
  resultHas <-? Set_.hasValue result type ;
  if resultHas : bool then Some result else None.

Definition shouldDownload (data : Full) (source : Source) (type : Type_) (fileSize : Z) :
    option bool :=
  if bool_decide (type ∈ kStreamedTypes) then Some false
  else s <-? setOrDefault data source type ; Set_.shouldDownload s type fileSize.

Definition bytesLimit (data : Full) (source : Source) (type : Type_) : option Z :=
  s <-? setOrDefault data source type ; Set_.bytesLimit s type.

(** *** The byte array: [QDataStream] writes big-endian *)

Definition put32 (v : Z) : list Z :=
  let u := wrapu 32 v in
  [Z.shiftr u 24; wrapu 8 (Z.shiftr u 16); wrapu 8 (Z.shiftr u 8); wrapu 8 u].

(** A read past the end gives zero and consumes what was left. *)
Definition get32 (stream : list Z) : Z * list Z :=
  match stream with
  | a :: b :: c :: d :: rest => (wraps 32 (((a * 256 + b) * 256 + c) * 256 + d), rest)
  | _ => (0, [])
  end.

Definition serialize (data : Full) : option (list Z) :=
  fold_opt (fun result st =>
    s <-? set data st.1 ;
    v <-? Set_.serialize s st.2 ;
    Some (result ++ put32 v)) (pairs all_types) [wrapu 8 kVersion].

Definition readOne (st : Source * Type_) (temp : Full) (stream : list Z) :
    option (Full * list Z) :=
  let '(value, stream) := get32 stream in
  s <-? set temp st.1 ;
  s <-? Set_.setFromSerialized s st.2 value ;
  Some (<[Z.to_nat (sourceIndex st.1) := s]> temp, stream).

Definition upgradeOne (temp : Full) (st : Source * Type_) : option Full :=
  was <-? bytesLimit temp st.1 st.2 ;
  setBytesLimit temp st.1 st.2 (Z.max was kDefaultAutoPlaySize).

(** [None] is the [false] of the function: nothing is assigned. *)
Definition setFromSerialized (serialized : list Z) : option Full :=
  match serialized with
  | [] => None
  | b :: stream =>
      let version := wraps 8 b in
      if negb (version =? kVersion) && negb (version =? kVersion1) then None
      else
        r <-? fold_opt (fun ts st => readOne st ts.1 ts.2) (pairs all_types) (initial, stream) ;
        let temp := r.1 in
        if version =? kVersion1 then fold_opt upgradeOne (pairs kAutoPlayTypes) temp
        else Some temp
  end.

(** ** The decisions *)

Record PeerData := mk_peer { isUser : bool; isChat : bool; isMegagroup : bool }.
Record DocumentData := mk_document {
  sticker : bool; isGifv : bool; isVoiceMessage : bool; isVideoMessage : bool;
  isSong : bool; isVideoFile : bool; size : Z }.
Record PhotoData := mk_photo { imageByteSize : Z; videoByteSize : Z; hasVideo : bool }.

Definition SourceFromPeer (peer : PeerData) : Source :=
  if isUser peer then User
  else if isChat peer || isMegagroup peer then Group
  else Channel.

Definition AutoPlayTypeFromDocument (document : DocumentData) : Type_ :=
  if isVideoFile document then AutoPlayVideo
  else if isVideoMessage document then AutoPlayVideoMessage
  else AutoPlayGIF.

Definition ShouldFrom (data : Full) (source : Source) (document : DocumentData) : option bool :=
  if sticker document || isGifv document then Some true
  else if isVoiceMessage document || isVideoMessage document || isSong document
          || isVideoFile document then Some false
  else shouldDownload data source File (size document).

Definition Should (data : Full) (peer : PeerData) (document : DocumentData) : option bool :=
  ShouldFrom data (SourceFromPeer peer) document.

(** The short-circuit [||] of two results that may fail. *)
Definition or_else (a : option bool) (b : option bool) : option bool :=
  x <-? a ; if x : bool then Some true else b.

Definition ShouldAnywhere (data : Full) (document : DocumentData) : option bool :=
  if sticker document then Some true
  else or_else (ShouldFrom data User document)
    (or_else (ShouldFrom data Group document) (ShouldFrom data Channel document)).

Definition ShouldPhoto (data : Full) (peer : PeerData) (photo : PhotoData) : option bool :=
  shouldDownload data (SourceFromPeer peer) Photo (imageByteSize photo).

Definition ShouldAutoPlay (data : Full) (peer : PeerData) (document : DocumentData) :
    option bool :=
  or_else (Some (sticker document))
    (shouldDownload data (SourceFromPeer peer) (AutoPlayTypeFromDocument document)
       (size document)).

Definition ShouldAutoPlayPhoto (data : Full) (peer : PeerData) (photo : PhotoData) :
    option bool :=
  let source := SourceFromPeer peer in
  let sz := videoByteSize photo in
  if negb (hasVideo photo) then Some false
  else or_else (shouldDownload data source AutoPlayGIF sz)
    (or_else (shouldDownload data source AutoPlayVideo sz)
       (shouldDownload data source AutoPlayVideoMessage sz)).

Definition WithDisabledAutoPlay (data : Full) : option Full :=
  fold_opt (fun result st => setBytesLimit result st.1 st.2 0) (pairs kAutoPlayTypes) data.

(** ** Limits as a table

    A [Full] of the right shape is the table of its limits; the operations
    read and write one cell of it. *)

Definition sidx (s : Source) : nat := Z.to_nat (sourceIndex s).
Definition tidx (t : Type_) : nat := Z.to_nat (typeIndex t).

Definition shape (d : Full) : Prop := length d = 3%nat /\ Forall (fun r => length r = 7%nat) d.

Definition lim (d : Full) (s : Source) (t : Type_) : Z :=
  List.nth (tidx t) (List.nth (sidx s) d []) 0.

Definition put (d : Full) (s : Source) (t : Type_) (v : Z) : Full :=
  <[sidx s := <[tidx t := v]> (List.nth (sidx s) d [])]> d.

(** A limit is absent or a number of bytes up to [kMaxBytesLimit]. *)
Definition valid_limit (v : Z) : Prop :=
  v = -1 \/ (fits_s 32 v /\ wrapu 32 v <= kMaxBytesLimit).

Definition valid (d : Full) : Prop := shape d /\ forall s t, valid_limit (lim d s t).

Lemma sidx_lt (s : Source) : (sidx s < 3)%nat.
Proof. by destruct s; vm_compute; lia. Qed.
Lemma tidx_lt (t : Type_) : (tidx t < 7)%nat.
Proof. by destruct t; vm_compute; lia. Qed.
Lemma sidx_inj (s s' : Source) : sidx s = sidx s' -> s = s'.
Proof. by destruct s, s'. Qed.
Lemma tidx_inj (t t' : Type_) : tidx t = tidx t' -> t = t'.
Proof. by destruct t, t'. Qed.

Lemma nth_lookup_Some {A} (l : list A) (i : nat) (d : A) :
  (i < length l)%nat -> l !! i = Some (List.nth i l d).
Proof.
  intros Hi. destruct (lookup_lt_is_Some_2 l i Hi) as [x Hx].
  rewrite Hx. f_equal. symmetry. by apply nth_lookup_Some.
Qed.

Lemma nth_insert {A} (l : list A) (i j : nat) (x d : A) :
  (i < length l)%nat -> List.nth j (<[i := x]> l) d = if decide (j = i) then x else List.nth j l d.
Proof.
  intros Hi. rewrite !nth_lookup. case_decide as E; [subst; by rewrite list_lookup_insert_eq|].
  by rewrite list_lookup_insert_ne by congruence.
Qed.

Lemma shape_row (d : Full) (s : Source) :
  shape d -> d !! sidx s = Some (List.nth (sidx s) d []) /\ length (List.nth (sidx s) d []) = 7%nat.
Proof.
  intros [H3 H7]. assert (d !! sidx s = Some (List.nth (sidx s) d [])) as E
    by (apply nth_lookup_Some; rewrite H3; apply sidx_lt).
  split; [done|]. by apply (Forall_lookup_1 _ _ _ _ H7 E).
Qed.

Lemma set_shape (d : Full) (s : Source) : shape d -> set d s = Some (List.nth (sidx s) d []).
Proof. intros Hd. unfold set. destruct (shape_row d s Hd) as [E _]. by destruct s. Qed.

Lemma single_row (r : list Z) (t : Type_) :
  length r = 7%nat -> Set_.single r t = Some (List.nth (tidx t) r 0).
Proof.
  intros Hr. assert (r !! tidx t = Some (List.nth (tidx t) r 0)) as E
    by (apply nth_lookup_Some; rewrite Hr; apply tidx_lt).
  unfold Set_.single. by destruct t.
Qed.

Lemma shape_put (d : Full) (s : Source) (t : Type_) (v : Z) : shape d -> shape (put d s t v).
Proof.
  intros Hd. destruct (shape_row d s Hd) as [_ Hr]. destruct Hd as [H3 H7]. split.
  - unfold put. by rewrite length_insert.
  - apply Forall_insert; [done|]. by rewrite length_insert.
Qed.

Lemma lim_put (d : Full) (s s' : Source) (t t' : Type_) (v : Z) :
  shape d -> lim (put d s t v) s' t' = if decide (s' = s /\ t' = t) then v else lim d s' t'.
Proof.
  intros Hd. destruct (shape_row d s Hd) as [_ Hr]. destruct Hd as [H3 _].
  unfold lim, put. rewrite nth_insert by (rewrite H3; apply sidx_lt).
  destruct (decide (sidx s' = sidx s)) as [E|E].
  - apply sidx_inj in E as ->. rewrite nth_insert by (rewrite Hr; apply tidx_lt).
    destruct (decide (tidx t' = tidx t)) as [E|E].
    + apply tidx_inj in E as ->. by rewrite decide_True.
    + rewrite decide_False; [done|]. by intros [_ ->].
  - rewrite decide_False; [done|]. by intros [-> _].
Qed.

Lemma limits_ext (d e : Full) :
  shape d -> shape e -> (forall s t, lim d s t = lim e s t) -> d = e.
Proof.
  intros Hd He H. apply list_eq_same_length with (n := 3%nat); [by destruct He|by destruct Hd|].
  intros i x y Hi Hx Hy.
  assert (exists s, i = sidx s) as [s ->].
  { destruct i as [|[|[|]]]; [by exists User|by exists Group|by exists Channel|lia]. }
  destruct (shape_row d s Hd) as [Ex Lx], (shape_row e s He) as [Ey Ly].
  rewrite Ex in Hx. rewrite Ey in Hy. injection Hx as <-. injection Hy as <-.
  apply list_eq_same_length with (n := 7%nat); [done|done|].
  intros j x y Hj Hx Hy.
  assert (exists t, j = tidx t) as [t ->].
  { destruct j as [|[|[|[|[|[|[|]]]]]]]; [by exists Photo|by exists AutoPlayVideo|by exists VoiceMessage
      |by exists AutoPlayVideoMessage|by exists Music|by exists AutoPlayGIF|by exists File|lia]. }
  specialize (H s t). unfold lim in H.
  rewrite (nth_lookup_Some _ _ 0) in Hx by lia. rewrite (nth_lookup_Some _ _ 0) in Hy by lia.
  congruence.
Qed.

Lemma valid_put (d : Full) (s : Source) (t : Type_) (v : Z) :
  valid d -> valid_limit v -> valid (put d s t v).
Proof.
  intros [Hd Hv] Hl. split; [by apply shape_put|]. intros s' t'. rewrite lim_put by done.
  case_decide; auto.
Qed.

Lemma initial_valid : valid initial.
Proof. split; [by repeat constructor|]. intros [] []; by left. Qed.

(** ** The operations on the table *)

Lemma kMax_fits : kMaxBytesLimit < 2 ^ 32 - 1.
Proof. by vm_compute. Qed.

Lemma wraps_limit (b : Z) : 0 <= b <= kMaxBytesLimit ->
  wraps 32 b <> -1 /\ wrapu 32 (wraps 32 b) = b /\ valid_limit (wraps 32 b).
Proof.
  intros Hb. pose proof kMax_fits.
  assert (wrapu 32 (wraps 32 b) = b) as Hw by (rewrite wrapu_wraps by lia; apply wrapu_small; unfold fits_u; lia).
  split_and!; [|done|right; split; [by apply wraps_bound|lia]].
  intros E. rewrite E in Hw. vm_compute in Hw. lia.
Qed.

Lemma Single_setBytesLimit (b : Z) :
  Single.setBytesLimit b = if (0 <=? b) && (b <=? kMaxBytesLimit) then Some (wraps 32 b) else None.
Proof.
  unfold Single.setBytesLimit. destruct (_ && _) eqn:E; [|done]. bool_to_prop.
  rewrite wraps_wrapu. unfold Single.hasValue.
  destruct (wraps_limit b) as (Hne & _ & _); [lia|]. by destruct (Z.eqb_spec (wraps 32 b) (-1)).
Qed.

Lemma setBytesLimit_put (d : Full) (s : Source) (t : Type_) (b : Z) :
  shape d -> 0 <= b <= kMaxBytesLimit -> setBytesLimit d s t b = Some (put d s t (wraps 32 b)).
Proof.
  intros Hd Hb. unfold setBytesLimit. rewrite set_shape by done.
  unfold Set_.setBytesLimit. rewrite single_row by apply (shape_row d s Hd).
  rewrite Single_setBytesLimit.
  replace ((0 <=? b) && (b <=? kMaxBytesLimit)) with true; [done|].
  symmetry. apply andb_true_iff. rewrite !Z.leb_le. lia.
Qed.

Lemma setBytesLimit_valid (d : Full) (s : Source) (t : Type_) (b : Z) :
  valid d -> 0 <= b <= kMaxBytesLimit -> exists d', setBytesLimit d s t b = Some d' /\ valid d'.
Proof.
  intros Hd Hb. rewrite setBytesLimit_put by (done || apply Hd). eexists. split; [done|].
  apply valid_put; [done|]. by apply wraps_limit.
Qed.

(** The defaults, as the code computes them. *)
Definition default_limit (s : Source) (t : Type_) : Z :=
  match t with
  | Photo | VoiceMessage => kDefaultMaxSize
  | AutoPlayVideo | AutoPlayVideoMessage | AutoPlayGIF => kDefaultAutoPlaySize
  | Music | File => if decide (s = Channel) then 0 else kDefaultMaxSize
  end.

Lemma Defaults_spec : exists d, Defaults = Some d /\ valid d
  /\ forall s t, lim d s t = default_limit s t.
Proof.
  destruct Defaults as [d|] eqn:E; [|vm_compute in E; discriminate].
  vm_compute in E. injection E as <-. eexists. split; [done|]. split.
  - split; [split; [done|by repeat constructor]|].
    intros [] []; right; vm_compute; (split; [split|]; discriminate || done).
  - by intros [] [].
Qed.

(** The limit in force: the own one, or the default where there is none. *)
Definition effective (d : Full) (s : Source) (t : Type_) : Z :=
  if lim d s t =? -1 then default_limit s t else wrapu 32 (lim d s t).

Lemma default_limit_fits (s : Source) (t : Type_) :
  0 <= default_limit s t <= kMaxBytesLimit.
Proof. destruct s, t; vm_compute; split; discriminate. Qed.

Lemma setOrDefault_spec (d : Full) (s : Source) (t : Type_) :
  shape d -> exists r, setOrDefault d s t = Some r
    /\ Set_.bytesLimit r t = Some (effective d s t)
    /\ forall sz, Set_.shouldDownload r t sz
         = Some ((0 <? effective d s t) && (sz <=? effective d s t)).
Proof.
  intros Hd. destruct Defaults_spec as (def & Hdef & [Hsh _] & Hl).
  unfold setOrDefault. rewrite set_shape by done.
  unfold Set_.hasValue. rewrite single_row by apply (shape_row d s Hd).
  fold (lim d s t). unfold effective, Single.hasValue.
  destruct (Z.eqb_spec (lim d s t) (-1)) as [E|E]; cbn [negb].
  - rewrite Hdef, set_shape, single_row by (done || apply (shape_row def s Hsh)).
    fold (lim def s t). rewrite Hl. pose proof (default_limit_fits s t). pose proof kMax_fits.
    destruct (Z.eqb_spec (default_limit s t) (-1)); [lia|]. simpl. eexists. split; [done|].
    unfold Set_.bytesLimit, Set_.shouldDownload. rewrite single_row by apply (shape_row def s Hsh).
    fold (lim def s t). rewrite Hl. unfold Single.shouldDownload, Single.bytesLimit, Single.hasValue.
    rewrite wrapu_small by (unfold fits_u; lia).
    by destruct (Z.eqb_spec (default_limit s t) (-1)).
  - rewrite single_row by apply (shape_row d s Hd). fold (lim d s t).
    destruct (Z.eqb_spec (lim d s t) (-1)); [done|]. simpl. eexists. split; [done|].
    unfold Set_.bytesLimit, Set_.shouldDownload. rewrite single_row by apply (shape_row d s Hd).
    fold (lim d s t). unfold Single.shouldDownload, Single.bytesLimit, Single.hasValue.
    by destruct (Z.eqb_spec (lim d s t) (-1)).
Qed.

Lemma shouldDownload_spec (d : Full) (s : Source) (t : Type_) (sz : Z) :
  shape d -> shouldDownload d s t sz
    = Some (negb (bool_decide (t ∈ kStreamedTypes))
            && ((0 <? effective d s t) && (sz <=? effective d s t))).
Proof.
  intros Hd. unfold shouldDownload. case_bool_decide; [done|].
  destruct (setOrDefault_spec d s t Hd) as (r & -> & _ & Hdl). apply Hdl.
Qed.

Lemma effective_fits (d : Full) (s : Source) (t : Type_) :
  valid d -> 0 <= effective d s t <= kMaxBytesLimit.
Proof.
  intros [_ Hv]. unfold effective. destruct (Z.eqb_spec (lim d s t) (-1)) as [E|E].
  - apply default_limit_fits.
  - destruct (Hv s t) as [?|[_ ?]]; [done|]. split; [|done].
    apply (wrapu_bound 32). lia.
Qed.

Lemma effective_put (d : Full) (s s' : Source) (t t' : Type_) (b : Z) :
  shape d -> 0 <= b <= kMaxBytesLimit ->
  effective (put d s t (wraps 32 b)) s' t'
  = if decide (s' = s /\ t' = t) then b else effective d s' t'.
Proof.
  intros Hd Hb. unfold effective. rewrite lim_put by done.
  destruct (decide _) as [[-> ->]|?]; [|done].
  destruct (wraps_limit b Hb) as (Hne & -> & _). by destruct (Z.eqb_spec (wraps 32 b) (-1)).
Qed.

(** *** Loops that set limits *)

Lemma decide_pair_cons {A} (s s0 : Source) (t t0 : Type_) (ps : list (Source * Type_)) (x y : A) :
  (if decide ((s, t) ∈ (s0, t0) :: ps) then x else y)
  = if decide ((s, t) ∈ ps) then x else if decide (s = s0 /\ t = t0) then x else y.
Proof.
  assert ((s, t) ∈ (s0, t0) :: ps <-> (s, t) ∈ ps \/ (s = s0 /\ t = t0)) as E
    by (rewrite elem_of_cons, pair_eq; tauto).
  destruct (decide ((s, t) ∈ (s0, t0) :: ps)), (decide ((s, t) ∈ ps)),
    (decide (s = s0 /\ t = t0)); tauto || done.
Qed.

Lemma fold_set_zero (ps : list (Source * Type_)) (d : Full) :
  valid d -> exists d', fold_opt (fun result st => setBytesLimit result st.1 st.2 0) ps d = Some d'
    /\ valid d' /\ forall s t, effective d' s t
         = if decide ((s, t) ∈ ps) then 0 else effective d s t.
Proof.
  assert (0 <= 0 <= kMaxBytesLimit) as H0 by (vm_compute; split; discriminate).
  revert d. induction ps as [|[s0 t0] ps IH]; intros d Hd; cbn [fold_opt fst snd].
  - exists d. split_and!; [done|done|]. intros s t. rewrite decide_False; [done|apply not_elem_of_nil].
  - rewrite setBytesLimit_put by (done || apply Hd).
    destruct (IH (put d s0 t0 (wraps 32 0))) as (d' & -> & Hv & He).
    { apply valid_put; [done|]. by apply wraps_limit. }
    exists d'. split_and!; [done|done|]. intros s t. rewrite He, effective_put by (done || apply Hd).
    by rewrite decide_pair_cons.
Qed.

Lemma upgradeOne_spec (d : Full) (st : Source * Type_) :
  valid d -> upgradeOne d st
    = Some (put d st.1 st.2 (wraps 32 (Z.max (effective d st.1 st.2) kDefaultAutoPlaySize))).
Proof.
  intros Hd. unfold upgradeOne, bytesLimit.
  destruct (setOrDefault_spec d st.1 st.2 ltac:(apply Hd)) as (r & -> & -> & _).
  apply setBytesLimit_put; [apply Hd|]. pose proof (effective_fits d st.1 st.2 Hd).
  assert (kDefaultAutoPlaySize <= kMaxBytesLimit) by (vm_compute; discriminate). lia.
Qed.

Lemma fold_upgrade (ps : list (Source * Type_)) (d : Full) :
  valid d -> exists d', fold_opt upgradeOne ps d = Some d' /\ valid d'
    /\ forall s t, effective d' s t
         = if decide ((s, t) ∈ ps) then Z.max (effective d s t) kDefaultAutoPlaySize
           else effective d s t.
Proof.
  revert d. induction ps as [|[s0 t0] ps IH]; intros d Hd; cbn [fold_opt].
  - exists d. split_and!; [done|done|]. intros s t. rewrite decide_False; [done|apply not_elem_of_nil].
  - rewrite upgradeOne_spec by done. cbn [fst snd]. set (b := Z.max _ _).
    assert (0 <= b <= kMaxBytesLimit) as Hb.
    { pose proof (effective_fits d s0 t0 Hd). subst b.
      assert (kDefaultAutoPlaySize <= kMaxBytesLimit) by (vm_compute; discriminate). lia. }
    destruct (IH (put d s0 t0 (wraps 32 b))) as (d' & -> & Hv & He).
    { apply valid_put; [done|]. by apply wraps_limit. }
    exists d'. split_and!; [done|done|]. intros s t. rewrite He, effective_put by (done || apply Hd).
    rewrite decide_pair_cons. destruct (decide (s = s0 /\ t = t0)) as [[-> ->]|Hne]; [|done].
    case_decide; subst b; lia.
Qed.

(** *** The byte array *)

Lemma put32_length (v : Z) : length (put32 v) = 4%nat.
Proof. done. Qed.

Lemma get32_put32 (v : Z) (rest : list Z) : fits_s 32 v -> get32 (put32 v ++ rest) = (v, rest).
Proof.
  intros Hv. assert (0 <= wrapu 32 v < 2 ^ 32) as Hu by (apply wrapu_bound; lia).
  assert (wraps 32 (wrapu 32 v) = v) as Hw by (rewrite wraps_wrapu; apply wraps_small; [lia|done]).
  unfold put32, get32. cbn [app]. f_equal. cbv zeta.
  set (u := wrapu 32 v) in *. clearbody u. unfold wrapu. rewrite !Z.shiftr_div_pow2 by lia.
  rewrite <- Hw at 1. f_equal. Z.to_euclidean_division_equations; lia.
Qed.

Lemma get32_fits (stream : list Z) : fits_s 32 (get32 stream).1.
Proof.
  destruct stream as [|a [|b [|c [|e r]]]]; simpl; try (unfold fits_s; lia).
  apply wraps_bound. lia.
Qed.

Lemma valid_limit_fits (v : Z) : valid_limit v -> fits_s 32 v.
Proof. intros [->|[? _]]; [unfold fits_s; lia|done]. Qed.

Lemma Single_setFromSerialized_spec (v : Z) :
  fits_s 32 v ->
  (valid_limit v -> Single.setFromSerialized v = Some v)
  /\ (forall w, Single.setFromSerialized v = Some w -> w = v /\ valid_limit v).
Proof.
  intros Hv. unfold Single.setFromSerialized.
  destruct (Z.eqb_spec v (-1)) as [->|Hne]; simpl.
  - split; [done|]. intros w [= <-]. split; [done|]. by left.
  - destruct (Z.ltb_spec kMaxBytesLimit (wrapu 32 v)) as [Hlt|Hle].
    + split; [|done]. intros [?|[_ ?]]; [done|lia].
    + split; [done|]. intros w [= <-]. split; [done|]. by right.
Qed.

Lemma readOne_spec (st : Source * Type_) (temp : Full) (stream : list Z) :
  shape temp ->
  (valid_limit (get32 stream).1 ->
     readOne st temp stream = Some (put temp st.1 st.2 (get32 stream).1, (get32 stream).2))
  /\ (forall r, readOne st temp stream = Some r ->
        valid_limit (get32 stream).1
        /\ r = (put temp st.1 st.2 (get32 stream).1, (get32 stream).2)).
Proof.
  intros Ht. unfold readOne. pose proof (get32_fits stream) as Hf.
  destruct (get32 stream) as [v rest]. cbn [fst snd] in *.
  rewrite set_shape by done. destruct (Single_setFromSerialized_spec v Hf) as [H1 H2].
  unfold Set_.setFromSerialized.
  replace ((typeIndex st.2 <? 0) || (kTypesCount <=? typeIndex st.2)) with false by (by destruct st.2).
  destruct (Single.setFromSerialized v) as [w|].
  - destruct (H2 w eq_refl) as [-> Hv]. split; [done|]. by intros r [= <-].
  - split; [intros Hv; by specialize (H1 Hv)|done].
Qed.

Definition encode (d : Full) (ps : list (Source * Type_)) : list Z :=
  ps ≫= (fun st => put32 (lim d st.1 st.2)).

Lemma serialize_spec (d : Full) :
  shape d -> serialize d = Some (2 :: encode d (pairs all_types)).
Proof.
  intros Hd. unfold serialize. change [wrapu 8 kVersion] with [2].
  change (Some (2 :: encode d (pairs all_types))) with (Some ([2] ++ encode d (pairs all_types))).
  generalize (pairs all_types) as ps. generalize [2] as acc.
  intros acc ps. revert acc. induction ps as [|st ps IH]; intros acc; cbn [fold_opt].
  - by rewrite app_nil_r.
  - rewrite set_shape by done. unfold Set_.serialize.
    rewrite single_row by apply (shape_row d st.1 Hd). fold (lim d st.1 st.2).
    unfold Single.serialize. by rewrite IH, <- app_assoc.
Qed.

Lemma read_encoded (d temp : Full) (ps : list (Source * Type_)) :
  valid d -> shape temp ->
  exists e, fold_opt (fun ts st => readOne st ts.1 ts.2) ps (temp, encode d ps) = Some (e, [])
    /\ shape e /\ forall s t, lim e s t = if decide ((s, t) ∈ ps) then lim d s t else lim temp s t.
Proof.
  intros Hd. revert temp. induction ps as [|[s0 t0] ps IH]; intros temp Ht.
  - exists temp. split_and!; [done|done|]. intros s t. rewrite decide_False; [done|apply not_elem_of_nil].
  - change (encode d ((s0, t0) :: ps)) with (put32 (lim d s0 t0) ++ encode d ps). cbn [fold_opt fst snd].
    destruct (readOne_spec (s0, t0) temp (put32 (lim d s0 t0) ++ encode d ps) Ht) as [H _].
    pose proof (proj2 Hd s0 t0) as Hl. rewrite get32_put32 in H by (by apply valid_limit_fits).
    cbn [fst snd] in *. rewrite H by done.
    destruct (IH (put temp s0 t0 (lim d s0 t0))) as (e & He & Hs & Hle); [by apply shape_put|].
    exists e. split_and!; [done|done|]. intros s t. rewrite Hle, lim_put, decide_pair_cons by done.
    destruct (decide (s = s0 /\ t = t0)) as [[-> ->]|?]; [|done]. by case_decide.
Qed.

Lemma all_pairs (s : Source) (t : Type_) : (s, t) ∈ pairs all_types.
Proof. by apply (bool_decide_unpack ((s, t) ∈ pairs all_types)); destruct s, t. Qed.

Lemma read_valid (ps : list (Source * Type_)) (stream : list Z) (r : Full * list Z) :
  fold_opt (fun ts st => readOne st ts.1 ts.2) ps (initial, stream) = Some r -> valid r.1.
Proof.
  apply (fold_opt_keeps (fun ts : Full * list Z => valid ts.1)); [|apply initial_valid].
  intros [temp rest] st r' _ Hv Hr. cbn [fst] in *.
  destruct (readOne_spec st temp rest ltac:(apply Hv)) as [_ H2].
  destruct (H2 r' Hr) as [Hl ->]. by apply valid_put.
Qed.

Lemma elem_of_pairs (s : Source) (t : Type_) (ts : list Type_) : (s, t) ∈ pairs ts <-> t ∈ ts.
Proof.
  unfold pairs. rewrite list_elem_of_bind. split.
  - intros (s' & H & _). apply list_elem_of_bind in H as (t' & H & Ht).
    apply list_elem_of_singleton in H. by simplify_eq.
  - intros Ht. exists s. split; [|destruct s; set_solver].
    apply list_elem_of_bind. exists t. split; [by apply list_elem_of_singleton|done].
Qed.

(** The version byte selects the branch: after it the payload is read the same. *)
Definition payload (stream : list Z) : option Full :=
  r <-? fold_opt (fun ts st => readOne st ts.1 ts.2) (pairs all_types) (initial, stream) ; Some r.1.

Lemma setFromSerialized_versions (stream : list Z) :
  setFromSerialized (2 :: stream) = payload stream
  /\ setFromSerialized (1 :: stream)
     = (temp <-? payload stream ; fold_opt upgradeOne (pairs kAutoPlayTypes) temp).
Proof.
  unfold setFromSerialized, payload. change (wraps 8 2) with 2. change (wraps 8 1) with 1.
  change (negb (2 =? kVersion) && negb (2 =? kVersion1)) with false.
  change (negb (1 =? kVersion) && negb (1 =? kVersion1)) with false.
  change (2 =? kVersion1) with false. change (1 =? kVersion1) with true.
  split; [done|]. by destruct (fold_opt _ _ (initial, stream)).
Qed.

Lemma payload_valid (stream : list Z) (d : Full) : payload stream = Some d -> valid d.
Proof.
  unfold payload. destruct (fold_opt _ _ _) as [r|] eqn:E; [|done]. intros [= <-].
  by eapply read_valid.
Qed.

(** ** Properties *)

(** The settings survive being saved: the limits are written as 85 bytes,
    and whatever valid limits were written are read back exactly. *)
Theorem auto_download_roundtrip (d : Full) :
  valid d -> exists bytes, serialize d = Some bytes /\ length bytes = 85%nat
    /\ setFromSerialized bytes = Some d.
Proof.
  intros Hd. exists (2 :: encode d (pairs all_types)). split_and!.
  - apply serialize_spec, Hd.
  - done.
  - rewrite (proj1 (setFromSerialized_versions _)). unfold payload.
    destruct (read_encoded d initial (pairs all_types) Hd) as (e & -> & Hs & He); [apply initial_valid|].
    simpl. f_equal. apply limits_ext; [done|apply Hd|]. intros s t. rewrite He.
    by rewrite decide_True by apply all_pairs.
Qed.

(** Whatever bytes are read, accepted settings are valid: every limit is
    absent or within [kMaxBytesLimit]; settings of the first version are the
    same settings with the automatic playback limits raised to 50 MB. *)
Theorem auto_download_read (stream : list Z) (d : Full) :
  setFromSerialized stream = Some d ->
  valid d
  /\ forall rest, stream = 1 :: rest ->
     exists d2, setFromSerialized (2 :: rest) = Some d2
       /\ forall s t, effective d s t
            = if decide (t ∈ kAutoPlayTypes) then Z.max (effective d2 s t) kDefaultAutoPlaySize
              else effective d2 s t.
Proof.
  intros H. assert (forall d2, valid d2 -> fold_opt upgradeOne (pairs kAutoPlayTypes) d2 = Some d ->
    valid d /\ forall s t, effective d s t
      = if decide (t ∈ kAutoPlayTypes) then Z.max (effective d2 s t) kDefaultAutoPlaySize
        else effective d2 s t) as Hup.
  { intros d2 Hd2 E. destruct (fold_upgrade (pairs kAutoPlayTypes) d2 Hd2) as (d' & E' & Hv & He).
    rewrite E in E'. injection E' as <-. split; [done|]. intros s t. rewrite He.
    destruct (decide (t ∈ kAutoPlayTypes)) as [Ht|Ht].
    - by rewrite decide_True by by apply elem_of_pairs.
    - rewrite decide_False; [done|]. by rewrite elem_of_pairs. }
  split.
  - unfold setFromSerialized in H. destruct stream as [|b rest]; [done|].
    destruct (_ && _); [done|]. destruct (fold_opt _ _ (initial, rest)) as [r|] eqn:E; [|done].
    apply read_valid in E. destruct (_ =? _); [by apply (Hup r.1)|by injection H as <-].
  - intros rest ->. rewrite (proj2 (setFromSerialized_versions _)) in H.
    destruct (payload rest) as [d2|] eqn:E; [|done]. exists d2.
    rewrite (proj1 (setFromSerialized_versions _)). split; [done|].
    apply Hup; [by eapply payload_valid|done].
Qed.

(** With valid settings no decision fails, and each one is what the limits
    in force say: stickers and GIFs are always downloaded, voice and video
    messages, music and videos never, other files up to the limit of the
    source of the peer, where a limit of zero means never. *)
Theorem auto_download_decision (d : Full) (peer : PeerData) (doc : DocumentData) :
  valid d ->
  Should d peer doc = Some (
    (sticker doc || isGifv doc)
    || (negb (isVoiceMessage doc || isVideoMessage doc || isSong doc || isVideoFile doc)
        && ((0 <? effective d (SourceFromPeer peer) File)
            && (size doc <=? effective d (SourceFromPeer peer) File))))
  /\ is_Some (ShouldAnywhere d doc)
  /\ (sticker doc = false ->
      (ShouldAnywhere d doc = Some true <-> exists s, ShouldFrom d s doc = Some true)).
Proof.
  intros [Hd _].
  assert (forall s, ShouldFrom d s doc = Some ((sticker doc || isGifv doc)
    || (negb (isVoiceMessage doc || isVideoMessage doc || isSong doc || isVideoFile doc)
        && ((0 <? effective d s File) && (size doc <=? effective d s File))))) as HF.
  { intros s. unfold ShouldFrom. destruct (_ || _); [done|]. destruct (_ || _); [done|].
    by rewrite shouldDownload_spec. }
  split_and!; [apply HF| |].
  - unfold ShouldAnywhere, or_else. rewrite !HF. repeat case_match; by eexists.
  - intros Hs. unfold ShouldAnywhere. rewrite Hs. unfold or_else.
    pose proof (HF User) as HU. pose proof (HF Group) as HG. pose proof (HF Channel) as HC.
    rewrite HU, HG, HC. split.
    + repeat case_match; intros; simplify_eq; [by exists User|by exists Group|exists Channel; congruence].
    + intros [[] E]; rewrite E in *; simplify_eq; repeat case_match; congruence.
Qed.

(** [WithDisabledAutoPlay] turns all automatic playback off (stickers
    excepted) and changes no other limit. *)
Theorem disabled_auto_play (d : Full) :
  valid d -> exists d', WithDisabledAutoPlay d = Some d' /\ valid d'
    /\ (forall peer doc, ShouldAutoPlay d' peer doc = Some (sticker doc))
    /\ (forall peer photo, ShouldAutoPlayPhoto d' peer photo = Some false)
    /\ (forall s t, t ∉ kAutoPlayTypes -> effective d' s t = effective d s t).
Proof.
  intros Hd. destruct (fold_set_zero (pairs kAutoPlayTypes) d Hd) as (d' & E & Hv & He).
  exists d'. assert (forall s t, t ∈ kAutoPlayTypes -> effective d' s t = 0) as H0.
  { intros s t Ht. rewrite He. by rewrite decide_True by by apply elem_of_pairs. }
  assert (forall s t sz, t ∈ kAutoPlayTypes -> shouldDownload d' s t sz = Some false) as Hno.
  { intros s t sz Ht. rewrite shouldDownload_spec by apply Hv. rewrite (H0 s t Ht). simpl.
    by rewrite andb_false_r. }
  split_and!; [done|done| | |].
  - intros peer doc. unfold ShouldAutoPlay. rewrite Hno; [by destruct (sticker doc)|].
    unfold AutoPlayTypeFromDocument, kAutoPlayTypes. by repeat case_match; apply (bool_decide_unpack (_ ∈ _)).
  - intros peer photo. unfold ShouldAutoPlayPhoto, kAutoPlayTypes in *.
    rewrite !Hno by by apply (bool_decide_unpack (_ ∈ _)). by destruct (hasVideo photo).
  - intros s t Ht. rewrite He, decide_False; [done|]. by rewrite elem_of_pairs.
Qed.

(** The stream status is not looked at after the values: an array cut after
    the version byte is accepted, with every limit zero. *)
Lemma truncated_settings_accepted :
  setFromSerialized [2] = FullDisabled /\ is_Some FullDisabled.
Proof. split; [by vm_compute|]. vm_compute. eauto. Qed.

(** *** Witnesses *)

Definition ex_settings : Full := default [] (setBytesLimit initial Group File 2048).

Lemma ex_settings_valid : valid ex_settings.
Proof.
  unfold ex_settings.
  destruct (setBytesLimit_valid initial Group File 2048 initial_valid) as (d & -> & Hd); [|done].
  vm_compute. split; discriminate.
Qed.

Lemma auto_download_roundtrip_witness :
  exists bytes, serialize ex_settings = Some bytes /\ setFromSerialized bytes = Some ex_settings.
Proof.
  destruct (auto_download_roundtrip ex_settings ex_settings_valid) as (b & H1 & _ & H2). eauto.
Defined.

Lemma auto_download_read_witness : exists d, setFromSerialized [1; 0; 0; 0; 0] = Some d /\ valid d.
Proof.
  eexists. split; [by vm_compute|]. apply (auto_download_read [1; 0; 0; 0; 0]). by vm_compute.
Defined.

Lemma auto_download_decision_witness :
  Should ex_settings (mk_peer false true false) (mk_document false false false false false false 100)
  = Some true.
Proof.
  destruct (auto_download_decision ex_settings (mk_peer false true false)
    (mk_document false false false false false false 100) ex_settings_valid) as [-> _].
  by vm_compute.
Defined.

Lemma disabled_auto_play_witness :
  exists d', WithDisabledAutoPlay ex_settings = Some d' /\ effective d' Group File = 2048.
Proof.
  destruct (disabled_auto_play ex_settings ex_settings_valid) as (d' & H1 & _ & _ & _ & H2).
  exists d'. split; [done|]. rewrite H2; [by vm_compute|]. by apply (bool_decide_unpack (_ ∉ _)).
Defined.
