(* ===== verification/SparseIds.v ===== *)
(** * Slices of message ids

    [data/data_abstract_sparse_ids.h], [data/data_sparse_ids.h] and
    [data/data_sparse_ids.cpp]: the slice of a list around a message
    ([SparseIdsSlice]), the slice merged with the one of the group the chat
    was migrated from ([SparseIdsMergedSlice]), and the builder that follows
    the changes of a [SparseIdsList] and keeps a slice within its limits.

    The outer [option] of the merged slice is the access to an absent
    [_migrated] (or a failed [Expects]); that of the builder is a failed
    [Assert]. [flat_set]s are their sorted vectors here, because positions in
    them matter. *)

From S2P Require Import Prelude Ids SparseIdsList.
Import Msg.

(** ** [AbstractSparseIds] *)
Record sparse_ids := mk_ids {
  ids : list Z;
  fullCount : option Z;
  skippedBefore : option Z;
  skippedAfter : option Z;
}.

Definition no_ids : sparse_ids := mk_ids [] None None None.

(** [ranges::find], as an index. *)
Definition find_index (id : Z) (l : list Z) : option Z :=
  (fun ix => Z.of_nat ix.1) <$> list_find (fun x => x = id) l.

Definition indexOf (s : sparse_ids) (id : Z) : option Z := find_index id (ids s).

Definition size (s : sparse_ids) : Z := Z.of_nat (length (ids s)).

Definition at_index (s : sparse_ids) (index : Z) : option Z :=
  if (0 <=? index) && (index <? size s) then ids s !! Z.to_nat index else None.

Definition distance (s : sparse_ids) (a b : Z) : option Z :=
  i <-? indexOf s a ; j <-? indexOf s b ; Some (j - i).

Definition lower_bound (id : Z) (l : list Z) : nat := partition_point (fun x => x <? id) l.

Definition nearest (s : sparse_ids) (id : Z) : option Z :=
  match ids s !! lower_bound id (ids s) with
  | Some x => Some x
  | None => last (ids s)
  end.

Definition reverse (s : sparse_ids) : sparse_ids :=
  mk_ids (List.rev (ids s)) (fullCount s) (skippedAfter s) (skippedBefore s).

(** ** [SparseIdsMergedSlice] *)
Module Merged.

Record Key := mk_key {
  peerId : Z; scheduled : bool; migratedPeerId : Z; universalId : Z }.

(** The constructor of the key. *)
Definition make_key (peer migratedPeer universal : Z) (sched : bool) : Key :=
  mk_key peer sched (if sched then 0 else migratedPeer) universal.

Record merged := mk_merged {
  key : Key;
  part : sparse_ids;
  migrated : option sparse_ids;
  unsorted : option sparse_ids;
}.

Definition PartKey (k : Key) : Z := if universalId k <? 0 then 1 else universalId k.

Definition MigratedKey (k : Key) : Z :=
  if universalId k <? 0 then ServerMaxMsgId + universalId k
  else if 0 <? universalId k then ServerMaxMsgId - 1 else 0.

Definition MigratedSlice (k : Key) : option sparse_ids :=
  if migratedPeerId k =? 0 then None else Some no_ids.

Definition of_key (k : Key) : merged := mk_merged k no_ids (MigratedSlice k) None.
Definition of_parts (k : Key) (p : sparse_ids) (m : option sparse_ids) : merged :=
  mk_merged k p m None.
Definition of_unsorted (k : Key) (u : sparse_ids) : merged := mk_merged k no_ids None (Some u).

Definition IsFromSlice (peer : Z) (fullId : FullMsgId) : bool := peer =? fm_peer fullId.
Definition ComputeId (peer msg : Z) : FullMsgId := mk_full peer msg.
Definition ComputeKeyId (k : Key) : FullMsgId :=
  if 0 <=? universalId k then ComputeId (peerId k) (universalId k)
  else ComputeId (migratedPeerId k) (ServerMaxMsgId + universalId k).

Definition Add (a b : option Z) : option Z := x <-? a ; y <-? b ; Some (x + y).

Definition isolatedInPart (m : merged) : bool :=
  IsServerMsgId (universalId (key m))
  && (bool_decide (migrated m = None) || negb (bool_decide (skippedBefore (part m) = Some 0))).

Definition isolatedInMigrated (m : merged) : option bool :=
  if IsServerMsgId (ServerMaxMsgId + universalId (key m)) then
    g <-? migrated m ; Some (negb (bool_decide (skippedAfter g = Some 0)))
  else Some false.

Definition isFromPart (m : merged) (fullId : FullMsgId) : bool :=
  IsFromSlice (peerId (key m)) fullId.
Definition isFromMigrated (m : merged) (fullId : FullMsgId) : bool :=
  match migrated m with
  | Some _ => IsFromSlice (migratedPeerId (key m)) fullId
  | None => false
  end.

Definition migratedSize (m : merged) : option Z :=
  if isolatedInPart m then Some 0 else g <-? migrated m ; Some (size g).

Definition m_fullCount (m : merged) : option Z :=
  match unsorted m with
  | Some u => fullCount u
  | None => Add (fullCount (part m))
              (match migrated m with Some g => fullCount g | None => Some 0 end)
  end.

Definition m_skippedBefore (m : merged) : option (option Z) :=
  match unsorted m with
  | Some u => Some (skippedBefore u)
  | None =>
      inMigrated <-? isolatedInMigrated m ;
      Some (Add (if inMigrated : bool then Some 0 else skippedBefore (part m))
        (match migrated m with
         | Some g => if isolatedInPart m then fullCount g else skippedBefore g
         | None => Some 0
         end))
  end.

Definition m_skippedAfter (m : merged) : option (option Z) :=
  match unsorted m with
  | Some u => Some (skippedAfter u)
  | None =>
      inMigrated <-? isolatedInMigrated m ;
      let first := if inMigrated : bool then fullCount (part m) else skippedAfter (part m) in
      if isolatedInPart m then Some (Add first (Some 0))
      else g <-? migrated m ; Some (Add first (skippedAfter g))
  end.

Definition m_indexOf (m : merged) (fullId : FullMsgId) : option (option Z) :=
  match unsorted m with
  | Some u => Some (indexOf u (fm_msg fullId))
  | None =>
      if isFromPart m fullId then
        match indexOf (part m) (fm_msg fullId) with
        | Some i => n <-? migratedSize m ; Some (Some (i + n))
        | None => _ <-? migratedSize m ; Some None
        end
      else if isolatedInPart m then Some None
      else if isFromMigrated m fullId then
        g <-? migrated m ; Some (indexOf g (fm_msg fullId))
      else Some None
  end.

Definition m_size (m : merged) : option Z :=
  match unsorted m with
  | Some u => Some (size u)
  | None =>
      a <-? (if isolatedInPart m then Some 0 else migratedSize m) ;
      inMigrated <-? isolatedInMigrated m ;
      Some (a + (if inMigrated : bool then 0 else size (part m)))
  end.

Definition m_at (m : merged) (index : Z) : option FullMsgId :=
  n <-? m_size m ;
  if (0 <=? index) && (index <? n) then
    match unsorted m with
    | Some u => x <-? at_index u index ; Some (ComputeId (peerId (key m)) x)
    | None =>
        sz <-? migratedSize m ;
        if negb (sz =? 0) && (index <? sz) then
          g <-? migrated m ; x <-? at_index g index ;
          Some (ComputeId (migratedPeerId (key m)) x)
        else
          x <-? at_index (part m) (index - sz) ; Some (ComputeId (peerId (key m)) x)
    end
  else None.

Definition m_distance (m : merged) (a b : Key) : option (option Z) :=
  i <-? m_indexOf m (ComputeKeyId a) ;
  match i with
  | None => Some None
  | Some i =>
      j <-? m_indexOf m (ComputeKeyId b) ;
      match j with None => Some None | Some j => Some (Some (j - i)) end
  end.

Definition m_nearest (m : merged) (id : Z) : option (option FullMsgId) :=
  match unsorted m with
  | Some u =>
      match indexOf u id with
      | Some _ => Some (Some (ComputeId (peerId (key m)) id))
      | None =>
          let count := size u in
          if negb (count =? 0)
          then x <-? at_index u (cquot count 2) ; Some (Some (ComputeId (peerId (key m)) x))
          else Some None
      end
  | None =>
      let convertFromPartNearest := ComputeId (peerId (key m)) in
      let convertFromMigratedNearest := ComputeId (migratedPeerId (key m)) in
      if IsServerMsgId id then
        match nearest (part m) id with
        | Some r => Some (Some (convertFromPartNearest r))
        | None =>
            if isolatedInPart m then Some None
            else g <-? migrated m ;
                 Some (convertFromMigratedNearest <$> nearest g (ServerMaxMsgId - 1))
        end
      else
        match (g <-? migrated m ; nearest g (id + ServerMaxMsgId)) with
        | Some r => Some (Some (convertFromMigratedNearest r))
        | None =>
            inMigrated <-? isolatedInMigrated m ;
            if inMigrated : bool then Some None
            else Some (convertFromPartNearest <$> nearest (part m) 0)
        end
  end.

(** [CreateViewer]: its [Expects], the keys and limits of the viewers it asks
    for, and the value it puts for the last values of those viewers. *)
Definition viewer_expects (k : Key) (limitBefore limitAfter : Z) : bool :=
  (IsServerMsgId (universalId k) || (universalId k =? 0)
   || (IsServerMsgId (ServerMaxMsgId + universalId k) && negb (migratedPeerId k =? 0)))
  && (negb (universalId k =? 0) || ((limitBefore =? 0) && (limitAfter =? 0))).

Definition viewer_requests (k : Key) (limitBefore limitAfter : Z) : list (Z * Z * Z * Z) :=
  if migratedPeerId k =? 0 then [(peerId k, PartKey k, limitBefore, limitAfter)]
  else [(peerId k, PartKey k, limitBefore, limitAfter);
        (migratedPeerId k, MigratedKey k, limitBefore, limitAfter)].

Definition viewer_value (k : Key) (p m : sparse_ids) : merged :=
  if migratedPeerId k =? 0 then of_parts k p None else of_parts k p (Some m).

End Merged.

(** The union of a sorted vector with more ids. *)
Definition flat_merge (l more : list Z) : list Z :=
  sorted_elements (list_to_set l ∪ list_to_set more).

(** ** [SparseIdsSliceBuilder] *)
Module Builder.

Inductive LoadDirection := Around | Before | After.
Inductive RequestDirection := RequestBefore | RequestAfter.
Record AroundData := mk_around { a_aroundId : Z; a_direction : LoadDirection }.

(** [fired] are the events of [_insufficientAround]. *)
Record builder := mk_builder {
  key : Z;
  b_ids : list Z;
  b_fullCount : option Z;
  b_skippedBefore : option Z;
  b_skippedAfter : option Z;
  limitBefore : Z;
  limitAfter : Z;
  fired : list AroundData;
}.

Definition new_builder (k lb la : Z) : builder := mk_builder k [] None None None lb la [].

Definition set_data (mids : list Z) (c sb sa : option Z) (b : builder) : builder :=
  mk_builder (key b) mids c sb sa (limitBefore b) (limitAfter b) (fired b).

Definition fire (a : AroundData) (b : builder) : builder :=
  mk_builder (key b) (b_ids b) (b_fullCount b) (b_skippedBefore b) (b_skippedAfter b)
    (limitBefore b) (limitAfter b) (fired b ++ [a]).

Definition requestMessages (direction : RequestDirection) (b : builder) : builder :=
  fire (match head (b_ids b), last (b_ids b), direction with
        | Some front, _, RequestBefore => mk_around front Before
        | _, Some back, RequestAfter => mk_around back After
        | _, _, _ => mk_around (key b) Around
        end) b.

Definition requestMessagesCount (b : builder) : builder := fire (mk_around 0 Around) b.

(** [!skipped || *skipped > 0] *)
Definition maybe_more (skipped : option Z) : bool :=
  match skipped with None => true | Some n => 0 <? n end.

(** The two halves of [sliceToLimits]: the builder and [requestedSomething]. *)
Definition limitBegin (removeFromBegin : Z) (b : builder) : builder * bool :=
  if 0 <? removeFromBegin then
    (set_data (drop (Z.to_nat removeFromBegin) (b_ids b)) (b_fullCount b)
       ((fun n => n + removeFromBegin) <$> b_skippedBefore b) (b_skippedAfter b) b, false)
  else if (removeFromBegin <? 0) && maybe_more (b_skippedBefore b) then
    (requestMessages RequestBefore b, true)
  else (b, false).

Definition limitEnd (removeFromEnd : Z) (b : builder) : builder * bool :=
  if 0 <? removeFromEnd then
    (set_data (take (length (b_ids b) - Z.to_nat removeFromEnd) (b_ids b)) (b_fullCount b)
       (b_skippedBefore b) ((fun n => n + removeFromEnd) <$> b_skippedAfter b) b, false)
  else if (removeFromEnd <? 0) && maybe_more (b_skippedAfter b) then
    (requestMessages RequestAfter b, true)
  else (b, false).

Definition sliceToLimits (b : builder) : builder :=
  if key b =? 0 then
    match b_fullCount b with None => requestMessagesCount b | Some _ => b end
  else
    let aroundIt := Z.of_nat (lower_bound (key b) (b_ids b)) in
    let removeFromBegin := aroundIt - limitBefore b in
    let removeFromEnd := Z.of_nat (length (b_ids b)) - aroundIt - limitAfter b - 1 in
    let '(b, r1) := limitBegin removeFromBegin b in
    let '(b, r2) := limitEnd removeFromEnd b in
    match b_fullCount b with
    | None => if negb (r1 || r2) then requestMessagesCount b else b
    | Some _ => b
    end.

Definition fillSkippedAndSliceToLimits (b : builder) : builder :=
  let n := Z.of_nat (length (b_ids b)) in
  sliceToLimits
    (match b_fullCount b, b_skippedBefore b, b_skippedAfter b with
     | Some c, Some sb, None => set_data (b_ids b) (Some c) (Some sb) (Some (c - sb - n)) b
     | Some c, None, Some sa => set_data (b_ids b) (Some c) (Some (c - sa - n)) (Some sa) b
     | _, _, _ => b
     end).

(** [adjustSkippedBefore], [adjustSkippedAfter], with their [Assert]. *)
Definition adjustSkippedBefore (mids : list Z) (oldId oldSkipped : Z) : option Z :=
  it <-? find_index oldId mids ; Some (Z.max (oldSkipped - it) 0).
Definition adjustSkippedAfter (mids : list Z) (oldId oldSkipped : Z) : option Z :=
  it <-? find_index oldId mids ;
  Some (Z.max (oldSkipped - (Z.of_nat (length mids) - it - 1)) 0).

(** The choice made for each of the two numbers: the new one counted from the
    edge of the new ids, or the old one from the old edge, or none. *)
Definition adjust (adj : list Z -> Z -> Z -> option Z) (mids : list Z) (newEdge : Z)
    (newSkipped : option Z) (wasEdge : Z) (wasSkipped : option Z) : option (option Z) :=
  match newSkipped with
  | Some n => Some <$> adj mids newEdge n
  | None =>
      match wasSkipped with
      | Some n => if 0 <=? wasEdge then Some <$> adj mids wasEdge n else Some None
      | None => Some None
      end
  end.

Definition mergeSliceData (count : option Z) (messageIds : list Z)
    (newBefore newAfter : option Z) (b : builder) : option builder :=
  match head messageIds, last messageIds with
  | Some front, Some back =>
      let b := match count with
               | Some _ => set_data (b_ids b) count (b_skippedBefore b) (b_skippedAfter b) b
               | None => b
               end in
      let wasMinId := default (-1) (head (b_ids b)) in
      let wasMaxId := default (-1) (last (b_ids b)) in
      let mids := flat_merge (b_ids b) messageIds in
      sb <-? adjust adjustSkippedBefore mids front newBefore wasMinId (b_skippedBefore b) ;
      sa <-? adjust adjustSkippedAfter mids back newAfter wasMaxId (b_skippedAfter b) ;
      Some (fillSkippedAndSliceToLimits (set_data mids (b_fullCount b) sb sa b))
  | _, _ =>
      let n := Z.of_nat (length (b_ids b)) in
      let b := match count with
               | Some c =>
                   if bool_decide (b_fullCount b = Some c) then b
                   else if c <=? n then set_data (b_ids b) (Some n) (Some 0) (Some 0) b
                   else set_data (b_ids b) (Some c) (b_skippedBefore b) (b_skippedAfter b) b
               | None => b
               end in
      Some (fillSkippedAndSliceToLimits b)
  end.

Definition applyInitial (result : QueryResult) (b : builder) : option (bool * builder) :=
  b <-? mergeSliceData (r_count result) (r_messageIds result) (r_skippedBefore result)
          (r_skippedAfter result) b ;
  Some (true, b).

Definition intersects (range1 range2 : MsgRange) : bool :=
  (from range1 <=? till range2) && (from range2 <=? till range1).

Definition needMergeMessages (update : SliceUpdate) (b : builder) : bool :=
  negb (bool_decide (u_messages update = None))
  && intersects (u_range update)
       (mk_range (default (key b) (head (b_ids b))) (default (key b) (last (b_ids b)))).

Definition applyUpdate (update : SliceUpdate) (b : builder) : option (bool * builder) :=
  let need := needMergeMessages update b in
  if negb need && bool_decide (u_count update = None) then Some (false, b)
  else
    let newBefore := if from (u_range update) =? 0 then Some 0 else None in
    let newAfter := if till (u_range update) =? ServerMaxMsgId then Some 0 else None in
    b <-? mergeSliceData (u_count update)
            (if need then sorted_elements (default ∅ (u_messages update)) else [])
            newBefore newAfter b ;
    Some (true, b).

Definition checkInsufficient (b : builder) : builder := sliceToLimits b.

Definition dec_positive (n : option Z) : option Z * bool :=
  match n with
  | Some c => if 0 <? c then (Some (c - 1), true) else (n, false)
  | None => (n, false)
  end.

Definition removeOne (messageId : Z) (b : builder) : bool * builder :=
  let '(c, changed) := dec_positive (b_fullCount b) in
  let b := set_data (b_ids b) c (b_skippedBefore b) (b_skippedAfter b) b in
  let '(b, changed) :=
    if bool_decide (messageId ∈ b_ids b) then
      (set_data (filter (fun x => x <> messageId) (b_ids b)) (b_fullCount b)
         (b_skippedBefore b) (b_skippedAfter b) b, true)
    else
      match head (b_ids b), last (b_ids b) with
      | Some front, Some back =>
          let '(sb, before) :=
            if messageId <? front then dec_positive (b_skippedBefore b)
            else (b_skippedBefore b, false) in
          if before : bool then
            (set_data (b_ids b) (b_fullCount b) sb (b_skippedAfter b) b, true)
          else
            let '(sa, after) :=
              if back <? messageId then dec_positive (b_skippedAfter b)
              else (b_skippedAfter b, false) in
            if after : bool then
              (set_data (b_ids b) (b_fullCount b) (b_skippedBefore b) sa b, true)
            else (b, changed)
      | _, _ => (b, changed)
      end in
  (changed, if changed : bool then checkInsufficient b else b).

Definition removeAll (b : builder) : bool * builder :=
  (true, set_data [] (Some 0) (Some 0) (Some 0) b).

Definition invalidateBottom (b : builder) : bool * builder :=
  (true, checkInsufficient (set_data (b_ids b) None (b_skippedBefore b) None b)).

Definition snapshot (b : builder) : sparse_ids :=
  mk_ids (b_ids b) (b_fullCount b) (b_skippedBefore b) (b_skippedAfter b).

End Builder.

(** ** Positions in a sorted vector *)

Lemma find_index_lookup (l : list Z) (i : nat) (x : Z) :
  NoDup l -> l !! i = Some x -> find_index x l = Some (Z.of_nat i).
Proof.
  intros Hnd Hi. unfold find_index. assert (list_find (fun y => y = x) l = Some (i, x)) as ->; [|done].
  apply list_find_Some. split_and!; [done|done|]. intros j y Hj Hlt ->.
  pose proof (NoDup_lookup _ _ _ _ Hnd Hi Hj). lia.
Qed.

Lemma find_index_app (l k : list Z) (x : Z) :
  x ∉ l -> find_index x (l ++ x :: k) = Some (Z.of_nat (length l)).
Proof.
  intros Hx. unfold find_index. rewrite list_find_app_r.
  - simpl. by rewrite decide_True by done.
  - apply list_find_None, Forall_forall. by intros y Hy ->.
Qed.

Lemma lt_NoDup (l : list Z) : StronglySorted Z.lt l -> NoDup l.
Proof.
  induction 1 as [|x l Hs IH Hall]; constructor; [|done].
  intros Hx. rewrite Forall_forall in Hall. specialize (Hall x Hx). lia.
Qed.

Lemma at_index_lookup (s : sparse_ids) (i : nat) : at_index s (Z.of_nat i) = ids s !! i.
Proof.
  unfold at_index, size. destruct (Z.ltb_spec (Z.of_nat i) (Z.of_nat (length (ids s)))).
  - replace (0 <=? Z.of_nat i) with true by (symmetry; apply Z.leb_le; lia). simpl. by rewrite Nat2Z.id.
  - rewrite andb_false_r. symmetry. apply lookup_ge_None. lia.
Qed.

Lemma nearest_elem (s : sparse_ids) (id x : Z) : nearest s id = Some x -> x ∈ ids s.
Proof.
  unfold nearest. destruct (ids s !! _) eqn:E; [intros [= <-]; by eapply list_elem_of_lookup_2|].
  intros (l & ->)%last_Some. apply elem_of_app. right. by left.
Qed.

(** ** The merged slice *)
Module Merged_facts.
Import Merged.

(** A slice around a message of the chat itself, or around one of the migrated
    group or the key 0 when there is a migrated group. *)
Definition around_message (m : merged) : Prop :=
  unsorted m = None /\
  (IsServerMsgId (universalId (key m)) = true
   \/ ((IsServerMsgId (ServerMaxMsgId + universalId (key m)) = true \/ universalId (key m) = 0)
       /\ is_Some (migrated m))).

(** What the slice shows: the ids of the migrated group, unless the slice is
    isolated in the chat, then those of the chat, unless it is isolated in the
    group. *)
Definition shown (m : merged) : list FullMsgId :=
  (if isolatedInPart m then [] else
     ComputeId (migratedPeerId (key m)) <$> match migrated m with Some g => ids g | None => [] end)
  ++ (if default false (isolatedInMigrated m) then [] else
        ComputeId (peerId (key m)) <$> ids (part m)).

Lemma around_cases (m : merged) :
  around_message m ->
  (isolatedInPart m = true /\ isolatedInMigrated m = Some false)
  \/ (isolatedInPart m = false
      /\ exists g b, migrated m = Some g /\ isolatedInMigrated m = Some b).
Proof.
  intros [_ Hk]. unfold isolatedInPart, isolatedInMigrated.
  assert (forall u, IsServerMsgId u = true -> IsServerMsgId (ServerMaxMsgId + u) = false) as Hex.
  { intros u Hu. apply server_range in Hu. unfold IsServerMsgId. apply andb_false_iff. right.
    apply Z.ltb_ge. lia. }
  destruct Hk as [Hu|[Hu [g Hg]]].
  - rewrite Hu, (Hex _ Hu). destruct (migrated m) as [g|] eqn:Eg; simpl.
    + destruct (negb _); [by left|]. right. split; [done|]. eauto.
    + by left.
  - right. assert (IsServerMsgId (universalId (key m)) = false) as ->.
    { destruct Hu as [Hu|Hu]; [|by rewrite Hu].
      destruct (IsServerMsgId (universalId (key m))) eqn:Eu; [by rewrite (Hex _ Eu) in Hu|done]. }
    rewrite Hg. destruct (IsServerMsgId (ServerMaxMsgId + _)); eauto.
Qed.

Lemma size_ids (s : sparse_ids) : size s = Z.of_nat (length (ids s)).
Proof. done. Qed.

Lemma m_at_nat (m : merged) (i : nat) :
  around_message m -> m_size m = Some (Z.of_nat (length (shown m)))
  /\ m_at m (Z.of_nat i) = shown m !! i.
Proof.
  intros Hm. assert (m_size m = Some (Z.of_nat (length (shown m)))) as Hsz.
  { unfold m_size, shown, migratedSize. rewrite (proj1 Hm).
    destruct (around_cases m Hm) as [[-> ->]|(-> & g & b & -> & ->)]; simpl.
    - by rewrite length_fmap.
    - rewrite length_app, length_fmap. destruct b; simpl; rewrite ?length_fmap, ?size_ids; f_equal; lia. }
  split; [done|]. unfold m_at. rewrite Hsz, (proj1 Hm).
  replace (0 <=? Z.of_nat i) with true by (symmetry; apply Z.leb_le; lia). simpl.
  destruct (Z.ltb_spec (Z.of_nat i) (Z.of_nat (length (shown m)))) as [Hlt|Hge];
    [|symmetry; apply lookup_ge_None; lia].
  clear Hsz. unfold shown, migratedSize in *.
  destruct (around_cases m Hm) as [[E1 E2]|(E1 & g & b & Eg & E2)];
    rewrite E1, E2, ?Eg in *; simpl in *.
  - rewrite Z.sub_0_r, at_index_lookup, list_lookup_fmap. by destruct (ids (part m) !! i).
  - rewrite !size_ids, at_index_lookup. rewrite length_app, length_fmap in Hlt.
    destruct (decide (i < length (ids g))%nat) as [Hi|Hi].
    + replace (negb (Z.of_nat (length (ids g)) =? 0)) with true
        by (symmetry; apply negb_true_iff, Z.eqb_neq; lia).
      replace (Z.of_nat i <? Z.of_nat (length (ids g))) with true by (symmetry; apply Z.ltb_lt; lia).
      simpl. rewrite lookup_app_l by (by rewrite length_fmap). rewrite list_lookup_fmap.
      by destruct (ids g !! i).
    + replace (Z.of_nat i <? Z.of_nat (length (ids g))) with false by (symmetry; apply Z.ltb_ge; lia).
      rewrite andb_false_r. destruct b; simpl in Hlt; [lia|].
      rewrite <- Nat2Z.inj_sub by lia. rewrite at_index_lookup.
      rewrite lookup_app_r by (rewrite length_fmap; lia). rewrite length_fmap, list_lookup_fmap.
      by destruct (ids (part m) !! _).
Qed.

Lemma m_indexOf_shown (m : merged) (i : nat) (f : FullMsgId) :
  around_message m -> peerId (key m) <> migratedPeerId (key m) ->
  StronglySorted Z.lt (ids (part m)) ->
  (forall g, migrated m = Some g -> StronglySorted Z.lt (ids g)) ->
  shown m !! i = Some f -> m_indexOf m f = Some (Some (Z.of_nat i)).
Proof.
  intros Hm Hp Hs1 Hs2 Hf. apply lt_NoDup in Hs1.
  assert (forall k x, ids (part m) !! k = Some x -> indexOf (part m) x = Some (Z.of_nat k)) as Hpart
    by (intros; by apply find_index_lookup).
  unfold m_indexOf, shown, migratedSize, isFromPart, isFromMigrated, IsFromSlice in *.
  rewrite (proj1 Hm).
  destruct (around_cases m Hm) as [[E1 E2]|(E1 & g & b & Eg & E2)]; rewrite E1, E2 in *; simpl in *.
  - rewrite list_lookup_fmap in Hf. destruct (ids (part m) !! i) as [x|] eqn:Ex; [|done].
    injection Hf as <-. simpl. rewrite Z.eqb_refl, (Hpart i x Ex). do 2 f_equal. lia.
  - rewrite Eg in *. specialize (Hs2 g eq_refl). apply lt_NoDup in Hs2.
    destruct (decide (i < length (ids g))%nat) as [Hi|Hi].
    + rewrite lookup_app_l in Hf by (by rewrite length_fmap). rewrite list_lookup_fmap in Hf.
      destruct (ids g !! i) as [x|] eqn:Ex; [|done]. injection Hf as <-. simpl.
      replace (peerId (key m) =? migratedPeerId (key m)) with false by (symmetry; by apply Z.eqb_neq).
      rewrite Z.eqb_refl. f_equal. by apply find_index_lookup.
    + rewrite lookup_app_r in Hf by (rewrite length_fmap; lia). rewrite length_fmap in Hf.
      destruct b; [by rewrite lookup_nil in Hf|]. rewrite list_lookup_fmap in Hf.
      destruct (ids (part m) !! _) as [x|] eqn:Ex; [|done]. injection Hf as <-. simpl.
      rewrite Z.eqb_refl, (Hpart _ x Ex), size_ids. do 2 f_equal. lia.
Qed.

Lemma find_index_Some (l : list Z) (x i : Z) :
  find_index x l = Some i -> exists k : nat, i = Z.of_nat k /\ l !! k = Some x.
Proof.
  unfold find_index. intros ([k y] & (Hk & -> & _)%list_find_Some & ->)%fmap_Some. by exists k.
Qed.

Lemma find_index_None (l : list Z) (x : Z) : find_index x l = None -> x ∉ l.
Proof.
  unfold find_index. intros H Hx. apply fmap_None, list_find_None in H.
  rewrite Forall_forall in H. by apply (H x Hx).
Qed.

(** What a search finds: a place in what is shown, or, while the slice is
    isolated in the migrated group, a place past its end; nothing only for
    what is not shown. *)
Definition found_in (m : merged) (f : FullMsgId) (r : option Z) : Prop :=
  match r with
  | Some i => (exists k : nat, i = Z.of_nat k /\ shown m !! k = Some f)
      \/ (isolatedInMigrated m = Some true /\ fm_peer f = peerId (key m)
          /\ fm_msg f ∈ ids (part m) /\ Z.of_nat (length (shown m)) <= i)
  | None => f ∉ shown m
  end.

Lemma compute_in (peer : Z) (f : FullMsgId) (l : list Z) :
  f ∈ ComputeId peer <$> l <-> fm_peer f = peer /\ fm_msg f ∈ l.
Proof.
  rewrite list_elem_of_fmap. unfold ComputeId. split; [by intros (x & -> & Hx)|].
  destruct f as [p x]. simpl. intros [-> Hx]. by exists x.
Qed.

Lemma m_indexOf_found (m : merged) (f : FullMsgId) :
  around_message m -> peerId (key m) <> migratedPeerId (key m) ->
  exists r, m_indexOf m f = Some r /\ found_in m f r.
Proof.
  intros Hm Hp. destruct f as [p x].
  unfold m_indexOf, found_in, migratedSize, isFromPart, isFromMigrated, IsFromSlice, indexOf.
  rewrite (proj1 Hm). unfold shown. cbn [fm_peer fm_msg].
  destruct (around_cases m Hm) as [[E1 E2]|(E1 & g & b & Eg & E2)]; rewrite E1, E2, ?Eg; simpl.
  - destruct (Z.eqb_spec (peerId (key m)) p) as [<-|Hne].
    2:{ exists None. split; [done|]. by intros [? _]%compute_in. }
    destruct (find_index x _) as [i|] eqn:Ei; eexists; (split; [done|]).
    + left. apply find_index_Some in Ei as (k & -> & Hk). exists k. split; [lia|].
      by rewrite list_lookup_fmap, Hk.
    + intros [_ Hx]%compute_in. by eapply find_index_None.
  - destruct (Z.eqb_spec (peerId (key m)) p) as [<-|Hne].
    + destruct (find_index x (ids (part m))) as [i|] eqn:Ei; eexists; (split; [done|]).
      * apply find_index_Some in Ei as (k & -> & Hk). rewrite length_app, length_fmap, size_ids.
        destruct b; [right|left].
        { simpl. split_and!; [done|done|by eapply list_elem_of_lookup_2|lia]. }
        exists (length (ids g) + k)%nat. split; [lia|].
        rewrite lookup_app_r, length_fmap, Nat.add_sub' by (rewrite length_fmap; lia).
        by rewrite list_lookup_fmap, Hk.
      * intros [[? _]%compute_in|Hx]%elem_of_app; [done|].
        destruct b; [by apply not_elem_of_nil in Hx|]. apply compute_in in Hx as [_ Hx].
        by eapply find_index_None.
    + destruct (Z.eqb_spec (migratedPeerId (key m)) p) as [<-|Hne'].
      * eexists. split; [done|]. destruct (find_index x (ids g)) as [i|] eqn:Ei.
        { left. apply find_index_Some in Ei as (k & -> & Hk). exists k. split; [done|].
          apply lookup_app_l_Some. by rewrite list_lookup_fmap, Hk. }
        intros [[_ Hx]%compute_in|Hx]%elem_of_app; [by eapply find_index_None|].
        destruct b; [by apply not_elem_of_nil in Hx|]. by apply compute_in in Hx as [? _].
      * exists None. split; [done|]. intros [[? _]%compute_in|Hx]%elem_of_app; [done|]. destruct b; [by apply not_elem_of_nil in Hx|].
        by apply compute_in in Hx as [? _].
Qed.

Lemma m_nearest_shown (m : merged) :
  around_message m -> exists r, m_nearest m (universalId (key m)) = Some r
    /\ forall f, r = Some f -> f ∈ shown m.
Proof.
  intros Hm. unfold m_nearest, shown. rewrite (proj1 Hm).
  assert (forall x, nearest (part m) x = None \/ exists r, nearest (part m) x = Some r
    /\ ComputeId (peerId (key m)) r ∈ ComputeId (peerId (key m)) <$> ids (part m)) as Hpart.
  { intros x. destruct (nearest (part m) x) eqn:E; [right|by left]. eexists. split; [done|].
    apply list_elem_of_fmap. eexists. split; [done|]. by eapply nearest_elem. }
  assert (forall g x, nearest g x = None \/ exists r, nearest g x = Some r
    /\ ComputeId (migratedPeerId (key m)) r ∈ ComputeId (migratedPeerId (key m)) <$> ids g) as Hmig.
  { intros g x. destruct (nearest g x) eqn:E; [right|by left]. eexists. split; [done|].
    apply list_elem_of_fmap. eexists. split; [done|]. by eapply nearest_elem. }
  destruct (IsServerMsgId (universalId (key m))) eqn:Eu.
  - assert (isolatedInMigrated m = Some false) as Hmf.
    { unfold isolatedInMigrated. destruct (IsServerMsgId (ServerMaxMsgId + _)) eqn:Eu2; [|done].
      apply server_range in Eu, Eu2. lia. }
    rewrite Hmf. simpl. destruct (Hpart (universalId (key m))) as [->|(r & -> & Hr)].
    + destruct (around_cases m Hm) as [[-> _]|(-> & g & b & -> & _)]; [by eexists|].
      destruct (Hmig g (ServerMaxMsgId - 1)) as [->|(r & -> & Hr)]; simpl; [by eexists|].
      eexists. split; [done|]. intros f [= <-]. apply elem_of_app. by left.
    + eexists. split; [done|]. intros f [= <-]. apply elem_of_app. by right.
  - assert (isolatedInPart m = false) as -> by (unfold isolatedInPart; by rewrite Eu).
    destruct (around_cases m Hm) as [[? _]|(_ & g & i & Hg & Hi)].
    { destruct Hm as [_ [?|[_ [g Hg]]]]; [congruence|]. unfold isolatedInPart in *. by rewrite Eu in *. }
    rewrite Hi, Hg. simpl.
    destruct (Hmig g (universalId (key m) + ServerMaxMsgId)) as [->|(r & -> & Hr)].
    + destruct i; [by eexists|]. simpl.
      destruct (Hpart 0) as [->|(r & -> & Hr)]; simpl; [by eexists|].
      eexists. split; [done|]. intros f [= <-]. apply elem_of_app. by right.
    + eexists. split; [done|]. intros f [= <-]. apply elem_of_app. by left.
Qed.

(** The three numbers of one slice agree. *)
Definition counted (s : sparse_ids) : Prop :=
  forall b a c, skippedBefore s = Some b -> skippedAfter s = Some a -> fullCount s = Some c ->
    b + size s + a = c.

Lemma m_counted (m : merged) (b a c n : Z) :
  around_message m -> counted (part m) -> (forall g, migrated m = Some g -> counted g) ->
  m_skippedBefore m = Some (Some b) -> m_skippedAfter m = Some (Some a) ->
  m_fullCount m = Some c -> m_size m = Some n -> b + n + a = c.
Proof.
  intros Hm Hp Hg. unfold m_skippedBefore, m_skippedAfter, m_fullCount, m_size, migratedSize.
  rewrite (proj1 Hm).
  destruct (around_cases m Hm) as [[E1 E2]|(E1 & g & i & Eg & E2)]; rewrite E1, E2; simpl.
  - unfold Add. intros Hb Ha Hc Hn. unfold counted in Hp.
    destruct (skippedBefore (part m)) as [pb|], (skippedAfter (part m)) as [pa|],
      (fullCount (part m)) as [pc|]; simplify_eq/=.
    specialize (Hp pb pa pc eq_refl eq_refl eq_refl).
    destruct (migrated m) as [g|]; [|simplify_eq; lia].
    destruct (fullCount g); simplify_eq; lia.
  - rewrite Eg. specialize (Hg g Eg). unfold Add, counted in *. intros Hb Ha Hc Hn.
    destruct i; destruct (skippedBefore (part m)) as [pb|], (skippedAfter (part m)) as [pa|],
      (fullCount (part m)) as [pc|], (skippedBefore g) as [gb|], (skippedAfter g) as [ga|],
      (fullCount g) as [gc|]; simplify_eq/=;
      try specialize (Hp _ _ _ eq_refl eq_refl eq_refl);
      try specialize (Hg _ _ _ eq_refl eq_refl eq_refl); lia.
Qed.

End Merged_facts.

(** ** The builder *)

Lemma app_cons_unique {A} (P P' Q Q' : list A) (x : A) :
  NoDup (P ++ x :: Q) -> P ++ x :: Q = P' ++ x :: Q' -> P = P' /\ Q = Q'.
Proof.
  revert P'. induction P as [|y P IH]; intros [|y' P'] Hnd E; simpl in *.
  - by injection E as ->.
  - exfalso. injection E as -> ->. apply NoDup_cons in Hnd as [Hx _].
    apply Hx, elem_of_app. right. by left.
  - exfalso. injection E as -> E. apply NoDup_cons in Hnd as [Hx _].
    apply Hx, elem_of_app. right. by left.
  - injection E as -> E. apply NoDup_cons in Hnd as [_ Hnd].
    by destruct (IH P' Hnd E) as [-> ->].
Qed.

Lemma flat_merge_nil (l : list Z) : StronglySorted Z.lt l -> flat_merge [] l = l.
Proof.
  intros Hl. apply StronglySorted_lt_unique; [apply sorted_elements_sorted|done|].
  intros x. unfold flat_merge. rewrite elem_of_sorted_elements. rewrite elem_of_union, !elem_of_list_to_set, elem_of_nil. tauto.
Qed.

Lemma filter_ne_all (l : list Z) (x : Z) : x ∉ l -> filter (fun y => y <> x) l = l.
Proof.
  intros Hx. induction l as [|y l IH]; [done|]. rewrite filter_cons, decide_True, IH; set_solver.
Qed.

Lemma filter_ne_length (l : list Z) (x : Z) :
  NoDup l -> x ∈ l -> length l = S (length (filter (fun y => y <> x) l)).
Proof.
  intros Hnd (l1 & l2 & ->)%list_elem_of_split.
  apply NoDup_app in Hnd as (_ & H1 & [H2 _]%NoDup_cons).
  rewrite filter_app, filter_cons, decide_False by tauto.
  rewrite !filter_ne_all; [rewrite !length_app; simpl; lia|done|].
  intros Hx. apply (H1 x Hx). by left.
Qed.

Lemma sorted_elements_remove (T : gset Z) (x : Z) :
  sorted_elements (T ∖ {[x]}) = filter (fun y => y <> x) (sorted_elements T).
Proof.
  apply StronglySorted_lt_unique; [apply sorted_elements_sorted| |].
  - pose proof (sorted_elements_sorted T) as Hs. induction Hs as [|y l Hs IH Hall]; [constructor|].
    rewrite filter_cons. case_decide; [|done]. constructor; [done|].
    rewrite Forall_forall in *. intros z [_ Hz]%list_elem_of_filter. by apply Hall.
  - intros y. rewrite elem_of_sorted_elements, list_elem_of_filter, elem_of_sorted_elements. rewrite elem_of_difference, elem_of_singleton. tauto.
Qed.

Module Builder_facts.
Import Builder.

(** [n] of [skipped] is the number [len]. *)
Definition exact (skipped : option Z) (len : nat) : Prop :=
  forall n, skipped = Some n -> n = Z.of_nat len.

(** The builder is right about a list [T]: its ids are a segment of the
    sorted list, and the numbers it knows are the real ones. *)
Record accurate (T : gset Z) (b : builder) : Prop := {
  b_split : exists A B, sorted_elements T = A ++ b_ids b ++ B
    /\ exact (b_skippedBefore b) (length A) /\ exact (b_skippedAfter b) (length B);
  b_count : exact (b_fullCount b) (base.size T);
}.

Lemma exact_some (n : Z) (len : nat) : exact (Some n) len <-> n = Z.of_nat len.
Proof. unfold exact. split; [auto|]. by intros -> n' [= <-]. Qed.

Lemma limitBegin_accurate (T : gset Z) (b : builder) (r : Z) :
  accurate T b -> r <= Z.of_nat (length (b_ids b)) -> accurate T (limitBegin r b).1.
Proof.
  intros [(A & B & Hs & Hb & Ha) Hc] Hr. unfold limitBegin.
  destruct (Z.ltb_spec 0 r); simpl; [|destruct (_ && _); by (split; [exists A, B|])].
  split; simpl; [|done]. exists (A ++ take (Z.to_nat r) (b_ids b)), B. split_and!; [|idtac|done].
  - rewrite Hs, <- (take_drop (Z.to_nat r) (b_ids b)) at 1. by rewrite <- !app_assoc.
  - intros n. destruct (b_skippedBefore b) as [m|]; [|done]. intros [= <-].
    rewrite (Hb m eq_refl), length_app, length_take. lia.
Qed.

Lemma limitEnd_accurate (T : gset Z) (b : builder) (r : Z) :
  accurate T b -> r <= Z.of_nat (length (b_ids b)) -> accurate T (limitEnd r b).1.
Proof.
  intros [(A & B & Hs & Hb & Ha) Hc] Hr. unfold limitEnd.
  destruct (Z.ltb_spec 0 r); simpl; [|destruct (_ && _); by (split; [exists A, B|])].
  set (k := (length (b_ids b) - Z.to_nat r)%nat).
  split; simpl; [|done]. exists A, (drop k (b_ids b) ++ B). split_and!; [|done|idtac].
  - rewrite Hs, <- (take_drop k (b_ids b)) at 1. by rewrite <- !app_assoc.
  - intros n. destruct (b_skippedAfter b) as [m|]; [|done]. intros [= <-].
    rewrite (Ha m eq_refl), length_app, length_drop. subst k. lia.
Qed.

Lemma limitBegin_ids (b : builder) (r : Z) :
  b_ids (limitBegin r b).1 = drop (Z.to_nat r) (b_ids b).
Proof.
  unfold limitBegin. destruct (Z.ltb_spec 0 r); simpl; [done|].
  replace (Z.to_nat r) with 0%nat by lia. by destruct (_ && _).
Qed.

Lemma limitEnd_ids (b : builder) (r : Z) :
  b_ids (limitEnd r b).1 = take (length (b_ids b) - Z.to_nat r) (b_ids b).
Proof.
  unfold limitEnd. destruct (Z.ltb_spec 0 r); simpl; [done|].
  replace (length (b_ids b) - Z.to_nat r)%nat with (length (b_ids b)) by lia.
  rewrite take_ge by done. by destruct (_ && _).
Qed.

Lemma sliceToLimits_accurate (T : gset Z) (b : builder) :
  0 <= limitBefore b -> 0 <= limitAfter b -> accurate T b -> accurate T (sliceToLimits b).
Proof.
  intros Hlb Hla Hacc. unfold sliceToLimits. destruct (key b =? 0).
  { destruct Hacc as [(A & B & H) Hc]. destruct (b_fullCount b) eqn:E; (split; [by exists A, B|]); simpl;
      by rewrite E. }
  pose proof (partition_point_le (fun x => x <? key b) (b_ids b)) as Hle.
  fold (lower_bound (key b) (b_ids b)) in Hle. set (p := lower_bound (key b) (b_ids b)) in *.
  set (r1 := Z.of_nat p - limitBefore b). set (r2 := _ - limitAfter b - 1).
  pose proof (limitBegin_accurate T b r1 Hacc ltac:(lia)) as H1.
  pose proof (limitBegin_ids b r1) as E1.
  destruct (limitBegin r1 b) as [b1 q1]. cbn [fst] in *.
  assert (r2 <= Z.of_nat (length (b_ids b1))) as Hr2 by (rewrite E1, length_drop; lia).
  pose proof (limitEnd_accurate T b1 r2 H1 Hr2) as H2.
  destruct (limitEnd r2 b1) as [b2 q2]. cbn [fst] in *.
  destruct (b_fullCount b2) eqn:E; [done|]. destruct (negb _); [|done].
  destruct H2 as [(A & B & H) Hc]. split; [by exists A, B|done].
Qed.

Lemma sliceToLimits_frame (b : builder) :
  key (sliceToLimits b) = key b /\ limitBefore (sliceToLimits b) = limitBefore b
  /\ limitAfter (sliceToLimits b) = limitAfter b.
Proof.
  unfold sliceToLimits, limitBegin, limitEnd. destruct (key b =? 0); [by destruct (b_fullCount b)|].
  repeat (case_match; simplify_eq/=; try done).
Qed.

Lemma fill_accurate (T : gset Z) (b : builder) :
  0 <= limitBefore b -> 0 <= limitAfter b -> accurate T b ->
  accurate T (fillSkippedAndSliceToLimits b).
Proof.
  intros Hlb Hla Hacc. unfold fillSkippedAndSliceToLimits.
  pose proof Hacc as [(A & B & Hs & Hb & Ha) Hc].
  assert (base.size T = (length A + length (b_ids b) + length B)%nat) as Hsz
    by (rewrite <- sorted_elements_length, Hs, !length_app; lia).
  destruct (b_fullCount b) as [c|] eqn:E1, (b_skippedBefore b) as [sb|] eqn:E2,
    (b_skippedAfter b) as [sa|] eqn:E3; apply sliceToLimits_accurate; try done.
  - split; simpl; [|done]. exists A, B. split_and!; [done|done|].
    apply exact_some. specialize (Hc c eq_refl). specialize (Hb sb eq_refl). lia.
  - split; simpl; [|done]. exists A, B. split_and!; [done| |done].
    apply exact_some. specialize (Hc c eq_refl). specialize (Ha sa eq_refl). lia.
Qed.

Lemma adjustSkippedBefore_exact (A M B P Q : list Z) (x : Z) :
  NoDup (A ++ M ++ B) -> x ∈ M -> A ++ M ++ B = P ++ x :: Q ->
  adjustSkippedBefore M x (Z.of_nat (length P)) = Some (Z.of_nat (length A)).
Proof.
  intros Hnd (M1 & M2 & ->)%list_elem_of_split E.
  assert (A ++ (M1 ++ x :: M2) ++ B = (A ++ M1) ++ x :: (M2 ++ B)) as E'
    by (by rewrite <- !app_assoc).
  rewrite E' in *. destruct (app_cons_unique _ _ _ _ _ Hnd E) as [<- _].
  unfold adjustSkippedBefore. rewrite find_index_app.
  - f_equal. rewrite length_app. lia.
  - apply NoDup_app in Hnd as (_ & Hd & _). intros Hx. apply (Hd x); [apply elem_of_app; by right|by left].
Qed.

Lemma adjustSkippedAfter_exact (A M B P Q : list Z) (x : Z) :
  NoDup (A ++ M ++ B) -> x ∈ M -> A ++ M ++ B = P ++ x :: Q ->
  adjustSkippedAfter M x (Z.of_nat (length Q)) = Some (Z.of_nat (length B)).
Proof.
  intros Hnd (M1 & M2 & ->)%list_elem_of_split E.
  assert (A ++ (M1 ++ x :: M2) ++ B = (A ++ M1) ++ x :: (M2 ++ B)) as E'
    by (by rewrite <- !app_assoc).
  rewrite E' in *. destruct (app_cons_unique _ _ _ _ _ Hnd E) as [_ <-].
  unfold adjustSkippedAfter. rewrite find_index_app.
  - f_equal. rewrite !length_app. simpl. lia.
  - apply NoDup_app in Hnd as (_ & Hd & _). intros Hx. apply (Hd x); [apply elem_of_app; by right|by left].
Qed.

Lemma head_last_split (l : list Z) (x y : Z) :
  head l = Some x -> last l = Some y -> exists l', l = x :: l' /\ exists l'', l = l'' ++ [y].
Proof.
  destruct l as [|z l']; [done|]. intros [= ->] Hl. exists l'. split; [done|].
  by apply last_Some in Hl.
Qed.

(** The choice between the new number and the old one is exact when the one
    used is. [len] is the number of ids outside the merged ones. *)
Lemma adjust_exact (adj : list Z -> Z -> Z -> option Z) (M : list Z) (newEdge wasEdge : Z)
    (new was : option Z) (len : nat) :
  (forall n, new = Some n -> adj M newEdge n = Some (Z.of_nat len)) ->
  (forall n, new = None -> was = Some n -> 0 <= wasEdge -> adj M wasEdge n = Some (Z.of_nat len)) ->
  exists r, adjust adj M newEdge new wasEdge was = Some r /\ exact r len.
Proof.
  intros Hn Hw. unfold adjust. destruct new as [n|].
  - rewrite (Hn n eq_refl). simpl. eexists. split; [done|]. by apply exact_some.
  - destruct was as [n|]; [|by eexists]. destruct (Z.leb_spec 0 wasEdge); [|by eexists].
    rewrite (Hw n eq_refl eq_refl) by done. simpl. eexists. split; [done|]. by apply exact_some.
Qed.

(** What is needed of the data merged: the old ids and the new ones together
    are a segment of [T], and the numbers taken from the new data are counted
    from its edges. [A] and [B] are around the old ids, and the number known
    after them matters only when it is the one used. *)
Record mergeable (T : gset Z) (b : builder) (cnt : option Z) (ms : list Z) (nb na : option Z) : Prop := {
  mg_old : exists A B, sorted_elements T = A ++ b_ids b ++ B
    /\ exact (b_skippedBefore b) (length A)
    /\ (ms = [] \/ na = None -> exact (b_skippedAfter b) (length B));
  mg_segment : ms <> [] -> exists A B, sorted_elements T = A ++ flat_merge (b_ids b) ms ++ B;
  mg_before : forall n x, nb = Some n -> head ms = Some x ->
    exists P Q, sorted_elements T = P ++ x :: Q /\ n = Z.of_nat (length P);
  mg_after : forall n x, na = Some n -> last ms = Some x ->
    exists P Q, sorted_elements T = P ++ x :: Q /\ n = Z.of_nat (length Q);
  mg_count : exact cnt (base.size T);
  mg_full : cnt = None -> exact (b_fullCount b) (base.size T);
}.

Lemma merge_empty_accurate (T : gset Z) (b : builder) (cnt nb na : option Z) :
  0 <= limitBefore b -> 0 <= limitAfter b -> mergeable T b cnt [] nb na ->
  exists b', mergeSliceData cnt [] nb na b = Some b' /\ accurate T b'.
Proof.
  intros Hlb Hla [(A & B & Hs & Hb & Ha) _ _ _ Hc Hf]. unfold mergeSliceData. simpl.
  eexists. split; [done|]. specialize (Ha (or_introl eq_refl)).
  assert (base.size T = (length A + length (b_ids b) + length B)%nat) as Hsz
    by (rewrite <- sorted_elements_length, Hs, !length_app; lia).
  destruct cnt as [c|]; [|apply fill_accurate; try done; split; [by exists A, B|by apply Hf]].
  specialize (Hc c eq_refl). case_bool_decide as E.
  - apply fill_accurate; try done. split; [by exists A, B|]. rewrite E. by apply exact_some.
  - destruct (Z.leb_spec c (Z.of_nat (length (b_ids b)))) as [Hle|Hgt]; apply fill_accurate; try done.
    + assert (length A = 0%nat) as EA by lia. assert (length B = 0%nat) as EB by lia.
      split; simpl; [|apply exact_some; lia]. exists A, B.
      split_and!; [done|apply exact_some; lia|apply exact_some; lia].
    + split; simpl; [by exists A, B|by apply exact_some].
Qed.

Lemma in_flat_merge (l ms : list Z) (x : Z) : x ∈ flat_merge l ms <-> x ∈ l \/ x ∈ ms.
Proof. unfold flat_merge. rewrite elem_of_sorted_elements. set_solver. Qed.

Lemma head_elem (l : list Z) (x : Z) : head l = Some x -> x ∈ l.
Proof. destruct l; [done|]. intros [= ->]. by left. Qed.

Lemma last_elem (l : list Z) (x : Z) : last l = Some x -> x ∈ l.
Proof. intros (l' & ->)%last_Some. apply elem_of_app. right. by left. Qed.

(** Where the edges of the old ids are in the whole list. *)
Lemma old_edges (L A B l : list Z) (x : Z) :
  L = A ++ l ++ B ->
  (head l = Some x -> exists Q, L = A ++ x :: Q)
  /\ (last l = Some x -> exists P, L = P ++ x :: B).
Proof.
  intros ->. split.
  - destruct l as [|y l]; [done|]. intros [= ->]. by exists (l ++ B).
  - intros (l' & ->)%last_Some. exists (A ++ l'). by rewrite <- !app_assoc.
Qed.

Lemma merge_accurate (T : gset Z) (b : builder) (cnt : option Z) (ms : list Z) (nb na : option Z) :
  0 <= limitBefore b -> 0 <= limitAfter b -> mergeable T b cnt ms nb na ->
  exists b', mergeSliceData cnt ms nb na b = Some b' /\ accurate T b'.
Proof.
  intros Hlb Hla Hm. destruct (decide (ms = [])) as [->|Hne]; [by apply merge_empty_accurate|].
  destruct Hm as [(A0 & B0 & Hs0 & Hb0 & Ha0) Hseg Hbf Haf Hc Hf].
  destruct (Hseg Hne) as (A & B & Hs).
  unfold mergeSliceData. destruct (head ms) as [front|] eqn:Eh; [|by destruct ms].
  destruct (last ms) as [back|] eqn:El; [|by apply last_None in El].
  set (b1 := match cnt with Some _ => _ | None => b end).
  assert (b_ids b1 = b_ids b /\ b_skippedBefore b1 = b_skippedBefore b
    /\ b_skippedAfter b1 = b_skippedAfter b /\ limitBefore b1 = limitBefore b
    /\ limitAfter b1 = limitAfter b /\ exact (b_fullCount b1) (base.size T))
    as (E1 & E2 & E3 & E4 & E5 & Hc1) by (subst b1; destruct cnt; split_and!; done || auto).
  rewrite E1, E2, E3. set (M := flat_merge (b_ids b) ms) in *.
  pose proof (lt_NoDup _ (sorted_elements_sorted T)) as Hnd.
  assert (forall x P Q, x ∈ M -> sorted_elements T = P ++ x :: Q ->
    adjustSkippedBefore M x (Z.of_nat (length P)) = Some (Z.of_nat (length A))
    /\ adjustSkippedAfter M x (Z.of_nat (length Q)) = Some (Z.of_nat (length B))) as Hadj.
  { intros x P Q Hx E. rewrite Hs in E, Hnd.
    split; [eapply adjustSkippedBefore_exact|eapply adjustSkippedAfter_exact]; done. }
  destruct (adjust_exact adjustSkippedBefore M front (default (-1) (head (b_ids b))) nb
    (b_skippedBefore b) (length A)) as (sb & -> & Hsb).
  { intros n ->. destruct (Hbf n front eq_refl eq_refl) as (P & Q & E & ->).
    eapply Hadj; [|done]. apply in_flat_merge. right. by apply head_elem. }
  { intros n _ En Hge. rewrite (Hb0 n En). destruct (head (b_ids b)) as [x|] eqn:Ex; [|simpl in Hge; lia].
    destruct (old_edges _ A0 B0 (b_ids b) x Hs0) as [H _]. destruct (H Ex) as [Q E].
    eapply Hadj; [|done]. apply in_flat_merge. left. by apply head_elem. }
  destruct (adjust_exact adjustSkippedAfter M back (default (-1) (last (b_ids b))) na
    (b_skippedAfter b) (length B)) as (sa & -> & Hsa).
  { intros n ->. destruct (Haf n back eq_refl eq_refl) as (P & Q & E & ->).
    eapply Hadj; [|done]. apply in_flat_merge. right. by apply last_elem. }
  { intros n Hna En Hge. rewrite (Ha0 (or_intror Hna) n En).
    destruct (last (b_ids b)) as [x|] eqn:Ex; [|simpl in Hge; lia].
    destruct (old_edges _ A0 B0 (b_ids b) x Hs0) as [_ H]. destruct (H Ex) as [P E].
    eapply Hadj; [|done]. apply in_flat_merge. left. by apply last_elem. }
  eexists. split; [done|]. apply fill_accurate; simpl; [lia|lia|]. split; simpl; [by exists A, B|done].
Qed.

(** *** Updates of the list *)

(** The old ids and the ids of a range that meets them are the ids of [T]
    between the outer edges. *)
Lemma segment_union (T : gset Z) (l ms : list Z) (A B : list Z) (r : MsgRange) (k : Z) :
  sorted_elements T = A ++ l ++ B ->
  (forall x, x ∈ ms <-> x ∈ T /\ in_range r x) ->
  from r <= till r ->
  intersects r (mk_range (default k (head l)) (default k (last l))) = true ->
  exists A' B', sorted_elements T = A' ++ flat_merge l ms ++ B'.
Proof.
  intros Hs Hms Hr Hi. unfold intersects, in_range in *. simpl in Hi. bool_to_prop.
  assert (exists lo hi, lo <= hi /\ forall x, (x ∈ l \/ x ∈ ms) <-> x ∈ T /\ lo <= x <= hi)
    as (lo & hi & Hlh & Hx).
  { destruct l as [|f l0] eqn:El.
    { exists (from r), (till r). split; [done|]. intros x. rewrite Hms. rewrite elem_of_nil. unfold in_range. tauto. }
    destruct (last (f :: l0)) as [e|] eqn:Ee; [|by apply last_None in Ee]. simpl in *.
    assert (forall x, x ∈ f :: l0 <-> x ∈ T /\ f <= x <= e) as Hl.
    { pose proof (sorted_elements_sorted T) as Hst. rewrite Hs in Hst.
      apply StronglySorted_app_iff in Hst as (_ & Hst & HA).
      change (f :: l0 ++ B) with ((f :: l0) ++ B) in *.
      apply StronglySorted_app_iff in Hst as (Hst & _ & HB).
      intros x. rewrite <- (elem_of_sorted_elements T), Hs, !elem_of_app. split.
      - intros Hin. split; [by right; left|]. split.
        + inversion Hst as [|? ? _ Hall]; subst. rewrite Forall_forall in Hall.
          apply elem_of_cons in Hin as [->|Hin]; [lia|]. specialize (Hall x Hin). lia.
        + apply last_Some in Ee as [l1 E1]. rewrite E1 in Hin, Hst.
          apply StronglySorted_app_iff in Hst as (_ & _ & H1).
          apply elem_of_app in Hin as [Hin|Hin%list_elem_of_singleton]; [|lia].
          specialize (H1 x e Hin ltac:(by left)). lia.
      - intros [[Hin|[Hin|Hin]] Hb]; [|done|].
        + exfalso. specialize (HA x f Hin ltac:(apply elem_of_app; left; by left)). lia.
        + exfalso. specialize (HB e x (last_elem _ _ Ee) Hin). lia. }
    exists (Z.min f (from r)), (Z.max e (till r)). split; [lia|]. intros x. rewrite Hl, Hms.
    destruct (decide (x < f)), (decide (e < x)); intuition lia. }
  destruct (sorted_interval T (list_to_set l ∪ list_to_set ms) lo hi Hlh) as (A' & B' & E & _).
  { intros x. rewrite <- Hx. by rewrite elem_of_union, !elem_of_list_to_set. }
  by exists A', B'.
Qed.

Lemma head_min (l : list Z) (x y : Z) : StronglySorted Z.lt l -> head l = Some x -> y ∈ l -> x <= y.
Proof.
  intros Hs Hh. destruct l as [|z l]; [done|]. injection Hh as ->. inversion Hs as [|? ? _ Hall]; subst.
  rewrite Forall_forall in Hall. intros [->|Hy]%elem_of_cons; [lia|]. specialize (Hall y Hy). lia.
Qed.

Lemma last_max (l : list Z) (x y : Z) : StronglySorted Z.lt l -> last l = Some x -> y ∈ l -> y <= x.
Proof.
  intros Hs (l' & ->)%last_Some. apply StronglySorted_app_iff in Hs as (_ & _ & H).
  intros [Hy| ->%list_elem_of_singleton]%elem_of_app; [|lia]. specialize (H y x Hy ltac:(by left)). lia.
Qed.

(** An update that tells the truth about [T], whose ids are in [1, ServerMaxMsgId). *)
Definition truthful (T : gset Z) (u : SliceUpdate) : Prop :=
  (forall ms, u_messages u = Some ms -> from (u_range u) <= till (u_range u)
     /\ forall x, x ∈ ms <-> x ∈ T /\ in_range (u_range u) x)
  /\ exact (u_count u) (base.size T).

Lemma update_mergeable (T : gset Z) (b : builder) (u : SliceUpdate) (A B : list Z) :
  (forall x, x ∈ T -> IsServerMsgId x = true) -> truthful T u ->
  sorted_elements T = A ++ b_ids b ++ B -> exact (b_skippedBefore b) (length A) ->
  (exact (b_skippedAfter b) (length B)
   \/ (needMergeMessages u b = true /\ till (u_range u) = ServerMaxMsgId
       /\ u_messages u <> Some ∅)) ->
  (u_count u = None -> exact (b_fullCount b) (base.size T)) ->
  mergeable T b (u_count u)
    (if needMergeMessages u b then sorted_elements (default ∅ (u_messages u)) else [])
    (if from (u_range u) =? 0 then Some 0 else None)
    (if till (u_range u) =? ServerMaxMsgId then Some 0 else None).
Proof.
  intros HT [Htm Htc] Hs Hb Ha Hf. unfold needMergeMessages in *.
  destruct (u_messages u) as [ms|] eqn:Em; simpl in *.
  2:{ destruct Ha as [Ha|[? _]]; [|done].
      constructor; [exists A, B; split_and!; [done|done|by intros _]|done|done|done|done|done]. }
  destruct (Htm ms eq_refl) as [Hr Hms]. clear Htm.
  destruct (intersects _ _) eqn:Hi; simpl in *.
  2:{ destruct Ha as [Ha|[? _]]; [|done].
      constructor; [exists A, B; split_and!; [done|done|by intros _]|done|done|done|done|done]. }
  pose proof (sorted_elements_sorted T) as Hst.
  constructor; [| | | |done|done].
  - exists A, B. split_and!; [done|done|]. destruct Ha as [Ha|(_ & Et & Hne)]; [by intros _|].
    rewrite Et, Z.eqb_refl. intros [E|?]; [|done]. exfalso. apply Hne. f_equal.
    apply set_eq. intros x. rewrite <- elem_of_sorted_elements, E. split; [by intros ?%not_elem_of_nil|by intros ?%elem_of_empty].
  - intros _. eapply segment_union; [done| |done|done]. intros x. by rewrite elem_of_sorted_elements.
  - intros n x En Ex. destruct (Z.eqb_spec (from (u_range u)) 0) as [E0|]; [|done]. injection En as <-.
    assert (x ∈ sorted_elements T) as Hx.
    { apply elem_of_sorted_elements. apply head_elem in Ex. apply elem_of_sorted_elements, Hms in Ex. tauto. }
    apply list_elem_of_split in Hx as (P & Q & E). exists P, Q. split; [done|].
    destruct P as [|y P]; [done|]. exfalso. rewrite E in Hst.
    inversion Hst as [|? ? _ Hall]; subst. rewrite Forall_forall in Hall.
    assert (y < x) by (apply Hall, elem_of_app; right; by left).
    assert (y ∈ ms) as Hy.
    { apply Hms. assert (y ∈ T) as HyT by (apply elem_of_sorted_elements; rewrite E; by left).
      split; [done|]. pose proof (server_range y (HT y HyT)).
      apply head_elem, elem_of_sorted_elements, Hms in Ex. unfold in_range in *. lia. }
    pose proof (head_min _ x y (sorted_elements_sorted ms) Ex ltac:(by apply elem_of_sorted_elements)). lia.
  - intros n x En Ex. destruct (Z.eqb_spec (till (u_range u)) ServerMaxMsgId) as [E0|]; [|done]. injection En as <-.
    assert (x ∈ sorted_elements T) as Hx.
    { apply elem_of_sorted_elements. apply last_elem in Ex. apply elem_of_sorted_elements, Hms in Ex. tauto. }
    apply list_elem_of_split in Hx as (P & Q & E). exists P, Q. split; [done|].
    destruct Q as [|y Q]; [done|]. exfalso. rewrite E in Hst.
    apply StronglySorted_app_iff in Hst as (_ & Hst & _).
    inversion Hst as [|? ? _ Hall]; subst. rewrite Forall_forall in Hall.
    assert (x < y) by (apply Hall; by left).
    assert (y ∈ ms) as Hy.
    { apply Hms. assert (y ∈ T) as HyT
        by (apply elem_of_sorted_elements; rewrite E; apply elem_of_app; right; right; by left).
      split; [done|]. pose proof (server_range y (HT y HyT)).
      apply last_elem, elem_of_sorted_elements, Hms in Ex. unfold in_range in *. lia. }
    pose proof (last_max _ x y (sorted_elements_sorted ms) Ex ltac:(by apply elem_of_sorted_elements)). lia.
Qed.

Lemma applyUpdate_accurate (T : gset Z) (b : builder) (u : SliceUpdate) (A B : list Z) :
  0 <= limitBefore b -> 0 <= limitAfter b ->
  (forall x, x ∈ T -> IsServerMsgId x = true) -> truthful T u ->
  sorted_elements T = A ++ b_ids b ++ B -> exact (b_skippedBefore b) (length A) ->
  (exact (b_skippedAfter b) (length B)
   \/ (needMergeMessages u b = true /\ till (u_range u) = ServerMaxMsgId
       /\ u_messages u <> Some ∅)) ->
  (u_count u = None -> exact (b_fullCount b) (base.size T)) ->
  exists c b', applyUpdate u b = Some (c, b') /\ accurate T b'.
Proof.
  intros Hlb Hla HT Hu Hs Hb Ha Hf.
  pose proof (update_mergeable T b u A B HT Hu Hs Hb Ha Hf) as Hm. unfold applyUpdate.
  destruct (negb (needMergeMessages u b) && bool_decide (u_count u = None)) eqn:E.
  - bool_to_prop. exists false, b. split; [done|]. destruct Ha as [Ha|[? _]]; [|congruence].
    split; [by exists A, B|]. apply Hf. by apply bool_decide_eq_true in H0.
  - destruct (merge_accurate _ _ _ _ _ _ Hlb Hla Hm) as (b' & -> & Hacc). eauto.
Qed.

(** *** Removals *)

Lemma dec_positive_exact (n : option Z) (len : nat) :
  exact n (S len) -> exact (dec_positive n).1 len
  /\ (n <> None -> (dec_positive n).2 = true) /\ (n = None -> (dec_positive n).2 = false).
Proof.
  intros Hn. destruct n as [c|]; [|done]. apply exact_some in Hn as ->. unfold dec_positive.
  replace (0 <? Z.of_nat (S len)) with true by (symmetry; apply Z.ltb_lt; lia).
  split_and!; [apply exact_some; lia|done|done].
Qed.

Lemma filter_sides (A l B : list Z) (x : Z) :
  NoDup (A ++ l ++ B) -> x ∈ A ++ l ++ B ->
  let f := filter (fun y => y <> x) in
  (x ∈ l /\ f A = A /\ f B = B)
  \/ (x ∈ A /\ f l = l /\ f B = B /\ length A = S (length (f A)))
  \/ (x ∈ B /\ f A = A /\ f l = l /\ length B = S (length (f B))).
Proof.
  intros (HA & Hd1 & (Hl & Hd2 & HB)%NoDup_app)%NoDup_app Hx f.
  assert (forall k, x ∉ k -> f k = k) as Hf by (intros; by apply filter_ne_all).
  apply elem_of_app in Hx as [Hx|[Hx|Hx]%elem_of_app].
  - right; left. specialize (Hd1 x Hx). rewrite not_elem_of_app in Hd1. destruct Hd1.
    split_and!; [done|by apply Hf|by apply Hf|by apply filter_ne_length].
  - left. split_and!; [done| |]; apply Hf; [|by apply Hd2].
    intros Hxa. apply (Hd1 x Hxa), elem_of_app. by left.
  - right; right. split_and!; [done| | |by apply filter_ne_length]; apply Hf; intros Hxa.
    + apply (Hd1 x Hxa), elem_of_app. by right.
    + by apply (Hd2 x Hxa).
Qed.

Lemma builder_removeOne_accurate (T : gset Z) (b : builder) (id : Z) :
  0 <= limitBefore b -> 0 <= limitAfter b -> accurate T b -> id ∈ T -> b_ids b <> [] ->
  accurate (T ∖ {[id]}) (removeOne id b).2.
Proof.
  intros Hlb Hla [(A & B & Hs & Hb & Ha) Hc] Hid Hne.
  assert (base.size T = S (base.size (T ∖ {[id]}))) as Hsz.
  { rewrite size_difference by set_solver. rewrite size_singleton.
    assert (base.size T <> 0%nat); [|lia]. rewrite size_non_empty_iff. set_solver. }
  pose proof (sorted_elements_remove T id) as Hs'. rewrite Hs, !filter_app in Hs'.
  pose proof (lt_NoDup _ (sorted_elements_sorted T)) as Hnd.
  pose proof (sorted_elements_sorted T) as Hst. rewrite Hs in Hnd, Hst.
  apply elem_of_sorted_elements in Hid. rewrite Hs in Hid.
  rewrite Hsz in Hc. destruct (dec_positive_exact _ _ Hc) as (Hc' & _).
  unfold removeOne. destruct (dec_positive (b_fullCount b)) as [c changed]. cbn [fst snd] in Hc'.
  cbn [b_ids b_fullCount b_skippedBefore b_skippedAfter set_data].
  apply StronglySorted_app_iff in Hst as (_ & Hst & HAl).
  apply StronglySorted_app_iff in Hst as (Hsl & _ & HlB).
  destruct (head (b_ids b)) as [front|] eqn:Eh; [|by destruct (b_ids b)].
  destruct (last (b_ids b)) as [back|] eqn:El; [|by apply last_None in El].
  pose proof (head_elem _ _ Eh) as Hfront. pose proof (last_elem _ _ El) as Hback.
  pose proof (head_min _ _ back Hsl Eh Hback) as Hfb.
  destruct (filter_sides A (b_ids b) B id Hnd Hid) as [(Hx & EA & EB)|[(Hx & El' & EB & Hlen)|(Hx & EA & El' & Hlen)]].
  - rewrite bool_decide_true by done. cbn [snd]. apply sliceToLimits_accurate; [done|done|].
    split; simpl; [|done]. exists A, B. rewrite EA, EB in Hs'. split_and!; done.
  - assert (id < front) as Hlt by (apply HAl; [done|]; apply elem_of_app; by left).
    rewrite bool_decide_false
      by (intros Hin; pose proof (head_min _ _ id Hsl Eh Hin); lia).
    replace (id <? front) with true by (symmetry; by apply Z.ltb_lt).
    replace (back <? id) with false by (symmetry; apply Z.ltb_ge; lia).
    rewrite Hlen in Hb. destruct (dec_positive_exact _ _ Hb) as (Hb' & H1 & H2).
    destruct (b_skippedBefore b) as [sb|] eqn:Esb.
    + specialize (H1 ltac:(done)). destruct (dec_positive (Some sb)) as [sb' q]. cbn [fst snd] in *. subst q.
      apply sliceToLimits_accurate; [done|done|]. split; simpl; [|done].
      exists (filter (fun y => y <> id) A), B. rewrite El', EB in Hs'. split_and!; done.
    + cbn [dec_positive]. assert (accurate (T ∖ {[id]}) (set_data (b_ids b) c None (b_skippedAfter b) b)) as Hacc.
      { split; simpl; [|done]. exists (filter (fun y => y <> id) A), B. rewrite El', EB in Hs'. by split_and!. }
      destruct changed; cbn [snd]; [by apply sliceToLimits_accurate|done].
  - assert (back < id) as Hlt by (by apply HlB).
    rewrite bool_decide_false
      by (intros Hin; pose proof (last_max _ _ id Hsl El Hin); lia).
    replace (id <? front) with false by (symmetry; apply Z.ltb_ge; lia).
    replace (back <? id) with true by (symmetry; by apply Z.ltb_lt).
    rewrite Hlen in Ha. destruct (dec_positive_exact _ _ Ha) as (Ha' & H1 & H2).
    cbn [fst snd]. destruct (b_skippedAfter b) as [sa|] eqn:Esa.
    + specialize (H1 ltac:(done)). destruct (dec_positive (Some sa)) as [sa' q]. cbn [fst snd] in *. subst q.
      apply sliceToLimits_accurate; [done|done|]. split; simpl; [|done].
      exists A, (filter (fun y => y <> id) B). rewrite EA, El' in Hs'. split_and!; done.
    + cbn [dec_positive]. assert (accurate (T ∖ {[id]}) (set_data (b_ids b) c (b_skippedBefore b) None b)) as Hacc.
      { split; simpl; [|done]. exists A, (filter (fun y => y <> id) B). rewrite EA, El' in Hs'. by split_and!. }
      destruct changed; cbn [snd]; [by apply sliceToLimits_accurate|done].
Qed.

Lemma builder_removeAll_accurate (b : builder) : accurate ∅ (removeAll b).2.
Proof. split; simpl; [exists [], []; split_and!|]; [reflexivity|by apply exact_some..]. Qed.

(** The ids up to the last of the builder are the same in both lists. *)
Lemma same_prefix (T T' : gset Z) (A l B : list Z) (back : Z) :
  sorted_elements T = A ++ l ++ B -> last l = Some back ->
  (forall x, x <= back -> x ∈ T' <-> x ∈ T) -> exists B', sorted_elements T' = A ++ l ++ B'.
Proof.
  intros Hs El Heq. exists (sorted_elements (filter (fun x => back < x) T')).
  pose proof (sorted_elements_sorted T) as Hst. rewrite Hs, app_assoc in Hst.
  apply StronglySorted_app_iff in Hst as (Hst & _ & HB).
  assert (forall x, x ∈ A ++ l -> x <= back) as Hle.
  { intros x. apply last_max; [done|]. by rewrite last_app, El. }
  rewrite app_assoc. apply StronglySorted_lt_unique; [apply sorted_elements_sorted| |].
  - apply StronglySorted_app_iff. split_and!; [done|apply sorted_elements_sorted|].
    intros x y Hx%Hle [Hy _]%elem_of_sorted_elements%elem_of_filter. lia.
  - intros x. rewrite elem_of_sorted_elements, elem_of_app, elem_of_sorted_elements, elem_of_filter.
    assert (x ∈ T <-> x ∈ A ++ l \/ x ∈ B) as HxT
      by (by rewrite <- elem_of_sorted_elements, Hs, app_assoc, elem_of_app).
    split.
    + intros Hx. destruct (decide (back < x)); [by right|]. left.
      apply Heq, HxT in Hx as [Hx|Hx]; [done| |lia]. exfalso.
      assert (back < x); [|lia]. apply (HB back x); [|done].
      apply elem_of_app. right. by apply last_elem.
    + intros [Hx|[_ ?]]; [|done]. apply Heq; [by apply Hle|]. apply HxT. by left.
Qed.

Lemma builder_invalidateBottom_accurate (T T' : gset Z) (b : builder) (back : Z) :
  0 <= limitBefore b -> 0 <= limitAfter b -> accurate T b -> last (b_ids b) = Some back ->
  (forall x, x <= back -> x ∈ T' <-> x ∈ T) -> accurate T' (invalidateBottom b).2.
Proof.
  intros Hlb Hla [(A & B & Hs & Hb & _) _] El Heq. unfold invalidateBottom, checkInsufficient.
  destruct (same_prefix T T' A (b_ids b) B back Hs El Heq) as (B' & Hs').
  apply sliceToLimits_accurate; [done|done|]. split; simpl; [|done]. by exists A, B'.
Qed.

(** *** The life of a builder *)

(** The ids of the builder are a contiguous part of a sorted list. *)
Definition part_of (l L : list Z) : Prop := exists A B, L = A ++ l ++ B.

Lemma part_of_refl (l : list Z) : part_of l l.
Proof. exists [], []. by rewrite app_nil_r. Qed.

Lemma part_of_nil (L : list Z) : part_of [] L.
Proof. by exists [], L. Qed.

Lemma part_of_trans (l m k : list Z) : part_of l m -> part_of m k -> part_of l k.
Proof.
  intros (A & B & ->) (A' & B' & ->). exists (A' ++ A), (B ++ B'). by rewrite <- !app_assoc.
Qed.

Lemma accurate_part (T : gset Z) (b : builder) : accurate T b -> part_of (b_ids b) (sorted_elements T).
Proof. intros [(A & B & Hs & _) _]. by exists A, B. Qed.

Lemma sliceToLimits_part (b : builder) : part_of (b_ids (sliceToLimits b)) (b_ids b).
Proof.
  unfold sliceToLimits. destruct (key b =? 0); [destruct (b_fullCount b); apply part_of_refl|].
  set (r1 := _ - limitBefore b). set (r2 := _ - limitAfter b - 1).
  pose proof (limitBegin_ids b r1) as E1. destruct (limitBegin r1 b) as [b1 q1]. cbn [fst] in E1.
  pose proof (limitEnd_ids b1 r2) as E2. destruct (limitEnd r2 b1) as [b2 q2]. cbn [fst] in E2.
  assert (part_of (b_ids b2) (b_ids b)) as H.
  { rewrite E2, E1. exists (take (Z.to_nat r1) (b_ids b)).
    set (l := drop (Z.to_nat r1) (b_ids b)). set (k := (_ - _)%nat). exists (drop k l).
    rewrite (take_drop k l). subst l. by rewrite take_drop. }
  destruct (b_fullCount b2); [done|]. by destruct (negb _).
Qed.

Lemma fill_part (b : builder) : part_of (b_ids (fillSkippedAndSliceToLimits b)) (b_ids b).
Proof.
  unfold fillSkippedAndSliceToLimits. eapply part_of_trans; [apply sliceToLimits_part|].
  destruct (b_fullCount b), (b_skippedBefore b), (b_skippedAfter b); apply part_of_refl.
Qed.

Lemma adjust_total (adj : list Z -> Z -> Z -> option Z) (M : list Z) (newEdge : Z) (was new wn : option Z) :
  (forall x n, x ∈ M -> is_Some (adj M x n)) -> newEdge ∈ M -> (forall x, was = Some x -> x ∈ M) ->
  exists r, adjust adj M newEdge new (default (-1) was) wn = Some r.
Proof.
  intros Hadj Hn Hw. unfold adjust. destruct new as [n|].
  { destruct (Hadj newEdge n Hn) as [r ->]. by eexists. }
  destruct wn as [n|]; [|by eexists]. destruct (Z.leb_spec 0 (default (-1) was)); [|by eexists].
  destruct was as [x|]; simpl in *; [|lia]. destruct (Hadj x n (Hw x eq_refl)) as [r ->]. by eexists.
Qed.

(** Whatever the numbers, merging succeeds, and leaves a part of the old ids
    with the new ones. *)
Lemma merge_part (b : builder) (cnt : option Z) (ms : list Z) (nb na : option Z) :
  exists b', mergeSliceData cnt ms nb na b = Some b'
    /\ part_of (b_ids b') (match ms with [] => b_ids b | _ => flat_merge (b_ids b) ms end).
Proof.
  unfold mergeSliceData. destruct ms as [|f ms]; cbn [head hd_error].
  { eexists. split; [done|]. eapply part_of_trans; [apply fill_part|].
    destruct cnt; repeat case_match; apply part_of_refl. }
  destruct (last (f :: ms)) as [back|] eqn:El; [|by apply last_None in El].
  set (b1 := match cnt with Some _ => _ | None => b end).
  assert (b_ids b1 = b_ids b) as E1 by (subst b1; by destruct cnt). rewrite E1.
  set (M := flat_merge (b_ids b) (f :: ms)).
  assert (forall x, x ∈ M -> exists k, find_index x M = Some k) as Hf.
  { intros x (k & Hk)%list_elem_of_lookup. exists (Z.of_nat k).
    apply find_index_lookup; [apply lt_NoDup, sorted_elements_sorted|done]. }
  change (head (f :: ms)) with (Some f). cbv iota beta.
  destruct (adjust_total adjustSkippedBefore M f (head (b_ids b)) nb (b_skippedBefore b1)) as [sb ->].
  { intros x n (k & Hk)%Hf. unfold adjustSkippedBefore. rewrite Hk. by eexists. }
  { apply in_flat_merge. right. by left. }
  { intros x Hx. apply in_flat_merge. left. by apply head_elem. }
  destruct (adjust_total adjustSkippedAfter M back (last (b_ids b)) na (b_skippedAfter b1)) as [sa ->].
  { intros x n (k & Hk)%Hf. unfold adjustSkippedAfter. rewrite Hk. by eexists. }
  { apply in_flat_merge. right. by apply last_elem. }
  { intros x Hx. apply in_flat_merge. left. by apply last_elem. }
  eexists. split; [done|]. apply fill_part.
Qed.

Lemma applyUpdate_part (T : gset Z) (b : builder) (u : SliceUpdate) :
  part_of (b_ids b) (sorted_elements T) -> truthful T u ->
  exists c b', applyUpdate u b = Some (c, b') /\ part_of (b_ids b') (sorted_elements T).
Proof.
  intros Hp [Hu _]. unfold applyUpdate. destruct (_ && _); [by eauto|].
  set (ms := if needMergeMessages u b then sorted_elements (default ∅ (u_messages u)) else []). destruct (merge_part b (u_count u) ms
    (if from (u_range u) =? 0 then Some 0 else None)
    (if till (u_range u) =? ServerMaxMsgId then Some 0 else None)) as (b' & -> & Hb').
  do 2 eexists. split; [done|]. eapply part_of_trans; [exact Hb'|]. clear Hb'.
  destruct (needMergeMessages u b) eqn:En; subst ms; [|done].
  unfold needMergeMessages in En. destruct (u_messages u) as [m|]; [|done]. simpl in *.
  destruct (Hu m eq_refl) as [Hr Hm]. destruct (sorted_elements m) eqn:Em; [done|]. rewrite <- Em.
  destruct Hp as (A & B & Hs). eapply segment_union; [done| |done|done].
  intros x. by rewrite elem_of_sorted_elements.
Qed.

Lemma filter_part (P : Z -> Prop) `{!forall x, Decision (P x)} (l L : list Z) :
  part_of l L -> part_of (filter P l) (filter P L).
Proof. intros (A & B & ->). rewrite !filter_app. by eexists _, _. Qed.

Lemma removeOne_part (T : gset Z) (b : builder) (id : Z) :
  part_of (b_ids b) (sorted_elements T) ->
  part_of (b_ids (removeOne id b).2) (sorted_elements (T ∖ {[id]})).
Proof.
  intros Hp. rewrite sorted_elements_remove. apply (filter_part (fun x => x <> id)) in Hp.
  eapply part_of_trans; [|exact Hp]. clear Hp.
  assert (forall (r : bool * builder), part_of (b_ids r.2) (filter (fun x => x <> id) (b_ids b)) ->
    part_of (b_ids (r.1, if r.1 then checkInsufficient r.2 else r.2).2)
      (filter (fun x => x <> id) (b_ids b))) as Hfin.
  { intros [[] b'] Hr; [|done]. eapply part_of_trans; [apply sliceToLimits_part|exact Hr]. }
  unfold removeOne. destruct (dec_positive (b_fullCount b)) as [c changed].
  cbn [b_ids b_fullCount b_skippedBefore b_skippedAfter set_data].
  case_bool_decide as Hin; [apply (Hfin (true, _)), part_of_refl|].
  rewrite (filter_ne_all (b_ids b) id Hin) in *.
  destruct (head (b_ids b)), (last (b_ids b)); try (apply (Hfin (changed, _)), part_of_refl).
  destruct (if _ <? _ then _ else _) as [sb []]; [apply (Hfin (true, _)), part_of_refl|].
  destruct (if _ <? _ then _ else _) as [sa []];
    [apply (Hfin (true, _)), part_of_refl|apply (Hfin (changed, _)), part_of_refl].
Qed.

(** The steps of a builder that follows a list [T] through the events of its
    [SparseIdsList]. A new last message is told by an update that reaches the
    end of the list. With [numbered] the events that make a known number wrong
    are left out: a new message that the builder does not see while it knows
    the number of ids after its own or whose update has no count while it
    knows the full one, and a message removed or the bottom invalidated while
    it has no ids. *)
Inductive step (numbered : bool) : gset Z * builder -> gset Z * builder -> Prop :=
  | step_initial T b b' q res c :
      b_ids b = [] -> b_skippedBefore b = None -> b_skippedAfter b = None ->
      b_fullCount b = None -> window T q res ->
      applyInitial res b = Some (c, b') -> step numbered (T, b) (T, b')
  | step_update T b b' u c :
      truthful T u -> applyUpdate u b = Some (c, b') -> step numbered (T, b) (T, b')
  | step_new T b b' u c id :
      IsServerMsgId id = true -> (forall x, x ∈ T -> x < id) ->
      truthful ({[id]} ∪ T) u -> in_range (u_range u) id -> till (u_range u) = ServerMaxMsgId ->
      (numbered = true -> b_skippedAfter b = None \/ needMergeMessages u b = true) ->
      (numbered = true -> u_count u = None -> b_fullCount b = None) ->
      applyUpdate u b = Some (c, b') -> step numbered (T, b) ({[id]} ∪ T, b')
  | step_remove T b id :
      id ∈ T -> (numbered = true -> b_ids b <> []) ->
      step numbered (T, b) (T ∖ {[id]}, (removeOne id b).2)
  | step_clear T b : step numbered (T, b) (∅, (removeAll b).2)
  | step_invalidate T T' b :
      (numbered = true -> b_ids b <> []) -> (forall x, x ∈ T' -> IsServerMsgId x = true) ->
      (forall back x, last (b_ids b) = Some back -> x <= back -> x ∈ T' <-> x ∈ T) ->
      step numbered (T, b) (T', (invalidateBottom b).2).

(** No operation changes what the builder was asked for. *)
Definition asked (b : builder) : Z * Z * Z := (key b, limitBefore b, limitAfter b).

Lemma sliceToLimits_asked (b : builder) : asked (sliceToLimits b) = asked b.
Proof. unfold asked. by destruct (sliceToLimits_frame b) as (-> & -> & ->). Qed.

Lemma fill_asked (b : builder) : asked (fillSkippedAndSliceToLimits b) = asked b.
Proof.
  unfold fillSkippedAndSliceToLimits. rewrite sliceToLimits_asked.
  by destruct (b_fullCount b), (b_skippedBefore b), (b_skippedAfter b).
Qed.

Lemma merge_asked (b b' : builder) (cnt : option Z) (ms : list Z) (nb na : option Z) :
  mergeSliceData cnt ms nb na b = Some b' -> asked b' = asked b.
Proof.
  unfold mergeSliceData. destruct (head ms), (last ms).
  1: destruct (adjust adjustSkippedBefore _ _ _ _ _); [|done];
     destruct (adjust adjustSkippedAfter _ _ _ _ _); [|done].
  all: intros [= <-]; rewrite fill_asked; destruct cnt; try done; by repeat case_match.
Qed.

Lemma applyUpdate_asked (u : SliceUpdate) (b b' : builder) (c : bool) :
  applyUpdate u b = Some (c, b') -> asked b' = asked b.
Proof.
  unfold applyUpdate. destruct (_ && _); [by intros [= _ <-]|].
  destruct (mergeSliceData _ _ _ _ b) as [b1|] eqn:E; [|done]. intros [= _ <-]. by eapply merge_asked.
Qed.

Lemma removeOne_asked (id : Z) (b : builder) : asked (removeOne id b).2 = asked b.
Proof.
  assert (forall (r : bool * builder), asked r.2 = asked b ->
    asked (let '(b', changed) := (r.2, r.1) in (changed, if changed : bool then checkInsufficient b' else b')).2
      = asked b) as Hfin.
  { intros [[] b'] Hr; [|done]. simpl in *. unfold checkInsufficient. by rewrite sliceToLimits_asked. }
  unfold removeOne. destruct (dec_positive (b_fullCount b)) as [c changed].
  cbn [b_ids b_fullCount b_skippedBefore b_skippedAfter set_data].
  case_bool_decide; [by apply (Hfin (true, _))|].
  destruct (head (b_ids b)), (last (b_ids b)); try (by apply (Hfin (changed, _))).
  destruct (if _ <? _ then _ else _) as [sb []]; [by apply (Hfin (true, _))|].
  destruct (if _ <? _ then _ else _) as [sa []]; [by apply (Hfin (true, _))|by apply (Hfin (changed, _))].
Qed.

Record inv (s : gset Z * builder) : Prop := {
  inv_acc : accurate s.1 s.2;
  inv_before : 0 <= limitBefore s.2;
  inv_after : 0 <= limitAfter s.2;
  inv_server : forall x, x ∈ s.1 -> IsServerMsgId x = true;
}.

Lemma inv_asked (s : gset Z * builder) (T' : gset Z) (b' : builder) :
  inv s -> asked b' = asked s.2 -> accurate T' b' -> (forall x, x ∈ T' -> IsServerMsgId x = true) ->
  inv (T', b').
Proof.
  intros [_ Hb Ha _] E Hacc HT. unfold asked in E. injection E as _ E1 E2.
  constructor; simpl; [done|by rewrite E1|by rewrite E2|done].
Qed.

Lemma initial_mergeable (T : gset Z) (b : builder) (q : Query) (res : QueryResult) :
  b_ids b = [] -> b_skippedBefore b = None -> b_skippedAfter b = None -> b_fullCount b = None ->
  window T q res ->
  mergeable T b (r_count res) (r_messageIds res) (r_skippedBefore res) (r_skippedAfter res).
Proof.
  intros E1 E2 E3 E4 [(pre & suf & Hs & Hb & Ha & _) Hc _].
  pose proof (sorted_elements_sorted T) as Hst. rewrite Hs in Hst.
  apply StronglySorted_app_iff in Hst as (_ & Hst & _).
  apply StronglySorted_app_iff in Hst as (Hst & _ & _).
  constructor; [| | | |exact Hc|by rewrite E4; intros _ ?].
  - rewrite E1, E2, E3. exists [], (sorted_elements T). split_and!; [done|by intros ?|by intros _ ?].
  - intros _. exists pre, suf. by rewrite E1, flat_merge_nil.
  - intros n x En Ex. destruct (r_messageIds res) as [|y l]; [done|]. injection Ex as ->.
    exists pre, (l ++ suf). split; [done|by apply Hb].
  - intros n x En (l & El)%last_Some. exists (pre ++ l), suf. rewrite Hs, El, <- !app_assoc.
    split; [done|by apply Ha].
Qed.

Lemma new_split (T : gset Z) (b : builder) (id : Z) (A B : list Z) :
  (forall x, x ∈ T -> x < id) -> sorted_elements T = A ++ b_ids b ++ B ->
  sorted_elements ({[id]} ∪ T) = A ++ b_ids b ++ (B ++ [id]).
Proof.
  intros Hnew Hs. transitivity (sorted_elements T ++ [id]); [|by rewrite Hs, <- !app_assoc].
  apply StronglySorted_lt_unique; [apply sorted_elements_sorted| |].
  - apply StronglySorted_app_iff. split_and!; [apply sorted_elements_sorted|by repeat constructor|].
    intros x y Hx%elem_of_sorted_elements ->%list_elem_of_singleton. by apply Hnew.
  - intros x. rewrite elem_of_app, !elem_of_sorted_elements, elem_of_union, elem_of_singleton,
      list_elem_of_singleton. tauto.
Qed.

Lemma step_inv (s s' : gset Z * builder) : step true s s' -> inv s -> inv s'.
Proof.
  intros Hstep Hinv. pose proof Hinv as [Hacc Hlb Hla HT].
  destruct Hstep as [T b b' q res c E1 E2 E3 E4 Hw E|T b b' u c Hu E|T b b' u c id Hid Hnew Hu Hin Ht Hsa Hf E
    |T b id Hid Hne|T b|T T' b Hne HT' Heq]; simpl in *.
  - unfold applyInitial in E.
    destruct (merge_accurate _ _ _ _ _ _ Hlb Hla (initial_mergeable T b q res E1 E2 E3 E4 Hw))
      as (b1 & Em & Hacc'). rewrite Em in E. injection E as _ <-.
    apply (inv_asked (T, b)); [done|by eapply merge_asked|done|done].
  - pose proof Hacc as [(A & B & Hs & Hb & Ha) Hc].
    destruct (applyUpdate_accurate T b u A B Hlb Hla HT Hu Hs Hb (or_introl Ha) (fun _ => Hc))
      as (c' & b1 & Em & Hacc'). rewrite Em in E. injection E as _ <-.
    apply (inv_asked (T, b)); [done|by eapply applyUpdate_asked|done|done].
  - pose proof Hacc as [(A & B & Hs & Hb & Ha) Hc].
    assert (forall x, x ∈ {[id]} ∪ T -> IsServerMsgId x = true) as HT'.
    { intros x [->%elem_of_singleton|Hx]%elem_of_union; auto. }
    destruct (applyUpdate_accurate ({[id]} ∪ T) b u A (B ++ [id]) Hlb Hla HT' Hu) as (c' & b1 & Em & Hacc').
    + by apply new_split.
    + done.
    + destruct (Hsa eq_refl) as [Hsa'|Hsa']; [left; rewrite Hsa'; by intros ?|right]. split_and!; [done|done|].
      intros Em. destruct Hu as [Hu _]. destruct (Hu ∅ Em) as [_ Hx].
      apply (not_elem_of_empty (C := gset Z) id), Hx. split; [|done]. apply elem_of_union. left.
      by apply elem_of_singleton.
    + intros En. rewrite (Hf eq_refl En). by intros ?.
    + rewrite Em in E. injection E as _ <-.
      apply (inv_asked (T, b)); [done|by eapply applyUpdate_asked|done|done].
  - apply (inv_asked (T, b)); [done|apply removeOne_asked|apply builder_removeOne_accurate; auto|].
    intros x [Hx _]%elem_of_difference. by apply HT.
  - apply (inv_asked (T, b)); [done|done|apply builder_removeAll_accurate|by intros x ?%elem_of_empty].
  - apply (inv_asked (T, b)); [done| | |done].
    { unfold invalidateBottom, checkInsufficient. cbn [snd]. by rewrite sliceToLimits_asked. }
    destruct (last (b_ids b)) as [back|] eqn:El; [|by apply last_None in El; destruct (Hne eq_refl)].
    apply (builder_invalidateBottom_accurate T T' b back); [done..|]. intros x. by apply Heq.
Qed.

Lemma new_builder_inv (T : gset Z) (k lb la : Z) :
  0 <= lb -> 0 <= la -> (forall x, x ∈ T -> IsServerMsgId x = true) -> inv (T, new_builder k lb la).
Proof.
  intros. constructor; simpl; [|done|done|done].
  split; simpl; [|by intros ?]. exists [], (sorted_elements T). split_and!; [done|by intros ?..].
Qed.

Lemma reachable_inv (s s' : gset Z * builder) : rtc (step true) s s' -> inv s -> inv s'.
Proof. induction 1; [done|]. intros. eauto using step_inv. Qed.

Lemma new_part (T : gset Z) (l : list Z) (id : Z) :
  (forall x, x ∈ T -> x < id) -> part_of l (sorted_elements T) ->
  part_of l (sorted_elements ({[id]} ∪ T)).
Proof.
  intros Hnew (A & B & Hs).
  exists A, (B ++ [id]). by apply (new_split T (mk_builder 0 l None None None 0 0 [])).
Qed.

Lemma step_part (numbered : bool) (s s' : gset Z * builder) :
  step numbered s s' -> part_of (b_ids s.2) (sorted_elements s.1) ->
  part_of (b_ids s'.2) (sorted_elements s'.1).
Proof.
  intros [T b b' q res c E1 E2 E3 E4 Hw E|T b b' u c Hu E|T b b' u c id Hid Hnew Hu Hin Ht _ _ E
    |T b id Hid _|T b|T T' b _ HT' Heq] Hp; simpl in *.
  - unfold applyInitial in E.
    destruct (merge_part b (r_count res) (r_messageIds res) (r_skippedBefore res) (r_skippedAfter res))
      as (b1 & E5 & Hb1).
    rewrite E5 in E. injection E as _ <-. eapply part_of_trans; [exact Hb1|].
    pose proof (mg_segment _ _ _ _ _ _ (initial_mergeable T b q res E1 E2 E3 E4 Hw)) as H.
    destruct (r_messageIds res); [done|]. by apply H.
  - destruct (applyUpdate_part T b u Hp Hu) as (c' & b1 & E1 & H). by simplify_eq.
  - destruct (applyUpdate_part _ b u (new_part T _ id Hnew Hp) Hu) as (c' & b1 & E1 & H). by simplify_eq.
  - by apply removeOne_part.
  - apply part_of_nil.
  - unfold checkInsufficient. eapply part_of_trans; [apply sliceToLimits_part|]. simpl.
    destruct (last (b_ids b)) as [back|] eqn:El.
    + destruct Hp as (A & B & Hs). exists A. eapply same_prefix; [done..|]. intros x. by apply Heq.
    + apply last_None in El as ->. apply part_of_nil.
Qed.

Lemma reachable_part (numbered : bool) (s s' : gset Z * builder) :
  rtc (step numbered) s s' -> part_of (b_ids s.2) (sorted_elements s.1) ->
  part_of (b_ids s'.2) (sorted_elements s'.1).
Proof. induction 1; [done|]. intros. eauto using step_part. Qed.

(** *** Limits and requests *)

Lemma requestMessages_fired (d : RequestDirection) (b : builder) :
  exists a, fired (requestMessages d b) = fired b ++ [a]
    /\ a_direction a <> (match d with RequestBefore => After | RequestAfter => Before end).
Proof.
  unfold requestMessages, fire. simpl. eexists. split; [done|].
  by destruct (head (b_ids b)), (last (b_ids b)), d.
Qed.

Lemma limitBegin_fired (r : Z) (b : builder) :
  exists new, fired (limitBegin r b).1 = fired b ++ new
    /\ (r < 0 -> maybe_more (b_skippedBefore b) = true -> exists a, a ∈ new /\ a_direction a <> After)
    /\ ((limitBegin r b).2 = true <-> new <> []).
Proof.
  unfold limitBegin. destruct (Z.ltb_spec 0 r).
  { exists []. simpl. rewrite app_nil_r. split_and!; [done|lia|done]. }
  destruct (Z.ltb_spec r 0); simpl.
  2:{ exists []. simpl. rewrite app_nil_r. split_and!; [done|lia|done]. }
  destruct (maybe_more _).
  - destruct (requestMessages_fired RequestBefore b) as (a & E & Ha). exists [a].
    split_and!; [done| |done]. intros _ _. exists a. split; [by left|done].
  - exists []. simpl. rewrite app_nil_r. by split_and!.
Qed.

Lemma limitEnd_fired (r : Z) (b : builder) :
  exists new, fired (limitEnd r b).1 = fired b ++ new
    /\ (r < 0 -> maybe_more (b_skippedAfter b) = true -> exists a, a ∈ new /\ a_direction a <> Before)
    /\ ((limitEnd r b).2 = true <-> new <> []).
Proof.
  unfold limitEnd. destruct (Z.ltb_spec 0 r).
  { exists []. simpl. rewrite app_nil_r. split_and!; [done|lia|done]. }
  destruct (Z.ltb_spec r 0); simpl.
  2:{ exists []. simpl. rewrite app_nil_r. split_and!; [done|lia|done]. }
  destruct (maybe_more _).
  - destruct (requestMessages_fired RequestAfter b) as (a & E & Ha). exists [a].
    split_and!; [done| |done]. intros _ _. exists a. split; [by left|done].
  - exists []. simpl. rewrite app_nil_r. by split_and!.
Qed.

(** The ids left by [sliceToLimits], on the two sides of the key. *)
Lemma sliceToLimits_ids (b : builder) :
  key b <> 0 -> 0 <= limitBefore b -> 0 <= limitAfter b -> StronglySorted Z.lt (b_ids b) ->
  exists L R, b_ids (sliceToLimits b) = L ++ R
    /\ lower_bound (key b) (L ++ R) = length L
    /\ Z.of_nat (length L) = Z.min (Z.of_nat (lower_bound (key b) (b_ids b))) (limitBefore b)
    /\ Z.of_nat (length R) = Z.min (Z.of_nat (length (b_ids b)) - Z.of_nat (lower_bound (key b) (b_ids b)))
         (limitAfter b + 1).
Proof.
  intros Hk Hlb Hla Hs. set (p := lower_bound (key b) (b_ids b)).
  pose proof (partition_point_le (fun x => x <? key b) (b_ids b)) as Hp.
  fold (lower_bound (key b) (b_ids b)) in Hp. fold p in Hp.
  set (r1 := Z.of_nat p - limitBefore b).
  set (r2 := Z.of_nat (length (b_ids b)) - Z.of_nat p - limitAfter b - 1).
  assert (b_ids (sliceToLimits b)
    = take (length (drop (Z.to_nat r1) (b_ids b)) - Z.to_nat r2) (drop (Z.to_nat r1) (b_ids b))) as E.
  { rewrite <- limitBegin_ids, <- limitEnd_ids. unfold sliceToLimits.
    destruct (Z.eqb_spec (key b) 0); [done|]. fold p r1 r2.
    destruct (limitBegin r1 b) as [b1 q1]. cbn [fst]. destruct (limitEnd r2 b1) as [b2 q2]. cbn [fst].
    destruct (b_fullCount b2); [done|]. by destruct (negb _). }
  exists (drop (Z.to_nat r1) (take p (b_ids b))),
    (take (length (b_ids b) - p - Z.to_nat r2) (drop p (b_ids b))).
  assert (drop (Z.to_nat r1) (b_ids b) = drop (Z.to_nat r1) (take p (b_ids b)) ++ drop p (b_ids b)) as Ed.
  { rewrite <- (take_drop p (b_ids b)) at 1. rewrite drop_app_le; [done|]. rewrite length_take. lia. }
  split_and!.
  - rewrite E, Ed, length_app, !length_drop, length_take, take_app.
    rewrite (take_ge (drop _ (take _ _))) by (rewrite length_drop, length_take; lia).
    f_equal. f_equal. rewrite length_drop, length_take. lia.
  - apply partition_point_app; intros x Hx.
    + apply (partition_point_take (fun y => y <? key b) (b_ids b)). change (x ∈ take p (b_ids b)).
      rewrite <- (take_drop (Z.to_nat r1) (take p _)). apply elem_of_app. by right.
    + apply (partition_point_after (fun y => y <? key b) (b_ids b)).
      2:{ change (x ∈ drop p (b_ids b)).
          rewrite <- (take_drop (length (b_ids b) - p - Z.to_nat r2) (drop p _)). apply elem_of_app. by left. }
      eapply StronglySorted_impl; [|exact Hs]. intros a c _ _ Hac Hc. apply Z.ltb_lt in Hc.
      apply Z.ltb_lt. lia.
  - rewrite length_drop, length_take. lia.
  - rewrite length_take, length_drop. lia.
Qed.

Lemma sliceToLimits_fired (b : builder) :
  key b <> 0 ->
  let p := Z.of_nat (lower_bound (key b) (b_ids b)) in
  let n := Z.of_nat (length (b_ids b)) in
  exists new, fired (sliceToLimits b) = fired b ++ new
    /\ (p < limitBefore b -> maybe_more (b_skippedBefore (sliceToLimits b)) = true ->
         exists a, a ∈ new /\ a_direction a <> After)
    /\ (n - p < limitAfter b + 1 -> maybe_more (b_skippedAfter (sliceToLimits b)) = true ->
         exists a, a ∈ new /\ a_direction a <> Before)
    /\ (b_fullCount b = None -> new <> []).
Proof.
  intros Hk p n. unfold sliceToLimits. destruct (Z.eqb_spec (key b) 0); [done|]. fold p n.
  set (r1 := p - limitBefore b). set (r2 := n - p - limitAfter b - 1).
  destruct (limitBegin_fired r1 b) as (n1 & E1 & H1 & Hq1).
  assert (b_fullCount (limitBegin r1 b).1 = b_fullCount b
    /\ b_skippedAfter (limitBegin r1 b).1 = b_skippedAfter b
    /\ (r1 < 0 -> b_skippedBefore (limitBegin r1 b).1 = b_skippedBefore b)) as (F1 & F2 & F3).
  { unfold limitBegin. destruct (Z.ltb_spec 0 r1); simpl; [split_and!; done || lia|]. by destruct (_ && _). }
  destruct (limitBegin r1 b) as [b1 q1]. cbn [fst snd] in *.
  destruct (limitEnd_fired r2 b1) as (n2 & E2 & H2 & Hq2).
  assert (b_fullCount (limitEnd r2 b1).1 = b_fullCount b1
    /\ b_skippedBefore (limitEnd r2 b1).1 = b_skippedBefore b1
    /\ (r2 < 0 -> b_skippedAfter (limitEnd r2 b1).1 = b_skippedAfter b1)) as (G1 & G2 & G3).
  { unfold limitEnd. destruct (Z.ltb_spec 0 r2); simpl; [split_and!; done || lia|]. by destruct (_ && _). }
  destruct (limitEnd r2 b1) as [b2 q2]. cbn [fst snd] in *.
  assert (forall b3 extra, fired b3 = fired b2 ++ extra -> b_skippedBefore b3 = b_skippedBefore b2 ->
    b_skippedAfter b3 = b_skippedAfter b2 -> (b_fullCount b = None -> n1 ++ n2 ++ extra <> []) ->
    exists new, fired b3 = fired b ++ new
    /\ (p < limitBefore b -> maybe_more (b_skippedBefore b3) = true -> exists a, a ∈ new /\ a_direction a <> After)
    /\ (n - p < limitAfter b + 1 -> maybe_more (b_skippedAfter b3) = true -> exists a, a ∈ new /\ a_direction a <> Before)
    /\ (b_fullCount b = None -> new <> [])) as Hfin.
  { intros b3 extra Ef Eb Ea Hx. exists (n1 ++ n2 ++ extra). split_and!; [by rewrite Ef, E2, E1, <- !app_assoc| | |done].
    - intros Hp. rewrite Eb, G2, F3 by lia. intros Hm. destruct (H1 ltac:(lia) Hm) as (a & Hin & Hd).
      exists a. split; [|done]. apply elem_of_app. by left.
    - intros Hp. rewrite Ea, G3, F2 by lia. rewrite <- F2. intros Hm. destruct (H2 ltac:(lia) Hm) as (a & Hin & Hd).
      exists a. split; [|done]. rewrite !elem_of_app. right. by left. }
  destruct (b_fullCount b2) as [c|] eqn:Ec.
  - apply (Hfin b2 []); [by rewrite app_nil_r|done|done|]. intros En. congruence.
  - destruct (q1 || q2) eqn:Eq; simpl.
    + apply (Hfin b2 []); [by rewrite app_nil_r|done|done|]. intros _ En.
      apply app_eq_nil in En as [-> En]. apply app_eq_nil in En as [-> _].
      apply orb_true_iff in Eq as [Eq|Eq]; [by apply Hq1 in Eq|by apply Hq2 in Eq].
    + apply (Hfin (requestMessagesCount b2) [mk_around 0 Around]); [done|done|done|]. intros _ En.
      apply app_eq_nil in En as [_ En]. by apply app_eq_nil in En as [_ ?].
Qed.

End Builder_facts.

(** ** Properties *)

(** C38. A merged slice around a message, or with the key 0 when there is a
    migrated group, is the ids of the migrated group followed by those of the
    chat (only one of them while the slice is isolated there): the size and the
    indexing agree with that list. A search of an id that is shown finds its
    place, and finds nothing for one that is not shown, but while the slice is
    isolated in the group it finds the ids of the chat past the end of the
    slice ([index_past_end]). No absent part is accessed, and the message
    nearest to the key is in the list. With the key 0 and no migrated group the
    absent part is accessed ([zero_key_absent]). *)
Theorem merged_slice_shows (m : Merged.merged) :
  Merged_facts.around_message m ->
  Merged.peerId (Merged.key m) <> Merged.migratedPeerId (Merged.key m) ->
  StronglySorted Z.lt (ids (Merged.part m)) ->
  (forall g, Merged.migrated m = Some g -> StronglySorted Z.lt (ids g)) ->
  Merged.m_size m = Some (Z.of_nat (length (Merged_facts.shown m)))
  /\ (forall i : nat, Merged.m_at m (Z.of_nat i) = Merged_facts.shown m !! i)
  /\ (forall (i : nat) f, Merged_facts.shown m !! i = Some f ->
        Merged.m_indexOf m f = Some (Some (Z.of_nat i)))
  /\ (forall f, exists r, Merged.m_indexOf m f = Some r /\ Merged_facts.found_in m f r)
  /\ (exists r, Merged.m_nearest m (Merged.universalId (Merged.key m)) = Some r
        /\ forall f, r = Some f -> f ∈ Merged_facts.shown m).
Proof.
  intros Hm Hp Hs1 Hs2. split_and!.
  - apply (Merged_facts.m_at_nat m 0 Hm).
  - intros i. apply (Merged_facts.m_at_nat m i Hm).
  - intros i f. by apply Merged_facts.m_indexOf_shown.
  - intros f. by apply Merged_facts.m_indexOf_found.
  - by apply Merged_facts.m_nearest_shown.
Qed.

(** The numbers of a merged slice add up: when the two parts are counted
    right, what is skipped before, what is shown and what is skipped after
    make the full count. *)
Theorem merged_slice_counts (m : Merged.merged) (b a c n : Z) :
  Merged_facts.around_message m -> Merged_facts.counted (Merged.part m) ->
  (forall g, Merged.migrated m = Some g -> Merged_facts.counted g) ->
  Merged.m_skippedBefore m = Some (Some b) -> Merged.m_skippedAfter m = Some (Some a) ->
  Merged.m_fullCount m = Some c -> Merged.m_size m = Some n ->
  b + n + a = c.
Proof. apply Merged_facts.m_counted. Qed.

(** C32. The builder follows the list: from a new builder, through the initial
    query, truthful updates, new messages, removals and invalidations, its ids
    are always a contiguous segment of the whole list, and no assertion of an
    update fails. The numbers of ids before and after them and the full count,
    when known, are the real ones as long as none of these events came: a new
    message the builder did not see while it knew the number of ids after its
    own (it stays one short then, [skipped_after_stale]) or told without a
    count, and a removal or an invalidation while the builder had no ids. *)
Theorem builder_follows_list (numbered : bool) (T0 T : gset Z) (k lb la : Z) (b : Builder.builder) :
  0 <= lb -> 0 <= la -> (forall x, x ∈ T0 -> IsServerMsgId x = true) ->
  rtc (Builder_facts.step numbered) (T0, Builder.new_builder k lb la) (T, b) ->
  (exists A B, sorted_elements T = A ++ Builder.b_ids b ++ B)
  /\ (forall u, Builder_facts.truthful T u -> is_Some (Builder.applyUpdate u b))
  /\ (numbered = true -> Builder_facts.accurate T b).
Proof.
  intros Hb Ha HT Hr.
  pose proof (Builder_facts.reachable_part _ _ _ Hr (Builder_facts.part_of_nil _)) as Hp. simpl in Hp.
  split_and!; [done| |].
  - intros u Hu. destruct (Builder_facts.applyUpdate_part T b u Hp Hu) as (c & b' & -> & _). by eexists.
  - intros ->. by apply (Builder_facts.inv_acc _ (Builder_facts.reachable_inv _ _ Hr
      (Builder_facts.new_builder_inv T0 k lb la Hb Ha HT))).
Qed.

(** A slice is kept within its limits and asks for what it lacks: around a
    message, at most [limitBefore] ids are left below it and [limitAfter + 1]
    from it on, and when there are fewer while more may exist, or the full
    count is not known, messages are requested. *)
Theorem slice_within_limits (b : Builder.builder) :
  Builder.key b <> 0 -> 0 <= Builder.limitBefore b -> 0 <= Builder.limitAfter b ->
  StronglySorted Z.lt (Builder.b_ids b) ->
  let b' := Builder.sliceToLimits b in
  let before := Z.of_nat (lower_bound (Builder.key b) (Builder.b_ids b')) in
  let after := Z.of_nat (length (Builder.b_ids b')) - before in
  before <= Builder.limitBefore b /\ after <= Builder.limitAfter b + 1
  /\ exists new, Builder.fired b' = Builder.fired b ++ new
     /\ (before < Builder.limitBefore b -> Builder.maybe_more (Builder.b_skippedBefore b') = true ->
         exists a, a ∈ new /\ Builder.a_direction a <> Builder.After)
     /\ (after < Builder.limitAfter b + 1 -> Builder.maybe_more (Builder.b_skippedAfter b') = true ->
         exists a, a ∈ new /\ Builder.a_direction a <> Builder.Before)
     /\ (Builder.b_fullCount b = None -> new <> []).
Proof.
  intros Hk Hb Ha Hs b' before after.
  destruct (Builder_facts.sliceToLimits_ids b Hk Hb Ha Hs) as (L & R & E & El & HL & HR).
  destruct (Builder_facts.sliceToLimits_fired b Hk) as (new & Ef & H1 & H2 & H3).
  assert (before = Z.of_nat (length L) /\ after = Z.of_nat (length R)) as [-> ->].
  { subst before after b'. rewrite E, El, length_app. lia. }
  split_and!; [lia|lia|]. exists new. split_and!; [done| | |done].
  - intros Hlt. apply H1. lia.
  - intros Hlt. apply H2. lia.
Qed.

(** When a new message arrives that the builder does not show, only the full
    count changes: the number of ids after its own, when it was known, is one
    short from then on. *)
Lemma skipped_after_stale :
  let b := Builder.mk_builder 1 [1; 2] (Some 4) (Some 0) (Some 2) 1 1 [] in
  let u := mk_update (Some {[9; 10; 11]}) (mk_range 9 ServerMaxMsgId) (Some 5) in
  Builder.applyUpdate u b
  = Some (true, Builder.mk_builder 1 [1; 2] (Some 5) (Some 0) (Some 2) 1 1 []).
Proof. by vm_compute. Qed.

(** While a slice is isolated in the migrated group, an id of the chat is
    found at an index past the end of the slice. *)
Lemma index_past_end :
  let m := Merged.of_parts (Merged.make_key 7 8 (-5) false)
    (mk_ids [1; 2] (Some 2) (Some 0) (Some 0)) (Some (mk_ids [3] (Some 9) None None)) in
  Merged.m_size m = Some 1 /\ Merged.m_indexOf m (mk_full 7 1) = Some (Some 1).
Proof. by vm_compute. Qed.

(** With the key 0 and no migrated group, the size of the slice accesses the
    absent part. *)
Lemma zero_key_absent (peer : Z) (p : sparse_ids) :
  Merged.m_size (Merged.of_parts (Merged.make_key peer 0 0 false) p None) = None.
Proof. by vm_compute. Qed.

(** *** Witnesses *)

Definition ex_merged : Merged.merged :=
  Merged.of_parts (Merged.make_key 7 8 5 false)
    (mk_ids [5; 6] (Some 2) (Some 0) (Some 0)) (Some (mk_ids [3; 4] (Some 4) (Some 2) (Some 0))).

Lemma merged_slice_shows_witness :
  Merged.m_size ex_merged = Some 4 /\ Merged.m_at ex_merged 2 = Some (mk_full 7 5).
Proof.
  destruct (merged_slice_shows ex_merged) as (H1 & H2 & _); [split; [done|by left]|done| | |].
  - repeat constructor.
  - intros g [= <-]. repeat constructor.
  - split; [by rewrite H1; vm_compute|]. exact (H2 2%nat).
Defined.

Lemma merged_slice_counts_witness : 2 + 4 + 0 = 6.
Proof.
  apply (merged_slice_counts ex_merged); [split; [done|by left]| | |by vm_compute..].
  - by intros b a c [= <-] [= <-] [= <-].
  - intros g [= <-]. by intros b a c [= <-] [= <-] [= <-].
Defined.

(** A builder around 5, two ids each way, that got the loaded part of the list
    5, 9, 12. *)
Definition ex_builder : Builder.builder :=
  match Builder.applyInitial (mk_result (Some 3) (Some 0) (Some 2) [5]) (Builder.new_builder 5 2 2) with
  | Some (_, b) => b
  | None => Builder.new_builder 5 2 2
  end.

Lemma ex_builder_reached :
  rtc (Builder_facts.step true) (ex_full ∖ {[7]}, Builder.new_builder 5 2 2) (ex_full ∖ {[7]}, ex_builder).
Proof.
  apply rtc_once.
  apply (Builder_facts.step_initial _ _ _ _ (mk_query 5 2 2) (mk_result (Some 3) (Some 0) (Some 2) [5]) true);
    [done..|exact ex_window|by vm_compute].
Qed.

Lemma builder_follows_list_witness : Builder_facts.accurate (ex_full ∖ {[7]}) ex_builder.
Proof.
  apply (builder_follows_list true (ex_full ∖ {[7]}) _ 5 2 2); [lia|lia| |exact ex_builder_reached|done].
  intros x [Hx _]%elem_of_difference. by apply ex_full_server.
Defined.

Lemma slice_within_limits_witness :
  Z.of_nat (lower_bound 5 (Builder.b_ids (Builder.sliceToLimits
    (Builder.mk_builder 5 [1; 2; 3; 5; 6] None None None 2 2 [])))) <= 2.
Proof.
  apply (slice_within_limits (Builder.mk_builder 5 [1; 2; 3; 5; 6] None None None 2 2 []));
    simpl; [lia|lia|lia|repeat constructor].
Defined.
