(* ===== verification/Tcp.v ===== *)
(** * The TCP transport

    [mtproto/connection_tcp.cpp]: the three framings of packets (plain,
    obfuscated and padded), the obfuscation of a new connection, the receiving
    buffers and the handling of received packets; and the unencrypted packets
    of [mtproto/connection_abstract.h] and [mtproto/connection_abstract.cpp].

    Bytes are [Z]s from 0 to 255, [mtpPrime]s are signed 32-bit [Z]s stored
    little-endian. [None] is a failed [Expects] or [Assert], or a span out of
    its buffer. *)

From S2P Require Import Prelude.

(** ** Bytes and 32-bit integers *)

Definition is_byte (b : Z) : Prop := 0 <= b < 256.

Definition le32 (v : Z) : list Z :=
  let u := wrapu 32 v in
  [wrapu 8 u; wrapu 8 (Z.shiftr u 8); wrapu 8 (Z.shiftr u 16); Z.shiftr u 24].

Definition bytes_of_ints (l : list Z) : list Z := l ≫= le32.

(** The unsigned value of four bytes. *)
Definition u32_at (a b c d : Z) : Z := a + 256 * b + 65536 * c + 16777216 * d.

(** The span of [mtpPrime]s over a span of bytes, [size / sizeof(mtpPrime)] of them. *)
Fixpoint ints_of_bytes (l : list Z) : list Z :=
  match l with
  | a :: b :: c :: d :: l' => wraps 32 (u32_at a b c d) :: ints_of_bytes l'
  | _ => []
  end.

(** [gsl::span::subspan], with its bounds check. *)
Definition subspan (l : list Z) (offset count : Z) : option (list Z) :=
  if (0 <=? offset) && (0 <=? count) && (offset + count <=? Z.of_nat (length l))
  then Some (take (Z.to_nat count) (drop (Z.to_nat offset) l)) else None.

(** [bytes::copy] and [bytes::move] into the buffer at an offset. *)
Definition write_at (buffer : list Z) (offset : nat) (data : list Z) : list Z :=
  take offset buffer ++ data ++ drop (offset + length data) buffer.

(** ** Protocols *)
Module Protocol.

Definition kPacketSizeMax : Z := 0x01000000 * 4.
Definition kUnknownSize : Z := -1.
Definition kInvalidSize : Z := -2.

(** The classes [Version0], [Version1] and [VersionD]. *)
Inductive protocol := Version0 | Version1 (secret : list Z) | VersionD (secret : list Z).

Definition id (p : protocol) : Z :=
  match p with VersionD _ => 0xDDDDDDDD | _ => 0xEFEFEFEF end.

Definition supportsArbitraryLength (p : protocol) : bool :=
  match p with VersionD _ => true | _ => false end.

Definition debugPostfix (p : protocol) : string :=
  match p with Version0 => "" | Version1 _ => "_obf" | VersionD _ => "_dd" end.

Definition prepareKey (sha256 : list Z -> list Z) (p : protocol) (source : list Z) : list Z :=
  match p with
  | Version0 => source
  | Version1 secret | VersionD secret => sha256 (source ++ secret)
  end.

(** [Version0::finalizePacket]: the size goes in the bytes before the data. *)
Definition finalizePacket0 (buffer : list Z) : option (list Z) :=
  let size := Z.of_nat (length buffer) in
  if (2 <? size) && (size <? 0x1000003) then
    let intsSize := size - 2 in
    let bytesSize := intsSize * 4 in
    let data := bytes_of_ints buffer in
    let '(data, added) :=
      if intsSize <? 0x7F then (<[7%nat := wrapu 8 intsSize]> data, 1)
      else (<[7%nat := wrapu 8 (Z.land (Z.shiftr intsSize 16) 0xFF)]>
             (<[6%nat := wrapu 8 (Z.land (Z.shiftr intsSize 8) 0xFF)]>
               (<[5%nat := wrapu 8 (Z.land intsSize 0xFF)]>
                 (<[4%nat := 0x7F]> data))), 4) in
    subspan data (8 - added) (added + bytesSize)
  else None.

(** [VersionD::finalizePacket]. [random] is the value [padding] is taken from,
    [randoms] the ones pushed back. *)
Definition finalizePacketD (random : Z) (randoms : list Z) (buffer : list Z) :
    option (list Z) :=
  let size := Z.of_nat (length buffer) in
  if (2 <? size) && (size <? 0x1000003) then
    let intsSize := size - 2 in
    let padding := Z.land random 0x0F in
    let bytesSize := intsSize * 4 + padding in
    let buffer := <[1%nat := wraps 32 bytesSize]> buffer in
    let buffer := buffer ++ take (Z.to_nat ((padding + 3) / 4)) randoms in
    subspan (bytes_of_ints buffer) 4 (4 + bytesSize)
  else None.

Definition finalizePacket (p : protocol) (random : Z) (randoms : list Z) (buffer : list Z) :
    option (list Z) :=
  match p with
  | VersionD _ => finalizePacketD random randoms buffer
  | _ => finalizePacket0 buffer
  end.

(** [static_cast<char>] of a byte is signed. *)
Definition readPacketLength0 (bytes : list Z) : Z :=
  match bytes with
  | [] => kUnknownSize
  | b0 :: rest =>
      let first := wraps 8 b0 in
      if first =? 0x7F then
        match rest with
        | b1 :: b2 :: b3 :: _ =>
            let ints := Z.lor (Z.lor b1 (Z.shiftl b2 8)) (Z.shiftl b3 16) in
            if 0x7F <=? ints then wraps 32 (wrapu 32 (Z.shiftl ints 2)) + 4 else kInvalidSize
        | _ => kUnknownSize
        end
      else if (0 <? first) && (first <? 0x7F) then wraps 32 (Z.shiftl first 2) + 1
      else kInvalidSize
  end.

Definition readPacketLengthD (bytes : list Z) : Z :=
  match bytes with
  | a :: b :: c :: d :: _ =>
      let value := wrapu 32 (u32_at a b c d + 4) in
      if (8 <=? value) && (value <? kPacketSizeMax) then value else kInvalidSize
  | _ => kUnknownSize
  end.

Definition readPacketLength (p : protocol) (bytes : list Z) : Z :=
  match p with VersionD _ => readPacketLengthD bytes | _ => readPacketLength0 bytes end.

Definition sizeLength (p : protocol) (bytes : list Z) : Z :=
  match p with
  | VersionD _ => 4
  | _ => if wraps 8 (default 0 (head bytes)) =? 0x7F then 4 else 1
  end.

Definition readPacket (p : protocol) (bytes : list Z) : option (list Z) :=
  let size := readPacketLength p bytes in
  if negb (size =? kUnknownSize) && negb (size =? kInvalidSize)
     && (size <=? Z.of_nat (length bytes))
  then subspan bytes (sizeLength p bytes) (size - sizeLength p bytes)
  else None.

Definition Create (secret : list Z) : option protocol :=
  let size := Z.of_nat (length secret) in
  let first := default 0 (head secret) in
  if ((21 <=? size) && (first =? 0xEE)) || ((size =? 17) && (first =? 0xDD)) then
    Some (VersionD (take 16 (drop 1 secret)))
  else if size =? 16 then Some (Version1 secret)
  else if size =? 0 then Some Version0
  else None.

End Protocol.

(** ** Unencrypted packets *)
Module NotSecure.

(** A span of [count] integers starting at [from] of the buffer, not checked
    against its size: [gsl::make_span(pointer, count)]. *)
Record raw_span := mk_span { from : Z; count : Z }.

Definition parseNotSecureResponse (buffer : list Z) : option raw_span :=
  let len := Z.of_nat (length buffer) in
  if len <? 6 then None
  else
    let answer i := default 0 (buffer !! i) in
    if negb (answer 0%nat =? 0) || negb (answer 1%nat =? 0)
       || negb (Z.land (wrapu 32 (answer 2%nat)) 0x03 =? 1) then None
    else
      let answerLen := wrapu 32 (answer 4%nat) in
      if (answerLen <? 1) || ((len - 5) * 4 <? answerLen) then None
      else Some (mk_span 5 answerLen).

(** [prepareSecurePacket]: two ints for the transport, the key id and the
    message key. *)
Definition prepareSecurePacket (keyId : Z) (msgKey : list Z) : list Z :=
  [0; 0; wraps 32 keyId; wraps 32 (Z.shiftr keyId 32)] ++ take 4 msgKey.

(** [prepareNotSecurePacket]: [request] are the ints the request writes,
    [padding] the random ints of the padding. *)
Definition prepareNotSecurePacket (request : list Z) (newId : Z) (padding : list Z) : list Z :=
  let intsPadding := Z.of_nat (length padding) in
  let messageLength := Z.shiftl (Z.of_nat (length request) + intsPadding) 2 in
  [0; 0; 0; 0; wraps 32 newId; wraps 32 (Z.shiftr newId 32); wraps 32 messageLength]
    ++ request ++ padding.

End NotSecure.

(** ** Facts on bytes *)

Lemma le32_length (v : Z) : length (le32 v) = 4%nat.
Proof. done. Qed.

Lemma bytes_of_ints_app (l k : list Z) : bytes_of_ints (l ++ k) = bytes_of_ints l ++ bytes_of_ints k.
Proof. apply bind_app. Qed.

Lemma bytes_of_ints_cons (v : Z) (l : list Z) : bytes_of_ints (v :: l) = le32 v ++ bytes_of_ints l.
Proof. done. Qed.

Lemma bytes_of_ints_length (l : list Z) : length (bytes_of_ints l) = (4 * length l)%nat.
Proof. induction l as [|v l IH]; [done|]. rewrite bytes_of_ints_cons, length_app, IH, le32_length. simpl. lia. Qed.

Lemma u32_le32 (v : Z) (rest : list Z) :
  fits_u 32 v -> exists a b c d, le32 v ++ rest = a :: b :: c :: d :: rest /\ u32_at a b c d = v.
Proof.
  intros Hv. unfold le32. rewrite (wrapu_small 32 v Hv). cbn [app]. do 4 eexists. split; [done|].
  unfold u32_at, wrapu, fits_u in *. rewrite !Z.shiftr_div_pow2 by lia.
  Z.to_euclidean_division_equations. lia.
Qed.

Lemma le32_wrapu (v : Z) : le32 (wrapu 32 v) = le32 v.
Proof.
  unfold le32. by rewrite (wrapu_small 32 (wrapu 32 v)) by (apply wrapu_bound; lia).
Qed.

Lemma ints_le32 (v : Z) (rest : list Z) :
  fits_s 32 v -> ints_of_bytes (le32 v ++ rest) = v :: ints_of_bytes rest.
Proof.
  intros Hv. destruct (u32_le32 (wrapu 32 v) rest) as (a & b & c & d & E & Eu); [apply wrapu_bound; lia|].
  rewrite <- le32_wrapu, E. cbn [ints_of_bytes]. rewrite Eu, wraps_wrapu. by rewrite wraps_small.
Qed.

Lemma ints_of_bytes_of_ints (l rest : list Z) :
  Forall (fits_s 32) l -> ints_of_bytes (bytes_of_ints l ++ rest) = l ++ ints_of_bytes rest.
Proof.
  induction 1 as [|v l Hv Hl IH]; [done|]. rewrite bytes_of_ints_cons, <- app_assoc, ints_le32 by done.
  by rewrite IH.
Qed.

Lemma subspan_all (l k : list Z) (n : Z) :
  n = Z.of_nat (length l) -> subspan (l ++ k) 0 n = Some l.
Proof.
  intros ->. unfold subspan. rewrite length_app.
  replace (_ && _) with true by (symmetry; rewrite !andb_true_iff, !Z.leb_le; lia).
  by rewrite drop_0, Nat2Z.id, take_app_length.
Qed.

Lemma subspan_skip (h l k : list Z) (i n : Z) :
  i = Z.of_nat (length h) -> n = Z.of_nat (length l) -> subspan (h ++ l ++ k) i n = Some l.
Proof.
  intros -> ->. unfold subspan. rewrite !length_app.
  replace (_ && _) with true by (symmetry; rewrite !andb_true_iff, !Z.leb_le; lia).
  by rewrite !Nat2Z.id, drop_app_length, take_app_length.
Qed.

(** ** What a framing promises to the receiving loop

    The length read from the first bytes of a packet does not change when more
    bytes come, and it is known from four bytes on. *)
Class Framing (readPacketLength : list Z -> Z) : Prop := {
  framing_stable : forall w x, readPacketLength w <> Protocol.kUnknownSize ->
    readPacketLength (w ++ x) = readPacketLength w;
  framing_known : forall w, readPacketLength w = Protocol.kUnknownSize -> (length w < 4)%nat;
}.

#[export] Instance framing_version0 : Framing Protocol.readPacketLength0.
Proof.
  constructor.
  - intros [|b0 [|b1 [|b2 [|b3 r]]]] x; simpl; try done; by repeat case_match.
  - intros [|b0 [|b1 [|b2 [|b3 r]]]]; simpl; try lia. unfold Protocol.kUnknownSize, Protocol.kInvalidSize.
    destruct (_ =? _); [|destruct (_ && _)].
    + destruct (_ <=? _); [|done]. set (v := wrapu 32 _).
      pose proof (wraps_bound 32 v ltac:(lia)) as Hb.
      assert (v mod 4 = 0) as Hm.
      { subst v. rewrite Z.shiftl_mul_pow2 by lia. unfold wrapu. Z.to_euclidean_division_equations. lia. }
      intros E. exfalso. revert E Hm. unfold wraps in *. clearbody v. clear Hb.
      intros E Hm. Z.to_euclidean_division_equations. lia.
    + pose proof (wraps_bound 8 b0 ltac:(lia)) as Hb. unfold fits_s in Hb.
      rewrite Z.shiftl_mul_pow2 by lia. rewrite wraps_small by (unfold fits_s; lia). lia.
    + done.
Qed.

#[export] Instance framing_versionD : Framing Protocol.readPacketLengthD.
Proof.
  assert (forall v, Protocol.kUnknownSize <> (if (8 <=? wrapu 32 v) && (wrapu 32 v <? Protocol.kPacketSizeMax)
    then wrapu 32 v else Protocol.kInvalidSize)) as Hne.
  { intros v. pose proof (wrapu_bound 32 v ltac:(lia)) as Hb. unfold fits_u in Hb.
    destruct (_ && _); unfold Protocol.kUnknownSize, Protocol.kInvalidSize; lia. }
  constructor.
  - by intros [|b0 [|b1 [|b2 [|b3 r]]]] x.
  - intros [|b0 [|b1 [|b2 [|b3 r]]]]; simpl; try lia. intros E. by destruct (Hne (u32_at b0 b1 b2 b3 + 4)).
Qed.

#[export] Instance framing_protocol (p : Protocol.protocol) : Framing (Protocol.readPacketLength p).
Proof. destruct p; [apply framing_version0|apply framing_version0|apply framing_versionD]. Qed.

(** A frame: bytes whose announced length is their own. *)
Definition is_frame (rpl : list Z -> Z) (f : list Z) : Prop :=
  f <> [] /\ rpl f = Z.of_nat (length f).

Lemma frame_app `{Framing rpl} (f x : list Z) : is_frame rpl f -> rpl (f ++ x) = Z.of_nat (length f).
Proof.
  intros [_ Hf]. rewrite framing_stable; [done|]. rewrite Hf. unfold Protocol.kUnknownSize. lia.
Qed.

Lemma frame_prefix `{Framing rpl} (f w x : list Z) :
  is_frame rpl f -> f = w ++ x -> rpl w = Protocol.kUnknownSize \/ rpl w = Z.of_nat (length f).
Proof.
  intros [_ Hf] ->. destruct (decide (rpl w = Protocol.kUnknownSize)) as [E|E]; [by left|right].
  by rewrite <- (framing_stable w x E).
Qed.

(** ** The frames written *)

Lemma head_bytes (b0 b1 : Z) (payload : list Z) :
  exists d0 d1 d2 d3 d4 d5 d6 d7,
    bytes_of_ints (b0 :: b1 :: payload)
    = [d0; d1; d2; d3; d4; d5; d6; d7] ++ bytes_of_ints payload.
Proof. by do 8 eexists. Qed.

Lemma three_bytes (n : Z) :
  0 <= n < 2 ^ 24 ->
  Z.lor (Z.lor (wrapu 8 (Z.land n 0xFF)) (Z.shiftl (wrapu 8 (Z.land (Z.shiftr n 8) 0xFF)) 8))
    (Z.shiftl (wrapu 8 (Z.land (Z.shiftr n 16) 0xFF)) 16) = n.
Proof.
  intros Hn. assert (forall m, wrapu 8 (Z.land m 0xFF) = m mod 256) as Hw.
  { intros m. change 0xFF with (Z.ones 8). rewrite Z.land_ones by lia. unfold wrapu.
    rewrite Z.mod_mod by lia. done. }
  rewrite !Hw, !Z.shiftr_div_pow2 by lia.
  rewrite (Z.lor_comm (n mod 256)), (Z.lor_comm (Z.lor _ _)).
  pose proof (Z.mod_pos_bound n 256 ltac:(lia)).
  pose proof (Z.mod_pos_bound (n / 2 ^ 8) 256 ltac:(lia)).
  rewrite (lor_shiftl_low (n mod 256) _ 8) by lia.
  rewrite lor_shiftl_low by lia. Z.to_euclidean_division_equations. lia.
Qed.

Lemma finalize0_frame (b0 b1 : Z) (payload : list Z) :
  payload <> [] -> Z.of_nat (length payload) < 0x1000000 ->
  exists f, Protocol.finalizePacket0 (b0 :: b1 :: payload) = Some f
    /\ is_frame Protocol.readPacketLength0 f
    /\ Protocol.readPacket Protocol.Version0 f = Some (bytes_of_ints payload).
Proof.
  intros Hne Hlen. unfold Protocol.finalizePacket0. simpl length.
  assert (0 < Z.of_nat (length payload)) as Hpos by (destruct payload; simpl; [done|lia]).
  set (n := Z.of_nat (length payload)) in *.
  replace (Z.of_nat (S (S (length payload)))) with (n + 2) by lia.
  replace ((2 <? n + 2) && (n + 2 <? 0x1000003)) with true
    by (symmetry; rewrite andb_true_iff, !Z.ltb_lt; lia).
  replace (n + 2 - 2) with n by lia.
  destruct (head_bytes b0 b1 payload) as (d0 & d1 & d2 & d3 & d4 & d5 & d6 & d7 & ->).
  pose proof (bytes_of_ints_length payload) as HD. set (D := bytes_of_ints payload) in *.
  assert (Z.of_nat (length D) = n * 4) as HDz by lia.
  destruct (Z.ltb_spec n 0x7F) as [Hs|Hs].
  - cbn [list_insert insert app]. exists (wrapu 8 n :: D).
    assert (wraps 8 (wrapu 8 n) = n) as Hw by (rewrite wraps_wrapu; apply wraps_small; unfold fits_s; lia).
    assert (wraps 32 (Z.shiftl n 2) = n * 4) as Hsh
      by (rewrite Z.shiftl_mul_pow2 by lia; apply wraps_small; unfold fits_s; lia).
    assert (Protocol.readPacketLength0 (wrapu 8 n :: D) = n * 4 + 1) as Hr.
    { simpl. rewrite Hw. replace (n =? 127) with false by (symmetry; apply Z.eqb_neq; lia).
      replace ((0 <? n) && (n <? 127)) with true by (symmetry; rewrite andb_true_iff, !Z.ltb_lt; lia).
      by rewrite Hsh. }
    split_and!.
    + rewrite <- (app_nil_r D) at 1. apply (subspan_skip [d0; d1; d2; d3; d4; d5; d6] (wrapu 8 n :: D) []);
        simpl; lia.
    + split; [done|]. rewrite Hr. simpl. lia.
    + unfold Protocol.readPacket. cbn [Protocol.readPacketLength]. rewrite Hr.
      replace (negb (n * 4 + 1 =? Protocol.kUnknownSize) && negb (n * 4 + 1 =? Protocol.kInvalidSize)
        && (n * 4 + 1 <=? Z.of_nat (length (wrapu 8 n :: D)))) with true.
      2:{ symmetry. rewrite !andb_true_iff, !negb_true_iff, !Z.eqb_neq, Z.leb_le. simpl.
          unfold Protocol.kUnknownSize, Protocol.kInvalidSize. lia. }
      unfold Protocol.sizeLength. simpl head. simpl default. rewrite Hw.
      replace (n =? 127) with false by (symmetry; apply Z.eqb_neq; lia).
      rewrite <- (app_nil_r D) at 1. apply (subspan_skip [wrapu 8 n] D []); simpl; lia.
  - cbn [list_insert insert app].
    set (h1 := wrapu 8 (Z.land n 0xFF)). set (h2 := wrapu 8 (Z.land (Z.shiftr n 8) 0xFF)).
    set (h3 := wrapu 8 (Z.land (Z.shiftr n 16) 0xFF)).
    pose proof (three_bytes n ltac:(lia)) as H3. fold h1 h2 h3 in H3.
    exists (0x7F :: h1 :: h2 :: h3 :: D).
    assert (wraps 32 (wrapu 32 (Z.shiftl n 2)) = n * 4) as Hsh
      by (rewrite wraps_wrapu, Z.shiftl_mul_pow2 by lia; apply wraps_small; unfold fits_s; lia).
    assert (Protocol.readPacketLength0 (0x7F :: h1 :: h2 :: h3 :: D) = n * 4 + 4) as Hr.
    { simpl. rewrite H3. replace (127 <=? n) with true by (symmetry; apply Z.leb_le; lia). by rewrite Hsh. }
    split_and!.
    + rewrite <- (app_nil_r D) at 1. apply (subspan_skip [d0; d1; d2; d3] (0x7F :: h1 :: h2 :: h3 :: D) []);
        simpl; lia.
    + split; [done|]. rewrite Hr. simpl. lia.
    + unfold Protocol.readPacket. cbn [Protocol.readPacketLength]. rewrite Hr.
      replace (negb (n * 4 + 4 =? Protocol.kUnknownSize) && negb (n * 4 + 4 =? Protocol.kInvalidSize)
        && (n * 4 + 4 <=? Z.of_nat (length (0x7F :: h1 :: h2 :: h3 :: D)))) with true.
      2:{ symmetry. rewrite !andb_true_iff, !negb_true_iff, !Z.eqb_neq, Z.leb_le. simpl.
          unfold Protocol.kUnknownSize, Protocol.kInvalidSize. lia. }
      change (Protocol.sizeLength Protocol.Version0 (0x7F :: h1 :: h2 :: h3 :: D)) with 4.
      rewrite <- (app_nil_r D) at 1. apply (subspan_skip [0x7F; h1; h2; h3] D []); simpl; lia.
Qed.

(** The ints of the frame after its length: the data and the padding. *)
Lemma finalizeD_frame (random : Z) (randoms : list Z) (b0 b1 : Z) (payload : list Z) (secret : list Z) :
  payload <> [] -> Z.of_nat (length payload) < 0xFFFFFB -> (4 <= length randoms)%nat ->
  exists f pad, Protocol.finalizePacketD random randoms (b0 :: b1 :: payload) = Some f
    /\ is_frame Protocol.readPacketLengthD f
    /\ Protocol.readPacket (Protocol.VersionD secret) f = Some (bytes_of_ints payload ++ pad)
    /\ Z.of_nat (length pad) = Z.land random 0x0F.
Proof.
  intros Hne Hlen Hrs. unfold Protocol.finalizePacketD. simpl length.
  assert (0 < Z.of_nat (length payload)) as Hpos by (destruct payload; simpl; [done|lia]).
  set (n := Z.of_nat (length payload)) in *.
  replace (Z.of_nat (S (S (length payload)))) with (n + 2) by lia.
  replace ((2 <? n + 2) && (n + 2 <? 0x1000003)) with true
    by (symmetry; rewrite andb_true_iff, !Z.ltb_lt; lia).
  replace (n + 2 - 2) with n by lia.
  set (padding := Z.land random 0x0F).
  assert (0 <= padding < 16) as Hpad.
  { subst padding. change 0x0F with (Z.ones 4). rewrite Z.land_ones by lia. apply Z.mod_pos_bound. lia. }
  set (k := Z.to_nat ((padding + 3) / 4)).
  assert (padding <= 4 * Z.of_nat k /\ (k <= 4)%nat) as [Hk Hk4]
    by (subst k; Z.to_euclidean_division_equations; lia).
  cbn [list_insert insert app].
  set (v := n * 4 + padding). rewrite !bytes_of_ints_cons, bytes_of_ints_app.
  assert (le32 (wraps 32 v) = le32 v) as -> by (rewrite <- le32_wrapu, wrapu_wraps, le32_wrapu by lia; done).
  set (R := bytes_of_ints (take k randoms)).
  assert (Z.of_nat (length R) = 4 * Z.of_nat k) as HR
    by (subst R; rewrite bytes_of_ints_length, length_take; lia).
  pose proof (bytes_of_ints_length payload) as HD. set (D := bytes_of_ints payload) in *.
  assert (Z.of_nat (length D) = n * 4) as HDz by lia.
  set (pad := take (Z.to_nat padding) R).
  assert (Z.of_nat (length pad) = padding) as Hlp by (subst pad; rewrite length_take; lia).
  assert (R = pad ++ drop (Z.to_nat padding) R) as ER by (subst pad; by rewrite take_drop).
  set (f := le32 v ++ D ++ pad).
  assert (Z.of_nat (length f) = v + 4) as Hlf.
  { subst f. rewrite !length_app, le32_length. lia. }
  assert (Protocol.readPacketLengthD f = Z.of_nat (length f)) as Hr.
  { destruct (u32_le32 v (D ++ pad)) as (a & b & c & d & E & Eu); [unfold fits_u; lia|].
    rewrite Hlf. subst f. rewrite E. simpl. rewrite Eu.
    rewrite wrapu_small by (unfold fits_u; lia). unfold Protocol.kPacketSizeMax.
    replace ((8 <=? v + 4) && (v + 4 <? 0x1000000 * 4)) with true; [done|].
    symmetry. rewrite andb_true_iff, Z.leb_le, Z.ltb_lt. lia. }
  exists f, pad. split_and!.
  - rewrite ER. rewrite (app_assoc D pad), (app_assoc (le32 v) (D ++ pad)).
    apply (subspan_skip (le32 b0) (le32 v ++ D ++ pad)); [done|]. fold f. lia.
  - split; [done|done].
  - unfold Protocol.readPacket. cbn [Protocol.readPacketLength Protocol.sizeLength]. rewrite Hr.
    replace (negb _ && negb _ && _) with true.
    2:{ symmetry. rewrite !andb_true_iff, !negb_true_iff, !Z.eqb_neq, Z.leb_le.
        unfold Protocol.kUnknownSize, Protocol.kInvalidSize. lia. }
    subst f. rewrite <- (app_nil_r (D ++ pad)) at 1.
    apply (subspan_skip (le32 v) (D ++ pad) []); [done|]. rewrite !length_app, le32_length. lia.
  - done.
Qed.

(** ** The connection *)
Module Connection.

Definition kErrorCodeOther : Z := -499.
Definition kSmallBufferSize : Z := 256 * 1024.
Definition kMinPacketBuffer : Z := 256.
Definition kConnectionStartPrefixSize : Z := 64.

Section Connection.

(** The block cipher behind [aesCtrEncrypt] (OpenSSL): the byte of the key
    stream for a key, an initial vector and a position. *)
Context (keystream : list Z -> list Z -> nat -> Z).
(** [openssl::Sha256]. *)
Context (sha256 : list Z -> list Z).
(** The nonce of a valid answer to the fake request of the connection
    ([readPQFakeReply]: the answer is read by generated code). *)
Context (fakeReplyNonce : list Z -> option (list Z)).

(** [CTRState]: the vector, and the number of bytes already encrypted. *)
Record CTRState := mk_ctr { ivec : list Z; num : nat }.

Definition aesCtrEncrypt (data key : list Z) (state : CTRState) : list Z * CTRState :=
  (imap (fun i b => Z.lxor b (keystream key (ivec state) (num state + i))) data,
   mk_ctr (ivec state) (num state + length data)).

Inductive Status := Waiting | Ready | Finished.

(** What the connection tells its owner. *)
Inductive event := Error (code : Z) | ReceivedData | ReceivedSome | Connected | Disconnected.

(** What the owner does then: whether it leaves the connection in place or
    calls [disconnectFromServer]. *)
Context (keeps : event -> bool).

Record tcp := mk_tcp {
  status : Status;
  socket : bool;
  connectionStarted : bool;
  offsetBytes : Z;
  readBytes : Z;
  leftBytes : Z;
  smallBuffer : list Z;
  largeBuffer : list Z;
  usingLargeBuffer : bool;
  sendKey : list Z;
  sendState : CTRState;
  receiveKey : list Z;
  receiveState : CTRState;
  protocol : Protocol.protocol;
  protocolDcId : Z;
  checkNonce : list Z;
  receivedQueue : list (list Z);
  events : list event;
}.

Definition set_buffers (off rd lft : Z) (small large : list Z) (ul : bool) (c : tcp) : tcp :=
  mk_tcp (status c) (socket c) (connectionStarted c) off rd lft small large ul
    (sendKey c) (sendState c) (receiveKey c) (receiveState c) (protocol c) (protocolDcId c)
    (checkNonce c) (receivedQueue c) (events c).

Definition set_status (s : Status) (sock : bool) (c : tcp) : tcp :=
  mk_tcp s sock (connectionStarted c) (offsetBytes c) (readBytes c) (leftBytes c)
    (smallBuffer c) (largeBuffer c) (usingLargeBuffer c) (sendKey c) (sendState c)
    (receiveKey c) (receiveState c) (protocol c) (protocolDcId c) (checkNonce c)
    (receivedQueue c) (events c).

Definition set_queue (q : list (list Z)) (es : list event) (c : tcp) : tcp :=
  mk_tcp (status c) (socket c) (connectionStarted c) (offsetBytes c) (readBytes c) (leftBytes c)
    (smallBuffer c) (largeBuffer c) (usingLargeBuffer c) (sendKey c) (sendState c)
    (receiveKey c) (receiveState c) (protocol c) (protocolDcId c) (checkNonce c) q es.

Definition set_crypt (started : bool) (sk : list Z) (ss : CTRState) (rk : list Z) (rs : CTRState)
    (c : tcp) : tcp :=
  mk_tcp (status c) (socket c) started (offsetBytes c) (readBytes c) (leftBytes c)
    (smallBuffer c) (largeBuffer c) (usingLargeBuffer c) sk ss rk rs (protocol c) (protocolDcId c)
    (checkNonce c) (receivedQueue c) (events c).

Definition disconnectFromServer (c : tcp) : tcp :=
  match status c with Finished => c | _ => set_status Finished false c end.

(** A signal to the owner, and its reaction. *)
Definition tell (e : event) (c : tcp) : tcp :=
  let c := set_queue (receivedQueue c) (events c ++ [e]) c in
  if keeps e then c else disconnectFromServer c.

Definition socketDisconnected (c : tcp) : tcp :=
  match status c with Finished => c | _ => tell Disconnected c end.

Definition socketError (c : tcp) : tcp :=
  if socket c then tell (Error kErrorCodeOther) c else c.

Definition isConnected (c : tcp) : bool :=
  match status c with Ready => true | _ => false end.

(** [mtpBuffer(1, ints[0])] for a short packet. *)
Definition parsePacket (p : Protocol.protocol) (bytes : list Z) : option (list Z) :=
  packet <-? Protocol.readPacket p bytes ;
  match ints_of_bytes packet with
  | [] => None
  | [a] | [a; _] => Some [a]
  | ints => Some ints
  end.

Definition socketPacket (bytes : list Z) (c : tcp) : option tcp :=
  data <-? parsePacket (protocol c) bytes ;
  match data with
  | [code] => Some (if negb (code =? 0) then tell (Error code) c else c)
  | _ =>
      Some (match status c with
      | Ready => tell ReceivedData (set_queue (receivedQueue c ++ [data]) (events c) c)
      | Waiting =>
          match fakeReplyNonce data with
          | Some nonce =>
              if bool_decide (nonce = checkNonce c)
              then tell Connected (set_status Ready (socket c) c)
              else tell (Error kErrorCodeOther) c
          | None => tell (Error kErrorCodeOther) c
          end
      | Finished => c
      end)
  end.

Definition ensureAvailableInBuffer (amount : Z) (c : tcp) : option tcp :=
  let buffer := if usingLargeBuffer c then largeBuffer c else smallBuffer c in
  let fullSize := Z.of_nat (length buffer) - offsetBytes c in
  if amount <=? fullSize then Some c
  else
    read <-? subspan buffer (offsetBytes c) (readBytes c) ;
    if amount <=? Z.of_nat (length (smallBuffer c)) then
      if usingLargeBuffer c then
        Some (set_buffers 0 (readBytes c) (leftBytes c) (write_at (smallBuffer c) 0 read) [] false c)
      else
        Some (set_buffers 0 (readBytes c) (leftBytes c) (write_at (smallBuffer c) 0 read)
                (largeBuffer c) false c)
    else if amount <=? Z.of_nat (length (largeBuffer c)) then
      if usingLargeBuffer c then
        Some (set_buffers 0 (readBytes c) (leftBytes c) (smallBuffer c)
                (write_at (largeBuffer c) 0 read) true c)
      else None
    else
      let enough := write_at (replicate (Z.to_nat amount) 0) 0 read in
      Some (set_buffers 0 (readBytes c) (leftBytes c) (smallBuffer c) enough true c).

(** The [while] loop over the packets in the small buffer. [available] is a
    span: a position in the buffer and a size. It is not moved when
    [ensureAvailableInBuffer] moves the bytes. The result tells whether
    [socketRead] goes on. *)
Fixpoint packetLoop (fuel : nat) (availableAt availableSize : Z) (c : tcp) : option (tcp * bool) :=
  match fuel with
  | O => None
  | S fuel =>
      if 0 <? readBytes c then
        available <-? subspan (smallBuffer c) availableAt availableSize ;
        let packetSize := Protocol.readPacketLength (protocol c) available in
        if packetSize =? Protocol.kUnknownSize then Some (c, true)
        else if packetSize <=? 0 then Some (tell (Error kErrorCodeOther) c, false)
        else if packetSize <=? availableSize then
          packet <-? subspan available 0 packetSize ;
          c <-? socketPacket packet c ;
          if negb (socket c) then Some (c, false)
          else
            let c := set_buffers (offsetBytes c + packetSize) (readBytes c - packetSize)
              (leftBytes c) (smallBuffer c) (largeBuffer c) (usingLargeBuffer c) c in
            c <-? ensureAvailableInBuffer kMinPacketBuffer c ;
            packetLoop fuel (availableAt + packetSize) (availableSize - packetSize) c
        else
          let c := set_buffers (offsetBytes c) (readBytes c) (packetSize - availableSize)
            (smallBuffer c) (largeBuffer c) (usingLargeBuffer c) c in
          c <-? ensureAvailableInBuffer packetSize c ;
          let c := tell ReceivedSome c in
          Some (c, true)
      else Some (c, true)
  end.

(** How many bytes a [read] of the socket may return. *)
Definition readLimit (c : tcp) : Z :=
  if 0 <? leftBytes c then leftBytes c
  else kSmallBufferSize - offsetBytes c - readBytes c.

(** One iteration of the loop of [socketRead] whose [read] returned [chunk]. *)
Definition readIteration (chunk : list Z) (c : tcp) : option (tcp * bool) :=
  let limit := readLimit c in
  let readCount := Z.of_nat (length chunk) in
  let buffer := if usingLargeBuffer c then largeBuffer c else smallBuffer c in
  if (0 <? limit) && (readCount <=? limit)
     && (offsetBytes c + readBytes c + limit <=? Z.of_nat (length buffer)) then
    let '(plain, rs) := aesCtrEncrypt chunk (receiveKey c) (receiveState c) in
    let buffer := write_at buffer (Z.to_nat (offsetBytes c + readBytes c)) plain in
    let c := set_crypt (connectionStarted c) (sendKey c) (sendState c) (receiveKey c) rs c in
    let rd := readBytes c + readCount in
    let c := set_buffers (offsetBytes c) rd (leftBytes c)
      (if usingLargeBuffer c then smallBuffer c else buffer)
      (if usingLargeBuffer c then buffer else largeBuffer c) (usingLargeBuffer c) c in
    if 0 <? leftBytes c then
      let lft := leftBytes c - readCount in
      let c := set_buffers (offsetBytes c) rd lft (smallBuffer c) (largeBuffer c)
        (usingLargeBuffer c) c in
      if lft =? 0 then
        packet <-? subspan buffer (offsetBytes c) rd ;
        c <-? socketPacket packet c ;
        if negb (socket c) then Some (c, false)
        else Some (set_buffers 0 0 (leftBytes c) (smallBuffer c) [] false c, true)
      else Some (tell ReceivedSome c, true)
    else packetLoop (S (Z.to_nat rd)) (offsetBytes c) rd c
  else None.

(** [socketRead] over what the socket holds: [sizes] says how many bytes each
    [read] finds. The small buffer is allocated on the first call. *)
Fixpoint readLoop (sizes : list nat) (pending : list Z) (c : tcp) : option (tcp * list Z) :=
  match sizes with
  | [] => Some (c, pending)
  | n :: sizes =>
      if bool_decide (pending = []) then Some (c, pending)
      else
        let m := Nat.min n (Z.to_nat (readLimit c)) in
        if bool_decide (m = 0%nat) then Some (c, pending) else
        r <-? readIteration (take m pending) c ;
        let '(c, again) := r in
        if (again : bool) && socket c then readLoop sizes (drop m pending) c
        else Some (c, drop m pending)
  end.

Definition socketRead (sizes : list nat) (pending : list Z) (c : tcp) : option (tcp * list Z) :=
  if (0 <? leftBytes c) || negb (usingLargeBuffer c) then
    if negb (socket c) then Some (tell (Error kErrorCodeOther) c, pending)
    else
      let c := match smallBuffer c with
               | [] => set_buffers (offsetBytes c) (readBytes c) (leftBytes c)
                         (replicate (Z.to_nat kSmallBufferSize) 0) (largeBuffer c)
                         (usingLargeBuffer c) c
               | _ => c
               end in
      readLoop sizes pending c
  else None.

(** *** Sending *)

(** [nonce] is the random part that passed [isGoodStartNonce]. *)
Definition prepareConnectionStartPrefix (nonce : list Z) (c : tcp) : list Z * tcp :=
  if connectionStarted c then ([], c)
  else
    let part := fun from n => take n (drop from nonce) in
    let sk := Protocol.prepareKey sha256 (protocol c) (part 8%nat 32%nat) in
    let ss := mk_ctr (part 40%nat 16%nat) (num (sendState c)) in
    let reversed := List.rev (part 8%nat 48%nat) in
    let rk := Protocol.prepareKey sha256 (protocol c) (take 32 reversed) in
    let rs := mk_ctr (take 16 (drop 32 reversed)) (num (receiveState c)) in
    let withIds := take 56 nonce ++ le32 (Protocol.id (protocol c))
      ++ [wrapu 8 (protocolDcId c); wrapu 8 (Z.shiftr (protocolDcId c) 8)] ++ drop 62 nonce in
    let '(encrypted, ss') := aesCtrEncrypt withIds sk ss in
    (take 56 withIds ++ drop 56 encrypted, set_crypt true sk ss' rk rs c).

(** The bytes written to the socket: the prefix and the encrypted packet. *)
Definition sendData (nonce : list Z) (random : Z) (randoms : list Z) (buffer : list Z) (c : tcp) :
    option (list Z * list Z * tcp) :=
  if negb (2 <? Z.of_nat (length buffer)) then None
  else if negb (socket c) then Some ([], [], c)
  else
    let '(prefix, c) := prepareConnectionStartPrefix nonce c in
    bytes <-? Protocol.finalizePacket (protocol c) random randoms buffer ;
    let '(encrypted, ss) := aesCtrEncrypt bytes (sendKey c) (sendState c) in
    Some (prefix, encrypted,
      set_crypt (connectionStarted c) (sendKey c) ss (receiveKey c) (receiveState c) c).

(** ** Spans *)

Lemma subspan_inv (l w : list Z) (o n : Z) :
  subspan l o n = Some w ->
  exists h t, l = h ++ w ++ t /\ o = Z.of_nat (length h) /\ n = Z.of_nat (length w).
Proof.
  unfold subspan. destruct (_ && _) eqn:E; [|done]. intros [= <-]. bool_to_prop.
  exists (take (Z.to_nat o) l), (drop (Z.to_nat n) (drop (Z.to_nat o) l)).
  rewrite !take_drop, !length_take, length_drop. split_and!; [done|lia|lia].
Qed.

Lemma write_at_app (h x t data : list Z) (o : nat) :
  o = length h -> length data = length x -> write_at (h ++ x ++ t) o data = h ++ data ++ t.
Proof.
  intros -> Hl. unfold write_at. rewrite take_app_length, Hl. f_equal. f_equal.
  rewrite app_assoc, drop_app_le by (rewrite length_app; lia).
  by rewrite drop_ge by (rewrite length_app; lia).
Qed.

Lemma app_split {A} (l1 l2 k1 k2 : list A) :
  l1 ++ l2 = k1 ++ k2 -> (length l1 <= length k1)%nat -> exists x, k1 = l1 ++ x /\ l2 = x ++ k2.
Proof.
  revert k1. induction l1 as [|a l1 IH]; intros k1 E Hl; simpl in *; [by exists k1|].
  destruct k1 as [|b k1]; simpl in *; [lia|]. injection E as -> E.
  destruct (IH k1 E ltac:(lia)) as (x & -> & ->). by exists x.
Qed.

(** ** Receiving *)

Hypothesis keeps_data : keeps ReceivedData = true.
Hypothesis keeps_some : keeps ReceivedSome = true.

Definition buffer_of (c : tcp) : list Z := if usingLargeBuffer c then largeBuffer c else smallBuffer c.

(** A frame and the integers it carries. *)
Definition carries (p : Protocol.protocol) (fd : list Z * list Z) : Prop :=
  is_frame (Protocol.readPacketLength p) fd.1 /\ parsePacket p fd.1 = Some fd.2
  /\ (3 <= length fd.2)%nat.

(** A connection that works: [p] is its protocol. *)
Record alive (p : Protocol.protocol) (c : tcp) : Prop := {
  al_status : status c = Ready;
  al_socket : socket c = true;
  al_protocol : protocol c = p;
  al_small : Z.of_nat (length (smallBuffer c)) = kSmallBufferSize;
  al_large : usingLargeBuffer c = false -> largeBuffer c = [];
}.

(** Between two reads: the bytes [W] in the window of the buffer and the bytes
    still to come are the frames not delivered yet. Either no packet was
    started, and not even its length is known, or the rest of the first frame
    is awaited and has room in the buffer. *)
Record receiving (p : Protocol.protocol) (fs : list (list Z * list Z)) (future W : list Z) (c : tcp) :
    Prop := {
  rc_alive : alive p c;
  rc_window : subspan (buffer_of c) (offsetBytes c) (readBytes c) = Some W;
  rc_stream : concat fs.*1 = W ++ future;
  rc_wait :
    (leftBytes c = 0 /\ usingLargeBuffer c = false
     /\ offsetBytes c + kMinPacketBuffer <= kSmallBufferSize
     /\ (W = [] \/ Protocol.readPacketLength p W = Protocol.kUnknownSize))
    \/ (0 < leftBytes c /\ exists fd fs', fs = fd :: fs'
        /\ readBytes c + leftBytes c = Z.of_nat (length fd.1)
        /\ offsetBytes c + Z.of_nat (length fd.1) <= Z.of_nat (length (buffer_of c)));
}.

Definition same_but_buffers (c c' : tcp) : Prop :=
  c' = set_buffers (offsetBytes c') (readBytes c') (leftBytes c') (smallBuffer c') (largeBuffer c')
         (usingLargeBuffer c') c.

(** What a delivery leaves alone. *)
Definition same_crypt (c c' : tcp) : Prop :=
  receiveKey c' = receiveKey c /\ receiveState c' = receiveState c.

Lemma socketPacket_delivers (p : Protocol.protocol) (fd : list Z * list Z) (c : tcp) :
  alive p c -> carries p fd ->
  socketPacket fd.1 c = Some (set_queue (receivedQueue c ++ [fd.2]) (events c ++ [ReceivedData]) c).
Proof.
  intros [H1 _ H3 _ _] (_ & Hp & Hl). unfold socketPacket. rewrite H3, Hp.
  destruct (fd.2) as [|a [|b [|d l]]]; simpl in Hl; try lia. rewrite H1. unfold tell. by rewrite keeps_data.
Qed.

Lemma ensure_available (amount : Z) (c : tcp) (W : list Z) (p : Protocol.protocol) :
  alive p c -> usingLargeBuffer c = false -> 0 < amount ->
  subspan (smallBuffer c) (offsetBytes c) (readBytes c) = Some W ->
  exists c', ensureAvailableInBuffer amount c = Some c' /\ alive p c'
    /\ same_but_buffers c c' /\ readBytes c' = readBytes c /\ leftBytes c' = leftBytes c
    /\ subspan (buffer_of c') (offsetBytes c') (readBytes c') = Some W
    /\ offsetBytes c' + amount <= Z.of_nat (length (buffer_of c'))
    /\ (amount <= kSmallBufferSize ->
        usingLargeBuffer c' = false /\ offsetBytes c' <= offsetBytes c
        /\ forall a n w, amount <= kMinPacketBuffer -> offsetBytes c <= a -> n = readBytes c ->
           subspan (smallBuffer c) a n = Some w -> subspan (smallBuffer c') a n = Some w).
Proof.
  intros Hal Hul Hpos Hw. pose proof Hal as [H1 H2 H3 H4 H5]. specialize (H5 Hul).
  destruct (subspan_inv _ _ _ _ Hw) as (h & t & Es & Eo & Er).
  unfold ensureAvailableInBuffer, buffer_of. rewrite Hul, Hw.
  destruct (Z.leb_spec amount (Z.of_nat (length (smallBuffer c)) - offsetBytes c)) as [Hle|Hgt].
  { exists c. split_and!; [done|done|by destruct c|done|done|by rewrite Hul|rewrite Hul; lia|].
    intros _. split_and!; [done|lia|done]. }
  assert (length (smallBuffer c) = length h + length W + length t)%nat as Hls
    by (rewrite Es, !length_app; lia).
  destruct (Z.leb_spec amount (Z.of_nat (length (smallBuffer c)))) as [Hsm|Hbig].
  - exists (set_buffers 0 (readBytes c) (leftBytes c) (write_at (smallBuffer c) 0 W) (largeBuffer c) false c).
    assert (write_at (smallBuffer c) 0 W = W ++ drop (length W) (smallBuffer c)) as Ew by done.
    assert (length (write_at (smallBuffer c) 0 W) = length (smallBuffer c)) as El
      by (rewrite Ew, length_app, length_drop; lia).
    split_and!; try done; cbn [buffer_of usingLargeBuffer offsetBytes readBytes set_buffers smallBuffer].
    + constructor; simpl; try done. by rewrite El.
    + rewrite Ew. apply subspan_all. lia.
    + rewrite El. lia.
    + intros _. split_and!; [done|lia|]. intros a n w Ham Ha En Hsub.
      destruct (subspan_inv _ _ _ _ Hsub) as (h' & t' & Es' & Ea & Ewn).
      unfold kMinPacketBuffer, kSmallBufferSize in *.
      rewrite Ew. replace (drop (length W) (smallBuffer c)) with (drop (length W) h' ++ w ++ t').
      2:{ rewrite Es' at 1. rewrite drop_app_le by lia. done. }
      rewrite app_assoc. apply (subspan_skip (W ++ drop (length W) h') w t' a n); [|done].
      rewrite length_app, length_drop. lia.
  - rewrite H5. simpl length. replace (amount <=? Z.of_nat 0) with false by (symmetry; apply Z.leb_gt; lia).
    eexists. split; [done|]. set (enough := write_at (replicate (Z.to_nat amount) 0) 0 W).
    assert (enough = W ++ drop (length W) (replicate (Z.to_nat amount) 0)) as Ew by done.
    assert (Z.of_nat (length enough) = amount) as El
      by (rewrite Ew, length_app, length_drop, length_replicate; lia).
    split_and!; try done; cbn [buffer_of usingLargeBuffer offsetBytes readBytes set_buffers largeBuffer].
    + rewrite Ew. apply subspan_all. lia.
    + lia.
    + lia.
Qed.

Lemma same_but_buffers_facts (c c' : tcp) :
  same_but_buffers c c' ->
  status c' = status c /\ socket c' = socket c /\ protocol c' = protocol c
  /\ receivedQueue c' = receivedQueue c /\ same_crypt c c'.
Proof. unfold same_but_buffers, same_crypt. intros ->. simpl. by split_and!. Qed.

Lemma packet_loop (p : Protocol.protocol) (fuel : nat) (c : tcp) (W future : list Z)
    (availableAt : Z) (fs : list (list Z * list Z)) :
  alive p c -> usingLargeBuffer c = false -> leftBytes c = 0 ->
  offsetBytes c + kMinPacketBuffer <= kSmallBufferSize ->
  subspan (smallBuffer c) (offsetBytes c) (readBytes c) = Some W ->
  subspan (smallBuffer c) availableAt (readBytes c) = Some W -> offsetBytes c <= availableAt ->
  Forall (carries p) fs -> concat fs.*1 = W ++ future -> (length W < fuel)%nat ->
  exists c' done_ fs' W', packetLoop fuel availableAt (readBytes c) c = Some (c', true)
    /\ fs = done_ ++ fs' /\ receiving p fs' future W' c'
    /\ receivedQueue c' = receivedQueue c ++ done_.*2 /\ same_crypt c c'.
Proof.
  revert c W availableAt fs. induction fuel as [|fuel IH]; [lia|].
  intros c W a fs Hal Hul Hleft Hoff Hw Ha Hge Hfs Hst Hfuel.
  pose proof (subspan_inv _ _ _ _ Hw) as (h & t & Es & Eo & Er).
  assert (forall (HW : W = [] \/ Protocol.readPacketLength p W = Protocol.kUnknownSize),
    exists c' done_ fs' W', Some (c, true) = Some (c', true) /\ fs = done_ ++ fs'
      /\ receiving p fs' future W' c' /\ receivedQueue c' = receivedQueue c ++ done_.*2
      /\ same_crypt c c') as Hstop.
  { intros HW. exists c, [], fs, W. split_and!; [done|done| |by rewrite app_nil_r|done].
    constructor; [done|unfold buffer_of; by rewrite Hul|done|]. left. by split_and!. }
  cbn [packetLoop]. destruct (Z.ltb_spec 0 (readBytes c)) as [Hpos|Hnp].
  2:{ apply Hstop. left. destruct W; [done|]. simpl in Er. lia. }
  rewrite Ha, (al_protocol _ _ Hal).
  destruct fs as [|fd fs]; [simpl in Hst; by destruct W; simpl in *; [lia|]|].
  inversion Hfs as [|? ? Hfd Hfs']; subst. rewrite fmap_cons in Hst. cbn [concat] in Hst.
  pose proof Hfd as [Hfr _].
  destruct (decide (length fd.1 <= length W)%nat) as [Hle|Hgt].
  - destruct (app_split _ _ _ _ Hst Hle) as (W' & EW & Hst').
    pose proof (frame_app fd.1 W' Hfr) as Hlen. rewrite <- EW in Hlen. rewrite Hlen.
    assert (0 < Z.of_nat (length fd.1)) as Hfpos.
    { destruct Hfr as [Hne _]. destruct (fd.1); simpl; [done|lia]. }
    replace (Z.of_nat (length fd.1) =? Protocol.kUnknownSize) with false
      by (symmetry; apply Z.eqb_neq; unfold Protocol.kUnknownSize; lia).
    replace (Z.of_nat (length fd.1) <=? 0) with false by (symmetry; apply Z.leb_gt; lia).
    replace (Z.of_nat (length fd.1) <=? readBytes c) with true by (symmetry; apply Z.leb_le; lia).
    assert (subspan W 0 (Z.of_nat (length fd.1)) = Some fd.1) as -> by (rewrite EW; by apply subspan_all).
    rewrite (socketPacket_delivers p fd c Hal Hfd).
    cbn [socket set_queue]. rewrite (al_socket _ _ Hal). cbn [negb].
    set (c1 := set_buffers _ _ _ _ _ _ _).
    assert (alive p c1) as Hal1 by (destruct Hal; by constructor).
    assert (subspan (smallBuffer c1) (offsetBytes c1) (readBytes c1) = Some W') as Hw1.
    { cbn. rewrite Es, EW. rewrite <- app_assoc, (app_assoc h).
      apply (subspan_skip (h ++ fd.1) W' t); [rewrite length_app; lia|rewrite Er, EW, length_app; lia]. }
    assert (subspan (smallBuffer c1) (a + Z.of_nat (length fd.1)) (readBytes c1) = Some W') as Ha1.
    { cbn. pose proof (subspan_inv _ _ _ _ Ha) as (h2 & t2 & Es2 & Eo2 & Er2).
      rewrite Es2, EW. rewrite <- app_assoc, (app_assoc h2).
      apply (subspan_skip (h2 ++ fd.1) W' t2); [rewrite length_app; lia|rewrite Er2, EW, length_app; lia]. }
    destruct (ensure_available kMinPacketBuffer c1 W' p Hal1 Hul ltac:(done) Hw1)
      as (c2 & -> & Hal2 & Hsame & Erd & Elf & Hw2 & Hroom & Hsm).
    destruct (Hsm ltac:(by vm_compute)) as (Hul2 & Hoff2 & Hav).
    apply same_but_buffers_facts in Hsame as (_ & _ & _ & Eq & Ecr).
    unfold buffer_of in Hw2, Hroom. rewrite Hul2 in Hw2, Hroom.
    assert (readBytes c - Z.of_nat (length fd.1) = readBytes c2) as -> by (by rewrite Erd).
    destruct (IH c2 W' (a + Z.of_nat (length fd.1)) fs) as (c' & dn & fs2 & W2 & E & -> & Hrc & Eq2 & Ecr2).
    + done.
    + done.
    + by rewrite Elf.
    + pose proof (al_small _ _ Hal2). lia.
    + done.
    + rewrite Erd. apply Hav; [done| |done|exact Ha1]. cbn in *. lia.
    + cbn in *. lia.
    + done.
    + done.
    + rewrite EW, length_app in Hfuel. lia.
    + exists c', (fd :: dn), fs2, W2. split_and!; [exact E|done|done| |].
      * rewrite Eq2, Eq. cbn. by rewrite <- app_assoc.
      * destruct Ecr as [K1 K2], Ecr2 as [K3 K4]. split; [by rewrite K3, K1|by rewrite K4, K2].
  - assert (exists x, fd.1 = W ++ x /\ future = x ++ concat fs.*1) as (x & EW & Hfut).
    { destruct (app_split W future fd.1 (concat fs.*1)) as (x & E1 & E2); [done|lia|by exists x]. }
    destruct (frame_prefix fd.1 W x Hfr EW) as [Hu|Hlen].
    { rewrite Hu, Z.eqb_refl. apply Hstop. by right. }
    rewrite Hlen.
    replace (Z.of_nat (length fd.1) =? Protocol.kUnknownSize) with false
      by (symmetry; apply Z.eqb_neq; unfold Protocol.kUnknownSize; lia).
    replace (Z.of_nat (length fd.1) <=? 0) with false by (symmetry; apply Z.leb_gt; lia).
    replace (Z.of_nat (length fd.1) <=? readBytes c) with false by (symmetry; apply Z.leb_gt; lia).
    set (c1 := set_buffers _ _ _ _ _ _ _).
    assert (alive p c1) as Hal1 by (destruct Hal; by constructor).
    destruct (ensure_available (Z.of_nat (length fd.1)) c1 W p Hal1 Hul ltac:(lia) Hw)
      as (c2 & -> & Hal2 & Hsame & Erd & Elf & Hw2 & Hroom & _).
    apply same_but_buffers_facts in Hsame as (_ & _ & _ & Eq & Ecr).
    unfold tell. rewrite keeps_some.
    exists (set_queue (receivedQueue c2) (events c2 ++ [ReceivedSome]) c2), [], (fd :: fs), W.
    split_and!; [done|done| |cbn; by rewrite app_nil_r|done].
    constructor; [by destruct Hal2|done|done|].
    right. cbn [leftBytes readBytes set_queue]. rewrite Elf, Erd. cbn [leftBytes readBytes set_buffers c1].
    split; [lia|]. exists fd, fs. split_and!; [done|lia|done].
Qed.

(** Writing into the buffer in use keeps the connection in shape. *)
Lemma alive_written (p : Protocol.protocol) (c : tcp) (B : list Z) (off rd lft : Z) (st : bool)
    (sk rk : list Z) (ss rs : CTRState) :
  alive p c -> length B = length (buffer_of c) ->
  alive p (set_buffers off rd lft (if usingLargeBuffer c then smallBuffer c else B)
    (if usingLargeBuffer c then B else largeBuffer c) (usingLargeBuffer c)
    (set_crypt st sk ss rk rs c)).
Proof.
  intros [A1 A2 A3 A4 A5] HB. unfold buffer_of in HB. constructor; cbn; [done|done|done| |].
  - destruct (usingLargeBuffer c); [done|by rewrite HB].
  - intros E. rewrite E in *. auto.
Qed.

Lemma read_iteration (p : Protocol.protocol) (c : tcp) (W future chunk : list Z)
    (fs : list (list Z * list Z)) :
  Forall (carries p) fs -> receiving p fs (((aesCtrEncrypt chunk (receiveKey c) (receiveState c)).1) ++ future) W c ->
  chunk <> [] -> Z.of_nat (length chunk) <= readLimit c ->
  exists c' done_ fs' W', readIteration chunk c = Some (c', true)
    /\ fs = done_ ++ fs' /\ receiving p fs' future W' c'
    /\ receivedQueue c' = receivedQueue c ++ done_.*2
    /\ receiveKey c' = receiveKey c
    /\ receiveState c' = (aesCtrEncrypt chunk (receiveKey c) (receiveState c)).2.
Proof.
  intros Hfs [Hal Hw Hst Hwait] Hne Hlim. unfold readIteration.
  assert (length (aesCtrEncrypt chunk (receiveKey c) (receiveState c)).1 = length chunk) as Hlp
    by (apply length_imap).
  destruct (aesCtrEncrypt chunk (receiveKey c) (receiveState c)) as [plain rs]. cbn [fst snd] in *.
  assert (0 < Z.of_nat (length chunk)) as Hcpos by (destruct chunk; simpl; [done|lia]).
  destruct (subspan_inv _ _ _ _ Hw) as (h & t & Es & Eo & Er).
  assert (offsetBytes c + readBytes c + readLimit c <= Z.of_nat (length (buffer_of c))) as Hroom.
  { unfold readLimit. destruct Hwait as [(E1 & E2 & H3 & H4)|(H1 & fd & fs' & -> & H3 & H4)].
    - rewrite E1. simpl. unfold buffer_of. rewrite E2, (al_small _ _ Hal). lia.
    - replace (0 <? leftBytes c) with true by (symmetry; by apply Z.ltb_lt). lia. }
  replace ((0 <? readLimit c) && (Z.of_nat (length chunk) <=? readLimit c) && _) with true.
  2:{ symmetry. unfold buffer_of in Hroom. rewrite !andb_true_iff, Z.ltb_lt, !Z.leb_le. lia. }
  fold (buffer_of c).
  assert (exists t1 t2, t = t1 ++ t2 /\ length t1 = length plain) as (t1 & t2 & -> & Ht1).
  { exists (take (length plain) t), (drop (length plain) t). rewrite take_drop, length_take.
    split; [done|]. apply (f_equal length) in Es. rewrite !length_app in Es. lia. }
  assert (write_at (buffer_of c) (Z.to_nat (offsetBytes c + readBytes c)) plain
    = h ++ (W ++ plain) ++ t2) as ->.
  { rewrite Es, (app_assoc h W), write_at_app by (rewrite ?length_app; lia). by rewrite <- !app_assoc. }
  assert (subspan (h ++ (W ++ plain) ++ t2) (offsetBytes c) (readBytes c + Z.of_nat (length chunk))
    = Some (W ++ plain)) as Hw'.
  { apply subspan_skip; [done|]. rewrite length_app. lia. }
  assert (length (h ++ (W ++ plain) ++ t2) = length (buffer_of c)) as Hlb
    by (rewrite Es, !length_app; lia).
  cbn [leftBytes set_buffers set_crypt offsetBytes readBytes usingLargeBuffer smallBuffer largeBuffer].
  destruct Hwait as [(E1 & E2 & H3 & H4)|(H1 & fd & fs' & Efs & H3 & H4)].
  - rewrite E1, E2. cbn [Z.ltb Z.compare].
    set (c1 := set_buffers _ _ _ _ _ _ _).
    assert (alive p c1) as Hal1.
    { pose proof (alive_written p c _ (offsetBytes c) (readBytes c + Z.of_nat (length chunk)) 0
        (connectionStarted c) (sendKey c) (receiveKey c) (sendState c) rs Hal Hlb) as H. by rewrite E2 in H. }
    destruct (packet_loop p (S (Z.to_nat (readBytes c1))) c1 (W ++ plain) future (offsetBytes c) fs)
      as (c' & dn & fs' & W' & E & Hd & Hrc & Eq & [Ek Est]); try done.
    + by rewrite <- app_assoc.
    + cbn. rewrite length_app. lia.
    + exists c', dn, fs', W'. split_and!; [exact E|done|done|exact Eq|exact Ek|exact Est].
  - replace (0 <? leftBytes c) with true by (symmetry; by apply Z.ltb_lt).
    subst fs. apply Forall_cons in Hfs as [Hfd _].
    rewrite fmap_cons in Hst. cbn [concat] in Hst.
    assert (readLimit c = leftBytes c) as EL
      by (unfold readLimit; by replace (0 <? leftBytes c) with true by (symmetry; by apply Z.ltb_lt)).
    destruct (Z.eqb_spec (leftBytes c - Z.of_nat (length chunk)) 0) as [E0|Hn0].
    + assert (fd.1 = W ++ plain /\ concat fs'.*1 = future) as [Ef Efut].
      { destruct (app_split (W ++ plain) future fd.1 (concat fs'.*1)) as (y & Ey1 & Ey2).
        - by rewrite Hst, <- app_assoc.
        - rewrite length_app. lia.
        - assert (length y = 0%nat) as Hy by (apply (f_equal length) in Ey1; rewrite !length_app in Ey1; lia).
          apply length_zero_iff_nil in Hy as ->. rewrite app_nil_r in Ey1. done. }
      rewrite Hw'. set (c1 := set_buffers _ _ _ _ _ _ _).
      pose proof (alive_written p c _ (offsetBytes c) (readBytes c + Z.of_nat (length chunk))
        (leftBytes c - Z.of_nat (length chunk)) (connectionStarted c) (sendKey c) (receiveKey c)
        (sendState c) rs Hal Hlb : alive p c1) as Hal1.
      rewrite <- Ef, (socketPacket_delivers p fd c1 Hal1 Hfd). cbn [socket set_queue].
      rewrite (al_socket _ _ Hal1). cbn [negb].
      eexists _, [fd], fs', []. split_and!; [done|done| |done|done|done].
      constructor; cbn.
      * destruct Hal1 as [A1 A2 A3 A4 A5]. constructor; cbn in *; done.
      * unfold subspan. simpl. by replace (0 <=? Z.of_nat _) with true by (symmetry; apply Z.leb_le; lia).
      * done.
      * left. split_and!; [lia|done|by vm_compute|by left].
    + unfold tell. rewrite keeps_some. eexists _, [], (fd :: fs'), (W ++ plain).
      split_and!; [done|done| |cbn; by rewrite app_nil_r|done|done].
      unfold buffer_of in *. constructor; unfold buffer_of; cbn.
      * pose proof (alive_written p c _ (offsetBytes c) (readBytes c + Z.of_nat (length chunk))
          (leftBytes c - Z.of_nat (length chunk)) (connectionStarted c) (sendKey c) (receiveKey c)
          (sendState c) rs Hal Hlb) as [A1 A2 A3 A4 A5]. by constructor.
      * by destruct (usingLargeBuffer c).
      * by rewrite Hst, <- app_assoc.
      * right. split; [lia|]. exists fd, fs'. split_and!; [done|lia|].
        destruct (usingLargeBuffer c); by rewrite Hlb.
Qed.

(** *** The stream cipher *)

Lemma aesCtrEncrypt_length (data key : list Z) (st : CTRState) :
  length (aesCtrEncrypt data key st).1 = length data.
Proof. apply length_imap. Qed.

(** Encrypting in pieces is encrypting at once. *)
Lemma aesCtrEncrypt_app (a b key : list Z) (st : CTRState) :
  aesCtrEncrypt (a ++ b) key st
  = ((aesCtrEncrypt a key st).1 ++ (aesCtrEncrypt b key (aesCtrEncrypt a key st).2).1,
     (aesCtrEncrypt b key (aesCtrEncrypt a key st).2).2).
Proof.
  unfold aesCtrEncrypt. cbn [fst snd ivec num]. rewrite imap_app, length_app. f_equal; [f_equal|].
  - apply imap_ext. intros i x _. simpl. do 2 f_equal. lia.
  - f_equal. lia.
Qed.

(** Encrypting twice from the same state gives the data back. *)
Lemma aesCtrEncrypt_involutive (data key : list Z) (st : CTRState) :
  aesCtrEncrypt (aesCtrEncrypt data key st).1 key st = (data, (aesCtrEncrypt data key st).2).
Proof.
  unfold aesCtrEncrypt. cbn [fst snd]. rewrite length_imap. f_equal.
  apply list_eq. intros i. rewrite !list_lookup_imap. destruct (data !! i); simpl; [|done].
  by rewrite Z.lxor_assoc, Z.lxor_nilpotent, Z.lxor_0_r.
Qed.

Lemma receiving_limit (p : Protocol.protocol) (fs : list (list Z * list Z)) (future W : list Z) (c : tcp) :
  receiving p fs future W c -> 0 < readLimit c.
Proof.
  intros [Hal Hw _ Hwait]. unfold readLimit.
  destruct (subspan_inv _ _ _ _ Hw) as (h & t & _ & _ & Er).
  destruct Hwait as [(E1 & _ & Hoff & HW)|(H1 & _)].
  - rewrite E1. simpl. assert (length W < 4)%nat; [|unfold kMinPacketBuffer in Hoff; lia].
    destruct HW as [->|Hu]; [simpl; lia|by apply framing_known in Hu].
  - by replace (0 <? leftBytes c) with true by (symmetry; by apply Z.ltb_lt).
Qed.

(** When nothing is to come, everything was delivered. *)
Lemma receiving_end (p : Protocol.protocol) (fs : list (list Z * list Z)) (W : list Z) (c : tcp) :
  Forall (carries p) fs -> receiving p fs [] W c -> fs = [].
Proof.
  intros Hfs [Hal Hw Hst Hwait]. destruct fs as [|fd fs]; [done|exfalso].
  apply Forall_cons in Hfs as [[Hfr _] _]. rewrite app_nil_r, fmap_cons in Hst. cbn [concat] in Hst.
  destruct (subspan_inv _ _ _ _ Hw) as (h & t & _ & _ & Er).
  destruct Hwait as [(_ & _ & _ & [->|Hu])|(H1 & fd' & fs' & [= <- _] & H3 & _)].
  - apply app_eq_nil in Hst as [E _]. by apply Hfr.
  - rewrite <- Hst, frame_app in Hu by done. unfold Protocol.kUnknownSize in Hu. lia.
  - apply (f_equal length) in Hst. rewrite length_app in Hst. lia.
Qed.

Lemma read_loop (p : Protocol.protocol) (sizes : list nat) (pending W : list Z) (c : tcp)
    (fs : list (list Z * list Z)) :
  Forall (carries p) fs -> Forall (fun n => 0 < n)%nat sizes -> (length pending <= length sizes)%nat ->
  receiving p fs (aesCtrEncrypt pending (receiveKey c) (receiveState c)).1 W c ->
  exists c', readLoop sizes pending c = Some (c', []) /\ receivedQueue c' = receivedQueue c ++ fs.*2.
Proof.
  revert pending W c fs. induction sizes as [|n sizes IH]; intros pending W c fs Hfs Hsz Hlen Hrc.
  - destruct pending; [|simpl in Hlen; lia]. exists c. split; [done|].
    rewrite (receiving_end p fs W c Hfs Hrc). by rewrite app_nil_r.
  - apply Forall_cons in Hsz as [Hn Hsz]. cbn [readLoop]. case_bool_decide as E.
    { subst pending. exists c. split; [done|].
      rewrite (receiving_end p fs W c Hfs Hrc). by rewrite app_nil_r. }
    pose proof (receiving_limit _ _ _ _ _ Hrc) as Hlim.
    set (m := Nat.min n (Z.to_nat (readLimit c))).
    rewrite bool_decide_false by lia.
    assert (take m pending <> []) as Hne by (destruct pending, m eqn:Em; simpl; done || lia).
    assert (aesCtrEncrypt pending (receiveKey c) (receiveState c)
      = aesCtrEncrypt (take m pending ++ drop m pending) (receiveKey c) (receiveState c)) as Ecut
      by (by rewrite take_drop).
    rewrite Ecut, aesCtrEncrypt_app in Hrc. cbn [fst] in Hrc.
    destruct (read_iteration p c W _ (take m pending) fs Hfs Hrc Hne)
      as (c1 & dn & fs' & W' & -> & -> & Hrc' & Eq & Ek & Est).
    { rewrite length_take. lia. }
    rewrite (al_socket _ _ (rc_alive _ _ _ _ _ Hrc')). cbn [andb].
    rewrite <- Est, <- Ek in Hrc'. apply Forall_app in Hfs as [_ Hfs].
    destruct (IH (drop m pending) W' c1 fs' Hfs Hsz) as (c' & -> & Eq2).
    + rewrite length_drop. destruct pending; [done|]. simpl in *. lia.
    + done.
    + exists c'. split; [done|]. rewrite Eq2, Eq, fmap_app. by rewrite <- app_assoc.
Qed.

(** *** The frames sent are frames received *)

Lemma short_ints (pad : list Z) : (length pad < 16)%nat -> (length (ints_of_bytes pad) <= 3)%nat.
Proof.
  intros H. do 4 (destruct pad as [|? [|? [|? [|? pad]]]]; simpl in *; try lia).
Qed.

Lemma parse_payload (p : Protocol.protocol) (f payload pad : list Z) :
  Protocol.readPacket p f = Some (bytes_of_ints payload ++ pad) ->
  Forall (fits_s 32) payload -> (3 <= length payload)%nat ->
  parsePacket p f = Some (payload ++ ints_of_bytes pad).
Proof.
  intros Hr Hfit Hlen. unfold parsePacket. rewrite Hr, ints_of_bytes_of_ints by done.
  destruct payload as [|a [|b [|d l]]]; simpl in *; try lia. done.
Qed.

Lemma finalize_carries (p : Protocol.protocol) (random : Z) (randoms : list Z) (b0 b1 : Z)
    (payload : list Z) :
  (3 <= length payload)%nat -> Z.of_nat (length payload) < 0xFFFFFB -> (4 <= length randoms)%nat ->
  Forall (fits_s 32) payload ->
  exists f pad, Protocol.finalizePacket p random randoms (b0 :: b1 :: payload) = Some f
    /\ carries p (f, payload ++ pad) /\ (length pad <= 3)%nat
    /\ (Protocol.supportsArbitraryLength p = false -> pad = []).
Proof.
  intros H3 Hlen Hrs Hfit. assert (payload <> []) as Hne by (by destruct payload; simpl in *; [lia|]).
  assert (exists f pad, Protocol.finalizePacket p random randoms (b0 :: b1 :: payload) = Some f
    /\ is_frame (Protocol.readPacketLength p) f
    /\ Protocol.readPacket p f = Some (bytes_of_ints payload ++ pad) /\ (length pad < 16)%nat
    /\ (Protocol.supportsArbitraryLength p = false -> pad = [])) as (f & pad & Ef & Hf & Hr & Hp & Hno).
  { destruct p as [|secret|secret].
    1,2: destruct (finalize0_frame b0 b1 payload Hne ltac:(lia)) as (f & Ef & Hf & Hr);
      exists f, []; rewrite app_nil_r; (split_and!; [done|done|exact Hr|simpl; lia|done]).
    destruct (finalizeD_frame random randoms b0 b1 payload secret Hne Hlen Hrs) as (f & pad & Ef & Hf & Hr & Hp).
    exists f, pad. split_and!; [done|done|done| |done].
    assert (Z.land random 0x0F < 16); [|lia]. change 0x0F with (Z.ones 4). rewrite Z.land_ones by lia.
    apply Z.mod_pos_bound. lia. }
  exists f, (ints_of_bytes pad). split_and!; [done| |by apply short_ints|intros E; by rewrite (Hno E)].
  split_and!; [done|by apply parse_payload|]. simpl. rewrite length_app. lia.
Qed.

(** ** Properties *)

(** C21. A connection delivers exactly what was sent, in order, however the
    bytes arrive: when the encrypted bytes of a sequence of packets come in
    pieces of any positive sizes, [socketRead] never fails, consumes them all,
    and adds to the received queue the integers of the packets and nothing
    else. *)
Theorem tcp_stream_delivered (p : Protocol.protocol) (c : tcp) (fs : list (list Z * list Z))
    (wire : list Z) (sizes : list nat) :
  status c = Ready -> socket c = true -> protocol c = p ->
  offsetBytes c = 0 -> readBytes c = 0 -> leftBytes c = 0 ->
  smallBuffer c = [] -> largeBuffer c = [] -> usingLargeBuffer c = false ->
  Forall (carries p) fs ->
  wire = (aesCtrEncrypt (concat fs.*1) (receiveKey c) (receiveState c)).1 ->
  Forall (fun n => 0 < n)%nat sizes -> (length wire <= length sizes)%nat ->
  exists c', socketRead sizes wire c = Some (c', []) /\ receivedQueue c' = receivedQueue c ++ fs.*2.
Proof.
  intros H1 H2 H3 H4 H5 H6 H7 H8 H9 Hfs -> Hsz Hlen. unfold socketRead.
  rewrite H6, H9, H2, H7. cbn [Z.ltb Z.compare negb orb].
  set (c1 := set_buffers _ _ _ _ _ _ _).
  change (receivedQueue c) with (receivedQueue c1).
  apply (read_loop p sizes _ [] c1 fs Hfs Hsz Hlen).
  change (receiveKey c1) with (receiveKey c). change (receiveState c1) with (receiveState c).
  rewrite aesCtrEncrypt_involutive. cbn [fst].
  assert (length (smallBuffer c1) = Z.to_nat kSmallBufferSize) as Hl by apply length_replicate.
  constructor.
  - constructor; [done|done|done| |done]. rewrite Hl. by vm_compute.
  - unfold buffer_of. change (usingLargeBuffer c1) with false.
    change (offsetBytes c1) with (offsetBytes c). change (readBytes c1) with (readBytes c). rewrite H4, H5.
    unfold subspan. by rewrite Hl.
  - done.
  - left. change (offsetBytes c1) with (offsetBytes c). rewrite H4.
    split_and!; [done|done|by vm_compute|by left].
Qed.

(** Every packet written is read back: for each of the three protocols the
    bytes [finalizePacket] writes announce their own length, also when more
    bytes follow, and parse to the integers sent, followed only for the padded
    protocol by up to three integers of padding. *)
Theorem tcp_packet_roundtrip (p : Protocol.protocol) (random : Z) (randoms : list Z) (b0 b1 : Z)
    (payload rest : list Z) :
  (3 <= length payload)%nat -> Z.of_nat (length payload) < 0xFFFFFB -> (4 <= length randoms)%nat ->
  Forall (fits_s 32) payload ->
  exists f pad, Protocol.finalizePacket p random randoms (b0 :: b1 :: payload) = Some f
    /\ Protocol.readPacketLength p (f ++ rest) = Z.of_nat (length f)
    /\ parsePacket p f = Some (payload ++ pad) /\ (length pad <= 3)%nat
    /\ (Protocol.supportsArbitraryLength p = false -> pad = []).
Proof.
  intros H1 H2 H3 H4.
  destruct (finalize_carries p random randoms b0 b1 payload H1 H2 H3 H4) as (f & pad & Ef & (Hf & Hp & _) & Hl & Hn).
  exists f, pad. split_and!; [done|by apply frame_app|done|done|done].
Qed.

(** The server can follow the obfuscation of a new connection: from the 64
    bytes of the prefix alone it derives the key and the vector of the client,
    decrypts the protocol and the data center, and is then in the state of the
    client; what the client sends next it decrypts to the packet. *)
Theorem start_prefix_understood (c : tcp) (nonce : list Z) :
  connectionStarted c = false -> num (sendState c) = 0%nat -> length nonce = 64%nat ->
  let '(prefix, c') := prepareConnectionStartPrefix nonce c in
  let key := Protocol.prepareKey sha256 (protocol c) (take 32 (drop 8 prefix)) in
  let server := aesCtrEncrypt prefix key (mk_ctr (take 16 (drop 40 prefix)) 0) in
  length prefix = 64%nat
  /\ take 6 (drop 56 server.1) = le32 (Protocol.id (protocol c))
       ++ [wrapu 8 (protocolDcId c); wrapu 8 (Z.shiftr (protocolDcId c) 8)]
  /\ key = sendKey c' /\ server.2 = sendState c'
  /\ forall data, (aesCtrEncrypt (aesCtrEncrypt data (sendKey c') (sendState c')).1 key server.2).1 = data.
Proof.
  intros Hst Hnum Hlen. unfold prepareConnectionStartPrefix. rewrite Hst, Hnum.
  set (X := take 56 nonce).
  set (Y := le32 (Protocol.id (protocol c)) ++ [_; _] ++ drop 62 nonce).
  assert (length X = 56%nat) as HX by (subst X; rewrite length_take; lia).
  assert (length Y = 8%nat) as HY.
  { subst Y. rewrite !length_app, le32_length, length_drop. simpl. lia. }
  set (sk := Protocol.prepareKey sha256 (protocol c) (take 32 (drop 8 nonce))).
  set (ss := mk_ctr (take 16 (drop 40 nonce)) 0).
  change (aesCtrEncrypt _ sk ss) with (aesCtrEncrypt (X ++ Y) sk ss).
  rewrite (aesCtrEncrypt_app X Y).
  set (st1 := (aesCtrEncrypt X sk ss).2). cbn [fst snd].
  pose proof (aesCtrEncrypt_length X sk ss) as HeX. pose proof (aesCtrEncrypt_length Y sk st1) as HeY.
  assert (take 56 (X ++ Y) = X) as -> by (by rewrite take_app_le, take_ge by lia).
  rewrite (drop_app_le _ _ 56), (drop_ge _ 56), app_nil_l by lia.
  set (P := X ++ (aesCtrEncrypt Y sk st1).1).
  assert (forall i k, (i + k <= 56)%nat -> take k (drop i P) = take k (drop i nonce)) as Hpart.
  { intros i k Hik. subst P X. rewrite drop_app_le by (rewrite length_take; lia).
    rewrite take_app_le by (rewrite length_drop, length_take; lia).
    rewrite !take_drop_commute, take_take. by replace ((i + k) `min` 56)%nat with (i + k)%nat by lia. }
  rewrite !Hpart by lia. fold sk ss.
  assert (aesCtrEncrypt P sk ss = ((aesCtrEncrypt X sk ss).1 ++ Y, (aesCtrEncrypt Y sk st1).2)) as HP.
  { subst P. rewrite aesCtrEncrypt_app. fold st1. by rewrite aesCtrEncrypt_involutive. }
  rewrite HP. cbn [fst snd sendKey sendState set_crypt]. split_and!.
  - subst P. rewrite length_app. lia.
  - rewrite drop_app_le, (drop_ge _ 56) by lia. done.
  - done.
  - done.
  - intros data. by rewrite aesCtrEncrypt_involutive.
Qed.

End Connection.
End Connection.

(** The bound of [finalizePacket] admits one size too many: the length of
    0x1000000 integers does not fit in its three bytes and the receiver
    refuses the packet. *)
Lemma finalize_largest (b0 b1 : Z) (payload : list Z) :
  Z.of_nat (length payload) = 0x1000000 ->
  exists f, Protocol.finalizePacket0 (b0 :: b1 :: payload) = Some f
    /\ Protocol.readPacketLength0 f = Protocol.kInvalidSize.
Proof.
  intros Hlen. unfold Protocol.finalizePacket0. simpl length.
  replace (Z.of_nat (S (S (length payload)))) with (0x1000000 + 2) by lia.
  destruct (head_bytes b0 b1 payload) as (d0 & d1 & d2 & d3 & d4 & d5 & d6 & d7 & ->).
  pose proof (bytes_of_ints_length payload) as HD. set (D := bytes_of_ints payload) in *.
  change ((2 <? 0x1000000 + 2) && (0x1000000 + 2 <? 0x1000003)) with true.
  change (0x1000000 + 2 - 2) with 0x1000000. change (0x1000000 <? 0x7F) with false.
  cbn [list_insert insert app].
  exists (0x7F :: 0 :: 0 :: 0 :: D). split; [|done].
  rewrite <- (app_nil_r D) at 1. apply (subspan_skip [d0; d1; d2; d3] (0x7F :: 0 :: 0 :: 0 :: D) []);
    simpl; lia.
Qed.

(** The span of an unencrypted answer takes its length in bytes for a number
    of integers: it ends after the buffer. *)
Lemma not_secure_span_overruns :
  let buffer := [0; 0; 1; 0; 4; 7] in
  exists s, NotSecure.parseNotSecureResponse buffer = Some s
    /\ Z.of_nat (length buffer) < NotSecure.from s + NotSecure.count s.
Proof. simpl. eexists. split; [by vm_compute|]. simpl. lia. Qed.

(** *** Witnesses *)

Definition ex_keystream (key iv : list Z) (n : nat) : Z := Z.of_nat n mod 256.
Definition ex_sha256 (data : list Z) : list Z := take 32 data.

Definition ex_connection : Connection.tcp :=
  Connection.mk_tcp Connection.Ready true false 0 0 0 [] [] false [] (Connection.mk_ctr [] 0)
    [] (Connection.mk_ctr [] 5) Protocol.Version0 2 [] [] [].

Definition ex_frames : list (list Z * list Z) :=
  [([3; 1; 0; 0; 0; 2; 0; 0; 0; 3; 0; 0; 0], [1; 2; 3]);
   ([3; 4; 0; 0; 0; 5; 0; 0; 0; 255; 255; 255; 255], [4; 5; -1])].

Definition ex_wire : list Z :=
  (Connection.aesCtrEncrypt ex_keystream (concat ex_frames.*1) [] (Connection.mk_ctr [] 5)).1.

Lemma tcp_stream_delivered_witness :
  exists c', Connection.socketRead ex_keystream (fun _ => None) (fun _ => true) (replicate 26 3%nat)
      ex_wire ex_connection = Some (c', [])
    /\ Connection.receivedQueue c' = [[1; 2; 3]; [4; 5; -1]].
Proof.
  apply (Connection.tcp_stream_delivered ex_keystream (fun _ => None) (fun _ => true) eq_refl eq_refl
    Protocol.Version0 ex_connection ex_frames); try reflexivity.
  - repeat constructor; simpl; try discriminate; lia || (by vm_compute).
  - apply Forall_replicate. lia.
Defined.

Lemma tcp_packet_roundtrip_witness :
  exists f pad, Protocol.finalizePacket (Protocol.VersionD []) 5 [9; 8; 7; 6] [0; 0; 10; 20; 30] = Some f
    /\ Connection.parsePacket (Protocol.VersionD []) f = Some ([10; 20; 30] ++ pad).
Proof.
  destruct (Connection.tcp_packet_roundtrip (Protocol.VersionD []) 5 [9; 8; 7; 6] 0 0 [10; 20; 30] [])
    as (f & pad & H1 & _ & H2 & _); [simpl; lia|simpl; lia|simpl; lia| |by exists f, pad].
  repeat constructor; unfold fits_s; lia.
Defined.

Lemma start_prefix_understood_witness :
  let r := Connection.prepareConnectionStartPrefix ex_keystream ex_sha256 (replicate 64 7) ex_connection in
  let key := Protocol.prepareKey ex_sha256 Protocol.Version0 (take 32 (drop 8 r.1)) in
  let server := Connection.aesCtrEncrypt ex_keystream r.1 key (Connection.mk_ctr (take 16 (drop 40 r.1)) 0) in
  take 6 (drop 56 server.1) = [0xEF; 0xEF; 0xEF; 0xEF; 2; 0] /\ server.2 = Connection.sendState r.2.
Proof.
  destruct (Connection.start_prefix_understood ex_keystream ex_sha256 ex_connection (replicate 64 7)
    eq_refl eq_refl eq_refl) as (_ & H1 & _ & H2 & _).
  split; [exact H1|exact H2].
Defined.
