(* ===== verification/Text.v ===== *)
(** * Strings as UTF-16 code units

    Qt strings are lists of their code units. This file has the few [QString]
    operations several components use ([number], [toInt], [mid]) and the facts
    that relate decimal notation to numbers. *)

From S2P Require Import Prelude.

Definition codes (s : string) : list Z :=
  (fun a => Z.of_nat (Ascii.nat_of_ascii a)) <$> String.list_ascii_of_string s.

(** [QString::number] of an integer. *)
Fixpoint digits (fuel : nat) (n : Z) (acc : list Z) : list Z :=
  match fuel with
  | O => acc
  | S fuel => if n <? 10 then (48 + n) :: acc else digits fuel (n / 10) ((48 + n mod 10) :: acc)
  end.

Definition number_string (n : Z) : list Z :=
  if n <? 0 then 45 :: digits 20 (- n) [] else digits 20 n [].

Definition is_digit (c : Z) : bool := (48 <=? c) && (c <=? 57).

(** [QString::mid]: the rest of the string for a negative length. *)
Definition mid (s : list Z) (position len : Z) : list Z :=
  let rest := drop (Z.to_nat position) s in
  if len <? 0 then rest else take (Z.to_nat len) rest.

(** Reading a decimal number back. *)
Definition digit_step (v ch : Z) : Z := 10 * v + (ch - 48).
Definition decimal_value (s : list Z) : Z :=
  match s with
  | 45 :: s => - foldl digit_step 0 s
  | _ => foldl digit_step 0 s
  end.

Lemma digits_value (fuel : nat) (n : Z) (acc : list Z) :
  0 <= n < 10 ^ Z.of_nat fuel -> (0 < fuel)%nat ->
  foldl digit_step 0 (digits fuel n acc) = foldl digit_step n acc.
Proof.
  revert n acc. induction fuel as [|fuel IH]; intros n acc Hn Hf; [lia|]. cbn [digits].
  destruct (Z.ltb_spec n 10).
  - simpl. f_equal. unfold digit_step. lia.
  - rewrite Nat2Z.inj_succ, Z.pow_succ_r in Hn by lia. rewrite IH.
    + simpl. f_equal. unfold digit_step. pose proof (Z.div_mod n 10). lia.
    + split; [apply Z.div_pos; lia|]. apply Z.div_lt_upper_bound; lia.
    + destruct fuel; [|lia]. simpl in Hn. lia.
Qed.

Lemma digits_head (fuel : nat) (n : Z) (acc : list Z) :
  0 <= n -> (0 < fuel)%nat -> exists d l, digits fuel n acc = d :: l /\ 48 <= d.
Proof.
  revert n acc. induction fuel as [|fuel IH]; intros n acc Hn Hf; [lia|]. cbn [digits].
  destruct (Z.ltb_spec n 10); [eexists _, _; split; [done|lia]|].
  destruct fuel as [|fuel].
  - eexists _, _. split; [done|]. pose proof (Z.mod_pos_bound n 10). lia.
  - apply IH; [apply Z.div_pos|]; lia.
Qed.

Lemma number_string_value (n : Z) : Z.abs n < 10 ^ 20 -> decimal_value (number_string n) = n.
Proof.
  intros Hn. unfold number_string. destruct (Z.ltb_spec n 0).
  - change (- foldl digit_step 0 (digits 20 (- n) []) = n).
    rewrite digits_value by lia. simpl. lia.
  - destruct (digits_head 20 n [] ltac:(lia) ltac:(lia)) as (d & l & E & Hd).
    assert (decimal_value (digits 20 n []) = foldl digit_step 0 (digits 20 n [])) as ->.
    { rewrite E. unfold decimal_value. destruct d as [|d|d]; try done; try lia.
      do 6 (destruct d as [d|d|]; try done; try lia). }
    by rewrite digits_value by lia.
Qed.

Lemma digit_string (d : Z) : 0 <= d < 10 -> number_string d = [48 + d].
Proof.
  intros Hd. unfold number_string. replace (d <? 0) with false by (symmetry; apply Z.ltb_ge; lia).
  cbn [digits]. by replace (d <? 10) with true by (symmetry; apply Z.ltb_lt; lia).
Qed.

Lemma digits_are_digits (fuel : nat) (n : Z) (acc : list Z) :
  0 <= n -> Forall (fun c => is_digit c = true) acc ->
  Forall (fun c => is_digit c = true) (digits fuel n acc).
Proof.
  revert n acc. induction fuel as [|fuel IH]; intros n acc Hn Hacc; [done|]. cbn [digits].
  destruct (Z.ltb_spec n 10).
  - constructor; [|done]. unfold is_digit. apply andb_true_iff. lia.
  - pose proof (Z.mod_pos_bound n 10). apply IH; [apply Z.div_pos; lia|]. constructor; [|done].
    unfold is_digit. apply andb_true_iff. lia.
Qed.
