(* ===== verification/Plurals.v ===== *)
(** * Plural forms and replacements of language strings

    [lang/lang_tag.cpp] and [lang/lang_tag.h]: the plural rules of the
    languages, the choice of the rule for a language id, the short form of
    counts and the replacement of tags in language strings.

    The [int] operands of the rules are [Z]s, [%] is the C++ remainder [crem].
    Strings are lists of their character codes. *)

From S2P Require Import Prelude Text.

Definition kShiftZero : Z := 0.
Definition kShiftOne : Z := 1.
Definition kShiftTwo : Z := 2.
Definition kShiftFew : Z := 3.
Definition kShiftMany : Z := 4.
Definition kShiftOther : Z := 5.

(** ** The rules

    [n] is -1 for a number that is not an integer; [i], [v], [w], [f] and [t]
    are the operands of CLDR. *)

Definition ChoosePlural1 (n i v w f t : Z) : Z :=
  kShiftOther.

Definition ChoosePlural2fil (n i v w f t : Z) : Z :=
  if v =? 0 then
    let mod10 := crem i 10 in
    if (i =? 1) || (i =? 2) || (i =? 3) then kShiftOne
    else if negb (mod10 =? 4) && negb (mod10 =? 6) && negb (mod10 =? 9) then kShiftOne
    else kShiftOther
  else
  let mod10 := crem f 10 in
  if negb (mod10 =? 4) && negb (mod10 =? 6) && negb (mod10 =? 9) then kShiftOne
  else kShiftOther.

Definition ChoosePlural2tzm (n i v w f t : Z) : Z :=
  if (n =? 0) || (n =? 1) then kShiftOne
  else if (11 <=? n) && (n <=? 99) then kShiftOne
  else kShiftOther.

Definition ChoosePlural2is (n i v w f t : Z) : Z :=
  if t =? 0 then
    let mod10 := crem i 10 in
    let mod100 := crem i 100 in
    if (mod10 =? 1) && negb (mod100 =? 11) then kShiftOne
    else kShiftOther
  else kShiftOne.

Definition ChoosePlural2mk (n i v w f t : Z) : Z :=
  if v =? 0 then
    let mod10 := crem i 10 in
    let mod100 := crem i 100 in
    if (mod10 =? 1) && negb (mod100 =? 11) then kShiftOne
    else
    let mod10 := crem f 10 in
    let mod100 := crem f 100 in
    if (mod10 =? 1) && negb (mod100 =? 11) then kShiftOne
    else kShiftOther
  else
  let mod10 := crem f 10 in
  let mod100 := crem f 100 in
  if (mod10 =? 1) && negb (mod100 =? 11) then kShiftOne
  else kShiftOther.

Definition ChoosePlural2ak (n i v w f t : Z) : Z :=
  if (n =? 0) || (n =? 1) then kShiftOne
  else kShiftOther.

Definition ChoosePlural2am (n i v w f t : Z) : Z :=
  if (i =? 0) || (n =? 1) then kShiftOne
  else kShiftOther.

Definition ChoosePlural2hy (n i v w f t : Z) : Z :=
  if (i =? 0) || (i =? 1) then kShiftOne
  else kShiftOther.

Definition ChoosePlural2si (n i v w f t : Z) : Z :=
  if (n =? 0) || (n =? 1) then kShiftOne
  else if (i =? 0) && (f =? 1) then kShiftOne
  else kShiftOther.

Definition ChoosePlural2bh (n i v w f t : Z) : Z :=
  if (n =? 0) || (n =? 1) then kShiftOne
  else kShiftOther.

Definition ChoosePlural2af (n i v w f t : Z) : Z :=
  if n =? 1 then kShiftOne
  else kShiftOther.

Definition ChoosePlural2ast (n i v w f t : Z) : Z :=
  if (i =? 1) && (v =? 0) then kShiftOne
  else kShiftOther.

Definition ChoosePlural2da (n i v w f t : Z) : Z :=
  if n =? 1 then kShiftOne
  else if negb (t =? 0) && ((i =? 0) || (i =? 1)) then kShiftOne
  else kShiftOther.

Definition ChoosePlural3lv (n i v w f t : Z) : Z :=
  let nmod10 := crem n 10 in
  let nmod100 := crem n 100 in
  let fmod10 := crem f 10 in
  let fmod100 := crem f 100 in
  if nmod10 =? 0 then kShiftZero
  else if (11 <=? nmod100) && (nmod100 <=? 19) then kShiftZero
  else if (v =? 2) && (11 <=? fmod100) && (fmod100 <=? 19) then kShiftZero
  else if (nmod10 =? 1) && negb (nmod100 =? 11) then kShiftOne
  else if (v =? 2) && (fmod10 =? 1) && negb (fmod100 =? 11) then kShiftOne
  else if negb (v =? 2) && (fmod10 =? 1) then kShiftOne
  else kShiftOther.

Definition ChoosePlural3ksh (n i v w f t : Z) : Z :=
  if n =? 0 then kShiftZero
  else if n =? 1 then kShiftOne
  else kShiftOther.

Definition ChoosePlural3lag (n i v w f t : Z) : Z :=
  if n =? 0 then kShiftZero
  else if negb (n =? 0) && ((i =? 0) || (i =? 1)) then kShiftOne
  else kShiftOther.

Definition ChoosePlural3kw (n i v w f t : Z) : Z :=
  if n =? 1 then kShiftOne
  else if n =? 2 then kShiftTwo
  else kShiftOther.

Definition ChoosePlural3bs (n i v w f t : Z) : Z :=
  if v =? 0 then
    let mod10 := crem i 10 in
    let mod100 := crem i 100 in
    if (2 <=? mod10) && (mod10 <=? 4) && ((mod100 <? 12) || (14 <? mod100)) then kShiftFew
    else if (mod10 =? 1) && negb (mod100 =? 11) then kShiftOne
    else kShiftOther
  else
  let mod10 := crem f 10 in
  let mod100 := crem f 100 in
  if (2 <=? mod10) && (mod10 <=? 4) && ((mod100 <? 12) || (14 <? mod100)) then kShiftFew
  else if (mod10 =? 1) && negb (mod100 =? 11) then kShiftOne
  else kShiftOther.

Definition ChoosePlural3shi (n i v w f t : Z) : Z :=
  if (i =? 0) || (n =? 1) then kShiftOne
  else if (2 <=? n) && (n <=? 10) then kShiftFew
  else kShiftOther.

Definition ChoosePlural3mo (n i v w f t : Z) : Z :=
  if v =? 0 then
    let mod100 := crem n 100 in
    if i =? 1 then kShiftOne
    else if n =? 0 then kShiftFew
    else if negb (n =? 1) && (1 <=? mod100) && (mod100 <=? 19) then kShiftFew
    else kShiftOther
  else kShiftFew.

Definition ChoosePlural4be (n i v w f t : Z) : Z :=
  let mod10 := crem n 10 in
  let mod100 := crem n 100 in
  if (2 <=? mod10) && (mod10 <=? 4) && ((mod100 <? 12) || (14 <? mod100)) then kShiftFew
  else if (mod10 =? 1) && negb (mod100 =? 11) then kShiftOne
  else if mod10 =? 0 then kShiftMany
  else if (5 <=? mod10) && (mod10 <=? 9) then kShiftMany
  else if (11 <=? mod100) && (mod100 <=? 14) then kShiftMany
  else kShiftOther.

Definition ChoosePlural4ru (n i v w f t : Z) : Z :=
  if v =? 0 then
    let mod10 := crem i 10 in
    let mod100 := crem i 100 in
    if (2 <=? mod10) && (mod10 <=? 4) && ((mod100 <? 12) || (14 <? mod100)) then kShiftFew
    else if (mod10 =? 1) && negb (mod100 =? 11) then kShiftOne
    else kShiftMany
  else kShiftOther.

Definition ChoosePlural4pl (n i v w f t : Z) : Z :=
  if v =? 0 then
    if i =? 1 then kShiftOne
    else
    let mod10 := crem i 10 in
    let mod100 := crem i 100 in
    if (2 <=? mod10) && (mod10 <=? 4) && ((mod100 <? 12) || (14 <? mod100)) then kShiftFew
    else kShiftMany
  else kShiftOther.

Definition ChoosePlural4lt (n i v w f t : Z) : Z :=
  let mod10 := crem n 10 in
  let mod100 := crem n 100 in
  if (2 <=? mod10) && (mod10 <=? 9) && ((mod100 <? 11) || (19 <? mod100)) then kShiftFew
  else if (mod10 =? 1) && negb (mod100 =? 11) then kShiftOne
  else if negb (f =? 0) then kShiftMany
  else kShiftOther.

Definition ChoosePlural4cs (n i v w f t : Z) : Z :=
  if v =? 0 then
    if i =? 1 then kShiftOne
    else if (2 <=? i) && (i <=? 4) then kShiftFew
    else kShiftOther
  else kShiftMany.

Definition ChoosePlural4gd (n i v w f t : Z) : Z :=
  if (n =? 1) || (n =? 11) then kShiftOne
  else if (n =? 2) || (n =? 12) then kShiftTwo
  else if (3 <=? n) && (n <=? 10) then kShiftFew
  else if (13 <=? n) && (n <=? 19) then kShiftFew
  else kShiftOther.

Definition ChoosePlural4dsb (n i v w f t : Z) : Z :=
  if v =? 0 then
    let imod100 := crem i 100 in
    if imod100 =? 1 then kShiftOne
    else if imod100 =? 2 then kShiftTwo
    else if (imod100 =? 3) || (imod100 =? 4) then kShiftFew
    else
    let fmod100 := crem f 100 in
    if fmod100 =? 1 then kShiftOne
    else if fmod100 =? 2 then kShiftTwo
    else if (fmod100 =? 3) || (fmod100 =? 4) then kShiftFew
    else kShiftOther
  else
  let fmod100 := crem f 100 in
  if fmod100 =? 1 then kShiftOne
  else if fmod100 =? 2 then kShiftTwo
  else if (fmod100 =? 3) || (fmod100 =? 4) then kShiftFew
  else kShiftOther.

Definition ChoosePlural4sl (n i v w f t : Z) : Z :=
  if v =? 0 then
    let imod100 := crem i 100 in
    if (imod100 =? 3) || (imod100 =? 4) then kShiftFew
    else if imod100 =? 1 then kShiftOne
    else if imod100 =? 2 then kShiftTwo
    else kShiftOther
  else kShiftFew.

Definition ChoosePlural4he (n i v w f t : Z) : Z :=
  if v =? 0 then
    if i =? 1 then kShiftOne
    else if i =? 2 then kShiftTwo
    else if negb (n =? 0) && negb (n =? 10) && (crem n 10 =? 0) then kShiftMany
    else kShiftOther
  else kShiftOther.

Definition ChoosePlural4mt (n i v w f t : Z) : Z :=
  let mod100 := crem n 100 in
  if n =? 1 then kShiftOne
  else if n =? 0 then kShiftFew
  else if (2 <=? mod100) && (mod100 <=? 10) then kShiftFew
  else if (11 <=? mod100) && (mod100 <=? 19) then kShiftMany
  else kShiftOther.

Definition ChoosePlural5gv (n i v w f t : Z) : Z :=
  if v =? 0 then
    let mod10 := crem i 10 in
    let mod20 := crem i 20 in
    if mod10 =? 1 then kShiftOne
    else if mod10 =? 2 then kShiftTwo
    else if mod20 =? 0 then kShiftFew
    else kShiftOther
  else kShiftMany.

Definition ChoosePlural5br (n i v w f t : Z) : Z :=
  let mod10 := crem n 10 in
  let mod100 := crem n 100 in
  if (mod10 =? 1) && negb (mod100 =? 11) && negb (mod100 =? 71) && negb (mod100 =? 91) then kShiftOne
  else if (mod10 =? 2) && negb (mod100 =? 12) && negb (mod100 =? 72) && negb (mod100 =? 92) then kShiftTwo
  else if ((mod10 =? 3) || (mod10 =? 4) || (mod10 =? 9)) && ((mod100 <? 10) || (19 <? mod100)) && ((mod100 <? 70) || (79 <? mod100)) && ((mod100 <? 90) || (99 <? mod100)) then kShiftFew
  else if negb (n =? 0) && (crem n 1000000 =? 0) then kShiftMany
  else kShiftOther.

Definition ChoosePlural5ga (n i v w f t : Z) : Z :=
  if n =? 1 then kShiftOne
  else if n =? 2 then kShiftTwo
  else if (3 <=? n) && (n <=? 6) then kShiftFew
  else if (7 <=? n) && (n <=? 10) then kShiftMany
  else kShiftOther.

Definition ChoosePlural6ar (n i v w f t : Z) : Z :=
  if n =? 0 then kShiftZero
  else if n =? 1 then kShiftOne
  else if n =? 2 then kShiftTwo
  else if n <? 0 then kShiftOther
  else
  let mod100 := crem n 100 in
  if (3 <=? mod100) && (mod100 <=? 10) then kShiftFew
  else if (11 <=? mod100) && (mod100 <=? 99) then kShiftMany
  else kShiftOther.

Definition ChoosePlural6cy (n i v w f t : Z) : Z :=
  if n =? 0 then kShiftZero
  else if n =? 1 then kShiftOne
  else if n =? 2 then kShiftTwo
  else if n =? 3 then kShiftFew
  else if n =? 6 then kShiftMany
  else kShiftOther.

(** The pointers to the rules: the code compares them. *)
Inductive ChoosePluralMethod :=
  M1 | M2fil | M2tzm | M2is | M2mk | M2ak | M2am | M2hy | M2si | M2bh | M2af | M2ast | M2da |
  M3lv | M3ksh | M3lag | M3kw | M3bs | M3shi | M3mo | M4be | M4ru | M4pl | M4lt | M4cs | M4gd
  | M4dsb | M4sl | M4he | M4mt | M5gv | M5br | M5ga | M6ar | M6cy.

#[export] Instance ChoosePluralMethod_eq_dec : EqDecision ChoosePluralMethod.
Proof. solve_decision. Defined.

Definition call (m : ChoosePluralMethod) : Z -> Z -> Z -> Z -> Z -> Z -> Z :=
  match m with
  | M1 => ChoosePlural1
  | M2fil => ChoosePlural2fil
  | M2tzm => ChoosePlural2tzm
  | M2is => ChoosePlural2is
  | M2mk => ChoosePlural2mk
  | M2ak => ChoosePlural2ak
  | M2am => ChoosePlural2am
  | M2hy => ChoosePlural2hy
  | M2si => ChoosePlural2si
  | M2bh => ChoosePlural2bh
  | M2af => ChoosePlural2af
  | M2ast => ChoosePlural2ast
  | M2da => ChoosePlural2da
  | M3lv => ChoosePlural3lv
  | M3ksh => ChoosePlural3ksh
  | M3lag => ChoosePlural3lag
  | M3kw => ChoosePlural3kw
  | M3bs => ChoosePlural3bs
  | M3shi => ChoosePlural3shi
  | M3mo => ChoosePlural3mo
  | M4be => ChoosePlural4be
  | M4ru => ChoosePlural4ru
  | M4pl => ChoosePlural4pl
  | M4lt => ChoosePlural4lt
  | M4cs => ChoosePlural4cs
  | M4gd => ChoosePlural4gd
  | M4dsb => ChoosePlural4dsb
  | M4sl => ChoosePlural4sl
  | M4he => ChoosePlural4he
  | M4mt => ChoosePlural4mt
  | M5gv => ChoosePlural5gv
  | M5br => ChoosePlural5br
  | M5ga => ChoosePlural5ga
  | M6ar => ChoosePlural6ar
  | M6cy => ChoosePlural6cy
  end.

(** ** The rule of a language *)

(** For the ASCII characters of language ids. *)
Definition ConvertKeyChar (ch : Z) : Z :=
  if ch =? 95 then 45 else if (65 <=? ch) && (ch <=? 90) then ch + 32 else ch.

Definition push_char (key converted : Z) : Z := Z.lor (wrapu 64 (Z.shiftl key 8)) converted.

Definition PluralsKey (value : list Z) : Z :=
  foldl (fun data ch => push_char data (ConvertKeyChar ch)) 0 value.

Definition entry (key : string) (m : ChoosePluralMethod) : string * ChoosePluralMethod := (key, m).

Definition GeneratePluralRulesMap : list (string * ChoosePluralMethod) := [
  entry "fil" M2fil; entry "tl" M2fil; entry "tzm" M2tzm; entry "is" M2is; entry "mk" M2mk;
  entry "ak" M2ak; entry "guw" M2ak; entry "ln" M2ak; entry "mg" M2ak; entry "nso" M2ak; entry
  "pa" M2ak; entry "ti" M2ak; entry "wa" M2ak; entry "am" M2am; entry "as" M2am; entry "bn"
  M2am; entry "gu" M2am; entry "hi" M2am; entry "kn" M2am; entry "mr" M2am; entry "fa" M2am;
  entry "zu" M2am; entry "hy" M2hy; entry "fr" M2hy; entry "ff" M2hy; entry "kab" M2hy; entry
  "pt" M2hy; entry "si" M2si; entry "bh" M2bh; entry "bho" M2bh; entry "af" M2af; entry "sq"
  M2af; entry "asa" M2af; entry "az" M2af; entry "eu" M2af; entry "bem" M2af; entry "bez"
  M2af; entry "brx" M2af; entry "bg" M2af; entry "ckb" M2af; entry "ce" M2af; entry "chr"
  M2af; entry "cgg" M2af; entry "dv" M2af; entry "eo" M2af; entry "ee" M2af; entry "fo" M2af;
  entry "fur" M2af; entry "ka" M2af; entry "el" M2af; entry "ha" M2af; entry "haw" M2af; entry
  "hu" M2af; entry "kaj" M2af; entry "kkj" M2af; entry "kl" M2af; entry "ks" M2af; entry "kk"
  M2af; entry "ku" M2af; entry "ky" M2af; entry "lb" M2af; entry "jmc" M2af; entry "ml" M2af;
  entry "mas" M2af; entry "mgo" M2af; entry "mn" M2af; entry "nah" M2af; entry "ne" M2af;
  entry "nnh" M2af; entry "jgo" M2af; entry "nd" M2af; entry "no" M2af; entry "nb" M2af; entry
  "nn" M2af; entry "ny" M2af; entry "nyn" M2af; entry "or" M2af; entry "om" M2af; entry "os"
  M2af; entry "pap" M2af; entry "ps" M2af; entry "rm" M2af; entry "rof" M2af; entry "rwk"
  M2af; entry "ssy" M2af; entry "saq" M2af; entry "seh" M2af; entry "ksb" M2af; entry "sn"
  M2af; entry "sd" M2af; entry "xog" M2af; entry "so" M2af; entry "nr" M2af; entry "sdh" M2af;
  entry "st" M2af; entry "es" M2af; entry "ss" M2af; entry "gsw" M2af; entry "syr" M2af; entry
  "ta" M2af; entry "te" M2af; entry "teo" M2af; entry "tig" M2af; entry "ts" M2af; entry "tn"
  M2af; entry "tr" M2af; entry "tk" M2af; entry "kcg" M2af; entry "ug" M2af; entry "uz" M2af;
  entry "ve" M2af; entry "vo" M2af; entry "vun" M2af; entry "wae" M2af; entry "xh" M2af; entry
  "" M2ast; entry "ast" M2ast; entry "ca" M2ast; entry "nl" M2ast; entry "en" M2ast; entry
  "et" M2ast; entry "pt_PT" M2ast; entry "fi" M2ast; entry "gl" M2ast; entry "lg" M2ast; entry
  "de" M2ast; entry "io" M2ast; entry "ia" M2ast; entry "it" M2ast; entry "sc" M2ast; entry
  "scn" M2ast; entry "sw" M2ast; entry "sv" M2ast; entry "ur" M2ast; entry "fy" M2ast; entry
  "ji" M2ast; entry "yi" M2ast; entry "da" M2da; entry "lv" M3lv; entry "prg" M3lv; entry
  "ksh" M3ksh; entry "lag" M3lag; entry "kw" M3kw; entry "smn" M3kw; entry "iu" M3kw; entry
  "smj" M3kw; entry "naq" M3kw; entry "se" M3kw; entry "smi" M3kw; entry "sms" M3kw; entry
  "sma" M3kw; entry "bs" M3bs; entry "hr" M3bs; entry "sr" M3bs; entry "sh" M3bs; entry
  "sr_Latn" M3bs; entry "shi" M3shi; entry "mo" M3mo; entry "ro_MD" M3mo; entry "ro" M3mo;
  entry "be" M4be; entry "ru" M4ru; entry "uk" M4ru; entry "pl" M4pl; entry "lt" M4lt; entry
  "cs" M4cs; entry "sk" M4cs; entry "gd" M4gd; entry "dsb" M4dsb; entry "hsb" M4dsb; entry
  "sl" M4sl; entry "he" M4he; entry "iw" M4he; entry "mt" M4mt; entry "gv" M5gv; entry "br"
  M5br; entry "ga" M5ga; entry "ar" M6ar; entry "ars" M6ar; entry "cy" M6cy].

(** [kMap.find(key)] *)
Definition find_rule (key : Z) : option ChoosePluralMethod :=
  snd <$> (list_find (fun e => PluralsKey (codes e.1) = key) GeneratePluralRulesMap ≫= fun r => Some r.2).

(** The loop over the language id: the parent and the whole key. *)
Definition key_step (pk : Z * Z) (ch : Z) : Z * Z :=
  let '(parent, key) := pk in
  let converted := ConvertKeyChar ch in
  let parent := if (converted =? 45) && (parent =? 0) then key else parent in
  (parent, push_char key converted).

(** The new value of [ChoosePlural]. *)
Definition UpdatePluralRules (languageId : list Z) : ChoosePluralMethod :=
  let '(parent, key) := foldl key_step (0, 0) languageId in
  let i := match find_rule key with
           | Some m => Some m
           | None => if parent =? 0 then None else find_rule parent
           end in
  match i with None => M1 | Some m => m end.

Definition ChoosePluralDefault : ChoosePluralMethod := M2ast.

(** ** Short counts *)

Record ShortenedCount := mk_shortened { number : Z; text : list Z }.

Definition shorten (num divider : Z) (multiplier : Z) : ShortenedCount :=
  let abs := Z.abs num in
  let sign := if 0 <? num then 1 else -1 in
  let rounded := cquot abs (cquot divider 10) in
  let s := number_string (cquot (sign * rounded) 10) in
  let s := if negb (crem rounded 10 =? 0)
           then s ++ [46] ++ number_string (crem rounded 10) ++ [multiplier]
           else s ++ [multiplier] in
  mk_shortened (rounded * divider) s.

Definition FormatCountToShort (num : Z) : ShortenedCount :=
  let abs := Z.abs num in
  if 1000000 <=? abs then shorten num 1000000 77
  else if 10000 <=? abs then shorten num 1000 75
  else mk_shortened num (number_string num).

(** [Plural] of an integer value: the shift and the replacement. The number
    formats of the locale ([%L1]) and the set of the keys with other plurals
    ([IsNonDefaultPlural], generated) are parameters. *)
Inductive lngtag_count := lt_count | lt_count_short | lt_count_decimal.

Definition PluralInteger (IsNonDefaultPlural : Z -> bool) (locale_number : Z -> list Z)
    (current : ChoosePluralMethod) (keyBase value : Z) (type : lngtag_count) : Z * list Z :=
  let shortened := match type with
    | lt_count_short => FormatCountToShort value
    | _ => mk_shortened 0 []
    end in
  let n := Z.abs (if negb (number shortened =? 0) then number shortened else value) in
  let useNonDefaultPlural := negb (bool_decide (current = ChoosePluralDefault))
    && IsNonDefaultPlural keyBase in
  let shift := call (if useNonDefaultPlural then current else ChoosePluralDefault) n n 0 0 0 0 in
  match type with
  | lt_count_short => (shift, text shortened)
  | lt_count_decimal => (shift, locale_number value)
  | lt_count => (shift, number_string value)
  end.

(** ** Tags *)
Section Tags.

(** The command characters of texts ([TextCommand] of the text library). *)
Context (TextCommand : Z).

Definition kTextCommandLangTag : Z := 0x20.
Definition kTagReplacementSize : nat := 4.

(** The loop, at position [pos] of the string. *)
Fixpoint find_tag (tag pos : Z) (s : list Z) : Z :=
  match s with
  | [] => -1
  | ch :: s1 =>
      if ch =? TextCommand then
        match s1 with
        | c1 :: c2 :: c3 :: s4 =>
            if (c1 =? kTextCommandLangTag) && (c3 =? TextCommand) then
              if c2 =? 0x0020 + tag then pos else find_tag tag (pos + 4) s4
            else find_tag tag (pos + 1) s1
        | _ => find_tag tag (pos + 1) s1
        end
      else find_tag tag (pos + 1) s1
  end.

Definition FindTagReplacementPosition (original : list Z) (tag : Z) : Z := find_tag tag 0 original.

Definition Replace (original replacement : list Z) (position : Z) : list Z :=
  (if 0 <? position then take (Z.to_nat position) original else [])
  ++ replacement
  ++ (if position + Z.of_nat kTagReplacementSize <? Z.of_nat (length original)
      then drop (Z.to_nat position + kTagReplacementSize) original else []).

(** [ReplaceTag<QString>::Call] *)
Definition ReplaceTag (original : list Z) (tag : Z) (replacement : list Z) : list Z :=
  let position := FindTagReplacementPosition original tag in
  if position <? 0 then original else Replace original replacement position.

(** A language string: characters and tags. *)
Inductive token := Char (c : Z) | Tag (tag : Z).

Definition render_token (t : token) : list Z :=
  match t with
  | Char c => [c]
  | Tag tag => [TextCommand; kTextCommandLangTag; 0x0020 + tag; TextCommand]
  end.

Definition render (ts : list token) : list Z := ts ≫= render_token.

(** Characters of the text are not commands. *)
Definition plain (t : token) : Prop := match t with Char c => c <> TextCommand | Tag _ => True end.

Lemma find_tag_prefix (tag pos : Z) (ts : list token) (s : list Z) :
  Forall plain ts -> Forall (fun t => t <> Tag tag) ts ->
  find_tag tag pos (render ts ++ s) = find_tag tag (pos + Z.of_nat (length (render ts))) s.
Proof.
  intros Hp Ht. revert pos. induction ts as [|t ts IH]; intros pos.
  - simpl. f_equal. lia.
  - apply Forall_cons in Hp as [Hpt Hp]. apply Forall_cons in Ht as [Htt Ht].
    specialize (IH Hp Ht). destruct t as [c|tag'].
    + change (render (Char c :: ts) ++ s) with (c :: (render ts ++ s)). cbn [find_tag].
      simpl in Hpt. replace (c =? TextCommand) with false by (symmetry; by apply Z.eqb_neq).
      rewrite IH. f_equal. change (render (Char c :: ts)) with (c :: render ts). simpl length. lia.
    + change (render (Tag tag' :: ts) ++ s)
        with (TextCommand :: kTextCommandLangTag :: (0x0020 + tag') :: TextCommand :: (render ts ++ s)).
      cbn [find_tag]. rewrite !Z.eqb_refl. cbn [andb].
      replace (0x0020 + tag' =? 0x0020 + tag) with false
        by (symmetry; apply Z.eqb_neq; intros ?; apply Htt; f_equal; lia).
      rewrite IH. f_equal.
      change (render (Tag tag' :: ts)) with ([TextCommand; kTextCommandLangTag; 0x0020 + tag'; TextCommand] ++ render ts).
      rewrite length_app. simpl length. lia.
Qed.

(** Replacing a tag replaces its first occurrence and nothing else: in a
    string of characters and tags the tag found is the first one with that
    number, the other tags are passed over whole, and a string without the tag
    is left as it is. *)
Theorem replace_tag_first (pre post : list token) (tag : Z) (replacement : list Z) :
  Forall plain pre -> Forall plain post -> Forall (fun t => t <> Tag tag) pre ->
  ReplaceTag (render (pre ++ Tag tag :: post)) tag replacement
    = render pre ++ replacement ++ render post
  /\ (Forall (fun t => t <> Tag tag) post ->
      ReplaceTag (render (pre ++ post)) tag replacement = render (pre ++ post)).
Proof.
  intros Hp1 Hp2 Ht. unfold ReplaceTag, FindTagReplacementPosition. split.
  - unfold render. rewrite bind_app. fold (render pre).
    change ((Tag tag :: post) ≫= render_token)
      with ([TextCommand; kTextCommandLangTag; 0x0020 + tag; TextCommand] ++ render post).
    rewrite find_tag_prefix by done. cbn [app find_tag]. rewrite !Z.eqb_refl. cbn [andb].
    replace (0 + Z.of_nat (length (render pre)) <? 0) with false by (symmetry; apply Z.ltb_ge; lia).
    unfold Replace, kTagReplacementSize. rewrite Z.add_0_l, Nat2Z.id. f_equal; [|f_equal].
    + destruct (Z.ltb_spec 0 (Z.of_nat (length (render pre)))); [by rewrite take_app_length|].
      by rewrite (nil_length_inv (render pre)) by lia.
    + rewrite length_app. simpl length. destruct (Z.ltb_spec (Z.of_nat (length (render pre)) + Z.of_nat 4)
        (Z.of_nat (length (render pre) + S (S (S (S (length (render post)))))))).
      * by rewrite drop_app_add.
      * symmetry. apply nil_length_inv. unfold render in *. lia.
  - intros Ht2. rewrite <- (app_nil_r (render (pre ++ post))) at 1.
    rewrite find_tag_prefix by (by apply Forall_app). done.
Qed.

End Tags.

(** ** The rules of CLDR

    The plural rules as CLDR states them: for each category the condition on
    the operands of a number, as a disjunction of conjunctions of relations
    such as [i % 100 != 12..14]. *)

Record operands := mk_operands {
  o_integer : bool;  (* whether [n] is an integer, then equal to [o_i] *)
  o_i : Z; o_v : Z; o_w : Z; o_f : Z; o_t : Z }.

(** A number with visible fraction digits exactly when it is not an integer. *)
Definition valid_operands (o : operands) : Prop :=
  0 <= o_i o /\
  if o_integer o then o_v o = 0 /\ o_w o = 0 /\ o_f o = 0 /\ o_t o = 0
  else 0 < o_v o /\ o_w o = o_v o /\ 0 < o_f o /\ o_t o = o_f o.

Inductive operand := N | I | V | F | T.

(** [op % modulus = ranges], or [!=] when [negated]. *)
Record relation := mk_rel { op : operand; modulus : option Z; negated : bool; ranges : list (Z * Z) }.

Definition operand_value (o : operands) (x : operand) : option Z :=
  match x with
  | N => if o_integer o then Some (o_i o) else None
  | I => Some (o_i o) | V => Some (o_v o) | F => Some (o_f o) | T => Some (o_t o)
  end.

(** An operand that is not an integer is in no range. *)
Definition holds (o : operands) (r : relation) : bool :=
  let inside := match operand_value o (op r) with
    | None => false
    | Some x =>
        let x := match modulus r with None => x | Some m => x mod m end in
        existsb (fun ab => (ab.1 <=? x) && (x <=? ab.2)) (ranges r)
    end in
  if negated r then negb inside else inside.

Definition condition : Type := list (list relation).

Definition satisfied (o : operands) (c : condition) : bool := existsb (forallb (holds o)) c.

Fixpoint category (o : operands) (rules : list (Z * condition)) : Z :=
  match rules with
  | [] => kShiftOther
  | (shift, c) :: rules => if satisfied o c then shift else category o rules
  end.

Definition eq_ (x : operand) (rs : list (Z * Z)) : relation := mk_rel x None false rs.
Definition ne_ (x : operand) (rs : list (Z * Z)) : relation := mk_rel x None true rs.
Definition meq (x : operand) (m : Z) (rs : list (Z * Z)) : relation := mk_rel x (Some m) false rs.
Definition mne (x : operand) (m : Z) (rs : list (Z * Z)) : relation := mk_rel x (Some m) true rs.
Definition is_ (x : operand) (k : Z) : relation := eq_ x [(k, k)].
Definition isnt (x : operand) (k : Z) : relation := ne_ x [(k, k)].

Definition one_10 (x : operand) : list relation := [meq x 10 [(1, 1)]; mne x 100 [(11, 11)]].
Definition few_10 (x : operand) : list relation := [meq x 10 [(2, 4)]; mne x 100 [(12, 14)]].
Definition not469 (x : operand) : relation := mne x 10 [(4, 4); (6, 6); (9, 9)].
Definition v0 : relation := is_ V 0.

Definition cldr (m : ChoosePluralMethod) : list (Z * condition) :=
  match m with
  | M1 => []
  | M2fil => [(kShiftOne, [[v0; eq_ I [(1, 3)]]; [v0; not469 I]; [isnt V 0; not469 F]])]
  | M2tzm => [(kShiftOne, [[eq_ N [(0, 1)]]; [eq_ N [(11, 99)]]])]
  | M2is => [(kShiftOne, [is_ T 0 :: one_10 I; [isnt T 0]])]
  | M2mk => [(kShiftOne, [v0 :: one_10 I; one_10 F])]
  | M2ak | M2bh => [(kShiftOne, [[eq_ N [(0, 1)]]])]
  | M2am => [(kShiftOne, [[is_ I 0]; [is_ N 1]])]
  | M2hy => [(kShiftOne, [[eq_ I [(0, 1)]]])]
  | M2si => [(kShiftOne, [[eq_ N [(0, 1)]]; [is_ I 0; is_ F 1]])]
  | M2af => [(kShiftOne, [[is_ N 1]])]
  | M2ast => [(kShiftOne, [[is_ I 1; v0]])]
  | M2da => [(kShiftOne, [[is_ N 1]; [isnt T 0; eq_ I [(0, 1)]]])]
  | M3lv =>
      [(kShiftZero, [[meq N 10 [(0, 0)]]; [meq N 100 [(11, 19)]]; [is_ V 2; meq F 100 [(11, 19)]]]);
       (kShiftOne, [one_10 N; is_ V 2 :: one_10 F; [isnt V 2; meq F 10 [(1, 1)]]])]
  | M3ksh => [(kShiftZero, [[is_ N 0]]); (kShiftOne, [[is_ N 1]])]
  | M3lag => [(kShiftZero, [[is_ N 0]]); (kShiftOne, [[eq_ I [(0, 1)]; isnt N 0]])]
  | M3kw => [(kShiftOne, [[is_ N 1]]); (kShiftTwo, [[is_ N 2]])]
  | M3bs => [(kShiftOne, [v0 :: one_10 I; one_10 F]); (kShiftFew, [v0 :: few_10 I; few_10 F])]
  | M3shi => [(kShiftOne, [[is_ I 0]; [is_ N 1]]); (kShiftFew, [[eq_ N [(2, 10)]]])]
  | M3mo =>
      [(kShiftOne, [[is_ I 1; v0]]);
       (kShiftFew, [[isnt V 0]; [is_ N 0]; [isnt N 1; meq N 100 [(1, 19)]]])]
  | M4be =>
      [(kShiftOne, [one_10 N]); (kShiftFew, [few_10 N]);
       (kShiftMany, [[meq N 10 [(0, 0)]]; [meq N 10 [(5, 9)]]; [meq N 100 [(11, 14)]]])]
  | M4ru =>
      [(kShiftOne, [v0 :: one_10 I]); (kShiftFew, [v0 :: few_10 I]);
       (kShiftMany, [[v0; meq I 10 [(0, 0)]]; [v0; meq I 10 [(5, 9)]]; [v0; meq I 100 [(11, 14)]]])]
  | M4pl =>
      [(kShiftOne, [[is_ I 1; v0]]); (kShiftFew, [v0 :: few_10 I]);
       (kShiftMany, [[v0; isnt I 1; meq I 10 [(0, 1)]]; [v0; meq I 10 [(5, 9)]]; [v0; meq I 100 [(12, 14)]]])]
  | M4lt =>
      [(kShiftOne, [[meq N 10 [(1, 1)]; mne N 100 [(11, 19)]]]);
       (kShiftFew, [[meq N 10 [(2, 9)]; mne N 100 [(11, 19)]]]); (kShiftMany, [[isnt F 0]])]
  | M4cs =>
      [(kShiftOne, [[is_ I 1; v0]]); (kShiftFew, [[eq_ I [(2, 4)]; v0]]); (kShiftMany, [[isnt V 0]])]
  | M4gd =>
      [(kShiftOne, [[eq_ N [(1, 1); (11, 11)]]]); (kShiftTwo, [[eq_ N [(2, 2); (12, 12)]]]);
       (kShiftFew, [[eq_ N [(3, 10); (13, 19)]]])]
  | M4dsb =>
      [(kShiftOne, [[v0; meq I 100 [(1, 1)]]; [meq F 100 [(1, 1)]]]);
       (kShiftTwo, [[v0; meq I 100 [(2, 2)]]; [meq F 100 [(2, 2)]]]);
       (kShiftFew, [[v0; meq I 100 [(3, 4)]]; [meq F 100 [(3, 4)]]])]
  | M4sl =>
      [(kShiftOne, [[v0; meq I 100 [(1, 1)]]]); (kShiftTwo, [[v0; meq I 100 [(2, 2)]]]);
       (kShiftFew, [[v0; meq I 100 [(3, 4)]]; [isnt V 0]])]
  | M4he =>
      [(kShiftOne, [[is_ I 1; v0]]); (kShiftTwo, [[is_ I 2; v0]]);
       (kShiftMany, [[v0; ne_ N [(0, 10)]; meq N 10 [(0, 0)]]])]
  | M4mt =>
      [(kShiftOne, [[is_ N 1]]); (kShiftFew, [[is_ N 0]; [meq N 100 [(2, 10)]]]);
       (kShiftMany, [[meq N 100 [(11, 19)]]])]
  | M5gv =>
      [(kShiftOne, [[v0; meq I 10 [(1, 1)]]]); (kShiftTwo, [[v0; meq I 10 [(2, 2)]]]);
       (kShiftFew, [[v0; meq I 100 [(0, 0); (20, 20); (40, 40); (60, 60); (80, 80)]]]);
       (kShiftMany, [[isnt V 0]])]
  | M5br =>
      [(kShiftOne, [[meq N 10 [(1, 1)]; mne N 100 [(11, 11); (71, 71); (91, 91)]]]);
       (kShiftTwo, [[meq N 10 [(2, 2)]; mne N 100 [(12, 12); (72, 72); (92, 92)]]]);
       (kShiftFew, [[meq N 10 [(3, 4); (9, 9)]; mne N 100 [(10, 19); (70, 79); (90, 99)]]]);
       (kShiftMany, [[isnt N 0; meq N 1000000 [(0, 0)]]])]
  | M5ga =>
      [(kShiftOne, [[is_ N 1]]); (kShiftTwo, [[is_ N 2]]); (kShiftFew, [[eq_ N [(3, 6)]]]);
       (kShiftMany, [[eq_ N [(7, 10)]]])]
  | M6ar =>
      [(kShiftZero, [[is_ N 0]]); (kShiftOne, [[is_ N 1]]); (kShiftTwo, [[is_ N 2]]);
       (kShiftFew, [[meq N 100 [(3, 10)]]]); (kShiftMany, [[meq N 100 [(11, 99)]]])]
  | M6cy =>
      [(kShiftZero, [[is_ N 0]]); (kShiftOne, [[is_ N 1]]); (kShiftTwo, [[is_ N 2]]);
       (kShiftFew, [[is_ N 3]]); (kShiftMany, [[is_ N 6]])]
  end.

(** The operands as [Plural] passes them to a rule. *)
Definition call_on (m : ChoosePluralMethod) (o : operands) : Z :=
  call m (if o_integer o then o_i o else -1) (o_i o) (o_v o) (o_w o) (o_f o) (o_t o).


(** *** The rules are those of CLDR *)

(** Both sides as nested tests on the operands. *)
Ltac expand_rule :=
  cbv [category satisfied existsb forallb holds cldr operand_value negated op modulus ranges
    eq_ ne_ meq mne is_ isnt one_10 few_10 not469 v0 fst snd call
    o_integer o_i o_v o_w o_f o_t
    ChoosePlural1 ChoosePlural2fil ChoosePlural2tzm ChoosePlural2is ChoosePlural2mk
    ChoosePlural2ak ChoosePlural2am ChoosePlural2hy ChoosePlural2si ChoosePlural2bh
    ChoosePlural2af ChoosePlural2ast ChoosePlural2da ChoosePlural3lv ChoosePlural3ksh
    ChoosePlural3lag ChoosePlural3kw ChoosePlural3bs ChoosePlural3shi ChoosePlural3mo
    ChoosePlural4be ChoosePlural4ru ChoosePlural4pl ChoosePlural4lt ChoosePlural4cs
    ChoosePlural4gd ChoosePlural4dsb ChoosePlural4sl ChoosePlural4he ChoosePlural4mt
    ChoosePlural5gv ChoosePlural5br ChoosePlural5ga ChoosePlural6ar ChoosePlural6cy].

(** Every test is a case, and a pair of cases gives equal shifts or is
    contradictory. *)
Ltac by_tests :=
  repeat match goal with
  | |- context [if ?b then _ else _] => destruct b eqn:?
  end; try reflexivity; exfalso; lia.

(** The last digits of a number. *)
Lemma last_digits (x : Z) :
  0 <= x -> exists a b c p q r, x mod 10 = a /\ x mod 100 = b /\ x mod 20 = c
    /\ b = 10 * q + a /\ x = 100 * p + b /\ b = 20 * r + c
    /\ 0 <= a < 10 /\ 0 <= q < 10 /\ 0 <= c < 20 /\ 0 <= r < 5 /\ 0 <= p.
Proof.
  intros Hx. exists (x mod 10), (x mod 100), (x mod 20), (x / 100), ((x mod 100) / 10), ((x mod 100) / 20).
  Z.to_euclidean_division_equations. lia.
Qed.

Lemma crem_mod (x k : Z) : 0 <= x -> 0 < k -> crem x k = x mod k.
Proof. intros. unfold crem. by apply Z.rem_mod_nonneg. Qed.

Lemma rule_on_integer (m : ChoosePluralMethod) (i : Z) :
  0 <= i -> call_on m (mk_operands true i 0 0 0 0) = category (mk_operands true i 0 0 0 0) (cldr m).
Proof.
  intros Hi. unfold call_on.
  pose proof (last_digits i Hi) as (a & b & c & p & q & r & Ea & Eb & Ec & H).
  pose proof (crem_mod i 1000000 Hi ltac:(lia)) as Em.
  pose proof (crem_mod i 10 Hi ltac:(lia)) as E1. pose proof (crem_mod i 100 Hi ltac:(lia)) as E2.
  pose proof (crem_mod i 20 Hi ltac:(lia)) as E3. rewrite Ea in E1. rewrite Eb in E2. rewrite Ec in E3.
  destruct m; expand_rule; rewrite ?E1, ?E2, ?E3, ?Em, ?Ea, ?Eb;
    change (crem 0 10) with 0; change (crem 0 100) with 0; change (0 mod 10) with 0;
    change (0 mod 100) with 0; clear E1 E2 E3 Em Ea Eb Ec; generalize (i mod 1000000) as y; intros y;
    by_tests.
Qed.

Lemma rule_on_fraction (m : ChoosePluralMethod) (i v f : Z) :
  0 <= i -> 0 < v -> 0 < f ->
  call_on m (mk_operands false i v v f f) = category (mk_operands false i v v f f) (cldr m).
Proof.
  intros Hi Hv Hf. unfold call_on.
  pose proof (last_digits f ltac:(lia)) as (a & b & c & p & q & r & Ea & Eb & Ec & H).
  pose proof (crem_mod f 10 ltac:(lia) ltac:(lia)) as E1.
  pose proof (crem_mod f 100 ltac:(lia) ltac:(lia)) as E2.
  rewrite Ea in E1. rewrite Eb in E2.
  destruct m; expand_rule; rewrite ?E1, ?E2, ?Ea, ?Eb;
    change (crem (-1) 10) with (-1); change (crem (-1) 100) with (-1); change (crem (-1) 1000000) with (-1);
    clear E1 E2 Ea Eb Ec; generalize (crem i 10) as i1; intros i1; generalize (crem i 100) as i2; intros i2;
    generalize (crem i 20) as i3; intros i3; generalize (i mod 10) as i4; intros i4;
    generalize (i mod 100) as i5; intros i5; by_tests.
Qed.

(** C37. Every plural rule is the CLDR rule of its languages: for every number,
    integer or not, the shift chosen by the code, which is given -1 for [n]
    when the number is not an integer, is the first category whose CLDR
    condition the operands satisfy. *)
Theorem plural_rules_are_cldr (m : ChoosePluralMethod) (o : operands) :
  valid_operands o -> call_on m o = category o (cldr m).
Proof.
  destruct o as [int i v w f t]. unfold valid_operands. cbn [o_i o_integer o_v o_w o_f o_t].
  intros [Hi H]. destruct int.
  - destruct H as (-> & -> & -> & ->). by apply rule_on_integer.
  - destruct H as (Hv & -> & Hf & ->). by apply rule_on_fraction.
Qed.

(** *** The choice of the rule *)

Lemma find_rule_keys :
  forallb (fun e => bool_decide (find_rule (PluralsKey (codes e.1)) = Some e.2)) GeneratePluralRulesMap = true.
Proof. by vm_compute. Qed.

(** The key pushed by the loop is [PluralsKey]; the parent is the key before
    the first separator, and stays. *)
Lemma key_loop_key (l : list Z) (parent key : Z) :
  (foldl key_step (parent, key) l).2 = foldl (fun data ch => push_char data (ConvertKeyChar ch)) key l.
Proof. revert parent key. induction l as [|ch l IH]; intros; simpl; [done|apply IH]. Qed.

Lemma key_loop_before (l : list Z) (key : Z) :
  Forall (fun ch => ConvertKeyChar ch <> 45) l -> (foldl key_step (0, key) l).1 = 0.
Proof.
  intros H. revert key. induction H as [|ch l Hch Hl IH]; intros key; simpl; [done|].
  destruct (Z.eqb_spec (ConvertKeyChar ch) 45); [done|]. apply IH.
Qed.

Lemma key_loop_after (l : list Z) (parent key : Z) :
  parent <> 0 -> (foldl key_step (parent, key) l).1 = parent.
Proof.
  intros Hp. revert key. induction l as [|ch l IH]; intros key; simpl; [done|].
  replace ((ConvertKeyChar ch =? 45) && (parent =? 0)) with false; [apply IH|].
  symmetry. apply andb_false_iff. right. by apply Z.eqb_neq.
Qed.

Lemma update_rules_key (l : list Z) :
  Forall (fun ch => ConvertKeyChar ch <> 45) l ->
  UpdatePluralRules l = default M1 (find_rule (PluralsKey l)).
Proof.
  intros Hl. unfold UpdatePluralRules. pose proof (key_loop_before l 0 Hl) as Hp.
  pose proof (key_loop_key l 0 0) as Hk. destruct (foldl key_step (0, 0) l) as [parent key].
  cbn [fst snd] in *. subst. unfold PluralsKey. by destruct (find_rule _).
Qed.

(** The rule of a language: an id listed in the table, in any case and
    with either separator, gets its own rule; a regional variant that is not
    listed gets the rule of its language; a language that is not listed gets
    the rule with a single form. *)
Theorem language_rule (language region : list Z) (separator : Z) :
  Forall (fun ch => ConvertKeyChar ch <> 45) language -> PluralsKey language <> 0 ->
  ConvertKeyChar separator = 45 ->
  UpdatePluralRules language = default M1 (find_rule (PluralsKey language))
  /\ UpdatePluralRules (language ++ separator :: region)
     = match find_rule (PluralsKey (language ++ separator :: region)) with
       | Some m => m
       | None => UpdatePluralRules language
       end
  /\ (forall e, e ∈ GeneratePluralRulesMap -> find_rule (PluralsKey (codes e.1)) = Some e.2).
Proof.
  intros Hl Hne Hsep. rewrite update_rules_key by done. split_and!; [done| |].
  - unfold UpdatePluralRules. set (whole := language ++ separator :: region).
    pose proof (key_loop_key whole 0 0) as Hk.
    assert ((foldl key_step (0, 0) whole).1 = PluralsKey language) as Hp.
    { subst whole. rewrite foldl_app. pose proof (key_loop_before language 0 Hl) as Hp.
      pose proof (key_loop_key language 0 0) as Hk2.
      destruct (foldl key_step (0, 0) language) as [parent key]. cbn [fst snd] in *. subst parent.
      simpl. rewrite Hsep. simpl. rewrite Hk2. by apply key_loop_after. }
    destruct (foldl key_step (0, 0) whole) as [parent key]. cbn [fst snd] in *. subst parent.
    rewrite Hk. fold (PluralsKey whole).
    replace (PluralsKey language =? 0) with false by (symmetry; by apply Z.eqb_neq).
    destruct (find_rule (PluralsKey whole)); [done|]. by destruct (find_rule (PluralsKey language)).
  - intros e He. pose proof find_rule_keys as H. rewrite forallb_forall in H.
    specialize (H e (proj1 (list_elem_of_In _ e) He)). by apply bool_decide_eq_true in H.
Qed.

(** *** Short counts *)

(** The code multiplies by the sign before it divides by ten, towards zero. *)
Lemma signed_quot (n r : Z) : n <> 0 -> 0 <= r ->
  cquot ((if 0 <? n then 1 else -1) * r) 10 = Z.sgn n * (r / 10).
Proof.
  intros Hn Hr. unfold cquot. destruct (Z.ltb_spec 0 n).
  - rewrite Z.sgn_pos by lia. rewrite !Z.mul_1_l, Z.quot_div_nonneg by lia. done.
  - rewrite Z.sgn_neg by lia. replace (-1 * r) with (- r) by lia.
    rewrite Z.quot_opp_l, Z.quot_div_nonneg by lia. lia.
Qed.

Lemma shorten_text (n tenth suffix : Z) : 0 < tenth -> n <> 0 ->
  text (shorten n (tenth * 10) suffix)
  = number_string (Z.sgn n * (Z.abs n / tenth / 10))
    ++ (if (Z.abs n / tenth) mod 10 =? 0 then [] else [46; 48 + (Z.abs n / tenth) mod 10]) ++ [suffix].
Proof.
  intros Ht Hn. unfold shorten. cbn [text].
  replace (cquot (tenth * 10) 10) with tenth by (unfold cquot; by rewrite Z.quot_mul).
  replace (cquot (Z.abs n) tenth) with (Z.abs n / tenth)
    by (unfold cquot; by rewrite Z.quot_div_nonneg by lia).
  assert (0 <= Z.abs n / tenth) as Hr by (apply Z.div_pos; lia).
  set (r := Z.abs n / tenth) in *.
  replace (crem r 10) with (r mod 10) by (unfold crem; by rewrite Z.rem_mod_nonneg by lia).
  rewrite signed_quot by lia. pose proof (Z.mod_pos_bound r 10 ltac:(lia)) as Hm.
  destruct (Z.eqb_spec (r mod 10) 0) as [E|E]; cbn [negb]; [done|].
  by rewrite (digit_string (r mod 10)) by lia.
Qed.

Lemma shorten_value (n tenth : Z) : 0 < tenth -> Z.abs n < 10 ^ 18 ->
  let whole := Z.abs n / tenth / 10 in let frac := (Z.abs n / tenth) mod 10 in
  whole * 10 + frac = Z.abs n / tenth /\ 0 <= frac < 10
  /\ decimal_value (number_string (Z.sgn n * whole)) = Z.sgn n * whole.
Proof.
  intros Ht Hn whole frac. subst whole frac. pose proof (Z.div_mod (Z.abs n / tenth) 10).
  pose proof (Z.mod_pos_bound (Z.abs n / tenth) 10).
  split_and!; [lia|lia|lia|]. apply number_string_value.
  assert (0 <= Z.abs n / tenth <= Z.abs n).
  { split; [apply Z.div_pos; lia|]. apply Z.div_le_upper_bound; nia. }
  assert (0 <= Z.abs n / tenth / 10 <= Z.abs n / tenth).
  { split; [apply Z.div_pos; lia|]. apply Z.div_le_upper_bound; nia. }
  rewrite Z.abs_mul. assert (Z.abs (Z.sgn n) <= 1) by lia. nia.
Qed.

(** The short form of a count: below ten thousand the number itself; above,
    thousands or millions, cut (not rounded up) to one digit after the point,
    which is left out when it is zero, with the sign kept. *)
Theorem short_count_text (n : Z) :
  Z.abs n < 10 ^ 18 ->
  let short := FormatCountToShort n in
  (Z.abs n < 10000 -> number short = n /\ text short = number_string n /\ decimal_value (text short) = n)
  /\ (10000 <= Z.abs n -> exists tenth suffix whole frac,
        (tenth, suffix) = (if 1000000 <=? Z.abs n then (100000, 77) else (100, 75))
        /\ whole * 10 + frac = Z.abs n / tenth /\ 0 <= frac < 10
        /\ text short = number_string (Z.sgn n * whole)
             ++ (if frac =? 0 then [] else [46; 48 + frac]) ++ [suffix]
        /\ decimal_value (number_string (Z.sgn n * whole)) = Z.sgn n * whole).
Proof.
  intros Hn short. subst short. unfold FormatCountToShort. split.
  - intros Hlt. replace (1000000 <=? Z.abs n) with false by (symmetry; apply Z.leb_gt; lia).
    replace (10000 <=? Z.abs n) with false by (symmetry; apply Z.leb_gt; lia).
    split_and!; [done|done|]. apply number_string_value. lia.
  - intros Hge. destruct (Z.leb_spec 1000000 (Z.abs n)).
    + exists 100000, 77, (Z.abs n / 100000 / 10), ((Z.abs n / 100000) mod 10).
      destruct (shorten_value n 100000) as (H1 & H2 & H3); [lia|done|].
      split_and!; [done|done|apply H2|apply H2| |done].
      change 1000000 with (100000 * 10). by rewrite shorten_text by lia.
    + replace (10000 <=? Z.abs n) with true by (symmetry; apply Z.leb_le; lia).
      exists 100, 75, (Z.abs n / 100 / 10), ((Z.abs n / 100) mod 10).
      destruct (shorten_value n 100) as (H1 & H2 & H3); [lia|done|].
      split_and!; [done|done|apply H2|apply H2| |done].
      change 1000 with (100 * 10). by rewrite shorten_text by lia.
Qed.

(** The number returned with the short form is ten times the one shown: the
    comment says 12345 becomes 12000. *)
Lemma short_count_number :
  FormatCountToShort 12345 = mk_shortened 123000 [49; 50; 46; 51; 75].
Proof. by vm_compute. Qed.

(** *** Witnesses *)

Lemma replace_tag_first_witness :
  ReplaceTag 16 (render 16 [Char 65; Tag 1; Char 66; Tag 2; Tag 1]) 1 [88] = [65; 88; 66; 16; 32; 34; 16; 16; 32; 33; 16].
Proof.
  destruct (replace_tag_first 16 [Char 65] [Char 66; Tag 2; Tag 1] 1 [88]) as [H _];
    [repeat constructor; simpl; lia|repeat constructor; simpl; lia|by repeat constructor|exact H].
Defined.

(** 1.5 in Russian: i = 1, one visible digit 5. *)
Lemma plural_rules_are_cldr_witness :
  call_on M4ru (mk_operands false 1 1 1 5 5) = kShiftOther
  /\ call_on M4ru (mk_operands true 22 0 0 0 0) = kShiftFew.
Proof.
  rewrite (plural_rules_are_cldr M4ru (mk_operands false 1 1 1 5 5)) by (unfold valid_operands; simpl; lia).
  rewrite (plural_rules_are_cldr M4ru (mk_operands true 22 0 0 0 0)) by (unfold valid_operands; simpl; lia).
  split; by vm_compute.
Defined.

Lemma language_rule_witness : UpdatePluralRules (codes "ru_RU") = M4ru.
Proof.
  destruct (language_rule (codes "ru") (codes "RU") 95) as (H1 & H2 & _);
    [by repeat constructor|by vm_compute|done|].
  change (codes "ru_RU") with (codes "ru" ++ 95 :: codes "RU"). rewrite H2, H1. by vm_compute.
Defined.

Lemma short_count_text_witness : text (FormatCountToShort (-15678)) = [45; 49; 53; 46; 54; 75].
Proof.
  destruct (short_count_text (-15678)) as [_ H]; [lia|].
  destruct H as (tenth & suffix & whole & frac & [= -> ->] & E & Hf & -> & _); [lia|].
  assert (whole = 15 /\ frac = 6) as [-> ->] by (change (Z.abs (-15678) / 100) with 156 in E; lia).
  by vm_compute.
Defined.
