(* ===== verification/Cards.v ===== *)
(** * Bank cards

    [payments/stripe/stripe_card_validator.cpp] and the brand tables of
    [payments/stripe/stripe_card.cpp]: the validation of a card number, of an
    expiration date and of a security code.

    [std::sort] may order equivalent elements in any way: it is a parameter,
    the class [StdSort], whose laws are those of the standard. The current date
    is an argument. Strings are lists of code units; [\s] stands for the ASCII
    white space. *)

From S2P Require Import Prelude Text.

(** ** Sorting *)

Definition strict_weak {A} (lt : A -> A -> bool) : Prop :=
  (forall a b, lt a b = true -> lt b a = false)
  /\ (forall a b c, lt a b = false -> lt b c = false -> lt a c = false).

Class StdSort := {
  std_sort {A : Type} (lt : A -> A -> bool) (l : list A) : list A;
  std_sort_perm {A : Type} (lt : A -> A -> bool) (l : list A) : std_sort lt l ≡ₚ l;
  std_sort_sorted {A : Type} (lt : A -> A -> bool) (l : list A) :
    strict_weak lt -> StronglySorted (fun a b => lt b a = false) (std_sort lt l) }.

(** ** Data *)

Definition kMinCvcLength : nat := 3.

Inductive CardBrand := Visa | Amex | MasterCard | Discover | JCB | DinersClub | UnionPay | Unknown.

#[global] Instance CardBrand_eq_dec : EqDecision CardBrand.
Proof. solve_decision. Defined.

Inductive ValidationState := Invalid | Incomplete | Valid.

Record CardValidationResult := mk_card_result {
  state : ValidationState; card_brand : CardBrand; finished : bool }.
Record ValidationResult := mk_result { result_state : ValidationState; result_finished : bool }.

Record BinRange := mk_range { low : list Z; high : list Z; size : nat; brand : CardBrand }.

Definition range (lo hi : string) (n : nat) (b : CardBrand) : BinRange := mk_range (codes lo) (codes hi) n b.

Definition AllRanges : list BinRange := [
  (* Unknown *)
  range "" "" 19 Unknown;
  (* American Express *)
  range "34" "34" 15 Amex;
  range "37" "37" 15 Amex;
  (* Diners Club *)
  range "30" "30" 16 DinersClub;
  range "36" "36" 14 DinersClub;
  range "38" "39" 16 DinersClub;
  (* Discover *)
  range "60" "60" 16 Discover;
  range "64" "65" 16 Discover;
  (* JCB *)
  range "35" "35" 16 JCB;
  (* Mastercard *)
  range "50" "59" 16 MasterCard;
  range "22" "27" 16 MasterCard;
  range "67" "67" 16 MasterCard;
  (* UnionPay *)
  range "62" "62" 16 UnionPay;
  range "81" "81" 16 UnionPay;
  (* Visa *)
  range "40" "49" 16 Visa;
  range "413600" "413600" 13 Visa;
  range "444509" "444509" 13 Visa;
  range "444509" "444509" 13 Visa;
  range "444550" "444550" 13 Visa;
  range "450603" "450603" 13 Visa;
  range "450617" "450617" 13 Visa;
  range "450628" "450629" 13 Visa;
  range "450636" "450636" 13 Visa;
  range "450640" "450641" 13 Visa;
  range "450662" "450662" 13 Visa;
  range "463100" "463100" 13 Visa;
  range "476142" "476142" 13 Visa;
  range "476143" "476143" 13 Visa;
  range "492901" "492902" 13 Visa;
  range "492920" "492920" 13 Visa;
  range "492923" "492923" 13 Visa;
  range "492928" "492930" 13 Visa;
  range "492937" "492937" 13 Visa;
  range "492939" "492939" 13 Visa;
  range "492960" "492960" 13 Visa].

(** ** Operations *)

(** [toInt] of a string of at most nine digits; it is called on no other. *)
Definition toInt (s : list Z) : Z := foldl digit_step 0 s.

Definition BinRangeMatchesNumber (r : BinRange) (sanitized : list Z) : bool :=
  let minWithLow := Nat.min (length sanitized) (length (low r)) in
  if toInt (take minWithLow sanitized) <? toInt (take minWithLow (low r)) then false else
  let minWithHigh := Nat.min (length sanitized) (length (high r)) in
  if toInt (take minWithHigh (high r)) <? toInt (take minWithHigh sanitized) then false else
  true.

(** [^[0-9]*$]: [$] also matches before a line feed that ends the string. *)
Fixpoint IsNumeric (value : list Z) : bool :=
  match value with
  | [] => true
  | [c] => is_digit c || (c =? 10)
  | c :: value => is_digit c && IsNumeric value
  end.

Definition is_space (c : Z) : bool := (c =? 32) || ((9 <=? c) && (c <=? 13)).

Definition RemoveWhitespaces (value : list Z) : list Z := filter (fun c => is_space c = false) value.

Definition BinRangesForNumber (sanitized : list Z) : list BinRange :=
  filter (fun r => BinRangeMatchesNumber r sanitized = true) AllRanges.

(** The order of the ranges, for [std::sort]. *)
Definition compare_ranges (sanitized : list Z) (a b : BinRange) : bool :=
  let by_size := bool_decide (length (low a) < length (low b))%nat in
  match sanitized with
  | [] =>
      let aUnknown := bool_decide (brand a = Unknown) in
      let bUnknown := bool_decide (brand b = Unknown) in
      if aUnknown && negb bUnknown then true
      else if negb aUnknown && bUnknown then false
      else by_size
  | _ => by_size
  end.

(** [None]: [back()] of an empty vector. *)
Definition MostSpecificBinRangeForNumber `{StdSort} (sanitized : list Z) : option BinRange :=
  last (std_sort (compare_ranges sanitized) (BinRangesForNumber sanitized)).

Definition MaxCvcLengthForBranch (b : CardBrand) : nat :=
  match b with Amex | Unknown => 4 | _ => 3 end.

Definition PossibleBrandsForNumber (sanitized : list Z) : list CardBrand :=
  foldl (fun result r =>
    if bool_decide (brand r = Unknown) || bool_decide (brand r ∈ result) then result
    else result ++ [brand r]) [] (BinRangesForNumber sanitized).

Definition BrandForNumber (number : list Z) : CardBrand :=
  let sanitized := RemoveWhitespaces number in
  if negb (IsNumeric sanitized) then Unknown else
  match PossibleBrandsForNumber sanitized with [b] => b | _ => Unknown end.

(** One digit of the Luhn sum; the loop goes over the digits from the last. *)
Definition luhn_step (acc : bool * Z) (c : Z) : bool * Z :=
  let '(odd, sum) := acc in
  let digit := c - 48 in
  let odd := negb odd in
  let digit := if odd then digit * 2 else digit in
  let digit := if 9 <? digit then digit - 9 else digit in
  (odd, sum + digit).

Definition IsValidLuhn (sanitized : list Z) : bool :=
  crem (foldl luhn_step (true, 0) (reverse sanitized)).2 10 =? 0.

Definition ValidateCard `{StdSort} (number : list Z) : option CardValidationResult :=
  let sanitized := RemoveWhitespaces number in
  if negb (IsNumeric sanitized) then Some (mk_card_result Invalid Unknown false) else
  if bool_decide (sanitized = []) then Some (mk_card_result Incomplete Unknown false) else
  r <-? MostSpecificBinRangeForNumber sanitized ;
  Some (if bool_decide (size r < length sanitized)%nat then mk_card_result Invalid (brand r) false
        else if bool_decide (length sanitized < size r)%nat then mk_card_result Incomplete (brand r) false
        else if negb (IsValidLuhn sanitized) then mk_card_result Invalid (brand r) false
        else mk_card_result Valid (brand r) true).

(** The current year and month are arguments. *)
Definition ValidateExpireDate (currentYear currentMonth : Z) (date : list Z) : ValidationResult :=
  let sanitized := filter (fun c => c <> 47) (RemoveWhitespaces date) in
  if negb (IsNumeric sanitized) then mk_result Invalid false else
  if bool_decide (length sanitized < 2)%nat then mk_result Incomplete false else
  let normalized := (if 49 <? default 0 (head sanitized) then [48] else []) ++ sanitized in
  let month := toInt (mid normalized 0 2) in
  if (month <? 1) || (12 <? month) then mk_result Invalid false else
  if bool_decide (length normalized < 4)%nat then mk_result Incomplete false else
  if bool_decide (4 < length normalized)%nat then mk_result Invalid false else
  let year := 2000 + toInt (mid normalized 2 (-1)) in
  if year <? currentYear then mk_result Invalid false else
  if (year =? currentYear) && (month <? currentMonth) then mk_result Invalid false else
  mk_result Valid true.

(** [arg(value, 2, 10, QChar('0'))] *)
Definition two_digits (value : Z) : list Z :=
  let s := number_string value in replicate (2 - length s) 48 ++ s.

Definition ValidateParsedExpireDate (currentYear currentMonth month year : Z) : ValidationState :=
  if negb (year / 100 =? 20) then Invalid else
  result_state (ValidateExpireDate currentYear currentMonth (two_digits month ++ two_digits (year mod 100))).

Definition ValidateCvc (number cvc : list Z) : ValidationResult :=
  if negb (IsNumeric cvc) then mk_result Invalid false else
  if bool_decide (length cvc < kMinCvcLength)%nat then mk_result Incomplete false else
  let maxLength := MaxCvcLengthForBranch (BrandForNumber number) in
  if bool_decide (maxLength < length cvc)%nat then mk_result Invalid false else
  mk_result Valid (bool_decide (length cvc = maxLength)).

Definition CardNumberFormat `{StdSort} (number : list Z) : option (list nat) :=
  let kDefault := [4; 4; 4; 4]%nat in
  let sanitized := RemoveWhitespaces number in
  if negb (IsNumeric sanitized) then Some kDefault else
  r <-? MostSpecificBinRangeForNumber sanitized ;
  Some (if bool_decide (brand r = DinersClub) && bool_decide (size r = 14%nat) then [4; 6; 4]%nat
        else if bool_decide (brand r = Amex) then [4; 6; 5]%nat
        else kDefault).

(** ** Brand names *)

Definition string_is (s : list Z) (name : string) : bool := bool_decide (s = codes name).

Definition BrandFromString (b : list Z) : CardBrand :=
  if string_is b "visa" then Visa
  else if string_is b "american express" then Amex
  else if string_is b "mastercard" then MasterCard
  else if string_is b "discover" then Discover
  else if string_is b "jcb" then JCB
  else if string_is b "diners club" then DinersClub
  else Unknown.

(** [None]: the call aborts the program. *)
Definition CardBrandToString (b : CardBrand) : option (list Z) :=
  match b with
  | Amex => Some (codes "American Express")
  | DinersClub => Some (codes "Diners Club")
  | Discover => Some (codes "Discover")
  | JCB => Some (codes "JCB")
  | MasterCard => Some (codes "MasterCard")
  | Unknown => Some (codes "Unknown")
  | Visa => Some (codes "Visa")
  | UnionPay => None
  end.

(** A brand read from a card can be shown: only [UnionPay], which is never read, has no name. *)
Lemma decoded_brand_has_name (s : list Z) : is_Some (CardBrandToString (BrandFromString s)).
Proof. unfold BrandFromString. repeat case_match; eauto. Qed.

(** ** The Luhn sum *)

(** The contribution of the digit [d], doubled or not. *)
Definition luhn_digit (doubled : bool) (d : Z) : Z :=
  let d := if doubled then d * 2 else d in if 9 <? d then d - 9 else d.

(** The sum as the standard defines it: every second digit from the last is
    doubled and the decimal digits of the products are added. *)
Fixpoint luhn_sum (doubled : bool) (l : list Z) : Z :=
  match l with
  | [] => 0
  | c :: l => (if doubled then 2 * (c - 48) / 10 + 2 * (c - 48) mod 10 else c - 48) + luhn_sum (negb doubled) l
  end.

Definition all_digits (s : list Z) : Prop := Forall (fun c => is_digit c = true) s.

Lemma is_digit_range (c : Z) : is_digit c = true <-> 48 <= c <= 57.
Proof. unfold is_digit. rewrite andb_true_iff. lia. Qed.

Lemma luhn_fold (l : list Z) (odd : bool) (sum : Z) :
  (foldl luhn_step (odd, sum) l).2 = sum + foldr (fun c k b => luhn_digit b (c - 48) + k (negb b)) (fun _ => 0) l (negb odd).
Proof.
  revert odd sum. induction l as [|c l IH]; intros odd sum; simpl; [lia|].
  rewrite IH. unfold luhn_digit. lia.
Qed.

Definition luhn_total (l : list Z) (b : bool) : Z :=
  foldr (fun c k b => luhn_digit b (c - 48) + k (negb b)) (fun _ => 0) l b.

Fixpoint flips (n : nat) (b : bool) : bool := match n with O => b | S n => flips n (negb b) end.

Lemma luhn_total_app (l k : list Z) (b : bool) :
  luhn_total (l ++ k) b = luhn_total l b + luhn_total k (flips (length l) b).
Proof.
  revert b. induction l as [|c l IH]; intros b; [done|].
  change (luhn_digit b (c - 48) + luhn_total (l ++ k) (negb b)
    = luhn_digit b (c - 48) + luhn_total l (negb b) + luhn_total k (flips (length l) (negb b))).
  rewrite IH. lia.
Qed.

Lemma luhn_total_nonneg (l : list Z) (b : bool) : all_digits l -> 0 <= luhn_total l b.
Proof.
  intros H. revert b. induction H as [|c l Hc H IH]; intros b; [done|].
  change (0 <= luhn_digit b (c - 48) + luhn_total l (negb b)). specialize (IH (negb b)).
  apply is_digit_range in Hc. unfold luhn_digit.
  destruct b; [destruct (Z.ltb_spec 9 ((c - 48) * 2))|destruct (Z.ltb_spec 9 (c - 48))]; lia.
Qed.

Lemma luhn_total_sum (l : list Z) (b : bool) : all_digits l -> luhn_total l b = luhn_sum b l.
Proof.
  intros H. revert b. induction H as [|c l Hc H IH]; intros b; [done|].
  change (luhn_digit b (c - 48) + luhn_total l (negb b) = luhn_sum b (c :: l)). cbn [luhn_sum].
  rewrite IH. apply is_digit_range in Hc. f_equal. unfold luhn_digit.
  destruct b; [destruct (Z.ltb_spec 9 ((c - 48) * 2))|destruct (Z.ltb_spec 9 (c - 48))];
    Z.to_euclidean_division_equations; lia.
Qed.

Lemma valid_luhn (s : list Z) : all_digits s ->
  (IsValidLuhn s = true <-> luhn_total (reverse s) false mod 10 = 0).
Proof.
  intros Hs. unfold IsValidLuhn, crem. rewrite luhn_fold. fold (luhn_total (reverse s) (negb true)).
  simpl negb. rewrite Z.add_0_l, Z.rem_mod_nonneg, Z.eqb_eq; [done| |lia].
  apply luhn_total_nonneg. by apply Forall_reverse.
Qed.

(** ** Numbers mistyped *)

Lemma remove_ws_app (a b : list Z) : RemoveWhitespaces (a ++ b) = RemoveWhitespaces a ++ RemoveWhitespaces b.
Proof. apply filter_app. Qed.

Lemma remove_ws_digit (c : Z) (l : list Z) :
  is_digit c = true -> RemoveWhitespaces (c :: l) = c :: RemoveWhitespaces l.
Proof.
  intros Hc%is_digit_range. apply filter_cons_True. unfold is_space.
  apply orb_false_iff. rewrite andb_false_iff. lia.
Qed.

Lemma remove_ws_spaces (l : list Z) : Forall (fun c => is_space c = true) l -> RemoveWhitespaces l = [].
Proof.
  induction 1 as [|c l Hc Hl IH]; [done|]. unfold RemoveWhitespaces.
  rewrite filter_cons_False; [done|by rewrite Hc].
Qed.

Lemma remove_ws_digits (l : list Z) : all_digits l -> RemoveWhitespaces l = l.
Proof. induction 1 as [|c l Hc Hl IH]; [done|]. by rewrite remove_ws_digit, IH. Qed.

Lemma numeric_no_space (s : list Z) :
  (forall c, c ∈ s -> is_space c = false) -> IsNumeric s = true <-> all_digits s.
Proof.
  induction s as [|c l IH]; intros Hs; [by split; [constructor|]|].
  assert (IsNumeric (c :: l) = is_digit c && IsNumeric l) as ->.
  { destruct l; [|done]. simpl. specialize (Hs c ltac:(left)). unfold is_space in Hs.
    destruct (Z.eqb_spec c 10) as [->|]; [done|]. by rewrite orb_false_r, andb_true_r. }
  rewrite andb_true_iff, IH by (intros; apply Hs; by right). unfold all_digits. by rewrite Forall_cons.
Qed.

Lemma numeric_digits (s : list Z) : IsNumeric (RemoveWhitespaces s) = true <-> all_digits (RemoveWhitespaces s).
Proof. apply numeric_no_space. intros c Hc. by apply list_elem_of_filter in Hc as [? _]. Qed.

Definition accepted `{StdSort} (number : list Z) : Prop :=
  exists res, ValidateCard number = Some res /\ state res = Valid.

Lemma accepted_luhn `{StdSort} (number : list Z) : accepted number ->
  all_digits (RemoveWhitespaces number)
  /\ luhn_total (reverse (RemoveWhitespaces number)) false mod 10 = 0.
Proof.
  intros (res & Hv & Hst). unfold ValidateCard in Hv.
  destruct (IsNumeric _) eqn:En; simpl in Hv; [|by simplify_eq].
  pose proof (proj1 (numeric_digits number) En) as Hd. split; [done|].
  apply valid_luhn; [done|]. split_tests; done.
Qed.

Lemma luhn_digit_range (b : bool) (d : Z) : 0 <= d <= 9 -> 0 <= luhn_digit b d <= 9.
Proof.
  unfold luhn_digit. intros. destruct b; [destruct (Z.ltb_spec 9 (d * 2))|destruct (Z.ltb_spec 9 d)]; lia.
Qed.

(** No two digits contribute the same. *)
Lemma luhn_digit_inj (b : bool) (x y rest : Z) :
  0 <= x <= 9 -> 0 <= y <= 9 ->
  (rest + luhn_digit b x) mod 10 = 0 -> (rest + luhn_digit b y) mod 10 = 0 -> x = y.
Proof.
  intros Hx Hy H1 H2. pose proof (luhn_digit_range b x Hx). pose proof (luhn_digit_range b y Hy).
  assert (luhn_digit b x = luhn_digit b y) as E by (Z.to_euclidean_division_equations; lia).
  revert E. unfold luhn_digit. destruct b.
  - destruct (Z.ltb_spec 9 (x * 2)), (Z.ltb_spec 9 (y * 2)); lia.
  - destruct (Z.ltb_spec 9 x), (Z.ltb_spec 9 y); lia.
Qed.

(** Swapping two neighbours changes the sum unless they are 0 and 9. *)
Lemma luhn_swap (b : bool) (x y rest : Z) :
  0 <= x <= 9 -> 0 <= y <= 9 ->
  (rest + (luhn_digit b x + luhn_digit (negb b) y)) mod 10 = 0 ->
  (rest + (luhn_digit b y + luhn_digit (negb b) x)) mod 10 = 0 ->
  x = y \/ (x = 0 /\ y = 9) \/ (x = 9 /\ y = 0).
Proof.
  intros Hx Hy. assert (forall d, 0 <= d <= 9 -> luhn_digit false d = d) as Hf.
  { intros d Hd. unfold luhn_digit. by replace (9 <? d) with false by (symmetry; apply Z.ltb_ge; lia). }
  assert (forall d, luhn_digit true d = if 9 <? d * 2 then d * 2 - 9 else d * 2) as Ht by done.
  destruct b; cbn [negb]; rewrite !Ht, !Hf by done;
    destruct (Z.ltb_spec 9 (x * 2)), (Z.ltb_spec 9 (y * 2)); intros H1 H2;
    Z.to_euclidean_division_equations; lia.
Qed.

Lemma luhn_total_at (l k : list Z) (c : Z) (b : bool) :
  luhn_total (l ++ c :: k) b
  = (luhn_total l b + luhn_total k (negb (flips (length l) b))) + luhn_digit (flips (length l) b) (c - 48).
Proof.
  rewrite luhn_total_app.
  change (luhn_total (c :: k) (flips (length l) b))
    with (luhn_digit (flips (length l) b) (c - 48) + luhn_total k (negb (flips (length l) b))). lia.
Qed.

Lemma luhn_total_at2 (l k : list Z) (c d : Z) (b : bool) :
  luhn_total (l ++ c :: d :: k) b
  = (luhn_total l b + luhn_total k (negb (negb (flips (length l) b))))
    + (luhn_digit (flips (length l) b) (c - 48) + luhn_digit (negb (flips (length l) b)) (d - 48)).
Proof.
  rewrite luhn_total_app. set (f := flips (length l) b).
  change (luhn_total (c :: d :: k) f)
    with (luhn_digit f (c - 48) + (luhn_digit (negb f) (d - 48) + luhn_total k (negb (negb f)))). lia.
Qed.

(** No accepted card number becomes another accepted one by mistyping one
    digit, nor by swapping two different neighbouring digits other than a zero
    and a nine, whatever white space the numbers are typed with. *)
Theorem mistyped_card_rejected `{StdSort} (pre sp post : list Z) (a b : Z) :
  is_digit a = true -> is_digit b = true -> a <> b ->
  (accepted (pre ++ a :: post) -> ~ accepted (pre ++ b :: post))
  /\ (Forall (fun c => is_space c = true) sp ->
      accepted (pre ++ a :: sp ++ b :: post) -> accepted (pre ++ b :: sp ++ a :: post) ->
      (a = 48 /\ b = 57) \/ (a = 57 /\ b = 48)).
Proof.
  intros Ha Hb Hab. pose proof (proj1 (is_digit_range a) Ha) as Hra.
  pose proof (proj1 (is_digit_range b) Hb) as Hrb. split.
  - intros [_ H1]%accepted_luhn [_ H2]%accepted_luhn.
    rewrite remove_ws_app, remove_ws_digit in H1, H2 by done.
    rewrite reverse_app, reverse_cons, <- app_assoc in H1, H2. cbn [app] in H1, H2. rewrite luhn_total_at in H1, H2.
    assert (a - 48 = b - 48) by (eapply luhn_digit_inj; [lia|lia|exact H1|exact H2]). lia.
  - intros Hsp [_ H1]%accepted_luhn [_ H2]%accepted_luhn.
    rewrite remove_ws_app, remove_ws_digit, remove_ws_app, (remove_ws_spaces sp), remove_ws_digit in H1, H2 by done.
    rewrite app_nil_l, reverse_app, !reverse_cons, <- !app_assoc in H1, H2. cbn [app] in H1, H2.
    rewrite luhn_total_at2 in H1, H2.
    destruct (luhn_swap _ (b - 48) (a - 48) _ ltac:(lia) ltac:(lia) H1 H2); lia.
Qed.

(** ** The verdict on a number *)

Definition covers (r : BinRange) (s : list Z) : Prop :=
  let prefix := toInt (take (length (low r)) s) in toInt (low r) <= prefix <= toInt (high r).

(** The range with the longest prefix the number is in. *)
Definition best_range (s : list Z) (r : BinRange) : Prop :=
  r ∈ AllRanges /\ covers r s
  /\ forall r', r' ∈ AllRanges -> covers r' s -> (length (low r') <= length (low r))%nat.

Lemma all_ranges_shape (r : BinRange) : r ∈ AllRanges ->
  length (high r) = length (low r) /\ (length (low r) <= 6)%nat /\ (13 <= size r)%nat.
Proof.
  assert (Forall (fun r => length (high r) = length (low r) /\ (length (low r) <= 6)%nat
    /\ (13 <= size r)%nat) AllRanges) as H.
  { unfold AllRanges. repeat constructor; simpl; lia. }
  rewrite Forall_forall in H. apply H.
Qed.

(** Ranges whose prefixes are equally long are of one kind or disjoint. *)
Definition compatible (a b : BinRange) : bool :=
  negb (bool_decide (length (low a) = length (low b)))
  || (bool_decide (size a = size b) && bool_decide (brand a = brand b))
  || (toInt (high a) <? toInt (low b)) || (toInt (high b) <? toInt (low a)).

Lemma ranges_compatible (a b : BinRange) : a ∈ AllRanges -> b ∈ AllRanges -> compatible a b = true.
Proof.
  assert (forallb (fun a => forallb (compatible a) AllRanges) AllRanges = true) as H by by vm_compute.
  rewrite forallb_forall in H. intros Ha%list_elem_of_In Hb%list_elem_of_In.
  specialize (H a Ha). rewrite forallb_forall in H. by apply H.
Qed.

Lemma best_range_unique (s : list Z) (a b : BinRange) :
  best_range s a -> best_range s b -> size a = size b /\ brand a = brand b.
Proof.
  intros (Ha & Ca & Ma) (Hb & Cb & Mb). pose proof (ranges_compatible a b Ha Hb) as Hc.
  assert (length (low a) = length (low b)) as E by (specialize (Ma b Hb Cb); specialize (Mb a Ha Ca); lia).
  unfold covers in *. rewrite E in Ca. unfold compatible in Hc.
  rewrite (bool_decide_eq_true_2 _ E) in Hc. cbn [negb orb] in Hc.
  rewrite !orb_true_iff, andb_true_iff, !bool_decide_eq_true, !Z.ltb_lt in Hc. simpl in *. intuition lia.
Qed.

Lemma matches_covers (r : BinRange) (s : list Z) : r ∈ AllRanges -> (6 <= length s)%nat ->
  BinRangeMatchesNumber r s = true <-> covers r s.
Proof.
  intros Hr Hs. destruct (all_ranges_shape r Hr) as (Eh & Hl & _).
  unfold BinRangeMatchesNumber, covers. rewrite Eh, !Nat.min_r by lia.
  assert (take (length (low r)) (high r) = high r) as -> by (rewrite <- Eh; apply firstn_all).
  rewrite (firstn_all (low r)).
  destruct (Z.ltb_spec (toInt (take (length (low r)) s)) (toInt (low r)));
    destruct (Z.ltb_spec (toInt (high r)) (toInt (take (length (low r)) s))); intuition (lia || done).
Qed.

Lemma compare_strict_weak (s : list Z) : strict_weak (compare_ranges s).
Proof.
  unfold strict_weak, compare_ranges. split; intros *; destruct s; repeat case_bool_decide; simpl; try done; lia.
Qed.

Lemma unknown_matches (s : list Z) : range "" "" 19 Unknown ∈ BinRangesForNumber s.
Proof. apply list_elem_of_filter. split; [|by left]. unfold BinRangeMatchesNumber. simpl. by rewrite Nat.min_0_r. Qed.

(** The last element of the sorted ranges exists and no range follows it in the order. *)
Lemma most_specific `{StdSort} (s : list Z) :
  exists r, MostSpecificBinRangeForNumber s = Some r /\ r ∈ BinRangesForNumber s
    /\ (s <> [] -> forall r', r' ∈ BinRangesForNumber s -> (length (low r') <= length (low r))%nat).
Proof.
  unfold MostSpecificBinRangeForNumber.
  pose proof (std_sort_perm (compare_ranges s) (BinRangesForNumber s)) as Hp.
  pose proof (std_sort_sorted (compare_ranges s) (BinRangesForNumber s) (compare_strict_weak s)) as Hs.
  destruct (last _) as [r|] eqn:E.
  2:{ apply last_None in E. rewrite E in Hp. apply Permutation_nil in Hp.
      pose proof (unknown_matches s) as Hu. rewrite Hp in Hu. by apply not_elem_of_nil in Hu. }
  apply last_Some in E as [l E]. rewrite E in Hp, Hs. exists r. split_and!; [done| |].
  - rewrite <- Hp. apply elem_of_app. right. by left.
  - intros Hne r' Hr'. rewrite <- Hp in Hr'.
    apply elem_of_app in Hr' as [Hr'| ->%list_elem_of_singleton]; [|done].
    apply StronglySorted_app_iff in Hs as (_ & _ & Hs). specialize (Hs r' r Hr' ltac:(by left)).
    unfold compare_ranges in Hs. destruct s; [done|]. apply bool_decide_eq_false in Hs. lia.
Qed.

Definition verdict (s : list Z) (r : BinRange) : CardValidationResult :=
  match Nat.compare (length s) (size r) with
  | Gt => mk_card_result Invalid (brand r) false
  | Lt => mk_card_result Incomplete (brand r) false
  | Eq => if luhn_sum false (reverse s) mod 10 =? 0 then mk_card_result Valid (brand r) true
          else mk_card_result Invalid (brand r) false
  end.

Lemma card_by_range `{StdSort} (number : list Z) (r : BinRange) :
  all_digits (RemoveWhitespaces number) -> RemoveWhitespaces number <> [] ->
  MostSpecificBinRangeForNumber (RemoveWhitespaces number) = Some r ->
  ValidateCard number = Some (verdict (RemoveWhitespaces number) r).
Proof.
  intros Hd Hne Hr. unfold ValidateCard. rewrite (proj2 (numeric_digits number) Hd). cbn [negb].
  rewrite (bool_decide_eq_false_2 _ Hne), Hr. f_equal. unfold verdict.
  set (s := RemoveWhitespaces number) in *.
  assert (IsValidLuhn s = (luhn_sum false (reverse s) mod 10 =? 0)) as ->.
  { apply eq_bool_prop_intro. rewrite !Is_true_true, valid_luhn, Z.eqb_eq by done.
    rewrite luhn_total_sum; [done|by apply Forall_reverse]. }
  destruct (Nat.compare_spec (length s) (size r)); repeat case_bool_decide; try lia; try done.
  by destruct (_ =? 0).
Qed.

(** C39. The verdict on a card number is determined, however equivalent ranges
    are sorted: text with other characters is invalid, fewer than six digits
    are incomplete, and from six digits on the number is judged by the range
    with the longest prefix it lies in, whose length and brand are unique: too
    long, too short, or of the right length and valid exactly when the Luhn
    sum is a multiple of ten. *)
Theorem card_verdict `{StdSort} (number : list Z) :
  let s := RemoveWhitespaces number in
  (~ all_digits s -> ValidateCard number = Some (mk_card_result Invalid Unknown false))
  /\ (all_digits s -> (length s < 6)%nat ->
      exists b, ValidateCard number = Some (mk_card_result Incomplete b false))
  /\ (all_digits s -> (6 <= length s)%nat ->
      (exists r, best_range s r)
      /\ forall r, best_range s r -> ValidateCard number = Some (verdict s r)).
Proof.
  intros s. subst s. set (s := RemoveWhitespaces number). split_and!.
  - intros Hd. unfold ValidateCard. fold s. destruct (IsNumeric s) eqn:E; [|done].
    by apply numeric_digits in E.
  - intros Hd Hl. destruct (decide (s = [])) as [E|Hne].
    + exists Unknown. unfold ValidateCard. fold s. by rewrite E.
    + destruct (most_specific s) as (r & Hr & Hin & _). exists (brand r).
      rewrite (card_by_range number r) by done. fold s. unfold verdict.
      apply list_elem_of_filter in Hin as [_ Hin]. apply all_ranges_shape in Hin as (_ & _ & Hin).
      by rewrite (proj2 (Nat.compare_lt_iff _ _)) by lia.
  - intros Hd Hl. assert (s <> []) as Hne by (by intros ->; simpl in Hl; lia).
    destruct (most_specific s) as (r & Hr & Hin & Hmax). specialize (Hmax Hne).
    assert (best_range s r) as Hbest.
    { apply list_elem_of_filter in Hin as [Hm Hin]. split_and!; [done|by apply matches_covers|].
      intros r' Hr' Hc. apply Hmax, list_elem_of_filter. split; [|done]. by apply matches_covers. }
    split; [by exists r|]. intros r' Hbest'. rewrite (card_by_range number r) by done. fold s.
    destruct (best_range_unique s r r' Hbest Hbest') as [Es Eb]. unfold verdict. by rewrite Es, Eb.
Qed.

(** ** Expiration dates *)

Lemma two_digits_small (n : Z) : 0 <= n < 100 -> two_digits n = [48 + n / 10; 48 + n mod 10].
Proof.
  intros Hn. unfold two_digits, number_string. replace (n <? 0) with false by (symmetry; apply Z.ltb_ge; lia).
  cbn [digits]. destruct (Z.ltb_spec n 10).
  - simpl. repeat f_equal; Z.to_euclidean_division_equations; lia.
  - replace (n / 10 <? 10) with true
      by (symmetry; apply Z.ltb_lt; Z.to_euclidean_division_equations; lia). done.
Qed.

Lemma two_digits_of (a b : Z) : is_digit a = true -> is_digit b = true ->
  two_digits (toInt [a; b]) = [a; b] /\ 0 <= toInt [a; b] < 100.
Proof.
  intros Ha%is_digit_range Hb%is_digit_range. unfold toInt, digit_step. simpl.
  set (n := 10 * (10 * 0 + (a - 48)) + (b - 48)). assert (0 <= n < 100) as Hn by lia. split; [|done].
  rewrite two_digits_small by done. repeat f_equal; subst n; Z.to_euclidean_division_equations; lia.
Qed.

Lemma toInt_two_digits (n : Z) : 0 <= n < 100 -> toInt (two_digits n) = n.
Proof.
  intros Hn. rewrite two_digits_small by done. unfold toInt, digit_step. simpl.
  Z.to_euclidean_division_equations; lia.
Qed.

Lemma two_digits_digits (n : Z) : 0 <= n -> all_digits (two_digits n).
Proof.
  intros Hn. unfold two_digits, number_string. apply Forall_app. split.
  - by apply Forall_replicate.
  - replace (n <? 0) with false by (symmetry; apply Z.ltb_ge; lia). apply digits_are_digits; [done|constructor].
Qed.

Definition not_past (currentYear currentMonth month year : Z) : Prop :=
  currentYear < year \/ (currentYear = year /\ currentMonth <= month).

Definition normalized (s : list Z) : list Z := (if 49 <? default 0 (head s) then [48] else []) ++ s.

(** A date is valid when it is a month and a year of two digits, the month
    possibly typed with one digit, not before the current month. *)
Lemma expire_date_iff (Y M : Z) (date : list Z) :
  let s := filter (fun c => c <> 47) (RemoveWhitespaces date) in
  result_state (ValidateExpireDate Y M date) = Valid
  <-> exists month yy, 1 <= month <= 12 /\ 0 <= yy < 100
      /\ normalized s = two_digits month ++ two_digits yy /\ not_past Y M month (2000 + yy).
Proof.
  intros s. unfold ValidateExpireDate. fold s. fold (normalized s).
  assert (IsNumeric s = true <-> all_digits s) as Hnum.
  { apply numeric_no_space. intros c Hc. apply list_elem_of_filter in Hc as [_ Hc].
    by apply list_elem_of_filter in Hc as [? _]. }
  assert (all_digits s <-> all_digits (normalized s)) as Hnd.
  { unfold normalized, all_digits. destruct (49 <? _); [|done]. rewrite Forall_app, Forall_singleton.
    split; [by split|by intros [_ ?]]. }
  split.
  - destruct (IsNumeric s) eqn:En; cbn [negb]; [|done]. case_bool_decide; [done|].
    pose proof (proj1 Hnd (proj1 Hnum eq_refl)) as Hd.
    destruct (normalized s) as [|a [|b [|c [|d [|]]]]]; [by repeat case_match..| |];
      [|by destruct (_ || _)].
    change (mid [a; b; c; d] 0 2) with [a; b]. change (mid [a; b; c; d] 2 (-1)) with [c; d].
    unfold all_digits in Hd. rewrite !Forall_cons in Hd. destruct Hd as (Ha & Hb & Hc & Hd & _).
    destruct (two_digits_of a b) as [Eab Rab]; [done..|]. destruct (two_digits_of c d) as [Ecd Rcd]; [done..|].
    split_tests; try done. intros _. exists (toInt [a; b]), (toInt [c; d]).
    rewrite Eab, Ecd. unfold not_past. split_and!; [lia..|done|].
    destruct (decide (Y = 2000 + toInt [c; d])); [right|left]; lia.
  - intros (month & yy & Hm & Hy & E & Hp).
    assert (all_digits (normalized s)) as Hd
      by (rewrite E; apply Forall_app; split; apply two_digits_digits; lia).
    rewrite (proj2 Hnum (proj2 Hnd Hd)). cbn [negb].
    assert (length (normalized s) = 4%nat) as El
      by (rewrite E, !two_digits_small by lia; done).
    assert (length (normalized s) <= S (length s))%nat as Hl
      by (unfold normalized; rewrite length_app; destruct (49 <? _); simpl; lia).
    rewrite bool_decide_eq_false_2 by lia. rewrite El.
    assert (mid (normalized s) 0 2 = two_digits month) as ->
      by (rewrite E, !two_digits_small by lia; done).
    assert (mid (normalized s) 2 (-1) = two_digits yy) as ->
      by (rewrite E, !two_digits_small by lia; done).
    rewrite !toInt_two_digits by lia. unfold not_past in Hp. split_tests; try done; try lia.
Qed.

Lemma digits_length (fuel : nat) (n : Z) (acc : list Z) :
  0 < n -> (length acc + (if (10 <=? n)%Z then if (100 <=? n)%Z then 3 else 2 else 1) <= length (digits (3 + fuel) n acc))%nat.
Proof.
  intros Hn. assert (forall f m a, (length a <= length (digits f m a))%nat) as Hmono.
  { induction f as [|f IH]; intros m a; cbn [digits]; [done|]. destruct (m <? 10); [simpl; lia|].
    etrans; [|apply IH]. simpl. lia. }
  change (3 + fuel)%nat with (S (S (S fuel))). cbn [digits].
  destruct (Z.ltb_spec n 10); destruct (Z.leb_spec 10 n); try lia; [simpl; lia|].
  destruct (Z.leb_spec 100 n); destruct (Z.ltb_spec (n / 10) 10);
    try (Z.to_euclidean_division_equations; lia).
  - destruct (_ <? 10); [simpl; lia|]. etrans; [|apply Hmono]. simpl. lia.
  - simpl. lia.
Qed.

Lemma two_digits_long (n : Z) : 100 <= n -> (3 <= length (two_digits n))%nat.
Proof.
  intros Hn. pose proof (digits_length 17 n [] ltac:(lia)) as Hdl. simpl (length []) in Hdl.
  rewrite (proj2 (Z.leb_le 10 n)), (proj2 (Z.leb_le 100 n)) in Hdl by lia.
  unfold two_digits, number_string. rewrite (proj2 (Z.ltb_ge n 0)) by lia.
  rewrite length_app, length_replicate. change (3 + 17)%nat with 20%nat in Hdl. lia.
Qed.

(** A month and a year read from saved card details are valid exactly when
    the month is one of the twelve, the year is of this century and the month
    is not over; other numbers are rejected although they are written into the
    same text form before the check. *)
Theorem parsed_expire_date (currentYear currentMonth month year : Z) :
  fits_u 32 month -> fits_u 32 year ->
  ValidateParsedExpireDate currentYear currentMonth month year = Valid
  <-> 1 <= month <= 12 /\ 2000 <= year <= 2099 /\ not_past currentYear currentMonth month year.
Proof.
  unfold fits_u. intros Hm Hy. unfold ValidateParsedExpireDate.
  destruct (Z.eqb_spec (year / 100) 20) as [Ec|Ec]; cbn [negb].
  2:{ split; [done|]. intros (_ & Hr & _). Z.to_euclidean_division_equations; lia. }
  assert (0 <= year mod 100 < 100) as Hr by (apply Z.mod_pos_bound; lia).
  assert (year = 2000 + year mod 100) as Eyear by (pose proof (Z.div_mod year 100); lia).
  rewrite expire_date_iff.
  set (s := two_digits month ++ two_digits (year mod 100)).
  assert (all_digits s) as Hs by (apply Forall_app; split; apply two_digits_digits; lia).
  rewrite (remove_ws_digits s Hs).
  assert (filter (fun c => c <> 47) s = s) as ->.
  { clear -Hs. induction Hs as [|c l Hc Hl IH]; [done|]. apply is_digit_range in Hc.
    rewrite filter_cons_True by lia. by rewrite IH. }
  split.
  - intros (m & yy & Hm' & Hyy & E & Hp).
    assert (length (normalized s) = 4%nat) as El by (rewrite E, !two_digits_small by lia; done).
    assert (length s = 4 + (length (two_digits month) - 2))%nat as Hl.
    { subst s. rewrite length_app, (two_digits_small (year mod 100)) by lia. simpl.
      unfold two_digits. rewrite length_app, length_replicate. lia. }
    assert (normalized s = s) as En.
    { unfold normalized in El |- *. destruct (49 <? _); [simpl in El; lia|done]. }
    assert (month < 100) as Hlt.
    { destruct (Z.le_gt_cases 100 month) as [Hge|]; [exfalso|done].
      pose proof (two_digits_long month Hge). rewrite En in El. lia. }
    rewrite En in E. subst s.
    apply app_inj_1 in E as [E1 E2]; [|by rewrite !two_digits_small by lia].
    assert (month = m) as <- by (rewrite <- (toInt_two_digits month), E1, toInt_two_digits by lia; lia).
    assert (year mod 100 = yy) as <-
      by (rewrite <- (toInt_two_digits (year mod 100)), E2, toInt_two_digits by lia; lia).
    split_and!; [lia..|]. by rewrite Eyear.
  - intros (Hm' & Hy' & Hp). exists month, (year mod 100). rewrite <- Eyear. split_and!; [lia..| |done].
    unfold normalized. subst s. rewrite (two_digits_small month) by lia. simpl head. cbn [default].
    rewrite (proj2 (Z.ltb_ge 49 _)); [done|]. simpl. Z.to_euclidean_division_equations; lia.
Qed.

(** ** Witnesses *)

Fixpoint insert_sorted {A} (lt : A -> A -> bool) (x : A) (l : list A) : list A :=
  match l with
  | [] => [x]
  | y :: l' => if lt x y then x :: l else y :: insert_sorted lt x l'
  end.

Lemma insert_sorted_perm {A} (lt : A -> A -> bool) (x : A) (l : list A) : insert_sorted lt x l ≡ₚ x :: l.
Proof.
  induction l as [|y l IH]; simpl; [done|]. destruct (lt x y); [done|]. rewrite IH. apply Permutation_swap.
Qed.

(** Insertion sort orders as the standard asks. *)
#[global] Program Instance insertion_sort : StdSort :=
  {| std_sort A lt l := foldr (insert_sorted lt) [] l |}.
Next Obligation.
  intros A lt l. induction l as [|x l IH]; simpl; [done|]. by rewrite insert_sorted_perm, IH.
Qed.
Next Obligation.
  intros A lt l [Hasym Htrans]. induction l as [|x l IH]; simpl; [constructor|].
  induction IH as [|y k Hk IH Hall]; simpl; [repeat constructor|]. destruct (lt x y) eqn:E.
  - constructor; [by constructor|]. constructor; [by apply Hasym|].
    eapply Forall_impl; [exact Hall|]. intros z Hz. simpl in *. eapply Htrans; [exact Hz|by apply Hasym].
  - constructor; [done|]. rewrite insert_sorted_perm. by constructor.
Qed.

(** The test number 4242 4242 4242 4242 with a digit mistyped. *)
Lemma mistyped_card_rejected_witness :
  accepted (codes "4242 4242 4242 4242") /\ ~ accepted (codes "4242 4342 4242 4242").
Proof.
  assert (accepted (codes "4242 4242 4242 4242")) as Ha by (by eexists; vm_compute).
  split; [exact Ha|].
  apply (mistyped_card_rejected (codes "4242 4") [] (codes "42 4242 4242") 50 51); [done|done|done|exact Ha].
Defined.

Lemma card_verdict_witness :
  ValidateCard (codes "4136 0012") = Some (mk_card_result Incomplete Visa false)
  /\ ValidateCard (codes "4136x") = Some (mk_card_result Invalid Unknown false).
Proof.
  destruct (card_verdict (codes "4136 0012")) as (_ & _ & H).
  destruct (card_verdict (codes "4136x")) as (Hx & _ & _). split.
  - destruct H as [_ H]; [by repeat constructor|by vm_compute; lia|].
    rewrite (H (range "413600" "413600" 13 Visa)); [by vm_compute|].
    split_and!.
    + unfold AllRanges. do 15 right. left.
    + by vm_compute.
    + intros r Hr Hc. destruct (all_ranges_shape r Hr) as (_ & Hl & _). simpl. lia.
  - apply Hx. intros Hd. unfold all_digits in Hd. vm_compute in Hd.
    rewrite !Forall_cons in Hd. by destruct Hd as (_ & _ & _ & _ & Hd & _).
Defined.

Lemma parsed_expire_date_witness :
  ValidateParsedExpireDate 2024 6 6 2024 = Valid /\ ValidateParsedExpireDate 2024 6 20 2025 <> Valid.
Proof.
  split; [|intros H]; [|pose proof (proj1 (parsed_expire_date 2024 6 20 2025 ltac:(done) ltac:(done)) H); lia].
  apply parsed_expire_date; [done|done|]. split_and!; [lia..|right; lia].
Defined.
