(* ===== verification/Fields.v ===== *)
(** * Formatted input fields of the payment form

    [payments/ui/payments_edit_card.cpp], [payments/ui/payments_field.cpp] and
    the currency table of [ui/text/format_values.cpp]: the validators that
    rewrite a field after every edit. A validator strips the text the user sees
    to its digits (and, for money, the decimal separator), with the cursor
    moved along, undoes an edit that only removed a separator, and writes the
    separators back.

    Text positions are integers; a field gives positions between zero and the
    length of its text. The widgets themselves are not modelled. *)

From S2P Require Import Prelude Text Cards.

(** ** Edits *)

Record SimpleFieldState := mk_state { value : list Z; position : Z }.

Record FieldValidateRequest := mk_request {
  wasValue : list Z; wasPosition : Z; wasAnchor : Z; nowValue : list Z; nowPosition : Z }.

Record FieldValidateResult := mk_field_result {
  r_value : list Z; r_position : Z; invalid : bool; r_finished : bool }.

Definition RemoveNonNumbers (v : list Z) : list Z := filter (fun c => is_digit c = true) v.

(** [QString::insert] of one character inside the text. *)
Definition insert_at (v : list Z) (at_ c : Z) : list Z := mid v 0 at_ ++ c :: mid v at_ (-1).

(** A separator inserted before the character at [at_], the cursor moved along. *)
Definition insert_separator (c : Z) (st : SimpleFieldState) (at_ : Z) : SimpleFieldState :=
  mk_state (insert_at (value st) at_ c)
           (if at_ <=? position st then position st + 1 else position st).

Definition size_of (v : list Z) : Z := Z.of_nat (length v).

Definition NumbersOnlyState (st : SimpleFieldState) : SimpleFieldState :=
  mk_state (RemoveNonNumbers (value st)) (size_of (RemoveNonNumbers (mid (value st) 0 (position st)))).

Definition IsBackspace (request : FieldValidateRequest) : bool :=
  (wasAnchor request =? wasPosition request)
  && (wasPosition request =? nowPosition request + 1)
  && bool_decide (mid (wasValue request) 0 (wasPosition request - 1) = mid (nowValue request) 0 (nowPosition request))
  && bool_decide (mid (wasValue request) (wasPosition request) (-1) = mid (nowValue request) (nowPosition request) (-1)).

Definition IsDelete (request : FieldValidateRequest) : bool :=
  (wasAnchor request =? wasPosition request)
  && (wasPosition request =? nowPosition request)
  && bool_decide (mid (wasValue request) 0 (wasPosition request) = mid (nowValue request) 0 (nowPosition request))
  && bool_decide (mid (wasValue request) (wasPosition request + 1) (-1) = mid (nowValue request) (nowPosition request) (-1)).

(** The state after the edit; [clean] is [NumbersOnlyState] or [CleanMoneyState]. *)
Definition realNowState (clean : SimpleFieldState -> SimpleFieldState) (request : FieldValidateRequest)
    : SimpleFieldState :=
  let backspaced := IsBackspace request in
  let deleted := IsDelete request in
  if negb backspaced && negb deleted then clean (mk_state (nowValue request) (nowPosition request)) else
  let realWasState := clean (mk_state (wasValue request) (wasPosition request)) in
  let p := position realWasState in
  let changedValue :=
    if deleted then mid (value realWasState) 0 p ++ mid (value realWasState) (p + 1) (-1)
    else if 1 <? p then mid (value realWasState) 0 (p - 1) ++ mid (value realWasState) p (-1)
    else mid (value realWasState) p (-1) in
  mk_state changedValue (if deleted then p else Z.max (p - 1) 0).

(** ** Card fields *)

Module Card.

(** The loop over the groups. *)
Fixpoint group_loop (groups : list nat) (pos : Z) (result : SimpleFieldState) : SimpleFieldState :=
  match groups with
  | [] => result
  | len :: groups =>
      let pos := pos + Z.of_nat len in
      if size_of (value result) <=? pos then result else
      group_loop groups (pos + 1) (insert_separator 32 result pos)
  end.

Definition PostprocessCardValidateResult `{StdSort} (result : SimpleFieldState) : option SimpleFieldState :=
  groups <-? CardNumberFormat (value result) ;
  Some (group_loop groups 0 result).

(** [result.value[i]] *)
Definition char_at (v : list Z) (i : nat) : Z := nth i v 0.

(** The tail of the function: the cut to four digits and the slash. *)
Definition slash_date (result : SimpleFieldState) : SimpleFieldState :=
  if 1 <? size_of (value result) then
    let v := if 4 <? size_of (value result) then mid (value result) 0 4 else value result in
    insert_separator 47 (mk_state v (position result)) 2
  else result.

Definition PostprocessExpireDateValidateResult (result : SimpleFieldState) : SimpleFieldState :=
  if bool_decide (value result = []) then result
  else if (char_at (value result) 0 =? 49) && (1 <? size_of (value result)) && (50 <? char_at (value result) 1)
  then mk_state (mid (value result) 0 2) (position result)
  else if 49 <? char_at (value result) 0
  then slash_date (mk_state (48 :: value result) (position result + 1))
  else slash_date result.

(** [CardNumberValidator] and [ExpireDateValidator] are [ComplexNumberValidator]
    with these arguments. *)
Definition CardNumberValidator `{StdSort} (request : FieldValidateRequest) : option FieldValidateResult :=
  let now := realNowState NumbersOnlyState request in
  result <-? ValidateCard (value now) ;
  post <-? PostprocessCardValidateResult now ;
  Some (mk_field_result (value post) (position post)
    (match state result with Invalid => true | _ => false end) (finished result)).

Definition ExpireDateValidator (currentYear currentMonth : Z) (request : FieldValidateRequest) : FieldValidateResult :=
  let now := realNowState NumbersOnlyState request in
  let result := ValidateExpireDate currentYear currentMonth (value now) in
  let post := PostprocessExpireDateValidateResult now in
  mk_field_result (value post) (position post)
    (match result_state result with Invalid => true | _ => false end) (result_finished result).

Definition CvcValidator (number : list Z) (request : FieldValidateRequest) : FieldValidateResult :=
  let now := NumbersOnlyState (mk_state (nowValue request) (nowPosition request)) in
  let result := ValidateCvc number (value now) in
  mk_field_result (value now) (position now)
    (match result_state result with Invalid => true | _ => false end) (result_finished result).

(** [value.split('/').value(index)], for the first two parts. *)
Fixpoint part (index : nat) (v : list Z) : list Z :=
  match v with
  | [] => []
  | c :: v =>
      if c =? 47 then match index with O => [] | S index => part index v end
      else match index with O => c :: part 0 v | S _ => part index v end
  end.

(** For fields with at most nine digits around the slash. *)
Definition ExtractYear (v : list Z) : Z := toInt (part 1 v) + 2000.
Definition ExtractMonth (v : list Z) : Z := toInt (part 0 v).

End Card.

(** ** Money *)

Module Money.

Record CurrencyRule := mk_rule {
  international : list Z; thousands : Z; decimal : Z; left_ : bool; space : bool; exponent : Z;
  stripDotZero : bool }.

Definition default_rule : CurrencyRule := mk_rule [] 44 46 true false 2 false.

Definition rule (currency : string) (r : CurrencyRule) : list Z * CurrencyRule := (codes currency, r).

Definition kRules : list (list Z * CurrencyRule) := [
  rule "AED" (mk_rule [] 44 46 true true 2 false);
  rule "AFN" default_rule;
  rule "ALL" (mk_rule [] 46 44 false false 2 false);
  rule "AMD" (mk_rule [] 44 46 false true 2 false);
  rule "ARS" (mk_rule [] 46 44 true true 2 false);
  rule "AUD" (mk_rule (codes "AU$") 44 46 true false 2 false);
  rule "AZN" (mk_rule [] 32 44 false true 2 false);
  rule "BAM" (mk_rule [] 46 44 false true 2 false);
  rule "BDT" (mk_rule [] 44 46 true true 2 false);
  rule "BGN" (mk_rule [] 32 44 false true 2 false);
  rule "BND" (mk_rule [] 46 44 true false 2 false);
  rule "BOB" (mk_rule [] 46 44 true true 2 false);
  rule "BRL" (mk_rule (codes "R$") 46 44 true true 2 false);
  rule "BHD" (mk_rule [] 44 46 true true 3 false);
  rule "BYR" (mk_rule [] 32 44 false true 0 false);
  rule "CAD" (mk_rule (codes "CA$") 44 46 true false 2 false);
  rule "CHF" (mk_rule [] 39 46 false true 2 false);
  rule "CLP" (mk_rule [] 46 44 true true 0 false);
  rule "CNY" (mk_rule ([67; 78; 194; 165]) 44 46 true false 2 false);
  rule "COP" (mk_rule [] 46 44 true true 2 false);
  rule "CRC" (mk_rule [] 46 44 true false 2 false);
  rule "CZK" (mk_rule [] 32 44 false true 2 false);
  rule "DKK" (mk_rule [] 0 44 false true 2 false);
  rule "DOP" default_rule;
  rule "DZD" (mk_rule [] 44 46 true true 2 false);
  rule "EGP" (mk_rule [] 44 46 true true 2 false);
  rule "EUR" (mk_rule ([226; 130; 172]) 32 44 false true 2 false);
  rule "GBP" (mk_rule ([194; 163]) 44 46 true false 2 false);
  rule "GEL" (mk_rule [] 32 44 false true 2 false);
  rule "GTQ" default_rule;
  rule "HKD" (mk_rule (codes "HK$") 44 46 true false 2 false);
  rule "HNL" (mk_rule [] 44 46 true true 2 false);
  rule "HRK" (mk_rule [] 46 44 false true 2 false);
  rule "HUF" (mk_rule [] 32 44 false true 2 false);
  rule "IDR" (mk_rule [] 46 44 true false 2 false);
  rule "ILS" (mk_rule ([226; 130; 170]) 44 46 true true 2 false);
  rule "INR" (mk_rule ([226; 130; 185]) 44 46 true false 2 false);
  rule "ISK" (mk_rule [] 46 44 false true 0 false);
  rule "JMD" default_rule;
  rule "JPY" (mk_rule ([194; 165]) 44 46 true false 0 false);
  rule "KES" default_rule;
  rule "KGS" (mk_rule [] 32 45 false true 2 false);
  rule "KRW" (mk_rule ([226; 130; 169]) 44 46 true false 0 false);
  rule "KZT" (mk_rule [] 32 45 true false 2 false);
  rule "LBP" (mk_rule [] 44 46 true true 2 false);
  rule "LKR" (mk_rule [] 44 46 true true 2 false);
  rule "MAD" (mk_rule [] 44 46 true true 2 false);
  rule "MDL" (mk_rule [] 44 46 false true 2 false);
  rule "MNT" (mk_rule [] 32 44 true false 2 false);
  rule "MUR" default_rule;
  rule "MVR" (mk_rule [] 44 46 false true 2 false);
  rule "MXN" (mk_rule (codes "MX$") 44 46 true false 2 false);
  rule "MYR" default_rule;
  rule "MZN" default_rule;
  rule "NGN" default_rule;
  rule "NIO" (mk_rule [] 44 46 true true 2 false);
  rule "NOK" (mk_rule [] 32 44 true true 2 false);
  rule "NPR" default_rule;
  rule "NZD" (mk_rule (codes "NZ$") 44 46 true false 2 false);
  rule "PAB" (mk_rule [] 44 46 true true 2 false);
  rule "PEN" (mk_rule [] 44 46 true true 2 false);
  rule "PHP" default_rule;
  rule "PKR" default_rule;
  rule "PLN" (mk_rule [] 32 44 false true 2 false);
  rule "PYG" (mk_rule [] 46 44 true true 0 false);
  rule "QAR" (mk_rule [] 44 46 true true 2 false);
  rule "RON" (mk_rule [] 46 44 false true 2 false);
  rule "RSD" (mk_rule [] 46 44 false true 2 false);
  rule "RUB" (mk_rule [] 32 44 false true 2 false);
  rule "SAR" (mk_rule [] 44 46 true true 2 false);
  rule "SEK" (mk_rule [] 46 44 false true 2 false);
  rule "SGD" default_rule;
  rule "THB" (mk_rule ([224; 184; 191]) 44 46 true false 2 false);
  rule "TJS" (mk_rule [] 32 59 false true 2 false);
  rule "TRY" (mk_rule [] 46 44 false true 2 false);
  rule "TTD" default_rule;
  rule "TWD" (mk_rule (codes "NT$") 44 46 true false 2 false);
  rule "TZS" default_rule;
  rule "UAH" (mk_rule [] 32 44 false false 2 false);
  rule "UGX" (mk_rule [] 44 46 true false 0 false);
  rule "USD" (mk_rule (codes "$") 44 46 true false 2 false);
  rule "UYU" (mk_rule [] 46 44 true true 2 false);
  rule "UZS" (mk_rule [] 32 44 false true 2 false);
  rule "VND" (mk_rule ([226; 130; 171]) 46 44 false true 0 false);
  rule "YER" (mk_rule [] 44 46 true true 2 false);
  rule "ZAR" (mk_rule [] 44 46 true true 2 false);
  rule "IRR" (mk_rule [] 44 47 false true 2 true);
  rule "IQD" (mk_rule [] 44 46 true true 3 false);
  rule "VEF" (mk_rule [] 46 44 true true 2 false);
  rule "SYP" (mk_rule [] 44 46 true true 2 false)].

Definition LookupCurrencyRule (currency : list Z) : CurrencyRule :=
  match list_find (fun e => e.1 = currency) kRules with Some (_, e) => e.2 | None => default_rule end.

Definition FieldThousandsSeparator (r : CurrencyRule) : Z :=
  if (thousands r =? 46) || (thousands r =? 44) then 32 else thousands r.

(** [QString::lastIndexOf] and [indexOf] of a character, -1 when there is none. *)
Fixpoint lastIndexOf (v : list Z) (c : Z) : Z :=
  match v with
  | [] => -1
  | x :: v => let i := lastIndexOf v c in
      if 0 <=? i then i + 1 else if x =? c then 0 else -1
  end.

Fixpoint indexOf (v : list Z) (c : Z) : Z :=
  match v with
  | [] => -1
  | x :: v => if x =? c then 0 else let i := indexOf v c in if 0 <=? i then i + 1 else -1
  end.

(** Both separators replaced with the one of the currency. *)
Definition withDecimal (r : CurrencyRule) (v : list Z) : list Z :=
  (fun c => if c =? 44 then decimal r else c) <$> ((fun c => if c =? 46 then decimal r else c) <$> v).

(** The zeros to skip at the start. *)
Fixpoint leading_zeros (r : CurrencyRule) (v : list Z) : Z :=
  match v with
  | a :: ((b :: _) as v') => if (a =? 48) && negb (b =? decimal r) then 1 + leading_zeros r v' else 0
  | _ => 0
  end.

(** The steps of [CleanMoneyState], each on the state and the position of the
    decimal separator. *)
Definition keep_numbers (r : CurrencyRule) (st : SimpleFieldState) : SimpleFieldState * Z :=
  let beforePosition := mid (value st) 0 (position st) in
  let decimalPosition := lastIndexOf (value st) (decimal r) in
  if decimalPosition <? 0 then
    (mk_state (RemoveNonNumbers (value st)) (size_of (RemoveNonNumbers beforePosition)), decimalPosition)
  else
    let onlyNumbersBeforeDecimal := RemoveNonNumbers (mid (value st) 0 decimalPosition) in
    (mk_state (onlyNumbersBeforeDecimal ++ decimal r :: RemoveNonNumbers (mid (value st) (decimalPosition + 1) (-1)))
              (size_of (RemoveNonNumbers beforePosition) + (if decimalPosition <? position st then 1 else 0)),
     size_of onlyNumbersBeforeDecimal).

Definition cut_fraction (r : CurrencyRule) (sd : SimpleFieldState * Z) : SimpleFieldState * Z :=
  let '(st, decimalPosition) := sd in
  if decimalPosition <? 0 then sd else
  let maxLength := decimalPosition + 1 + exponent r in
  if maxLength <? size_of (value st)
  then (mk_state (mid (value st) 0 maxLength) (Z.min (position st) maxLength), decimalPosition)
  else sd.

Definition leading_zero (r : CurrencyRule) (sd : SimpleFieldState * Z) : SimpleFieldState * Z :=
  let '(st, decimalPosition) := sd in
  match value st with
  | c :: _ =>
      if c =? decimal r then
        (mk_state (48 :: value st) (position st + 1),
         if 0 <=? decimalPosition then decimalPosition + 1 else decimalPosition)
      else sd
  | [] => sd
  end.

Definition skip_zeros (r : CurrencyRule) (sd : SimpleFieldState * Z) : SimpleFieldState * Z :=
  let '(st, decimalPosition) := sd in
  let skip := leading_zeros r (value st) in
  (mk_state (mid (value st) skip (-1)) (Z.max (position st - skip) 0),
   if 0 <=? decimalPosition then decimalPosition - skip else decimalPosition).

Definition cut_integer (r : CurrencyRule) (sd : SimpleFieldState * Z) : SimpleFieldState :=
  let '(st, decimalPosition) := sd in
  let digitsLimit := 16 - exponent r in
  if 0 <=? decimalPosition then
    if digitsLimit <? decimalPosition then
      mk_state (mid (value st) 0 digitsLimit ++ mid (value st) decimalPosition (-1))
               (if digitsLimit <? position st
                then Z.max (position st - (decimalPosition - digitsLimit)) digitsLimit
                else position st)
    else st
  else if digitsLimit <? size_of (value st)
  then mk_state (mid (value st) 0 digitsLimit) (Z.min (position st) digitsLimit)
  else st.

Definition CleanMoneyState (r : CurrencyRule) (st : SimpleFieldState) : SimpleFieldState :=
  let st := mk_state (withDecimal r (value st)) (position st) in
  cut_integer r (skip_zeros r (leading_zero r (cut_fraction r (keep_numbers r st)))).

(** The loop [for (insertAt = from - 3; insertAt > 0; insertAt -= 3)]. *)
Fixpoint thousands_loop (fuel : nat) (sep : Z) (insertAt : Z) (result : SimpleFieldState) : SimpleFieldState :=
  match fuel with
  | O => result
  | S fuel =>
      if 0 <? insertAt then thousands_loop fuel sep (insertAt - 3) (insert_separator sep result insertAt)
      else result
  end.

Definition PostprocessMoneyResult (r : CurrencyRule) (result : SimpleFieldState) : SimpleFieldState :=
  let pos := indexOf (value result) (decimal r) in
  let from := if 0 <=? pos then pos else size_of (value result) in
  thousands_loop (Z.to_nat from) (FieldThousandsSeparator r) (from - 3) result.

Definition MoneyValidator (r : CurrencyRule) (request : FieldValidateRequest) : FieldValidateResult :=
  let post := PostprocessMoneyResult r (realNowState (CleanMoneyState r) request) in
  mk_field_result (value post) (position post) false false.

End Money.

(** ** Separators and the cursor *)

Definition in_range (st : SimpleFieldState) : Prop := 0 <= position st <= size_of (value st).

Lemma mid_take (v : list Z) (p : Z) : 0 <= p -> mid v 0 p = take (Z.to_nat p) v.
Proof. intros Hp. unfold mid. by replace (p <? 0) with false by (symmetry; apply Z.ltb_ge; lia). Qed.

Lemma mid_drop (v : list Z) (p : Z) : mid v p (-1) = drop (Z.to_nat p) v.
Proof. done. Qed.

Lemma size_app (v w : list Z) : size_of (v ++ w) = size_of v + size_of w.
Proof. unfold size_of. rewrite length_app. lia. Qed.

Lemma size_cons (c : Z) (v : list Z) : size_of (c :: v) = 1 + size_of v.
Proof. unfold size_of. simpl. lia. Qed.

Lemma size_nonneg (v : list Z) : 0 <= size_of v.
Proof. unfold size_of. lia. Qed.

Lemma size_take (n : nat) (v : list Z) : size_of (take n v) = Z.min (Z.of_nat n) (size_of v).
Proof. unfold size_of. rewrite length_take. lia. Qed.

Lemma size_drop (n : nat) (v : list Z) : size_of (drop n v) = Z.max 0 (size_of v - Z.of_nat n).
Proof. unfold size_of. rewrite length_drop. lia. Qed.

Create Rewrite HintDb sizes.
#[export] Hint Rewrite size_app size_cons size_take size_drop : sizes.

(** What remains of a text and of its part before the cursor when only the
    characters in [f] are kept. *)
Definition kept (f : Z -> Prop) `{!forall x, Decision (f x)} (st : SimpleFieldState) : list Z * list Z :=
  (filter f (value st), filter f (take (Z.to_nat (position st)) (value st))).

Section Kept.
Context (f : Z -> Prop) `{!forall x, Decision (f x)}.

Lemma insert_kept (c i : Z) (st : SimpleFieldState) :
  ~ f c -> in_range st -> 0 <= i <= size_of (value st) ->
  in_range (insert_separator c st i) /\ kept f (insert_separator c st i) = kept f st.
Proof.
  unfold in_range, kept, insert_separator, insert_at, size_of. destruct st as [v p]. cbn [value position].
  intros Hc Hp Hi. rewrite mid_take, mid_drop by lia.
  set (n := Z.to_nat i). assert (n <= length v)%nat by lia.
  split; [rewrite length_app, length_take; simpl; rewrite length_drop; destruct (Z.leb_spec i p); lia|].
  f_equal.
  - rewrite filter_app, filter_cons_False by done. by rewrite <- filter_app, take_drop.
  - destruct (Z.leb_spec i p).
    + replace (Z.to_nat (p + 1)) with (n + S (Z.to_nat p - n))%nat by lia.
      rewrite take_app_ge by (rewrite length_take; lia). rewrite length_take, Nat.min_l by lia.
      replace (n + S (Z.to_nat p - n) - n)%nat with (S (Z.to_nat p - n)) by lia. simpl.
      rewrite filter_app, filter_cons_False by done. rewrite <- filter_app. f_equal.
      replace (Z.to_nat p) with (n + (Z.to_nat p - n))%nat at 2 by lia. by rewrite take_take_drop.
    + rewrite take_app_le by (rewrite length_take; lia). rewrite take_take. do 2 f_equal. lia.
Qed.

Lemma insert_size (c i : Z) (st : SimpleFieldState) :
  0 <= i <= size_of (value st) -> size_of (value (insert_separator c st i)) = size_of (value st) + 1.
Proof.
  intros Hi. unfold insert_separator, insert_at. cbn [value]. rewrite mid_take, mid_drop by lia.
  autorewrite with sizes. lia.
Qed.

Lemma group_loop_kept (groups : list nat) (pos : Z) (st : SimpleFieldState) :
  ~ f 32 -> in_range st -> 0 <= pos ->
  in_range (Card.group_loop groups pos st) /\ kept f (Card.group_loop groups pos st) = kept f st.
Proof.
  intros Hf. revert pos st. induction groups as [|n groups IH]; intros pos st Hst Hpos; [done|].
  cbn [Card.group_loop]. destruct (Z.leb_spec (size_of (value st)) (pos + Z.of_nat n)); [done|].
  destruct (insert_kept 32 (pos + Z.of_nat n) st Hf Hst) as [H1 H2]; [lia|].
  destruct (IH (pos + Z.of_nat n + 1) (insert_separator 32 st (pos + Z.of_nat n)) H1) as [H3 H4]; [lia|].
  split; [done|congruence].
Qed.

Lemma thousands_loop_kept (fuel : nat) (sep i : Z) (st : SimpleFieldState) :
  ~ f sep -> in_range st -> i <= size_of (value st) ->
  in_range (Money.thousands_loop fuel sep i st) /\ kept f (Money.thousands_loop fuel sep i st) = kept f st.
Proof.
  intros Hf. revert i st. induction fuel as [|fuel IH]; intros i st Hst Hi; [done|].
  cbn [Money.thousands_loop]. destruct (Z.ltb_spec 0 i); [|done].
  destruct (insert_kept sep i st Hf Hst) as [H1 H2]; [lia|].
  destruct (IH (i - 3) (insert_separator sep st i) H1) as [H3 H4]; [rewrite insert_size by lia; lia|].
  split; [done|congruence].
Qed.

End Kept.

Lemma numbers_only_kept (st : SimpleFieldState) : in_range st ->
  NumbersOnlyState st = mk_state (kept (fun c => is_digit c = true) st).1 (size_of (kept (fun c => is_digit c = true) st).2).
Proof. intros [? ?]. unfold NumbersOnlyState. by rewrite mid_take. Qed.

Lemma filter_all (f : Z -> Prop) `{!forall x, Decision (f x)} (v : list Z) : Forall f v -> filter f v = v.
Proof. induction 1 as [|c v Hc Hv IH]; [done|]. rewrite filter_cons_True by done. by rewrite IH. Qed.

Lemma filter_size (f : Z -> Prop) `{!forall x, Decision (f x)} (v : list Z) : size_of (filter f v) <= size_of v.
Proof. unfold size_of. pose proof (length_filter f v). lia. Qed.

Lemma kept_all (f : Z -> Prop) `{!forall x, Decision (f x)} (st : SimpleFieldState) :
  Forall f (value st) -> in_range st ->
  (kept f st).1 = value st /\ size_of (kept f st).2 = position st.
Proof.
  intros Hd Hr. unfold kept. cbn [fst snd]. rewrite !filter_all; [|by apply Forall_take|done].
  split; [done|]. rewrite size_take. unfold in_range in Hr. lia.
Qed.

(** A field of digits with its cursor. *)
Definition digit_state (st : SimpleFieldState) : Prop := all_digits (value st) /\ in_range st.

Lemma kept_in_range (f : Z -> Prop) `{!forall x, Decision (f x)} (st : SimpleFieldState) :
  in_range st -> 0 <= size_of (kept f st).2 <= size_of (kept f st).1.
Proof.
  intros _. split; [apply size_nonneg|]. unfold kept. cbn [fst snd].
  rewrite <- (take_drop (Z.to_nat (position st)) (value st)) at 2.
  rewrite filter_app, size_app. pose proof (size_nonneg (filter f (drop (Z.to_nat (position st)) (value st)))). lia.
Qed.

Lemma numbers_only_digits (st : SimpleFieldState) : in_range st -> digit_state (NumbersOnlyState st).
Proof.
  intros Hr. rewrite numbers_only_kept by done. split; cbn [value].
  - apply Forall_forall. intros c Hc. by apply list_elem_of_filter in Hc as [? _].
  - unfold in_range. cbn [value position]. by apply kept_in_range.
Qed.

(** ** Edits of a card number *)

(** The character before, or after, the cursor removed. *)
Definition backspaced (st : SimpleFieldState) : SimpleFieldState :=
  if 0 <? position st then mk_state (delete (Z.to_nat (position st - 1)) (value st)) (position st - 1) else st.
Definition deleted (st : SimpleFieldState) : SimpleFieldState :=
  mk_state (delete (Z.to_nat (position st)) (value st)) (position st).

Lemma real_now_state (clean : SimpleFieldState -> SimpleFieldState) (request : FieldValidateRequest) :
  let now := clean (mk_state (nowValue request) (nowPosition request)) in
  let was := clean (mk_state (wasValue request) (wasPosition request)) in
  in_range was ->
  realNowState clean request
  = if IsDelete request then deleted was else if IsBackspace request then backspaced was else now.
Proof.
  cbn zeta. intros Hw. unfold realNowState.
  set (was := clean (mk_state (wasValue request) (wasPosition request))) in *.
  unfold in_range in Hw. unfold deleted, backspaced. destruct (IsDelete request), (IsBackspace request); cbn [negb andb].
  1,2: f_equal; rewrite mid_take, mid_drop, delete_take_drop by lia; do 2 f_equal; lia.
  - destruct (Z.ltb_spec 1 (position was)).
    + replace (0 <? position was) with true by (symmetry; apply Z.ltb_lt; lia).
      rewrite mid_take, mid_drop, delete_take_drop by lia. f_equal; [do 2 f_equal|]; lia.
    + destruct (Z.ltb_spec 0 (position was)).
      * rewrite mid_drop, delete_take_drop. replace (position was) with 1 by lia. done.
      * destruct was as [v p]. cbn [value position] in *. by replace p with 0 by lia.
  - done.
Qed.

Lemma list_delete_Forall (P : Z -> Prop) (i : nat) (v : list Z) : Forall P v -> Forall P (delete i v).
Proof.
  intros H. rewrite delete_take_drop. apply Forall_app. split; [by apply Forall_take|by apply Forall_drop].
Qed.

Lemma size_delete (i : nat) (v : list Z) :
  size_of (delete i v) = if Z.of_nat i <? size_of v then size_of v - 1 else size_of v.
Proof.
  rewrite delete_take_drop, size_app, size_take, size_drop. pose proof (size_nonneg v).
  destruct (Z.ltb_spec (Z.of_nat i) (size_of v)); lia.
Qed.

Lemma edited_digits (st : SimpleFieldState) : digit_state st -> digit_state (deleted st) /\ digit_state (backspaced st).
Proof.
  unfold digit_state, deleted, backspaced, in_range. intros [Hd Hr]. split.
  - split; [by apply list_delete_Forall|]. cbn [value position]. rewrite size_delete.
    destruct (Z.ltb_spec (Z.of_nat (Z.to_nat (position st))) (size_of (value st))); lia.
  - destruct (Z.ltb_spec 0 (position st)); [|done]. cbn [value position].
    split; [by apply list_delete_Forall|]. rewrite size_delete.
    destruct (Z.ltb_spec (Z.of_nat (Z.to_nat (position st - 1))) (size_of (value st))); lia.
Qed.

Lemma validate_card_total `{StdSort} (number : list Z) : is_Some (ValidateCard number).
Proof.
  unfold ValidateCard. destruct (IsNumeric _); cbn [negb]; [|eauto]. case_bool_decide; [eauto|].
  destruct (most_specific (RemoveWhitespaces number)) as (r & -> & _). eauto.
Qed.

Lemma card_format_total `{StdSort} (number : list Z) : is_Some (CardNumberFormat number).
Proof.
  unfold CardNumberFormat. destruct (IsNumeric _); cbn [negb]; [|eauto].
  destruct (most_specific (RemoveWhitespaces number)) as (r & -> & _). eauto.
Qed.

(** Formatting digits only adds spaces. *)
Lemma card_post_digits `{StdSort} (st : SimpleFieldState) : digit_state st ->
  exists post, Card.PostprocessCardValidateResult st = Some post /\ in_range post /\ NumbersOnlyState post = st.
Proof.
  intros [Hd Hr]. unfold Card.PostprocessCardValidateResult.
  destruct (card_format_total (value st)) as [groups ->]. eexists. split; [done|].
  destruct (group_loop_kept (fun c => is_digit c = true) groups 0 st) as [H1 H2]; [done|done|lia|].
  split; [done|]. rewrite numbers_only_kept, H2 by done.
  destruct (kept_all (fun c => is_digit c = true) st Hd Hr) as [-> ->]. by destruct st.
Qed.

(** After every edit of the card number field the digits shown and the
    digits before the cursor are those the edit left: an ordinary edit keeps
    the digits of the text, backspace removes the digit before the cursor and
    delete the one after it even when the character removed was a separator,
    and the text shown is the one its own digits are formatted to, so that
    validating it again changes nothing. *)
Theorem card_field_edit `{StdSort} (request : FieldValidateRequest) :
  let now := mk_state (nowValue request) (nowPosition request) in
  let was := mk_state (wasValue request) (wasPosition request) in
  in_range now -> in_range was ->
  exists res, Card.CardNumberValidator request = Some res
  /\ let shown := mk_state (r_value res) (r_position res) in
     in_range shown
     /\ NumbersOnlyState shown =
          (if IsDelete request then deleted (NumbersOnlyState was)
           else if IsBackspace request then backspaced (NumbersOnlyState was)
           else NumbersOnlyState now)
     /\ Card.PostprocessCardValidateResult (NumbersOnlyState shown) = Some shown.
Proof.
  cbn zeta. intros Hnow Hwas. pose proof (numbers_only_digits _ Hnow) as Dnow.
  pose proof (numbers_only_digits _ Hwas) as Dwas. unfold Card.CardNumberValidator.
  rewrite real_now_state by apply Dwas.
  match goal with |- context [value ?e] => set (st := e) end.
  assert (digit_state st) as Hst.
  { subst st. destruct (edited_digits _ Dwas). by destruct (IsDelete request), (IsBackspace request). }
  destruct (validate_card_total (value st)) as [result ->].
  destruct (card_post_digits st Hst) as (post & Hp & Hr & Hn). rewrite Hp. eexists. split; [done|].
  cbn [r_value r_position]. destruct post as [v p]. cbn [value position]. rewrite Hn. done.
Qed.

(** ** The expiration date *)

Lemma part_slash (a b : list Z) : all_digits a -> all_digits b ->
  Card.part 0 (a ++ 47 :: b) = a /\ Card.part 1 (a ++ 47 :: b) = b.
Proof.
  assert (forall l, all_digits l -> Card.part 0 l = l) as H0.
  { induction 1 as [|c l Hc%is_digit_range Hl IH]; [done|]. cbn [Card.part].
    destruct (Z.eqb_spec c 47); [lia|]. by rewrite IH. }
  intros Ha Hb. induction Ha as [|c l Hc%is_digit_range Hl [IH1 IH2]].
  - split; [done|]. by apply H0.
  - cbn [app Card.part]. destruct (Z.eqb_spec c 47); [lia|]. by rewrite IH1, IH2.
Qed.

(** The digits of a valid date are shown with the month on two digits. *)
Lemma expire_shown (s : list Z) (p month yy : Z) :
  1 <= month <= 12 -> 0 <= yy < 100 -> normalized s = two_digits month ++ two_digits yy ->
  value (Card.PostprocessExpireDateValidateResult (mk_state s p)) = two_digits month ++ 47 :: two_digits yy.
Proof.
  intros Hm Hy. rewrite !two_digits_small by lia. unfold normalized.
  assert (48 <= 48 + month / 10 <= 49) as Ha by (Z.to_euclidean_division_equations; lia).
  assert (48 + month / 10 = 49 -> 48 + month mod 10 <= 50) as Hb by (Z.to_euclidean_division_equations; lia).
  set (a := 48 + month / 10) in *. set (b := 48 + month mod 10) in *.
  set (c := 48 + yy / 10). set (d := 48 + yy mod 10).
  unfold Card.PostprocessExpireDateValidateResult. cbn [value position].
  destruct (49 <? default 0 (head s)) eqn:E; intros Es.
  - destruct s as [|x s]; [done|]. injection Es as Ea -> ->. apply Z.ltb_lt in E. simpl in E. rewrite <- Ea.
    unfold Card.char_at. cbn [nth].
    replace (b =? 49) with false by (symmetry; apply Z.eqb_neq; lia). cbn [andb].
    replace (49 <? b) with true by (symmetry; apply Z.ltb_lt; lia). done.
  - simpl in Es. subst s. unfold Card.char_at. cbn [nth].
    replace (49 <? a) with false by (symmetry; apply Z.ltb_ge; lia).
    replace ((a =? 49) && (1 <? size_of [a; b; c; d]) && (50 <? b)) with false; [done|].
    symmetry. apply andb_false_iff. destruct (Z.eqb_spec a 49) as [Ea|]; [right|by left].
    apply Z.ltb_ge. by apply Hb.
Qed.

(** When the validator accepts the digits typed as an expiration date, the
    text it shows is MM/YY, and the month and year that are read back from that
    text for the payment request are a month of this century that is not over:
    the very date that was checked. *)
Theorem expire_field_request (currentYear currentMonth p : Z) (typed : list Z) :
  all_digits typed ->
  result_state (ValidateExpireDate currentYear currentMonth typed) = Valid ->
  let shown := value (Card.PostprocessExpireDateValidateResult (mk_state typed p)) in
  let month := Card.ExtractMonth shown in
  let year := Card.ExtractYear shown in
  1 <= month <= 12 /\ 2000 <= year <= 2099 /\ not_past currentYear currentMonth month year
  /\ shown = two_digits month ++ 47 :: two_digits (year mod 100)
  /\ normalized typed = two_digits month ++ two_digits (year mod 100).
Proof.
  intros Hd Hv. apply expire_date_iff in Hv as (month & yy & Hm & Hy & En & Hp).
  rewrite remove_ws_digits in En by done. rewrite filter_all in En.
  2:{ eapply Forall_impl; [exact Hd|]. intros c Hc%is_digit_range. simpl. lia. }
  cbn zeta. rewrite (expire_shown typed p month yy Hm Hy En). unfold Card.ExtractMonth, Card.ExtractYear.
  destruct (part_slash (two_digits month) (two_digits yy)) as [-> ->]; [apply two_digits_digits; lia..|].
  rewrite !toInt_two_digits by lia.
  assert ((yy + 2000) mod 100 = yy) as -> by (Z.to_euclidean_division_equations; lia).
  split_and!; [lia..| |done|done]. by replace (yy + 2000) with (2000 + yy) by lia.
Qed.

(** ** Amounts of money *)

Module Money_facts.
Import Money.

Definition rule_ok (r : CurrencyRule) : Prop :=
  is_digit (decimal r) = false /\ decimal r <> FieldThousandsSeparator r
  /\ is_digit (FieldThousandsSeparator r) = false
  /\ FieldThousandsSeparator r <> 46 /\ FieldThousandsSeparator r <> 44
  /\ 0 <= exponent r <= 3.

#[global] Instance rule_ok_dec (r : CurrencyRule) : Decision (rule_ok r).
Proof. unfold rule_ok. apply _. Defined.

Lemma lookup_rule_ok (currency : list Z) : rule_ok (LookupCurrencyRule currency).
Proof.
  assert (Forall (fun e => rule_ok e.2) kRules) as H
    by (apply (bool_decide_eq_true_1 _); by vm_compute).
  unfold LookupCurrencyRule. destruct (list_find _ kRules) as [[i e]|] eqn:E.
  - apply list_find_Some in E as (E & _). rewrite Forall_forall in H. apply H.
    by apply list_elem_of_lookup_2 in E.
  - unfold rule_ok. simpl. split_and!; (done || lia).
Qed.

Section Rule.
Context (r : CurrencyRule) (Hr : rule_ok r).

Local Abbreviation dec := (decimal r).

(** The text of an amount: digits and, with a separator, fraction digits. *)
Definition money_text (ip : list Z) (frac : option (list Z)) : list Z :=
  ip ++ match frac with None => [] | Some fp => dec :: fp end.

Definition money_digits (ip : list Z) (frac : option (list Z)) : Prop :=
  all_digits ip /\ match frac with None => True | Some fp => all_digits fp end.

(** No zero in front of another digit. *)
Definition no_leading_zero (ip : list Z) : Prop := ip = [48] \/ head ip <> Some 48.

(** The amounts a field may hold. *)
Definition money_number (ip : list Z) (frac : option (list Z)) : Prop :=
  money_digits ip frac /\ no_leading_zero ip /\ size_of ip <= 16 - exponent r
  /\ match frac with None => True | Some fp => ip <> [] /\ size_of fp <= exponent r end.

Definition rep (ip : list Z) (frac : option (list Z)) (sd : SimpleFieldState * Z) : Prop :=
  value sd.1 = money_text ip frac
  /\ sd.2 = match frac with None => -1 | Some _ => size_of ip end
  /\ money_digits ip frac /\ in_range sd.1.

Lemma digit_not_dec (c : Z) : is_digit c = true -> c <> dec.
Proof. intros Hc ->. destruct Hr as [Hd _]. congruence. Qed.

Lemma lastIndexOf_spec (v : list Z) (c : Z) :
  (~ (c ∈ v) /\ lastIndexOf v c = -1)
  \/ (exists a b, v = a ++ c :: b /\ ~ (c ∈ b) /\ lastIndexOf v c = size_of a).
Proof.
  induction v as [|x v IH]; [left; split; [apply not_elem_of_nil|done]|]. cbn [lastIndexOf].
  destruct IH as [[Hv ->]|(a & b & -> & Hb & ->)].
  - cbn [Z.leb Z.compare]. destruct (Z.eqb_spec x c) as [->|Hx].
    + right. by exists [], v.
    + left. split; [|done]. intros [->|?]%elem_of_cons; done.
  - right. exists (x :: a), b. split_and!; [done|done|].
    pose proof (size_nonneg a). rewrite (proj2 (Z.leb_le 0 (size_of a))) by done. rewrite size_cons. lia.
Qed.

Lemma indexOf_text (ip : list Z) (frac : option (list Z)) : all_digits ip ->
  indexOf (money_text ip frac) dec = match frac with None => -1 | Some _ => size_of ip end.
Proof.
  unfold money_text. induction 1 as [|c ip Hc Hip IH]; simpl.
  - destruct frac; simpl; [|done]. by rewrite Z.eqb_refl.
  - pose proof (digit_not_dec c Hc). rewrite (proj2 (Z.eqb_neq c dec)), IH by done.
    destruct frac; [|done]. pose proof (size_nonneg ip).
    rewrite (proj2 (Z.leb_le 0 (size_of ip))) by done. rewrite size_cons. lia.
Qed.

Lemma rnn_digits (v : list Z) : all_digits (RemoveNonNumbers v).
Proof. apply Forall_forall. intros c Hc. by apply list_elem_of_filter in Hc as [? _]. Qed.

Lemma rnn_dec (a b : list Z) : RemoveNonNumbers (a ++ dec :: b) = RemoveNonNumbers a ++ RemoveNonNumbers b.
Proof.
  unfold RemoveNonNumbers. rewrite filter_app, filter_cons_False; [done|].
  destruct Hr as [Hd _]. by rewrite Hd.
Qed.

Lemma rnn_take (n : nat) (v : list Z) :
  size_of (RemoveNonNumbers (take n v)) <= size_of (RemoveNonNumbers v).
Proof.
  rewrite <- (take_drop n v) at 2. unfold RemoveNonNumbers. rewrite filter_app, size_app.
  pose proof (size_nonneg (filter (fun c => is_digit c = true) (drop n v))). lia.
Qed.

Lemma keep_numbers_spec (st : SimpleFieldState) : in_range st ->
  let before := size_of (RemoveNonNumbers (take (Z.to_nat (position st)) (value st))) in
  (~ (dec ∈ value st) /\ keep_numbers r st = (mk_state (RemoveNonNumbers (value st)) before, -1))
  \/ (exists a b, value st = a ++ dec :: b /\ ~ (dec ∈ b)
     /\ keep_numbers r st = (mk_state (RemoveNonNumbers a ++ dec :: RemoveNonNumbers b)
          (before + (if (size_of a <? position st) then 1 else 0)), size_of (RemoveNonNumbers a))).
Proof.
  intros [Hp _]. cbn zeta. unfold keep_numbers. rewrite mid_take by done.
  destruct (lastIndexOf_spec (value st) dec) as [[Hn ->]|(a & b & E & Hb & ->)]; [left; by split|right].
  exists a, b. split_and!; [done|done|]. pose proof (size_nonneg a).
  rewrite (proj2 (Z.ltb_ge (size_of a) 0)) by done.
  rewrite mid_take, mid_drop by done.
  assert (take (Z.to_nat (size_of a)) (value st) = a) as ->
    by (unfold size_of; by rewrite Nat2Z.id, E, take_app_length).
  assert (drop (Z.to_nat (size_of a + 1)) (value st) = b) as ->; [|done].
  unfold size_of. rewrite E. replace (Z.to_nat (Z.of_nat (length a) + 1)) with (length a + 1)%nat by lia.
  by rewrite drop_app_add.
Qed.

Lemma keep_numbers_rep (st : SimpleFieldState) : in_range st ->
  exists ip frac, rep ip frac (keep_numbers r st).
Proof.
  intros Hst. unfold rep. destruct (keep_numbers_spec st Hst) as [[_ ->]|(a & b & E & _ & ->)].
  - exists (RemoveNonNumbers (value st)), None. unfold money_text, in_range. cbn [fst snd value position].
    rewrite app_nil_r. split_and!; [done|done|split; [apply rnn_digits|done]|apply size_nonneg|apply rnn_take].
  - exists (RemoveNonNumbers a), (Some (RemoveNonNumbers b)). cbn [fst snd].
    split_and!; [done|done|split; apply rnn_digits|]. unfold in_range. cbn [value position].
    set (n := Z.to_nat (position st)). pose proof (size_nonneg (RemoveNonNumbers (take n (value st)))).
    autorewrite with sizes. pose proof (size_nonneg (RemoveNonNumbers b)).
    destruct (Z.ltb_spec (size_of a) (position st)).
    + pose proof (rnn_take n (value st)) as Hle. rewrite E in Hle at 2. rewrite rnn_dec, size_app in Hle. lia.
    + assert (take n (value st) = take n a) as ->.
      { rewrite E. apply take_app_le. unfold size_of in *. destruct Hst. lia. }
      pose proof (rnn_take n a). pose proof (size_nonneg (RemoveNonNumbers (take n a))). lia.
Qed.

Lemma text_size (ip fp : list Z) : size_of (money_text ip (Some fp)) = size_of ip + 1 + size_of fp.
Proof. unfold money_text. autorewrite with sizes. lia. Qed.

Lemma cut_fraction_rep (ip : list Z) (frac : option (list Z)) (sd : SimpleFieldState * Z) :
  rep ip frac sd ->
  exists frac', rep ip frac' (cut_fraction r sd)
    /\ match frac' with None => True | Some fp => size_of fp <= exponent r end.
Proof.
  destruct sd as [st dp]. intros (Ev & Ed & [Hi Hf] & Hp). cbn [fst snd] in *. unfold cut_fraction.
  destruct frac as [fp|]; subst dp; [|exists None; done]. pose proof (size_nonneg ip).
  destruct Hr as (_ & _ & _ & _ & _ & He).
  rewrite (proj2 (Z.ltb_ge (size_of ip) 0)) by done. rewrite Ev, text_size.
  destruct (Z.ltb_spec (size_of ip + 1 + exponent r) (size_of ip + 1 + size_of fp)).
  - exists (Some (take (Z.to_nat (exponent r)) fp)). split; [|rewrite size_take; lia].
    assert (mid (money_text ip (Some fp)) 0 (size_of ip + 1 + exponent r)
      = money_text ip (Some (take (Z.to_nat (exponent r)) fp))) as ->.
    { rewrite mid_take by lia. unfold money_text.
      replace (Z.to_nat (size_of ip + 1 + exponent r)) with (length ip + S (Z.to_nat (exponent r)))%nat
        by (unfold size_of; lia).
      by rewrite take_app_add. }
    unfold rep, in_range in *. cbn [fst snd value position].
    rewrite text_size, size_take. split_and!; [done|done|split; [done|by apply Forall_take]|lia|lia].
  - exists (Some fp). split; [|lia]. split_and!; done.
Qed.

Lemma leading_zero_rep (ip : list Z) (frac : option (list Z)) (sd : SimpleFieldState * Z) :
  rep ip frac sd ->
  exists ip', rep ip' frac (leading_zero r sd) /\ (frac = None \/ ip' <> []).
Proof.
  destruct sd as [st dp]. intros (Ev & Ed & [Hi Hf] & Hp). cbn [fst snd] in *. unfold leading_zero. rewrite Ev.
  destruct ip as [|c ip].
  - destruct frac as [fp|]; subst dp; cbn [money_text app]; [|exists []; split; [done|by left]].
    rewrite Z.eqb_refl. exists [48]. split; [|by right]. unfold rep, in_range in *. cbn [fst snd value position].
    rewrite Ev in Hp. cbn [money_text app] in *. autorewrite with sizes in *.
    split_and!; [done|done|split; [by repeat constructor|done]|lia|lia].
  - exists (c :: ip). pose proof (digit_not_dec c ltac:(by inversion Hi)) as Hc.
    cbn [money_text app]. rewrite (proj2 (Z.eqb_neq c dec)) by done. split; [done|by right].
Qed.

(** The zeros skipped, and the decimal separator is not among them. *)
Lemma leading_zeros_text (ip : list Z) (frac : option (list Z)) : all_digits ip ->
  exists n, leading_zeros r (money_text ip frac) = Z.of_nat n
    /\ (n <= length ip)%nat /\ (ip <> [] -> drop n ip <> [])
    /\ no_leading_zero (drop n ip) /\ (no_leading_zero ip -> n = 0%nat).
Proof.
  induction 1 as [|c ip Hc Hip (n & IH & Hn & Hne & Hz & Hn0)].
  - exists 0%nat. split_and!; [|simpl; lia|done|by right|done].
    unfold money_text. destruct frac as [[|d fp]|]; [done| |done]. cbn [app leading_zeros].
    destruct (Z.eqb_spec dec 48) as [E|]; [|done]. destruct Hr as [Hd _]. by rewrite E in Hd.
  - destruct ip as [|d ip].
    + exists 0%nat. split_and!; [|simpl; lia|done| |done].
      * unfold money_text. destruct frac as [fp|]; cbn [app leading_zeros]; [|done].
        by rewrite Z.eqb_refl, andb_false_r.
      * destruct (decide (c = 48)) as [->|]; [by left|right]. simpl. congruence.
    + pose proof (digit_not_dec d ltac:(by inversion Hip)).
      change (leading_zeros r (money_text (c :: d :: ip) frac))
        with (if (c =? 48) && negb (d =? dec) then 1 + leading_zeros r (money_text (d :: ip) frac) else 0).
      rewrite (proj2 (Z.eqb_neq d dec)), IH, andb_true_r by done.
      destruct (Z.eqb_spec c 48) as [->|Hc48].
      * exists (S n). split_and!; [lia|simpl in *; lia|intros _; by apply Hne|done|].
        intros [?|Hh]; [done|by simpl in Hh].
      * exists 0%nat. split_and!; [done|lia|done|right; simpl; congruence|done].
Qed.

(** The assertion of [CleanMoneyState]: the separator is not skipped. *)
Definition separator_kept (sd : SimpleFieldState * Z) : Prop :=
  0 <= sd.2 -> leading_zeros r (value sd.1) <= sd.2.

Lemma skip_zeros_rep (ip : list Z) (frac : option (list Z)) (sd : SimpleFieldState * Z) :
  rep ip frac sd -> frac = None \/ ip <> [] ->
  separator_kept sd
  /\ exists ip', rep ip' frac (skip_zeros r sd) /\ no_leading_zero ip' /\ (frac = None \/ ip' <> []).
Proof.
  destruct sd as [st dp]. intros (Ev & Ed & [Hi Hf] & Hp) Hne. cbn [fst snd] in *.
  unfold separator_kept, skip_zeros. cbn [fst snd]. rewrite Ev.
  destruct (leading_zeros_text ip frac Hi) as (n & -> & Hn & Hne' & Hz & _). split.
  - intros Hdp. subst dp. destruct frac; [|lia]. unfold size_of. lia.
  - exists (drop n ip). unfold rep, in_range in *. cbn [fst snd value position].
    assert (mid (money_text ip frac) (Z.of_nat n) (-1) = money_text (drop n ip) frac) as ->.
    { rewrite mid_drop, Nat2Z.id. unfold money_text. by apply drop_app_le. }
    rewrite Ev in Hp. pose proof (size_nonneg ip). unfold money_text in *. rewrite size_app in *.
    rewrite size_drop. pose proof (size_nonneg (match frac with None => [] | Some fp => dec :: fp end)).
    assert (Z.of_nat n <= size_of ip) by (unfold size_of; lia).
    split_and!; [done| |split; [by apply Forall_drop|done]|lia|lia|done|].
    + subst dp. destruct frac; [|done]. rewrite (proj2 (Z.leb_le 0 (size_of ip))) by done. lia.
    + destruct Hne as [->|Hne]; [by left|right; auto].
Qed.

Lemma no_leading_zero_take (n : nat) (ip : list Z) : (0 < n)%nat -> no_leading_zero ip -> no_leading_zero (take n ip).
Proof.
  intros Hn. destruct n; [lia|]. destruct ip as [|c ip]; [by right|]. intros [[= -> ->]|H].
  - left. simpl. by rewrite take_nil.
  - by right.
Qed.

Lemma cut_integer_rep (ip : list Z) (frac : option (list Z)) (sd : SimpleFieldState * Z) :
  rep ip frac sd -> no_leading_zero ip -> frac = None \/ ip <> [] ->
  match frac with None => True | Some fp => size_of fp <= exponent r end ->
  exists ip', value (cut_integer r sd) = money_text ip' frac /\ money_number ip' frac
    /\ in_range (cut_integer r sd).
Proof.
  destruct sd as [st dp]. intros (Ev & Ed & [Hi Hf] & Hp) Hz Hne Hexp. cbn [fst snd] in *.
  unfold cut_integer. set (limit := 16 - exponent r).
  destruct Hr as (_ & _ & _ & _ & _ & He). assert (13 <= limit) by (subst limit; lia). unfold in_range in *.
  assert (forall ip', all_digits ip' -> no_leading_zero ip' -> (ip <> [] -> ip' <> []) -> size_of ip' <= limit ->
    money_number ip' frac) as Hnum.
  { intros ip' ?? Hne' ?. unfold money_number. split_and!; [done|done|done|].
    destruct frac; [|done]. destruct Hne; [done|]. auto. }
  assert (size_of ip <= limit \/ limit < size_of ip) as [Hle|Hlt] by lia.
  - exists ip. destruct frac as [fp|]; subst dp; rewrite Ev in *.
    + pose proof (size_nonneg ip). rewrite (proj2 (Z.leb_le 0 (size_of ip))) by done.
      rewrite (proj2 (Z.ltb_ge limit (size_of ip))) by done. rewrite Ev. auto.
    + unfold money_text in *. rewrite app_nil_r in *. cbn [Z.leb Z.compare].
      rewrite (proj2 (Z.ltb_ge limit (size_of ip))) by done. rewrite Ev. auto.
  - set (n := Z.to_nat limit). exists (take n ip).
    assert (money_number (take n ip) frac).
    { apply Hnum; [by apply Forall_take|apply no_leading_zero_take; [lia|done]| |rewrite size_take; lia].
      destruct ip; [done|]. subst n. by destruct (Z.to_nat limit) eqn:?; [lia|]. }
    assert (n <= length ip)%nat by (unfold size_of in Hlt; lia).
    destruct frac as [fp|]; subst dp; rewrite Ev in *.
    + pose proof (size_nonneg ip). rewrite (proj2 (Z.leb_le 0 (size_of ip))) by done.
      rewrite (proj2 (Z.ltb_lt limit (size_of ip))) by done. cbn [value position].
      rewrite mid_take, mid_drop by lia. fold n. rewrite text_size in Hp.
      unfold money_text in *. rewrite take_app_le by done.
      assert (drop (Z.to_nat (size_of ip)) (ip ++ dec :: fp) = dec :: fp) as ->
        by (unfold size_of; by rewrite Nat2Z.id, drop_app_length).
      split_and!; [done|done| |]; autorewrite with sizes; pose proof (size_nonneg fp);
        destruct (Z.ltb_spec limit (position st)); lia.
    + unfold money_text in *. rewrite !app_nil_r in *. cbn [Z.leb Z.compare].
      rewrite (proj2 (Z.ltb_lt limit (size_of ip))) by done. cbn [value position].
      rewrite mid_take by lia. fold n. rewrite size_take. split_and!; [done|done|lia|lia].
Qed.

(** *** An amount already clean *)

Definition shown_char (c : Z) : Prop := is_digit c = true \/ c = dec.

Lemma shown_rnn (v : list Z) : ~ (dec ∈ v) -> filter shown_char v = RemoveNonNumbers v.
Proof.
  induction v as [|c v IH]; intros Hv; [done|]. rewrite not_elem_of_cons in Hv. destruct Hv as [Hc Hv].
  unfold RemoveNonNumbers in *. destruct (is_digit c) eqn:E.
  - rewrite filter_cons_True by (by left). rewrite filter_cons_True by done. by rewrite IH.
  - rewrite filter_cons_False by (intros [?|?]; congruence).
    rewrite filter_cons_False by congruence. by rewrite IH.
Qed.

Lemma digits_no_dec (v : list Z) : all_digits v -> ~ (dec ∈ v).
Proof. intros Hv Hin. unfold all_digits in Hv. rewrite Forall_forall in Hv. by apply (digit_not_dec dec (Hv _ Hin)). Qed.

Lemma last_split_unique (a b a' b' : list Z) (c : Z) :
  a ++ c :: b = a' ++ c :: b' -> ~ (c ∈ b) -> ~ (c ∈ b') -> a = a' /\ b = b'.
Proof.
  revert a'. induction a as [|x a IH]; intros [|x' a'] E Hb Hb'; cbn [app] in E.
  - by injection E as ->.
  - injection E as _ E. exfalso. apply Hb. rewrite E. apply elem_of_app. right. left.
  - injection E as _ E. exfalso. apply Hb'. rewrite <- E. apply elem_of_app. right. left.
  - injection E as -> E. by destruct (IH a' E Hb Hb') as [-> ->].
Qed.

Lemma money_text_shown (ip : list Z) (frac : option (list Z)) :
  money_digits ip frac -> Forall shown_char (money_text ip frac).
Proof.
  assert (forall l, all_digits l -> Forall shown_char l) as H
    by (intros l Hl; eapply Forall_impl; [exact Hl|by left]).
  intros [Hi Hf]. apply Forall_app. split; [auto|]. destruct frac as [fp|]; constructor; [by right|auto].
Qed.

(** Stripping the separators gives the amount and the cursor back. *)
Lemma keep_numbers_shown (ip : list Z) (frac : option (list Z)) (st shown : SimpleFieldState) :
  value st = money_text ip frac -> money_digits ip frac -> in_range st -> in_range shown ->
  kept shown_char shown = kept shown_char st ->
  keep_numbers r shown = (st, match frac with None => -1 | Some _ => size_of ip end).
Proof.
  intros Ev Hm Hst Hsh Hk. pose proof (money_text_shown ip frac Hm) as Hall.
  destruct (kept_all shown_char st) as [K1 K2]; [by rewrite Ev|done|].
  rewrite <- Hk in K1, K2. unfold kept in K1, K2. cbn [fst snd] in K1, K2.
  destruct st as [v p]. cbn [value position] in *. subst v.
  destruct Hm as [Hi Hf].
  destruct (keep_numbers_spec shown Hsh) as [[Hn ->]|(a & b & E & Hb & ->)].
  - rewrite shown_rnn in K1 by done.
    rewrite shown_rnn in K2 by (intros Hin; apply Hn; by apply elem_of_take in Hin as (i & Hi' & _);
      apply list_elem_of_lookup_2 in Hi').
    destruct frac as [fp|].
    + exfalso. apply (digits_no_dec _ (rnn_digits (value shown))). rewrite K1. apply elem_of_app. right. left.
    + by rewrite K1, K2.
  - rewrite E in K1. rewrite filter_app, filter_cons_True in K1 by (by right). rewrite (shown_rnn b) in K1 by done.
    destruct frac as [fp|].
    2:{ exfalso. apply (digits_no_dec ip Hi). unfold money_text in K1. rewrite app_nil_r in K1. rewrite <- K1.
        apply elem_of_app. right. left. }
    destruct (last_split_unique _ _ _ _ _ K1) as [Ka Kb]; [by apply digits_no_dec, rnn_digits|by apply digits_no_dec|].
    assert (~ (dec ∈ a)) as Ha.
    { intros Hin. apply (digits_no_dec ip Hi). rewrite <- Ka. apply list_elem_of_filter. split; [by right|done]. }
    rewrite shown_rnn in Ka by done. rewrite Ka, Kb. f_equal. f_equal. rewrite <- K2, E.
    destruct Hsh as [Hsh _]. destruct (Z.ltb_spec (size_of a) (position shown)); unfold size_of in *.
    + rewrite take_app_ge by lia. destruct (Z.to_nat (position shown) - length a)%nat as [|k] eqn:Ek; [lia|].
      cbn [take]. rewrite rnn_dec, filter_app, filter_cons_True by (by right).
      assert (~ (dec ∈ take k b)) as Hbk.
      { intros Hin. apply Hb. apply elem_of_take in Hin as (i & Hi' & _). by apply list_elem_of_lookup_2 in Hi'. }
      rewrite (shown_rnn a), (shown_rnn (take k b)) by done. rewrite !length_app. simpl. lia.
    + rewrite take_app_le by lia. rewrite shown_rnn; [lia|]. intros Hin. apply Ha.
      apply elem_of_take in Hin as (i & Hi' & _). by apply list_elem_of_lookup_2 in Hi'.
Qed.

(** The later steps leave a clean amount alone. *)
Lemma clean_steps_fixed (ip : list Z) (frac : option (list Z)) (st : SimpleFieldState) :
  value st = money_text ip frac -> money_number ip frac -> in_range st ->
  cut_integer r (skip_zeros r (leading_zero r (cut_fraction r
    (st, match frac with None => -1 | Some _ => size_of ip end)))) = st.
Proof.
  intros Ev ([Hi Hf] & Hz & Hle & Hfrac) Hp. pose proof (size_nonneg ip).
  set (sd := (st, match frac with None => -1 | Some _ => size_of ip end)).
  assert (cut_fraction r sd = sd) as ->.
  { subst sd. unfold cut_fraction. destruct frac as [fp|]; [|done].
    rewrite (proj2 (Z.ltb_ge (size_of ip) 0)) by done. rewrite Ev, text_size.
    by rewrite (proj2 (Z.ltb_ge _ _)) by lia. }
  assert (leading_zero r sd = sd) as ->.
  { subst sd. unfold leading_zero. rewrite Ev. destruct ip as [|c ip].
    - destruct frac; [by destruct Hfrac|done].
    - pose proof (digit_not_dec c ltac:(by inversion Hi)). cbn [money_text app].
      by rewrite (proj2 (Z.eqb_neq c dec)). }
  assert (skip_zeros r sd = sd) as ->.
  { subst sd. unfold skip_zeros. rewrite Ev. destruct (leading_zeros_text ip frac Hi) as (n & -> & _ & _ & _ & Hn).
    rewrite (Hn Hz). rewrite mid_drop. cbn [Z.of_nat Z.to_nat drop]. rewrite <- Ev, !Z.sub_0_r.
    unfold in_range in Hp. rewrite Z.max_l by lia. destruct st. by destruct (0 <=? _). }
  subst sd. unfold cut_integer. destruct frac as [fp|].
  - rewrite (proj2 (Z.leb_le 0 (size_of ip))), (proj2 (Z.ltb_ge _ _)) by lia. done.
  - cbn [Z.leb Z.compare]. rewrite Ev. unfold money_text. rewrite app_nil_r.
    by rewrite (proj2 (Z.ltb_ge _ _)) by lia.
Qed.

Lemma with_decimal_fixed (v : list Z) :
  Forall (fun c => shown_char c \/ c = FieldThousandsSeparator r) v -> withDecimal r v = v.
Proof.
  intros Hv. unfold withDecimal. rewrite <- list_fmap_compose. rewrite <- (list_fmap_id v) at 2.
  apply list_fmap_ext. intros i c Hc. eapply Forall_lookup_1 in Hv; [|exact Hc].
  destruct Hr as (_ & _ & _ & H46 & H44 & _). simpl.
  destruct Hv as [[Hd%is_digit_range| ->]| ->].
  - rewrite (proj2 (Z.eqb_neq c 46)), (proj2 (Z.eqb_neq c 44)) by lia. done.
  - destruct (dec =? 46); by destruct (dec =? 44).
  - by rewrite (proj2 (Z.eqb_neq _ 46)), (proj2 (Z.eqb_neq _ 44)).
Qed.

Lemma thousands_loop_Forall (P : Z -> Prop) (fuel : nat) (sep i : Z) (st : SimpleFieldState) :
  P sep -> Forall P (value st) -> Forall P (value (thousands_loop fuel sep i st)).
Proof.
  intros Hs. revert i st. induction fuel as [|fuel IH]; intros i st Hst; cbn [thousands_loop]; [done|].
  destruct (Z.ltb_spec 0 i); [|done]. apply IH. unfold insert_separator, insert_at. cbn [value].
  rewrite mid_take, mid_drop by lia. apply Forall_app. split; [by apply Forall_take|].
  constructor; [done|by apply Forall_drop].
Qed.

Lemma clean_money_number (st : SimpleFieldState) : in_range st ->
  separator_kept (leading_zero r (cut_fraction r (keep_numbers r (mk_state (withDecimal r (value st)) (position st)))))
  /\ in_range (CleanMoneyState r st)
  /\ exists ip frac, value (CleanMoneyState r st) = money_text ip frac /\ money_number ip frac.
Proof.
  intros Hst. unfold CleanMoneyState. set (st' := mk_state (withDecimal r (value st)) (position st)).
  assert (in_range st') as Hst'.
  { unfold in_range, size_of, st', withDecimal in *. cbn [value position]. by rewrite !length_fmap. }
  destruct (keep_numbers_rep st' Hst') as (ip & frac & H1).
  destruct (cut_fraction_rep _ _ _ H1) as (frac1 & H2 & Hf).
  destruct (leading_zero_rep _ _ _ H2) as (ip1 & H3 & Hne).
  destruct (skip_zeros_rep _ _ _ H3 Hne) as (Hk & ip2 & H4 & Hz & Hne2).
  destruct (cut_integer_rep _ _ _ H4 Hz Hne2 Hf) as (ip3 & E & Hn & Hr3). split_and!; [done|done|]. eauto.
Qed.

Lemma post_clean (ip : list Z) (frac : option (list Z)) (st : SimpleFieldState) :
  value st = money_text ip frac -> money_number ip frac -> in_range st ->
  in_range (PostprocessMoneyResult r st) /\ CleanMoneyState r (PostprocessMoneyResult r st) = st.
Proof.
  intros Ev Hn Hst. set (shown := PostprocessMoneyResult r st).
  assert (Forall shown_char (value st)) as Hall by (rewrite Ev; apply money_text_shown, Hn).
  destruct Hr as (Hd1 & Hd2 & Hd3 & _). 
  assert (in_range shown /\ kept shown_char shown = kept shown_char st) as [Hsh Hk].
  { apply thousands_loop_kept; [intros [?|?]; congruence|done|].
    rewrite Ev, indexOf_text by apply Hn. destruct frac as [fp|].
    - pose proof (size_nonneg ip). rewrite (proj2 (Z.leb_le 0 (size_of ip))), text_size by done.
      pose proof (size_nonneg fp). lia.
    - cbn [Z.leb Z.compare]. pose proof (size_nonneg (money_text ip None)). lia. }
  split; [done|]. unfold CleanMoneyState. rewrite with_decimal_fixed.
  - replace (mk_state (value shown) (position shown)) with shown by (by destruct shown).
    rewrite (keep_numbers_shown ip frac st shown) by (done || apply Hn). by apply clean_steps_fixed.
  - apply thousands_loop_Forall; [by right|]. eapply Forall_impl; [exact Hall|]. by left.
Qed.

End Rule.

(** For every currency the text of a money field is cleaned to an amount:
    digits without a leading zero, at most sixteen digits in all with the
    fraction digits of the currency, and a digit before every decimal
    separator; the assertion of the code holds on the way, the cursor stays
    inside the text, and the text shown with thousands separators cleans to the
    same amount with the same cursor, so that showing it again changes nothing. *)
Theorem money_field_normal (currency : list Z) (st : SimpleFieldState) :
  in_range st ->
  let r := LookupCurrencyRule currency in
  let clean := CleanMoneyState r st in
  let shown := PostprocessMoneyResult r clean in
  separator_kept r (leading_zero r (cut_fraction r
    (keep_numbers r (mk_state (withDecimal r (value st)) (position st)))))
  /\ (exists ip frac, value clean = money_text r ip frac /\ money_number r ip frac)
  /\ in_range clean /\ in_range shown
  /\ CleanMoneyState r shown = clean.
Proof.
  cbn zeta. intros Hst. pose proof (lookup_rule_ok currency) as Hr.
  destruct (clean_money_number _ Hr st Hst) as (Hk & Hc & ip & frac & Ev & Hn).
  destruct (post_clean _ Hr ip frac _ Ev Hn Hc) as [Hs Hp]. split_and!; [done| |done|done|done]. eauto.
Qed.

End Money_facts.

(** The krone has no thousands separator and its rule holds a zero character,
    which the field inserts: the text of 1234 kroner has a NUL in it. *)
Lemma krone_field_nul :
  value (Money.PostprocessMoneyResult (Money.LookupCurrencyRule (codes "DKK")) (mk_state (codes "1234") 4))
  = [49; 0; 50; 51; 52].
Proof. by vm_compute. Qed.

(** ** Witnesses *)

Lemma card_field_edit_witness :
  exists res, Card.CardNumberValidator
      (mk_request (codes "4242 42") 5 5 (codes "424242") 4) = Some res
    /\ NumbersOnlyState (mk_state (r_value res) (r_position res)) = mk_state (codes "42442") 3.
Proof.
  destruct (card_field_edit (mk_request (codes "4242 42") 5 5 (codes "424242") 4)) as (res & E & _ & H & _);
    [by vm_compute|by vm_compute|].
  exists res. split; [exact E|]. rewrite H. by vm_compute.
Defined.

(** 926 typed in a field is September of 2026. *)
Lemma expire_field_request_witness :
  Card.ExtractMonth (value (Card.PostprocessExpireDateValidateResult (mk_state (codes "926") 3))) = 9
  /\ 2000 <= Card.ExtractYear (value (Card.PostprocessExpireDateValidateResult (mk_state (codes "926") 3))) <= 2099.
Proof.
  destruct (expire_field_request 2024 6 3 (codes "926")) as (_ & H & _); [by repeat constructor|by vm_compute|].
  split; [by vm_compute|exact H].
Defined.

Lemma money_field_normal_witness :
  let r := Money.LookupCurrencyRule (codes "EUR") in
  Money.CleanMoneyState r (mk_state (codes "1 234,50") 5) = mk_state (codes "1234,50") 4.
Proof.
  destruct (Money_facts.money_field_normal (codes "EUR") (mk_state (codes "01234.509") 5))
    as (_ & _ & _ & _ & H); [by vm_compute|].
  cbn zeta. vm_compute in H. vm_compute. exact H.
Defined.
