(* ===== verification/DownloadQueue.v ===== *)
(** * The queue of downloads

    [DownloadManagerMtproto::Queue] of [storage/download_manager_mtproto.cpp]:
    the tasks of a data center, those of a higher priority first and, among
    equals, the one put in last first. Tasks are numbers. [None] is a failed
    [Assert]. *)

From S2P Require Import Prelude.

Record Enqueued := mk_enqueued { task : Z; priority : Z }.

(** [find_if] as a number: the length when nothing is found. *)
Fixpoint position {A} (p : A -> bool) (l : list A) : nat :=
  match l with
  | [] => O
  | x :: l => if p x then O else S (position p l)
  end.

(** [std::rotate]: the part from [middle] to [last] goes before the part from
    [first] to [middle]. *)
Definition rotate {A} (first middle last : nat) (l : list A) : list A :=
  take first l ++ take (last - middle) (drop middle l) ++ take (middle - first) (drop first l) ++ drop last l.

Definition enqueue (t p : Z) (q : list Enqueued) : list Enqueued :=
  let j := position (fun x => priority x <=? p) q in
  let now := position (fun x => task x =? t) q in
  let '(i, q) := if (now <? length q)%nat then (now, alter (fun x => mk_enqueued (task x) p) now q)
                 else (length q, q ++ [mk_enqueued t p]) in
  if (j <? i)%nat then rotate j i (i + 1) q
  else if (i + 1 <? j)%nat then rotate i (i + 1) j q
  else q.

Definition remove (t : Z) (q : list Enqueued) : list Enqueued := filter (fun x => task x <> t) q.

(** The loop of [resetGeneration], up to the first priority that is not 0. *)
Fixpoint reset_from (q : list Enqueued) : option (list Enqueued) :=
  match q with
  | [] => Some []
  | x :: rest =>
      if priority x =? 0 then rest' <-? reset_from rest ; Some (mk_enqueued (task x) (-1) :: rest')
      else if priority x =? -1 then Some q else None
  end.

Definition resetGeneration (q : list Enqueued) : option (list Enqueued) :=
  let from := position (fun x => priority x =? 0) q in
  q' <-? reset_from (drop from q) ; Some (take from q ++ q').

(** The first task, among those of the highest priority when asked for and
    when it is positive, that is ready. *)
Definition nextTask (ready : Z -> bool) (onlyHighestPriority : bool) (q : list Enqueued) : option Z :=
  match q with
  | [] => None
  | x :: _ =>
      let highestPriority := priority x in
      let till := if onlyHighestPriority && (0 <? highestPriority)
                  then position (fun y => negb (priority y =? highestPriority)) q else length q in
      task <$> head (filter (fun y => ready (task y) = true) (take till q))
  end.

(** ** Order *)

(** What the queue looks like: higher priorities first, each task once. *)
Record in_order (q : list Enqueued) : Prop := {
  order_sorted : StronglySorted (fun a b => priority b <= priority a) q;
  order_once : NoDup (task <$> q);
  order_from : Forall (fun x => -1 <= priority x) q }.

(** The place of a task: before the first whose priority is not higher. *)
Fixpoint put_before (x : Enqueued) (q : list Enqueued) : list Enqueued :=
  match q with
  | [] => [x]
  | y :: q' => if priority y <=? priority x then x :: q else y :: put_before x q'
  end.

Lemma position_le {A} (p : A -> bool) (l : list A) : (position p l <= length l)%nat.
Proof. induction l as [|x l IH]; simpl; [done|]. destruct (p x); lia. Qed.

Lemma position_app {A} (p : A -> bool) (a b : list A) : Forall (fun x => p x = false) a ->
  position p (a ++ b) = (length a + position p b)%nat.
Proof. induction 1 as [|x a Hx _ IH]; simpl; [done|]. by rewrite Hx, IH. Qed.

Lemma position_split {A} (p : A -> bool) (l : list A) : Forall (fun x => p x = false) (take (position p l) l)
  /\ forall x r, drop (position p l) l = x :: r -> p x = true.
Proof.
  induction l as [|x l [IH1 IH2]]; simpl; [by split|]. destruct (p x) eqn:E; simpl.
  - split; [done|]. by intros y r [= <- _].
  - split; [by constructor|done].
Qed.

Lemma put_at (x : Enqueued) (q : list Enqueued) :
  put_before x q = take (position (fun y => priority y <=? priority x) q) q ++ x :: drop (position (fun y => priority y <=? priority x) q) q.
Proof. induction q as [|y q IH]; simpl; [done|]. destruct (priority y <=? priority x); simpl; [done|]. by rewrite IH. Qed.

Lemma put_app (x : Enqueued) (a b : list Enqueued) : Forall (fun y => priority x < priority y) a ->
  put_before x (a ++ b) = a ++ put_before x b.
Proof. induction 1 as [|y a Hy _ IH]; simpl; [done|]. rewrite (proj2 (Z.leb_gt _ _)) by done. by rewrite IH. Qed.

Lemma put_app_low (x : Enqueued) (a b : list Enqueued) : Forall (fun y => priority y <= priority x) b ->
  put_before x (a ++ b) = put_before x a ++ b.
Proof.
  intros Hb. induction a as [|y a IH]; simpl; [|destruct (priority y <=? priority x); [done|by rewrite IH]].
  destruct Hb as [|y b Hy _]; simpl; [done|]. by rewrite (proj2 (Z.leb_le _ _)).
Qed.

(** An element moved to an earlier and to a later place. *)
Lemma rotate_back {A} (a : list A) (x : A) (b : list A) (j : nat) : (j <= length a)%nat ->
  rotate j (length a) (length a + 1) (a ++ x :: b) = take j a ++ x :: drop j a ++ b.
Proof.
  intros Hj. unfold rotate. rewrite (take_app_le a), drop_app_length, drop_app_add, (drop_app_le a) by done.
  replace (length a + 1 - length a)%nat with 1%nat by lia. simpl. do 2 f_equal.
  by rewrite <- length_drop, take_app_length.
Qed.

Lemma rotate_on {A} (a : list A) (x : A) (b : list A) (k : nat) :
  rotate (length a) (length a + 1) (length a + 1 + k) (a ++ x :: b) = a ++ take k b ++ x :: drop k b.
Proof.
  unfold rotate. rewrite take_app_length, drop_app_length, drop_app_add, <- Nat.add_assoc, drop_app_add.
  replace (length a + (1 + k) - (length a + 1))%nat with k by lia.
  by replace (length a + 1 - length a)%nat with 1%nat by lia.
Qed.

(** The queue without a task that is not in it, and around one that is. *)
Lemma remove_none (t : Z) (q : list Enqueued) : t ∉ (task <$> q) -> remove t q = q.
Proof.
  intros Ht. unfold remove. induction q as [|x q IH]; [done|]. rewrite fmap_cons, not_elem_of_cons in Ht.
  destruct Ht as [Hx Hq]. rewrite filter_cons_True by congruence. by rewrite IH.
Qed.

Lemma remove_mid (t : Z) (a b : list Enqueued) (y : Enqueued) : task y = t -> NoDup (task <$> (a ++ y :: b)) ->
  remove t (a ++ y :: b) = a ++ b /\ (t ∉ task <$> a) /\ (t ∉ task <$> b).
Proof.
  intros <-. rewrite fmap_app, fmap_cons, NoDup_app. intros (_ & Ha & Hb%NoDup_cons). destruct Hb as [Hb _].
  assert (task y ∉ (task <$> a)) as Ha' by (intros H; apply (Ha _ H); by left).
  split_and!; [|done|done]. unfold remove at 1. rewrite filter_app, filter_cons_False by tauto.
  f_equal; by apply remove_none.
Qed.

Lemma position_task (t : Z) (q : list Enqueued) : t ∈ (task <$> q) -> exists a y b, q = a ++ y :: b /\ task y = t
  /\ position (fun x => task x =? t) q = length a.
Proof.
  induction q as [|x q IH]; [by intros ?%not_elem_of_nil|]. rewrite fmap_cons. simpl position.
  destruct (Z.eqb_spec (task x) t) as [<-|Hne]; [intros _; by exists [], x, q|].
  intros [?|H]%elem_of_cons; [congruence|]. destruct (IH H) as (a & y & b & -> & Ht & E).
  exists (x :: a), y, b. split_and!; [done|done|]. simpl. by rewrite E.
Qed.

Lemma position_none (t : Z) (q : list Enqueued) : t ∉ (task <$> q) -> position (fun x => task x =? t) q = length q.
Proof.
  induction q as [|x q IH]; [done|]. rewrite fmap_cons, not_elem_of_cons. intros [Hx Hq]. simpl.
  rewrite (proj2 (Z.eqb_neq _ _)) by congruence. by rewrite IH.
Qed.

(** Putting an element into its place from where it is. *)
Lemma move_back (x : Enqueued) (a b : list Enqueued) (j := position (fun y => priority y <=? priority x) a) :
  (if (j <? length a)%nat then rotate j (length a) (length a + 1) (a ++ x :: b)
   else if (length a + 1 <? j)%nat then rotate (length a) (length a + 1) j (a ++ x :: b) else a ++ x :: b)
  = put_before x a ++ b.
Proof.
  pose proof (position_le (fun y => priority y <=? priority x) a) as Hj. fold j in Hj. rewrite put_at. fold j.
  destruct (Nat.ltb_spec j (length a)).
  - rewrite rotate_back by done. by rewrite <- (assoc_L (++)).
  - rewrite (proj2 (Nat.ltb_ge _ _)) by lia. rewrite take_ge, drop_ge by done. by rewrite <- (assoc_L (++)).
Qed.

Lemma move_on (x : Enqueued) (a b : list Enqueued) (k := position (fun y => priority y <=? priority x) b)
    (j := (length a + 1 + k)%nat) :
  (if (j <? length a)%nat then rotate j (length a) (length a + 1) (a ++ x :: b)
   else if (length a + 1 <? j)%nat then rotate (length a) (length a + 1) j (a ++ x :: b) else a ++ x :: b)
  = a ++ put_before x b.
Proof.
  rewrite put_at. fold k. rewrite (proj2 (Nat.ltb_ge _ _)) by lia. destruct (Nat.ltb_spec (length a + 1) j).
  - unfold j. by rewrite rotate_on.
  - by replace k with 0%nat by lia.
Qed.

Lemma alter_mid {A} (f : A -> A) (a b : list A) (y : A) : alter f (length a) (a ++ y :: b) = a ++ f y :: b.
Proof. by rewrite alter_app_r_alt, Nat.sub_diag. Qed.

(** [enqueue] takes the task out and puts it in its place. *)
Lemma enqueue_eq (t p : Z) (q : list Enqueued) : in_order q ->
  enqueue t p q = put_before (mk_enqueued t p) (remove t q).
Proof.
  intros [Hs Hn _]. unfold enqueue. destruct (decide (t ∈ (task <$> q))) as [Ht|Ht].
  - destruct (position_task t q Ht) as (a & y & b & -> & Ey & ->). destruct (remove_mid t a b y Ey Hn) as (-> & _ & _).
    rewrite length_app. simpl length. rewrite (proj2 (Nat.ltb_lt _ _)) by lia.
    rewrite alter_mid, Ey. set (x := mk_enqueued t p).
    apply StronglySorted_app_iff in Hs as (_ & Hyb & Hab). inversion Hyb as [|? ? _ Hb]; subst.
    destruct (Z.leb_spec (priority y) p) as [Hle|Hgt].
    + rewrite put_app_low by (eapply Forall_impl; [exact Hb|]; simpl; lia). rewrite <- move_back.
      assert (position (fun z => priority z <=? p) (a ++ y :: b) = position (fun z => priority z <=? priority x) a) as ->; [|done].
      clear -Hle. induction a as [|z a IH]; simpl; [by rewrite (proj2 (Z.leb_le _ _))|].
      destruct (priority z <=? p); [done|]. by rewrite IH.
    + assert (Forall (fun z => (priority z <=? p) = false) a) as Ha.
      { apply Forall_forall. intros z Hz. apply Z.leb_gt. specialize (Hab z y Hz ltac:(by left)). lia. }
      rewrite put_app by (eapply Forall_impl; [exact Ha|]; simpl; lia). rewrite <- move_on.
      rewrite position_app by done. simpl. rewrite (proj2 (Z.leb_gt _ _)) by done.
      by rewrite Nat.add_succ_r, <- Nat.add_1_r, <- Nat.add_assoc, (Nat.add_comm _ 1), Nat.add_assoc.
  - rewrite position_none, Nat.ltb_irrefl, remove_none by done. rewrite <- (app_nil_r (put_before _ q)).
    by rewrite <- move_back.
Qed.

(** ** What the operations keep *)

Lemma put_perm (x : Enqueued) (q : list Enqueued) : put_before x q ≡ₚ x :: q.
Proof.
  induction q as [|y q IH]; simpl; [done|]. destruct (priority y <=? priority x); [done|].
  rewrite IH. apply Permutation_swap.
Qed.

Lemma put_sorted (x : Enqueued) (q : list Enqueued) : StronglySorted (fun a b => priority b <= priority a) q ->
  StronglySorted (fun a b => priority b <= priority a) (put_before x q).
Proof.
  induction 1 as [|y q Hs IH Hy]; simpl; [by repeat constructor|].
  destruct (Z.leb_spec (priority y) (priority x)) as [Hle|Hgt].
  - constructor; [by constructor|]. constructor; [done|]. eapply Forall_impl; [exact Hy|]. simpl. lia.
  - constructor; [done|]. rewrite put_perm. constructor; [lia|done].
Qed.

Lemma remove_Forall (P : Enqueued -> Prop) (t : Z) (q : list Enqueued) : Forall P q -> Forall P (remove t q).
Proof. rewrite !Forall_forall. intros H x [_ Hx]%list_elem_of_filter. auto. Qed.

Lemma remove_in_order (t : Z) (q : list Enqueued) : in_order q -> in_order (remove t q) /\ t ∉ (task <$> remove t q).
Proof.
  intros [Hs Hn Hf]. split; [split|].
  - clear -Hs. induction Hs as [|x q Hs IH Hx]; [constructor|]. unfold remove. rewrite filter_cons.
    case_decide; [|done]. constructor; [done|]. by apply remove_Forall.
  - eapply sublist_NoDup; [exact Hn|]. apply fmap_sublist, sublist_filter.
  - by apply remove_Forall.
  - intros (x & -> & [Hx _]%list_elem_of_filter)%list_elem_of_fmap. done.
Qed.

Lemma enqueue_perm (t p : Z) (q : list Enqueued) : in_order q -> -1 <= p ->
  in_order (enqueue t p q) /\ enqueue t p q ≡ₚ mk_enqueued t p :: remove t q.
Proof.
  intros Hq Hp. rewrite enqueue_eq by done. destruct (remove_in_order t q Hq) as [[Hs Hn Hf] Ht].
  split; [split|apply put_perm].
  - by apply put_sorted.
  - rewrite put_perm, fmap_cons. by constructor.
  - rewrite put_perm. by constructor.
Qed.

(** A queue stays in order: the task is taken from where it was and put after
    those of a higher priority and before all others. *)
Theorem download_queue_order (t p : Z) (q : list Enqueued) : in_order q -> -1 <= p ->
  in_order (enqueue t p q) /\ exists a b, enqueue t p q = a ++ mk_enqueued t p :: b /\ remove t q = a ++ b
    /\ Forall (fun x => p < priority x) a /\ Forall (fun x => priority x <= p) b.
Proof.
  intros Hq Hp. split; [by apply enqueue_perm|]. rewrite enqueue_eq by done.
  destruct (remove_in_order t q Hq) as [[Hs _ _] _]. rewrite put_at.
  set (f := fun y => priority y <=? priority (mk_enqueued t p)). destruct (position_split f (remove t q)) as [Ha Hb].
  exists (take (position f (remove t q)) (remove t q)), (drop (position f (remove t q)) (remove t q)). split; [done|].
  split; [by rewrite take_drop|]. split; [eapply Forall_impl; [exact Ha|]; unfold f; simpl; lia|].
  rewrite <- (take_drop (position f (remove t q)) (remove t q)) in Hs. apply StronglySorted_app_iff in Hs as (_ & Hs & _).
  destruct (drop _ _) as [|x r]; [done|]. specialize (Hb x r eq_refl). apply Z.leb_le in Hb. simpl in Hb.
  inversion Hs as [|? ? _ Hx]; subst. constructor; [done|]. eapply Forall_impl; [exact Hx|]. simpl. lia.
Qed.

(** Two documents, one asked for again with a higher priority. *)
Lemma download_queue_order_witness : let q := [mk_enqueued 7 2; mk_enqueued 5 0; mk_enqueued 6 0] in
  in_order q /\ in_order (enqueue 6 1 q) /\ exists a b, enqueue 6 1 q = a ++ mk_enqueued 6 1 :: b /\ remove 6 q = a ++ b
    /\ Forall (fun x => 1 < priority x) a /\ Forall (fun x => priority x <= 1) b.
Proof.
  intros q. assert (in_order q) as H.
  { unfold q. split; simpl.
    - repeat (constructor; simpl; try lia).
    - apply (bool_decide_unpack _). vm_compute. exact I.
    - repeat (constructor; simpl; try lia). }
  split; [exact H|]. apply (download_queue_order 6 1 q H). lia.
Defined.

(** What is aged: the tasks of priority 0. *)
Definition aged (x : Enqueued) : Enqueued := if priority x =? 0 then mk_enqueued (task x) (-1) else x.

Lemma reset_from_low (q : list Enqueued) : StronglySorted (fun a b => priority b <= priority a) q ->
  Forall (fun x => -1 <= priority x <= 0) q -> reset_from q = Some (aged <$> q).
Proof.
  induction 1 as [|x q Hs IH Hx]; intros Hf; [done|]. inversion Hf as [|? ? Hx0 Hq]; subst. simpl. unfold aged at 1.
  destruct (Z.eqb_spec (priority x) 0) as [E|Hne]; [by rewrite IH|].
  destruct (Z.eqb_spec (priority x) (-1)) as [E|]; [|lia]. do 2 f_equal. clear -Hx E.
  rewrite E in Hx. symmetry. rewrite <- (list_fmap_id q) at 2. apply list_fmap_ext. intros i y Hy.
  unfold aged. rewrite (proj2 (Z.eqb_neq _ _)); [done|]. rewrite Forall_lookup in Hx. specialize (Hx i y Hy). simpl in Hx. lia.
Qed.

Lemma reset_eq (q : list Enqueued) : in_order q -> resetGeneration q = Some (aged <$> q).
Proof.
  intros [Hs _ Hf]. unfold resetGeneration. set (p := fun x => priority x =? 0). destruct (position_split p q) as [Ht Hd].
  rewrite <- (take_drop (position p q) q) in Hs, Hf. apply StronglySorted_app_iff in Hs as (_ & Hs & _).
  apply Forall_app in Hf as [_ Hf]. set (a := take _ q) in *. set (b := drop _ q) in *.
  assert (aged <$> q = a ++ (aged <$> b)) as ->.
  { rewrite <- (take_drop (position p q) q) at 1. fold a b. rewrite fmap_app. f_equal.
    rewrite <- (list_fmap_id a) at 2. apply list_fmap_ext. intros i y Hy. rewrite Forall_lookup in Ht.
    unfold aged. specialize (Ht i y Hy). unfold p in Ht. by rewrite Ht. }
  rewrite reset_from_low; [done|done|]. destruct b as [|x b]; [done|].
  specialize (Hd x b eq_refl). apply Z.eqb_eq in Hd. inversion Hs as [|? ? _ Hx]; subst. inversion Hf as [|? ? _ Hfb]; subst.
  constructor; [lia|]. rewrite Forall_forall in Hx, Hfb |- *. intros y Hy. specialize (Hx y Hy). specialize (Hfb y Hy). simpl in *. lia.
Qed.

Lemma reset_in_order (q : list Enqueued) : in_order q -> in_order (aged <$> q) /\ task <$> (aged <$> q) = task <$> q.
Proof.
  intros [Hs Hn Hf]. assert (task <$> (aged <$> q) = task <$> q) as E.
  { rewrite <- list_fmap_compose. apply list_fmap_ext. intros i x _. unfold compose, aged. by destruct (_ =? 0). }
  split; [|done]. split; [|by rewrite E|].
  - assert (forall a b, -1 <= priority b -> priority b <= priority a -> priority (aged b) <= priority (aged a)) as Hm.
    { intros a b Hb Hab. unfold aged. destruct (Z.eqb_spec (priority a) 0), (Z.eqb_spec (priority b) 0); simpl; lia. }
    clear -Hs Hf Hm. induction Hs as [|x q Hs IH Hx]; [constructor|]. inversion Hf; subst. rewrite fmap_cons.
    constructor; [by apply IH|]. apply Forall_fmap. rewrite Forall_forall in *. intros y Hy. apply Hm; auto.
  - apply Forall_fmap. eapply Forall_impl; [exact Hf|]. intros x Hx. unfold compose, aged. simpl in Hx. destruct (_ =? 0); simpl; lia.
Qed.
