(* ===== verification/StateMonad.v ===== *)
(** * State and failure

    Programs that thread a state and may fail (an [Expects] or an [Assert] that
    does not hold), and two ways of reasoning on them: total correctness, and
    what every step keeps. *)

From S2P Require Import Prelude.

Definition M (S A : Type) : Type := S -> option (A * S).

Definition ret {S A} (a : A) : M S A := fun s => Some (a, s).
Definition bind {S A B} (m : M S A) (k : A -> M S B) : M S B :=
  fun s => match m s with Some (a, s') => k a s' | None => None end.
Definition gets {S A} (f : S -> A) : M S A := fun s => Some (f s, s).
Definition modify {S} (f : S -> S) : M S unit := fun s => Some (tt, f s).
Definition lift {S A} (o : option A) : M S A := fun s => match o with Some a => Some (a, s) | None => None end.

Notation "x <- m ;; k" := (bind m (fun x => k))
  (at level 100, m at next level, k at level 200, right associativity) : tg_scope.
Notation "m ;;; k" := (bind m (fun _ => k)) (at level 100, k at level 200, right associativity) : tg_scope.

Fixpoint each {S A} (f : A -> M S unit) (l : list A) : M S unit :=
  match l with
  | [] => ret tt
  | x :: l => f x ;;; each f l
  end.

(** ** Total correctness *)

Definition wp {S A} (m : M S A) (Q : A -> S -> Prop) (s : S) : Prop :=
  match m s with Some (a, s') => Q a s' | None => False end.

Section Wp.
Context {S A B : Type}.
Implicit Types (Q : A -> S -> Prop) (s : S).

Lemma wp_ret (a : A) Q s : Q a s -> wp (ret a) Q s.
Proof. done. Qed.
Lemma wp_bind (m : M S B) (k : B -> M S A) Q s :
  wp m (fun b s' => wp (k b) Q s') s -> wp (bind m k) Q s.
Proof. unfold wp, bind. by destruct (m s) as [[b s']|]. Qed.
Lemma wp_gets (f : S -> A) Q s : Q (f s) s -> wp (gets f) Q s.
Proof. done. Qed.
Lemma wp_lift (o : option A) (a : A) Q s : o = Some a -> Q a s -> wp (lift o) Q s.
Proof. by intros ->. Qed.
Lemma wp_mono (m : M S A) Q (Q' : A -> S -> Prop) s :
  wp m Q s -> (forall a s', Q a s' -> Q' a s') -> wp m Q' s.
Proof. unfold wp. destruct (m s) as [[a s']|]; auto. Qed.
End Wp.

Lemma wp_modify {S} (f : S -> S) (Q : unit -> S -> Prop) s : Q tt (f s) -> wp (modify f) Q s.
Proof. done. Qed.
Lemma wp_step {S A B} (m : M S A) (k : A -> M S B) (Q : B -> S -> Prop) (s s' : S) (a : A) :
  m s = Some (a, s') -> wp (k a) Q s' -> wp (bind m k) Q s.
Proof. unfold wp, bind. by intros ->. Qed.
Lemma wp_assoc {S A B C} (m : M S A) (f : A -> M S B) (g : B -> M S C) (Q : C -> S -> Prop) (s : S) :
  wp (bind (bind m f) g) Q s -> wp (bind m (fun a => bind (f a) g)) Q s.
Proof. unfold wp, bind. by destruct (m s) as [[a s']|]. Qed.
Lemma wp_also {S A} (m : M S A) (Q : A -> S -> Prop) (P : A -> S -> Prop) (s : S) :
  wp m Q s -> (forall a s', m s = Some (a, s') -> P a s') -> wp m (fun a s' => Q a s' /\ P a s') s.
Proof. unfold wp. destruct (m s) as [[a s']|]; auto. Qed.

(** A loop keeps an invariant its steps keep. *)
Lemma wp_each {S A} (I : S -> Prop) (f : A -> M S unit) (l : list A) s :
  (forall x s, x ∈ l -> I s -> wp (f x) (fun _ => I) s) -> I s -> wp (each f l) (fun _ => I) s.
Proof.
  revert s. induction l as [|x l IH]; intros s Hf Hs; [done|]. cbn [each]. apply wp_bind.
  eapply wp_mono; [apply Hf; [by left|done]|]. intros [] s' Hs'. apply IH; [|done].
  intros. apply Hf; [by right|done].
Qed.

(** ** What every step keeps *)

(** Whenever [m] returns, the states before and after are related. *)
Definition along {S A} (R : relation S) (m : M S A) : Prop := forall s a s', m s = Some (a, s') -> R s s'.

Section Along.
Context {S : Type} {R : relation S} `{!PreOrder R}.

Lemma along_ret {A} (a : A) : along R (ret a).
Proof. intros s b s' [= _ <-]. reflexivity. Qed.
Lemma along_bind {A B} (m : M S A) (k : A -> M S B) : along R m -> (forall a, along R (k a)) -> along R (bind m k).
Proof.
  intros Hm Hk s b s'. unfold bind. destruct (m s) as [[a s1]|] eqn:E; [|done]. intros E'.
  etrans; [by eapply Hm|by eapply Hk].
Qed.
Lemma along_gets {A} (f : S -> A) : along R (gets f).
Proof. intros s b s' [= _ <-]. reflexivity. Qed.
Lemma along_lift {A} (o : option A) : along R (lift o).
Proof. intros s b s'. unfold lift. destruct o; [|done]. intros [= _ <-]. reflexivity. Qed.
Lemma along_modify (f : S -> S) : (forall s, R s (f s)) -> along R (modify f).
Proof. intros Hf s b s' [= _ <-]. apply Hf. Qed.
Lemma along_each {A} (f : A -> M S unit) (l : list A) : (forall x, along R (f x)) -> along R (each f l).
Proof. intros Hf. induction l; cbn [each]; [apply along_ret|by apply along_bind]. Qed.
End Along.

Create HintDb along.
#[export] Hint Resolve along_ret along_gets along_lift : along.

(** Through the steps of a program; what is left is about its primitives. *)
Ltac along := repeat first
  [ solve [eauto 3 with along nocore typeclass_instances]
  | apply along_bind; [|intros ?]
  | match goal with
    | |- along _ (if ?b then _ else _) => destruct b
    | |- along _ (match ?o with _ => _ end) => destruct o
    end ].

