(* ===== verification/Requests.v ===== *)
(** * Serialized requests

    [mtproto/details/mtproto_serialized_request.cpp] and
    [mtproto_serialized_request.h]: the buffer of a request to be sent, and the
    wrapping of requests of [mtproto/session_private.cpp]
    ([WrapInvokeAfter], messages inside a container).

    A buffer is the list of its 32-bit words, as unsigned numbers: two of the
    salt, two of the session id, two of the message id, the sequence number,
    the length of the body in bytes, the body. The random numbers are
    arguments. [None] is a failed [Expects] or an access out of range. *)

From S2P Require Import Prelude.

Definition kMessageIdPosition : nat := 4.
Definition kSeqNoPosition : nat := 6.
Definition kMessageLengthPosition : nat := 7.
Definition kMessageBodyPosition : nat := 8.
Definition kMessageHeaderInts : Z := 4.

(** Constructors of the schema that the code looks at. *)
Definition mtpc_msg_container : Z := 0x73f1f8dc.
Definition mtpc_msgs_ack : Z := 0x62d6b459.
Definition mtpc_http_wait : Z := 0x9299359f.
Definition mtpc_bad_msg_notification : Z := 0xa7eff811.
Definition mtpc_msgs_all_info : Z := 0x8cc0d131.
Definition mtpc_msgs_state_info : Z := 0x04deb57d.
Definition mtpc_msg_detailed_info : Z := 0x276d3ec6.
Definition mtpc_msg_new_detailed_info : Z := 0x809db6df.
Definition mtpc_invokeAfterMsg : Z := 0xcb9f372d.
Definition mtpc_invokeWithLayer : Z := 0xda9b0d0d.

(** [memcpy] of words over a part of a buffer. *)
Definition put_at (n : nat) (ws b : list Z) : list Z := take n b ++ ws ++ drop (n + length ws) b.

(** The two words of a 64-bit number. *)
Definition words64 (z : Z) : list Z := [wrapu 32 z; wrapu 32 (z / 2 ^ 32)].
Definition word (n : nat) (b : list Z) : Z := nth n b 0.
Definition long (n : nat) (b : list Z) : Z := word n b + 2 ^ 32 * word (S n) b.

Definition has_body (b : list Z) : bool := bool_decide (kMessageBodyPosition < length b)%nat.

Definition Prepare (size : Z) : option (list Z) :=
  if 0 <? size then Some (replicate 7 0 ++ [wrapu 32 (Z.shiftl size 2)]) else None.

Definition setMsgId (msgId : Z) (b : list Z) : option (list Z) :=
  if has_body b then Some (put_at kMessageIdPosition (words64 msgId) b) else None.

Definition getMsgId (b : list Z) : option Z :=
  if has_body b then Some (long kMessageIdPosition b) else None.

Definition setSeqNo (seqNo : Z) (b : list Z) : option (list Z) :=
  if has_body b then Some (put_at kSeqNoPosition [seqNo] b) else None.

Definition getSeqNo (b : list Z) : option Z :=
  if has_body b then Some (word kSeqNoPosition b) else None.

(** [sizeInBytes], which is the [tl::count_length] of a request. *)
Definition count_length (b : list Z) : option Z :=
  if has_body b then Some (word kMessageLengthPosition b) else None.

Definition CountPaddingPrimesCount (requestSize : Z) (forAuthKeyInner : bool) (random : Z) : Z :=
  let rest := Z.land (8 + requestSize) 0x03 in
  let aligned := if negb (rest =? 0) then 4 - rest else 0 in
  if forAuthKeyInner then aligned
  else
    let result := if aligned <? 3 then aligned + 4 else aligned in
    result + Z.shiftl (Z.land random 0x0F) 2.

(** [QVector::resize] *)
Definition resize (n : nat) (b : list Z) : list Z := take n b ++ replicate (n - length b) 0.

(** [random] chooses the amount of padding and [bytes] fills it. *)
Definition addPadding (forAuthKeyInner : bool) (random : Z) (bytes : nat -> list Z) (b : list Z) : option (list Z) :=
  len <-? count_length b ;
  let requestSize := Z.shiftr len 2 in
  let padding := CountPaddingPrimesCount requestSize forAuthKeyInner random in
  let fullSize := 8 + requestSize + padding in
  if negb (Z.of_nat (length b) =? fullSize) then
    let b := resize (Z.to_nat fullSize) b in
    Some (if 0 <? padding then put_at (Z.to_nat (fullSize - padding)) (bytes (Z.to_nat padding)) b else b)
  else Some b.

Definition messageSize (b : list Z) : option Z :=
  len <-? count_length b ; Some (kMessageHeaderInts + Z.shiftr len 2).

Definition needAck (b : list Z) : option bool :=
  if has_body b then
    let type := word kMessageBodyPosition b in
    Some (negb (bool_decide (type ∈ [mtpc_msg_container; mtpc_msgs_ack; mtpc_http_wait;
      mtpc_bad_msg_notification; mtpc_msgs_all_info; mtpc_msgs_state_info; mtpc_msg_detailed_info;
      mtpc_msg_new_detailed_info])))
  else None.

(** ** Requests inside other requests *)

(** [memcpy] of the message [b] holds, from its id on. *)
Definition appendMessage (to b : list Z) : option (list Z) :=
  size <-? messageSize b ;
  Some (to ++ take (Z.to_nat size) (drop 4 b)).

(** [after] is the message id of the request to invoke after and whether it is
    still in the sent ones. *)
Definition WrapInvokeAfter (to from : list Z) (afterId : Z) (found : bool) (skipBeforeRequest : nat)
    : option (list Z) :=
  len <-? count_length from ;
  let lenInInts := Z.to_nat (Z.shiftr len 2) in
  let header := take 4 (drop 4 from) in
  let body := take lenInInts (drop 8 from) in
  let size := length to in
  if negb found then Some (to ++ header ++ replicate skipBeforeRequest 0 ++ body)
  else
    let to := to ++ put_at 3 [word 3 header + 12] header ++ replicate skipBeforeRequest 0
      ++ [mtpc_invokeAfterMsg] ++ words64 afterId ++ body in
    Some (if bool_decide (size = 4)%nat then to else put_at 7 [word 7 to + 12] to).

(** The request wrapped so alone in a buffer: the salt and the session id are
    copied from the request. *)
Definition wrapAfterSingle (from : list Z) (afterId : Z) (found : bool) : option (list Z) :=
  len <-? count_length from ;
  prepared <-? Prepare (Z.shiftr len 2) ;
  WrapInvokeAfter (put_at 0 (take 4 from) (resize 4 prepared)) from afterId found 0.

(** The request wrapped in [invokeWithLayer], alone in a buffer: all but the
    length is copied from the request. *)
Definition wrapLayerSingle (init from : list Z) : option (list Z) :=
  len <-? count_length from ;
  let noWrapSize := Z.shiftr len 2 in
  prepared <-? Prepare (noWrapSize + Z.of_nat (length init)) ;
  Some (put_at 0 (take 7 from) prepared ++ init ++ take (Z.to_nat noWrapSize) (drop 8 from)).

(** The same for a request that invokes nothing after, inside a container. *)
Definition wrapLayerInContainer (to init from : list Z) : option (list Z) :=
  len <-? count_length from ;
  let header := take 4 (drop 4 from) in
  Some (to ++ put_at 3 [word 3 header + 4 * Z.of_nat (length init)] header ++ init
    ++ take (Z.to_nat (Z.shiftr len 2)) (drop 8 from)).
