(* ===== verification/RequestFacts.v ===== *)
(** * Facts on the buffers of requests

    What the operations of [Requests] do to a well-formed buffer, and the
    messages of a container: the words that were appended are read back as the
    messages placed, whatever they were wrapped in. *)

From S2P Require Import Prelude Requests.

(** ** Buffers *)

(** A body that is there, of the length written in the header. *)
Definition good_length (b : list Z) : Prop :=
  0 <= word 7 b /\ word 7 b mod 4 = 0 /\ 8 + word 7 b / 4 <= Z.of_nat (length b).
Definition good_buffer (b : list Z) : Prop := has_body b = true /\ good_length b.

Lemma has_body_length (b : list Z) : has_body b = true <-> (8 < length b)%nat.
Proof. unfold has_body, kMessageBodyPosition. by rewrite bool_decide_eq_true. Qed.

Lemma shiftr2 (z : Z) : Z.shiftr z 2 = z / 4.
Proof. by rewrite Z.shiftr_div_pow2. Qed.

Lemma good_same (b b' : list Z) :
  good_buffer b -> (length b <= length b')%nat -> word 7 b' = word 7 b -> good_buffer b'.
Proof.
  intros [Hb%has_body_length (H0 & Hm & Hl)] Hlen Hw. split; [apply has_body_length; lia|].
  unfold good_length. rewrite Hw. split_and!; [done|done|lia].
Qed.

Lemma put_at_length (n : nat) (ws b : list Z) : (n + length ws <= length b)%nat -> length (put_at n ws b) = length b.
Proof. intros. unfold put_at. rewrite !length_app, length_take, length_drop. lia. Qed.

Lemma put_at_word (n i : nat) (ws b : list Z) :
  (n + length ws <= length b)%nat ->
  word i (put_at n ws b) = if bool_decide (n <= i < n + length ws)%nat then word (i - n) ws else word i b.
Proof.
  intros Hl. unfold word, put_at. rewrite !nth_lookup. f_equal. case_bool_decide as Hi.
  - rewrite lookup_app_r; rewrite length_take; [|lia]. rewrite Nat.min_l by lia. by rewrite lookup_app_l by lia.
  - destruct (decide (i < n)%nat).
    + rewrite lookup_app_l by (rewrite length_take; lia). by rewrite lookup_take_lt.
    + rewrite lookup_app_r; rewrite length_take; [|lia]. rewrite Nat.min_l by lia.
      rewrite lookup_app_r by lia. rewrite lookup_drop. do 2 f_equal. lia.
Qed.

Lemma words64_long (z : Z) : fits_u 64 z -> wrapu 32 z + 2 ^ 32 * wrapu 32 (z / 2 ^ 32) = z.
Proof.
  unfold fits_u, wrapu. intros Hz. rewrite (Z.mod_small (z / 2 ^ 32)).
  - pose proof (Z.div_mod z (2 ^ 32)). lia.
  - split; [apply Z.div_pos; lia|]. apply Z.div_lt_upper_bound; [lia|]. change (2 ^ 32 * 2 ^ 32) with (2 ^ 64). lia.
Qed.

(** Setting the id or the sequence number leaves the rest. *)
Lemma set_ids_spec (b : list Z) (id seqNo : Z) :
  good_buffer b -> fits_u 64 id ->
  exists b1 b2, setMsgId id b = Some b1 /\ needAck b1 = needAck b /\ setSeqNo seqNo b1 = Some b2
    /\ good_buffer b2 /\ long 4 b2 = id /\ needAck b2 = needAck b
    /\ word 6 b2 = seqNo /\ word 7 b2 = word 7 b /\ drop 8 b2 = drop 8 b /\ length b2 = length b.
Proof.
  intros Hg Hid. pose proof (proj1 Hg) as Hb. pose proof Hb as Hl. apply has_body_length in Hl.
  unfold setMsgId, setSeqNo, needAck. rewrite Hb.
  set (b1 := put_at kMessageIdPosition (words64 id) b).
  assert (length b1 = length b) as L1 by (apply put_at_length; simpl; unfold kMessageIdPosition; lia).
  assert (has_body b1 = true) as Hb1 by (apply has_body_length; lia).
  set (b2 := put_at kSeqNoPosition [seqNo] b1).
  assert (length b2 = length b) as L2
    by (unfold b2; rewrite put_at_length; [done|simpl; unfold kSeqNoPosition; lia]).
  assert (has_body b2 = true) as Hb2 by (apply has_body_length; lia).
  assert (forall i, i <> 6%nat -> word i b2 = word i b1) as W2.
  { intros i Hi. unfold b2. rewrite put_at_word by (simpl; unfold kSeqNoPosition; lia).
    case_bool_decide; [|done]. simpl in *. unfold kSeqNoPosition in *. lia. }
  assert (forall i, i <> 4%nat -> i <> 5%nat -> word i b1 = word i b) as W1.
  { intros i Hi Hi'. unfold b1. rewrite put_at_word by (simpl; unfold kMessageIdPosition; lia).
    case_bool_decide; [|done]. simpl in *. unfold kMessageIdPosition in *. lia. }
  exists b1, b2. unfold kMessageBodyPosition. rewrite Hb1, Hb2, !W2, !W1 by done. split_and!; try done.
  - apply (good_same b); [done|lia|by rewrite W2, W1].
  - unfold long. rewrite !W2 by done. unfold b1, kMessageIdPosition.
    rewrite !put_at_word by (simpl; lia). rewrite !bool_decide_eq_true_2 by (simpl; lia).
    apply words64_long. done.
  - unfold b2, kSeqNoPosition. rewrite put_at_word by (simpl; lia). by rewrite bool_decide_eq_true_2 by (simpl; lia).
  - by rewrite W2, W1 by done.
  - apply list_eq. intros i. rewrite !lookup_drop.
    assert (forall l1 l2 : list Z, length l1 = length l2 -> word (8 + i) l1 = word (8 + i) l2 ->
      l1 !! (8 + i)%nat = l2 !! (8 + i)%nat) as H.
    { intros l1 l2 El Ew. unfold word in Ew. rewrite !nth_lookup in Ew.
      destruct (l1 !! (8 + i)%nat) eqn:E1, (l2 !! (8 + i)%nat) eqn:E2; simpl in *; try done; try congruence.
      - apply lookup_lt_Some in E1. apply lookup_ge_None in E2. lia.
      - apply lookup_lt_Some in E2. apply lookup_ge_None in E1. lia. }
    apply H; [done|]. by rewrite W2, W1 by lia.
Qed.

Lemma padding_pos (size random : Z) : 3 <= CountPaddingPrimesCount size false random.
Proof.
  unfold CountPaddingPrimesCount.
  assert (0 <= Z.shiftl (Z.land random 15) 2) by (rewrite Z.shiftl_nonneg; apply Z.land_nonneg; right; lia).
  assert (0 <= Z.land (8 + size) 3 < 4) as Hr.
  { change 3 with (Z.ones 2). rewrite Z.land_ones by lia. apply Z.mod_pos_bound. lia. }
  destruct (negb (Z.land (8 + size) 3 =? 0)); destruct (Z.ltb_spec (4 - Z.land (8 + size) 3) 3);
    try destruct (Z.ltb_spec 0 3); lia.
Qed.

Lemma resize_word (n i : nat) (b : list Z) : (i < n)%nat -> word i (resize n b) = word i b.
Proof.
  intros Hi. unfold word, resize. rewrite !nth_lookup.
  destruct (decide (i < length b)%nat).
  - rewrite lookup_app_l by (rewrite length_take; lia). by rewrite lookup_take_lt.
  - rewrite (lookup_ge_None_2 b) by lia. rewrite lookup_app_r by (rewrite length_take; lia).
    rewrite length_take, lookup_replicate_2 by lia. done.
Qed.

Lemma resize_length (n : nat) (b : list Z) : length (resize n b) = n.
Proof. unfold resize. rewrite length_app, length_take, length_replicate. lia. Qed.

(** Padding changes nothing before it. *)
Lemma addPadding_spec (random : Z) (bytes : nat -> list Z) (b : list Z) :
  good_buffer b -> (forall n, length (bytes n) = n) ->
  exists b', addPadding false random bytes b = Some b' /\ good_buffer b'
    /\ (forall i, (i < 8 + Z.to_nat (Z.shiftr (word 7 b) 2))%nat -> (i < length b)%nat -> word i b' = word i b)
    /\ Z.of_nat (length b') = 8 + Z.shiftr (word 7 b) 2
         + CountPaddingPrimesCount (Z.shiftr (word 7 b) 2) false random.
Proof.
  intros Hg Hbytes. destruct (Hg) as [Hb (H7 & H4 & H8)]. pose proof (proj1 (has_body_length b) Hb) as Hl.
  rewrite <- shiftr2 in H8.
  unfold addPadding, count_length. rewrite Hb. unfold kMessageLengthPosition.
  set (size := Z.shiftr (word 7 b) 2). assert (0 <= size) as Hsize by (by apply Z.shiftr_nonneg).
  pose proof (padding_pos size random) as Hp. set (padding := CountPaddingPrimesCount size false random) in *.
  destruct (Z.eqb_spec (Z.of_nat (length b)) (8 + size + padding)) as [E|E]; cbn [negb].
  { exists b. split_and!; [done|done|done|lia]. }
  rewrite (proj2 (Z.ltb_lt 0 padding)) by lia. set (full := Z.to_nat (8 + size + padding)).
  set (b1 := resize full b). set (b2 := put_at (Z.to_nat (8 + size + padding - padding)) (bytes (Z.to_nat padding)) b1).
  assert (length b1 = full) as L1 by apply resize_length.
  assert (Z.to_nat (8 + size + padding - padding) + length (bytes (Z.to_nat padding)) <= length b1)%nat as Hfit
    by (rewrite Hbytes; lia).
  assert (length b2 = full) as L2 by (unfold b2; by rewrite put_at_length).
  assert (forall i, (i < 8 + Z.to_nat size)%nat -> (i < length b)%nat -> word i b2 = word i b) as W.
  { intros i Hi Hib. unfold b2. rewrite put_at_word by done.
    rewrite bool_decide_eq_false_2 by lia. unfold b1. apply resize_word. lia. }
  exists b2. split_and!; [done| |done|lia]. split; [apply has_body_length; lia|].
  unfold good_length. rewrite W, <- shiftr2 by lia. fold size. split_and!; [done|done|lia].
Qed.

(** ** Messages of a container *)

(** A message as it is inside a container: the two words of its id, its
    sequence number and its body. *)
Record message := mk_message { m_lo : Z; m_hi : Z; m_seqNo : Z; m_body : list Z }.

Definition m_id (m : message) : Z := m_lo m + 2 ^ 32 * m_hi m.

Definition pack (m : message) : list Z :=
  [m_lo m; m_hi m; m_seqNo m; 4 * Z.of_nat (length (m_body m))] ++ m_body m.

(** The reader of a container: [n] messages, and what is left. *)
Fixpoint unpack (n : nat) (ws : list Z) : option (list message * list Z) :=
  match n, ws with
  | O, _ => Some ([], ws)
  | S n, lo :: hi :: seqNo :: bytes :: ws =>
      let size := Z.to_nat (bytes / 4) in
      if bool_decide (length ws < size)%nat then None else
      r <-? unpack n (drop size ws) ;
      Some (mk_message lo hi seqNo (take size ws) :: r.1, r.2)
  | _, _ => None
  end.

Definition packs (ms : list message) : list Z := concat (pack <$> ms).

Lemma packs_snoc (ms : list message) (m : message) : packs (ms ++ [m]) = packs ms ++ pack m.
Proof. unfold packs. rewrite fmap_app, concat_app. cbn. by rewrite app_nil_r. Qed.

(** What was packed is read back. *)
Lemma unpack_packs (ms : list message) (rest : list Z) :
  unpack (length ms) (packs ms ++ rest) = Some (ms, rest).
Proof.
  induction ms as [|[lo hi seqNo body] ms IH]; [done|].
  assert (packs (mk_message lo hi seqNo body :: ms) ++ rest =
    lo :: hi :: seqNo :: 4 * Z.of_nat (length body) :: body ++ (packs ms ++ rest)) as ->
    by (unfold packs; cbn; by rewrite <- app_assoc).
  cbn [length unpack]. rewrite Z.mul_comm, Z.div_mul, Nat2Z.id by lia.
  rewrite bool_decide_eq_false_2 by (rewrite length_app; lia).
  rewrite drop_app_length, take_app_length, IH. done.
Qed.

(** The message of a request. *)
Definition message_of (b : list Z) : message :=
  mk_message (word 4 b) (word 5 b) (word 6 b) (take (Z.to_nat (word 7 b / 4)) (drop 8 b)).

(** A message wrapped: after another request, and in the initialization. *)
Definition invoked (init : list Z) (afterId : option Z) (m : message) : message :=
  mk_message (m_lo m) (m_hi m) (m_seqNo m)
    (init ++ match afterId with Some id => mtpc_invokeAfterMsg :: words64 id | None => [] end ++ m_body m).

Lemma buffer_split (b : list Z) : has_body b = true ->
  drop 4 b = word 4 b :: word 5 b :: word 6 b :: word 7 b :: drop 8 b.
Proof.
  intros Hl%has_body_length. destruct b as [|? [|? [|? [|? [|? [|? [|? [|? b]]]]]]]]; simpl in Hl; try lia. done.
Qed.

Lemma message_body_length (b : list Z) : good_buffer b ->
  4 * Z.of_nat (length (m_body (message_of b))) = word 7 b /\ Z.of_nat (length (m_body (message_of b))) = word 7 b / 4.
Proof.
  intros [Hb (H0 & Hm & Hl)]. cbn [message_of m_body]. rewrite length_take, length_drop.
  assert (0 <= word 7 b / 4) by (apply Z.div_pos; lia).
  rewrite Nat.min_l by lia. rewrite Z2Nat.id by done. pose proof (Z.div_mod (word 7 b) 4). lia.
Qed.

(** The body of a container: its messages, and the two counts of its length. *)
Definition packed (base count total : Z) (ms : list message) (o : list Z) : Prop :=
  exists k, o = replicate 7 0 ++ base + 12 * k :: mtpc_msg_container :: count :: packs ms /\ 0 <= k
    /\ Z.of_nat (length (packs ms)) = total + 3 * k.

Lemma append_message (o b : list Z) : good_buffer b -> appendMessage o b = Some (o ++ pack (message_of b)).
Proof.
  intros Hg. destruct (message_body_length b Hg) as [E4 E]. destruct Hg as [Hb (H0 & _)].
  unfold appendMessage, messageSize, count_length. rewrite Hb. cbv beta iota. unfold kMessageLengthPosition.
  rewrite buffer_split by done. unfold pack. rewrite E4, shiftr2. cbn [m_lo m_hi m_seqNo message_of m_body].
  assert (0 <= word 7 b / 4) by (apply Z.div_pos; lia).
  by replace (Z.to_nat (kMessageHeaderInts + word 7 b / 4)) with (4 + Z.to_nat (word 7 b / 4))%nat
    by (unfold kMessageHeaderInts; lia).
Qed.

(** [header] and [body] of a request as the wrapping functions read them. *)
Lemma header_words (b : list Z) : has_body b = true -> take 4 (drop 4 b) = [word 4 b; word 5 b; word 6 b; word 7 b].
Proof. intros Hb. by rewrite buffer_split. Qed.

Lemma put_at_app (n : nat) (ws o r : list Z) : put_at (length o + n) ws (o ++ r) = o ++ put_at n ws r.
Proof.
  unfold put_at. rewrite take_app_add. replace (length o + n + length ws)%nat with (length o + (n + length ws))%nat by lia.
  rewrite drop_app_add. by rewrite <- app_assoc.
Qed.

Lemma word_app (n : nat) (o r : list Z) : word (length o + n) (o ++ r) = word n r.
Proof. unfold word. rewrite app_nth2 by lia. f_equal. lia. Qed.

Lemma put_at_left (n : nat) (ws o r : list Z) :
  (n + length ws <= length o)%nat -> put_at n ws (o ++ r) = put_at n ws o ++ r.
Proof.
  intros H. unfold put_at. rewrite take_app_le by lia. rewrite drop_app_le by lia. by rewrite <- !app_assoc.
Qed.

(** The initialization written over the room left for it. *)
Definition put_init (at_ : nat) (init o : list Z) : list Z :=
  put_at (at_ + 3) [word (at_ + 3) (put_at (at_ + 4) init o) + 4 * Z.of_nat (length init)] (put_at (at_ + 4) init o).

Lemma put_init_spec (o init rest : list Z) (lo hi seqNo bytes : Z) :
  put_init (length o) init (o ++ lo :: hi :: seqNo :: bytes :: replicate (length init) 0 ++ rest)
  = o ++ lo :: hi :: seqNo :: (bytes + 4 * Z.of_nat (length init)) :: init ++ rest.
Proof.
  assert (put_at (length o + 4) init (o ++ lo :: hi :: seqNo :: bytes :: replicate (length init) 0 ++ rest)
    = o ++ lo :: hi :: seqNo :: bytes :: init ++ rest) as E.
  { rewrite put_at_app. unfold put_at. cbn [take drop app Nat.add].
    by rewrite drop_app_length' by (by rewrite length_replicate). }
  unfold put_init. by rewrite E, word_app, put_at_app.
Qed.

Lemma wrap_layer (o init b : list Z) : good_buffer b ->
  wrapLayerInContainer o init b = Some (o ++ pack (invoked init None (message_of b))).
Proof.
  intros Hg. destruct (message_body_length b Hg) as [E4 E]. destruct Hg as [Hb _].
  unfold wrapLayerInContainer, count_length. rewrite Hb. cbv beta iota. unfold kMessageLengthPosition.
  rewrite header_words, shiftr2 by done. unfold pack. cbn [m_lo m_hi m_seqNo invoked m_body].
  rewrite app_nil_l, length_app. do 2 f_equal.
  replace (4 * Z.of_nat (length init + length (m_body (message_of b)))) with (word 7 b + 4 * Z.of_nat (length init)) by lia.
  done.
Qed.

Lemma pack_invoked (init : list Z) (afterId : option Z) (b : list Z) : good_buffer b ->
  pack (invoked init afterId (message_of b)) = word 4 b :: word 5 b :: word 6 b
    :: (word 7 b + match afterId with Some _ => 12 | None => 0 end) + 4 * Z.of_nat (length init)
    :: init ++ match afterId with Some id => mtpc_invokeAfterMsg :: words64 id | None => [] end
         ++ m_body (message_of b).
Proof.
  intros Hg. destruct (message_body_length b Hg) as [E4 _]. unfold pack. cbn [m_lo m_hi m_seqNo invoked m_body app].
  rewrite !length_app. cbn [m_lo m_hi m_seqNo message_of] in *.
  replace (4 * _) with ((word 7 b + match afterId with Some _ => 12 | None => 0 end) + 4 * Z.of_nat (length init)); [done|].
  destruct afterId; cbn [length words64] in *; unfold words64; cbn [length]; lia.
Qed.

(** A request wrapped inside a container that has its header. *)
Lemma wrap_after (o init b : list Z) (afterId : Z) (found : bool) :
  good_buffer b -> (8 <= length o)%nat ->
  let o' := if found then put_at 7 [word 7 o + 12] o else o in
  let m := invoked init (if found then Some afterId else None) (message_of b) in
  exists r, WrapInvokeAfter o b afterId found (length init) = Some r
    /\ put_init (length o) init r = o' ++ pack m /\ (init = [] -> r = o' ++ pack m).
Proof.
  intros Hg Ho. cbv zeta. rewrite !pack_invoked by done. destruct Hg as [Hb _].
  unfold WrapInvokeAfter, count_length. rewrite Hb. cbv beta iota. unfold kMessageLengthPosition.
  rewrite header_words, shiftr2 by done. change (take _ (drop 8 b)) with (m_body (message_of b)).
  assert (forall o' bytes rest, length o' = length o ->
    put_init (length o) init (o' ++ word 4 b :: word 5 b :: word 6 b :: bytes :: replicate (length init) 0 ++ rest)
      = o' ++ word 4 b :: word 5 b :: word 6 b :: bytes + 4 * Z.of_nat (length init) :: init ++ rest
    /\ (init = [] -> o' ++ word 4 b :: word 5 b :: word 6 b :: bytes :: replicate (length init) 0 ++ rest
      = o' ++ word 4 b :: word 5 b :: word 6 b :: bytes + 4 * Z.of_nat (length init) :: init ++ rest)) as Hput.
  { intros o' bytes rest El. split; [rewrite <- El; apply put_init_spec|]. intros ->. cbn. by rewrite Z.add_0_r. }
  destruct found; cbn [negb].
  - eexists. split; [done|]. rewrite bool_decide_eq_false_2 by lia.
    set (tail := put_at 3 [_] _ ++ _). rewrite put_at_left by (simpl; lia).
    replace (word 7 (o ++ tail)) with (word 7 o) by (unfold word; by rewrite app_nth1 by lia).
    apply (Hput (put_at 7 [word 7 o + 12] o)). apply put_at_length. simpl. lia.
  - eexists. split; [done|]. rewrite Z.add_0_r. by apply Hput.
Qed.

(** ** The length in the header of a container *)

(** The length of a header, a 32-bit number. *)
Lemma wrapped_length (n : Z) : 0 <= n ->
  0 <= wrapu 32 (Z.shiftl n 2) /\ wrapu 32 (Z.shiftl n 2) mod 4 = 0 /\ wrapu 32 (Z.shiftl n 2) / 4 <= n.
Proof.
  intros Hn. unfold wrapu. rewrite Z.shiftl_mul_pow2 by lia. change (2 ^ 2) with 4.
  change (2 ^ 32) with (2 ^ 30 * 4). rewrite Z.mul_mod_distr_r by lia.
  split_and!; [|apply Z.mod_mul; lia|].
  - pose proof (Z.mod_pos_bound n (2 ^ 30)). lia.
  - rewrite Z.div_mul by lia. apply Z.mod_le; lia.
Qed.

Lemma packed_snoc (base count total : Z) (ms : list message) (o : list Z) (m : message) :
  packed base count total ms o ->
  packed base count (total + 4 + Z.of_nat (length (m_body m))) (ms ++ [m]) (o ++ pack m).
Proof.
  intros (k & -> & Hk & Hl). exists k. rewrite packs_snoc. split_and!; [by rewrite <- !app_assoc|done|].
  rewrite length_app. unfold pack. rewrite length_app. cbn [length]. lia.
Qed.

Lemma packed_after (base count total : Z) (ms : list message) (o : list Z) (m : message) :
  packed base count total ms o ->
  packed base count (total + 4 + Z.of_nat (length (m_body m)) - 3) (ms ++ [m])
    (put_at 7 [word 7 o + 12] o ++ pack m).
Proof.
  intros (k & -> & Hk & Hl). exists (k + 1). rewrite packs_snoc. split_and!; [|lia|].
  - replace (base + 12 * (k + 1)) with (base + 12 * k + 12) by lia. cbn. by rewrite <- ?app_assoc.
  - rewrite length_app. unfold pack. rewrite length_app. cbn [length]. lia.
Qed.

Lemma packed_length (base count total : Z) (ms : list message) (o : list Z) :
  packed base count total ms o -> (10 <= length o)%nat.
Proof. intros (k & -> & _). cbn. lia. Qed.

Lemma packed_no_id (base count total : Z) (ms : list message) (o : list Z) :
  packed base count total ms o -> long 4 o = 0.
Proof. by intros (k & -> & _). Qed.

Lemma packed_good (total count : Z) (ms : list message) (o : list Z) :
  0 <= total -> packed (wrapu 32 (Z.shiftl (2 + total) 2)) count total ms o -> good_buffer o.
Proof.
  intros Ht Hp. pose proof (packed_length _ _ _ _ _ Hp) as Hlo. destruct Hp as (k & -> & Hk & Hl).
  destruct (wrapped_length (2 + total)) as (W0 & W4 & Wl); [lia|]. set (base := wrapu 32 _) in *.
  split; [apply has_body_length; lia|]. unfold good_length.
  change (word 7 _) with (base + 12 * k). replace (base + 12 * k) with (base + (3 * k) * 4) by lia.
  rewrite Z.mod_add, Z.div_add by lia. rewrite length_app. cbn [length replicate].
  split_and!; [lia|done|lia].
Qed.

(** Its body, when the length is that of the words. *)
Lemma container_body (base count total : Z) (ms : list message) (o : list Z) :
  packed base count total ms o -> base = 4 * (2 + total) -> 0 <= total ->
  8 <= word 7 o /\ m_body (message_of o) = mtpc_msg_container :: count :: packs ms.
Proof.
  intros (k & -> & Hk & Hl) -> Ht. unfold message_of. cbn [m_body]. change (word 7 _) with (4 * (2 + total) + 12 * k).
  split; [lia|]. replace ((4 * (2 + total) + 12 * k) / 4) with (2 + total + 3 * k) by (apply Z.div_unique_exact; lia).
  cbn [drop replicate app]. rewrite take_ge; [done|]. cbn [length]. lia.
Qed.

(** Two buffers that agree on a body. *)
Lemma same_body (b b' : list Z) : good_buffer b -> good_buffer b' -> word 7 b' = word 7 b ->
  (forall i, (8 <= i < 8 + Z.to_nat (word 7 b / 4))%nat -> word i b' = word i b) ->
  m_body (message_of b') = m_body (message_of b).
Proof.
  intros Hg Hg' E7 Hw. pose proof (proj2 (message_body_length b Hg)) as E.
  pose proof (proj2 (message_body_length b' Hg')) as E'. rewrite E7, <- E in E'.
  apply (list_eq_same_length _ _ (length (m_body (message_of b)))); [done|lia|].
  intros i x y Hi. assert (i < Z.to_nat (word 7 b / 4))%nat as Hi' by lia.
  cbn [message_of m_body]. rewrite E7, !lookup_take_lt, !lookup_drop by done. intros Hx Hy.
  specialize (Hw (8 + i)%nat ltac:(lia)). unfold word in Hw. rewrite !nth_lookup, Hx, Hy in Hw. done.
Qed.

(** The salt and the session id leave the rest of a buffer. *)
Lemma salted_spec (salt sid : Z) (b : list Z) : good_buffer b ->
  let b' := put_at 2 (words64 sid) (put_at 0 (words64 salt) b) in
  good_buffer b' /\ forall i, (4 <= i)%nat -> word i b' = word i b.
Proof.
  intros Hg. cbv zeta. pose proof (proj1 (has_body_length _) (proj1 Hg)) as Hl.
  assert (length (put_at 0 (words64 salt) b) = length b) as L1 by (apply put_at_length; simpl; lia).
  assert (forall i, (4 <= i)%nat -> word i (put_at 2 (words64 sid) (put_at 0 (words64 salt) b)) = word i b) as W.
  { intros i Hi. rewrite put_at_word by (rewrite L1; simpl; lia).
    rewrite bool_decide_eq_false_2 by (simpl; lia). rewrite put_at_word by (simpl; lia).
    by rewrite bool_decide_eq_false_2 by (simpl; lia). }
  split; [|done]. apply (good_same b); [done| |by rewrite W by lia].
  rewrite put_at_length; [lia|rewrite L1; simpl; lia].
Qed.

(** ** A request alone in its buffer *)

(** Salt and session id, then one message. *)
Lemma single_good (h : list Z) (m : message) : length h = 4%nat -> m_body m <> [] ->
  good_buffer (h ++ pack m) /\ message_of (h ++ pack m) = m.
Proof.
  intros Hh Hm. destruct h as [|? [|? [|? [|? [|? ?]]]]]; try done. destruct m as [lo hi seqNo body].
  cbn [m_body] in Hm. assert (0 < length body)%nat as Hb by (destruct body; [done|simpl; lia]).
  unfold pack. cbn [m_lo m_hi m_seqNo m_body app].
  assert (4 * Z.of_nat (length body) / 4 = Z.of_nat (length body)) as E by (rewrite Z.mul_comm; apply Z.div_mul; lia).
  split.
  - split; [apply has_body_length; cbn [length]; lia|]. unfold good_length.
    change (word 7 _) with (4 * Z.of_nat (length body)). rewrite E. cbn [length].
    split_and!; [lia|rewrite Z.mul_comm; by apply Z.mod_mul|lia].
  - unfold message_of. change (word 7 _) with (4 * Z.of_nat (length body)). rewrite E, Nat2Z.id. cbn [drop].
    by rewrite drop_0, take_ge by lia.
Qed.

Lemma length_present (b : list Z) : good_buffer b -> count_length b = Some (word 7 b).
Proof. intros [Hb _]. unfold count_length. by rewrite Hb. Qed.

Lemma put_at_four (b c : list Z) : (8 < length b)%nat -> put_at 0 (take 4 b) (resize 4 (replicate 7 0 ++ c)) = take 4 b.
Proof.
  intros Hl. unfold put_at, resize. cbn [take drop app replicate Nat.add].
  rewrite length_take, Nat.min_l by lia. cbn [length Nat.sub replicate app drop]. by rewrite app_nil_r.
Qed.

Lemma wrap_after_single (b : list Z) (afterId : Z) (found : bool) :
  good_buffer b -> 4 <= word 7 b ->
  exists r, wrapAfterSingle b afterId found = Some r /\ good_buffer r
    /\ message_of r = invoked [] (if found then Some afterId else None) (message_of b).
Proof.
  intros Hg H4. pose proof (proj1 (has_body_length b) (proj1 Hg)) as Hl.
  destruct (message_body_length b Hg) as [E4 _].
  set (m := invoked [] (if found then Some afterId else None) (message_of b)).
  assert (m_body m <> []) as Hm.
  { unfold m. destruct found; [done|]. cbn [m_body invoked app]. intros E. rewrite E in E4. cbn in E4. lia. }
  destruct (single_good (take 4 b) m) as [Hgr Em]; [rewrite length_take; lia|done|].
  exists (take 4 b ++ pack m). split_and!; [|done|done].
  unfold wrapAfterSingle. rewrite (length_present b Hg). unfold Prepare. rewrite (proj2 (Z.ltb_lt 0 _)) by (rewrite shiftr2; apply Z.div_str_pos; lia).
  cbv beta iota. rewrite put_at_four by done.
  unfold WrapInvokeAfter, count_length. rewrite (proj1 Hg). cbv beta iota. unfold kMessageLengthPosition.
  rewrite header_words, shiftr2 by apply Hg. change (take _ (drop 8 b)) with (m_body (message_of b)).
  unfold m. rewrite pack_invoked by done. destruct found; cbn [negb].
  - rewrite bool_decide_eq_true_2 by (rewrite length_take; lia). by rewrite Z.add_0_r.
  - by rewrite !Z.add_0_r.
Qed.

Lemma wrap_layer_single (init b : list Z) :
  good_buffer b -> 4 <= word 7 b ->
  exists r, wrapLayerSingle init b = Some r /\ good_buffer r
    /\ (word 7 b / 4 + Z.of_nat (length init) < 2 ^ 30 -> message_of r = invoked init None (message_of b)).
Proof.
  intros Hg H4. pose proof (proj1 (has_body_length b) (proj1 Hg)) as Hl.
  destruct (message_body_length b Hg) as [E4 E].
  unfold wrapLayerSingle, count_length. rewrite (proj1 Hg). cbv beta iota. unfold kMessageLengthPosition.
  rewrite shiftr2. set (n := word 7 b / 4 + Z.of_nat (length init)).
  assert (1 <= word 7 b / 4) as H1 by (apply Z.div_le_lower_bound; lia).
  unfold Prepare. rewrite (proj2 (Z.ltb_lt 0 n)) by lia. cbv beta iota.
  change (take _ (drop 8 b)) with (m_body (message_of b)).
  assert (put_at 0 (take 7 b) (replicate 7 0 ++ [wrapu 32 (Z.shiftl n 2)]) = take 7 b ++ [wrapu 32 (Z.shiftl n 2)]) as ->.
  { unfold put_at. cbn [take app]. rewrite length_take, Nat.min_l by lia. done. }
  destruct (wrapped_length n) as (W0 & W4 & Wl); [lia|].
  eexists. split; [done|]. set (r := _ ++ init ++ _).
  assert (length r = (8 + length init + length (m_body (message_of b)))%nat) as Lr
    by (unfold r; rewrite !length_app, length_take; cbn [length]; lia).
  assert (word 7 r = wrapu 32 (Z.shiftl n 2)) as E7.
  { unfold r, word. rewrite <- app_assoc, app_nth2; rewrite length_take, Nat.min_l by lia; [done|lia]. }
  split.
  - split; [apply has_body_length; lia|]. unfold good_length. rewrite E7. split_and!; [done|done|lia].
  - intros Hsmall. assert (wrapu 32 (Z.shiftl n 2) = 4 * n) as Ew.
    { rewrite Z.shiftl_mul_pow2 by lia. unfold wrapu. rewrite Z.mod_small; lia. }
    destruct (single_good (take 4 b) (invoked init None (message_of b))) as [_ <-]; [rewrite length_take; lia| |].
    + cbn [m_body invoked app]. intros [_ En]%app_eq_nil. rewrite En in E. cbn in E. lia.
    + f_equal. rewrite pack_invoked by done. unfold r. rewrite Ew.
      replace (4 * n) with (word 7 b + 0 + 4 * Z.of_nat (length init)) by lia. generalize (m_body (message_of b)) as body.
      intros body. destruct b as [|? [|? [|? [|? [|? [|? [|? [|? b]]]]]]]]; simpl in Hl; try lia. done.
Qed.
