(* ===== verification/Session.v ===== *)
(** * The sending side of a session

    [mtproto/session_private.cpp] and the request queue of
    [mtproto/session.cpp]: which requests wait to be sent, which were sent and
    wait for an answer, how they are packed into containers, acknowledged,
    asked about and sent again.

    Requests are shared objects ([std::shared_ptr<RequestData>]): a store maps
    references to their data, and the tables of the session hold references.
    Message ids come from [base::unixtime::mtproto_msg_id], a parameter: the
    [n]th id generated. The current time and random numbers are parameters of
    the environment, and calls to other objects are events of a log. Service
    requests are serialized by generated code, a parameter. *)

From S2P Require Import Prelude StateMonad ReceivedIds Requests.

(** ** State *)

Record RequestData := mk_request {
  buffer : list Z; after : option Z; lastSentTime : Z; requestId : Z;
  needsLayer : bool; forceSendInContainer : bool }.

Record SentContainer := mk_container { sent : Z; messages : list Z }.

Record Response := mk_response { reply : list Z; outerMsgId : Z; responseTo : Z }.

Inductive event :=
  | QueueSendAnything (msCanWait : Z) | QueueNeedToResumeAndSend | CheckSentRequestsIn (timeout : Z)
  | ClearOldContainersIn (timeout : Z) | ClearOldContainersEach (timeout : Z) | PingSenderIn (timeout : Z) | RestartBinder | Restart
  | SendData (buffer : list Z) | SentSome
  | UnixtimeUpdate (serverTime : Z) | ConnectionStateChange (newState : Z) | ConnectionInited
  | KeyCreationDone | KeyDestroyedOnServer | DestroyTemporaryKey | DestroyConnections | ResetDone | TryToReceive.

(** The requests and the tables of message ids. *)
Record tables := mk_tables {
  heap : gmap Z RequestData;
  toSend : gmap Z Z;
  haveSent : gmap Z Z;
  resendingIds : gmap Z Z;
  ackedIds : gmap Z Z;
  stateAndResendRequests : gmap Z Z;
  sentContainers : gmap Z SentContainer }.

(** The special requests. *)
Record special := mk_special {
  pingId : Z; pingIdToSend : Z; pingSendAt : Z; pingMsgId : Z; bindMsgId : Z; bindMessageSent : Z }.

Record session := mk_session {
  tb : tables;
  sp : special;
  ackRequestData : list Z;
  resendRequestData : list Z;
  stateRequestData : gset Z;
  receivedMessageIds : manager;
  sessionId : Z;
  sessionSalt : Z;
  messagesCounter : Z;
  sessionMarkedAsStarted : bool;
  checkTimerActive : bool;
  generated : nat;
  log : list event }.

Definition set_tb (f : tables -> tables) (s : session) : session :=
  mk_session (f (tb s)) (sp s) (ackRequestData s) (resendRequestData s) (stateRequestData s)
    (receivedMessageIds s) (sessionId s) (sessionSalt s) (messagesCounter s)
    (sessionMarkedAsStarted s) (checkTimerActive s) (generated s) (log s).
Definition set_sp (f : special -> special) (s : session) : session :=
  mk_session (tb s) (f (sp s)) (ackRequestData s) (resendRequestData s) (stateRequestData s)
    (receivedMessageIds s) (sessionId s) (sessionSalt s) (messagesCounter s)
    (sessionMarkedAsStarted s) (checkTimerActive s) (generated s) (log s).
Definition set_service (acks resends : list Z) (states : gset Z) (s : session) : session :=
  mk_session (tb s) (sp s) acks resends states (receivedMessageIds s) (sessionId s) (sessionSalt s)
    (messagesCounter s) (sessionMarkedAsStarted s) (checkTimerActive s) (generated s) (log s).
Definition set_counter (counter : Z) (started : bool) (gen : nat) (s : session) : session :=
  mk_session (tb s) (sp s) (ackRequestData s) (resendRequestData s) (stateRequestData s)
    (receivedMessageIds s) (sessionId s) (sessionSalt s) counter started (checkTimerActive s) gen (log s).
Definition set_timer (active : bool) (s : session) : session :=
  mk_session (tb s) (sp s) (ackRequestData s) (resendRequestData s) (stateRequestData s)
    (receivedMessageIds s) (sessionId s) (sessionSalt s) (messagesCounter s) (sessionMarkedAsStarted s)
    active (generated s) (log s).
Definition tell (e : event) : M session unit := modify (fun s =>
  mk_session (tb s) (sp s) (ackRequestData s) (resendRequestData s) (stateRequestData s)
    (receivedMessageIds s) (sessionId s) (sessionSalt s) (messagesCounter s)
    (sessionMarkedAsStarted s) (checkTimerActive s) (generated s) (log s ++ [e])).

Definition set_heap (h : gmap Z RequestData) (t : tables) : tables :=
  mk_tables h (toSend t) (haveSent t) (resendingIds t) (ackedIds t) (stateAndResendRequests t) (sentContainers t).
Definition set_toSend (m : gmap Z Z) (t : tables) : tables :=
  mk_tables (heap t) m (haveSent t) (resendingIds t) (ackedIds t) (stateAndResendRequests t) (sentContainers t).
Definition set_haveSent (m : gmap Z Z) (t : tables) : tables :=
  mk_tables (heap t) (toSend t) m (resendingIds t) (ackedIds t) (stateAndResendRequests t) (sentContainers t).
Definition set_resendingIds (m : gmap Z Z) (t : tables) : tables :=
  mk_tables (heap t) (toSend t) (haveSent t) m (ackedIds t) (stateAndResendRequests t) (sentContainers t).
Definition set_ackedIds (m : gmap Z Z) (t : tables) : tables :=
  mk_tables (heap t) (toSend t) (haveSent t) (resendingIds t) m (stateAndResendRequests t) (sentContainers t).
Definition set_stateAndResend (m : gmap Z Z) (t : tables) : tables :=
  mk_tables (heap t) (toSend t) (haveSent t) (resendingIds t) (ackedIds t) m (sentContainers t).
Definition set_sentContainers (m : gmap Z SentContainer) (t : tables) : tables :=
  mk_tables (heap t) (toSend t) (haveSent t) (resendingIds t) (ackedIds t) (stateAndResendRequests t) m.

(** A request of the store. *)
Definition deref (ref : Z) : M session RequestData := fun s =>
  match heap (tb s) !! ref with Some d => Some (d, s) | None => None end.
Definition store (ref : Z) (d : RequestData) : M session unit :=
  modify (set_tb (fun t => set_heap (<[ref := d]> (heap t)) t)).
(** [std::make_shared] *)
Definition allocate (d : RequestData) : M session Z := fun s =>
  let ref := default 0 (last_key (heap (tb s))) + 1 in
  Some (ref, set_tb (fun t => set_heap (<[ref := d]> (heap t)) t) s).

Definition with_buffer (b : list Z) (d : RequestData) : RequestData :=
  mk_request b (after d) (lastSentTime d) (requestId d) (needsLayer d) (forceSendInContainer d).
Definition with_sent_time (now : Z) (d : RequestData) : RequestData :=
  mk_request (buffer d) (after d) now (requestId d) (needsLayer d) (forceSendInContainer d).

(** ** Constants *)

Definition kCheckSentRequestTimeout : Z := 10 * 1000.
Definition kSendStateRequestWaiting : Z := 1000.
Definition kSentContainerLives : Z := 600 * 1000.
Definition kPingDelayDisconnect : Z := 60.
Definition kPingSendAfter : Z := 30 * 1000.
Definition kPingSendAfterForce : Z := 45 * 1000.
(** [mtpRequestId(0xFFFFFFFF)] *)
Definition kAnyRequest : Z := -1.

(** ** The queue of [Session] *)

(** [Session::sendPrepared]: the request gets in line, without ids. *)
Definition sendPrepared (ref : Z) (msCanWait : Z) : M session unit :=
  d <- deref ref ;;
  modify (set_tb (fun t => set_toSend (emplace (requestId d) ref (toSend t)) t)) ;;;
  store ref (with_buffer (put_at 6 [0] (put_at 4 (words64 0) (buffer d))) d) ;;;
  if 0 <=? msCanWait then tell (QueueSendAnything msCanWait) else ret tt.

Definition cancel (reqId msgId : Z) : M session unit :=
  (if negb (reqId =? 0) then modify (set_tb (fun t => set_toSend (delete reqId (toSend t)) t)) else ret tt) ;;;
  if negb (msgId =? 0) then modify (set_tb (fun t => set_haveSent (delete msgId (haveSent t)) t)) else ret tt.

(** ** Bookkeeping *)

Definition nextRequestSeqNumber (ack : bool) : M session Z := fun s =>
  let result := messagesCounter s in
  let step := if ack then 1 else 0 in
  Some (wrapu 32 (result * 2 + step),
        set_counter (wrapu 32 (result + step)) (sessionMarkedAsStarted s) (generated s) s).

Definition markSessionAsStarted : M session bool := fun s =>
  if sessionMarkedAsStarted s then Some (false, s)
  else Some (true, set_counter (messagesCounter s) true (generated s) s).

(** [newSessionId]: the random number that ends the loop of the function. *)
Definition changeSessionId (newSessionId : Z) : M session unit := modify (fun s =>
  mk_session (tb s) (sp s) [] [] ∅ ∅ newSessionId (sessionSalt s) 0 false
    (checkTimerActive s) (generated s) (log s)).

Definition clearSpecialMsgId (msgId : Z) : M session unit := modify (set_sp (fun p =>
  if msgId =? pingMsgId p then mk_special 0 (pingIdToSend p) (pingSendAt p) 0 (bindMsgId p) (bindMessageSent p)
  else if msgId =? bindMsgId p
  then mk_special (pingId p) (pingIdToSend p) (pingSendAt p) (pingMsgId p) 0 (bindMessageSent p)
  else p)).

Definition wasSent (msgId : Z) (s : session) : option Z :=
  if (msgId =? pingMsgId (sp s)) || (msgId =? bindMsgId (sp s)) then Some kAnyRequest else
  match resendingIds (tb s) !! msgId with
  | Some requestId => Some requestId
  | None =>
      match ackedIds (tb s) !! msgId with
      | Some requestId => Some requestId
      | None =>
          match sentContainers (tb s) !! msgId with
          | Some _ => Some kAnyRequest
          | None =>
              match haveSent (tb s) !! msgId with
              | Some ref => d <-? heap (tb s) !! ref ;
                  Some (if negb (requestId d =? 0) then requestId d else kAnyRequest)
              | None => Some 0
              end
          end
      end
  end.

(** The key of an entry changed, its value kept. *)
Definition rekey {V} (oldId newId : Z) (m : gmap Z V) : gmap Z V :=
  match m !! oldId with
  | Some v => emplace newId v (delete oldId m)
  | None => m
  end.

Section Ids.
(** The [n]th id of [base::unixtime::mtproto_msg_id]. *)
Context (msg_id : nat -> Z).

Definition mtproto_msg_id : M session Z := fun s =>
  Some (msg_id (generated s),
        set_counter (messagesCounter s) (sessionMarkedAsStarted s) (S (generated s)) s).

Definition known_id (newId : Z) (t : tables) : bool :=
  bool_decide (is_Some (resendingIds t !! newId)) || bool_decide (is_Some (ackedIds t !! newId))
  || bool_decide (is_Some (haveSent t !! newId)).

(** [while (_resendingIds.contains(newId) || ...)] *)
Fixpoint fresh_id (fuel : nat) (newId : Z) : M session Z :=
  match fuel with
  | O => lift None
  | S fuel =>
      known <- gets (fun s => known_id newId (tb s)) ;;
      if known : bool then newId <- mtproto_msg_id ;; fresh_id fuel newId else ret newId
  end.

Definition replaceMsgId (fuel : nat) (ref newId : Z) : M session Z :=
  d <- deref ref ;;
  oldMsgId <- lift (getMsgId (buffer d)) ;;
  if oldMsgId =? newId then ret newId else
  newId <- fresh_id fuel newId ;;
  modify (set_tb (fun t =>
    mk_tables (heap t) (toSend t) (rekey oldMsgId newId (haveSent t)) (rekey oldMsgId newId (resendingIds t))
      (rekey oldMsgId newId (ackedIds t)) (stateAndResendRequests t)
      ((fun c => mk_container (sent c) ((fun id => if id =? oldMsgId then newId else id) <$> messages c))
         <$> sentContainers t))) ;;;
  b <- lift (setMsgId newId (buffer d)) ;;
  ack <- lift (needAck b) ;;
  seqNo <- nextRequestSeqNumber ack ;;
  b <- lift (setSeqNo seqNo b) ;;
  store ref (with_buffer b d) ;;;
  ret newId.

Definition prepareToSend (fuel : nat) (ref currentLastId : Z) (forceNewMsgId : bool) : M session Z :=
  d <- deref ref ;;
  msgId <- lift (getMsgId (buffer d)) ;;
  if negb (msgId =? 0) then
    modify (set_tb (fun t => set_resendingIds (delete msgId (resendingIds t)) t)) ;;;
    if forceNewMsgId || (currentLastId <? msgId) then replaceMsgId fuel ref currentLastId else ret msgId
  else
    b <- lift (setMsgId currentLastId (buffer d)) ;;
    ack <- lift (needAck b) ;;
    seqNo <- nextRequestSeqNumber ack ;;
    b <- lift (setSeqNo seqNo b) ;;
    store ref (with_buffer b d) ;;;
    ret currentLastId.

End Ids.

(** ** Sending again *)

Section Now.
(** [crl::now()] *)
Context (now : Z).

(** The entry of [haveSent] moved back to [toSend]. *)
Definition resendRequest (msgId : Z) : M session unit :=
  found <- gets (fun s => haveSent (tb s) !! msgId) ;;
  match found with
  | None => ret tt
  | Some ref =>
      modify (set_tb (fun t => set_haveSent (delete msgId (haveSent t)) t)) ;;;
      d <- deref ref ;;
      store ref (mk_request (buffer d) (after d) now (requestId d) (needsLayer d) true) ;;;
      modify (set_tb (fun t => set_resendingIds (emplace msgId (requestId d) (resendingIds t)) t)) ;;;
      modify (set_tb (fun t => set_toSend (emplace (requestId d) ref (toSend t)) t))
  end.

(** [resend]; the recursion takes a container out of the table each time. The
    two steps at the end are those of [gsl::finally]. *)
Fixpoint resend (fuel : nat) (msgId msCanWait : Z) : M session unit :=
  match fuel with
  | O => lift None
  | S fuel =>
      container <- gets (fun s => sentContainers (tb s) !! msgId) ;;
      match container with
      | Some c =>
          modify (set_tb (fun t => set_sentContainers (delete msgId (sentContainers t)) t)) ;;;
          each (fun innerMsgId => resend fuel innerMsgId (-1)) (messages c)
      | None => resendRequest msgId
      end ;;;
      clearSpecialMsgId msgId ;;;
      if 0 <=? msCanWait then tell (QueueSendAnything msCanWait) else ret tt
  end.

(** One entry of the sent requests put back in line. *)
Definition resendAllStep (entry : Z * Z) : M session unit :=
  let '(msgId, ref) := entry in
  d <- deref ref ;;
  store ref (mk_request (buffer d) (after d) now (requestId d) (needsLayer d) true) ;;;
  modify (set_tb (fun t => set_resendingIds (emplace msgId (requestId d) (resendingIds t)) t)) ;;;
  modify (set_tb (fun t => set_toSend (emplace (requestId d) ref (toSend t)) t)).

Definition resendAll : M session unit :=
  sent <- gets (fun s => haveSent (tb s)) ;;
  modify (set_tb (set_haveSent ∅)) ;;;
  each resendAllStep (entries sent) ;;;
  tell (QueueSendAnything 0).

(** The loop of [checkSentRequests] over the sent requests: whether a state is
    to be requested and the time to the next check. *)
Definition checkSentStep (checkTime : Z) (acc : M session (bool * Z)) (entry : Z * Z) : M session (bool * Z) :=
  rn <- acc ;;
  let '(requesting, nextTimeout) := rn in
  let '(msgId, ref) := entry in
  d <- deref ref ;;
  if lastSentTime d <=? checkTime then
    store ref (with_sent_time now d) ;;;
    states <- gets stateRequestData ;;
    modify (fun s => set_service (ackRequestData s) (resendRequestData s) ({[msgId]} ∪ stateRequestData s) s) ;;;
    ret (requesting || negb (bool_decide (msgId ∈ states)), nextTimeout)
  else ret (requesting, Z.min (lastSentTime d - checkTime) nextTimeout).

Definition checkSentRequests : M session unit :=
  let checkTime := now - kCheckSentRequestTimeout in
  p <- gets sp ;;
  if negb (bindMsgId p =? 0) && (bindMessageSent p <? checkTime) then
    tell Restart ;;; tell (CheckSentRequestsIn kCheckSentRequestTimeout) ;;; modify (set_timer true)
  else
    sent <- gets (fun s => haveSent (tb s)) ;;
    rn <- foldl (checkSentStep checkTime) (ret (false, kCheckSentRequestTimeout)) (entries sent) ;;
    let '(requesting, nextTimeout) := rn in
    (if requesting : bool then tell (QueueSendAnything kSendStateRequestWaiting) else ret tt) ;;;
    if nextTimeout <? kCheckSentRequestTimeout
    then tell (CheckSentRequestsIn nextTimeout) ;;; modify (set_timer true) else ret tt.

(** The loop of [clearOldContainers] over the containers present at its start;
    those erased meanwhile (by a resend inside another) are passed over. *)
Definition clearContainerStep (fuel : nat) (checkTime : Z) (acc : M session (bool * Z)) (msgId : Z)
    : M session (bool * Z) :=
  rn <- acc ;;
  let '(resent, nextTimeout) := rn in
  container <- gets (fun s => sentContainers (tb s) !! msgId) ;;
  match container with
  | None => ret (resent, nextTimeout)
  | Some c =>
      if sent c <=? checkTime then
        modify (set_tb (fun t => set_sentContainers (delete msgId (sentContainers t)) t)) ;;;
        each (fun innerMsgId => resend fuel innerMsgId (-1)) (messages c) ;;;
        ret (resent || negb (bool_decide (messages c = [])), nextTimeout)
      else ret (resent, Z.min (sent c - checkTime) nextTimeout)
  end.

(** [timerActive]: [_clearOldContainersTimer.isActive()]. *)
Definition clearOldContainers (fuel : nat) (timerActive : bool) : M session unit :=
  let checkTime := now - kSentContainerLives in
  ids <- gets (fun s => sorted_keys (sentContainers (tb s))) ;;
  rn <- foldl (clearContainerStep fuel checkTime) (ret (false, kSentContainerLives)) ids ;;
  let '(resent, nextTimeout) := rn in
  (if resent : bool then tell QueueNeedToResumeAndSend else ret tt) ;;;
  if nextTimeout <? kSentContainerLives then tell (ClearOldContainersIn nextTimeout)
  else if negb timerActive then tell (ClearOldContainersEach nextTimeout) else ret tt.

End Now.

(** ** Acknowledgements *)

Section Callbacks.
(** [_instance->hasCallback(requestId)] *)
Context (hasCallback : Z -> bool).

(** One id of [requestsAcked]; the result is what is to be acknowledged after. *)
Definition ackOne (byResponse : bool) (toAckMore : list Z) (msgId : Z) : M session (list Z) :=
  t <- gets tb ;;
  match sentContainers t !! msgId with
  | Some c =>
      modify (set_tb (fun t => set_sentContainers (delete msgId (sentContainers t)) t)) ;;;
      ret (toAckMore ++ messages c)
  | None =>
  match stateAndResendRequests t !! msgId with
  | Some _ =>
      modify (set_tb (fun t => set_stateAndResend (delete msgId (stateAndResendRequests t)) t)) ;;;
      ret toAckMore
  | None =>
  match haveSent t !! msgId with
  | Some ref =>
      d <- deref ref ;;
      if negb byResponse && hasCallback (requestId d) then ret toAckMore else
      modify (set_tb (fun t => set_ackedIds (emplace msgId (requestId d) (ackedIds t))
        (set_haveSent (delete msgId (haveSent t)) t))) ;;;
      ret toAckMore
  | None =>
  match resendingIds t !! msgId with
  | Some reqId =>
      if negb byResponse && hasCallback reqId then ret toAckMore else
      modify (set_tb (fun t => set_resendingIds (delete msgId (resendingIds t)) t)) ;;;
      match toSend t !! reqId with
      | None => ret toAckMore
      | Some ref =>
          d <- deref ref ;;
          modify (set_tb (fun t => set_ackedIds (emplace msgId (requestId d) (ackedIds t))
            (set_toSend (delete reqId (toSend t)) t))) ;;;
          ret toAckMore
      end
  | None => ret toAckMore
  end end end end.

Fixpoint ackEach (byResponse : bool) (toAckMore ids : list Z) : M session (list Z) :=
  match ids with
  | [] => ret toAckMore
  | msgId :: ids => toAckMore <- ackOne byResponse toAckMore msgId ;; ackEach byResponse toAckMore ids
  end.

(** [while (ackedCount-- > kIdsBufferSize)]: the oldest ids are forgotten. *)
Fixpoint trimLoop (ackedCount : nat) (m : gmap Z Z) : gmap Z Z :=
  match ackedCount with
  | O => m
  | S n => if bool_decide (kIdsBufferSize < ackedCount)%nat
           then trimLoop n (match first_key m with Some k => delete k m | None => m end)
           else m
  end.

(** [requestsAcked]; the recursion follows the containers acknowledged, which
    leave the table. *)
Fixpoint requestsAcked (fuel : nat) (ids : list Z) (byResponse : bool) : M session unit :=
  match fuel with
  | O => lift None
  | S fuel =>
      toAckMore <- ackEach byResponse [] ids ;;
      modify (set_tb (fun t => set_ackedIds (trimLoop (size (ackedIds t)) (ackedIds t)) t)) ;;;
      if negb (bool_decide (toAckMore = [])) then requestsAcked fuel toAckMore false else ret tt
  end.

(** The loop of [handleMsgsStates]; the result is what was received. *)
Fixpoint statesLoop (now : Z) (fuel : nat) (acked : list Z) (ids : list (Z * Z)) : M session (list Z) :=
  match ids with
  | [] => ret acked
  | (requestMsgId, state) :: ids =>
      t <- gets tb ;;
      let received := Z.land state 0x07 =? 0x04 in
      match haveSent t !! requestMsgId with
      | None =>
          let acked := match resendingIds t !! requestMsgId with
            | Some _ => if received then acked ++ [requestMsgId] else acked
            | None => acked
            end in
          statesLoop now fuel acked ids
      | Some _ =>
          if received then statesLoop now fuel (acked ++ [requestMsgId]) ids
          else resend now fuel requestMsgId 10 ;;; statesLoop now fuel acked ids
      end
  end.

Definition handleMsgsStates (now : Z) (fuel : nat) (ids states : list Z) : M session unit :=
  if bool_decide (ids = []) then ret tt
  else if negb (bool_decide (length states = length ids)) then ret tt
  else
    acked <- statesLoop now fuel [] (zip ids states) ;;
    requestsAcked fuel acked false.

End Callbacks.

(** ** Sending *)

(** The requests of the session itself. *)
Inductive service :=
  | Ping (ping_id : Z) | PingDelayDisconnect (ping_id disconnect_delay : Z)
  | MsgsAck (ids : list Z) | MsgResendReq (ids : list Z) | MsgsStateReq (ids : list Z)
  | HttpWait (max_delay wait_after max_wait : Z).

(** What [tryToSend] reads from other objects. *)
Record env := mk_env {
  now : Z;
  hasConnection : bool;        (* [_connection] *)
  hasKey : bool;               (* [_keyId] *)
  connected : bool;            (* [getState() == ConnectedState] *)
  needsLayerNow : bool;        (* [!_sessionData->connectionInited()] *)
  hasKeyCreator : bool;        (* [_keyCreator] *)
  isMainSession : bool;        (* [GetDcIdShift(_shiftedDcId) == 0] *)
  usingHttpWait : bool;        (* [_connection->usingHttpWait()] *)
  bindRequest : option (list Z); (* the request of [prepareBindRequest], when it is ready *)
  newPingId : Z;               (* [base::RandomValue<mtpPingId>()] *)
  paddingRandom : Z;           (* the random numbers of [addPadding] *)
  paddingBytes : nat -> list Z }.

(** The requests a call adds to those in line. *)
Record services := mk_services {
  pingRequest : option Z; ackRequest : option Z; resendRequest_ : option Z;
  stateRequest : option Z; httpWaitRequest : option Z; bindDcKeyRequest : option Z }.

Section Sending.
Context (msg_id : nat -> Z).
(** The generated serialization of the session's requests. *)
Context (body_of : service -> list Z).
(** The layer of the schema and the serialized [initConnection] without its query. *)
Context (kCurrentLayer : Z) (initWrapper : list Z).
Context (fuel : nat) (e : env).

Definition initSerialized : list Z := mtpc_invokeWithLayer :: kCurrentLayer :: initWrapper.

Definition new_request (b : list Z) : RequestData := mk_request b None (now e) 0 false false.

(** [SerializedRequest::Serialize] *)
Definition Serialize (q : service) : M session Z :=
  let body := body_of q in
  prepared <- lift (Prepare (Z.of_nat (length body))) ;;
  allocate (new_request (prepared ++ body)).

Definition sendOnlyFirstPing : bool := negb (connected e).
Definition sendAll : bool := negb sendOnlyFirstPing && negb (hasKeyCreator e).

Definition preparePing : M session (option Z) :=
  p <- gets sp ;;
  if negb (pingIdToSend p =? 0) then
    ref <- (if sendOnlyFirstPing || negb (isMainSession e) then Serialize (Ping (pingIdToSend p))
            else ref <- Serialize (PingDelayDisconnect (pingIdToSend p) kPingDelayDisconnect) ;;
                 tell (PingSenderIn kPingSendAfterForce) ;;; ret ref) ;;
    modify (set_sp (fun p => mk_special (pingIdToSend p) 0 (now e + kPingSendAfter) (pingMsgId p)
      (bindMsgId p) (bindMessageSent p))) ;;;
    ret (Some ref)
  else ret None.

(** A request for the ids gathered, when there are any. *)
Definition prepareFor {A} (l : list A) (q : list A -> service) : M session (option Z) :=
  if bool_decide (length l = 0%nat) then ret None else ref <- Serialize (q l) ;; ret (Some ref).

Definition prepareServices : M session services :=
  ping <- preparePing ;;
  if sendOnlyFirstPing then ret (mk_services ping None None None None None) else
  acks <- gets ackRequestData ;;
  ack <- prepareFor acks MsgsAck ;;
  modify (fun s => set_service [] (resendRequestData s) (stateRequestData s) s) ;;;
  resends <- gets resendRequestData ;;
  resend <- prepareFor resends MsgResendReq ;;
  modify (fun s => set_service (ackRequestData s) [] (stateRequestData s) s) ;;;
  states <- gets stateRequestData ;;
  state <- prepareFor (sorted_elements states) MsgsStateReq ;;
  modify (fun s => set_service (ackRequestData s) (resendRequestData s) ∅ s) ;;;
  http <- (if usingHttpWait e then ref <- Serialize (HttpWait 100 30 25000) ;; ret (Some ref) else ret None) ;;
  p <- gets sp ;;
  bindKey <- match bindRequest e with
    | Some b =>
        if (bindMsgId p =? 0) && hasKeyCreator e then
          ack <- lift (needAck b) ;;
          seqNo <- nextRequestSeqNumber ack ;;
          b <- lift (setSeqNo seqNo b) ;;
          ref <- allocate (new_request b) ;;
          ret (Some ref)
        else ret None
    | None => ret None
    end ;;
  ret (mk_services ping ack resend state http bindKey).

Definition service_refs (v : services) : list Z :=
  omap id [pingRequest v; ackRequest v; resendRequest_ v; stateRequest v; httpWaitRequest v; bindDcKeyRequest v].

Definition sendSecureRequest (ref : Z) (needAnyResponse : bool) : M session bool :=
  d <- deref ref ;;
  b <- lift (addPadding false (paddingRandom e) (paddingBytes e) (buffer d)) ;;
  store ref (with_buffer b d) ;;;
  size <- lift (messageSize b) ;;
  let fullSize := Z.of_nat (length b) in
  if (fullSize <? 9) || (size <? 5) || (fullSize <? size + 4) then ret false else
  salt <- gets sessionSalt ;;
  sid <- gets sessionId ;;
  let b := put_at 2 (words64 sid) (put_at 0 (words64 salt) b) in
  store ref (with_buffer b d) ;;;
  tell (SendData b) ;;;
  (if needAnyResponse then tell SentSome else ret tt) ;;;
  ret true.

(** The message id of the request to invoke after, and whether it is in [haveSent]. *)
Definition afterMsg (ref : Z) : M session (Z * bool) :=
  d <- deref ref ;;
  let afterId := long 4 (buffer d) in
  sent <- gets (fun s => haveSent (tb s)) ;;
  ret (afterId, negb (afterId =? 0) && bool_decide (is_Some (sent !! afterId))).

Definition set_bind (msgId : Z) : M session unit := modify (set_sp (fun p =>
  mk_special (pingId p) (pingIdToSend p) (pingSendAt p) (pingMsgId p) msgId (now e))).
Definition set_ping (msgId : Z) : M session unit := modify (set_sp (fun p =>
  mk_special (pingId p) (pingIdToSend p) (pingSendAt p) msgId (bindMsgId p) (bindMessageSent p))).
Definition note_state_request (msgId ref : Z) : M session unit :=
  modify (set_tb (fun t => set_stateAndResend (emplace msgId ref (stateAndResendRequests t)) t)).

(** The branch for a single request. *)
Definition sendAlone (v : services) (first : Z) (forceNewMsgId : bool) : M session unit :=
  (if sendAll then modify (set_tb (set_toSend ∅)) else ret tt) ;;;
  lastId <- mtproto_msg_id msg_id ;;
  msgId <- prepareToSend msg_id fuel first lastId
    (forceNewMsgId && match bindDcKeyRequest v with None => true | Some _ => false end) ;;
  need <- (match bindDcKeyRequest v, pingRequest v, stateRequest v, resendRequest_ v with
    | Some _, _, _, _ => set_bind msgId ;;; ret true
    | _, Some _, _, _ => set_ping msgId ;;; ret true
    | _, _, Some ref, _ => note_state_request msgId ref ;;; ret true
    | _, _, _, Some ref => note_state_request msgId ref ;;; ret true
    | _, _, _, _ => ret false
    end) ;;
  d <- deref first ;;
  if requestId d =? 0 then sendSecureRequest first need ;;; ret tt else
  ack <- lift (needAck (buffer d)) ;;
  if negb ack then
    modify (set_tb (fun t => set_ackedIds (emplace msgId (requestId d) (ackedIds t)) t)) ;;;
    sendSecureRequest first need ;;; ret tt
  else
    store first (with_sent_time (now e) d) ;;;
    modify (set_tb (fun t => set_haveSent (emplace msgId first (haveSent t)) t)) ;;;
    out <- match after d with
      | Some afterRef =>
          a <- afterMsg afterRef ;;
          b <- lift (wrapAfterSingle (buffer d) a.1 a.2) ;;
          allocate (new_request b)
      | None => ret first
      end ;;
    out <- (if needsLayerNow e && needsLayer d then
              w <- deref out ;;
              b <- lift (wrapLayerSingle initSerialized (buffer w)) ;;
              allocate (new_request b)
            else ret out) ;;
    sendSecureRequest out true ;;; ret tt.

(** What is accumulated while a container is filled: its words, [bigMsgId],
    the ids of the sent requests and whether an answer is needed. *)
Record filling := mk_filling { out : list Z; bigMsgId : Z; sentIds : list Z; needAnyResponse : bool }.

(** [if (msgId >= bigMsgId) bigMsgId = mtproto_msg_id()] *)
Definition next_big (msgId big : Z) : M session Z :=
  if big <=? msgId then mtproto_msg_id msg_id else ret big.

Definition placeToContainer (f : filling) (force : bool) (ref : Z) : M session (Z * filling) :=
  msgId <- prepareToSend msg_id fuel ref (bigMsgId f) force ;;
  big <- next_big msgId (bigMsgId f) ;;
  d <- deref ref ;;
  o <- lift (appendMessage (out f) (buffer d)) ;;
  ret (msgId, mk_filling o big (sentIds f) (needAnyResponse f)).

Definition with_need (f : filling) : filling := mk_filling (out f) (bigMsgId f) (sentIds f) true.

(** A service request placed, when there is one, with what is noted of its id. *)
Definition placeService (f : filling) (force : bool) (request : option Z) (note : Z -> Z -> M session unit)
    (response : bool) : M session filling :=
  match request with
  | None => ret f
  | Some ref =>
      mf <- placeToContainer f force ref ;;
      note mf.1 ref ;;;
      ret (if response then with_need mf.2 else mf.2)
  end.

(** One request in line. *)
Definition placeRequest (force : bool) (f : filling) (ref : Z) : M session filling :=
  msgId <- prepareToSend msg_id fuel ref (bigMsgId f) force ;;
  big <- next_big msgId (bigMsgId f) ;;
  d <- deref ref ;;
  ack <- lift (needAck (buffer d)) ;;
  if negb (requestId d =? 0) && ack then
    store ref (with_sent_time (now e) d) ;;;
    let wrapInit := needsLayerNow e && needsLayer d in
    o <- match after d with
      | Some afterRef =>
          a <- afterMsg afterRef ;;
          o <- lift (WrapInvokeAfter (out f) (buffer d) a.1 a.2 (if wrapInit then length initSerialized else 0)) ;;
          ret (if wrapInit then
                 let at_ := length (out f) in
                 let o := put_at (at_ + 4) initSerialized o in
                 put_at (at_ + 3) [word (at_ + 3) o + 4 * Z.of_nat (length initSerialized)] o
               else o)
      | None =>
          if wrapInit then lift (wrapLayerInContainer (out f) initSerialized (buffer d))
          else lift (appendMessage (out f) (buffer d))
      end ;;
    modify (set_tb (fun t => set_haveSent (emplace msgId ref (haveSent t)) t)) ;;;
    ret (mk_filling o big (sentIds f ++ [msgId]) true)
  else
    (if negb (requestId d =? 0)
     then modify (set_tb (fun t => set_ackedIds (emplace msgId (requestId d) (ackedIds t)) t)) else ret tt) ;;;
    o <- lift (appendMessage (out f) (buffer d)) ;;
    ret (mk_filling o big (sentIds f) (needAnyResponse f)).

Fixpoint placeRequests (force : bool) (f : filling) (refs : list Z) : M session filling :=
  match refs with
  | [] => ret f
  | ref :: refs => f <- placeRequest force f ref ;; placeRequests force f refs
  end.

(** The words a request takes in the container, its own and the wrapping. *)
Definition sizeInContainer (ref : Z) : M session Z :=
  d <- deref ref ;;
  size <- lift (messageSize (buffer d)) ;;
  ret (size + if needsLayerNow e && needsLayer d then Z.of_nat (length initSerialized) else 0).

Fixpoint sizesInContainer (refs : list Z) : M session Z :=
  match refs with
  | [] => ret 0
  | ref :: refs => size <- sizeInContainer ref ;; rest <- sizesInContainer refs ;; ret (size + rest)
  end.

(** The branch that packs everything in a container. *)
Definition sendContainer (v : services) (inLine : list Z) (force : bool) : M session unit :=
  containerSize <- sizesInContainer (service_refs v ++ inLine) ;;
  prepared <- lift (Prepare (2 + containerSize)) ;;
  let count := Z.of_nat (length (service_refs v) + length inLine) in
  big <- mtproto_msg_id msg_id ;;
  let f := mk_filling (prepared ++ [mtpc_msg_container; count]) big [] false in
  f <- placeService f false (bindDcKeyRequest v) (fun msgId _ => set_bind msgId) true ;;
  f <- placeService f force (pingRequest v) (fun msgId _ => set_ping msgId) true ;;
  f <- placeRequests force f inLine ;;
  (if sendAll then modify (set_tb (set_toSend ∅)) else ret tt) ;;;
  f <- placeService f force (stateRequest v) note_state_request true ;;
  f <- placeService f force (resendRequest_ v) note_state_request true ;;
  f <- placeService f force (ackRequest v) (fun _ _ => ret tt) false ;;
  f <- placeService f force (httpWaitRequest v) (fun _ _ => ret tt) false ;;
  container <- allocate (new_request (out f)) ;;
  containerMsgId <- prepareToSend msg_id fuel container (bigMsgId f) force ;;
  modify (set_tb (fun t => set_sentContainers
    (emplace containerMsgId (mk_container (now e) (sentIds f)) (sentContainers t)) t)) ;;;
  timer <- gets checkTimerActive ;;
  (if negb (bool_decide (sentIds f = [])) && negb timer
   then tell (CheckSentRequestsIn kCheckSentRequestTimeout) ;;; modify (set_timer true) else ret tt) ;;;
  sendSecureRequest container (needAnyResponse f) ;;; ret tt.

Definition tryToSend : M session unit :=
  if negb (hasConnection e) || negb (hasKey e) then ret tt else
  p <- gets sp ;;
  if sendOnlyFirstPing && (pingIdToSend p =? 0) then ret tt else
  (if isMainSession e && negb sendOnlyFirstPing && (pingIdToSend p =? 0) && (pingId p =? 0)
      && (pingSendAt p <=? now e)
   then modify (set_sp (fun p => mk_special (pingId p) (newPingId e) (pingSendAt p) (pingMsgId p)
          (bindMsgId p) (bindMessageSent p)))
   else ret tt) ;;;
  forceNewMsgId <- (if sendAll then markSessionAsStarted else ret false) ;;
  (if forceNewMsgId && hasKeyCreator e then tell RestartBinder else ret tt) ;;;
  v <- prepareServices ;;
  inLine <- gets (fun s => if sendAll then (entries (toSend (tb s))).*2 else []) ;;
  match service_refs v ++ inLine with
  | [] => ret tt
  | first :: rest =>
      d <- deref first ;;
      if bool_decide (rest = []) && negb (forceSendInContainer d)
      then sendAlone v first forceNewMsgId
      else sendContainer v inLine forceNewMsgId
  end.

End Sending.
