(* ===== verification/SessionFacts.v ===== *)
(** * The requests of a session are kept

    The invariant of the tables of [Session], with which no operation fails and
    no request is lost. *)

From S2P Require Import Prelude StateMonad ReceivedIds Requests RequestFacts Session.

(** ** Request objects *)

Lemma wp_deref (ref : Z) (d : RequestData) (Q : RequestData -> session -> Prop) s :
  heap (tb s) !! ref = Some d -> Q d s -> wp (deref ref) Q s.
Proof. unfold wp, deref. by intros ->. Qed.

Lemma along_deref (R : relation session) `{!PreOrder R} (r : Z) : along R (deref r).
Proof. intros s b s'. unfold deref. destruct (heap _ !! _); [|done]. intros [= _ <-]. reflexivity. Qed.

#[export] Hint Resolve along_deref : along.

(** ** The invariant *)

Definition msgId (d : RequestData) : Z := long 4 (buffer d).

(** Two states of one request: only the ids and the time differ. *)
Definition same_request (d d' : RequestData) : Prop :=
  requestId d' = requestId d /\ after d' = after d /\ needsLayer d' = needsLayer d
  /\ forceSendInContainer d' = forceSendInContainer d
  /\ good_buffer (buffer d') /\ needAck (buffer d') = needAck (buffer d)
  /\ word 7 (buffer d') = word 7 (buffer d) /\ drop 8 (buffer d') = drop 8 (buffer d)
  /\ length (buffer d') = length (buffer d).

Record good_request (h : gmap Z RequestData) (d : RequestData) : Prop := {
  request_buffer : good_buffer (buffer d);
  request_after : forall r, after d = Some r -> is_Some (h !! r);
  request_ack : requestId d <> 0 -> needAck (buffer d) = Some true /\ 4 <= word 7 (buffer d) }.

(** The requests waiting, [w], and those sent. *)
Definition held (w : list Z) (s : session) (r : Z) : Prop :=
  r ∈ w \/ exists m, haveSent (tb s) !! m = Some r.

(** The ids the tables know, those of the sent requests apart. *)
Definition keyed (t : tables) (m : Z) : Prop :=
  is_Some (resendingIds t !! m) \/ is_Some (ackedIds t !! m) \/ is_Some (sentContainers t !! m).

(** What the session relies on: the first [limit] ids generated are distinct
    64-bit numbers, *)
Class MsgIds (msg_id : nat -> Z) (limit : nat) : Prop := {
  msg_id_inj : forall i j, (i < limit)%nat -> (j < limit)%nat -> msg_id i = msg_id j -> i = j;
  msg_id_range : forall i, (i < limit)%nat -> 0 < msg_id i < 2 ^ 64 }.

(** the loop for a free id may make a step, *)
Class Enough (fuel : nat) : Prop := fuel_pos : (0 < fuel)%nat.

(** the generated serialization writes something, and as many random bytes come
    as are asked for. *)
Class Surroundings (body_of : service -> list Z) (e : env) : Prop := {
  body_nonempty : forall q, body_of q <> [];
  padding_length : forall n, length (paddingBytes e n) = n }.

Section Kept.
Context {msg_id : nat -> Z} {limit : nat} `{!MsgIds msg_id limit}.
Context {fuel : nat} `{!Enough fuel} {e : env}.

Definition used (s : session) (m : Z) : Prop := exists i, (i < generated s)%nat /\ (i < limit)%nat /\ msg_id i = m.

Record inv (w : list Z) (s : session) : Prop := {
  inv_heap : forall r d, heap (tb s) !! r = Some d -> good_request (heap (tb s)) d;
  inv_held : forall r, held w s r ->
    exists d, heap (tb s) !! r = Some d /\ requestId d <> 0 /\ (msgId d = 0 \/ used s (msgId d));
  inv_rid : forall r r' d d', held w s r -> held w s r' ->
    heap (tb s) !! r = Some d -> heap (tb s) !! r' = Some d' -> requestId d = requestId d' -> r = r';
  inv_mid : forall r r' d d', held w s r -> held w s r' ->
    heap (tb s) !! r = Some d -> heap (tb s) !! r' = Some d' -> msgId d = msgId d' -> msgId d <> 0 -> r = r';
  inv_sent : forall m r d, haveSent (tb s) !! m = Some r -> heap (tb s) !! r = Some d -> msgId d = m /\ m <> 0;
  inv_wait : NoDup w /\ forall r m, r ∈ w -> haveSent (tb s) !! m <> Some r;
  inv_keys : forall m, keyed (tb s) m -> used s m }.

(** [n] more ids can be generated. *)
Definition room (n : nat) (s : session) : Prop := (generated s + n <= limit)%nat.

(** An id generated and given to nothing yet, with room for [n] more. *)
Definition fresh (n : nat) (w : list Z) (s : session) (b : Z) : Prop :=
  room n s /\ used s b /\ (~ keyed (tb s) b /\ haveSent (tb s) !! b = None)
  /\ forall r d, held w s r -> heap (tb s) !! r = Some d -> msgId d <> b.

Lemma used_range (s : session) (m : Z) : used s m -> 0 < m < 2 ^ 64.
Proof. intros (i & _ & Hi & <-). by apply msg_id_range. Qed.

Lemma fresh_less (n : nat) (w : list Z) (s : session) (b : Z) : fresh (S n) w s b -> fresh n w s b.
Proof. intros (Hr & Hf). split; [unfold room in *; lia|done]. Qed.

Lemma known_id_false (b : Z) (t : tables) :
  ~ keyed t b -> haveSent t !! b = None -> known_id b t = false.
Proof.
  unfold known_id, keyed. intros Hk Hs. rewrite !orb_false_iff, !bool_decide_eq_false, Hs.
  split_and!; [tauto|tauto|by intros []].
Qed.

Lemma sent_used (w : list Z) (s : session) (m r : Z) :
  inv w s -> haveSent (tb s) !! m = Some r -> used s m.
Proof.
  intros H Hm. destruct (inv_held _ _ H r) as (d & Hd & _ & Hu); [right; eauto|].
  destruct (inv_sent _ _ H m r d Hm Hd) as [<- Hne]. by destruct Hu.
Qed.

(** A new id is fresh. *)
Lemma wp_msg_id (n : nat) (w : list Z) (s : session) (Q : Z -> session -> Prop) : inv w s -> room (S n) s ->
  (forall b s', tb s' = tb s -> inv w s' -> fresh n w s' b -> sp s' = sp s -> log s' = log s -> Q b s') ->
  wp (mtproto_msg_id msg_id) Q s.
Proof.
  intros H Hroom HQ. unfold room in Hroom. unfold wp, mtproto_msg_id.
  set (s' := set_counter (messagesCounter s) (sessionMarkedAsStarted s) (S (generated s)) s).
  assert (forall m, used s m -> used s' m /\ m <> msg_id (generated s)) as Hu.
  { intros m (i & Hi & Hl & <-). split; [by exists i; split_and!; [simpl; lia|done|]|].
    intros E%msg_id_inj; lia. }
  apply HQ; [done| | |done|done].
  - destruct H as [H1 H2 H3 H4 H5 H6 H7]. split; try done.
    + intros r Hr. destruct (H2 r Hr) as (d & Hd & Hn & [Hz|Hm]); exists d; split_and!; try done; [by left|].
      right. by apply Hu.
    + intros m Hm. by apply Hu, H7.
  - unfold fresh. split_and!.
    + unfold room. simpl. lia.
    + exists (generated s). split_and!; [simpl; lia|lia|done].
    + intros Hs. destruct (Hu (msg_id (generated s))); [by apply (inv_keys _ _ H)|done].
    + apply eq_None_not_Some. intros [r Hs]. destruct (Hu (msg_id (generated s))); [by eapply sent_used|done].
    + intros r d Hr Hd E. destruct (inv_held _ _ H r Hr) as (d' & Hd' & _ & Hm).
      change (tb s') with (tb s) in Hd. simplify_eq. destruct Hm as [Hm|Hm].
      * rewrite E in Hm. pose proof (msg_id_range (generated s)). lia.
      * by destruct (Hu (msgId d)).
Qed.

(** ** Giving an id to a request *)

(** What [prepareToSend] does: the request [r] has the id [m], the new one [b]
    or the one it had. *)
Record prepared (r b m : Z) (s s' : session) : Prop := {
  prep_data : exists d d', heap (tb s) !! r = Some d /\ heap (tb s') = <[r := d']> (heap (tb s))
    /\ same_request d d' /\ msgId d' = m /\ (m = b \/ (m = msgId d /\ m <> 0));
  prep_sent : haveSent (tb s') = haveSent (tb s);
  prep_line : toSend (tb s') = toSend (tb s);
  prep_state : stateAndResendRequests (tb s') = stateAndResendRequests (tb s);
  prep_gen : generated s' = generated s;
  prep_sp : sp s' = sp s;
  prep_log : log s' = log s;
  prep_containers : forall k, is_Some (sentContainers (tb s') !! k) -> is_Some (sentContainers (tb s) !! k);
  prep_keys : forall k, keyed (tb s') k -> keyed (tb s) k \/ (k = b /\ m = b) }.

(** A request that waits, or one of the session's own. *)
Definition lone (w : list Z) (s : session) (r : Z) : Prop :=
  r ∈ w \/ ~ held w s r /\ forall d r' d', heap (tb s) !! r = Some d -> held w s r' ->
    heap (tb s) !! r' = Some d' -> msgId d <> 0 -> msgId d' <> msgId d.

Lemma same_request_refl (d : RequestData) : good_buffer (buffer d) -> same_request d d.
Proof. intros. unfold same_request. by split_and!. Qed.

Lemma need_ack_some (b : list Z) : good_buffer b -> exists a, needAck b = Some a.
Proof. intros [Hb _]. unfold needAck. rewrite Hb. eauto. Qed.

Lemma wp_next_seq (ack : bool) (Q : Z -> session -> Prop) s :
  Q (wrapu 32 (messagesCounter s * 2 + if ack then 1 else 0))
    (set_counter (wrapu 32 (messagesCounter s + if ack then 1 else 0)) (sessionMarkedAsStarted s) (generated s) s) ->
  wp (nextRequestSeqNumber ack) Q s.
Proof. done. Qed.

(** The ids written by both branches of [prepareToSend]. *)
Lemma wp_assign (r b x : Z) (d : RequestData) (s : session) (Q : Z -> session -> Prop) :
  heap (tb s) !! r = Some d -> good_buffer (buffer d) -> fits_u 64 b ->
  (forall d' c, same_request d d' -> msgId d' = b ->
     Q x (set_tb (fun t => set_heap (<[r := d']> (heap t)) t)
            (set_counter c (sessionMarkedAsStarted s) (generated s) s))) ->
  wp (b1 <- lift (setMsgId b (buffer d)) ;; ack <- lift (needAck b1) ;;
      seqNo <- nextRequestSeqNumber ack ;; b2 <- lift (setSeqNo seqNo b1) ;;
      store r (with_buffer b2 d) ;;; ret x) Q s.
Proof.
  intros Hd Hg Hb HQ. destruct (need_ack_some _ Hg) as [ack Hack].
  set (seqNo := wrapu 32 (messagesCounter s * 2 + if ack then 1 else 0)).
  destruct (set_ids_spec (buffer d) b seqNo Hg Hb) as (b1 & b2 & E1 & A1 & E2 & G & L & A2 & _ & W7 & D8 & Len).
  apply wp_bind. eapply wp_lift; [done|]. apply wp_bind. eapply wp_lift; [by rewrite A1|].
  apply wp_bind, wp_next_seq. apply wp_bind. eapply wp_lift; [done|].
  apply wp_bind, wp_modify, wp_ret. by apply HQ.
Qed.

Lemma wp_fresh_id (n : nat) (w : list Z) (s : session) (b : Z) (Q : Z -> session -> Prop) :
  fresh n w s b -> Q b s -> wp (fresh_id msg_id fuel b) Q s.
Proof.
  intros (_ & _ & [Hk Hs] & _) HQ. destruct fuel as [|fuel']; [by apply Nat.lt_irrefl in Enough0|]. cbn [fresh_id].
  apply wp_bind, wp_gets. by rewrite (known_id_false _ _ Hk Hs).
Qed.

Lemma rekey_none {V} (k k' : Z) (m : gmap Z V) : m !! k = None -> rekey k k' m = m.
Proof. unfold rekey. by intros ->. Qed.

Lemma rekey_keys {V} (k k' j : Z) (m : gmap Z V) :
  is_Some (rekey k k' m !! j) -> is_Some (m !! j) \/ j = k'.
Proof.
  unfold rekey. destruct (m !! k) as [v|] eqn:E; [|by left]. intros Hj.
  destruct (decide (j = k')) as [->|Hne]; [by right|left].
  rewrite lookup_emplace_ne in Hj by done. destruct (decide (j = k)) as [->|]; [by eexists|].
  by rewrite lookup_delete_ne in Hj.
Qed.

Lemma own_id_not_sent (w : list Z) (s : session) (r : Z) (d : RequestData) :
  inv w s -> lone w s r -> heap (tb s) !! r = Some d -> msgId d <> 0 -> haveSent (tb s) !! msgId d = None.
Proof.
  intros H Hl Hd Hne. apply eq_None_not_Some. intros [r' Hr'].
  assert (held w s r') as Hheld by (right; eauto).
  destruct (inv_held _ _ H r' Hheld) as (d' & Hd' & _). destruct (inv_sent _ _ H _ _ _ Hr' Hd') as [E _].
  destruct Hl as [Hw|[Hn Hl]].
  - assert (r = r') as <- by (eapply (inv_mid _ _ H); [by left|done|done|done|congruence|done]).
    destruct (inv_wait _ _ H) as [_ Hwait]. by apply (Hwait r (msgId d)).
  - by apply (Hl d r' d' Hd Hheld Hd').
Qed.

Lemma prepare_spec (n : nat) (w : list Z) (s : session) (r b : Z) (force : bool) (d : RequestData)
    (Q : Z -> session -> Prop) :
  inv w s -> heap (tb s) !! r = Some d -> lone w s r -> fresh n w s b ->
  (forall m s', prepared r b m s s' -> Q m s') ->
  wp (prepareToSend msg_id fuel r b force) Q s.
Proof.
  intros H Hd Hl Hb HQ. destruct (inv_heap _ _ H r d Hd) as [Hg _ _].
  assert (fits_u 64 b) as Hb64 by (destruct Hb as (_ & Hu & _); apply used_range in Hu; unfold fits_u; lia).
  assert (getMsgId (buffer d) = Some (msgId d)) as Hget by (unfold getMsgId; by rewrite (proj1 Hg)).
  unfold prepareToSend. apply wp_bind. eapply wp_deref; [done|]. apply wp_bind. eapply wp_lift; [done|].
  destruct (Z.eqb_spec (msgId d) 0) as [Hz|Hnz]; cbn [negb].
  { eapply wp_assign; [done..|]. intros d' c Hs Hm. apply HQ.
    split; try done; [by exists d, d'; split_and!; [done|done|done|done|by left]|].
    intros k Hk. by left. }
  apply wp_bind, wp_modify.
  set (s1 := set_tb (fun t => set_resendingIds (delete (msgId d) (resendingIds t)) t) s).
  assert (forall k, keyed (tb s1) k -> keyed (tb s) k) as Hk1.
  { intros k [[v Hv]|Hk]; [left|by right]. cbn in Hv. apply lookup_delete_Some in Hv as [_ Hv]. eauto. }
  destruct (force || (b <? msgId d)).
  2:{ apply wp_ret, HQ. split; try done.
      - exists d, d. split_and!; [done|by rewrite insert_id|by apply same_request_refl|done|right; done].
      - intros k Hk. left. by apply Hk1. }
  unfold replaceMsgId. apply wp_bind. eapply (wp_deref _ d); [done|]. apply wp_bind. eapply wp_lift; [done|].
  destruct (Z.eqb_spec (msgId d) b) as [E|E].
  { apply wp_ret, HQ. split; try done.
    - exists d, d. split_and!; [done|by rewrite insert_id|by apply same_request_refl|done|by left].
    - intros k Hk. left. by apply Hk1. }
  apply wp_bind. eapply (wp_fresh_id n w).
  { destruct Hb as (Hr & Hu & [Hk Hs] & Hh). split_and!; [done|done| |done|done]. by intros Hx%Hk1. }
  apply wp_bind, wp_modify. eapply wp_assign; [done..|]. intros d' c Hs Hm. apply HQ.
  pose proof (own_id_not_sent w s r d H Hl Hd Hnz) as Hown.
  split; try done.
  - exists d, d'. split_and!; [done|done|done|done|by left].
  - cbn. by rewrite rekey_none.
  - intros k Hk. cbn in Hk. by rewrite lookup_fmap, fmap_is_Some in Hk.
  - intros k [Hk|[Hk|Hk]]; cbn in Hk.
    + rewrite rekey_none in Hk by (apply lookup_delete_eq). left. apply Hk1. by left.
    + apply rekey_keys in Hk as [Hk| ->]; [left; right; by left|by right].
    + left. right. right. by rewrite lookup_fmap, fmap_is_Some in Hk.
Qed.

Lemma prepared_held (w : list Z) (r b m : Z) (s s' : session) (x : Z) :
  prepared r b m s s' -> held w s' x <-> held w s x.
Proof. intros [_ Hs _ _ _ _ _ _ _]. unfold held. by rewrite Hs. Qed.

Lemma prepared_used (r b m : Z) (s s' : session) (x : Z) :
  prepared r b m s s' -> used s' x <-> used s x.
Proof. intros [_ _ _ _ Hg _ _ _ _]. unfold used. by rewrite Hg. Qed.

(** A request changed, its number, its place and its kind kept. *)
Definition akin (d d' : RequestData) : Prop :=
  requestId d' = requestId d /\ after d' = after d /\ good_buffer (buffer d')
  /\ (requestId d <> 0 -> needAck (buffer d') = needAck (buffer d))
  /\ word 7 (buffer d') = word 7 (buffer d) /\ needsLayer d' = needsLayer d.

Lemma same_akin (d d' : RequestData) : same_request d d' -> akin d d'.
Proof. intros (E1 & E2 & E3 & _ & Hg & Ea & E7 & _). unfold akin. by split_and!. Qed.

Lemma insert_is_some (h : gmap Z RequestData) (r k : Z) (d : RequestData) :
  is_Some (h !! k) -> is_Some (<[r := d]> h !! k).
Proof.
  intros Hk. destruct (decide (r = k)) as [->|]; [rewrite lookup_insert_eq|rewrite lookup_insert_ne by done]; eauto.
Qed.

Lemma good_insert (h : gmap Z RequestData) (r : Z) (d d' : RequestData) :
  (forall x y, h !! x = Some y -> good_request h y) -> h !! r = Some d -> akin d d' ->
  forall x y, <[r := d']> h !! x = Some y -> good_request (<[r := d']> h) y.
Proof.
  intros Hh Hd (E1 & E2 & Hg & Ea & E7 & _) x y Hx.
  apply lookup_insert_Some in Hx as [[<- <-]|[_ Hx]].
  - destruct (Hh r d Hd) as [_ A K]. split; [done| |].
    + intros k Hk. apply insert_is_some, A. congruence.
    + intros Hn. rewrite E1 in Hn. rewrite Ea, E7 by done. by apply K.
  - destruct (Hh x y Hx) as [B A K]. split; [done| |done]. intros k Hk. by apply insert_is_some, A.
Qed.

Lemma inv_prepared (n : nat) (w : list Z) (r b m : Z) (s s' : session) :
  inv w s -> lone w s r -> fresh n w s b -> prepared r b m s s' -> inv w s'.
Proof.
  intros H Hl (_ & Hu & Hk & Hh) Hp.
  pose proof (fun x => prepared_held w r b m s s' x Hp) as Hheld.
  pose proof (fun x => prepared_used r b m s s' x Hp) as Hused.
  destruct Hp as [(d & d' & Hd & Eh & Hsame & Hm & Hor) Hs _ _ _ _ _ _ Hkeys].
  assert (forall x y, heap (tb s') !! x = Some y -> exists y0, heap (tb s) !! x = Some y0
    /\ requestId y = requestId y0 /\ (x <> r /\ y = y0 \/ x = r /\ y0 = d /\ y = d')) as Hback.
  { intros x y Hx. rewrite Eh in Hx. apply lookup_insert_Some in Hx as [[<- <-]|[Hne Hx]].
    - exists d. split_and!; [done|apply Hsame|by right].
    - exists y. split_and!; [done|done|by left]. }
  assert (held w s r -> r ∈ w) as Hrw by (intros Hr; destruct Hl as [|[Hn _]]; done).
  split.
  - rewrite Eh. eapply good_insert; [apply (inv_heap _ _ H)|done|by apply same_akin].
  - intros x Hx%Hheld. destruct (inv_held _ _ H x Hx) as (y & Hy & Hn & Hz).
    destruct (decide (x = r)) as [->|Hne].
    + assert (y = d) as -> by congruence. exists d'. rewrite Eh, lookup_insert_eq.
      split_and!; [done|by rewrite (proj1 Hsame)|]. right. rewrite Hm. apply Hused.
      destruct Hor as [->|[-> Hnz]]; [done|]. by destruct Hz.
    + exists y. rewrite Eh, lookup_insert_ne by done. split_and!; [done|done|].
      destruct Hz; [by left|right; by apply Hused].
  - intros x x' y y' Hx%Hheld Hx'%Hheld Hy Hy' E.
    destruct (Hback x y Hy) as (y0 & Hy0 & E0 & _). destruct (Hback x' y' Hy') as (y0' & Hy0' & E0' & _).
    eapply (inv_rid _ _ H); [done|done|done|done|congruence].
  - assert (forall x y, held w s x -> heap (tb s) !! x = Some y -> x <> r -> held w s r -> msgId y <> m) as Hother.
    { intros x y Hx Hy Hne Hr. destruct Hor as [->|[-> Hnz]]; [by apply (Hh x y)|]. intros E.
      apply Hne. eapply (inv_mid _ _ H); [done|exact Hr|done|done|done|by rewrite E]. }
    intros x x' y y' Hx%Hheld Hx'%Hheld Hy Hy' E Hnz.
    destruct (Hback x y Hy) as (y0 & Hy0 & _ & [[Hne ->]|(-> & -> & ->)]);
      destruct (Hback x' y' Hy') as (y0' & Hy0' & _ & [[Hne' ->]|(-> & -> & ->)]).
    + by eapply (inv_mid _ _ H).
    + exfalso. apply (Hother x y0 Hx Hy0 Hne Hx'). congruence.
    + exfalso. apply (Hother x' y0' Hx' Hy0' Hne' Hx). congruence.
    + done.
  - rewrite Hs. intros k x y Hkx Hy. destruct (Hback x y Hy) as (y0 & Hy0 & _ & [[_ ->]|(-> & -> & ->)]).
    + by eapply (inv_sent _ _ H).
    + exfalso. destruct (inv_wait _ _ H) as [_ Hw]. apply (Hw r k); [|done]. apply Hrw. right; eauto.
  - rewrite Hs. apply (inv_wait _ _ H).
  - intros k Hk'. apply Hused. apply Hkeys in Hk' as [Hk'|[-> _]]; [by apply (inv_keys _ _ H)|done].
Qed.

(** ** Steps that keep the requests *)

(** What the size of a request in a container depends on. *)
Definition extent (d : RequestData) : Z * bool := (word 7 (buffer d), needsLayer d).

(** From [s] to [s'] the same requests are held, with [w] waiting and then
    [w'], the line of the session is the same or was cleared, and the requests
    not in [l] are not touched. *)
Record keeps (l w w' : list Z) (s s' : session) : Prop := {
  keeps_held : forall r, held w' s' r <-> held w s r;
  keeps_data : forall r d, heap (tb s) !! r = Some d ->
    exists d', heap (tb s') !! r = Some d' /\ requestId d' = requestId d /\ extent d' = extent d
      /\ (~ r ∈ l -> d' = d);
  keeps_sent : forall m r, haveSent (tb s) !! m = Some r -> haveSent (tb s') !! m = Some r;
  keeps_line : toSend (tb s') = toSend (tb s) \/ sendAll e = true /\ toSend (tb s') = ∅;
  keeps_log : log s `prefix_of` log s' }.

Lemma keeps_refl (l w : list Z) (s : session) : keeps l w w s s.
Proof. split; [done| |done|by left|done]. intros r d Hd. by exists d. Qed.

Lemma keeps_trans (l w w' w'' : list Z) (s s' s'' : session) :
  keeps l w w' s s' -> keeps l w' w'' s' s'' -> keeps l w w'' s s''.
Proof.
  intros [H1 D1 S1 L1 P1] [H2 D2 S2 L2 P2]. split; [intros r; by rewrite H2, H1| |auto| |by etrans].
  2:{ destruct L2 as [->|L2]; [done|by right]. }
  intros r d Hd. destruct (D1 r d Hd) as (d' & Hd' & E' & X' & K').
  destruct (D2 r d' Hd') as (d'' & Hd'' & E'' & X'' & K''). exists d''. split_and!; [done|congruence|congruence|].
  intros Hr. rewrite K'', K' by done. done.
Qed.

Lemma keeps_more (l l' w w' : list Z) (s s' : session) :
  (forall r, r ∈ l -> r ∈ l') -> keeps l w w' s s' -> keeps l' w w' s s'.
Proof.
  intros Hl [H D S L P]. split; [done| |done|done|done]. intros r d Hd. destruct (D r d Hd) as (d' & Hd' & E & X & K).
  exists d'. split_and!; [done|done|done|]. intros Hr. apply K. by intros ?%Hl.
Qed.

(** A state that differs in nothing the invariant reads. *)
Record unseen (s s' : session) : Prop := {
  unseen_heap : heap (tb s') = heap (tb s);
  unseen_sent : haveSent (tb s') = haveSent (tb s);
  unseen_line : toSend (tb s') = toSend (tb s);
  unseen_gen : generated s' = generated s;
  unseen_log : log s `prefix_of` log s';
  unseen_keys : forall m, keyed (tb s') m -> keyed (tb s) m }.

Lemma unseen_tb (s s' : session) :
  tb s' = tb s -> generated s' = generated s -> log s `prefix_of` log s' -> unseen s s'.
Proof. intros E Eg El. split; rewrite ?E; auto. Qed.

Lemma unseen_inv (w : list Z) (s s' : session) : unseen s s' -> inv w s -> inv w s' /\ forall l, keeps l w w s s'.
Proof.
  intros [Hh Hs Hl Hg Hlog Hk] H.
  assert (forall r, held w s' r <-> held w s r) as Hheld by (intros r; unfold held; by rewrite Hs).
  assert (forall m, used s' m <-> used s m) as Hu by (intros m; unfold used; by rewrite Hg).
  split; [|intros l; split; [done|intros r d Hd; exists d; by rewrite Hh|by rewrite Hs|by left|done]].
  destruct H as [H1 H2 H3 H4 H5 H6 H7]. split.
  - by rewrite Hh.
  - intros r Hr%Hheld. destruct (H2 r Hr) as (d & Hd & Hn & Hz). exists d. rewrite Hh, Hu. by split_and!.
  - intros r r' d d' Hr%Hheld Hr'%Hheld. rewrite Hh. by apply H3.
  - intros r r' d d' Hr%Hheld Hr'%Hheld. rewrite Hh. by apply H4.
  - rewrite Hs, Hh. done.
  - by rewrite Hs.
  - intros m Hm. apply Hu, H7. by apply Hk.
Qed.

Lemma unseen_fresh (n : nat) (w : list Z) (s s' : session) (b : Z) : unseen s s' -> fresh n w s b -> fresh n w s' b.
Proof.
  intros [Hh Hs Hl Hg Hlog Hk] (Hroom & Hu & Hn & Hf). split_and!.
  - unfold room in *. by rewrite Hg.
  - unfold used in *. by rewrite Hg.
  - intros Hb%Hk. by apply (proj1 Hn).
  - rewrite Hs. apply Hn.
  - intros r d Hr. rewrite Hh. apply Hf. unfold held in *. by rewrite <- Hs.
Qed.

(** A request touched, its ids kept. *)
Definition touch (r : Z) (d' : RequestData) (s : session) : session :=
  set_tb (fun t => set_heap (<[r := d']> (heap t)) t) s.

Lemma inv_touch (w : list Z) (s : session) (r : Z) (d d' : RequestData) :
  inv w s -> heap (tb s) !! r = Some d -> akin d d' -> msgId d' = msgId d ->
  inv w (touch r d' s) /\ keeps [r] w w s (touch r d' s)
  /\ forall n b, fresh n w s b -> fresh n w (touch r d' s) b.
Proof.
  intros H Hd Ha Hm.
  assert (forall x y, heap (tb (touch r d' s)) !! x = Some y -> exists y0, heap (tb s) !! x = Some y0
    /\ requestId y = requestId y0 /\ msgId y = msgId y0) as Hback.
  { intros x y Hx. cbn in Hx. apply lookup_insert_Some in Hx as [[<- <-]|[_ Hx]]; [|eauto].
    exists d. by split_and!; [done|apply Ha|]. }
  assert (forall x y0, heap (tb s) !! x = Some y0 -> exists y, heap (tb (touch r d' s)) !! x = Some y
    /\ requestId y = requestId y0 /\ msgId y = msgId y0 /\ extent y = extent y0 /\ (x <> r -> y = y0)) as Hforth.
  { intros x y0 Hx. cbn. destruct (decide (x = r)) as [->|Hne].
    - rewrite lookup_insert_eq. assert (y0 = d) as -> by congruence. exists d'. split_and!; [done|apply Ha|done| |done].
      unfold extent. destruct Ha as (_ & _ & _ & _ & -> & ->). done.
    - rewrite lookup_insert_ne by done. by exists y0. }
  split_and!.
  - split; [|..|by apply (inv_keys _ _ H)].
    + cbn. eapply good_insert; [apply (inv_heap _ _ H)|done|done].
    + intros x Hx. destruct (inv_held _ _ H x Hx) as (y0 & Hy0 & Hn & Hz).
      destruct (Hforth x y0 Hy0) as (y & Hy & E1 & E2 & _). exists y. rewrite E1, E2. done.
    + intros x x' y y' Hx Hx' Hy Hy' E. destruct (Hback x y Hy) as (z & Hz & E1 & _).
      destruct (Hback x' y' Hy') as (z' & Hz' & E1' & _).
      eapply (inv_rid _ _ H); [exact Hx|exact Hx'|done|done|congruence].
    + intros x x' y y' Hx Hx' Hy Hy' E Hn. destruct (Hback x y Hy) as (z & Hz & _ & E2).
      destruct (Hback x' y' Hy') as (z' & Hz' & _ & E2').
      eapply (inv_mid _ _ H); [exact Hx|exact Hx'|done|done|congruence|congruence].
    + intros m x y Hmx Hy. destruct (Hback x y Hy) as (z & Hz & _ & E2). rewrite E2.
      by eapply (inv_sent _ _ H).
    + apply (inv_wait _ _ H).
  - split; [done| |done|by left|done]. intros x y0 Hx. destruct (Hforth x y0 Hx) as (y & Hy & E1 & _ & X & K).
    exists y. split_and!; [done|done|done|]. intros Hr. apply K. rewrite list_elem_of_singleton in Hr. done.
  - intros n b (Hroom & Hu & Hk & Hf). split; [done|]. split; [done|]. split; [done|]. intros x y Hx Hy.
    destruct (Hback x y Hy) as (z & Hz & _ & ->). by apply (Hf x z).
Qed.

(** A new request. *)
Lemma wp_allocate (w : list Z) (s : session) (d : RequestData) (Q : Z -> session -> Prop) :
  inv w s -> good_request (heap (tb s)) d ->
  (forall ref s', heap (tb s) !! ref = None -> s' = touch ref d s -> inv w s' -> keeps [] w w s s' ->
     ~ held w s' ref -> (forall n b, fresh n w s b -> fresh n w s' b) -> Q ref s') ->
  wp (allocate d) Q s.
Proof.
  intros H Hd HQ. unfold wp, allocate. set (ref := default 0 (last_key (heap (tb s))) + 1).
  assert (heap (tb s) !! ref = None) as Hnew by apply next_key_fresh.
  assert (forall r, held w s r -> r <> ref) as Hne.
  { intros r Hr ->. destruct (inv_held _ _ H ref Hr) as (d' & Hd' & _). congruence. }
  assert (forall r y, r <> ref -> heap (tb (touch ref d s)) !! r = Some y -> heap (tb s) !! r = Some y) as Hback.
  { intros r y Hr Hy. cbn in Hy. by rewrite lookup_insert_ne in Hy. }
  apply HQ; [done|done| | | |].
  - destruct H as [H1 H2 H3 H4 H5 H6 H7]. split; [|..|done].
    + intros x y Hx. cbn in Hx. cbn. apply lookup_insert_Some in Hx as [[<- <-]|[_ Hx]].
      * destruct Hd as [G A K]. split; [done| |done]. intros k Hk. by apply insert_is_some, A.
      * destruct (H1 x y Hx) as [G A K]. split; [done| |done]. intros k Hk. by apply insert_is_some, A.
    + intros r Hr. destruct (H2 r Hr) as (y & Hy & Hz). exists y. split; [|done]. cbn.
      rewrite lookup_insert_ne; [done|]. intros <-. by apply (Hne ref).
    + intros x x' y y' Hx Hx' Hy Hy'. apply H3; [done|done|apply Hback; auto|apply Hback; auto].
    + intros x x' y y' Hx Hx' Hy Hy'. apply H4; [done|done|apply Hback; auto|apply Hback; auto].
    + intros m x y Hx Hy. apply (H5 m x y Hx), Hback; [|done]. apply Hne. right; eauto.
    + done.
  - split; [done| |done|by left|done]. intros r y Hy. exists y. split_and!; [|done|done|done]. cbn. rewrite lookup_insert_ne; [done|].
    intros <-. congruence.
  - intros Hr. by apply (Hne ref).
  - intros n b (Hr & Hu & Hk & Hf). split; [done|]. split; [done|]. split; [done|]. intros r y Hry Hy.
    apply (Hf r y Hry), Hback; [by apply Hne|done].
Qed.

End Kept.

Arguments used msg_id limit s m : clear implicits.
Arguments inv msg_id limit w s : clear implicits.
Arguments room limit n s : clear implicits.
Arguments fresh msg_id limit n w s b : clear implicits.
Arguments keeps e l w w' s s' : clear implicits.
