(* ===== verification/SessionSend.v ===== *)
(** * Sending keeps the requests

    Total correctness of [tryToSend]: containers, requests alone and the
    session's own requests; and what the packets it gives to the connection
    carry. *)

From S2P Require Import Prelude StateMonad ReceivedIds Requests RequestFacts Session SessionFacts.

Section Send.
Context {msg_id : nat -> Z} {limit : nat} `{!MsgIds msg_id limit}.
Context {fuel : nat} `{!Enough fuel} {e : env}.
Context {body_of : service -> list Z} `{!Surroundings body_of e}.
Context {kCurrentLayer : Z} {initWrapper : list Z}.

#[local] Abbreviation used := (used msg_id limit).
#[local] Abbreviation inv := (inv msg_id limit).
#[local] Abbreviation room := (room limit).
#[local] Abbreviation fresh := (fresh msg_id limit).
#[local] Abbreviation keeps := (keeps e).
#[local] Abbreviation inv_touch := (@inv_touch msg_id limit e).
#[local] Abbreviation unseen_inv := (@unseen_inv msg_id limit e).

(** ** Filling a container *)

Lemma keeps_tb (l w : list Z) (s s' : session) : tb s' = tb s -> log s' = log s -> keeps l w w s s'.
Proof.
  intros E El. split; [intros r; unfold held; by rewrite E|intros r d Hd; exists d; by rewrite E|by rewrite E|left; by rewrite E|by rewrite El].
Qed.

Lemma prepared_keeps (w : list Z) (r b m : Z) (s s' : session) : prepared r b m s s' -> keeps [r] w w s s'.
Proof.
  intros Hp. pose proof (fun x => prepared_held w r b m s s' x Hp) as Hheld.
  destruct Hp as [(d & d' & Hd & Eh & Hsame & _) Hs Hl _ _ _ El _ _]. split; [done| |by rewrite Hs|by left|by rewrite El].
  intros x y Hy. rewrite Eh. destruct (decide (x = r)) as [->|Hne].
  - rewrite lookup_insert_eq. exists d'. assert (y = d) as -> by congruence.
    split_and!; [done|apply Hsame| |]; [unfold extent; destruct Hsame as (_ & _ & -> & _ & _ & _ & -> & _); done|].
    intros Hn. destruct Hn. by apply list_elem_of_singleton.
  - rewrite lookup_insert_ne by done. by exists y.
Qed.

Lemma prepared_fresh (n : nat) (w : list Z) (r b m : Z) (s s' : session) :
  prepared r b m s s' -> fresh n w s b -> m <> b -> fresh n w s' b.
Proof.
  intros Hp (Hroom & Hu & Hk & Hf) Hne. pose proof (fun x => prepared_held w r b m s s' x Hp) as Hheld.
  destruct Hp as [(d & d' & Hd & Eh & Hsame & Hm & _) Hs _ _ Hg _ _ _ Hkeys]. split_and!.
  - unfold room in *. by rewrite Hg.
  - unfold used in *. by rewrite Hg.
  - intros [Hb|[_ Hb]]%Hkeys; [by apply (proj1 Hk)|done].
  - rewrite Hs. apply Hk.
  - intros x y Hx%Hheld Hy. rewrite Eh in Hy. apply lookup_insert_Some in Hy as [[<- <-]|[_ Hy]]; [congruence|].
    by apply (Hf x y).
Qed.

Lemma wp_next_big (n : nat) (w : list Z) (s : session) (m b : Z) (Q : Z -> session -> Prop) :
  inv w s -> room (S n) s -> (m = b \/ fresh (S n) w s b) ->
  (forall b' s', inv w s' -> tb s' = tb s -> log s' = log s -> fresh n w s' b' -> Q b' s') ->
  wp (next_big msg_id m b) Q s.
Proof.
  intros H Hroom Hm HQ. unfold next_big. destruct (Z.leb_spec b m).
  - eapply (wp_msg_id n w); [done|done|]. intros b' s' E Hi Hf _ El. by apply HQ.
  - apply wp_ret, HQ; [done|done|done|]. destruct Hm as [->|Hm]; [lia|by apply fresh_less].
Qed.

(** The id of a request and the next id, as both loops of the container take them. *)
Lemma prepare_next (n : nat) (w : list Z) (s : session) (r b : Z) (force : bool) (d : RequestData)
    (Q : Z -> Z -> session -> Prop) :
  inv w s -> heap (tb s) !! r = Some d -> lone w s r -> fresh (S n) w s b ->
  (forall m b' s' d', inv w s' -> keeps [r] w w s s' -> fresh n w s' b' ->
     heap (tb s') !! r = Some d' -> same_request d d' -> msgId d' = m -> m <> 0 ->
     haveSent (tb s') = haveSent (tb s) -> Q m b' s') ->
  wp (prepareToSend msg_id fuel r b force) (fun m s1 => wp (next_big msg_id m b) (Q m) s1) s.
Proof.
  intros H Hd Hl Hb HQ. eapply prepare_spec; [done..|]. intros m s1 Hp.
  pose proof (inv_prepared _ _ _ _ _ _ _ H Hl Hb Hp) as H1.
  pose proof (prepared_keeps w _ _ _ _ _ Hp) as K1.
  eapply (wp_next_big n w); [done| | |].
  - unfold room. rewrite (prep_gen _ _ _ _ _ Hp). apply Hb.
  - destruct (decide (m = b)); [by left|right]. by eapply prepared_fresh.
  - intros b' s' H' E El Hb'. destruct Hp as [(d0 & d' & Hd0 & Eh & Hsame & Hm & Hor) Hsent _ _ _ _ _ _ _].
    assert (d0 = d) as -> by congruence. apply (HQ m b' s' d'); [done| |done| |done|done| |by rewrite E].
    + eapply keeps_trans; [exact K1|by apply keeps_tb].
    + by rewrite E, Eh, lookup_insert_eq.
    + destruct Hb as (_ & Hu & _). apply used_range in Hu. destruct Hor as [->|[_ Hn]]; [lia|done].
Qed.

Lemma good_lengths (d : RequestData) : good_buffer (buffer d) ->
  exists len, count_length (buffer d) = Some len /\ messageSize (buffer d) = Some (kMessageHeaderInts + Z.shiftr len 2)
    /\ len = word 7 (buffer d).
Proof. intros [Hb _]. unfold messageSize, count_length. rewrite Hb. eauto. Qed.

(** The words a request takes in a container, before an invocation after another. *)
Definition init_of (d : RequestData) : list Z :=
  if needsLayerNow e && needsLayer d then initSerialized kCurrentLayer initWrapper else [].
Definition size_of (d : RequestData) : Z := 4 + word 7 (buffer d) / 4 + Z.of_nat (length (init_of d)).
Definition sizes (s : session) (l : list Z) : Z :=
  foldr (fun r n => from_option size_of 0 (heap (tb s) !! r) + n) 0 l.

(** The message of a request as it is in the container, invoked after [a]. *)
Definition message_for (s : session) (r : Z) (a : option Z) (m : message) : Prop := exists d,
  heap (tb s) !! r = Some d /\ m = invoked (init_of d) a (message_of (buffer d)).

(** The requests [refs] were added to the container, in this order, each
    invoked after what [afters] has for it. *)
Definition grows (s s' : session) (refs : list Z) (afters : list (option Z)) (f f' : filling) : Prop :=
  forall base count total ms, packed base count total ms (out f) -> exists ms',
    packed base count (total + sizes s refs) (ms ++ ms') (out f') /\ Forall3 (message_for s') refs afters ms'.

(** What the request [r] of data [d] is invoked after, when the requests
    [before] of the container come before it and [rest] are it and those that
    follow: the request it names, if that was sent or comes before. *)
Definition invoked_after (own : list Z) (s s' : session) (before rest : list Z) (d : RequestData) (a : option Z) : Prop :=
  match after d with
  | None => a = None
  | Some ra =>
      (ra ∈ before \/ (exists id, haveSent (tb s) !! id = Some ra) ->
         exists id, haveSent (tb s') !! id = Some ra /\ a = Some id)
      /\ (forall id, a = Some id -> ~ ra ∈ rest /\ is_Some (haveSent (tb s') !! id)
           /\ (~ ra ∈ own -> forall da, heap (tb s') !! ra = Some da -> id = msgId da))
  end.

Fixpoint invocations (own : list Z) (s s' : session) (before l : list Z) (afters : list (option Z)) : Prop :=
  match l, afters with
  | [], [] => True
  | r :: rest, a :: afters =>
      (exists d, heap (tb s') !! r = Some d /\ invoked_after own s s' before (r :: rest) d a)
      /\ invocations own s s' (before ++ [r]) rest afters
  | _, _ => False
  end.

Lemma size_of_extent (d d' : RequestData) : extent d' = extent d -> size_of d' = size_of d.
Proof. unfold extent, size_of, init_of. by intros [= -> ->]. Qed.

Lemma sizes_cons (s : session) (r : Z) (l : list Z) :
  sizes s (r :: l) = from_option size_of 0 (heap (tb s) !! r) + sizes s l.
Proof. done. Qed.

Lemma sizes_app (s : session) (l l' : list Z) : sizes s (l ++ l') = sizes s l + sizes s l'.
Proof. unfold sizes. induction l as [|r l IH]; simpl; [lia|]. rewrite IH. lia. Qed.

Lemma sizes_keeps (l w w' : list Z) (s s' : session) (refs : list Z) :
  keeps l w w' s s' -> (forall r, r ∈ refs -> is_Some (heap (tb s) !! r)) -> sizes s' refs = sizes s refs.
Proof.
  intros K Hr. induction refs as [|r refs IH]; [done|]. rewrite !sizes_cons, IH by (intros; apply Hr; by right).
  destruct (Hr r) as [d Hd]; [by left|]. destruct (keeps_data _ _ _ _ _ K r d Hd) as (d' & Hd' & _ & X & _).
  rewrite Hd, Hd'. cbn. by rewrite (size_of_extent d d').
Qed.

Lemma message_for_keeps (l w w' : list Z) (s s' : session) (r : Z) (a : option Z) (m : message) :
  keeps l w w' s s' -> ~ r ∈ l -> message_for s r a m -> message_for s' r a m.
Proof.
  intros K Hr (d & Hd & Hm). destruct (keeps_data _ _ _ _ _ K r d Hd) as (d' & Hd' & _ & _ & E).
  rewrite E in Hd' by done. by exists d.
Qed.

Lemma messages_keep (l w w' : list Z) (s s' : session) (refs : list Z) (afters : list (option Z)) (ms : list message) :
  keeps l w w' s s' -> (forall r, r ∈ refs -> ~ r ∈ l) ->
  Forall3 (message_for s) refs afters ms -> Forall3 (message_for s') refs afters ms.
Proof.
  intros K Hl. induction 1 as [|r a m refs afters ms Hm _ IH]; constructor.
  - eapply message_for_keeps; [exact K|apply Hl; by left|done].
  - apply IH. intros. apply Hl. by right.
Qed.

Lemma grows_refl (s s' : session) (f f' : filling) : out f' = out f -> grows s s' [] [] f f'.
Proof. intros E base count total ms H. exists []. rewrite E, app_nil_r. cbn. rewrite Z.add_0_r. split; [done|constructor]. Qed.

Lemma grows_trans (l1 l2 w w1 w2 : list Z) (a1 a2 : list (option Z)) (s s1 s2 : session) (f f1 f2 : filling) :
  keeps l1 w w1 s s1 -> keeps l2 w1 w2 s1 s2 -> (forall r, r ∈ l1 -> ~ r ∈ l2) ->
  (forall r, r ∈ l2 -> is_Some (heap (tb s) !! r)) ->
  grows s s1 l1 a1 f f1 -> grows s1 s2 l2 a2 f1 f2 -> grows s s2 (l1 ++ l2) (a1 ++ a2) f f2.
Proof.
  intros K1 K2 Hdis Hin G1 G2 base count total ms H0.
  destruct (G1 base count total ms H0) as (ms1 & H1 & F1). destruct (G2 _ _ _ _ H1) as (ms2 & H2 & F2).
  exists (ms1 ++ ms2). rewrite sizes_app, <- (sizes_keeps l1 w w1 s s1 l2 K1 Hin), Z.add_assoc, app_assoc.
  split; [done|]. apply Forall3_app; [|done].
  eapply messages_keep; [exact K2|done|done].
Qed.

(** Later steps leave the invocations as they are, *)
Lemma invoked_after_keeps (own l w1 w2 : list Z) (s s1 s2 : session) (before rest : list Z) (d : RequestData) (a : option Z) :
  inv w1 s1 -> keeps l w1 w2 s1 s2 -> (forall r, r ∈ l -> r ∈ own) -> (exists r, heap (tb s1) !! r = Some d) ->
  invoked_after own s s1 before rest d a -> invoked_after own s s2 before rest d a.
Proof.
  intros H K Hl [r Hd]. unfold invoked_after. destruct (after d) as [ra|] eqn:Ea; [|done]. intros [A B]. split.
  - intros Hra. destruct (A Hra) as (id & Hid & E). exists id. by split; [apply (keeps_sent _ _ _ _ _ K)|].
  - intros id E. destruct (B id E) as (Hn & [x Hx] & C). split_and!; [done|exists x; by apply (keeps_sent _ _ _ _ _ K)|].
    intros Ho da Hda. destruct (request_after _ _ (inv_heap _ _ H r d Hd) ra Ea) as [da1 Hda1].
    destruct (keeps_data _ _ _ _ _ K ra da1 Hda1) as (da' & Hda' & _ & _ & Ek).
    rewrite Ek in Hda' by auto. assert (da = da1) as -> by congruence. by apply C.
Qed.

Lemma invocations_keep (own l w1 w2 : list Z) (s s1 s2 : session) (refs : list Z) (afters : list (option Z)) :
  inv w1 s1 -> keeps l w1 w2 s1 s2 -> (forall r, r ∈ l -> r ∈ own) -> (forall r, r ∈ refs -> ~ r ∈ l) ->
  forall before, invocations own s s1 before refs afters -> invocations own s s2 before refs afters.
Proof.
  intros H K Hl. revert afters. induction refs as [|r refs IH]; intros [|a afters] Hr before; try done; cbn [invocations].
  intros [(d & Hd & Ha) Hi]. split; [|apply IH; [intros; apply Hr; by right|done]].
  destruct (keeps_data _ _ _ _ _ K r d Hd) as (d' & Hd' & _ & _ & E). rewrite E in Hd' by (apply Hr; by left).
  exists d. split; [done|]. eapply invoked_after_keeps; [exact H|exact K|done|eauto|done].
Qed.

(** and so do earlier ones, of requests that come before or of the session. *)
Lemma invocations_earlier (own more before0 : list Z) (s s1 s' : session) (refs : list Z) (afters : list (option Z)) :
  (forall r, r ∈ more -> exists id, haveSent (tb s1) !! id = Some r) -> haveSent (tb s) ⊆ haveSent (tb s1) ->
  forall before, invocations own s1 s' before refs afters -> invocations own s s' (more ++ before) refs afters.
Proof.
  intros Hm Hs. revert afters. induction refs as [|r refs IH]; intros [|a afters] before; try done; cbn [invocations].
  intros [(d & Hd & Ha) Hi]. split; [|rewrite <- app_assoc; by apply IH].
  exists d. split; [done|]. unfold invoked_after in *. destruct (after d) as [ra|]; [|done]. destruct Ha as [A B]. split; [|done].
  intros [[Hra|Hra]%elem_of_app|[id Hid]]; apply A; [right; by apply Hm|by left|right].
  exists id. by eapply lookup_weaken.
Qed.

Lemma invoked_nil (m : message) : invoked [] None m = m.
Proof. by destruct m. Qed.

(** One request added, with the size [sizes] counts for it. *)
Lemma grows_one (s s' : session) (r : Z) (a : option Z) (d d' : RequestData) (f f' : filling) :
  heap (tb s) !! r = Some d -> heap (tb s') !! r = Some d' -> extent d' = extent d -> good_buffer (buffer d') ->
  (forall base count total ms, packed base count total ms (out f) ->
     let m := invoked (init_of d') a (message_of (buffer d')) in
     out f' = (if a is Some _ then put_at 7 [word 7 (out f) + 12] (out f) else out f) ++ pack m) ->
  grows s s' [r] [a] f f'.
Proof.
  intros Hd Hd' X Hg Hout base count total ms Hp. pose proof (Hout base count total ms Hp) as Eo.
  set (m := invoked _ a _) in Eo. exists [m]. split; [|constructor; [by exists d'|constructor]].
  rewrite sizes_cons, Hd, Eo. change (from_option size_of 0 (Some d)) with (size_of d).
  change (sizes s []) with 0. rewrite <- (size_of_extent d d' X). unfold size_of.
  pose proof (proj2 (message_body_length _ Hg)) as El.
  assert (Z.of_nat (length (m_body m)) = Z.of_nat (length (init_of d')) + (if a is Some _ then 3 else 0) + word 7 (buffer d') / 4) as Em.
  { rewrite <- El. unfold m. cbn [m_body invoked]. rewrite !length_app.
    destruct a; [change (length (mtpc_invokeAfterMsg :: _)) with 3%nat|change (length []) with 0%nat]; lia. }
  destruct a.
  - replace (total + _) with (total + 4 + Z.of_nat (length (m_body m)) - 3) by lia. by apply packed_after.
  - replace (total + _) with (total + 4 + Z.of_nat (length (m_body m))) by lia. by apply packed_snoc.
Qed.

Lemma place_spec (n : nat) (w : list Z) (s : session) (f : filling) (force : bool) (r : Z) (d : RequestData)
    (Q : Z * filling -> session -> Prop) :
  inv w s -> heap (tb s) !! r = Some d -> needsLayer d = false -> lone w s r -> fresh (S n) w s (bigMsgId f) ->
  (forall m f' s', inv w s' -> keeps [r] w w s s' -> fresh n w s' (bigMsgId f') -> grows s s' [r] [None] f f' ->
     sentIds f' = sentIds f -> Q (m, f') s') ->
  wp (placeToContainer msg_id fuel f force r) Q s.
Proof.
  intros H Hd Hnl Hl Hb HQ. unfold placeToContainer. apply wp_bind.
  eapply wp_mono; [|intros m s1 Hw; apply wp_bind; exact Hw].
  eapply (prepare_next n w); [done..|]. intros m b' s' d' H' K' Hb' Hd' Hs _ _ _. cbn beta.
  destruct (inv_heap _ _ H' r d' Hd') as [Hg _ _].
  apply wp_bind. eapply wp_deref; [done|]. apply wp_bind. eapply wp_lift; [by apply append_message|].
  apply wp_ret. apply HQ; [done..| |done].
  assert (init_of d' = []) as Ei.
  { unfold init_of. destruct Hs as (_ & _ & -> & _). by rewrite Hnl, andb_false_r. }
  eapply grows_one; [exact Hd|exact Hd'| |done|].
  - unfold extent. destruct Hs as (_ & _ & -> & _ & _ & _ & -> & _). done.
  - intros base count total ms _. cbn zeta. by rewrite Ei, invoked_nil.
Qed.

(** The session's own requests that have no id yet. *)
Definition own (w : list Z) (s : session) (r : Z) : Prop :=
  exists d, heap (tb s) !! r = Some d /\ msgId d = 0 /\ ~ held w s r /\ needsLayer d = false
    /\ requestId d = 0.

Lemma own_lone (w : list Z) (s : session) (r : Z) : own w s r -> lone w s r.
Proof. intros (d & Hd & Hz & Hn & _). right. split; [done|]. intros d0 r' d' Hd0 _ _ Hnz. congruence. Qed.

Lemma own_keeps (l w w' : list Z) (s s' : session) (r : Z) :
  keeps l w w' s s' -> ~ r ∈ l -> own w s r -> own w' s' r.
Proof.
  intros [Hh Hd _ _] Hr (d & Hd0 & Hz & Hn & Hl & Hi). destruct (Hd r d Hd0) as (d' & Hd' & _ & _ & K).
  rewrite K in Hd' by done. exists d. split_and!; [done|done|by rewrite Hh|done|done].
Qed.

Definition opt_list (o : option Z) : list Z := match o with Some r => [r] | None => [] end.

(** Requests that are not invoked after others. *)
Definition plain (l : list Z) : list (option Z) := (fun _ => None) <$> l.

Lemma place_service_spec (n : nat) (w : list Z) (s : session) (f : filling) (force response : bool)
    (request : option Z) (note : Z -> Z -> M session unit) (Q : filling -> session -> Prop) :
  inv w s -> fresh (length (opt_list request) + n) w s (bigMsgId f) ->
  (forall r, request = Some r -> (exists d, heap (tb s) !! r = Some d /\ needsLayer d = false) /\ lone w s r) ->
  (forall m r s0, wp (note m r) (fun _ s1 => unseen s0 s1) s0) ->
  (forall f' s', inv w s' -> keeps (opt_list request) w w s s' -> fresh n w s' (bigMsgId f') ->
     grows s s' (opt_list request) (plain (opt_list request)) f f' -> sentIds f' = sentIds f -> Q f' s') ->
  wp (placeService msg_id fuel f force request note response) Q s.
Proof.
  intros H Hb Hr Hnote HQ. unfold placeService. destruct request as [r|].
  2:{ apply wp_ret, HQ; [done|apply keeps_refl|done|by apply grows_refl|done]. }
  destruct (Hr r eq_refl) as [(d & Hd & Hnl) Hl]. apply wp_bind. eapply (place_spec n w); [done..|].
  intros m f' s1 H1 K1 Hb1 G1 S1. apply wp_bind. eapply wp_mono; [apply Hnote|]. intros [] s2 Hu.
  destruct (unseen_inv w s1 s2 Hu H1) as [H2 K2].
  assert (grows s s2 [r] [None] f f') as G2.
  { rewrite <- (app_nil_r [r]), <- (app_nil_r [None]). eapply grows_trans; [exact K1|apply (K2 [])| | |exact G1|by apply grows_refl];
      by intros ? ? ?%not_elem_of_nil || by intros ? ?%not_elem_of_nil. }
  apply wp_ret, HQ; [done| | |by destruct response|by destruct response].
  - eapply keeps_trans; [exact K1|apply K2].
  - destruct response; by eapply unseen_fresh.
Qed.

(** A waiting request moves to the sent ones. *)
Lemma inv_move (w0 : list Z) (s : session) (r m : Z) (d : RequestData) :
  inv (r :: w0) s -> heap (tb s) !! r = Some d -> msgId d = m -> m <> 0 ->
  let s' := set_tb (fun t => set_haveSent (emplace m r (haveSent t)) t) s in
  inv w0 s' /\ keeps [] (r :: w0) w0 s s' /\ haveSent (tb s') !! m = Some r
  /\ forall n b, fresh n (r :: w0) s b -> fresh n w0 s' b.
Proof.
  intros H Hd Hm Hnz s'.
  assert (held (r :: w0) s r) as Hr by (left; by left).
  assert (haveSent (tb s) !! m = None) as Hnone.
  { rewrite <- Hm. eapply own_id_not_sent; [exact H| |done|congruence]. left. by left. }
  assert (haveSent (tb s') = <[m := r]> (haveSent (tb s))) as Es by (cbn; by apply emplace_fresh).
  destruct (inv_wait _ _ H) as [Hnd Hw]. apply NoDup_cons in Hnd as [Hnr Hnd].
  assert (forall x, held w0 s' x <-> held (r :: w0) s x) as Hheld.
  { intros x. unfold held. rewrite Es, elem_of_cons. split.
    - intros [Hx|[k Hk]]; [by left; right|]. apply lookup_insert_Some in Hk as [[_ <-]|[_ Hk]]; [by left; left|right; eauto].
    - intros [[->|Hx]|[k Hk]]; [right; exists m; apply lookup_insert_eq|by left|].
      right. exists k. rewrite lookup_insert_ne; [done|]. intros <-. congruence. }
  split_and!.
  - destruct H as [H1 H2 H3 H4 H5 H6 H7]. split; [done| | | | | |done].
    + intros x Hx%Hheld. by apply H2.
    + intros x x' y y' Hx%Hheld Hx'%Hheld. by apply H3.
    + intros x x' y y' Hx%Hheld Hx'%Hheld. by apply H4.
    + rewrite Es. intros k x y Hk Hy. apply lookup_insert_Some in Hk as [[<- <-]|[_ Hk]]; [|by apply H5 with x].
      cbn in Hy. assert (y = d) as -> by congruence. by split.
    + split; [done|]. intros x k Hx. rewrite Es. intros Hk.
      apply lookup_insert_Some in Hk as [[_ <-]|[_ Hk]]; [done|]. apply (Hw x k); [by right|done].
  - split; [done| | |by left|done].
    + intros x y Hy. by exists y.
    + intros k x Hk. rewrite Es, lookup_insert_ne; [done|]. intros <-. congruence.
  - rewrite Es. apply lookup_insert_eq.
  - intros n b (Hroom & Hu & Hk & Hfr). split_and!; [done|done| | |].
    + apply Hk.
    + rewrite Es, lookup_insert_ne; [apply Hk|]. intros <-. by apply (Hfr r d).
    + intros x y Hx%Hheld. by apply Hfr.
Qed.

(** ** Sending *)

Lemma wrap_after_some (to b : list Z) (afterId : Z) (found : bool) (skip : nat) :
  good_buffer b -> exists b', WrapInvokeAfter to b afterId found skip = Some b'.
Proof.
  intros [Hb _]. unfold WrapInvokeAfter, count_length. rewrite Hb. destruct (negb found); eauto.
Qed.

(** What [afterMsg] finds: the id of the request, when it was sent under it. *)
Definition after_id (s : session) (d : RequestData) : Z * bool :=
  (msgId d, negb (msgId d =? 0) && bool_decide (is_Some (haveSent (tb s) !! msgId d))).

Lemma wp_after_msg (s : session) (r : Z) (d : RequestData) (Q : Z * bool -> session -> Prop) :
  heap (tb s) !! r = Some d -> Q (after_id s d) s -> wp (afterMsg r) Q s.
Proof.
  intros Hd HQ. unfold afterMsg. apply wp_bind. eapply wp_deref; [done|].
  apply wp_bind, wp_gets, wp_ret, HQ.
Qed.

(** What the request [r] in line, of data [d], is invoked after when it is placed. *)
Definition named_after (s : session) (r : Z) (d : RequestData) (a : option Z) : Prop :=
  match after d with
  | None => a = None
  | Some ra =>
      (forall id, haveSent (tb s) !! id = Some ra -> a = Some id)
      /\ (forall id, a = Some id -> ra <> r /\ is_Some (haveSent (tb s) !! id)
           /\ exists da, heap (tb s) !! ra = Some da /\ id = msgId da)
  end.

Lemma after_id_named (w : list Z) (s s2 : session) (r : Z) (d dr : RequestData) (ra : Z) (da0 da : RequestData) :
  inv w s2 -> keeps [r] w w s s2 -> r ∈ w -> haveSent (tb s2) = haveSent (tb s) ->
  heap (tb s2) !! r = Some dr -> msgId dr <> 0 -> heap (tb s) !! ra = Some da0 -> heap (tb s2) !! ra = Some da -> after d = Some ra ->
  named_after s r d (if (after_id s2 da).2 then Some (after_id s2 da).1 else None).
Proof.
  intros H K Hw Es Hr Hn Hda0 Hda Ea. unfold named_after. rewrite Ea. cbn [after_id fst snd]. rewrite <- Es.
  set (found := _ && _). assert (found = true <-> msgId da <> 0 /\ is_Some (haveSent (tb s2) !! msgId da)) as Hf.
  { unfold found. rewrite andb_true_iff, negb_true_iff, Z.eqb_neq, bool_decide_eq_true. done. }
  split.
  - intros id Hid. destruct (inv_sent _ _ H id ra da Hid Hda) as [E Hne].
    destruct found; [by rewrite E|]. destruct Hf as [_ Hf]. rewrite E in Hf. discriminate Hf. split; [done|by exists ra].
  - intros id. destruct found; [|done]. intros [= <-]. destruct (proj1 Hf eq_refl) as [Hne Hs].
    assert (ra <> r) as Hra.
    { intros ->. assert (dr = da) as -> by congruence.
      assert (haveSent (tb s2) !! msgId da = None) as E by (eapply own_id_not_sent; [exact H|by left|done..]).
      rewrite E in Hs. by destruct Hs. }
    destruct (keeps_data _ _ _ _ _ K ra da0 Hda0) as (da' & Hda' & _ & _ & E).
    rewrite E in Hda' by (by intros ?%list_elem_of_singleton). split_and!; [done|done|exists da0; split; [done|congruence]].
Qed.

Lemma with_sent_time_akin (d : RequestData) (t : Z) : good_buffer (buffer d) -> akin d (with_sent_time t d).
Proof. intros. unfold akin. by split_and!. Qed.

Lemma place_request_spec (n : nat) (w0 : list Z) (s : session) (f : filling) (force : bool) (r : Z)
    (Q : filling -> session -> Prop) :
  inv (r :: w0) s -> fresh (S n) (r :: w0) s (bigMsgId f) ->
  (forall f' s', inv w0 s' -> keeps [r] (r :: w0) w0 s s' -> fresh n w0 s' (bigMsgId f') ->
     (exists a d, grows s s' [r] [a] f f' /\ heap (tb s') !! r = Some d /\ named_after s r d a) ->
     (exists m, sentIds f' = sentIds f ++ [m] /\ haveSent (tb s') !! m = Some r) -> Q f' s') ->
  wp (placeRequest msg_id kCurrentLayer initWrapper fuel e force f r) Q s.
Proof.
  intros H Hb HQ. assert (held (r :: w0) s r) as Hr by (left; by left).
  destruct (inv_held _ _ H r Hr) as (d & Hd & Hn & _).
  unfold placeRequest. apply wp_bind. eapply wp_mono; [|intros m s1 Hw; apply wp_bind; exact Hw].
  eapply (prepare_next n (r :: w0)); [done|done|left; by left|done|].
  intros m b' s1 d1 H1 K1 Hb1 Hd1 Hs1 Hm Hm0 Esent. cbn beta.
  destruct (inv_heap _ _ H1 r d1 Hd1) as [Hg Ha Hack].
  assert (requestId d1 <> 0) as Hn1 by (by rewrite (proj1 Hs1)). destruct (Hack Hn1) as [Hack1 _].
  apply wp_bind. eapply wp_deref; [done|]. apply wp_bind. eapply wp_lift; [done|].
  rewrite (proj2 (Z.eqb_neq _ 0) Hn1). cbn [negb andb].
  apply wp_bind, wp_modify. fold (touch r (with_sent_time (now e) d1) s1).
  destruct (inv_touch (r :: w0) s1 r d1 (with_sent_time (now e) d1) H1 Hd1) as (H2 & K2 & F2);
    [by apply with_sent_time_akin|done|].
  set (s2 := touch r (with_sent_time (now e) d1) s1) in *.
  destruct (inv_move w0 s2 r m (with_sent_time (now e) d1) H2) as (H3 & K3 & E3 & F3); [apply lookup_insert_eq|done|done|].
  apply wp_bind.
  set (d2 := with_sent_time (now e) d1) in *.
  assert (forall o a, (forall base count total ms, packed base count total ms (out f) ->
      o = (if a is Some _ then put_at 7 [word 7 (out f) + 12] (out f) else out f)
            ++ pack (invoked (init_of d1) a (message_of (buffer d1)))) -> named_after s r d1 a ->
    wp (modify (set_tb (fun t => set_haveSent (emplace m r (haveSent t)) t)) ;;;
      ret (mk_filling o b' (sentIds f ++ [m]) true)) Q s2) as Hrest.
  { intros o a Ho Hna. apply wp_bind, wp_modify, wp_ret. apply HQ; [done| |by apply F3, F2| |].
    - eapply keeps_trans; [exact K1|]. eapply keeps_trans; [exact K2|].
      by eapply keeps_more, K3; intros ? ?%not_elem_of_nil.
    - exists a, d2. split_and!; [|apply lookup_insert_eq|done].
      eapply (grows_one _ _ r a d d2); [exact Hd|apply lookup_insert_eq| |done|exact Ho].
      unfold extent. destruct Hs1 as (_ & _ & N3 & _ & _ & _ & N7 & _). by rewrite <- N3, <- N7.
    - by exists m. }
  assert (length (init_of d1) = if needsLayerNow e && needsLayer d1 then length (initSerialized kCurrentLayer initWrapper) else 0%nat)
    as Ei by (unfold init_of; by destruct (_ && _)).
  destruct (after d1) as [ra|] eqn:Ea.
  - assert (is_Some (heap (tb s2) !! ra)) as [da Hda] by by apply insert_is_some, Ha.
    apply wp_bind. eapply wp_after_msg; [exact Hda|]. apply wp_bind. rewrite <- Ei.
    assert (is_Some (heap (tb s) !! ra)) as [da0 Hda0].
    { apply (request_after _ _ (inv_heap _ _ H r d Hd)). by rewrite <- (proj1 (proj2 Hs1)). }
    assert (named_after s r d1 (if (after_id s2 da).2 then Some (after_id s2 da).1 else None)) as Hna.
    { eapply (after_id_named (r :: w0) s s2 r d1 d2 ra da0 da); [done|by eapply keeps_trans|by left|by rewrite <- Esent|
        apply lookup_insert_eq| |done|done|done]. unfold d2. change (msgId d1 <> 0). congruence. }
    revert Hna. generalize (after_id s2 da). intros [aid found] Hna. cbn [fst snd] in *.
    destruct (wrap_after_some (out f) (buffer d1) aid found (length (init_of d1)) Hg) as [o Ho].
    eapply wp_lift; [exact Ho|]. apply wp_ret, (Hrest _ (if found then Some aid else None)); [|exact Hna]. intros base count total ms Hp.
    destruct (wrap_after (out f) (init_of d1) (buffer d1) aid found Hg) as (o' & Ho' & Hi & Hn0).
    { apply packed_length in Hp. lia. }
    assert (o' = o) as -> by congruence.
    unfold init_of in Hi, Hn0 |- *.
    destruct (needsLayerNow e && needsLayer d1); [destruct found; exact Hi|].
    specialize (Hn0 eq_refl). destruct found; exact Hn0.
  - assert (named_after s r d1 None) as Hna by (unfold named_after; by rewrite Ea).
    destruct (needsLayerNow e && needsLayer d1) eqn:Ew.
    + eapply wp_lift; [by apply wrap_layer|]. apply (Hrest _ None); [|done]. intros _ _ _ _ _. unfold init_of. by rewrite Ew.
    + eapply wp_lift; [by apply append_message|]. apply (Hrest _ None); [|done]. intros _ _ _ _ _.
      unfold init_of. by rewrite Ew, invoked_nil.
Qed.

(** What was right when the request was placed is right when all are. *)
Lemma named_invoked (own : list Z) (r : Z) (l w0 : list Z) (s s1 s2 : session) (d : RequestData) (a : option Z) :
  inv (r :: l ++ w0) s -> keeps [r] (r :: l ++ w0) (l ++ w0) s s1 -> keeps l (l ++ w0) w0 s1 s2 ->
  named_after s r d a -> invoked_after own s s2 [] (r :: l) d a.
Proof.
  intros H K1 K2. unfold named_after, invoked_after. destruct (after d) as [ra|] eqn:Ea; [|done]. intros [A B].
  pose proof (keeps_sent _ _ _ _ _ K1) as S1. pose proof (keeps_sent _ _ _ _ _ K2) as S2. split.
  - intros [?%not_elem_of_nil|[id Hid]]; [done|]. exists id. split; [by apply S2, S1|by apply A].
  - intros id Hid. destruct (B id Hid) as (Hne & [x Hx] & da & Hda & Ei). assert (~ ra ∈ l) as Hl.
    { intros Hra. assert (ra ∈ r :: l ++ w0) as Hw by (right; apply elem_of_app; by left).
      destruct (inv_held _ _ H x) as (dx & Hdx & _ & _); [right; eauto|].
      destruct (inv_sent _ _ H id x dx Hx Hdx) as [Ex Hn0].
      assert (haveSent (tb s) !! msgId da = None) as E by (eapply own_id_not_sent; [exact H|by left|done|congruence]). congruence. }
    split_and!; [by intros [->|?]%elem_of_cons|exists x; by apply S2, S1|]. intros _ da2 Hda2.
    destruct (keeps_data _ _ _ _ _ K1 ra da Hda) as (da1 & Hda1 & _ & _ & E1).
    destruct (keeps_data _ _ _ _ _ K2 ra da1 Hda1) as (da' & Hda' & _ & _ & E2).
    rewrite E2, E1 in Hda' by (done || by intros ?%list_elem_of_singleton). congruence.
Qed.

Lemma place_requests_spec (n : nat) (l w0 : list Z) (s : session) (f : filling) (force : bool)
    (Q : filling -> session -> Prop) :
  inv (l ++ w0) s -> fresh (length l + n) (l ++ w0) s (bigMsgId f) ->
  (forall f' s', inv w0 s' -> keeps l (l ++ w0) w0 s s' -> fresh n w0 s' (bigMsgId f') ->
     (exists afters, grows s s' l afters f f' /\ forall own, invocations own s s' [] l afters) ->
     (exists ids, sentIds f' = sentIds f ++ ids /\ Forall2 (fun r m => haveSent (tb s') !! m = Some r) l ids) ->
     Q f' s') ->
  wp (placeRequests msg_id kCurrentLayer initWrapper fuel e force f l) Q s.
Proof.
  revert s f. induction l as [|r l IH]; intros s f H Hb HQ; cbn [placeRequests].
  - apply wp_ret, HQ; [done|apply keeps_refl|done|exists []; split; [by apply grows_refl|done]|]. exists []. by rewrite app_nil_r.
  - apply wp_bind. apply (place_request_spec (length l + n) (l ++ w0)); [done|done|].
    intros f1 s1 H1 K1 Hb1 (a & d & G1 & Hd & Hna) (m & Em & Hm).
    apply IH; [done|done|]. intros f2 s2 H2 K2 Hb2 (afters & G2 & Hi) (ids & Eids & Hids). apply HQ; [done| |done| |].
    + eapply keeps_trans; [eapply keeps_more, K1|eapply keeps_more, K2].
      * intros x ->%list_elem_of_singleton. by left.
      * intros x Hx. by right.
    + assert (NoDup (r :: l ++ w0)) as [Hr _]%NoDup_cons by apply (inv_wait _ _ H).
      exists (a :: afters). split.
      * apply (grows_trans [r] l _ _ _ [a] afters s s1 s2 f f1 f2 K1 K2); [| |done|done].
        -- intros x ->%list_elem_of_singleton Hx. apply Hr, elem_of_app. by left.
        -- intros x Hx. destruct (inv_held _ _ H x) as (d0 & Hd0 & _); [|eauto]. left. right. apply elem_of_app. by left.
      * intros own0. cbn [invocations app].
        assert (~ r ∈ l) as Hrl by (intros Hx; apply Hr, elem_of_app; by left).
        destruct (keeps_data _ _ _ _ _ K2 r d Hd) as (d' & Hd' & _ & _ & E). rewrite E in Hd' by done. split.
        -- exists d. split; [done|]. by apply (named_invoked own0 r l w0 s s1 s2 d a).
        -- apply (invocations_earlier own0 [r] [] s s1); [intros x ->%list_elem_of_singleton; by exists m| |apply Hi].
           apply map_subseteq_spec. apply (keeps_sent _ _ _ _ _ K1).
    + exists (m :: ids). rewrite Eids, Em, <- app_assoc. split; [done|]. constructor; [|done].
      by apply (keeps_sent _ _ _ _ _ K2).
Qed.

(** A request whose header and body stay is akin to what it was. *)
Lemma akin_buffer (h : gmap Z RequestData) (d : RequestData) (b : list Z) :
  good_request h d -> good_buffer b ->
  (forall i, (4 <= i < 8 + Z.to_nat (word 7 (buffer d) / 4))%nat -> word i b = word i (buffer d)) ->
  akin d (with_buffer b d) /\ msgId (with_buffer b d) = msgId d
    /\ message_of b = message_of (buffer d).
Proof.
  intros [Hg Ha Hack] Hb W. assert (0 <= word 7 (buffer d) / 4) as H0 by (apply Z.div_pos; [apply Hg|lia]).
  assert (word 7 b = word 7 (buffer d)) as E7 by (apply W; lia). unfold akin, msgId, long.
  cbn [buffer with_buffer requestId after needsLayer]. rewrite !W by lia. split_and!; try done.
  - intros Hn. destruct (Hack Hn) as [_ H4]. unfold needAck. rewrite (proj1 Hg), (proj1 Hb).
    unfold kMessageBodyPosition. assert (1 <= word 7 (buffer d) / 4) by (apply Z.div_le_lower_bound; lia).
    by rewrite W by lia.
  - assert (m_body (message_of b) = m_body (message_of (buffer d))) as E
      by (apply same_body; [done|done|done|]; intros i Hi; apply W; lia).
    unfold message_of in *. cbn [m_body] in E. by rewrite E, !W by lia.
Qed.

(** Two states of a request that make the same message. *)
Definition same_message (d d' : RequestData) : Prop :=
  message_of (buffer d') = message_of (buffer d) /\ needsLayer d' = needsLayer d /\ after d' = after d
  /\ word 7 (buffer d') = word 7 (buffer d).

(** Padding, salt and session id leave the ids of a request. *)
Lemma wp_send_secure (w : list Z) (s : session) (r : Z) (d : RequestData) (need : bool) (Q : bool -> session -> Prop) :
  inv w s -> heap (tb s) !! r = Some d ->
  (forall ok s', inv w s' -> keeps [r] w w s s' -> sentContainers (tb s') = sentContainers (tb s) ->
     (exists d', heap (tb s') !! r = Some d' /\ same_message d d') ->
     (4 <= word 7 (buffer d) -> exists b, log s' = log s ++ SendData b :: (if need then [SentSome] else [])
        /\ good_buffer b /\ message_of b = message_of (buffer d)) -> Q ok s') ->
  wp (sendSecureRequest e r need) Q s.
Proof.
  intros H Hd HQ. pose proof (inv_heap _ _ H r d Hd) as Hgr. destruct (Hgr) as [Hg _ _].
  destruct (addPadding_spec (paddingRandom e) (paddingBytes e) (buffer d) Hg padding_length)
    as (b & Eb & Hgb & Wb & Lb). rewrite shiftr2 in Wb, Lb.
  assert (0 <= word 7 (buffer d) / 4 /\ 8 + word 7 (buffer d) / 4 <= Z.of_nat (length (buffer d))) as [Hl0 Hl]
    by (split; [apply Z.div_pos; [apply Hg|lia]|apply Hg]).
  assert (forall i, (i < 8 + Z.to_nat (word 7 (buffer d) / 4))%nat -> word i b = word i (buffer d)) as W1
    by (intros i Hi; apply Wb; lia).
  destruct (akin_buffer _ d b Hgr Hgb) as (A1 & M1 & B1); [intros i Hi; apply W1; lia|].
  unfold sendSecureRequest. apply wp_bind. eapply wp_deref; [done|]. apply wp_bind. eapply wp_lift; [done|].
  apply wp_bind, wp_modify. fold (touch r (with_buffer b d) s).
  destruct (inv_touch w s r d (with_buffer b d) H Hd A1 M1) as (H1 & K1 & _).
  set (s1 := touch r (with_buffer b d) s) in *.
  apply wp_bind. destruct (good_lengths (with_buffer b d) Hgb) as (len & _ & Hsize & ->). cbn [buffer with_buffer] in Hsize.
  eapply wp_lift; [exact Hsize|]. rewrite shiftr2, W1 by lia. unfold kMessageHeaderInts.
  pose proof (padding_pos (Z.shiftr (word 7 (buffer d)) 2) (paddingRandom e)) as Hpad.
  destruct (_ || _ || _) eqn:Ebad.
  { apply wp_ret, HQ; [done|done|done| |].
    { exists (with_buffer b d). split; [apply lookup_insert_eq|]. unfold same_message. cbn [buffer with_buffer]. by rewrite B1, W1 by lia. }
    intros H4. exfalso.
    assert (1 <= word 7 (buffer d) / 4) by (apply Z.div_le_lower_bound; lia).
    rewrite !orb_true_iff, !Z.ltb_lt in Ebad. rewrite shiftr2 in Hpad. lia. }
  apply wp_bind, wp_gets. apply wp_bind, wp_gets.
  destruct (salted_spec (sessionSalt s1) (sessionId s1) b Hgb) as [Hg2 W2]. set (b2 := put_at 2 _ _) in *.
  destruct (akin_buffer _ d b2 Hgr Hg2) as (A2 & M2 & B2); [intros i Hi; rewrite W2, W1 by lia; done|].
  apply wp_bind, wp_modify.
  destruct (inv_touch w s r d (with_buffer b2 d) H Hd A2 M2) as (H2 & K2 & _).
  assert (forall s', tb s' = tb (touch r (with_buffer b2 d) s1) -> generated s' = generated s ->
    log s' = log s ++ SendData b2 :: (if need then [SentSome] else []) -> Q true s') as Hend.
  { intros s' Et Eg El. destruct (unseen_inv w (touch r (with_buffer b2 d) s) s') as [H' K'];
      [apply unseen_tb; [rewrite Et; unfold s1, touch; cbn; by rewrite insert_insert_eq|done|rewrite El; by eexists]|done|].
    apply HQ; [done| |by rewrite Et| |].
    - eapply keeps_trans; [exact K2|apply K'].
    - exists (with_buffer b2 d). rewrite Et. split; [apply lookup_insert_eq|]. unfold same_message. cbn [buffer with_buffer].
      by rewrite B2, W2, W1 by lia.
    - intros _. by exists b2. }
  apply wp_bind, wp_modify. apply wp_bind.
  destruct need; [apply wp_modify|apply wp_ret]; apply wp_ret; apply Hend; try done.
  cbn. by rewrite <- app_assoc.
Qed.

(** ** The session's own requests *)

(** Requests of the session made for this call, without ids. *)
Definition pending (p w : list Z) (s : session) : Prop := NoDup p /\ forall r, r ∈ p -> own w s r.

Lemma pending_keeps (l p w w' : list Z) (s s' : session) :
  keeps l w w' s s' -> (forall r, r ∈ p -> ~ r ∈ l) -> pending p w s -> pending p w' s'.
Proof. intros K Hl [Hnd Hp]. split; [done|]. intros r Hr. eapply own_keeps; [done|by apply Hl|by apply Hp]. Qed.

(** The requests placed are done with; the others still wait for their turn. *)
Lemma pending_placed (l p w : list Z) (s s' : session) :
  keeps l w w s s' -> pending (l ++ p) w s -> pending p w s'.
Proof.
  intros K [Hnd Hp]. apply NoDup_app in Hnd as (_ & Hd & Hnd).
  eapply pending_keeps; [exact K| |split; [done|intros r Hr; apply Hp, elem_of_app; by right]].
  intros r Hr Hl. by apply (Hd r).
Qed.

Lemma pending_perm (p p' w : list Z) (s : session) : p ≡ₚ p' -> pending p w s -> pending p' w s.
Proof. intros E [Hnd Hp]. split; [by rewrite <- E|]. intros r. rewrite <- E. apply Hp. Qed.

Lemma wp_unseen (w : list Z) (s : session) (g : session -> session) (Q : unit -> session -> Prop) :
  unseen s (g s) -> inv w s -> (inv w (g s) -> (forall l, keeps l w w s (g s)) -> Q tt (g s)) -> wp (modify g) Q s.
Proof. intros Hu H HQ. destruct (unseen_inv w s (g s) Hu H). apply wp_modify. auto. Qed.

(** A request of the session: ids zero, the length of its body. *)
Lemma prepared_good (body : list Z) : body <> [] ->
  exists h, Prepare (Z.of_nat (length body)) = Some h /\ good_buffer (h ++ body) /\ long 4 (h ++ body) = 0.
Proof.
  intros Hb. unfold Prepare. assert (0 < length body)%nat by (destruct body; [done|simpl; lia]).
  rewrite (proj2 (Z.ltb_lt 0 _)) by lia. eexists. split_and!; [done| |done].
  split; [apply has_body_length; rewrite length_app; simpl; lia|]. rewrite <- app_assoc.
  destruct (wrapped_length (Z.of_nat (length body))) as (W0 & W4 & Wl); [lia|].
  split; [done|]. split; [done|]. rewrite !length_app, length_replicate. cbn [length].
  change (word 7 _) with (wrapu 32 (Z.shiftl (Z.of_nat (length body)) 2)). lia.
Qed.

Lemma prepare_length (body h : list Z) : Prepare (Z.of_nat (length body)) = Some h ->
  word 7 (h ++ body) / 4 <= Z.of_nat (length body).
Proof.
  unfold Prepare. destruct (0 <? Z.of_nat (length body)) eqn:E; [|done]. intros [= <-].
  destruct (wrapped_length (Z.of_nat (length body))) as (W0 & W4 & Wl); [lia|].
  change (word 7 _) with (wrapu 32 (Z.shiftl (Z.of_nat (length body)) 2)). lia.
Qed.

Lemma wp_new_request (p w : list Z) (s : session) (b : list Z) (Q : Z -> session -> Prop) :
  inv w s -> pending p w s -> good_buffer b ->
  (forall ref s', inv w s' -> keeps [] w w s s' -> pending p w s' -> ~ ref ∈ p -> ~ held w s' ref ->
     heap (tb s') !! ref = Some (new_request e b) -> s' = touch ref (new_request e b) s -> Q ref s') ->
  wp (allocate (new_request e b)) Q s.
Proof.
  intros H Hp Hb HQ. eapply (wp_allocate w); [done|by split|].
  intros ref s' Hnone -> H' K' Hnh _. apply HQ; try done.
  - eapply pending_keeps; [exact K'| |done]. by intros r _ ?%not_elem_of_nil.
  - intros Hr. destruct (proj2 Hp ref Hr) as (d & Hd & _). congruence.
  - cbn. by rewrite lookup_insert_eq.
Qed.

(** The requests of its own the session may make: the lists are those gathered,
    or empty when they were used. *)
Definition asked (s : session) (q : service) : Prop :=
  match q with
  | MsgsAck ids => ids = ackRequestData s \/ ids = []
  | MsgResendReq ids => ids = resendRequestData s \/ ids = []
  | MsgsStateReq ids => ids = sorted_elements (stateRequestData s) \/ ids = []
  | Ping _ | PingDelayDisconnect _ _ | HttpWait _ _ _ => True
  end.

(** A request of the session, no longer than its serialization. *)
Definition made (s s' : session) (r : Z) : Prop := exists d q,
  heap (tb s') !! r = Some d /\ asked s q /\ size_of d <= 4 + Z.of_nat (length (body_of q)).

Lemma made_keeps (w w' : list Z) (s s' s'' : session) (r : Z) : keeps [] w w' s' s'' -> made s s' r -> made s s'' r.
Proof.
  intros K (d & q & Hd & Hq). destruct (keeps_data _ _ _ _ _ K r d Hd) as (d' & Hd' & _ & _ & E).
  rewrite E in Hd' by apply not_elem_of_nil. by exists d, q.
Qed.

Lemma wp_serialize (p w : list Z) (s : session) (q : service) (Q : Z -> session -> Prop) :
  inv w s -> pending p w s -> asked s q ->
  (forall ref s', inv w s' -> keeps [] w w s s' -> pending (p ++ [ref]) w s' -> generated s' = generated s ->
     toSend (tb s') = toSend (tb s) -> made s s' ref -> (forall q, asked s' q -> asked s q) -> Q ref s') ->
  wp (Serialize body_of e q) Q s.
Proof.
  intros H Hp Hq HQ. unfold Serialize. destruct (prepared_good (body_of q) (body_nonempty q)) as (h & Eh & Hg & Hz).
  apply wp_bind. eapply wp_lift; [done|]. eapply (wp_new_request p w); [done..|].
  intros ref s' H' K' [Hnd Hp'] Hr Hnh Hd ->. apply HQ; [done|done| |done|done| |done].
  2:{ exists (new_request e (h ++ body_of q)), q. split_and!; [done|done|]. unfold size_of, init_of.
      cbn [buffer needsLayer new_request]. rewrite andb_false_r. cbn [length]. rewrite Z.add_0_r.
      apply Z.add_le_mono_l. apply (prepare_length _ _ Eh). }
  split.
  - apply NoDup_app. split_and!; [done| |apply NoDup_singleton]. by intros x Hx ->%list_elem_of_singleton.
  - intros x [Hx| ->%list_elem_of_singleton]%elem_of_app; [by apply Hp'|]. by exists (new_request e (h ++ body_of q)).
Qed.

(** What a step of preparing does: the requests [p] of the session become [p']. *)
Definition steps (p p' w : list Z) (s s' : session) : Prop :=
  inv w s' /\ keeps [] w w s s' /\ pending p' w s' /\ generated s' = generated s
  /\ toSend (tb s') = toSend (tb s) /\ (forall r, r ∈ p' -> r ∈ p \/ made s s' r)
  /\ (forall q, asked s' q -> asked s q).

Lemma steps_trans (p p' p'' w : list Z) (s s' s'' : session) :
  steps p p' w s s' -> steps p' p'' w s' s'' -> steps p p'' w s s''.
Proof.
  intros (H1 & K1 & P1 & G1 & L1 & M1 & A1) (H2 & K2 & P2 & G2 & L2 & M2 & A2).
  split_and!; [done|by eapply keeps_trans|done|congruence|congruence| |auto].
  intros r [[|M]%M1|(d & q & Hd & Hq & Hs)]%M2; [by left|right; by eapply made_keeps|right; exists d, q; auto].
Qed.

Lemma steps_unseen (p p' w : list Z) (s s' s'' : session) :
  steps p p' w s s' -> tb s'' = tb s' -> generated s'' = generated s' -> log s' `prefix_of` log s'' ->
  (forall q, asked s'' q -> asked s' q) -> steps p p' w s s''.
Proof.
  intros Hs Et Eg El Ea. eapply steps_trans; [exact Hs|]. destruct Hs as (H & K & P & _ & _).
  destruct (unseen_inv w s' s'' (unseen_tb _ _ Et Eg El) H) as [H' K'].
  split_and!; [done|apply K'| |done|by rewrite Et|by left|done]. eapply pending_keeps; [apply K'|by intros r _ ?%not_elem_of_nil|done].
Qed.

Lemma steps_modify (p p' w : list Z) (s s' : session) (g : session -> session) (Q : unit -> session -> Prop) :
  steps p p' w s s' -> tb (g s') = tb s' -> generated (g s') = generated s' -> log s' `prefix_of` log (g s') ->
  (forall q, asked (g s') q -> asked s' q) -> (steps p p' w s (g s') -> Q tt (g s')) -> wp (modify g) Q s'.
Proof. intros Hs Et Eg El Ea HQ. apply wp_modify, HQ. by eapply steps_unseen. Qed.

Lemma steps_if (p p' w : list Z) (s s' : session) (c : bool) (g : session -> session)
    (Q : unit -> session -> Prop) :
  steps p p' w s s' -> tb (g s') = tb s' -> generated (g s') = generated s' -> log s' `prefix_of` log (g s') ->
  (forall q, asked (g s') q -> asked s' q) -> (forall s'', steps p p' w s s'' -> Q tt s'') -> wp (if c then modify g else ret tt) Q s'.
Proof.
  intros Hs Et Eg El Ea HQ. destruct c; [|by apply wp_ret, HQ]. eapply steps_modify; [exact Hs|done..|]. apply HQ.
Qed.

Lemma steps_refl (p w : list Z) (s : session) : inv w s -> pending p w s -> steps p p w s s.
Proof. intros. split_and!; [done|apply keeps_refl|done|done|done|by left|done]. Qed.

Lemma steps_serialize (p w : list Z) (s : session) (q : service) (Q : Z -> session -> Prop) :
  inv w s -> pending p w s -> asked s q -> (forall ref s', steps p (p ++ [ref]) w s s' -> Q ref s') ->
  wp (Serialize body_of e q) Q s.
Proof.
  intros H Hp Hq HQ. eapply (wp_serialize p w); [done..|]. intros ref s' H' K' P' G' L' M' A'. apply HQ.
  split_and!; [done..| |done]. intros r [Hr| ->%list_elem_of_singleton]%elem_of_app; [by left|by right].
Qed.

Lemma steps_prepare_for {A} (p w : list Z) (s : session) (l : list A) (q : list A -> service)
    (Q : option Z -> session -> Prop) :
  inv w s -> pending p w s -> asked s (q l) -> (forall o s', steps p (p ++ opt_list o) w s s' -> Q o s') ->
  wp (prepareFor body_of e l q) Q s.
Proof.
  intros H Hp Hq HQ. unfold prepareFor. case_bool_decide.
  - apply wp_ret, HQ. cbn. rewrite app_nil_r. by apply steps_refl.
  - apply wp_bind. eapply steps_serialize; [done..|]. intros ref s' Hs. by apply wp_ret, HQ.
Qed.

Lemma steps_prepare_ping (w : list Z) (s : session) (Q : option Z -> session -> Prop) :
  inv w s -> (forall o s', steps [] (opt_list o) w s s' -> Q o s') ->
  wp (preparePing body_of e) Q s.
Proof.
  intros H HQ. assert (pending [] w s) as Hp by (split; [apply NoDup_nil_2|by intros r ?%not_elem_of_nil]).
  unfold preparePing. apply wp_bind, wp_gets. destruct (negb _).
  2:{ apply wp_ret, HQ. by apply steps_refl. }
  apply wp_bind.
  assert (forall ref s', steps [] [ref] w s s' ->
    wp (modify (set_sp (fun p => mk_special (pingIdToSend p) 0 (now e + kPingSendAfter) (pingMsgId p)
          (bindMsgId p) (bindMessageSent p))) ;;; ret (Some ref)) Q s') as Hend.
  { intros ref s' Hs. apply wp_bind, wp_modify, wp_ret, HQ. by eapply steps_unseen. }
  destruct (_ || _).
  - eapply steps_serialize; [done..|]. apply Hend.
  - apply wp_bind. eapply steps_serialize; [done..|]. intros ref s' Hs. apply wp_bind, wp_modify, wp_ret, Hend.
    eapply steps_unseen; [done..|by eexists|done].
Qed.

(** The request that binds the temporary key shares its id with no request. *)
Definition bind_ok (w : list Z) (s : session) : Prop := forall b, bindRequest e = Some b ->
  good_buffer b /\ forall r d, held w s r -> heap (tb s) !! r = Some d -> msgId d <> long 4 b.

Lemma bind_ok_keeps (w : list Z) (s s' : session) :
  inv w s -> keeps [] w w s s' -> bind_ok w s -> bind_ok w s'.
Proof.
  intros H [Hh Hd _ _] Hb b Eb. destruct (Hb b Eb) as [Hg Hn]. split; [done|]. intros r d Hr%Hh Hrd.
  destruct (inv_held _ _ H r Hr) as (d0 & Hd0 & _). destruct (Hd r d0 Hd0) as (d1 & Hd1 & _ & _ & E).
  rewrite E in Hd1 by apply not_elem_of_nil. assert (d = d0) as -> by congruence. by eapply Hn.
Qed.

Lemma set_seq_spec (b : list Z) (seqNo : Z) : good_buffer b ->
  exists b2, setSeqNo seqNo b = Some b2 /\ good_buffer b2 /\ long 4 b2 = long 4 b.
Proof.
  intros Hg. pose proof (proj1 Hg) as Hb. pose proof (proj1 (has_body_length b) Hb) as Hl. unfold setSeqNo. rewrite Hb.
  assert (forall i, i <> 6%nat -> word i (put_at kSeqNoPosition [seqNo] b) = word i b) as W.
  { intros i Hi. rewrite put_at_word by (simpl; unfold kSeqNoPosition; lia).
    case_bool_decide as Hc; [|done]. simpl in Hc. unfold kSeqNoPosition in Hc. lia. }
  eexists. split_and!; [done| |unfold long; by rewrite !W].
  apply (good_same b); [done| |by rewrite W]. rewrite put_at_length; [done|simpl; unfold kSeqNoPosition; lia].
Qed.

(** The requests of the session, the binding request apart. *)
Definition own_requests (v : services) : list Z :=
  opt_list (pingRequest v) ++ opt_list (ackRequest v) ++ opt_list (resendRequest_ v)
  ++ opt_list (stateRequest v) ++ opt_list (httpWaitRequest v).

Definition services_ok (w : list Z) (s : session) (v : services) : Prop :=
  pending (own_requests v) w s /\ forall r, bindDcKeyRequest v = Some r ->
    (exists d, heap (tb s) !! r = Some d /\ needsLayer d = false /\ requestId d = 0)
    /\ lone w s r /\ ~ held w s r /\ ~ r ∈ own_requests v.

Lemma prepare_services_spec (w : list Z) (s : session) (Q : services -> session -> Prop) :
  inv w s -> bind_ok w s ->
  (forall v s', inv w s' -> keeps [] w w s s' -> generated s' = generated s -> toSend (tb s') = toSend (tb s) ->
     services_ok w s' v -> (forall r, r ∈ own_requests v -> made s s' r) ->
     (is_Some (bindDcKeyRequest v) -> hasKeyCreator e = true) -> Q v s') ->
  wp (prepareServices body_of e) Q s.
Proof.
  intros H Hbind HQ. unfold prepareServices.
  apply wp_bind. apply (steps_prepare_ping w); [done|]. intros ping s1 T1.
  destruct (sendOnlyFirstPing e).
  { apply wp_ret. destruct T1 as (H1 & K1 & P1 & G1 & L1 & M1 & _). apply HQ; [done..| | |by intros []].
    - split; [|done]. unfold own_requests. cbn. by rewrite app_nil_r.
    - unfold own_requests. cbn. rewrite app_nil_r. by intros r [?%not_elem_of_nil|]%M1. }
  apply wp_bind, wp_gets. apply wp_bind. eapply steps_prepare_for; [apply T1..|by left|]. intros ack s2 T2.
  pose proof (steps_trans _ _ _ _ _ _ _ T1 T2) as T2'. clear T1 T2.
  apply wp_bind. eapply steps_modify; [exact T2'|done|done|done|intros []; cbn; tauto|]. clear T2'. intros T2'.
  apply wp_bind, wp_gets. apply wp_bind. eapply steps_prepare_for; [apply T2'..|by left|]. intros resend s3 T3.
  pose proof (steps_trans _ _ _ _ _ _ _ T2' T3) as T3'. clear T2' T3.
  apply wp_bind. eapply steps_modify; [exact T3'|done|done|done|intros []; cbn; tauto|]. clear T3'. intros T3'.
  apply wp_bind, wp_gets. apply wp_bind. eapply steps_prepare_for; [apply T3'..|by left|]. intros state s4 T4.
  pose proof (steps_trans _ _ _ _ _ _ _ T3' T4) as T4'. clear T3' T4.
  apply wp_bind. eapply steps_modify; [exact T4'|done|done|done|intros []; cbn; tauto|]. clear T4'. intros T4'.
  apply wp_bind.
  assert (forall http s5, steps [] ((((opt_list ping ++ opt_list ack) ++ opt_list resend) ++ opt_list state)
     ++ opt_list http) w s s5 -> wp (p <- gets sp ;;
        bindKey <- match bindRequest e with
          | Some b => if (bindMsgId p =? 0) && hasKeyCreator e then
                ack <- lift (needAck b) ;; seqNo <- nextRequestSeqNumber ack ;; b <- lift (setSeqNo seqNo b) ;;
                ref <- allocate (new_request e b) ;; ret (Some ref) else ret None
          | None => ret None end ;;
        ret (mk_services ping ack resend state http bindKey)) Q s5) as Hbindkey.
  { intros http s5 (H5 & K5 & P5 & G5 & L5 & M5 & A5). rewrite <- !app_assoc in P5, M5.
    assert (wp (ret (mk_services ping ack resend state http None)) Q s5) as Hnone.
    { apply wp_ret, HQ; [done..| | |by intros []]; [by split|]. by intros r [?%not_elem_of_nil|]%M5. }
    apply wp_bind, wp_gets. destruct (bindRequest e) as [b|] eqn:Eb; [|apply wp_bind, wp_ret, Hnone].
    destruct (_ && _) eqn:Ekey; [|apply wp_bind, wp_ret, Hnone]. apply andb_true_iff in Ekey as [_ Ekey].
    destruct (bind_ok_keeps _ _ _ H K5 Hbind b Eb) as [Hg Hb]. destruct (need_ack_some b Hg) as [a Ha].
    apply wp_bind, wp_bind. eapply wp_lift; [done|]. apply wp_bind, wp_next_seq.
    set (s6 := set_counter _ _ _ s5). destruct (set_seq_spec b (wrapu 32 (messagesCounter s5 * 2 + if a then 1 else 0)) Hg)
      as (b2 & E2 & Hg2 & L2).
    assert (steps (own_requests (mk_services ping ack resend state http None))
      (own_requests (mk_services ping ack resend state http None)) w s5 s6) as T6
      by (by apply (steps_unseen _ _ _ _ s5 s6); [apply steps_refl|..]).
    destruct T6 as (H6 & K6 & P6 & G6 & L6 & _ & _).
    apply wp_bind. eapply wp_lift; [done|]. apply wp_bind. eapply wp_new_request; [exact H6|exact P6|done|].
    intros ref s7 H7 K7 P7 Hr Hnh Hd E7. apply wp_ret, wp_ret.
    apply HQ; [done|by eapply keeps_trans, keeps_trans|by rewrite E7, <- G5|by rewrite E7, <- L5| | |done].
    2:{ intros r Hr0. destruct (M5 r Hr0) as [?%not_elem_of_nil|M]; [done|].
        eapply made_keeps; [eapply keeps_trans; [exact K6|exact K7]|exact M]. }
    split; [done|]. intros r [= <-]. split_and!; [eauto| |done|done]. right. split; [done|].
    intros d r' d' Hd' Hr' Hrd' _ E. assert (d = new_request e b2) as -> by congruence.
    apply (keeps_held _ _ _ _ _ K7) in Hr'. assert (r' <> ref) by (intros ->; by apply Hnh, (keeps_held _ _ _ _ _ K7)).
    rewrite E7 in Hrd'. cbn in Hrd'. rewrite lookup_insert_ne in Hrd' by done.
    apply (Hb r' d' Hr' Hrd'). rewrite E. unfold msgId. cbn. done. }
  destruct (usingHttpWait e).
  - apply wp_bind. eapply steps_serialize; [apply T4'..|done|]. intros ref s5 T5. apply wp_ret, Hbindkey.
    eapply steps_trans; [exact T4'|exact T5].
  - apply wp_ret, Hbindkey. cbn. by rewrite app_nil_r.
Qed.

(** ** The branch with a container *)

(** The line cleared. *)
Lemma clear_line (w : list Z) (s : session) :
  let s' := set_tb (set_toSend ∅) s in
  sendAll e = true -> inv w s ->
  inv w s' /\ keeps [] w w s s' /\ forall n b, fresh n w s b -> fresh n w s' b.
Proof.
  intros s' Hall H. split_and!; [destruct H; by split| |done].
  split; [done|intros r d Hd; by exists d|done|by right|done].
Qed.

Lemma wp_clear (w : list Z) (s : session) (Q : unit -> session -> Prop) :
  inv w s ->
  (forall s', inv w s' -> keeps [] w w s s' -> (forall n b, fresh n w s b -> fresh n w s' b) ->
     log s' = log s -> sentContainers (tb s') = sentContainers (tb s) ->
     (sendAll e = true -> toSend (tb s') = ∅) -> Q tt s') ->
  wp (if sendAll e then modify (set_tb (set_toSend ∅)) else ret tt) Q s.
Proof.
  intros H HQ. destruct (sendAll e) eqn:E.
  - destruct (clear_line w s) as (H' & K' & F'); [done|done|]. by apply wp_modify, HQ.
  - apply wp_ret, HQ; try done. apply keeps_refl.
Qed.

(** The record of a container that is sent. *)
Lemma record_container (w : list Z) (s : session) (m : Z) (c : SentContainer) :
  inv w s -> used s m ->
  let s' := set_tb (fun t => set_sentContainers (emplace m c (sentContainers t)) t) s in
  inv w s' /\ forall l, keeps l w w s s'.
Proof.
  intros H Hm s'. split.
  - destruct H as [H1 H2 H3 H4 H5 H6 H7]. split; try done.
    intros k [Hk|[Hk|Hk]]; [apply H7; by left|apply H7; right; by left|]. cbn in Hk.
    destruct (decide (m = k)) as [<-|Hne]; [done|]. rewrite lookup_emplace_ne in Hk by done.
    apply H7. by right; right.
  - intros l. split; [done| |done|by left|done]. intros r d Hd. by exists d.
Qed.

(** What is known of the container sent: its record lists the requests inside,
    and its buffer reads as their messages. *)
Definition container_sent (s s' : session) (refs ids : list Z) (total : Z) (ms : list message) : Prop :=
  exists m, sentContainers (tb s') !! m = Some (mk_container (now e) ids)
    /\ (2 + total < 2 ^ 30 -> exists b more, log s' = log s ++ more /\ SendData b ∈ more
        /\ good_buffer b /\ m_id (message_of b) = m
        /\ m_body (message_of b) = mtpc_msg_container :: Z.of_nat (length refs) :: packs ms).

Lemma keeps_new (c : Z) (w w' w'' : list Z) (s s1 s' : session) :
  heap (tb s) !! c = None -> keeps [] w w' s s1 -> keeps [c] w' w'' s1 s' -> keeps [] w w'' s s'.
Proof.
  intros Hc K1 K2. assert (keeps [c] w w'' s s') as [Hh Hd Hs Hl Hlog].
  { eapply keeps_trans; [eapply keeps_more, K1; by intros ? ?%not_elem_of_nil|done]. }
  split; [done| |done|done|done]. intros r d Hr. destruct (Hd r d Hr) as (d' & Hd' & E & X & K).
  exists d'. split_and!; [done|done|done|]. intros _. apply K. intros ->%list_elem_of_singleton. congruence.
Qed.

(** The rest of [sendContainer] when all the messages are in. *)
Lemma wp_finish (n : nat) (w : list Z) (s : session) (f : filling) (force : bool) (refs : list Z) (total : Z)
    (ms : list message) (Q : unit -> session -> Prop) :
  inv w s -> fresh n w s (bigMsgId f) -> 0 <= total ->
  packed (wrapu 32 (Z.shiftl (2 + total) 2)) (Z.of_nat (length refs)) total ms (out f) ->
  (forall s', inv w s' -> keeps [] w w s s' -> container_sent s s' refs (sentIds f) total ms -> Q tt s') ->
  wp (container <- allocate (new_request e (out f)) ;;
      containerMsgId <- prepareToSend msg_id fuel container (bigMsgId f) force ;;
      modify (set_tb (fun t => set_sentContainers
        (emplace containerMsgId (mk_container (now e) (sentIds f)) (sentContainers t)) t)) ;;;
      timer <- gets checkTimerActive ;;
      (if negb (bool_decide (sentIds f = [])) && negb timer
       then tell (CheckSentRequestsIn kCheckSentRequestTimeout) ;;; modify (set_timer true) else ret tt) ;;;
      sendSecureRequest e container (needAnyResponse f) ;;; ret tt) Q s.
Proof.
  intros H Hb Ht Hp HQ. pose proof (packed_good _ _ _ _ Ht Hp) as Hg.
  assert (good_request (heap (tb s)) (new_request e (out f))) as Hgr by done.
  apply wp_bind. eapply (wp_allocate w); [done|done|]. intros c s1 Hc E1 H1 K1 Hnh Hfr.
  assert (heap (tb s1) !! c = Some (new_request e (out f))) as Hc1 by (rewrite E1; apply lookup_insert_eq).
  assert (msgId (new_request e (out f)) = 0) as Hz by by apply packed_no_id in Hp.
  assert (lone w s1 c) as Hl by (right; split; [done|intros; congruence]).
  apply Hfr in Hb. apply wp_bind. eapply (prepare_spec n w); [done|done|done|done|].
  intros m s2 Hprep. pose proof (inv_prepared _ _ _ _ _ _ _ H1 Hl Hb Hprep) as H2.
  pose proof (prepared_keeps w _ _ _ _ _ Hprep) as K2.
  destruct (prep_data _ _ _ _ _ Hprep) as (d & d2 & Hd & Eh & Hsame & Hm & Hor).
  assert (d = new_request e (out f)) as -> by congruence. assert (m = bigMsgId f) as -> by (destruct Hor as [|[]]; congruence).
  apply wp_bind, wp_modify. set (rec := mk_container (now e) (sentIds f)).
  destruct (record_container w s2 (bigMsgId f) rec H2) as [H3 K3].
  { apply (prepared_used _ _ _ _ _ _ Hprep), Hb. }
  set (s3 := set_tb _ s2) in *.
  assert (sentContainers (tb s3) !! bigMsgId f = Some rec) as Hrec.
  { cbn. rewrite emplace_fresh; [apply lookup_insert_eq|]. apply eq_None_not_Some. intros Hk%(prep_containers _ _ _ _ _ Hprep).
    apply (proj1 (proj2 (proj2 Hb))). by right; right. }
  assert (log s3 = log s) as Elog by (cbn; by rewrite (prep_log _ _ _ _ _ Hprep), E1).
  apply wp_bind, wp_gets, wp_bind.
  assert (forall s4 more, tb s4 = tb s3 -> generated s4 = generated s3 -> log s4 = log s ++ more ->
    wp (sendSecureRequest e c (needAnyResponse f) ;;; ret tt) Q s4) as Hsend.
  { intros s4 more Et Eg El. destruct (unseen_inv w s3 s4 (unseen_tb _ _ Et Eg ltac:(rewrite El, Elog; by eexists)) H3) as [H4 K4].
    apply wp_bind. eapply (wp_send_secure w s4 c d2); [done|by rewrite Et; cbn; rewrite Eh, lookup_insert_eq|].
    intros ok s5 H5 K5 Ec _ Hlog. apply wp_ret, HQ; [done| |].
    - eapply (keeps_new c); [done|exact K1|]. eapply keeps_trans; [exact K2|]. eapply keeps_trans; [apply K3|].
      eapply keeps_trans; [apply K4|exact K5].
    - exists (bigMsgId f). split; [by rewrite Ec, Et|]. intros Hsmall.
      assert (wrapu 32 (Z.shiftl (2 + total) 2) = 4 * (2 + total)) as Ew.
      { rewrite Z.shiftl_mul_pow2 by lia. unfold wrapu. rewrite Z.mod_small; lia. }
      destruct (container_body _ _ _ _ _ Hp Ew Ht) as [H8 Hbody].
      destruct Hsame as (_ & _ & _ & _ & Hg2 & _ & E7 & E8 & _). cbn [buffer new_request] in E7, E8.
      destruct Hlog as (b & -> & Hgb & Eb); [lia|]. exists b. eexists. rewrite El, <- app_assoc. split; [done|].
      split_and!; [apply elem_of_app; right; by left|done|by rewrite Eb, <- Hm|]. rewrite Eb, <- Hbody. unfold message_of. cbn [m_body].
      by rewrite E7, E8. }
  destruct (_ && _).
  - apply wp_bind, wp_modify, wp_modify. apply (Hsend _ [CheckSentRequestsIn kCheckSentRequestTimeout]); [done|done|].
    cbn. by rewrite <- Elog.
  - apply wp_ret, (Hsend _ []); [done|done|]. by rewrite app_nil_r.
Qed.

(** Where the filling of a container is: the requests [dn] are in, the requests
    [todo] of the session are left, with [n] others. *)
Record progress (n : nat) (w w' : list Z) (s s' : session) (dn todo : list Z) (afters : list (option Z)) (f f' : filling) : Prop := {
  progress_inv : inv w' s';
  progress_keeps : keeps dn w w' s s';
  progress_fresh : fresh (length todo + n) w' s' (bigMsgId f');
  progress_grows : grows s s' dn afters f f';
  progress_todo : pending todo w' s' }.

Lemma progress_step (n n' : nat) (w w1 w2 : list Z) (s s1 s2 : session) (dn l todo todo' : list Z)
    (a1 a2 : list (option Z)) (f f1 f2 : filling) :
  progress n w w1 s s1 dn todo a1 f f1 -> keeps l w1 w2 s1 s2 -> grows s1 s2 l a2 f1 f2 ->
  (forall r, r ∈ l -> ~ r ∈ dn /\ is_Some (heap (tb s) !! r)) ->
  inv w2 s2 -> fresh (length todo' + n') w2 s2 (bigMsgId f2) -> pending todo' w2 s2 ->
  progress n' w w2 s s2 (dn ++ l) todo' (a1 ++ a2) f f2.
Proof.
  intros [H1 K1 F1 G1 P1] K2 G2 Hl H2 F2 P2. split; [done| |done| |done].
  - eapply keeps_trans; [eapply keeps_more, K1|eapply keeps_more, K2]; intros r Hr; apply elem_of_app; auto.
  - eapply grows_trans; [exact K1|exact K2| | |done|done].
    + intros r Hr Hr'. by apply (Hl r Hr').
    + intros r Hr. by apply Hl.
Qed.

Lemma progress_service (n : nat) (w w' : list Z) (s s' : session) (dn todo : list Z) (afters : list (option Z)) (f f' : filling)
    (force response : bool) (request : option Z) (note : Z -> Z -> M session unit) (Q : filling -> session -> Prop) :
  progress n w w' s s' dn (opt_list request ++ todo) afters f f' ->
  (forall r, r ∈ opt_list request -> ~ r ∈ dn /\ is_Some (heap (tb s) !! r)) ->
  (forall m r s0, wp (note m r) (fun _ s1 => unseen s0 s1) s0) ->
  (forall f'' s'', progress n w w' s s'' (dn ++ opt_list request) todo (afters ++ plain (opt_list request)) f f'' -> sentIds f'' = sentIds f' ->
     keeps (opt_list request) w' w' s' s'' -> Q f'' s'') ->
  wp (placeService msg_id fuel f' force request note response) Q s'.
Proof.
  intros Hp Hr Hnote HQ. destruct (Hp) as [H1 K1 F1 G1 P1]. rewrite length_app, <- Nat.add_assoc in F1.
  eapply (place_service_spec (length todo + n) w'); [done|exact F1| |done|].
  - intros r ->. destruct (proj2 P1 r) as (d & Hd & Hz & Hn & Hnl & Hi); [by left|].
    split; [by exists d|]. apply own_lone. by exists d.
  - intros f'' s'' H2 K2 F2 G2 E2. apply HQ; [|done|done].
    eapply progress_step; [exact Hp|done..|]. by eapply pending_placed.
Qed.

Lemma wp_sizes (w : list Z) (s : session) (refs : list Z) (Q : Z -> session -> Prop) :
  inv w s -> (forall r, r ∈ refs -> is_Some (heap (tb s) !! r)) -> Q (sizes s refs) s ->
  wp (sizesInContainer kCurrentLayer initWrapper e refs) Q s.
Proof.
  intros H. revert Q. induction refs as [|r refs IH]; intros Q Hr HQ; cbn [sizesInContainer]; [by apply wp_ret|].
  destruct (Hr r) as [d Hd]; [by left|]. destruct (inv_heap _ _ H r d Hd) as [Hg _ _].
  destruct (good_lengths d Hg) as (len & _ & Hsize & ->).
  apply wp_bind. unfold sizeInContainer. apply wp_bind. eapply wp_deref; [done|]. apply wp_bind.
  eapply wp_lift; [exact Hsize|]. apply wp_ret, wp_bind. apply IH; [intros; apply Hr; by right|]. apply wp_ret.
  rewrite sizes_cons, Hd in HQ. change (from_option size_of 0 (Some d)) with (size_of d) in HQ.
  unfold size_of, init_of in HQ. rewrite shiftr2. unfold kMessageHeaderInts.
  destruct (needsLayerNow e && needsLayer d); exact HQ.
Qed.

Lemma sizes_nonneg (w : list Z) (s : session) (refs : list Z) : inv w s -> 0 <= sizes s refs.
Proof.
  intros H. induction refs as [|r refs IH]; [done|]. rewrite sizes_cons.
  destruct (heap (tb s) !! r) as [d|] eqn:Hd; cbn [from_option]; [|done].
  destruct (inv_heap _ _ H r d Hd) as [[_ (H7 & _)] _ _]. unfold size_of.
  assert (0 <= word 7 (buffer d) / 4) by (apply Z.div_pos; lia). lia.
Qed.

Lemma sizes_perm (s : session) (l l' : list Z) : l ≡ₚ l' -> sizes s l = sizes s l'.
Proof. induction 1; rewrite ?sizes_cons; lia. Qed.

(** The requests of a container in the order they are placed. *)
Definition placed (v : services) (l : list Z) : list Z :=
  opt_list (bindDcKeyRequest v) ++ opt_list (pingRequest v) ++ l ++ opt_list (stateRequest v)
  ++ opt_list (resendRequest_ v) ++ opt_list (ackRequest v) ++ opt_list (httpWaitRequest v).

Lemma service_refs_own (v : services) : service_refs v = own_requests v ++ opt_list (bindDcKeyRequest v).
Proof. destruct v as [[] [] [] [] [] []]; done. Qed.

Lemma placed_perm (v : services) (l : list Z) : placed v l ≡ₚ service_refs v ++ l.
Proof. rewrite service_refs_own. unfold placed, own_requests. solve_Permutation. Qed.

Lemma elem_opt_list (o : option Z) (r : Z) : r ∈ opt_list o <-> o = Some r.
Proof.
  destruct o as [x|]; unfold opt_list; [rewrite list_elem_of_singleton|rewrite elem_of_nil]; split; congruence || done.
Qed.

Lemma placed_fresh (v : services) (l w0 : list Z) (s : session) :
  inv (l ++ w0) s -> services_ok (l ++ w0) s v ->
  NoDup (placed v l) /\ forall r, r ∈ placed v l -> is_Some (heap (tb s) !! r).
Proof.
  intros H [[Hnd Hown] Hbind].
  assert (forall r, r ∈ l -> held (l ++ w0) s r) as Hl by (intros r Hr; left; apply elem_of_app; by left).
  pose proof (placed_perm v l) as Ep. rewrite service_refs_own, <- app_assoc in Ep. rewrite Ep. split.
  - apply NoDup_app. split_and!; [done| |].
    + intros r Hr [Hb%elem_opt_list|Hb]%elem_of_app; [by apply (Hbind r Hb)|].
      destruct (Hown r Hr) as (d & _ & _ & Hn & _). by apply Hn, Hl.
    + apply NoDup_app. split_and!; [destruct (bindDcKeyRequest v); [apply NoDup_singleton|apply NoDup_nil_2]| |].
      * intros r Hr%elem_opt_list Hb. destruct (Hbind r Hr) as (_ & _ & Hn & _). by apply Hn, Hl.
      * destruct (inv_wait _ _ H) as [Hw _]. by apply NoDup_app in Hw as [? _].
  - intros r Hr. rewrite Ep in Hr. apply elem_of_app in Hr as [Hr|[Hr%elem_opt_list|Hr]%elem_of_app].
    + destruct (Hown r Hr) as (d & Hd & _). eauto.
    + destruct (Hbind r Hr) as ((d & Hd & _) & _). eauto.
    + destruct (inv_held _ _ H r (Hl r Hr)) as (d & Hd & _). eauto.
Qed.

Lemma note_unseen_bind (m r : Z) (s : session) : wp (set_bind e m) (fun _ s1 => unseen s s1) s.
Proof. by apply wp_modify, unseen_tb. Qed.
Lemma note_unseen_ping (m r : Z) (s : session) : wp (set_ping m) (fun _ s1 => unseen s s1) s.
Proof. by apply wp_modify, unseen_tb. Qed.
Lemma note_unseen_state (m r : Z) (s : session) : wp (note_state_request m r) (fun _ s1 => unseen s s1) s.
Proof. by apply wp_modify. Qed.
Lemma note_unseen_none (m r : Z) (s : session) : wp (ret tt) (fun _ s1 => unseen s s1) s.
Proof. by apply wp_ret, unseen_tb. Qed.

Lemma services_keep (w : list Z) (s s' : session) (v : services) :
  tb s' = tb s -> services_ok w s v -> services_ok w s' v.
Proof. unfold services_ok, pending, own, lone, held. by intros ->. Qed.

(** The part of a filled container that follows the requests in line. *)
Lemma wp_services_after {B} (w w0 : list Z) (s s1 : session) (v : services) (dn : list Z) (afters : list (option Z)) (f f1 : filling)
    (force : bool) (k : filling -> M session B) (Q : B -> session -> Prop) :
  let later := opt_list (stateRequest v) ++ opt_list (resendRequest_ v) ++ opt_list (ackRequest v)
    ++ opt_list (httpWaitRequest v) in
  progress 0 w w0 s s1 dn later afters f f1 -> NoDup (dn ++ later) ->
  (forall r, r ∈ later -> is_Some (heap (tb s) !! r)) ->
  (forall f' s', progress 0 w w0 s s' (dn ++ later) [] (afters ++ plain later) f f' -> sentIds f' = sentIds f1 ->
     keeps later w0 w0 s1 s' -> wp (k f') Q s') ->
  wp (f <- placeService msg_id fuel f1 force (stateRequest v) note_state_request true ;;
      f <- placeService msg_id fuel f force (resendRequest_ v) note_state_request true ;;
      f <- placeService msg_id fuel f force (ackRequest v) (fun _ _ => ret tt) false ;;
      f <- placeService msg_id fuel f force (httpWaitRequest v) (fun _ _ => ret tt) false ;; k f) Q s1.
Proof.
  intros later P1 Hnd Hin HQ. unfold later in *. clear later.
  apply wp_bind. eapply progress_service; [exact P1| |apply note_unseen_state|].
  { intros r Hr. split; [|apply Hin, elem_of_app; by left]. intros Hr'.
    apply NoDup_app in Hnd as (_ & Hd & _). apply (Hd r Hr'), elem_of_app. by left. }
  intros f2 s2 P2 E2 K2. rewrite app_assoc in Hnd.
  apply wp_bind. eapply progress_service; [exact P2| |apply note_unseen_state|].
  { intros r Hr. split; [|apply Hin; rewrite !elem_of_app; auto]. intros Hr'.
    apply NoDup_app in Hnd as (_ & Hd & _). apply (Hd r Hr'), elem_of_app. by left. }
  intros f3 s3 P3 E3 K3. rewrite (app_assoc (dn ++ _)) in Hnd.
  apply wp_bind. eapply progress_service; [exact P3| |apply note_unseen_none|].
  { intros r Hr. split; [|apply Hin; rewrite !elem_of_app; auto]. intros Hr'.
    apply NoDup_app in Hnd as (_ & Hd & _). apply (Hd r Hr'), elem_of_app. by left. }
  intros f4 s4 P4 E4 K4. rewrite (app_assoc ((dn ++ _) ++ _)) in Hnd.
  rewrite <- (app_nil_r (opt_list (httpWaitRequest v))) in P4.
  apply wp_bind. eapply progress_service; [exact P4| |apply note_unseen_none|].
  { intros r Hr. split; [|apply Hin; rewrite !elem_of_app; auto]. intros Hr'.
    apply NoDup_app in Hnd as (_ & Hd & _). by apply (Hd r Hr'). }
  intros f5 s5 P5 E5 K5. apply HQ.
  - rewrite <- !app_assoc in P5. unfold plain in *. by rewrite <- !fmap_app in P5.
  - congruence.
  - eapply keeps_trans; [eapply keeps_more, K2|eapply keeps_trans; [eapply keeps_more, K3|
      eapply keeps_trans; [eapply keeps_more, K4|eapply keeps_more, K5]]];
    intros r Hr; rewrite !elem_of_app; auto.
Qed.

(** The part up to the requests in line, and the line cleared. *)
Lemma wp_services_before {B} (v : services) (l w0 : list Z) (s : session) (f : filling) (force : bool)
    (k : filling -> M session B) (Q : B -> session -> Prop) :
  let before := opt_list (bindDcKeyRequest v) ++ opt_list (pingRequest v) ++ l in
  let later := opt_list (stateRequest v) ++ opt_list (resendRequest_ v) ++ opt_list (ackRequest v)
    ++ opt_list (httpWaitRequest v) in
  inv (l ++ w0) s -> services_ok (l ++ w0) s v ->
  fresh (length (service_refs v) + length l) (l ++ w0) s (bigMsgId f) ->
  (forall f' s' ids afters,
     progress 0 (l ++ w0) w0 s s' before later
       (plain (opt_list (bindDcKeyRequest v)) ++ plain (opt_list (pingRequest v)) ++ afters) f f' ->
     invocations (service_refs v) s s' [] l afters -> sentIds f' = sentIds f ++ ids ->
     Forall2 (fun r m => haveSent (tb s') !! m = Some r) l ids -> (sendAll e = true -> toSend (tb s') = ∅) ->
     wp (k f') Q s') ->
  wp (f <- placeService msg_id fuel f false (bindDcKeyRequest v) (fun msgId _ => set_bind e msgId) true ;;
      f <- placeService msg_id fuel f force (pingRequest v) (fun msgId _ => set_ping msgId) true ;;
      f <- placeRequests msg_id kCurrentLayer initWrapper fuel e force f l ;;
      (if sendAll e then modify (set_tb (set_toSend ∅)) else ret tt) ;;; k f) Q s.
Proof.
  intros before later H Hv F1 HQ. destruct (placed_fresh v l w0 s H Hv) as [Hnd Hin]. destruct Hv as [Hown Hbind].
  assert (own_requests v ≡ₚ opt_list (pingRequest v) ++ later) as Eown by (unfold own_requests, later; solve_Permutation).
  rewrite service_refs_own, length_app, (Nat.add_comm (length (own_requests v))), <- Nat.add_assoc in F1.
  apply wp_bind. eapply (place_service_spec (length (own_requests v) + length l) (l ++ w0)); [done|exact F1| | |].
  { intros r Hr. destruct (Hbind r Hr) as ((d & Hd & Hnl & _) & Hl & _). eauto. }
  { apply note_unseen_bind. }
  intros f2 s2 H2 K2 F2 G2 S2.
  assert (progress (length l) (l ++ w0) (l ++ w0) s s2 (opt_list (bindDcKeyRequest v))
    (opt_list (pingRequest v) ++ later) (plain (opt_list (bindDcKeyRequest v))) f f2) as P2.
  { split; [done|done|by rewrite <- (Permutation_length Eown)|done|].
    eapply pending_keeps; [exact K2| |by eapply pending_perm]. intros r Hr Hr'%elem_opt_list.
    destruct (Hbind r Hr') as (_ & _ & _ & Hn). apply Hn. by rewrite Eown. }
  unfold placed in Hnd, Hin. fold later in Hnd, Hin.
  apply wp_bind. eapply progress_service; [exact P2| |apply note_unseen_ping|].
  { intros r Hr. split; [|apply Hin; rewrite !elem_of_app; auto]. intros Hr'.
    apply NoDup_app in Hnd as (_ & Hd & _). apply (Hd r Hr'), elem_of_app. by left. }
  intros f3 s3 P3 S3 K23. destruct (P3) as [H3 K3 F3 G3 T3].
  apply wp_bind. apply (place_requests_spec (length later) l w0); [done|by rewrite Nat.add_comm|].
  intros f4 s4 H4 K4 F4 (afters & G4 & Hi) (ids & Eids & Hids).
  assert (progress 0 (l ++ w0) w0 s s4 before later
    (plain (opt_list (bindDcKeyRequest v)) ++ plain (opt_list (pingRequest v)) ++ afters) f f4) as P4.
  { unfold before. rewrite app_assoc, (app_assoc (plain _)).
    eapply progress_step; [exact P3|exact K4|exact G4| |done|by rewrite Nat.add_0_r|].
    - intros r Hr. split; [|apply Hin; rewrite !elem_of_app; auto]. intros Hr'.
      rewrite app_assoc in Hnd. apply NoDup_app in Hnd as (_ & Hd & _). apply (Hd r Hr'), elem_of_app. by left.
    - eapply pending_keeps; [exact K4| |exact T3]. intros r Hr Hr'.
      destruct (proj2 T3 r Hr) as (d & _ & _ & Hn & _). apply Hn. left. apply elem_of_app. by left. }
  apply wp_bind, (wp_clear w0); [done|]. intros s5 H5 K5 F5 _ _ Hclear.
  apply (HQ f4 s5 ids afters); [| |by rewrite Eids, S3, S2| |done].
  2:{ apply (invocations_earlier (service_refs v) [] [] s s3); [by intros x ?%not_elem_of_nil| |].
      - apply map_subseteq_spec. apply (keeps_sent _ _ _ _ _ K3).
      - eapply invocations_keep; [exact H4|exact K5|by intros x ?%not_elem_of_nil|by intros x _ ?%not_elem_of_nil|apply Hi]. }
  - rewrite <- (app_nil_r before), <- (app_nil_r (plain _ ++ _)). eapply progress_step; [exact P4|exact K5|by apply grows_refl| |done| |].
    + by intros r ?%not_elem_of_nil.
    + apply F5, (progress_fresh _ _ _ _ _ _ _ _ _ _ P4).
    + eapply pending_keeps; [exact K5|by intros r _ ?%not_elem_of_nil|]. apply (progress_todo _ _ _ _ _ _ _ _ _ _ P4).
  - eapply Forall2_impl; [exact Hids|]. intros r m. apply (keeps_sent _ _ _ _ _ K5).
Qed.

(** What each request of a container is invoked after: those in line as in
    [afters], those of the session after nothing. *)
Definition placed_after (v : services) (afters : list (option Z)) : list (option Z) :=
  plain (opt_list (bindDcKeyRequest v)) ++ plain (opt_list (pingRequest v)) ++ afters
  ++ plain (opt_list (stateRequest v) ++ opt_list (resendRequest_ v) ++ opt_list (ackRequest v)
       ++ opt_list (httpWaitRequest v)).

Lemma send_container_spec (v : services) (l w0 : list Z) (s : session) (force : bool) (Q : unit -> session -> Prop) :
  inv (l ++ w0) s -> services_ok (l ++ w0) s v -> room (S (length (service_refs v) + length l)) s ->
  (forall ids ms afters s', inv w0 s' -> keeps (placed v l) (l ++ w0) w0 s s' -> (sendAll e = true -> toSend (tb s') = ∅) ->
     container_sent s s' (placed v l) ids (sizes s (placed v l)) ms ->
     Forall3 (message_for s') (placed v l) (placed_after v afters) ms ->
     invocations (service_refs v) s s' [] l afters ->
     Forall2 (fun r m => haveSent (tb s') !! m = Some r) l ids -> Q tt s') ->
  wp (sendContainer msg_id kCurrentLayer initWrapper fuel e v l force) Q s.
Proof.
  intros H Hv Hroom HQ. destruct (placed_fresh v l w0 s H Hv) as [Hnd Hin]. pose proof (placed_perm v l) as Eperm.
  unfold sendContainer. apply wp_bind. apply (wp_sizes (l ++ w0)); [done|by setoid_rewrite <- Eperm|].
  rewrite <- (sizes_perm s _ _ Eperm). set (total := sizes s (placed v l)).
  assert (0 <= total) as Ht by by apply (sizes_nonneg (l ++ w0)).
  apply wp_bind. eapply wp_lift; [unfold Prepare; by rewrite (proj2 (Z.ltb_lt 0 _)) by lia|].
  apply wp_bind. eapply (wp_msg_id _ (l ++ w0)); [done|exact Hroom|].
  intros b s1 E1 H1 F1 _ L1. set (f0 := mk_filling _ b [] false).
  assert (keeps [] (l ++ w0) (l ++ w0) s s1) as K1 by by apply keeps_tb.
  assert (packed (wrapu 32 (Z.shiftl (2 + total) 2)) (Z.of_nat (length (placed v l))) 0 [] (out f0)) as Hp0.
  { exists 0. split_and!; [|done|done]. unfold f0. cbn [out].
    by rewrite (Permutation_length Eperm), length_app, Z.add_0_r. }
  assert (sizes s1 (placed v l) = total) as Et by by apply (sizes_keeps [] (l ++ w0) (l ++ w0)).
  apply (wp_services_before v l w0 s1 f0); [done|by eapply services_keep|exact F1|].
  intros f4 s4 ids afters P4 Hi4 Eids Hids Hclear. rewrite <- E1 in Hin.
  apply (wp_services_after _ _ _ _ _ _ _ _ _ _ _ _ P4).
  { by rewrite <- !app_assoc. }
  { intros r Hr. apply Hin. unfold placed. rewrite !elem_of_app in *. tauto. }
  intros f6 s6 P6 S6 K6. rewrite <- !app_assoc in P6. fold (placed v l) (placed_after v afters) in P6.
  destruct P6 as [H6 K16 F6 G6 _]. destruct (G6 _ _ _ _ Hp0) as (ms & Hp6 & Hms). cbn [app] in Hp6.
  rewrite Z.add_0_l, Et in Hp6.
  eapply (wp_finish _ w0); [done|exact F6|done|exact Hp6|]. intros s7 H7 K7 (m & Hrec & Hsent).
  assert (sentIds f6 = ids) as Es by (by rewrite S6, Eids). rewrite Es in Hrec.
  apply (HQ ids ms afters); [done| | | | | |].
  - eapply keeps_trans; [eapply keeps_more, K1; by intros r ?%not_elem_of_nil|].
    eapply keeps_trans; [exact K16|eapply keeps_more, K7; by intros r ?%not_elem_of_nil].
  - intros Hall. destruct (keeps_line _ _ _ _ _ K7) as [->|[_ ?]]; [|done].
    destruct (keeps_line _ _ _ _ _ K6) as [->|[_ ?]]; [by apply Hclear|done].
  - exists m. split; [done|]. intros Hsmall. destruct (Hsent Hsmall) as (b7 & more & El & Hin7 & Hb7).
    destruct (keeps_log _ _ _ _ _ K16) as [more1 El1]. exists b7, (more1 ++ more).
    rewrite El, El1, L1, <- app_assoc. split_and!; [done|apply elem_of_app; by right|apply Hb7..].
  - eapply messages_keep; [exact K7|by intros r _ ?%not_elem_of_nil|done].
  - apply (invocations_earlier (service_refs v) [] [] s s1); [by intros x ?%not_elem_of_nil|by rewrite E1|].
    eapply invocations_keep; [exact H6|exact K7|by intros x ?%not_elem_of_nil|by intros x _ ?%not_elem_of_nil|].
    eapply invocations_keep; [apply P4|exact K6| | |exact Hi4].
    + intros r Hr. rewrite service_refs_own. unfold own_requests. rewrite !elem_of_app in *. tauto.
    + intros r Hr Hl. unfold placed in Hnd. rewrite (app_assoc _ (opt_list (pingRequest v))) in Hnd.
      apply NoDup_app in Hnd as (_ & _ & Hnd). apply NoDup_app in Hnd as (_ & Hd & _). by apply (Hd r Hr).
  - eapply Forall2_impl; [exact Hids|]. intros r x Hm. cbn beta in Hm.
    apply (keeps_sent _ _ _ _ _ K7), (keeps_sent _ _ _ _ _ K6), Hm.
Qed.

(** ** The branch with a request alone *)

(** A request made from another one, to be sent in its place. *)
Definition stands_for (s s1 : session) (r c : Z) : Prop := c = r \/ heap (tb s) !! c = None.

Lemma stands_new (s s1 : session) (w w' w'' : list Z) (r c : Z) (s' : session) :
  stands_for s s1 r c -> keeps [] w w' s s1 -> keeps [c] w' w'' s1 s' -> keeps [r] w w'' s s'.
Proof.
  intros [->|Hc] K1 K2.
  - eapply keeps_trans; [eapply keeps_more, K1; by intros x ?%not_elem_of_nil|done].
  - eapply keeps_more; [|by eapply (keeps_new c)]. by intros x ?%not_elem_of_nil.
Qed.

(** A wrapping of the request sent instead of it. *)
Lemma wp_wrapped (w : list Z) (s s1 : session) (r : Z) (b : list Z) (Q : Z -> session -> Prop) :
  inv w s1 -> keeps [] w w s s1 -> good_buffer b ->
  (forall c s2, inv w s2 -> keeps [] w w s s2 -> stands_for s s2 r c -> sentContainers (tb s2) = sentContainers (tb s1) ->
     (forall m x, haveSent (tb s1) !! m = Some x -> haveSent (tb s2) !! m = Some x) ->
     heap (tb s2) !! c = Some (new_request e b) -> Q c s2) ->
  wp (allocate (new_request e b)) Q s1.
Proof.
  intros H K Hb HQ. eapply (wp_allocate w); [done|done|]. intros c s2 Hc -> H2 K2 _ _.
  apply HQ; [done|by eapply keeps_trans| |done|done|apply lookup_insert_eq].
  right. apply eq_None_not_Some. intros [x Hx]. destruct (keeps_data _ _ _ _ _ K c x Hx) as (x' & Hx' & _). congruence.
Qed.

(** A request sent alone is invoked after the one it names, if that was sent. *)
Definition follows (s : session) (d : RequestData) (a : option Z) : Prop :=
  (after d = None -> a = None)
  /\ forall ra id, after d = Some ra -> haveSent (tb s) !! id = Some ra -> a = Some id.

Lemma after_id_follows (w : list Z) (s : session) (d : RequestData) (ra : Z) (da : RequestData) :
  inv w s -> heap (tb s) !! ra = Some da -> after d = Some ra ->
  follows s d (if (after_id s da).2 then Some (after_id s da).1 else None).
Proof.
  intros H Hda Ea. split; [congruence|]. intros ra' id Ea' Hid. assert (ra' = ra) as -> by congruence.
  destruct (inv_sent _ _ H id ra da Hid Hda) as [E Hne]. unfold after_id. rewrite E, Hid. cbn [fst snd].
  by rewrite (proj2 (Z.eqb_neq id 0) Hne), bool_decide_eq_true_2.
Qed.

Lemma wp_send_wrapped (w : list Z) (s : session) (r : Z) (d : RequestData) (Q : unit -> session -> Prop) :
  inv w s -> heap (tb s) !! r = Some d -> 4 <= word 7 (buffer d) ->
  (forall a s', inv w s' -> keeps [r] w w s s' -> follows s d a ->
     (exists d', heap (tb s') !! r = Some d' /\ same_message d d') ->
     (size_of d + 3 < 2 ^ 30 -> exists b more, log s' = log s ++ more /\ SendData b ∈ more /\ good_buffer b
        /\ message_of b = invoked (init_of d) a (message_of (buffer d))) -> Q tt s') ->
  wp (out <- match after d with
      | Some afterRef =>
          a <- afterMsg afterRef ;;
          b <- lift (wrapAfterSingle (buffer d) a.1 a.2) ;;
          allocate (new_request e b)
      | None => ret r
      end ;;
      out <- (if needsLayerNow e && needsLayer d then
                w <- deref out ;;
                b <- lift (wrapLayerSingle (initSerialized kCurrentLayer initWrapper) (buffer w)) ;;
                allocate (new_request e b)
              else ret out) ;;
      sendSecureRequest e out true ;;; ret tt) Q s.
Proof.
  intros H Hd H4 HQ. destruct (inv_heap _ _ H r d Hd) as [Hg Ha _].
  set (ok (a : option Z) c s1 := inv w s1 /\ keeps [] w w s s1 /\ stands_for s s1 r c /\ follows s d a).
  assert (forall a c s2 d2, ok a c s2 -> heap (tb s2) !! c = Some d2 ->
    (size_of d + 3 < 2 ^ 30 -> 4 <= word 7 (buffer d2)
       /\ message_of (buffer d2) = invoked (init_of d) a (message_of (buffer d))) ->
    wp (sendSecureRequest e c true ;;; ret tt) Q s2) as Hsend.
  { intros a c s2 d2 (H2 & K2 & Hc & Hn) Hd2 Hbody. apply wp_bind. eapply wp_send_secure; [done|exact Hd2|].
    intros ok' s3 H3 K3 _ Hsame Hlog. apply wp_ret, (HQ a); [done|by eapply stands_new|done| |].
    { destruct (keeps_data _ _ _ _ _ K2 r d Hd) as (dr & Hdr & _ & _ & Er). rewrite Er in Hdr by apply not_elem_of_nil.
      destruct Hc as [->|Hc]; [by assert (d2 = d) as -> by congruence|].
      destruct (keeps_data _ _ _ _ _ K3 r d Hdr) as (d3 & Hd3 & _ & _ & E3). exists d3. split; [done|].
      rewrite E3; [done|]. intros ->%list_elem_of_singleton. congruence. }
    intros Hs. destruct (Hbody Hs) as [H7 Eb]. destruct (Hlog H7) as (b & El & Hgb & Em).
    destruct (keeps_log _ _ _ _ _ K2) as [more El2]. exists b. eexists. rewrite El, El2, <- app_assoc. split; [done|].
    split_and!; [apply elem_of_app; right; by left|done|congruence]. }
  assert (forall a c s1 d1, ok a c s1 -> heap (tb s1) !! c = Some d1 -> good_buffer (buffer d1) ->
    message_of (buffer d1) = invoked [] a (message_of (buffer d)) ->
    wp (out <- (if needsLayerNow e && needsLayer d then
                w <- deref c ;;
                b <- lift (wrapLayerSingle (initSerialized kCurrentLayer initWrapper) (buffer w)) ;;
                allocate (new_request e b)
              else ret c) ;;
      sendSecureRequest e out true ;;; ret tt) Q s1) as Hlayer.
  { intros a c s1 d1 Hok Hd1 Hg1 Em. destruct (message_body_length _ Hg1) as [E1 E1'].
    destruct (message_body_length _ Hg) as [E0 E0']. rewrite Em in E1, E1'. cbn [m_body invoked app] in E1, E1'.
    rewrite length_app in E1, E1'. apply wp_bind.
    destruct (needsLayerNow e && needsLayer d) eqn:Ew.
    - apply wp_bind. eapply wp_deref; [done|]. destruct (wrap_layer_single (initSerialized kCurrentLayer initWrapper)
        (buffer d1) Hg1) as (b & Eb & Hgb & Hmb); [lia|].
      apply wp_bind. eapply wp_lift; [exact Eb|]. destruct Hok as (H1 & K1 & _ & Hn).
      apply (wp_wrapped w s s1 r); [done|done|done|]. intros c2 s2 H2 K2 Hc2 _ _ Hd2.
      apply (Hsend a c2 s2 (new_request e b)); [done|exact Hd2|]. intros Hs. cbn [buffer new_request]. unfold size_of in Hs.
      assert (Z.of_nat (length (init_of d)) = Z.of_nat (length (initSerialized kCurrentLayer initWrapper))) as Ei
        by (unfold init_of; by rewrite Ew).
      rewrite Ei in Hs. destruct (message_body_length _ Hgb) as [E2 _].
      assert (length (match a with Some id => mtpc_invokeAfterMsg :: words64 id | None => [] end) <= 3)%nat as L3
        by (destruct a; cbn; lia).
      rewrite Hmb in E2 |- * by lia. rewrite Em in E2 |- *. unfold init_of. rewrite Ew. split; [|done].
      rewrite <- E2. cbn [m_body invoked app]. rewrite !length_app. lia.
    - apply wp_ret, (Hsend a c s1 d1); [done|done|]. intros _. split; [lia|]. rewrite Em. unfold init_of. by rewrite Ew. }
  apply wp_bind. destruct (after d) as [ra|] eqn:Ea.
  - destruct (Ha ra eq_refl) as [da Hda]. apply wp_bind. eapply wp_after_msg; [exact Hda|]. apply wp_bind.
    pose proof (after_id_follows w s d ra da H Hda Ea) as Hf. revert Hf.
    generalize (after_id s da). intros [aid found] Hf. cbn [fst snd] in *.
    destruct (wrap_after_single (buffer d) aid found Hg H4) as (b & Eb & Hgb & Em).
    eapply wp_lift; [exact Eb|]. apply (wp_wrapped w s s r); [done|apply keeps_refl|done|].
    intros c s1 H1 K1 Hc _ _ Hd1. by apply (Hlayer (if found then Some aid else None) c s1 (new_request e b)).
  - apply wp_ret, (Hlayer None r s d); [|done|done|by rewrite invoked_nil].
    split_and!; [done|apply keeps_refl|by left|]. split; [done|congruence].
Qed.

(** A request given its id to be sent alone, the line cleared before. *)
Lemma wp_alone_id (w : list Z) (s : session) (r : Z) (d : RequestData) (force : bool) (k : Z -> M session unit)
    (Q : unit -> session -> Prop) :
  inv w s -> heap (tb s) !! r = Some d -> lone w s r -> room 1 s ->
  (forall m s' d', inv w s' -> keeps [r] w w s s' -> (sendAll e = true -> toSend (tb s') = ∅) ->
     heap (tb s') !! r = Some d' -> same_request d d' -> msgId d' = m -> m <> 0 -> wp (k m) Q s') ->
  wp ((if sendAll e then modify (set_tb (set_toSend ∅)) else ret tt) ;;;
      lastId <- mtproto_msg_id msg_id ;; msgId <- prepareToSend msg_id fuel r lastId force ;; k msgId) Q s.
Proof.
  intros H Hd Hl Hroom HQ. apply wp_bind.
  assert (forall s0, inv w s0 -> keeps [] w w s s0 -> heap (tb s0) = heap (tb s) -> haveSent (tb s0) = haveSent (tb s) ->
    generated s0 = generated s -> (sendAll e = true -> toSend (tb s0) = ∅) ->
    wp (lastId <- mtproto_msg_id msg_id ;; msgId <- prepareToSend msg_id fuel r lastId force ;; k msgId) Q s0) as Hgo.
  { intros s0 H0 K0 Eh Es Eg Hclear. apply wp_bind. eapply (wp_msg_id 0 w); [done|unfold room in *; by rewrite Eg|].
    intros b s1 E1 H1 F1 _ L1. assert (lone w s1 r) as Hl1 by (unfold lone, held in *; by rewrite E1, Eh, Es).
    apply wp_bind. eapply (prepare_spec 0 w); [done|by rewrite E1, Eh|done|done|]. intros m s2 Hp.
    destruct (prep_data _ _ _ _ _ Hp) as (d0 & d' & Hd0 & Eh2 & Hsame & Hm & Hor).
    rewrite E1, Eh in Hd0. assert (d0 = d) as -> by congruence.
    apply (HQ m s2 d'); [by eapply inv_prepared| | | |done|done|].
    - eapply keeps_trans; [eapply keeps_more, K0; by intros x ?%not_elem_of_nil|].
      eapply keeps_trans; [by apply keeps_tb|by eapply prepared_keeps].
    - intros Hall. rewrite (prep_line _ _ _ _ _ Hp), E1. by apply Hclear.
    - by rewrite Eh2, lookup_insert_eq.
    - destruct F1 as (_ & Hu & _). apply used_range in Hu. destruct Hor as [->|[_ ?]]; [lia|done]. }
  destruct (sendAll e) eqn:Eall.
  - destruct (clear_line w s Eall H) as (H' & K' & _). by apply wp_modify, Hgo.
  - apply wp_ret, Hgo; try done. apply keeps_refl.
Qed.

(** What is noted of the id of a request sent alone. *)
Lemma wp_note_alone (v : services) (m : Z) (Q : bool -> session -> Prop) (s : session) :
  (forall need s', unseen s s' -> Q need s') ->
  wp (match bindDcKeyRequest v, pingRequest v, stateRequest v, resendRequest_ v with
    | Some _, _, _, _ => set_bind e m ;;; ret true
    | _, Some _, _, _ => set_ping m ;;; ret true
    | _, _, Some ref, _ => note_state_request m ref ;;; ret true
    | _, _, _, Some ref => note_state_request m ref ;;; ret true
    | _, _, _, _ => ret false
    end) Q s.
Proof.
  intros HQ. destruct (bindDcKeyRequest v), (pingRequest v), (stateRequest v), (resendRequest_ v);
    try apply wp_bind, wp_modify, wp_ret; try apply wp_ret; apply HQ; first [by apply unseen_tb|done].
Qed.

(** A request of the session alone. *)
Lemma send_service_alone (v : services) (w : list Z) (s : session) (r : Z) (force : bool) (Q : unit -> session -> Prop) :
  inv w s -> services_ok w s v -> service_refs v = [r] -> room 1 s ->
  (forall s', inv w s' -> keeps [r] w w s s' -> (sendAll e = true -> toSend (tb s') = ∅) -> Q tt s') ->
  wp (sendAlone msg_id kCurrentLayer initWrapper fuel e v r force) Q s.
Proof.
  intros H [[_ Hown] Hbind] Hv Hroom HQ.
  assert (exists d, heap (tb s) !! r = Some d /\ requestId d = 0 /\ lone w s r) as (d & Hd & Hi & Hl).
  { rewrite service_refs_own in Hv. assert (r ∈ own_requests v ++ opt_list (bindDcKeyRequest v)) as Hr
      by (rewrite Hv; by left). apply elem_of_app in Hr as [Hr|Hr%elem_opt_list].
    - pose proof (own_lone _ _ _ (Hown r Hr)). destruct (Hown r Hr) as (d & Hd & _ & _ & _ & Hi). eauto.
    - destruct (Hbind r Hr) as ((d & Hd & _ & Hi) & Hl & _). eauto. }
  unfold sendAlone. apply (wp_alone_id w s r d); [done..|]. intros m s1 d1 H1 K1 Hc1 Hd1 Hs1 _ _.
  apply wp_bind, wp_note_alone. intros need s2 Hu. destruct (unseen_inv w s1 s2 Hu H1) as [H2 K2].
  apply wp_bind. eapply (wp_deref _ d1); [by rewrite (unseen_heap _ _ Hu)|].
  rewrite (proj1 Hs1), Hi. cbn [Z.eqb]. apply wp_bind.
  eapply (wp_send_secure w s2 r d1); [done|by rewrite (unseen_heap _ _ Hu)|]. intros ok s3 H3 K3 _ _ _.
  apply wp_ret, HQ; [done| |].
  - eapply keeps_trans; [exact K1|]. eapply keeps_trans; [apply K2|exact K3].
  - intros Hall. destruct (keeps_line _ _ _ _ _ K3) as [->|[_ ?]]; [|done].
    rewrite (unseen_line _ _ Hu). by apply Hc1.
Qed.

(** A request in line alone: it is with the sent ones, and its message was sent. *)
Lemma send_request_alone (v : services) (w0 : list Z) (s : session) (r : Z) (force : bool) (Q : unit -> session -> Prop) :
  inv (r :: w0) s -> room 1 s ->
  (forall m d a s', inv w0 s' -> keeps [r] (r :: w0) w0 s s' -> (sendAll e = true -> toSend (tb s') = ∅) ->
     haveSent (tb s') !! m = Some r -> heap (tb s') !! r = Some d -> follows s d a ->
     (size_of d + 3 < 2 ^ 30 -> exists b more, log s' = log s ++ more /\ SendData b ∈ more /\ good_buffer b
        /\ message_of b = invoked (init_of d) a (message_of (buffer d))) -> Q tt s') ->
  wp (sendAlone msg_id kCurrentLayer initWrapper fuel e v r force) Q s.
Proof.
  intros H Hroom HQ. assert (held (r :: w0) s r) as Hr by (left; by left).
  destruct (inv_held _ _ H r Hr) as (d & Hd & Hn & _).
  unfold sendAlone. apply (wp_alone_id (r :: w0) s r d); [done|done|by left; left|done|].
  intros m s1 d1 H1 K1 Hc1 Hd1 Hs1 Hm Hm0.
  apply wp_bind, wp_note_alone. intros need s2 Hu. destruct (unseen_inv (r :: w0) s1 s2 Hu H1) as [H2 K2].
  rewrite <- (unseen_heap _ _ Hu) in Hd1. destruct (inv_heap _ _ H2 r d1 Hd1) as [Hg1 _ Hack].
  apply wp_bind. eapply (wp_deref _ d1); [done|].
  assert (requestId d1 <> 0) as Hn1 by (by rewrite (proj1 Hs1)). destruct (Hack Hn1) as [Hack1 H4].
  rewrite (proj2 (Z.eqb_neq _ 0) Hn1). apply wp_bind. eapply wp_lift; [done|]. cbn [negb].
  set (d2 := with_sent_time (now e) d1). apply wp_bind, wp_modify. fold (touch r d2 s2).
  destruct (inv_touch (r :: w0) s2 r d1 d2 H2 Hd1) as (H3 & K3 & _); [by apply with_sent_time_akin|done|].
  set (s3 := touch r d2 s2) in *. apply wp_bind, wp_modify.
  destruct (inv_move w0 s3 r m d2 H3) as (H4' & K4 & E4 & _); [apply lookup_insert_eq|done|done|].
  set (s4 := set_tb _ s3) in *. assert (keeps [r] (r :: w0) w0 s s4) as K14.
  { eapply keeps_trans; [exact K1|]. eapply keeps_trans; [apply K2|]. eapply keeps_trans; [exact K3|].
    eapply keeps_more, K4. by intros x ?%not_elem_of_nil. }
  apply (wp_send_wrapped w0 s4 r d2); [done|apply lookup_insert_eq|done|].
  intros a s5 H5 K5 [Ha Hb] (d5 & Hd5 & Em5 & El5 & Ea5 & E75) Hlog.
  assert (keeps [r] (r :: w0) w0 s s5) as K15 by (by eapply keeps_trans).
  apply (HQ m d5 a s5); [done|done| |by apply (keeps_sent _ _ _ _ _ K5)|done| |].
  - intros Hall. destruct (keeps_line _ _ _ _ _ K5) as [->|[_ ?]]; [|done]. cbn. rewrite (unseen_line _ _ Hu). by apply Hc1.
  - split; [by rewrite Ea5|]. intros ra id. rewrite Ea5. intros E Hid. apply (Hb ra id E), (keeps_sent _ _ _ _ _ K14), Hid.
  - assert (init_of d5 = init_of d2) as Ei by (unfold init_of; by rewrite El5).
    assert (size_of d5 = size_of d2) as Es by (unfold size_of; by rewrite Ei, E75).
    rewrite Es, Ei, Em5. intros Hsize. destruct (keeps_log _ _ _ _ _ K14) as [more El4].
    destruct (Hlog Hsize) as (b & more5 & Elog & Hin & Hgb & Em). exists b, (more ++ more5).
    rewrite Elog, El4, <- app_assoc. split_and!; [done|apply elem_of_app; by right|done|done].
Qed.

(** ** The whole call *)

(** The requests in line, in the order of their numbers. *)
Definition in_line (s : session) : list Z := (entries (toSend (tb s))).*2.

(** The session is well formed: [inv] for the requests in line, each under its
    number. *)
Record wf (s : session) : Prop := {
  wf_inv : inv (in_line s) s;
  wf_line : forall k r d, toSend (tb s) !! k = Some r -> heap (tb s) !! r = Some d -> requestId d = k }.

(** The request numbered [x] is in line, or was sent and waits for an answer. *)
Definition waiting (s : session) (x : Z) : Prop := is_Some (toSend (tb s) !! x).
Definition unanswered (s : session) (x : Z) : Prop := exists m r d,
  haveSent (tb s) !! m = Some r /\ heap (tb s) !! r = Some d /\ requestId d = x.
Definition live (s : session) (x : Z) : Prop := waiting s x \/ unanswered s x.

Lemma elem_of_line (s : session) (r : Z) : r ∈ in_line s <-> exists k, toSend (tb s) !! k = Some r.
Proof.
  unfold in_line. rewrite list_elem_of_fmap. split.
  - intros ([k v] & -> & Hk%elem_of_entries). eauto.
  - intros [k Hk]. exists (k, r). by rewrite elem_of_entries.
Qed.

Lemma live_held (s : session) (x : Z) : wf s ->
  live s x <-> exists r d, held (in_line s) s r /\ heap (tb s) !! r = Some d /\ requestId d = x.
Proof.
  intros [H Hw]. split.
  - intros [[r Hr]|(m & r & d & Hm & Hd & E)].
    + assert (held (in_line s) s r) as Hh by (left; apply elem_of_line; eauto).
      destruct (inv_held _ _ H r Hh) as (d & Hd & _). exists r, d. split_and!; [done|done|]. by eapply Hw.
    + exists r, d. split_and!; [right; eauto|done|done].
  - intros (r & d & [[k Hk]%elem_of_line|[m Hm]] & Hd & E).
    + left. rewrite <- E, (Hw k r d Hk Hd). by exists r.
    + right. by exists m, r, d.
Qed.

(** A step that keeps the requests keeps the session well formed and its
    requests live. *)
Lemma keeps_wf (l w' : list Z) (s s' : session) :
  wf s -> inv w' s' -> keeps l (in_line s) w' s s' -> w' = in_line s' ->
  (forall k r, toSend (tb s') !! k = Some r -> toSend (tb s) !! k = Some r) ->
  wf s' /\ forall x, live s' x <-> live s x.
Proof.
  intros Hwf H' K -> Hline. pose proof Hwf as [H Hw].
  assert (wf s') as Hwf'.
  { split; [done|]. intros k r d Hk Hd. apply Hline in Hk.
    destruct (inv_held _ _ H r) as (d0 & Hd0 & _); [left; apply elem_of_line; eauto|].
    destruct (keeps_data _ _ _ _ _ K r d0 Hd0) as (d' & Hd' & E & _).
    assert (d' = d) as <- by congruence. rewrite E. by eapply Hw. }
  split; [done|]. intros x. rewrite !live_held by done. split; intros (r & d & Hr & Hd & E).
  - apply (keeps_held _ _ _ _ _ K) in Hr. destruct (inv_held _ _ H r Hr) as (d0 & Hd0 & _).
    destruct (keeps_data _ _ _ _ _ K r d0 Hd0) as (d' & Hd' & E' & _). exists r, d0. split_and!; [done|done|congruence].
  - destruct (keeps_data _ _ _ _ _ K r d Hd) as (d' & Hd' & E' & _). exists r, d'.
    split_and!; [by apply (keeps_held _ _ _ _ _ K)|done|congruence].
Qed.

(** Whether the call sends what is in line. *)
Definition sends : bool := hasConnection e && hasKey e && sendAll e.

Definition sent_or_kept (s s' : session) : Prop :=
  wf s' /\ (forall x, live s' x <-> live s x)
  /\ toSend (tb s') = if sends then ∅ else toSend (tb s).

Lemma kept_line (l : list Z) (s s' : session) :
  wf s -> inv (in_line s) s' -> keeps l (in_line s) (in_line s) s s' -> toSend (tb s') = toSend (tb s) ->
  (sends = true -> in_line s = []) -> sent_or_kept s s'.
Proof.
  intros Hwf H' K El Hs. assert (in_line s = in_line s') as E by (unfold in_line; by rewrite El).
  destruct (keeps_wf l (in_line s) s s' Hwf H' K E) as [Hwf' Hlive]; [by rewrite El|].
  split_and!; [done|done|]. destruct sends; [|done]. specialize (Hs eq_refl). rewrite El. apply map_empty.
  intros k. apply eq_None_not_Some. intros [r Hr]. assert (r ∈ in_line s) as Hin by (apply elem_of_line; eauto).
  rewrite Hs in Hin. by apply not_elem_of_nil in Hin.
Qed.

Lemma sent_line (l w0 : list Z) (s s' : session) :
  wf s -> (if sendAll e then [] else in_line s) = w0 -> sends = sendAll e ->
  inv w0 s' -> keeps l (in_line s) w0 s s' -> (sendAll e = true -> toSend (tb s') = ∅) -> sent_or_kept s s'.
Proof.
  intros Hwf <- Hs H' K Hclear. unfold sent_or_kept. rewrite Hs. destruct (sendAll e) eqn:Eall.
  - assert (toSend (tb s') = ∅) as El by by apply Hclear.
    destruct (keeps_wf l [] s s' Hwf H' K) as [Hwf' Hlive]; [unfold in_line; by rewrite El| |done].
    intros k r. by rewrite El.
  - assert (toSend (tb s') = toSend (tb s)) as El by (destruct (keeps_line _ _ _ _ _ K) as [|[]]; congruence).
    destruct (keeps_wf l (in_line s) s s' Hwf H' K) as [Hwf' Hlive]; [unfold in_line; by rewrite El| |done].
    by rewrite El.
Qed.

(** The packet [b] carries the message [m], alone or in a container. *)
Definition carries (b : list Z) (m : message) : Prop :=
  message_of b = m \/ exists ms, m_body (message_of b) = mtpc_msg_container :: Z.of_nat (length ms) :: packs ms /\ m ∈ ms.

(** A request was given to the connection: among [more] is a packet that carries
    its message, invoked after the request it names when that was sent, and it
    waits for the answer under the id of this message. *)
Definition delivered (s s' : session) (more : list event) (r : Z) : Prop := exists b d a,
  SendData b ∈ more /\ heap (tb s') !! r = Some d
  /\ carries b (invoked (init_of d) a (message_of (buffer d)))
  /\ haveSent (tb s') !! m_id (message_of (buffer d)) = Some r
  /\ (after d = None -> a = None)
  /\ forall ra id, after d = Some ra -> haveSent (tb s) !! id = Some ra -> a = Some id.

(** No length overflows: the requests in line, and those the session may add. *)
Definition modest (s : session) : Prop :=
  (forall q, asked s q -> Z.of_nat (length (body_of q)) <= 2 ^ 24) /\ sizes s (in_line s) <= 2 ^ 29.

Definition all_delivered (s s' : session) (l : list Z) : Prop :=
  exists more, log s' = log s ++ more /\ forall r, r ∈ l -> delivered s s' more r.

Lemma all_delivered_earlier (w w' : list Z) (s s1 s' : session) (l : list Z) :
  keeps [] w w' s s1 -> all_delivered s1 s' l -> all_delivered s s' l.
Proof.
  intros K (more & El & H). destruct (keeps_log _ _ _ _ _ K) as [more1 El1]. exists (more1 ++ more).
  rewrite El, El1, <- app_assoc. split; [done|]. intros r Hr.
  destruct (H r Hr) as (b & d & a & Hb & Hd & Hc & Hi & Ha & Hf). exists b, d, a.
  split_and!; [apply elem_of_app; by right|done..|]. intros ra id Ea Hid. apply (Hf ra id Ea), (keeps_sent _ _ _ _ _ K), Hid.
Qed.

Lemma invocations_lookup (own : list Z) (s s' : session) (l : list Z) (afters : list (option Z)) (r : Z) :
  forall before, invocations own s s' before l afters -> r ∈ l ->
  exists i d a before rest, l !! i = Some r /\ afters !! i = Some a /\ heap (tb s') !! r = Some d
    /\ invoked_after own s s' before rest d a.
Proof.
  revert afters. induction l as [|x l IH]; intros [|a afters] before; cbn [invocations]; try done.
  - by intros _ ?%not_elem_of_nil.
  - intros [(d & Hd & Ha) Hi] [->|Hr]%elem_of_cons; [by exists 0%nat, d, a, before, (x :: l)|].
    destruct (IH afters _ Hi Hr) as (i & d0 & a0 & b0 & rest & H). by exists (S i), d0, a0, b0, rest.
Qed.

Lemma invocations_length (own : list Z) (s s' : session) (l : list Z) (afters : list (option Z)) :
  forall before, invocations own s s' before l afters -> length afters = length l.
Proof.
  revert afters. induction l as [|x l IH]; intros [|a afters] before; cbn [invocations]; try done.
  intros [_ Hi]. cbn. by rewrite (IH _ _ Hi).
Qed.

Lemma lookup_after {A} (l k : list A) (i : nat) : (l ++ k) !! (length l + i)%nat = k !! i.
Proof. rewrite lookup_app_r by lia. f_equal. lia. Qed.

(** A container delivers the requests in line. *)
Lemma container_delivers (v : services) (l w0 : list Z) (s s' : session) (ids : list Z) (total : Z)
    (ms : list message) (afters : list (option Z)) :
  inv w0 s' -> haveSent (tb s) ⊆ haveSent (tb s') -> 2 + total < 2 ^ 30 -> container_sent s s' (placed v l) ids total ms ->
  Forall3 (message_for s') (placed v l) (placed_after v afters) ms ->
  invocations (service_refs v) s s' [] l afters ->
  Forall2 (fun r m => haveSent (tb s') !! m = Some r) l ids -> all_delivered s s' l.
Proof.
  intros H Hsub Ht (m & _ & Hsent) Hms Hi Hids. destruct (Hsent Ht) as (b & more & El & Hb & _ & _ & Eb).
  exists more. split; [done|]. intros r Hr.
  destruct (invocations_lookup _ _ _ _ _ r _ Hi Hr) as (i & d & a & before & rest & Hl & Ha & Hd & Hinv).
  set (k := (length (opt_list (bindDcKeyRequest v)) + length (opt_list (pingRequest v)))%nat).
  assert (placed v l !! (k + i)%nat = Some r) as Hp.
  { unfold placed, k. rewrite <- Nat.add_assoc, !lookup_after, lookup_app_l; [done|].
    by eapply lookup_lt_Some. }
  assert (placed_after v afters !! (k + i)%nat = Some a) as Hpa.
  { unfold placed_after, k, plain. rewrite <- Nat.add_assoc.
    rewrite <- (length_fmap (fun _ : Z => @None Z) (opt_list (bindDcKeyRequest v))), lookup_after.
    rewrite <- (length_fmap (fun _ : Z => @None Z) (opt_list (pingRequest v))), lookup_after, lookup_app_l; [done|].
    by eapply lookup_lt_Some. }
  destruct (Forall3_lookup_l _ _ _ _ _ _ Hms Hp) as (a' & msg & Ea' & Hmsg & d' & Hd' & ->).
  assert (a' = a) as -> by congruence. assert (d' = d) as -> by congruence.
  destruct (Forall2_lookup_l _ _ _ _ _ Hids Hl) as (id & _ & Hid). cbn beta in Hid.
  destruct (inv_sent _ _ H id r d Hid Hd) as [Eid _].
  exists b, d, a. split_and!; [done|done| |by rewrite <- Eid in Hid| |].
  - right. exists ms. rewrite <- (Forall3_length_lr _ _ _ _ Hms). split; [done|]. by apply list_elem_of_lookup_2 with (k + i)%nat.
  - unfold invoked_after in Hinv. by destruct (after d).
  - intros ra x Ea Hx. unfold invoked_after in Hinv. rewrite Ea in Hinv. destruct Hinv as [A B].
    destruct A as (id' & Hid' & ->); [by right; exists x|].
    destruct (inv_held _ _ H ra) as (da & Hda & _); [right; eauto|].
    destruct (inv_sent _ _ H id' ra da Hid' Hda) as [<- _].
    by destruct (inv_sent _ _ H x ra da (lookup_weaken _ _ _ _ Hx Hsub) Hda) as [<- _].
Qed.

(** The requests of the call, alone or in a container. *)
Lemma wp_send_all (v : services) (s : session) (force : bool) (Q : unit -> session -> Prop) :
  let l := if sendAll e then in_line s else [] in
  let w0 := if sendAll e then [] else in_line s in
  inv (in_line s) s -> services_ok (in_line s) s v -> room (7 + length (in_line s)) s ->
  (forall refs s', inv w0 s' -> keeps refs (in_line s) w0 s s' -> (sendAll e = true -> toSend (tb s') = ∅) ->
     (sizes s (service_refs v ++ l) + 3 < 2 ^ 30 -> all_delivered s s' l) -> Q tt s') ->
  (service_refs v = [] -> l = [] -> Q tt s) ->
  wp (match service_refs v ++ l with
      | [] => ret tt
      | first :: rest =>
          d <- deref first ;;
          if bool_decide (rest = []) && negb (forceSendInContainer d)
          then sendAlone msg_id kCurrentLayer initWrapper fuel e v first force
          else sendContainer msg_id kCurrentLayer initWrapper fuel e v l force
      end) Q s.
Proof.
  intros l w0 H Hv Hroom HQ Hnone.
  assert (in_line s = l ++ w0) as El by (unfold l, w0; destruct (sendAll e); by rewrite ?app_nil_r).
  rewrite El in H, Hv, HQ. destruct (placed_fresh v l w0 s H Hv) as [Hnd Hin].
  assert (service_refs v ++ l = [] \/ exists first rest, service_refs v ++ l = first :: rest) as [E|(first & rest & E)].
  { destruct (service_refs v ++ l) as [|first rest]; [by left|right; eauto]. }
  { rewrite E. apply app_eq_nil in E as [E1 E2]. apply wp_ret. by apply Hnone. }
  assert (is_Some (heap (tb s) !! first)) as [d Hd].
  { apply Hin. rewrite placed_perm, E. by left. }
  assert (length (service_refs v) <= 6)%nat as H6.
  { unfold service_refs. destruct v as [[] [] [] [] [] []]; cbn; lia. }
  assert (wp (sendContainer msg_id kCurrentLayer initWrapper fuel e v l force) Q s) as Hcontainer.
  { apply (send_container_spec v l w0); [done|done|unfold room in *; rewrite El, length_app in Hroom; lia|].
    intros ids ms afters s' H' K' Hc Hsent Hms Hi Hids. eapply HQ; [done|done|done|]. intros Hs.
    eapply container_delivers; [done| | |exact Hsent|exact Hms|exact Hi|exact Hids].
    - apply map_subseteq_spec. apply (keeps_sent _ _ _ _ _ K').
    - rewrite (sizes_perm s _ _ (placed_perm v l)). lia. }
  rewrite E. apply wp_bind. eapply (wp_deref _ d); [done|].
  destruct (bool_decide_reflect (rest = [])) as [->|Hr]; cbn [andb]; [|done].
  destruct (negb (forceSendInContainer d)); [|done].
  assert (room 1 s) as Hroom1 by (unfold room in *; lia).
  pose proof E as E0. apply app_eq_cons in E as [[E1 E2]|(l2 & E1 & E2)].
  - apply (send_request_alone v w0 s first force); [by rewrite E2 in H|done|].
    intros m d1 a s' H' K' Hc Hm Hd1 [Ha Hf] Hsent. eapply HQ; [done| |done|]; [by rewrite E2|].
    rewrite E0, sizes_cons, Hd. change (sizes s []) with 0. cbn [from_option]. intros Hs.
    destruct (keeps_data _ _ _ _ _ K' first d Hd) as (d1' & Hd1' & _ & X & _). assert (d1' = d1) as -> by congruence.
    destruct Hsent as (b & more & Elog & Hb & _ & Eb); [rewrite (size_of_extent d d1 X); lia|].
    exists more. split; [done|]. rewrite E2. intros r ->%list_elem_of_singleton. exists b, d1, a.
    destruct (inv_sent _ _ H' m first d1 Hm Hd1) as [<- _]. split_and!; [done|done|by left|done|done|done].
  - symmetry in E2. apply app_eq_nil in E2 as [-> E2]. rewrite E2 in *. cbn [app] in *.
    apply (send_service_alone v w0 s first force); [done|done|done|done|]. intros s' H' K' Hc.
    eapply HQ; [done|done|done|]. intros _. destruct (keeps_log _ _ _ _ _ K') as [more Elog].
    exists more. split; [done|]. by intros r ?%not_elem_of_nil.
Qed.

Lemma sizes_bounded (s : session) (l : list Z) (n : Z) :
  (forall r, r ∈ l -> exists d, heap (tb s) !! r = Some d /\ size_of d <= n) -> sizes s l <= Z.of_nat (length l) * n.
Proof.
  induction l as [|r l IH]; intros H; [done|]. destruct (H r) as (d & Hd & Hn); [by left|].
  rewrite sizes_cons, Hd. cbn [from_option length]. assert (sizes s l <= Z.of_nat (length l) * n); [|lia].
  apply IH. intros x Hx. apply H. by right.
Qed.

(** What the session adds takes no more than six times the bound. *)
Lemma modest_sizes (L : list Z) (s s' : session) (v : services) :
  inv L s -> keeps [] L L s s' -> L = in_line s -> modest s -> bindDcKeyRequest v = None ->
  (forall r, r ∈ own_requests v -> made s s' r) -> sizes s' (service_refs v ++ L) + 3 < 2 ^ 30.
Proof.
  intros H K EL [Hq Hl] Hb Hm. rewrite sizes_app, service_refs_own, Hb, app_nil_r.
  rewrite (sizes_keeps [] L L s s' L K).
  2:{ intros r Hr. destruct (inv_held _ _ H r) as (d & Hd & _); [by left|by exists d]. }
  rewrite EL. assert (sizes s' (own_requests v) <= Z.of_nat (length (own_requests v)) * (4 + 2 ^ 24)).
  { apply sizes_bounded. intros r Hr. destruct (Hm r Hr) as (d & q & Hd & Ha & Hs). exists d. split; [done|].
    specialize (Hq q Ha). lia. }
  assert (length (own_requests v) <= 5)%nat by (unfold own_requests; destruct v as [[] [] [] [] [] []]; cbn; lia). lia.
Qed.

Lemma all_delivered_none (s s' : session) : log s `prefix_of` log s' -> all_delivered s s' [].
Proof. intros [more E]. exists more. split; [done|]. by intros r ?%not_elem_of_nil. Qed.

Lemma try_to_send_spec (s : session) :
  wf s -> bind_ok (in_line s) s -> room (7 + length (in_line s)) s ->
  wp (tryToSend msg_id body_of kCurrentLayer initWrapper fuel e)
    (fun _ s' => sent_or_kept s s' /\ (sends = true -> modest s -> all_delivered s s' (in_line s))) s.
Proof.
  intros Hwf Hbind Hroom. pose proof (wf_inv _ Hwf) as H. unfold tryToSend.
  destruct (negb (hasConnection e) || negb (hasKey e)) eqn:Ego.
  { assert (sends = false) as Es by (unfold sends; by destruct (hasConnection e), (hasKey e)). apply wp_ret. split; [|by rewrite Es].
    apply (kept_line [] s s Hwf H); [apply keeps_refl|done|by rewrite Es]. }
  assert (sends = sendAll e) as Hs by (unfold sends; by destruct (hasConnection e), (hasKey e)).
  apply wp_bind, wp_gets. destruct (sendOnlyFirstPing e && _) eqn:Eping.
  { assert (sends = false) as Es by (rewrite Hs; unfold sendAll; by apply andb_true_iff in Eping as [-> _]).
    apply wp_ret. split; [|by rewrite Es]. apply (kept_line [] s s Hwf H); [apply keeps_refl|done|by rewrite Es]. }
  set (L := in_line s) in *.
  assert (pending [] L s) as Hp by (split; [apply NoDup_nil_2|by intros r ?%not_elem_of_nil]).
  pose proof (steps_refl [] L s H Hp) as T0. apply wp_bind.
  apply (steps_if [] [] L s s); [exact T0|done|done|done|done|]. intros s1 T1. apply wp_bind.
  assert (forall force s2, steps [] [] L s s2 ->
    wp ((if force && hasKeyCreator e then tell RestartBinder else ret tt) ;;;
        v <- prepareServices body_of e ;;
        inLine <- gets (fun s => if sendAll e then (entries (toSend (tb s))).*2 else []) ;;
        match service_refs v ++ inLine with
        | [] => ret tt
        | first :: rest =>
            d <- deref first ;;
            if bool_decide (rest = []) && negb (forceSendInContainer d)
            then sendAlone msg_id kCurrentLayer initWrapper fuel e v first force
            else sendContainer msg_id kCurrentLayer initWrapper fuel e v inLine force
        end) (fun _ s' => sent_or_kept s s' /\ (sends = true -> modest s -> all_delivered s s' L)) s2) as Hgo.
  2:{ destruct (sendAll e); [|by apply wp_ret, Hgo]. unfold wp, markSessionAsStarted.
      destruct (sessionMarkedAsStarted s1); apply Hgo; [exact T1|].
      by eapply steps_unseen; [exact T1|..]. }
  clear s1 T1. intros force s2 T2. apply wp_bind.
  apply (steps_if [] [] L s s2); [exact T2|done|done|by eexists|done|]. intros s3 T3. destruct (T3) as (H3 & K3 & _ & G3 & L3 & _ & A3).
  apply wp_bind. apply (prepare_services_spec L); [done|exact (bind_ok_keeps L s s3 H K3 Hbind)|].
  intros v s4 H4 K4 G4 L4 Hv Hmade Hbk.
  assert (keeps [] L L s s4) as K14 by (by eapply keeps_trans).
  assert (in_line s4 = L) as E4 by (unfold L, in_line; by rewrite L4, L3).
  apply wp_bind, wp_gets. fold (in_line s4). rewrite E4.
  assert (sends = true -> modest s -> sizes s4 (service_refs v ++ L) + 3 < 2 ^ 30) as Hsizes.
  { intros Hst Hm. apply (modest_sizes L s); [done|done|done|done| |].
    - destruct (bindDcKeyRequest v); [|done]. specialize (Hbk (mk_is_Some _ _ eq_refl)).
      rewrite Hs in Hst. unfold sendAll in Hst. by rewrite Hbk, andb_false_r in Hst.
    - intros r Hr. destruct (Hmade r Hr) as (d & q & Hd & Hq & Hsz). exists d, q. auto. }
  pose proof (wp_send_all v s4 force
    (fun _ s' => sent_or_kept s s' /\ (sends = true -> modest s -> all_delivered s s' L))) as Hall.
  cbv zeta in Hall. rewrite E4 in Hall.
  apply Hall; [done|done|unfold room in *; by rewrite G4, G3| |].
  - intros refs s5 H5 K5 Hc Hd. split.
    + eapply (sent_line refs); [done|done|done|done| |done].
      eapply keeps_trans; [eapply keeps_more, K14; by intros r ?%not_elem_of_nil|exact K5].
    + intros Hst Hm. specialize (Hsizes Hst Hm). rewrite Hs in Hst. rewrite Hst in Hd.
      eapply all_delivered_earlier; [exact K14|by apply Hd].
  - intros _ Enil. split.
    + apply (kept_line [] s s4 Hwf H4 K14); [by rewrite L4|]. rewrite Hs. intros Hst. by rewrite Hst in Enil.
    + intros Hst _. rewrite Hs in Hst. rewrite Hst in Enil. rewrite Enil. apply all_delivered_none, (keeps_log _ _ _ _ _ K14).
Qed.

End Send.
