(* ===== verification/SessionResend.v ===== *)
(** * Sending again and acknowledging

    What [resend], [resendAll], [clearOldContainers], [checkSentRequests],
    [requestsAcked] and [handleMsgsStates] do to the requests of a well-formed
    session: they do not fail, and a request that leaves the session was
    answered, or was acknowledged when nobody waits for its answer. *)

From S2P Require Import Prelude StateMonad ReceivedIds Requests RequestFacts Session SessionFacts SessionSend.

(** An environment in which nothing is sent. *)
Definition idle : env := mk_env 0 false false false false false false false None 0 0 (fun _ => []).

Section Resend.
Context {msg_id : nat -> Z} {limit : nat}.

#[local] Abbreviation used := (used msg_id limit).
#[local] Abbreviation inv := (inv msg_id limit).

(** ** Requests in transit *)

(** Well formed but for the requests [p], which are on their way to the line. *)
Record transit (p : list Z) (s : session) : Prop := {
  transit_inv : inv (p ++ in_line s) s;
  transit_line : forall k r d, toSend (tb s) !! k = Some r -> heap (tb s) !! r = Some d -> requestId d = k }.

Lemma transit_wf (s : session) : transit [] s <-> wf (msg_id := msg_id) (limit := limit) s.
Proof. split; intros [H1 H2]; by split. Qed.

Lemma inv_perm (w w' : list Z) (s : session) : w ≡ₚ w' -> inv w s -> inv w' s.
Proof.
  intros E [H1 H2 H3 H4 H5 [Hnd H6] H7].
  assert (forall r, held w' s r <-> held w s r) as Hh by (intros r; unfold held; by rewrite E).
  split; [done| | | |done| |done].
  - intros r Hr%Hh. by apply H2.
  - intros r r' d d' Hr%Hh Hr'%Hh. by apply H3.
  - intros r r' d d' Hr%Hh Hr'%Hh. by apply H4.
  - split; [by rewrite <- E|]. intros r m. rewrite <- E. apply H6.
Qed.

(** What sending again does to the requests: those in transit or in line
    change place, and nothing is lost. *)
Record resent (p p' : list Z) (s s' : session) : Prop := {
  resent_transit : transit p' s';
  resent_held : forall r, held (p' ++ in_line s') s' r <-> held (p ++ in_line s) s r;
  resent_data : forall r d, heap (tb s) !! r = Some d ->
    exists d', heap (tb s') !! r = Some d' /\ requestId d' = requestId d;
  resent_sent : forall m r, haveSent (tb s') !! m = Some r -> haveSent (tb s) !! m = Some r;
  resent_containers : sentContainers (tb s') ⊆ sentContainers (tb s);
  resent_generated : generated s' = generated s }.

Lemma resent_refl (p : list Z) (s : session) : transit p s -> resent p p s s.
Proof. intros. split; try done. intros r d Hd. by exists d. Qed.

Lemma resent_trans (p p' p'' : list Z) (s s' s'' : session) :
  resent p p' s s' -> resent p' p'' s' s'' -> resent p p'' s s''.
Proof.
  intros [T1 H1 D1 S1 C1 G1] [T2 H2 D2 S2 C2 G2]. split; [done| | |auto|by etrans|congruence].
  - intros r. by rewrite H2, H1.
  - intros r d Hd. destruct (D1 r d Hd) as (d' & Hd' & E'). destruct (D2 r d' Hd') as (d'' & Hd'' & E'').
    exists d''. split; [done|congruence].
Qed.

(** A state that differs in nothing of this. *)
Lemma resent_same (p : list Z) (s s' : session) :
  transit p s -> tb s' = tb s -> generated s' = generated s -> resent p p s s'.
Proof.
  intros [H Hl] E Eg. assert (forall r, held (p ++ in_line s') s' r <-> held (p ++ in_line s) s r) as Hh
    by (intros r; unfold held, in_line; by rewrite E).
  split; [|done|intros r d Hd; exists d; by rewrite E|by rewrite E|by rewrite E|done].
  destruct H as [H1 H2 H3 H4 H5 H6 H7]. split; [|by rewrite E].
  unfold in_line in *. rewrite E. split; rewrite ?E; try done.
  - intros r Hr. unfold held in Hr. rewrite E in Hr. destruct (H2 r Hr) as (d & Hd & Hn & Hu).
    exists d. unfold SessionFacts.used in *. by rewrite Eg.
  - intros r r' d d' Hr Hr'. unfold held in Hr, Hr'. rewrite E in Hr, Hr'. by apply H3.
  - intros r r' d d' Hr Hr'. unfold held in Hr, Hr'. rewrite E in Hr, Hr'. by apply H4.
  - intros m Hm. unfold SessionFacts.used in *. rewrite Eg. by apply H7.
Qed.

(** A sent request taken out of the table. *)
Lemma take_out (p : list Z) (s : session) (m r : Z) :
  transit p s -> haveSent (tb s) !! m = Some r ->
  resent p (r :: p) s (set_tb (fun t => set_haveSent (delete m (haveSent t)) t) s).
Proof.
  intros [H Hl] Hm. set (s' := set_tb _ s).
  assert (forall k x, haveSent (tb s') !! k = Some x -> haveSent (tb s) !! k = Some x) as Hsub
    by (intros k x Hk; cbn in Hk; by apply lookup_delete_Some in Hk as [_ Hk]).
  assert (forall x, held ((r :: p) ++ in_line s') s' x <-> held (p ++ in_line s) s x) as Hh.
  { intros x. unfold held. cbn [app]. rewrite elem_of_cons. split.
    - intros [[->|Hx]|[k Hk]]; [right; eauto|by left|right; eauto].
    - intros [Hx|[k Hk]]; [left; by right|]. destruct (decide (k = m)) as [->|Hne].
      + left. left. congruence.
      + right. exists k. cbn. by rewrite lookup_delete_ne. }
  split; [|done|intros x d Hd; by exists d|done|done|done].
  split; [|done]. pose proof H as [H1 H2 H3 H4 H5 [Hnd H6] H7]. split; [done| | | | | |done].
  - intros x Hx%Hh. by apply H2.
  - intros x x' d d' Hx%Hh Hx'%Hh. by apply H3.
  - intros x x' d d' Hx%Hh Hx'%Hh. by apply H4.
  - intros k x d Hk%Hsub. by apply H5.
  - split; [apply NoDup_cons; split; [|done]; intros Hr; by apply (H6 r m)|].
    intros x k Hx. cbn [app] in Hx. apply elem_of_cons in Hx as [->|Hx].
    + intros Hk. pose proof (Hsub _ _ Hk) as Hk0. destruct (H2 r) as (d & Hd & _); [right; eauto|].
      assert (k = m) as -> by (rewrite <- (proj1 (H5 k r d Hk0 Hd)); by apply (H5 m r d)).
      cbn in Hk. by rewrite lookup_delete_eq in Hk.
    + intros Hk%Hsub. by apply (H6 x k).
Qed.

Lemma in_line_insert (s s' : session) (k r : Z) :
  toSend (tb s) !! k = None -> toSend (tb s') = <[k := r]> (toSend (tb s)) -> in_line s' ≡ₚ r :: in_line s.
Proof.
  intros Hk E. unfold in_line. rewrite E, !entries_perm, map_to_list_insert by done. done.
Qed.

(** A request in transit put in line under its number. *)
Lemma put_in_line (p : list Z) (s : session) (m r : Z) (d d' : RequestData) :
  transit (r :: p) s -> heap (tb s) !! r = Some d -> used s m -> akin d d' -> msgId d' = msgId d ->
  let s' := set_tb (fun t => set_toSend (emplace (requestId d) r (toSend t)) t)
    (set_tb (fun t => set_resendingIds (emplace m (requestId d) (resendingIds t)) t) (touch r d' s)) in
  resent (r :: p) p s s' /\ toSend (tb s') = <[requestId d := r]> (toSend (tb s)).
Proof.
  intros [H Hl] Hd Hm Ha Hid s'. cbn [app] in H.
  assert (toSend (tb s) !! requestId d = None) as Hnone.
  { apply eq_None_not_Some. intros [r' Hr'].
    assert (r' ∈ in_line s) as Hin by (apply elem_of_line; eauto).
    destruct (inv_held _ _ H r') as (d1 & Hd1 & _); [left; right; apply elem_of_app; by right|].
    assert (r = r') as <-.
    { apply (inv_rid _ _ H r r' d d1); [by left; left|left; right; apply elem_of_app; by right|done|done|].
      symmetry. by eapply Hl. }
    destruct (inv_wait _ _ H) as [Hnd _]. apply NoDup_cons in Hnd as [Hnr _]. apply Hnr, elem_of_app. by right. }
  assert (toSend (tb s') = <[requestId d := r]> (toSend (tb s))) as Es by (cbn; by apply emplace_fresh).
  split; [|done]. pose proof (in_line_insert s s' _ _ Hnone Es) as Ep.
  assert (p ++ in_line s' ≡ₚ r :: p ++ in_line s) as Ew by (rewrite Ep; solve_Permutation).
  destruct (inv_touch (e := idle) _ s r d d' H Hd Ha Hid)
    as (H' & [_ Kd _ _ _] & _).
  assert (inv (r :: p ++ in_line s) s') as H''.
  { destruct H' as [H1 H2 H3 H4 H5 H6 H7]. split; try done.
    intros k [Hk|Hk]; [|apply H7; by right]. cbn in Hk. destruct (decide (m = k)) as [<-|Hne]; [done|].
    rewrite lookup_emplace_ne in Hk by done. apply H7. by left. }
  split; [|intros x; unfold held; by rewrite Ew| |done|done|done].
  - split; [by eapply inv_perm|]. intros k x dx. rewrite Es. intros Hk Hx.
    change (<[r := d']> (heap (tb s)) !! x = Some dx) in Hx.
    assert (forall k x dx, toSend (tb s) !! k = Some x -> <[r := d']> (heap (tb s)) !! x = Some dx -> requestId dx = k)
      as Hold.
    { intros k0 x0 dx0 Hk0 Hx0. apply lookup_insert_Some in Hx0 as [[<- <-]|[_ Hx0]]; [|by eapply Hl].
      rewrite (proj1 Ha). by eapply Hl. }
    apply lookup_insert_Some in Hk as [[<- <-]|[_ Hk]]; [|by eapply Hold].
    rewrite lookup_insert_eq in Hx. injection Hx as <-. apply Ha.
  - intros x dx Hx. destruct (Kd x dx Hx) as (dx' & Hx' & E & _). by exists dx'.
Qed.

(** ** Sending again *)

Context (now : Z).

Definition requeued (d : RequestData) : RequestData :=
  mk_request (buffer d) (after d) now (requestId d) (needsLayer d) true.

Lemma requeued_akin (d : RequestData) : good_buffer (buffer d) -> akin d (requeued d).
Proof. intros. unfold akin. by split_and!. Qed.

Lemma resend_all_step (p : list Z) (s : session) (m r : Z) (Q : unit -> session -> Prop) :
  transit (r :: p) s -> used s m ->
  (forall s', resent (r :: p) p s s' -> haveSent (tb s') = haveSent (tb s) ->
     sentContainers (tb s') = sentContainers (tb s) -> Q tt s') ->
  wp (resendAllStep now (m, r)) Q s.
Proof.
  intros Ht Hm HQ. destruct (inv_held _ _ (transit_inv _ _ Ht) r) as (d & Hd & _); [left; by left|].
  destruct (inv_heap _ _ (transit_inv _ _ Ht) r d Hd) as [Hg _ _].
  destruct (put_in_line p s m r d (requeued d) Ht Hd Hm) as [R _]; [by apply requeued_akin|done|].
  unfold resendAllStep. apply wp_bind. eapply wp_deref; [done|]. apply wp_bind, wp_modify, wp_bind, wp_modify, wp_modify.
  by apply HQ.
Qed.

Lemma resend_request_spec (s : session) (m : Z) (Q : unit -> session -> Prop) :
  transit [] s ->
  (forall s', resent [] [] s s' -> haveSent (tb s') = delete m (haveSent (tb s)) ->
     sentContainers (tb s') = sentContainers (tb s) -> Q tt s') ->
  wp (resendRequest now m) Q s.
Proof.
  intros Ht HQ. unfold resendRequest. apply wp_bind, wp_gets. destruct (haveSent (tb s) !! m) as [r|] eqn:Hm.
  2:{ apply wp_ret, HQ; [by apply resent_refl|by rewrite delete_id|done]. }
  apply wp_bind, wp_modify. pose proof (take_out [] s m r Ht Hm) as R1. set (s1 := set_tb _ s) in *.
  assert (used s m) as Hu by (eapply sent_used; [apply Ht|done]).
  apply (resend_all_step [] s1 m r); [apply R1|done|]. intros s2 R2 E2 C2.
  apply HQ; [by eapply resent_trans| |done]. by rewrite E2.
Qed.

Lemma wp_clear_special (p : list Z) (s : session) (m : Z) (Q : unit -> session -> Prop) :
  transit p s -> (forall s', resent p p s s' -> tb s' = tb s -> Q tt s') -> wp (clearSpecialMsgId m) Q s.
Proof. intros Ht HQ. apply wp_modify, HQ; [by apply resent_same|done]. Qed.

Lemma wp_maybe_tell (p : list Z) (s : session) (c : bool) (ev : event) (Q : unit -> session -> Prop) :
  transit p s -> (forall s', resent p p s s' -> tb s' = tb s -> Q tt s') -> wp (if c then tell ev else ret tt) Q s.
Proof.
  intros Ht HQ. destruct c; [apply wp_modify, HQ; [by apply resent_same|done]|apply wp_ret, HQ; [by apply resent_refl|done]].
Qed.

Lemma size_delete_lt {V} (m : gmap Z V) (k : Z) (v : V) : m !! k = Some v -> S (size (delete k m)) = size m.
Proof. intros Hk. rewrite <- (insert_delete_id m k v Hk) at 2. by rewrite map_size_insert_None by apply lookup_delete_eq. Qed.

(** A container taken out of the table. *)
Lemma forget_container (s : session) (m : Z) :
  transit [] s -> resent [] [] s (set_tb (fun t => set_sentContainers (delete m (sentContainers t)) t) s).
Proof.
  intros [[H1 H2 H3 H4 H5 H6 H7] Hl].
  split; [|done|intros r d Hd; by exists d|done|apply delete_subseteq|done].
  split; [|done]. split; try done. intros k [Hk|[Hk|[x Hk]]]; apply H7; [by left|right; by left|right; right].
  cbn in Hk. apply lookup_delete_Some in Hk as [_ Hk]. eauto.
Qed.

(** The containers inside a container that was taken out of the table. *)
Lemma resend_each (fuel : nat) (ids : list Z) (s : session) (Q : unit -> session -> Prop) :
  (forall m s Q, transit [] s -> (size (sentContainers (tb s)) < fuel)%nat ->
     (forall s', resent [] [] s s' -> (sentContainers (tb s) !! m = None -> haveSent (tb s') !! m = None) -> Q tt s') ->
     wp (resend now fuel m (-1)) Q s) ->
  transit [] s -> (size (sentContainers (tb s)) < fuel)%nat ->
  (forall s', resent [] [] s s' ->
     (forall m, m ∈ ids -> sentContainers (tb s) !! m = None -> haveSent (tb s') !! m = None) -> Q tt s') ->
  wp (each (fun m => resend now fuel m (-1)) ids) Q s.
Proof.
  intros Hone. revert s Q. induction ids as [|m ids IH]; intros s Q Ht Hf HQ; cbn [each].
  { apply wp_ret, HQ; [by apply resent_refl|]. by intros ? ?%not_elem_of_nil. }
  apply wp_bind, Hone; [done|done|]. intros s1 R1 N1. apply IH; [apply R1| |].
  { pose proof (map_subseteq_size _ _ (resent_containers _ _ _ _ R1)). lia. }
  intros s2 R2 N2. apply HQ; [by eapply resent_trans|]. intros k [->|Hk]%elem_of_cons Hc.
  - apply eq_None_not_Some. intros [r Hr%(resent_sent _ _ _ _ R2)]. rewrite N1 in Hr by done. done.
  - apply N2; [done|]. apply eq_None_not_Some. intros [c Hc'].
    pose proof (lookup_weaken _ _ _ _ Hc' (resent_containers _ _ _ _ R1)). congruence.
Qed.

(** [resend]: with fuel for the containers it ends, and what it was asked for
    is no longer among the sent requests. *)
Lemma resend_spec (fuel : nat) (s : session) (m canWait : Z) (Q : unit -> session -> Prop) :
  transit [] s -> (size (sentContainers (tb s)) < fuel)%nat ->
  (forall s', resent [] [] s s' ->
     match sentContainers (tb s) !! m with
     | Some c => forall id, id ∈ messages c -> sentContainers (tb s) !! id = None -> haveSent (tb s') !! id = None
     | None => haveSent (tb s') !! m = None
     end -> Q tt s') ->
  wp (resend now fuel m canWait) Q s.
Proof.
  revert s m canWait Q. induction fuel as [|fuel IH]; intros s m canWait Q Ht Hf HQ; [lia|].
  cbn [resend]. apply wp_bind, wp_gets. apply wp_bind.
  assert (forall s1, resent [] [] s s1 ->
    match sentContainers (tb s) !! m with
    | Some c => forall id, id ∈ messages c -> sentContainers (tb s) !! id = None -> haveSent (tb s1) !! id = None
    | None => haveSent (tb s1) !! m = None
    end ->
    wp (clearSpecialMsgId m ;;; if 0 <=? canWait then tell (QueueSendAnything canWait) else ret tt) Q s1) as Hend.
  { intros s1 R1 N1. apply wp_bind, (wp_clear_special []); [apply R1|]. intros s2 R2 E2.
    apply (wp_maybe_tell []); [apply R2|]. intros s3 R3 E3.
    apply HQ; [by eapply resent_trans; [|eapply resent_trans]|]. by rewrite E3, E2. }
  destruct (sentContainers (tb s) !! m) as [c|] eqn:Hc.
  - apply wp_bind, wp_modify. pose proof (forget_container s m Ht) as R1. set (s1 := set_tb _ s) in *.
    pose proof (size_delete_lt _ _ _ Hc) as Hsize.
    apply (resend_each fuel (messages c) s1); [|apply R1|cbn; lia|].
    + intros k s2 Q2 Ht2 Hf2 HQ2. apply IH; [done|done|]. intros s3 R3 N3. apply HQ2; [done|].
      intros Hk. by rewrite Hk in N3.
    + intros s2 R2 N2. apply Hend; [by eapply resent_trans|]. intros id Hid Hnc. apply N2; [done|].
      cbn. by rewrite lookup_delete_None; right.
  - apply resend_request_spec; [done|]. intros s1 R1 E1 _. apply Hend; [done|]. rewrite E1. apply lookup_delete_eq.
Qed.

(** All the sent requests taken out of the table. *)
Lemma take_all (s : session) :
  transit [] s -> resent [] ((entries (haveSent (tb s))).*2) s (set_tb (set_haveSent ∅) s).
Proof.
  intros [H Hl]. set (refs := (entries _).*2). set (s' := set_tb _ s).
  assert (forall m r, haveSent (tb s') !! m <> Some r) as Hno by (intros m r; exact (lookup_empty_Some m r)).
  assert (forall r, r ∈ refs <-> exists m, haveSent (tb s) !! m = Some r) as Hrefs.
  { intros r. unfold refs. rewrite list_elem_of_fmap. split.
    - intros ([m x] & -> & Hm%elem_of_entries). eauto.
    - intros [m Hm]. exists (m, r). by rewrite elem_of_entries. }
  assert (forall r, held (refs ++ in_line s') s' r <-> held ([] ++ in_line s) s r) as Hh.
  { intros r. unfold held. cbn [app]. rewrite elem_of_app, Hrefs. split.
    - intros [[?|?]|[m Hm]]; [by right|by left|]. by apply Hno in Hm.
    - intros [?|?]; left; [by right|by left]. }
  pose proof H as [H1 H2 H3 H4 H5 [Hnd H6] H7].
  split; [|done|intros r d Hd; by exists d|intros m r Hm; by apply Hno in Hm|done|done].
  split; [|done]. split; [done| | | | | |done].
  - intros x Hx%Hh. by apply H2.
  - intros x x' d d' Hx%Hh Hx'%Hh. by apply H3.
  - intros x x' d d' Hx%Hh Hx'%Hh. by apply H4.
  - intros m r d Hm. by apply Hno in Hm.
  - split; [|intros r m _ Hm; by apply Hno in Hm].
    apply NoDup_app. split_and!; [|intros r [m Hm]%Hrefs Hr; by apply (H6 r m)|done].
    unfold refs. apply (NoDup_fmap_2_strong snd).
    + intros [m r] [m' r'] Hm%elem_of_entries Hm'%elem_of_entries E. cbn in E. subst r'.
      destruct (H2 r) as (d & Hd & _); [right; eauto|].
      f_equal. rewrite <- (proj1 (H5 m r d Hm Hd)). by apply (H5 m' r d).
    + apply (NoDup_fmap_1 fst). rewrite entries_keys. apply sorted_elements_NoDup.
Qed.

Lemma resend_all_loop (l : list (Z * Z)) (s : session) (Q : unit -> session -> Prop) :
  transit (l.*2) s -> (forall m r, (m, r) ∈ l -> used s m) ->
  (forall s', resent (l.*2) [] s s' -> haveSent (tb s') = haveSent (tb s) ->
     sentContainers (tb s') = sentContainers (tb s) -> Q tt s') ->
  wp (each (resendAllStep now) l) Q s.
Proof.
  revert s Q. induction l as [|[m r] l IH]; intros s Q Ht Hu HQ; cbn [each].
  { apply wp_ret, HQ; [by apply resent_refl|done|done]. }
  apply wp_bind, (resend_all_step (l.*2)); [done|apply (Hu m r); by left|]. intros s1 R1 E1 C1.
  apply IH; [apply R1| |].
  - intros m' r' Hin. unfold SessionFacts.used. rewrite (resent_generated _ _ _ _ R1). apply (Hu m' r'). by right.
  - intros s2 R2 E2 C2. apply HQ; [by eapply resent_trans|congruence|congruence].
Qed.

Lemma resend_all_spec (s : session) :
  transit [] s -> wp (resendAll now) (fun _ s' => resent [] [] s s' /\ haveSent (tb s') = ∅) s.
Proof.
  intros Ht. unfold resendAll. apply wp_bind, wp_gets, wp_bind, wp_modify, wp_bind.
  pose proof (take_all s Ht) as R1. set (s1 := set_tb _ s) in *.
  apply resend_all_loop; [apply R1| |].
  - intros m r Hin%elem_of_entries. change (used s m). eapply sent_used; [apply Ht|done].
  - intros s2 R2 E2 _. apply wp_modify. split; [|done].
    eapply resent_trans; [exact R1|]. eapply resent_trans; [exact R2|]. apply resent_same; [apply R2|done|done].
Qed.

(** ** Timers *)

Lemma resent_touch (p : list Z) (s : session) (r : Z) (d d' : RequestData) :
  transit p s -> heap (tb s) !! r = Some d -> akin d d' -> msgId d' = msgId d -> resent p p s (touch r d' s).
Proof.
  intros [H Hl] Hd Ha Hm. destruct (inv_touch (e := idle) _ s r d d' H Hd Ha Hm) as (H' & K & _).
  split; [|apply (keeps_held _ _ _ _ _ K)| |done|done|done].
  - split; [done|]. intros k x dx Hk Hx. cbn in Hx.
    apply lookup_insert_Some in Hx as [[<- <-]|[_ Hx]]; [rewrite (proj1 Ha)|]; by eapply Hl.
  - intros x dx Hx. destruct (keeps_data _ _ _ _ _ K x dx Hx) as (dx' & Hx' & E & _). by exists dx'.
Qed.

Lemma wp_foldl {A B} (I : A -> session -> Prop) (f : M session A -> B -> M session A) (acc : M session A) (l : list B) s :
  (forall m x, x ∈ l -> wp m I s -> wp (f m x) I s) -> wp acc I s -> wp (foldl f acc l) I s.
Proof.
  revert acc. induction l as [|x l IH]; intros acc Hf Hacc; [done|]. cbn [foldl]. apply IH.
  - intros m y Hy. apply Hf. by right.
  - apply Hf; [by left|done].
Qed.

Lemma check_sent_spec (s : session) :
  transit [] s -> wp (checkSentRequests now) (fun _ s' => resent [] [] s s' /\ haveSent (tb s') = haveSent (tb s)) s.
Proof.
  intros Ht. unfold checkSentRequests. apply wp_bind, wp_gets. destruct (_ && _).
  { apply wp_bind, wp_modify, wp_bind, wp_modify, wp_modify. split; [by apply resent_same|done]. }
  apply wp_bind, wp_gets, wp_bind. set (I s1 := resent [] [] s s1 /\ haveSent (tb s1) = haveSent (tb s)).
  assert (forall s1 s2, I s1 -> tb s2 = tb s1 -> generated s2 = generated s1 -> I s2) as Hsame.
  { intros s1 s2 [R E] E2 G2. split; [|congruence]. eapply resent_trans; [exact R|]. apply resent_same; [apply R|done|done]. }
  eapply wp_mono; [apply (wp_foldl (fun _ => I))|].
  - intros m [k r] Hin%elem_of_entries Hm. unfold checkSentStep. apply wp_bind. eapply wp_mono; [exact Hm|].
    intros [requesting next] s1 [R1 E1].
    destruct (inv_held _ _ (transit_inv _ _ (resent_transit _ _ _ _ R1)) r) as (d & Hd & _);
      [right; exists k; by rewrite E1|].
    destruct (inv_heap _ _ (transit_inv _ _ (resent_transit _ _ _ _ R1)) r d Hd) as [Hg _ _].
    apply wp_bind. eapply wp_deref; [done|]. destruct (_ <=? _); [|by apply wp_ret].
    apply wp_bind, wp_modify, wp_bind, wp_gets, wp_bind, wp_modify, wp_ret.
    apply (Hsame (touch r (with_sent_time now d) s1)); [|done|done]. split; [|done].
    eapply resent_trans; [exact R1|]. eapply resent_touch; [apply R1|done|by apply with_sent_time_akin|done].
  - apply wp_ret. split; [by apply resent_refl|done].
  - intros [requesting next] s1 HI. apply wp_bind.
    assert (forall s2, I s2 -> wp (if next <? kCheckSentRequestTimeout
      then tell (CheckSentRequestsIn next) ;;; modify (set_timer true) else ret tt) (fun _ => I) s2) as Hend.
    { intros s2 H2. destruct (_ <? _); [|by apply wp_ret]. apply wp_bind, wp_modify, wp_modify. by apply (Hsame s2). }
    destruct requesting; [apply wp_modify|apply wp_ret]; apply Hend; [by apply (Hsame s1)|done].
Qed.

Lemma clear_containers_spec (fuel : nat) (timerActive : bool) (s : session) :
  transit [] s -> (size (sentContainers (tb s)) < fuel)%nat ->
  wp (clearOldContainers now fuel timerActive) (fun _ s' => resent [] [] s s') s.
Proof.
  intros Ht Hf. unfold clearOldContainers. apply wp_bind, wp_gets, wp_bind.
  eapply wp_mono; [apply (wp_foldl (fun _ s' => resent [] [] s s'))|].
  - intros m k _ Hm. unfold clearContainerStep. apply wp_bind. eapply wp_mono; [exact Hm|].
    intros [again next] s1 R1. apply wp_bind, wp_gets.
    destruct (sentContainers (tb s1) !! k) as [c|] eqn:Hc; [|by apply wp_ret]. destruct (_ <=? _); [|by apply wp_ret].
    apply wp_bind, wp_modify. pose proof (forget_container s1 k (resent_transit _ _ _ _ R1)) as R2. set (s2 := set_tb _ s1) in *.
    pose proof (map_subseteq_size _ _ (resent_containers _ _ _ _ R1)).
    pose proof (map_subseteq_size _ _ (resent_containers _ _ _ _ R2)).
    apply wp_bind, resend_each; [|apply R2|lia|].
    + intros m' s3 Q3 T3 F3 HQ3. apply resend_spec; [done|done|]. intros s4 R4 N4. apply HQ3; [done|].
      intros Hn. by rewrite Hn in N4.
    + intros s3 R3 _. apply wp_ret. by eapply resent_trans; [|eapply resent_trans].
  - apply wp_ret. by apply resent_refl.
  - intros [again next] s1 R1. apply wp_bind.
    assert (forall ev s2, resent [] [] s s2 -> wp (tell ev) (fun _ s' => resent [] [] s s') s2) as Htell.
    { intros ev s2 R2. apply wp_modify. eapply resent_trans; [exact R2|]. apply resent_same; [apply R2|done|done]. }
    assert (forall s2, resent [] [] s s2 -> wp (if next <? kSentContainerLives then tell (ClearOldContainersIn next)
      else if negb timerActive then tell (ClearOldContainersEach next) else ret tt) (fun _ s' => resent [] [] s s') s2) as Hend.
    { intros s2 R2. destruct (next <? _); [by apply Htell|]. destruct (negb timerActive); [by apply Htell|by apply wp_ret]. }
    destruct again; [|by apply wp_ret, Hend]. eapply wp_mono; [by apply Htell|]. intros [] s2. apply Hend.
Qed.

End Resend.
