(* ===== verification/SessionCalm.v ===== *)
(** * Message ids and the requests they stand for

    Which requests a message id answers, which ids an acknowledgement covers
    through the containers, and the operations that give no id to another
    request. *)

From S2P Require Import Prelude StateMonad ReceivedIds Requests RequestFacts Session SessionFacts SessionSend SessionResend.

(** ** Ids keep the requests they answer *)

(** [m] is a message id of the request numbered [x]. *)
Definition answers (s : session) (m x : Z) : Prop :=
  (exists r d, haveSent (tb s) !! m = Some r /\ heap (tb s) !! r = Some d /\ requestId d = x)
  \/ resendingIds (tb s) !! m = Some x.

(** The ids [acks] acknowledge: they and those of the messages in the containers
    sent as one of them. *)
Inductive covered (s : session) (acks : Z -> Prop) : Z -> Prop :=
  | covered_id m : acks m -> covered s acks m
  | covered_in k c m : covered s acks k -> sentContainers (tb s) !! k = Some c -> m ∈ messages c -> covered s acks m.

Lemma covered_more (s s' : session) (acks acks' : Z -> Prop) (m : Z) :
  sentContainers (tb s') ⊆ sentContainers (tb s) -> (forall k, acks k -> covered s acks' k) ->
  covered s' acks m -> covered s acks' m.
Proof.
  intros Hs Ha. induction 1 as [m Hm|k c m _ IH Hk Hm]; [auto|].
  eapply covered_in; [exact IH|by eapply lookup_weaken|done].
Qed.

(** The ids for which a state that says received is reported. *)
Definition reported (ids states : list Z) : list Z :=
  if bool_decide (length states = length ids) then (filter (fun p => Z.land p.2 0x07 = 0x04) (zip ids states)).*1 else [].

(** No message id comes to answer another request, the requests for states and
    the containers are those there were, and the requests are as they were. *)
Record calm (s s' : session) : Prop := {
  calm_answers : forall m x, answers s' m x -> answers s m x;
  calm_heap : forall r d, heap (tb s) !! r = Some d -> exists d', heap (tb s') !! r = Some d' /\ buffer d' = buffer d;
  calm_states : stateAndResendRequests (tb s') ⊆ stateAndResendRequests (tb s);
  calm_containers : sentContainers (tb s') ⊆ sentContainers (tb s) }.

#[global] Instance calm_preorder : PreOrder calm.
Proof.
  split; [split; [done|intros r d Hd; by exists d|done|done]|].
  intros s s' s'' [A1 H1 S1 C1] [A2 H2 S2 C2]. split; [auto| |by etrans|by etrans].
  intros r d Hd. destruct (H1 r d Hd) as (d1 & Hd1 & E1). destruct (H2 r d1 Hd1) as (d2 & Hd2 & E2). exists d2. split; [done|congruence].
Qed.

Lemma calm_stored (s s' : session) (r : Z) : calm s s' -> is_Some (heap (tb s) !! r) -> is_Some (heap (tb s') !! r).
Proof. intros C [d Hd]. destruct (calm_heap _ _ C r d Hd) as (d' & Hd' & _). eauto. Qed.

Lemma calm_same (s s' : session) : tb s' = tb s -> calm s s'.
Proof. intros E. split; unfold answers; rewrite E; [done|intros r d Hd; by exists d|done|done]. Qed.

(** Tables that lost entries. *)
Lemma calm_fewer (t : tables) (s : session) :
  heap t = heap (tb s) -> haveSent t ⊆ haveSent (tb s) -> resendingIds t ⊆ resendingIds (tb s) ->
  stateAndResendRequests t ⊆ stateAndResendRequests (tb s) -> sentContainers t ⊆ sentContainers (tb s) ->
  calm s (set_tb (fun _ => t) s).
Proof.
  intros Eh Hs Hr Hst Hc. split; [|cbn; rewrite Eh; intros r d Hd; by exists d|done|done].
  intros m x [(r & d & Hm & Hd & E)|Hm]; cbn in *; [left|right; by eapply lookup_weaken].
  rewrite Eh in Hd. exists r, d. split_and!; [by eapply lookup_weaken|done|done].
Qed.

(** A sent request that is not sent any more but is to be sent again. *)
Lemma calm_resending (s s' : session) (m r : Z) (d d' : RequestData) :
  haveSent (tb s) !! m = Some r -> heap (tb s) !! r = Some d -> requestId d' = requestId d -> buffer d' = buffer d ->
  haveSent (tb s') ⊆ haveSent (tb s) -> heap (tb s') = <[r := d']> (heap (tb s)) ->
  resendingIds (tb s') = emplace m (requestId d) (resendingIds (tb s)) ->
  stateAndResendRequests (tb s') = stateAndResendRequests (tb s) ->
  sentContainers (tb s') = sentContainers (tb s) -> calm s s'.
Proof.
  intros Hm Hd E Eb Hs Eh Er Est Ec. split; [| |by rewrite Est|by rewrite Ec].
  2:{ intros k dk Hk. rewrite Eh. destruct (decide (k = r)) as [->|Hne].
      - rewrite lookup_insert_eq. exists d'. split; [done|congruence].
      - rewrite lookup_insert_ne by done. by exists dk. }
  intros k x [(r' & y & Hk & Hy & <-)|Hk].
  - left. pose proof (lookup_weaken _ _ _ _ Hk Hs) as Hk0. rewrite Eh in Hy.
    apply lookup_insert_Some in Hy as [[<- <-]|[_ Hy]]; eauto 6.
  - rewrite Er in Hk. destruct (decide (m = k)) as [<-|Hne]; [|right; by rewrite lookup_emplace_ne in Hk].
    rewrite lookup_emplace_eq in Hk. destruct (resendingIds (tb s) !! m) as [y|] eqn:Ey; cbn in Hk; [right; congruence|].
    left. exists r, d. split_and!; [done|done|congruence].
Qed.

Lemma calms_special (f : special -> special) : along calm (modify (set_sp f)).
Proof. apply along_modify. intros. by apply calm_same. Qed.
Lemma calms_tell (ev : event) : along calm (tell ev).
Proof. apply along_modify. intros. by apply calm_same. Qed.
#[export] Hint Resolve calms_special calms_tell : along.

Lemma calms_resend_request (now m : Z) : along calm (resendRequest now m).
Proof.
  intros s [] s'. unfold resendRequest, bind, gets. destruct (haveSent (tb s) !! m) as [r|] eqn:Hm;
    [|intros [= <-]; reflexivity].
  unfold modify, deref, store. cbn [tb set_tb heap set_haveSent]. destruct (heap (tb s) !! r) as [d|] eqn:Hd; [|done].
  intros [= <-].
  eapply (calm_resending s _ m r d (mk_request (buffer d) (after d) now (requestId d) (needsLayer d) true)); try done.
  apply delete_subseteq.
Qed.

Lemma calms_resend (now : Z) (fuel : nat) (m canWait : Z) : along calm (resend now fuel m canWait).
Proof.
  revert m canWait. induction fuel as [|fuel IH]; intros m canWait; cbn [resend]; [apply along_lift|].
  apply along_bind; [apply along_gets|]. intros c. apply along_bind.
  - destruct c as [c|]; [|apply calms_resend_request]. apply along_bind; [|intros; by apply along_each].
    apply along_modify. intros s. apply (calm_fewer (set_sentContainers (delete m (sentContainers (tb s))) (tb s))); try done.
    apply delete_subseteq.
  - intros []. unfold clearSpecialMsgId. along.
Qed.

(** Every sent request is taken out first, so the steps are compared with the
    session before. *)
Definition resending (s s' : session) : Prop :=
  (forall m x, resendingIds (tb s') !! m = Some x -> answers s m x)
  /\ (forall r d', heap (tb s') !! r = Some d' -> exists d, heap (tb s) !! r = Some d /\ requestId d' = requestId d)
  /\ (forall r d, heap (tb s) !! r = Some d -> exists d', heap (tb s') !! r = Some d' /\ buffer d' = buffer d)
  /\ (stateAndResendRequests (tb s') = stateAndResendRequests (tb s) /\ sentContainers (tb s') = sentContainers (tb s))
  /\ haveSent (tb s') = ∅.

Lemma resending_step (now : Z) (s s1 s2 : session) (m r : Z) :
  resending s s1 -> haveSent (tb s) !! m = Some r -> resendAllStep now (m, r) s1 = Some (tt, s2) -> resending s s2.
Proof.
  intros (A & H & H' & Est & Es) Hm. unfold resendAllStep, bind, deref, store, modify.
  destruct (heap (tb s1) !! r) as [d|] eqn:Hd; [|done]. intros [= <-].
  destruct (H r d Hd) as (d0 & Hd0 & E0). split_and!; cbn; [| | |apply Est|apply Est|done].
  - intros k x Hk. destruct (decide (m = k)) as [<-|Hne]; [|apply A; by rewrite lookup_emplace_ne in Hk].
    rewrite lookup_emplace_eq in Hk. destruct (resendingIds (tb s1) !! m) as [y|] eqn:Ey; cbn in Hk;
      [apply A; congruence|]. left. exists r, d0. split_and!; [done|done|congruence].
  - intros k y Hy. apply lookup_insert_Some in Hy as [[<- <-]|[_ Hy]]; [by exists d0|by apply H].
  - intros k dk Hk. destruct (H' k dk Hk) as (d' & Hd' & Eb). destruct (decide (k = r)) as [->|Hne].
    + rewrite lookup_insert_eq. eexists. split; [done|]. cbn. congruence.
    + rewrite lookup_insert_ne by done. by exists d'.
Qed.

Lemma calms_resend_all (now : Z) : along calm (resendAll now).
Proof.
  intros s [] s'. unfold resendAll, bind, gets, modify.
  assert (forall l s1 s2, (forall m r, (m, r) ∈ l -> haveSent (tb s) !! m = Some r) -> resending s s1 ->
    each (resendAllStep now) l s1 = Some (tt, s2) -> resending s s2) as Hloop.
  { induction l as [|[m r] l IH]; intros s1 s2 Hl Hs1; cbn [each]; [by intros [= <-]|]. unfold bind.
    destruct (resendAllStep now (m, r) s1) as [[[] s3]|] eqn:E; [|done].
    apply IH; [intros; apply Hl; by right|]. eapply resending_step; [done|apply Hl; by left|done]. }
  destruct (each _ _ _) as [[[] s1]|] eqn:E; [|done]. apply Hloop in E.
  - intros [= <-]. destruct E as (A & _ & H & Est & Es). transitivity s1; [|by apply calm_same].
    split; [|done|by rewrite (proj1 Est)|by rewrite (proj2 Est)]. intros m x [(r & d & Hm & _)|Hm]; [|by apply A].
    rewrite Es in Hm. by apply lookup_empty_Some in Hm.
  - intros m r Hin. by apply elem_of_entries.
  - split_and!; cbn; [intros m x Hm; by right|intros r d Hd; by exists d|intros r d Hd; by exists d|done..].
Qed.

(** The tables after entries were taken out. *)
Ltac calm_fewer := apply along_modify; intros ?;
  eapply (calm_fewer _ _); try done; try apply delete_subseteq.

Lemma calms_ack_one (cb : Z -> bool) (byResponse : bool) (more : list Z) (m : Z) : along calm (ackOne cb byResponse more m).
Proof.
  unfold ackOne. apply along_bind; [apply along_gets|]. intros t. along.
  all: calm_fewer.
Qed.

Lemma calms_acked (cb : Z -> bool) (fuel : nat) (ids : list Z) (byResponse : bool) :
  along calm (requestsAcked cb fuel ids byResponse).
Proof.
  revert ids byResponse. induction fuel as [|fuel IH]; intros ids byResponse; cbn [requestsAcked]; [apply along_lift|].
  apply along_bind.
  - generalize (@nil Z). induction ids as [|m ids IHids]; intros more; cbn [ackEach]; [apply along_ret|].
    apply along_bind; [apply calms_ack_one|done].
  - intros more. apply along_bind; [calm_fewer|]. intros _. along.
Qed.

Lemma calms_states (cb : Z -> bool) (now : Z) (fuel : nat) (ids states : list Z) :
  along calm (handleMsgsStates cb now fuel ids states).
Proof.
  unfold handleMsgsStates. destruct (bool_decide _); [apply along_ret|]. destruct (negb _); [apply along_ret|].
  apply along_bind; [|intros; apply calms_acked].
  generalize (@nil Z). induction (zip ids states) as [|[m state] l IH]; intros acked; cbn [statesLoop]; [apply along_ret|].
  apply along_bind; [apply along_gets|]. intros t.
  destruct (haveSent t !! m); [|apply IH]. destruct (_ =? _); [apply IH|].
  apply along_bind; [apply calms_resend|]. intros _. apply IH.
Qed.
