(* ===== verification/SessionAck.v ===== *)
(** * Requests leave a session only when they may

    [requestsAcked], [handleMsgsStates], [cancel] and [sendPrepared]: which
    requests leave the session and which come in. *)

From S2P Require Import Prelude StateMonad ReceivedIds Requests RequestFacts Session SessionFacts SessionSend SessionResend SessionCalm.

Section Ack.
Context {msg_id : nat -> Z} {limit : nat}.

#[local] Abbreviation used := (used msg_id limit).
#[local] Abbreviation inv := (inv msg_id limit).
#[local] Abbreviation transit := (@transit msg_id limit).

(** ** Requests that leave *)

(** No request comes in, and those that leave satisfy [ok]. *)
Record evolves (ok : Z -> Prop) (s s' : session) : Prop := {
  evolves_transit : transit [] s';
  evolves_back : forall x, live s' x -> live s x;
  evolves_kept : forall x, live s x -> live s' x \/ ok x;
  evolves_containers : sentContainers (tb s') ⊆ sentContainers (tb s);
  evolves_generated : generated s' = generated s }.

Lemma evolves_refl (ok : Z -> Prop) (s : session) : transit [] s -> evolves ok s s.
Proof. intros. split; try done. by left. Qed.

Lemma evolves_trans (ok : Z -> Prop) (s s' s'' : session) : evolves ok s s' -> evolves ok s' s'' -> evolves ok s s''.
Proof.
  intros [T1 B1 K1 C1 G1] [T2 B2 K2 C2 G2]. split; [done|auto| |by etrans|congruence].
  intros x Hx. destruct (K1 x Hx) as [Hx'|]; [by apply K2|by right].
Qed.

Lemma evolves_more (ok ok' : Z -> Prop) (s s' : session) : (forall x, ok x -> ok' x) -> evolves ok s s' -> evolves ok' s s'.
Proof. intros Hok [T B K C G]. split; try done. intros x Hx. destruct (K x Hx); auto. Qed.

Lemma live_of_held (s : session) (x : Z) : transit [] s ->
  live s x <-> exists r d, held (in_line s) s r /\ heap (tb s) !! r = Some d /\ requestId d = x.
Proof. intros Ht. apply (live_held (msg_id := msg_id) (limit := limit)). by apply transit_wf. Qed.

Lemma resent_live (s s' : session) (x : Z) : transit [] s -> resent (msg_id := msg_id) (limit := limit) [] [] s s' ->
  live s' x <-> live s x.
Proof.
  intros Ht [Ht' Hh Hd _ _ _]. rewrite !live_of_held by done. split; intros (r & d & Hr & Hrd & E).
  - apply Hh in Hr. destruct (inv_held _ _ (transit_inv _ _ Ht) r Hr) as (d0 & Hd0 & _).
    destruct (Hd r d0 Hd0) as (d' & Hd' & E'). exists r, d0. split_and!; [done|done|congruence].
  - destruct (Hd r d Hrd) as (d' & Hd' & E'). exists r, d'. split_and!; [by apply Hh|done|congruence].
Qed.

Lemma resent_evolves (ok : Z -> Prop) (s s' : session) :
  transit [] s -> resent (msg_id := msg_id) (limit := limit) [] [] s s' -> evolves ok s s'.
Proof.
  intros Ht R. split; [apply R| | |apply R|apply R]; intros x.
  - intros Hx. by apply (resent_live s s' x Ht R).
  - intros Hx. left. by apply (resent_live s s' x Ht R).
Qed.

(** A session with fewer requests. *)
Record fewer (s s' : session) : Prop := {
  fewer_heap : heap (tb s') = heap (tb s);
  fewer_sent : haveSent (tb s') ⊆ haveSent (tb s);
  fewer_line : toSend (tb s') ⊆ toSend (tb s);
  fewer_resending : resendingIds (tb s') ⊆ resendingIds (tb s);
  fewer_containers : sentContainers (tb s') ⊆ sentContainers (tb s);
  fewer_generated : generated s' = generated s;
  fewer_keys : forall m, keyed (tb s') m -> used s m }.

Lemma fewer_transit (s s' : session) : transit [] s -> fewer s s' -> transit [] s'.
Proof.
  intros [H Hl] [Eh Hs Ht _ _ Eg Hk].
  assert (forall m r, haveSent (tb s') !! m = Some r -> haveSent (tb s) !! m = Some r) as Hs'
    by (intros; by eapply lookup_weaken).
  assert (forall m r, toSend (tb s') !! m = Some r -> toSend (tb s) !! m = Some r) as Ht'
    by (intros; by eapply lookup_weaken).
  assert (forall r, r ∈ in_line s' -> r ∈ in_line s) as Hin
    by (intros r [k Hr]%elem_of_line; apply elem_of_line; eauto).
  assert (forall r, held (in_line s') s' r -> held (in_line s) s r) as Hh.
  { intros r [Hr|[m Hm]]; [left; auto|right; eauto]. }
  assert (forall m, used s' m <-> used s m) as Hu by (intros m; unfold SessionFacts.used; by rewrite Eg).
  cbn [app] in H. pose proof H as [H1 H2 H3 H4 H5 [Hnd H6] H7]. split; [cbn [app]; split|].
  - by rewrite Eh.
  - intros r Hr%Hh. destruct (H2 r Hr) as (d & Hd & Hn & Hz). exists d. rewrite Eh, Hu. done.
  - intros r r' d d' Hr%Hh Hr'%Hh. rewrite Eh. by apply H3.
  - intros r r' d d' Hr%Hh Hr'%Hh. rewrite Eh. by apply H4.
  - intros m r d Hm%Hs'. rewrite Eh. by apply H5.
  - split; [|intros r m Hr%Hin Hm%Hs'; by apply (H6 r m)]. unfold in_line.
    apply (NoDup_fmap_2_strong snd).
    + intros [k r] [k' r'] Hkr%elem_of_entries%Ht' Hkr'%elem_of_entries%Ht' E. cbn in E. subst r'.
      destruct (H2 r) as (d & Hd & _); [left; apply elem_of_line; eauto|].
      f_equal. rewrite <- (Hl k r d Hkr Hd). by eapply Hl.
    + apply (NoDup_fmap_1 fst). rewrite entries_keys. apply sorted_elements_NoDup.
  - intros m Hm%Hk. by apply Hu.
  - intros k r d Hk'%Ht'. rewrite Eh. by apply Hl.
Qed.

Lemma fewer_evolves (ok : Z -> Prop) (s s' : session) : transit [] s -> fewer s s' ->
  (forall k r d, toSend (tb s) !! k = Some r -> heap (tb s) !! r = Some d -> toSend (tb s') !! k = Some r \/ ok k) ->
  (forall m r d, haveSent (tb s) !! m = Some r -> heap (tb s) !! r = Some d ->
     haveSent (tb s') !! m = Some r \/ ok (requestId d)) ->
  evolves ok s s'.
Proof.
  intros Ht Hf Hline Hsent. pose proof (fewer_transit _ _ Ht Hf) as Ht'. destruct Hf as [Eh Hs Hl _ Hc Eg _].
  split; [done| | |done|done]; intros x.
  - intros [[r Hr]|(m & r & d & Hm & Hd & E)].
    + left. exists r. by eapply lookup_weaken.
    + right. rewrite Eh in Hd. exists m, r, d. split_and!; [by eapply lookup_weaken|done|done].
  - intros [[r Hr]|(m & r & d & Hm & Hd & E)].
    + destruct (inv_held _ _ (transit_inv _ _ Ht) r) as (d & Hd & _); [left; apply elem_of_line; eauto|].
      destruct (Hline x r d Hr Hd); [left; left; by exists r|by right].
    + destruct (Hsent m r d Hm Hd); [left; right; exists m, r, d; by rewrite Eh|right; congruence].
Qed.

Lemma fewer_refl (s : session) : transit [] s -> fewer s s.
Proof. intros Ht. split; try done. apply (inv_keys _ _ (transit_inv _ _ Ht)). Qed.

Lemma fewer_trans (s s' s'' : session) : fewer s s' -> fewer s' s'' -> fewer s s''.
Proof.
  intros [E1 S1 L1 R1 C1 G1 K1] [E2 S2 L2 R2 C2 G2 K2]. split; [congruence|by etrans..|congruence|].
  intros m Hm%K2. unfold SessionFacts.used in *. by rewrite <- G1.
Qed.

Lemma fewer_answers (s s' : session) (m x : Z) : fewer s s' -> answers s' m x -> answers s m x.
Proof.
  intros [Eh Hs _ Hr _ _ _] [(r & d & Hm & Hd & E)|Hm].
  - left. rewrite Eh in Hd. exists r, d. split_and!; [by eapply lookup_weaken|done|done].
  - right. by eapply lookup_weaken.
Qed.

Lemma fewer_tb (s : session) (t : tables) :
  transit [] s -> heap t = heap (tb s) -> haveSent t ⊆ haveSent (tb s) -> toSend t ⊆ toSend (tb s) ->
  resendingIds t ⊆ resendingIds (tb s) -> sentContainers t ⊆ sentContainers (tb s) ->
  (forall m, is_Some (ackedIds t !! m) -> used s m) ->
  fewer s (set_tb (fun _ => t) s).
Proof.
  intros Ht Eh Hs Hl Hr Hc Ha. split; try done.
  intros m [[x Hm]|[Hm|[x Hm]]]; [|by apply Ha|]; apply (inv_keys _ _ (transit_inv _ _ Ht)).
  - left. exists x. by eapply lookup_weaken.
  - right. right. exists x. by eapply lookup_weaken.
Qed.

Lemma acked_used (s : session) (m : Z) : transit [] s -> is_Some (ackedIds (tb s) !! m) -> used s m.
Proof. intros Ht Hm. apply (inv_keys _ _ (transit_inv _ _ Ht)). right. by left. Qed.

Lemma emplace_used (s : session) (k v m : Z) : transit [] s -> used s k ->
  is_Some (emplace k v (ackedIds (tb s)) !! m) -> used s m.
Proof.
  intros Ht Hk Hm. destruct (decide (k = m)) as [<-|Hne]; [done|]. rewrite lookup_emplace_ne in Hm by done.
  by apply acked_used.
Qed.

(** ** Requests in and out of the line *)

Definition cancelled (reqId msgId : Z) (s : session) (x : Z) : Prop :=
  x = reqId \/ exists r d, haveSent (tb s) !! msgId = Some r /\ heap (tb s) !! r = Some d /\ requestId d = x.

Lemma cancel_spec (reqId msgId : Z) (s : session) :
  transit [] s -> wp (cancel reqId msgId) (fun _ s' => evolves (cancelled reqId msgId s) s s') s.
Proof.
  intros Ht. unfold cancel. apply wp_bind.
  assert (forall s1, fewer s s1 -> evolves (cancelled reqId msgId s) s s1 ->
    wp (if negb (msgId =? 0) then modify (set_tb (fun t => set_haveSent (delete msgId (haveSent t)) t)) else ret tt)
      (fun _ s' => evolves (cancelled reqId msgId s) s s') s1) as Hsent.
  { intros s1 F1 V1. destruct (negb _); [|by apply wp_ret]. apply wp_modify. set (s2 := set_tb _ s1).
    eapply evolves_trans; [exact V1|]. assert (fewer s1 s2) as F2.
    { apply (fewer_tb s1 (tb s2)); try done; [apply V1|apply delete_subseteq|intros k; apply (acked_used s1), V1]. }
    apply fewer_evolves; [apply V1|done|by left|]. intros k r d Hk Hd.
    destruct (decide (k = msgId)) as [->|Hne]; [right; right|left; cbn; by rewrite lookup_delete_ne].
    rewrite (fewer_heap _ _ F1) in Hd. exists r, d. split_and!; [|done|done].
    eapply lookup_weaken; [done|apply F1]. }
  destruct (negb (reqId =? 0)).
  - apply wp_modify. set (s1 := set_tb _ s). assert (fewer s s1) as F1.
    { apply (fewer_tb s (tb s1)); try done; [apply delete_subseteq|intros k; by apply (acked_used s)]. }
    apply Hsent; [done|]. apply fewer_evolves; [done|done| |by left].
    intros k r d Hk Hd. destruct (decide (k = reqId)) as [->|Hne]; [right; by left|].
    left. cbn. by rewrite lookup_delete_ne.
  - apply wp_ret, Hsent; [by apply fewer_refl|by apply evolves_refl].
Qed.

(** The buffer [sendPrepared] leaves: the ids are zero. *)
Lemma zeroed_spec (d : RequestData) : good_buffer (buffer d) ->
  let d' := with_buffer (put_at 6 [0] (put_at 4 (words64 0) (buffer d))) d in
  akin d d' /\ msgId d' = 0.
Proof.
  intros Hg. destruct (set_ids_spec (buffer d) 0 0 Hg) as (b1 & b2 & E1 & _ & E2 & Hg2 & L & A & _ & W7 & _ & _).
  { unfold fits_u. lia. }
  unfold setMsgId in E1. rewrite (proj1 Hg) in E1. injection E1 as <-. unfold setSeqNo in E2.
  destruct (has_body _); [|done]. injection E2 as <-. split; [|exact L]. unfold akin. by split_and!.
Qed.

Definition may_enter (s : session) (ref : Z) (d : RequestData) : Prop :=
  heap (tb s) !! ref = Some d /\ requestId d <> 0 /\ ~ live s (requestId d) /\ ~ held (in_line s) s ref.

Lemma send_prepared_spec (s : session) (ref canWait : Z) (d : RequestData) :
  transit [] s -> may_enter s ref d ->
  wp (sendPrepared ref canWait) (fun _ s' => transit [] s' /\ sentContainers (tb s') = sentContainers (tb s)
    /\ generated s' = generated s /\ forall x, live s' x <-> live s x \/ x = requestId d) s.
Proof.
  intros Ht (Hd & Hn & Hlive & Hheld). pose proof (transit_inv _ _ Ht) as H. cbn [app] in H.
  destruct (inv_heap _ _ H ref d Hd) as [Hg _ _]. destruct (zeroed_spec d Hg) as [Ha Hz].
  set (d' := with_buffer _ d) in *.
  unfold sendPrepared. apply wp_bind. eapply wp_deref; [done|]. apply wp_bind, wp_modify, wp_bind, wp_modify.
  set (s' := set_tb (fun t => set_heap _ t) _).
  assert (toSend (tb s) !! requestId d = None) as Hnone by (apply eq_None_not_Some; intros Hx; by apply Hlive; left).
  assert (toSend (tb s') = <[requestId d := ref]> (toSend (tb s))) as El by (cbn; by apply emplace_fresh).
  pose proof (in_line_insert s s' _ _ Hnone El) as Ep.
  assert (forall x, held (in_line s') s' x <-> x = ref \/ held (in_line s) s x) as Hh.
  { intros x. unfold held. rewrite Ep, elem_of_cons. tauto. }
  assert (forall x y, heap (tb s') !! x = Some y -> x = ref /\ y = d' \/ x <> ref /\ heap (tb s) !! x = Some y) as Hback.
  { intros x y Hx. cbn in Hx. apply lookup_insert_Some in Hx as [[<- <-]|[? Hx]]; [by left|by right]. }
  assert (forall x y, held (in_line s) s x -> heap (tb s) !! x = Some y -> requestId y <> requestId d) as Hother.
  { intros x y Hx Hy E. apply Hlive, (live_of_held s _ Ht). eauto. }
  assert (transit [] s') as Ht'.
  { pose proof H as [H1 H2 H3 H4 H5 [Hnd H6] H7]. split; [cbn [app]; split|].
    - by eapply good_insert.
    - intros x [->|Hx]%Hh.
      + exists d'. split_and!; [apply lookup_insert_eq|by rewrite (proj1 Ha)|by left].
      + destruct (H2 x Hx) as (y & Hy & Hz'). exists y. split; [|done]. cbn. rewrite lookup_insert_ne; [done|].
        by intros ->.
    - intros x x' y y' [->|Hx]%Hh [->|Hx']%Hh Hy Hy' E; [done|..];
        destruct (Hback _ _ Hy) as [[? ->]|[? Hy0]], (Hback _ _ Hy') as [[? ->]|[? Hy0']]; subst; try done.
      + rewrite (proj1 Ha) in E. by destruct (Hother x' y' Hx' Hy0').
      + rewrite (proj1 Ha) in E. by destruct (Hother x y Hx Hy0).
      + by apply (H3 x x' y y').
    - intros x x' y y' [->|Hx]%Hh [->|Hx']%Hh Hy Hy' E Hnz; [done|..];
        destruct (Hback _ _ Hy) as [[? ->]|[? Hy0]], (Hback _ _ Hy') as [[? ->]|[? Hy0']]; subst; try done; try congruence.
      by apply (H4 x x' y y').
    - intros m x y Hm Hy. destruct (Hback _ _ Hy) as [[-> ->]|[_ Hy0]]; [|by apply (H5 m x y)].
      destruct Hheld. right. by exists m.
    - rewrite Ep. split.
      + apply NoDup_cons. split; [|done]. intros Hin. apply Hheld. by left.
      + intros x m. rewrite Ep, elem_of_cons. intros [->|Hx] Hm; [|by apply (H6 x m)]. apply Hheld. right. by exists m.
    - done.
    - intros k x y Hk Hy. rewrite El in Hk. apply lookup_insert_Some in Hk as [[<- <-]|[_ Hk]].
      + destruct (Hback _ _ Hy) as [[_ ->]|[? _]]; [apply Ha|done].
      + destruct (Hback _ _ Hy) as [[-> ->]|[_ Hy0]]; [|by eapply (transit_line _ _ Ht)].
        destruct Hheld. left. apply elem_of_line. eauto. }
  assert (forall x, live s' x <-> live s x \/ x = requestId d) as Hl.
  { intros x. rewrite !live_of_held by done. split.
    - intros (r & y & [->|Hr]%Hh & Hy & E); destruct (Hback _ _ Hy) as [[? ->]|[? Hy0]]; subst; try done.
      + right. apply Ha.
      + left. eauto.
    - intros [(r & y & Hr & Hy & E)| ->].
      + exists r, y. split_and!; [apply Hh; by right| |done]. cbn. rewrite lookup_insert_ne; [done|]. by intros ->.
      + exists ref, d'. split_and!; [apply Hh; by left|apply lookup_insert_eq|apply Ha]. }
  destruct (0 <=? canWait); [apply wp_modify|apply wp_ret]; split_and!; try done.
  apply (resent_transit [] [] s'), resent_same; done.
Qed.

(** ** Acknowledgements *)

Context (hasCallback : Z -> bool).

Definition may_leave (byResponse : bool) (s : session) (m x : Z) : Prop :=
  answers s m x /\ (byResponse = true \/ hasCallback x = false).

(** What acknowledging [ids] may end: a request answered under one of them, when
    they come with answers, and a request whose answer nobody waits for, under
    them or in a container sent as one of them. *)
Definition ended_by (byResponse : bool) (ids : list Z) (s : session) (x : Z) : Prop :=
  (byResponse = true /\ exists m, m ∈ ids /\ answers s m x)
  \/ hasCallback x = false /\ exists m, covered s (fun k => k ∈ ids) m /\ answers s m x.

Lemma ack_one_spec (byResponse : bool) (more : list Z) (m : Z) (s : session) :
  transit [] s ->
  wp (ackOne hasCallback byResponse more m) (fun more' s' => fewer s s' /\ evolves (may_leave byResponse s m) s s'
    /\ (more' = more \/ (size (sentContainers (tb s')) < size (sentContainers (tb s)))%nat
          /\ exists c, sentContainers (tb s) !! m = Some c /\ more' = more ++ messages c)) s.
Proof.
  intros Ht. assert (forall (P : Prop) more', more' = more -> fewer s s /\ evolves (may_leave byResponse s m) s s
    /\ (more' = more \/ P)) as Hsame.
  { intros P more' E. split_and!; [by apply fewer_refl|by apply evolves_refl|by left]. }
  unfold ackOne. apply wp_bind, wp_gets.
  destruct (sentContainers (tb s) !! m) as [c|] eqn:Hc.
  { apply wp_bind, wp_modify, wp_ret. pose proof (size_delete_lt _ _ _ Hc).
    assert (fewer s (set_tb (fun t => set_sentContainers (delete m (sentContainers t)) t) s)) as Hf.
    { apply fewer_tb; try done; [apply delete_subseteq|intros k; by apply acked_used]. }
    split_and!; [done| |right; split; [cbn; lia|by exists c]]. apply fewer_evolves; [done|done|by left|by left]. }
  destruct (stateAndResendRequests (tb s) !! m) as [x|].
  { apply wp_bind, wp_modify, wp_ret.
    assert (fewer s (set_tb (fun t => set_stateAndResend (delete m (stateAndResendRequests t)) t) s)) as Hf.
    { apply fewer_tb; try done. intros k; by apply acked_used. }
    split_and!; [done| |by left]. apply fewer_evolves; [done|done|by left|by left]. }
  destruct (haveSent (tb s) !! m) as [r|] eqn:Hm.
  { destruct (inv_held _ _ (transit_inv _ _ Ht) r) as (d & Hd & _); [right; eauto|].
    apply wp_bind. eapply wp_deref; [done|]. destruct (negb byResponse && hasCallback (requestId d)) eqn:Ecb;
      [by apply wp_ret, Hsame|]. apply wp_bind, wp_modify, wp_ret. set (s' := set_tb _ s).
    assert (fewer s s') as Hf.
    { apply fewer_tb; try done; [apply delete_subseteq|]. intros k. apply emplace_used; [done|].
      eapply sent_used; [apply Ht|done]. }
    split_and!; [done| |by left]. apply fewer_evolves; [done|done|by left|].
    intros k x dx Hk Hx. destruct (decide (k = m)) as [->|Hne]; [right|left; cbn; by rewrite lookup_delete_ne].
    assert (x = r) as -> by congruence. assert (dx = d) as -> by congruence. split; [left; eauto|].
    destruct byResponse; [by left|by right]. }
  destruct (resendingIds (tb s) !! m) as [rid|] eqn:Hrid; [|by apply wp_ret, Hsame].
  destruct (negb byResponse && hasCallback rid) eqn:Ecb; [by apply wp_ret, Hsame|].
  apply wp_bind, wp_modify. set (s1 := set_tb _ s).
  assert (fewer s s1) as Hf1.
  { apply fewer_tb; try done; [apply delete_subseteq|intros k; by apply acked_used]. }
  destruct (toSend (tb s) !! rid) as [r|] eqn:Hline.
  2:{ apply wp_ret. split_and!; [done| |by left]. apply fewer_evolves; [done|done|by left|by left]. }
  destruct (inv_held _ _ (transit_inv _ _ Ht) r) as (d & Hd & _); [left; apply elem_of_line; eauto|].
  apply wp_bind. eapply wp_deref; [done|]. apply wp_bind, wp_modify, wp_ret. set (s' := set_tb _ s1).
  assert (fewer s s') as Hf.
  { apply (fewer_tb s (tb s')); try done; [apply delete_subseteq|apply delete_subseteq|]. intros k. apply (emplace_used s m (requestId d)); [done|].
    apply (inv_keys _ _ (transit_inv _ _ Ht)). left. eauto. }
  split_and!; [done| |by left]. apply fewer_evolves; [done|done| |by left].
  intros k x dx Hk Hx. destruct (decide (k = rid)) as [->|Hne]; [right|left; cbn; by rewrite lookup_delete_ne].
  split; [by right|]. destruct byResponse; [by left|by right].
Qed.

Lemma ack_each_spec (byResponse : bool) (ids more : list Z) (s : session) :
  transit [] s ->
  wp (ackEach hasCallback byResponse more ids) (fun more' s' => fewer s s'
    /\ evolves (fun x => exists m, m ∈ ids /\ may_leave byResponse s m x) s s'
    /\ (more' = more \/ (size (sentContainers (tb s')) < size (sentContainers (tb s)))%nat)
    /\ forall k, k ∈ more' -> k ∈ more \/ covered s (fun k => k ∈ ids) k) s.
Proof.
  revert more s. induction ids as [|m ids IH]; intros more s Ht; cbn [ackEach].
  { apply wp_ret. split_and!; [by apply fewer_refl|by apply evolves_refl|by left|by left]. }
  apply wp_bind. eapply wp_mono; [by apply ack_one_spec|]. intros more1 s1 (F1 & V1 & M1).
  eapply wp_mono; [apply IH, V1|]. intros more2 s2 (F2 & V2 & M2 & C2). split_and!; [by eapply fewer_trans| | |].
  - eapply evolves_trans; [eapply evolves_more, V1|eapply evolves_more, V2].
    + intros x Hx. exists m. split; [by left|done].
    + intros x (k & Hk & Ha & Hx). exists k. split; [by right|]. split; [by eapply fewer_answers|done].
  - pose proof (map_subseteq_size _ _ (fewer_containers _ _ F1)). pose proof (map_subseteq_size _ _ (fewer_containers _ _ F2)).
    destruct M1 as [->|[M1 _]]; [|right; lia]. destruct M2 as [->|M2]; [by left|right; lia].
  - intros k [Hk|Hk]%C2.
    + destruct M1 as [->|(_ & c & Hc & ->)]; [by left|]. apply elem_of_app in Hk as [Hk|Hk]; [by left|right].
      eapply covered_in; [apply covered_id; by left|exact Hc|done].
    + right. eapply covered_more; [apply (fewer_containers _ _ F1)| |exact Hk]. intros j Hj. apply covered_id. by right.
Qed.

Lemma trim_subseteq (n : nat) (m : gmap Z Z) : trimLoop n m ⊆ m.
Proof.
  revert m. induction n as [|n IH]; intros m; cbn [trimLoop]; [done|]. case_bool_decide; [|done].
  destruct (first_key m); [|by apply IH]. etrans; [apply IH|apply delete_subseteq].
Qed.

(** [requestsAcked] ends only what it may. *)
Lemma requests_acked_spec (fuel : nat) (ids : list Z) (byResponse : bool) (s : session) :
  transit [] s -> (size (sentContainers (tb s)) < fuel)%nat ->
  wp (requestsAcked hasCallback fuel ids byResponse) (fun _ s' => fewer s s' /\ evolves (ended_by byResponse ids s) s s') s.
Proof.
  revert ids byResponse s. induction fuel as [|fuel IH]; intros ids byResponse s Ht Hf; [lia|].
  cbn [requestsAcked]. apply wp_bind. eapply wp_mono; [by apply ack_each_spec|]. intros more s1 (F1 & V1 & M1 & C1).
  apply wp_bind, wp_modify. set (s2 := set_tb _ s1).
  assert (fewer s1 s2) as F2.
  { apply fewer_tb; try done; [apply V1|]. intros k [x Hk]. apply acked_used; [apply V1|].
    exists x. apply (lookup_weaken _ _ _ _ Hk), trim_subseteq. }
  assert (evolves (fun _ => False) s1 s2) as V2 by (apply fewer_evolves; [apply V1|done|by left|by left]).
  assert (evolves (ended_by byResponse ids s) s s2) as V.
  { eapply evolves_trans; [eapply evolves_more, V1|by eapply evolves_more, V2].
    intros x (m & Hm & Ha & [Hx|Hx]); [left; eauto|right]. split; [done|]. exists m. split; [by apply covered_id|done]. }
  assert (fewer s s2) as F by (by eapply fewer_trans).
  case_bool_decide as Hmore; cbn [negb]; [by apply wp_ret|].
  destruct M1 as [->|M1]; [done|]. eapply wp_mono; [apply IH; [apply V2|cbn; lia]|].
  intros [] s3 (F3 & V3). split; [by eapply fewer_trans|]. eapply evolves_trans; [exact V|].
  eapply evolves_more, V3. intros x [[? _]|(Hx & m & Hm & Ha)]; [done|right]. split; [done|]. exists m.
  split; [|by eapply fewer_answers]. eapply covered_more; [apply (fewer_containers _ _ F)| |exact Hm].
  intros k Hk. by destruct (C1 k Hk) as [?%not_elem_of_nil|].
Qed.

(** ** States of messages *)

Lemma states_loop_spec (now : Z) (fuel : nat) (acked : list Z) (ids : list (Z * Z)) (s : session) :
  transit [] s -> (size (sentContainers (tb s)) < fuel)%nat ->
  wp (statesLoop now fuel acked ids) (fun more s' => resent (msg_id := msg_id) (limit := limit) [] [] s s' /\ calm s s'
    /\ forall m, m ∈ more -> m ∈ acked \/ m ∈ (filter (fun p => Z.land p.2 0x07 = 0x04) ids).*1) s.
Proof.
  revert acked s. induction ids as [|[m state] ids IH]; intros acked s Ht Hf; cbn [statesLoop].
  { apply wp_ret. split_and!; [by apply resent_refl|done|by left]. }
  assert (forall acked' s1, (forall k, k ∈ acked' -> k ∈ acked \/ k = m /\ Z.land state 7 = 4) ->
    transit [] s1 -> (size (sentContainers (tb s1)) < fuel)%nat ->
    wp (statesLoop now fuel acked' ids) (fun more s' => resent (msg_id := msg_id) (limit := limit) [] [] s1 s' /\ calm s1 s'
      /\ forall k, k ∈ more -> k ∈ acked \/ k ∈ (filter (fun p => Z.land p.2 0x07 = 0x04) ((m, state) :: ids)).*1) s1) as Hgo.
  { intros acked' s1 Ha Ht1 Hf1. eapply wp_mono; [by apply IH|]. intros more s2 (R & C & H). split_and!; [done|done|].
    intros k Hk. rewrite filter_cons. cbn [snd].
    destruct (H k Hk) as [[?|[-> E]]%Ha|Hin]; [by left|right; rewrite decide_True by done; by left|right].
    case_decide; [by right|done]. }
  apply wp_bind, wp_gets. destruct (haveSent (tb s) !! m).
  2:{ apply Hgo; [|done|done]. intros k. destruct (resendingIds (tb s) !! m); [|by left].
      destruct (Z.eqb_spec (Z.land state 7) 4); [|by left]. rewrite elem_of_app, list_elem_of_singleton. tauto. }
  destruct (Z.eqb_spec (Z.land state 7) 4).
  { apply Hgo; [|done|done]. intros k. rewrite elem_of_app, list_elem_of_singleton. tauto. }
  apply wp_bind. unfold wp at 1. destruct (resend now fuel m 10 s) as [[[] s1]|] eqn:E.
  2:{ pose proof (resend_spec (msg_id := msg_id) (limit := limit) now fuel s m 10 (fun _ _ => True)) as Hr.
      unfold wp in Hr. rewrite E in Hr. by apply Hr. }
  assert (resent (msg_id := msg_id) (limit := limit) [] [] s s1) as R1.
  { pose proof (resend_spec (msg_id := msg_id) (limit := limit) now fuel s m 10
      (fun _ s' => resent (msg_id := msg_id) (limit := limit) [] [] s s')) as Hr.
    unfold wp in Hr. rewrite E in Hr. by apply Hr. }
  pose proof (map_subseteq_size _ _ (resent_containers _ _ _ _ R1)).
  eapply wp_mono; [apply (Hgo acked); [by left|apply R1|lia]|]. intros more s2 (R2 & C2 & Hm).
  split_and!; [by eapply resent_trans| |done]. etrans; [by eapply (calms_resend now fuel m 10)|done].
Qed.

(** A request leaves only if nobody waits for its answer, and one of the
    messages reported as received covers it. *)
Lemma handle_states_spec (now : Z) (fuel : nat) (ids states : list Z) (s : session) :
  transit [] s -> (size (sentContainers (tb s)) < fuel)%nat ->
  wp (handleMsgsStates hasCallback now fuel ids states) (fun _ s' => evolves (ended_by false (reported ids states) s) s s') s.
Proof.
  intros Ht Hf. unfold handleMsgsStates.
  case_bool_decide; [by apply wp_ret, evolves_refl|]. unfold reported. case_bool_decide; cbn [negb]; [|by apply wp_ret, evolves_refl].
  apply wp_bind. eapply wp_mono; [by apply states_loop_spec|]. intros acked s1 (R1 & C1 & Hm).
  pose proof (map_subseteq_size _ _ (resent_containers _ _ _ _ R1)).
  eapply wp_mono; [apply requests_acked_spec; [apply R1|lia]|]. intros [] s2 (_ & V2).
  eapply evolves_trans; [exact (resent_evolves _ s s1 Ht R1)|]. eapply evolves_more, V2.
  intros x [[? _]|(Hx & m & Hc & Ha)]; [done|right]. split; [done|]. exists m. split; [|by apply (calm_answers _ _ C1)].
  eapply covered_more; [apply (calm_containers _ _ C1)| |exact Hc]. intros k Hk. apply covered_id.
  by destruct (Hm k Hk) as [?%not_elem_of_nil|].
Qed.

(** ** The answer to a request *)

Lemma trim_small (m : gmap Z Z) : (size m <= kIdsBufferSize)%nat -> trimLoop (size m) m = m.
Proof. intros Hm. destruct (size m) eqn:E; cbn [trimLoop]; [done|]. by rewrite bool_decide_eq_false_2 by lia. Qed.

Lemma emplace_size (k v : Z) (m : gmap Z Z) : (size (emplace k v m) <= S (size m))%nat.
Proof.
  unfold emplace. destruct (m !! k) eqn:E; [lia|]. by rewrite map_size_insert_None.
Qed.

(** The answer to the message [m] of the sent request [r]: the tables after it. *)
Definition after_answer (s : session) (m x : Z) : session :=
  let acked := emplace m x (ackedIds (tb s)) in
  set_tb (fun t => set_ackedIds (trimLoop (size acked) acked) (set_haveSent (delete m (haveSent t)) t)) s.

Lemma answer_computed (fuel : nat) (s : session) (m r : Z) (d : RequestData) :
  sentContainers (tb s) !! m = None -> stateAndResendRequests (tb s) !! m = None ->
  haveSent (tb s) !! m = Some r -> heap (tb s) !! r = Some d ->
  requestsAcked hasCallback (S fuel) [m] true s = Some (tt, after_answer s m (requestId d)).
Proof.
  intros Hc Hst Hm Hd. cbn [requestsAcked ackEach]. unfold ackOne, bind, gets, modify, deref, ret.
  by rewrite Hc, Hst, Hm, Hd.
Qed.

Lemma answered_gone (s : session) (m r : Z) (d : RequestData) :
  transit [] s -> haveSent (tb s) !! m = Some r -> heap (tb s) !! r = Some d ->
  ~ live (after_answer s m (requestId d)) (requestId d).
Proof.
  intros Ht Hm Hd. pose proof (transit_inv _ _ Ht) as H. cbn [app] in H.
  assert (held (in_line s) s r) as Hr by (right; eauto).
  intros [[r' Hr']|(k & r' & d' & Hk & Hd' & E)].
  - assert (r' ∈ in_line s) as Hin by (apply elem_of_line; eauto).
    destruct (inv_held _ _ H r') as (d' & Hd' & _); [by left|].
    assert (r = r') as <- by (eapply (inv_rid _ _ H); [done|by left|done|done|symmetry; by eapply (transit_line _ _ Ht)]).
    by apply (proj2 (inv_wait _ _ H) r m).
  - cbn in Hk, Hd'. apply lookup_delete_Some in Hk as [Hne Hk].
    assert (r' = r) as -> by (eapply (inv_rid _ _ H); [right; eauto|done|done|done|done]).
    apply Hne. assert (d' = d) as -> by congruence.
    rewrite <- (proj1 (inv_sent _ _ H m r d Hm Hd)). by apply (inv_sent _ _ H k r d).
Qed.

Lemma answered_others (s : session) (m r : Z) (d : RequestData) (x : Z) :
  haveSent (tb s) !! m = Some r -> heap (tb s) !! r = Some d ->
  live s x -> x <> requestId d -> live (after_answer s m (requestId d)) x.
Proof.
  intros Hm Hd [Hx|(k & r' & d' & Hk & Hd' & E)] Hne; [by left|]. right. exists k, r', d'. split_and!; [|done|done].
  cbn. rewrite lookup_delete_ne; [done|]. intros <-. congruence.
Qed.

Lemma answer_was_sent (s : session) (m x : Z) :
  resendingIds (tb s) !! m = None -> ackedIds (tb s) !! m = None -> (size (ackedIds (tb s)) < kIdsBufferSize)%nat ->
  m <> pingMsgId (sp s) -> m <> bindMsgId (sp s) -> wasSent m (after_answer s m x) = Some x.
Proof.
  intros Hr Ha Hsize Hp Hb. unfold wasSent, after_answer.
  pose proof (emplace_size m x (ackedIds (tb s))). cbn [sp tb set_tb pingMsgId bindMsgId resendingIds set_ackedIds set_haveSent ackedIds].
  rewrite (proj2 (Z.eqb_neq _ _) Hp), (proj2 (Z.eqb_neq _ _) Hb), Hr, trim_small by lia. cbn [orb].
  by rewrite emplace_fresh, lookup_insert_eq by done.
Qed.

(** When the buffer of answered ids is full of newer ones, the id of the answer
    is the one forgotten. *)
Lemma answer_not_found (s : session) (m x : Z) :
  resendingIds (tb s) !! m = None -> sentContainers (tb s) !! m = None -> ackedIds (tb s) !! m = None ->
  size (ackedIds (tb s)) = kIdsBufferSize -> (forall k, is_Some (ackedIds (tb s) !! k) -> m < k) ->
  m <> pingMsgId (sp s) -> m <> bindMsgId (sp s) -> wasSent m (after_answer s m x) = Some 0.
Proof.
  intros Hr Hc Ha Hsize Hmin Hp Hb. unfold wasSent, after_answer.
  assert (size (emplace m x (ackedIds (tb s))) = S kIdsBufferSize) as Es
    by (rewrite emplace_fresh, map_size_insert_None by done; by rewrite Hsize).
  assert (trimLoop (S kIdsBufferSize) (emplace m x (ackedIds (tb s))) = ackedIds (tb s)) as Et.
  { cbn [trimLoop]. rewrite bool_decide_eq_true_2 by lia. rewrite emplace_fresh by done.
    assert (first_key (<[m := x]> (ackedIds (tb s))) = Some m) as ->.
    { destruct (first_key _) as [k|] eqn:Ek; [|apply first_key_None in Ek; by apply insert_non_empty in Ek].
      apply first_key_Some in Ek as [[v Hk] Hle]. pose proof (Hle m ltac:(rewrite lookup_insert_eq; eauto)).
      apply lookup_insert_Some in Hk as [[<- _]|[_ Hk]]; [done|]. assert (m < k) by eauto. lia. }
    rewrite delete_insert_id by done. rewrite <- Hsize. apply trim_small. by rewrite Hsize. }
  rewrite Es, Et. cbn [sp tb set_tb pingMsgId bindMsgId resendingIds set_ackedIds set_haveSent ackedIds sentContainers haveSent].
  rewrite (proj2 (Z.eqb_neq _ _) Hp), (proj2 (Z.eqb_neq _ _) Hb), Hr, Ha, Hc. cbn [orb].
  by rewrite lookup_delete_eq.
Qed.

(** ** Fuel *)

Lemma each_more {A} (f g : A -> M session unit) (l : list A) (s : session) (r : unit * session) :
  (forall x s r, f x s = Some r -> g x s = Some r) -> each f l s = Some r -> each g l s = Some r.
Proof.
  intros Hfg. revert s. induction l as [|x l IH]; intros s; [done|]. cbn [each]. unfold bind.
  destruct (f x s) as [[[] s1]|] eqn:E; [|done]. rewrite (Hfg _ _ _ E). apply IH.
Qed.

(** More fuel gives the same result. *)
Lemma resend_S (now : Z) (fuel : nat) (m canWait : Z) : resend now (S fuel) m canWait =
  (container <- gets (fun s => sentContainers (tb s) !! m) ;;
   match container with
   | Some c => modify (set_tb (fun t => set_sentContainers (delete m (sentContainers t)) t)) ;;;
       each (fun innerMsgId => resend now fuel innerMsgId (-1)) (messages c)
   | None => resendRequest now m
   end ;;; clearSpecialMsgId m ;;;
   if 0 <=? canWait then tell (QueueSendAnything canWait) else ret tt).
Proof. done. Qed.

Lemma resend_more (now : Z) (fuel : nat) (m canWait : Z) (s : session) (r : unit * session) :
  resend now fuel m canWait s = Some r -> resend now (S fuel) m canWait s = Some r.
Proof.
  revert m canWait s r. induction fuel as [|fuel IH]; intros m canWait s r; [done|].
  rewrite (resend_S now (S fuel)), (resend_S now fuel m canWait). unfold bind, gets, modify.
  destruct (sentContainers (tb s) !! m) as [c|]; [|done].
  destruct (each _ _ _) as [[[] s1]|] eqn:E; [|done].
  by rewrite (each_more _ (fun i => resend now (S fuel) i (-1)) _ _ _ (fun x s r => IH x (-1) s r) E).
Qed.

Lemma acked_S (fuel : nat) (ids : list Z) (byResponse : bool) : requestsAcked hasCallback (S fuel) ids byResponse =
  (toAckMore <- ackEach hasCallback byResponse [] ids ;;
   modify (set_tb (fun t => set_ackedIds (trimLoop (size (ackedIds t)) (ackedIds t)) t)) ;;;
   if negb (bool_decide (toAckMore = [])) then requestsAcked hasCallback fuel toAckMore false else ret tt).
Proof. done. Qed.

Lemma acked_more (fuel : nat) (ids : list Z) (byResponse : bool) (s : session) (r : unit * session) :
  requestsAcked hasCallback fuel ids byResponse s = Some r ->
  requestsAcked hasCallback (S fuel) ids byResponse s = Some r.
Proof.
  revert ids byResponse s r. induction fuel as [|fuel IH]; intros ids byResponse s r; [done|].
  rewrite (acked_S (S fuel)), (acked_S fuel ids byResponse). unfold bind, modify.
  destruct (ackEach _ _ _ _ _) as [[more s1]|]; [|done]. destruct (negb _); [apply IH|done].
Qed.

Lemma more_fuel {A} (f : nat -> option A) (n m : nat) (a : A) :
  (forall n a, f n = Some a -> f (S n) = Some a) -> (n <= m)%nat -> f n = Some a -> f m = Some a.
Proof. intros Hf. induction 1; auto. Qed.

End Ack.
