(* ===== verification/SessionSystem.v ===== *)
(** * A session as a state machine

    Every operation on the requests of a session as a step that fails nowhere
    and loses no request, and the theorems on what is sent: everything in line,
    and containers that read as their requests. *)

From S2P Require Import Prelude StateMonad ReceivedIds Requests RequestFacts Session SessionFacts SessionSend SessionResend SessionCalm SessionAck.

(** ** Operations *)

Inductive op :=
  | OpNew (d : RequestData)
  | OpSubmit (ref canWait : Z)
  | OpCancel (reqId msgId : Z)
  | OpSend (e : env)
  | OpResend (now msgId canWait : Z)
  | OpResendAll (now : Z)
  | OpCheck (now : Z)
  | OpClear (now : Z) (timerActive : bool)
  | OpAck (hasCallback : Z -> bool) (ids : list Z) (byResponse : bool)
  | OpStates (hasCallback : Z -> bool) (now : Z) (ids states : list Z).

Section System.
Context (msg_id : nat -> Z) (limit : nat) (body_of : service -> list Z).
Context (kCurrentLayer : Z) (initWrapper : list Z) (fuel : nat).

Definition run (o : op) : M session unit :=
  match o with
  | OpNew d => allocate d ;;; ret tt
  | OpSubmit ref canWait => sendPrepared ref canWait
  | OpCancel reqId msgId => cancel reqId msgId
  | OpSend e => tryToSend msg_id body_of kCurrentLayer initWrapper fuel e
  | OpResend now msgId canWait => resend now fuel msgId canWait
  | OpResendAll now => resendAll now
  | OpCheck now => checkSentRequests now
  | OpClear now timerActive => clearOldContainers now fuel timerActive
  | OpAck cb ids byResponse => requestsAcked cb fuel ids byResponse
  | OpStates cb now ids states => handleMsgsStates cb now fuel ids states
  end.

(** When an operation may be called: what its callers see to, and the bounds of
    the model (ids left, fuel for the containers there are). *)
Definition can (o : op) (s : session) : Prop :=
  match o with
  | OpNew d => good_request (heap (tb s)) d
  | OpSubmit ref _ => exists d, may_enter s ref d
  | OpSend e => Surroundings body_of e /\ bind_ok (e := e) (in_line s) s /\ room limit (7 + length (in_line s)) s
  | OpResend _ _ _ | OpClear _ _ | OpAck _ _ _ | OpStates _ _ _ _ => (size (sentContainers (tb s)) < fuel)%nat
  | _ => True
  end.

(** The requests an operation may let go, and those it takes in. *)
Definition released (o : op) (s : session) (x : Z) : Prop :=
  match o with
  | OpAck cb ids byResponse => ended_by cb byResponse ids s x
  | OpStates cb _ ids states => ended_by cb false (reported ids states) s x
  | OpCancel reqId msgId => cancelled reqId msgId s x
  | _ => False
  end.
Definition entered (o : op) (s : session) (x : Z) : Prop :=
  match o with
  | OpSubmit ref _ => exists d, heap (tb s) !! ref = Some d /\ requestId d = x
  | _ => False
  end.

Context `{!MsgIds msg_id limit} `{!Enough fuel}.
#[local] Abbreviation wf := (wf (msg_id := msg_id) (limit := limit)).

Definition good_step (o : op) (s s' : session) : Prop :=
  wf s' /\ (forall x, live s x -> live s' x \/ released o s x) /\ forall x, live s' x -> live s x \/ entered o s x.

Lemma wp_run (m : M session unit) (Q : session -> Prop) (s : session) :
  wp m (fun _ => Q) s -> exists s', m s = Some (tt, s') /\ Q s'.
Proof. unfold wp. destruct (m s) as [[[] s']|]; [eauto|done]. Qed.

Lemma evolves_good (ok : Z -> Prop) (o : op) (s s' : session) :
  (forall x, ok x -> released o s x) -> evolves (msg_id := msg_id) (limit := limit) ok s s' -> good_step o s s'.
Proof.
  intros Hok [T B K _ _]. split_and!; [by apply transit_wf|intros x Hx; destruct (K x Hx); auto|intros x Hx; left; auto].
Qed.

Lemma resent_good (o : op) (s s' : session) :
  wf s -> resent (msg_id := msg_id) (limit := limit) [] [] s s' -> good_step o s s'.
Proof.
  intros Hwf%transit_wf R. apply (evolves_good (fun _ => False)); [done|]. exact (resent_evolves _ s s' Hwf R).
Qed.

Lemma kept_good (o : op) (s s' : session) :
  wf s' -> (forall x, live s' x <-> live s x) -> good_step o s s'.
Proof. intros H Hl. split_and!; [done|intros x Hx; left; by apply Hl|intros x Hx; left; by apply Hl]. Qed.

Lemma allocate_good (d : RequestData) (s : session) :
  wf s -> good_request (heap (tb s)) d -> wp (allocate d ;;; ret tt) (fun _ s' => good_step (OpNew d) s s') s.
Proof.
  intros Hwf Hd. apply wp_bind. eapply (wp_allocate (e := idle)); [apply Hwf|done|].
  intros ref s' _ E H' K' _ _. apply wp_ret. destruct (keeps_wf [] (in_line s) s s' Hwf H' K') as [Hwf' Hl].
  - unfold in_line. by rewrite E.
  - intros k r. by rewrite E.
  - by apply kept_good.
Qed.

Lemma step_good (o : op) (s : session) : wf s -> can o s -> wp (run o) (fun _ s' => good_step o s s') s.
Proof.
  intros Hwf Hcan. pose proof (proj2 (transit_wf s) Hwf) as Ht. destruct o; cbn [run can] in *.
  - by apply allocate_good.
  - destruct Hcan as [d Hd]. eapply wp_mono; [by apply (send_prepared_spec (msg_id := msg_id) (limit := limit) s ref canWait d)|].
    intros [] s' (T & _ & _ & Hl). split_and!; [by apply transit_wf|intros x Hx; left; apply Hl; by left|].
    intros x [Hx| ->]%Hl; [by left|right]. exists d. split; [apply Hd|done].
  - eapply wp_mono; [by apply (cancel_spec (msg_id := msg_id) (limit := limit))|]. intros [] s' V. by eapply evolves_good.
  - destruct Hcan as (Hsur & Hbind & Hroom). eapply wp_mono; [by apply try_to_send_spec|].
    intros [] s' [(Hwf' & Hl & _) _]. by apply kept_good.
  - apply (resend_spec (msg_id := msg_id) (limit := limit)); [done|done|]. intros s' R _. by apply resent_good.
  - eapply wp_mono; [by apply (resend_all_spec (msg_id := msg_id) (limit := limit))|]. intros [] s' [R _]. by apply resent_good.
  - eapply wp_mono; [by apply (check_sent_spec (msg_id := msg_id) (limit := limit))|]. intros [] s' [R _]. by apply resent_good.
  - eapply wp_mono; [by apply (clear_containers_spec (msg_id := msg_id) (limit := limit))|]. intros [] s' R. by apply resent_good.
  - eapply wp_mono; [by apply (requests_acked_spec (msg_id := msg_id) (limit := limit))|]. intros [] s' [_ V]. by eapply evolves_good.
  - eapply wp_mono; [by apply (handle_states_spec (msg_id := msg_id) (limit := limit))|]. intros [] s' V. by eapply evolves_good.
Qed.

(** ** Sending *)

(** C25. A call that may send everything leaves nothing in line: each request that
    was in line is in a packet given to the connection, alone or in a container,
    under the id for which the session now waits for its answer and invoked
    after the request it names when that was sent before; and the requests of
    the session are those that wait for an answer. *)
Theorem session_sends_all (s : session) (e : env) :
  wf s -> can (OpSend e) s -> sends (e := e) = true ->
  modest (e := e) (body_of := body_of) (kCurrentLayer := kCurrentLayer) (initWrapper := initWrapper) s ->
  exists s' more, run (OpSend e) s = Some (tt, s') /\ wf s' /\ (forall x, live s x <-> unanswered s' x)
    /\ log s' = log s ++ more
    /\ forall x r, toSend (tb s) !! x = Some r ->
         delivered (e := e) (kCurrentLayer := kCurrentLayer) (initWrapper := initWrapper) s s' more r.
Proof.
  intros Hwf (Hsur & Hbind & Hroom) Hs Hm.
  destruct (wp_run _ _ _ (try_to_send_spec (kCurrentLayer := kCurrentLayer) (initWrapper := initWrapper) s Hwf Hbind Hroom))
    as (s' & E & (Hwf' & Hl & Hempty) & Hall). destruct (Hall Hs Hm) as (more & El & Hd). rewrite Hs in Hempty.
  exists s', more. split_and!; [done|done| |done|intros x r Hr; apply Hd, elem_of_line; eauto].
  intros x. rewrite <- (Hl x). split; [|by right].
  intros [[r Hr]|Hx]; [|done]. rewrite Hempty in Hr. by apply lookup_empty_Some in Hr.
Qed.

(** ** Containers *)

(** C3. The container sent for several requests reads back as exactly their
    messages in order, each under the id its request has, wrapped when the
    connection is not initialized and invoked after the request it names when
    that was sent before or comes before it in line; under the id of the
    container its record lists the ids under which the requests wait for their
    answers. *)
Theorem container_carries_requests (e : env) (v : services) (l w0 : list Z) (s : session) (force : bool) :
  Surroundings body_of e -> inv msg_id limit (l ++ w0) s -> services_ok (l ++ w0) s v ->
  room limit (S (length (service_refs v) + length l)) s ->
  2 + sizes (e := e) (kCurrentLayer := kCurrentLayer) (initWrapper := initWrapper) s (placed v l) < 2 ^ 30 ->
  exists s', sendContainer msg_id kCurrentLayer initWrapper fuel e v l force s = Some (tt, s')
    /\ exists b more body ms afters ids, log s' = log s ++ more /\ SendData b ∈ more
    /\ m_body (message_of b) = mtpc_msg_container :: Z.of_nat (length (placed v l)) :: body
    /\ unpack (length (placed v l)) body = Some (ms, [])
    /\ Forall3 (message_for (e := e) (kCurrentLayer := kCurrentLayer) (initWrapper := initWrapper) s')
         (placed v l) (placed_after v afters) ms
    /\ invocations (service_refs v) s s' [] l afters
    /\ sentContainers (tb s') !! m_id (message_of b) = Some (mk_container (now e) ids)
    /\ Forall2 (fun r id => haveSent (tb s') !! id = Some r
         /\ exists d, heap (tb s') !! r = Some d /\ m_id (message_of (buffer d)) = id) l ids.
Proof.
  intros Hsur H Hv Hroom Hsmall. eapply wp_run, (send_container_spec v l w0); [done|done|done|].
  intros ids ms afters s' H' _ _ (m & Hm & Hsent) Hms Hi Hids. destruct (Hsent Hsmall) as (b & more & El & Hb & _ & <- & Eb).
  exists b, more, (packs ms), ms, afters, ids. split_and!; try done.
  - rewrite (Forall3_length_lr _ _ _ _ Hms), <- (app_nil_r (packs ms)). apply unpack_packs.
  - eapply Forall2_impl; [exact Hids|]. intros r id Hid. cbn beta in Hid. split; [done|].
    destruct (inv_held _ _ H' r) as (d & Hd & _); [right; eauto|]. exists d. split; [done|].
    by destruct (inv_sent _ _ H' id r d Hid Hd) as [<- _].
Qed.

(** C40. Sending a container again takes every request of it that waits for an
    answer back in line, under its number, and loses none of the others. *)
Theorem container_resent (s : session) (now m canWait : Z) (c : SentContainer) :
  wf s -> (size (sentContainers (tb s)) < fuel)%nat -> sentContainers (tb s) !! m = Some c ->
  exists s', resend now fuel m canWait s = Some (tt, s') /\ wf s' /\ (forall x, live s' x <-> live s x)
    /\ forall id r d, id ∈ messages c -> sentContainers (tb s) !! id = None ->
         haveSent (tb s) !! id = Some r -> heap (tb s) !! r = Some d -> waiting s' (requestId d).
Proof.
  intros Hwf Hf Hc. pose proof (proj2 (transit_wf s) Hwf) as Ht. eapply wp_run, (resend_spec (msg_id := msg_id) (limit := limit)); [done|done|].
  intros s' R N. rewrite Hc in N. split_and!; [apply transit_wf, R|intros x; exact (resent_live s s' x Ht R)|].
  intros id r d Hid Hnc Hr Hd. assert (live s' (requestId d)) as [Hx|(k & r' & d' & Hk & Hd' & E)]; [|done|].
  { apply (resent_live s s' _ Ht R). right. exists id, r, d. done. }
  pose proof (transit_inv _ _ Ht) as H. cbn [app] in H.
  apply (resent_sent _ _ _ _ R) in Hk as Hk0. destruct (inv_held _ _ H r') as (d0 & Hd0 & _); [right; eauto|].
  destruct (resent_data _ _ _ _ R r' d0 Hd0) as (d1 & Hd1 & E1). assert (d1 = d') as -> by congruence.
  assert (r' = r) as -> by (eapply (inv_rid _ _ H); [right; eauto|right; eauto|done|done|congruence]).
  assert (k = id) as -> by (rewrite <- (proj1 (inv_sent _ _ H k r d Hk0 Hd)); by apply (inv_sent _ _ H id r d)).
  by rewrite N in Hk.
Qed.

(** ** Fuel *)

(** C34. The recursions of [resend] and [requestsAcked] end: with more fuel than
    there are containers they return a result, and any greater fuel gives the
    same. *)
Theorem session_loops_end (s : session) (now m canWait : Z) (cb : Z -> bool) (ids : list Z) (byResponse : bool) :
  wf s ->
  let enough := S (size (sentContainers (tb s))) in
  (exists s', forall k, (enough <= k)%nat -> resend now k m canWait s = Some (tt, s'))
  /\ exists s', forall k, (enough <= k)%nat -> requestsAcked cb k ids byResponse s = Some (tt, s').
Proof.
  intros Hwf enough. pose proof (proj2 (transit_wf s) Hwf) as Ht. split.
  - destruct (wp_run (resend now enough m canWait) (fun _ => True) s) as (s' & E & _).
    { apply (resend_spec (msg_id := msg_id) (limit := limit)); [done|unfold enough; lia|done]. }
    exists s'. intros k Hk. eapply (more_fuel (fun k => resend now k m canWait s)); [|exact Hk|exact E].
    intros i a. apply resend_more.
  - destruct (wp_run (requestsAcked cb enough ids byResponse) (fun _ => True) s) as (s' & E & _).
    { eapply wp_mono; [apply (requests_acked_spec (msg_id := msg_id) (limit := limit)); [done|unfold enough; lia]|done]. }
    exists s'. intros k Hk. eapply (more_fuel (fun k => requestsAcked cb k ids byResponse s)); [|exact Hk|exact E].
    intros i a. apply acked_more.
Qed.

End System.

(** ** A concrete session *)

Definition ex_id (n : nat) : Z := 4 * Z.of_nat n + 4.
Definition ex_body (q : service) : list Z := [1].
Definition ex_env : env := mk_env 100 true true true false false true false None 0 0 (fun n => replicate n 0).

(** A request of two words with its message id. *)
Definition ex_request (msgId reqId : Z) : RequestData :=
  mk_request ([0; 0; 0; 0; msgId; 0; 0; 8] ++ [4660; 5]) None 0 reqId true false.

Definition ex_session (t : tables) (gen : nat) : session :=
  mk_session t (mk_special 0 0 1000 0 0 0) [] [] ∅ ∅ 11 12 0 true false gen [].

(** Two requests in line. *)
Definition ex_line : session := ex_session (mk_tables
  (<[1 := ex_request 0 7]> (<[2 := ex_request 0 9]> ∅)) (<[7 := 1]> (<[9 := 2]> ∅)) ∅ ∅ ∅ ∅ ∅) 0.

(** The same sent in a container. *)
Definition ex_sent (acked : gmap Z Z) (gen : nat) : session := ex_session (mk_tables
  (<[1 := ex_request 4 7]> (<[2 := ex_request 8 9]> ∅)) ∅ (<[4 := 1]> (<[8 := 2]> ∅)) ∅ acked ∅
  (<[12 := mk_container 100 [4; 8]]> ∅)) gen.

#[export] Instance ex_ids : MsgIds ex_id 1000.
Proof. split; unfold ex_id; lia. Qed.
#[export] Instance ex_fuel : Enough 5.
Proof. unfold Enough. lia. Qed.
#[export] Instance ex_surroundings : Surroundings ex_body ex_env.
Proof. split; [done|]. intros n. apply length_replicate. Qed.

Lemma ex_request_good (h : gmap Z RequestData) (m x : Z) : good_request h (ex_request m x).
Proof. split; [by split|done|done]. Qed.

Lemma ex_msgId (m x : Z) : msgId (ex_request m x) = m.
Proof. unfold msgId, long, word; cbn. lia. Qed.

(** The two requests, and nothing else. *)
Lemma ex_two (m m' : Z) (r : Z) (d : RequestData) :
  (<[1 := ex_request m 7]> (<[2 := ex_request m' 9]> ∅) : gmap Z RequestData) !! r = Some d ->
  r = 1 /\ d = ex_request m 7 \/ r = 2 /\ d = ex_request m' 9.
Proof.
  intros [[<- <-]|[_ [[<- <-]|[_ H]]%lookup_insert_Some]]%lookup_insert_Some; [by left|by right|].
  by apply lookup_empty_Some in H.
Qed.

Lemma ex_none {V} (m : Z) (v : V) : (∅ : gmap Z V) !! m <> Some v.
Proof. apply lookup_empty_Some. Qed.

Lemma ex_none_in {V} (m : Z) : ~ is_Some ((∅ : gmap Z V) !! m).
Proof. intros [v Hv]. by apply ex_none in Hv. Qed.

(** What the two requests have to be for the session to be well formed. *)
Lemma ex_wf (w : list Z) (a b : Z) (s : session) :
  heap (tb s) = <[1 := ex_request a 7]> (<[2 := ex_request b 9]> ∅) ->
  (forall r, held w s r -> r = 1 \/ r = 2) ->
  (a = 0 \/ used ex_id 1000 s a) -> (b = 0 \/ used ex_id 1000 s b) -> (a <> 0 -> a <> b) ->
  (forall m r, haveSent (tb s) !! m = Some r -> m <> 0 /\ (r = 1 /\ m = a \/ r = 2 /\ m = b)) ->
  NoDup w -> (forall r m, r ∈ w -> haveSent (tb s) !! m <> Some r) ->
  (forall m, keyed (tb s) m -> used ex_id 1000 s m) -> inv ex_id 1000 w s.
Proof.
  intros Eh Hheld Ha Hb Hab Hsent Hw Hns Hk. split; try done; rewrite ?Eh.
  - intros r d Hd. destruct (ex_two _ _ _ _ Hd) as [[_ ->]|[_ ->]]; apply ex_request_good.
  - intros r [->| ->]%Hheld; eexists; (split; [reflexivity|]); (split; [done|]); by rewrite ex_msgId.
  - intros r r' d d' _ _ Hd Hd'.
    by destruct (ex_two _ _ _ _ Hd) as [[-> ->]|[-> ->]], (ex_two _ _ _ _ Hd') as [[-> ->]|[-> ->]].
  - intros r r' d d' _ _ Hd Hd'.
    destruct (ex_two _ _ _ _ Hd) as [[-> ->]|[-> ->]], (ex_two _ _ _ _ Hd') as [[-> ->]|[-> ->]];
      rewrite !ex_msgId; intros E Hne; try done; subst; by destruct Hab.
  - intros m r d Hm Hd. destruct (Hsent m r Hm) as [Hn H].
    by destruct H as [[-> ->]|[-> ->]], (ex_two _ _ _ _ Hd) as [[? ->]|[? ->]]; rewrite ?ex_msgId.
Qed.

Lemma ex_line_wf : wf (msg_id := ex_id) (limit := 1000) ex_line.
Proof.
  assert (in_line ex_line = [1; 2]) as El by (vm_compute; reflexivity).
  split; [rewrite El|].
  - apply (ex_wf _ 0 0); try done; try by left.
    + intros r [Hr|[m Hm]]; [|by apply ex_none in Hm]. rewrite !elem_of_cons, elem_of_nil in Hr. tauto.
    + by apply (bool_decide_unpack _); vm_compute.
    + intros m [Hm|[Hm|Hm]]; by apply ex_none_in in Hm.
  - intros k r d Hk Hd. cbn in Hk.
    apply lookup_insert_Some in Hk as [[<- <-]|[_ [[<- <-]|[_ Hk]]%lookup_insert_Some]];
      [| |by apply ex_none in Hk]; by destruct (ex_two _ _ _ _ Hd) as [[? ->]|[? ->]].
Qed.

Lemma ex_used (s : session) (i : nat) : (i < generated s)%nat -> (i < 1000)%nat -> used ex_id 1000 s (ex_id i).
Proof. intros. by exists i. Qed.

Lemma ex_sent_wf (acked : gmap Z Z) (gen : nat) :
  (3 <= gen)%nat -> (forall m, is_Some (acked !! m) -> used ex_id 1000 (ex_sent acked gen) m) ->
  wf (msg_id := ex_id) (limit := 1000) (ex_sent acked gen).
Proof.
  intros Hg Hacked. assert (in_line (ex_sent acked gen) = []) as El by (vm_compute; reflexivity).
  assert (forall m r, haveSent (tb (ex_sent acked gen)) !! m = Some r -> r = 1 /\ m = 4 \/ r = 2 /\ m = 8) as Hs.
  { intros m r. cbn. intros [[<- <-]|[_ [[<- <-]|[_ Hm]]%lookup_insert_Some]]%lookup_insert_Some; [by left|by right|].
    by apply ex_none in Hm. }
  split; [rewrite El|intros k r d Hk; by apply ex_none in Hk].
  apply (ex_wf _ 4 8); try done.
  - intros r [Hr|[m Hm]]; [by apply not_elem_of_nil in Hr|]. apply Hs in Hm. tauto.
  - right. apply (ex_used _ 0); cbn; lia.
  - right. apply (ex_used _ 1); cbn; lia.
  - intros m r Hm%Hs. split; [lia|done].
  - apply NoDup_nil_2.
  - intros r m Hr. by apply not_elem_of_nil in Hr.
  - intros m [Hm|[Hm|Hm]]; [by apply ex_none_in in Hm|by apply Hacked|].
    destruct Hm as [c Hm]. cbn in Hm. apply lookup_insert_Some in Hm as [[<- _]|[_ Hm]]; [|by apply ex_none in Hm].
    apply (ex_used _ 2); cbn; lia.
Qed.

(** The session can send, and sends everything. *)
Lemma ex_can_send : can 1000 ex_body 5 (OpSend ex_env) ex_line.
Proof. split; [apply ex_surroundings|]. split; [by intros b|]. unfold room. vm_compute. lia. Qed.

(** Buffers of no answered ids, and of as many as are kept. *)
Lemma ex_fresh_wf : wf (msg_id := ex_id) (limit := 1000) (ex_sent ∅ 3).
Proof. apply ex_sent_wf; [lia|]. intros m Hm. by apply ex_none_in in Hm. Qed.

Definition ex_sent0 : session := ex_sent ∅ 3.

Definition ex_acked : gmap Z Z := list_to_map ((fun i => (ex_id i, 5)) <$> seq 3 400).

Lemma ex_acked_spec (m : Z) : is_Some (ex_acked !! m) -> exists i, (3 <= i < 403)%nat /\ m = ex_id i.
Proof.
  intros [v Hv]. apply elem_of_list_to_map_2, list_elem_of_fmap in Hv as (i & [= -> ->] & Hi).
  apply elem_of_seq in Hi. exists i. split; [lia|done].
Qed.

Lemma ex_full_wf : wf (msg_id := ex_id) (limit := 1000) (ex_sent ex_acked 403).
Proof. apply ex_sent_wf; [lia|]. intros m (i & Hi & ->)%ex_acked_spec. apply ex_used; cbn; lia. Qed.

(** ** The theorems at the concrete session *)

(** The second request names the first one: in the container it is invoked after
    the id the first one has there. *)
Definition ex_follow : session := ex_session (mk_tables
  (<[1 := ex_request 0 7]> (<[2 := mk_request (buffer (ex_request 0 9)) (Some 1) 0 9 true false]> ∅))
  (<[7 := 1]> (<[9 := 2]> ∅)) ∅ ∅ ∅ ∅ ∅) 0.

Definition sent_bodies (l : list event) : list (list Z) :=
  omap (fun ev => match ev with
    | SendData b => match m_body (message_of b) with
        | _ :: count :: body => (fun u => concat (m_body <$> u.1)) <$> unpack (Z.to_nat count) body
        | _ => None
        end
    | _ => None
    end) l.

Example container_invokes_after :
  (fun x => (entries (haveSent (tb x.2)), sent_bodies (log x.2)))
    <$> sendContainer ex_id 185 [77] 5 ex_env (mk_services None None None None None None) [1; 2] false ex_follow
  = Some ([(4, 1); (8, 2)], [[4660; 5; mtpc_invokeAfterMsg; 4; 0; 4660; 5]]).
Proof. vm_compute. reflexivity. Qed.

Lemma ex_modest : modest (e := ex_env) (body_of := ex_body) (kCurrentLayer := 185) (initWrapper := [77]) ex_line.
Proof. split; [by intros q _|]. by vm_compute. Qed.

Lemma session_sends_all_witness :
  exists s' more, run ex_id ex_body 185 [77] 5 (OpSend ex_env) ex_line = Some (tt, s')
    /\ wf (msg_id := ex_id) (limit := 1000) s' /\ (forall x, live ex_line x <-> unanswered s' x)
    /\ log s' = log ex_line ++ more
    /\ forall x r, toSend (tb ex_line) !! x = Some r ->
         delivered (e := ex_env) (kCurrentLayer := 185) (initWrapper := [77]) ex_line s' more r.
Proof.
  exact (session_sends_all ex_id 1000 ex_body 185 [77] 5 ex_line ex_env ex_line_wf ex_can_send eq_refl ex_modest).
Defined.

Lemma container_resent_witness :
  exists s', resend 50 5 12 0 ex_sent0 = Some (tt, s') /\ wf (msg_id := ex_id) (limit := 1000) s'
    /\ (forall x, live s' x <-> live ex_sent0 x)
    /\ forall id r d, id ∈ [4; 8] -> sentContainers (tb ex_sent0) !! id = None ->
         haveSent (tb ex_sent0) !! id = Some r -> heap (tb ex_sent0) !! r = Some d -> waiting s' (requestId d).
Proof.
  refine (container_resent ex_id 1000 5 ex_sent0 50 12 0 (mk_container 100 [4; 8]) ex_fresh_wf _ eq_refl).
  vm_compute. lia.
Defined.

Lemma session_loops_end_witness :
  let enough := S (size (sentContainers (tb ex_sent0))) in
  (exists s', forall k, (enough <= k)%nat -> resend 50 k 12 0 ex_sent0 = Some (tt, s'))
  /\ exists s', forall k, (enough <= k)%nat -> requestsAcked (fun _ => true) k [12] true ex_sent0 = Some (tt, s').
Proof.
  exact (session_loops_end ex_id 1000 ex_sent0 50 12 0 (fun _ => true) [12] true ex_fresh_wf).
Defined.

Lemma container_carries_requests_witness :
  let v := mk_services None None None None None None in
  exists s', sendContainer ex_id 185 [77] 5 ex_env v [1; 2] false ex_line = Some (tt, s')
    /\ exists b more body ms afters ids, log s' = log ex_line ++ more /\ SendData b ∈ more
    /\ m_body (message_of b) = mtpc_msg_container :: 2 :: body /\ unpack 2 body = Some (ms, [])
    /\ Forall3 (message_for (e := ex_env) (kCurrentLayer := 185) (initWrapper := [77]) s') [1; 2] (placed_after v afters) ms
    /\ invocations [] ex_line s' [] [1; 2] afters
    /\ sentContainers (tb s') !! m_id (message_of b) = Some (mk_container 100 ids)
    /\ Forall2 (fun r id => haveSent (tb s') !! id = Some r
         /\ exists d, heap (tb s') !! r = Some d /\ m_id (message_of (buffer d)) = id) [1; 2] ids.
Proof.
  refine (container_carries_requests ex_id 1000 ex_body 185 [77] 5 ex_env (mk_services None None None None None None)
    [1; 2] [] ex_line false ex_surroundings (wf_inv _ ex_line_wf) _ _ _).
  - split; [split; [apply NoDup_nil_2|intros r Hr; by apply not_elem_of_nil in Hr]|done].
  - unfold room. vm_compute. lia.
  - vm_compute. done.
Defined.
