(* ===== verification/Receive.v ===== *)
(** * The receiving side of a session

    [mtproto/session_private.cpp]: what a session does with the packets the
    connection received. A packet is decrypted and checked, its message id is
    registered, and its content handled: containers and compressed messages
    are opened, service messages act on the requests of [Session], and answers
    and updates are queued for the main thread.

    A message is the list of its 32-bit words, as unsigned numbers. The
    readers generated from the scheme, the ones of [lib_tl] and zlib are
    parameters ([Scheme]), and so are the cipher, the hash, the clock and what
    other objects answer ([renv]). *)

From S2P Require Import Prelude StateMonad Text ReceivedIds Requests Session.

Definition mtpc_gzip_packed : Z := 0x3072cfa1.
Definition mtpc_rpc_result : Z := 0xf35c6d01.
Definition mtpc_bad_server_salt : Z := 0xedab447b.
Definition mtpc_rpc_error : Z := 0x2144ca19.
Definition mtpc_new_session_created : Z := 0x9ec20908.
Definition mtpc_pong : Z := 0x347773c5.
Definition mtpc_msgs_state_req : Z := 0xda69fb52.

Module HandleResult.
Inductive t := Success | Ignored | RestartConnection | ResetSession | DestroyTemporaryKey | ParseError.

#[global] Instance t_eq_dec : EqDecision t.
Proof. solve_decision. Defined.
End HandleResult.

Inductive DcKeyBindState := BindSuccess | BindFailed | BindDefinitelyDestroyed.

(** [SessionPrivate::OuterInfo] *)
Record OuterInfo := mk_info { outer : Z; serverSalt : Z; serverTime : Z; badTime : bool }.

Definition without_bad_time (info : OuterInfo) : OuterInfo :=
  mk_info (outer info) (serverSalt info) (serverTime info) false.

(** The readers of values: each takes the words from a position to the end of
    the message. Those the code reads on after also return the words left. *)
Class Scheme := {
  read_long : list Z -> option (Z * list Z);
  read_int : list Z -> option (Z * list Z);
  read_string : list Z -> option (list Z);
  read_msgs_ack : list Z -> option (list Z);                  (* msg_ids *)
  read_bad_msg_notification : list Z -> option (Z * Z);       (* bad_msg_id, error_code *)
  read_bad_server_salt : list Z -> option (Z * Z);            (* bad_msg_id, new_server_salt *)
  read_msgs_state_info : list Z -> option (Z * list Z);       (* req_msg_id, info *)
  read_msgs_all_info : list Z -> option (list Z * list Z);    (* msg_ids, info *)
  read_msg_detailed_info : list Z -> option (Z * Z);          (* msg_id, answer_msg_id *)
  read_msg_new_detailed_info : list Z -> option Z;            (* answer_msg_id *)
  read_new_session_created : list Z -> option (Z * Z * list Z); (* first_msg_id, server_salt *)
  read_pong : list Z -> option (Z * Z);                       (* msg_id, ping_id *)
  read_msgs_state_req : list Z -> option (list Z);            (* msg_ids *)
  read_msg_resend_req : list Z -> option (list Z);            (* msg_ids *)
  read_rpc_error : list Z -> option (Z * list Z);             (* error_code, error_message *)
  protocol_error : list Z;                                    (* rpc_error 500 "PROTOCOL_ERROR", written *)
  (* zlib: a stream over the packed bytes; [inflate] fills at most the room given *)
  z_stream : Type;
  inflateInit2 : list Z -> option z_stream;
  inflate : z_stream -> nat -> Z * list Z * z_stream }.

(** ** State *)

(** The session, and what the receiving side keeps besides. *)
Record receiver := mk_receiver {
  base : session;
  haveReceived : list Response;
  syncTimeRequestDuration : Z;
  connectionState : Z;
  keyCreator : bool;
  needSessionReset : bool;
  retryTimeout : Z;
  retryTimerActive : bool }.

Definition set_base (s : session) (r : receiver) : receiver :=
  mk_receiver s (haveReceived r) (syncTimeRequestDuration r) (connectionState r) (keyCreator r)
    (needSessionReset r) (retryTimeout r) (retryTimerActive r).
Definition set_sync (t : Z) (r : receiver) : receiver :=
  mk_receiver (base r) (haveReceived r) t (connectionState r) (keyCreator r)
    (needSessionReset r) (retryTimeout r) (retryTimerActive r).
Definition set_conn (state timeout : Z) (active : bool) (r : receiver) : receiver :=
  mk_receiver (base r) (haveReceived r) (syncTimeRequestDuration r) state (keyCreator r)
    (needSessionReset r) timeout active.
Definition set_reset (b : bool) (r : receiver) : receiver :=
  mk_receiver (base r) (haveReceived r) (syncTimeRequestDuration r) (connectionState r) (keyCreator r)
    b (retryTimeout r) (retryTimerActive r).
Definition drop_creator (r : receiver) : receiver :=
  mk_receiver (base r) (haveReceived r) (syncTimeRequestDuration r) (connectionState r) false
    (needSessionReset r) (retryTimeout r) (retryTimerActive r).
Definition push_response (x : Response) : M receiver unit := modify (fun r =>
  mk_receiver (base r) (haveReceived r ++ [x]) (syncTimeRequestDuration r) (connectionState r) (keyCreator r)
    (needSessionReset r) (retryTimeout r) (retryTimerActive r)).

(** An operation of the session. *)
Definition inside {A} (m : M session A) : M receiver A := fun r =>
  match m (base r) with Some (a, s) => Some (a, set_base s r) | None => None end.

Definition set_salt (salt : Z) (s : session) : session :=
  mk_session (tb s) (sp s) (ackRequestData s) (resendRequestData s) (stateRequestData s)
    (receivedMessageIds s) (sessionId s) salt (messagesCounter s)
    (sessionMarkedAsStarted s) (checkTimerActive s) (generated s) (log s).
Definition set_received (ids : manager) (s : session) : session :=
  mk_session (tb s) (sp s) (ackRequestData s) (resendRequestData s) (stateRequestData s)
    ids (sessionId s) (sessionSalt s) (messagesCounter s)
    (sessionMarkedAsStarted s) (checkTimerActive s) (generated s) (log s).
Definition push_ack (id : Z) : M session unit := modify (fun s =>
  set_service (ackRequestData s ++ [id]) (resendRequestData s) (stateRequestData s) s).
Definition push_resend (id : Z) : M session unit := modify (fun s =>
  set_service (ackRequestData s) (resendRequestData s ++ [id]) (stateRequestData s) s).

Definition say (ev : event) : M receiver unit := inside (tell ev).
Definition setSalt (salt : Z) : M receiver unit := inside (modify (set_salt salt)).
Definition was_sent (msgId : Z) : M receiver Z := fun r =>
  match wasSent msgId (base r) with Some x => Some (x, r) | None => None end.

(** [_receivedMessageIds.registerMsgId] *)
Definition register (msgId : Z) (needAck : bool) : M session Result := fun s =>
  let '(res, ids) := registerMsgId (receivedMessageIds s) msgId needAck in Some (res, set_received ids s).

(** What the session asks other objects. *)
Record renv := mk_renv {
  rnow : Z;                         (* [crl::now()] *)
  unixtimeNow : Z;                  (* [base::unixtime::now()] *)
  hasCallback : Z -> bool;          (* [_instance->hasCallback] *)
  regularDc : bool;                 (* [_currentDcType == DcType::Regular] *)
  bindResponse : list Z -> DcKeyBindState; (* [_keyCreator->handleBindResponse] *)
  releaseDone : bool;               (* [_sessionData->releaseKeyCreationOnDone] *)
  bindKeyCreated : Z;               (* the creation time of [_keyCreator->bindPersistentKey()] *)
  newSessionId : Z;                 (* the random number [changeSessionId] takes *)
  needHttpWait : bool;              (* [_connection->needHttpWait()] *)
  keyId : Z;                        (* [_keyId] *)
  aesIgeDecrypt : list Z -> list Z -> list Z; (* of the encrypted words and the message key *)
  messageKey : list Z -> list Z }.  (* four words of the hash of the key and the decrypted words *)

Section Receiving.
Context `{!Scheme}.
(** [fuel] bounds the loops of the session and of zlib. *)
Context (fuel : nat) (e : renv).

(** ** Compressed messages *)

(** The bytes written so far as words, least significant byte first. *)
Fixpoint words_of (bytes : list Z) : list Z :=
  match bytes with
  | b0 :: b1 :: b2 :: b3 :: bytes => b0 + 2 ^ 8 * b1 + 2 ^ 16 * b2 + 2 ^ 24 * b3 :: words_of bytes
  | _ => []
  end.

Definition Z_OK : Z := 0.
Definition Z_STREAM_END : Z := 1.

(** [while (!stream.avail_out)]: the buffer grows by [unpackedChunk] words each
    time. The result is empty after an error of zlib. *)
Fixpoint inflateLoop (fuel : nat) (unpackedChunk : nat) (result : list Z) (stream : z_stream) : option (list Z) :=
  match fuel with
  | O => None
  | S fuel =>
      let '(res, written, stream) := inflate stream (4 * unpackedChunk) in
      let avail_out := (4 * unpackedChunk - length written)%nat in
      if negb (res =? Z_OK) && negb (res =? Z_STREAM_END) then Some []
      else if bool_decide (avail_out = 0%nat) then inflateLoop fuel unpackedChunk (result ++ written) stream
      else if negb (Z.land (Z.of_nat avail_out) 0x03 =? 0) then Some []
      else Some (words_of (result ++ written))
  end.

Definition ungzip (ws : list Z) : option (list Z) :=
  match read_string ws with
  | None => Some []
  | Some packed =>
      match inflateInit2 packed with
      | None => Some []
      | Some stream => inflateLoop fuel (length packed) [] stream
      end
  end.

(** ** Time and salt *)

Definition kFastRequestDuration : Z := 500.

Definition correctUnixtimeWithBadLocal (t : Z) : M receiver unit :=
  modify (set_sync kFastRequestDuration) ;;; say (UnixtimeUpdate t).

Definition takeSalt (info : OuterInfo) : M receiver unit :=
  if negb (serverSalt info =? 0) then setSalt (serverSalt info) else ret tt.

Fixpoint requestsFixTimeSalt (ids : list Z) (info : OuterInfo) : M receiver bool :=
  match ids with
  | [] => ret false
  | id :: ids =>
      found <- was_sent id ;;
      if negb (found =? 0) then
        takeSalt info ;;; correctUnixtimeWithBadLocal (serverTime info) ;;; ret true
      else requestsFixTimeSalt ids info
  end.

Fixpoint correctUnixtimeByFastRequest (ids : list Z) (time : Z) : M receiver unit :=
  match ids with
  | [] => ret tt
  | id :: ids =>
      found <- inside (gets (fun s => haveSent (tb s) !! id)) ;;
      match found with
      | None => correctUnixtimeByFastRequest ids time
      | Some ref =>
          d <- inside (deref ref) ;;
          sync <- gets syncTimeRequestDuration ;;
          let duration := rnow e - lastSentTime d in
          if (duration <? 0) || (sync <? duration) then correctUnixtimeByFastRequest ids time
          else modify (set_sync duration) ;;; say (UnixtimeUpdate time)
      end
  end.

(** ** The state of the connection *)

Definition DisconnectedState : Z := 0.
Definition ConnectingState : Z := 1.
Definition ConnectedState : Z := 2.

(** [ifState]: [None] for [kUpdateStateAlways]. *)
Definition setState (state : Z) (ifState : option Z) : M receiver bool :=
  current <- gets connectionState ;;
  if match ifState with Some i => negb (current =? i) | None => false end then ret false else
  if current =? state then ret false else
  modify (fun r => if state <? 0 then set_conn state (- state) true r
                   else set_conn state (retryTimeout r) (retryTimerActive r) r) ;;;
  say (ConnectionStateChange state) ;;;
  ret true.

Definition resetSession : M receiver unit :=
  modify (set_reset false) ;;; inside (changeSessionId (newSessionId e)) ;;; say ResetDone.

Definition restart : M receiver unit :=
  say DestroyConnections ;;;
  setState DisconnectedState None ;;;
  needReset <- gets needSessionReset ;;
  (if needReset : bool then resetSession else ret tt) ;;;
  active <- gets retryTimerActive ;;
  if active : bool then ret tt else
  timeout <- gets retryTimeout ;;
  setState (- timeout) None ;;; ret tt.

(** ** Service messages *)

(** What a message that concerns nothing known comes to. *)
Definition unknown (info : OuterInfo) : HandleResult.t :=
  if badTime info then HandleResult.Ignored else HandleResult.Success.

Definition acked (ids : list Z) (byResponse : bool) : M receiver unit :=
  inside (requestsAcked (hasCallback e) fuel ids byResponse).
Definition resend_ (msgId msCanWait : Z) : M receiver unit := inside (resend (rnow e) fuel msgId msCanWait).
Definition resend_all : M receiver unit := inside (resendAll (rnow e)).
Definition msgs_states (ids states : list Z) : M receiver unit :=
  inside (handleMsgsStates (hasCallback e) (rnow e) fuel ids states).

Definition handleMsgsAck (ws : list Z) (info : OuterInfo) : M receiver HandleResult.t :=
  match read_msgs_ack ws with
  | None => ret HandleResult.ParseError
  | Some [] => ret (unknown info)
  | Some ids =>
      if badTime info then
        fixed <- requestsFixTimeSalt ids info ;;
        if negb fixed then ret HandleResult.Ignored else acked ids false ;;; ret HandleResult.Success
      else
        correctUnixtimeByFastRequest ids (serverTime info) ;;;
        acked ids false ;;; ret HandleResult.Success
  end.

Definition can_handle (errorCode : Z) : bool := bool_decide (errorCode ∈ [16; 17; 32; 33; 64]).
Definition need_resend (errorCode : Z) : bool := bool_decide (errorCode ∈ [16; 17; 64]).

Definition handleBadMsgNotification (ws : list Z) (info : OuterInfo) : M receiver HandleResult.t :=
  match read_bad_msg_notification ws with
  | None => ret HandleResult.ParseError
  | Some (resendId, errorCode) =>
      if can_handle errorCode then
        found <- was_sent resendId ;;
        if found =? 0 then ret (unknown info)
        else if need_resend errorCode then
          takeSalt info ;;;
          correctUnixtimeWithBadLocal (serverTime info) ;;;
          resend_ resendId 0 ;;;
          ret HandleResult.Success
        else
          (if badTime info then takeSalt info ;;; correctUnixtimeWithBadLocal (serverTime info) else ret tt) ;;;
          ret HandleResult.ResetSession
      else
        found <- was_sent resendId ;;
        (if negb (found =? 0) then push_response (mk_response protocol_error (outer info) found) else ret tt) ;;;
        ret (unknown info)
  end.

Definition handleBadServerSalt (ws : list Z) (info : OuterInfo) : M receiver HandleResult.t :=
  match read_bad_server_salt ws with
  | None => ret HandleResult.ParseError
  | Some (resendId, new_server_salt) =>
      found <- was_sent resendId ;;
      if found =? 0 then ret (unknown info) else
      setSalt new_server_salt ;;;
      correctUnixtimeWithBadLocal (serverTime info) ;;;
      changed <- setState ConnectedState (Some ConnectingState) ;;
      (if changed : bool then resend_all else ret tt) ;;;
      resend_ resendId 0 ;;;
      ret HandleResult.Success
  end.

Definition handleMsgsStateInfo (ws : list Z) (info : OuterInfo) : M receiver HandleResult.t :=
  match read_msgs_state_info ws with
  | None => ret HandleResult.ParseError
  | Some (reqMsgId, states) =>
      found <- inside (gets (fun s => stateAndResendRequests (tb s) !! reqMsgId)) ;;
      match found with
      | None => ret (unknown info)
      | Some originalRequest =>
          (if badTime info then takeSalt info ;;; correctUnixtimeWithBadLocal (serverTime info) else ret tt) ;;;
          d <- inside (deref originalRequest) ;;
          (if has_body (buffer d) then ret tt else lift None) ;;;
          acked [reqMsgId] true ;;;
          d <- inside (deref originalRequest) ;;
          let request := drop 8 (buffer d) in
          let ids := if word 0 request =? mtpc_msgs_state_req then read_msgs_state_req request
                     else read_msg_resend_req request in
          match ids with
          | None => ret HandleResult.ParseError
          | Some ids => msgs_states ids states ;;; ret HandleResult.Success
          end
      end
  end.

Definition handleMsgsAllInfo (ws : list Z) (info : OuterInfo) : M receiver HandleResult.t :=
  if badTime info then ret HandleResult.Ignored else
  match read_msgs_all_info ws with
  | None => ret HandleResult.ParseError
  | Some (ids, states) => msgs_states ids states ;;; ret HandleResult.Success
  end.

(** The answer [resMsgId] is acknowledged again, or asked for. *)
Definition answerInfo (resMsgId : Z) : M receiver unit :=
  ids <- inside (gets receivedMessageIds) ;;
  match lookupId ids resMsgId with
  | NotFound => inside (push_resend resMsgId)
  | _ => inside (push_ack resMsgId)
  end.

Definition handleMsgDetailedInfo (ws : list Z) (info : OuterInfo) : M receiver HandleResult.t :=
  match read_msg_detailed_info ws with
  | None => ret HandleResult.ParseError
  | Some (msg_id, answer_msg_id) =>
      fixed <- (if badTime info then requestsFixTimeSalt [msg_id] info else ret true) ;;
      if negb fixed then ret HandleResult.Ignored else
      acked [msg_id] false ;;;
      answerInfo answer_msg_id ;;;
      ret HandleResult.Success
  end.

Definition handleMsgNewDetailedInfo (ws : list Z) (info : OuterInfo) : M receiver HandleResult.t :=
  if badTime info then ret HandleResult.Ignored else
  match read_msg_new_detailed_info ws with
  | None => ret HandleResult.ParseError
  | Some answer_msg_id => answerInfo answer_msg_id ;;; ret HandleResult.Success
  end.

(** ** Answers *)

(** [mtproto/details/mtproto_bound_key_creator.cpp] *)
Definition IsDestroyedTemporaryKeyError (buffer : list Z) : bool :=
  match read_rpc_error buffer with
  | None => false
  | Some (code, message) => (code =? 401) && bool_decide (message = codes "AUTH_KEY_PERM_EMPTY")
  end.

Definition kKeyOldEnoughForDestroy : Z := 60 * 1000.

Definition destroyOldEnoughPersistentKey : M receiver bool :=
  let created := bindKeyCreated e in
  if (0 <? created) && (rnow e - created <? kKeyOldEnoughForDestroy) then ret false
  else say KeyDestroyedOnServer ;;; ret true.

(** The last lines of [handleBindResponse]: [QueueNeedToResumeAndSend]. *)
Definition resume : M receiver HandleResult.t := say QueueNeedToResumeAndSend ;;; ret HandleResult.Success.

Definition handleBindResponse (requestMsgId : Z) (response : list Z) : M receiver HandleResult.t :=
  creator <- gets keyCreator ;;
  p <- inside (gets sp) ;;
  if negb creator || (bindMsgId p =? 0) || negb (bindMsgId p =? requestMsgId) then ret HandleResult.Ignored else
  inside (modify (set_sp (fun p =>
    mk_special (pingId p) (pingIdToSend p) (pingSendAt p) (pingMsgId p) 0 (bindMessageSent p)))) ;;;
  match bindResponse e response with
  | BindSuccess =>
      modify drop_creator ;;;
      say KeyCreationDone ;;;
      if negb (releaseDone e) then ret HandleResult.DestroyTemporaryKey else resume
  | BindDefinitelyDestroyed =>
      old <- destroyOldEnoughPersistentKey ;;
      if old : bool then ret HandleResult.DestroyTemporaryKey else resume
  | BindFailed => resume
  end.

(** The answer in [response] to the request sent as [requestMsgId]. *)
Definition handleResponse (requestMsgId : Z) (response : list Z) (info : OuterInfo) : M receiver HandleResult.t :=
  match response with
  | [] => ret HandleResult.RestartConnection
  | typeId :: _ =>
      if (typeId =? mtpc_rpc_error) && IsDestroyedTemporaryKeyError response
      then ret HandleResult.DestroyTemporaryKey else
      (if negb (typeId =? mtpc_rpc_error) then say ConnectionInited else ret tt) ;;;
      acked [requestMsgId] true ;;;
      bindResult <- handleBindResponse requestMsgId response ;;
      if negb (bool_decide (bindResult = HandleResult.Ignored)) then ret bindResult else
      requestId <- was_sent requestMsgId ;;
      (if negb (requestId =? 0) && negb (requestId =? kAnyRequest)
       then push_response (mk_response response (outer info) requestId) else ret tt) ;;;
      ret HandleResult.Success
  end.

(** The words after the type of a [rpc_result]. *)
Definition handleRpcResult (words : list Z) (info : OuterInfo) : M receiver HandleResult.t :=
  if bool_decide (length words < 2)%nat then ret HandleResult.ParseError else
  match read_long words with
  | None => ret HandleResult.ParseError
  | Some (requestMsgId, from) =>
      fixed <- (if badTime info then requestsFixTimeSalt [requestMsgId] info else ret true) ;;
      if negb fixed then ret HandleResult.Ignored else
      match from with
      | [] => lift None
      | typeId :: packed =>
          if typeId =? mtpc_gzip_packed then
            response <- lift (ungzip packed) ;;
            handleResponse requestMsgId response info
          else handleResponse requestMsgId from info
      end
  end.

(** The loop over [haveSent] up to the first id the new session knows. *)
Fixpoint sentBefore (firstMsgId : Z) (sent : list (Z * Z)) : M session (list Z) :=
  match sent with
  | [] => ret []
  | (msgId, ref) :: sent =>
      if firstMsgId <=? msgId then ret [] else
      d <- deref ref ;;
      toResend <- sentBefore firstMsgId sent ;;
      ret (if negb (requestId d =? 0) then msgId :: toResend else toResend)
  end.

Definition handleNewSessionCreated (ws : list Z) (info : OuterInfo) : M receiver HandleResult.t :=
  match read_new_session_created ws with
  | None => ret HandleResult.ParseError
  | Some (firstMsgId, salt, from) =>
      fixed <- (if badTime info then requestsFixTimeSalt [firstMsgId] info else ret true) ;;
      if negb fixed then ret HandleResult.Ignored else
      setSalt salt ;;;
      sent <- inside (gets (fun s => entries (haveSent (tb s)))) ;;
      toResend <- inside (sentBefore firstMsgId sent) ;;
      inside (each (fun msgId => resend (rnow e) fuel msgId 10) toResend) ;;;
      push_response (mk_response (take (length ws - length from) ws) (outer info) 0) ;;;
      ret HandleResult.Success
  end.

Definition handlePong (ws : list Z) (info : OuterInfo) : M receiver HandleResult.t :=
  match read_pong ws with
  | None => ret HandleResult.ParseError
  | Some (msg_id, ping_id) =>
      found <- was_sent msg_id ;;
      if found =? 0 then ret HandleResult.Ignored else
      inside (modify (set_sp (fun p => if ping_id =? pingId p
        then mk_special 0 (pingIdToSend p) (pingSendAt p) (pingMsgId p) (bindMsgId p) (bindMessageSent p) else p))) ;;;
      fixed <- (if badTime info then requestsFixTimeSalt [msg_id] info else ret true) ;;
      if negb fixed then ret HandleResult.Ignored else
      acked [msg_id] true ;;;
      ret HandleResult.Success
  end.

(** What is no service message is an update. *)
Definition handleUpdates (ws : list Z) (info : OuterInfo) : M receiver HandleResult.t :=
  if badTime info then ret HandleResult.ResetSession else
  (if regularDc e then push_response (mk_response ws (outer info) 0) else ret tt) ;;;
  ret HandleResult.Success.

(** The message [type :: rest] when it holds no other messages. *)
Definition handleContent (type : Z) (rest : list Z) (info : OuterInfo) : M receiver HandleResult.t :=
  let ws := type :: rest in
  if type =? mtpc_msgs_ack then handleMsgsAck ws info
  else if type =? mtpc_bad_msg_notification then handleBadMsgNotification ws info
  else if type =? mtpc_bad_server_salt then handleBadServerSalt ws info
  else if type =? mtpc_msgs_state_info then handleMsgsStateInfo ws info
  else if type =? mtpc_msgs_all_info then handleMsgsAllInfo ws info
  else if type =? mtpc_msg_detailed_info then handleMsgDetailedInfo ws info
  else if type =? mtpc_msg_new_detailed_info then handleMsgNewDetailedInfo ws info
  else if type =? mtpc_rpc_result then handleRpcResult rest info
  else if type =? mtpc_new_session_created then handleNewSessionCreated ws info
  else if type =? mtpc_pong then handlePong ws info
  else handleUpdates ws info.

(** ** Messages in messages *)

Definition is_server_id (msgId : Z) : bool := (Z.land msgId 0x03 =? 1) || (Z.land msgId 0x03 =? 3).

(** A registered message is handled if it is new. *)
Definition handleRegistered (handle : M receiver HandleResult.t) (msgId : Z) (needAck : bool) : M receiver (HandleResult.t * bool) :=
  registered <- inside (register msgId needAck) ;;
  match registered with
  | Success => res <- handle ;; ret (res, true)
  | TooOld => ret (HandleResult.ResetSession, false)
  | Duplicate => ret (HandleResult.Success, false)
  end.

(** The loop over the messages of a container. *)
Fixpoint containerLoop (handle : list Z -> Z -> OuterInfo -> M receiver HandleResult.t) (msgsCount : nat)
    (from : list Z) (info : OuterInfo) : M receiver HandleResult.t :=
  match msgsCount with
  | O => ret HandleResult.Success
  | S msgsCount =>
      if bool_decide (length from <= 4)%nat then ret HandleResult.ParseError else
      match read_long (take 4 from) with
      | None => ret HandleResult.ParseError
      | Some (inMsgId, header) =>
      if negb (is_server_id inMsgId) then ret HandleResult.RestartConnection else
      match read_int header with
      | None => ret HandleResult.ParseError
      | Some (inSeqNo, header) =>
      match read_int header with
      | None => ret HandleResult.ParseError
      | Some (bytes, header) =>
      if negb (Z.land bytes 0x03 =? 0) || (bytes <? 4) then ret HandleResult.RestartConnection else
      let needAck := Z.testbit inSeqNo 0 in
      (if needAck then inside (push_ack inMsgId) else ret tt) ;;;
      let from := header ++ drop 4 from in
      let len := Z.to_nat (Z.shiftr bytes 2) in
      if bool_decide (length from < len)%nat then ret HandleResult.ParseError else
      result <- handleRegistered (handle (take len from) inMsgId info) inMsgId needAck ;;
      let info := if result.2 : bool then without_bad_time info else info in
      if negb (bool_decide (result.1 = HandleResult.Success)) then ret result.1
      else containerLoop handle msgsCount (drop len from) info
      end end end
  end.

Definition handleContainer (handle : list Z -> Z -> OuterInfo -> M receiver HandleResult.t) (rest : list Z)
    (info : OuterInfo) : M receiver HandleResult.t :=
  match rest with
  | [] => ret HandleResult.ParseError
  | msgsCount :: from => containerLoop handle (Z.to_nat msgsCount) from info
  end.

(** [depth]: how deep messages may be packed in one another. *)
Fixpoint handleOneReceived (depth : nat) (ws : list Z) (msgId : Z) (info : OuterInfo) : M receiver HandleResult.t :=
  match depth with
  | O => lift None
  | S depth =>
      match ws with
      | [] => lift None
      | type :: rest =>
          if type =? mtpc_gzip_packed then
            response <- lift (ungzip rest) ;;
            if bool_decide (response = []) then ret HandleResult.RestartConnection
            else handleOneReceived depth response msgId info
          else if type =? mtpc_msg_container then handleContainer (handleOneReceived depth) rest info
          else handleContent type rest info
      end
  end.

(** ** Packets *)

Definition kExternalHeaderIntsCount : nat := 6.
Definition kEncryptedHeaderIntsCount : nat := 8.
Definition kMinimalEncryptedIntsCount : nat := kEncryptedHeaderIntsCount + 4.
Definition kMinimalIntsCount : nat := kExternalHeaderIntsCount + kMinimalEncryptedIntsCount.
Definition kMaxMessageLength : Z := 16 * 1024 * 1024.
Definition kMinPaddingSize : Z := 12.
Definition kMaxPaddingSize : Z := 1024.
Definition kAckSendWaiting : Z := 10 * 1000.

Definition encryptedIntsCount (ints : list Z) : nat := (4 * ((length ints - kExternalHeaderIntsCount) / 4))%nat.

(** The decrypted words of a packet, when the packet may be decrypted and its
    message key is the one of its content. *)
Definition decrypted (ints : list Z) : option (list Z) :=
  let intsCount := Z.of_nat (length ints) in
  if (intsCount <? Z.of_nat kMinimalIntsCount) || (kMaxMessageLength / 4 <? intsCount) then None
  else if negb (keyId e =? long 0 ints) then None
  else
    let msgKey := take 4 (drop 2 ints) in
    let words := aesIgeDecrypt e (take (encryptedIntsCount ints) (drop kExternalHeaderIntsCount ints)) msgKey in
    if negb (bool_decide (msgKey = messageKey e words)) then None else Some words.

(** The lengths of a message are those of its packet. *)
Definition good_lengths (ints words : list Z) : bool :=
  let messageLength := word 7 words in
  let fullDataLength := wrapu 32 (32 + messageLength) in
  let paddingSize := wrapu 32 (4 * Z.of_nat (encryptedIntsCount ints) - fullDataLength) in
  negb ((kMaxMessageLength <? messageLength) || negb (Z.land messageLength 0x03 =? 0)
    || (paddingSize <? kMinPaddingSize) || (kMaxPaddingSize <? paddingSize)).

Definition bad_time (time : Z) : bool :=
  (unixtimeNow e + 60 <? time) || (time + 300 <? unixtimeNow e).

(** The salt of the server is taken when its time is right; what is passed on is
    a salt the session does not have yet. *)
Definition takeServerSalt (salt : Z) (badTime : bool) : M receiver Z :=
  current <- inside (gets sessionSalt) ;;
  if salt =? current then ret 0 else
  (if badTime then ret tt else
     setSalt salt ;;;
     changed <- setState ConnectedState (Some ConnectingState) ;;
     if changed : bool then resend_all else ret tt) ;;;
  ret salt.

(** After the message was handled: ids are forgotten, what is to be sent and to
    be processed is queued. *)
Definition afterHandled : M receiver unit :=
  inside (modify (fun s => set_received (shrink (receivedMessageIds s)) s)) ;;;
  acks <- inside (gets ackRequestData) ;;
  (if bool_decide (acks = []) then ret tt else say (QueueSendAnything kAckSendWaiting)) ;;;
  responses <- gets haveReceived ;;
  if bool_decide (responses = []) then ret tt else say TryToReceive.

(** The end of a packet; the result is whether to go on with the next one. *)
Definition afterPacket (res : HandleResult.t) (wasConnected : bool) : M receiver bool :=
  match res with
  | HandleResult.Success | HandleResult.Ignored =>
      modify (fun r => set_conn (connectionState r) 1 (retryTimerActive r) r) ;;;
      state <- gets connectionState ;;
      (if negb wasConnected && (state =? ConnectedState) then say QueueNeedToResumeAndSend else ret tt) ;;;
      ret true
  | HandleResult.DestroyTemporaryKey => say DestroyTemporaryKey ;;; restart ;;; ret false
  | HandleResult.ResetSession => modify (set_reset true) ;;; restart ;;; ret false
  | _ => restart ;;; ret false
  end.

Definition content (words : list Z) : list Z :=
  take (Z.to_nat (word 7 words / 4)) (drop kEncryptedHeaderIntsCount words).

(** The message of a packet that passed the checks. *)
Definition handleMessage (depth : nat) (words : list Z) : M receiver bool :=
  let msgId := long 4 words in
  let needAck := Z.testbit (word 6 words) 0 in
  let time := wraps 32 (msgId / 2 ^ 32) in
  let badTime := bad_time time in
  state <- gets connectionState ;;
  salt <- takeServerSalt (long 0 words) badTime ;;
  (if needAck then inside (push_ack msgId) else ret tt) ;;;
  result <- handleRegistered (handleOneReceived depth (content words) msgId (mk_info msgId salt time badTime)) msgId needAck ;;
  afterHandled ;;;
  afterPacket result.1 (state =? ConnectedState).

Definition handlePacket (depth : nat) (ints : list Z) : M receiver bool :=
  match decrypted ints with
  | None => restart ;;; ret false
  | Some words =>
      session <- inside (gets sessionId) ;;
      if negb (good_lengths ints words) || negb (long 2 words =? session) || negb (is_server_id (long 4 words))
      then restart ;;; ret false
      else handleMessage depth words
  end.

(** [received]: the packets of the connection, first to last. *)
Fixpoint handleReceived (depth : nat) (received : list (list Z)) : M receiver unit :=
  match received with
  | [] => if needHttpWait e then say (QueueSendAnything 0) else ret tt
  | ints :: received =>
      goOn <- handlePacket depth ints ;;
      if goOn : bool then handleReceived depth received else ret tt
  end.

End Receiving.
