(* ===== verification/ReceiveFacts.v ===== *)
(** * What received messages do to the requests

    No message makes a session fail but one that would make the code read past
    its end, and a request leaves only when the message answers it, or when
    nobody waits for its answer. *)

From S2P Require Import Prelude StateMonad Text ReceivedIds Requests RequestFacts Session SessionFacts SessionSend SessionResend SessionCalm SessionAck Receive.

(** ** Handling a message *)

Section Handled.
Context {msg_id : nat -> Z} {limit : nat} {scheme : Scheme} {fuel : nat} {e : renv}.
(** The session before the messages. *)
Context {s0 : session}.

#[local] Abbreviation transit := (@transit msg_id limit).
#[local] Abbreviation evolves := (evolves (msg_id := msg_id) (limit := limit)).

(** The requests for states are in the store. *)
Definition states_stored (s : session) : Prop := forall m ref,
  stateAndResendRequests (tb s) !! m = Some ref -> is_Some (heap (tb s) !! ref).

Definition ready (r : receiver) : Prop :=
  transit [] (base r) /\ (size (sentContainers (tb (base r))) < fuel)%nat /\ states_stored (base r)
  /\ states_stored s0 /\ calm s0 (base r).

(** A request may go when it is answered under one of the ids [A true], or when
    nobody waits for its answer and one of the ids [A] covers its message. *)
Definition gone (A : bool -> Z -> Prop) (s : session) (x : Z) : Prop :=
  (exists m, A true m /\ answers s m x)
  \/ hasCallback e x = false /\ exists m, covered s (fun k => exists b, A b k) m /\ answers s m x.

Record handled (A : bool -> Z -> Prop) (r r' : receiver) : Prop := {
  handled_ready : ready r';
  handled_evolves : evolves (gone A (base r)) (base r) (base r');
  handled_calm : calm (base r) (base r') }.

Lemma handled_trans (A : bool -> Z -> Prop) (r r1 r2 : receiver) : handled A r r1 -> handled A r1 r2 -> handled A r r2.
Proof.
  intros [R1 E1 C1] [R2 E2 C2]. split; [done| |by etrans].
  eapply evolves_trans; [exact E1|]. eapply evolves_more; [|exact E2].
  intros x [(m & Hm & Hx)|(Hcb & m & Hm & Hx)]; apply (calm_answers _ _ C1) in Hx; [left; eauto|right].
  split; [done|]. exists m. split; [|done]. eapply covered_more; [apply (calm_containers _ _ C1)| |exact Hm].
  intros k Hk. by apply covered_id.
Qed.

(** What calm evolution makes of a ready session. *)
Lemma calm_handled (A : bool -> Z -> Prop) (r : receiver) (s' : session) (r' : receiver) : ready r -> base r' = s' ->
  calm (base r) s' -> evolves (gone A (base r)) (base r) s' -> handled A r r'.
Proof.
  intros (Ht & Hf & Hst & H0 & C0) <- C E. split; [|done|done]. split_and!; [apply E| | |done|by etrans].
  - pose proof (map_subseteq_size _ _ (evolves_containers _ _ _ E)). lia.
  - intros m ref Hm. apply (calm_stored _ _ _ C), (Hst m). by eapply lookup_weaken, (calm_states _ _ C).
Qed.

Lemma handled_same (A : bool -> Z -> Prop) (r r' : receiver) : ready r ->
  tb (base r') = tb (base r) -> generated (base r') = generated (base r) -> handled A r r'.
Proof.
  intros Hr E Eg. eapply calm_handled; [done|done|by apply calm_same|].
  apply resent_evolves; [apply Hr|]. apply resent_same; [apply Hr|done|done].
Qed.

(** [m] returns and does nothing else to the requests. *)
Definition handles {B} (A : bool -> Z -> Prop) (m : M receiver B) : Prop :=
  forall r, ready r -> wp m (fun _ r' => handled A r r') r.

Lemma handles_ret {B} (A : bool -> Z -> Prop) (b : B) : handles A (ret b).
Proof. intros r Hr. by apply wp_ret, handled_same. Qed.
Lemma handles_gets {B} (A : bool -> Z -> Prop) (f : receiver -> B) : handles A (gets f).
Proof. intros r Hr. by apply wp_gets, handled_same. Qed.
Lemma handles_bind {B C} (A : bool -> Z -> Prop) (m : M receiver B) (k : B -> M receiver C) :
  handles A m -> (forall b, handles A (k b)) -> handles A (bind m k).
Proof.
  intros Hm Hk r Hr. apply wp_bind. eapply wp_mono; [by apply Hm|]. intros b r1 H1.
  eapply wp_mono; [apply Hk, H1|]. intros c r2 H2. exact (handled_trans A r r1 r2 H1 H2).
Qed.
Lemma handles_modify (A : bool -> Z -> Prop) (f : receiver -> receiver) : (forall r, base (f r) = base r) -> handles A (modify f).
Proof. intros Hf r Hr. apply wp_modify, handled_same; by rewrite ?Hf. Qed.

Lemma wp_inside {B} (m : M session B) (Q : B -> receiver -> Prop) (r : receiver) :
  wp m (fun b s => Q b (set_base s r)) (base r) -> wp (inside m) Q r.
Proof. unfold wp, inside. by destruct (m (base r)) as [[b s]|]. Qed.

Lemma handles_inside {B} (A : bool -> Z -> Prop) (m : M session B) : along calm m ->
  (forall s, transit [] s -> (size (sentContainers (tb s)) < fuel)%nat -> wp m (fun _ s' => evolves (gone A s) s s') s) ->
  handles A (inside m).
Proof.
  intros Hc Hm r Hr. apply wp_inside. pose proof Hr as (Ht & Hf & _). pose proof (Hm _ Ht Hf) as H.
  unfold wp in *. destruct (m (base r)) as [[b s]|] eqn:E; [|done].
  eapply calm_handled; [done|done|by eapply Hc|done].
Qed.

Lemma handles_inside_modify (A : bool -> Z -> Prop) (f : session -> session) :
  (forall s, tb (f s) = tb s /\ generated (f s) = generated s) -> handles A (inside (modify f)).
Proof. intros Hf r Hr. apply wp_inside, wp_modify, handled_same; [done|apply Hf|apply Hf]. Qed.
Lemma handles_inside_gets {B} (A : bool -> Z -> Prop) (f : session -> B) : handles A (inside (gets f)).
Proof. intros r Hr. by apply wp_inside, wp_gets, handled_same. Qed.

Lemma was_sent_total (s : session) (m : Z) : transit [] s -> exists x, wasSent m s = Some x.
Proof.
  intros Ht. unfold wasSent. destruct (_ || _); [eauto|].
  destruct (resendingIds (tb s) !! m); [eauto|]. destruct (ackedIds (tb s) !! m); [eauto|].
  destruct (sentContainers (tb s) !! m); [eauto|]. destruct (haveSent (tb s) !! m) as [ref|] eqn:Hm; [|eauto].
  destruct (inv_held _ _ (transit_inv _ _ Ht) ref) as (d & Hd & _); [right; eauto|]. rewrite Hd. eauto.
Qed.

Lemma handles_was_sent (A : bool -> Z -> Prop) (m : Z) : handles A (was_sent m).
Proof.
  intros r Hr. unfold wp, was_sent. destruct (was_sent_total (base r) m) as [x ->]; [apply Hr|]. by apply handled_same.
Qed.

Lemma handles_register (A : bool -> Z -> Prop) (m : Z) (b : bool) : handles A (inside (register m b)).
Proof.
  intros r Hr. apply wp_inside. unfold wp, register. destruct (registerMsgId _ _ _). by apply handled_same.
Qed.

(** The operations of the session. *)
Lemma handles_ended (A : bool -> Z -> Prop) (byResponse : bool) (ids : list Z) :
  (forall m, m ∈ ids -> A byResponse m) -> handles A (acked fuel e ids byResponse).
Proof.
  intros HA. apply handles_inside; [apply calms_acked|]. intros s Ht Hf.
  eapply wp_mono; [by apply (requests_acked_spec (msg_id := msg_id) (limit := limit))|]. intros [] s' [_ V].
  eapply evolves_more; [|exact V]. intros x [(-> & m & Hm & Hx)|(Hx & m & Hm & Ha)]; [left; eauto|right].
  split; [done|]. exists m. split; [|done]. eapply covered_more; [done| |exact Hm]. intros k Hk. apply covered_id. eauto.
Qed.
Lemma handles_acked (A : bool -> Z -> Prop) (ids : list Z) :
  (forall m, m ∈ ids -> A false m) -> handles A (acked fuel e ids false).
Proof. apply handles_ended. Qed.
Lemma handles_answered (A : bool -> Z -> Prop) (m : Z) : A true m -> handles A (acked fuel e [m] true).
Proof. intros Hm. apply handles_ended. by intros k ->%list_elem_of_singleton. Qed.
Lemma handles_resend (A : bool -> Z -> Prop) (m canWait : Z) : handles A (resend_ fuel e m canWait).
Proof.
  apply handles_inside; [apply calms_resend|]. intros s Ht Hf.
  apply (resend_spec (msg_id := msg_id) (limit := limit)); [done|done|]. intros s' R _. by apply resent_evolves.
Qed.
Lemma handles_resend_all (A : bool -> Z -> Prop) : handles A (resend_all e).
Proof.
  apply handles_inside; [apply calms_resend_all|]. intros s Ht _.
  eapply wp_mono; [by apply (resend_all_spec (msg_id := msg_id) (limit := limit))|]. intros [] s' [R _]. by apply resent_evolves.
Qed.
Lemma handles_states (A : bool -> Z -> Prop) (ids states : list Z) :
  (forall m, m ∈ reported ids states -> A false m) -> handles A (msgs_states fuel e ids states).
Proof.
  intros HA. apply handles_inside; [apply calms_states|]. intros s Ht Hf.
  eapply wp_mono; [by apply (handle_states_spec (msg_id := msg_id) (limit := limit))|]. intros [] s' V.
  eapply evolves_more; [|exact V]. intros x [[? _]|(Hx & m & Hm & Ha)]; [done|right].
  split; [done|]. exists m. split; [|done]. eapply covered_more; [done| |exact Hm]. intros k Hk. apply covered_id. eauto.
Qed.

Create HintDb handles.
#[local] Hint Resolve handles_ret handles_gets handles_inside_gets handles_was_sent handles_register handles_acked
  handles_answered handles_resend handles_resend_all handles_states : handles.
#[local] Hint Extern 2 (handles _ (modify _)) => (apply handles_modify; done) : handles.
#[local] Hint Extern 2 (handles _ (push_response _)) => (apply handles_modify; done) : handles.
#[local] Hint Extern 2 (handles _ (inside (modify _))) => (apply handles_inside_modify; done) : handles.
#[local] Hint Extern 2 (handles _ (inside (push_ack _))) => (apply handles_inside_modify; done) : handles.
#[local] Hint Extern 2 (handles _ (inside (push_resend _))) => (apply handles_inside_modify; done) : handles.
#[local] Hint Extern 2 (handles _ (say _)) => (apply handles_inside_modify; done) : handles.
#[local] Hint Extern 2 (handles _ (setSalt _)) => (apply handles_inside_modify; done) : handles.

Ltac handles := repeat first
  [ solve [eauto 3 with handles nocore]
  | apply handles_bind; [|intros ?]
  | match goal with
    | |- handles _ (if ?b then _ else _) => destruct b
    | |- handles _ (match ?o with _ => _ end) => destruct o
    end ].

Lemma handles_take_salt (A : bool -> Z -> Prop) (info : OuterInfo) : handles A (takeSalt info).
Proof. unfold takeSalt. handles. Qed.
Lemma handles_bad_local (A : bool -> Z -> Prop) (t : Z) : handles A (correctUnixtimeWithBadLocal t).
Proof. unfold correctUnixtimeWithBadLocal. handles. Qed.
#[local] Hint Resolve handles_take_salt handles_bad_local : handles.

Lemma handles_fix_time (A : bool -> Z -> Prop) (ids : list Z) (info : OuterInfo) : handles A (requestsFixTimeSalt ids info).
Proof. induction ids as [|m ids IH]; cbn [requestsFixTimeSalt]; handles. Qed.
#[local] Hint Resolve handles_fix_time : handles.

Lemma handles_set_state (A : bool -> Z -> Prop) (state : Z) (ifState : option Z) : handles A (setState state ifState).
Proof.
  unfold setState. apply handles_bind; [handles|]. intros current. destruct (match ifState with _ => _ end); [handles|].
  destruct (current =? state); [handles|]. apply handles_bind; [|intros; handles].
  apply handles_modify. intros r. by destruct (state <? 0).
Qed.
#[local] Hint Resolve handles_set_state : handles.

(** A request that is sent is in the store. *)
Lemma handles_fast_request (A : bool -> Z -> Prop) (ids : list Z) (t : Z) : handles A (correctUnixtimeByFastRequest e ids t).
Proof.
  induction ids as [|m ids IH]; cbn [correctUnixtimeByFastRequest]; [handles|].
  intros r Hr. apply wp_bind, wp_inside, wp_gets.
  assert (set_base (base r) r = r) as Er by (by destruct r). rewrite Er.
  destruct (haveSent (tb (base r)) !! m) as [ref|] eqn:Hm; [|by apply IH].
  destruct (inv_held _ _ (transit_inv _ _ (proj1 Hr)) ref) as (d & Hd & _); [right; eauto|].
  apply wp_bind, wp_inside, (wp_deref _ d); [done|]. rewrite Er. clear Er Hm Hd. revert r Hr.
  change (handles A (sync <- gets syncTimeRequestDuration ;;
    if (rnow e - lastSentTime d <? 0) || (sync <? rnow e - lastSentTime d) then correctUnixtimeByFastRequest e ids t
    else modify (set_sync (rnow e - lastSentTime d)) ;;; say (UnixtimeUpdate t))).
  handles.
Qed.
#[local] Hint Resolve handles_fast_request : handles.

Lemma handles_msgs_ack (A : bool -> Z -> Prop) (ws : list Z) (info : OuterInfo) :
  (forall ids m, read_msgs_ack ws = Some ids -> m ∈ ids -> A false m) -> handles A (handleMsgsAck fuel e ws info).
Proof.
  intros HA. unfold handleMsgsAck. destruct (read_msgs_ack ws) as [ids|]; [|handles].
  assert (forall m, m ∈ ids -> A false m) as Hids by (intros m; by apply HA). destruct ids as [|m ids]; handles.
Qed.
Lemma handles_bad_msg (A : bool -> Z -> Prop) (ws : list Z) (info : OuterInfo) : handles A (handleBadMsgNotification fuel e ws info).
Proof. unfold handleBadMsgNotification. handles. Qed.
Lemma handles_bad_salt (A : bool -> Z -> Prop) (ws : list Z) (info : OuterInfo) : handles A (handleBadServerSalt fuel e ws info).
Proof. unfold handleBadServerSalt. handles. Qed.
Lemma handles_all_info (A : bool -> Z -> Prop) (ws : list Z) (info : OuterInfo) :
  (forall ids states m, read_msgs_all_info ws = Some (ids, states) -> m ∈ reported ids states -> A false m) ->
  handles A (handleMsgsAllInfo fuel e ws info).
Proof.
  intros HA. unfold handleMsgsAllInfo. destruct (badTime info); [handles|].
  destruct (read_msgs_all_info ws) as [[ids states]|]; [|handles].
  assert (forall m, m ∈ reported ids states -> A false m) as Hids by (intros m; by apply HA). handles.
Qed.
Lemma handles_detailed_info (A : bool -> Z -> Prop) (ws : list Z) (info : OuterInfo) :
  (forall m a, read_msg_detailed_info ws = Some (m, a) -> A false m) -> handles A (handleMsgDetailedInfo fuel e ws info).
Proof.
  intros HA. unfold handleMsgDetailedInfo, answerInfo. destruct (read_msg_detailed_info ws) as [[m a]|]; [|handles].
  assert (forall k, k ∈ [m] -> A false k) as Hm by (intros k ->%list_elem_of_singleton; by eapply HA). handles.
Qed.
Lemma handles_new_detailed_info (A : bool -> Z -> Prop) (ws : list Z) (info : OuterInfo) : handles A (handleMsgNewDetailedInfo ws info).
Proof. unfold handleMsgNewDetailedInfo, answerInfo. handles. Qed.
Lemma handles_updates (A : bool -> Z -> Prop) (ws : list Z) (info : OuterInfo) : handles A (handleUpdates e ws info).
Proof. unfold handleUpdates. handles. Qed.
Lemma handles_pong (A : bool -> Z -> Prop) (ws : list Z) (info : OuterInfo) :
  (forall m p, read_pong ws = Some (m, p) -> A true m) -> handles A (handlePong fuel e ws info).
Proof.
  intros HA. unfold handlePong. destruct (read_pong ws) as [[m p]|]; [|handles].
  specialize (HA m p eq_refl). handles.
Qed.
#[local] Hint Resolve handles_bad_msg handles_bad_salt handles_new_detailed_info handles_updates : handles.

Lemma set_base_same (r : receiver) : set_base (base r) r = r.
Proof. by destruct r. Qed.

(** The answer to a request for states takes no request of others. *)
Lemma state_acked (cb : Z -> bool) (m : Z) (s : session) : is_Some (stateAndResendRequests (tb s) !! m) ->
  requestsAcked cb fuel [m] true s = requestsAcked cb fuel [m] false s.
Proof.
  intros [ref Hm]. destruct fuel as [|n]; [done|]. cbn [requestsAcked ackEach]. unfold ackOne, bind, gets.
  by destruct (sentContainers (tb s) !! m); [|rewrite Hm].
Qed.

Lemma wp_fix_bad_time (A : bool -> Z -> Prop) (info : OuterInfo) (r : receiver) : ready r ->
  wp (if badTime info then takeSalt info ;;; correctUnixtimeWithBadLocal (serverTime info) else ret tt)
    (fun _ r' => handled A r r' /\ tb (base r') = tb (base r)) r.
Proof.
  intros Hr. destruct (badTime info); [|by apply wp_ret; split; [apply handled_same|]].
  unfold takeSalt. destruct (negb _); cbn; (split; [by apply handled_same|done]).
Qed.

(** The ids asked for in a stored request for states. *)
Definition asked_states (d : RequestData) : option (list Z) :=
  let request := drop 8 (buffer d) in
  if word 0 request =? mtpc_msgs_state_req then read_msgs_state_req request else read_msg_resend_req request.

(** The ids that [states], come for the request [m] for states, acknowledge. *)
Definition state_acks (s : session) (m : Z) (states : list Z) : list Z :=
  match stateAndResendRequests (tb s) !! m with
  | None => []
  | Some ref => m :: match d <-? heap (tb s) !! ref ; asked_states d with Some ids => reported ids states | None => [] end
  end.

(** The request for states stays in the store while it is answered. *)
Lemma handles_state_info (A : bool -> Z -> Prop) (ws : list Z) (info : OuterInfo) :
  (forall m states k, read_msgs_state_info ws = Some (m, states) -> k ∈ state_acks s0 m states -> A false k) ->
  handles A (handleMsgsStateInfo fuel e ws info).
Proof.
  intros HA r Hr. unfold handleMsgsStateInfo. destruct (read_msgs_state_info ws) as [[m states]|]; [|by apply handles_ret].
  specialize (HA m states). apply wp_bind, wp_inside, wp_gets. rewrite set_base_same.
  destruct (stateAndResendRequests (tb (base r)) !! m) as [ref|] eqn:Hm; [|by apply handles_ret].
  pose proof Hr as (_ & _ & _ & H0 & C0).
  assert (stateAndResendRequests (tb s0) !! m = Some ref) as Hm0 by (by eapply lookup_weaken, (calm_states _ _ C0)).
  destruct (H0 m ref Hm0) as [d0 Hd0]. unfold state_acks in HA. rewrite Hm0, Hd0 in HA.
  assert (forall r', handled A r r' -> exists d, heap (tb (base r')) !! ref = Some d /\ buffer d = buffer d0 /\ has_body (buffer d) = true) as Hd.
  { intros r' H'. destruct (handled_ready _ _ _ H') as (Ht & _ & _ & _ & C').
    destruct (calm_heap _ _ C' ref d0 Hd0) as (d & Hd & E). exists d. split_and!; [done|done|].
    apply (inv_heap _ _ (transit_inv _ _ Ht) ref d Hd). }
  apply wp_bind. eapply wp_mono; [by apply (wp_fix_bad_time A)|]. intros [] r1 [H1 E1].
  destruct (Hd r1 H1) as (d & Hd1 & _ & Hb). apply wp_bind, wp_inside, (wp_deref _ d); [done|]. rewrite Hb, set_base_same.
  apply wp_bind, wp_ret, wp_bind.
  unfold wp at 1, acked, inside. rewrite state_acked by (rewrite E1; eauto).
  change (wp (acked fuel e [m] false) (fun _ s' => wp (d <- inside (deref ref) ;; match asked_states d with
    | None => ret HandleResult.ParseError
    | Some ids => msgs_states fuel e ids states ;;; ret HandleResult.Success end) (fun _ => handled A r) s') r1).
  eapply wp_mono; [apply (handles_acked A); [|apply H1]|].
  { intros k ->%list_elem_of_singleton. apply HA; [done|]. by left. }
  intros [] r2 H2. cbv beta in H2.
  pose proof (handled_trans A _ _ _ H1 H2) as H3. destruct (Hd r2 H3) as (d2 & Hd2 & E2 & _).
  apply wp_bind, wp_inside, (wp_deref _ d2); [done|]. rewrite set_base_same.
  assert (asked_states d2 = asked_states d0) as -> by (unfold asked_states; by rewrite E2).
  cbn in HA. destruct (asked_states d0) as [ids|].
  - assert (forall k, k ∈ reported ids states -> A false k) as Hids by (intros k Hk; apply HA; [done|by right]).
    match goal with |- wp ?k _ _ => assert (handles A k) as Hk by handles end.
    eapply wp_mono; [apply Hk, H3|]. intros res r4 H4. exact (handled_trans A _ _ _ H3 H4).
  - eapply wp_mono; [apply (handles_ret A), H3|]. intros res r4 H4. exact (handled_trans A _ _ _ H3 H4).
Qed.

Lemma handles_bind_response (A : bool -> Z -> Prop) (m : Z) (response : list Z) : handles A (handleBindResponse e m response).
Proof.
  unfold handleBindResponse, destroyOldEnoughPersistentKey, resume. handles.
Qed.
#[local] Hint Resolve handles_bind_response : handles.

Lemma handles_response (A : bool -> Z -> Prop) (m : Z) (response : list Z) (info : OuterInfo) :
  A true m -> handles A (handleResponse fuel e m response info).
Proof. intros Hm. unfold handleResponse. handles. Qed.

(** A [rpc_result] that has a body, one that can be unpacked if it is packed. *)
Definition has_result (words : list Z) : bool :=
  match read_long words with
  | Some (_, []) => bool_decide (length words < 2)%nat
  | Some (_, typeId :: packed) =>
      if typeId =? mtpc_gzip_packed then bool_decide (is_Some (ungzip fuel packed)) else true
  | None => true
  end.

Lemma handles_rpc_result (A : bool -> Z -> Prop) (words : list Z) (info : OuterInfo) :
  has_result words = true -> (forall m from, read_long words = Some (m, from) -> A true m) ->
  handles A (handleRpcResult fuel e words info).
Proof.
  unfold has_result, handleRpcResult. intros Hw HA. destruct (bool_decide _); [handles|].
  destruct (read_long words) as [[m from]|]; [|handles]. specialize (HA m from eq_refl).
  apply handles_bind; [handles|]. intros fixed. destruct (negb fixed); [handles|].
  destruct from as [|typeId packed]; [done|]. destruct (typeId =? mtpc_gzip_packed); [|by apply handles_response].
  apply bool_decide_eq_true in Hw as [response ->]. intros r Hr. apply wp_bind. eapply wp_lift; [done|].
  by apply handles_response.
Qed.

Lemma sent_before_total (firstMsgId : Z) (l : list (Z * Z)) (s : session) : transit [] s ->
  (forall m ref, (m, ref) ∈ l -> haveSent (tb s) !! m = Some ref) ->
  exists ids, sentBefore firstMsgId l s = Some (ids, s).
Proof.
  intros Ht. induction l as [|[m ref] l IH]; intros Hl; cbn [sentBefore]; [by eexists|].
  destruct (firstMsgId <=? m); [by eexists|]. unfold bind, deref.
  destruct (inv_held _ _ (transit_inv _ _ Ht) ref) as (d & -> & _); [right; exists m; apply Hl; by left|].
  destruct IH as [ids ->]; [intros; apply Hl; by right|]. by eexists.
Qed.

Lemma handles_each_resend (A : bool -> Z -> Prop) (canWait : Z) (ids : list Z) :
  handles A (inside (each (fun m => resend (rnow e) fuel m canWait) ids)).
Proof.
  apply handles_inside; [apply along_each; intros; apply calms_resend|]. intros s Ht Hf.
  apply (wp_each (fun s' => evolves (gone A s) s s')); [|by apply evolves_refl].
  intros m s1 _ V. pose proof (map_subseteq_size _ _ (evolves_containers _ _ _ V)).
  apply (resend_spec (msg_id := msg_id) (limit := limit)); [apply V|lia|]. intros s2 R _.
  eapply evolves_trans; [exact V|]. apply resent_evolves; [apply V|done].
Qed.
#[local] Hint Resolve handles_each_resend : handles.

Lemma handles_new_session (A : bool -> Z -> Prop) (ws : list Z) (info : OuterInfo) :
  handles A (handleNewSessionCreated fuel e ws info).
Proof.
  unfold handleNewSessionCreated. destruct (read_new_session_created ws) as [[[first salt] from]|]; [|handles].
  apply handles_bind; [handles|]. intros fixed. destruct (negb fixed); [handles|].
  apply handles_bind; [handles|]. intros _ r Hr. apply wp_bind, wp_inside, wp_gets. rewrite set_base_same.
  destruct (sent_before_total first (entries (haveSent (tb (base r)))) (base r)) as [ids Eids]; [apply Hr| |].
  { intros m ref Hin. by apply elem_of_entries. }
  apply wp_bind. unfold wp at 1, inside at 1. rewrite Eids, set_base_same. revert r Hr Eids.
  match goal with |- forall r, _ -> _ -> wp ?k _ _ => assert (handles A k) as Hk by handles end.
  intros r Hr _. by apply Hk.
Qed.
#[local] Hint Resolve handles_new_session : handles.

(** ** Messages in messages *)

(** The messages of a container, as far as the loop can go. *)
Fixpoint bodies (msgsCount : nat) (from : list Z) : list (list Z) :=
  match msgsCount with
  | O => []
  | S msgsCount =>
      if bool_decide (length from <= 4)%nat then [] else
      match read_long (take 4 from) with
      | None => []
      | Some (_, header) =>
      match read_int header with
      | None => []
      | Some (_, header) =>
      match read_int header with
      | None => []
      | Some (bytes, header) =>
          let from := header ++ drop 4 from in
          let len := Z.to_nat (Z.shiftr bytes 2) in
          take len from :: bodies msgsCount (drop len from)
      end end end
  end.

(** The ids a message that is no container answers, with [true], or acknowledges. *)
Definition acks_of (type : Z) (rest : list Z) : list (bool * Z) :=
  let ws := type :: rest in
  if type =? mtpc_msgs_ack then match read_msgs_ack ws with Some ids => pair false <$> ids | None => [] end
  else if type =? mtpc_msgs_state_info then
    match read_msgs_state_info ws with Some (m, states) => pair false <$> state_acks s0 m states | None => [] end
  else if type =? mtpc_msgs_all_info then
    match read_msgs_all_info ws with Some (ids, states) => pair false <$> reported ids states | None => [] end
  else if type =? mtpc_msg_detailed_info then
    match read_msg_detailed_info ws with Some (m, _) => [(false, m)] | None => [] end
  else if type =? mtpc_rpc_result then match read_long rest with Some (m, _) => [(true, m)] | None => [] end
  else if type =? mtpc_pong then match read_pong ws with Some (m, _) => [(true, m)] | None => [] end
  else [].

(** The ids a message answers or acknowledges, it or those inside. *)
Fixpoint acks (depth : nat) (ws : list Z) : list (bool * Z) :=
  match depth, ws with
  | S depth, type :: rest =>
      if type =? mtpc_gzip_packed then match ungzip fuel rest with Some ws => acks depth ws | None => [] end
      else if type =? mtpc_msg_container then
        match rest with [] => [] | count :: from => concat (acks depth <$> bodies (Z.to_nat count) from) end
      else acks_of type rest
  | _, _ => []
  end.

(** A message that can be read: it is not empty, nor packed in others deeper
    than [depth], can be unpacked with [fuel], and every answer has a body. *)
Fixpoint readable (depth : nat) (ws : list Z) : bool :=
  match depth, ws with
  | S depth, type :: rest =>
      if type =? mtpc_gzip_packed then
        match ungzip fuel rest with Some [] => true | Some ws => readable depth ws | None => false end
      else if type =? mtpc_msg_container then
        match rest with [] => true | count :: from => forallb (readable depth) (bodies (Z.to_nat count) from) end
      else if type =? mtpc_rpc_result then has_result rest else true
  | _, _ => false
  end.

Lemma elem_of_acked (ids : list Z) (m : Z) : m ∈ ids -> (false, m) ∈ (pair false <$> ids : list (bool * Z)).
Proof. intros Hm. apply list_elem_of_fmap. by exists m. Qed.

Lemma handles_content (A : bool -> Z -> Prop) (type : Z) (rest : list Z) (info : OuterInfo) :
  ((type =? mtpc_rpc_result) = true -> has_result rest = true) -> (forall b m, (b, m) ∈ acks_of type rest -> A b m) ->
  handles A (handleContent fuel e type rest info).
Proof.
  unfold handleContent, acks_of. intros Hres HA. destruct (type =? mtpc_msgs_ack).
  { apply handles_msgs_ack. intros ids m Eids Hm. apply HA. rewrite Eids. by apply elem_of_acked. }
  destruct (type =? mtpc_bad_msg_notification); [handles|]. destruct (type =? mtpc_bad_server_salt); [handles|].
  destruct (type =? mtpc_msgs_state_info).
  { apply handles_state_info. intros m states k E Hk. apply HA. rewrite E. by apply elem_of_acked. }
  destruct (type =? mtpc_msgs_all_info).
  { apply handles_all_info. intros ids states m E Hm. apply HA. rewrite E. by apply elem_of_acked. }
  destruct (type =? mtpc_msg_detailed_info).
  { apply handles_detailed_info. intros m a E. apply HA. rewrite E. by left. }
  destruct (type =? mtpc_msg_new_detailed_info); [handles|].
  destruct (type =? mtpc_rpc_result) eqn:E.
  - apply handles_rpc_result; [by apply Hres|]. intros m from Em. apply HA. rewrite Em. by left.
  - destruct (type =? mtpc_new_session_created); [handles|]. destruct (type =? mtpc_pong); [|handles].
    apply handles_pong. intros m q Em. apply HA. rewrite Em. by left.
Qed.

Lemma handles_registered (A : bool -> Z -> Prop) (handle : M receiver HandleResult.t) (m : Z) (b : bool) :
  handles A handle -> handles A (handleRegistered handle m b).
Proof. intros Hh. unfold handleRegistered. handles. Qed.

Lemma handles_container_loop (A : bool -> Z -> Prop) (handle : list Z -> Z -> OuterInfo -> M receiver HandleResult.t) (n : nat)
    (from : list Z) (info : OuterInfo) :
  (forall ws m i, ws ∈ bodies n from -> handles A (handle ws m i)) -> handles A (containerLoop handle n from info).
Proof.
  revert from info. induction n as [|n IH]; intros from info; cbn [containerLoop bodies]; [handles|].
  destruct (bool_decide _); [handles|]. destruct (read_long (take 4 from)) as [[m h]|]; [|handles].
  intros Hh. destruct (negb (is_server_id m)); [handles|].
  destruct (read_int h) as [[seqNo h1]|]; [|handles]. destruct (read_int h1) as [[bytes h2]|]; [|handles].
  destruct (_ || _); [handles|]. cbv zeta. set (from' := h2 ++ drop 4 from) in *. set (len := Z.to_nat _) in *.
  apply handles_bind; [handles|]. intros _. destruct (bool_decide _); [handles|].
  apply handles_bind; [apply handles_registered, Hh; by left|]. intros [res done_]. destruct (negb _); [handles|].
  apply IH. intros ws k i Hws. apply Hh. by right.
Qed.

Lemma handles_one (depth : nat) (A : bool -> Z -> Prop) (ws : list Z) (m : Z) (info : OuterInfo) :
  readable depth ws = true -> (forall b k, (b, k) ∈ acks depth ws -> A b k) -> handles A (handleOneReceived fuel e depth ws m info).
Proof.
  revert ws m info. induction depth as [|depth IH]; intros ws m info; [done|].
  destruct ws as [|type rest]; [done|]. cbn [readable acks handleOneReceived].
  destruct (type =? mtpc_gzip_packed).
  { destruct (ungzip fuel rest) as [ws|]; [|done]. intros Hws HA r Hr. apply wp_bind, (wp_lift _ ws); [done|].
    case_bool_decide as En; [by apply handles_ret|]. apply IH; [by destruct ws|done|done]. }
  destruct (type =? mtpc_msg_container).
  { unfold handleContainer. destruct rest as [|count from]; [handles|]. intros Hws HA. rewrite List.forallb_forall in Hws.
    apply handles_container_loop. intros ws k i Hin. apply IH.
    - by apply Hws, list_elem_of_In.
    - intros b j Hj. apply HA, list_elem_of_In, List.in_concat. exists (acks depth ws). rewrite <- !list_elem_of_In. split; [|done].
      apply list_elem_of_fmap. by exists ws. }
  intros Hres HA. apply handles_content; [|done]. destruct (type =? mtpc_rpc_result); [done|done].
Qed.

(** ** Packets *)

#[local] Hint Extern 2 (handles _ (inside (changeSessionId _))) => (apply handles_inside_modify; done) : handles.

Lemma handles_restart (A : bool -> Z -> Prop) : handles A (restart e).
Proof. unfold restart, resetSession. handles. Qed.
#[local] Hint Resolve handles_restart : handles.

Lemma handles_server_salt (A : bool -> Z -> Prop) (salt : Z) (bad : bool) : handles A (takeServerSalt e salt bad).
Proof. unfold takeServerSalt. handles. Qed.
Lemma handles_after (A : bool -> Z -> Prop) : handles A afterHandled.
Proof. unfold afterHandled. handles. Qed.
Lemma handles_after_packet (A : bool -> Z -> Prop) (res : HandleResult.t) (was : bool) : handles A (afterPacket e res was).
Proof. unfold afterPacket. handles. Qed.
#[local] Hint Resolve handles_server_salt handles_after handles_after_packet : handles.

Definition packet_readable (depth : nat) (ints : list Z) : bool :=
  match decrypted e ints with Some words => readable depth (content words) | None => true end.
Definition packet_acks (depth : nat) (ints : list Z) : list (bool * Z) :=
  match decrypted e ints with Some words => acks depth (content words) | None => [] end.

Lemma handles_packet (depth : nat) (A : bool -> Z -> Prop) (ints : list Z) :
  packet_readable depth ints = true -> (forall b m, (b, m) ∈ packet_acks depth ints -> A b m) ->
  handles A (handlePacket fuel e depth ints).
Proof.
  unfold packet_readable, packet_acks, handlePacket. destruct (decrypted e ints) as [words|]; [|intros; handles].
  intros Hw HA. apply handles_bind; [handles|]. intros sid. destruct (_ || _); [handles|]. unfold handleMessage.
  apply handles_bind; [handles|]. intros state. apply handles_bind; [handles|]. intros salt.
  apply handles_bind; [handles|]. intros _. apply handles_bind; [|intros; handles].
  by apply handles_registered, handles_one.
Qed.

Lemma handles_received (depth : nat) (A : bool -> Z -> Prop) (received : list (list Z)) :
  Forall (fun ints => packet_readable depth ints = true) received ->
  (forall ints b m, ints ∈ received -> (b, m) ∈ packet_acks depth ints -> A b m) ->
  handles A (handleReceived fuel e depth received).
Proof.
  induction received as [|ints received IH]; intros Hr HA; cbn [handleReceived]; [handles|].
  apply Forall_cons in Hr as [Hi Hr]. apply handles_bind.
  - apply handles_packet; [done|]. intros b m. apply HA. by left.
  - intros [|]; [|handles]. apply IH; [done|]. intros i b m Hin. apply HA. by right.
Qed.

End Handled.
