(* ===== verification/SessionLife.v ===== *)
(** * The life of a session

    The operations of a session together with the packets it receives, as one
    state machine: what any sequence of them does to the requests, and what an
    answer does. *)

From S2P Require Import Prelude StateMonad Text ReceivedIds Requests RequestFacts Session SessionFacts SessionSend SessionResend SessionCalm SessionAck SessionSystem Receive ReceiveFacts.

(** ** The requests for states are in the store *)

(** The store grows, and a new request for states is in it. *)
Definition stays (s s' : session) : Prop :=
  (forall r, is_Some (heap (tb s) !! r) -> is_Some (heap (tb s') !! r))
  /\ forall m ref, stateAndResendRequests (tb s') !! m = Some ref ->
       stateAndResendRequests (tb s) !! m = Some ref \/ is_Some (heap (tb s') !! ref).

#[global] Instance stays_preorder : PreOrder stays.
Proof.
  split; [by split; [|left]|]. intros s s1 s2 [H1 S1] [H2 S2]. split; [auto|].
  intros m ref Hm. destruct (S2 m ref Hm) as [Hm1|?]; [|by right]. destruct (S1 m ref Hm1); auto.
Qed.

Lemma stays_stored (s s' : session) : stays s s' -> states_stored s -> states_stored s'.
Proof. intros [H S] Hs m ref Hm. destruct (S m ref Hm) as [Hm'|]; [|done]. by eapply H, Hs. Qed.

Lemma calm_stays (s s' : session) : calm s s' -> stays s s'.
Proof. intros C. split; [intros r; by apply calm_stored|]. intros m ref Hm. left. by eapply lookup_weaken, (calm_states _ _ C). Qed.

Lemma along_calm {A} (m : M session A) : along calm m -> along stays m.
Proof. intros Hm s a s' E. by eapply calm_stays, Hm. Qed.

Lemma along_foldl {A B} (f : M session A -> B -> M session A) (l : list B) (m : M session A) :
  (forall m x, along stays m -> along stays (f m x)) -> along stays m -> along stays (foldl f m l).
Proof. intros Hf. revert m. induction l as [|x l IH]; intros m Hm; cbn [foldl]; [done|]. by apply IH, Hf. Qed.

Lemma stays_heap (s s' : session) : stateAndResendRequests (tb s') = stateAndResendRequests (tb s) ->
  (forall r, is_Some (heap (tb s) !! r) -> is_Some (heap (tb s') !! r)) -> stays s s'.
Proof. intros E H. split; [done|]. rewrite E. by left. Qed.

#[local] Hint Extern 2 (along stays (modify _)) => (apply along_modify; intros; by apply stays_heap) : along.
#[local] Hint Extern 2 (along stays (tell _)) => (apply along_modify; intros; by apply stays_heap) : along.
#[local] Hint Extern 2 (along stays (store _ _)) =>
  (apply along_modify; intros; apply stays_heap; [done|intros; by apply insert_is_some]) : along.

Lemma allocate_stays (d : RequestData) : along stays (allocate d).
Proof. intros s r s' [= <- <-]. apply stays_heap; [done|]. intros. by apply insert_is_some. Qed.
Lemma next_seq_stays (b : bool) : along stays (nextRequestSeqNumber b).
Proof. intros s r s' [= <- <-]. by apply stays_heap. Qed.
Lemma started_stays : along stays markSessionAsStarted.
Proof. intros s b s'. unfold markSessionAsStarted. destruct (sessionMarkedAsStarted s); intros [= <- <-]; by apply stays_heap. Qed.
#[local] Hint Resolve allocate_stays next_seq_stays started_stays : along.

Section Stays.
Context (msg_id : nat -> Z) (fuel : nat) (body_of : service -> list Z) (kCurrentLayer : Z) (initWrapper : list Z) (e : env).

Lemma msg_id_stays : along stays (mtproto_msg_id msg_id).
Proof. intros s b s' [= <- <-]. by apply stays_heap. Qed.
#[local] Hint Resolve msg_id_stays : along.

Lemma fresh_id_stays (n : nat) (m : Z) : along stays (fresh_id msg_id n m).
Proof. revert m. induction n as [|n IH]; intros m; cbn [fresh_id]; along. Qed.
#[local] Hint Resolve fresh_id_stays : along.

Lemma replace_stays (r m : Z) : along stays (replaceMsgId msg_id fuel r m).
Proof. unfold replaceMsgId. along. Qed.
#[local] Hint Resolve replace_stays : along.

Lemma prepare_stays (r m : Z) (force : bool) : along stays (prepareToSend msg_id fuel r m force).
Proof. unfold prepareToSend. along. Qed.
#[local] Hint Resolve prepare_stays : along.

Lemma serialize_stays (q : service) : along stays (Serialize body_of e q).
Proof. unfold Serialize. along. Qed.
#[local] Hint Resolve serialize_stays : along.

Lemma services_stay : along stays (prepareServices body_of e).
Proof. unfold prepareServices, preparePing, prepareFor. along. Qed.

Lemma secure_stays (r : Z) (need : bool) : along stays (sendSecureRequest e r need).
Proof. unfold sendSecureRequest. along. Qed.
#[local] Hint Resolve secure_stays : along.

Lemma next_big_stays (m b : Z) : along stays (next_big msg_id m b).
Proof. unfold next_big. along. Qed.
#[local] Hint Resolve next_big_stays : along.

Lemma place_stays (f : filling) (force : bool) (r : Z) : along stays (placeToContainer msg_id fuel f force r).
Proof. unfold placeToContainer. along. Qed.
#[local] Hint Resolve place_stays : along.

Lemma after_stays (r : Z) : along stays (afterMsg r).
Proof. unfold afterMsg. along. Qed.
#[local] Hint Resolve after_stays : along.

Lemma sizes_stay (l : list Z) : along stays (sizesInContainer kCurrentLayer initWrapper e l).
Proof. induction l; cbn [sizesInContainer]; [along|]. unfold sizeInContainer. along. Qed.

Lemma requests_stay (force : bool) (f : filling) (l : list Z) :
  along stays (placeRequests msg_id kCurrentLayer initWrapper fuel e force f l).
Proof.
  revert f. induction l as [|r l IH]; intros f; cbn [placeRequests]; [along|].
  apply along_bind; [|intros; apply IH]. unfold placeRequest. along.
Qed.
#[local] Hint Resolve services_stay sizes_stay requests_stay : along.

(** A request for states is noted once it is in the store. *)
Lemma prepared_stored (r b : Z) (force : bool) (s s' : session) (m : Z) :
  prepareToSend msg_id fuel r b force s = Some (m, s') -> is_Some (heap (tb s') !! r).
Proof.
  intros E. apply (prepare_stays r b force s m s' E). revert E. unfold prepareToSend, bind, deref.
  destruct (heap (tb s) !! r); [eauto|done].
Qed.

Lemma note_stays (m r : Z) (s : session) (u : unit) (s' : session) :
  is_Some (heap (tb s) !! r) -> note_state_request m r s = Some (u, s') -> stays s s'.
Proof.
  intros Hr [= _ <-]. split; [done|]. cbn. intros k ref Hk. destruct (decide (m = k)) as [<-|Hne].
  - rewrite lookup_emplace_eq in Hk. destruct (stateAndResendRequests (tb s) !! m); cbn in Hk; [by left|right; congruence].
  - left. by rewrite lookup_emplace_ne in Hk.
Qed.

Lemma place_stored (f : filling) (force : bool) (r : Z) (s s' : session) (mf : Z * filling) :
  placeToContainer msg_id fuel f force r s = Some (mf, s') -> is_Some (heap (tb s') !! r).
Proof.
  intros E. apply (place_stays f force r s mf s' E). revert E. unfold placeToContainer, prepareToSend, bind, deref.
  destruct (heap (tb s) !! r); [eauto|done].
Qed.

Lemma place_service_stays (f : filling) (force : bool) (q : option Z) (note : Z -> Z -> M session unit) (b : bool) :
  (forall m r s u s', is_Some (heap (tb s) !! r) -> note m r s = Some (u, s') -> stays s s') ->
  along stays (placeService msg_id fuel f force q note b).
Proof.
  intros Hn. unfold placeService. destruct q as [r|]; [|along]. intros s g s'. unfold bind at 1.
  destruct (placeToContainer _ _ _ _ _ s) as [[mf s1]|] eqn:E1; [|done]. unfold bind.
  destruct (note mf.1 r s1) as [[u s2]|] eqn:E2; [|done]. intros [= _ <-].
  etrans; [by eapply place_stays|]. eapply Hn; [by eapply place_stored|done].
Qed.

Lemma container_stays (v : services) (l : list Z) (force : bool) :
  along stays (sendContainer msg_id kCurrentLayer initWrapper fuel e v l force).
Proof.
  unfold sendContainer. pose proof note_stays as Hnote.
  assert (forall (k : M session unit) (P : Prop) s u s', along stays k -> P -> k s = Some (u, s') -> stays s s') as Hk
    by (intros k P s u s' H _; apply H).
  repeat (apply along_bind; [first [solve [along]
    |apply place_service_stays; first [exact Hnote|intros ? ? ? ? ?; apply Hk; unfold set_bind, set_ping; along]]|intros ?]).
  along.
Qed.

(** A request sent alone is the one that is noted. *)
Lemma alone_stays (v : services) (first : Z) (force : bool) :
  (forall r, stateRequest v = Some r \/ resendRequest_ v = Some r -> r = first) ->
  along stays (sendAlone msg_id kCurrentLayer initWrapper fuel e v first force).
Proof.
  intros Hv. unfold sendAlone. apply along_bind; [along|]. intros _. apply along_bind; [along|]. intros lastId s u s'.
  unfold bind at 1. destruct (prepareToSend _ _ _ _ _ s) as [[m s1]|] eqn:E1; [|done]. unfold bind at 1.
  match goal with |- match ?k s1 with _ => _ end = _ -> _ => destruct (k s1) as [[need s2]|] eqn:E2; [|done] end.
  intros E3. etrans; [by eapply prepare_stays|]. pose proof (prepared_stored _ _ _ _ _ _ E1) as Hr. transitivity s2.
  - assert (forall r u s3, r = first -> note_state_request m r s1 = Some (u, s3) -> stays s1 s3) as Hnote
      by (intros r u' s3 ->; by apply note_stays).
    revert E2. unfold set_bind, set_ping, bind, modify, ret. destruct (bindDcKeyRequest v); [intros [= _ <-]; by apply stays_heap|].
    destruct (pingRequest v); [intros [= _ <-]; by apply stays_heap|]. destruct (stateRequest v) as [r|].
    + destruct (note_state_request m r s1) as [[u' s3]|] eqn:E; [|done]. intros [= _ <-]. by eapply Hnote; [apply Hv; left|].
    + destruct (resendRequest_ v) as [r|]; [|intros [= _ <-]; reflexivity].
      destruct (note_state_request m r s1) as [[u' s3]|] eqn:E; [|done]. intros [= _ <-]. by eapply Hnote; [apply Hv; right|].
  - revert E3. match goal with |- ?k s2 = _ -> _ => assert (along stays k) as Hk; [along|by apply Hk] end.
Qed.

Lemma send_stays : along stays (tryToSend msg_id body_of kCurrentLayer initWrapper fuel e).
Proof.
  unfold tryToSend. destruct (_ || _); [along|]. apply along_bind; [along|]. intros p. destruct (_ && _); [along|].
  apply along_bind; [along|]. intros _. apply along_bind; [along|]. intros force. apply along_bind; [along|]. intros _.
  apply along_bind; [along|]. intros v. apply along_bind; [along|]. intros l.
  destruct (service_refs v ++ l) as [|first rest] eqn:El; [along|]. apply along_bind; [along|]. intros d.
  destruct (bool_decide (rest = []) && _) eqn:Ealone; [|apply container_stays].
  apply andb_true_iff in Ealone as [->%bool_decide_eq_true _]. apply alone_stays. intros r Hr.
  assert (r ∈ service_refs v ++ l) as Hin.
  { apply elem_of_app. left. unfold service_refs.
    apply list_elem_of_omap. exists (Some r). split; [|done]. rewrite !elem_of_cons. destruct Hr as [->| ->]; tauto. }
  rewrite El in Hin. by apply list_elem_of_singleton in Hin.
Qed.
End Stays.

#[local] Hint Resolve send_stays : along.

(** ** Operations and packets *)

Inductive act :=
  | Do (o : op)
  | Receive (e : renv) (received : list (list Z)).

Section Life.
Context (msg_id : nat -> Z) (limit : nat) (body_of : service -> list Z).
Context (kCurrentLayer : Z) (initWrapper : list Z) (fuel depth : nat) `{!Scheme}.

Lemma run_stays (o : op) : along stays (run msg_id body_of kCurrentLayer initWrapper fuel o).
Proof.
  destruct o; cbn [run]; try (apply along_calm; solve [apply calms_resend|apply calms_resend_all|apply calms_acked|apply calms_states]).
  - along.
  - unfold sendPrepared. along.
  - unfold cancel. along.
  - along.
  - unfold checkSentRequests. apply along_bind; [along|]. intros p. destruct (_ && _); [along|].
    apply along_bind; [along|]. intros l. apply along_bind; [|intros; along].
    apply along_foldl; [|along]. intros m x Hm. unfold checkSentStep. apply along_bind; [done|]. intros. along.
  - unfold clearOldContainers. apply along_bind; [along|]. intros l. apply along_bind; [|intros; along].
    apply along_foldl; [|along]. intros m x Hm. unfold clearContainerStep. apply along_bind; [done|]. intros. along.
    apply along_calm, along_each. intros. apply calms_resend.
Qed.

Definition perform (a : act) : M receiver unit :=
  match a with
  | Do o => inside (run msg_id body_of kCurrentLayer initWrapper fuel o)
  | Receive e received => handleReceived fuel e depth received
  end.

(** When it may be performed: packets hold messages that can be read. *)
Definition may (a : act) (r : receiver) : Prop :=
  match a with
  | Do o => can limit body_of fuel o (base r)
  | Receive e received => (size (sentContainers (tb (base r))) < fuel)%nat
      /\ Forall (fun ints => packet_readable (fuel := fuel) (e := e) depth ints = true) received
  end.

(** The requests it may let go, and those it takes in: packets bring ids answered
    and ids acknowledged. *)
Definition lets_go (a : act) (r : receiver) (x : Z) : Prop :=
  match a with
  | Do o => released o (base r) x
  | Receive e received =>
      let brings b m := exists ints, ints ∈ received /\ (b, m) ∈ packet_acks (fuel := fuel) (e := e) (s0 := base r) depth ints in
      (exists m, brings true m /\ answers (base r) m x)
      \/ hasCallback e x = false /\ exists m, covered (base r) (fun k => exists b, brings b k) m /\ answers (base r) m x
  end.
Definition takes_in (a : act) (r : receiver) (x : Z) : Prop :=
  match a with Do o => entered o (base r) x | Receive _ _ => False end.

Record sound (r : receiver) : Prop := {
  sound_wf : wf (msg_id := msg_id) (limit := limit) (base r);
  sound_states : states_stored (base r) }.

Definition good_act (a : act) (r r' : receiver) : Prop :=
  sound r' /\ (forall x, live (base r) x -> live (base r') x \/ lets_go a r x)
  /\ forall x, live (base r') x -> live (base r) x \/ takes_in a r x.

(** Sequences of them, from a state to another. *)
Inductive lives : receiver -> list act -> receiver -> Prop :=
  | lives_nil r : lives r [] r
  | lives_cons r a r1 l r2 : may a r -> perform a r = Some (tt, r1) -> lives r1 l r2 -> lives r (a :: l) r2.

Context `{!MsgIds msg_id limit} `{!Enough fuel}.

Lemma act_good (a : act) (r : receiver) : sound r -> may a r -> exists r', perform a r = Some (tt, r') /\ good_act a r r'.
Proof.
  intros [Hwf Hst] Hmay. destruct a as [o|e received]; cbn [perform may] in *.
  - pose proof (step_good msg_id limit body_of kCurrentLayer initWrapper fuel o (base r) Hwf Hmay) as Hw.
    pose proof (run_stays o (base r)) as Hs. unfold wp, inside in *.
    destruct (run _ _ _ _ _ o (base r)) as [[[] s']|]; [|done]. exists (set_base s' r). split; [done|].
    destruct Hw as (Hwf' & Hk & Hb). split_and!; [|done|done]. split; [done|]. by eapply stays_stored; [apply (Hs tt)|].
  - destruct Hmay as [Hf Hr]. set (A b m := exists ints, ints ∈ received /\ (b, m) ∈ packet_acks (fuel := fuel) (e := e) (s0 := base r) depth ints).
    assert (ready (msg_id := msg_id) (limit := limit) (fuel := fuel) (s0 := base r) r) as Hready
      by (split_and!; [by apply transit_wf|done..]).
    pose proof (handles_received (msg_id := msg_id) (limit := limit) (s0 := base r) depth A received Hr) as Hh.
    specialize (Hh (fun ints b m Hi Hm => ex_intro _ ints (conj Hi Hm)) r Hready). unfold wp in Hh.
    destruct (handleReceived _ _ _ _ _) as [[[] r']|]; [|done]. exists r'. split; [done|].
    destruct Hh as [(Ht & _ & Hst' & _) [_ Vb Vk _ _] _]. split_and!.
    + split; [by apply transit_wf|done].
    + intros x Hx. destruct (Vk x Hx) as [?|?]; [by left|by right].
    + intros x Hx. left. by apply Vb.
Qed.

(** ** No request is lost *)

(** C2. Whatever a session is asked to do, and whatever packets it receives whose
    messages can be read, it ends without failing, with fuel for the containers
    there are; it stays well formed, lets go only the requests it may (answered
    under one of the ids the packets answer, cancelled, or with no answer waited
    for when one of the ids acknowledged covers their message, itself or its
    container) and takes in only the one submitted. *)
Theorem session_requests_kept (a : act) (r : receiver) :
  sound r -> may a r -> exists r', perform a r = Some (tt, r') /\ good_act a r r'.
Proof. apply act_good. Qed.

(** C1. Through any sequence of operations and received packets a request that
    waits to be sent or for an answer does so to the end, unless one of them on
    the way answered it, cancelled it, or acknowledged it, its message or the
    container it was in, when nobody waited for its answer. *)
Theorem requests_never_lost (r r' : receiver) (l : list act) (x : Z) :
  sound r -> lives r l r' -> live (base r) x ->
  live (base r') x \/ exists before a after r1, l = before ++ a :: after /\ lives r before r1 /\ live (base r1) x
    /\ lets_go a r1 x.
Proof.
  intros Hs Hl. revert Hs. induction Hl as [r|r a r1 l r2 Hmay Hrun Hl IH]; intros Hs Hx; [by left|].
  destruct (act_good a r Hs Hmay) as (r1' & E & Hs1 & Hkept & _). assert (r1' = r1) as -> by congruence.
  destruct (Hkept x Hx) as [Hx1|Hgo].
  - destruct (IH Hs1 Hx1) as [Hx2|(before & a' & after & r3 & -> & Hb & Hx3 & Hgo)]; [by left|].
    right. exists (a :: before), a', after, r3. split_and!; [done|by econstructor|done|done].
  - right. exists [], a, l, r. split_and!; [done|constructor|done|done].
Qed.

End Life.

(** ** Answers *)

Section Answers.
Context {msg_id : nat -> Z} {limit : nat} (fuel depth : nat) (e : renv) {scheme : Scheme}.

(** A session that has sent the request [d] as [m], and remembers no other use
    of the id. *)
Record awaiting (s : session) (m : Z) (ref : Z) (d : RequestData) : Prop := {
  awaiting_sent : haveSent (tb s) !! m = Some ref;
  awaiting_data : heap (tb s) !! ref = Some d;
  awaiting_container : sentContainers (tb s) !! m = None;
  awaiting_states : stateAndResendRequests (tb s) !! m = None;
  awaiting_resending : resendingIds (tb s) !! m = None;
  awaiting_acked : ackedIds (tb s) !! m = None;
  awaiting_ping : m <> pingMsgId (sp s);
  awaiting_bind : m <> bindMsgId (sp s);
  awaiting_id : requestId d <> kAnyRequest }.

(** [words] is an answer to [m] with the body [type :: rest], not packed, and not
    the error that destroys the key. *)
Record answer_to (words : list Z) (m type : Z) (rest : list Z) : Prop := {
  answer_length : (2 <= length words)%nat;
  answer_read : read_long words = Some (m, type :: rest);
  answer_plain : type <> mtpc_gzip_packed;
  answer_error : (type =? mtpc_rpc_error) && IsDestroyedTemporaryKeyError (type :: rest) = false }.

(** The session when the answer is looked up. *)
Definition inited (type : Z) (s : session) : session :=
  if type =? mtpc_rpc_error then s
  else mk_session (tb s) (sp s) (ackRequestData s) (resendRequestData s) (stateRequestData s)
    (receivedMessageIds s) (sessionId s) (sessionSalt s) (messagesCounter s)
    (sessionMarkedAsStarted s) (checkTimerActive s) (generated s) (log s ++ [ConnectionInited]).

Lemma inited_same (type : Z) (s : session) :
  tb (inited type s) = tb s /\ sp (inited type s) = sp s /\ generated (inited type s) = generated s.
Proof. unfold inited. by destruct (_ =? _). Qed.

Lemma inited_awaiting (type : Z) (s : session) (m ref : Z) (d : RequestData) :
  awaiting s m ref d -> awaiting (inited type s) m ref d.
Proof. destruct (inited_same type s) as (E1 & E2 & _). intros []. split; by rewrite ?E1, ?E2. Qed.

(** What handling the answer computes, but for the lookup. *)
Lemma answer_handled (words : list Z) (m type ref k found : Z) (rest : list Z) (d : RequestData) (info : OuterInfo) (r : receiver) :
  (0 < fuel)%nat -> awaiting (base r) m ref d -> answer_to words m type rest -> badTime info = false ->
  wasSent m (after_answer (inited type (base r)) m (requestId d)) = Some found ->
  handleOneReceived fuel e (S depth) (mtpc_rpc_result :: words) k info r =
  (let r1 := set_base (after_answer (inited type (base r)) m (requestId d)) r in
   (if negb (found =? 0) && negb (found =? kAnyRequest)
    then push_response (mk_response (type :: rest) (outer info) found) ;;; ret HandleResult.Success
    else ret HandleResult.Success) r1).
Proof.
  intros Hf Hw [Hl Hread Hz Herr] Hbad Hfound. set (s1 := inited type (base r)) in *.
  pose proof (inited_awaiting type _ _ _ _ Hw) as [Hm Hd Hc Hst _ _ _ Hbind _]. fold s1 in Hm, Hd, Hc, Hst, Hbind.
  destruct fuel as [|n] eqn:Efuel; [lia|]. rewrite <- Efuel.
  change (handleOneReceived fuel e (S depth) (mtpc_rpc_result :: words) k info) with (handleRpcResult fuel e words info).
  unfold handleRpcResult. rewrite bool_decide_eq_false_2 by lia. rewrite Hread, Hbad.
  rewrite (proj2 (Z.eqb_neq _ _) Hz). unfold handleResponse. rewrite Herr.
  assert (forall (A : Type) (k : unit -> M receiver A),
    ((if negb (type =? mtpc_rpc_error) then say ConnectionInited else ret tt) ;;; k tt) r = k tt (set_base s1 r)) as Einit.
  { intros A k'. unfold s1, inited. destruct (type =? mtpc_rpc_error); [|done]. cbn [negb]. by rewrite set_base_same. }
  unfold bind at 1. cbn [ret negb]. rewrite (Einit _ (fun _ => _)).
  unfold bind at 1. unfold acked, inside at 1. cbn [base set_base].
  rewrite Efuel, (answer_computed (hasCallback e) n s1 m ref d Hc Hst Hm Hd).
  set (s2 := after_answer s1 m (requestId d)) in *.
  assert (forall r', base r' = s2 -> handleBindResponse e m (type :: rest) r' = Some (HandleResult.Ignored, r')) as Eb.
  { intros r' Er. unfold handleBindResponse, bind at 1, gets at 1, bind at 1, inside, gets. rewrite Er.
    rewrite (proj2 (Z.eqb_neq (bindMsgId (sp s2)) m)) by (intros E; by apply Hbind). rewrite orb_true_r.
    unfold ret. by rewrite <- Er, set_base_same. }
  unfold bind at 1. rewrite Eb by done. cbn [negb bool_decide].
  rewrite bool_decide_eq_true_2 by done. cbn [negb]. unfold bind at 1, was_sent. cbn [base set_base]. rewrite Hfound.
  by destruct (negb (found =? 0) && negb (found =? kAnyRequest)).
Qed.

Lemma inited_transit (type : Z) (s : session) :
  @transit msg_id limit [] s -> @transit msg_id limit [] (inited type s).
Proof.
  intros Ht. destruct (inited_same type s) as (E & _ & Eg). eapply resent_transit, resent_same; [exact Ht|done|done].
Qed.

(** The request that was answered, and the others. *)
Lemma answered_lives (type m ref : Z) (d : RequestData) (s : session) :
  wf (msg_id := msg_id) (limit := limit) s -> awaiting s m ref d ->
  let s' := after_answer (inited type s) m (requestId d) in
  ~ live s' (requestId d) /\ forall x, live s x -> x <> requestId d -> live s' x.
Proof.
  intros Ht%transit_wf Hw. pose proof (inited_awaiting type _ _ _ _ Hw) as [Hm Hd _ _ _ _ _ _ _].
  destruct (inited_same type s) as (E & _ & _). split.
  - eapply answered_gone; [by apply inited_transit|done|done].
  - intros x Hx. apply (answered_others _ _ ref); [done|done|]. unfold live, waiting, unanswered in *. by rewrite E.
Qed.

(** C35. The answer to a request that was sent is queued for the main thread once,
    with the number of the request; the request leaves the session and no other
    does, as long as the buffer of answered ids has room. *)
Theorem answer_delivered (words : list Z) (m type ref k : Z) (rest : list Z) (d : RequestData) (info : OuterInfo) (r : receiver) :
  (0 < fuel)%nat -> wf (msg_id := msg_id) (limit := limit) (base r) -> awaiting (base r) m ref d ->
  answer_to words m type rest -> badTime info = false -> (size (ackedIds (tb (base r))) < kIdsBufferSize)%nat ->
  exists r', handleOneReceived fuel e (S depth) (mtpc_rpc_result :: words) k info r = Some (HandleResult.Success, r')
    /\ haveReceived r' = haveReceived r ++ [mk_response (type :: rest) (outer info) (requestId d)]
    /\ ~ live (base r') (requestId d) /\ forall x, live (base r) x -> x <> requestId d -> live (base r') x.
Proof.
  intros Hf Hwf Hw Hans Hbad Hsize. destruct (inited_same type (base r)) as (E & Es & _).
  pose proof (inited_awaiting type _ _ _ _ Hw) as [_ _ _ _ Hr Ha Hp Hb Hx].
  destruct (inv_held _ _ (wf_inv _ Hwf) ref) as (d' & Hd' & Hn & _); [right; exists m; apply Hw|].
  assert (d' = d) as -> by (pose proof (awaiting_data _ _ _ _ Hw); congruence).
  rewrite (answer_handled words m type ref k (requestId d) rest d info r Hf Hw Hans Hbad).
  - rewrite (proj2 (Z.eqb_neq _ _) Hn), (proj2 (Z.eqb_neq _ _) Hx). eexists. split; [reflexivity|]. split; [done|].
    by apply (answered_lives type m ref).
  - apply answer_was_sent; try done. by rewrite E.
Qed.

(** C26. When the buffer of answered ids is full of newer ones, the answer to an
    older request takes the request out of the session and is dropped: nothing
    is queued for the main thread, because the id is forgotten before the
    request is looked up. *)
Theorem late_answer_dropped (words : list Z) (m type ref k : Z) (rest : list Z) (d : RequestData) (info : OuterInfo) (r : receiver) :
  (0 < fuel)%nat -> wf (msg_id := msg_id) (limit := limit) (base r) -> awaiting (base r) m ref d ->
  answer_to words m type rest -> badTime info = false ->
  size (ackedIds (tb (base r))) = kIdsBufferSize -> (forall j, is_Some (ackedIds (tb (base r)) !! j) -> m < j) ->
  exists r', handleOneReceived fuel e (S depth) (mtpc_rpc_result :: words) k info r = Some (HandleResult.Success, r')
    /\ haveReceived r' = haveReceived r /\ ~ live (base r') (requestId d).
Proof.
  intros Hf Hwf Hw Hans Hbad Hsize Hmin. destruct (inited_same type (base r)) as (E & Es & _).
  pose proof (inited_awaiting type _ _ _ _ Hw) as [_ _ Hc _ Hr Ha Hp Hb _].
  rewrite (answer_handled words m type ref k 0 rest d info r Hf Hw Hans Hbad).
  - eexists. split; [reflexivity|]. split; [done|]. by apply (answered_lives type m ref).
  - apply answer_not_found; rewrite ?E; try done; by rewrite <- E.
Qed.

End Answers.

(** ** Containers *)

(** The readers of numbers take one word for an [int], two for a [long]. *)
Class Words (scheme : Scheme) : Prop := {
  read_long_two : forall lo hi l, read_long (lo :: hi :: l) = Some (lo + 2 ^ 32 * hi, l);
  read_int_one : forall x l, read_int (x :: l) = Some (wraps 32 x, l) }.

Section Containers.
Context {scheme : Scheme} {words : Words scheme} (fuel depth : nat) (e : renv).

(** A message a server may put in a container. *)
Definition from_server (m : message) : Prop :=
  is_server_id (m_id m) = true /\ m_body m <> [] /\ 4 * Z.of_nat (length (m_body m)) < 2 ^ 31.

(** Messages received one after another, until one is not handled: each that
    needs it is acknowledged, and handled if its id is new. *)
Fixpoint receiveAll (ms : list message) (info : OuterInfo) : M receiver HandleResult.t :=
  match ms with
  | [] => ret HandleResult.Success
  | m :: ms =>
      let needAck := Z.testbit (m_seqNo m) 0 in
      (if needAck then inside (push_ack (m_id m)) else ret tt) ;;;
      result <- handleRegistered (handleOneReceived fuel e depth (m_body m) (m_id m) info) (m_id m) needAck ;;
      let info := if result.2 : bool then without_bad_time info else info in
      if negb (bool_decide (result.1 = HandleResult.Success)) then ret result.1 else receiveAll ms info
  end.

Lemma testbit_wraps (x : Z) : Z.testbit (wraps 32 x) 0 = Z.testbit x 0.
Proof.
  rewrite !Z.bit0_odd. unfold wraps. rewrite Z.odd_sub. change (Z.odd (2 ^ (32 - 1))) with false. rewrite xorb_false_r.
  rewrite <- !Z.bit0_odd, Z.mod_pow2_bits_low by lia. rewrite !Z.bit0_odd, Z.odd_add. change (Z.odd (2 ^ (32 - 1))) with false.
  apply xorb_false_r.
Qed.

Lemma bind_ext {S A B} (m : M S A) (f g : A -> M S B) (s : S) : (forall a s, f a s = g a s) -> bind m f s = bind m g s.
Proof. intros H. unfold bind. destruct (m s) as [[a s']|]; [apply H|done]. Qed.

Lemma container_loop (ms : list message) (info : OuterInfo) (r : receiver) : Forall from_server ms ->
  containerLoop (handleOneReceived fuel e depth) (length ms) (packs ms) info r = receiveAll ms info r.
Proof.
  revert info r. induction ms as [|[lo hi seqNo body] ms IH]; intros info r; [done|].
  intros [(Hid & Hb & Hl) Hms]%Forall_cons. cbn [m_body] in *. set (n := Z.of_nat (length body)) in *.
  assert (0 < n) as Hn by (destruct body; [done|unfold n; cbn; lia]).
  assert (packs (mk_message lo hi seqNo body :: ms) = lo :: hi :: seqNo :: 4 * n :: body ++ packs ms) as -> by done.
  cbn [length containerLoop]. rewrite bool_decide_eq_false_2 by (cbn [length]; rewrite length_app; lia).
  cbn [take]. rewrite read_long_two. change (lo + 2 ^ 32 * hi) with (m_id (mk_message lo hi seqNo body)). rewrite Hid.
  cbn [negb]. rewrite read_int_one, read_int_one, (wraps_small 32) by (unfold fits_s; lia). rewrite testbit_wraps.
  assert (Z.land (4 * n) 0x03 = 0) as -> by (change 3 with (Z.ones 2); rewrite Z.land_ones by lia; rewrite Z.mul_comm; by apply Z.mod_mul).
  rewrite (proj2 (Z.ltb_ge (4 * n) 4)) by lia. cbn [Z.eqb negb orb app drop].
  assert (Z.to_nat (Z.shiftr (4 * n) 2) = length body) as ->
    by (rewrite Z.shiftr_div_pow2 by lia; rewrite Z.mul_comm, Z.div_mul by lia; apply Nat2Z.id).
  rewrite take_0, drop_0. cbn [app].
  rewrite bool_decide_eq_false_2 by (rewrite length_app; lia). rewrite take_app_length, drop_app_length.
  cbn [receiveAll m_seqNo m_body]. apply bind_ext. intros _ r1. apply bind_ext. intros [res b] r2. cbn [fst snd].
  destruct (negb _); [done|]. by apply IH.
Qed.

(** C31. A container of messages is handled as the messages would be if they came
    one after another: in order, each only if its id is new, up to the first
    that is not handled with success. *)
Theorem container_received (ms : list message) (k : Z) (info : OuterInfo) (r : receiver) : Forall from_server ms ->
  handleOneReceived fuel e (S depth) (mtpc_msg_container :: Z.of_nat (length ms) :: packs ms) k info r = receiveAll ms info r.
Proof.
  intros Hms. change (handleOneReceived fuel e (S depth) (mtpc_msg_container :: Z.of_nat (length ms) :: packs ms) k info r)
    with (containerLoop (handleOneReceived fuel e depth) (Z.to_nat (Z.of_nat (length ms))) (packs ms) info r).
  rewrite Nat2Z.id. by apply container_loop.
Qed.

End Containers.

(** ** A concrete connection *)

(** Readers of the forms used below; nothing is packed. *)
Definition ex_long (ws : list Z) : option (Z * list Z) :=
  match ws with lo :: hi :: ws => Some (lo + 2 ^ 32 * hi, ws) | _ => None end.
Definition ex_scheme : Scheme := {|
  read_long := ex_long;
  read_int := fun ws => match ws with x :: ws => Some (wraps 32 x, ws) | _ => None end;
  read_string := fun _ => None;
  read_msgs_ack := fun ws => match ws with _ :: lo :: hi :: _ => Some [lo + 2 ^ 32 * hi] | _ => None end;
  read_bad_msg_notification := fun _ => None;
  read_bad_server_salt := fun _ => None;
  read_msgs_state_info := fun _ => None;
  read_msgs_all_info := fun _ => None;
  read_msg_detailed_info := fun _ => None;
  read_msg_new_detailed_info := fun _ => None;
  read_new_session_created := fun _ => None;
  read_pong := fun ws => match ws with _ :: a :: b :: c :: d :: _ => Some (a + 2 ^ 32 * b, c + 2 ^ 32 * d) | _ => None end;
  read_msgs_state_req := fun _ => None;
  read_msg_resend_req := fun _ => None;
  read_rpc_error := fun _ => None;
  protocol_error := [mtpc_rpc_error];
  z_stream := unit;
  inflateInit2 := fun _ => None;
  inflate := fun s _ => (2, [], s) |}.
#[local] Existing Instance ex_scheme.

Lemma ex_words : Words ex_scheme.
Proof. by split. Qed.

(** A connection without encryption, at the time 1000. *)
Definition ex_renv : renv := mk_renv 100 1000 (fun _ => true) true (fun _ => BindFailed) true 0 5 false 77
  (fun ws _ => ws) (fun _ => [0; 0; 0; 0]).

Definition ex_receiver (s : session) : receiver := mk_receiver s [] 500 ConnectedState false false 1 false.

(** A packet of the server, its [n]th, with a message of one to four words. *)
Definition ex_packet (n : Z) (message : list Z) : list Z :=
  [77; 0; 0; 0; 0; 0] ++ [12; 0; 11; 0; 4 * n + 1; 1000; 1; 4 * Z.of_nat (length message)]
  ++ message ++ replicate (8 - length message) 0.

(** The answer [999] to the message 4. *)
Definition ex_answer : list Z := [mtpc_rpc_result; 4; 0; 999].

Lemma ex_sound : sound ex_id 1000 (ex_receiver ex_sent0).
Proof. split; [apply ex_fresh_wf|]. intros m ref Hm. by apply ex_none in Hm. Qed.

Lemma ex_may : may 1000 ex_body 5 3 (Receive ex_renv [ex_packet 0 ex_answer]) (ex_receiver ex_sent0).
Proof. split; [vm_compute; lia|]. by repeat constructor. Qed.

Lemma session_requests_kept_witness :
  let a := Receive ex_renv [ex_packet 0 ex_answer] in
  exists r', perform ex_id ex_body 185 [77] 5 3 a (ex_receiver ex_sent0) = Some (tt, r')
    /\ good_act ex_id 1000 5 3 a (ex_receiver ex_sent0) r'.
Proof.
  exact (session_requests_kept ex_id 1000 ex_body 185 [77] 5 3 (Receive ex_renv [ex_packet 0 ex_answer])
    (ex_receiver ex_sent0) ex_sound ex_may).
Defined.

(** Both requests are sent again; the first is answered on the way. *)
Definition ex_acts : list act := [Do (OpResendAll 50); Receive ex_renv [ex_packet 0 ex_answer]; Do (OpSend ex_env)].
Definition ex_after (a : act) (r : receiver) : receiver := from_option snd r (perform ex_id ex_body 185 [77] 5 3 a r).
Definition ex_after1 : receiver := ex_after (Do (OpResendAll 50)) (ex_receiver ex_sent0).
Definition ex_after2 : receiver := ex_after (Receive ex_renv [ex_packet 0 ex_answer]) ex_after1.
Definition ex_after3 : receiver := ex_after (Do (OpSend ex_env)) ex_after2.

Lemma ex_lives : lives ex_id 1000 ex_body 185 [77] 5 3 (ex_receiver ex_sent0) ex_acts ex_after3.
Proof.
  apply (lives_cons _ _ _ _ _ _ _ _ _ ex_after1); [done|vm_compute; reflexivity|].
  apply (lives_cons _ _ _ _ _ _ _ _ _ ex_after2); [split; [vm_compute; lia|by repeat constructor]|vm_compute; reflexivity|].
  apply (lives_cons _ _ _ _ _ _ _ _ _ ex_after3); [|vm_compute; reflexivity|constructor].
  split; [apply ex_surroundings|]. split; [by intros b|]. unfold room. vm_compute. lia.
Qed.

Lemma ex_live : live ex_sent0 9.
Proof. right. exists 8, 2, (ex_request 8 9). by split_and!. Qed.

Lemma requests_never_lost_witness :
  live (base ex_after3) 9 \/ exists before a after r1, ex_acts = before ++ a :: after
    /\ lives ex_id 1000 ex_body 185 [77] 5 3 (ex_receiver ex_sent0) before r1 /\ live (base r1) 9
    /\ lets_go 5 3 a r1 9.
Proof.
  exact (requests_never_lost ex_id 1000 ex_body 185 [77] 5 3 (ex_receiver ex_sent0) ex_after3 ex_acts 9 ex_sound ex_lives ex_live).
Defined.

Lemma ex_awaiting (acked : gmap Z Z) (gen : nat) : acked !! 4 = None -> awaiting (ex_sent acked gen) 4 1 (ex_request 4 7).
Proof. by split. Qed.

Lemma ex_answer_to : answer_to (tail ex_answer) 4 999 [].
Proof. split; [vm_compute; lia|done|done|done]. Qed.

Definition ex_info : OuterInfo := mk_info 1 0 1000 false.

Lemma answer_delivered_witness :
  exists r', handleOneReceived 5 ex_renv 3 ex_answer 1 ex_info (ex_receiver ex_sent0) = Some (HandleResult.Success, r')
    /\ haveReceived r' = haveReceived (ex_receiver ex_sent0) ++ [mk_response [999] 1 7]
    /\ ~ live (base r') 7 /\ forall x, live ex_sent0 x -> x <> 7 -> live (base r') x.
Proof.
  refine (answer_delivered 5 2 ex_renv (tail ex_answer) 4 999 1 1 [] (ex_request 4 7) ex_info (ex_receiver ex_sent0)
    _ ex_fresh_wf (ex_awaiting ∅ 3 eq_refl) ex_answer_to eq_refl _); [lia|vm_compute; lia].
Defined.

Lemma late_answer_dropped_witness :
  let r := ex_receiver (ex_sent ex_acked 403) in
  exists r', handleOneReceived 5 ex_renv 3 ex_answer 1 ex_info r = Some (HandleResult.Success, r')
    /\ haveReceived r' = haveReceived r /\ ~ live (base r') 7.
Proof.
  refine (late_answer_dropped 5 2 ex_renv (tail ex_answer) 4 999 1 1 [] (ex_request 4 7) ex_info
    (ex_receiver (ex_sent ex_acked 403)) _ ex_full_wf (ex_awaiting ex_acked 403 _) ex_answer_to eq_refl _ _);
    [lia|vm_compute; reflexivity..|].
  intros j (i & Hi & ->)%ex_acked_spec. unfold ex_id. lia.
Defined.

(** An acknowledgement and the answer in a container. *)
Definition ex_messages : list message :=
  [mk_message 5 1000 0 [mtpc_msgs_ack; 8; 0]; mk_message 9 1000 1 ex_answer].

Lemma container_received_witness :
  handleOneReceived 5 ex_renv 3 (mtpc_msg_container :: 2 :: packs ex_messages) 1 ex_info (ex_receiver ex_sent0)
  = receiveAll 5 2 ex_renv ex_messages ex_info (ex_receiver ex_sent0).
Proof.
  pose proof ex_words. refine (container_received 5 2 ex_renv ex_messages 1 ex_info (ex_receiver ex_sent0) _).
  repeat constructor; done.
Defined.

(** ** Where the handler departs from its intent *)

(** After a fatal notification about a request its error is queued for the main
    thread, but the request stays in the session and may be sent again. *)
Lemma fatal_error_keeps_request (ws : list Z) (m code ref : Z) (d : RequestData) (info : OuterInfo) (r : receiver) :
  awaiting (base r) m ref d -> requestId d <> 0 -> read_bad_msg_notification ws = Some (m, code) -> can_handle code = false ->
  exists r', handleBadMsgNotification 5 ex_renv ws info r = Some (unknown info, r')
    /\ haveReceived r' = haveReceived r ++ [mk_response protocol_error (outer info) (requestId d)] /\ base r' = base r.
Proof.
  intros [Hm Hd Hc _ Hr Ha Hp Hb _] Hn Hread Hcode. unfold handleBadMsgNotification. rewrite Hread, Hcode.
  assert (wasSent m (base r) = Some (requestId d)) as Hw.
  { unfold wasSent. rewrite (proj2 (Z.eqb_neq _ _) Hp), (proj2 (Z.eqb_neq _ _) Hb), Hr, Ha, Hc, Hm, Hd.
    by rewrite (proj2 (Z.eqb_neq _ _) Hn). }
  unfold bind at 1, was_sent. rewrite Hw, (proj2 (Z.eqb_neq _ _) Hn). eexists. by split_and!.
Qed.


(** A packet with a message of no words passes every check and breaks the
    [Expects] of [handleOneReceived]. *)
Lemma empty_message_fails : handleReceived 5 ex_renv 3 [ex_packet 0 []] (ex_receiver ex_sent0) = None.
Proof. vm_compute. reflexivity. Qed.

(** An answer without a body passes the check of its length, and its type is read
    past its end. *)
Lemma empty_answer_fails : handleReceived 5 ex_renv 3 [ex_packet 0 [mtpc_rpc_result; 4; 0]] (ex_receiver ex_sent0) = None.
Proof. vm_compute. reflexivity. Qed.
