(* ===== verification/Errors.v ===== *)
(** * Errors of requests

    [mtproto/mtproto_response.h], [mtproto/mtproto_response.cpp] and the tests
    of [Instance::Private::onErrorDefault] ([mtproto/mtp_instance.cpp]) on the
    type of an error. The text of an error names its type; regular expressions
    take it apart, and are written here as the recursive functions they
    describe ([^], [$] and [.] as the options of each expression make them). *)

From S2P Require Import Prelude Text.

(** [MTPrpcError], with the message as the string [qs] makes of its bytes. *)
Record rpc_error := mk_rpc_error { error_code : Z; error_message : list Z }.

Record Error := mk_error { code : Z; type : list Z; description : list Z }.

#[export] Instance Error_eq_dec : EqDecision Error.
Proof. solve_decision. Defined.

(** ** Matching *)

Fixpoint take_while (p : Z -> bool) (s : list Z) : list Z :=
  match s with
  | [] => []
  | c :: s => if p c then c :: take_while p s else []
  end.

Fixpoint drop_while (p : Z -> bool) (s : list Z) : list Z :=
  match s with
  | [] => []
  | c :: s' => if p c then drop_while p s' else s
  end.

(** [[A-Z0-9_]] *)
Definition is_type_char (c : Z) : bool := ((65 <=? c) && (c <=? 90)) || is_digit c || (c =? 95).

(** The expression at the start of a line: a word, then the end of the line or
    a colon, a space and the rest (the dot matches everything). *)
Definition match_line (s : list Z) : option (list Z * list Z) :=
  match take_while is_type_char s with
  | [] => None
  | run =>
      match drop_while is_type_char s with
      | [] | 10 :: _ => Some (run, [])
      | 58 :: 32 :: rest => Some (run, 58 :: 32 :: rest)
      | _ => None
      end
  end.

(** The first line that matches. *)
Fixpoint match_text (line_start : bool) (s : list Z) : option (list Z * list Z) :=
  match (if line_start then match_line s else None) with
  | Some m => Some m
  | None => match s with [] => None | c :: s => match_text (c =? 10) s end
  end.

(** [Error::Error] *)
Definition Error_of (e : rpc_error) : Error :=
  match match_text true (error_message e) with
  | Some (t, d) => mk_error (error_code e) t (mid d 2 (-1))
  | None =>
      if (error_code e <? 0) || (500 <=? error_code e)
      then mk_error (error_code e) (codes "INTERNAL_SERVER_ERROR") (error_message e)
      else mk_error (error_code e) (codes "CLIENT_BAD_RPC_ERROR")
             (codes "Bad rpc error received, text = '" ++ error_message e ++ [39])
  end.

Definition MTPLocal (type description : list Z) : rpc_error :=
  mk_rpc_error 0 (codes "CLIENT_" ++ type
    ++ if bool_decide (description = []) then [] else codes ": " ++ description).
Definition Local_ (type description : list Z) : Error := Error_of (MTPLocal type description).

Fixpoint startsWith (p s : list Z) : bool :=
  match p, s with
  | [], _ => true
  | a :: p, b :: s => (a =? b) && startsWith p s
  | _, [] => false
  end.

Definition IsFloodError (type : list Z) : bool := startsWith (codes "FLOOD_WAIT_") type.
Definition IsTemporaryError (error : Error) : bool :=
  (code error <? 0) || (500 <=? code error) || IsFloodError (type error).
Definition IsDefaultHandledError (error : Error) : bool := IsTemporaryError error.

(** ** The numbers in types of errors *)

(** [toInt] of digits: zero when the number does not fit. *)
Definition digits_int (s : list Z) : Z :=
  let v := foldl digit_step 0 s in if v <? 2 ^ 31 then v else 0.

(** The number captured by [^prefix(\d+)$]; a newline may end the subject. *)
Definition trailing_int (prefix type : list Z) : option Z :=
  if startsWith prefix type then
    let rest := drop (length prefix) type in
    match take_while is_digit rest, drop_while is_digit rest with
    | [], _ => None
    | ds, [] | ds, [10] => Some (digits_int ds)
    | _, _ => None
    end
  else None.

(** [^(FILE|PHONE|NETWORK|USER)_MIGRATE_(\d+)$] *)
Definition migrate_dc (type : list Z) : option Z :=
  match trailing_int (codes "FILE_MIGRATE_") type with
  | Some dc => Some dc
  | None =>
      match trailing_int (codes "PHONE_MIGRATE_") type with
      | Some dc => Some dc
      | None =>
          match trailing_int (codes "NETWORK_MIGRATE_") type with
          | Some dc => Some dc
          | None => trailing_int (codes "USER_MIGRATE_") type
          end
      end
  end.

Definition flood_wait (type : list Z) : option Z := trailing_int (codes "FLOOD_WAIT_") type.
Definition slowmode_wait (type : list Z) : option Z := trailing_int (codes "SLOWMODE_WAIT_") type.

Definition is_type (type : list Z) (s : string) : bool := bool_decide (type = codes s).

(** ** Facts *)

Lemma take_while_app (p : Z -> bool) (s r : list Z) :
  Forall (fun c => p c = true) s -> (forall c r', r = c :: r' -> p c = false) -> take_while p (s ++ r) = s.
Proof.
  intros Hs Hr. induction Hs as [|c s Hc Hs IH]; simpl.
  - destruct r as [|c r]; [done|]. simpl. by rewrite (Hr c r eq_refl).
  - by rewrite Hc, IH.
Qed.

Lemma drop_while_app (p : Z -> bool) (s r : list Z) :
  Forall (fun c => p c = true) s -> (forall c r', r = c :: r' -> p c = false) -> drop_while p (s ++ r) = r.
Proof.
  intros Hs Hr. induction Hs as [|c s Hc Hs IH]; simpl.
  - destruct r as [|c r]; [done|]. simpl. by rewrite (Hr c r eq_refl).
  - by rewrite Hc.
Qed.

Lemma take_while_all (p : Z -> bool) (s : list Z) : Forall (fun c => p c = true) (take_while p s).
Proof. induction s as [|c s IH]; simpl; [done|]. destruct (p c) eqn:E; [by constructor|done]. Qed.

Lemma startsWith_app (p s : list Z) : startsWith p (p ++ s) = true.
Proof. induction p as [|c p IH]; simpl; [done|]. by rewrite Z.eqb_refl. Qed.

Lemma startsWith_true (p s : list Z) : startsWith p s = true -> exists r, s = p ++ r.
Proof.
  revert s. induction p as [|a p IH]; intros s; simpl; [by exists s|].
  destruct s as [|b s]; [done|]. intros [->%Z.eqb_eq [r ->]%IH]%andb_true_iff. by exists r.
Qed.

(** The text of an error: its type and its description. *)
Definition error_text (t d : list Z) : list Z := t ++ if bool_decide (d = []) then [] else codes ": " ++ d.

Lemma match_error_text (t d : list Z) : t <> [] -> Forall (fun c => is_type_char c = true) t ->
  match_text true (error_text t d) = Some (t, if bool_decide (d = []) then [] else codes ": " ++ d).
Proof.
  intros Ht Hc. set (r := if bool_decide (d = []) then [] else codes ": " ++ d).
  assert (forall c r', r = c :: r' -> is_type_char c = false) as Hr.
  { intros c r'. unfold r. case_bool_decide; [done|]. by intros [= <- _]. }
  assert (match_line (error_text t d) = Some (t, r)) as E.
  { unfold match_line, error_text. fold r. rewrite (take_while_app _ _ r) by done.
    rewrite (drop_while_app _ _ r) by done. destruct t; [done|]. unfold r. by case_bool_decide. }
  unfold match_text. destruct (error_text t d); by rewrite E.
Qed.

Lemma error_of_text (n : Z) (t d : list Z) : t <> [] -> Forall (fun c => is_type_char c = true) t ->
  Error_of (mk_rpc_error n (error_text t d)) = mk_error n t d.
Proof.
  intros Ht Hc. unfold Error_of. cbn [error_message error_code]. rewrite match_error_text by done.
  f_equal. unfold mid. simpl. by case_bool_decide as E; [rewrite E|].
Qed.

Lemma match_line_type (s t d : list Z) : match_line s = Some (t, d) ->
  t <> [] /\ Forall (fun c => is_type_char c = true) t.
Proof.
  unfold match_line. pose proof (take_while_all is_type_char s) as H.
  destruct (take_while _ s) as [|a l]; [done|]. intros E. repeat case_match; by simplify_eq.
Qed.

Lemma match_text_type (b : bool) (s t d : list Z) : match_text b s = Some (t, d) ->
  t <> [] /\ Forall (fun c => is_type_char c = true) t.
Proof.
  revert b. induction s as [|c s IH]; intros b; simpl.
  - destruct b; [|done]. by destruct (match_line []) as [[? ?]|] eqn:E; intros; simplify_eq; apply match_line_type in E.
  - destruct b; [|apply IH].
    destruct (match_line (c :: s)) as [[? ?]|] eqn:E; [|apply IH].
    intros; simplify_eq. by apply match_line_type in E.
Qed.

Lemma trailing_int_number (prefix : list Z) (n : Z) : 0 <= n < 2 ^ 31 ->
  trailing_int prefix (prefix ++ number_string n) = Some n.
Proof.
  intros Hn. unfold trailing_int. rewrite startsWith_app, drop_app_length.
  unfold number_string. rewrite (proj2 (Z.ltb_ge n 0)) by lia.
  assert (Forall (fun c => is_digit c = true) (digits 20 n [])) as Hd by (apply digits_are_digits; [lia|done]).
  pose proof (take_while_app is_digit _ [] Hd ltac:(done)) as Et.
  pose proof (drop_while_app is_digit _ [] Hd ltac:(done)) as Ed. rewrite app_nil_r in Et, Ed. rewrite Et, Ed.
  destruct (digits_head 20 n [] ltac:(lia) ltac:(lia)) as (c & l & E & _).
  assert (digits_int (digits 20 n []) = n) as Hv.
  { unfold digits_int. rewrite digits_value by lia. simpl. rewrite (proj2 (Z.ltb_lt n (2 ^ 31))) by lia. done. }
  rewrite E in Hv |- *. by rewrite Hv.
Qed.

(** ** What the parsing gives *)

(** Every error has a type: a word of capitals, digits and underscores;
    an error whose text is such a word and a description has them as its type
    and description, and so do the errors the client makes itself. *)
Theorem error_parsed (n : Z) (t d : list Z) : t <> [] -> Forall (fun c => is_type_char c = true) t ->
  Error_of (mk_rpc_error n (error_text t d)) = mk_error n t d
  /\ Local_ t d = mk_error 0 (codes "CLIENT_" ++ t) d
  /\ forall e, type (Error_of e) <> [] /\ Forall (fun c => is_type_char c = true) (type (Error_of e))
       /\ code (Error_of e) = error_code e.
Proof.
  intros Ht Hc. split; [by apply error_of_text|split].
  - unfold Local_, MTPLocal. rewrite app_assoc. apply (error_of_text 0).
    + by destruct t.
    + apply Forall_app. split; [|done]. by repeat constructor.
  - intros e. unfold Error_of. destruct (match_text true (error_message e)) as [[t' d']|] eqn:E.
    + apply match_text_type in E as [? ?]. done.
    + case_match; simpl; split_and!; try done; by repeat constructor.
Qed.

Lemma error_parsed_witness :
  Error_of (mk_rpc_error 400 (codes "PHONE_CODE_INVALID: try again")) = mk_error 400 (codes "PHONE_CODE_INVALID") (codes "try again").
Proof.
  exact (proj1 (error_parsed 400 (codes "PHONE_CODE_INVALID") (codes "try again") ltac:(done)
    (bool_decide_unpack (Forall (fun c => is_type_char c = true) (codes "PHONE_CODE_INVALID")) I))).
Defined.
