(* ===== verification/Dcenter.v ===== *)
(** * Key creation in a data center

    [mtproto/details/mtproto_dcenter.cpp] and the part of
    [mtproto/session.cpp] that owns a creation: the sessions of a data center
    share its authorization keys, and one of them at a time creates the
    temporary key of a slot (the regular one or that of the media cluster).

    Keys are shared objects: [AuthKeyPtr] is an optional reference and
    [keyId] the id of the object. [None] as the result of an operation is a
    failed [Expects]. *)

From S2P Require Import Prelude.

Module DcType.
Inductive t := Regular | Temporary | MediaCluster | Cdn.
#[global] Instance eq_dec : EqDecision t.
Proof. solve_decision. Defined.
End DcType.

Module TemporaryKeyType.
Inductive t := Regular | MediaCluster.
#[global] Instance eq_dec : EqDecision t.
Proof. solve_decision. Defined.
End TemporaryKeyType.

Module CreatingKeyType.
Inductive t := Nothing | Persistent | TemporaryRegular | TemporaryMediaCluster.
#[global] Instance eq_dec : EqDecision t.
Proof. solve_decision. Defined.
End CreatingKeyType.

Definition TemporaryKeyTypeByDcType (type : DcType.t) : TemporaryKeyType.t :=
  match type with DcType.MediaCluster => TemporaryKeyType.MediaCluster | _ => TemporaryKeyType.Regular end.

(** The two [IndexByType]: the slots are those of the temporary key types. *)
Definition IndexByType (type : CreatingKeyType.t) : option TemporaryKeyType.t :=
  match type with
  | CreatingKeyType.Persistent | CreatingKeyType.TemporaryRegular => Some TemporaryKeyType.Regular
  | CreatingKeyType.TemporaryMediaCluster => Some TemporaryKeyType.MediaCluster
  | CreatingKeyType.Nothing => None
  end.

(** An array with an entry for each slot. *)
Record slots (A : Type) := mk_slots { regular : A; mediaCluster : A }.
Arguments mk_slots {A}.
Arguments regular {A}.
Arguments mediaCluster {A}.

Definition at_ {A} (i : TemporaryKeyType.t) (a : slots A) : A :=
  match i with TemporaryKeyType.Regular => regular a | TemporaryKeyType.MediaCluster => mediaCluster a end.
Definition put {A} (i : TemporaryKeyType.t) (x : A) (a : slots A) : slots A :=
  match i with
  | TemporaryKeyType.Regular => mk_slots x (mediaCluster a)
  | TemporaryKeyType.MediaCluster => mk_slots (regular a) x
  end.

Record Dcenter := mk_dcenter {
  id : Z;
  temporaryKeys : slots (option Z);
  persistentKey : option Z;
  connectionInited : bool;
  creatingKeys : slots bool }.

Definition Dcenter_new (dcId : Z) (key : option Z) : Dcenter :=
  mk_dcenter dcId (mk_slots None None) key false (mk_slots false false).

Definition getTemporaryKey (type : TemporaryKeyType.t) (d : Dcenter) : option Z := at_ type (temporaryKeys d).
Definition setConnectionInited (b : bool) (d : Dcenter) : Dcenter :=
  mk_dcenter (id d) (temporaryKeys d) (persistentKey d) b (creatingKeys d).

(** [compare_exchange_strong(expected = false, true)]: whether the slot was
    free, and it is taken. *)
Definition mark (i : TemporaryKeyType.t) (d : Dcenter) : bool * Dcenter :=
  (negb (at_ i (creatingKeys d)),
   mk_dcenter (id d) (temporaryKeys d) (persistentKey d) (connectionInited d) (put i true (creatingKeys d))).

Definition acquireKeyCreation (type : DcType.t) (d : Dcenter) : CreatingKeyType.t * Dcenter :=
  let index := TemporaryKeyTypeByDcType type in
  if bool_decide (is_Some (at_ index (temporaryKeys d))) then (CreatingKeyType.Nothing, d) else
  if bool_decide (index = TemporaryKeyType.MediaCluster)
     && bool_decide (is_Some (at_ TemporaryKeyType.Regular (temporaryKeys d)))
  then
    let (free, d') := mark index d in
    (if free then CreatingKeyType.TemporaryMediaCluster else CreatingKeyType.Nothing, d')
  else
    let (free, d') := mark TemporaryKeyType.Regular d in
    (if free then
       if negb (bool_decide (type = DcType.Cdn)) && bool_decide (persistentKey d = None)
       then CreatingKeyType.Persistent else CreatingKeyType.TemporaryRegular
     else CreatingKeyType.Nothing, d').

Definition releaseKeyCreationOnDone (type : CreatingKeyType.t) (temporaryKey persistentKeyUsedForBind : option Z)
    (d : Dcenter) : option (bool * Dcenter) :=
  i <-? IndexByType type ;
  if negb (at_ i (creatingKeys d)) || bool_decide (is_Some (at_ i (temporaryKeys d)))
     || bool_decide (temporaryKey = None)
  then None
  else
    let finish persistent := Some (true, mk_dcenter (id d) (put i temporaryKey (temporaryKeys d)) persistent false
      (put i false (creatingKeys d))) in
    if bool_decide (type = CreatingKeyType.Persistent) then finish persistentKeyUsedForBind
    else if bool_decide (persistentKey d = persistentKeyUsedForBind) then finish (persistentKey d)
    else Some (false, d).

Definition releaseKeyCreationOnFail (type : CreatingKeyType.t) (d : Dcenter) : option Dcenter :=
  i <-? IndexByType type ;
  if negb (at_ i (creatingKeys d)) || bool_decide (is_Some (at_ i (temporaryKeys d))) then None
  else Some (mk_dcenter (id d) (temporaryKeys d) (persistentKey d) (connectionInited d)
    (put i false (creatingKeys d))).

Section Keys.
Context (keyId : Z -> Z).

Definition has_id (wanted : Z) (key : option Z) : bool :=
  match key with Some k => keyId k =? wanted | None => false end.

Definition destroyTemporaryKey (wanted : Z) (d : Dcenter) : bool * Dcenter :=
  let without i := (true, mk_dcenter (id d) (put i None (temporaryKeys d)) (persistentKey d) false (creatingKeys d)) in
  if has_id wanted (regular (temporaryKeys d)) then without TemporaryKeyType.Regular
  else if has_id wanted (mediaCluster (temporaryKeys d)) then without TemporaryKeyType.MediaCluster
  else (false, d).

Definition destroyConfirmedForgottenKey (wanted : Z) (d : Dcenter) : bool * Dcenter :=
  if has_id wanted (persistentKey d)
  then (true, mk_dcenter (id d) (mk_slots None None) None false (creatingKeys d))
  else (false, d).

(** ** The sessions of the data center *)

(** A data center and what each of its sessions creates ([_myKeyCreation]). *)
Record owners := mk_owners { dc : Dcenter; myKeyCreation : gmap Z CreatingKeyType.t }.

Definition mine (s : Z) (w : owners) : CreatingKeyType.t := default CreatingKeyType.Nothing (myKeyCreation w !! s).
Definition set_mine (s : Z) (c : CreatingKeyType.t) (d : Dcenter) (w : owners) : owners :=
  mk_owners d (<[s := c]> (myKeyCreation w)).

(** What a session tells the instance of the keys of its data center. *)
Inductive key_event := PersistentKeyChanged (dcId : Z) (key : option Z) | TemporaryKeyChanged (dcId : Z).

Definition sessionAcquire (s : Z) (type : DcType.t) (w : owners) : option (CreatingKeyType.t * owners) :=
  if bool_decide (mine s w = CreatingKeyType.Nothing)
  then let (c, d) := acquireKeyCreation type (dc w) in Some (c, set_mine s c d w)
  else None.

Definition releaseGenericKeyCreationOnDone (s : Z) (temporaryKey persistentKeyUsedForBind : option Z) (w : owners)
    : option (bool * list key_event * owners) :=
  let was := mine s w in
  r <-? releaseKeyCreationOnDone was temporaryKey persistentKeyUsedForBind (dc w) ;
  let w := set_mine s CreatingKeyType.Nothing r.2 w in
  if negb r.1 then Some (false, [], w)
  else Some (true, [if bool_decide (was = CreatingKeyType.Persistent)
                    then PersistentKeyChanged (id (dc w)) persistentKeyUsedForBind
                    else TemporaryKeyChanged (id (dc w))], w).

Definition sessionReleaseOnDone (s : Z) (temporaryKey persistentKeyUsedForBind : option Z) (w : owners)
    : option (bool * list key_event * owners) :=
  if bool_decide (mine s w = CreatingKeyType.Nothing) || bool_decide (persistentKeyUsedForBind = None) then None
  else releaseGenericKeyCreationOnDone s temporaryKey persistentKeyUsedForBind w.

Definition releaseCdnKeyCreationOnDone (s : Z) (temporaryKey : option Z) (w : owners)
    : option (bool * list key_event * owners) :=
  if bool_decide (mine s w = CreatingKeyType.TemporaryRegular)
  then releaseGenericKeyCreationOnDone s temporaryKey None w else None.

Definition sessionReleaseOnFail (s : Z) (w : owners) : option owners :=
  if bool_decide (mine s w = CreatingKeyType.Nothing) then None
  else d <-? releaseKeyCreationOnFail (mine s w) (dc w) ; Some (set_mine s CreatingKeyType.Nothing d w).

(** [Session::~Session] *)
Definition sessionDestroyed (s : Z) (w : owners) : option owners :=
  if bool_decide (mine s w = CreatingKeyType.Nothing) then Some w else sessionReleaseOnFail s w.

Definition sessionDestroyTemporaryKey (wanted : Z) (w : owners) : list key_event * owners :=
  let (found, d) := destroyTemporaryKey wanted (dc w) in
  (if found then [TemporaryKeyChanged (id d)] else [], mk_owners d (myKeyCreation w)).

(** ** Steps *)

(** A session acquires when it creates no key and releases what it acquired:
    [SessionPrivate] has a key creator in between. *)
Inductive step : owners -> owners -> Prop :=
  | step_acquire s type c w w' : mine s w = CreatingKeyType.Nothing ->
      sessionAcquire s type w = Some (c, w') -> step w w'
  | step_done s temporary persistent r w w' :
      sessionReleaseOnDone s (Some temporary) (Some persistent) w = Some (r, w') -> step w w'
  | step_cdn s temporary r w w' : releaseCdnKeyCreationOnDone s (Some temporary) w = Some (r, w') -> step w w'
  | step_fail s w w' : sessionReleaseOnFail s w = Some w' -> step w w'
  | step_destroyed s w w' : sessionDestroyed s w = Some w' -> step w w'
  | step_temporary wanted w : step w (sessionDestroyTemporaryKey wanted w).2
  | step_forgotten wanted w :
      step w (mk_owners (destroyConfirmedForgottenKey wanted (dc w)).2 (myKeyCreation w))
  | step_inited b w : step w (mk_owners (setConnectionInited b (dc w)) (myKeyCreation w)).

(** No session creates a key and no slot is taken. *)
Definition idle (w : owners) : Prop :=
  myKeyCreation w = ∅ /\ creatingKeys (dc w) = mk_slots false false.

(** Session [s] creates the key of slot [i]. *)
Definition creates (s : Z) (i : TemporaryKeyType.t) (w : owners) : Prop := IndexByType (mine s w) = Some i.

(** A creator has its slot taken, empty, and to itself. *)
Definition exclusive (w : owners) : Prop := forall s i, creates s i w ->
  at_ i (creatingKeys (dc w)) = true /\ at_ i (temporaryKeys (dc w)) = None
  /\ forall s', creates s' i w -> s' = s.

(** A slot taken with nobody creating its key. *)
Definition stuck (i : TemporaryKeyType.t) (w : owners) : Prop :=
  at_ i (creatingKeys (dc w)) = true /\ at_ i (temporaryKeys (dc w)) = None /\ forall s, ~ creates s i w.

(** ** A creator keeps its slot *)

Lemma mine_set (s s' : Z) (c : CreatingKeyType.t) (d : Dcenter) (w : owners) :
  mine s' (set_mine s c d w) = if decide (s' = s) then c else mine s' w.
Proof.
  unfold mine, set_mine. simpl. case_decide as E.
  - subst. by rewrite lookup_insert_eq.
  - by rewrite lookup_insert_ne.
Qed.

Lemma at_put {A} (i j : TemporaryKeyType.t) (x : A) (a : slots A) :
  at_ i (put j x a) = if decide (i = j) then x else at_ i a.
Proof. by destruct i, j. Qed.

(** What a session gets is the slot it takes, which is empty and was free. *)
Lemma acquire_spec (type : DcType.t) (d d' : Dcenter) (c : CreatingKeyType.t) :
  acquireKeyCreation type d = (c, d') ->
  temporaryKeys d' = temporaryKeys d /\ persistentKey d' = persistentKey d
  /\ match IndexByType c with
     | Some i => at_ i (creatingKeys d) = false /\ at_ i (temporaryKeys d) = None
         /\ creatingKeys d' = put i true (creatingKeys d)
     | None => creatingKeys d' = creatingKeys d
     end.
Proof.
  unfold acquireKeyCreation, mark. case_bool_decide as E; [by intros [= <- <-]|].
  rewrite <- eq_None_not_Some in E. destruct (_ && _) eqn:Et.
  - apply andb_true_iff in Et as [Ei%bool_decide_eq_true _]. rewrite Ei in *. intros [= <- <-]. simpl.
    split; [done|split; [done|]]. destruct (creatingKeys d) as [r []]; simpl; [done|]. done.
  - intros [= <- <-]. simpl. split; [done|split; [done|]].
    destruct (creatingKeys d) as [[] m] eqn:Ec; simpl; [done|].
    assert (at_ TemporaryKeyType.Regular (temporaryKeys d) = None) as Hr.
    { apply andb_false_iff in Et. rewrite !bool_decide_eq_false, <- eq_None_not_Some in Et.
      destruct type; simpl in *; tauto. }
    by destruct (bool_decide (type = DcType.Cdn)), (bool_decide (persistentKey d = None)).
Qed.

Lemma exclusive_drop (s : Z) (d : Dcenter) (w : owners) : exclusive w ->
  (forall s' i, s' <> s -> creates s' i w -> at_ i (creatingKeys d) = true /\ at_ i (temporaryKeys d) = None) ->
  exclusive (set_mine s CreatingKeyType.Nothing d w).
Proof.
  intros Hw Hd s1 i H1. unfold creates in H1. rewrite mine_set in H1. case_decide as E1; [done|].
  destruct (Hw s1 i H1) as (_ & _ & Hu). split_and!; [by apply (Hd s1)..|].
  intros s2 H2. unfold creates in H2. rewrite mine_set in H2. case_decide; [done|]. by apply Hu.
Qed.

(** The other sessions do not see the slot of [s] change. *)
Lemma other_slot (s s' : Z) (i j : TemporaryKeyType.t) (w : owners) :
  exclusive w -> creates s i w -> s' <> s -> creates s' j w -> j <> i.
Proof. intros Hw Hs Hne Hj ->. destruct (Hw s i Hs) as (_ & _ & Hu). by apply Hne, Hu. Qed.

Lemma exclusive_acquire (s : Z) (type : DcType.t) (c : CreatingKeyType.t) (w w' : owners) :
  exclusive w -> sessionAcquire s type w = Some (c, w') -> exclusive w'.
Proof.
  intros Hw. unfold sessionAcquire. case_bool_decide as Hm; [|done].
  destruct (acquireKeyCreation type (dc w)) as [c' d] eqn:E. intros [= <- <-].
  apply acquire_spec in E as (Ht & _ & Hc).
  assert (forall s' i, s' <> s -> creates s' i w -> at_ i (creatingKeys d) = true /\ at_ i (temporaryKeys d) = None) as Hd.
  { intros s' i _ Hi. destruct (Hw s' i Hi) as (H1 & H2 & _). rewrite Ht. split; [|done].
    destruct (IndexByType c') as [j|]; [|by rewrite Hc]. destruct Hc as (_ & _ & ->). rewrite at_put. by case_decide. }
  destruct (IndexByType c') as [i|] eqn:Ei.
  - destruct Hc as (Hf & He & Hc). intros s1 j H1. unfold creates in H1. rewrite mine_set in H1. case_decide as E1.
    + subst s1. rewrite Ei in H1. injection H1 as <-. simpl. rewrite Hc, at_put, decide_True, Ht by done.
      split_and!; [done..|]. intros s2 H2. unfold creates in H2. rewrite mine_set in H2. case_decide; [done|].
      destruct (Hw s2 i H2) as (H3 & _). congruence.
    + destruct (Hw s1 j H1) as (H3 & _ & Hu). split_and!; [by apply (Hd s1)..|].
      intros s2 H2. unfold creates in H2. rewrite mine_set in H2. case_decide; [|by apply Hu].
      rewrite Ei in H2. injection H2 as ->. congruence.
  - destruct c'; try done. by apply exclusive_drop.
Qed.

(** Whatever a session that creates a key releases with: the release goes
    through, and is refused just when the persistent key is another one. *)
Lemma release_spec (s : Z) (i : TemporaryKeyType.t) (t : Z) (p : option Z) (w : owners) :
  exclusive w -> creates s i w -> exists ok events d,
    releaseGenericKeyCreationOnDone s (Some t) p w = Some (ok, events, set_mine s CreatingKeyType.Nothing d w)
    /\ (ok = true <-> mine s w = CreatingKeyType.Persistent \/ persistentKey (dc w) = p)
    /\ (if ok then getTemporaryKey i d = Some t /\ creatingKeys d = put i false (creatingKeys (dc w))
          /\ temporaryKeys d = put i (Some t) (temporaryKeys (dc w))
        else d = dc w).
Proof.
  intros Hw Hs. destruct (Hw s i Hs) as (Hc & Ht & _). unfold creates in Hs.
  unfold releaseGenericKeyCreationOnDone, releaseKeyCreationOnDone. rewrite Hs. simpl. rewrite Hc, Ht. simpl.
  unfold getTemporaryKey.
  case_bool_decide as E1; simpl; [|case_bool_decide as E2; simpl].
  - eexists _, _, _. split_and!; [done|tauto|]. simpl. rewrite at_put. by rewrite decide_True.
  - eexists _, _, _. split_and!; [done|tauto|]. simpl. rewrite at_put. by rewrite decide_True.
  - eexists _, _, _. split_and!; [done|split; [done|tauto]|done].
Qed.

Lemma exclusive_release (s : Z) (t : Z) (p : option Z) (r : bool * list key_event) (w w' : owners) :
  exclusive w -> mine s w <> CreatingKeyType.Nothing ->
  releaseGenericKeyCreationOnDone s (Some t) p w = Some (r, w') -> exclusive w'.
Proof.
  intros Hw Hm E. assert (exists i, creates s i w) as [i Hi] by (unfold creates; destruct (mine s w); eauto; done).
  destruct (release_spec s i t p w Hw Hi) as (ok & ev & d & E' & _ & Hd). rewrite E in E'. injection E' as -> ->.
  apply exclusive_drop; [done|]. intros s' j Hne Hj. destruct (Hw s' j Hj) as (H1 & H2 & _).
  pose proof (other_slot s s' i j w Hw Hi Hne Hj) as Hij.
  destruct ok; [|by subst d]. destruct Hd as (_ & -> & ->). by rewrite !at_put, !decide_False by done.
Qed.

Lemma fail_spec (s : Z) (i : TemporaryKeyType.t) (w : owners) : exclusive w -> creates s i w -> exists d,
  sessionReleaseOnFail s w = Some (set_mine s CreatingKeyType.Nothing d w)
  /\ creatingKeys d = put i false (creatingKeys (dc w)) /\ temporaryKeys d = temporaryKeys (dc w).
Proof.
  intros Hw Hs. destruct (Hw s i Hs) as (Hc & Ht & _). unfold creates in Hs. unfold sessionReleaseOnFail.
  rewrite bool_decide_eq_false_2 by (intros E; by rewrite E in Hs).
  unfold releaseKeyCreationOnFail. rewrite Hs. simpl. rewrite Hc, Ht. simpl. by eexists.
Qed.

Lemma exclusive_fail (s : Z) (w w' : owners) : exclusive w -> sessionReleaseOnFail s w = Some w' -> exclusive w'.
Proof.
  intros Hw E. assert (exists i, creates s i w) as [i Hi].
  { unfold sessionReleaseOnFail in E. unfold creates. destruct (mine s w); eauto; done. }
  destruct (fail_spec s i w Hw Hi) as (d & E' & Hc & Ht). rewrite E in E'. injection E' as ->.
  apply exclusive_drop; [done|]. intros s' j Hne Hj. destruct (Hw s' j Hj) as (H1 & H2 & _).
  pose proof (other_slot s s' i j w Hw Hi Hne Hj). by rewrite Hc, Ht, at_put, decide_False.
Qed.

(** Keys are only taken away: what the two destructions do to the slots. *)
Lemma destroy_temporary_spec (wanted : Z) (d : Dcenter) :
  creatingKeys (destroyTemporaryKey wanted d).2 = creatingKeys d
  /\ forall i, at_ i (temporaryKeys d) = None -> at_ i (temporaryKeys (destroyTemporaryKey wanted d).2) = None.
Proof.
  unfold destroyTemporaryKey. destruct (has_id _ _); [|destruct (has_id _ _)]; simpl; (split; [done|]); intros i Hi; by destruct i.
Qed.

Lemma destroy_forgotten_spec (wanted : Z) (d : Dcenter) :
  creatingKeys (destroyConfirmedForgottenKey wanted d).2 = creatingKeys d
  /\ forall i, at_ i (temporaryKeys d) = None -> at_ i (temporaryKeys (destroyConfirmedForgottenKey wanted d).2) = None.
Proof. unfold destroyConfirmedForgottenKey. case_match; simpl; (split; [done|]); intros i Hi; by destruct i. Qed.

Lemma exclusive_dc (d : Dcenter) (w : owners) : exclusive w -> creatingKeys d = creatingKeys (dc w) ->
  (forall i, at_ i (temporaryKeys (dc w)) = None -> at_ i (temporaryKeys d) = None) ->
  exclusive (mk_owners d (myKeyCreation w)).
Proof. intros Hw Hc Ht s i Hs. destruct (Hw s i Hs) as (H1 & H2 & Hu). simpl. rewrite Hc. auto. Qed.

Lemma exclusive_step (w w' : owners) : step w w' -> exclusive w -> exclusive w'.
Proof.
  intros Hs Hw. destruct Hs as [s type c w w' _ E|s t p r w w' E|s t r w w' E|s w w' E|s w w' E|wanted w|wanted w|b w].
  - by eapply exclusive_acquire.
  - unfold sessionReleaseOnDone in E. case_bool_decide; [done|]. simpl in E. by eapply exclusive_release.
  - unfold releaseCdnKeyCreationOnDone in E. case_bool_decide as Em; [|done].
    eapply exclusive_release; [done| |done]. by rewrite Em.
  - by eapply exclusive_fail.
  - unfold sessionDestroyed in E. case_bool_decide; [by injection E as <-|]. by eapply exclusive_fail.
  - unfold sessionDestroyTemporaryKey. pose proof (destroy_temporary_spec wanted (dc w)) as [? ?].
    destruct (destroyTemporaryKey wanted (dc w)). by apply exclusive_dc.
  - pose proof (destroy_forgotten_spec wanted (dc w)) as [? ?]. by apply exclusive_dc.
  - by apply exclusive_dc.
Qed.

Lemma exclusive_reachable (w w' : owners) : idle w -> rtc step w w' -> exclusive w'.
Proof.
  intros [Hm _] H. assert (exclusive w) as Hw by (intros s i Hs; unfold creates, mine in Hs; by rewrite Hm, lookup_empty in Hs).
  clear Hm. induction H; [done|]. by eauto using exclusive_step.
Qed.

(** ** A refused release leaves its slot taken *)

Lemma stuck_step (i : TemporaryKeyType.t) (w w' : owners) : exclusive w -> step w w' -> stuck i w -> stuck i w'.
Proof.
  intros Hw Hs (Hc & Ht & Hn).
  assert (forall s d, creatingKeys d = creatingKeys (dc w) \/ (exists j b, j <> i /\ creatingKeys d = put j b (creatingKeys (dc w))) ->
    temporaryKeys d = temporaryKeys (dc w) \/ (exists j t, j <> i /\ temporaryKeys d = put j t (temporaryKeys (dc w))) ->
    stuck i (set_mine s CreatingKeyType.Nothing d w)) as Hset.
  { intros s d H1 H2. split_and!; simpl.
    - destruct H1 as [->|(j & b & Hj & ->)]; [done|]. by rewrite at_put, decide_False.
    - destruct H2 as [->|(j & t & Hj & ->)]; [done|]. by rewrite at_put, decide_False.
    - intros s' Hs'. unfold creates in Hs'. rewrite mine_set in Hs'. case_decide; [done|]. by apply (Hn s'). }
  assert (forall s, mine s w <> CreatingKeyType.Nothing -> exists j, creates s j w /\ j <> i) as Hmine.
  { intros s Hm. destruct (IndexByType (mine s w)) as [j|] eqn:E; [|by destruct (mine s w)].
    exists j. split; [done|]. intros ->. by apply (Hn s). }
  assert (forall s t p r w1, mine s w <> CreatingKeyType.Nothing ->
    releaseGenericKeyCreationOnDone s (Some t) p w = Some (r, w1) -> stuck i w1) as Hrel.
  { intros s t p r w1 Hm E. destruct (Hmine s Hm) as (j & Hj & Hij).
    destruct (release_spec s j t p w Hw Hj) as (ok & ev & d & E' & _ & Hd). rewrite E in E'. injection E' as -> ->.
    destruct ok; [destruct Hd as (_ & ? & ?); apply Hset; eauto|subst d; apply Hset; by left]. }
  assert (forall s w1, sessionReleaseOnFail s w = Some w1 -> stuck i w1) as Hfail.
  { intros s w1 E. destruct (Hmine s) as (j & Hj & Hij); [intros Hm; unfold sessionReleaseOnFail in E; by rewrite Hm in E|].
    destruct (fail_spec s j w Hw Hj) as (d & E' & ? & ?). rewrite E in E'. injection E' as ->. apply Hset; eauto. }
  destruct Hs as [s type c w w' _ E|s t p r w w' E|s t r w w' E|s w w' E|s w w' E|wanted w|wanted w|b w].
  - unfold sessionAcquire in E. case_bool_decide as Hm; [|done].
    destruct (acquireKeyCreation type (dc w)) as [c' d] eqn:Ea. injection E as <- <-.
    apply acquire_spec in Ea as (Ht' & _ & Hc'). split_and!; simpl.
    + destruct (IndexByType c') as [j|]; [|by rewrite Hc']. destruct Hc' as (_ & _ & ->). rewrite at_put. by case_decide.
    + by rewrite Ht'.
    + intros s' Hs'. unfold creates in Hs'. rewrite mine_set in Hs'. case_decide; [|by apply (Hn s')].
      rewrite Hs' in Hc'. destruct Hc' as [? _]. congruence.
  - unfold sessionReleaseOnDone in E. case_bool_decide; [done|]. simpl in E. by eapply Hrel.
  - unfold releaseCdnKeyCreationOnDone in E. case_bool_decide as Em; [|done]. eapply Hrel; [|done]. by rewrite Em.
  - by eapply Hfail.
  - unfold sessionDestroyed in E. case_bool_decide; [by injection E as <-|]. by eapply Hfail.
  - unfold sessionDestroyTemporaryKey. pose proof (destroy_temporary_spec wanted (dc w)) as [Hd ?].
    destruct (destroyTemporaryKey wanted (dc w)). simpl in *. split_and!; simpl; [by rewrite Hd|auto|done].
  - pose proof (destroy_forgotten_spec wanted (dc w)) as [Hd ?]. split_and!; simpl; [by rewrite Hd|auto|done].
  - by split_and!.
Qed.

(** Once the regular slot is stuck nobody gets to create a key. *)
Lemma stuck_acquire (type : DcType.t) (w : owners) : stuck TemporaryKeyType.Regular w ->
  (acquireKeyCreation type (dc w)).1 = CreatingKeyType.Nothing.
Proof.
  intros (Hc & Ht & _). unfold acquireKeyCreation, mark. case_bool_decide; [done|].
  rewrite Ht. rewrite (bool_decide_eq_false_2 (is_Some None)) by (by intros [? ?]). rewrite andb_false_r.
  simpl in Hc. simpl. by rewrite Hc.
Qed.

Lemma refused_stuck (s : Z) (i : TemporaryKeyType.t) (t : Z) (p : option Z) (w w' : owners) (events : list key_event) :
  exclusive w -> creates s i w ->
  releaseGenericKeyCreationOnDone s (Some t) p w = Some (false, events, w') -> exclusive w' /\ stuck i w'.
Proof.
  intros Hw Hs E. split; [eapply exclusive_release; [done| |done]; intros Em; unfold creates in Hs; by rewrite Em in Hs|].
  destruct (release_spec s i t p w Hw Hs) as (ok & ev & d & E' & _ & Hd). rewrite E in E'. injection E' as <- _ ->.
  subst d. destruct (Hw s i Hs) as (Hc & Ht & Hu). split_and!; [done|done|].
  intros s' Hs'. unfold creates in Hs'. rewrite mine_set in Hs'. case_decide; [done|]. by apply Hu in Hs'.
Qed.

(** ** What is guaranteed *)

(** C29. Whatever its sessions do, a data center has at most one session
    creating the key of a slot, and no [Expects] of a release fails: a creator
    can give up, and can hand in its key, which everybody then reads, unless
    the persistent key it was bound with is no longer the current one. *)
Theorem key_creation_exclusive (w w' : owners) : idle w -> rtc step w w' ->
  (forall s s' i, creates s i w' -> creates s' i w' -> s = s')
  /\ forall s i, creates s i w' ->
     is_Some (sessionReleaseOnFail s w') /\ is_Some (sessionDestroyed s w')
     /\ forall t p, exists ok events d,
          sessionReleaseOnDone s (Some t) (Some p) w' = Some (ok, events, set_mine s CreatingKeyType.Nothing d w')
          /\ (ok = true <-> mine s w' = CreatingKeyType.Persistent \/ persistentKey (dc w') = Some p)
          /\ (ok = true -> getTemporaryKey i d = Some t /\ at_ i (creatingKeys d) = false).
Proof.
  intros Hi Hr. pose proof (exclusive_reachable w w' Hi Hr) as Hw. split.
  - intros s s' i H1 H2. by apply (Hw s' i H2).
  - intros s i Hs. destruct (fail_spec s i w' Hw Hs) as (d & E & _).
    assert (mine s w' <> CreatingKeyType.Nothing) as Hm by (intros Em; unfold creates in Hs; by rewrite Em in Hs).
    split_and!; [by rewrite E|unfold sessionDestroyed; rewrite bool_decide_eq_false_2, E by done; done|].
    intros t p. destruct (release_spec s i t (Some p) w' Hw Hs) as (ok & ev & d' & E' & Hok & Hd).
    exists ok, ev, d'. unfold sessionReleaseOnDone. rewrite bool_decide_eq_false_2 by done.
    split_and!; [done|done|]. intros ->. destruct Hd as (? & Hc & _). split; [done|]. by rewrite Hc, at_put, decide_True.
Qed.

(** When the regular key a session created is refused, the persistent key
    having changed meanwhile, its slot stays taken for good: from then on no
    session of the data center, whatever happens, gets to create any key. *)
Theorem refused_release_blocks (s t p : Z) (w0 w w' : owners) (events : list key_event) :
  idle w0 -> rtc step w0 w -> creates s TemporaryKeyType.Regular w ->
  sessionReleaseOnDone s (Some t) (Some p) w = Some (false, events, w') ->
  forall w'', rtc step w' w'' -> forall type, (acquireKeyCreation type (dc w'')).1 = CreatingKeyType.Nothing.
Proof.
  intros Hi H0 Hs E w'' Hr type. pose proof (exclusive_reachable w0 w Hi H0) as Hw.
  unfold sessionReleaseOnDone in E. case_bool_decide; [done|]. simpl in E.
  destruct (refused_stuck s _ t (Some p) w w' events Hw Hs E) as [Hw' Hst].
  apply stuck_acquire. clear E Hs Hi H0 Hw. induction Hr as [|w1 w2 w3 H12 _ IH]; [done|].
  apply IH; [by eapply exclusive_step|by eapply stuck_step].
Qed.

End Keys.

(** ** Examples: two sessions of a data center with a persistent key *)

Definition ex_keyId (k : Z) : Z := k + 100.
Definition ex_idle : owners := mk_owners (Dcenter_new 2 (Some 7)) ∅.
Definition ex_creating : owners :=
  set_mine 1 CreatingKeyType.TemporaryRegular (acquireKeyCreation DcType.Regular (dc ex_idle)).2 ex_idle.
(** The persistent key is destroyed while session 1 creates. *)
Definition ex_forgotten : owners :=
  mk_owners (destroyConfirmedForgottenKey ex_keyId 107 (dc ex_creating)).2 (myKeyCreation ex_creating).
Definition ex_refused : owners := set_mine 1 CreatingKeyType.Nothing (dc ex_forgotten) ex_forgotten.

Lemma ex_creating_reachable : rtc (step ex_keyId) ex_idle ex_creating.
Proof.
  apply rtc_once. by apply (step_acquire ex_keyId 1 DcType.Regular CreatingKeyType.TemporaryRegular).
Qed.

Lemma ex_forgotten_reachable : rtc (step ex_keyId) ex_idle ex_forgotten.
Proof. eapply rtc_r; [apply ex_creating_reachable|]. apply (step_forgotten ex_keyId 107). Qed.

Lemma key_creation_exclusive_witness :
  creates 1 TemporaryKeyType.Regular ex_creating
  /\ forall s, creates s TemporaryKeyType.Regular ex_creating -> 1 = s.
Proof.
  split; [reflexivity|]. intros s.
  apply (proj1 (key_creation_exclusive ex_keyId ex_idle ex_creating (conj eq_refl eq_refl) ex_creating_reachable)).
  reflexivity.
Defined.

Lemma refused_release_blocks_witness :
  sessionReleaseOnDone 1 (Some 9) (Some 7) ex_forgotten = Some (false, [], ex_refused)
  /\ (acquireKeyCreation DcType.Regular (dc ex_refused)).1 = CreatingKeyType.Nothing.
Proof.
  split; [reflexivity|].
  apply (refused_release_blocks ex_keyId 1 9 7 ex_idle ex_forgotten ex_refused []
    (conj eq_refl eq_refl) ex_forgotten_reachable eq_refl eq_refl ex_refused (rtc_refl _ _)).
Defined.
