(* ===== verification/Instance.v ===== *)
(** * The instance: requests between sessions

    [mtproto/mtp_instance.cpp] in its normal mode, [Session::tryToReceive] of
    [mtproto/session.cpp] and [Session]'s constructor: requests get an id and
    handlers and are given to the session of a data center; answers come back
    to the handlers; errors the client deals with itself send the request
    again, now or later, to the same data center or another.

    Sessions are those of [Receive], by their shifted data center id; the
    request objects they share are in a common store, lent to a session while
    it works. Handlers given by callers are numbers, and what they do is a
    parameter, as are the generated readers and serializers. The clock is read
    once for each call. [None] is a failed [Expects] or [Assert]. *)

From S2P Require Import Prelude StateMonad Text Ids Requests Session Receive Errors Dcenter.

Import Dc.

(** What becomes of an answer: a handler of the caller, or one of the
    instance's own. *)
Inductive callback := OnUser (n : Z) | OnExport | OnImport | OnGuestLogout.

Record ResponseHandler := mk_handler { on_done : option callback; on_fail : option callback }.

(** ** State *)

Inductive call :=
  | CheckDelayedIn (timeout : Z) | WriteKeys | SessionKilled (shiftedDcId : Z) | LangReset
  | TemporaryKeyChangedIn (dcId : Z) | StartedSession (shiftedDcId : Z) | SessionRestarted (shiftedDcId : Z)
  | ProcessUpdate (message : Response).

(** The sessions and what they share. *)
Record network := mk_network {
  objects : gmap Z RequestData;
  sessions : gmap Z receiver;
  dcenters : gmap Z Dcenter;
  keysForWrite : gmap Z Z;
  mainSession : option Z;
  mainDcId : Z;
  mainDcIdForced : bool;
  logoutGuestRequestIds : gmap Z Z }.

(** The tables of requests. *)
Record routing := mk_routing {
  requestsByDc : gmap Z Z;
  authExportRequests : gmap Z Z;
  parserMap : gmap Z ResponseHandler;
  requestMap : gmap Z Z;
  delayedRequests : list (Z * Z);
  dependentRequests : gmap Z Z;
  requestsDelays : gmap Z Z;
  badGuestDcRequests : gset Z;
  authWaiters : gmap Z (list Z) }.

Record instance := mk_instance { net : network; rt : routing; globalRequestId : Z; calls : list call }.

Definition set_net (f : network -> network) (i : instance) : instance :=
  mk_instance (f (net i)) (rt i) (globalRequestId i) (calls i).
Definition set_rt (f : routing -> routing) (i : instance) : instance :=
  mk_instance (net i) (f (rt i)) (globalRequestId i) (calls i).
Definition notify (c : call) : M instance unit := modify (fun i =>
  mk_instance (net i) (rt i) (globalRequestId i) (calls i ++ [c])).

Definition set_objects (o : gmap Z RequestData) (n : network) : network :=
  mk_network o (sessions n) (dcenters n) (keysForWrite n) (mainSession n) (mainDcId n) (mainDcIdForced n) (logoutGuestRequestIds n).
Definition set_sessions (m : gmap Z receiver) (n : network) : network :=
  mk_network (objects n) m (dcenters n) (keysForWrite n) (mainSession n) (mainDcId n) (mainDcIdForced n) (logoutGuestRequestIds n).
Definition set_dcenters (m : gmap Z Dcenter) (n : network) : network :=
  mk_network (objects n) (sessions n) m (keysForWrite n) (mainSession n) (mainDcId n) (mainDcIdForced n) (logoutGuestRequestIds n).
Definition set_keysForWrite (m : gmap Z Z) (n : network) : network :=
  mk_network (objects n) (sessions n) (dcenters n) m (mainSession n) (mainDcId n) (mainDcIdForced n) (logoutGuestRequestIds n).
Definition set_main (s : option Z) (dc : Z) (forced : bool) (n : network) : network :=
  mk_network (objects n) (sessions n) (dcenters n) (keysForWrite n) s dc forced (logoutGuestRequestIds n).
Definition set_logouts (m : gmap Z Z) (n : network) : network :=
  mk_network (objects n) (sessions n) (dcenters n) (keysForWrite n) (mainSession n) (mainDcId n) (mainDcIdForced n) m.

Definition set_byDc (m : gmap Z Z) (r : routing) : routing :=
  mk_routing m (authExportRequests r) (parserMap r) (requestMap r) (delayedRequests r) (dependentRequests r)
    (requestsDelays r) (badGuestDcRequests r) (authWaiters r).
Definition set_exports (m : gmap Z Z) (r : routing) : routing :=
  mk_routing (requestsByDc r) m (parserMap r) (requestMap r) (delayedRequests r) (dependentRequests r)
    (requestsDelays r) (badGuestDcRequests r) (authWaiters r).
Definition set_parsers (m : gmap Z ResponseHandler) (r : routing) : routing :=
  mk_routing (requestsByDc r) (authExportRequests r) m (requestMap r) (delayedRequests r) (dependentRequests r)
    (requestsDelays r) (badGuestDcRequests r) (authWaiters r).
Definition set_requests (m : gmap Z Z) (r : routing) : routing :=
  mk_routing (requestsByDc r) (authExportRequests r) (parserMap r) m (delayedRequests r) (dependentRequests r)
    (requestsDelays r) (badGuestDcRequests r) (authWaiters r).
Definition set_delayed (l : list (Z * Z)) (r : routing) : routing :=
  mk_routing (requestsByDc r) (authExportRequests r) (parserMap r) (requestMap r) l (dependentRequests r)
    (requestsDelays r) (badGuestDcRequests r) (authWaiters r).
Definition set_dependent (m : gmap Z Z) (r : routing) : routing :=
  mk_routing (requestsByDc r) (authExportRequests r) (parserMap r) (requestMap r) (delayedRequests r) m
    (requestsDelays r) (badGuestDcRequests r) (authWaiters r).
Definition set_delays (m : gmap Z Z) (r : routing) : routing :=
  mk_routing (requestsByDc r) (authExportRequests r) (parserMap r) (requestMap r) (delayedRequests r)
    (dependentRequests r) m (badGuestDcRequests r) (authWaiters r).
Definition set_badGuest (s : gset Z) (r : routing) : routing :=
  mk_routing (requestsByDc r) (authExportRequests r) (parserMap r) (requestMap r) (delayedRequests r)
    (dependentRequests r) (requestsDelays r) s (authWaiters r).
Definition set_waiters (m : gmap Z (list Z)) (r : routing) : routing :=
  mk_routing (requestsByDc r) (authExportRequests r) (parserMap r) (requestMap r) (delayedRequests r)
    (dependentRequests r) (requestsDelays r) (badGuestDcRequests r) m.

Definition table {A} (f : routing -> A) : M instance A := gets (fun i => f (rt i)).
Definition update (f : routing -> routing) : M instance unit := modify (set_rt f).

(** ** Request objects *)

Definition object (ref : Z) : M instance RequestData := fun i =>
  match objects (net i) !! ref with Some d => Some (d, i) | None => None end.
Definition set_object (ref : Z) (d : RequestData) : M instance unit :=
  modify (set_net (fun n => set_objects (<[ref := d]> (objects n)) n)).
Definition new_object (d : RequestData) : M instance Z := fun i =>
  let ref := default 0 (last_key (objects (net i))) + 1 in
  Some (ref, set_net (fun n => set_objects (<[ref := d]> (objects n)) n) i).

(** ** Sessions *)

(** A session as its constructor leaves it. *)
Definition Session_new : receiver :=
  mk_receiver (mk_session (mk_tables ∅ ∅ ∅ ∅ ∅ ∅ ∅) (mk_special 0 0 0 0 0 0) [] [] ∅ ∅ 0 0 0 false false 0 [])
    [] 0 DisconnectedState false false 1 false.

(** The store of request objects lent to a session, and taken back. *)
Definition lend (h : gmap Z RequestData) (r : receiver) : receiver := set_base (set_tb (set_heap h) (base r)) r.

(** An operation of the session [dc]. *)
Definition in_session {A} (dc : Z) (m : M receiver A) : M instance A := fun i =>
  match sessions (net i) !! dc with
  | None => None
  | Some r =>
      match m (lend (objects (net i)) r) with
      | None => None
      | Some (a, r') =>
          Some (a, set_net (fun n => set_sessions (<[dc := lend ∅ r']> (sessions n))
            (set_objects (heap (tb (base r'))) n)) i)
      end
  end.

Definition send_prepared (dc ref msCanWait : Z) : M instance unit :=
  in_session dc (inside (sendPrepared ref msCanWait)).

(** ** Data centers and their keys *)

Definition kNoneMainDc : Z := -1.
Definition kDefaultMainDc : Z := 2.

Definition hasMainDcId (n : network) : bool := negb (mainDcId n =? kNoneMainDc).

Definition addDc (shiftedDcId : Z) (key : option Z) : M instance unit := modify (set_net (fun n =>
  set_dcenters (emplace shiftedDcId (Dcenter_new (BareDcId shiftedDcId) key) (dcenters n)) n)).

(** The data center a session of [shiftedDcId] takes its keys from. *)
Definition dcFor (shiftedDcId : Z) : Z :=
  let result := BareDcId shiftedDcId in
  if isTemporaryDcId result then
    let realDcId := getRealIdFromTemporaryDcId result in
    if negb (realDcId =? 0) then realDcId else result
  else result.

Definition getDcById (shiftedDcId : Z) : M instance Z :=
  dcs <- gets (fun i => dcenters (net i)) ;;
  match dcs !! shiftedDcId with
  | Some _ => ret shiftedDcId
  | None =>
      let dcId := dcFor shiftedDcId in
      match (if negb (dcId =? shiftedDcId) then dcs !! dcId else None) with
      | Some _ => ret dcId
      | None => addDc dcId None ;;; ret dcId
      end
  end.

Definition dcTemporaryKeyChanged (dcId : Z) : M instance unit := notify (TemporaryKeyChangedIn dcId).

Definition dcPersistentKeyChanged (dcId : Z) (persistentKey : option Z) : M instance unit :=
  dcTemporaryKeyChanged dcId ;;;
  if isTemporaryDcId dcId then ret tt else
  keys <- gets (fun i => keysForWrite (net i)) ;;
  if bool_decide (keys !! dcId = persistentKey) then ret tt else
  modify (set_net (fun n => set_keysForWrite (match persistentKey with
    | None => delete dcId (keysForWrite n)
    | Some k => <[dcId := k]> (keysForWrite n)
    end) n)) ;;;
  notify WriteKeys.

(** ** Finding and starting sessions *)

Definition startSession (shiftedDcId : Z) : M instance Z :=
  if BareDcId shiftedDcId =? 0 then lift None else
  getDcById shiftedDcId ;;;
  modify (set_net (fun n => set_sessions (emplace shiftedDcId Session_new (sessions n)) n)) ;;;
  notify (StartedSession shiftedDcId) ;;;
  ret shiftedDcId.

Definition main_session : M instance Z :=
  m <- gets (fun i => mainSession (net i)) ;; lift m.

Definition findOrStart (shiftedDcId : Z) : M instance Z :=
  all <- gets (fun i => sessions (net i)) ;;
  match all !! shiftedDcId with
  | Some _ => ret shiftedDcId
  | None => startSession shiftedDcId
  end.

Definition getSession (shiftedDcId : Z) : M instance Z :=
  if shiftedDcId =? 0 then main_session
  else if BareDcId shiftedDcId =? 0 then
    main <- main_session ;; findOrStart (shiftedDcId + BareDcId main)
  else findOrStart shiftedDcId.

Definition scheduleSessionDestroy (shiftedDcId : Z) : M instance unit :=
  all <- gets (fun i => sessions (net i)) ;;
  match all !! shiftedDcId with
  | None => ret tt
  | Some _ =>
      modify (set_net (fun n => set_sessions (delete shiftedDcId (sessions n)) n)) ;;;
      notify (SessionKilled shiftedDcId)
  end.

Definition killSession (shiftedDcId : Z) : M instance unit :=
  n <- gets net ;;
  if bool_decide (is_Some (sessions n !! shiftedDcId)) && bool_decide (mainSession n = Some shiftedDcId)
  then lift None else scheduleSessionDestroy shiftedDcId.

Definition setMainDcId (newDcId : Z) : M instance unit :=
  main <- gets (fun i => mainSession (net i)) ;;
  match main with
  | None => ret tt
  | Some oldMainDcId =>
      modify (set_net (fun n => set_main (mainSession n) (mainDcId n) true n)) ;;;
      (if negb (oldMainDcId =? newDcId) then
         scheduleSessionDestroy oldMainDcId ;;;
         scheduleSessionDestroy newDcId ;;;
         s <- startSession newDcId ;;
         modify (set_net (fun n => set_main (Some s) (mainDcId n) (mainDcIdForced n) n))
       else ret tt) ;;;
      modify (set_net (fun n => set_main (mainSession n) newDcId (mainDcIdForced n) n)) ;;;
      notify WriteKeys
  end.

Definition suggestMainDcId (newDcId : Z) : M instance unit :=
  forced <- gets (fun i => mainDcIdForced (net i)) ;;
  if negb forced then setMainDcId newDcId else ret tt.

(** [keyDestroyedOnServer]: what the data center forgets, then every session of
    the bare id restarts. *)
Definition restart_dc (shiftedDcId : Z) : M instance unit :=
  all <- gets (fun i => sorted_keys (sessions (net i))) ;;
  each (fun s => if BareDcId s =? BareDcId shiftedDcId then notify (SessionRestarted s) else ret tt) all.

Definition keyDestroyedOnServer (keyId : Z -> Z) (shiftedDcId wanted : Z) : M instance unit :=
  dcs <- gets (fun i => dcenters (net i)) ;;
  match dcs !! BareDcId shiftedDcId with
  | Some d =>
      let (found, d') := destroyConfirmedForgottenKey keyId wanted d in
      modify (set_net (fun n => set_dcenters (<[BareDcId shiftedDcId := d']> (dcenters n)) n)) ;;;
      if found then dcPersistentKeyChanged (BareDcId shiftedDcId) None else ret tt
  | None => ret tt
  end ;;;
  restart_dc shiftedDcId.

(** ** Request ids *)

Definition kMaxRequestId : Z := (2 ^ 31 - 1) / 2.

Definition GetNextRequestId : M instance Z := fun i =>
  let result := globalRequestId i + 1 in
  Some (result, mk_instance (net i) (rt i) (if result =? kMaxRequestId then 0 else result) (calls i)).

(** ** Requests *)

Definition queryRequestByDc (requestId : Z) : M instance (option Z) :=
  m <- table requestsByDc ;; ret (m !! requestId).

Definition changedDc (dc newdc : Z) : Z := if dc <? 0 then - newdc else ShiftDcId newdc (GetDcIdShift dc).

Definition changeRequestByDc (requestId newdc : Z) : M instance (option Z) :=
  m <- table requestsByDc ;;
  match m !! requestId with
  | Some dc =>
      update (fun r => set_byDc (<[requestId := changedDc dc newdc]> (requestsByDc r)) r) ;;;
      ret (Some (changedDc dc newdc))
  | None => ret None
  end.

Definition registerRequest (requestId dc : Z) : M instance unit :=
  update (fun r => set_byDc (<[requestId := dc]> (requestsByDc r)) r).

Definition getRequest (requestId : Z) : M instance (option Z) :=
  m <- table requestMap ;; ret (m !! requestId).

Definition storeRequest (requestId ref : Z) (callbacks : ResponseHandler) : M instance unit :=
  (if bool_decide (is_Some (on_done callbacks)) || bool_decide (is_Some (on_fail callbacks))
   then update (fun r => set_parsers (emplace requestId callbacks (parserMap r)) r) else ret tt) ;;;
  update (fun r => set_requests (emplace requestId ref (requestMap r)) r).

Definition with_id (requestId : Z) (d : RequestData) : RequestData :=
  mk_request (buffer d) (after d) (lastSentTime d) requestId (needsLayer d) (forceSendInContainer d).
Definition with_after (a : option Z) (d : RequestData) : RequestData :=
  mk_request (buffer d) a (lastSentTime d) (requestId d) (needsLayer d) (forceSendInContainer d).
Definition with_layer (b : bool) (d : RequestData) : RequestData :=
  mk_request (buffer d) (after d) (lastSentTime d) (requestId d) b (forceSendInContainer d).

(** A field of a request set. *)
Definition change_object (ref : Z) (f : RequestData -> RequestData) : M instance unit :=
  d <- object ref ;; set_object ref (f d).

Section Now.
(** [crl::now()] *)
Context (now : Z).

Definition sendRequest (requestId ref : Z) (callbacks : ResponseHandler) (shiftedDcId msCanWait : Z)
    (needsLayer : bool) (afterRequestId : Z) : M instance unit :=
  session <- getSession shiftedDcId ;;
  change_object ref (with_id requestId) ;;;
  storeRequest requestId ref callbacks ;;;
  registerRequest requestId (if shiftedDcId =? 0 then - session else session) ;;;
  (if negb (afterRequestId =? 0) then
     a <- getRequest afterRequestId ;; change_object ref (with_after a)
   else ret tt) ;;;
  change_object ref (fun d => with_layer needsLayer (with_sent_time now d)) ;;;
  send_prepared session ref msCanWait.

(** [Instance::send]: the request serialized from the words of its body. *)
Definition send (body : list Z) (callbacks : ResponseHandler) (shiftedDcId msCanWait afterRequestId : Z) : M instance Z :=
  requestId <- GetNextRequestId ;;
  prepared <- lift (Prepare (Z.of_nat (length body))) ;;
  ref <- new_object (mk_request (prepared ++ body) None 0 0 false false) ;;
  sendRequest requestId ref callbacks shiftedDcId msCanWait true afterRequestId ;;;
  ret requestId.

(** *** Requests put off *)

Definition sendDelayed (requestId : Z) : M instance unit :=
  dc <- queryRequestByDc requestId ;;
  match dc with
  | None => ret tt
  | Some dcWithShift =>
      request <- getRequest requestId ;;
      match request with
      | None => ret tt
      | Some ref => session <- getSession (Z.abs dcWithShift) ;; send_prepared session ref 0
      end
  end.

Fixpoint delayedLoop (l : list (Z * Z)) : M instance unit :=
  match l with
  | (requestId, sendAt) :: rest =>
      if sendAt <=? now then update (set_delayed rest) ;;; sendDelayed requestId ;;; delayedLoop rest else ret tt
  | [] => ret tt
  end.

Definition checkDelayedRequests : M instance unit :=
  l <- table delayedRequests ;;
  delayedLoop l ;;;
  l <- table delayedRequests ;;
  match l with
  | (_, sendAt) :: _ => notify (CheckDelayedIn (sendAt - now))
  | [] => ret tt
  end.

(** The place of a request in the line; [None] when it is found before. *)
Fixpoint insertDelayed (requestId sendAt : Z) (l : list (Z * Z)) : option (list (Z * Z)) :=
  match l with
  | [] => Some [(requestId, sendAt)]
  | x :: rest =>
      if x.1 =? requestId then None
      else if sendAt <? x.2 then Some ((requestId, sendAt) :: l)
      else l' <-? insertDelayed requestId sendAt rest ; Some (x :: l')
  end.

(** *** Requests that wait for others *)

(** One pass over the dependent requests: what is removed and resent. *)
Definition closureStep (s : gset Z * gset Z) (e : Z * Z) : gset Z * gset Z :=
  if bool_decide (e.2 ∈ s.1) then ({[e.1]} ∪ s.1, {[e.1]} ∪ s.2) else s.
Definition closurePass (l : list (Z * Z)) (s : gset Z * gset Z) : gset Z * gset Z := foldl closureStep s l.

(** [do ... while (handling != toResend.size())] *)
Fixpoint closureLoop (fuel : nat) (l : list (Z * Z)) (s : gset Z * gset Z) : option (gset Z * gset Z) :=
  match fuel with
  | O => None
  | S fuel =>
      let s' := closurePass l s in
      if bool_decide (size s.2 = size s'.2) then Some s' else closureLoop fuel l s'
  end.

Fixpoint resendLoop (ids : list Z) : M instance unit :=
  match ids with
  | [] => ret tt
  | resendingId :: ids =>
      dc <- queryRequestByDc resendingId ;;
      match dc with
      | None => resendLoop ids
      | Some shiftedDcId =>
          request <- getRequest resendingId ;;
          match request with
          | None => ret tt
          | Some ref =>
              session <- getSession (Z.abs shiftedDcId) ;;
              send_prepared session ref 0 ;;;
              resendLoop ids
          end
      end
  end.

Definition remove_all (s : gset Z) (m : gmap Z Z) : gmap Z Z := foldr delete m (elements s).

Definition unregisterRequest (requestId : Z) : M instance unit :=
  update (fun r => set_delays (delete requestId (requestsDelays r)) r) ;;;
  update (fun r => set_requests (delete requestId (requestMap r)) r) ;;;
  update (fun r => set_byDc (delete requestId (requestsByDc r)) r) ;;;
  dependent <- table dependentRequests ;;
  s <- lift (closureLoop (S (size dependent)) (entries dependent) ({[requestId]}, ∅)) ;;
  update (fun r => set_dependent (remove_all s.1 (dependentRequests r)) r) ;;;
  resendLoop (sorted_elements s.2).

Definition cancelRequest (requestId : Z) : M instance unit :=
  if requestId =? 0 then ret tt else
  dc <- queryRequestByDc requestId ;;
  request <- getRequest requestId ;;
  msgId <- match request with
    | Some ref =>
        d <- object ref ;;
        update (fun r => set_requests (delete requestId (requestMap r)) r) ;;;
        ret (long 4 (buffer d))
    | None => ret 0
    end ;;
  unregisterRequest requestId ;;;
  match dc with
  | Some shiftedDcId =>
      session <- getSession (Z.abs shiftedDcId) ;;
      in_session session (inside (cancel requestId msgId))
  | None => ret tt
  end ;;;
  update (fun r => set_parsers (delete requestId (parserMap r)) r).

End Now.

(** ** Answers *)

(** What the instance asks other objects. *)
Record surroundings := mk_surroundings {
  inow : Z;                                                  (* [crl::now()] *)
  user_done : Z -> Response -> M instance bool;              (* the callers' handlers *)
  user_fail : Z -> Error -> Response -> M instance bool;
  globalFailHandler : option (Error -> Response -> M instance unit);
  updatesHandler : bool;                                     (* whether there is one *)
  fromUtf8 : list Z -> list Z;                               (* [qs] *)
  read_exported : list Z -> option (Z * list Z);             (* [MTPauth_ExportedAuthorization] *)
  read_authorization : list Z -> bool;                       (* [MTPauth_Authorization] *)
  export_body : Z -> list Z;                                 (* the serialized requests *)
  import_body : Z -> list Z -> list Z;
  logout_body : list Z;
  is_cdn : Z -> bool }.                                      (* [dcOptions().dcType(dcId) == DcType::Cdn] *)

Section Answers.
Context `{!Scheme} (e : surroundings).

Definition respond (body : list Z) (d f : callback) (dc : Z) : M instance Z :=
  send (inow e) body (mk_handler (Some d) (Some f)) dc 0 0.

(** *** Authorization in other data centers *)

Definition resendWaiter (newdc waitedRequestId : Z) : M instance unit :=
  request <- getRequest waitedRequestId ;;
  match request with
  | None => ret tt
  | Some ref =>
      dc <- changeRequestByDc waitedRequestId newdc ;;
      match dc with
      | None => ret tt
      | Some shiftedDcId =>
          (if shiftedDcId <? 0 then setMainDcId newdc else ret tt) ;;;
          session <- getSession shiftedDcId ;;
          send_prepared session ref 0
      end
  end.

Definition resendWaiters (newdc : Z) (waiters : list Z) : M instance unit := each (resendWaiter newdc) waiters.

Definition set_waiting (dc : Z) (l : list Z) : M instance unit :=
  update (fun r => set_waiters (<[dc := l]> (authWaiters r)) r).
Definition waiting (dc : Z) : M instance (list Z) :=
  m <- table authWaiters ;; ret (default [] (m !! dc)).

Definition importDone (response : Response) : M instance unit :=
  dc <- queryRequestByDc (responseTo response) ;;
  match dc with
  | None => ret tt
  | Some shiftedDcId =>
      let newdc := BareDcId shiftedDcId in
      waiters <- waiting newdc ;;
      resendWaiters newdc waiters ;;;
      set_waiting newdc []
  end.

Definition importFail (error : Error) : bool := negb (IsDefaultHandledError error).

Definition exportDone (id : Z) (bytes : list Z) (response : Response) : M instance unit :=
  exports <- table authExportRequests ;;
  match exports !! responseTo response with
  | None => ret tt
  | Some dc =>
      respond (import_body e id bytes) OnImport OnImport dc ;;;
      update (fun r => set_exports (delete (responseTo response) (authExportRequests r)) r)
  end.

Definition exportFail (error : Error) (response : Response) : M instance bool :=
  if IsDefaultHandledError error then ret false else
  exports <- table authExportRequests ;;
  match exports !! responseTo response with
  | Some dc => set_waiting (BareDcId dc) []
  | None => ret tt
  end ;;;
  ret true.

(** *** Leaving other data centers *)

Definition logoutGuestDone (requestId : Z) : M instance bool :=
  all <- gets (fun i => entries (logoutGuestRequestIds (net i))) ;;
  match list_find (fun kv : Z * Z => kv.2 = requestId) all with
  | Some (_, (shiftedDcId, _)) =>
      killSession shiftedDcId ;;;
      modify (set_net (fun n => set_logouts (delete shiftedDcId (logoutGuestRequestIds n)) n)) ;;;
      ret true
  | None => ret false
  end.

Fixpoint logoutLoop (dcIds : list Z) : M instance unit :=
  match dcIds with
  | [] => ret tt
  | dcId :: dcIds =>
      n <- gets net ;;
      if negb (hasMainDcId n) then lift None else
      (if (dcId =? mainDcId n) || is_cdn e dcId then ret tt else
         requestId <- respond (logout_body e) OnGuestLogout OnGuestLogout (logoutDcId dcId) ;;
         modify (set_net (fun n =>
           set_logouts (emplace (logoutDcId dcId) requestId (logoutGuestRequestIds n)) n))) ;;;
      logoutLoop dcIds
  end.

Definition logoutGuestDcs : M instance unit :=
  dcIds <- gets (fun i => sorted_keys (keysForWrite (net i))) ;; logoutLoop dcIds.

Definition logout (handler : Z) : M instance unit :=
  respond (logout_body e) (OnUser handler) (OnUser handler) 0 ;;;
  logoutGuestDcs.

(** *** Errors the client deals with *)

(** [*_MIGRATE_newdc] *)
Definition migrate (requestId newdc : Z) : M instance bool :=
  if requestId =? 0 then ret false else
  dc <- queryRequestByDc requestId ;;
  let dcWithShift := default 0 dc in
  if (dcWithShift =? 0) || (newdc =? 0) then ret false else
  newdcWithShift <- (if dcWithShift <? 0 then setMainDcId newdc ;;; ret newdc
                     else ret (ShiftDcId newdc (GetDcIdShift dcWithShift))) ;;
  request <- getRequest requestId ;;
  match request with
  | None => ret false
  | Some ref =>
      session <- getSession newdcWithShift ;;
      registerRequest requestId (if dcWithShift <? 0 then - newdcWithShift else newdcWithShift) ;;;
      send_prepared session ref 0 ;;;
      ret true
  end.

(** [MSG_WAIT_TIMEOUT], [MSG_WAIT_FAILED] *)
Definition waitForAnother (requestId : Z) : M instance bool :=
  request <- getRequest requestId ;;
  match request with
  | None => ret false
  | Some ref =>
      d <- object ref ;;
      match after d with
      | None => ret false
      | Some afterRef =>
          dc <- queryRequestByDc requestId ;;
          match dc with
          | None => ret tt
          | Some shiftedDcId =>
              a <- object afterRef ;;
              afterDcId <- queryRequestByDc (Session.requestId a) ;;
              if bool_decide (afterDcId = Some shiftedDcId) then ret tt
              else change_object ref (with_after None)
          end ;;;
          let dcWithShift := default 0 dc in
          if dcWithShift =? 0 then ret false else
          d <- object ref ;;
          match after d with
          | None => session <- getSession (Z.abs dcWithShift) ;; send_prepared session ref 0
          | Some afterRef =>
              a <- object afterRef ;;
              update (fun r => set_dependent (emplace requestId (Session.requestId a) (dependentRequests r)) r)
          end ;;;
          ret true
      end
  end.

Definition is_internal (error : Error) : bool := (code error <? 0) || (500 <=? code error).

(** The delay of a request after an internal error: doubled each time up to 64. *)
Definition nextDelay (old : option Z) : Z :=
  match old with
  | Some secs => if 60 <? secs then secs else secs * 2
  | None => 1
  end.

(** The seconds to wait; [wraps] is the overflow of [secs * 1000]. *)
Definition waitSeconds (requestId : Z) (error : Error) : M instance Z :=
  if is_internal error then
    delays <- table requestsDelays ;;
    let secs := nextDelay (delays !! requestId) in
    update (fun r => set_delays (<[requestId := secs]> (requestsDelays r)) r) ;;;
    ret secs
  else ret (match flood_wait (type error) with
            | Some secs => secs
            | None => default 1 (slowmode_wait (type error))
            end).

Definition putOff (requestId : Z) (error : Error) : M instance bool :=
  if requestId =? 0 then ret false else
  secs <- waitSeconds requestId error ;;
  let sendAt := inow e + wraps 32 (secs * 1000) + 10 in
  l <- table delayedRequests ;;
  match insertDelayed requestId sendAt l with
  | None => ret true
  | Some l' => update (set_delayed l') ;;; checkDelayedRequests (inow e) ;;; ret true
  end.

(** No authorization in the data center of the request. *)
Definition unauthorized (requestId : Z) (error : Error) (badGuestDc : bool) (response : Response) : M instance bool :=
  dc <- queryRequestByDc requestId ;;
  let dcWithShift := default 0 dc in
  let newdc := BareDcId (Z.abs dcWithShift) in
  n <- gets net ;;
  if (newdc =? 0) || negb (hasMainDcId n) || (newdc =? mainDcId n) then
    (match globalFailHandler e with
     | Some handler => if negb badGuestDc then handler error response else ret tt
     | None => ret tt
     end) ;;;
    ret false
  else
    waiters <- waiting newdc ;;
    (if bool_decide (waiters = []) then
       exportRequestId <- respond (export_body e newdc) OnExport OnExport 0 ;;
       update (fun r => set_exports (emplace exportRequestId (Z.abs dcWithShift) (authExportRequests r)) r)
     else ret tt) ;;;
    waiters <- waiting newdc ;;
    set_waiting newdc (waiters ++ [requestId]) ;;;
    (if badGuestDc then update (fun r => set_badGuest ({[requestId]} ∪ badGuestDcRequests r) r) else ret tt) ;;;
    ret true.

(** [CONNECTION_NOT_INITED], [CONNECTION_LAYER_INVALID] *)
Definition initAgain (requestId : Z) : M instance bool :=
  request <- getRequest requestId ;;
  match request with
  | None => ret false
  | Some ref =>
      dc <- queryRequestByDc requestId ;;
      let dcWithShift := default 0 dc in
      if dcWithShift =? 0 then ret false else
      session <- getSession (Z.abs dcWithShift) ;;
      change_object ref (with_layer true) ;;;
      send_prepared session ref 0 ;;;
      ret true
  end.

Definition slowed (type : list Z) : bool :=
  bool_decide (is_Some (flood_wait type))
  || match slowmode_wait type with Some secs => secs <? 3 | None => false end.

Definition onErrorDefault (error : Error) (response : Response) : M instance bool :=
  let requestId := responseTo response in
  let badGuestDc := (code error =? 400) && is_type (type error) "FILE_ID_INVALID" in
  match migrate_dc (type error) with
  | Some newdc => migrate requestId newdc
  | None =>
      if is_type (type error) "MSG_WAIT_TIMEOUT" || is_type (type error) "MSG_WAIT_FAILED"
      then waitForAnother requestId
      else if is_internal error || slowed (type error) then putOff requestId error
      else
        bad <- table badGuestDcRequests ;;
        if ((code error =? 401) && negb (is_type (type error) "AUTH_KEY_PERM_EMPTY"))
           || (badGuestDc && negb (bool_decide (requestId ∈ bad)))
        then unauthorized requestId error badGuestDc response
        else if is_type (type error) "CONNECTION_NOT_INITED" || is_type (type error) "CONNECTION_LAYER_INVALID"
        then initAgain requestId
        else
          (if is_type (type error) "CONNECTION_LANG_CODE_INVALID" then notify LangReset else ret tt) ;;;
          (if badGuestDc then update (fun r => set_badGuest (badGuestDcRequests r ∖ {[requestId]}) r) else ret tt) ;;;
          ret false
  end.

(** *** The handlers called *)

Definition call_done (c : callback) (response : Response) : M instance bool :=
  match c with
  | OnUser n => user_done e n response
  | OnExport =>
      match read_exported e (reply response) with
      | None => ret false
      | Some (id, bytes) => exportDone id bytes response ;;; ret true
      end
  | OnImport =>
      if negb (read_authorization e (reply response)) then ret false else importDone response ;;; ret true
  | OnGuestLogout => logoutGuestDone (responseTo response) ;;; ret true
  end.

Definition call_fail (c : callback) (error : Error) (response : Response) : M instance bool :=
  match c with
  | OnUser n => user_fail e n error response
  | OnExport => exportFail error response
  | OnImport => ret (importFail error)
  | OnGuestLogout => logoutGuestDone (responseTo response) ;;; ret true
  end.

Definition call_on_fail (onFail : option callback) (error : Error) (response : Response) : M instance bool :=
  match onFail with Some c => call_fail c error response | None => ret false end.

(** Whether the data of the request is to be cleaned. *)
Definition rpcErrorOccured (response : Response) (onFail : option callback) (error : Error) : M instance bool :=
  handled <- (if IsDefaultHandledError error then call_on_fail onFail error response else ret false) ;;
  if handled : bool then ret true else
  again <- onErrorDefault error response ;;
  if again : bool then ret false else
  call_on_fail onFail error response ;;;
  ret true.

Definition handleError (response : Response) (handler : ResponseHandler) (error : Error) : M instance unit :=
  clean <- rpcErrorOccured response (on_fail handler) error ;;
  if clean : bool then unregisterRequest (responseTo response)
  else update (fun r => set_parsers (emplace (responseTo response) handler (parserMap r)) r).

Definition parse_failed (description : list Z) : Error := Local_ (codes "RESPONSE_PARSE_FAILED") description.

(** The error an answer holds. *)
Definition reply_error (words : list Z) : Error :=
  Error_of (match read_rpc_error words with
    | Some (c, message) => mk_rpc_error c (fromUtf8 e message)
    | None => MTPLocal (codes "RESPONSE_PARSE_FAILED") (codes "Error parse failed.")
    end).

Definition processCallback (response : Response) : M instance unit :=
  let requestId := responseTo response in
  parsers <- table parserMap ;;
  let handler := default (mk_handler None None) (parsers !! requestId) in
  update (fun r => set_parsers (delete requestId (parserMap r)) r) ;;;
  if bool_decide (on_done handler = None) && bool_decide (on_fail handler = None)
  then unregisterRequest requestId
  else
    match reply response with
    | [] => handleError response handler (parse_failed (codes "Empty response."))
    | from :: _ =>
        if from =? mtpc_rpc_error then handleError response handler (reply_error (reply response))
        else
          ok <- match on_done handler with
            | Some c => call_done c response
            | None => ret true
            end ;;
          (if ok : bool then ret tt else handleError response handler (parse_failed (codes "Response parse failed."))) ;;;
          unregisterRequest requestId
    end.

Definition processUpdate (message : Response) : M instance unit :=
  if updatesHandler e then notify (ProcessUpdate message) else ret tt.

(** [Session::tryToReceive] of a session alive and not paused. *)
Definition tryToReceive (dc : Z) : M instance unit :=
  messages <- in_session dc (fun r => Some (haveReceived r,
    mk_receiver (base r) [] (syncTimeRequestDuration r) (connectionState r) (keyCreator r)
      (needSessionReset r) (retryTimeout r) (retryTimerActive r))) ;;
  each (fun message =>
    if negb (responseTo message =? 0) then processCallback message
    else if dc =? BareDcId dc then processUpdate message else ret tt) messages.

End Answers.
