(* ===== verification/InstanceFacts.v ===== *)
(** * The tables of the instance

    The invariant of [Instance]: which entries of its tables imply which
    others; what giving a request to a session does; and the requests that
    wait, directly or not, for one that ends. *)

From S2P Require Import Prelude StateMonad Text Ids Requests Session SessionFacts Receive Errors Dcenter Instance.

Import Dc.

(** ** Requests that wait for others *)

(** Request [x] was sent to be executed after [y]. *)
Definition waits (m : gmap Z Z) (x y : Z) : Prop := m !! x = Some y.

Section Closure.
Context (id : Z).

(** What the passes keep, for a property closed under waiting. *)
Record closing (P : Z -> Prop) (s : gset Z * gset Z) : Prop := {
  closing_both : s.1 = {[id]} ∪ s.2;
  closing_in : forall x, x ∈ s.2 -> P x }.

Lemma closure_step (P : Z -> Prop) (s : gset Z * gset Z) (e : Z * Z) :
  closing P s -> (e.2 = id \/ P e.2 -> P e.1) ->
  closing P (closureStep s e) /\ s.2 ⊆ (closureStep s e).2
  /\ (e.2 ∈ s.1 -> e.1 ∈ (closureStep s e).2).
Proof.
  intros [Hb Hi] He. unfold closureStep. case_bool_decide as Hin; simpl; [|by repeat split].
  assert (P e.1) as Hp.
  { apply He. rewrite Hb in Hin. apply elem_of_union in Hin as [?%elem_of_singleton|?]; auto. }
  split; [|split; [apply union_subseteq_r|intros _; by apply elem_of_union_l, elem_of_singleton]]. split; simpl.
  - rewrite Hb, !(assoc_L (∪)). by rewrite (comm_L (∪) {[e.1]}).
  - intros x [->%elem_of_singleton|Hx]%elem_of_union; auto.
Qed.

Lemma closure_pass (P : Z -> Prop) (l : list (Z * Z)) (s : gset Z * gset Z) :
  closing P s -> (forall e, e ∈ l -> e.2 = id \/ P e.2 -> P e.1) ->
  closing P (closurePass l s) /\ s.2 ⊆ (closurePass l s).2
  /\ forall e, e ∈ l -> e.2 ∈ s.1 -> e.1 ∈ (closurePass l s).2.
Proof.
  revert s. induction l as [|e l IH]; intros s Hs Hl; [split_and!; [done..|by intros e He%not_elem_of_nil]|].
  destruct (closure_step P s e Hs) as (H1 & H2 & H3); [apply Hl; by left|].
  destruct (IH (closureStep s e) H1) as (H4 & H5 & H6); [intros; by apply Hl; [right|]|].
  simpl. split_and!; [done|by etrans|]. intros e' [->|He']%elem_of_cons Hin; [by apply H5, H3|].
  apply H6; [done|]. destruct Hs as [Hs _], H1 as [H1 _]. rewrite Hs in Hin. rewrite H1.
  apply elem_of_union in Hin as [?|?]; apply elem_of_union; [by left|right; by apply H2].
Qed.

(** Enough passes are made, and they find exactly the requests that wait. *)
Lemma closure_loop (m : gmap Z Z) (fuel : nat) (s : gset Z * gset Z) :
  closing (fun x => tc (waits m) x id) s -> (size (dom m) < fuel + size s.2)%nat -> exists s',
    closureLoop fuel (entries m) s = Some s' /\ s'.1 = {[id]} ∪ s'.2
    /\ forall x, x ∈ s'.2 <-> tc (waits m) x id.
Proof.
  assert (forall s, closing (fun x => tc (waits m) x id) s -> s.2 ⊆ dom m) as Hdom.
  { intros s0 [_ Hi] x Hx. apply elem_of_dom. apply Hi in Hx. unfold waits in Hx. destruct Hx; eauto. }
  revert s. induction fuel as [|fuel IH]; intros s Hs Hf.
  - apply Hdom, subseteq_size in Hs. lia.
  - destruct (closure_pass _ (entries m) s Hs) as (H1 & H2 & H3).
    { intros [x y] He%elem_of_entries [Hy|Hy]; simpl in *; [subst y; by apply tc_once|by eapply tc_l]. }
    simpl. case_bool_decide as Hsz.
    + eexists. split; [done|]. split; [apply H1|]. intros x. split; [apply H1|].
      assert (s.2 = (closurePass (entries m) s).2) as E.
      { apply leibniz_equiv, set_subseteq_size_equiv; [done|]. by rewrite Hsz. }
      intros Hx. remember id as y eqn:Ey. induction Hx as [x y Hxy|x y z Hxy _ IHx]; subst.
      * apply (H3 (x, id)); [by apply elem_of_entries|]. destruct Hs as [-> _].
        apply elem_of_union. left. by apply elem_of_singleton.
      * assert (y ∈ (closurePass (entries m) s).2) as Hy by auto. rewrite <- E in Hy.
        apply (H3 (x, y)); [by apply elem_of_entries|]. destruct Hs as [-> _]. apply elem_of_union. by right.
    + apply IH; [done|]. apply subseteq_size in H2. lia.
Qed.

Lemma closure_all (m : gmap Z Z) : exists s,
  closureLoop (S (size m)) (entries m) ({[id]}, ∅) = Some s /\ s.1 = {[id]} ∪ s.2
  /\ forall x, x ∈ s.2 <-> tc (waits m) x id.
Proof.
  apply closure_loop.
  - split; simpl; [by rewrite (right_id_L ∅ (∪))|]. by intros x Hx%not_elem_of_empty.
  - rewrite size_dom. lia.
Qed.
End Closure.

Lemma lookup_remove_all (s : gset Z) (m : gmap Z Z) (k : Z) :
  remove_all s m !! k = if decide (k ∈ s) then None else m !! k.
Proof.
  unfold remove_all. assert (forall l, foldr delete m l !! k = if decide (k ∈ l) then None else m !! k) as H.
  { induction l as [|x l IH]; cbn [foldr]; [by rewrite decide_False by apply not_elem_of_nil|].
    destruct (decide (k = x)) as [->|Hne].
    - rewrite lookup_delete_eq, decide_True; [done|]. by left.
    - rewrite lookup_delete_ne, IH by done. apply decide_ext. rewrite elem_of_cons. tauto. }
  rewrite H. apply decide_ext, elem_of_elements.
Qed.

(** ** Requests put off *)

Definition by_time (l : list (Z * Z)) : Prop := StronglySorted (fun a b => a.2 <= b.2) l.

Lemma insert_delayed (id t : Z) (l l' : list (Z * Z)) : by_time l -> insertDelayed id t l = Some l' ->
  by_time l' /\ forall x, x ∈ l' <-> x = (id, t) \/ x ∈ l.
Proof.
  revert l'. induction l as [|x l IH]; intros l' Hs; simpl.
  - intros [= <-]. split; [by repeat constructor|]. intros x. by rewrite elem_of_cons.
  - destruct (x.1 =? id); [done|]. destruct (Z.ltb_spec t x.2) as [Hlt|Hge].
    + intros [= <-]. split; [|intros y; by rewrite !elem_of_cons]. constructor; [done|].
      inversion Hs as [|? ? _ Hall]; subst. constructor; [simpl; lia|].
      eapply Forall_impl; [exact Hall|]. simpl. intros. lia.
    + destruct (insertDelayed id t l) as [l1|] eqn:E; [|done]. intros [= <-].
      inversion Hs as [|? ? Hs' Hall]; subst. destruct (IH l1 Hs' eq_refl) as [H1 H2].
      split; [|intros y; rewrite !elem_of_cons, H2; tauto].
      constructor; [done|]. apply Forall_forall. intros y [->|Hy]%H2; [done|].
      rewrite Forall_forall in Hall. by apply Hall.
Qed.

Lemma insert_delayed_none (id t : Z) (l : list (Z * Z)) : insertDelayed id t l = None -> exists t', (id, t') ∈ l.
Proof.
  induction l as [|x l IH]; simpl; [done|]. destruct (Z.eqb_spec x.1 id) as [<-|].
  - intros _. exists x.2. destruct x. by left.
  - destruct (t <? x.2); [done|]. destruct (insertDelayed id t l); [done|]. intros _.
    destruct IH as [t' Ht]; [done|]. exists t'. by right.
Qed.

(** ** The invariant *)

(** A request is in line in a session. *)
Definition line (n : network) (dc id : Z) : Prop :=
  exists r, sessions n !! dc = Some r /\ is_Some (toSend (tb (base r)) !! id).
Definition in_line (n : network) (id : Z) : Prop := exists dc, line n dc id.

(** The id of a data center, without a shift. *)
Definition plain (dc : Z) : Prop := 0 < dc < kDcShift.

Record net_ok (n : network) : Prop := {
  net_main : exists m, mainSession n = Some m /\ is_Some (sessions n !! m) /\ plain m;
  net_bare : forall dc, is_Some (sessions n !! dc) -> BareDcId dc <> 0;
  net_line : forall dc r id ref, sessions n !! dc = Some r -> toSend (tb (base r)) !! id = Some ref ->
    exists d, objects n !! ref = Some d /\ requestId d = id;
  net_after : forall ref d a, objects n !! ref = Some d -> after d = Some a -> is_Some (objects n !! a);
  net_logouts : forall dc, is_Some (logoutGuestRequestIds n !! dc) -> kDcShift <= dc }.

Record rt_ok (n : network) (r : routing) : Prop := {
  rt_ids : forall id, is_Some (requestMap r !! id) <-> is_Some (requestsByDc r !! id);
  rt_object : forall id ref, requestMap r !! id = Some ref -> exists d, objects n !! ref = Some d /\ requestId d = id;
  rt_dc : forall id dc, requestsByDc r !! id = Some dc -> BareDcId (Z.abs dc) <> 0;
  rt_dependent : forall id, is_Some (dependentRequests r !! id) -> is_Some (requestMap r !! id);
  rt_delayed : by_time (delayedRequests r);
  rt_exports : forall id dc, authExportRequests r !! id = Some dc -> 0 <= dc }.

Record ok (i : instance) : Prop := { ok_net : net_ok (net i); ok_rt : rt_ok (net i) (rt i) }.

(** What giving requests to sessions keeps. *)
Record kept (n n' : network) : Prop := {
  kept_objects : forall ref d, objects n !! ref = Some d ->
    exists d', objects n' !! ref = Some d' /\ requestId d' = requestId d;
  kept_line : forall dc id, line n dc id -> line n' dc id;
  kept_sessions : forall dc, is_Some (sessions n !! dc) -> is_Some (sessions n' !! dc);
  kept_main : mainSession n' = mainSession n /\ mainDcId n' = mainDcId n }.

#[global] Instance kept_preorder : PreOrder kept.
Proof.
  split.
  - intros n. split; eauto.
  - intros n1 n2 n3 [A1 A2 A3 [A4 A5]] [B1 B2 B3 [B4 B5]]. split; [|eauto..|by split; etrans].
    intros ref d Hd. destruct (A1 ref d Hd) as (d1 & H1 & E1). destruct (B1 ref d1 H1) as (d2 & H2 & E2).
    exists d2. split; [done|congruence].
Qed.

Lemma rt_ok_kept (n n' : network) (r : routing) : kept n n' -> rt_ok n r -> rt_ok n' r.
Proof.
  intros Hk [H1 H2 H3 H4 H5 H6]. split; try done. intros id ref Hr. destruct (H2 id ref Hr) as (d & Hd & <-).
  by apply Hk.
Qed.

(** A program that only gives requests to sessions. *)
Definition net_run {A} (m : M instance A) (i : instance) (post : A -> network -> Prop) : Prop :=
  wp m (fun a i' => rt i' = rt i /\ globalRequestId i' = globalRequestId i
    /\ net_ok (net i') /\ kept (net i) (net i') /\ post a (net i')) i.

Lemma net_run_ret {A} (a : A) (i : instance) (post : A -> network -> Prop) :
  net_ok (net i) -> post a (net i) -> net_run (ret a) i post.
Proof. intros Hn Hp. apply wp_ret. by split_and!. Qed.

Lemma net_run_bind {A B} (m : M instance A) (k : A -> M instance B) (i : instance)
    (mid : A -> network -> Prop) (post : B -> network -> Prop) :
  net_run m i mid ->
  (forall a i', rt i' = rt i -> globalRequestId i' = globalRequestId i -> net_ok (net i') -> kept (net i) (net i') ->
    mid a (net i') -> net_run (k a) i' post) ->
  net_run (bind m k) i post.
Proof.
  intros Hm Hk. apply wp_bind. eapply wp_mono; [exact Hm|]. cbv beta. intros a i' (Hr & Hg & Hn & Hkp & Hp).
  eapply wp_mono; [by apply Hk|]. cbv beta. intros b i'' (Hr' & Hg' & Hn' & Hkp' & Hp').
  split_and!; [by rewrite Hr'|by rewrite Hg'|done|by etrans|done].
Qed.

Lemma net_run_mono {A} (m : M instance A) (i : instance) (post post' : A -> network -> Prop) :
  net_run m i post -> (forall a n, kept (net i) n -> net_ok n -> post a n -> post' a n) -> net_run m i post'.
Proof.
  intros Hm Hp. eapply wp_mono; [exact Hm|]. cbv beta. intros a i' (Hr & Hg & Hn & Hk & H). split_and!; auto.
Qed.

Lemma net_run_wp {A} (m : M instance A) (i : instance) (post : A -> network -> Prop) (Q : A -> instance -> Prop) :
  net_run m i post ->
  (forall a i', rt i' = rt i -> globalRequestId i' = globalRequestId i -> net_ok (net i') -> kept (net i) (net i') ->
    post a (net i') -> Q a i') ->
  wp m Q i.
Proof. intros Hm HQ. eapply wp_mono; [exact Hm|]. cbv beta. intros a i' (Hr & Hg & Hn & Hk & H). auto. Qed.

(** Reading the tables. *)
Lemma wp_query {A} (id : Z) (k : option Z -> M instance A) (Q : A -> instance -> Prop) (i : instance) :
  wp (k (requestsByDc (rt i) !! id)) Q i -> wp (bind (queryRequestByDc id) k) Q i.
Proof. done. Qed.
Lemma wp_request {A} (id : Z) (k : option Z -> M instance A) (Q : A -> instance -> Prop) (i : instance) :
  wp (k (requestMap (rt i) !! id)) Q i -> wp (bind (getRequest id) k) Q i.
Proof. done. Qed.
Lemma wp_table {A B} (f : routing -> A) (k : A -> M instance B) (Q : B -> instance -> Prop) (i : instance) :
  wp (k (f (rt i))) Q i -> wp (bind (table f) k) Q i.
Proof. done. Qed.
Lemma wp_update {A} (f : routing -> routing) (k : unit -> M instance A) (Q : A -> instance -> Prop) (i : instance) :
  wp (k tt) Q (set_rt f i) -> wp (bind (update f) k) Q i.
Proof. done. Qed.
(** ** Request objects *)

Lemma kept_set_objects (n : network) (ref : Z) (d : RequestData) :
  (forall d0, objects n !! ref = Some d0 -> requestId d = requestId d0) ->
  kept n (set_objects (<[ref := d]> (objects n)) n).
Proof.
  intros Hd. split; try done. intros r d0 H0. simpl. destruct (decide (r = ref)) as [->|].
  - rewrite lookup_insert_eq. exists d. auto.
  - rewrite lookup_insert_ne by done. eauto.
Qed.

Lemma net_ok_set_objects (n : network) (ref : Z) (d : RequestData) : net_ok n ->
  (forall d0, objects n !! ref = Some d0 -> requestId d = requestId d0) ->
  (forall a, after d = Some a -> is_Some (<[ref := d]> (objects n) !! a)) ->
  net_ok (set_objects (<[ref := d]> (objects n)) n).
Proof.
  intros Hn Hd Ha. pose proof (kept_set_objects n ref d Hd) as Hk. destruct Hn as [H1 H2 H3 H4 H5]. split; [done|done| | |done].
  - intros dc r id x Hr Hx. destruct (H3 dc r id x Hr Hx) as (d0 & H0 & <-). by apply Hk.
  - simpl. intros x d' a Hx Ea. destruct (decide (x = ref)) as [->|Hne].
    + rewrite lookup_insert_eq in Hx. injection Hx as <-. by apply Ha.
    + rewrite lookup_insert_ne in Hx by done. apply lookup_insert_is_Some'. right. by eapply H4.
Qed.

Lemma wp_object (ref : Z) (d : RequestData) (Q : RequestData -> instance -> Prop) (i : instance) :
  objects (net i) !! ref = Some d -> Q d i -> wp (object ref) Q i.
Proof. unfold wp, object. by intros ->. Qed.

Lemma change_object_run (ref : Z) (d : RequestData) (f : RequestData -> RequestData) (i : instance) :
  net_ok (net i) -> objects (net i) !! ref = Some d -> requestId (f d) = requestId d ->
  (forall a, after (f d) = Some a -> is_Some (objects (net i) !! a)) ->
  net_run (change_object ref f) i (fun _ n => objects n = <[ref := f d]> (objects (net i)) /\ sessions n = sessions (net i)).
Proof.
  intros Hn Hd Hi Ha. unfold net_run, change_object. apply wp_bind, (wp_object ref d); [done|].
  apply wp_modify. simpl.
  assert (forall d0, objects (net i) !! ref = Some d0 -> requestId (f d) = requestId d0) as Hs by congruence.
  split_and!; try done; [|by apply kept_set_objects].
  apply net_ok_set_objects; [done|done|]. intros a Ea. apply lookup_insert_is_Some'. right. auto.
Qed.

(** ** Sessions *)

(** A session that took a request in line. *)
Lemma taken_in_line (n : network) (dc ref : Z) (d : RequestData) (r r' : receiver) :
  net_ok n -> sessions n !! dc = Some r -> objects n !! ref = Some d ->
  toSend (tb (base r')) = emplace (requestId d) ref (toSend (tb (base r))) ->
  net_ok (set_sessions (<[dc := r']> (sessions n)) n)
  /\ kept n (set_sessions (<[dc := r']> (sessions n)) n)
  /\ line (set_sessions (<[dc := r']> (sessions n)) n) dc (requestId d).
Proof.
  intros Hn Hr Hd Et. split_and!.
  - destruct Hn as [H1 H2 H3 H4 H5]. split; simpl.
    + destruct H1 as (m & E & Hm & Hp). exists m. split_and!; [done| |done]. apply lookup_insert_is_Some'. by right.
    + intros x Hx. apply H2. apply lookup_insert_is_Some' in Hx as [<-|Hx]; [by exists r|done].
    + intros x rx id y Hx Hy. destruct (decide (x = dc)) as [->|]; [|rewrite lookup_insert_ne in Hx by done; by eapply H3].
      rewrite lookup_insert_eq in Hx. injection Hx as <-. rewrite Et in Hy.
      destruct (decide (id = requestId d)) as [->|]; [|rewrite lookup_emplace_ne in Hy by done; by eapply H3].
      rewrite lookup_emplace_eq in Hy. destruct (toSend (tb (base r)) !! requestId d) eqn:Eo; injection Hy as <-; [by eapply H3|].
      by exists d.
    + done.
    + done.
  - split; simpl; [eauto| |intros x Hx; apply lookup_insert_is_Some'; by right|done].
    intros x id (rx & Hx & Hid). destruct (decide (x = dc)) as [->|]; [|exists rx; simpl; by rewrite lookup_insert_ne].
    exists r'. simpl. rewrite lookup_insert_eq. split; [done|]. rewrite Et. replace rx with r in Hid by congruence.
    unfold emplace. destruct (toSend (tb (base r)) !! requestId d); [done|]. apply lookup_insert_is_Some'. by right.
  - exists r'. simpl. rewrite lookup_insert_eq, Et, lookup_emplace_eq. eauto.
Qed.

Lemma send_prepared_run (dc ref ms : Z) (d : RequestData) (i : instance) :
  net_ok (net i) -> is_Some (sessions (net i) !! dc) -> objects (net i) !! ref = Some d ->
  net_run (send_prepared dc ref ms) i (fun _ n => line n dc (requestId d)).
Proof.
  intros Hn [r Hr] Hd. unfold net_run, wp, send_prepared, in_session. rewrite Hr.
  unfold inside, sendPrepared, bind, deref. cbn [base lend set_base set_tb tb set_heap heap]. rewrite Hd.
  set (b := put_at 6 _ _).
  set (n1 := set_objects (<[ref := with_buffer b d]> (objects (net i))) (net i)).
  assert (net_ok n1 /\ kept (net i) n1) as [Hn1 Hk1].
  { assert (forall d0, objects (net i) !! ref = Some d0 -> requestId (with_buffer b d) = requestId d0) as Hs
      by (intros d0; rewrite Hd; by intros [= <-]).
    split; [|by apply kept_set_objects]. apply net_ok_set_objects; [done|done|].
    intros a Ea. apply lookup_insert_is_Some'. right. by eapply (net_after _ Hn ref d). }
  pose proof (fun r' => taken_in_line n1 dc ref (with_buffer b d) r r' Hn1 Hr (lookup_insert_eq _ _ _)) as H2.
  destruct (0 <=? ms); cbn [ret modify store tell set_base lend base set_tb tb set_heap heap set_toSend toSend rt globalRequestId net set_net];
    (split_and!; [done|done|eapply (fun r' E => proj1 (H2 r' E))|etrans; [exact Hk1|]; eapply (fun r' E => proj1 (proj2 (H2 r' E)))
      |eapply (fun r' E => proj2 (proj2 (H2 r' E)))]); reflexivity.
Qed.

Lemma send_prepared_others (dc ref ms x : Z) (i i' : instance) (u : unit) :
  send_prepared dc ref ms i = Some (u, i') -> x <> dc -> sessions (net i') !! x = sessions (net i) !! x.
Proof.
  unfold send_prepared, in_session. intros E Hne. destruct (sessions (net i) !! dc); [|done].
  destruct (inside _ _) as [[? r']|]; [|done]. injection E as _ <-. simpl. by rewrite lookup_insert_ne.
Qed.

(** No session has a request in line that it had not. *)
Definition lines_from (n n' : network) : Prop := forall dc r id ref, sessions n' !! dc = Some r ->
  toSend (tb (base r)) !! id = Some ref -> exists r0, sessions n !! dc = Some r0 /\ toSend (tb (base r0)) !! id = Some ref.

(** What starting sessions leaves as it was. *)
Definition started (n n' : network) : Prop := objects n' = objects n /\ lines_from n n'.

Lemma started_same (n n' : network) : objects n' = objects n -> sessions n' = sessions n -> started n n'.
Proof. intros E1 E2. split; [done|]. intros dc r id ref. rewrite E2. eauto. Qed.

Lemma started_trans (n1 n2 n3 : network) : started n1 n2 -> started n2 n3 -> started n1 n3.
Proof.
  intros [E1 L1] [E2 L2]. split; [by rewrite E2|]. intros dc r id ref Hr Hid.
  destruct (L2 dc r id ref Hr Hid) as (r2 & Hr2 & Hid2). by apply (L1 dc r2).
Qed.

(** Changes of what the invariant does not look at. *)
Lemma same_net_ok (n n' : network) : objects n' = objects n -> sessions n' = sessions n -> mainSession n' = mainSession n ->
  logoutGuestRequestIds n' = logoutGuestRequestIds n -> net_ok n -> net_ok n'.
Proof. intros E1 E2 E3 E4 [H1 H2 H3 H4 H5]. split; rewrite ?E1, ?E2, ?E3, ?E4; done. Qed.

Lemma same_kept (n n' : network) : objects n' = objects n -> sessions n' = sessions n -> mainSession n' = mainSession n ->
  mainDcId n' = mainDcId n -> kept n n'.
Proof. intros E1 E2 E3 E4. split; unfold line; rewrite ?E1, ?E2, ?E3, ?E4; eauto. Qed.

Lemma getDcById_eq (dc : Z) (i : instance) : exists v dcs, getDcById dc i = Some (v, set_net (set_dcenters dcs) i).
Proof.
  unfold getDcById, bind, gets, addDc, modify. destruct (dcenters (net i) !! dc).
  - exists dc, (dcenters (net i)). by destruct i as [[]].
  - destruct (if negb (dcFor dc =? dc) then _ else None).
    + exists (dcFor dc), (dcenters (net i)). by destruct i as [[]].
    + by eexists _, _.
Qed.

Lemma emplace_session (n : network) (dc : Z) : net_ok n -> BareDcId dc <> 0 ->
  net_ok (set_sessions (emplace dc Session_new (sessions n)) n)
  /\ kept n (set_sessions (emplace dc Session_new (sessions n)) n)
  /\ started n (set_sessions (emplace dc Session_new (sessions n)) n).
Proof.
  intros [H1 H2 H3 H4 H5] Hdc.
  assert (lines_from n (set_sessions (emplace dc Session_new (sessions n)) n)) as Hl.
  { intros x r id ref Hx Hid. simpl in Hx. destruct (decide (dc = x)) as [<-|].
    - rewrite lookup_emplace_eq in Hx. destruct (sessions n !! dc) as [r0|] eqn:E; injection Hx as <-; [by exists r0|done].
    - rewrite lookup_emplace_ne in Hx by done. eauto. }
  assert (forall x, is_Some (sessions n !! x) -> emplace dc Session_new (sessions n) !! x = sessions n !! x) as He.
  { intros x [r Hr]. destruct (decide (dc = x)) as [<-|]; [by rewrite lookup_emplace_eq, Hr|by rewrite lookup_emplace_ne]. }
  split; [split; simpl|split; [split; simpl|done]].
  - destruct H1 as (m & E & Hm & Hp). exists m. by rewrite He.
  - intros x Hx. destruct (decide (dc = x)) as [<-|]; [done|]. rewrite lookup_emplace_ne in Hx by done. auto.
  - intros x r id ref Hx Hid. destruct (Hl x r id ref Hx Hid) as (r0 & Hr0 & Hid0). by eapply H3.
  - done.
  - done.
  - eauto.
  - intros x id (r & Hr & Hid). exists r. split; [|done]. simpl. by rewrite He.
  - intros x Hx. by rewrite He.
  - done.
Qed.

Lemma startSession_eq (dc : Z) (i : instance) : BareDcId dc <> 0 -> exists dcs c,
  startSession dc i = Some (dc, mk_instance
    (set_sessions (emplace dc Session_new (sessions (net i))) (set_dcenters dcs (net i))) (rt i) (globalRequestId i) c).
Proof.
  intros Hdc. unfold startSession. rewrite (proj2 (Z.eqb_neq _ _) Hdc).
  destruct (getDcById_eq dc i) as (v & dcs & E). unfold bind at 1. rewrite E. by eexists _, _.
Qed.

Lemma startSession_run (dc : Z) (i : instance) : net_ok (net i) -> BareDcId dc <> 0 ->
  net_run (startSession dc) i (fun s n => s = dc /\ is_Some (sessions n !! dc) /\ started (net i) n).
Proof.
  intros Hn Hdc. destruct (startSession_eq dc i Hdc) as (dcs & c & E).
  assert (net_ok (set_dcenters dcs (net i))) as Hn1 by (by apply (same_net_ok (net i))).
  assert (kept (net i) (set_dcenters dcs (net i))) as Hk1 by (by apply same_kept).
  destruct (emplace_session (set_dcenters dcs (net i)) dc Hn1 Hdc) as (Ha & Hb & Hc).
  unfold net_run, wp. rewrite E. split_and!; [done|done|done|by etrans|done| |done].
  simpl. rewrite lookup_emplace_eq. eauto.
Qed.

Lemma findOrStart_run (dc : Z) (i : instance) : net_ok (net i) -> BareDcId dc <> 0 ->
  net_run (findOrStart dc) i (fun s n => s = dc /\ is_Some (sessions n !! dc) /\ started (net i) n).
Proof.
  intros Hn Hdc. unfold findOrStart, net_run. apply wp_bind, wp_gets.
  destruct (sessions (net i) !! dc) eqn:E; [|by apply startSession_run].
  apply wp_ret. split_and!; try done. by apply started_same.
Qed.

(** Where a request to [dc] goes. *)
Definition targets (dc s : Z) (n : network) : Prop :=
  is_Some (sessions n !! s) /\ BareDcId s <> 0
  /\ (dc = 0 -> mainSession n = Some s) /\ (BareDcId dc <> 0 -> s = dc).

Lemma bare_plain (m : Z) : plain m -> BareDcId m = m.
Proof. unfold plain, BareDcId, crem, kDcShift. intros. apply Z.rem_small. lia. Qed.

Lemma bare_zero : BareDcId 0 = 0.
Proof. done. Qed.

Lemma getSession_run (dc : Z) (i : instance) : net_ok (net i) -> 0 <= dc \/ BareDcId dc <> 0 ->
  net_run (getSession dc) i (fun s n => targets dc s n /\ started (net i) n).
Proof.
  intros Hn Hdc. destruct (net_main _ Hn) as (m & Em & Hm & Hp). pose proof (bare_plain m Hp) as Eb.
  assert (net_run main_session i (fun s n => s = m /\ n = net i)) as Hmain.
  { unfold net_run, main_session. apply wp_bind, wp_gets. rewrite Em. by apply (wp_lift (Some m) m). }
  unfold getSession. destruct (Z.eqb_spec dc 0) as [->|Hne].
  - eapply net_run_mono; [exact Hmain|]. intros s n Hk _ [-> ->]. split; [|by apply started_same].
    split_and!; [done|rewrite Eb; unfold plain in Hp; lia|done|done].
  - destruct (Z.eqb_spec (BareDcId dc) 0) as [E0|E0].
    + eapply net_run_bind; [exact Hmain|]. intros s i' _ _ Hn' _ [-> En].
      assert (BareDcId (dc + BareDcId m) <> 0) as Hb.
      { rewrite Eb. destruct Hdc as [Hdc|]; [|done]. unfold plain, BareDcId, crem, kDcShift in *.
        apply Z.rem_divide in E0 as [k ->]; [|done]. rewrite Z.add_comm, Z.rem_add by nia.
        rewrite Z.rem_small; lia. }
      eapply net_run_mono; [by apply findOrStart_run|]. intros s n _ _ (-> & Hs & Eo). rewrite En in Eo. by split_and!.
    + eapply net_run_mono; [by apply findOrStart_run|]. intros s n _ _ (-> & Hs & Eo). by split_and!.
Qed.

(** A request given to the session for [dc]. *)
Lemma hand_over_run (dc ref ms : Z) (d : RequestData) (i : instance) :
  net_ok (net i) -> 0 <= dc \/ BareDcId dc <> 0 -> objects (net i) !! ref = Some d ->
  net_run (session <- getSession dc ;; send_prepared session ref ms) i
    (fun _ n => exists s, targets dc s n /\ line n s (requestId d)).
Proof.
  intros Hn Hdc Hd. eapply net_run_bind; [by apply getSession_run|]. intros s i' _ _ Hn' _ [Ht [Eo _]].
  eapply net_run_mono; [apply (send_prepared_run s ref ms d); [done|apply Ht|by rewrite Eo]|].
  intros [] n Hk Hn2 Hl. exists s. split; [|done]. destruct Ht as (H1 & H2 & H3 & H4). destruct (kept_main _ _ Hk) as [E _].
  split_and!; [by apply (kept_sessions _ _ Hk)|done|by rewrite E|done].
Qed.

Lemma in_line_kept (n n' : network) (id : Z) : kept n n' -> in_line n id -> in_line n' id.
Proof. intros Hk [dc Hl]. exists dc. by apply Hk. Qed.

Lemma abs_target (dc : Z) : 0 <= Z.abs dc \/ BareDcId (Z.abs dc) <> 0.
Proof. left. lia. Qed.

(** ** Requests that leave the tables *)

Lemma resend_loop_run (ids : list Z) (i : instance) : ok i ->
  net_run (resendLoop ids) i (fun _ n => forall id, id ∈ ids -> is_Some (requestMap (rt i) !! id) -> in_line n id).
Proof.
  revert i. induction ids as [|id ids IH]; intros i [Hn Hr]; cbn [resendLoop].
  - apply net_run_ret; [done|]. by intros id ?%not_elem_of_nil.
  - destruct (requestMap (rt i) !! id) as [ref|] eqn:Href.
    + destruct (proj1 (rt_ids _ _ Hr id)) as [dc Edc]; [by rewrite Href|].
      destruct (rt_object _ _ Hr id ref Href) as (d & Hd & Eid).
      apply wp_query. rewrite Edc. apply wp_request. rewrite Href. apply wp_assoc.
      refine (net_run_bind _ _ i _ (fun _ n => forall x, x ∈ id :: ids -> is_Some (requestMap (rt i) !! x) -> in_line n x)
        (hand_over_run (Z.abs dc) ref 0 d i Hn (abs_target dc) Hd) _).
      intros [] i' Er _ Hn' Hk (s & _ & Hl).
      eapply net_run_mono; [apply IH; split; rewrite ?Er; [done|by eapply rt_ok_kept]|].
      intros [] n Hk' _ Hin x [->|Hx]%elem_of_cons Hs; [|apply Hin; by rewrite ?Er].
      apply (in_line_kept (net i')); [done|]. exists s. by rewrite <- Eid.
    + assert (requestsByDc (rt i) !! id = None) as Edc
        by (apply eq_None_not_Some; rewrite <- (rt_ids _ _ Hr id), Href; by intros [? ?]).
      apply wp_query. rewrite Edc.
      eapply net_run_wp; [by apply IH|]. intros [] i' Er Eg Hn' Hk Hin. split_and!; try done.
      intros x [->|Hx]%elem_of_cons Hs; [rewrite Href in Hs; by destruct Hs|by apply Hin].
Qed.

(** The tables without request [id], and without the dependent requests [gone]. *)
Definition without (id : Z) (gone : gset Z) (r : routing) : routing :=
  mk_routing (delete id (requestsByDc r)) (authExportRequests r) (parserMap r) (delete id (requestMap r))
    (delayedRequests r) (remove_all gone (dependentRequests r)) (delete id (requestsDelays r))
    (badGuestDcRequests r) (authWaiters r).

Lemma rt_ok_without (n : network) (id : Z) (gone : gset Z) (r : routing) :
  rt_ok n r -> id ∈ gone -> rt_ok n (without id gone r).
Proof.
  intros [H1 H2 H3 H4 H5 H6] Hid. split; simpl; [| | | |done|done].
  - intros x. rewrite !lookup_delete_is_Some. split; intros [? ?%H1]; done.
  - intros x ref [? Hx]%lookup_delete_Some. by apply H2.
  - intros x dc [? Hx]%lookup_delete_Some. by eapply H3.
  - intros x. rewrite lookup_remove_all. case_decide as Hx; [by intros [? ?]|]. intros Hs.
    apply lookup_delete_is_Some. split; [by intros ->|by apply H4].
Qed.

(** Unregistering a request: its entries are gone, and all that waited for it,
    directly or through others, is in line again. *)
Lemma unregister_run (id : Z) (i : instance) : ok i ->
  wp (unregisterRequest id) (fun _ i' => ok i' /\ kept (net i) (net i') /\ globalRequestId i' = globalRequestId i
    /\ exists gone, (forall x, x ∈ gone <-> x = id \/ tc (waits (dependentRequests (rt i))) x id)
       /\ rt i' = without id gone (rt i)
       /\ forall x, x ∈ gone -> x <> id -> in_line (net i') x) i.
Proof.
  intros [Hn Hr]. unfold unregisterRequest. do 3 apply wp_update. apply wp_table. cbn [rt set_rt set_byDc set_requests set_delays dependentRequests].
  destruct (closure_all id (dependentRequests (rt i))) as (s & Es & E1 & E2).
  apply wp_bind, (wp_lift _ s); [exact Es|]. apply wp_update.
  assert (forall x, x ∈ s.1 <-> x = id \/ tc (waits (dependentRequests (rt i))) x id) as Hg
    by (intros x; by rewrite E1, elem_of_union, elem_of_singleton, E2).
  assert (rt_ok (net i) (without id s.1 (rt i))) as Hr' by (apply rt_ok_without; [done|]; apply Hg; by left).
  eapply net_run_wp; [apply (resend_loop_run _ (mk_instance (net i) (without id s.1 (rt i)) (globalRequestId i) (calls i))); by split|].
  intros [] i' Er Eg Hn' Hk Hl. split_and!; [split; rewrite ?Er; [done|by eapply rt_ok_kept]|done|done|].
  exists s.1. split_and!; [done|done|]. intros x Hx Hne. apply Hl.
  - apply elem_of_sorted_elements, E2. apply Hg in Hx as [?|?]; done.
  - apply lookup_delete_is_Some. split; [done|]. apply (rt_dependent _ _ Hr).
    apply Hg in Hx as [?|Hx]; [done|]. unfold waits in Hx. destruct Hx; eauto.
Qed.

(** ** New requests *)

(** No table knows the object [ref]. *)
Definition loose (ref : Z) (n : network) (r : routing) : Prop :=
  (forall dc s id, sessions n !! dc = Some s -> toSend (tb (base s)) !! id <> Some ref)
  /\ forall id, requestMap r !! id <> Some ref.

(** Two states of a network, but for one object. *)
Record kept_but (ref : Z) (n n' : network) : Prop := {
  but_objects : forall x d, x <> ref -> objects n !! x = Some d ->
    exists d', objects n' !! x = Some d' /\ requestId d' = requestId d;
  but_line : forall dc id, line n dc id -> line n' dc id;
  but_sessions : forall dc, is_Some (sessions n !! dc) -> is_Some (sessions n' !! dc);
  but_main : mainSession n' = mainSession n /\ mainDcId n' = mainDcId n }.

Lemma kept_kept_but (ref : Z) (n1 n2 n3 : network) : kept_but ref n1 n2 -> kept n2 n3 -> kept_but ref n1 n3.
Proof.
  intros [A1 A2 A3 [A4 A5]] [B1 B2 B3 [B4 B5]]. split; [|by eauto..|by split; etrans].
  intros x d Hx Hd. destruct (A1 x d Hx Hd) as (d1 & H1 & E1). destruct (B1 x d1 H1) as (d2 & H2 & E2).
  exists d2. split; [done|congruence].
Qed.

Lemma kept_but_fresh (ref : Z) (n n' : network) : objects n !! ref = None -> kept_but ref n n' -> kept n n'.
Proof. intros Hf [A1 A2 A3 A4]. split; [|done..]. intros x d Hd. apply A1; [|done]. intros ->. congruence. Qed.

Lemma loose_set_object (ref : Z) (d : RequestData) (n : network) : net_ok n ->
  (forall dc s id, sessions n !! dc = Some s -> toSend (tb (base s)) !! id <> Some ref) ->
  (forall a, after d = Some a -> is_Some (<[ref := d]> (objects n) !! a)) ->
  net_ok (set_objects (<[ref := d]> (objects n)) n) /\ kept_but ref n (set_objects (<[ref := d]> (objects n)) n).
Proof.
  intros [H1 H2 H3 H4 H5] Hl Ha. split; [split|split]; simpl; try done.
  - intros dc r id x Hr Hx. destruct (H3 dc r id x Hr Hx) as (d0 & H0 & E). exists d0.
    rewrite lookup_insert_ne; [done|]. intros <-. by eapply Hl.
  - intros x d' a Hx Ea. destruct (decide (x = ref)) as [->|Hne].
    + rewrite lookup_insert_eq in Hx. injection Hx as <-. by apply Ha.
    + rewrite lookup_insert_ne in Hx by done. apply lookup_insert_is_Some'. right. by eapply H4.
  - intros x d0 Hx Hd. exists d0. by rewrite lookup_insert_ne.
Qed.

(** The tables after request [id], the object [ref], is sent to session [dc]. *)
Definition sent_to (id ref dc : Z) (h : ResponseHandler) (r : routing) : routing :=
  mk_routing (<[id := dc]> (requestsByDc r)) (authExportRequests r)
    (if bool_decide (is_Some (on_done h)) || bool_decide (is_Some (on_fail h)) then emplace id h (parserMap r) else parserMap r)
    (emplace id ref (requestMap r)) (delayedRequests r) (dependentRequests r) (requestsDelays r)
    (badGuestDcRequests r) (authWaiters r).

Lemma rt_ok_sent (n : network) (id ref dc : Z) (d : RequestData) (h : ResponseHandler) (r : routing) :
  rt_ok n r -> objects n !! ref = Some d -> requestId d = id -> BareDcId (Z.abs dc) <> 0 ->
  rt_ok n (sent_to id ref dc h r).
Proof.
  intros [H1 H2 H3 H4 H5 H6] Hd Hid Hdc. split; simpl; [| | | |done|done].
  - intros x. destruct (decide (id = x)) as [<-|].
    + rewrite lookup_emplace_eq, lookup_insert_eq. split; intros _; eauto.
    + by rewrite lookup_emplace_ne, lookup_insert_ne.
  - intros x y. destruct (decide (id = x)) as [<-|]; [|rewrite lookup_emplace_ne by done; apply H2].
    rewrite lookup_emplace_eq. destruct (requestMap r !! id) eqn:E; intros [= <-]; [by apply H2|eauto].
  - intros x y. destruct (decide (id = x)) as [<-|]; [|rewrite lookup_insert_ne by done; apply H3].
    rewrite lookup_insert_eq. by intros [= <-].
  - intros x Hx%H4. destruct (decide (id = x)) as [<-|]; [|by rewrite lookup_emplace_ne].
    rewrite lookup_emplace_eq. eauto.
Qed.

Lemma abs_bare (s : Z) : BareDcId (Z.abs s) <> 0 <-> BareDcId s <> 0.
Proof.
  unfold BareDcId, crem. destruct (Z.abs_eq_or_opp s) as [->| ->]; [done|].
  rewrite Z.rem_opp_l by done. lia.
Qed.

(** What a request sent leaves: its entries, and the request in line. *)
Definition request_sent (id ref : Z) (h : ResponseHandler) (shiftedDcId : Z) (i i' : instance) : Prop :=
  ok i' /\ kept_but ref (net i) (net i') /\ globalRequestId i' = globalRequestId i
  /\ exists s, targets shiftedDcId s (net i') /\ line (net i') s id
     /\ rt i' = sent_to id ref (if shiftedDcId =? 0 then - s else s) h (rt i).

Lemma kept_but_kept (ref : Z) (n1 n2 n3 : network) : kept n1 n2 -> kept_but ref n2 n3 -> kept_but ref n1 n3.
Proof.
  intros [A1 A2 A3 [A4 A5]] [B1 B2 B3 [B4 B5]]. split; [|by eauto..|by split; etrans].
  intros x d Hx Hd. destruct (A1 x d Hd) as (d1 & H1 & E1). destruct (B1 x d1 Hx H1) as (d2 & H2 & E2).
  exists d2. split; [done|congruence].
Qed.

Lemma rt_ok_but (ref : Z) (n n' : network) (r : routing) : kept_but ref n n' ->
  (forall id, requestMap r !! id <> Some ref) -> rt_ok n r -> rt_ok n' r.
Proof.
  intros Hk Hl [H1 H2 H3 H4 H5 H6]. split; try done. intros id x Hx. destruct (H2 id x Hx) as (d & Hd & <-).
  apply Hk; [|done]. intros ->. by apply (Hl (requestId d)).
Qed.

Lemma targets_kept (dc s : Z) (n n' : network) : kept n n' -> targets dc s n -> targets dc s n'.
Proof.
  intros Hk (H1 & H2 & H3 & H4). destruct (kept_main _ _ Hk) as [Em _]. split_and!; [by apply Hk|done|by rewrite Em|done].
Qed.

Lemma wp_store {A} (id ref dc : Z) (h : ResponseHandler) (k : M instance A) (Q : A -> instance -> Prop) (i : instance) :
  wp k Q (set_rt (sent_to id ref dc h) i) -> wp (storeRequest id ref h ;;; registerRequest id dc ;;; k) Q i.
Proof.
  unfold storeRequest, wp, bind, registerRequest, update, modify, set_rt, sent_to.
  by destruct (bool_decide (is_Some (on_done h)) || bool_decide (is_Some (on_fail h)))%bool.
Qed.

(** The request to be sent after, if there is one. *)
Lemma set_after_run (ref after_ : Z) (d : RequestData) (i : instance) : ok i -> objects (net i) !! ref = Some d ->
  net_run (if negb (after_ =? 0) then a <- getRequest after_ ;; change_object ref (with_after a) else ret tt) i
    (fun _ n => sessions n = sessions (net i) /\ exists d', objects n !! ref = Some d' /\ requestId d' = requestId d).
Proof.
  intros [Hn Hr] Hd. destruct (negb (after_ =? 0)); [|apply net_run_ret; [done|]; by eauto].
  apply wp_request. eapply net_run_wp.
  - apply (change_object_run ref d); [done|done|done|]. cbn [after with_after]. intros a Ea.
    destruct (rt_object _ _ Hr after_ a Ea) as (d0 & H0 & _). by exists d0.
  - intros [] i' E1 E2 Hn' Hk' [Eo' Es']. split_and!; try done.
    eexists. rewrite Eo'. split; [by rewrite lookup_insert_eq|done].
Qed.

(** The last steps of sending a request. *)
Lemma finish_run (now s ref ms after_ : Z) (layer : bool) (d : RequestData) (i : instance) :
  ok i -> is_Some (sessions (net i) !! s) -> objects (net i) !! ref = Some d ->
  net_run ((if negb (after_ =? 0) then a <- getRequest after_ ;; change_object ref (with_after a) else ret tt) ;;;
    change_object ref (fun d => with_layer layer (with_sent_time now d)) ;;; send_prepared s ref ms) i
    (fun _ n => line n s (requestId d)).
Proof.
  intros Hi Hs Hd. eapply net_run_bind; [by apply (set_after_run ref after_ d)|]. cbv beta.
  intros [] i3 Er3 Eg3 Hn3 Hk3 (Es3 & d3 & Hd3 & Hid3).
  eapply net_run_bind; [apply (change_object_run ref d3); [done|done|done|]|].
  { intros a Ea. by eapply (net_after _ Hn3 ref d3). }
  cbv beta. intros [] i4 Er4 Eg4 Hn4 Hk4 [Eo4 Es4].
  eapply net_run_mono; [eapply (send_prepared_run s ref ms); [done| |]|].
  - by rewrite Es4, Es3.
  - rewrite Eo4. by rewrite lookup_insert_eq.
  - cbv beta. intros [] n _ _. cbn [requestId with_layer with_sent_time]. by rewrite Hid3.
Qed.

Lemma sendRequest_run (now id ref dc ms after_ : Z) (h : ResponseHandler) (layer : bool) (d : RequestData) (i : instance) :
  ok i -> objects (net i) !! ref = Some d -> loose ref (net i) (rt i) -> 0 <= dc \/ BareDcId dc <> 0 ->
  wp (sendRequest now id ref h dc ms layer after_) (fun _ i' => request_sent id ref h dc i i') i.
Proof.
  intros [Hn Hr] Hd [Hl1 Hl2] Hdc. unfold sendRequest. apply wp_bind.
  eapply net_run_wp; [by apply getSession_run|]. cbv beta. intros s i1 Er Eg Hn1 Hk1 [Ht [Eo Hlf]].
  apply wp_bind. unfold change_object at 1. apply wp_bind, (wp_object ref d); [by rewrite Eo|]. apply wp_modify.
  destruct (loose_set_object ref (with_id id d) (net i1) Hn1) as [Hn2 Hk2].
  { intros x r y Hx Hy. destruct (Hlf x r y ref Hx Hy) as (r0 & H0 & H0'). by eapply Hl1. }
  { intros a Ea. apply lookup_insert_is_Some'. right. rewrite Eo. by eapply (net_after _ Hn ref d). }
  pose proof (kept_but_kept ref _ _ _ Hk1 Hk2) as Hk.
  set (n2 := set_objects (<[ref := with_id id d]> (objects (net i1))) (net i1)) in *.
  set (signed := if dc =? 0 then - s else s). apply (wp_store id ref signed h).
  set (i2 := set_rt (sent_to id ref signed h) (set_net (fun n => set_objects (<[ref := with_id id d]> (objects n)) n) i1)).
  assert (ok i2) as Hi2.
  { split; [done|]. simpl. rewrite Er. apply (rt_ok_sent n2 id ref signed (with_id id d)); [by eapply rt_ok_but|simpl; by rewrite lookup_insert_eq|done|].
    apply abs_bare. destruct Ht as (_ & Hb & _). unfold signed. destruct (dc =? 0); [|done].
    unfold BareDcId, crem in *. rewrite Z.rem_opp_l by done. lia. }
  eapply net_run_wp; [apply (finish_run now s ref ms after_ layer (with_id id d) i2); [done|apply Ht|]|].
  { simpl. by rewrite lookup_insert_eq. }
  cbv beta. intros [] i5 Er5 Eg5 Hn5 Hk5 Hl5.
  split_and!; [split; [done|rewrite Er5; eapply rt_ok_kept; [exact Hk5|apply Hi2]]|by eapply kept_kept_but|by rewrite Eg5|].
  exists s. split_and!; [by eapply targets_kept|done|]. rewrite Er5. simpl. by rewrite Er.
Qed.

(** [Instance::send]: the id is the next one. *)
Lemma send_run (now dc ms after_ : Z) (body : list Z) (h : ResponseHandler) (i : instance) :
  ok i -> body <> [] -> 0 <= dc \/ BareDcId dc <> 0 ->
  wp (send now body h dc ms after_) (fun id i' => ok i' /\ kept (net i) (net i') /\ id = globalRequestId i + 1
    /\ exists ref s, targets dc s (net i') /\ line (net i') s id
       /\ rt i' = sent_to id ref (if dc =? 0 then - s else s) h (rt i)) i.
Proof.
  intros [Hn Hr] Hb Hdc. unfold send. apply wp_bind. unfold GetNextRequestId, wp at 1. apply wp_bind.
  apply (wp_lift _ (replicate 7 0 ++ [wrapu 32 (Z.shiftl (Z.of_nat (length body)) 2)])).
  { unfold Prepare. rewrite (proj2 (Z.ltb_lt _ _)); [done|]. destruct body; [done|simpl; lia]. }
  apply wp_bind. unfold new_object, wp at 1. set (ref := default 0 (last_key _) + 1). cbn [net set_net objects].
  assert (objects (net i) !! ref = None) as Hf by apply next_key_fresh.
  set (d := mk_request _ _ _ _ _ _). set (n1 := set_objects (<[ref := d]> (objects (net i))) (net i)).
  assert (loose ref (net i) (rt i)) as Hl.
  { split.
    - intros x s y Hx Hy. destruct (net_line _ Hn x s y ref Hx Hy) as (d0 & H0 & _). congruence.
    - intros y Hy. destruct (rt_object _ _ Hr y ref Hy) as (d0 & H0 & _). congruence. }
  destruct (loose_set_object ref d (net i) Hn) as [Hn1 Hk1]; [apply Hl|done|].
  set (id := globalRequestId i + 1). set (i1 := set_net _ _).
  assert (ok i1) as Hi1 by (split; [done|eapply rt_ok_but; [exact Hk1|apply Hl|done]]).
  apply wp_bind. eapply wp_mono; [apply (sendRequest_run now id ref dc ms after_ h true d i1); [done|simpl; by rewrite lookup_insert_eq|done|done]|].
  cbv beta. intros [] i2 (Hi2 & Hk2 & _ & s & Ht & Hs & Er). apply wp_ret. split_and!; [done| |done|].
  - apply (kept_but_fresh ref); [done|]. destruct Hk1 as [A1 A2 A3 [A4 A5]], Hk2 as [B1 B2 B3 [B4 B5]].
    split; [|by eauto..|by split; etrans]. intros x y Hx Hy. destruct (A1 x y Hx Hy) as (y1 & H1 & E1).
    destruct (B1 x y1 Hx H1) as (y2 & H2 & E2). exists y2. split; [done|congruence].
  - by exists ref, s.
Qed.

(** ** Another main data center *)

Lemma destroy_eq (dc : Z) (i : instance) : exists c, scheduleSessionDestroy dc i = Some (tt,
  mk_instance (set_sessions (delete dc (sessions (net i))) (net i)) (rt i) (globalRequestId i) c).
Proof.
  unfold scheduleSessionDestroy, bind, gets. destruct (sessions (net i) !! dc) eqn:E; [by eexists|].
  exists (calls i). rewrite delete_id by done. by destruct i as [[]].
Qed.

(** The sessions that go when the main one changes. *)
Definition moved (old new : Z) (m : gmap Z receiver) : gmap Z receiver :=
  if decide (old = new) then m else <[new := Session_new]> (delete new (delete old m)).

Lemma setMainDcId_run (dc m : Z) (i : instance) : net_ok (net i) -> mainSession (net i) = Some m -> plain dc ->
  wp (setMainDcId dc) (fun _ i' => rt i' = rt i /\ globalRequestId i' = globalRequestId i /\ net_ok (net i')
    /\ objects (net i') = objects (net i) /\ mainSession (net i') = Some dc /\ mainDcId (net i') = dc
    /\ sessions (net i') = moved m dc (sessions (net i))) i.
Proof.
  intros Hn Em Hp. pose proof (bare_plain dc Hp) as Eb. unfold setMainDcId, moved.
  apply wp_bind, wp_gets. rewrite Em. apply wp_bind, wp_modify.
  destruct (Z.eqb_spec m dc) as [->|Hne]; simpl.
  - rewrite decide_True by done. apply wp_bind, wp_ret, wp_bind, wp_modify, wp_modify. simpl.
    split_and!; [done|done|by apply (same_net_ok (net i))|done|by rewrite Em|done|done].
  - rewrite decide_False by done. apply wp_bind.
    edestruct (destroy_eq m) as [c1 E1]. eapply wp_step; [exact E1|].
    edestruct (destroy_eq dc) as [c2 E2]. eapply wp_step; [exact E2|].
    edestruct (startSession_eq dc) as (dcs & c3 & E3); [unfold plain in Hp; lia|]. eapply wp_step; [exact E3|].
    apply wp_modify, wp_bind, wp_modify, wp_modify. simpl.
    rewrite (emplace_fresh dc) by apply lookup_delete_eq. split_and!; try done.
    assert (forall x r, <[dc := Session_new]> (delete dc (delete m (sessions (net i)))) !! x = Some r ->
      r = Session_new /\ x = dc \/ sessions (net i) !! x = Some r) as Hs.
    { intros x r [[<- <-]|[_ Hx]]%lookup_insert_Some; [by left|]. by apply lookup_delete_Some in Hx as [_ [_ ?]%lookup_delete_Some]; right. }
    split; simpl.
    + exists dc. split_and!; [done| |apply Hp..]. rewrite lookup_insert_eq. eauto.
    + intros x [r [[_ ->]|Hr]%Hs]; [unfold plain in Hp; lia|]. apply (net_bare _ Hn). eauto.
    + intros x r id ref [[-> ->]|Hr]%Hs Hid; [done|]. by eapply (net_line _ Hn).
    + apply (net_after _ Hn).
    + apply (net_logouts _ Hn).
Qed.

(** ** Requests put off *)

Lemma send_delayed_run (id : Z) (i : instance) : ok i ->
  net_run (sendDelayed id) i (fun _ n => is_Some (requestMap (rt i) !! id) -> in_line n id).
Proof.
  intros [Hn Hr]. unfold sendDelayed. apply wp_query.
  destruct (requestsByDc (rt i) !! id) as [dc|] eqn:Edc.
  - destruct (proj2 (rt_ids _ _ Hr id)) as [ref Href]; [by rewrite Edc|].
    destruct (rt_object _ _ Hr id ref Href) as (d & Hd & Eid). apply wp_request. rewrite Href.
    eapply net_run_wp; [by apply (hand_over_run _ ref 0 d); [|apply abs_target|]|].
    intros [] i' Er Eg Hn' Hk (s & _ & Hl). split_and!; try done. intros _. exists s. by rewrite <- Eid.
  - apply wp_ret. split_and!; try done. intros Hs. apply (rt_ids _ _ Hr) in Hs. rewrite Edc in Hs. by destruct Hs.
Qed.

(** The requests due are sent, those of the tables; the others stay. *)
Lemma delayed_loop_run (now : Z) (l : list (Z * Z)) (i : instance) : ok i -> delayedRequests (rt i) = l ->
  wp (delayedLoop now l) (fun _ i' => ok i' /\ kept (net i) (net i') /\ globalRequestId i' = globalRequestId i
    /\ rt i' = set_delayed (filter (fun x => now < x.2) l) (rt i)
    /\ forall x, x ∈ l -> x.2 <= now -> is_Some (requestMap (rt i) !! x.1) -> in_line (net i') x.1) i.
Proof.
  revert i. induction l as [|[id t] l IH]; intros i Hi El; cbn [delayedLoop].
  - apply wp_ret. split_and!; try done; [|by intros x ?%not_elem_of_nil].
    destruct i as [n [] g c]. simpl in *. by subst.
  - assert (by_time ((id, t) :: l)) as Hs by (rewrite <- El; apply Hi).
    inversion Hs as [|? ? Hs' Hall]; subst. destruct (Z.leb_spec t now) as [Hle|Hgt].
    + apply wp_update, wp_bind.
      assert (ok (set_rt (set_delayed l) i)) as Hi1 by (destruct Hi as [Hn [A1 A2 A3 A4 A5 A6]]; by split; [|split]).
      eapply net_run_wp; [by apply send_delayed_run|]. cbv beta. intros [] i2 Er Eg Hn2 Hk Hl.
      assert (ok i2) as Hi2 by (split; [done|rewrite Er; eapply rt_ok_kept; [exact Hk|apply Hi1]]).
      eapply wp_mono; [apply IH; [done|by rewrite Er]|]. cbv beta.
      intros [] i3 (H1 & H2 & H3 & H4 & H5). split_and!; [done|by etrans|by rewrite H3| |].
      * rewrite H4, Er. rewrite filter_cons_False by (simpl; lia). done.
      * intros x [->|Hx]%elem_of_cons Ht Hx'; [apply (in_line_kept (net i2)); auto|]. apply H5; [done|done|by rewrite Er].
    + apply wp_ret. split_and!; try done.
      * rewrite filter_cons_True by done. assert (filter (fun x : Z * Z => now < x.2) l = l) as ->.
        { clear -Hall Hgt. induction Hall as [|x l Hx _ IH]; [done|]. simpl in Hx. rewrite filter_cons_True by lia. by rewrite IH. }
        rewrite <- El. by destruct i as [? [] ? ?].
      * intros x [->|Hx]%elem_of_cons Ht _; simpl in *; [lia|]. rewrite Forall_forall in Hall. specialize (Hall x Hx). simpl in Hall. lia.
Qed.
