(* ===== verification/InstanceRetry.v ===== *)
(** * Errors and answers of the instance

    [Instance.onErrorDefault] branch by branch, and the handlers of the
    instance itself: each keeps the invariant, and a request that is to be sent
    again is in line or waits where it will be found. *)

From S2P Require Import Prelude StateMonad Text Ids Requests Session SessionFacts Receive Errors Dcenter Instance InstanceFacts.

Import Dc.

(** A request that the instance will send, or has sent, again. *)
Definition placed (i : instance) (id : Z) : Prop :=
  in_line (net i) id \/ (exists t, (id, t) ∈ delayedRequests (rt i))
  \/ is_Some (dependentRequests (rt i) !! id) \/ exists dc, id ∈ default [] (authWaiters (rt i) !! dc).

(** While the answer to [id] is handled its handler is taken out; *)
Definition settled (id : Z) (i : instance) : Prop := ok i /\ parserMap (rt i) !! id = None.
(** and the next id given is another one. *)
Definition ready (id : Z) (i : instance) : Prop := settled id i /\ id <= globalRequestId i.

Definition registered (id : Z) (i : instance) : Prop := is_Some (requestMap (rt i) !! id).

(** What callers' handlers are relied on for: they use the instance through its
    methods, which give other requests other ids; and one that leaves the answer
    or the error to the instance has not sent so many requests that ids start
    over, nor ended the request. *)
Class Handlers (e : surroundings) : Prop := {
  user_done_ready : forall n response i, ready (responseTo response) i ->
    wp (user_done e n response) (fun b i' => settled (responseTo response) i'
      /\ (b = false -> ready (responseTo response) i')) i;
  user_fail_ready : forall n error response i, ready (responseTo response) i ->
    wp (user_fail e n error response) (fun b i' => settled (responseTo response) i'
      /\ (b = false -> ready (responseTo response) i'
          /\ (registered (responseTo response) i -> registered (responseTo response) i'))) i;
  global_fail_ready : forall h error response i, globalFailHandler e = Some h -> ready (responseTo response) i ->
    wp (h error response) (fun _ => ready (responseTo response)) i;
  (* serialized requests begin with their constructors *)
  export_nonempty : forall dc, export_body e dc <> [];
  import_nonempty : forall id bytes, import_body e id bytes <> [];
  logout_nonempty : logout_body e <> [] }.

(** ** Changes of the tables alone *)

Lemma rt_ok_tables (n : network) (r r' : routing) :
  requestsByDc r' = requestsByDc r -> requestMap r' = requestMap r ->
  (forall id, is_Some (dependentRequests r' !! id) -> is_Some (requestMap r !! id)) ->
  by_time (delayedRequests r') -> (forall id dc, authExportRequests r' !! id = Some dc -> 0 <= dc) ->
  rt_ok n r -> rt_ok n r'.
Proof. intros E1 E2 H3 H4 H5 [A1 A2 A3 A4 A5 A6]. split; rewrite ?E1, ?E2; auto. Qed.

(** A change the invariant does not see. *)
Lemma rt_ok_same (n : network) (r r' : routing) :
  requestsByDc r' = requestsByDc r -> requestMap r' = requestMap r -> dependentRequests r' = dependentRequests r ->
  delayedRequests r' = delayedRequests r -> authExportRequests r' = authExportRequests r ->
  rt_ok n r -> rt_ok n r'.
Proof.
  intros E1 E2 E3 E4 E5 Hr. apply (rt_ok_tables n r); rewrite ?E3, ?E4, ?E5; try done; [apply (rt_dependent _ _ Hr)..| |apply (rt_exports _ _ Hr)].
  apply (rt_delayed _ _ Hr).
Qed.

Lemma ready_update (id : Z) (f : routing -> routing) (i : instance) : ready id i ->
  (rt_ok (net i) (rt i) -> rt_ok (net i) (f (rt i))) -> parserMap (f (rt i)) !! id = parserMap (rt i) !! id ->
  ready id (set_rt f i).
Proof. intros [[[Hn Hr] Hp] Hg] Hf E. split_and!; [split; [split; [done|by apply Hf]|by rewrite <- Hp]|done]. Qed.

Lemma settled_update (id : Z) (f : routing -> routing) (i : instance) : settled id i ->
  (rt_ok (net i) (rt i) -> rt_ok (net i) (f (rt i))) -> parserMap (f (rt i)) = parserMap (rt i) ->
  settled id (set_rt f i).
Proof. intros [[Hn Hr] Hp] Hf E. split; [split; [done|by apply Hf]|by rewrite <- Hp, <- E]. Qed.

(** From programs that give requests to sessions to [ready]. *)
Lemma ready_net (id : Z) (i i' : instance) : ready id i -> rt i' = rt i -> globalRequestId i' = globalRequestId i ->
  net_ok (net i') -> kept (net i) (net i') -> ready id i'.
Proof.
  intros [[[Hn Hr] Hp] Hg] Er Eg Hn' Hk.
  split; [split; [split; [done|rewrite Er; by eapply rt_ok_kept]|by rewrite Er]|by rewrite Eg].
Qed.

Lemma wp_waiting {A} (dc : Z) (k : list Z -> M instance A) (Q : A -> instance -> Prop) (i : instance) :
  wp (k (default [] (authWaiters (rt i) !! dc))) Q i -> wp (bind (waiting dc) k) Q i.
Proof. done. Qed.

(** What a branch promises: to keep the invariant, and to place the request
    when it says that it will be sent again. *)
Definition branch (id : Z) (m : M instance bool) (i : instance) : Prop :=
  wp m (fun b i' => settled id i' /\ if b : bool then registered id i -> placed i' id else ready id i') i.

Lemma branch_false (id : Z) (i : instance) : ready id i -> branch id (ret false) i.
Proof. intros Hi. apply wp_ret. split; [apply Hi|done]. Qed.

Lemma ready_ok (id : Z) (i : instance) : ready id i -> ok i.
Proof. intros [[? _] _]. done. Qed.

Section Branches.
Context {scheme : Scheme} (e : surroundings) {handlers : Handlers e}.

(** The entries of a request of the tables. *)
Lemma known (id : Z) (i : instance) : ok i ->
  match requestMap (rt i) !! id with
  | Some ref => (exists d, objects (net i) !! ref = Some d /\ requestId d = id)
      /\ exists dc, requestsByDc (rt i) !! id = Some dc /\ BareDcId (Z.abs dc) <> 0 /\ dc <> 0
  | None => requestsByDc (rt i) !! id = None
  end.
Proof.
  intros [Hn Hr]. destruct (requestMap (rt i) !! id) as [ref|] eqn:Er.
  - destruct (rt_object _ _ Hr id ref Er) as (d & Hd & Eid). split; [eauto|].
    destruct (proj1 (rt_ids _ _ Hr id)) as [dc Edc]; [by rewrite Er|].
    pose proof (rt_dc _ _ Hr id dc Edc) as Hb. exists dc. split_and!; [done|done|]. intros ->. by apply Hb.
  - apply eq_None_not_Some. rewrite <- (rt_ids _ _ Hr id), Er. by intros [? ?].
Qed.

(** *** [CONNECTION_NOT_INITED] *)
Lemma initAgain_branch (id : Z) (i : instance) : ready id i -> branch id (initAgain id) i.
Proof.
  intros Hi. unfold branch, initAgain. apply wp_request. pose proof (known id i (ready_ok id i Hi)) as Hk.
  destruct (requestMap (rt i) !! id) as [ref|] eqn:Er; [|by apply branch_false].
  destruct Hk as ((d & Hd & Eid) & dc & Edc & Hb & Hne). apply wp_query. rewrite Edc. simpl.
  rewrite (proj2 (Z.eqb_neq _ _) Hne). apply wp_bind.
  eapply net_run_wp; [apply getSession_run; [apply (ready_ok id i Hi)|apply abs_target]|]. cbv beta.
  intros s i1 Er1 Eg1 Hn1 Hk1 [Ht [Eo _]]. apply wp_bind.
  assert (objects (net i1) !! ref = Some d) as Hd1 by (by rewrite Eo).
  eapply net_run_wp; [apply (change_object_run ref d (with_layer true)); [done|done|done|]|].
  { intros a Ea. by eapply (net_after _ Hn1 ref d). }
  cbv beta. intros [] i2 Er2 Eg2 Hn2 Hk2 [Eo2 Es2]. apply wp_bind.
  eapply net_run_wp; [apply (send_prepared_run s ref 0 (with_layer true d)); [done| |by rewrite Eo2, lookup_insert_eq]|].
  { rewrite Es2. apply Ht. }
  cbv beta. intros [] i3 Er3 Eg3 Hn3 Hk3 Hl. apply wp_ret. split.
  - apply (ready_net id i2); [apply (ready_net id i1); [by apply (ready_net id i)|..]|..]; done.
  - intros _. left. exists s. simpl in Hl. by rewrite <- Eid.
Qed.

(** *** [*_MIGRATE] *)

(** Where the request of a signed data center [dc] migrates. *)
Definition migrates_to (dc newdc : Z) : Z := if dc <? 0 then newdc else ShiftDcId newdc (GetDcIdShift dc).

Lemma migrates_to_bare (dc newdc : Z) : plain newdc -> 0 <= migrates_to dc newdc /\ BareDcId (migrates_to dc newdc) <> 0.
Proof.
  intros Hp. unfold migrates_to. destruct (Z.ltb_spec dc 0); [rewrite bare_plain by done; unfold plain in Hp; lia|].
  unfold GetDcIdShift, cquot, plain, kDcShift in *. assert (0 <= Z.quot dc 10000) by (apply Z.quot_pos; lia).
  rewrite BareDcId_ShiftDcId by (unfold bare, kDcShift; lia). unfold ShiftDcId, kDcShift. lia.
Qed.

(** The main data center changes, when the request is for it. *)
Lemma migrate_main (dc newdc : Z) (i : instance) : ok i -> plain newdc ->
  wp (if dc <? 0 then setMainDcId newdc ;;; ret newdc else ret (ShiftDcId newdc (GetDcIdShift dc)))
    (fun t i1 => t = migrates_to dc newdc /\ rt i1 = rt i /\ globalRequestId i1 = globalRequestId i
       /\ ok i1 /\ objects (net i1) = objects (net i)) i.
Proof.
  intros [Hn Hr] Hp. unfold migrates_to. destruct (dc <? 0); [|by apply wp_ret].
  destruct (net_main _ Hn) as (m & Em & _). apply wp_bind.
  eapply wp_mono; [by apply (setMainDcId_run newdc m)|]. cbv beta. intros [] i1 (E1 & E2 & H1 & E3 & _).
  apply wp_ret. split_and!; try done. split; [done|]. rewrite E1.
  destruct Hr as [A1 A2 A3 A4 A5 A6]. split; try done. by rewrite E3.
Qed.

Lemma rt_ok_register (n : network) (id dc : Z) (r : routing) : rt_ok n r -> is_Some (requestMap r !! id) ->
  BareDcId dc <> 0 -> rt_ok n (set_byDc (<[id := dc]> (requestsByDc r)) r).
Proof.
  intros [A1 A2 A3 A4 A5 A6] Hid Hdc. split; simpl; try done.
  - intros x. rewrite A1. destruct (decide (id = x)) as [<-|]; [|by rewrite lookup_insert_ne].
    rewrite lookup_insert_eq, <- A1. split; eauto.
  - intros x y. destruct (decide (id = x)) as [<-|]; [|rewrite lookup_insert_ne by done; apply A3].
    rewrite lookup_insert_eq. intros [= <-]. by apply abs_bare.
Qed.

Lemma bare_opp (dc : Z) : BareDcId dc <> 0 -> BareDcId (- dc) <> 0.
Proof. unfold BareDcId, crem. rewrite Z.rem_opp_l by done. lia. Qed.

Lemma migrate_branch (id newdc : Z) (i : instance) : ready id i -> newdc = 0 \/ plain newdc ->
  branch id (migrate id newdc) i.
Proof.
  intros Hi Hnew. unfold branch, migrate. destruct (id =? 0); [by apply branch_false|].
  pose proof (known id i (ready_ok id i Hi)) as Hk. apply wp_query.
  destruct (requestMap (rt i) !! id) as [ref|] eqn:Er.
  2:{ rewrite Hk. simpl. by apply branch_false. }
  destruct Hk as ((d & Hd & Eid) & dc & Edc & Hb & Hne). rewrite Edc. simpl.
  rewrite (proj2 (Z.eqb_neq _ _) Hne). simpl. destruct (Z.eqb_spec newdc 0) as [->|Hz]; [by apply branch_false|].
  destruct Hnew as [|Hp]; [done|]. destruct Hi as [[Hi Hpm] Hg].
  destruct (migrates_to_bare dc newdc Hp) as [Ht0 Htb].
  apply wp_bind. eapply wp_mono; [by apply migrate_main|]. cbv beta. intros t i1 (-> & Er1 & Eg1 & [Hn1 Hr1] & Eo1).
  set (target := migrates_to dc newdc) in *. apply wp_request. rewrite Er1, Er.
  apply wp_bind. eapply net_run_wp; [apply getSession_run; [done|by left]|]. cbv beta.
  intros s i2 Er2 Eg2 Hn2 Hk2 [Ht [Eo2 _]]. apply wp_update, wp_bind.
  set (i2' := set_rt _ i2).
  assert (ready id i2') as Hi2.
  { split; [split; [split; [done|]|simpl; by rewrite Er2, Er1]|simpl; by rewrite Eg2, Eg1].
    simpl. apply rt_ok_register; rewrite ?Er2; [by eapply rt_ok_kept|by rewrite Er1, Er|].
    destruct (dc <? 0); [by apply bare_opp|done]. }
  eapply net_run_wp; [apply (send_prepared_run s ref 0 d i2'); [apply (ready_ok id i2' Hi2)|apply Ht|simpl; by rewrite Eo2, Eo1]|].
  cbv beta. intros [] i3 Er3 Eg3 Hn3 Hk3 Hl. apply wp_ret. split; [by apply (ready_net id i2')|].
  intros _. left. exists s. by rewrite <- Eid.
Qed.

(** *** [MSG_WAIT_*] *)
Lemma wait_branch (id : Z) (i : instance) : ready id i -> branch id (waitForAnother id) i.
Proof.
  intros Hi. unfold branch, waitForAnother. apply wp_request. pose proof (known id i (ready_ok id i Hi)) as Hk.
  destruct (requestMap (rt i) !! id) as [ref|] eqn:Er; [|by apply branch_false].
  destruct Hk as ((d & Hd & Eid) & dc & Edc & Hb & Hne). apply wp_bind, (wp_object ref d); [done|].
  destruct (after d) as [aref|] eqn:Ea; [|by apply branch_false]. apply wp_query. rewrite Edc. simpl.
  destruct (net_after _ (ok_net _ (ready_ok id i Hi)) ref d aref Hd Ea) as [a Ha].
  rewrite (proj2 (Z.eqb_neq _ _) Hne).
  (* the request may stop to wait *)
  assert (net_run (a <- object aref ;; afterDcId <- queryRequestByDc (requestId a) ;;
      if bool_decide (afterDcId = Some dc) then ret tt else change_object ref (with_after None)) i
    (fun _ n => exists d', objects n !! ref = Some d' /\ requestId d' = id)) as Hstop.
  { apply wp_bind, (wp_object aref a); [done|]. apply wp_query. case_bool_decide.
    - apply wp_ret. split_and!; try done; [apply (ready_ok id i Hi)|eauto].
    - eapply net_run_wp; [by apply (change_object_run ref d (with_after None)); [apply (ready_ok id i Hi)|..]|].
      cbv beta. intros [] i' E1 E2 Hn' Hk' [Eo _]. split_and!; try done. rewrite Eo. exists (with_after None d). by rewrite lookup_insert_eq. }
  apply wp_bind. eapply net_run_wp; [exact Hstop|]. cbv beta. intros [] i1 Er1 Eg1 Hn1 Hk1 (d1 & Hd1 & Eid1).
  assert (ready id i1) as Hi1 by (by eapply (ready_net id i)).
  apply wp_bind, (wp_object ref d1); [done|]. destruct (after d1) as [aref1|] eqn:Ea1.
  - destruct (net_after _ Hn1 ref d1 aref1 Hd1 Ea1) as [a1 Ha1].
    apply wp_bind, wp_bind, (wp_object aref1 a1); [done|]. apply wp_modify, wp_ret. split.
    + apply ready_update; [done| |done]. simpl. intros Hr. apply (rt_ok_tables _ (rt i1)); simpl; try done.
      * intros x. destruct (decide (id = x)) as [<-|]; [rewrite Er1, Er; eauto|].
        rewrite lookup_emplace_ne by done. apply (rt_dependent _ _ Hr).
      * apply (rt_delayed _ _ Hr).
      * apply (rt_exports _ _ Hr).
    + intros _. right; right; left. simpl. rewrite lookup_emplace_eq. eauto.
  - apply wp_bind. eapply (net_run_wp _ i1); [apply (hand_over_run (Z.abs dc) ref 0 d1); [done|apply abs_target|done]|].
    cbv beta. intros [] i2 Er2 Eg2 Hn2 Hk2 (s & _ & Hl). apply wp_ret. split; [by apply (ready_net id i1)|].
    intros _. left. exists s. by rewrite <- Eid1.
Qed.

(** *** Internal errors and [*_WAIT_*] *)
Lemma waitSeconds_run (id : Z) (error : Error) (i : instance) : exists secs,
  waitSeconds id error i = Some (secs, set_rt (fun r =>
    set_delays (if is_internal error then <[id := secs]> (requestsDelays r) else requestsDelays r) r) i).
Proof.
  unfold waitSeconds, bind, table, gets, update, modify. destruct (is_internal error); [by eexists|].
  eexists. by destruct i as [? [] ? ?].
Qed.

Lemma put_off_branch (id : Z) (error : Error) (i : instance) : ready id i -> branch id (putOff e id error) i.
Proof.
  intros Hi. unfold branch, putOff. destruct (id =? 0); [by apply branch_false|].
  destruct (waitSeconds_run id error i) as [secs Es]. eapply wp_step; [exact Es|]. cbv zeta.
  set (i1 := set_rt _ i). set (sendAt := inow e + wraps 32 (secs * 1000) + 10).
  assert (ready id i1) as Hi1 by (apply ready_update; [done|by apply rt_ok_same|done]).
  apply wp_table. destruct (insertDelayed id sendAt (delayedRequests (rt i1))) as [l|] eqn:El.
  - destruct (insert_delayed _ _ _ _ (rt_delayed _ _ (ok_rt _ (ready_ok id i1 Hi1))) El) as [Hs Hin].
    apply wp_update. set (i2 := set_rt _ i1).
    assert (ready id i2) as Hi2.
    { apply ready_update; [done| |done]. intros Hr. apply (rt_ok_tables _ (rt i1)); simpl; try done;
        [apply (rt_dependent _ _ Hr)|apply (rt_exports _ _ Hr)]. }
    apply wp_bind. unfold checkDelayedRequests. apply wp_table, wp_bind.
    eapply wp_mono; [by apply delayed_loop_run; [apply (ready_ok id i2 Hi2)|]|]. cbv beta.
    intros [] i3 (Hi3 & Hk & Eg & Er3 & Hl). apply wp_table.
    assert (forall Q : unit -> instance -> Prop, (forall c, Q tt (mk_instance (net i3) (rt i3) (globalRequestId i3) c)) ->
      wp match delayedRequests (rt i3) with (_, t) :: _ => notify (CheckDelayedIn (t - inow e)) | [] => ret tt end Q i3) as Hnotify.
    { intros Q HQ. destruct (delayedRequests (rt i3)) as [|[? ?] ?]; [|by apply HQ].
      apply wp_ret. specialize (HQ (calls i3)). by destruct i3. }
    apply Hnotify. intros c. apply wp_ret. split.
    + split; [by destruct Hi3 as [? ?]; split|simpl; rewrite Er3; apply Hi2].
    + intros Hreg. destruct (decide (sendAt <= inow e)).
      * left. apply (Hl (id, sendAt)); [|done|done]. apply Hin. by left.
      * right; left. exists sendAt. simpl. rewrite Er3. simpl. apply list_elem_of_filter. simpl. split; [lia|]. apply Hin. by left.
  - apply wp_ret. split; [apply Hi1|]. intros _. right; left. by apply insert_delayed_none in El.
Qed.

(** *** No authorization in a data center *)
Lemma settled_sent (id : Z) (i i' : instance) (ref dc : Z) (h : ResponseHandler) : ready id i -> ok i' ->
  rt i' = sent_to (globalRequestId i + 1) ref dc h (rt i) -> settled id i'.
Proof.
  intros [[_ Hp] Hg] Hi' Er. split; [done|]. rewrite Er. simpl.
  destruct (_ || _)%bool; [rewrite lookup_emplace_ne by lia|]; done.
Qed.

Lemma respond_run (id dc : Z) (body : list Z) (d f : callback) (i : instance) : ready id i -> body <> [] -> 0 <= dc ->
  wp (respond e body d f dc) (fun rid i' => rid = globalRequestId i + 1 /\ settled id i' /\ kept (net i) (net i')
    /\ exists ref s, rt i' = sent_to rid ref s (mk_handler (Some d) (Some f)) (rt i)) i.
Proof.
  intros Hi Hb Hdc. eapply wp_mono; [apply send_run; [apply (ready_ok id i Hi)|done|by left]|]. cbv beta.
  intros rid i' (H1 & H2 & -> & ref & s & _ & _ & Er). split_and!; [done|by eapply settled_sent|done|by eexists _, _].
Qed.

Lemma unauthorized_branch (error : Error) (bad : bool) (response : Response) (i : instance) :
  ready (responseTo response) i -> branch (responseTo response) (unauthorized e (responseTo response) error bad response) i.
Proof.
  intros Hi. set (id := responseTo response) in *. unfold branch, unauthorized. apply wp_query, wp_bind, wp_gets.
  set (dc := default 0 (requestsByDc (rt i) !! id)). destruct (_ || _ || _)%bool.
  - apply wp_bind. eapply wp_mono with (Q := fun _ => ready id).
    + destruct (globalFailHandler e) as [h|] eqn:Eh; [|by apply wp_ret]. destruct (negb bad); [|by apply wp_ret].
      by apply global_fail_ready.
    + intros [] i' Hi'. by apply branch_false.
  - set (newdc := BareDcId (Z.abs dc)). apply wp_waiting, wp_bind. eapply wp_mono with (Q := fun _ => settled id).
    + case_bool_decide; [|apply wp_ret, Hi].
      apply wp_bind. eapply wp_mono; [apply (respond_run id); [done|apply export_nonempty|done]|]. cbv beta.
      intros rid i1 (-> & Hi1 & _ & ref & s & Er). apply wp_modify. apply settled_update; [done| |done].
      intros Hr. apply (rt_ok_tables _ (rt i1)); simpl; try done; [apply (rt_dependent _ _ Hr)|apply (rt_delayed _ _ Hr)|].
      intros x y. destruct (decide (globalRequestId i + 1 = x)) as [<-|].
      * rewrite lookup_emplace_eq. intros [= <-]. destruct (authExportRequests (rt i1) !! _) eqn:E; simpl; [by eapply (rt_exports _ _ Hr)|lia].
      * rewrite lookup_emplace_ne by done. apply (rt_exports _ _ Hr).
    + intros [] i1 Hi1. apply wp_waiting, wp_update.
      set (i2 := set_rt _ i1). assert (settled id i2) as Hi2 by (apply settled_update; [done|by apply rt_ok_same|done]).
      assert (id ∈ default [] (authWaiters (rt i2) !! newdc)) as Hin.
      { simpl. rewrite lookup_insert_eq. simpl. apply elem_of_app. right. by left. }
      apply wp_bind. destruct bad; [|by apply wp_ret, wp_ret; split; [|intros _; right; right; right; exists newdc]].
      apply wp_modify, wp_ret. split; [apply settled_update; [done|by apply rt_ok_same|done]|].
      intros _. right; right; right. by exists newdc.
Qed.

(** *** All branches *)

(** The server names data centers by plain numbers. *)
Definition sane (type : list Z) : Prop := forall dc, migrate_dc type = Some dc -> dc = 0 \/ plain dc.

Lemma default_branch (error : Error) (response : Response) (i : instance) : sane (type error) ->
  ready (responseTo response) i -> branch (responseTo response) (onErrorDefault e error response) i.
Proof.
  intros Hs Hi. unfold onErrorDefault. destruct (migrate_dc (type error)) as [dc|] eqn:Em; [apply migrate_branch; [done|by apply Hs]|].
  destruct (is_type _ _ || is_type _ _)%bool; [by apply wait_branch|].
  destruct (is_internal error || slowed (type error))%bool; [by apply put_off_branch|].
  unfold branch. apply wp_table. destruct ((_ && _) || (_ && _))%bool; [by apply unauthorized_branch|].
  destruct (is_type _ _ || is_type _ _)%bool; [by apply initAgain_branch|].
  apply wp_bind. eapply wp_mono with (Q := fun _ => ready (responseTo response)).
  { destruct (is_type _ _); [|by apply wp_ret]. apply wp_modify. by destruct Hi as [[[? ?] ?] ?]; split; [split; [split|]|]. }
  intros [] i1 Hi1. apply wp_bind. eapply wp_mono with (Q := fun _ => ready (responseTo response)).
  { destruct (_ && _)%bool; [|by apply wp_ret]. apply wp_modify. apply ready_update; [done|by apply rt_ok_same|done]. }
  intros [] i2 Hi2. by apply branch_false.
Qed.

(** ** The handlers of the instance *)

(** *** Authorization imported: the requests that waited *)

Definition redirect (newdc id : Z) (m : gmap Z Z) : gmap Z Z :=
  match m !! id with Some dc => <[id := changedDc dc newdc]> m | None => m end.

Lemma changed_bare (dc newdc : Z) : plain newdc -> BareDcId (changedDc dc newdc) <> 0 /\ (0 <= dc -> 0 <= changedDc dc newdc).
Proof.
  intros Hp. destruct (migrates_to_bare dc newdc Hp) as [H1 H2]. unfold changedDc, migrates_to in *.
  destruct (Z.ltb_spec dc 0); [|done]. split; [by apply bare_opp|lia].
Qed.

(** One request that waited. *)
Lemma waiter_run (newdc id : Z) (i : instance) : ok i -> plain newdc ->
  wp (resendWaiter newdc id) (fun _ i' => ok i' /\ globalRequestId i' = globalRequestId i
    /\ rt i' = set_byDc (redirect newdc id (requestsByDc (rt i))) (rt i)
    /\ ((forall dc, requestsByDc (rt i) !! id = Some dc -> 0 <= dc) -> kept (net i) (net i')
         /\ forall dc, requestsByDc (rt i) !! id = Some dc -> line (net i') (changedDc dc newdc) id)) i.
Proof.
  intros Hi Hp. unfold resendWaiter, redirect. apply wp_request. pose proof (known id i Hi) as Hk.
  destruct (requestMap (rt i) !! id) as [ref|] eqn:Er.
  2:{ rewrite Hk. apply wp_ret. split_and!; [done|done|by destruct i as [? [] ? ?]|]. by split. }
  destruct Hk as ((d & Hd & Eid) & dc & Edc & Hb & Hne). rewrite Edc. unfold changeRequestByDc. apply wp_bind, wp_table.
  rewrite Edc. apply wp_update. set (i1 := set_rt _ i).
  destruct (changed_bare dc newdc Hp) as [Hcb Hcp].
  assert (ok i1) as Hi1 by (destruct Hi; split; [done|]; apply rt_ok_register; [done|by rewrite Er|done]).
  apply wp_ret, wp_bind.
  eapply wp_mono with (Q := fun _ i2 => ok i2 /\ rt i2 = rt i1 /\ globalRequestId i2 = globalRequestId i1
    /\ objects (net i2) = objects (net i1) /\ (0 <= dc -> kept (net i1) (net i2))).
  { destruct (Z.ltb_spec (changedDc dc newdc) 0); [|by apply wp_ret].
    destruct (net_main _ (ok_net _ Hi1)) as (m & Em & _).
    eapply wp_mono; [apply (setMainDcId_run newdc m); [apply Hi1|done|done]|]. cbv beta.
    intros [] i2 (E1 & E2 & Hn2 & E3 & _). split_and!; try done.
    - split; [done|]. rewrite E1. destruct (ok_rt _ Hi1) as [A1 A2 A3 A4 A5 A6]. split; try done. by rewrite E3.
    - intros H0. apply Hcp in H0. lia. }
  intros [] i2 (Hi2 & Er2 & Eg2 & Eo2 & Hk2).
  eapply net_run_wp; [apply (hand_over_run (changedDc dc newdc) ref 0 d); [apply Hi2|by right|by rewrite Eo2]|].
  cbv beta. intros [] i3 Er3 Eg3 Hn3 Hk3 (s & (_ & _ & _ & Hs) & Hl). split_and!.
  - split; [done|]. rewrite Er3. eapply rt_ok_kept; [exact Hk3|apply Hi2].
  - by rewrite Eg3, Eg2.
  - by rewrite Er3, Er2.
  - intros Hpos. split; [etrans; [apply Hk2; by apply Hpos|done]|]. intros dc' [= <-]. by rewrite <- (Hs Hcb), <- Eid.
Qed.

(** All of them: their tables and, when none was for the main data center,
    where they went. *)
Lemma waiters_run (newdc : Z) (l : list Z) (i : instance) : ok i -> plain newdc ->
  wp (resendWaiters newdc l) (fun _ i' => ok i' /\ globalRequestId i' = globalRequestId i
    /\ (exists m, rt i' = set_byDc m (rt i))
    /\ ((forall x dc, x ∈ l -> requestsByDc (rt i) !! x = Some dc -> 0 <= dc) -> kept (net i) (net i')
         /\ forall x dc, x ∈ l -> requestsByDc (rt i) !! x = Some dc -> line (net i') (changedDc dc newdc) x)) i.
Proof.
  intros Hi Hp. revert i Hi. induction l as [|id l IH]; intros i Hi; unfold resendWaiters; cbn [each].
  - apply wp_ret. split_and!; [done|done|by exists (requestsByDc (rt i)); destruct i as [? [] ? ?]|].
    intros _. split; [done|]. by intros x dc ?%not_elem_of_nil.
  - apply wp_bind. eapply wp_mono; [by apply waiter_run|]. cbv beta.
    intros [] i1 (Hi1 & Eg1 & Er1 & H1). eapply wp_mono; [by apply IH|]. cbv beta.
    intros [] i2 (Hi2 & Eg2 & (m & Er2) & H2). split_and!; [done|by rewrite Eg2|exists m; by rewrite Er2, Er1|].
    intros Hpos. destruct H1 as [Hk1 Hl1]; [intros dc; apply Hpos; by left|].
    assert (forall x dc, x <> id -> requestsByDc (rt i1) !! x = Some dc -> requestsByDc (rt i) !! x = Some dc) as Hsame.
    { intros x dc Hne. rewrite Er1. simpl. unfold redirect. destruct (requestsByDc (rt i) !! id); [by rewrite lookup_insert_ne|done]. }
    destruct H2 as [Hk2 Hl2].
    { intros x dc Hx Hdc. destruct (decide (x = id)) as [->|Hne]; [|eapply Hpos; [by right|by apply Hsame]].
      rewrite Er1 in Hdc. simpl in Hdc. unfold redirect in Hdc.
      destruct (requestsByDc (rt i) !! id) as [dc0|] eqn:E0; [|congruence].
      rewrite lookup_insert_eq in Hdc. injection Hdc as <-. apply changed_bare; [done|]. eapply Hpos; [by left|done]. }
    split; [by etrans|]. intros x dc Hx Hdc. destruct (decide (x = id)) as [->|Hne]; [by apply Hk2, Hl1|].
    apply elem_of_cons in Hx as [?|Hx]; [done|]. apply (Hl2 x dc Hx). rewrite Er1. simpl. unfold redirect.
    destruct (requestsByDc (rt i) !! id); [by rewrite lookup_insert_ne|done].
Qed.

Lemma import_run (response : Response) (i : instance) : ready (responseTo response) i ->
  (forall dc, requestsByDc (rt i) !! responseTo response = Some dc -> plain (BareDcId dc)) ->
  wp (importDone response) (fun _ => settled (responseTo response)) i.
Proof.
  intros Hi Hp. unfold importDone. apply wp_query.
  destruct (requestsByDc (rt i) !! responseTo response) as [dc|]; [|apply wp_ret, Hi].
  apply wp_waiting, wp_bind. eapply wp_mono; [apply waiters_run; [by apply (ready_ok (responseTo response))|by apply Hp]|]. cbv beta.
  intros [] i1 (Hi1 & _ & (m & Er) & _). apply wp_modify. apply settled_update; [|by apply rt_ok_same|done].
  split; [done|]. rewrite Er. apply Hi.
Qed.

(** *** Authorization exported *)
Lemma export_run (k : Z) (bytes : list Z) (response : Response) (i : instance) : ready (responseTo response) i ->
  wp (exportDone e k bytes response) (fun _ => settled (responseTo response)) i.
Proof.
  intros Hi. unfold exportDone. apply wp_table.
  destruct (authExportRequests (rt i) !! responseTo response) as [dc|] eqn:E; [|apply wp_ret, Hi].
  apply wp_bind. eapply wp_mono; [apply respond_run; [done|apply import_nonempty|]|].
  { eapply (rt_exports _ _ (ok_rt _ (ready_ok _ i Hi))), E. }
  cbv beta. intros rid i1 (_ & Hi1 & _). apply wp_modify. apply settled_update; [done| |done].
  intros Hr. apply (rt_ok_tables _ (rt i1)); simpl; try done; [apply (rt_dependent _ _ Hr)|apply (rt_delayed _ _ Hr)|].
  intros x y [_ Hx]%lookup_delete_Some. by eapply (rt_exports _ _ Hr).
Qed.

(** *** Logged out of a data center *)
Lemma kill_run (dc : Z) (i : instance) : net_ok (net i) -> kDcShift <= dc -> exists n c,
  killSession dc i = Some (tt, mk_instance n (rt i) (globalRequestId i) c) /\ net_ok n /\ objects n = objects (net i)
    /\ logoutGuestRequestIds n = logoutGuestRequestIds (net i).
Proof.
  intros Hn Hdc. destruct (net_main _ Hn) as (m & Em & Hm & Hp). unfold plain in Hp.
  unfold killSession, bind at 1, gets. rewrite (bool_decide_eq_false_2 (mainSession _ = _)), andb_false_r
    by (rewrite Em; intros [= ->]; lia).
  destruct (destroy_eq dc i) as [c E]. rewrite E. eexists _, c. split; [done|]. split; [|done].
  destruct Hn as [H1 H2 H3 H4 H5]. split; simpl; [|..|done|done].
  - exists m. split; [done|]. split; [|exact Hp]. apply lookup_delete_is_Some. split; [lia|done].
  - intros x [_ Hx]%lookup_delete_is_Some. auto.
  - intros x r id ref [_ Hx]%lookup_delete_Some. by eapply H3.
Qed.

Lemma guest_run (id : Z) (i : instance) : ready id i ->
  wp (logoutGuestDone id) (fun _ i' => ready id i' /\ rt i' = rt i) i.
Proof.
  intros Hi. pose proof (ready_ok id i Hi) as [Hn Hr]. unfold logoutGuestDone. apply wp_bind, wp_gets.
  destruct (list_find _ _) as [[k [dc x]]|] eqn:E; [|by apply wp_ret].
  apply list_find_Some in E as (E & _ & _). apply list_elem_of_lookup_2, elem_of_entries in E.
  destruct (kill_run dc i Hn) as (n & c & Ek & Hn' & Eo & El); [apply (net_logouts _ Hn); eauto|].
  eapply wp_step; [exact Ek|]. apply wp_bind, wp_modify, wp_ret. destruct Hi as [[_ Hp] Hg]. split; [|done].
  split; [split; [split|done]|done]; simpl.
  - destruct Hn' as [H1 H2 H3 H4 H5]. split; simpl; [done..|]. intros y [_ Hy]%lookup_delete_is_Some. auto.
  - destruct Hr as [A1 A2 A3 A4 A5 A6]. split; try done. simpl. by rewrite Eo.
Qed.

(** ** Handlers called *)

(** For the handlers of imports: the request was sent to a data center. *)
Definition importable (h : ResponseHandler) (id : Z) (i : instance) : Prop := on_done h = Some OnImport ->
  forall dc, requestsByDc (rt i) !! id = Some dc -> plain (BareDcId dc).

Lemma call_done_run (c : callback) (response : Response) (i : instance) : ready (responseTo response) i ->
  (c = OnImport -> forall dc, requestsByDc (rt i) !! responseTo response = Some dc -> plain (BareDcId dc)) ->
  wp (call_done e c response) (fun b i' => settled (responseTo response) i' /\ (b = false -> ready (responseTo response) i')) i.
Proof.
  intros Hi Hc. pose proof (proj1 Hi) as Hs. destruct c as [n| | |]; cbn [call_done].
  - eapply wp_mono; [by apply user_done_ready|]. done.
  - destruct (read_exported e (reply response)) as [[k bytes]|]; [|by apply wp_ret].
    apply wp_bind. eapply wp_mono; [by apply export_run|]. intros [] i' Hi'. by apply wp_ret.
  - destruct (negb _); [by apply wp_ret|]. apply wp_bind. eapply wp_mono; [by apply import_run; [|apply Hc]|].
    intros [] i' Hi'. by apply wp_ret.
  - apply wp_bind. eapply wp_mono; [by apply guest_run|]. cbv beta. intros b i' [Hi' _]. apply wp_ret. split; [apply Hi'|done].
Qed.

Lemma call_fail_run (c : option callback) (error : Error) (response : Response) (i : instance) : ready (responseTo response) i ->
  wp (call_on_fail e c error response) (fun b i' => settled (responseTo response) i'
    /\ (b = false -> ready (responseTo response) i'
        /\ (registered (responseTo response) i -> registered (responseTo response) i'))) i.
Proof.
  intros Hi. pose proof (proj1 Hi) as Hsi. destruct c as [[n| | |]|]; cbn [call_on_fail call_fail]; [|..|by apply wp_ret].
  - by apply user_fail_ready.
  - unfold exportFail. destruct (IsDefaultHandledError error); [by apply wp_ret|]. apply wp_table, wp_bind.
    eapply wp_mono with (Q := fun _ => ready (responseTo response)); [|intros [] i' Hi'; by apply wp_ret; split; [apply Hi'|]].
    destruct (authExportRequests (rt i) !! _); [|by apply wp_ret].
    apply wp_modify. apply ready_update; [done|by apply rt_ok_same|done].
  - by apply wp_ret.
  - apply wp_bind. eapply wp_mono; [by apply guest_run|]. cbv beta. intros b i' [Hi' Er]. apply wp_ret. by split; [apply Hi'|].
Qed.

(** After an error: the data of the request is to be cleaned, or it waits. *)
Lemma error_run (response : Response) (onFail : option callback) (error : Error) (i : instance) :
  ready (responseTo response) i -> sane (type error) ->
  wp (rpcErrorOccured e response onFail error) (fun clean i' => settled (responseTo response) i'
    /\ (clean = false -> registered (responseTo response) i -> placed i' (responseTo response))) i.
Proof.
  intros Hi Hs. unfold rpcErrorOccured. apply wp_bind.
  eapply wp_mono with (Q := fun b i1 => settled (responseTo response) i1
    /\ (b = false -> ready (responseTo response) i1
        /\ (registered (responseTo response) i -> registered (responseTo response) i1))).
  { destruct (IsDefaultHandledError error); [by apply call_fail_run|by apply wp_ret; split; [apply Hi|]]. }
  intros b i1 [Hi1 Hreg]. destruct b; [by apply wp_ret|]. destruct Hreg as [Hi1' Hreg]; [done|].
  apply wp_bind. eapply wp_mono; [by apply default_branch|]. cbv beta. intros again i2 [Hi2 H2]. destruct again.
  - apply wp_ret. split; [done|]. intros _ Hr. by apply H2, Hreg.
  - apply wp_bind. eapply wp_mono; [by apply call_fail_run|]. cbv beta. intros c i3 [Hi3 _]. by apply wp_ret.
Qed.

End Branches.
