(* ===== verification/InstanceExample.v ===== *)
(** * A concrete instance

    Main data center 2; four requests: 10 and 11 of the main data center, 12 and
    20 of data center 4. 11 waits for 10 and 12 for 11; 12 is put off too, and
    waits for the authorization that 20 imports. *)

From S2P Require Import Prelude StateMonad Text Ids Requests Session SessionFacts Receive SessionLife Errors Dcenter Instance InstanceFacts InstanceRetry.

Import Dc.

(** Errors are read as their code and the codes of their text. *)
Definition ex_reader : Scheme := {|
  read_long := @read_long ex_scheme;
  read_int := @read_int ex_scheme;
  read_string := fun _ => None;
  read_msgs_ack := @read_msgs_ack ex_scheme;
  read_bad_msg_notification := fun _ => None;
  read_bad_server_salt := fun _ => None;
  read_msgs_state_info := fun _ => None;
  read_msgs_all_info := fun _ => None;
  read_msg_detailed_info := fun _ => None;
  read_msg_new_detailed_info := fun _ => None;
  read_new_session_created := fun _ => None;
  read_pong := fun _ => None;
  read_msgs_state_req := fun _ => None;
  read_msg_resend_req := fun _ => None;
  read_rpc_error := fun ws => match ws with _ :: c :: text => Some (wraps 32 c, text) | _ => None end;
  protocol_error := [mtpc_rpc_error];
  z_stream := unit;
  inflateInit2 := fun _ => None;
  inflate := fun s _ => (2, [], s) |}.
#[export] Existing Instance ex_reader.

(** Handlers that take every value and leave every error; at the time 1000. *)
Definition ex_around : surroundings := mk_surroundings 1000 (fun _ _ => ret true) (fun _ _ _ => ret false) None true
  (fun s => s) (fun ws => match ws with _ :: id :: bytes => Some (id, bytes) | _ => None end) (fun _ => true)
  (fun dc => [3; dc]) (fun id bytes => 4 :: id :: bytes) [5] (fun _ => false).

#[export] Instance ex_handlers : Handlers ex_around.
Proof.
  split; try done.
  - intros n response i Hi. apply wp_ret. split; [apply Hi|done].
  - intros n error response i Hi. apply wp_ret. split; [apply Hi|done].
Qed.

Definition ex_object (id : Z) : RequestData := mk_request (replicate 9 0) None 0 id false false.

Definition ex_network : network := mk_network
  (list_to_map [(1, ex_object 10); (2, ex_object 11); (3, ex_object 12); (4, ex_object 20)])
  (list_to_map [(2, Session_new)]) {[2 := Dcenter_new 2 (Some 7)]} {[2 := 7]} (Some 2) 2 false ∅.

Definition ex_imports : ResponseHandler := mk_handler (Some OnImport) (Some OnImport).

Definition ex_routing : routing := mk_routing
  (list_to_map [(10, -2); (11, -2); (12, 4); (20, 4)]) ∅
  (list_to_map [(10, mk_handler (Some (OnUser 1)) (Some (OnUser 1))); (20, ex_imports)])
  (list_to_map [(10, 1); (11, 2); (12, 3); (20, 4)])
  [(12, 900); (11, 5000)] (list_to_map [(11, 10); (12, 11)]) {[10 := 4]} ∅ {[4 := [12]]}.

Definition ex_instance : instance := mk_instance ex_network ex_routing 30 [].

(** An entry of a concrete map. *)
Ltac entry H := cbn [ex_instance net rt ex_network ex_routing objects sessions requestMap requestsByDc dependentRequests list_to_map uncurry foldr fst snd] in H;
  repeat (apply lookup_insert_Some in H as [[<- <-]|[_ H]]); try (by rewrite lookup_empty in H).

(** Two concrete maps have the same keys. *)
Lemma same_keys {A B} (m : gmap Z A) (m' : gmap Z B) : bool_decide (dom m = dom m') = true ->
  forall k, is_Some (m !! k) <-> is_Some (m' !! k).
Proof. intros E%bool_decide_eq_true k. by rewrite <- !elem_of_dom, E. Qed.

Lemma ex_ok : ok ex_instance.
Proof.
  split; split.
  - exists 2. split; [done|]. split; [eexists; done|done].
  - intros dc [r H]. entry H. done.
  - intros dc r id ref H. entry H. change (toSend (tb (base Session_new))) with (∅ : gmap Z Z). by rewrite lookup_empty.
  - intros ref d a H. entry H; done.
  - intros dc [x H]. done.
  - apply same_keys. by vm_compute.
  - intros id ref H. entry H; eexists; (split; [reflexivity|done]).
  - intros id dc H. entry H; done.
  - intros id [x H]. entry H; by eexists.
  - repeat constructor; simpl; lia.
  - intros id dc H. done.
Qed.

Definition ex_reply (id : Z) (ws : list Z) : Response := mk_response ws 0 id.
Definition ex_error (id code_ : Z) (text : string) : Response := ex_reply id (mtpc_rpc_error :: code_ :: codes text).
