(* ===== verification/InstanceSystem.v ===== *)
(** * What the instance guarantees

    Every answer either ends its request or leaves it where it will be sent
    again; an ended request is never answered again; what waits, for a time or
    for another request, is sent when its time comes; and what becomes of
    requests when data centers change. *)

From S2P Require Import Prelude StateMonad Text Ids Requests Session SessionFacts Receive Errors Dcenter Instance InstanceFacts InstanceRetry InstanceExample.

Import Dc.

(** Nothing of the request is left in the tables. *)
Record closed (id : Z) (i : instance) : Prop := {
  closed_parser : parserMap (rt i) !! id = None;
  closed_request : requestMap (rt i) !! id = None;
  closed_dc : requestsByDc (rt i) !! id = None;
  closed_delay : requestsDelays (rt i) !! id = None;
  closed_dependent : dependentRequests (rt i) !! id = None;
  closed_waited : forall x, dependentRequests (rt i) !! x <> Some id }.

Lemma unregister_closes (id : Z) (i : instance) : settled id i ->
  wp (unregisterRequest id) (fun _ i' => ok i' /\ closed id i') i.
Proof.
  intros [Hi Hp]. eapply wp_mono; [by apply unregister_run|]. cbv beta.
  intros [] i' (Hi' & _ & _ & gone & Hg & Er & _). split; [done|]. split; rewrite Er; simpl.
  - done.
  - apply lookup_delete_eq.
  - apply lookup_delete_eq.
  - apply lookup_delete_eq.
  - rewrite lookup_remove_all. rewrite decide_True; [done|]. apply Hg. by left.
  - intros x. rewrite lookup_remove_all. case_decide as Hx; [done|]. intros E. apply Hx, Hg. right. by apply tc_once.
Qed.

Section System.
Context {scheme : Scheme} (e : surroundings) {handlers : Handlers e}.

(** The outcome of an answer to [id], handled by [h] if there is an error. *)
Definition settles (id : Z) (h : ResponseHandler) (i : instance) : Prop :=
  ok i /\ (closed id i \/ parserMap (rt i) !! id = Some h /\ placed i id).

Lemma handle_error_settles (response : Response) (h : ResponseHandler) (error : Error) (i : instance) :
  ready (responseTo response) i -> registered (responseTo response) i -> sane (type error) ->
  wp (handleError e response h error) (fun _ => settles (responseTo response) h) i.
Proof.
  intros Hi Hr Hs. unfold handleError. apply wp_bind. eapply wp_mono; [by apply error_run|]. cbv beta.
  intros clean i1 [[Hi1 Hp1] Hw]. destruct clean.
  - eapply wp_mono; [by apply unregister_closes|]. cbv beta. intros [] i2 [? ?]. split; [done|by left].
  - apply wp_modify. split.
    + destruct Hi1 as [? ?]. split; [done|by apply (rt_ok_same _ (rt i1))].
    + right. split; [simpl; by rewrite lookup_emplace_eq, Hp1|]. by apply Hw.
Qed.

(** An error of the client's own is never one to send the request again for. *)
Lemma local_error (d : list Z) (response : Response) (i : instance) :
  IsDefaultHandledError (parse_failed d) = false
  /\ onErrorDefault e (parse_failed d) response i = Some (false, i).
Proof.
  assert (parse_failed d = mk_error 0 (codes "CLIENT_RESPONSE_PARSE_FAILED") d) as ->.
  { unfold parse_failed, Local_, MTPLocal. rewrite app_assoc. apply (error_of_text 0); [done|].
    apply (bool_decide_unpack _). by vm_compute. }
  split; [done|]. unfold onErrorDefault. cbn [type code]. by destruct i.
Qed.

Lemma handle_local_error (response : Response) (h : ResponseHandler) (d : list Z) (i : instance) :
  ready (responseTo response) i ->
  wp (handleError e response h (parse_failed d)) (fun _ i' => ok i' /\ closed (responseTo response) i') i.
Proof.
  intros Hi. unfold handleError, rpcErrorOccured. destruct (local_error d response i) as [E1 E2]. rewrite E1.
  apply wp_bind, wp_bind, wp_ret. eapply wp_step; [exact E2|].
  apply wp_bind. eapply wp_mono; [by apply call_fail_run|]. cbv beta. intros b i1 [Hi1 _].
  by apply wp_ret, unregister_closes.
Qed.

Lemma closed_settled (id : Z) (i : instance) : ok i -> closed id i -> settled id i.
Proof. intros Hi Hc. split; [done|apply Hc]. Qed.

(** Taking the handler out. *)
Lemma taken_ready (id : Z) (i : instance) : ok i -> id <= globalRequestId i ->
  ready id (set_rt (fun r => set_parsers (delete id (parserMap r)) r) i).
Proof.
  intros [Hn Hr] Hg. split; [split; [split; [done|]|]|done]; simpl; [by apply (rt_ok_same _ (rt i))|apply lookup_delete_eq].
Qed.

(** ** Answers *)

(** The answer is an error. *)
Definition is_error (response : Response) : Prop := exists ws, reply response = mtpc_rpc_error :: ws.

Lemma answer_outcome (response : Response) (i : instance) :
  ok i -> responseTo response <= globalRequestId i -> registered (responseTo response) i ->
  sane (type (reply_error e (reply response))) ->
  (forall h, parserMap (rt i) !! responseTo response = Some h -> importable h (responseTo response) i) ->
  wp (processCallback e response) (fun _ i' => ok i' /\ (closed (responseTo response) i'
    \/ is_error response /\ is_Some (parserMap (rt i) !! responseTo response)
        /\ parserMap (rt i') !! responseTo response = parserMap (rt i) !! responseTo response
        /\ placed i' (responseTo response))) i.
Proof.
  intros Hi Hg Hr Hs Himp. set (id := responseTo response) in *. unfold processCallback. apply wp_table, wp_update.
  fold id. pose proof (taken_ready id i Hi Hg) as Hi1. set (i1 := set_rt _ i) in *.
  assert (registered id i1) as Hr1 by exact Hr.
  assert (forall i', ok i' /\ closed id i' -> ok i' /\ (closed id i' \/ is_error response /\ is_Some (parserMap (rt i) !! id)
    /\ parserMap (rt i') !! id = parserMap (rt i) !! id /\ placed i' id)) as Hclosed by (intros i' [? ?]; split; [done|by left]).
  destruct (bool_decide _ && bool_decide _)%bool eqn:Eh.
  { eapply wp_mono; [apply unregister_closes, Hi1|]. auto. }
  destruct (parserMap (rt i) !! id) as [h|] eqn:Ep; simpl in Eh |- *; [|done].
  destruct (reply response) as [|from ws] eqn:Ew.
  { eapply wp_mono; [by apply handle_local_error|]. auto. }
  destruct (Z.eqb_spec from mtpc_rpc_error) as [->|_].
  { eapply wp_mono; [apply handle_error_settles; [exact Hi1|exact Hr1|exact Hs]|]. cbv beta.
    intros [] i' [? [?|[? ?]]]; split; [done|by left|done|right]. split; [by exists ws|]. split; [eauto|done]. }
  apply wp_bind. eapply wp_mono with (Q := fun b i' => settled id i' /\ (b = false -> ready id i')).
  { destruct (on_done h) as [c|] eqn:Ec; [|apply wp_ret; by split; [apply Hi1|]].
    apply (call_done_run e c response i1); [exact Hi1|]. intros ->. by apply (Himp h). }
  intros b i2 [Hi2 Hb]. apply wp_bind. eapply wp_mono with (Q := fun _ => settled id).
  { destruct b; [by apply wp_ret|]. eapply wp_mono; [apply handle_local_error; by apply Hb|].
    cbv beta. intros [] i3 [? ?]. by apply closed_settled. }
  intros [] i3 Hi3. eapply wp_mono; [by apply unregister_closes|]. auto.
Qed.

(** C4. However an answer comes out (a value, an error, an answer that cannot
    be read), handling it does not fail, and then either nothing of the request
    is left in the instance, or its handler is kept and the request is where it
    will be sent again: in line in a session, put off, or waiting for another
    request or for authorization in its data center. *)
Theorem answer_or_retry (response : Response) (i : instance) :
  ok i -> responseTo response <= globalRequestId i -> registered (responseTo response) i ->
  sane (type (reply_error e (reply response))) ->
  (forall h, parserMap (rt i) !! responseTo response = Some h -> importable h (responseTo response) i) ->
  wp (processCallback e response) (fun _ i' => ok i' /\ (closed (responseTo response) i'
    \/ (is_Some (parserMap (rt i) !! responseTo response)
        /\ parserMap (rt i') !! responseTo response = parserMap (rt i) !! responseTo response
        /\ placed i' (responseTo response)))) i.
Proof.
  intros Hi Hg Hr Hs Himp. eapply wp_mono; [by apply answer_outcome|]. cbv beta.
  intros [] i' [Hi' [Hc|(_ & Hp)]]; split; [done|by left|done|by right].
Qed.

(** Nothing to unregister. *)
Lemma unregister_eq (id : Z) (i : instance) : unregisterRequest id i =
  match closureLoop (S (size (dependentRequests (rt i)))) (entries (dependentRequests (rt i))) ({[id]}, ∅) with
  | Some s => resendLoop (sorted_elements s.2) (mk_instance (net i) (without id s.1 (rt i)) (globalRequestId i) (calls i))
  | None => None
  end.
Proof.
  unfold unregisterRequest, bind, table, update, modify, gets, lift. cbn [rt set_rt set_byDc set_requests set_delays dependentRequests].
  by destruct (closureLoop _ _ _).
Qed.

Lemma unregister_closed (id : Z) (i : instance) : closed id i -> unregisterRequest id i = Some (tt, i).
Proof.
  intros [H1 H2 H3 H4 H5 H6]. rewrite unregister_eq.
  destruct (closure_all id (dependentRequests (rt i))) as (s & -> & E1 & E2).
  assert (s.2 = ∅) as E0.
  { apply elem_of_equiv_empty_L. intros x Hx%E2. clear -Hx H6.
    induction Hx as [x y Hxy|x y z _ _ IH]; [|by apply IH]. by apply (H6 x). }
  assert (remove_all s.1 (dependentRequests (rt i)) = dependentRequests (rt i)) as Er.
  { apply map_eq. intros x. rewrite lookup_remove_all, E1, E0. case_decide as Hx; [|done].
    apply elem_of_union in Hx as [->%elem_of_singleton|Hx%not_elem_of_empty]; done. }
  rewrite E0. unfold sorted_elements. rewrite elements_empty. cbn. unfold without.
  rewrite Er, (delete_id (requestMap _)), (delete_id (requestsByDc _)), (delete_id (requestsDelays _)) by done.
  by destruct i as [? [] ? ?].
Qed.

(** A request that ended: no handler waits for its answer, and an answer to it
    calls none and changes nothing. *)
Definition never_again (id : Z) (i : instance) : Prop := parserMap (rt i) !! id = None
  /\ forall response, responseTo response = id -> processCallback e response i = Some (tt, i).

Lemma closed_never_again (id : Z) (i : instance) : closed id i -> never_again id i.
Proof.
  intros Hc. pose proof (closed_parser _ _ Hc) as Hp. split; [done|]. intros response <-.
  unfold processCallback, bind, table, gets, update, modify.
  rewrite Hp. cbn [default on_done on_fail from_option]. rewrite !bool_decide_eq_true_2 by done. cbn [andb].
  assert (set_rt (fun r => set_parsers (delete (responseTo response) (parserMap r)) r) i = i) as ->.
  { unfold set_rt, set_parsers. rewrite delete_id by done. by destruct i as [? [] ? ?]. }
  by apply unregister_closed.
Qed.

End System.

Lemma answer_or_retry_witness :
  let response := ex_error 10 500 "INTERNAL" in
  wp (processCallback ex_around response) (fun _ i' => ok i' /\ (closed 10 i'
    \/ (is_Some (parserMap (rt ex_instance) !! 10)
        /\ parserMap (rt i') !! 10 = parserMap (rt ex_instance) !! 10 /\ placed i' 10))) ex_instance.
Proof.
  apply (answer_or_retry ex_around (ex_error 10 500 "INTERNAL") ex_instance ex_ok).
  - vm_compute. discriminate.
  - by eexists.
  - intros dc. vm_compute. discriminate.
  - intros h [= <-]. done.
Defined.

(** ** Requests that wait *)

Lemma delayed_requests_run (now : Z) (i : instance) : ok i ->
  wp (checkDelayedRequests now) (fun _ i' =>
    rt i' = set_delayed (filter (fun x => now < x.2) (delayedRequests (rt i))) (rt i)) i.
Proof.
  intros Hi. unfold checkDelayedRequests. apply wp_table, wp_bind.
  eapply wp_mono; [by apply delayed_loop_run|]. cbv beta. intros [] i1 (_ & _ & _ & Er & _). apply wp_table.
  by destruct (delayedRequests (rt i1)) as [|[? ?] ?].
Qed.

(** C7. When the timer fires, every request put off until then that is still
    registered is in line in a session, none whose time has not come is sent
    or lost, and the timer is set for the first of those. *)
Theorem delayed_requests_sent (now : Z) (i : instance) : ok i ->
  wp (checkDelayedRequests now) (fun _ i' => ok i' /\ kept (net i) (net i')
    /\ rt i' = set_delayed (filter (fun x => now < x.2) (delayedRequests (rt i))) (rt i)
    /\ (forall id t, (id, t) ∈ delayedRequests (rt i) -> t <= now -> registered id i -> in_line (net i') id)
    /\ forall id t, (id, t) ∈ delayedRequests (rt i) -> now < t -> exists timeout,
         last (calls i') = Some (CheckDelayedIn timeout) /\ 0 < timeout <= t - now) i.
Proof.
  intros Hi. unfold checkDelayedRequests. apply wp_table, wp_bind.
  eapply wp_mono; [by apply delayed_loop_run|]. cbv beta. intros [] i1 (Hi1 & Hk & _ & Er & Hl). apply wp_table.
  set (later := filter (fun x : Z * Z => now < x.2) (delayedRequests (rt i))) in *. rewrite Er. cbn [delayedRequests set_delayed].
  assert (forall id t, (id, t) ∈ delayedRequests (rt i) -> now < t -> (id, t) ∈ later) as Hin
    by (intros; by apply list_elem_of_filter).
  assert (by_time later) as Hs by (change (by_time (delayedRequests (set_delayed later (rt i)))); rewrite <- Er; apply Hi1).
  destruct later as [|[id0 t0] rest] eqn:El.
  - apply wp_ret. split_and!; [done|done|done|intros id t Hx Ht Hr; by apply (Hl (id, t))|].
    intros id t Hx Ht. by apply Hin, not_elem_of_nil in Hx.
  - apply wp_modify. split_and!; [by destruct Hi1|done|done|intros id t Hx Ht Hr; by apply (Hl (id, t))|].
    intros id t Hx Ht. exists (t0 - now). simpl. rewrite last_snoc. split; [done|].
    assert (now < t0) as H0.
    { assert ((id0, t0) ∈ filter (fun x : Z * Z => now < x.2) (delayedRequests (rt i))) as H0 by (fold later; rewrite El; by left).
      by apply list_elem_of_filter in H0 as [? _]. }
    specialize (Hin id t Hx Ht). apply elem_of_cons in Hin as [[= -> ->]|Hin]; [lia|].
    inversion Hs as [|? ? _ Hall]; subst. rewrite Forall_forall in Hall. specialize (Hall _ Hin). simpl in Hall. lia.
Qed.

Lemma delayed_requests_sent_witness : ok ex_instance /\ wp (checkDelayedRequests 1000) (fun _ i' =>
  in_line (net i') 12 /\ delayedRequests (rt i') = [(11, 5000)]
  /\ exists timeout, last (calls i') = Some (CheckDelayedIn timeout) /\ 0 < timeout <= 4000) ex_instance.
Proof.
  split; [exact ex_ok|]. eapply wp_mono; [exact (delayed_requests_sent 1000 ex_instance ex_ok)|].
  intros [] i' (_ & _ & Er & H & Ht). split; [apply (H 12 900); [by left|lia|by eexists]|]. split; [by rewrite Er|].
  apply (Ht 11 5000); [right; by left|lia].
Defined.

(** C6. When a request ends, exactly the requests waiting for it, directly or
    through others, stop to wait and are in line in a session; the loop that
    finds them ends, and no other request is touched. *)
Theorem dependent_requests_sent (id : Z) (i : instance) : ok i ->
  wp (unregisterRequest id) (fun _ i' => ok i' /\ kept (net i) (net i')
    /\ requestMap (rt i') = delete id (requestMap (rt i)) /\ parserMap (rt i') = parserMap (rt i)
    /\ (forall x, x <> id -> tc (waits (dependentRequests (rt i))) x id ->
          in_line (net i') x /\ dependentRequests (rt i') !! x = None)
    /\ forall x, x <> id -> ~ tc (waits (dependentRequests (rt i))) x id ->
          dependentRequests (rt i') !! x = dependentRequests (rt i) !! x) i.
Proof.
  intros Hi. eapply wp_mono; [by apply unregister_run|]. cbv beta.
  intros [] i' (Hi' & Hk & _ & gone & Hg & Er & Hl). rewrite Er. simpl.
  split_and!; [done|done|done|done| |]; intros x Hne Hx; rewrite lookup_remove_all.
  - rewrite decide_True by (apply Hg; by right). split; [|done]. apply Hl; [apply Hg; by right|done].
  - rewrite decide_False; [done|]. by intros [?|?]%Hg.
Qed.

Lemma dependent_requests_sent_witness : ok ex_instance /\ wp (unregisterRequest 10) (fun _ i' =>
  in_line (net i') 11 /\ in_line (net i') 12) ex_instance.
Proof.
  split; [exact ex_ok|]. eapply wp_mono; [exact (dependent_requests_sent 10 ex_instance ex_ok)|].
  intros [] i' (_ & _ & _ & _ & H & _).
  split; apply H; [done|by apply tc_once|done|by apply (tc_l _ 12 11 10); [|apply tc_once]].
Defined.

(** ** Another data center *)

(** Authorization imported in a data center: the requests that waited for
    it there, sent to no main data center, are each in line in a session of
    that data center, with the shift they had, and none waits any longer. *)
Theorem import_sends_waiters (response : Response) (dc newdc : Z) (i : instance) :
  ok i -> requestsByDc (rt i) !! responseTo response = Some dc -> BareDcId dc = newdc -> plain newdc ->
  (forall x d, x ∈ default [] (authWaiters (rt i) !! newdc) -> requestsByDc (rt i) !! x = Some d -> 0 <= d) ->
  wp (importDone response) (fun _ i' => ok i' /\ kept (net i) (net i')
    /\ default [] (authWaiters (rt i') !! newdc) = []
    /\ forall x d, x ∈ default [] (authWaiters (rt i) !! newdc) -> requestsByDc (rt i) !! x = Some d ->
         line (net i') (ShiftDcId newdc (GetDcIdShift d)) x) i.
Proof.
  intros Hi Edc <- Hp Hpos. unfold importDone. apply wp_query. rewrite Edc. apply wp_waiting, wp_bind.
  eapply wp_mono; [by apply waiters_run|]. cbv beta. intros [] i1 (Hi1 & _ & _ & H). destruct (H Hpos) as [Hk Hl].
  apply wp_modify. split_and!.
  - destruct Hi1 as [? ?]. split; [done|by apply (rt_ok_same _ (rt i1))].
  - done.
  - simpl. by rewrite lookup_insert_eq.
  - intros x d Hx Hd. specialize (Hl x d Hx Hd). specialize (Hpos x d Hx Hd). unfold changedDc in Hl.
    by rewrite (proj2 (Z.ltb_ge _ _)) in Hl.
Qed.

Lemma import_sends_waiters_witness : ok ex_instance /\ wp (importDone (ex_reply 20 [1])) (fun _ i' =>
  line (net i') 4 12 /\ default [] (authWaiters (rt i') !! 4) = []) ex_instance.
Proof.
  split; [exact ex_ok|]. eapply wp_mono; [apply (import_sends_waiters (ex_reply 20 [1]) 4 4 ex_instance ex_ok)|].
  - done.
  - done.
  - done.
  - intros x d Hx H. change (x ∈ [12]) in Hx. apply list_elem_of_singleton in Hx as ->. by injection H as <-.
  - intros [] i' (_ & _ & E & H). split; [|done]. apply (H 12 4); [by left|done].
Defined.

Lemma migrate_dc_phone (n : Z) : 0 <= n < 2 ^ 31 -> migrate_dc (codes "PHONE_MIGRATE_" ++ number_string n) = Some n.
Proof. intros Hn. unfold migrate_dc. rewrite (trailing_int_number (codes "PHONE_MIGRATE_") n) by done. done. Qed.

(** C30. A request for the main data center told to migrate: the data center
    named becomes the main one, its session takes the request, and the session
    of the former main data center is gone, with whatever it had in line. *)
Theorem migration_moves_main (e : surroundings) (n m dc code_ : Z) (d : list Z) (response : Response) (i : instance) :
  ok i -> plain n -> mainSession (net i) = Some m -> responseTo response <> 0 ->
  requestsByDc (rt i) !! responseTo response = Some dc -> dc < 0 ->
  wp (onErrorDefault e (mk_error code_ (codes "PHONE_MIGRATE_" ++ number_string n) d) response) (fun b i' =>
    b = true /\ mainSession (net i') = Some n /\ mainDcId (net i') = n /\ net_ok (net i')
    /\ line (net i') n (responseTo response) /\ requestsByDc (rt i') !! responseTo response = Some (- n)
    /\ (m <> n -> sessions (net i') !! m = None)) i.
Proof.
  intros Hi Hp Em Hid Edc Hneg. set (id := responseTo response) in *. pose proof Hp as Hp'. unfold plain, kDcShift in Hp'.
  unfold onErrorDefault. cbn [type]. rewrite migrate_dc_phone by lia. fold id. unfold migrate.
  rewrite (proj2 (Z.eqb_neq _ _) Hid). apply wp_query. rewrite Edc. simpl.
  rewrite (proj2 (Z.eqb_neq dc 0)), (proj2 (Z.eqb_neq n 0)), (proj2 (Z.ltb_lt dc 0)) by lia. simpl.
  pose proof (known id i Hi) as Hk. destruct (requestMap (rt i) !! id) as [ref|] eqn:Er; [|congruence].
  destruct Hk as ((o & Ho & Eid) & _). apply wp_bind, wp_bind.
  eapply wp_mono; [apply (setMainDcId_run n m); [apply Hi|done|done]|]. cbv beta.
  intros [] i1 (Er1 & _ & Hn1 & Eo1 & Em1 & Ed1 & Es1). apply wp_ret, wp_request. rewrite Er1, Er.
  assert (is_Some (sessions (net i1) !! n)) as Hs.
  { destruct (net_main _ Hn1) as (m' & E & Hm' & _). rewrite Em1 in E. by injection E as <-. }
  assert (getSession n i1 = Some (n, i1)) as Hget.
  { unfold getSession. rewrite (proj2 (Z.eqb_neq n 0)), (proj2 (Z.eqb_neq (BareDcId n) 0)) by (rewrite ?(bare_plain n Hp); lia).
    unfold findOrStart, bind, gets. by destruct Hs as [r ->]. }
  eapply wp_step; [exact Hget|]. apply wp_update, wp_bind. set (i2 := set_rt _ i1).
  eapply wp_mono; [eapply wp_also with (P := fun _ i' => forall x, x <> n -> sessions (net i') !! x = sessions (net i2) !! x);
    [apply (send_prepared_run n ref 0 o i2); [done|done|simpl; by rewrite Eo1]|]|].
  { intros u i' E x Hx. by eapply send_prepared_others. }
  cbv beta. intros [] i3 [(Er3 & _ & Hn3 & Hk3 & Hl) Ho3]. destruct (kept_main _ _ Hk3) as [E1 E2]. apply wp_ret.
  split_and!; [done|by rewrite E1|by rewrite E2|done|by rewrite <- Eid|rewrite Er3; simpl; by rewrite lookup_insert_eq|].
  intros Hne. rewrite Ho3 by done. simpl. rewrite Es1. unfold moved.
  rewrite decide_False, lookup_insert_ne, lookup_delete_ne by done. apply lookup_delete_eq.
Qed.

Lemma migration_moves_main_witness :
  wp (onErrorDefault ex_around (mk_error 303 (codes "PHONE_MIGRATE_5") []) (ex_reply 10 [])) (fun _ i' =>
    mainDcId (net i') = 5 /\ line (net i') 5 10 /\ sessions (net i') !! 2 = None) ex_instance.
Proof.
  eapply wp_mono; [apply (migration_moves_main ex_around 5 2 (-2) 303 [] (ex_reply 10 []) ex_instance ex_ok); done|].
  intros b i' (_ & _ & Ed & _ & Hl & _ & H). split; [done|]. split; [done|]. by apply H.
Defined.

(** ** Cancelled requests *)

Lemma unregister_deleted (id : Z) (i : instance) :
  unregisterRequest id (set_rt (fun r => set_requests (delete id (requestMap r)) r) i) = unregisterRequest id i.
Proof.
  rewrite !unregister_eq. cbn [rt set_rt set_requests dependentRequests].
  destruct (closureLoop _ _ _) as [s|]; [|done]. f_equal. simpl. f_equal. unfold without. simpl. by rewrite delete_delete_eq.
Qed.

(** A session told to forget a request. *)
Lemma cancel_run (dc id msgId : Z) (i : instance) : ok i -> is_Some (sessions (net i) !! dc) -> id <> 0 ->
  wp (in_session dc (inside (cancel id msgId))) (fun _ i' => ok i' /\ rt i' = rt i /\ ~ line (net i') dc id
    /\ is_Some (sessions (net i') !! dc) /\ mainSession (net i') = mainSession (net i)
    /\ forall x, x <> id -> in_line (net i) x -> in_line (net i') x) i.
Proof.
  intros [Hn Hr] [r Hs] Hid. unfold wp, in_session. rewrite Hs. unfold inside, cancel.
  rewrite (proj2 (Z.eqb_neq _ _) Hid). cbn [negb].
  set (n' := fun r' => set_sessions (<[dc := r']> (sessions (net i))) (net i)).
  assert (forall r' h, toSend (tb (base r')) = delete id (toSend (tb (base r))) -> h = objects (net i) ->
    let i' := set_net (fun n => set_sessions (<[dc := r']> (sessions n)) (set_objects h n)) i in
    ok i' /\ rt i' = rt i /\ ~ line (net i') dc id /\ is_Some (sessions (net i') !! dc)
    /\ mainSession (net i') = mainSession (net i) /\ forall x, x <> id -> in_line (net i) x -> in_line (net i') x) as H.
  { intros r' h Et ->. simpl. destruct Hn as [A1 A2 A3 A4 A5]. split_and!.
    - split; simpl; [split; simpl|by destruct Hr; split].
      + destruct A1 as (m & E & Hm & Hp). exists m. split; [done|]. split; [|done]. apply lookup_insert_is_Some'. by right.
      + intros x Hx. apply lookup_insert_is_Some' in Hx as [<-|Hx]; apply A2; eauto.
      + intros x y k ref [[<- <-]|[_ Hx]]%lookup_insert_Some Hk; [|by eapply A3].
        rewrite Et in Hk. apply lookup_delete_Some in Hk as [_ Hk]. by eapply A3.
      + done.
      + done.
    - done.
    - intros (y & Hy & Hk). simpl in Hy. rewrite lookup_insert_eq in Hy. injection Hy as <-.
      rewrite Et, lookup_delete_eq in Hk. by destruct Hk.
    - rewrite lookup_insert_eq. eauto.
    - done.
    - intros x Hx (k & y & Hy & Hin). exists k. destruct (decide (k = dc)) as [->|Hne].
      + exists r'. simpl. rewrite lookup_insert_eq, Et, lookup_delete_ne by done. replace y with r in Hin by congruence. done.
      + exists y. simpl. by rewrite lookup_insert_ne. }
  destruct (negb (msgId =? 0)); unfold bind, modify, ret; cbn [base lend set_base set_tb tb];
    eapply H; reflexivity.
Qed.

(** A request cancelled: nothing of it is left in the tables nor in line in
    its session, those that waited for it are sent, and no other request that
    was in line stops to be. *)
Theorem cancelled_request_gone (id ref dc : Z) (i : instance) :
  ok i -> id <> 0 -> requestMap (rt i) !! id = Some ref -> requestsByDc (rt i) !! id = Some dc ->
  wp (cancelRequest id) (fun _ i' => ok i' /\ closed id i'
    /\ (exists s, targets (Z.abs dc) s (net i') /\ ~ line (net i') s id)
    /\ (forall x, x <> id -> in_line (net i) x -> in_line (net i') x)
    /\ forall x, x <> id -> tc (waits (dependentRequests (rt i))) x id -> in_line (net i') x) i.
Proof.
  intros Hi Hid Er Edc. unfold cancelRequest. rewrite (proj2 (Z.eqb_neq _ _) Hid). apply wp_query, wp_request. rewrite Er, Edc.
  pose proof (known id i Hi) as Hk. rewrite Er in Hk. destruct Hk as ((d & Hd & _) & _).
  apply wp_bind, wp_bind, (wp_object ref d); [done|]. apply wp_update, wp_ret, wp_bind.
  unfold wp at 1. rewrite unregister_deleted. eapply wp_mono; [by apply unregister_run|]. cbv beta.
  intros [] i1 (Hi1 & Hk1 & _ & gone & Hg & Er1 & Hl1). apply wp_bind, wp_bind.
  eapply net_run_wp; [apply getSession_run; [apply Hi1|apply abs_target]|]. cbv beta.
  intros s i2 Er2 _ Hn2 Hk2 [Ht _].
  assert (ok i2) as Hi2 by (split; [done|rewrite Er2; eapply rt_ok_kept; [exact Hk2|apply Hi1]]).
  eapply wp_mono; [apply (cancel_run s id); [done|apply Ht|done]|]. cbv beta.
  intros [] i3 (Hi3 & Er3 & Hnl & Hs3 & Em3 & Hl3). apply wp_modify. split_and!.
  - destruct Hi3 as [? ?]. split; [done|by apply (rt_ok_same _ (rt i3))].
  - split; simpl; rewrite ?Er3, ?Er2, ?Er1; simpl; try apply lookup_delete_eq.
    + rewrite lookup_remove_all, decide_True; [done|]. apply Hg. by left.
    + intros x. rewrite lookup_remove_all. case_decide as Hx; [done|]. intros E. apply Hx, Hg. right. by apply tc_once.
  - exists s. split; [|done]. destruct Ht as (_ & H2 & H3 & H4). split_and!; [done|done|intros H0; simpl; rewrite Em3; auto|done].
  - intros x Hx Hin. apply Hl3; [done|]. by apply (in_line_kept (net i1)), (in_line_kept (net i)).
  - intros x Hx Hin. apply Hl3; [done|]. apply (in_line_kept (net i1)); [done|]. apply Hl1; [|done]. apply Hg. by right.
Qed.

Lemma cancelled_request_gone_witness : ok ex_instance /\
  wp (cancelRequest 11) (fun _ i' => ok i' /\ closed 11 i' /\ in_line (net i') 12) ex_instance.
Proof.
  split; [exact ex_ok|].
  eapply wp_mono; [apply (cancelled_request_gone 11 2 (-2) ex_instance ex_ok); done|].
  intros [] i' (Hi & Hc & _ & _ & H). split; [done|]. split; [done|]. apply H; [done|by apply tc_once].
Defined.

(** ** Requests that ended *)

(** C5. A request is answered at most once: after an answer to it, unless that is
    an error for which it is to be sent again and its handler was put back, and
    after it is cancelled, no handler waits for its answer, and another answer
    to it calls none and changes nothing. *)
Theorem answered_at_most_once {scheme : Scheme} (e : surroundings) {handlers : Handlers e} (id : Z) (i : instance) :
  ok i ->
  (forall response, responseTo response = id -> id <= globalRequestId i -> registered id i ->
     sane (type (reply_error e (reply response))) ->
     (forall h, parserMap (rt i) !! id = Some h -> importable h id i) ->
     wp (processCallback e response) (fun _ i' => never_again e id i'
       \/ is_error response /\ is_Some (parserMap (rt i) !! id)
          /\ parserMap (rt i') !! id = parserMap (rt i) !! id /\ placed i' id) i)
  /\ (forall ref dc, id <> 0 -> requestMap (rt i) !! id = Some ref -> requestsByDc (rt i) !! id = Some dc ->
     wp (cancelRequest id) (fun _ i' => never_again e id i') i).
Proof.
  intros Hi. split.
  - intros response <- Hg Hr Hs Himp. eapply wp_mono; [by apply answer_outcome|]. cbv beta.
    intros [] i' [_ [Hc|Hp]]; [left; by apply closed_never_again|by right].
  - intros ref dc Hid Er Edc. eapply wp_mono; [by apply (cancelled_request_gone id ref dc)|]. cbv beta.
    intros [] i' (_ & Hc & _). by apply closed_never_again.
Qed.

Lemma answered_at_most_once_witness :
  wp (processCallback ex_around (ex_reply 10 [1])) (fun _ i' => never_again ex_around 10 i') ex_instance
  /\ wp (cancelRequest 11) (fun _ i' => never_again ex_around 11 i') ex_instance.
Proof.
  split.
  - eapply wp_mono; [apply (proj1 (answered_at_most_once ex_around 10 ex_instance ex_ok)); [done|by vm_compute|by eexists| |]|].
    + intros dc. vm_compute. discriminate.
    + intros h [= <-]. done.
    + cbv beta. intros [] i' [H|[[ws [=]] _]]. done.
  - apply (proj2 (answered_at_most_once ex_around 11 ex_instance ex_ok) 2 (-2)); done.
Defined.

(** ** Authorization that fails *)

(** What an error answer to an import of authorization looks like. *)
Definition import_refused (d : list Z) : Error := mk_error 400 (codes "AUTH_BYTES_INVALID") d.
Definition unauthorized_error (d : list Z) : Error := mk_error 401 (codes "AUTH_KEY_UNREGISTERED") d.

(** Others wait for the authorization of the data center: the request joins
    them, and that is all. *)
Lemma joins_waiters {scheme : Scheme} (e : surroundings) (d : list Z) (response : Response) (dc : Z) (i : instance) :
  requestsByDc (rt i) !! responseTo response = Some dc -> hasMainDcId (net i) = true ->
  BareDcId (Z.abs dc) <> 0 -> BareDcId (Z.abs dc) <> mainDcId (net i) ->
  default [] (authWaiters (rt i) !! BareDcId (Z.abs dc)) <> [] ->
  onErrorDefault e (unauthorized_error d) response i = Some (true, set_rt (fun r => set_waiters
    (<[BareDcId (Z.abs dc) := default [] (authWaiters (rt i) !! BareDcId (Z.abs dc)) ++ [responseTo response]]> (authWaiters r)) r) i).
Proof.
  intros Hdc Hmain Hb Hne Hwait. transitivity (unauthorized e (responseTo response) (unauthorized_error d) false response i).
  { done. }
  unfold unauthorized, queryRequestByDc, waiting, set_waiting, update, modify, table, bind, gets, ret.
  rewrite Hdc. cbn [default from_option Datatypes.id]. cbv zeta. rewrite (proj2 (Z.eqb_neq _ _) Hb), (proj2 (Z.eqb_neq _ _) Hne), Hmain. cbn [orb negb].
  by rewrite bool_decide_eq_false_2.
Qed.

(** A request of a data center others wait for joins them, and no request is
    made on its behalf. *)
Definition stuck (e : surroundings) {scheme : Scheme} (i : instance) : Prop :=
  forall y dc d, requestsByDc (rt i) !! responseTo y = Some dc -> hasMainDcId (net i) = true ->
    BareDcId (Z.abs dc) <> 0 -> BareDcId (Z.abs dc) <> mainDcId (net i) ->
    default [] (authWaiters (rt i) !! BareDcId (Z.abs dc)) <> [] ->
    exists i', onErrorDefault e (unauthorized_error d) y i = Some (true, i')
      /\ net i' = net i /\ globalRequestId i' = globalRequestId i /\ authExportRequests (rt i') = authExportRequests (rt i)
      /\ responseTo y ∈ default [] (authWaiters (rt i') !! BareDcId (Z.abs dc)).

(** When importing authorization in a data center is refused, the requests
    that wait for it keep waiting, though nothing is under way: a later request
    of that data center without authorization joins them and no request is
    made on its behalf. *)
Theorem failed_import_blocks (scheme : Scheme) (e : surroundings) (d ws : list Z) (response : Response) (i : instance) :
  ok i -> parserMap (rt i) !! responseTo response = Some (mk_handler (Some OnImport) (Some OnImport)) ->
  reply response = mtpc_rpc_error :: ws -> reply_error e (reply response) = import_refused d ->
  wp (processCallback e response) (fun _ i' => ok i' /\ closed (responseTo response) i'
    /\ authWaiters (rt i') = authWaiters (rt i) /\ globalRequestId i' = globalRequestId i /\ stuck e i') i.
Proof.
  intros Hi Hp Hw He. set (id := responseTo response) in *. unfold processCallback. apply wp_table. fold id. rewrite Hp.
  apply wp_update. cbn [from_option default on_done on_fail]. rewrite bool_decide_eq_false_2 by done. cbn [andb].
  rewrite Hw, Z.eqb_refl, <- Hw, He.
  set (i0 := set_rt _ i). assert (settled id i0) as Hi0.
  { destruct Hi as [? ?]. split; [split; [done|by apply (rt_ok_same _ (rt i))]|]. simpl. apply lookup_delete_eq. }
  assert (rpcErrorOccured e response (Some OnImport) (import_refused d) i0 = Some (true, i0)) as Hclean.
  { unfold rpcErrorOccured, onErrorDefault, import_refused. cbn [type code]. by destruct i0. }
  unfold handleError. eapply wp_step; [exact Hclean|].
  eapply wp_mono; [apply wp_also with (P := fun _ i1 => ok i1 /\ closed id i1)|].
  { apply unregister_run, Hi0. }
  { intros u i1 E. pose proof (unregister_closes id i0 Hi0) as Hc. unfold wp in Hc. fold id in E. by rewrite E in Hc. }
  cbv beta. intros [] i1 [(_ & _ & Eg & gone & _ & Er & _) [Hi1 Hc]]. split_and!; [done|done|by rewrite Er|by rewrite Eg|].
  intros y dc d' Hdc Hmain Hb Hne Hwait. eexists. split; [by apply (joins_waiters e d' y dc)|].
  split_and!; [done..|]. simpl. rewrite lookup_insert_eq. simpl. apply elem_of_app. right. by left.
Qed.

Lemma failed_import_blocks_witness :
  wp (processCallback ex_around (ex_error 20 400 "AUTH_BYTES_INVALID")) (fun _ i' =>
    closed 20 i' /\ authWaiters (rt i') = {[4 := [12]]} /\ globalRequestId i' = 30) ex_instance.
Proof.
  eapply wp_mono; [apply (failed_import_blocks ex_reader ex_around [] (400 :: codes "AUTH_BYTES_INVALID")
    (ex_error 20 400 "AUTH_BYTES_INVALID") ex_instance ex_ok); by vm_compute|].
  intros [] i' (_ & Hc & Ew & Eg & _). split; [done|]. by split.
Defined.

(** A request for the main data center that waited for authorization of another:
    its session is looked up by the negated id, and a session of that id is
    started. *)
Lemma negative_session (newdc id ref dc : Z) (i : instance) : ok i -> plain newdc ->
  requestMap (rt i) !! id = Some ref -> requestsByDc (rt i) !! id = Some dc -> dc < 0 ->
  wp (resendWaiter newdc id) (fun _ i' => is_Some (sessions (net i') !! (- newdc))) i.
Proof.
  intros Hi Hp Er Edc Hneg. unfold resendWaiter, changeRequestByDc. apply wp_request. rewrite Er. apply wp_bind, wp_table. rewrite Edc.
  pose proof (known id i Hi) as Hk. rewrite Er in Hk. destruct Hk as ((d & Hd & _) & _).
  assert (changedDc dc newdc = - newdc) as -> by (unfold changedDc; by rewrite (proj2 (Z.ltb_lt _ _))).
  apply wp_update, wp_ret. rewrite (proj2 (Z.ltb_lt (- newdc) 0)) by (unfold plain in Hp; lia).
  destruct (net_main _ (ok_net _ Hi)) as (m & Em & _). apply wp_bind.
  eapply wp_mono; [apply (setMainDcId_run newdc m); [apply Hi|done|done]|]. cbv beta.
  intros [] i1 (_ & _ & Hn1 & Eo1 & _).
  assert (BareDcId (- newdc) <> 0) as Hb by (apply bare_opp; rewrite bare_plain by done; unfold plain in Hp; lia).
  eapply net_run_wp; [apply (hand_over_run (- newdc) ref 0 d); [done|by right|by rewrite Eo1]|]. cbv beta.
  intros [] i2 _ _ _ _ (s & (Hs & _ & _ & E) & _). by rewrite <- (E Hb).
Qed.

(** ** Delays and ids *)

(** The delay of a request after its [n]th internal error in a row. *)
Fixpoint delay_after (n : nat) : option Z :=
  match n with
  | O => None
  | S n => Some (nextDelay (delay_after n))
  end.

Lemma delay_doubles (n : nat) : delay_after (S n) = Some (2 ^ Z.of_nat (Nat.min n 6)).
Proof.
  induction n as [|n IH]; [done|]. change (delay_after (S (S n))) with (Some (nextDelay (delay_after (S n)))).
  rewrite IH. simpl nextDelay. destruct (decide (n < 6)%nat).
  - do 6 (destruct n as [|n]; [done|]). lia.
  - rewrite !Nat.min_r by lia. done.
Qed.

(** A request that keeps meeting internal errors is put off by one second,
    then two, four, and so on up to 64, ten milliseconds more each time. *)
Theorem internal_errors_back_off (e : surroundings) (n : nat) (error : Error) (response : Response) (i : instance) :
  ok i -> responseTo response <> 0 -> is_internal error = true ->
  requestsDelays (rt i) !! responseTo response = delay_after n ->
  (forall t, (responseTo response, t) ∉ delayedRequests (rt i)) ->
  wp (putOff e (responseTo response) error) (fun b i' => b = true
    /\ requestsDelays (rt i') !! responseTo response = delay_after (S n)
    /\ (responseTo response, inow e + 1000 * 2 ^ Z.of_nat (Nat.min n 6) + 10) ∈ delayedRequests (rt i')) i.
Proof.
  intros Hi Hid Hint Hd Hnew. set (id := responseTo response) in *. unfold putOff. rewrite (proj2 (Z.eqb_neq _ _) Hid).
  unfold waitSeconds. rewrite Hint. apply wp_bind, wp_table. rewrite Hd.
  assert (nextDelay (delay_after n) = 2 ^ Z.of_nat (Nat.min n 6)) as ->.
  { pose proof (delay_doubles n) as E. simpl in E. by injection E. }
  set (secs := 2 ^ Z.of_nat (Nat.min n 6)). apply wp_update, wp_ret.
  assert (1 <= secs <= 64) as Hsecs.
  { unfold secs. split; [apply (Z.pow_le_mono_r 2 0); lia|]. apply (Z.pow_le_mono_r 2 _ 6); lia. }
  rewrite wraps_small by (unfold fits_s; lia). apply wp_table.
  set (i1 := set_rt _ i). change (delayedRequests (rt i1)) with (delayedRequests (rt i)).
  destruct (insertDelayed id (inow e + secs * 1000 + 10) (delayedRequests (rt i))) as [l|] eqn:El.
  2:{ apply insert_delayed_none in El as [t Ht]. by apply (Hnew t) in Ht. }
  destruct (insert_delayed _ _ _ _ (rt_delayed _ _ (ok_rt _ Hi)) El) as [Hs Hin].
  apply wp_update, wp_bind. set (i2 := set_rt _ i1).
  assert (ok i2) as Hi2.
  { destruct Hi as [Hn [A1 A2 A3 A4 A5 A6]]. by split; [|split]. }
  eapply wp_mono; [apply (delayed_requests_run (inow e) i2 Hi2)|]. cbv beta.
  intros [] i3 Er. apply wp_ret. rewrite Er. split_and!; [done|rewrite delay_doubles; apply lookup_insert_eq|].
  simpl. apply list_elem_of_filter. simpl. split; [lia|]. apply Hin. left. f_equal. lia.
Qed.

Lemma internal_errors_back_off_witness : ok ex_instance /\
  wp (putOff ex_around 10 (mk_error 500 (codes "INTERNAL") [])) (fun _ i' =>
    requestsDelays (rt i') !! 10 = Some 8 /\ (10, 9010) ∈ delayedRequests (rt i')) ex_instance.
Proof.
  split; [exact ex_ok|].
  eapply wp_mono; [apply (internal_errors_back_off ex_around 3 (mk_error 500 (codes "INTERNAL") []) (ex_reply 10 []) ex_instance ex_ok)|].
  - done.
  - done.
  - done.
  - intros t. vm_compute. intros H. repeat (apply elem_of_cons in H as [[=]|H]). by apply not_elem_of_nil in H.
  - intros b i' (_ & E & H). by split.
Defined.

(** Ids given one after another. *)
Fixpoint ids_from (n : nat) (i : instance) : list Z :=
  match n with
  | O => []
  | S n => match GetNextRequestId i with Some (id, i') => id :: ids_from n i' | None => [] end
  end.

Lemma ids_from_spec (n : nat) (i : instance) : 0 <= globalRequestId i < kMaxRequestId ->
  length (ids_from n i) = n /\ forall k, (k < n)%nat ->
    ids_from n i !! k = Some (1 + (globalRequestId i + Z.of_nat k) mod kMaxRequestId).
Proof.
  revert i. induction n as [|n IH]; intros i Hi; simpl; [split; [done|lia]|].
  set (i' := mk_instance _ _ _ _). assert (0 <= globalRequestId i' < kMaxRequestId
    /\ (globalRequestId i') mod kMaxRequestId = (globalRequestId i + 1) mod kMaxRequestId) as [Hi' Em].
  { cbn [globalRequestId i']. assert (0 < kMaxRequestId) by done.
    destruct (Z.eqb_spec (globalRequestId i + 1) kMaxRequestId) as [->|Hne]; [by rewrite Z_mod_same_full|].
    split; [lia|done]. }
  destruct (IH i' Hi') as [Hl Hk]. split; [by rewrite Hl|]. intros [|k] Hlt; simpl.
  - rewrite Z.add_0_r, Z.mod_small by done. f_equal. lia.
  - rewrite Hk by lia. do 2 f_equal. rewrite Zplus_mod, Em, <- Zplus_mod. f_equal. lia.
Qed.

(** Request ids are positive, and no id comes again within the next 2^30 - 1
    ids; they start over after that. *)
Theorem request_ids_distinct (n : nat) (i : instance) : 0 <= globalRequestId i < kMaxRequestId ->
  Z.of_nat n <= kMaxRequestId ->
  length (ids_from n i) = n /\ NoDup (ids_from n i) /\ forall id, id ∈ ids_from n i -> 1 <= id <= kMaxRequestId.
Proof.
  intros Hi Hn. destruct (ids_from_spec n i Hi) as [Hl Hk]. split; [done|]. split.
  - apply NoDup_alt. intros a b x Ha Hb. pose proof (lookup_lt_Some _ _ _ Ha). pose proof (lookup_lt_Some _ _ _ Hb).
    rewrite Hl in *. rewrite Hk in Ha, Hb by done. rewrite <- Hb in Ha. injection Ha as E.
    assert (forall k, (k < n)%nat -> (globalRequestId i + Z.of_nat k) mod kMaxRequestId = globalRequestId i + Z.of_nat k
      \/ (globalRequestId i + Z.of_nat k) mod kMaxRequestId = globalRequestId i + Z.of_nat k - kMaxRequestId) as Hmod.
    { intros k Hlt. destruct (decide (globalRequestId i + Z.of_nat k < kMaxRequestId)); [left; apply Z.mod_small; lia|right].
      rewrite <- (Z_mod_plus_full _ (-1)). apply Z.mod_small. lia. }
    destruct (Hmod a), (Hmod b); try done; lia.
  - intros id [k E]%list_elem_of_lookup. pose proof (lookup_lt_Some _ _ _ E). rewrite Hl in *. rewrite Hk in E by done. injection E as <-.
    pose proof (Z.mod_pos_bound (globalRequestId i + Z.of_nat k) kMaxRequestId ltac:(lia)). lia.
Qed.

Lemma request_ids_distinct_witness : length (ids_from 100 ex_instance) = 100%nat /\ NoDup (ids_from 100 ex_instance).
Proof.
  destruct (request_ids_distinct 100 ex_instance) as (H1 & H2 & _); [vm_compute; by split|by vm_compute|]. by split.
Defined.

