(* ===== verification/Download.v ===== *)
(** * Downloads

    [storage/download_manager_mtproto.cpp]: parts of files are requested through
    the sessions of a data center, as many at a time as each session carries
    well; a session that answers in time carries more, and one that does not is
    removed, its requests going to the others. Files may be redirected to a
    content network, whose parts are decrypted and checked against hashes.

    Tasks are objects of a store, by number. What a task does with its parts is
    the interface [Loader]. Requests get numbers one after another; what is
    called elsewhere is a log, and what is left for later on the main thread a
    list. The clock is read once for each call; a task is destroyed in a step of
    its own ([destroy]). Hash and cipher are parameters. [None] is a failed
    [Expects], [Assert] or [Ensures]. *)

From S2P Require Import Prelude Ids Tcp Text Errors DownloadQueue StateMonad.

(** ** Interface of tasks *)

Inductive effect := RemoveFromQueue | CancelAll.

(** The virtual methods, with whether requests of the task are under way. *)
Class Loader (L : Type) := {
  readyToRequest : bool -> L -> bool;
  takeNextRequestOffset : bool -> L -> option (Z * L);
  feedPart : bool -> Z -> list Z -> L -> option (L * list effect * bool);
  setWebFileSizeHook : Z -> L -> L * list effect * bool;
  cancelOnFail : L -> L * list effect }.

(** ** State *)

Definition kDownloadPartSize : Z := 128 * 1024.
Definition kKillSessionTimeout : Z := 15 * 1000.
Definition kStartWaitedInSession : Z := 4 * kDownloadPartSize.
Definition kMaxWaitedInSession : Z := 16 * kDownloadPartSize.
Definition kStartSessionsCount : nat := 1.
Definition kMaxSessionsCount : nat := 8.
Definition kMaxTrackedSessionRemoves : Z := 64.
Definition kRetryAddSessionTimeout : Z := 8 * 1000.
Definition kRetryAddSessionSuccesses : Z := 3.
Definition kMaxTrackedSuccesses : Z := kRetryAddSessionSuccesses * kMaxTrackedSessionRemoves.
Definition kRemoveSessionAfterTimeouts : Z := 4.
Definition kBadRequestDurationThreshold : Z := 8 * 1000.

Record DcSessionBalanceData := mk_session_balance { requested : Z; successes : Z; maxWaitedAmount : Z }.
Definition DcSessionBalanceData_new : DcSessionBalanceData := mk_session_balance 0 0 kStartWaitedInSession.

Record DcBalanceData := mk_balance {
  sessions : list DcSessionBalanceData; lastSessionRemove : Z; sessionRemoveIndex : nat;
  sessionRemoveTimes : Z; timeouts : Z; totalRequested : Z }.
Definition DcBalanceData_new : DcBalanceData :=
  mk_balance (replicate kStartSessionsCount DcSessionBalanceData_new) 0 0 0 0 0.

Record RequestData := mk_request { offset : Z; sessionIndex : nat; requestedInSession : Z; sent : Z }.

(** A part that waits for its hash. *)
Record unchecked := mk_unchecked { uncheckedIndex : nat; uncheckedBytes : list Z }.

Record Task (L : Type) := mk_task {
  dcId : Z; web : bool; fileReference : list Z;
  sentRequests : gmap Z RequestData; requestByOffset : gmap Z Z;
  cdnDcId : Z; cdnToken : list Z; cdnEncryptionKey : list Z; cdnEncryptionIV : list Z;
  cdnFileHashes : gmap Z (Z * list Z); cdnUncheckedParts : gmap Z unchecked; cdnHashesRequestId : Z;
  loader : L }.
Arguments mk_task {L}.
Arguments dcId {L}.
Arguments web {L}.
Arguments fileReference {L}.
Arguments sentRequests {L}.
Arguments requestByOffset {L}.
Arguments cdnDcId {L}.
Arguments cdnToken {L}.
Arguments cdnEncryptionKey {L}.
Arguments cdnEncryptionIV {L}.
Arguments cdnFileHashes {L}.
Arguments cdnUncheckedParts {L}.
Arguments cdnHashesRequestId {L}.
Arguments loader {L}.

(** What is sent, and done elsewhere. *)
Inductive query :=
  | GetFile (offset : Z) | GetCdnFile (token : list Z) (offset : Z)
  | GetCdnFileHashes (token : list Z) (offset : Z) | ReuploadCdnFile (token requestToken : list Z).
Inductive call :=
  | Send (requestId shiftedDcId : Z) (what : query) | Cancel (requestId : Z)
  | KillSession (shiftedDcId : Z) | StopSession (shiftedDcId : Z)
  | RefreshFileReference (t requestId : Z) (fileReference : list Z).
Inductive later := RequestMoreCdnFileHashes (t : Z) | SessionTimedOut (dc : Z) (index : nat).

Record manager (L : Type) := mk_manager {
  tasks : gmap Z (Task L);
  queues : gmap Z (list Enqueued);
  balanceData : gmap Z DcBalanceData;
  killSessionsWhen : gmap Z Z;
  killSessionsTimer : option Z;
  resetGenerationTimer : bool;
  lastRequestId : Z;
  calls : list call;
  deferred : list later }.
Arguments mk_manager {L}.
Arguments tasks {L}.
Arguments queues {L}.
Arguments balanceData {L}.
Arguments killSessionsWhen {L}.
Arguments killSessionsTimer {L}.
Arguments resetGenerationTimer {L}.
Arguments lastRequestId {L}.
Arguments calls {L}.
Arguments deferred {L}.

(** Answers: a part, or a redirection. *)
Inductive file_result :=
  | File (bytes : list Z)
  | CdnRedirect (dc : Z) (token key iv : list Z) (hashes : list (Z * (Z * list Z))).
Inductive cdn_result := CdnFile (bytes : list Z) | CdnFileReuploadNeeded (requestToken : list Z).

Inductive CheckCdnHashResult := NoHash | Invalid | Good.
Inductive FinishRequestReason := Success | Redirect | Cancelled.

Section Manager.
Context {L : Type} `{!Loader L} (now : Z) (sha256 : list Z -> list Z) (keystream : list Z -> list Z -> nat -> Z).

Implicit Types w : manager L.

Definition set_tasks (x : gmap Z (Task L)) w : manager L := mk_manager x (queues w) (balanceData w) (killSessionsWhen w)
  (killSessionsTimer w) (resetGenerationTimer w) (lastRequestId w) (calls w) (deferred w).
Definition set_queues (x : gmap Z (list Enqueued)) w : manager L := mk_manager (tasks w) x (balanceData w) (killSessionsWhen w)
  (killSessionsTimer w) (resetGenerationTimer w) (lastRequestId w) (calls w) (deferred w).
Definition set_balance (x : gmap Z DcBalanceData) w : manager L := mk_manager (tasks w) (queues w) x (killSessionsWhen w)
  (killSessionsTimer w) (resetGenerationTimer w) (lastRequestId w) (calls w) (deferred w).
Definition set_kill (x : gmap Z Z) (timer : option Z) w : manager L := mk_manager (tasks w) (queues w) (balanceData w) x
  timer (resetGenerationTimer w) (lastRequestId w) (calls w) (deferred w).
Definition set_reset (b : bool) w : manager L := mk_manager (tasks w) (queues w) (balanceData w) (killSessionsWhen w)
  (killSessionsTimer w) b (lastRequestId w) (calls w) (deferred w).
Definition notify (c : call) : M (manager L) unit := modify (fun w => mk_manager (tasks w) (queues w) (balanceData w) (killSessionsWhen w)
  (killSessionsTimer w) (resetGenerationTimer w) (lastRequestId w) (calls w ++ [c]) (deferred w)).
Definition on_main (x : later) : M (manager L) unit := modify (fun w => mk_manager (tasks w) (queues w) (balanceData w) (killSessionsWhen w)
  (killSessionsTimer w) (resetGenerationTimer w) (lastRequestId w) (calls w) (deferred w ++ [x])).
Definition new_request (dc : Z) (what : query) : M (manager L) Z := fun w =>
  let id := lastRequestId w + 1 in
  Some (id, mk_manager (tasks w) (queues w) (balanceData w) (killSessionsWhen w) (killSessionsTimer w)
    (resetGenerationTimer w) id (calls w ++ [Send id dc what]) (deferred w)).

Definition set_sent (s : gmap Z RequestData) (o : gmap Z Z) (d : Task L) : Task L :=
  mk_task (dcId d) (web d) (fileReference d) s o (cdnDcId d) (cdnToken d) (cdnEncryptionKey d) (cdnEncryptionIV d)
    (cdnFileHashes d) (cdnUncheckedParts d) (cdnHashesRequestId d) (loader d).
Definition set_cdn (dc : Z) (token key iv : list Z) (d : Task L) : Task L :=
  mk_task (dcId d) (web d) (fileReference d) (sentRequests d) (requestByOffset d) dc token key iv
    (cdnFileHashes d) (cdnUncheckedParts d) (cdnHashesRequestId d) (loader d).
Definition set_hashes (h : gmap Z (Z * list Z)) (d : Task L) : Task L :=
  mk_task (dcId d) (web d) (fileReference d) (sentRequests d) (requestByOffset d) (cdnDcId d) (cdnToken d)
    (cdnEncryptionKey d) (cdnEncryptionIV d) h (cdnUncheckedParts d) (cdnHashesRequestId d) (loader d).
Definition set_unchecked (u : gmap Z unchecked) (d : Task L) : Task L :=
  mk_task (dcId d) (web d) (fileReference d) (sentRequests d) (requestByOffset d) (cdnDcId d) (cdnToken d)
    (cdnEncryptionKey d) (cdnEncryptionIV d) (cdnFileHashes d) u (cdnHashesRequestId d) (loader d).
Definition set_hashes_request (id : Z) (d : Task L) : Task L :=
  mk_task (dcId d) (web d) (fileReference d) (sentRequests d) (requestByOffset d) (cdnDcId d) (cdnToken d)
    (cdnEncryptionKey d) (cdnEncryptionIV d) (cdnFileHashes d) (cdnUncheckedParts d) id (loader d).
Definition set_loader (l : L) (d : Task L) : Task L :=
  mk_task (dcId d) (web d) (fileReference d) (sentRequests d) (requestByOffset d) (cdnDcId d) (cdnToken d)
    (cdnEncryptionKey d) (cdnEncryptionIV d) (cdnFileHashes d) (cdnUncheckedParts d) (cdnHashesRequestId d) l.
Definition set_reference (r : list Z) (d : Task L) : Task L :=
  mk_task (dcId d) (web d) r (sentRequests d) (requestByOffset d) (cdnDcId d) (cdnToken d)
    (cdnEncryptionKey d) (cdnEncryptionIV d) (cdnFileHashes d) (cdnUncheckedParts d) (cdnHashesRequestId d) (loader d).

Definition the_task (t : Z) : M (manager L) (Task L) := fun w =>
  match tasks w !! t with Some d => Some (d, w) | None => None end.
Definition change_task (t : Z) (f : Task L -> Task L) : M (manager L) unit := modify (fun w => set_tasks (alter f t (tasks w)) w).

(** ** Balance between sessions *)

Definition balance_of (dc : Z) : M (manager L) DcBalanceData := fun w =>
  match balanceData w !! dc with Some b => Some (b, w) | None => None end.
Definition set_balance_of (dc : Z) (b : DcBalanceData) : M (manager L) unit :=
  modify (fun w => set_balance (<[dc := b]> (balanceData w)) w).
(** [_balanceData[dcId]] and [_queues[dcId]]. *)
Definition balance_or_new (dc : Z) : M (manager L) DcBalanceData :=
  modify (fun w => set_balance (emplace dc DcBalanceData_new (balanceData w)) w) ;;; balance_of dc.
Definition queue_or_new (dc : Z) : M (manager L) (list Enqueued) :=
  modify (fun w => set_queues (emplace dc [] (queues w)) w) ;;;
  gets (fun w => default [] (queues w !! dc)).
Definition set_queue (dc : Z) (q : list Enqueued) : M (manager L) unit :=
  modify (fun w => set_queues (<[dc := q]> (queues w)) w).

Definition set_sessions (l : list DcSessionBalanceData) (b : DcBalanceData) : DcBalanceData :=
  mk_balance l (lastSessionRemove b) (sessionRemoveIndex b) (sessionRemoveTimes b) (timeouts b) (totalRequested b).
Definition set_total (n : Z) (b : DcBalanceData) : DcBalanceData :=
  mk_balance (sessions b) (lastSessionRemove b) (sessionRemoveIndex b) (sessionRemoveTimes b) (timeouts b) n.
Definition set_timeouts (n : Z) (b : DcBalanceData) : DcBalanceData :=
  mk_balance (sessions b) (lastSessionRemove b) (sessionRemoveIndex b) (sessionRemoveTimes b) n (totalRequested b).
Definition set_removes (last : Z) (index : nat) (times : Z) (b : DcBalanceData) : DcBalanceData :=
  mk_balance (sessions b) last index times (timeouts b) (totalRequested b).
Definition more_requested (n : Z) (s : DcSessionBalanceData) : DcSessionBalanceData :=
  mk_session_balance (requested s + n) (successes s) (maxWaitedAmount s).
Definition no_successes (s : DcSessionBalanceData) : DcSessionBalanceData :=
  mk_session_balance (requested s) 0 (maxWaitedAmount s).

Definition killSessionsSchedule (dc : Z) : M (manager L) unit :=
  modify (fun w => set_kill (emplace dc (now + kKillSessionTimeout) (killSessionsWhen w))
    (match killSessionsTimer w with Some t => Some t | None => Some (kKillSessionTimeout + 5) end) w).
Definition killSessionsCancel (dc : Z) : M (manager L) unit :=
  modify (fun w => let when_ := delete dc (killSessionsWhen w) in
    set_kill when_ (if bool_decide (when_ = ∅) then None else killSessionsTimer w) w).

Definition changeRequestedAmount (dc : Z) (index : nat) (delta : Z) : M (manager L) Z :=
  b <- balance_of dc ;;
  s <- lift (sessions b !! index) ;;
  let b' := set_total (totalRequested b + delta) (set_sessions (<[index := more_requested delta s]> (sessions b)) b) in
  set_balance_of dc b' ;;;
  (if 0 <? delta then killSessionsCancel dc
   else if negb (existsb (fun s => 0 <? requested s) (sessions b')) then killSessionsSchedule dc
   else ret tt) ;;;
  ret (requested s + delta).

Definition requestSucceeded (dc : Z) (index : nat) (amountAtRequestStart timeAtRequestStart : Z) : M (manager L) unit :=
  b <- balance_of dc ;;
  data <- lift (sessions b !! index) ;;
  let overloaded := (timeAtRequestStart <=? lastSessionRemove b) || (maxWaitedAmount data <? amountAtRequestStart) in
  if overloaded then ret tt else
  if kBadRequestDurationThreshold <=? now - timeAtRequestStart then on_main (SessionTimedOut dc index) else
  let most := if (amountAtRequestStart =? maxWaitedAmount data) && (maxWaitedAmount data <? kMaxWaitedInSession)
    then Z.min (maxWaitedAmount data + kDownloadPartSize) kMaxWaitedInSession else maxWaitedAmount data in
  let data := mk_session_balance (requested data) (Z.min (successes data + 1) kMaxTrackedSuccesses) most in
  let l := <[index := data]> (sessions b) in
  let notEnough := existsb (fun s => successes s <? (sessionRemoveTimes b + 1) * kRetryAddSessionSuccesses) l in
  if notEnough then set_balance_of dc (set_sessions l b) else
  let b := set_sessions (no_successes <$> l) b in
  if 0 <? timeouts b then set_balance_of dc (set_timeouts (timeouts b - 1) b) else
  if (length l =? kMaxSessionsCount)%nat then set_balance_of dc b else
  let delay := (sessionRemoveTimes b + 1) * kRetryAddSessionTimeout in
  if negb (lastSessionRemove b =? 0) && (now <? lastSessionRemove b + delay) then set_balance_of dc b else
  set_balance_of dc (set_sessions (sessions b ++ [DcSessionBalanceData_new]) b).

(** [ranges::min_element]: the first of the least, after the best so far. *)
Fixpoint min_element {A} (f : A -> Z) (best : nat * A) (i : nat) (l : list A) : nat * A :=
  match l with
  | [] => best
  | x :: l => min_element f (if f x <? f best.2 then (i, x) else best) (S i) l
  end.

Definition chooseSessionIndex (dc : Z) : M (manager L) nat :=
  b <- balance_of dc ;;
  match sessions b with
  | [] => lift None
  | s :: l => ret (min_element requested (O, s) 1 l).1
  end.

(** The session to send through, in [trySendNextPart]. *)
Definition bestIndex (b : DcBalanceData) : option nat :=
  let proj data := if requested data <? maxWaitedAmount data then requested data else kMaxWaitedInSession in
  match sessions b with
  | [] => None
  | s :: l =>
      let (index, j) := min_element proj (O, s) 1 l in
      if requested j + kDownloadPartSize <=? maxWaitedAmount j then Some index else None
  end.

(** ** Requests of a task *)

Definition haveSentRequests (d : Task L) : bool :=
  negb (bool_decide (sentRequests d = ∅)) || negb (bool_decide (cdnUncheckedParts d = ∅)).
Definition haveSentRequestForOffset (o : Z) (d : Task L) : bool :=
  bool_decide (is_Some (requestByOffset d !! o)) || bool_decide (is_Some (cdnUncheckedParts d !! o)).

Definition sendRequest (t o : Z) (index : nat) : M (manager L) Z :=
  d <- the_task t ;;
  shiftedDcId <- lift (Dc.downloadDcId (if negb (cdnDcId d =? 0) then cdnDcId d else dcId d) (Z.of_nat index)) ;;
  new_request shiftedDcId (if negb (cdnDcId d =? 0) then GetCdnFile (cdnToken d) o else GetFile o).

(** [Ensures(ok1 && ok2)] *)
Definition placeSentRequest (t requestId o : Z) (index : nat) : M (manager L) unit :=
  d <- the_task t ;;
  amount <- changeRequestedAmount (dcId d) index kDownloadPartSize ;;
  if bool_decide (is_Some (sentRequests d !! requestId)) || bool_decide (is_Some (requestByOffset d !! o))
  then lift None
  else change_task t (fun d => set_sent (<[requestId := mk_request o index amount now]> (sentRequests d))
         (<[o := requestId]> (requestByOffset d)) d).

Definition makeRequest (t o : Z) (index : nat) : M (manager L) unit :=
  id <- sendRequest t o index ;; placeSentRequest t id o index.

(** [Ensures(ok)] *)
Definition finishSentRequest (t requestId : Z) (reason : FinishRequestReason) : M (manager L) RequestData :=
  d <- the_task t ;;
  result <- lift (sentRequests d !! requestId) ;;
  (if cdnHashesRequestId d =? requestId then change_task t (set_hashes_request 0) else ret tt) ;;;
  changeRequestedAmount (dcId d) (sessionIndex result) (- kDownloadPartSize) ;;;
  change_task t (fun d => set_sent (delete requestId (sentRequests d)) (delete (offset result) (requestByOffset d)) d) ;;;
  (match reason with
   | Success => requestSucceeded (dcId d) (sessionIndex result) (requestedInSession result) (sent result)
   | _ => ret tt
   end) ;;;
  if bool_decide (is_Some (requestByOffset d !! offset result)) then ret result else lift None.

Definition cancelRequest (t requestId : Z) : M (manager L) unit :=
  d <- the_task t ;;
  let hashes := cdnHashesRequestId d =? requestId in
  notify (Cancel requestId) ;;;
  finishSentRequest t requestId Cancelled ;;;
  if hashes && negb (bool_decide (cdnUncheckedParts d = ∅)) then on_main (RequestMoreCdnFileHashes t) else ret tt.

Definition cancelAllRequests (t : Z) : M (manager L) unit :=
  d <- the_task t ;;
  each (cancelRequest t) (sorted_keys (sentRequests d)) ;;;
  change_task t (set_unchecked ∅).

Definition cancelRequestForOffset (t o : Z) : M (manager L) unit :=
  d <- the_task t ;;
  (match requestByOffset d !! o with Some id => cancelRequest t id | None => ret tt end) ;;;
  change_task t (fun d => set_unchecked (delete o (cdnUncheckedParts d)) d).

Definition loadPart (t : Z) (index : nat) : M (manager L) unit :=
  d <- the_task t ;;
  o <- lift (takeNextRequestOffset (haveSentRequests d) (loader d)) ;;
  change_task t (set_loader o.2) ;;;
  makeRequest t o.1 index.

(** [DownloadMtprotoTask::removeSession] *)
Definition moveUnchecked (t : Z) (index : nat) (o : Z) : M (manager L) unit :=
  d <- the_task t ;;
  match cdnUncheckedParts d !! o with
  | Some u =>
      if (uncheckedIndex u =? index)%nat then
        newIndex <- chooseSessionIndex (dcId d) ;;
        if (newIndex <? index)%nat
        then change_task t (set_unchecked (<[o := mk_unchecked newIndex (uncheckedBytes u)]> (cdnUncheckedParts d)))
        else lift None
      else ret tt
  | None => ret tt
  end.

Definition redirectRequest (t : Z) (index : nat) (r : Z * RequestData) : M (manager L) unit :=
  d <- the_task t ;;
  let needMakeRequest := negb (r.1 =? cdnHashesRequestId d) in
  cancelRequest t r.1 ;;;
  if needMakeRequest then
    newIndex <- chooseSessionIndex (dcId d) ;;
    if (newIndex <? index)%nat then makeRequest t (offset r.2) newIndex else lift None
  else ret tt.

Definition taskRemoveSession (index : nat) (t : Z) : M (manager L) unit :=
  d <- the_task t ;;
  let redirect := filter (fun r => sessionIndex r.2 = index) (entries (sentRequests d)) in
  each (moveUnchecked t index) (sorted_keys (cdnUncheckedParts d)) ;;;
  each (redirectRequest t index) redirect.

(** ** The manager *)

Definition ready_in (ts : gmap Z (Task L)) (t : Z) : bool :=
  match ts !! t with Some d => readyToRequest (haveSentRequests d) (loader d) | None => false end.

Definition trySendNextPart (dc : Z) : M (manager L) bool :=
  b <- balance_or_new dc ;;
  match bestIndex b with
  | None => ret false
  | Some index =>
      q <- queue_or_new dc ;;
      ts <- gets tasks ;;
      match nextTask (ready_in ts) (0 <? totalRequested b) q with
      | Some t => loadPart t index ;;; ret true
      | None => ret false
      end
  end.

(** Every part sent fills a session up; all together carry no more than this. *)
Definition kSendFuel : nat := S (kMaxSessionsCount * 16).
Fixpoint sendLoop (fuel : nat) (dc : Z) : M (manager L) unit :=
  match fuel with
  | O => lift None
  | S fuel => more <- trySendNextPart dc ;; if more : bool then sendLoop fuel dc else ret tt
  end.
Definition checkSendNext (dc : Z) : M (manager L) unit := sendLoop kSendFuel dc.

Definition enqueueTask (t priority : Z) : M (manager L) unit :=
  d <- the_task t ;;
  q <- queue_or_new (dcId d) ;;
  set_queue (dcId d) (enqueue t priority q) ;;;
  modify (set_reset true) ;;;
  checkSendNext (dcId d).

Definition removeTask (t : Z) : M (manager L) unit :=
  d <- the_task t ;;
  q <- queue_or_new (dcId d) ;;
  set_queue (dcId d) (remove t q) ;;;
  checkSendNext (dcId d).

Definition resetOne (dc : Z) : M (manager L) unit :=
  q <- queue_or_new dc ;;
  q' <- lift (resetGeneration q) ;;
  set_queue dc q'.

Definition resetGenerations : M (manager L) unit :=
  modify (set_reset false) ;;;
  dcs <- gets (fun w => sorted_keys (queues w)) ;;
  each resetOne dcs.

Definition notify_session (dc : Z) (index : nat) (f : Z -> call) : M (manager L) unit :=
  shiftedDcId <- lift (Dc.downloadDcId dc (Z.of_nat index)) ;; notify (f shiftedDcId).

Definition removeSession (dc : Z) : M (manager L) unit :=
  b <- balance_of dc ;;
  if (length (sessions b) <=? kStartSessionsCount)%nat then lift None else
  let index := (length (sessions b) - 1)%nat in
  queue <- queue_or_new dc ;;
  let times := if (sessionRemoveIndex b =? index)%nat
    then Z.min (sessionRemoveTimes b + 1) kMaxTrackedSessionRemoves else 1 in
  let guard := kMaxWaitedInSession * Z.of_nat kMaxSessionsCount in
  set_balance_of dc (set_removes (lastSessionRemove b) index times
    (set_sessions (alter (more_requested guard) index (sessions b)) b)) ;;;
  each (taskRemoveSession index) (task <$> queue) ;;;
  b <- balance_of dc ;;
  session <- lift (last (sessions b)) ;;
  if negb (requested session =? guard) then lift None else
  set_balance_of dc (set_sessions (removelast (sessions b)) b) ;;;
  notify_session dc index KillSession ;;;
  b <- balance_of dc ;;
  set_balance_of dc (set_removes now (sessionRemoveIndex b) (sessionRemoveTimes b) b).

Definition sessionTimedOut (dc : Z) (index : nat) : M (manager L) unit :=
  all <- gets balanceData ;;
  match all !! dc with
  | None => ret tt
  | Some b =>
      if (length (sessions b) <=? index)%nat then ret tt else
      let b := set_sessions (no_successes <$> sessions b) b in
      if (length (sessions b) =? kStartSessionsCount)%nat then set_balance_of dc b else
      let b := set_timeouts (timeouts b + 1) b in
      if timeouts b <? kRemoveSessionAfterTimeouts then set_balance_of dc b else
      set_balance_of dc (set_timeouts 0 b) ;;;
      removeSession dc
  end.

(** A session of the instance restarted by a time out. *)
Definition restartedByTimeout (shiftedDcId : Z) : M (manager L) unit :=
  if Dc.isDownloadDcId shiftedDcId
  then sessionTimedOut (Dc.BareDcId shiftedDcId) (Z.to_nat (Dc.GetDcIdShift shiftedDcId)) else ret tt.

(** [killSessions(dcId)] and [killSessions()] *)
Definition stopSession (dc : Z) (sessions : list DcSessionBalanceData) (j : nat) : M (manager L) unit :=
  s <- lift (sessions !! j) ;;
  if negb (requested s =? 0) then lift None else notify_session dc j StopSession.

Definition killSessionsOf (dc : Z) : M (manager L) unit :=
  all <- gets balanceData ;;
  match all !! dc with
  | None => ret tt
  | Some b =>
      if negb (totalRequested b =? 0) then lift None else
      each (stopSession dc (sessions b)) (seq 0 (length (sessions b))) ;;;
      set_balance_of dc (set_sessions (replicate (length (sessions b)) DcSessionBalanceData_new) DcBalanceData_new)
  end.

Definition killSessions : M (manager L) unit :=
  due <- gets (fun w => filter (fun x => x.2 <= now) (entries (killSessionsWhen w))) ;;
  each (fun x => killSessionsOf x.1) due ;;;
  modify (fun w =>
    let rest := filter (fun x : Z * Z => ~ x.2 <= now) (killSessionsWhen w) in
    let left := foldl (fun left (x : Z * Z) => Z.min (x.2 - now) left) kKillSessionTimeout (entries rest) in
    set_kill rest (if bool_decide (rest = ∅) then None else Some left) w).

(** ** Answers *)

Definition applyEffect (t : Z) (e : effect) : M (manager L) unit :=
  match e with RemoveFromQueue => removeTask t | CancelAll => cancelAllRequests t end.

(** What a method of the task changes in itself is not seen by what it calls of
    the manager, and is put down after it. *)
Definition feed (t o : Z) (bytes : list Z) : M (manager L) bool :=
  d <- the_task t ;;
  r <- lift (feedPart (haveSentRequests d) o bytes (loader d)) ;;
  each (applyEffect t) r.1.2 ;;;
  change_task t (set_loader r.1.1) ;;;
  ret r.2.

Definition cancelTask (t : Z) : M (manager L) unit :=
  d <- the_task t ;;
  let r := cancelOnFail (loader d) in
  each (applyEffect t) r.2 ;;;
  change_task t (set_loader r.1).

Definition addCdnHashes (t : Z) (hashes : list (Z * (Z * list Z))) : M (manager L) unit :=
  change_task t (fun d => set_hashes (foldl (fun m h => match m !! h.1 with Some _ => m | None => <[h.1 := h.2]> m end)
    (cdnFileHashes d) hashes) d).

Definition kKeySize : nat := 32.
Definition kIvecSize : nat := 16.

(** The requests taken back by new parameters, to be made again. *)
Definition takeBack (t requestId : Z) : M (manager L) RequestData :=
  notify (Cancel requestId) ;;; finishSentRequest t requestId Redirect.
Fixpoint takeBackAll (t : Z) (ids : list Z) : M (manager L) (list RequestData) :=
  match ids with
  | [] => ret []
  | id :: ids => r <- takeBack t id ;; l <- takeBackAll t ids ;; ret (r :: l)
  end.

Definition makeAgain (t : Z) (r : RequestData) : M (manager L) unit := makeRequest t (offset r) (sessionIndex r).

Definition changeCDNParams (t : Z) (requestData : RequestData) (dc : Z) (token key iv : list Z)
    (hashes : list (Z * (Z * list Z))) : M (manager L) unit :=
  if negb (dc =? 0) && (negb (length key =? kKeySize)%nat || negb (length iv =? kIvecSize)%nat)
  then cancelTask t else
  d <- the_task t ;;
  let resendAllRequests := negb (cdnDcId d =? dc) || negb (bool_decide (cdnToken d = token))
    || negb (bool_decide (cdnEncryptionKey d = key)) || negb (bool_decide (cdnEncryptionIV d = iv)) in
  change_task t (set_cdn dc token key iv) ;;;
  addCdnHashes t hashes ;;;
  (if resendAllRequests then
     resendRequests <- takeBackAll t (sorted_keys (sentRequests d)) ;;
     each (makeAgain t) resendRequests
   else ret tt) ;;;
  makeAgain t requestData.

Definition normalPartLoaded (t : Z) (result : file_result) (requestId : Z) : M (manager L) unit :=
  requestData <- finishSentRequest t requestId Success ;;
  d <- the_task t ;;
  (match result with
   | CdnRedirect dc token key iv hashes => changeCDNParams t requestData dc token key iv hashes
   | File bytes => feed t (offset requestData) bytes ;;; ret tt
   end) ;;;
  checkSendNext (dcId d).

Definition webPartLoaded (t size : Z) (bytes : list Z) (requestId : Z) : M (manager L) unit :=
  requestData <- finishSentRequest t requestId Success ;;
  d <- the_task t ;;
  let r := setWebFileSizeHook size (loader d) in
  each (applyEffect t) r.1.2 ;;;
  change_task t (set_loader r.1.1) ;;;
  (if r.2 : bool then feed t (offset requestData) bytes ;;; ret tt else ret tt) ;;;
  checkSendNext (dcId d).

(** Errors: whether the task deals with them. *)
Definition partFailed (t : Z) (error : Error) (requestId : Z) : M (manager L) bool :=
  if IsDefaultHandledError error then ret false else cancelTask t ;;; ret true.

Definition normalPartFailed (t : Z) (reference : list Z) (error : Error) (requestId : Z) : M (manager L) bool :=
  if IsDefaultHandledError error then ret false
  else if (code error =? 400) && startsWith (codes "FILE_REFERENCE_") (type error)
  then notify (RefreshFileReference t requestId reference) ;;; ret true
  else partFailed t error requestId.

(** [updated]: the reference found in the updates. *)
Definition refreshFileReferenceFrom (t requestId : Z) (updated current : list Z) : M (manager L) unit :=
  d <- the_task t ;;
  if web d then cancelTask t else
  change_task t (set_reference updated) ;;;
  if bool_decide (updated = current) then cancelTask t else
  if bool_decide (is_Some (sentRequests d !! requestId))
  then r <- finishSentRequest t requestId Redirect ;; makeAgain t r else ret tt.

(** ** The content network *)

Definition requestMoreCdnFileHashes (t : Z) : M (manager L) unit :=
  d <- the_task t ;;
  match head (entries (cdnUncheckedParts d)) with
  | None => ret tt
  | Some (o, u) =>
      if negb (cdnHashesRequestId d =? 0) then ret tt else
      shiftedDcId <- lift (Dc.downloadDcId (dcId d) (Z.of_nat (uncheckedIndex u))) ;;
      id <- new_request shiftedDcId (GetCdnFileHashes (cdnToken d) o) ;;
      change_task t (set_hashes_request id) ;;;
      placeSentRequest t id o (uncheckedIndex u)
  end.

Definition checkCdnFileHash (o : Z) (buffer : list Z) (d : Task L) : CheckCdnHashResult :=
  match cdnFileHashes d !! o with
  | None => NoHash
  | Some h => if bool_decide (sha256 buffer = h.2) then Good else Invalid
  end.

(** The counter of the part in the last four bytes of the vector. *)
Definition cdn_ivec (iv : list Z) (o : Z) : list Z :=
  let counterOffset := wrapu 32 (Z.shiftr o 4) in
  take 12 iv ++ [Z.land (Z.shiftr counterOffset 24) 0xFF; Z.land (Z.shiftr counterOffset 16) 0xFF;
    Z.land (Z.shiftr counterOffset 8) 0xFF; Z.land counterOffset 0xFF].

Definition cdn_decrypt (d : Task L) (o : Z) (bytes : list Z) : list Z :=
  (Connection.aesCtrEncrypt keystream bytes (cdnEncryptionKey d)
     (Connection.mk_ctr (cdn_ivec (cdnEncryptionIV d) o) 0)).1.

Definition cdnPartLoaded (t : Z) (result : cdn_result) (requestId : Z) : M (manager L) unit :=
  match result with
  | CdnFileReuploadNeeded requestToken =>
      r <- finishSentRequest t requestId Redirect ;;
      d <- the_task t ;;
      shiftedDcId <- lift (Dc.downloadDcId (dcId d) (Z.of_nat (sessionIndex r))) ;;
      id <- new_request shiftedDcId (ReuploadCdnFile (cdnToken d) requestToken) ;;
      placeSentRequest t id (offset r) (sessionIndex r)
  | CdnFile bytes =>
      r <- finishSentRequest t requestId Success ;;
      d <- the_task t ;;
      if negb (length (cdnEncryptionKey d) =? kKeySize)%nat || negb (length (cdnEncryptionIV d) =? kIvecSize)%nat
      then lift None else
      let buffer := cdn_decrypt d (offset r) bytes in
      (match checkCdnFileHash (offset r) buffer d with
       | NoHash =>
           change_task t (fun d => set_unchecked
             (emplace (offset r) (mk_unchecked (sessionIndex r) buffer) (cdnUncheckedParts d)) d) ;;;
           requestMoreCdnFileHashes t
       | Invalid => cancelTask t
       | Good => feed t (offset r) buffer ;;; ret tt
       end) ;;;
      checkSendNext (dcId d)
  end.

(** The parts checked with new hashes; [None] when the loop was left. *)
Fixpoint checkParts (t : Z) (l : list (Z * unchecked)) (someMoreChecked : bool) : M (manager L) (option bool) :=
  match l with
  | [] => ret (Some someMoreChecked)
  | (o, u) :: l =>
      d <- the_task t ;;
      match checkCdnFileHash o (uncheckedBytes u) d with
      | NoHash => checkParts t l someMoreChecked
      | Invalid => cancelTask t ;;; ret None
      | Good =>
          change_task t (set_unchecked (delete o (cdnUncheckedParts d))) ;;;
          ok <- feed t o (uncheckedBytes u) ;;
          if ok : bool then checkParts t l true else ret None
      end
  end.

Definition getCdnFileHashesDone (t : Z) (hashes : list (Z * (Z * list Z))) (requestId : Z) : M (manager L) unit :=
  d <- the_task t ;;
  if negb (cdnHashesRequestId d =? requestId) then lift None else
  finishSentRequest t requestId Redirect ;;;
  addCdnHashes t hashes ;;;
  d <- the_task t ;;
  checked <- checkParts t (entries (cdnUncheckedParts d)) false ;;
  match checked with
  | None => ret tt
  | Some false => cancelTask t
  | Some true => requestMoreCdnFileHashes t
  end.

Definition reuploadDone (t : Z) (hashes : list (Z * (Z * list Z))) (requestId : Z) : M (manager L) unit :=
  r <- finishSentRequest t requestId Redirect ;;
  addCdnHashes t hashes ;;;
  makeAgain t r.

Definition cdnPartFailed (t : Z) (error : Error) (requestId : Z) : M (manager L) bool :=
  if IsDefaultHandledError error then ret false
  else if is_type (type error) "FILE_TOKEN_INVALID" || is_type (type error) "REQUEST_TOKEN_INVALID" then
    r <- finishSentRequest t requestId Redirect ;;
    changeCDNParams t r 0 [] [] [] [] ;;; ret true
  else partFailed t error requestId.

(** ** Tasks that come and go *)

Definition create (t dc : Z) (is_web : bool) (reference : list Z) (l : L) : M (manager L) unit :=
  modify (fun w => set_tasks (<[t := mk_task dc is_web reference ∅ ∅ 0 [] [] [] ∅ ∅ 0 l]> (tasks w)) w).

Definition destroy (t : Z) : M (manager L) unit :=
  cancelAllRequests t ;;;
  removeTask t ;;;
  modify (fun w => set_tasks (delete t (tasks w)) w).

End Manager.
