(* ===== verification/DownloadFacts.v ===== *)
(** * Downloads: the account of what is requested

    The invariant of [Download]: what a session is said to carry is what tasks
    have requested through it; every operation keeps it and none fails. Tasks
    are any that satisfy the laws of the interface. Redirection to the content
    network is left out here. *)

From S2P Require Import Prelude Ids Text Errors DownloadQueue StateMonad Download.

(** ** Sums over maps and lists *)

Definition total {A} (f : A -> Z) (m : gmap Z A) : Z := map_fold (fun _ x n => f x + n) 0 m.

Lemma total_empty {A} (f : A -> Z) : total f ∅ = 0.
Proof. apply map_fold_empty. Qed.

Lemma total_insert {A} (f : A -> Z) (m : gmap Z A) (k : Z) (x : A) : m !! k = None ->
  total f (<[k := x]> m) = f x + total f m.
Proof. intros Hk. unfold total. rewrite map_fold_insert_L; [done|intros; lia|done]. Qed.

Lemma total_delete {A} (f : A -> Z) (m : gmap Z A) (k : Z) (x : A) : m !! k = Some x ->
  total f m = f x + total f (delete k m).
Proof. intros Hk. rewrite <- (total_insert f _ k) by apply lookup_delete_eq. by rewrite insert_delete_id. Qed.

Lemma total_change {A} (f : A -> Z) (m : gmap Z A) (k : Z) (x y : A) : m !! k = Some x ->
  total f (<[k := y]> m) = total f m - f x + f y.
Proof.
  intros Hk. rewrite (total_delete f m k x Hk), (total_delete f (<[k := y]> m) k y) by apply lookup_insert_eq.
  rewrite delete_insert_eq. lia.
Qed.

Lemma amounts_nonneg {A} (f : A -> Z) (m : gmap Z A) : (forall k x, m !! k = Some x -> 0 <= f x) -> 0 <= total f m.
Proof.
  induction m as [|k x m Hk IH] using map_ind; intros Hf; [done|]. rewrite total_insert by done.
  assert (0 <= f x) by (apply (Hf k), lookup_insert_eq). assert (0 <= total f m); [|lia].
  apply IH. intros j y Hj. apply (Hf j). rewrite lookup_insert_ne; [done|congruence].
Qed.

Lemma total_zero {A} (f : A -> Z) (m : gmap Z A) : (forall k x, m !! k = Some x -> f x = 0) -> total f m = 0.
Proof.
  induction m as [|k x m Hk IH] using map_ind; intros Hf; [done|]. rewrite total_insert by done.
  rewrite (Hf k x) by apply lookup_insert_eq. rewrite IH; [done|].
  intros j y Hj. apply (Hf j). rewrite lookup_insert_ne; [done|congruence].
Qed.

Lemma total_at_least {A} (f : A -> Z) (m : gmap Z A) (k : Z) (x : A) : (forall k x, m !! k = Some x -> 0 <= f x) ->
  m !! k = Some x -> f x <= total f m.
Proof.
  intros Hf Hk. rewrite (total_delete f m k x Hk). assert (0 <= total f (delete k m)); [|lia].
  apply amounts_nonneg. intros j y [_ Hj]%lookup_delete_Some. by eapply Hf.
Qed.

Definition sum (l : list Z) : Z := foldr Z.add 0 l.

Lemma sum_app (a b : list Z) : sum (a ++ b) = sum a + sum b.
Proof. induction a as [|x a IH]; simpl; [done|]. rewrite IH. lia. Qed.

Lemma sum_change {A} (f : A -> Z) (l : list A) (i : nat) (x y : A) : l !! i = Some x ->
  sum (f <$> <[i := y]> l) = sum (f <$> l) - f x + f y.
Proof.
  intros Hi. rewrite insert_take_drop by (by eapply lookup_lt_Some).
  rewrite <- (take_drop_middle l i x Hi) at 3. rewrite !fmap_app, !sum_app, !fmap_cons. simpl. lia.
Qed.

Lemma sum_imap_change {A} (f : nat -> A -> Z) (l : list A) (i : nat) (x y : A) : l !! i = Some x ->
  sum (imap f (<[i := y]> l)) = sum (imap f l) - f i x + f i y.
Proof.
  revert f i. induction l as [|z l IH]; intros f i Hi; [done|]. destruct i as [|i]; simpl in *; [injection Hi as ->; lia|].
  rewrite (IH (f ∘ S) i Hi). unfold compose. lia.
Qed.

Lemma sum_le {A} (f g : A -> Z) (l : list A) : (forall x, x ∈ l -> f x <= g x) -> sum (f <$> l) <= sum (g <$> l).
Proof.
  induction l as [|x l IH]; intros H; [done|]. rewrite !fmap_cons. simpl.
  pose proof (H x ltac:(by left)). assert (sum (f <$> l) <= sum (g <$> l)); [|lia]. apply IH. intros. apply H. by right.
Qed.

Lemma sum_const {A} (c : Z) (l : list A) : sum ((fun _ => c) <$> l) = c * Z.of_nat (length l).
Proof. induction l as [|x l IH]; [simpl; lia|]. rewrite fmap_cons. cbn [sum foldr length]. fold (sum ((fun _ => c) <$> l)). rewrite IH. lia. Qed.

(** ** Laws of tasks *)

(** What a method may have done of the manager: a task leaves its queue only
    with nothing under way, and ends only so or by cancelling what is. *)
Record harmless (have : bool) (goes_on : Prop) (effects : list effect) : Prop := {
  harmless_leave : RemoveFromQueue ∈ effects -> have = false;
  harmless_end : goes_on \/ have = false \/ CancelAll ∈ effects }.

(** [sound]: what a task keeps of itself; [wants]: the offsets it may still ask
    for; [alive]: it may be given parts. *)
Class LoaderLaws (L : Type) `{!Loader L} := {
  sound : L -> Prop;
  wants : L -> Z -> Prop;
  alive : L -> Prop;
  take_ok : forall have l, sound l -> readyToRequest have l = true -> alive l /\ exists o l',
    takeNextRequestOffset have l = Some (o, l') /\ sound l' /\ wants l o /\ alive l' /\ forall x, wants l' x -> wants l x /\ x <> o;
  feed_ok : forall have o bytes l, sound l -> alive l -> exists l' effects ok,
    feedPart have o bytes l = Some (l', effects, ok) /\ sound l' /\ (forall x, wants l' x -> wants l x)
    /\ harmless have (alive l') effects;
  hook_ok : forall size l, sound l -> alive l -> sound (setWebFileSizeHook size l).1.1 /\
    (forall x, wants (setWebFileSizeHook size l).1.1 x -> wants l x)
    /\ (RemoveFromQueue ∉ (setWebFileSizeHook size l).1.2)
    /\ if (setWebFileSizeHook size l).2 then (setWebFileSizeHook size l).1.2 = [] /\ alive (setWebFileSizeHook size l).1.1
       else alive (setWebFileSizeHook size l).1.1 \/ CancelAll ∈ (setWebFileSizeHook size l).1.2;
  cancel_ok : forall l, sound l -> sound (cancelOnFail l).1 /\ (forall x, wants (cancelOnFail l).1 x -> wants l x) /\ (RemoveFromQueue ∉ (cancelOnFail l).2)
    /\ (alive l -> alive (cancelOnFail l).1 \/ CancelAll ∈ (cancelOnFail l).2) }.

(** ** The account *)

Section Account.
Context {L : Type} `{!Loader L, !LoaderLaws L}.
Implicit Types (w : manager L) (d : Task L) (b : DcBalanceData) (s : DcSessionBalanceData).

(** How many requests of a task, and of all, go through a session. *)
Definition through (i : nat) (m : gmap Z RequestData) : Z :=
  total (fun r => if (sessionIndex r =? i)%nat then 1 else 0) m.
Definition carried (dc : Z) (i : nat) (ts : gmap Z (Task L)) : Z :=
  total (fun d => if dcId d =? dc then through i (sentRequests d) else 0) ts.
Definition carried_all (dc : Z) (ts : gmap Z (Task L)) : Z :=
  total (fun d => if dcId d =? dc then total (fun _ => 1) (sentRequests d) else 0) ts.

Definition guard_amount : Z := kMaxWaitedInSession * Z.of_nat kMaxSessionsCount.

(** What is added to a session that is being removed. *)
Definition extra (e : option (Z * nat)) (dc : Z) (i : nat) : Z :=
  if bool_decide (e = Some (dc, i)) then guard_amount else 0.

(** What a session counts for in the bound on all: never less than it may
    carry, unless it is being removed. *)
Definition weight (e : option (Z * nat)) (dc : Z) (i : nat) s : Z :=
  if bool_decide (e = Some (dc, i)) then requested s - guard_amount else Z.max (requested s) kMaxWaitedInSession.
Definition weights (e : option (Z * nat)) (dc : Z) b : Z := sum (imap (weight e dc) (sessions b)).

Record good_session s : Prop := {
  session_most : kStartWaitedInSession <= maxWaitedAmount s <= kMaxWaitedInSession;
  session_parts : (kDownloadPartSize | maxWaitedAmount s);
  session_successes : 0 <= successes s;
  session_steady : 0 < successes s -> requested s <= kMaxWaitedInSession }.

(** A request that will count as a success of its session. *)
Definition steady b (r : RequestData) : Prop :=
  lastSessionRemove b < sent r /\ requestedInSession r <= kMaxWaitedInSession.

Record good_balance (e : option (Z * nat)) (dc : Z) (ts : gmap Z (Task L)) b : Prop := {
  balance_count : (1 <= length (sessions b) <= kMaxSessionsCount)%nat;
  balance_sessions : Forall good_session (sessions b);
  balance_requested : forall i s, sessions b !! i = Some s ->
    requested s = kDownloadPartSize * carried dc i ts + extra e dc i;
  balance_total : totalRequested b = kDownloadPartSize * carried_all dc ts;
  balance_weight : weights e dc b <= guard_amount;
  balance_removes : 0 <= sessionRemoveTimes b }.

Record good_task (now last : Z) d : Prop := {
  task_offsets : forall o id, requestByOffset d !! o = Some id <-> exists r, sentRequests d !! id = Some r /\ offset r = o;
  task_ids : forall id r, sentRequests d !! id = Some r -> 0 < id <= last /\ sent r <= now;
  task_wants : forall o, wants (loader d) o -> requestByOffset d !! o = None;
  task_alive : sentRequests d <> ∅ -> alive (loader d);
  task_sound : sound (loader d);
  task_plain : cdnDcId d = 0 /\ cdnUncheckedParts d = ∅ /\ cdnHashesRequestId d = 0 }.

(** No session of a data center is being removed. *)
Definition whole (e : option (Z * nat)) (dc : Z) : Prop := forall i, e <> Some (dc, i).

Record inv (e : option (Z * nat)) (now : Z) w : Prop := {
  inv_balance : forall dc b, balanceData w !! dc = Some b -> good_balance e dc (tasks w) b;
  inv_task : forall t d, tasks w !! t = Some d -> good_task now (lastRequestId w) d;
  inv_index : forall t d id r, tasks w !! t = Some d -> sentRequests d !! id = Some r -> exists b s,
    balanceData w !! dcId d = Some b /\ sessions b !! sessionIndex r = Some s
    /\ (whole e (dcId d) -> steady b r -> requested s <= kMaxWaitedInSession);
  inv_queue : forall dc q, queues w !! dc = Some q -> in_order q /\ forall t, t ∈ (task <$> q) ->
    exists d, tasks w !! t = Some d /\ dcId d = dc;
  inv_queued : forall t d, tasks w !! t = Some d -> sentRequests d <> ∅ -> exists q, queues w !! dcId d = Some q /\ t ∈ (task <$> q);
  inv_kill : forall dc b, is_Some (killSessionsWhen w !! dc) -> balanceData w !! dc = Some b -> totalRequested b = 0;
  inv_last : 0 <= lastRequestId w }.

(** *** Counting *)

Lemma through_nonneg (i : nat) (m : gmap Z RequestData) : 0 <= through i m.
Proof. apply amounts_nonneg. intros k r _. by destruct (_ =? _)%nat. Qed.

Lemma carried_nonneg (dc : Z) (i : nat) (ts : gmap Z (Task L)) : 0 <= carried dc i ts.
Proof. apply amounts_nonneg. intros k d _. destruct (_ =? _); [apply through_nonneg|done]. Qed.

Lemma carried_all_nonneg (dc : Z) (ts : gmap Z (Task L)) : 0 <= carried_all dc ts.
Proof. apply amounts_nonneg. intros k d _. destruct (_ =? _); [|done]. by apply amounts_nonneg. Qed.

(** A request of a task counts. *)
Lemma carried_pos (t : Z) d (id : Z) (r : RequestData) (ts : gmap Z (Task L)) :
  ts !! t = Some d -> sentRequests d !! id = Some r ->
  1 <= carried (dcId d) (sessionIndex r) ts /\ 1 <= carried_all (dcId d) ts.
Proof.
  intros Ht Hr. split.
  - etrans; [|apply (total_at_least _ ts t d); [intros k x _; destruct (_ =? _); [apply through_nonneg|done]|done]].
    cbv beta. rewrite Z.eqb_refl. etrans; [|apply (total_at_least _ _ id r); [intros k x _; by destruct (_ =? _)%nat|done]].
    cbv beta. by rewrite Nat.eqb_refl.
  - etrans; [|apply (total_at_least _ ts t d); [intros k x _; destruct (_ =? _); [by apply amounts_nonneg|done]|done]].
    cbv beta. rewrite Z.eqb_refl. by apply (total_at_least (fun _ => 1) _ id r).
Qed.

(** One task changed. *)
Lemma carried_change (t dc : Z) (i : nat) d d' (ts : gmap Z (Task L)) : ts !! t = Some d -> dcId d' = dcId d ->
  carried dc i (<[t := d']> ts) = carried dc i ts
    + (if dcId d =? dc then through i (sentRequests d') - through i (sentRequests d) else 0).
Proof. intros Ht E. unfold carried. rewrite (total_change _ ts t d d' Ht), E. destruct (_ =? _); lia. Qed.

Lemma carried_all_change (t dc : Z) d d' (ts : gmap Z (Task L)) : ts !! t = Some d -> dcId d' = dcId d ->
  carried_all dc (<[t := d']> ts) = carried_all dc ts
    + (if dcId d =? dc then total (fun _ => 1) (sentRequests d') - total (fun _ => 1) (sentRequests d) else 0).
Proof. intros Ht E. unfold carried_all. rewrite (total_change _ ts t d d' Ht), E. destruct (_ =? _); lia. Qed.

(** *** The balance of a data center *)

Definition bump (i : nat) (delta : Z) b s : DcBalanceData :=
  set_total (totalRequested b + delta) (set_sessions (<[i := more_requested delta s]> (sessions b)) b).

Lemma weights_bump (e : option (Z * nat)) (dc : Z) (i : nat) (delta : Z) b s : sessions b !! i = Some s ->
  weights e dc (bump i delta b s) = weights e dc b - weight e dc i s + weight e dc i (more_requested delta s).
Proof. intros Hs. unfold weights. simpl. by apply sum_imap_change. Qed.

(** [k] more requests of the data center go through session [i]. *)
Record shifted (dc : Z) (i : nat) (k : Z) (ts ts' : gmap Z (Task L)) : Prop := {
  shifted_one : forall j, carried dc j ts' = carried dc j ts + if (j =? i)%nat then k else 0;
  shifted_all : carried_all dc ts' = carried_all dc ts + k;
  shifted_others : forall x, x <> dc -> (forall j, carried x j ts' = carried x j ts) /\ carried_all x ts' = carried_all x ts }.

Lemma good_bump (e : option (Z * nat)) (dc : Z) (i : nat) (k : Z) (ts ts' : gmap Z (Task L)) b s :
  good_balance e dc ts b -> sessions b !! i = Some s -> shifted dc i k ts ts' ->
  weights e dc (bump i (kDownloadPartSize * k) b s) <= guard_amount ->
  (0 < successes s -> requested s + kDownloadPartSize * k <= kMaxWaitedInSession) ->
  good_balance e dc ts' (bump i (kDownloadPartSize * k) b s).
Proof.
  intros [H1 H2 H3 H4 H5 H6] Hs [E1 E2 _] Hw Hst. split; simpl.
  - by rewrite length_insert.
  - apply Forall_insert; [done|]. rewrite Forall_lookup in H2. destruct (H2 i s Hs). by split.
  - intros j x. rewrite list_lookup_insert. case_decide as Hj.
    + destruct Hj as [<- _]. intros [= <-]. simpl. rewrite (H3 i s Hs), E1, Nat.eqb_refl. lia.
    + intros Hx. rewrite (H3 j x Hx), E1. destruct (Nat.eqb_spec j i) as [->|]; [|lia].
      exfalso. apply Hj. split; [done|]. by eapply lookup_lt_Some.
  - rewrite H4, E2. lia.
  - done.
  - done.
Qed.

Lemma good_others (e : option (Z * nat)) (x : Z) (ts ts' : gmap Z (Task L)) b : good_balance e x ts b ->
  (forall j, carried x j ts' = carried x j ts) -> carried_all x ts' = carried_all x ts -> good_balance e x ts' b.
Proof. intros [H1 H2 H3 H4 H5 H6] E1 E2. split; [done|done| |by rewrite E2|done|done]. intros i s Hs. rewrite E1. auto. Qed.

(** *** Changes of the amounts *)

Context (now : Z).

Lemma alter_at {A} (f : A -> A) (k : Z) (x : A) (m : gmap Z A) : m !! k = Some x -> alter f k m = <[k := f x]> m.
Proof.
  intros Hk. apply map_eq. intros j. destruct (decide (k = j)) as [<-|Hne].
  - by rewrite lookup_alter_eq, Hk, lookup_insert_eq.
  - by rewrite lookup_alter_ne, lookup_insert_ne.
Qed.

(** The data centers that may be waiting to be stopped afterwards. *)
Definition still_waits (dc delta : Z) (kill kill' : gmap Z Z) b : Prop := forall x, is_Some (kill' !! x) ->
  is_Some (kill !! x) /\ (x = dc -> delta <= 0)
  \/ x = dc /\ delta <= 0 /\ Forall (fun s => requested s <= 0) (sessions b).

Lemma change_amount (dc : Z) (i : nat) (delta : Z) b s w : balanceData w !! dc = Some b -> sessions b !! i = Some s ->
  exists K T, changeRequestedAmount now dc i delta w
    = Some (requested s + delta, set_kill K T (set_balance (<[dc := bump i delta b s]> (balanceData w)) w))
  /\ still_waits dc delta (killSessionsWhen w) K (bump i delta b s).
Proof.
  intros Hb Hs. unfold changeRequestedAmount, bind, balance_of, lift, set_balance_of, modify. rewrite Hb, Hs. fold (bump i delta b s).
  destruct (Z.ltb_spec 0 delta) as [Hd|Hd]; [|destruct (existsb _ _) eqn:E; simpl].
  - eexists _, _. split; [reflexivity|]. intros x Hx. simpl in Hx. left. destruct (decide (x = dc)) as [->|Hne].
    + rewrite lookup_delete_eq in Hx. by destruct Hx.
    + by rewrite lookup_delete_ne in Hx.
  - exists (killSessionsWhen w), (killSessionsTimer w). split; [reflexivity|]. intros x Hx. by left.
  - eexists _, _. split; [reflexivity|]. intros x Hx. simpl in Hx. destruct (decide (x = dc)) as [->|Hne].
    + right. split_and!; [done|done|]. apply Forall_forall. intros y Hy.
      destruct (Z.ltb_spec 0 (requested y)) as [Hlt|]; [|done].
      assert (existsb (fun s => 0 <? requested s) (sessions (bump i delta b s)) = true); [|congruence].
      apply existsb_exists. exists y. split; [by apply list_elem_of_In|by apply Z.ltb_lt].
    + left. by rewrite lookup_emplace_ne in Hx by done.
Qed.

(** Nothing is requested of a data center whose sessions carry nothing. *)
Lemma idle_total (e : option (Z * nat)) (ts : gmap Z (Task L)) (dc : Z) b : good_balance e dc ts b ->
  Forall (fun s => requested s <= 0) (sessions b) ->
  (forall x d id r, ts !! x = Some d -> dcId d = dc -> sentRequests d !! id = Some r -> (sessionIndex r < length (sessions b))%nat) ->
  carried_all dc ts = 0.
Proof.
  intros Gb Hi Hx. apply total_zero. intros t d Ht. destruct (Z.eqb_spec (dcId d) dc) as [Ed|]; [|done].
  apply total_zero. intros id r Hr. exfalso.
  destruct (lookup_lt_is_Some_2 (sessions b) (sessionIndex r)) as [s Hs]; [by eapply Hx|].
  rewrite Forall_lookup in Hi. specialize (Hi _ _ Hs). simpl in Hi.
  rewrite (balance_requested _ _ _ _ Gb _ _ Hs) in Hi.
  pose proof (carried_pos t d id r _ Ht Hr) as [Hp _]. rewrite Ed in Hp.
  unfold extra, guard_amount, kMaxWaitedInSession, kDownloadPartSize in Hi. case_bool_decide; lia.
Qed.

(** [k] more requests of a task, through one session. *)
Lemma inv_moved (e : option (Z * nat)) w w' (t : Z) d d' (i : nat) (k : Z) b s :
  inv e now w -> tasks w !! t = Some d -> balanceData w !! dcId d = Some b -> sessions b !! i = Some s ->
  tasks w' = <[t := d']> (tasks w) -> queues w' = queues w ->
  balanceData w' = <[dcId d := bump i (kDownloadPartSize * k) b s]> (balanceData w) ->
  lastRequestId w <= lastRequestId w' -> dcId d' = dcId d -> good_task now (lastRequestId w') d' ->
  (forall j, through j (sentRequests d') = through j (sentRequests d) + if (j =? i)%nat then k else 0) ->
  total (fun _ => 1) (sentRequests d') = total (fun _ => 1) (sentRequests d) + k ->
  weights e (dcId d) (bump i (kDownloadPartSize * k) b s) <= guard_amount ->
  (0 < successes s -> requested s + kDownloadPartSize * k <= kMaxWaitedInSession) ->
  (sentRequests d' <> ∅ -> exists q, queues w !! dcId d = Some q /\ t ∈ (task <$> q)) ->
  (forall x dx id r, (<[t := d']> (tasks w)) !! x = Some dx -> dcId dx = dcId d -> sentRequests dx !! id = Some r ->
    (sessionIndex r < length (sessions b))%nat
    /\ (whole e (dcId d) -> steady b r -> forall y, <[i := more_requested (kDownloadPartSize * k) s]> (sessions b) !! sessionIndex r = Some y ->
        requested y <= kMaxWaitedInSession)) ->
  still_waits (dcId d) (kDownloadPartSize * k) (killSessionsWhen w) (killSessionsWhen w') (bump i (kDownloadPartSize * k) b s) ->
  inv e now w'.
Proof.
  intros H Ht Hb Hs Et Eq Eb El Ed Hd' Ethr Etot Hw Hst Hqd Hix Hk.
  pose proof (inv_balance _ _ _ H _ _ Hb) as Gb.
  assert (shifted (dcId d) i k (tasks w) (tasks w')) as Sh.
  { split.
    - intros j. rewrite Et, (carried_change t _ _ d d') by done. rewrite Z.eqb_refl, Ethr. lia.
    - rewrite Et, (carried_all_change t _ d d') by done. rewrite Z.eqb_refl. lia.
    - intros x Hx. rewrite Et. split; [intros j; rewrite (carried_change t _ _ d d') by done|rewrite (carried_all_change t _ d d') by done];
        rewrite (proj2 (Z.eqb_neq _ _)) by congruence; lia. }
  assert (good_balance e (dcId d) (tasks w') (bump i (kDownloadPartSize * k) b s)) as Gb' by (by eapply good_bump).
  split.
  - intros dc b'. rewrite Eb, lookup_insert. case_decide as Hdc; [subst dc; by intros [= <-]|].
    intros Hb'. eapply good_others; [by apply H|apply (shifted_others _ _ _ _ _ Sh); congruence..].
  - intros x dx. rewrite Et, lookup_insert. case_decide as Hx; [subst x; by intros [= <-]|].
    intros Hdx. destruct (inv_task _ _ _ H _ _ Hdx) as [G1 G2 G3 G4 G5 G6]. split; [done| |done|done|done|done].
    intros id r Hr. destruct (G2 id r Hr). lia.
  - intros x dx id r Hx Hr. rewrite Et in Hx. rewrite Eb. destruct (decide (dcId dx = dcId d)) as [Edx|Ndx].
    + destruct (Hix x dx id r Hx Edx Hr) as [Hlt Hsty]. rewrite Edx, lookup_insert_eq.
      destruct (lookup_lt_is_Some_2 (<[i := more_requested (kDownloadPartSize * k) s]> (sessions b)) (sessionIndex r))
        as [y Hy]; [by rewrite length_insert|]. exists (bump i (kDownloadPartSize * k) b s), y. split_and!; [done|done|]. eauto.
    + rewrite lookup_insert_ne by congruence. rewrite lookup_insert in Hx. case_decide as Htx; [congruence|]. by eapply inv_index.
  - intros dc q. rewrite Eq. intros Hq. destruct (inv_queue _ _ _ H dc q Hq) as [Ho Hin]. split; [done|].
    intros x Hx. destruct (Hin x Hx) as (dx & Hdx & Edx). rewrite Et, lookup_insert. case_decide as Htx; [|by exists dx].
    subst x. exists d'. split; [done|]. simplify_eq. congruence.
  - intros x dx. rewrite Et, Eq, lookup_insert. case_decide as Htx; [subst x; intros [= <-]; rewrite Ed; done|]. by apply H.
  - intros dc b' Hkd. rewrite Eb, lookup_insert. destruct (Hk dc Hkd) as [[Hold Hneg]|(-> & _ & Hidle)].
    + case_decide as Hdc; [subst dc; intros [= <-]|by eapply inv_kill].
      pose proof (inv_kill _ _ _ H _ _ Hold Hb) as Hz. rewrite (balance_total _ _ _ _ Gb) in Hz.
      rewrite (balance_total _ _ _ _ Gb'), (shifted_all _ _ _ _ _ Sh). specialize (Hneg eq_refl).
      pose proof (carried_all_nonneg (dcId d) (tasks w')) as Hn. rewrite (shifted_all _ _ _ _ _ Sh) in Hn.
      unfold kDownloadPartSize in *. lia.
    + case_decide; [|done]. intros [= <-]. rewrite (balance_total _ _ _ _ Gb').
      rewrite (idle_total e (tasks w') (dcId d) _ Gb' Hidle); [done|]. intros x dx id r Hx Edx Hr. rewrite Et in Hx.
      simpl. rewrite length_insert. by apply (Hix x dx id r Hx Edx Hr).
  - pose proof (inv_last _ _ _ H). lia.
Qed.

End Account.
