(* ===== verification/DownloadSend.v ===== *)
(** * Downloads: requests made and finished

    That a request can be made through a session with room and that one under
    way can be finished, and what becomes of the balance; that sending ends,
    with every session full or nothing to send. *)

From S2P Require Import Prelude Ids Text Errors DownloadQueue StateMonad Download DownloadFacts.

Section Send.
Context {L : Type} `{!Loader L, !LoaderLaws L} (now : Z).
Implicit Types (w : manager L) (d : Task L) (b : DcBalanceData) (s : DcSessionBalanceData).

(** ** Requests of a task, counted *)

Lemma through_insert (j : nat) (id : Z) (r : RequestData) (m : gmap Z RequestData) : m !! id = None ->
  through j (<[id := r]> m) = through j m + if (j =? sessionIndex r)%nat then 1 else 0.
Proof. intros Hm. unfold through. rewrite total_insert by done. rewrite Nat.eqb_sym. lia. Qed.

Lemma through_delete (j : nat) (id : Z) (r : RequestData) (m : gmap Z RequestData) : m !! id = Some r ->
  through j (delete id m) = through j m + if (j =? sessionIndex r)%nat then -1 else 0.
Proof.
  intros Hm. unfold through. rewrite (total_delete _ m id r Hm). rewrite Nat.eqb_sym. by case_match; lia.
Qed.

Lemma session_index (e : option (Z * nat)) w (t : Z) d (id : Z) (r : RequestData) b : inv e now w ->
  tasks w !! t = Some d -> sentRequests d !! id = Some r -> balanceData w !! dcId d = Some b ->
  (sessionIndex r < length (sessions b))%nat.
Proof.
  intros H Ht Hr Hb. destruct (inv_index _ _ _ H t d id r Ht Hr) as (b' & s & Hb' & Hs & _).
  simplify_eq. by eapply lookup_lt_Some.
Qed.

Lemma download_dc (e : option (Z * nat)) (dc : Z) (ts : gmap Z (Task L)) b (i : nat) x : good_balance e dc ts b ->
  (i < length (sessions b))%nat -> is_Some (Dc.downloadDcId x (Z.of_nat i)).
Proof.
  intros [[_ H] _ _ _ _ _] Hi. unfold Dc.downloadDcId, Dc.kMaxMediaDcCount, kMaxSessionsCount in *.
  destruct (Z.ltb_spec (Z.of_nat i) 16); [done|lia].
Qed.

(** ** Making a request *)

Definition placed (id o : Z) (i : nat) (amount : Z) d : Task L :=
  set_sent (<[id := mk_request o i amount now]> (sentRequests d)) (<[o := id]> (requestByOffset d)) d.

(** There is room for one part more: the session stays within the most it may
    carry, or all together do and nothing depends on what this one carries. *)
Definition fits (e : option (Z * nat)) w (dc : Z) (i : nat) b s : Prop :=
  requested s + kDownloadPartSize <= kMaxWaitedInSession
  \/ weights e dc b + kDownloadPartSize <= guard_amount /\ successes s <= 0
     /\ (whole e dc -> forall x d id r, tasks w !! x = Some d -> dcId d = dc -> sentRequests d !! id = Some r ->
           sessionIndex r = i -> ~ steady b r).

Record can_make (e : option (Z * nat)) w (t : Z) d (o : Z) (i : nat) b s : Prop := {
  make_task : tasks w !! t = Some d;
  make_free : requestByOffset d !! o = None;
  make_given : ~ wants (loader d) o;
  make_alive : alive (loader d);
  make_queued : exists q, queues w !! dcId d = Some q /\ t ∈ (task <$> q);
  make_balance : balanceData w !! dcId d = Some b;
  make_session : sessions b !! i = Some s;
  make_stays : e <> Some (dcId d, i);
  make_fits : fits e w (dcId d) i b s }.

(** A task and the balance of its data center have changed, and no more. *)
Record changed (t : Z) d' b' w w' : Prop := {
  changed_tasks : tasks w' = <[t := d']> (tasks w);
  changed_queues : queues w' = queues w;
  changed_balance : balanceData w' = <[dcId d' := b']> (balanceData w) }.

Lemma placed_good w d (o : Z) (i : nat) (amount : Z) : good_task now (lastRequestId w) d -> 0 <= lastRequestId w ->
  requestByOffset d !! o = None -> ~ wants (loader d) o -> alive (loader d) ->
  good_task now (lastRequestId w + 1) (placed (lastRequestId w + 1) o i amount d).
Proof.
  intros [G1 G2 G3 G4 G5 G6] Hl Hfree Hw Ha. set (id := lastRequestId w + 1).
  assert (sentRequests d !! id = None) as Hid.
  { apply eq_None_not_Some. intros [r Hr]. destruct (G2 id r Hr). unfold id in *. lia. }
  split; simpl.
  - intros x y. rewrite lookup_insert. case_decide as Hx.
    + subst x. split.
      * intros [= <-]. eexists. by rewrite lookup_insert_eq.
      * intros (r & Hr & Ho). rewrite lookup_insert in Hr. case_decide; [by subst|].
        assert (requestByOffset d !! o = Some y) as E by (apply G1; eauto). congruence.
    + rewrite G1. split; intros (r & Hr & Ho); exists r; (split; [|done]).
      * rewrite lookup_insert_ne; [done|]. intros <-. congruence.
      * rewrite lookup_insert in Hr. case_decide; [|done]. simplify_eq.
  - intros x r. rewrite lookup_insert. case_decide; [intros [= <-]; simpl; lia|].
    intros Hr. destruct (G2 x r Hr). lia.
  - intros x Hx. rewrite lookup_insert_ne; [by apply G3|]. by intros <-.
  - done.
  - done.
  - done.
Qed.

Lemma weights_fit (e : option (Z * nat)) w (dc : Z) (i : nat) b s : sessions b !! i = Some s -> e <> Some (dc, i) ->
  weights e dc b <= guard_amount -> fits e w dc i b s -> weights e dc (bump i kDownloadPartSize b s) <= guard_amount.
Proof.
  intros Hs He Hw Hf. rewrite weights_bump by done. unfold weight. rewrite bool_decide_eq_false_2 by done. simpl.
  destruct Hf as [Hf|(Hf & _)]; unfold kDownloadPartSize in *; lia.
Qed.

(** Requests that were there still count as they did. *)
Lemma index_fit (e : option (Z * nat)) w (dc : Z) (i : nat) b s x dx id r : inv e now w ->
  balanceData w !! dc = Some b -> sessions b !! i = Some s -> fits e w dc i b s ->
  tasks w !! x = Some dx -> dcId dx = dc -> sentRequests dx !! id = Some r ->
  (sessionIndex r < length (sessions b))%nat
  /\ (whole e dc -> steady b r -> forall y, <[i := more_requested kDownloadPartSize s]> (sessions b) !! sessionIndex r = Some y ->
      requested y <= kMaxWaitedInSession).
Proof.
  intros H Hb Hs Hf Hx <- Hr. split; [by eapply (session_index e w x dx id)|]. intros Hwh Hsty y Hy.
  destruct (inv_index _ _ _ H x dx id r Hx Hr) as (b' & s' & Hb' & Hs' & Hst'). simplify_eq.
  rewrite list_lookup_insert in Hy. case_decide as Hi; [|rewrite Hs' in Hy; injection Hy as <-; auto].
  injection Hy as <-. destruct Hi as [Hi _], Hf as [Hf|(_ & _ & Hf)]; [done|]. exfalso. by eapply (Hf Hwh x dx id r).
Qed.

Lemma makeRequest_ok (e : option (Z * nat)) w (t : Z) d (o : Z) (i : nat) b s : inv e now w -> can_make e w t d o i b s ->
  wp (makeRequest now t o i) (fun _ w' => inv e now w'
    /\ changed t (placed (lastRequestId w + 1) o i (requested s + kDownloadPartSize) d) (bump i kDownloadPartSize b s) w w'
    /\ lastRequestId w' = lastRequestId w + 1) w.
Proof.
  intros H [Ht Hfree Hw Ha Hq Hb Hs He Hf]. pose proof (inv_balance _ _ _ H _ _ Hb) as Gb.
  pose proof (inv_task _ _ _ H _ _ Ht) as Gt. pose proof (task_plain _ _ _ Gt) as (Ec & _ & _).
  destruct (download_dc _ _ _ _ i (dcId d) Gb) as [dc' Hdc]; [by eapply lookup_lt_Some|].
  assert (sentRequests d !! (lastRequestId w + 1) = None) as Hid.
  { apply eq_None_not_Some. intros [r Hr]. destruct (task_ids _ _ _ Gt _ r Hr). lia. }
  unfold makeRequest. eapply wp_step.
  { unfold sendRequest, bind, the_task. rewrite Ht, Ec. simpl. unfold lift. by rewrite Hdc. }
  destruct (change_amount now (dcId d) i kDownloadPartSize b s (mk_manager (tasks w) (queues w) (balanceData w)
    (killSessionsWhen w) (killSessionsTimer w) (resetGenerationTimer w) (lastRequestId w + 1)
    (calls w ++ [Send (lastRequestId w + 1) dc' (GetFile o)]) (deferred w)) Hb Hs) as (K & T & E & HK).
  unfold placeSentRequest. eapply wp_step; [unfold the_task; simpl; by rewrite Ht|]. eapply wp_step; [exact E|].
  rewrite Hfree, Hid. rewrite !bool_decide_eq_false_2 by (by intros []). cbn [orb]. apply wp_modify. simpl.
  assert (alter (fun d0 : Task L => set_sent (<[lastRequestId w + 1:=mk_request o i (requested s + kDownloadPartSize) now]> (sentRequests d0))
     (<[o:=lastRequestId w + 1]> (requestByOffset d0)) d0) t (tasks w)
    = <[t := placed (lastRequestId w + 1) o i (requested s + kDownloadPartSize) d]> (tasks w)) as Et by by apply alter_at.
  rewrite Et. split; [|split; [by split|done]].
  eapply (inv_moved now e w _ t d _ i 1 b s); [done..| | | | | | | | | |]; simpl; rewrite ?Z.mul_1_r; try done.
  - lia.
  - apply placed_good; [done|by apply (inv_last _ _ _ H)|done..].
  - intros j. by rewrite through_insert.
  - rewrite total_insert by done. lia.
  - by eapply weights_fit; [done|done|apply Gb|].
  - intros Hsu. destruct Hf as [Hf|(_ & Hf & _)]; [done|lia].
  - intros x dx id r Hx Edx Hr. rewrite lookup_insert in Hx. case_decide as Hxt; [subst x; injection Hx as <-|].
    + simpl in Hr. rewrite lookup_insert in Hr. case_decide as Hidr; [injection Hr as <-; simpl|by eapply (index_fit e w _ i b s t d id)].
      split; [by eapply lookup_lt_Some|]. intros _ [_ Hsty] y. simpl in Hsty.
      rewrite list_lookup_insert_eq by (by eapply lookup_lt_Some). by intros [= <-].
    + by eapply (index_fit e w _ i b s x dx id).
Qed.

(** ** The balance alone changed *)

(** What the sessions carry is as before, but for sessions added. *)
Record rebalanced b b' : Prop := {
  rebalanced_last : lastSessionRemove b' = lastSessionRemove b;
  rebalanced_total : totalRequested b' = totalRequested b;
  rebalanced_sessions : (requested <$> sessions b) `prefix_of` (requested <$> sessions b') }.

Lemma weights_requested (e : option (Z * nat)) (dc : Z) (l l' : list DcSessionBalanceData) :
  requested <$> l = requested <$> l' -> imap (weight e dc) l = imap (weight e dc) l'.
Proof.
  assert (forall i s s', requested s = requested s' -> weight e dc i s = weight e dc i s') as Hf by (unfold weight; by intros ? ? ? ->).
  revert Hf. generalize (weight e dc). revert l'.
  induction l as [|s l IH]; intros [|s' l'] f Hf; rewrite ?fmap_cons; try done.
  intros [= Hs Hl]. simpl. f_equal; [by apply Hf|]. apply (IH l' (f ∘ S)); [|done]. intros. by apply Hf.
Qed.

Lemma good_rebalance (e : option (Z * nat)) (dc : Z) (ts : gmap Z (Task L)) b b' : good_balance e dc ts b ->
  requested <$> sessions b' = requested <$> sessions b -> Forall good_session (sessions b') ->
  totalRequested b' = totalRequested b -> 0 <= sessionRemoveTimes b' -> good_balance e dc ts b'.
Proof.
  intros [H1 H2 H3 H4 H5 H6] E Hg Et Hr. split; [|done| |by rewrite Et| |done].
  - by rewrite <- (length_fmap requested), E, length_fmap.
  - intros i s' Hs. assert ((requested <$> sessions b) !! i = Some (requested s')) as Hl by (by rewrite <- E, list_lookup_fmap, Hs).
    rewrite list_lookup_fmap in Hl. destruct (sessions b !! i) as [s|] eqn:Es; [|done]. injection Hl as <-. by apply H3.
  - unfold weights. by rewrite (weights_requested e dc _ _ E).
Qed.

Lemma inv_rebalance (e : option (Z * nat)) w w' (dc : Z) b b' : inv e now w -> balanceData w !! dc = Some b ->
  good_balance e dc (tasks w) b' -> rebalanced b b' -> tasks w' = tasks w -> queues w' = queues w ->
  balanceData w' = <[dc := b']> (balanceData w) -> killSessionsWhen w' = killSessionsWhen w ->
  lastRequestId w' = lastRequestId w -> inv e now w'.
Proof.
  intros H Hb Gb' [El Et Es] E1 E2 E3 E4 E5. split; rewrite ?E1, ?E2, ?E3, ?E4, ?E5; try apply H.
  - intros x y. rewrite lookup_insert. case_decide as Hx; [subst x; by intros [= <-]|]. apply H.
  - intros t d id r Ht Hr. destruct (inv_index _ _ _ H t d id r Ht Hr) as (b1 & s1 & Hb1 & Hs1 & Hst).
    rewrite lookup_insert. case_decide as Hx; [|by exists b1, s1]. rewrite <- Hx in Hb1. simplify_eq.
    assert ((requested <$> sessions b') !! sessionIndex r = Some (requested s1)) as Hl.
    { eapply prefix_lookup_Some; [|exact Es]. by rewrite list_lookup_fmap, Hs1. }
    rewrite list_lookup_fmap in Hl. destruct (sessions b' !! sessionIndex r) as [s2|] eqn:Es2; [|done]. injection Hl as Hl.
    exists b', s2. split_and!; [done|done|]. intros Hwh [Hsty1 Hsty2]. rewrite Hl. apply Hst; [done|]. split; [|done]. by rewrite <- El.
  - intros x y Hk. rewrite lookup_insert. case_decide as Hx; [subst x; intros [= <-]; rewrite Et|]; by eapply (inv_kill _ _ _ H).
Qed.

Lemma inv_same (e : option (Z * nat)) w w' : inv e now w -> tasks w' = tasks w -> queues w' = queues w ->
  balanceData w' = balanceData w -> killSessionsWhen w' = killSessionsWhen w -> lastRequestId w' = lastRequestId w -> inv e now w'.
Proof. intros H E1 E2 E3 E4 E5. by split; rewrite ?E1, ?E2, ?E3, ?E4, ?E5; apply H. Qed.

(** ** Successes *)

Lemma requested_no_successes (l : list DcSessionBalanceData) : requested <$> (no_successes <$> l) = requested <$> l.
Proof. rewrite <- list_fmap_compose. by apply list_fmap_ext. Qed.

Lemma good_no_successes (l : list DcSessionBalanceData) : Forall good_session l -> Forall good_session (no_successes <$> l).
Proof. intros H. apply Forall_fmap. eapply Forall_impl; [exact H|]. intros s [H1 H2 H3 H4]. split; simpl; [done|done|lia|lia]. Qed.

Lemma weight_none (dc : Z) (i : nat) s : weight None dc i s = Z.max (requested s) kMaxWaitedInSession.
Proof. done. Qed.

(** Where every session has successes there is room for one more. *)
Lemma good_added (dc : Z) (ts : gmap Z (Task L)) b : good_balance None dc ts b -> (length (sessions b) < kMaxSessionsCount)%nat ->
  Forall (fun s => requested s <= kMaxWaitedInSession) (sessions b) ->
  (forall i, (length (sessions b) <= i)%nat -> carried dc i ts = 0) ->
  good_balance None dc ts (set_sessions (sessions b ++ [DcSessionBalanceData_new]) b).
Proof.
  intros [H1 H2 H3 H4 H5 H6] Hn Hr Hc. split; simpl; [|  | |done| |done].
  - rewrite length_app. simpl. unfold kMaxSessionsCount in *. lia.
  - apply Forall_app. split; [done|]. constructor; [|done]. split; simpl; unfold kStartWaitedInSession, kMaxWaitedInSession, kDownloadPartSize; try lia.
    by exists 4.
  - intros i s [Hs|(Hi & Hs)]%lookup_app_Some; [by apply H3|]. apply list_lookup_singleton_Some in Hs as [Hi0 <-]. simpl.
    rewrite Hc by done. unfold extra. rewrite bool_decide_eq_false_2 by done. lia.
  - unfold weights in *. simpl sessions. rewrite imap_app, sum_app. cbn [imap sum foldr]. unfold compose. rewrite weight_none.
    assert (sum (imap (weight None dc) (sessions b)) = kMaxWaitedInSession * Z.of_nat (length (sessions b))) as ->.
    { rewrite <- sum_const. f_equal. apply list_eq. intros i. rewrite list_lookup_imap, list_lookup_fmap.
      rewrite Forall_lookup in Hr. specialize (Hr i). destruct (sessions b !! i) as [s|]; [|done]. simpl. rewrite weight_none.
      f_equal. specialize (Hr s eq_refl). simpl in Hr. lia. }
    cbn [requested DcSessionBalanceData_new].
    unfold guard_amount, kMaxSessionsCount, kMaxWaitedInSession, kDownloadPartSize in *. lia.
Qed.

Lemma carried_none (dc : Z) (i : nat) (ts : gmap Z (Task L)) :
  (forall x d id r, ts !! x = Some d -> dcId d = dc -> sentRequests d !! id = Some r -> sessionIndex r <> i) -> carried dc i ts = 0.
Proof.
  intros H. apply total_zero. intros x d Hx. destruct (Z.eqb_spec (dcId d) dc) as [E|]; [|done].
  apply total_zero. intros id r Hr. rewrite (proj2 (Nat.eqb_neq _ _)); [done|]. by eapply H.
Qed.

(** Only the balance has changed. *)
Definition balanced (e : option (Z * nat)) w w' : Prop := inv e now w' /\ tasks w' = tasks w /\ queues w' = queues w.

Lemma rebalance_wp (e : option (Z * nat)) w (dc : Z) b b' : inv e now w -> balanceData w !! dc = Some b ->
  good_balance e dc (tasks w) b' -> rebalanced b b' -> wp (set_balance_of dc b') (fun _ => balanced e w) w.
Proof. intros. apply wp_modify. split; [|done]. by eapply inv_rebalance. Qed.

Lemma good_succeeded s (most : Z) : good_session s -> requested s <= kMaxWaitedInSession ->
  most = maxWaitedAmount s \/ most = Z.min (maxWaitedAmount s + kDownloadPartSize) kMaxWaitedInSession ->
  good_session (mk_session_balance (requested s) (Z.min (successes s + 1) kMaxTrackedSuccesses) most).
Proof.
  intros [S1 S2 S3 S4] Hr Hm. split; simpl; [| |unfold kMaxTrackedSuccesses, kRetryAddSessionSuccesses, kMaxTrackedSessionRemoves; lia|done].
  - unfold kStartWaitedInSession, kMaxWaitedInSession, kDownloadPartSize in *. lia.
  - destruct Hm as [->| ->]; [done|]. destruct (Z.min_spec (maxWaitedAmount s + kDownloadPartSize) kMaxWaitedInSession) as [[_ ->]|[_ ->]].
    + by apply Z.divide_add_r.
    + by exists 16.
Qed.

(** What is written of the balance on a success. *)
Inductive success_writes (dc : Z) (ts : gmap Z (Task L)) b : DcBalanceData -> Prop :=
  | writes_sessions l n : requested <$> l = requested <$> sessions b -> Forall good_session l ->
      success_writes dc ts b (set_timeouts n (set_sessions l b))
  | writes_added l : requested <$> l = requested <$> sessions b -> Forall good_session l ->
      (length l < kMaxSessionsCount)%nat -> Forall (fun s => requested s <= kMaxWaitedInSession) l ->
      success_writes dc ts b (set_sessions (l ++ [DcSessionBalanceData_new]) b).

Lemma success_writes_ok w (dc : Z) b b' : inv None now w -> balanceData w !! dc = Some b ->
  success_writes dc (tasks w) b b' -> wp (set_balance_of dc b') (fun _ => balanced None w) w.
Proof.
  intros H Hb Hw. pose proof (inv_balance _ _ _ H _ _ Hb) as Gb.
  destruct Hw as [l n E G|l E G Hn Hr]; apply (rebalance_wp None w dc b); try done.
  - by eapply good_rebalance; [done..|apply Gb].
  - split; [done|done|simpl; by rewrite E].
  - assert (good_balance None dc (tasks w) (set_sessions l b)) as G' by (by eapply good_rebalance; [done..|apply Gb]).
    apply (good_added dc (tasks w) _ G'); [done|done|]. intros j Hj. apply carried_none. intros x d id r Hx Edx Hr'.
    assert (sessionIndex r < length (sessions b))%nat by (eapply (session_index None w x d id); [done..|by rewrite Edx]).
    simpl in Hj. rewrite <- (length_fmap requested), E, length_fmap in Hj. lia.
  - split; [done|done|]. simpl. rewrite fmap_app, E. by eexists.
Qed.

Lemma requestSucceeded_ok w (dc : Z) (i : nat) (amount time : Z) b s : inv None now w ->
  balanceData w !! dc = Some b -> sessions b !! i = Some s ->
  (lastSessionRemove b < time -> amount <= kMaxWaitedInSession -> requested s <= kMaxWaitedInSession) ->
  wp (requestSucceeded now dc i amount time) (fun _ => balanced None w) w.
Proof.
  intros H Hb Hs Hst. destruct (inv_balance _ _ _ H _ _ Hb) as [H1 H2 _ _ _ H6].
  assert (balanced None w w) as Hw by done. unfold requestSucceeded.
  eapply wp_step; [unfold balance_of; by rewrite Hb|]. eapply wp_step; [unfold lift; by rewrite Hs|].
  destruct (_ || _) eqn:Eo; [done|]. bool_to_prop. pose proof H2 as H2'. rewrite Forall_lookup in H2'.
  pose proof (H2' _ _ Hs) as Gs. specialize (Hst ltac:(lia) ltac:(destruct Gs; lia)).
  case_match; [apply wp_modify; split; [by eapply inv_same|done]|]. cbv zeta.
  match goal with |- context [<[i := ?x]> (sessions b)] => set (l := <[i := x]> (sessions b)) end.
  assert (requested <$> l = requested <$> sessions b) as El.
  { unfold l. rewrite list_fmap_insert. apply list_insert_id. simpl. by rewrite list_lookup_fmap, Hs. }
  assert (Forall good_session l) as Hl.
  { apply Forall_insert; [done|]. apply good_succeeded; [done|done|]. case_match; auto. }
  destruct (existsb _ _) eqn:En; [by apply (success_writes_ok w dc b); [done|done|apply (writes_sessions dc _ b l (timeouts b))]|].
  assert (requested <$> (no_successes <$> l) = requested <$> sessions b) as El' by (by rewrite requested_no_successes).
  pose proof (good_no_successes l Hl) as Hl'.
  case_match; [by apply (success_writes_ok w dc b); [done|done|apply (writes_sessions dc _ b _ (timeouts b - 1))]|].
  case_match eqn:E8; [by apply (success_writes_ok w dc b); [done|done|apply (writes_sessions dc _ b _ (timeouts b))]|].
  case_match; [by apply (success_writes_ok w dc b); [done|done|apply (writes_sessions dc _ b _ (timeouts b))]|].
  apply (success_writes_ok w dc b); [done|done|]. apply (writes_added dc _ b (no_successes <$> l)); [done|done| |].
  - rewrite length_fmap. apply Nat.eqb_neq in E8. unfold l in *. rewrite length_insert in *. lia.
  - apply Forall_fmap, Forall_forall. intros x Hx. simpl. rewrite Forall_forall in Hl. destruct (Hl x Hx) as [_ _ _ X]. apply X.
    destruct (Z.ltb_spec (successes x) ((sessionRemoveTimes b + 1) * kRetryAddSessionSuccesses)) as [Hlt|Hge]; [|unfold kRetryAddSessionSuccesses in *; lia].
    exfalso. rewrite <- not_true_iff_false in En. apply En, existsb_exists. exists x. split; [by apply list_elem_of_In|by apply Z.ltb_lt].
Qed.

(** ** Finishing a request *)

Definition finished (id o : Z) d : Task L := set_sent (delete id (sentRequests d)) (delete o (requestByOffset d)) d.

Lemma finished_good (last : Z) d (id : Z) (r : RequestData) : good_task now last d -> sentRequests d !! id = Some r ->
  good_task now last (finished id (offset r) d).
Proof.
  intros [G1 G2 G3 G4 G5 G6] Hr. assert (requestByOffset d !! offset r = Some id) as Ho by (apply G1; eauto). split; simpl.
  - intros o y. split.
    + intros [Hne Hy]%lookup_delete_Some. apply G1 in Hy as (r' & Hr' & Ho'). exists r'. split; [|done].
      rewrite lookup_delete_ne; [done|]. intros <-. congruence.
    + intros (r' & [Hne Hr']%lookup_delete_Some & Ho'). apply lookup_delete_Some. assert (requestByOffset d !! o = Some y) as Hy by (apply G1; eauto).
      split; [|done]. intros <-. congruence.
  - intros y r' [_ Hy]%lookup_delete_Some. by eapply G2.
  - intros x Hx. apply lookup_delete_None. right. by apply G3.
  - intros Hne. apply G4. intros E. apply Hne. by rewrite E, delete_empty.
  - done.
  - done.
Qed.

Lemma weights_less (e : option (Z * nat)) (dc : Z) (i : nat) b s : sessions b !! i = Some s ->
  weights e dc (bump i (kDownloadPartSize * -1) b s) <= weights e dc b
  /\ (e = Some (dc, i) -> weights e dc (bump i (kDownloadPartSize * -1) b s) = weights e dc b - kDownloadPartSize).
Proof.
  intros Hs. rewrite weights_bump by done. unfold weight, kDownloadPartSize. simpl.
  split; [case_bool_decide; simpl; lia|]. intros ->. rewrite bool_decide_eq_true_2 by done. lia.
Qed.

(** Up to what a success adds. *)
Lemma finish_part (e : option (Z * nat)) w (t : Z) d (id : Z) (r : RequestData) : inv e now w -> tasks w !! t = Some d ->
  sentRequests d !! id = Some r -> exists b s w1, balanceData w !! dcId d = Some b /\ sessions b !! sessionIndex r = Some s
  /\ inv e now w1 /\ changed t (finished id (offset r) d) (bump (sessionIndex r) (kDownloadPartSize * -1) b s) w w1
  /\ lastRequestId w1 = lastRequestId w
  /\ forall reason, finishSentRequest now t id reason w = ((match reason with
      | Success => requestSucceeded now (dcId d) (sessionIndex r) (requestedInSession r) (sent r)
      | _ => ret tt end) ;;; ret r) w1.
Proof.
  intros H Ht Hr. pose proof (inv_task _ _ _ H _ _ Ht) as Gt. destruct (inv_index _ _ _ H t d id r Ht Hr) as (b & s & Hb & Hs & _).
  destruct (change_amount now (dcId d) (sessionIndex r) (- kDownloadPartSize) b s w Hb Hs) as (K & T & E & HK).
  exists b, s, (set_tasks (<[t := finished id (offset r) d]> (tasks w)) (set_kill K T
    (set_balance (<[dcId d := bump (sessionIndex r) (kDownloadPartSize * -1) b s]> (balanceData w)) w))).
  split_and!; [done|done| |by split|done|].
  - eapply (inv_moved now e w _ t d _ (sessionIndex r) (-1) b s); try done; simpl.
    + by apply finished_good.
    + intros j. by apply through_delete.
    + rewrite (total_delete (fun _ => 1) (sentRequests d) id r Hr). lia.
    + etrans; [by apply weights_less|]. by apply (inv_balance _ _ _ H).
    + intros Hsu. destruct (inv_balance _ _ _ H _ _ Hb) as [_ G _ _ _ _]. rewrite Forall_lookup in G. destruct (G _ _ Hs). unfold kDownloadPartSize. lia.
    + intros Hne. apply (inv_queued _ _ _ H t d Ht). intros E0. apply Hne. by rewrite E0, delete_empty.
    + intros x dx id' r' Hx Edx Hr'.
      assert (exists d0, tasks w !! x = Some d0 /\ dcId d0 = dcId d /\ sentRequests d0 !! id' = Some r') as (d0 & Hd0 & E0 & Hr0).
      { rewrite lookup_insert in Hx. case_decide; [|by exists dx]. subst x. injection Hx as <-. exists d.
        simpl in Hr'. by apply lookup_delete_Some in Hr' as [_ Hr']. }
      split; [by eapply (session_index e w x d0 id'); [..|rewrite E0]|]. intros Hwh Hsty y Hy.
      destruct (inv_index _ _ _ H x d0 id' r' Hd0 Hr0) as (b' & s' & Hb' & Hs' & Hst'). rewrite E0 in Hb', Hst'. simplify_eq.
      rewrite list_lookup_insert in Hy. case_decide as Hi; [|rewrite Hs' in Hy; injection Hy as <-; auto].
      injection Hy as <-. destruct Hi as [Hi _]. rewrite <- Hi in Hs'. simplify_eq. simpl. specialize (Hst' Hwh Hsty).
      unfold kDownloadPartSize. lia.
  - intros reason. unfold finishSentRequest, bind at 1, the_task. rewrite Ht. unfold bind at 1, lift. rewrite Hr.
    destruct (task_plain _ _ _ Gt) as (_ & _ & ->). destruct (task_ids _ _ _ Gt id r Hr) as [Hid _].
    rewrite (proj2 (Z.eqb_neq _ _)) by lia. unfold bind at 1, ret at 1. unfold bind at 1. rewrite E. unfold bind at 1, change_task, modify.
    simpl tasks. rewrite (alter_at _ t d) by done. unfold bind at 1 2.
    rewrite bool_decide_eq_true_2 by (eexists; apply (task_offsets _ _ _ Gt); eauto). done.
Qed.

(** A request that ends otherwise than by success. *)
Lemma finish_ok (e : option (Z * nat)) w (t : Z) d (id : Z) (r : RequestData) (reason : FinishRequestReason) : inv e now w ->
  tasks w !! t = Some d -> sentRequests d !! id = Some r -> reason <> Success ->
  wp (finishSentRequest now t id reason) (fun a w' => a = r /\ inv e now w' /\ lastRequestId w' = lastRequestId w
    /\ exists b s, balanceData w !! dcId d = Some b /\ sessions b !! sessionIndex r = Some s
       /\ changed t (finished id (offset r) d) (bump (sessionIndex r) (kDownloadPartSize * -1) b s) w w') w.
Proof.
  intros H Ht Hr Hreason. destruct (finish_part e w t d id r H Ht Hr) as (b & s & w1 & Hb & Hs & H1 & Hc & Hl & E).
  unfold wp. rewrite E. destruct reason; [done| |]; simpl; split_and!; eauto.
Qed.

(** One that was answered. *)
Lemma success_ok w (t : Z) d (id : Z) (r : RequestData) : inv None now w -> tasks w !! t = Some d ->
  sentRequests d !! id = Some r ->
  wp (finishSentRequest now t id Success) (fun a w' => a = r /\ inv None now w'
    /\ tasks w' = <[t := finished id (offset r) d]> (tasks w) /\ queues w' = queues w) w.
Proof.
  intros H Ht Hr. destruct (finish_part None w t d id r H Ht Hr) as (b & s & w1 & Hb & Hs & H1 & [Ht1 Hq1 Hb1] & Hl & E).
  unfold wp. rewrite E. change (wp (requestSucceeded now (dcId d) (sessionIndex r) (requestedInSession r) (sent r) ;;; ret r)
    (fun a w' => a = r /\ inv None now w' /\ tasks w' = <[t := finished id (offset r) d]> (tasks w) /\ queues w' = queues w) w1).
  apply wp_bind. eapply wp_mono; [eapply (requestSucceeded_ok w1 (dcId d) _ _ _ (bump (sessionIndex r) (kDownloadPartSize * -1) b s))|].
  - done.
  - by rewrite Hb1, lookup_insert_eq.
  - simpl. apply list_lookup_insert_eq. by eapply lookup_lt_Some.
  - simpl. intros Hl1 Hl2. destruct (inv_index _ _ _ H t d id r Ht Hr) as (b' & s' & Hb' & Hs' & Hst). simplify_eq.
    specialize (Hst ltac:(done) ltac:(by split)). unfold kDownloadPartSize. lia.
  - intros [] w' (Hw' & Et & Eq). cbn. by rewrite Et, Eq, Ht1, Hq1.
Qed.

(** ** Choosing a session *)

Lemma min_element_spec {A} (f : A -> Z) (l L' : list A) (best : nat * A) (i : nat) :
  drop i L' = l -> L' !! best.1 = Some best.2 -> (forall j y, (j < i)%nat -> L' !! j = Some y -> f best.2 <= f y) ->
  L' !! (min_element f best i l).1 = Some (min_element f best i l).2
  /\ forall j y, L' !! j = Some y -> f (min_element f best i l).2 <= f y.
Proof.
  revert best i. induction l as [|x l IH]; intros best i Hd Hb Hm; simpl.
  - split; [done|]. intros j y Hj. apply (Hm j y); [|done]. apply lookup_lt_Some in Hj.
    apply (f_equal length) in Hd. rewrite length_drop in Hd. simpl in Hd. lia.
  - assert (L' !! i = Some x) as Hx by (pose proof (lookup_drop L' i 0) as E; by rewrite Hd, Nat.add_0_r in E).
    apply IH.
    + by rewrite <- Nat.add_1_r, <- drop_drop, Hd.
    + by destruct (f x <? f best.2).
    + intros j y Hj Hy. destruct (decide (j = i)) as [->|].
      * simplify_eq. destruct (Z.ltb_spec (f x) (f best.2)); simpl; lia.
      * specialize (Hm j y ltac:(lia) Hy). destruct (Z.ltb_spec (f x) (f best.2)); simpl; lia.
Qed.

Lemma min_element_all {A} (f : A -> Z) (x : A) (l : list A) : let m := min_element f (O, x) 1 l in
  (x :: l) !! m.1 = Some m.2 /\ forall j y, (x :: l) !! j = Some y -> f m.2 <= f y.
Proof. apply min_element_spec; [done|done|]. intros [|j] y Hj; [|lia]. by intros [= ->]. Qed.

Definition full s : Prop := maxWaitedAmount s < requested s + kDownloadPartSize.

Lemma bestIndex_spec (dc : Z) (ts : gmap Z (Task L)) b : good_balance None dc ts b ->
  match bestIndex b with
  | Some i => exists s, sessions b !! i = Some s /\ requested s + kDownloadPartSize <= maxWaitedAmount s
  | None => Forall full (sessions b)
  end.
Proof.
  intros [H1 H2 H3 _ _ _]. unfold bestIndex. destruct (sessions b) as [|x l] eqn:El; [done|].
  match goal with |- context [min_element ?f _ _ _] => set (proj := f) end.
  destruct (min_element_all proj x l) as [Hm Hle]. destruct (min_element _ _ _ _) as [i j]. simpl in Hm, Hle.
  destruct (Z.leb_spec (requested j + kDownloadPartSize) (maxWaitedAmount j)) as [|Hj]; [by exists j|].
  apply Forall_lookup. intros k y Hy. unfold full. destruct (Z.lt_ge_cases (maxWaitedAmount y) (requested y + kDownloadPartSize)) as [|Hyr]; [done|].
  exfalso. specialize (Hle k y Hy). rewrite Forall_lookup in H2. destruct (H2 _ _ Hy) as [Y1 Y2 _ _], (H2 _ _ Hm) as [J1 [c J2] _ _].
  pose proof (H3 _ _ Hm) as Rj. unfold extra in Rj. rewrite bool_decide_eq_false_2 in Rj by done. unfold proj in Hle.
  destruct (Z.ltb_spec (requested j) (maxWaitedAmount j)), (Z.ltb_spec (requested y) (maxWaitedAmount y));
    unfold kMaxWaitedInSession, kDownloadPartSize in *; lia.
Qed.

(** ** Sending *)

Definition queue_of (dc : Z) w : list Enqueued := default [] (queues w !! dc).
Definition load (dc : Z) w : Z := match balanceData w !! dc with Some b => sum (requested <$> sessions b) | None => 0 end.

(** Offsets were taken from a task, and no more. *)
Definition taken : L -> L -> Prop := rtc (fun l l' => exists have o, takeNextRequestOffset have l = Some (o, l')).

(** What sending parts of a data center leaves alone. *)
Record sends (dc : Z) w w' : Prop := {
  sends_queues : forall x, queue_of x w' = queue_of x w;
  sends_tasks : forall x d, tasks w !! x = Some d -> exists d', tasks w' !! x = Some d' /\ dcId d' = dcId d
    /\ taken (loader d) (loader d') /\ (x ∉ (task <$> queue_of dc w) -> d' = d);
  sends_none : forall x, tasks w !! x = None -> tasks w' !! x = None }.

#[export] Instance sends_preorder (dc : Z) : PreOrder (sends dc).
Proof.
  split.
  - intros w. split; [done| |done]. intros x d Hx. exists d. split_and!; try done; apply rtc_refl.
  - intros w1 w2 w3 [A1 A2 A3] [B1 B2 B3]. split; [intros; by rewrite B1| |auto].
    intros x d Hx. destruct (A2 x d Hx) as (d2 & H2 & E2 & T2 & K2). destruct (B2 x d2 H2) as (d3 & H3 & E3 & T3 & K3).
    exists d3. split_and!; [done|congruence|by etrans|]. intros Hn. rewrite K3; [by apply K2|]. by rewrite A1.
Qed.

(** Nothing more is sent: the sessions are full, or no task may be sent. *)
Definition stopped (dc : Z) w : Prop := exists b, balanceData w !! dc = Some b
  /\ (Forall full (sessions b) \/ nextTask (ready_in (tasks w)) (0 <? totalRequested b) (queue_of dc w) = None).

Lemma nextTask_spec (ready : Z -> bool) (only : bool) (q : list Enqueued) (t : Z) : nextTask ready only q = Some t ->
  t ∈ (task <$> q) /\ ready t = true.
Proof.
  unfold nextTask. destruct q as [|x q']; [done|]. set (q := x :: q').
  match goal with |- context [take ?n q] => generalize n end. intros n.
  destruct (head _) as [y|] eqn:E; [|done]. intros [= <-].
  assert (y ∈ filter (fun y => ready (task y) = true) (take n q)) as Hy by (destruct (filter _ _); [done|injection E as ->; by left]).
  apply list_elem_of_filter in Hy as [Hr Hy]. split; [|done]. apply list_elem_of_fmap_2.
  eapply elem_of_submseteq; [exact Hy|]. by apply sublist_submseteq, sublist_take.
Qed.

Lemma fresh_balance (e : option (Z * nat)) w (dc : Z) : inv e now w -> balanceData w !! dc = None ->
  (forall i, e <> Some (dc, i)) -> good_balance e dc (tasks w) DcBalanceData_new.
Proof.
  intros H Hb He. assert (forall x d id r, tasks w !! x = Some d -> dcId d = dc -> sentRequests d !! id = Some r -> False) as Hno.
  { intros x d id r Hx <- Hr. destruct (inv_index _ _ _ H x d id r Hx Hr) as (b & s & Hb' & _). congruence. }
  split; simpl; unfold kMaxSessionsCount; try lia.
  - constructor; [|done]. split; simpl; unfold kStartWaitedInSession, kMaxWaitedInSession, kDownloadPartSize; try lia. by exists 4.
  - intros i s Hs. apply list_lookup_singleton_Some in Hs as [-> <-]. simpl. rewrite carried_none by (intros; exfalso; eauto).
    unfold extra. rewrite bool_decide_eq_false_2 by apply He. lia.
  - unfold carried_all. rewrite total_zero; [lia|]. intros x d Hx. destruct (Z.eqb_spec (dcId d) dc); [|done].
    apply total_zero. intros id r Hr. exfalso. eauto.
  - unfold weights. simpl. unfold weight. rewrite bool_decide_eq_false_2 by apply He. simpl.
    unfold guard_amount, kMaxWaitedInSession, kMaxSessionsCount, kDownloadPartSize. lia.
Qed.

Lemma balance_or_new_ok (e : option (Z * nat)) w (dc : Z) : inv e now w -> (forall i, e <> Some (dc, i)) ->
  wp (balance_or_new dc) (fun b w' => inv e now w' /\ balanceData w' !! dc = Some b /\ load dc w' = load dc w
    /\ tasks w' = tasks w /\ queues w' = queues w) w.
Proof.
  intros H He. unfold balance_or_new. apply wp_bind, wp_modify. unfold wp, balance_of. simpl. rewrite lookup_emplace_eq.
  destruct (balanceData w !! dc) as [b|] eqn:Hb; simpl.
  - unfold emplace. rewrite Hb. split_and!; [by eapply inv_same|done|unfold load; by simpl; rewrite Hb|done|done].
  - rewrite emplace_fresh by done. pose proof (fresh_balance e w dc H Hb He) as G. split_and!; [|by rewrite lookup_insert_eq| |done|done].
    + split; simpl; try apply H.
      * intros x b. rewrite lookup_insert. case_decide as Hx; [subst x; by intros [= <-]|]. apply H.
      * intros t d id r Ht Hr. destruct (inv_index _ _ _ H t d id r Ht Hr) as (b' & s' & Hb' & Hs' & Hst').
        exists b', s'. rewrite lookup_insert_ne; [done|]. intros E. congruence.
      * intros x b Hk. rewrite lookup_insert. case_decide as Hx; [by intros [= <-]|]. by eapply (inv_kill _ _ _ H).
    + unfold load. simpl. by rewrite lookup_insert_eq, Hb.
Qed.

Lemma queue_or_new_ok (e : option (Z * nat)) w (dc : Z) : inv e now w ->
  wp (queue_or_new dc) (fun q w' => inv e now w' /\ q = queue_of dc w /\ queues w' !! dc = Some q /\ in_order q
    /\ (forall x, queue_of x w' = queue_of x w) /\ tasks w' = tasks w /\ balanceData w' = balanceData w /\ lastRequestId w' = lastRequestId w) w.
Proof.
  intros H. unfold queue_or_new. apply wp_bind, wp_modify, wp_gets. unfold queue_of. simpl. rewrite lookup_emplace_eq. simpl.
  assert (in_order []) as Hnil by (split; constructor).
  split_and!; try done.
  - split; simpl; try apply H.
    + intros x q. destruct (decide (x = dc)) as [->|Hne].
      * rewrite lookup_emplace_eq. destruct (queues w !! dc) as [q'|] eqn:Eq; intros [= <-]; [by apply (inv_queue _ _ _ H)|].
        split; [done|]. by intros t ?%not_elem_of_nil.
      * rewrite lookup_emplace_ne by done. apply H.
    + intros t d Ht Hs. destruct (inv_queued _ _ _ H t d Ht Hs) as (q & Hq & Hin). exists q. split; [|done].
      destruct (decide (dc = dcId d)) as [->|]; [by rewrite lookup_emplace_eq, Hq|by rewrite lookup_emplace_ne].
  - destruct (queues w !! dc) as [q|] eqn:Eq; simpl; [|done]. by apply (inv_queue _ _ _ H dc q Eq).
  - intros x. destruct (decide (x = dc)) as [->|Hne]; [by rewrite lookup_emplace_eq|by rewrite lookup_emplace_ne].
Qed.

(** A task changed, but for its requests. *)
Lemma inv_retask (e : option (Z * nat)) w (t : Z) d d' : inv e now w -> tasks w !! t = Some d ->
  sentRequests d' = sentRequests d -> dcId d' = dcId d -> good_task now (lastRequestId w) d' ->
  inv e now (set_tasks (<[t := d']> (tasks w)) w).
Proof.
  intros H Ht Es Ed G. split; simpl.
  - intros dc b Hb. eapply good_others; [by apply (inv_balance _ _ _ H)| |].
    + intros j. rewrite (carried_change t _ _ d d') by done. rewrite Es. destruct (_ =? _); lia.
    + rewrite (carried_all_change t _ d d') by done. rewrite Es. destruct (_ =? _); lia.
  - intros x dx. rewrite lookup_insert. case_decide as Hx; [by intros [= <-]|]. apply H.
  - intros x dx id r Hx Hr. rewrite lookup_insert in Hx. case_decide as Hxt; [|by eapply (inv_index _ _ _ H)].
    subst x. injection Hx as <-. rewrite Es in Hr. rewrite Ed. by eapply (inv_index _ _ _ H).
  - intros dc q Hq. destruct (inv_queue _ _ _ H dc q Hq) as [Ho Hin]. split; [done|]. intros x Hx.
    destruct (Hin x Hx) as (dx & Hdx & Edx). rewrite lookup_insert. case_decide as Hxt; [|by exists dx].
    subst x. exists d'. simplify_eq. done.
  - intros x dx. rewrite lookup_insert. case_decide as Hx; [|apply H]. subst x. intros [= <-]. rewrite Es, Ed. by apply H.
  - apply H.
  - apply H.
Qed.

Lemma good_reload (last : Z) d (l : L) : good_task now last d -> sound l -> (forall o, wants l o -> requestByOffset d !! o = None) ->
  (sentRequests d <> ∅ -> alive l) -> good_task now last (set_loader l d).
Proof. intros [G1 G2 G3 G4 G5 G6] Hs Hw Ha. by split. Qed.

Lemma loadPart_ok w (t : Z) d (i : nat) b s : inv None now w -> tasks w !! t = Some d ->
  readyToRequest (haveSentRequests d) (loader d) = true -> t ∈ (task <$> queue_of (dcId d) w) ->
  balanceData w !! dcId d = Some b -> sessions b !! i = Some s -> requested s + kDownloadPartSize <= maxWaitedAmount s ->
  wp (loadPart now t i) (fun _ w' => inv None now w' /\ sends (dcId d) w w' /\ load (dcId d) w' = load (dcId d) w + kDownloadPartSize) w.
Proof.
  intros H Ht Hready Hq Hb Hs Hroom. pose proof (inv_task _ _ _ H _ _ Ht) as Gt.
  destruct (take_ok _ _ (task_sound _ _ _ Gt) Hready) as (Ha & o & l' & Htake & Hso & Hwo & Ha' & Hw').
  unfold loadPart. eapply wp_step; [unfold the_task; by rewrite Ht|]. eapply wp_step; [unfold lift; by rewrite Htake|].
  apply wp_bind, wp_modify. rewrite (alter_at _ t d) by done.
  assert (inv None now (set_tasks (<[t := set_loader l' d]> (tasks w)) w)) as H1.
  { apply (inv_retask None w t d); [done..|]. apply good_reload; [done|done| |done].
    intros x Hx. by apply (task_wants _ _ _ Gt), Hw'. }
  assert (t ∈ (task <$> queue_of (dcId d) w)) as Hq' by done. unfold queue_of in Hq'.
  destruct (queues w !! dcId d) as [q|] eqn:Eq; [|by apply not_elem_of_nil in Hq']. simpl in Hq'.
  eapply wp_mono; [eapply (makeRequest_ok None _ t (set_loader l' d) o i b s H1)|].
  - split; simpl; [by rewrite lookup_insert_eq|by apply (task_wants _ _ _ Gt)|by intros [_ ?]%Hw'|done|by exists q|done|done|done|].
    left. destruct (inv_balance _ _ _ H _ _ Hb) as [_ G _ _ _ _]. rewrite Forall_lookup in G. destruct (G _ _ Hs). lia.
  - intros [] w' (Hinv & [Et Equ Eb] & _). split; [done|]. simpl in Et, Equ, Eb. split; [split|].
    + intros x. unfold queue_of. by rewrite Equ.
    + intros x dx Hx. rewrite Et, !lookup_insert. case_decide as Hxt; [|exists dx; split_and!; try done; apply rtc_refl]. subst x. simplify_eq.
      eexists. split_and!; [done|done|by apply rtc_once; eexists _, _|]. intros Hn. done.
    + intros x Hx. rewrite Et, !lookup_insert. case_decide; [congruence|done].
    + unfold load. rewrite Eb, Hb, lookup_insert_eq. simpl. rewrite (sum_change requested _ i s) by done. simpl. lia.
Qed.

Lemma load_le w (dc : Z) : inv None now w -> 0 <= load dc w <= guard_amount.
Proof.
  intros H. unfold load. destruct (balanceData w !! dc) as [b|] eqn:Hb.
  - destruct (inv_balance _ _ _ H dc b Hb) as [_ _ H3 _ H5 _]. split.
    + assert (Forall (fun s => 0 <= requested s) (sessions b)) as Hf.
      { apply Forall_lookup. intros i s Hs. rewrite (H3 i s Hs). pose proof (carried_nonneg dc i (tasks w)).
        unfold extra, kDownloadPartSize. rewrite bool_decide_eq_false_2 by done. lia. }
      clear -Hf. induction Hf as [|s l Hs _ IH]; [done|]. rewrite fmap_cons. simpl. unfold sum in *. lia.
    + etrans; [|exact H5]. unfold weights. clear. generalize (sessions b). intros l.
      assert (forall g, (forall i s, requested s <= g i s) -> sum (requested <$> l) <= sum (imap g l)) as Hg; [|apply Hg; intros; rewrite weight_none; lia].
      induction l as [|s l IH]; intros g Hg; [done|]. rewrite fmap_cons. simpl. specialize (IH (g ∘ S) ltac:(intros; apply Hg)).
      specialize (Hg O s). unfold sum in *. lia.
  - unfold guard_amount, kMaxWaitedInSession, kMaxSessionsCount, kDownloadPartSize. lia.
Qed.

Lemma trySendNextPart_ok w (dc : Z) : inv None now w ->
  wp (trySendNextPart now dc) (fun more w' => inv None now w' /\ sends dc w w'
    /\ if more : bool then load dc w' = load dc w + kDownloadPartSize else stopped dc w') w.
Proof.
  intros H. unfold trySendNextPart. apply wp_bind. eapply wp_mono; [by apply (balance_or_new_ok None)|].
  intros b w1 (H1 & Hb & El & Et & Eq). pose proof (bestIndex_spec dc _ _ (inv_balance _ _ _ H1 _ _ Hb)) as Hbest.
  assert (sends dc w w1) as Hs1.
  { split; [intros; unfold queue_of; by rewrite Eq|intros x d; rewrite Et; exists d; split_and!; try done; apply rtc_refl|by rewrite Et]. }
  destruct (bestIndex b) as [i|].
  - destruct Hbest as (s & Hs & Hroom). apply wp_bind. eapply wp_mono; [by apply (queue_or_new_ok None)|].
    intros q w2 (H2 & -> & Hq & Ho & Eq2 & Et2 & Eb2 & _). apply wp_bind, wp_gets.
    assert (sends dc w1 w2) as Hs2.
    { split; [done|intros x d; rewrite Et2; exists d; split_and!; try done; apply rtc_refl|by rewrite Et2]. }
    destruct (nextTask _ _ _) as [t|] eqn:En.
    + destruct (nextTask_spec _ _ _ _ En) as [Hin Hready]. unfold ready_in in Hready.
      destruct (tasks w2 !! t) as [d|] eqn:Ht; [|done].
      assert (dcId d = dc) as <-. { destruct (inv_queue _ _ _ H2 dc _ Hq) as [_ X]. destruct (X t Hin) as (d' & Hd' & <-). congruence. }
      apply wp_bind. eapply wp_mono; [apply (loadPart_ok w2 t d i b s); try done; [by rewrite Eq2|by rewrite Eb2]|].
      intros [] w3 (H3 & Hs3 & El3). split; [done|]. split; [by do 2 (etrans; [done|])|]. rewrite El3. unfold load at 1. rewrite Eb2. fold (load (dcId d) w1). lia.
    + split; [done|]. split; [by etrans|]. exists b. split; [by rewrite Eb2|]. right. by rewrite Eq2.
  - split; [done|]. split; [done|]. exists b. by split; [|left].
Qed.

Lemma sendLoop_ok (fuel : nat) w (dc : Z) : inv None now w -> guard_amount < load dc w + kDownloadPartSize * Z.of_nat fuel ->
  wp (sendLoop now fuel dc) (fun _ w' => inv None now w' /\ sends dc w w' /\ stopped dc w') w.
Proof.
  revert w. induction fuel as [|fuel IH]; intros w H Hf; [pose proof (load_le w dc H); lia|]. cbn [sendLoop].
  apply wp_bind. eapply wp_mono; [by apply trySendNextPart_ok|]. intros [] w1 (H1 & Hs1 & Hx); [|done].
  eapply wp_mono; [apply IH; [done|lia]|]. intros [] w2 (H2 & Hs2 & Hst). split; [done|]. split; [by etrans|done].
Qed.

Lemma checkSendNext_ok w (dc : Z) : inv None now w ->
  wp (checkSendNext now dc) (fun _ w' => inv None now w' /\ sends dc w w' /\ stopped dc w') w.
Proof.
  intros H. apply sendLoop_ok; [done|]. pose proof (load_le w dc H).
  unfold guard_amount, kSendFuel, kMaxWaitedInSession, kMaxSessionsCount, kDownloadPartSize in *. lia.
Qed.

End Send.
