(* ===== verification/DownloadRemove.v ===== *)
(** * Downloads: requests cancelled, sessions removed

    Requests are cancelled one at a time. When a session is removed its requests
    are cancelled and made again through the others, which can take them: what
    all carry together stays within what eight sessions may carry. *)

From S2P Require Import Prelude Ids Text Errors DownloadQueue StateMonad Download DownloadFacts DownloadSend.

Section Removal.
Context {L : Type} `{!Loader L, !LoaderLaws L} (now : Z).
Implicit Types (w : manager L) (d : Task L) (b : DcBalanceData) (s : DcSessionBalanceData).

(** ** Cancelling *)

Lemma cancelRequest_ok (e : option (Z * nat)) w (t : Z) d (id : Z) (r : RequestData) : inv e now w ->
  tasks w !! t = Some d -> sentRequests d !! id = Some r ->
  wp (cancelRequest now t id) (fun _ w' => inv e now w' /\ lastRequestId w' = lastRequestId w
    /\ exists b s, balanceData w !! dcId d = Some b /\ sessions b !! sessionIndex r = Some s
       /\ changed t (finished id (offset r) d) (bump (sessionIndex r) (kDownloadPartSize * -1) b s) w w') w.
Proof.
  intros H Ht Hr. pose proof (inv_task _ _ _ H _ _ Ht) as Gt. unfold cancelRequest.
  eapply wp_step; [unfold the_task; by rewrite Ht|]. apply wp_bind, wp_modify, wp_bind.
  eapply wp_mono; [eapply (finish_ok now e); [by eapply inv_same|done|done|done]|].
  intros a w' (_ & H' & El & b & s & Hb & Hs & [E1 E2 E3]). destruct (task_plain _ _ _ Gt) as (_ & _ & ->).
  destruct (task_ids _ _ _ Gt id r Hr) as [Hid _]. rewrite (proj2 (Z.eqb_neq _ _)) by lia. simpl.
  apply wp_ret. split; [done|]. split; [done|]. exists b, s. split_and!; [done|done|by split].
Qed.

Lemma cancel_each (e : option (Z * nat)) (t : Z) d (l : list Z) : NoDup l -> forall w m o, inv e now w ->
  tasks w !! t = Some (set_sent m o d) -> (forall id, is_Some (m !! id) <-> id ∈ l) ->
  wp (each (cancelRequest now t) l) (fun _ w' => inv e now w' /\ queues w' = queues w
    /\ exists o', tasks w' = <[t := set_sent ∅ o' d]> (tasks w)) w.
Proof.
  induction 1 as [|id l Hid _ IH]; intros w m o H Ht Hs; cbn [each].
  - split; [done|]. split; [done|]. exists o. assert (m = ∅) as ->.
    { apply map_eq. intros id. rewrite lookup_empty. apply eq_None_not_Some. intros X%Hs. by apply not_elem_of_nil in X. }
    by rewrite insert_id.
  - destruct (proj2 (Hs id) ltac:(by left)) as [r Hr]. apply wp_bind.
    eapply wp_mono; [by apply (cancelRequest_ok e w t (set_sent m o d) id r)|].
    intros [] w1 (H1 & _ & b & x & Hb & Hx & [E1 E2 E3]).
    eapply wp_mono; [eapply (IH w1 (delete id m) (delete (offset r) o)); [done|by rewrite E1, lookup_insert_eq|]|].
    + intros id'. rewrite lookup_delete_is_Some, Hs, elem_of_cons. split; [intros [? [?|?]]; congruence|].
      intros Hid'. split; [by intros ->|by right].
    + intros [] w2 (H2 & Eq & o' & Et). split; [done|]. split; [congruence|]. exists o'. by rewrite Et, E1, insert_insert_eq.
Qed.

Lemma no_offsets (last : Z) d : good_task now last d -> sentRequests d = ∅ -> requestByOffset d = ∅.
Proof.
  intros [G1 _ _ _ _ _] Hs. apply map_eq. intros o. rewrite lookup_empty. apply eq_None_not_Some. intros [id Hid].
  apply G1 in Hid as (r & Hr & _). by rewrite Hs in Hr.
Qed.

Lemma cancelAllRequests_ok (e : option (Z * nat)) w (t : Z) d : inv e now w -> tasks w !! t = Some d ->
  wp (cancelAllRequests now t) (fun _ w' => inv e now w' /\ queues w' = queues w
    /\ tasks w' = <[t := set_sent ∅ ∅ d]> (tasks w)) w.
Proof.
  intros H Ht. unfold cancelAllRequests. eapply wp_step; [unfold the_task; by rewrite Ht|]. apply wp_bind.
  eapply wp_mono; [eapply (cancel_each e t d (sorted_keys (sentRequests d)) (sorted_elements_NoDup _) w (sentRequests d) (requestByOffset d));
    [done|by destruct d|intros id; by rewrite elem_of_sorted_keys]|].
  intros [] w' (H' & Eq & o' & Et). assert (tasks w' !! t = Some (set_sent ∅ o' d)) as Ht' by (by rewrite Et, lookup_insert_eq).
  pose proof (inv_task _ _ _ H' _ _ Ht') as G'. pose proof (no_offsets _ _ G' eq_refl) as Eo. simpl in Eo. subst o'.
  apply wp_modify. simpl. rewrite (alter_at _ t _ _ Ht'). unfold set_unchecked. simpl.
  pose proof (task_plain _ _ _ G') as (_ & Eu & _). simpl in Eu. rewrite <- Eu. rewrite insert_id by done.
  split; [by eapply inv_same|done].
Qed.

(** ** What is chosen while a session is removed *)

(** The last session of [dc] is on its way out. *)
Record removing (dc : Z) (index : nat) b : Prop := {
  removing_last : length (sessions b) = S index;
  removing_others : (1 <= index)%nat;
  removing_successes : Forall (fun s => successes s <= 0) (sessions b) }.

Lemma sum_imap_at {A} (f : nat -> A -> Z) (l : list A) (i : nat) (x : A) : (forall i x, l !! i = Some x -> 0 <= f i x) ->
  l !! i = Some x -> f i x <= sum (imap f l).
Proof.
  revert f i. induction l as [|y l IH]; intros f i Hf Hi; [done|]. simpl.
  assert (forall g, (forall i x, l !! i = Some x -> 0 <= g i x) -> 0 <= sum (imap g l)) as Hn.
  { clear. induction l as [|y l IH]; intros g Hg; [done|]. simpl. pose proof (Hg O y eq_refl). specialize (IH (g ∘ S) (fun i => Hg (S i))). unfold sum in *. lia. }
  destruct i as [|i]; simpl in Hi; [injection Hi as ->; specialize (Hn (f ∘ S) (fun i => Hf (S i))); unfold sum in *; lia|].
  specialize (IH (f ∘ S) i (fun i => Hf (S i)) Hi). pose proof (Hf O y eq_refl). unfold compose, sum in *. lia.
Qed.

Lemma chooseSessionIndex_ok w (dc : Z) (index : nat) b : inv (Some (dc, index)) now w -> balanceData w !! dc = Some b ->
  removing dc index b -> weights (Some (dc, index)) dc b + kDownloadPartSize <= guard_amount ->
  wp (chooseSessionIndex dc) (fun j w' => w' = w /\ (j < index)%nat /\ is_Some (sessions b !! j)) w.
Proof.
  intros H Hb [R1 R2 _] Hw. pose proof (inv_balance _ _ _ H _ _ Hb) as [_ _ H3 _ _ _].
  unfold chooseSessionIndex. eapply wp_step; [unfold balance_of; by rewrite Hb|].
  destruct (sessions b) as [|x l] eqn:El; [done|]. apply wp_ret. split; [done|].
  destruct (min_element_all requested x l) as [Hm Hle]. split; [|by eexists]. set (m := min_element _ _ _ _) in *.
  assert (m.1 < S index)%nat as Hlt by (rewrite <- R1; by eapply lookup_lt_Some).
  destruct (decide (m.1 = index)) as [E|]; [|lia]. exfalso. specialize (Hle O x eq_refl).
  pose proof (H3 _ _ Hm) as Rm. rewrite E in Rm. unfold extra in Rm. rewrite bool_decide_eq_true_2 in Rm by done.
  pose proof (carried_nonneg dc index (tasks w)).
  assert (weight (Some (dc, index)) dc O x <= weights (Some (dc, index)) dc b) as Hx.
  { unfold weights. rewrite El. apply sum_imap_at; [|done]. intros i y Hy. unfold weight. case_bool_decide as Ei.
    - rewrite (H3 i y Hy). unfold extra. rewrite bool_decide_eq_true_2 by done.
      pose proof (carried_nonneg dc i (tasks w)). unfold kDownloadPartSize. lia.
    - unfold kMaxWaitedInSession, kDownloadPartSize. lia. }
  unfold weight in Hx. rewrite bool_decide_eq_false_2 in Hx by (injection 1; lia). unfold kDownloadPartSize in *. lia.
Qed.

(** ** Requests made again *)

(** A task with its requests elsewhere, for the same offsets. *)
Record elsewhere (index : nat) d d' : Prop := {
  elsewhere_task : d' = set_sent (sentRequests d') (requestByOffset d') d;
  elsewhere_index : forall id r, sentRequests d' !! id = Some r -> sessionIndex r <> index;
  elsewhere_offsets : forall o, is_Some (requestByOffset d' !! o) <-> is_Some (requestByOffset d !! o) }.

Lemma redirectRequest_ok w (t : Z) d (index : nat) (id : Z) (r : RequestData) b : inv (Some (dcId d, index)) now w ->
  tasks w !! t = Some d -> sentRequests d !! id = Some r -> sessionIndex r = index ->
  balanceData w !! dcId d = Some b -> removing (dcId d) index b ->
  wp (redirectRequest now t index (id, r)) (fun _ w' => inv (Some (dcId d, index)) now w' /\ queues w' = queues w
    /\ exists j b', (j < index)%nat /\ balanceData w' !! dcId d = Some b' /\ removing (dcId d) index b'
       /\ lastRequestId w' = lastRequestId w + 1 /\ exists amount,
       tasks w' = <[t := placed now (lastRequestId w + 1) (offset r) j amount (finished id (offset r) d)]> (tasks w)) w.
Proof.
  intros H Ht Hr Hi Hb [R1 R2 R3]. pose proof (inv_task _ _ _ H _ _ Ht) as Gt. unfold redirectRequest.
  eapply wp_step; [unfold the_task; by rewrite Ht|]. cbn [fst snd].
  destruct (task_plain _ _ _ Gt) as (_ & _ & ->). destruct (task_ids _ _ _ Gt id r Hr) as [Hid _].
  rewrite (proj2 (Z.eqb_neq _ _)) by lia. cbn [negb]. apply wp_bind.
  eapply wp_mono; [by apply (cancelRequest_ok (Some (dcId d, index)) w t d id r)|].
  intros [] w1 (H1 & El & b1 & s & Hb1 & Hs & [E1 E2 E3]). simplify_eq. simpl in E3.
  set (b1 := bump (sessionIndex r) (kDownloadPartSize * -1) b s) in *.
  assert (removing (dcId d) (sessionIndex r) b1) as Rm.
  { split; [by unfold b1; simpl; rewrite length_insert|done|]. unfold b1. simpl. apply Forall_insert; [done|].
    rewrite Forall_lookup in R3. simpl. by apply (R3 _ _ Hs). }
  assert (weights (Some (dcId d, sessionIndex r)) (dcId d) b1 + kDownloadPartSize <= guard_amount) as Hw.
  { destruct (weights_less (Some (dcId d, sessionIndex r)) (dcId d) (sessionIndex r) b s Hs) as [_ E]. unfold b1. rewrite (E eq_refl).
    pose proof (balance_weight _ _ _ _ (inv_balance _ _ _ H _ _ Hb)). lia. }
  assert (balanceData w1 !! dcId d = Some b1) as Hb1' by (by rewrite E3, lookup_insert_eq).
  apply wp_bind. eapply wp_mono; [by apply (chooseSessionIndex_ok w1 (dcId d) (sessionIndex r) b1)|].
  intros j w2 (-> & Hj & [y Hy]). rewrite (proj2 (Nat.ltb_lt _ _)) by done.
  assert (requestByOffset d !! offset r = Some id) as Ho by (apply (task_offsets _ _ _ Gt); eauto).
  eapply wp_mono; [eapply (makeRequest_ok now (Some (dcId d, sessionIndex r)) w1 t (finished id (offset r) d) (offset r) j b1 y H1)|].
  - split; simpl; [by rewrite E1, lookup_insert_eq|by rewrite lookup_delete_eq| | | |done|done|injection 1; lia|].
    + intros Hwant. apply (task_wants _ _ _ Gt) in Hwant. congruence.
    + apply (task_alive _ _ _ Gt). intros E0. by rewrite E0 in Hr.
    + rewrite E2. apply (inv_queued _ _ _ H t d Ht). intros E0. by rewrite E0 in Hr.
    + right. split; [done|]. split; [|by intros Hwh; destruct (Hwh (sessionIndex r))]. destruct Rm as [_ _ R]. rewrite Forall_lookup in R. by apply (R _ _ Hy).
  - intros [] w' (H' & [F1 F2 F3] & Fl). split; [done|]. split; [congruence|]. simpl in F3.
    exists j, (bump j kDownloadPartSize b1 y). rewrite F3, lookup_insert_eq. split_and!; [done|done| |lia|].
    + destruct Rm as [M1 M2 M3]. split; simpl; [by rewrite length_insert|done|]. apply Forall_insert; [done|].
      rewrite Forall_lookup in M3. simpl. by apply (M3 _ _ Hy).
    + eexists. by rewrite F1, E1, insert_insert_eq, El.
Qed.

Lemma elsewhere_refl (index : nat) d : (forall id r, sentRequests d !! id = Some r -> sessionIndex r <> index) -> elsewhere index d d.
Proof. intros H. split; [by destruct d|done|done]. Qed.

Lemma elsewhere_after (index : nat) d d1 d' : d1 = set_sent (sentRequests d1) (requestByOffset d1) d ->
  (forall o, is_Some (requestByOffset d1 !! o) <-> is_Some (requestByOffset d !! o)) ->
  elsewhere index d1 d' -> elsewhere index d d'.
Proof. intros E Ho [F1 F2 F3]. split; [|done|intros o; by rewrite F3]. rewrite F1, E. done. Qed.

(** The requests of one task, one after another. *)
Lemma redirect_each (dc : Z) (t : Z) (index : nat) (l : list (Z * RequestData)) : NoDup l.*1 -> forall w d b,
  inv (Some (dc, index)) now w -> tasks w !! t = Some d -> dcId d = dc -> balanceData w !! dc = Some b -> removing dc index b ->
  (forall id r, (id, r) ∈ l <-> sentRequests d !! id = Some r /\ sessionIndex r = index) ->
  wp (each (redirectRequest now t index) l) (fun _ w' => inv (Some (dc, index)) now w' /\ queues w' = queues w
    /\ (exists b', balanceData w' !! dc = Some b' /\ removing dc index b')
    /\ exists d', elsewhere index d d' /\ tasks w' = <[t := d']> (tasks w)) w.
Proof.
  induction l as [|[id r] l IH]; intros Hnd w d b H Ht <- Hb Hrm Hl; cbn [each].
  - split; [done|]. split; [done|]. split; [by exists b|]. exists d. split; [|by rewrite insert_id].
    apply elsewhere_refl. intros id r Hr Hi. apply (not_elem_of_nil (id, r)), Hl. done.
  - apply NoDup_cons in Hnd as [Hid Hnd]. cbn [fst] in Hid. destruct (proj1 (Hl id r) ltac:(by left)) as [Hr Hi].
    apply wp_bind. eapply wp_mono; [by eapply redirectRequest_ok|].
    intros [] w1 (H1 & Eq1 & j & b1 & Hj & Hb1 & Hrm1 & El & amount & Et1). set (d1 := placed _ _ _ _ _ _) in Et1.
    assert (requestByOffset d !! offset r = Some id) as Ho by (apply (task_offsets _ _ _ (inv_task _ _ _ H _ _ Ht)); eauto).
    assert (dcId d1 = dcId d) as Ed by done.
    eapply wp_mono; [apply (IH Hnd w1 d1 b1); [done|by rewrite Et1, lookup_insert_eq|done|done|done|]|].
    + intros id' r'. assert ((id', r') ∈ l <-> (id', r') ∈ (id, r) :: l /\ id' <> id) as ->.
      { rewrite elem_of_cons. split; [|intros [[E|?] ?]; congruence]. intros Hin. split; [by right|]. intros ->.
        apply Hid. by apply (list_elem_of_fmap_2 fst) in Hin. }
      rewrite Hl. unfold d1. simpl. rewrite lookup_insert. case_decide as En.
      * split; [|intros [[= <-] Hx]; simpl in Hx; lia]. intros [[Hr' _] _]. subst id'.
        destruct (task_ids _ _ _ (inv_task _ _ _ H _ _ Ht) _ _ Hr'). lia.
      * rewrite lookup_delete_Some. clear -En. intuition congruence.
    + intros [] w' (H' & Eq' & Hb' & d' & Hd' & Et'). split; [done|]. split; [congruence|]. split; [done|].
      exists d'. split; [|by rewrite Et', Et1, insert_insert_eq]. eapply (elsewhere_after index d d1 d'); [done| |exact Hd'].
      intros o. unfold d1. simpl. rewrite lookup_insert. case_decide as Eo; [subst o; rewrite Ho; by split; eexists|].
      by rewrite lookup_delete_ne.
Qed.

Lemma sorted_keys_empty {A} : sorted_keys (∅ : gmap Z A) = [].
Proof. apply elem_of_nil_inv. intros k [x Hk]%elem_of_sorted_keys. by rewrite lookup_empty in Hk. Qed.

Lemma taskRemoveSession_ok (dc : Z) (t : Z) (index : nat) w d b : inv (Some (dc, index)) now w -> tasks w !! t = Some d ->
  dcId d = dc -> balanceData w !! dc = Some b -> removing dc index b ->
  wp (taskRemoveSession now index t) (fun _ w' => inv (Some (dc, index)) now w' /\ queues w' = queues w
    /\ (exists b', balanceData w' !! dc = Some b' /\ removing dc index b')
    /\ exists d', elsewhere index d d' /\ tasks w' = <[t := d']> (tasks w)) w.
Proof.
  intros H Ht Ed Hb Hrm. destruct (task_plain _ _ _ (inv_task _ _ _ H _ _ Ht)) as (_ & Eu & _).
  unfold taskRemoveSession. eapply wp_step; [unfold the_task; by rewrite Ht|]. rewrite Eu, sorted_keys_empty. apply wp_bind, wp_ret.
  eapply redirect_each; [|done..|].
  - eapply sublist_NoDup; [|apply fmap_sublist, sublist_filter]. rewrite entries_keys. apply sorted_elements_NoDup.
  - intros id r. rewrite list_elem_of_filter, elem_of_entries. simpl. tauto.
Qed.

(** All tasks of the queue. *)
Record moved (dc : Z) (index : nat) (l : list Z) w w' : Prop := {
  moved_queues : queues w' = queues w;
  moved_in : forall x, x ∈ l -> exists d d', tasks w !! x = Some d /\ tasks w' !! x = Some d' /\ elsewhere index d d';
  moved_out : forall x, (x ∉ l) -> tasks w' !! x = tasks w !! x }.

Lemma remove_each (dc : Z) (index : nat) (l : list Z) : NoDup l -> forall w b, inv (Some (dc, index)) now w ->
  (forall x, x ∈ l -> exists d, tasks w !! x = Some d /\ dcId d = dc) -> balanceData w !! dc = Some b -> removing dc index b ->
  wp (each (taskRemoveSession now index) l) (fun _ w' => inv (Some (dc, index)) now w' /\ moved dc index l w w'
    /\ exists b', balanceData w' !! dc = Some b' /\ removing dc index b') w.
Proof.
  induction 1 as [|t l Ht _ IH]; intros w b H Hl Hb Hrm; cbn [each].
  - split; [done|]. split; [|by exists b]. split; [done|by intros x ?%not_elem_of_nil|done].
  - destruct (Hl t ltac:(by left)) as (d & Hd & Ed). apply wp_bind. eapply wp_mono; [by eapply taskRemoveSession_ok|].
    intros [] w1 (H1 & Eq1 & (b1 & Hb1 & Hrm1) & d1 & Hd1 & Et1).
    assert (forall x, x ∈ l -> tasks w1 !! x = tasks w !! x) as Hx.
    { intros x Hx. rewrite Et1, lookup_insert_ne; [done|]. by intros ->. }
    eapply wp_mono; [apply (IH w1 b1 H1); [|done|done]|].
    + intros x Hin. rewrite Hx by done. apply Hl. by right.
    + intros [] w' (H' & [M1 M2 M3] & Hb'). split; [done|]. split; [|done]. split; [congruence| |].
      * intros x [->|Hin]%elem_of_cons.
        -- exists d, d1. rewrite M3 by done. by rewrite Et1, lookup_insert_eq.
        -- destruct (M2 x Hin) as (a & a' & Ha & Ha' & He). exists a, a'. rewrite <- Hx by done. done.
      * intros x [Hne Hnin]%not_elem_of_cons. rewrite M3 by done. by rewrite Et1, lookup_insert_ne.
Qed.

(** ** A session leaves *)

Lemma sum_imap_le {A} (f g : nat -> A -> Z) (l l' : list A) : length l = length l' ->
  (forall i x y, l !! i = Some x -> l' !! i = Some y -> f i x <= g i y) -> sum (imap f l) <= sum (imap g l').
Proof.
  revert f g l'. induction l as [|x l IH]; intros f g [|y l'] Hl Hf; try done. simpl. pose proof (Hf O x y eq_refl eq_refl).
  specialize (IH (f ∘ S) (g ∘ S) l' ltac:(simpl in Hl; lia) (fun i => Hf (S i))). unfold sum in *. lia.
Qed.

Lemma good_elsewhere (e e' : option (Z * nat)) (x : Z) (ts : gmap Z (Task L)) b : (forall i, e <> Some (x, i)) ->
  (forall i, e' <> Some (x, i)) -> good_balance e x ts b -> good_balance e' x ts b.
Proof.
  intros He He' [H1 H2 H3 H4 H5 H6]. split; try done.
  - intros i s Hs. rewrite (H3 i s Hs). unfold extra. by rewrite !bool_decide_eq_false_2.
  - etrans; [|exact H5]. unfold weights. apply sum_imap_le; [done|]. intros i y y' Hy Hy'. simplify_eq.
    unfold weight. by rewrite !bool_decide_eq_false_2.
Qed.

Definition leaving (index : nat) (times : Z) b : DcBalanceData :=
  set_removes (lastSessionRemove b) index times (set_sessions (alter (more_requested guard_amount) index (sessions b)) b).

Lemma inv_begin w (dc : Z) (index : nat) (times : Z) b : inv None now w -> balanceData w !! dc = Some b ->
  removing dc index b -> 0 <= times ->
  inv (Some (dc, index)) now (set_balance (<[dc := leaving index times b]> (balanceData w)) w) /\ removing dc index (leaving index times b).
Proof.
  intros H Hb [R1 R2 R3] Htimes. pose proof (inv_balance _ _ _ H _ _ Hb) as [H1 H2 H3 H4 H5 H6].
  rewrite Forall_lookup in R3, H2.
  assert (forall i s, alter (more_requested guard_amount) index (sessions b) !! i = Some s -> exists s0, sessions b !! i = Some s0
    /\ s = (if (i =? index)%nat then more_requested guard_amount s0 else s0)) as Hal.
  { intros i s. rewrite list_lookup_alter. destruct (decide _) as [<-|Hne].
    - intros (s0 & Hs0 & ->)%fmap_Some_1. exists s0. by rewrite Nat.eqb_refl.
    - intros Hs. exists s. by rewrite (proj2 (Nat.eqb_neq _ _)). }
  assert (removing dc index (leaving index times b)) as Hrm.
  { split; simpl; [by rewrite length_alter|done|]. apply Forall_lookup. intros i s Hs. destruct (Hal i s Hs) as (s0 & Hs0 & ->).
    pose proof (R3 _ _ Hs0). by destruct (_ =? _)%nat. }
  split; [|done]. split; simpl; try apply H.
  - intros x y. rewrite lookup_insert. case_decide as Hx.
    + intros [= <-]. subst x. split; simpl; rewrite ?length_alter; try done.
      * apply Forall_lookup. intros i s Hs. destruct (Hal i s Hs) as (s0 & Hs0 & ->). specialize (R3 _ _ Hs0). simpl in R3.
        destruct (H2 _ _ Hs0). destruct (_ =? _)%nat; split; simpl; try done; lia.
      * intros i s Hs. destruct (Hal i s Hs) as (s0 & Hs0 & ->). pose proof (H3 _ _ Hs0) as E. unfold extra in *.
        rewrite bool_decide_eq_false_2 in E by done. destruct (Nat.eqb_spec i index) as [->|Hne]; simpl.
        -- rewrite bool_decide_eq_true_2 by done. lia.
        -- rewrite bool_decide_eq_false_2 by congruence. lia.
      * etrans; [|exact H5]. apply sum_imap_le; [by simpl; rewrite length_alter|]. intros i s s0 Hs Hs0. destruct (Hal i s Hs) as (s1 & Hs1 & ->).
        simplify_eq. rewrite weight_none. unfold weight.
        destruct (Nat.eqb_spec i index) as [->|Hne]; simpl.
        -- rewrite bool_decide_eq_true_2 by done. lia.
        -- rewrite bool_decide_eq_false_2 by congruence. lia.
    + intros Hy. eapply good_elsewhere; [| |by apply (inv_balance _ _ _ H)]; [done|]. intros i E. congruence.
  - intros t d id r Ht Hr. destruct (inv_index _ _ _ H t d id r Ht Hr) as (b' & s' & Hb' & Hs' & Hst).
    rewrite lookup_insert. case_decide as Hx; [|by exists b', s'; split_and!; [..|intros _; by apply Hst]]. rewrite <- Hx in Hb'. simplify_eq.
    destruct (lookup_lt_is_Some_2 (sessions (leaving index times b)) (sessionIndex r)) as [y Hy]; [|by exists (leaving index times b), y; split_and!; [..|intros Hwh; by destruct (Hwh index)]].
    simpl. rewrite length_alter. by eapply lookup_lt_Some.
  - intros x y Hk. rewrite lookup_insert. case_decide as Hx; [subst x; intros [= <-]; simpl|]; by eapply (inv_kill _ _ _ H).
Qed.

Definition without_last b : DcBalanceData := set_removes now (sessionRemoveIndex b) (sessionRemoveTimes b) (set_sessions (removelast (sessions b)) b).

Lemma inv_end w w' (dc : Z) (index : nat) b : inv (Some (dc, index)) now w -> balanceData w !! dc = Some b ->
  removing dc index b -> carried dc index (tasks w) = 0 -> tasks w' = tasks w -> queues w' = queues w ->
  balanceData w' = <[dc := without_last b]> (balanceData w) -> killSessionsWhen w' = killSessionsWhen w ->
  lastRequestId w' = lastRequestId w -> inv None now w'.
Proof.
  intros H Hb [R1 R2 _] Hc E1 E2 E3 E4 E5. pose proof (inv_balance _ _ _ H _ _ Hb) as [H1 H2 H3 H4 H5 H6].
  destruct (last (sessions b)) as [z|] eqn:Ez; [|apply last_None in Ez; by rewrite Ez in R1].
  apply last_Some in Ez as [l El]. assert (length l = index) as Hl by (rewrite El, length_app in R1; simpl in R1; lia).
  assert (removelast (sessions b) = l) as Er by (by rewrite El, removelast_last).
  assert (forall i s, l !! i = Some s -> sessions b !! i = Some s /\ (i < index)%nat) as Hlk.
  { intros i s Hs. rewrite El, lookup_app, Hs. split; [done|]. apply lookup_lt_Some in Hs. lia. }
  assert (sessions b !! index = Some z) as Hz by (by rewrite El, lookup_app_r, Hl, Nat.sub_diag by lia).
  split; rewrite ?E1, ?E2, ?E3, ?E4, ?E5; try apply H.
  - intros x y. rewrite lookup_insert. case_decide as Hx.
    + intros [= <-]. subst x. unfold without_last. split; simpl; rewrite ?Er; try done.
      * unfold kMaxSessionsCount in *. lia.
      * rewrite El in H2. by apply Forall_app in H2 as [H2 _].
      * intros i s Hs. destruct (Hlk i s Hs) as [Hs' Hi]. rewrite (H3 i s Hs'). unfold extra.
        by rewrite !bool_decide_eq_false_2 by (done || (intros [= E]; lia)).
      * etrans; [|exact H5]. unfold weights. rewrite El, imap_app, sum_app. simpl. unfold compose. rewrite Nat.add_0_r, Hl.
        assert (sum (imap (weight None dc) l) <= sum (imap (weight (Some (dc, index)) dc) l)) as Hle.
        { apply sum_imap_le; [done|]. intros i s s' Hs Hs'. simplify_eq. destruct (Hlk i s' Hs'). unfold weight.
          by rewrite !bool_decide_eq_false_2 by (done || (intros [= E]; lia)). }
        unfold weight at 3. rewrite bool_decide_eq_true_2 by done. rewrite (H3 _ _ Hz), Hc. unfold extra.
        rewrite bool_decide_eq_true_2 by done. unfold sum in *. simpl. lia.
    + intros Hy. eapply good_elsewhere; [| |by apply (inv_balance _ _ _ H)]; [|done]. intros i E. congruence.
  - intros t d id r Ht Hr. destruct (inv_index _ _ _ H t d id r Ht Hr) as (b' & s' & Hb' & Hs' & Hst).
    rewrite lookup_insert. case_decide as Hx.
    + rewrite <- Hx, Hb in Hb'. injection Hb' as <-. assert (sessionIndex r < index)%nat as Hi.
      { apply lookup_lt_Some in Hs'. destruct (decide (sessionIndex r = index)) as [E|]; [|lia].
        pose proof (carried_pos t d id r _ Ht Hr) as [Hp _]. rewrite E, <- Hx in Hp. lia. }
      destruct (lookup_lt_is_Some_2 l (sessionIndex r)) as [y Hy]; [lia|]. exists (without_last b), y. split_and!; [done|by simpl; rewrite Er|].
      intros _ [Hsty _]. simpl in Hsty. destruct (task_ids _ _ _ (inv_task _ _ _ H _ _ Ht) id r Hr). lia.
    + exists b', s'. split_and!; [done|done|]. intros _. apply Hst. intros i E. congruence.
  - intros x y Hk. rewrite lookup_insert. case_decide as Hx; [subst x; intros [= <-]; simpl|]; by eapply (inv_kill _ _ _ H).
Qed.

(** What a removed session leaves: the other sessions, with every part that was
    requested still requested. *)
Record session_left (dc : Z) (n : nat) w w' : Prop := {
  left_queues : forall x, queue_of x w' = queue_of x w;
  left_tasks : forall x d, tasks w !! x = Some d -> exists d', tasks w' !! x = Some d' /\
    (d' = d \/ dcId d = dc /\ elsewhere n d d');
  left_none : forall x, tasks w !! x = None -> tasks w' !! x = None;
  left_count : exists b', balanceData w' !! dc = Some b' /\ length (sessions b') = n }.

Lemma nothing_through w (dc : Z) (index : nat) (q : list Enqueued) w1 : inv (Some (dc, index)) now w1 ->
  moved dc index (task <$> q) w w1 -> queues w !! dc = Some q -> carried dc index (tasks w1) = 0.
Proof.
  intros H [M1 M2 M3] Hq. apply carried_none. intros x d id r Hx <- Hr.
  destruct (inv_queued _ _ _ H x d Hx) as (q' & Hq' & Hin); [intros E; by rewrite E in Hr|].
  rewrite M1 in Hq'. simplify_eq. destruct (M2 x Hin) as (a & a' & _ & Ha' & He). simplify_eq. by eapply (elsewhere_index _ _ _ He).
Qed.

Lemma removeSession_ok w (dc : Z) (index : nat) b : inv None now w -> balanceData w !! dc = Some b -> removing dc index b ->
  wp (removeSession now dc) (fun _ w' => inv None now w' /\ session_left dc index w w') w.
Proof.
  intros H Hb Hrm. pose proof Hrm as [R1 R2 R3]. unfold removeSession.
  eapply wp_step; [unfold balance_of; by rewrite Hb|]. rewrite R1. unfold kStartSessionsCount.
  rewrite (proj2 (Nat.leb_gt _ _)) by lia. replace (S index - 1)%nat with index by lia.
  apply wp_bind. eapply wp_mono; [by apply (queue_or_new_ok now None)|].
  intros q w1 (H1 & -> & Hq & Ho & Eq1 & Et1 & Eb1 & _). set (times := if _ : bool then _ else _). apply wp_bind, wp_modify.
  assert (0 <= times) as Htimes.
  { unfold times, kMaxTrackedSessionRemoves. pose proof (balance_removes _ _ _ _ (inv_balance _ _ _ H _ _ Hb)). case_match; lia. }
  destruct (inv_begin w1 dc index times b H1 ltac:(by rewrite Eb1) Hrm Htimes) as [H2 Hrm2].
  change (kMaxWaitedInSession * Z.of_nat kMaxSessionsCount) with guard_amount. fold (leaving index times b).
  set (w2 := set_balance _ w1) in *. apply wp_bind.
  eapply wp_mono; [apply (remove_each dc index (task <$> queue_of dc w) (order_once _ Ho) w2 (leaving index times b) H2)|].
  - simpl. by apply (inv_queue _ _ _ H1 dc).
  - simpl. by rewrite lookup_insert_eq.
  - done.
  - intros [] w3 (H3 & Hmv & b3 & Hb3 & Hrm3). pose proof (nothing_through w2 dc index _ w3 H3 Hmv Hq) as Hc.
    destruct Hrm3 as [N1 N2 N3]. assert (exists z, last (sessions b3) = Some z /\ sessions b3 !! index = Some z) as (z & Hz & Hzi).
    { rewrite last_lookup, N1. simpl. destruct (lookup_lt_is_Some_2 (sessions b3) index) as [z Hz]; [lia|]. by exists z. }
    pose proof (inv_balance _ _ _ H3 _ _ Hb3) as G3. pose proof (balance_requested _ _ _ _ G3 _ _ Hzi) as Rz.
    rewrite Hc in Rz. unfold extra in Rz. rewrite bool_decide_eq_true_2 in Rz by done.
    eapply wp_step; [unfold balance_of; by rewrite Hb3|]. eapply wp_step; [unfold lift; by rewrite Hz|].
    rewrite Rz. rewrite (proj2 (Z.eqb_eq _ _)) by lia. cbn [negb]. apply wp_bind, wp_modify.
    destruct (download_dc _ _ _ _ index dc G3) as [dc' Hdc]; [lia|].
    apply wp_bind. unfold notify_session. eapply wp_step; [unfold lift; by rewrite Hdc|]. apply wp_modify.
    eapply wp_step; [unfold balance_of; simpl; by rewrite lookup_insert_eq|]. apply wp_modify. split; [|split].
    + eapply (inv_end w3 _ dc index b3 H3 Hb3); try done. simpl. by rewrite insert_insert_eq.
    + intros x. unfold queue_of in *. simpl. rewrite (moved_queues _ _ _ _ _ Hmv). simpl. apply Eq1.
    + intros x d Hx. simpl. rewrite <- Et1 in Hx. destruct (decide (x ∈ (task <$> queue_of dc w))) as [Hin|Hin].
      * destruct (moved_in _ _ _ _ _ Hmv x Hin) as (a & a' & Ha & Ha' & He). simpl in Ha. simplify_eq. exists a'. split; [done|]. right.
        split; [|done]. destruct (inv_queue _ _ _ H1 dc _ Hq) as [_ X]. destruct (X x Hin) as (d' & Hd' & <-). congruence.
      * exists d. split; [|by left]. by rewrite (moved_out _ _ _ _ _ Hmv x Hin).
    + intros x Hx. simpl. rewrite <- Et1 in Hx. rewrite (moved_out _ _ _ _ _ Hmv x); [done|]. intros Hin.
      destruct (moved_in _ _ _ _ _ Hmv x Hin) as (a & _ & Ha & _). simpl in Ha. congruence.
    + simpl. rewrite lookup_insert_eq. eexists. split; [done|]. simpl.
      apply last_Some in Hz as [l El]. rewrite El, removelast_last. rewrite El, length_app in N1. simpl in N1. lia.
Qed.

(** Whether a time out of a session makes the last one go. *)
Definition one_too_many (dc : Z) (i : nat) w : option nat :=
  match balanceData w !! dc with
  | Some b => if (i <? length (sessions b))%nat && negb (length (sessions b) =? kStartSessionsCount)%nat
                && (kRemoveSessionAfterTimeouts <=? timeouts b + 1) then Some (length (sessions b) - 1)%nat else None
  | None => None
  end.

Lemma sessionTimedOut_ok w (dc : Z) (i : nat) : inv None now w ->
  wp (sessionTimedOut now dc i) (fun _ w' => inv None now w'
    /\ match one_too_many dc i w with Some n => session_left dc n w w' | None => balanced now None w w' end) w.
Proof.
  intros H. assert (balanced now None w w) as Hw by done. unfold sessionTimedOut, one_too_many. apply wp_bind, wp_gets.
  destruct (balanceData w !! dc) as [b|] eqn:Hb; [|done].
  destruct (Nat.leb_spec (length (sessions b)) i) as [Hi|Hi]; [by rewrite (proj2 (Nat.ltb_ge _ _))|]. rewrite (proj2 (Nat.ltb_lt _ _)) by done.
  pose proof (inv_balance _ _ _ H _ _ Hb) as Gb. cbv zeta. set (b1 := set_sessions (no_successes <$> sessions b) b).
  assert (forall n, good_balance None dc (tasks w) (set_timeouts n b1) /\ rebalanced b (set_timeouts n b1)) as Hgood.
  { intros n. pose proof (requested_no_successes (sessions b)) as E. split; [|split; [done|done|simpl; by rewrite E]].
    eapply good_rebalance; [exact Gb|done|apply good_no_successes, Gb|done|apply Gb]. }
  assert (forall n, wp (set_balance_of dc (set_timeouts n b1)) (fun _ w' => inv None now w' /\ balanced now None w w') w) as Hput.
  { intros n. eapply wp_mono; [apply (rebalance_wp now None w dc b _ H Hb); apply Hgood|]. intros [] w' Hb'. split; [apply Hb'|done]. }
  assert (length (sessions b1) = length (sessions b)) as El by (simpl; by rewrite length_fmap). rewrite El.
  destruct (Nat.eqb_spec (length (sessions b)) kStartSessionsCount) as [|E2]; [apply (Hput (timeouts b))|]. cbn [andb negb].
  change (timeouts (set_timeouts (timeouts b1 + 1) b1)) with (timeouts b + 1).
  destruct (Z.ltb_spec (timeouts b + 1) kRemoveSessionAfterTimeouts); [rewrite (proj2 (Z.leb_gt _ _)) by lia; apply (Hput (timeouts b + 1))|].
  rewrite (proj2 (Z.leb_le _ _)) by lia. apply wp_bind, wp_modify. set (b2 := set_timeouts 0 (set_timeouts (timeouts b1 + 1) b1)).
  destruct (Hgood 0) as [G2 Rb2]. change (set_timeouts 0 b1) with b2 in *. set (w1 := set_balance _ w).
  assert (inv None now w1) as Hw1 by by eapply (inv_rebalance now None w w1 dc b b2).
  eapply wp_mono; [apply (removeSession_ok w1 dc (length (sessions b) - 1) b2 Hw1); [by simpl; rewrite lookup_insert_eq|]|].
  - pose proof (balance_count _ _ _ _ Gb). unfold kStartSessionsCount in *.
    split; simpl; [rewrite length_fmap; lia|lia|]. apply Forall_fmap, Forall_forall. intros s _. simpl. lia.
  - intros [] w' [H' [L1 L2 L3 L4]]. split; [done|]. by split.
Qed.

(** ** Sessions stopped *)

Lemma total_le {A} (f g : A -> Z) (m : gmap Z A) : (forall k x, m !! k = Some x -> f x <= g x) -> total f m <= total g m.
Proof.
  induction m as [|k x m Hk IH] using map_ind; intros Hf; [done|]. rewrite !total_insert by done.
  pose proof (Hf k x ltac:(apply lookup_insert_eq)). assert (total f m <= total g m); [|lia].
  apply IH. intros j y Hj. apply (Hf j). rewrite lookup_insert_ne; [done|congruence].
Qed.

Lemma carried_le (dc : Z) (i : nat) (ts : gmap Z (Task L)) : carried dc i ts <= carried_all dc ts.
Proof. apply total_le. intros k d _. destruct (_ =? _); [|done]. apply total_le. intros id r _. by destruct (_ =? _)%nat. Qed.

Lemma good_fresh (dc : Z) (ts : gmap Z (Task L)) b : good_balance None dc ts b -> (forall i, carried dc i ts = 0) ->
  carried_all dc ts = 0 ->
  good_balance None dc ts (set_sessions (replicate (length (sessions b)) DcSessionBalanceData_new) DcBalanceData_new).
Proof.
  intros [G1 _ _ _ _ _] Hc Ha. split; simpl; rewrite ?length_replicate; try done.
  - apply Forall_replicate. split; simpl; unfold kStartWaitedInSession, kMaxWaitedInSession, kDownloadPartSize; try lia. by exists 4.
  - intros i s [-> _]%lookup_replicate_1. simpl. rewrite Hc. unfold extra. rewrite bool_decide_eq_false_2 by done. lia.
  - rewrite Ha. lia.
  - etrans; [apply (sum_imap_le _ (fun _ _ => kMaxWaitedInSession) _ (sessions b)); [by simpl; rewrite length_replicate|]|].
    + simpl. intros i s s' [-> _]%lookup_replicate_1 _. by rewrite weight_none.
    + change (sum (imap (const (fun _ : DcSessionBalanceData => kMaxWaitedInSession)) (sessions b)) <= guard_amount).
      rewrite imap_const, sum_const. unfold guard_amount, kMaxSessionsCount, kMaxWaitedInSession, kDownloadPartSize in *. lia.
Qed.

(** Sessions that carry nothing are stopped and start anew. *)
Lemma killSessionsOf_ok w (dc : Z) : inv None now w -> is_Some (killSessionsWhen w !! dc) ->
  wp (killSessionsOf dc) (fun _ w' => inv None now w' /\ tasks w' = tasks w /\ queues w' = queues w
    /\ killSessionsWhen w' = killSessionsWhen w) w.
Proof.
  intros H Hk. unfold killSessionsOf. apply wp_bind, wp_gets. destruct (balanceData w !! dc) as [b|] eqn:Hb; [|done].
  pose proof (inv_kill _ _ _ H _ _ Hk Hb) as Hz. rewrite Hz. cbn [Z.eqb negb].
  pose proof (inv_balance _ _ _ H _ _ Hb) as Gb. pose proof Gb as [_ _ G3 G4 _ _].
  assert (forall i, carried dc i (tasks w) = 0) as Hc.
  { intros i. pose proof (carried_nonneg dc i (tasks w)). pose proof (carried_le dc i (tasks w)). rewrite Hz in G4. unfold kDownloadPartSize in *. lia. }
  assert (forall i s, sessions b !! i = Some s -> requested s = 0) as Hr.
  { intros i s Hs. rewrite (G3 i s Hs), Hc. unfold extra. rewrite bool_decide_eq_false_2 by done. lia. }
  apply wp_bind. set (same := fun x : manager L => inv None now x /\ tasks x = tasks w /\ queues x = queues w
    /\ killSessionsWhen x = killSessionsWhen w /\ balanceData x = balanceData w /\ lastRequestId x = lastRequestId w).
  eapply wp_mono; [apply (wp_each same); [|done]|].
  - intros j x Hj (Hx & X). apply list_elem_of_In, in_seq in Hj. destruct (lookup_lt_is_Some_2 (sessions b) j) as [s Hs]; [lia|].
    unfold stopSession. eapply wp_step; [unfold lift; by rewrite Hs|]. rewrite (Hr j s Hs). cbn [Z.eqb negb].
    destruct (download_dc _ _ _ _ j dc Gb) as [dc' Hdc]; [lia|]. unfold notify_session.
    eapply wp_step; [unfold lift; by rewrite Hdc|]. apply wp_modify. split; [by eapply inv_same|done].
  - intros [] x (Hx & E1 & E2 & E3 & E4 & E5). apply wp_modify. simpl. split_and!; [|done..].
    split; simpl; rewrite ?E1, ?E2, ?E3, ?E4, ?E5; try apply H.
    + intros y b'. rewrite lookup_insert. case_decide as Hy; [|apply (inv_balance _ _ _ H)]. intros [= <-]. subst y.
      apply (good_fresh dc (tasks w) b Gb Hc). unfold kDownloadPartSize in G4. lia.
    + intros t d id r Ht Hr'. destruct (inv_index _ _ _ H t d id r Ht Hr') as (b' & s' & Hb' & Hs' & Hst').
      exists b', s'. rewrite lookup_insert_ne; [done|]. intros ->. pose proof (carried_pos t d id r _ Ht Hr') as [Hp _].
      rewrite Hc in Hp. lia.
    + intros y b' Hy. rewrite lookup_insert. case_decide; [by intros [= <-]|]. by eapply (inv_kill _ _ _ H).
Qed.

End Removal.
