(* ===== verification/DownloadSystem.v ===== *)
(** * Downloads: the manager at work

    Every operation from the outside, and the steps they make: answers, errors,
    time outs, tasks that come, change and go. *)

From S2P Require Import Prelude Ids Text Errors DownloadQueue StateMonad Download DownloadFacts DownloadSend DownloadRemove.

Section System.
Context {L : Type} `{!Loader L, !LoaderLaws L} (now : Z).
Implicit Types (w : manager L) (d : Task L) (b : DcBalanceData) (s : DcSessionBalanceData).

(** ** Queues *)

Lemma inv_set_queue w (dc : Z) (q : list Enqueued) : inv None now w -> in_order q ->
  (forall t, t ∈ (task <$> q) -> exists d, tasks w !! t = Some d /\ dcId d = dc) ->
  (forall t d, tasks w !! t = Some d -> dcId d = dc -> sentRequests d <> ∅ -> t ∈ (task <$> q)) ->
  inv None now (set_queues (<[dc := q]> (queues w)) w).
Proof.
  intros H Ho Hin Hq. split; simpl; try apply H.
  - intros x y. rewrite lookup_insert. case_decide as Hx; [intros [= <-]; by subst x|]. apply (inv_queue _ _ _ H).
  - intros t d Ht Hs. rewrite lookup_insert. case_decide as Hx; [exists q; split; [done|by apply (Hq t d)]|]. by apply (inv_queued _ _ _ H).
Qed.

Lemma elem_of_removed (t x : Z) (q : list Enqueued) : x ∈ (task <$> remove t q) <-> x ∈ (task <$> q) /\ x <> t.
Proof.
  unfold remove. rewrite !list_elem_of_fmap. split.
  - intros (y & -> & [Hy Hin]%list_elem_of_filter). split; [by exists y|done].
  - intros [(y & -> & Hin) Hne]. exists y. split; [done|]. by apply list_elem_of_filter.
Qed.

Lemma queue_task w (dc t : Z) : inv None now w -> t ∈ (task <$> queue_of dc w) -> exists d, tasks w !! t = Some d /\ dcId d = dc.
Proof.
  intros H Ht. unfold queue_of in Ht. destruct (queues w !! dc) as [q|] eqn:Eq; [|by apply not_elem_of_nil in Ht].
  by apply (inv_queue _ _ _ H dc q Eq).
Qed.

Lemma queue_has w (t : Z) d : inv None now w -> tasks w !! t = Some d -> sentRequests d <> ∅ -> t ∈ (task <$> queue_of (dcId d) w).
Proof. intros H Ht Hs. destruct (inv_queued _ _ _ H t d Ht Hs) as (q & Hq & Hin). unfold queue_of. by rewrite Hq. Qed.

Lemma enqueueTask_ok w (t p : Z) d : inv None now w -> tasks w !! t = Some d -> -1 <= p ->
  wp (enqueueTask now t p) (fun _ w' => inv None now w' /\ stopped (dcId d) w'
    /\ queue_of (dcId d) w' = enqueue t p (queue_of (dcId d) w)
    /\ forall x dx, tasks w !! x = Some dx -> exists d', tasks w' !! x = Some d' /\ taken (loader dx) (loader d')) w.
Proof.
  intros H Ht Hp. unfold enqueueTask. eapply wp_step; [unfold the_task; by rewrite Ht|].
  apply wp_bind. eapply wp_mono; [by apply (queue_or_new_ok now None)|].
  intros q w1 (H1 & -> & Hq & Ho & Eq & Et & _). destruct (enqueue_perm t p _ Ho Hp) as [Ho' Hperm].
  apply wp_bind, wp_modify, wp_bind, wp_modify.
  eapply wp_mono; [apply checkSendNext_ok|].
  - eapply inv_same; [apply (inv_set_queue w1 (dcId d) (enqueue t p (queue_of (dcId d) w)) H1 Ho')|done..].
    + intros x. rewrite Hperm, fmap_cons, elem_of_cons. simpl. intros [->|[Hx _]%elem_of_removed]; [rewrite Et; by exists d|].
      by apply (inv_queue _ _ _ H1 _ _ Hq).
    + intros x dx Hx Ed Hs. rewrite Hperm, fmap_cons, elem_of_cons. simpl. destruct (decide (x = t)) as [->|]; [by left|right].
      apply elem_of_removed. split; [|done]. rewrite <- Eq, <- Ed. by apply (queue_has w1).
  - intros [] w' (H' & [Hs Hts _] & Hst). split; [done|]. split; [done|]. split; [rewrite Hs; unfold queue_of; simpl; by rewrite lookup_insert_eq|].
    intros x dx Hx. rewrite <- Et in Hx. destruct (Hts x dx Hx) as (d' & Hd' & _ & Htk & _). by exists d'.
Qed.

(** A task with nothing under way leaves, and is left alone. *)
Lemma removeTask_ok w (t : Z) d : inv None now w -> tasks w !! t = Some d -> sentRequests d = ∅ ->
  wp (removeTask now t) (fun _ w' => inv None now w' /\ tasks w' !! t = Some d
    /\ (forall dc, t ∉ (task <$> queue_of dc w')) /\ stopped (dcId d) w') w.
Proof.
  intros H Ht Hs. unfold removeTask. eapply wp_step; [unfold the_task; by rewrite Ht|].
  apply wp_bind. eapply wp_mono; [by apply (queue_or_new_ok now None)|].
  intros q w1 (H1 & -> & Hq & Ho & Eq & Et & _). destruct (remove_in_order t _ Ho) as [Ho' Hn].
  apply wp_bind, wp_modify. set (w2 := set_queues _ w1).
  assert (queue_of (dcId d) w2 = remove t (queue_of (dcId d) w)) as Eq2 by (unfold queue_of; simpl; by rewrite lookup_insert_eq).
  assert (inv None now w2) as H2.
  { apply inv_set_queue; [done|done| |].
    - intros x [Hx _]%elem_of_removed. by apply (inv_queue _ _ _ H1 _ _ Hq).
    - intros x dx Hx Ed Hsx. apply elem_of_removed. split; [|intros ->; congruence]. rewrite <- Eq, <- Ed. by apply (queue_has w1). }
  eapply wp_mono; [by apply checkSendNext_ok|]. intros [] w' (H' & [S1 S2 S3] & Hst). split; [done|].
  destruct (S2 t d) as (d' & Hd' & _ & _ & Hsame); [by simpl; rewrite Et|]. rewrite Hsame in Hd' by (by rewrite Eq2).
  split; [done|]. split; [|done]. intros dc Hin. rewrite S1 in Hin. destruct (decide (dc = dcId d)) as [->|Hne]; [by rewrite Eq2 in Hin|].
  destruct (queue_task w2 dc t H2 Hin) as (d2 & Hd2 & E2). simpl in Hd2. rewrite Et in Hd2. congruence.
Qed.

Lemma resetOne_ok w (dc : Z) : inv None now w -> wp (resetOne dc) (fun _ => inv None now) w.
Proof.
  intros H. unfold resetOne. apply wp_bind. eapply wp_mono; [by apply (queue_or_new_ok now None)|].
  intros q w1 (H1 & -> & Hq & Ho & Eq & Et & _). rewrite (reset_eq _ Ho). destruct (reset_in_order _ Ho) as [Ho' E].
  apply wp_bind. eapply wp_lift; [done|]. apply wp_modify. apply inv_set_queue; [done|done| |]; rewrite E.
  - by apply (inv_queue _ _ _ H1).
  - intros x dx Hx Ed Hs. rewrite <- Eq, <- Ed. by apply (queue_has w1).
Qed.

Lemma resetGenerations_ok w : inv None now w -> wp resetGenerations (fun _ => inv None now) w.
Proof.
  intros H. apply wp_bind, wp_modify, wp_bind, wp_gets. apply wp_each; [|by eapply inv_same].
  intros dc w' _. apply resetOne_ok.
Qed.

(** ** Sessions *)

Lemma inv_kill_less (e : option (Z * nat)) w (k : gmap Z Z) (timer : option Z) : inv e now w ->
  (forall dc, is_Some (k !! dc) -> is_Some (killSessionsWhen w !! dc)) -> inv e now (set_kill k timer w).
Proof. intros H Hk. split; simpl; try apply H. intros dc b Hdc. eapply (inv_kill _ _ _ H), Hk, Hdc. Qed.

Lemma killSessions_ok w : inv None now w ->
  wp (killSessions now) (fun _ w' => inv None now w' /\ tasks w' = tasks w) w.
Proof.
  intros H. unfold killSessions. apply wp_bind, wp_gets, wp_bind.
  eapply wp_mono; [apply (wp_each (fun x => inv None now x /\ tasks x = tasks w /\ killSessionsWhen x = killSessionsWhen w)); [|done]|].
  - intros [dc t] x Hx (H1 & E1 & E2). apply list_elem_of_filter in Hx as [_ Hx]. apply elem_of_entries in Hx.
    eapply wp_mono; [apply killSessionsOf_ok; [done|rewrite E2; by eexists]|].
    intros [] x' (H2 & F1 & _ & F2). split; [done|]. by rewrite F1, F2.
  - intros [] x (H1 & E1 & _). apply wp_modify. split; [|done]. apply inv_kill_less; [done|].
    intros dc [t Ht]. apply map_lookup_filter_Some in Ht as [Ht _]. by eexists.
Qed.

(** ** Answers *)

Lemma have_none d : haveSentRequests d = false -> sentRequests d = ∅.
Proof. unfold haveSentRequests. intros [H _]%orb_false_iff. apply negb_false_iff in H. by apply bool_decide_eq_true in H. Qed.

(** What a task calls of the manager. *)
Lemma effects_ok (t : Z) d (effects : list effect) : (RemoveFromQueue ∈ effects -> sentRequests d = ∅) ->
  forall w m o, inv None now w -> tasks w !! t = Some (set_sent m o d) -> (sentRequests d = ∅ -> m = ∅) ->
  wp (each (applyEffect now t) effects) (fun _ w' => inv None now w' /\ exists m' o', tasks w' !! t = Some (set_sent m' o' d)
    /\ (m = ∅ -> m' = ∅) /\ (CancelAll ∈ effects -> m' = ∅)) w.
Proof.
  induction effects as [|x l IH]; intros Hleave w m o H Ht Hm; cbn [each].
  - split; [done|]. exists m, o. split_and!; [done|done|by intros ?%not_elem_of_nil].
  - assert (wp (applyEffect now t x) (fun _ w' => inv None now w' /\ exists m1 o1, tasks w' !! t = Some (set_sent m1 o1 d)
      /\ (m = ∅ -> m1 = ∅) /\ (x = CancelAll -> m1 = ∅)) w) as Hx.
    { destruct x; cbn [applyEffect].
      - eapply wp_mono; [apply (removeTask_ok w t _ H Ht); apply Hm, Hleave; by left|].
        intros [] w' (H' & Ht' & _). split; [done|]. by exists m, o.
      - eapply wp_mono; [by apply (cancelAllRequests_ok now None w t _ H Ht)|].
        intros [] w' (H' & _ & Et). split; [done|]. exists ∅, ∅. by rewrite Et, lookup_insert_eq. }
    apply wp_bind. eapply wp_mono; [exact Hx|]. intros [] w1 (H1 & m1 & o1 & Ht1 & Hm1 & Hc1).
    eapply wp_mono; [apply (IH ltac:(intros; apply Hleave; by right) w1 m1 o1 H1 Ht1); auto|].
    intros [] w2 (H2 & m2 & o2 & Ht2 & Hm2 & Hc2). split; [done|]. exists m2, o2. split_and!; [done|auto|].
    intros [<-|Hin]%elem_of_cons; auto.
Qed.

(** A method of the task, whose own changes come last. *)
Lemma method_ok w (t : Z) d (effects : list effect) (l : L) : inv None now w -> tasks w !! t = Some d ->
  (RemoveFromQueue ∈ effects -> sentRequests d = ∅) -> sound l -> (forall x, wants l x -> wants (loader d) x) ->
  (sentRequests d = ∅ \/ alive l \/ CancelAll ∈ effects) ->
  wp (each (applyEffect now t) effects ;;; change_task t (set_loader l)) (fun _ w' => inv None now w'
    /\ exists d', tasks w' !! t = Some d' /\ loader d' = l /\ dcId d' = dcId d /\ (effects = [] -> d' = set_loader l d)) w.
Proof.
  intros H Ht Hleave Hso Hw Hend. apply wp_bind.
  assert (tasks w !! t = Some (set_sent (sentRequests d) (requestByOffset d) d)) as Ht0 by (by destruct d).
  eapply wp_mono; [apply wp_also with (P := fun _ w' => effects = [] -> w' = w); [apply (effects_ok t d effects Hleave w _ _ H Ht0); auto|]|].
  - intros a w' E ->. cbn [each] in E. by injection E.
  - intros [] w' ((H' & m & o & Ht' & Hm & Hc) & Hnil). apply wp_modify. rewrite (alter_at _ t _ _ Ht').
    split; [|exists (set_loader l (set_sent m o d)); simpl; rewrite lookup_insert_eq; split_and!; try done; intros ->; specialize (Hnil eq_refl); subst w'; congruence].
    apply (inv_retask now None w' t (set_sent m o d)); [done|done|done|done|]. pose proof (inv_task _ _ _ H' _ _ Ht') as G.
    apply good_reload; [done|done| |].
    + intros x Hx. by apply (task_wants _ _ _ G), Hw.
    + intros Hne. simpl in Hne. destruct Hend as [E|[|Hin]]; [|done|]; destruct Hne; auto.
Qed.

Lemma feed_ok_wp w (t o : Z) (bytes : list Z) d : inv None now w -> tasks w !! t = Some d -> alive (loader d) ->
  wp (feed now t o bytes) (fun _ => inv None now) w.
Proof.
  intros H Ht Ha. unfold feed. eapply wp_step; [unfold the_task; by rewrite Ht|].
  destruct (feed_ok (haveSentRequests d) o bytes (loader d) (task_sound _ _ _ (inv_task _ _ _ H _ _ Ht)) Ha) as (l & effects & ok & E & Hso & Hw & [Hl He]).
  eapply wp_step; [unfold lift; by rewrite E|]. apply wp_assoc, wp_bind.
  eapply wp_mono; [apply (method_ok w t d effects l H Ht); [|done|done|]|].
  - intros Hin. by apply have_none, Hl.
  - destruct He as [|[E0%have_none|]]; auto.
  - intros [] w' [H' _]. by apply wp_ret.
Qed.

Lemma cancelTask_ok w (t : Z) d : inv None now w -> tasks w !! t = Some d ->
  wp (cancelTask now t) (fun _ => inv None now) w.
Proof.
  intros H Ht. unfold cancelTask. eapply wp_step; [unfold the_task; by rewrite Ht|]. cbv zeta.
  destruct (cancel_ok (loader d) (task_sound _ _ _ (inv_task _ _ _ H _ _ Ht))) as (Hso & Hw & Hn & He).
  eapply wp_mono; [apply (method_ok w t d _ _ H Ht); [done|done|done|]|by intros [] w' []].
  destruct (decide (sentRequests d = ∅)) as [|Hne]; [by left|]. right. apply He. by apply (task_alive _ _ _ (inv_task _ _ _ H _ _ Ht)).
Qed.

Lemma request_alive w (t : Z) d (id : Z) (r : RequestData) : inv None now w -> tasks w !! t = Some d ->
  sentRequests d !! id = Some r -> alive (loader d).
Proof. intros H Ht Hr. apply (task_alive _ _ _ (inv_task _ _ _ H _ _ Ht)). intros E. by rewrite E in Hr. Qed.

Lemma normalPartLoaded_ok w (t id : Z) (bytes : list Z) d (r : RequestData) : inv None now w -> tasks w !! t = Some d ->
  sentRequests d !! id = Some r ->
  wp (normalPartLoaded now t (File bytes) id) (fun _ w' => inv None now w' /\ stopped (dcId d) w') w.
Proof.
  intros H Ht Hr. pose proof (request_alive w t d id r H Ht Hr) as Ha. unfold normalPartLoaded. apply wp_bind.
  eapply wp_mono; [by apply (success_ok now w t d id r)|]. intros a w1 (-> & H1 & Et1 & _).
  assert (tasks w1 !! t = Some (finished id (offset r) d)) as Ht1 by (by rewrite Et1, lookup_insert_eq).
  eapply wp_step; [unfold the_task; by rewrite Ht1|]. apply wp_bind, wp_bind.
  eapply wp_mono; [by apply (feed_ok_wp w1 t (offset r) bytes _ H1 Ht1)|]. intros ok w2 H2. apply wp_ret. eapply wp_mono; [by apply (checkSendNext_ok now w2 (dcId d))|]. by intros [] w3 (H3 & _ & Hst).
Qed.

Lemma webPartLoaded_ok w (t size id : Z) (bytes : list Z) d (r : RequestData) : inv None now w -> tasks w !! t = Some d ->
  sentRequests d !! id = Some r ->
  wp (webPartLoaded now t size bytes id) (fun _ w' => inv None now w' /\ stopped (dcId d) w') w.
Proof.
  intros H Ht Hr. pose proof (request_alive w t d id r H Ht Hr) as Ha. unfold webPartLoaded. apply wp_bind.
  eapply wp_mono; [by apply (success_ok now w t d id r)|]. intros a w1 (-> & H1 & Et1 & _).
  assert (tasks w1 !! t = Some (finished id (offset r) d)) as Ht1 by (by rewrite Et1, lookup_insert_eq).
  eapply wp_step; [unfold the_task; by rewrite Ht1|]. cbv zeta. cbn [loader finished set_sent].
  destruct (hook_ok size (loader d) (task_sound _ _ _ (inv_task _ _ _ H _ _ Ht)) Ha) as (Hso & Hw & Hn & Hend). set (h := setWebFileSizeHook size (loader d)) in *.
  apply wp_assoc, wp_bind. eapply wp_mono; [apply (method_ok w1 t _ h.1.2 h.1.1 H1 Ht1); [done|done|exact Hw|]|].
  - right. destruct h.2; [left; apply Hend|done].
  - intros [] w2 (H2 & d' & Ht2 & El & Ed & Hnil). apply wp_bind.
    assert (wp (if h.2 then feed now t (offset r) bytes ;;; ret tt else ret tt) (fun _ => inv None now) w2) as Hf.
    { destruct h.2; [|done]. apply wp_bind. eapply wp_mono; [apply (feed_ok_wp w2 t _ _ d' H2 Ht2)|by intros]. rewrite El. apply Hend. }
    eapply wp_mono; [exact Hf|]. intros [] w3 H3. eapply wp_mono; [by apply (checkSendNext_ok now w3 (dcId d))|].
    by intros [] w4 (H4 & _ & Hst).
Qed.

Lemma partFailed_ok w (t id : Z) (error : Error) d : inv None now w -> tasks w !! t = Some d ->
  wp (partFailed now t error id) (fun _ => inv None now) w.
Proof.
  intros H Ht. unfold partFailed. case_match; [done|]. apply wp_bind. eapply wp_mono; [by eapply cancelTask_ok|]. by intros [] w' H'.
Qed.

Lemma normalPartFailed_ok w (t id : Z) (reference : list Z) (error : Error) d : inv None now w -> tasks w !! t = Some d ->
  wp (normalPartFailed now t reference error id) (fun _ => inv None now) w.
Proof.
  intros H Ht. unfold normalPartFailed. case_match; [done|]. case_match; [|by eapply partFailed_ok].
  apply wp_bind, wp_modify, wp_ret. by eapply inv_same.
Qed.

(** A request made once more, through the same session. *)
Lemma again_ok w (t : Z) d (id : Z) (r : RequestData) : inv None now w -> tasks w !! t = Some d -> sentRequests d !! id = Some r ->
  wp (r' <- finishSentRequest now t id Redirect ;; makeAgain now t r') (fun _ w' => inv None now w' /\ exists amount,
    tasks w' = <[t := placed now (lastRequestId w + 1) (offset r) (sessionIndex r) amount (finished id (offset r) d)]> (tasks w)) w.
Proof.
  intros H Ht Hr. pose proof (inv_task _ _ _ H _ _ Ht) as Gt. apply wp_bind.
  eapply wp_mono; [by apply (finish_ok now None w t d id r)|]. intros a w1 (-> & H1 & El & b & s & Hb & Hs & [E1 E2 E3]). simpl in E3.
  set (s1 := more_requested (kDownloadPartSize * -1) s) in *. set (b1 := bump (sessionIndex r) (kDownloadPartSize * -1) b s) in *.
  assert (requestByOffset d !! offset r = Some id) as Ho by (apply (task_offsets _ _ _ Gt); eauto).
  assert (sessions b1 !! sessionIndex r = Some s1) as Hs1 by (simpl; apply list_lookup_insert_eq; by eapply lookup_lt_Some).
  eapply wp_mono; [eapply (makeRequest_ok now None w1 t (finished id (offset r) d) (offset r) (sessionIndex r) b1 s1 H1)|].
  - split; simpl; [by rewrite E1, lookup_insert_eq|by rewrite lookup_delete_eq| |by apply (request_alive w t d id r)| |by rewrite E3, lookup_insert_eq|done|done|].
    + intros Hwant. apply (task_wants _ _ _ Gt) in Hwant. congruence.
    + rewrite E2. apply (inv_queued _ _ _ H t d Ht). intros E0. by rewrite E0 in Hr.
    + destruct (inv_balance _ _ _ H _ _ Hb) as [_ G2 G3 _ G5 _]. rewrite Forall_lookup in G2. destruct (G2 _ _ Hs) as [_ _ _ S4].
      destruct (Z.le_gt_cases (requested s) kMaxWaitedInSession) as [Hle|Hgt]; [left; unfold s1, kDownloadPartSize; simpl; lia|right].
      pose proof (G3 _ _ Hs) as Rs. unfold extra in Rs. rewrite bool_decide_eq_false_2 in Rs by done.
      split_and!; [|unfold s1; simpl; destruct (Z.le_gt_cases (successes s) 0) as [|Hpos]; [done|specialize (S4 ltac:(lia)); lia]|].
      * unfold b1. rewrite weights_bump by done. rewrite !weight_none. unfold s1. simpl. unfold kMaxWaitedInSession, kDownloadPartSize in *. lia.
      * intros _ x dx id' r' Hx Edx Hr' Ei Hsty. simpl in Edx.
        assert (exists d0, tasks w !! x = Some d0 /\ dcId d0 = dcId d /\ sentRequests d0 !! id' = Some r') as (d0 & Hd0 & Ed0 & Hr0).
        { rewrite E1, lookup_insert in Hx. case_decide; [|by exists dx]. subst x. injection Hx as <-. exists d.
          simpl in Hr'. by apply lookup_delete_Some in Hr' as [_ Hr']. }
        destruct (inv_index _ _ _ H x d0 id' r' Hd0 Hr0) as (b0 & s0 & Hb0 & Hs0 & Hst). rewrite Ed0 in Hb0. simplify_eq. rewrite Ei in Hs0. simplify_eq.
        specialize (Hst ltac:(by intros i) Hsty). lia.
  - intros [] w' (H' & [F1 _ _] & _). split; [done|]. eexists. by rewrite F1, E1, insert_insert_eq, El.
Qed.

Lemma refresh_ok w (t id : Z) (updated current : list Z) d : inv None now w -> tasks w !! t = Some d ->
  wp (refreshFileReferenceFrom now t id updated current) (fun _ => inv None now) w.
Proof.
  intros H Ht. unfold refreshFileReferenceFrom. eapply wp_step; [unfold the_task; by rewrite Ht|].
  destruct (web d); [by eapply cancelTask_ok|]. apply wp_bind, wp_modify. rewrite (alter_at _ t _ _ Ht).
  set (d1 := set_reference updated d). assert (inv None now (set_tasks (<[t := d1]> (tasks w)) w)) as H1.
  { apply (inv_retask now None w t d); [done..|]. destruct (inv_task _ _ _ H _ _ Ht) as [G1 G2 G3 G4 G5 G6]. by split. }
  assert (tasks (set_tasks (<[t := d1]> (tasks w)) w) !! t = Some d1) as Ht1 by (simpl; by rewrite lookup_insert_eq).
  case_bool_decide; [by eapply cancelTask_ok|]. case_bool_decide as Hr; [|done]. destruct Hr as [r Hr].
  eapply wp_mono; [by eapply (again_ok _ t d1 id r)|]. by intros [] w' [H' _].
Qed.

(** ** Tasks *)

Lemma cancelRequestForOffset_ok w (t o : Z) d : inv None now w -> tasks w !! t = Some d ->
  wp (cancelRequestForOffset now t o) (fun _ w' => inv None now w' /\ exists d', tasks w' !! t = Some d' /\ loader d' = loader d) w.
Proof.
  intros H Ht. unfold cancelRequestForOffset. eapply wp_step; [unfold the_task; by rewrite Ht|].
  assert (wp (match requestByOffset d !! o with Some id => cancelRequest now t id | None => ret tt end)
    (fun _ w' => inv None now w' /\ exists d', tasks w' !! t = Some d' /\ loader d' = loader d) w) as Hc.
  { destruct (requestByOffset d !! o) as [id|] eqn:Ho; [|split; [done|by exists d]].
    apply (task_offsets _ _ _ (inv_task _ _ _ H _ _ Ht)) in Ho as (r & Hr & _).
    eapply wp_mono; [by apply (cancelRequest_ok now None w t d id r)|].
    intros [] w' (H' & _ & b & s & _ & _ & [E _ _]). split; [done|]. rewrite E, lookup_insert_eq. by eexists. }
  apply wp_bind. eapply wp_mono; [exact Hc|]. intros [] w' (H' & d' & Ht' & El). apply wp_modify. rewrite (alter_at _ t _ _ Ht').
  destruct (inv_task _ _ _ H' _ _ Ht') as [G1 G2 G3 G4 Gs (G5 & G6 & G7)]. split.
  - apply (inv_retask now None w' t d'); [done..|]. split; try done. simpl. by rewrite G6, delete_empty.
  - eexists. simpl. by rewrite lookup_insert_eq.
Qed.

Lemma create_ok w (t dc : Z) (is_web : bool) (reference : list Z) (l : L) : inv None now w -> tasks w !! t = None -> sound l ->
  wp (create t dc is_web reference l) (fun _ => inv None now) w.
Proof.
  intros H Ht Hso. apply wp_modify. set (d := mk_task _ _ _ _ _ _ _ _ _ _ _ _ _).
  assert (forall x i, carried x i (<[t := d]> (tasks w)) = carried x i (tasks w)) as E1.
  { intros x i. unfold carried. rewrite total_insert by done. simpl. unfold through at 1. rewrite total_empty. destruct (_ =? _); lia. }
  assert (forall x, carried_all x (<[t := d]> (tasks w)) = carried_all x (tasks w)) as E2.
  { intros x. unfold carried_all. rewrite total_insert by done. simpl. rewrite total_empty. destruct (_ =? _); lia. }
  split; simpl; try apply H.
  - intros x b Hb. eapply good_others; [by apply (inv_balance _ _ _ H)|intros; apply E1|apply E2].
  - intros x dx. rewrite lookup_insert. case_decide; [intros [= <-]|apply (inv_task _ _ _ H)].
    split; try done. intros o id. change (requestByOffset d) with (∅ : gmap Z Z). change (sentRequests d) with (∅ : gmap Z RequestData).
    split; [by rewrite lookup_empty|intros (r & Hr & _); by rewrite lookup_empty in Hr].
  - intros x dx id r. rewrite lookup_insert. case_decide; [|apply (inv_index _ _ _ H)]. intros [= <-]. change (sentRequests d) with (∅ : gmap Z RequestData). by rewrite lookup_empty.
  - intros x q Hq. destruct (inv_queue _ _ _ H x q Hq) as [Ho Hin]. split; [done|]. intros y Hy.
    destruct (Hin y Hy) as (dy & Hdy & Ey). exists dy. rewrite lookup_insert_ne; [done|congruence].
  - intros x dx. rewrite lookup_insert. case_decide; [by intros [= <-]|apply (inv_queued _ _ _ H)].
Qed.

Lemma forget_ok w (t : Z) d : inv None now w -> tasks w !! t = Some d -> sentRequests d = ∅ ->
  (forall dc, t ∉ (task <$> queue_of dc w)) -> inv None now (set_tasks (delete t (tasks w)) w).
Proof.
  intros H Ht Hs Hn.
  assert (forall x i, carried x i (delete t (tasks w)) = carried x i (tasks w)) as E1.
  { intros x i. unfold carried at 2. rewrite (total_delete _ _ t d Ht), Hs. unfold through at 1. rewrite total_empty.
    unfold carried. destruct (_ =? _); lia. }
  assert (forall x, carried_all x (delete t (tasks w)) = carried_all x (tasks w)) as E2.
  { intros x. unfold carried_all at 2. rewrite (total_delete _ _ t d Ht), Hs. rewrite total_empty.
    unfold carried_all. destruct (_ =? _); lia. }
  split; simpl; try apply H.
  - intros x b Hb. eapply good_others; [by apply (inv_balance _ _ _ H)|intros; apply E1|apply E2].
  - intros x dx [_ Hx]%lookup_delete_Some. by eapply (inv_task _ _ _ H).
  - intros x dx id r [_ Hx]%lookup_delete_Some. by eapply (inv_index _ _ _ H).
  - intros x q Hq. destruct (inv_queue _ _ _ H x q Hq) as [Ho Hin]. split; [done|]. intros y Hy.
    destruct (Hin y Hy) as (dy & Hdy & Ey). exists dy. rewrite lookup_delete_ne; [done|]. intros <-.
    apply (Hn x). unfold queue_of. by rewrite Hq.
  - intros x dx [_ Hx]%lookup_delete_Some. by apply (inv_queued _ _ _ H).
Qed.

Lemma destroy_ok w (t : Z) d : inv None now w -> tasks w !! t = Some d -> wp (destroy now t) (fun _ => inv None now) w.
Proof.
  intros H Ht. unfold destroy. apply wp_bind. eapply wp_mono; [by apply (cancelAllRequests_ok now None w t d)|].
  intros [] w1 (H1 & _ & Et1). apply wp_bind.
  eapply wp_mono; [apply (removeTask_ok w1 t (set_sent ∅ ∅ d) H1); [by rewrite Et1, lookup_insert_eq|done]|].
  intros [] w2 (H2 & Ht2 & Hn & _). apply wp_modify. by eapply forget_ok.
Qed.

Lemma reload_ok w (t : Z) d (l : L) : inv None now w -> tasks w !! t = Some d ->
  sound l -> (forall o, wants l o -> requestByOffset d !! o = None) -> (sentRequests d <> ∅ -> alive l) ->
  wp (change_task t (set_loader l)) (fun _ => inv None now) w.
Proof.
  intros H Ht Hso Hw Ha. apply wp_modify. rewrite (alter_at _ t _ _ Ht). apply (inv_retask now None w t d); [done..|].
  apply good_reload; [|done..]. by eapply (inv_task _ _ _ H).
Qed.

Lemma inv_later (e : option (Z * nat)) (later : Z) w : inv e now w -> now <= later -> inv e later w.
Proof.
  intros H Hl. split; try apply H. intros t d Ht. destruct (inv_task _ _ _ H t d Ht) as [G1 G2 G3 G4 G5 G6]. split; try done.
  intros id r Hr. destruct (G2 id r Hr). lia.
Qed.

End System.

(** ** Steps *)

(** What is done to the manager from outside. A task may also change by itself
    ([Change]: its size grows, more is asked of it). *)
Inductive operation (L : Type) :=
  | Enqueue (t priority : Z) | Leave (t : Z) | ResetGeneration
  | TimedOut (dc : Z) (index : nat) | Restarted (shiftedDcId : Z) | KillSessions
  | PartLoaded (t : Z) (bytes : list Z) (requestId : Z) | WebPartLoaded (t size : Z) (bytes : list Z) (requestId : Z)
  | PartFailed (t : Z) (reference : list Z) (error : Error) (requestId : Z) | WebPartFailed (t : Z) (error : Error) (requestId : Z)
  | Refreshed (t requestId : Z) (updated current : list Z)
  | CancelOffset (t o : Z) | CancelRequests (t : Z)
  | Create (t dc : Z) (is_web : bool) (reference : list Z) (l : L) | Destroy (t : Z) | Change (t : Z) (l : L).
Arguments Enqueue {L}.
Arguments Leave {L}.
Arguments ResetGeneration {L}.
Arguments TimedOut {L}.
Arguments Restarted {L}.
Arguments KillSessions {L}.
Arguments PartLoaded {L}.
Arguments WebPartLoaded {L}.
Arguments PartFailed {L}.
Arguments WebPartFailed {L}.
Arguments Refreshed {L}.
Arguments CancelOffset {L}.
Arguments CancelRequests {L}.
Arguments Create {L}.
Arguments Destroy {L}.
Arguments Change {L}.

Section Steps.
Context {L : Type} `{!Loader L, !LoaderLaws L}.
Implicit Types (w : manager L) (d : Task L) (b : DcBalanceData) (s : DcSessionBalanceData) (op : operation L).

Definition run (now : Z) op : M (manager L) unit :=
  match op with
  | Enqueue t p => enqueueTask now t p
  | Leave t => removeTask now t
  | ResetGeneration => resetGenerations
  | TimedOut dc i => sessionTimedOut now dc i
  | Restarted dc => restartedByTimeout now dc
  | KillSessions => killSessions now
  | PartLoaded t bytes id => normalPartLoaded now t (File bytes) id
  | WebPartLoaded t size bytes id => webPartLoaded now t size bytes id
  | PartFailed t reference error id => normalPartFailed now t reference error id ;;; ret tt
  | WebPartFailed t error id => partFailed now t error id ;;; ret tt
  | Refreshed t id updated current => refreshFileReferenceFrom now t id updated current
  | CancelOffset t o => cancelRequestForOffset now t o
  | CancelRequests t => cancelAllRequests now t
  | Create t dc is_web reference l => create t dc is_web reference l
  | Destroy t => destroy now t
  | Change t l => change_task t (set_loader l)
  end.

Definition under_way w (t id : Z) : Prop := exists d r, tasks w !! t = Some d /\ sentRequests d !! id = Some r.

(** When it may be done: answers are to requests under way, a task leaves its
    queue with none, and does not ask for what was requested already. *)
Definition allowed op w : Prop :=
  match op with
  | Enqueue t p => is_Some (tasks w !! t) /\ -1 <= p
  | Leave t => exists d, tasks w !! t = Some d /\ sentRequests d = ∅
  | PartLoaded t _ id | WebPartLoaded t _ _ id => under_way w t id
  | PartFailed t _ _ _ | WebPartFailed t _ _ | Refreshed t _ _ _ | CancelOffset t _ | CancelRequests t | Destroy t => is_Some (tasks w !! t)
  | Create t _ _ _ l => tasks w !! t = None /\ sound l
  | Change t l => exists d, tasks w !! t = Some d /\ sound l /\ (forall o, wants l o -> requestByOffset d !! o = None)
      /\ (sentRequests d <> ∅ -> alive l)
  | ResetGeneration | TimedOut _ _ | Restarted _ | KillSessions => True
  end.

(** The data center whose queue is looked through at the end. *)
Definition sends_of op w : option Z :=
  match op with
  | Enqueue t _ | Leave t | PartLoaded t _ _ | WebPartLoaded t _ _ _ => dcId <$> tasks w !! t
  | _ => None
  end.

Definition manager_new (last : Z) : manager L := mk_manager ∅ ∅ ∅ ∅ None false last [] [].

Inductive reached : Z -> manager L -> Prop :=
  | reached_new now last : 0 <= last -> reached now (manager_new last)
  | reached_later now later w : reached now w -> now <= later -> reached later w
  | reached_step now later op w w' : reached now w -> now <= later -> allowed op w -> run later op w = Some (tt, w') -> reached later w'.

Lemma new_inv (now last : Z) : 0 <= last -> inv None now (manager_new last).
Proof.
  intros Hl. unfold manager_new.
  split; cbn [tasks queues balanceData killSessionsWhen lastRequestId]; try done; intros *; rewrite ?lookup_empty; try done.
Qed.

Lemma run_ok (now : Z) op w : inv None now w -> allowed op w ->
  wp (run now op) (fun _ w' => inv None now w' /\ forall dc, sends_of op w = Some dc -> stopped dc w') w.
Proof.
  intros H Ha. destruct op; simpl in Ha |- *.
  - destruct Ha as [[d Hd] Hp]. rewrite Hd. eapply wp_mono; [by apply enqueueTask_ok|]. intros [] w' (? & ? & _). split; [done|]. by intros dc [= <-].
  - destruct Ha as (d & Hd & Hs). rewrite Hd. eapply wp_mono; [by apply removeTask_ok|]. intros [] w' (? & _ & _ & ?). split; [done|]. by intros dc [= <-].
  - eapply wp_mono; [by apply resetGenerations_ok|]. by intros [] w'.
  - eapply wp_mono; [by apply sessionTimedOut_ok|]. by intros [] w' [].
  - unfold restartedByTimeout. case_match; [|done]. eapply wp_mono; [by apply sessionTimedOut_ok|]. by intros [] w' [].
  - eapply wp_mono; [by apply killSessions_ok|]. by intros [] w' [].
  - destruct Ha as (d & r & Hd & Hr). rewrite Hd. eapply wp_mono; [by eapply normalPartLoaded_ok|]. intros [] w' []. split; [done|]. by intros dc [= <-].
  - destruct Ha as (d & r & Hd & Hr). rewrite Hd. eapply wp_mono; [by eapply webPartLoaded_ok|]. intros [] w' []. split; [done|]. by intros dc [= <-].
  - destruct Ha as [d Hd]. apply wp_bind. eapply wp_mono; [by eapply normalPartFailed_ok|]. by intros a w'.
  - destruct Ha as [d Hd]. apply wp_bind. eapply wp_mono; [by eapply partFailed_ok|]. by intros a w'.
  - destruct Ha as [d Hd]. eapply wp_mono; [by eapply refresh_ok|]. by intros [] w'.
  - destruct Ha as [d Hd]. eapply wp_mono; [by eapply cancelRequestForOffset_ok|]. by intros [] w' [].
  - destruct Ha as [d Hd]. eapply wp_mono; [by eapply (cancelAllRequests_ok now None)|]. by intros [] w' [].
  - destruct Ha as [Hn Hso]. eapply wp_mono; [by apply create_ok|]. by intros [] w'.
  - destruct Ha as [d Hd]. eapply wp_mono; [by eapply destroy_ok|]. by intros [] w'.
  - destruct Ha as (d & Hd & Hso & Hw & Hal). eapply wp_mono; [by eapply reload_ok|]. by intros [] w'.
Qed.

Lemma reached_inv (now : Z) w : reached now w -> inv None now w.
Proof.
  induction 1 as [now last Hl|now later w _ IH Hle|now later op w w' _ IH Hle Ha Hr]; [by apply new_inv|by eapply inv_later|].
  pose proof (run_ok later op w (inv_later now None later w IH Hle) Ha) as Hok. unfold wp in Hok. rewrite Hr in Hok. apply Hok.
Qed.

(** ** Theorems *)

(** The account: what a session is said to carry is what is under way through
    it, and the sessions of a data center together carry no more than a fixed
    amount. *)
Definition accounted w : Prop := forall dc b, balanceData w !! dc = Some b ->
  (1 <= length (sessions b) <= kMaxSessionsCount)%nat /\ load dc w <= kMaxWaitedInSession * Z.of_nat kMaxSessionsCount
  /\ totalRequested b = kDownloadPartSize * carried_all dc (tasks w)
  /\ forall i s, sessions b !! i = Some s -> requested s = kDownloadPartSize * carried dc i (tasks w).

Lemma inv_accounted (now : Z) w : inv None now w -> accounted w.
Proof.
  intros H dc b Hb. destruct (inv_balance _ _ _ H dc b Hb) as [H1 _ H3 H4 _ _]. split_and!; [apply H1|apply H1|by apply (load_le now w dc)|done|].
  intros i s Hs. rewrite (H3 i s Hs). unfold extra. rewrite bool_decide_eq_false_2 by done. lia.
Qed.

(** C13. No operation fails: none of the assertions on what sessions carry is
    violated, whatever answers, errors and time outs come in whatever order. *)
Theorem downloads_never_fail (now later : Z) w op : reached now w -> now <= later -> allowed op w ->
  exists w', run later op w = Some (tt, w') /\ reached later w' /\ accounted w'.
Proof.
  intros Hr Hl Ha. pose proof (run_ok later op w (inv_later now None later w (reached_inv _ _ Hr) Hl) Ha) as Hok. unfold wp in Hok.
  destruct (run later op w) as [[[] w']|] eqn:E; [|done]. exists w'. split; [done|]. split; [by eapply reached_step|].
  by eapply inv_accounted, Hok.
Qed.

(** A task that could send a part is left waiting only when all sessions are
    full, or when something is under way in the data center, of whatever task,
    and the first of the queue has a positive priority above its own, whether
    or not that one has anything to send. *)
Definition yields dc w : Prop := exists b, balanceData w !! dc = Some b /\ (Forall full (sessions b) \/
  forall x, x ∈ queue_of dc w -> ready_in (tasks w) (task x) = true ->
    0 < totalRequested b /\ exists top, head (queue_of dc w) = Some top /\ priority x < priority top /\ 0 < priority top).

Lemma nextTask_none (ready : Z -> bool) (only : bool) (q : list Enqueued) (x : Enqueued) : in_order q ->
  nextTask ready only q = None -> x ∈ q -> ready (task x) = true ->
  only = true /\ exists top, head q = Some top /\ priority x < priority top /\ 0 < priority top.
Proof.
  intros [Hs _ _] Hn Hx Hr. destruct q as [|top q']; [by apply not_elem_of_nil in Hx|]. set (q := top :: q') in *.
  unfold nextTask in Hn. fold q in Hn. set (p := fun y => negb (priority y =? priority top)) in *.
  assert (forall n, task <$> head (filter (fun y => ready (task y) = true) (take n q)) = None -> x ∉ take n q) as Hout.
  { intros n E Hin. assert (x ∈ filter (fun y => ready (task y) = true) (take n q)) as Hf by by apply list_elem_of_filter.
    destruct (filter _ _); [by apply not_elem_of_nil in Hf|done]. }
  apply Hout in Hn. destruct (only && (0 <? priority top)) eqn:E; [|by rewrite take_ge in Hn]. bool_to_prop. subst only.
  split; [done|]. exists top. split; [done|]. split; [|done].
  rewrite <- (take_drop (position p q) q) in Hs, Hx. apply elem_of_app in Hx as [Hx|Hx]; [done|].
  destruct (position_split p q) as [Ha Hb]. apply StronglySorted_app_iff in Hs as (_ & Hd & Hc).
  destruct (drop (position p q) q) as [|y r] eqn:Ed; [by apply not_elem_of_nil in Hx|]. specialize (Hb y r eq_refl).
  unfold p in Hb. apply negb_true_iff, Z.eqb_neq in Hb.
  assert (top ∈ take (position p q) q) as Htop.
  { unfold q. simpl. unfold p at 1. rewrite Z.eqb_refl. simpl. left. }
  specialize (Hc top y Htop ltac:(by left)). inversion Hd as [|? ? _ Hy]; subst. rewrite Forall_forall in Hy.
  apply elem_of_cons in Hx as [->|Hx]; [lia|]. specialize (Hy x Hx). lia.
Qed.

Lemma stopped_yields (now : Z) (dc : Z) w : inv None now w -> stopped dc w -> yields dc w.
Proof.
  intros H (b & Hb & [Hf|Hn]); exists b; (split; [done|]); [by left|right]. intros x Hx Hr.
  assert (in_order (queue_of dc w)) as Ho.
  { unfold queue_of in *. destruct (queues w !! dc) as [q|] eqn:Eq; [|by apply not_elem_of_nil in Hx]. by apply (inv_queue _ _ _ H dc q Eq). }
  destruct (nextTask_none _ _ _ x Ho Hn Hx Hr) as [Ht Htop]. split; [by apply Z.ltb_lt|done].
Qed.

(** C27. Sending ends, and a task with a part to send is left waiting only when
    every session is full, or when something is under way in the data center
    and the first of the queue has a positive priority above its own. *)
Theorem downloads_keep_busy (now later dc : Z) w op : reached now w -> now <= later -> allowed op w -> sends_of op w = Some dc ->
  exists w', run later op w = Some (tt, w') /\ yields dc w'.
Proof.
  intros Hr Hl Ha Hs. pose proof (run_ok later op w (inv_later now None later w (reached_inv _ _ Hr) Hl) Ha) as Hok. unfold wp in Hok.
  destruct (run later op w) as [[[] w']|] eqn:E; [|done]. exists w'. split; [done|]. destruct Hok as [H' Hst]. eapply stopped_yields; eauto.
Qed.

(** C15. When a time out is one too many the last session goes, and every part that
    was requested is still requested, through the others. *)
Theorem removed_session_moves (now later dc : Z) (i n : nat) w : reached now w -> now <= later -> one_too_many dc i w = Some n ->
  exists w' b', run later (TimedOut dc i) w = Some (tt, w') /\ balanceData w' !! dc = Some b' /\ length (sessions b') = n
    /\ forall t d, tasks w !! t = Some d -> exists d', tasks w' !! t = Some d'
       /\ (forall o, is_Some (requestByOffset d' !! o) <-> is_Some (requestByOffset d !! o))
       /\ (dcId d = dc -> forall id r, sentRequests d' !! id = Some r -> (sessionIndex r < n)%nat).
Proof.
  intros Hr Hl Hn. pose proof (sessionTimedOut_ok later w dc i (inv_later now None later w (reached_inv _ _ Hr) Hl)) as Hok. unfold wp in Hok.
  simpl. destruct (sessionTimedOut later dc i w) as [[[] w']|]; [|done]. rewrite Hn in Hok. destruct Hok as [H' [L1 L2 L3 (b' & Hb' & Hc)]].
  exists w', b'. split_and!; [done|done|done|]. intros t d Ht. destruct (L2 t d Ht) as (d' & Hd' & Hor). exists d'. split; [done|].
  assert (dcId d' = dcId d) as Ed by (destruct Hor as [->|[_ He]]; [done|by rewrite (elsewhere_task _ _ _ He)]).
  split; [intros o; destruct Hor as [->|[_ He]]; [done|apply (elsewhere_offsets _ _ _ He)]|].
  intros <- id r Hr'. rewrite <- Hc. rewrite <- Ed in Hb'. by apply (session_index later None w' t d' id).
Qed.

(** A session that the instance restarts after a time out counts as timed out
    for the balance only if its index is one of the balance; but the index
    passed on is the shift of the data center id, which is beyond them all. *)
Theorem download_timeouts_ignored (now later dc shiftedDcId : Z) (i : nat) w : reached now w -> Dc.bare dc ->
  Dc.downloadDcId dc (Z.of_nat i) = Some shiftedDcId -> run later (Restarted shiftedDcId) w = Some (tt, w).
Proof.
  intros Hr Hdc Hi. simpl. unfold restartedByTimeout. unfold Dc.downloadDcId in Hi.
  destruct (Z.ltb_spec (Z.of_nat i) Dc.kMaxMediaDcCount) as [Hlt|]; [|done]. injection Hi as <-.
  case_match; [|done]. rewrite Dc.BareDcId_ShiftDcId, Dc.GetDcIdShift_ShiftDcId by (done || (unfold Dc.kBaseDownloadDcShift; lia)).
  unfold sessionTimedOut, gets, bind. destruct (balanceData w !! dc) as [b|] eqn:Hb; [|done].
  pose proof (balance_count _ _ _ _ (inv_balance _ _ _ (reached_inv _ _ Hr) _ _ Hb)) as [_ Hc].
  rewrite (proj2 (Nat.leb_le _ _)); [done|]. unfold kMaxSessionsCount, Dc.kBaseDownloadDcShift in *. lia.
Qed.

End Steps.
