(* ===== verification/FileLoader.v ===== *)
(** * Files being downloaded

    [storage/file_download.cpp] and [storage/file_download_mtproto.cpp]: a file
    is put together in memory or on the disk from the parts that come, in
    whatever order, and is finished when all have; it may start from what the
    cache has of it. The part a loader plays in [Download] is its instance of
    [Loader].

    Whether the disk opens and writes a file, and what bytes fill a hole, are
    parameters; [updates] and [stored] are logs of what is told and kept. Images
    are left out. [None] is a failed [Expects]. *)

From S2P Require Import Prelude Text DownloadQueue StateMonad Download.

Inductive LoadToCacheSetting := LoadToFileOnly | LoadToCacheAsWell.
Inductive LoadFromCloudSetting := LoadFromCloudOrLocal | LoadFromLocalOnly.
Inductive LocalStatus := NotTried | NotFound | Loading | Loaded.

Inductive update := Progress | Done | Failed (started : bool).
Inductive store := FileLocation (filename : list Z) | CachePut (bytes : list Z).

Definition kMaxFileInMemory : Z := 10 * 1024 * 1024.

Record FileLoader := mk_loader {
  autoLoading : bool; finished_ : bool; cancelled : bool; localStatus : LocalStatus;
  filename : list Z; file : list Z; fileIsOpen : bool; fileReadable : bool;
  toCache : LoadToCacheSetting; fromCloud : LoadFromCloudSetting;
  data : list Z; loadSize : Z; fullSize : Z; skippedBytes : Z; localLoading : bool;
  hasCacheKey : bool; hasLocationKey : bool;
  lastComplete : bool; nextRequestOffset : Z;
  updates : list update; stored : list store }.

Definition set_end (done cancel : bool) (l : FileLoader) : FileLoader :=
  mk_loader (autoLoading l) done cancel (localStatus l) (filename l) (file l) (fileIsOpen l) (fileReadable l) (toCache l) (fromCloud l)
    (data l) (loadSize l) (fullSize l) (skippedBytes l) (localLoading l) (hasCacheKey l) (hasLocationKey l) (lastComplete l)
    (nextRequestOffset l) (updates l) (stored l).
Definition set_local (s : LocalStatus) (loading : bool) (l : FileLoader) : FileLoader :=
  mk_loader (autoLoading l) (finished_ l) (cancelled l) s (filename l) (file l) (fileIsOpen l) (fileReadable l) (toCache l) (fromCloud l)
    (data l) (loadSize l) (fullSize l) (skippedBytes l) loading (hasCacheKey l) (hasLocationKey l) (lastComplete l)
    (nextRequestOffset l) (updates l) (stored l).
Definition set_file (content : list Z) (is_open readable : bool) (l : FileLoader) : FileLoader :=
  mk_loader (autoLoading l) (finished_ l) (cancelled l) (localStatus l) (filename l) content is_open readable (toCache l) (fromCloud l)
    (data l) (loadSize l) (fullSize l) (skippedBytes l) (localLoading l) (hasCacheKey l) (hasLocationKey l) (lastComplete l)
    (nextRequestOffset l) (updates l) (stored l).
Definition set_filename (name : list Z) (l : FileLoader) : FileLoader :=
  mk_loader (autoLoading l) (finished_ l) (cancelled l) (localStatus l) name (file l) (fileIsOpen l) (fileReadable l) (toCache l) (fromCloud l)
    (data l) (loadSize l) (fullSize l) (skippedBytes l) (localLoading l) (hasCacheKey l) (hasLocationKey l) (lastComplete l)
    (nextRequestOffset l) (updates l) (stored l).
Definition set_cloud (c : LoadFromCloudSetting) (l : FileLoader) : FileLoader :=
  mk_loader (autoLoading l) (finished_ l) (cancelled l) (localStatus l) (filename l) (file l) (fileIsOpen l) (fileReadable l) (toCache l) c
    (data l) (loadSize l) (fullSize l) (skippedBytes l) (localLoading l) (hasCacheKey l) (hasLocationKey l) (lastComplete l)
    (nextRequestOffset l) (updates l) (stored l).
Definition set_data (bytes : list Z) (skipped : Z) (l : FileLoader) : FileLoader :=
  mk_loader (autoLoading l) (finished_ l) (cancelled l) (localStatus l) (filename l) (file l) (fileIsOpen l) (fileReadable l) (toCache l) (fromCloud l)
    bytes (loadSize l) (fullSize l) skipped (localLoading l) (hasCacheKey l) (hasLocationKey l) (lastComplete l)
    (nextRequestOffset l) (updates l) (stored l).
Definition set_sizes (load full : Z) (auto : bool) (l : FileLoader) : FileLoader :=
  mk_loader auto (finished_ l) (cancelled l) (localStatus l) (filename l) (file l) (fileIsOpen l) (fileReadable l) (toCache l) (fromCloud l)
    (data l) load full (skippedBytes l) (localLoading l) (hasCacheKey l) (hasLocationKey l) (lastComplete l)
    (nextRequestOffset l) (updates l) (stored l).
Definition set_next (last : bool) (o : Z) (l : FileLoader) : FileLoader :=
  mk_loader (autoLoading l) (finished_ l) (cancelled l) (localStatus l) (filename l) (file l) (fileIsOpen l) (fileReadable l) (toCache l) (fromCloud l)
    (data l) (loadSize l) (fullSize l) (skippedBytes l) (localLoading l) (hasCacheKey l) (hasLocationKey l) last
    o (updates l) (stored l).
Definition fire (u : update) (l : FileLoader) : FileLoader :=
  mk_loader (autoLoading l) (finished_ l) (cancelled l) (localStatus l) (filename l) (file l) (fileIsOpen l) (fileReadable l) (toCache l) (fromCloud l)
    (data l) (loadSize l) (fullSize l) (skippedBytes l) (localLoading l) (hasCacheKey l) (hasLocationKey l) (lastComplete l)
    (nextRequestOffset l) (updates l ++ [u]) (stored l).
Definition keep (x : store) (l : FileLoader) : FileLoader :=
  mk_loader (autoLoading l) (finished_ l) (cancelled l) (localStatus l) (filename l) (file l) (fileIsOpen l) (fileReadable l) (toCache l) (fromCloud l)
    (data l) (loadSize l) (fullSize l) (skippedBytes l) (localLoading l) (hasCacheKey l) (hasLocationKey l) (lastComplete l)
    (nextRequestOffset l) (updates l) (stored l ++ [x]).

(** The constructor, with its [Expects]. *)
Definition FileLoader_new (toFile : list Z) (load full : Z) (cache : LoadToCacheSetting) (cloud : LoadFromCloudSetting)
    (auto keyed located : bool) : option FileLoader :=
  if (load <=? full) && (negb (bool_decide (toFile = [])) || (full <=? kMaxFileInMemory))
  then Some (mk_loader auto false false NotTried toFile [] false false cache cloud [] load full 0 false keyed located false 0 [] [])
  else None.

Section Loading.
Context (can_open : list Z -> bool) (can_write : Z -> list Z -> bool) (hole : Z).

Definition size (l : list Z) : Z := Z.of_nat (length l).

Definition currentOffset (l : FileLoader) : Z := (if fileIsOpen l then size (file l) else size (data l)) - skippedBytes l.

(** [currentProgress], as a fraction. *)
Definition currentProgress (l : FileLoader) : Z * Z :=
  if finished_ l then (1, 1) else if loadSize l =? 0 then (0, 1)
  else (Z.max 0 (Z.min (currentOffset l) (loadSize l)), loadSize l).

(** [cancel(fail)]: requests are cancelled, what there is is dropped. *)
Definition cancel (fail : bool) (l : FileLoader) : FileLoader * list effect :=
  let started := 0 <? currentOffset l in
  let l := set_end true true l in
  let l := if fileIsOpen l then set_file [] false false l else l in
  let l := set_data [] (skippedBytes l) l in
  let l := fire (if fail then Failed started else Done) l in
  (set_filename [] l, [CancelAll]).

(** [QByteArray::resize] to more. *)
Definition resize (n : Z) (bytes : list Z) : list Z := bytes ++ replicate (Z.to_nat n - length bytes) hole.

(** [seek] and [write]; [subspan] and [bytes::copy]. *)
Definition overwrite (o : Z) (buffer bytes : list Z) : list Z :=
  let bytes := resize o bytes in
  take (Z.to_nat o) bytes ++ buffer ++ drop (Z.to_nat o + length buffer) bytes.

Definition writeResultPart (o : Z) (buffer : list Z) (l : FileLoader) : option (FileLoader * list effect * bool) :=
  if finished_ l then None else
  if bool_decide (buffer = []) then Some (l, [], true) else
  if fileIsOpen l then
    let fsize := size (file l) in
    let skipped := if o <? fsize then skippedBytes l - size buffer
                   else if fsize <? o then skippedBytes l + (o - fsize) else skippedBytes l in
    let l := set_data (data l) skipped l in
    if can_write o buffer then Some (set_file (overwrite o buffer (file l)) true (fileReadable l) l, [], true)
    else let (l, effects) := cancel true l in Some (l, effects, false)
  else
    let skipped := if size (data l) <? o then skippedBytes l + (o - size (data l)) else skippedBytes l in
    let bytes := if size (data l) <? o then resize o (data l) else data l in
    if o =? size bytes then Some (set_data (bytes ++ buffer) skipped l, [], true)
    else
      let bytes := if size bytes <? o + size buffer then resize (o + size buffer) bytes else bytes in
      Some (set_data (overwrite o buffer bytes) (skipped - size buffer) l, [], true).

Definition prefix : list Z := codes "partial:".

(** Memory goes to the file, and what there is to the cache. *)
Definition finalizeResult (l : FileLoader) : option (FileLoader * list effect * bool) :=
  if finished_ l then None else
  let save := negb (bool_decide (filename l = [])) && match toCache l with LoadToCacheAsWell => true | LoadToFileOnly => false end in
  let opens := fileIsOpen l || can_open (filename l) in
  let l := if save && negb (fileIsOpen l) && opens then set_file [] true false l else l in
  if save && negb (opens && can_write 0 (data l)) then let (l, effects) := cancel true l in Some (l, effects, false) else
  let l := if save then set_file (overwrite 0 (data l) (file l)) true (fileReadable l) l else l in
  let l := set_end true (cancelled l) l in
  let l := if fileIsOpen l then set_file (file l) false false l else l in
  let l := match localStatus l with
    | NotFound =>
        let l := if hasLocationKey l && negb (bool_decide (filename l = [])) then keep (FileLocation (filename l)) l else l in
        if match toCache l with LoadToCacheAsWell => true | LoadToFileOnly => false end
          && (size (data l) <=? kMaxFileInMemory) && hasCacheKey l
        then keep (CachePut (if (fullSize l =? 0) || (size (data l) =? fullSize l) then data l else prefix ++ data l)) l
        else l
    | _ => l
    end in
  Some (fire Done l, [], true).

(** *** [mtpFileLoader] *)

Definition readyToRequest_ (have : bool) (l : FileLoader) : bool :=
  negb (finished_ l) && negb (lastComplete l) && (negb (fullSize l =? 0) || negb have)
  && ((fullSize l =? 0) || (nextRequestOffset l <? loadSize l)).

Definition takeNextRequestOffset_ (have : bool) (l : FileLoader) : option (Z * FileLoader) :=
  if readyToRequest_ have l
  then Some (nextRequestOffset l, set_next (lastComplete l) (nextRequestOffset l + kDownloadPartSize) l) else None.

Definition feedPart_ (have : bool) (o : Z) (bytes : list Z) (l : FileLoader) : option (FileLoader * list effect * bool) :=
  r <-? writeResultPart o bytes l ;
  let '(l, effects, ok) := r in
  if negb ok then Some (l, effects, false) else
  let l := if bool_decide (bytes = []) || negb (crem (size bytes) 1024 =? 0) then set_next true (nextRequestOffset l) l else l in
  let finished := negb have && (lastComplete l || (negb (fullSize l =? 0) && (loadSize l <=? nextRequestOffset l))) in
  if finished then r <-? finalizeResult l ; Some (r.1.1, effects ++ RemoveFromQueue :: r.1.2, r.2)
  else Some (fire Progress l, effects, true).

Definition setWebFileSizeHook_ (n : Z) (l : FileLoader) : FileLoader * list effect * bool :=
  if (fullSize l =? 0) || (fullSize l =? n) then (set_sizes n n (autoLoading l) l, [], true)
  else (cancel true l, false).

#[export] Instance file_loader : Loader FileLoader := {
  readyToRequest := readyToRequest_;
  takeNextRequestOffset := takeNextRequestOffset_;
  feedPart := feedPart_;
  setWebFileSizeHook := setWebFileSizeHook_;
  cancelOnFail := cancel true }.

(** *** Starting

    The result says also whether the task is to be put into the queue. *)

Definition checkForOpen (l : FileLoader) : FileLoader * list effect * bool :=
  if bool_decide (filename l = []) || negb (match toCache l with LoadToFileOnly => true | LoadToCacheAsWell => false end) || fileIsOpen l
  then (l, [], true)
  else if can_open (filename l) then (set_file [] true false l, [], true) else (cancel true l, false).

(** [tryLoadLocal] with [loadLocal]. *)
Definition tryLoadLocal (l : FileLoader) : FileLoader * bool :=
  match localStatus l with
  | NotFound | Loaded => (l, false)
  | Loading => (l, true)
  | NotTried =>
      let l := match toCache l with
        | LoadToCacheAsWell => if hasCacheKey l then fire Progress (set_local (localStatus l) true l) else l
        | LoadToFileOnly => l
        end in
      if localLoading l then (set_local Loading true l, true) else (set_local NotFound (localLoading l) l, false)
  end.

Definition start (l : FileLoader) : FileLoader * list effect * bool :=
  if finished_ l then (l, [], false) else
  let (l, local) := tryLoadLocal l in
  if local then (l, [], false) else
  match fromCloud l with
  | LoadFromLocalOnly => (cancel false l, false)
  | LoadFromCloudOrLocal => checkForOpen l
  end.

Definition finishWithBytes (bytes : list Z) (l : FileLoader) : FileLoader * list effect :=
  let l := set_local Loaded (localLoading l) (set_data bytes (skippedBytes l) l) in
  let save := negb (bool_decide (filename l = [])) && match toCache l with LoadToCacheAsWell => true | LoadToFileOnly => false end in
  let opens := fileIsOpen l || can_open (filename l) in
  let l := if save && negb (fileIsOpen l) && opens then set_file [] true false l else l in
  if save && negb (opens && can_write 0 (data l)) then cancel true l else
  let l := if save then set_file (overwrite 0 (data l) (file l)) true (fileReadable l) l else l in
  let l := set_end true (cancelled l) l in
  let l := if fileIsOpen l then set_file (file l) false false l else l in
  (fire Done l, []).

(** Whole parts of what the cache has are used. *)
Definition startLoadingWithPartial (have : bool) (bytes : list Z) (l : FileLoader) : option (FileLoader * list effect * bool) :=
  if negb (bool_decide (take 8 bytes = prefix)) then None else
  let use := (size bytes - 8) / kDownloadPartSize * kDownloadPartSize in
  if 0 <? use then
    r <-? feedPart_ have 0 (take (Z.to_nat use) (drop 8 bytes)) (set_next (lastComplete l) use l) ; Some (r.1, true)
  else Some (l, [], true).

Definition localLoaded (have : bool) (bytes : list Z) (l : FileLoader) : option (FileLoader * list effect * bool) :=
  let l := set_local (localStatus l) false l in
  if bool_decide (bytes = []) then Some (start (set_local NotFound false l)) else
  let partial := bool_decide (take 8 bytes = prefix) in
  if partial && (size bytes <? loadSize l + 8) then
    let '(l, effects, opened) := checkForOpen (set_local NotFound false l) in
    if opened then startLoadingWithPartial have bytes l else Some (l, effects, false)
  else Some (finishWithBytes (if partial then drop 8 bytes else bytes) l, false).

(** *** Settings *)

Definition setFileName (name : list Z) (l : FileLoader) : FileLoader * bool :=
  if negb (match toCache l with LoadToCacheAsWell => true | LoadToFileOnly => false end) || negb (bool_decide (filename l = []))
  then (l, bool_decide (name = []) || bool_decide (name = filename l)) else (set_filename name l, true).

Definition permitLoadFromCloud (l : FileLoader) : FileLoader := set_cloud LoadFromCloudOrLocal l.

Definition increaseLoadSize (n : Z) (auto : bool) (l : FileLoader) : option FileLoader :=
  if (loadSize l <? n) && (n <=? fullSize l) then Some (set_sizes n (fullSize l) auto l) else None.

(** An open file is opened again for reading. *)
Definition readLoadedPartBack (o n : Z) (l : FileLoader) : option (FileLoader * list effect * list Z) :=
  if negb ((0 <=? o) && (0 <? n)) then None else
  if fileIsOpen l then
    if negb (fileReadable l) && negb (can_open (filename l)) then
      let (l, effects) := cancel true (set_file (file l) false false l) in Some (l, effects, [])
    else
      let l := set_file (file l) true true l in
      let result := take (Z.to_nat n) (drop (Z.to_nat o) (file l)) in
      Some (l, [], if size result =? n then result else [])
  else Some (l, [], if o + n <=? size (data l) then take (Z.to_nat n) (drop (Z.to_nat o) (data l)) else []).

(** ** As a task of the manager *)

Section Tasks.
Context {L : Type} `{!Loader L} (now : Z) (of_task : L -> option FileLoader) (to_task : FileLoader -> L).

Definition the_loader (t : Z) : M (manager L) (FileLoader * bool) :=
  d <- the_task t ;; l <- lift (of_task (Download.loader d)) ;; ret (l, haveSentRequests d).

(** What was changed is put down, then the task goes into the queue. *)
Definition startTask (t : Z) : M (manager L) unit :=
  l <- the_loader t ;;
  let r := start l.1 in
  each (applyEffect now t) r.1.2 ;;;
  change_task t (set_loader (to_task r.1.1)) ;;;
  if r.2 then enqueueTask now t 0 else ret tt.

Definition localLoadedTask (t : Z) (bytes : list Z) : M (manager L) unit :=
  l <- the_loader t ;;
  r <- lift (localLoaded l.2 bytes l.1) ;;
  each (applyEffect now t) r.1.2 ;;;
  change_task t (set_loader (to_task r.1.1)) ;;;
  if r.2 : bool then enqueueTask now t 0 else ret tt.

(** The destructor of [mtpFileLoader]. *)
Definition destroyTask (t : Z) : M (manager L) unit :=
  l <- the_loader t ;;
  (if finished_ l.1 then ret tt else
     let r := cancel false l.1 in
     each (applyEffect now t) r.2 ;;; change_task t (set_loader (to_task r.1))) ;;;
  destroy now t.
End Tasks.
End Loading.
