(* ===== verification/FileFacts.v ===== *)
(** * Files put together

    What [FileLoader] makes of the parts it is given: the file, whatever the
    order they come in, and as a task it keeps the laws of [DownloadFacts]. *)

From S2P Require Import Prelude Text DownloadQueue StateMonad Download DownloadFacts FileLoader.

#[local] Opaque kDownloadPartSize.

Lemma part_size_pos : 0 < kDownloadPartSize.
Proof. by vm_compute. Qed.

Lemma part_size_kilobytes : (1024 | kDownloadPartSize).
Proof. by exists 128. Qed.

Lemma multiples (x y : Z) : (kDownloadPartSize | x) -> (kDownloadPartSize | y) -> x < y -> x + kDownloadPartSize <= y.
Proof. intros [a ->] [c ->] Hlt. pose proof part_size_pos. assert (a + 1 <= c) by nia. nia. Qed.

Section Facts.
Context (can_open : list Z -> bool) (can_write : Z -> list Z -> bool) (hole : Z).

#[local] Abbreviation overwrite := (overwrite hole).
#[local] Abbreviation resize := (resize hole).
#[local] Existing Instance file_loader.

(** ** As a task *)

Lemma write_ends (o : Z) (buffer : list Z) (l : FileLoader) : finished_ l = false -> exists l' effects ok,
  writeResultPart can_write hole o buffer l = Some (l', effects, ok) /\ nextRequestOffset l' = nextRequestOffset l
  /\ finished_ l' = negb ok /\ effects = if ok then [] else [CancelAll].
Proof.
  intros Hf. unfold writeResultPart, cancel. rewrite Hf. cbv zeta.
  repeat match goal with |- context [if ?b then _ else _] => destruct b end; eexists _, _, _; (split; [reflexivity|by simpl; rewrite ?Hf]).
Qed.

Lemma finalize_ends (l : FileLoader) : finished_ l = false -> exists l' effects ok,
  finalizeResult can_open can_write hole l = Some (l', effects, ok) /\ nextRequestOffset l' = nextRequestOffset l
  /\ finished_ l' = true /\ effects = if ok then [] else [CancelAll].
Proof.
  destruct l as [? fin ? status]. cbn [finished_]. intros ->. unfold finalizeResult, cancel. cbn.
  repeat match goal with |- context [if ?b then _ else _] => destruct b; cbn end; destruct status; cbn;
    repeat match goal with |- context [if ?b then _ else _] => destruct b; cbn end; eexists _, _, _; (split; [reflexivity|done]).
Qed.

Lemma cancel_ends (fail : bool) (l : FileLoader) : nextRequestOffset (cancel fail l).1 = nextRequestOffset l
  /\ finished_ (cancel fail l).1 = true /\ cancelled (cancel fail l).1 = true.
Proof. unfold cancel. cbn. by destruct (fileIsOpen l). Qed.

#[export] Instance file_loader_laws : @LoaderLaws FileLoader (file_loader can_open can_write hole).
Proof.
  refine (Build_LoaderLaws _ _ (fun _ => True) (fun l o => nextRequestOffset l <= o) (fun l => finished_ l = false) _ _ _ _); simpl.
  - intros have l _ Hr. unfold takeNextRequestOffset_. rewrite Hr. unfold readyToRequest_ in Hr. bool_to_prop.
    split; [done|]. eexists _, _. pose proof part_size_pos. split_and!; [done|done|simpl; lia|done|]. simpl. intros x Hx. lia.
  - intros have o bytes l _ Ha. unfold feedPart_. destruct (write_ends o bytes l Ha) as (l1 & e1 & ok1 & -> & En & Ef & Ee). subst e1.
    destruct ok1; cbn [negb] in *.
    + match goal with |- context [if bool_decide (bytes = []) || ?b then ?x else l1] =>
        set (l2 := if bool_decide (bytes = []) || b then x else l1) end.
      assert (nextRequestOffset l2 = nextRequestOffset l /\ finished_ l2 = false) as [En2 Ef2] by (unfold l2; case_match; by rewrite <- En).
      destruct (negb have && _) eqn:Efin.
      * destruct (finalize_ends l2 Ef2) as (l3 & e3 & ok3 & -> & En3 & Ef3 & ->). eexists _, _, _. split; [done|]. simpl. split; [done|].
        split; [intros x; by rewrite En3, En2|]. bool_to_prop. subst have. split; [done|by right; left].
      * eexists _, _, _. split; [done|]. simpl. split; [done|]. split; [intros x; by rewrite En2|].
        split; [by intros ?%not_elem_of_nil|by left].
    + eexists _, _, _. split; [done|]. split; [done|]. split; [intros x; by rewrite En|]. split; [by intros ?%list_elem_of_singleton|right; right; by left].
  - intros n l _ Ha. split; [done|]. unfold setWebFileSizeHook_. destruct (_ || _); cbn [fst snd]; [by split_and!; [|intros ?%not_elem_of_nil| |]|].
    destruct (cancel_ends true l) as (-> & _ & _). split; [done|]. split; [by intros ?%list_elem_of_singleton|right; by left].
  - intros l _. split; [done|]. split; [by destruct (fileIsOpen l)|]. split; [by intros ?%list_elem_of_singleton|]. intros _. right. by left.
Defined.

(** ** Bytes written *)

Lemma overwrite_length (o : Z) (buffer bytes : list Z) : 0 <= o ->
  length (overwrite o buffer bytes) = Nat.max (length bytes) (Z.to_nat o + length buffer).
Proof.
  intros Ho. unfold FileLoader.overwrite, FileLoader.resize. rewrite !length_app, length_take, length_drop, length_app, length_replicate. lia.
Qed.

Lemma overwrite_in (o : Z) (buffer bytes : list Z) (k : nat) : 0 <= o -> (Z.to_nat o <= k < Z.to_nat o + length buffer)%nat ->
  overwrite o buffer bytes !! k = buffer !! (k - Z.to_nat o)%nat.
Proof.
  intros Ho Hk. unfold FileLoader.overwrite. set (r := resize o bytes).
  assert (Z.to_nat o <= length r)%nat as Hr by (unfold r, FileLoader.resize; rewrite length_app, length_replicate; lia).
  rewrite lookup_app_r by (rewrite length_take; lia). rewrite length_take, Nat.min_l by done. apply lookup_app_l. lia.
Qed.

Lemma overwrite_out (o : Z) (buffer bytes : list Z) (k : nat) : 0 <= o -> (k < length bytes)%nat ->
  (k < Z.to_nat o \/ Z.to_nat o + length buffer <= k)%nat -> overwrite o buffer bytes !! k = bytes !! k.
Proof.
  intros Ho Hk Hout. unfold FileLoader.overwrite. set (r := resize o bytes).
  assert (Z.to_nat o <= length r)%nat as Hr by (unfold r, FileLoader.resize; rewrite length_app, length_replicate; lia).
  assert (r !! k = bytes !! k) as Ek by (unfold r, FileLoader.resize; by apply lookup_app_l).
  destruct (decide (k < Z.to_nat o)%nat).
  - rewrite lookup_app_l by (rewrite length_take; lia). by rewrite lookup_take_lt.
  - rewrite lookup_app_r by (rewrite length_take; lia). rewrite length_take, Nat.min_l by done.
    rewrite lookup_app_r by lia. rewrite lookup_drop. rewrite <- Ek. f_equal. lia.
Qed.

(** What there is of the file. *)
Definition body (l : FileLoader) : list Z := if fileIsOpen l then file l else data l.

Definition set_body (bytes : list Z) (skipped : Z) (l : FileLoader) : FileLoader :=
  if fileIsOpen l then set_file bytes true (fileReadable l) (set_data (data l) skipped l) else set_data bytes skipped l.

(** A part is written at its place and counted, unless the disk refuses. *)
Lemma write_part (o : Z) (buffer : list Z) (l : FileLoader) : finished_ l = false -> buffer <> [] -> 0 <= o ->
  (o < size (body l) -> o + size buffer <= size (body l)) -> exists skipped,
  size (overwrite o buffer (body l)) - skipped = currentOffset l + size buffer
  /\ writeResultPart can_write hole o buffer l =
     if fileIsOpen l && negb (can_write o buffer) then Some ((cancel true (set_data (data l) skipped l)), false)
     else Some (set_body (overwrite o buffer (body l)) skipped l, [], true).
Proof.
  intros Hf Hb Ho Hin. unfold writeResultPart, set_body, body, currentOffset in *. rewrite Hf, bool_decide_eq_false_2 by done.
  pose proof (overwrite_length o buffer (if fileIsOpen l then file l else data l) Ho) as El. unfold size in *.
  destruct (fileIsOpen l) eqn:Eo; cbn [andb] in *.
  - eexists. split; [|destruct (can_write o buffer); reflexivity].
    destruct (Z.ltb_spec o (Z.of_nat (length (file l)))); [specialize (Hin ltac:(lia)); lia|].
    destruct (Z.ltb_spec (Z.of_nat (length (file l))) o); lia.
  - assert (resize o (data l) = data l ++ replicate (Z.to_nat o - length (data l)) hole) as Er by done.
    destruct (Z.ltb_spec (Z.of_nat (length (data l))) o) as [Hlt|Hge].
    + exists (skippedBytes l + (o - Z.of_nat (length (data l)))). split; [lia|].
      rewrite (proj2 (Z.eqb_eq _ _)) by (rewrite Er, length_app, length_replicate; lia). do 3 f_equal. unfold FileLoader.overwrite.
      rewrite take_ge, drop_ge, app_nil_r by (rewrite Er, length_app, length_replicate; lia). done.
    + assert (resize o (data l) = data l) as Er' by (rewrite Er; replace (Z.to_nat o - length (data l))%nat with O by lia; apply app_nil_r).
      destruct (Z.eqb_spec o (Z.of_nat (length (data l)))) as [E|Hne].
      * exists (skippedBytes l). split; [lia|]. do 3 f_equal. unfold FileLoader.overwrite. rewrite Er'.
        rewrite take_ge, drop_ge, app_nil_r by lia. done.
      * exists (skippedBytes l - Z.of_nat (length buffer)). specialize (Hin ltac:(lia)). split; [lia|].
        rewrite (proj2 (Z.ltb_ge _ _)) by lia. done.
Qed.

(** ** A file on its way *)

Context (C : list Z).

(** What the server answers for an offset. *)
Definition part (o : Z) : list Z := take (Z.to_nat kDownloadPartSize) (drop (Z.to_nat o) C).

Definition some_under_way (u : list Z) : bool := negb (bool_decide (u = [])).

(** Before anything was asked: with the size known, and all or some of it to be
    loaded, or unknown. *)
Record fresh (l : FileLoader) : Prop := {
  fresh_end : finished_ l = false;
  fresh_last : lastComplete l = false;
  fresh_next : nextRequestOffset l = 0;
  fresh_skipped : skippedBytes l = 0;
  fresh_body : body l = [];
  fresh_mode : fileIsOpen l = true -> toCache l = LoadToFileOnly;
  fresh_size : fullSize l = 0 \/ fullSize l = size C /\ 0 < loadSize l <= size C }.

(** [under_way] and [received] offsets, while the file is not finished. *)
Inductive coming : FileLoader -> list Z -> list Z -> Prop :=
  | coming_new l : fresh l -> coming l [] []
  | coming_partial l l' k effects : fresh l -> fileIsOpen l = false -> (k <= length C)%nat -> size (prefix ++ take k C) < loadSize l + 8 ->
      startLoadingWithPartial can_open can_write hole false (prefix ++ take k C) l = Some (l', effects, true) ->
      coming l' [] ((fun i => Z.of_nat i * kDownloadPartSize) <$> seq 0 (Z.to_nat (nextRequestOffset l' / kDownloadPartSize)))
  | coming_ask l u R o l' : coming l u R -> takeNextRequestOffset_ (some_under_way u) l = Some (o, l') -> coming l' (o :: u) R
  | coming_part l u1 o u2 R l' effects ok : coming l (u1 ++ o :: u2) R ->
      feedPart_ can_open can_write hole (some_under_way (u1 ++ u2)) o (part o) l = Some (l', effects, ok) -> finished_ l' = false ->
      coming l' (u1 ++ u2) (o :: R)
  | coming_sized l u R l' : coming l u R -> u <> [] -> setWebFileSizeHook_ (size C) l = (l', [], true) -> coming l' u R
  | coming_more l u R n auto l' : coming l u R -> increaseLoadSize n auto l = Some l' -> coming l' u R.

(** What is so on the way. *)
Record so_far (l : FileLoader) (u R : list Z) : Prop := {
  so_end : finished_ l = false;
  so_size : fullSize l = 0 \/ fullSize l = size C /\ loadSize l <= size C;
  so_next : 0 <= nextRequestOffset l /\ (kDownloadPartSize | nextRequestOffset l);
  so_offsets : NoDup (u ++ R);
  so_asked : forall o, o ∈ u ++ R <-> (kDownloadPartSize | o) /\ 0 <= o < nextRequestOffset l;
  so_bytes : forall o k, o ∈ R -> o <= Z.of_nat k < o + kDownloadPartSize -> (k < length C)%nat -> body l !! k = C !! k;
  so_reach : forall o, o ∈ R -> o < size C -> Z.min (o + kDownloadPartSize) (size C) <= size (body l);
  so_most : body l = [] \/ exists o, o ∈ R /\ o < size C /\ size (body l) = Z.min (o + kDownloadPartSize) (size C);
  so_count : currentOffset l = sum ((fun o => size (part o)) <$> R);
  so_last : lastComplete l = true -> size C < nextRequestOffset l;
  so_mode : fileIsOpen l = true -> toCache l = LoadToFileOnly }.

(** Not stuck: with nothing under way more can be asked. *)
Definition goes_on (l : FileLoader) : Prop := lastComplete l = false /\ (fullSize l = 0 \/ nextRequestOffset l < loadSize l).

Lemma part_size (o : Z) : 0 <= o -> size (part o) = Z.max 0 (Z.min (o + kDownloadPartSize) (size C) - o).
Proof. intros Ho. pose proof part_size_pos. unfold part, size. rewrite length_take, length_drop. lia. Qed.

Lemma part_lookup (o : Z) (k : nat) : 0 <= o -> o <= Z.of_nat k < o + kDownloadPartSize -> part o !! (k - Z.to_nat o)%nat = C !! k.
Proof.
  intros Ho Hk. unfold part. rewrite lookup_take_lt by lia. rewrite lookup_drop. f_equal. lia.
Qed.

Lemma part_nil (o : Z) : 0 <= o -> part o = [] <-> size C <= o.
Proof.
  intros Ho. pose proof (part_size o Ho). pose proof part_size_pos. unfold size in *. split.
  - intros E. rewrite E in H. simpl in H. lia.
  - intros Hc. apply nil_length_inv. lia.
Qed.

(** A part whose size is no whole number of kilobytes is the last. *)
Lemma part_odd (o : Z) : 0 <= o -> bool_decide (part o = []) || negb (crem (size (part o)) 1024 =? 0) = true -> size C < o + kDownloadPartSize.
Proof.
  intros Ho Hodd. pose proof part_size_pos. apply orb_true_iff in Hodd as [E%bool_decide_eq_true|E%negb_true_iff%Z.eqb_neq].
  - apply part_nil in E; lia.
  - destruct (Z.lt_ge_cases (size C) (o + kDownloadPartSize)) as [|Hge]; [done|]. exfalso. apply E.
    rewrite part_size by done. replace (Z.max 0 _) with kDownloadPartSize by lia.
    destruct part_size_kilobytes as [c Hc]. unfold crem. rewrite Hc. apply Z.rem_mul. lia.
Qed.

(** One part more: what is so before it is written is so after. *)
Lemma body_written (l : FileLoader) (u1 u2 R : list Z) (o skipped : Z) : so_far l (u1 ++ o :: u2) R -> part o <> [] ->
  size (overwrite o (part o) (body l)) - skipped = currentOffset l + size (part o) ->
  so_far (set_body (overwrite o (part o) (body l)) skipped l) (u1 ++ u2) (o :: R).
Proof.
  intros [H1 H2 H3 H4 H5 H6 H7 H8 H9 H10 H11] Hne Hcount. pose proof part_size_pos as HP.
  assert (u1 ++ u2 ++ o :: R ≡ₚ (u1 ++ o :: u2) ++ R) as Hperm by solve_Permutation.
  assert ((kDownloadPartSize | o) /\ 0 <= o < nextRequestOffset l) as [[c Hc] Ho].
  { apply H5. rewrite !elem_of_app, elem_of_cons. auto. }
  assert (o < size C) as Hlt by (destruct (Z.lt_ge_cases o (size C)) as [|Hge]; [done|]; exfalso; apply Hne, part_nil; lia).
  set (new := overwrite o (part o) (body l)) in *.
  assert (body (set_body new skipped l) = new) as Eb by (unfold body, set_body; by destruct (fileIsOpen l) eqn:E; simpl; rewrite ?E).
  assert (size new = Z.max (size (body l)) (Z.min (o + kDownloadPartSize) (size C))) as Hn.
  { unfold new, size. rewrite overwrite_length by lia. pose proof (part_size o ltac:(lia)). unfold size in *. lia. }
  assert (finished_ (set_body new skipped l) = finished_ l /\ fullSize (set_body new skipped l) = fullSize l
    /\ loadSize (set_body new skipped l) = loadSize l /\ nextRequestOffset (set_body new skipped l) = nextRequestOffset l
    /\ lastComplete (set_body new skipped l) = lastComplete l
    /\ currentOffset (set_body new skipped l) = size new - skipped /\ fileIsOpen (set_body new skipped l) = fileIsOpen l
    /\ toCache (set_body new skipped l) = toCache l) as (F1 & F2 & F3 & F4 & F5 & F6 & F7 & F8).
  { unfold set_body, currentOffset. destruct (fileIsOpen l) eqn:E; simpl; rewrite ?E; done. }
  split; rewrite ?F1, ?F2, ?F3, ?F4, ?F5, ?F6, ?F7, ?F8, ?Eb; try done.
  - rewrite <- (assoc_L (++)), Hperm. done.
  - intros x. rewrite <- (assoc_L (++)), Hperm. apply H5.
  - intros x k Hx Hk HkC. pose proof (part_size o ltac:(lia)) as Hps. unfold size in *.
    destruct (decide (o <= Z.of_nat k < o + kDownloadPartSize)) as [Hin|Hout].
    + unfold new. rewrite overwrite_in by lia. apply part_lookup; lia.
    + apply elem_of_cons in Hx as [->|Hx]; [done|]. specialize (H7 x Hx). unfold new. rewrite overwrite_out by lia. by apply (H6 x).
  - intros x [->|Hx]%elem_of_cons; [lia|]. specialize (H7 x Hx). lia.
  - right. destruct (Z.le_gt_cases (size (body l)) (Z.min (o + kDownloadPartSize) (size C))) as [Hle|Hgt].
    + exists o. split; [by left|]. lia.
    + destruct H8 as [E|(x & Hx & Hx' & E)]; [rewrite E in Hgt; unfold size in *; simpl in Hgt; lia|]. exists x. split; [by right|]. lia.
  - rewrite fmap_cons. change (size new - skipped = size (part o) + sum ((fun o => size (part o)) <$> R)). lia.
Qed.

(** An empty part, after the end, is only noted. *)
Lemma nothing_written (l : FileLoader) (u1 u2 R : list Z) (o : Z) : so_far l (u1 ++ o :: u2) R -> part o = [] -> so_far l (u1 ++ u2) (o :: R).
Proof.
  intros [H1 H2 H3 H4 H5 H6 H7 H8 H9 H10 H11] He.
  assert (u1 ++ u2 ++ o :: R ≡ₚ (u1 ++ o :: u2) ++ R) as Hperm by solve_Permutation.
  assert (0 <= o) as Ho by (apply (H5 o); rewrite !elem_of_app, elem_of_cons; auto). pose proof (proj1 (part_nil o Ho) He) as Hc.
  split; try done.
  - rewrite <- (assoc_L (++)), Hperm. done.
  - intros x. rewrite <- (assoc_L (++)), Hperm. apply H5.
  - intros x k [->|Hx]%elem_of_cons Hk HkC; [unfold size in Hc; lia|by apply (H6 x)].
  - intros x [->|Hx]%elem_of_cons Hlt; [lia|by apply H7].
  - destruct H8 as [|(x & Hx & Hx')]; [by left|right]. exists x. split; [by right|done].
  - rewrite fmap_cons, He. change (currentOffset l = 0 + sum ((fun o => size (part o)) <$> R)). lia.
Qed.

(** What stays of a loader through what it writes. *)
Record alike (l l' : FileLoader) : Prop := {
  alike_open : fileIsOpen l' = fileIsOpen l; alike_name : filename l' = filename l; alike_cache : toCache l' = toCache l;
  alike_status : localStatus l' = localStatus l; alike_key : hasCacheKey l' = hasCacheKey l;
  alike_sizes : fullSize l' = fullSize l /\ loadSize l' = loadSize l;
  alike_next : nextRequestOffset l' = nextRequestOffset l; alike_cancelled : cancelled l' = cancelled l }.

Lemma part_written (l : FileLoader) (u1 u2 R : list Z) (o : Z) : so_far l (u1 ++ o :: u2) R -> exists l1 effects ok,
  writeResultPart can_write hole o (part o) l = Some (l1, effects, ok)
  /\ if ok then effects = [] /\ so_far l1 (u1 ++ u2) (o :: R) /\ alike l l1 else finished_ l1 = true /\ cancelled l1 = true.
Proof.
  intros H. destruct (decide (part o = [])) as [He|Hne].
  - exists l, [], true. split; [unfold writeResultPart; by rewrite (so_end _ _ _ H), bool_decide_eq_true_2|]. split; [done|].
    split; [by apply nothing_written|by split].
  - assert ((kDownloadPartSize | o) /\ 0 <= o < nextRequestOffset l) as [Hd Ho] by (apply (so_asked _ _ _ H); rewrite !elem_of_app, elem_of_cons; auto).
    pose proof part_size_pos as HP.
    assert (o < size (body l) -> o + size (part o) <= size (body l)) as Hin.
    { intros Hlt. destruct (so_most _ _ _ H) as [E|(x & Hx & Hx' & E)]; [rewrite E in Hlt; unfold size in Hlt; simpl in Hlt; lia|].
      assert (x <> o) as Hxo.
      { intros ->. pose proof (so_offsets _ _ _ H) as Hn. rewrite <- (assoc_L (++)) in Hn. apply NoDup_app in Hn as (_ & _ & Hn).
        simpl in Hn. apply NoDup_cons in Hn as [Hn _]. apply Hn, elem_of_app. by right. }
      destruct (proj1 (so_asked _ _ _ H x) ltac:(apply elem_of_app; by right)) as [Hx2 _]. rewrite part_size by lia.
      destruct (Z.lt_ge_cases o x) as [Hox|Hox]; [pose proof (multiples o x Hd Hx2 Hox); lia|].
      pose proof (multiples x o Hx2 Hd ltac:(lia)). lia. }
    destruct (write_part o (part o) l (so_end _ _ _ H) Hne ltac:(lia) Hin) as (skipped & Hcount & E). rewrite E. clear E.
    case_match.
    + destruct (cancel true (set_data (data l) skipped l)) as [l1 e1] eqn:E1. exists l1, e1, false. split; [done|].
      pose proof (cancel_ends true (set_data (data l) skipped l)) as (_ & F1 & F2). by rewrite E1 in F1, F2.
    + eexists _, _, true. split; [done|]. split; [done|]. split; [by apply body_written|].
      unfold set_body. destruct (fileIsOpen l) eqn:Eo; split; simpl; congruence || done.
Qed.

(** All that was asked for has come. *)
Lemma body_complete (l : FileLoader) (R : list Z) : so_far l [] R -> body l = take (Z.to_nat (nextRequestOffset l)) C.
Proof.
  intros [H1 H2 [Hn0 [c Hc]] H4 H5 H6 H7 H8 H9 H10 H11]. pose proof part_size_pos as HP. simpl in H5.
  assert (forall k, 0 <= k < nextRequestOffset l -> kDownloadPartSize * (k / kDownloadPartSize) ∈ R
    /\ kDownloadPartSize * (k / kDownloadPartSize) <= k < kDownloadPartSize * (k / kDownloadPartSize) + kDownloadPartSize) as Hin.
  { intros k Hk. pose proof (Z.div_mod k kDownloadPartSize ltac:(lia)). pose proof (Z.mod_pos_bound k kDownloadPartSize HP).
    split; [|lia]. apply H5. split; [by exists (k / kDownloadPartSize); lia|]. pose proof (Z.div_pos k kDownloadPartSize). nia. }
  assert (size (body l) = Z.min (nextRequestOffset l) (size C)) as Hs.
  { destruct (Z.le_gt_cases (Z.min (nextRequestOffset l) (size C)) 0) as [Hle|Hgt].
    - destruct H8 as [->|(o & Ho & Ho' & E)]; [unfold size in *; simpl; lia|]. apply H5 in Ho as [_ Ho]. lia.
    - destruct (Hin (Z.min (nextRequestOffset l) (size C) - 1) ltac:(lia)) as [Hx Hy]. match type of Hx with ?y ∈ _ => set (x := y) in * end.
      pose proof (H7 x Hx ltac:(lia)). destruct H8 as [E|(o & Ho & Ho' & E)]; [rewrite E in *; unfold size in *; simpl in *; lia|].
      apply H5 in Ho as [Hd Ho]. pose proof (multiples o (nextRequestOffset l) Hd ltac:(by exists c) ltac:(lia)). lia. }
  apply list_eq. intros k. unfold size in *. destruct (decide (k < length (body l))%nat) as [Hk|Hk].
  - destruct (Hin (Z.of_nat k) ltac:(lia)) as [Hx Hy]. rewrite lookup_take_lt by lia. by apply (H6 _ k Hx); [lia|lia].
  - rewrite lookup_ge_None_2 by lia. symmetry. apply lookup_ge_None_2. rewrite length_take. lia.
Qed.

(** *** On the way *)

Lemma so_far_new (l : FileLoader) : fresh l -> so_far l [] [].
Proof.
  intros [F1 F2 F3 F4 F5 Fm F6]. split; try done.
  - destruct F6 as [|[? []]]; auto.
  - rewrite F3. split; [done|]. by exists 0.
  - constructor.
  - intros o. rewrite F3. split; [by intros ?%not_elem_of_nil|lia].
  - by intros o k ?%not_elem_of_nil.
  - by intros o ?%not_elem_of_nil.
  - by left.
  - unfold currentOffset, body in *. rewrite F4. destruct (fileIsOpen l); by rewrite F5.
  - by rewrite F2.
Qed.

(** The offsets of the parts before [m]. *)
Definition first_parts (m : nat) : list Z := (fun i => Z.of_nat i * kDownloadPartSize) <$> seq 0 m.

Lemma elem_of_first_parts (m : nat) (o : Z) : o ∈ first_parts m <-> (kDownloadPartSize | o) /\ 0 <= o < Z.of_nat m * kDownloadPartSize.
Proof.
  pose proof part_size_pos as HP. unfold first_parts. rewrite list_elem_of_fmap. split.
  - intros (i & -> & Hi). apply list_elem_of_In, in_seq in Hi. split; [by exists (Z.of_nat i)|nia].
  - intros [[c ->] Ho]. exists (Z.to_nat c). rewrite list_elem_of_In, in_seq. split; [|nia]. f_equal. nia.
Qed.

Lemma first_parts_count (m : nat) : Z.of_nat m * kDownloadPartSize <= size C ->
  sum ((fun o => size (part o)) <$> first_parts m) = Z.of_nat m * kDownloadPartSize.
Proof.
  pose proof part_size_pos as HP. unfold first_parts. induction m as [|m IH]; intros Hm; [done|].
  rewrite seq_S, !fmap_app, sum_app, IH by lia. simpl. rewrite part_size by nia. unfold sum. simpl. lia.
Qed.

Lemma so_far_resumed (l : FileLoader) (m : nat) : fresh l -> fileIsOpen l = false -> Z.of_nat m * kDownloadPartSize <= size C ->
  so_far (fire Progress (set_data (take (Z.to_nat (Z.of_nat m * kDownloadPartSize)) C) 0
    (set_next (lastComplete l) (Z.of_nat m * kDownloadPartSize) l))) [] (first_parts m).
Proof.
  intros [F1 F2 F3 F4 F5 Fm F6] Fo Hm. pose proof part_size_pos as HP. set (n := Z.of_nat m * kDownloadPartSize) in *.
  assert (size (take (Z.to_nat n) C) = n) as Hs by (unfold size in *; rewrite length_take; lia).
  split; simpl; try done.
  - destruct F6 as [|[? []]]; auto.
  - split; [lia|]. by exists (Z.of_nat m).
  - unfold first_parts. apply NoDup_fmap_2_strong; [|apply NoDup_ListNoDup, seq_NoDup]. intros i j _ _ E. nia.
  - intros o. apply elem_of_first_parts.
  - intros o k Ho Hk HkC. unfold body. simpl. rewrite Fo. apply elem_of_first_parts in Ho as [Hd Ho].
    pose proof (multiples o n Hd ltac:(by exists (Z.of_nat m)) ltac:(lia)). apply lookup_take_lt. lia.
  - intros o Ho Hlt. unfold body. simpl. rewrite Fo, Hs. apply elem_of_first_parts in Ho as [Hd Ho].
    pose proof (multiples o n Hd ltac:(by exists (Z.of_nat m)) ltac:(lia)). lia.
  - unfold body. simpl. rewrite Fo. destruct m as [|m]; [left; done|right]. exists (Z.of_nat m * kDownloadPartSize).
    split; [apply elem_of_first_parts; split; [by exists (Z.of_nat m)|nia]|]. rewrite Hs. unfold n. lia.
  - unfold currentOffset. simpl. rewrite Fo, Hs, first_parts_count by done. fold n. lia.
  - by rewrite F2.
Qed.

Lemma so_far_ask (l l' : FileLoader) (have : bool) (u R : list Z) (o : Z) : so_far l u R ->
  takeNextRequestOffset_ have l = Some (o, l') -> so_far l' (o :: u) R.
Proof.
  intros [H1 H2 [H3 [c Hc]] H4 H5 H6 H7 H8 H9 H10 H11]. pose proof part_size_pos as HP. unfold takeNextRequestOffset_.
  destruct (readyToRequest_ have l) eqn:Er; [|done]. intros [= <- <-]. unfold readyToRequest_ in Er. bool_to_prop.
  split; simpl; try done.
  - split; [lia|]. exists (c + 1). lia.
  - apply NoDup_cons. split; [|done]. rewrite H5. lia.
  - intros o. rewrite elem_of_cons, H5. split.
    + intros [->|[? ?]]; [split; [by exists c|lia]|split; [done|lia]].
    + intros [Hd Ho]. destruct (Z.lt_ge_cases o (nextRequestOffset l)) as [|Hge]; [right; split; [done|lia]|left].
      destruct (Z.eq_dec o (nextRequestOffset l)) as [|Hne]; [done|].
      pose proof (multiples (nextRequestOffset l) o ltac:(by exists c) Hd ltac:(lia)). lia.
  - congruence.
Qed.

Lemma so_far_sizes (l : FileLoader) (u R : list Z) (n full : Z) (auto : bool) : so_far l u R ->
  (full = 0 \/ full = size C /\ n <= size C) -> so_far (set_sizes n full auto l) u R.
Proof. intros [H1 H2 H3 H4 H5 H6 H7 H8 H9 H10 H11] Hs. by split. Qed.

Lemma so_far_last (l : FileLoader) (u R : list Z) (o : Z) : so_far l u R -> o ∈ R ->
  let odd := bool_decide (part o = []) || negb (crem (size (part o)) 1024 =? 0) in
  so_far (if odd then set_next true (nextRequestOffset l) l else l) u R.
Proof.
  intros [H1 H2 H3 H4 H5 H6 H7 H8 H9 H10 H11] Ho. destruct (_ || _) eqn:E; [|by split]. split; try done. intros _. simpl.
  destruct (proj1 (H5 o) ltac:(apply elem_of_app; by right)) as [Hd Hr]. pose proof (part_odd o ltac:(lia) E).
  destruct H3 as [_ Hn]. pose proof (multiples o (nextRequestOffset l) Hd Hn ltac:(lia)). lia.
Qed.

(** What is left when a file is finished: all of it up to what was asked for,
    in memory or in the open file, and for the cache. *)
Record saved (l l' : FileLoader) (X : list Z) : Prop := {
  saved_file : fileIsOpen l = true -> file l' = X;
  saved_data : fileIsOpen l = false -> data l' = X;
  saved_both : toCache l = LoadToCacheAsWell -> filename l <> [] -> file l' = X;
  saved_cache : localStatus l = NotFound -> toCache l = LoadToCacheAsWell -> hasCacheKey l = true -> size X <= kMaxFileInMemory ->
    CachePut (if (fullSize l =? 0) || (size X =? fullSize l) then X else prefix ++ X) ∈ stored l' }.

Lemma overwrite_all (X : list Z) : overwrite 0 X [] = X.
Proof. change (X ++ drop (length X) [] = X). by rewrite drop_nil, app_nil_r. Qed.

Lemma finalize_saved (l l' : FileLoader) (effects : list effect) (ok : bool) : (fileIsOpen l = true -> toCache l = LoadToFileOnly) ->
  finalizeResult can_open can_write hole l = Some (l', effects, ok) ->
  cancelled l' = true \/ saved l l' (body l).
Proof.
  destruct l as [? fin ? status name content is_open ? cache ? bytes ? full ? ? keyed located ? ? ? ?]. unfold finalizeResult, cancel, body. cbn.
  intros Hmode. destruct fin; [done|]. destruct is_open.
  - assert (cache = LoadToFileOnly) as -> by auto. rewrite andb_false_r. cbn. intros E. right.
    destruct status; injection E as <- _ _; split; cbn; try done; by repeat case_match.
  - destruct cache; cbn; rewrite ?andb_false_r, ?andb_true_r; cbn.
    + intros E. right. destruct status; injection E as <- _ _; split; cbn; try done; by repeat case_match.
    + case_bool_decide as Hn; cbn; [|destruct (can_open name); cbn; [destruct (can_write 0 bytes); cbn|]].
      all: intros E; try (injection E as <- _ _; by left); right; destruct status; injection E as <- _ _; split; cbn; try done; intros;
        subst; rewrite ?overwrite_all, ?andb_false_r; cbn; repeat (case_match; simplify_eq/=); bool_to_prop; try done; try lia;
        rewrite ?elem_of_app; try (right; by left).
Qed.


(** *** A part comes *)

Lemma some_under_way_false (u : list Z) : some_under_way u = false <-> u = [].
Proof. unfold some_under_way. rewrite negb_false_iff. apply bool_decide_eq_true. Qed.

Lemma saved_alike (l l1 l' : FileLoader) (X : list Z) : alike l l1 -> saved l1 l' X -> saved l l' X.
Proof.
  intros [A1 A2 A3 A4 A5 [A6 _] _ _] [S1 S2 S3 S4]. rewrite A1 in S1, S2. rewrite A2, A3 in S3. rewrite A3, A4, A5, A6 in S4. by split.
Qed.

(** What a part makes of the loader: it goes on, or was refused by the disk, or
    all that was to be loaded is there. *)
Inductive fed (l : FileLoader) (u R : list Z) (l' : FileLoader) : Prop :=
  | fed_on : finished_ l' = false -> so_far l' u R -> (u = [] -> goes_on l') -> fed l u R l'
  | fed_cancelled : finished_ l' = true -> cancelled l' = true -> fed l u R l'
  | fed_all : finished_ l' = true -> u = [] -> size C < nextRequestOffset l \/ fullSize l <> 0 /\ loadSize l <= nextRequestOffset l ->
      saved l l' (take (Z.to_nat (nextRequestOffset l)) C) -> fed l u R l'.

Lemma so_far_fire (l : FileLoader) (u R : list Z) (x : update) : so_far l u R -> so_far (fire x l) u R.
Proof. intros [H1 H2 H3 H4 H5 H6 H7 H8 H9 H10 H11]. by split. Qed.

(** The end of [feedPart], once the part is written. *)
Definition ends (l : FileLoader) : bool := lastComplete l || (negb (fullSize l =? 0) && (loadSize l <=? nextRequestOffset l)).

Lemma fed_finished (l l2 : FileLoader) (R : list Z) : so_far l2 [] R -> alike l l2 -> ends l2 = true -> exists l' effects ok, finalizeResult can_open can_write hole l2 = Some (l', effects, ok) /\ fed l [] R l'.
Proof.
  intros H2 Hal He. destruct (finalize_ends l2 (so_end _ _ _ H2)) as (l3 & e3 & ok3 & E3 & _ & F3 & _).
  exists l3, e3, ok3. split; [exact E3|].
  destruct (finalize_saved l2 l3 e3 ok3) as [Hc|Hs]; [by apply (so_mode _ _ _ H2)|exact E3|by apply fed_cancelled|].
  pose proof (alike_sizes _ _ Hal) as [Es1 Es2]. pose proof (alike_next _ _ Hal) as En.
  apply fed_all; [exact F3|reflexivity| |].
  - rewrite <- Es1, <- Es2, <- En. apply orb_true_iff in He as [Hl|Hf]; [left; by apply (so_last _ _ _ H2)|right]. by bool_to_prop.
  - rewrite <- En, <- (body_complete l2 _ H2). by apply (saved_alike l l2).
Qed.

Lemma fed_going (l l2 : FileLoader) (u R : list Z) : so_far l2 u R -> negb (some_under_way u) && ends l2 = false -> fed l u R (fire Progress l2).
Proof.
  intros H2 He. apply fed_on; [by apply (so_end _ _ _ H2)|by apply so_far_fire|].
  intros Hu. rewrite (proj2 (some_under_way_false _) Hu) in He. cbn in He. apply orb_false_iff in He as [Hl Hf].
  split; [exact Hl|]. cbn. apply andb_false_iff in Hf as [Hf|Hf]; bool_to_prop; auto.
Qed.

Lemma part_fed (l : FileLoader) (u1 u2 R : list Z) (o : Z) : so_far l (u1 ++ o :: u2) R ->
  exists l' effects ok, feedPart_ can_open can_write hole (some_under_way (u1 ++ u2)) o (part o) l = Some (l', effects, ok)
  /\ fed l (u1 ++ u2) (o :: R) l'.
Proof.
  intros H. unfold feedPart_. destruct (part_written l u1 u2 R o H) as (l1 & e1 & ok & -> & Hok).
  destruct ok; cbn [negb]; [|eexists _, _, _; split; [reflexivity|]; apply fed_cancelled; apply Hok].
  destruct Hok as (-> & H1 & Hal). pose proof (so_far_last l1 (u1 ++ u2) (o :: R) o H1 ltac:(by left)) as H2. cbv zeta in H2.
  match type of H2 with so_far ?x _ _ => set (l2 := x) in * end.
  assert (alike l l2) as Hal2 by (unfold l2; destruct Hal; case_match; by split). clearbody l2. clear H1 Hal l1. fold (ends l2).
  destruct (negb _ && _) eqn:Ef; [|eexists _, _, _; split; [reflexivity|by apply fed_going]].
  apply andb_true_iff in Ef as [Hu Ef]. apply negb_true_iff, some_under_way_false in Hu. rewrite Hu in *.
  destruct (fed_finished l l2 (o :: R) H2 Hal2 Ef) as (l3 & e3 & ok3 & E3 & Hf). rewrite E3. eexists _, _, _. split; [reflexivity|exact Hf].
Qed.

(** The first part is fed whole. *)
Lemma first_fed (l : FileLoader) (n : Z) : fresh l -> fileIsOpen l = false -> 0 < n <= size C -> (kDownloadPartSize | n) -> n < loadSize l ->
  feedPart_ can_open can_write hole false 0 (take (Z.to_nat n) C) (set_next (lastComplete l) n l)
  = Some (fire Progress (set_data (take (Z.to_nat n) C) 0 (set_next (lastComplete l) n l)), [], true).
Proof.
  intros [F1 F2 F3 F4 F5 Fm F6] Fo Hn Hd Hl. set (l0 := set_next _ _ _). set (X := take _ C).
  assert (size X = n) as HX by (unfold X, size in *; rewrite length_take; lia).
  assert (X <> []) as Hne by (intros E; rewrite E in HX; unfold size in HX; simpl in HX; lia).
  assert (body l0 = []) as Hb by exact F5.
  assert (currentOffset l0 = 0) as Hc.
  { unfold body in Hb. unfold currentOffset. change (skippedBytes l0) with (skippedBytes l). rewrite F4. destruct (fileIsOpen l0); by rewrite Hb. }
  destruct (write_part 0 X l0 F1 Hne ltac:(lia)) as (skipped & Hcount & E); [by rewrite Hb|].
  rewrite Hb, overwrite_all in Hcount, E. assert (skipped = 0) as -> by lia.
  change (fileIsOpen l0) with (fileIsOpen l) in E. rewrite Fo in E. cbn [andb] in E. unfold feedPart_. rewrite E. cbn [negb].
  rewrite bool_decide_eq_false_2 by done. rewrite HX. cbn [orb].
  assert (crem n 1024 = 0) as ->.
  { destruct Hd as [a ->], part_size_kilobytes as [c ->]. rewrite Z.mul_assoc. apply Z.rem_mul. lia. }
  cbn [Z.eqb negb]. unfold set_body. change (fileIsOpen l0) with (fileIsOpen l). rewrite Fo.
  change (lastComplete (set_data X 0 l0)) with (lastComplete l). rewrite F2. cbn [orb andb].
  change (loadSize (set_data X 0 l0)) with (loadSize l). change (nextRequestOffset (set_data X 0 l0)) with n.
  rewrite (proj2 (Z.leb_gt _ _)) by lia. by rewrite andb_false_r.
Qed.

Lemma partial_used (l l' : FileLoader) (k : nat) (effects : list effect) : fresh l -> fileIsOpen l = false -> (k <= length C)%nat ->
  size (prefix ++ take k C) < loadSize l + 8 ->
  startLoadingWithPartial can_open can_write hole false (prefix ++ take k C) l = Some (l', effects, true) ->
  exists m, nextRequestOffset l' = Z.of_nat m * kDownloadPartSize /\ nextRequestOffset l' < loadSize l'
    /\ lastComplete l' = false /\ so_far l' [] (first_parts m).
Proof.
  intros F Fo Hk Hs. pose proof F as [F1 F2 F3 F4 F5 Fm F6]. pose proof part_size_pos as HP. unfold startLoadingWithPartial.
  rewrite take_app_length' by done. rewrite bool_decide_eq_true_2 by done. cbn [negb].
  assert (size (prefix ++ take k C) = 8 + Z.of_nat k) as E by (unfold size; rewrite length_app, length_take; change (length prefix) with 8%nat; lia).
  rewrite E in *. replace (8 + Z.of_nat k - 8) with (Z.of_nat k) by lia. set (m := Z.to_nat (Z.of_nat k / kDownloadPartSize)).
  pose proof (Z.mul_div_le (Z.of_nat k) kDownloadPartSize HP) as Hm. pose proof (Z.div_pos (Z.of_nat k) kDownloadPartSize ltac:(lia) HP) as Hp.
  replace (Z.of_nat k / kDownloadPartSize) with (Z.of_nat m) in * by (unfold m; lia). set (use := Z.of_nat m * kDownloadPartSize) in *.
  assert (0 <= use <= Z.of_nat k) as Hu by (unfold use; nia).
  destruct (Z.ltb_spec 0 use) as [Hpos|Hle].
  - rewrite drop_app_length' by done. rewrite take_take, Nat.min_l by lia.
    rewrite first_fed by (done || (unfold size; lia) || (by exists (Z.of_nat m))). intros [= <- _]. exists m.
    split; [done|]. split; [cbn; lia|]. split; [done|]. apply so_far_resumed; [done|done|unfold size; lia].
  - intros [= <- _]. exists O. rewrite F3. split_and!; [done|lia|done|by apply so_far_new].
Qed.

Lemma coming_so_far (l : FileLoader) (u R : list Z) : coming l u R -> so_far l u R /\ (u = [] -> goes_on l).
Proof.
  induction 1 as [l F|l l' k effects F Fo Hk Hs Hp|l u R o l' _ [IH _] Ht|l u1 o u2 R l' effects ok _ [IH _] Hf Hend|l u R l' _ [IH _] Hu Hh|l u R n auto l' _ [IH IHg] Hi].
  - split; [by apply so_far_new|]. intros _. split; [apply F|]. rewrite (fresh_next _ F). destruct (fresh_size _ F) as [|[_ []]]; auto.
  - destruct (partial_used l l' k effects F Fo Hk Hs Hp) as (m & En & Hlt & Hl & Hso). pose proof part_size_pos as HP.
    rewrite En, Z.div_mul, Nat2Z.id by lia. split; [exact Hso|]. intros _. split; [done|by right].
  - split; [by eapply so_far_ask|done].
  - destruct (part_fed l u1 u2 R o IH) as (l2 & e2 & ok2 & E & Hfed). rewrite E in Hf. injection Hf as <- _ _.
    destruct Hfed; [done|congruence..].
  - unfold setWebFileSizeHook_ in Hh. destruct (_ || _); [|by destruct (cancel true l)]. injection Hh as <-.
    split; [|done]. apply so_far_sizes; [done|right; split; [done|lia]].
  - unfold increaseLoadSize in Hi. destruct (_ && _) eqn:E; [|done]. injection Hi as <-. bool_to_prop. split.
    + apply so_far_sizes; [done|]. destruct (so_size _ _ _ IH) as [|[]]; [by left|right; split; [done|lia]].
    + intros Hu. destruct (IHg Hu) as [Hl Hg]. split; [done|]. cbn. destruct Hg; [by left|right; lia].
Qed.

End Facts.

(** C16. However the parts of a file come - in any order, from the cache for a
    start, the size known before or only then - a loader is never stuck, counts
    what it has, and when the last part is there it has the file, up to where
    it was to be loaded, unless the disk refused it. *)
Theorem file_downloaded can_open can_write hole (C : list Z) (l : FileLoader) (u R : list Z) : coming can_open can_write hole C l u R ->
  currentOffset l = sum ((fun o => size (part C o)) <$> R) /\ (u = [] -> readyToRequest_ false l = true)
  /\ forall u1 o u2, u = u1 ++ o :: u2 -> exists l' effects ok,
     feedPart_ can_open can_write hole (some_under_way (u1 ++ u2)) o (part C o) l = Some (l', effects, ok)
     /\ (coming can_open can_write hole C l' (u1 ++ u2) (o :: R) \/ finished_ l' = true /\ (cancelled l' = true \/
         u1 ++ u2 = [] /\ (fullSize l = 0 \/ loadSize l = size C -> saved l l' C)
         /\ exists n, Z.min (loadSize l) (size C) <= n /\ saved l l' (take (Z.to_nat n) C))).
Proof.
  intros Hc. destruct (coming_so_far _ _ _ _ _ _ _ Hc) as [H Hg]. split; [apply (so_count _ _ _ _ H)|]. split.
  - intros Hu. destruct (Hg Hu) as [Hl Hor]. unfold readyToRequest_. rewrite (so_end _ _ _ _ H), Hl, orb_true_r. cbn.
    destruct Hor as [->|Hlt]; [done|]. rewrite (proj2 (Z.ltb_lt _ _)) by done. apply orb_true_r.
  - intros u1 o u2 ->. destruct (part_fed can_open can_write hole C l u1 u2 R o H) as (l' & effects & ok & E & Hf).
    exists l', effects, ok. split; [exact E|]. destruct Hf as [He _ _|He Hx|He Hu Hn Hs]; [left; by eapply coming_part|right; auto|right].
    split; [done|]. right. split; [done|]. split; [|exists (nextRequestOffset l); split; [lia|done]].
    intros Hwhole. rewrite take_ge in Hs; [done|]. destruct (so_size _ _ _ _ H) as [E0|[E0 E1]]; unfold size in *; [lia|].
    destruct Hwhole as [Hw|Hw]; [|destruct Hn as [Hn|[_ Hn]]; lia].
    destruct Hn as [Hn|[Hn _]]; [lia|congruence].
Qed.

(** A picture of three bytes, its only part under way. *)
Definition small_loader : FileLoader :=
  mk_loader false false false NotFound [] [] false false LoadToCacheAsWell LoadFromCloudOrLocal [] 3 3 0 false true false false 0 [] [].

Lemma file_downloaded_witness : let yes := fun _ => true in let l := set_next false kDownloadPartSize small_loader in
  coming yes (fun _ => yes) 0 [7; 8; 9] l [0] [] /\ exists l' effects ok,
    feedPart_ yes (fun _ => yes) 0 false 0 (part [7; 8; 9] 0) l = Some (l', effects, ok)
    /\ (coming yes (fun _ => yes) 0 [7; 8; 9] l' [] [0] \/ finished_ l' = true /\ (cancelled l' = true \/
         @nil Z = [] /\ (fullSize l = 0 \/ loadSize l = size [7; 8; 9] -> saved l l' [7; 8; 9])
         /\ exists n, Z.min (loadSize l) (size [7; 8; 9]) <= n /\ saved l l' (take (Z.to_nat n) [7; 8; 9]))).
Proof.
  intros yes l. assert (coming yes (fun _ => yes) 0 [7; 8; 9] l [0] []) as H.
  { apply (coming_ask yes (fun _ => yes) 0 [7; 8; 9] small_loader [] [] 0); [|reflexivity]. apply coming_new.
    split; try reflexivity; [discriminate|]. right. unfold size. simpl. lia. }
  split; [exact H|]. destruct (file_downloaded yes (fun _ => yes) 0 [7; 8; 9] l [0] [] H) as (_ & _ & Hp).
  exact (Hp [] 0 [] eq_refl).
Defined.
