(* ===== verification/Streaming.v ===== *)
(** * Parts for a player

    [media/streaming/media_streaming_loader.cpp] and
    [media/streaming/media_streaming_loader_mtproto.cpp]: the parts a player asks
    for, those asked for last first; the loader is a task of [Download]. The
    parts given to the player are a log; a part that a download of the same file
    has on the disk already is the parameter [readLoadedPart]. *)

From S2P Require Import Prelude DownloadQueue StateMonad Download DownloadFacts.

(** ** The queue of parts *)

Record Entry := mk_entry { value : Z; entryPriority : Z }.

#[export] Instance Entry_eq_dec : EqDecision Entry.
Proof. solve_decision. Defined.

Definition entry_before (a b : Entry) : bool :=
  if entryPriority b <? entryPriority a then true
  else if entryPriority a <? entryPriority b then false
  else value a <? value b.

(** Sorted, as a [base::flat_set] is. *)
Record PriorityQueue := mk_queue { queued : list Entry; queuePriority : Z }.
Definition PriorityQueue_new : PriorityQueue := mk_queue [] 0.

Fixpoint insert_entry (x : Entry) (l : list Entry) : list Entry :=
  match l with
  | [] => [x]
  | y :: r => if entry_before y x then y :: insert_entry x r else if entry_before x y then x :: l else l
  end.

Definition erase_entry (x : Entry) (l : list Entry) : list Entry := filter (fun y => y <> x) l.

Definition find_value (v : Z) (l : list Entry) : option Entry := head (filter (fun x => value x = v) l).

Definition add (v : Z) (q : PriorityQueue) : PriorityQueue * bool :=
  let entry := mk_entry v (queuePriority q) in
  match find_value v (queued q) with
  | None => (mk_queue (insert_entry entry (queued q)) (queuePriority q), true)
  | Some x =>
      if negb (entryPriority x =? queuePriority q)
      then (mk_queue (insert_entry entry (erase_entry x (queued q))) (queuePriority q), true)
      else (q, false)
  end.

Definition remove_value (v : Z) (q : PriorityQueue) : PriorityQueue * bool :=
  match find_value v (queued q) with
  | None => (q, false)
  | Some x => (mk_queue (erase_entry x (queued q)) (queuePriority q), true)
  end.

Definition front (q : PriorityQueue) : option Z := value <$> head (queued q).

Definition take_first (q : PriorityQueue) : option (Z * PriorityQueue) :=
  match queued q with
  | [] => None
  | x :: r => Some (value x, mk_queue r (queuePriority q))
  end.

Definition takeInRange (from till : Z) (q : PriorityQueue) : gset Z * PriorityQueue :=
  let inside := fun x => from <= value x /\ value x < till in
  (list_to_set (value <$> filter inside (queued q)), mk_queue (filter (fun x => ~ inside x) (queued q)) (queuePriority q)).

Definition clear (q : PriorityQueue) : PriorityQueue := mk_queue [] (queuePriority q).
Definition resetPriorities (q : PriorityQueue) : PriorityQueue := mk_queue (queued q) (queuePriority q + 1).

(** *** Order *)

(** Higher priorities first, then lower offsets; each offset once; none above
    the present priority. *)
Record queue_ok (q : PriorityQueue) : Prop := {
  queue_sorted : StronglySorted (fun a b => entry_before a b = true) (queued q);
  queue_once : NoDup (value <$> queued q);
  queue_bound : Forall (fun x => entryPriority x <= queuePriority q) (queued q) }.

Lemma entry_before_trans (a b c : Entry) : entry_before a b = true -> entry_before b c = true -> entry_before a c = true.
Proof. unfold entry_before. intros. split_tests; try done; repeat case_match; bool_to_prop; try done; lia. Qed.

Lemma entry_total (a b : Entry) : entry_before a b = false -> entry_before b a = false -> a = b.
Proof.
  unfold entry_before. destruct a as [v p], b as [v' p']. simpl.
  destruct (Z.ltb_spec p' p); [done|]. destruct (Z.ltb_spec p p'); [done|]. intros ?%Z.ltb_ge ?%Z.ltb_ge. f_equal; lia.
Qed.

Lemma entry_asym (a b : Entry) : entry_before a b = true -> entry_before b a = true -> a = b.
Proof. unfold entry_before. repeat (case_match; try done); bool_to_prop; intros; bool_to_prop; lia. Qed.

Lemma insert_entry_elem (x y : Entry) (l : list Entry) : y ∈ insert_entry x l <-> y = x \/ y ∈ l.
Proof.
  induction l as [|z l IH]; simpl; [by rewrite elem_of_cons|]. destruct (entry_before z x) eqn:E1.
  - rewrite !elem_of_cons, IH. tauto.
  - destruct (entry_before x z) eqn:E2; [by rewrite !elem_of_cons|]. rewrite (entry_total _ _ E1 E2).
    rewrite !elem_of_cons. tauto.
Qed.

Lemma insert_entry_sorted (x : Entry) (l : list Entry) : StronglySorted (fun a b => entry_before a b = true) l ->
  StronglySorted (fun a b => entry_before a b = true) (insert_entry x l).
Proof.
  induction 1 as [|z l Hs IH Hz]; simpl; [by repeat constructor|]. destruct (entry_before z x) eqn:E1.
  - constructor; [done|]. apply Forall_forall. intros y [->|Hy]%insert_entry_elem; [done|]. rewrite Forall_forall in Hz. by apply Hz.
  - destruct (entry_before x z) eqn:E2; [|by constructor]. constructor; [by constructor|]. constructor; [done|].
    eapply Forall_impl; [exact Hz|]. intros y. by apply entry_before_trans.
Qed.

Lemma find_value_some (v : Z) (l : list Entry) (x : Entry) : find_value v l = Some x -> x ∈ l /\ value x = v.
Proof.
  unfold find_value. destruct (filter _ l) as [|y r] eqn:E; [done|]. intros [= ->].
  assert (x ∈ filter (fun x => value x = v) l) as Hx by (rewrite E; by left). by apply list_elem_of_filter in Hx as [? ?].
Qed.

Lemma find_value_none (v : Z) (l : list Entry) : find_value v l = None -> v ∉ (value <$> l).
Proof.
  unfold find_value. destruct (filter _ l) as [|y r] eqn:E; [|done]. intros _ (x & -> & Hx)%list_elem_of_fmap.
  assert (x ∈ filter (fun y => value y = value x) l) as H by by apply list_elem_of_filter. rewrite E in H. by apply not_elem_of_nil in H.
Qed.

Lemma sorted_entries_unique (l k : list Entry) : StronglySorted (fun a b => entry_before a b = true) l ->
  StronglySorted (fun a b => entry_before a b = true) k -> (forall x, x ∈ l <-> x ∈ k) -> l = k.
Proof.
  assert (forall l, StronglySorted (fun a b => entry_before a b = true) l -> NoDup l) as Hnd.
  { clear. induction 1 as [|x l Hs IH Hx]; constructor; [|done]. intros Hin. rewrite Forall_forall in Hx. specialize (Hx x Hin).
    unfold entry_before in Hx. rewrite !Z.ltb_irrefl in Hx. done. }
  intros Hl Hk He. assert (AntiSymm (=) (fun a b => entry_before a b = true)) by (intros a b; apply entry_asym).
  apply (StronglySorted_unique (fun a b => entry_before a b = true)); [done|done|]. apply NoDup_Permutation; auto.
Qed.

Lemma once_value (q : PriorityQueue) (x y : Entry) : queue_ok q -> x ∈ queued q -> y ∈ queued q -> value x = value y -> x = y.
Proof.
  intros [_ H _] Hx Hy E. induction (queued q) as [|z l IH]; [by apply not_elem_of_nil in Hx|]. rewrite fmap_cons in H.
  apply NoDup_cons in H as [Hz H]. apply elem_of_cons in Hx as [->|Hx], Hy as [->|Hy]; [done| | |by apply IH].
  - destruct Hz. rewrite E. by apply list_elem_of_fmap_2.
  - destruct Hz. rewrite <- E. by apply list_elem_of_fmap_2.
Qed.

(** What is in the queue after something was asked for. *)
Lemma add_elem (v : Z) (q : PriorityQueue) (x : Entry) : queue_ok q ->
  x ∈ queued (add v q).1 <-> x = mk_entry v (queuePriority q) \/ x ∈ queued q /\ value x <> v.
Proof.
  intros Hq. unfold add. destruct (find_value v (queued q)) as [y|] eqn:Ef.
  - destruct (find_value_some _ _ _ Ef) as [Hy <-]. destruct (Z.eqb_spec (entryPriority y) (queuePriority q)) as [E|E]; simpl.
    + split.
      * intros Hx. destruct (decide (value x = value y)) as [Ev|]; [left|by right]. rewrite (once_value q x y Hq Hx Hy Ev), <- E. by destruct y.
      * intros [->|[? _]]; [|done]. rewrite <- E. by destruct y.
    + rewrite insert_entry_elem. unfold erase_entry. rewrite list_elem_of_filter. split; (intros [->|[H1 H2]]; [by left|right]).
      * split; [done|]. intros Ev. apply H1. by apply (once_value q).
      * split; [by intros ->|done].
  - apply find_value_none in Ef. simpl. rewrite insert_entry_elem. split; (intros [->|H]; [by left|right]).
    + split; [done|]. intros <-. apply Ef. by apply list_elem_of_fmap_2.
    + apply H.
Qed.

Lemma sorted_once (l : list Entry) : StronglySorted (fun a b => entry_before a b = true) l ->
  (forall x y, x ∈ l -> y ∈ l -> value x = value y -> x = y) -> NoDup (value <$> l).
Proof.
  induction 1 as [|x l Hs IH Hx]; intros Hu; [constructor|]. rewrite fmap_cons. constructor.
  - intros (y & E & Hy)%list_elem_of_fmap. assert (x = y) as -> by (apply Hu; [by left|by right|done]).
    rewrite Forall_forall in Hx. specialize (Hx y Hy). unfold entry_before in Hx. by rewrite !Z.ltb_irrefl in Hx.
  - apply IH. intros. apply Hu; [by right..|done].
Qed.

Lemma add_ok (v : Z) (q : PriorityQueue) : queue_ok q -> queue_ok (add v q).1 /\ queuePriority (add v q).1 = queuePriority q.
Proof.
  intros Hq. pose proof Hq as [H1 H2 H3].
  assert (queuePriority (add v q).1 = queuePriority q) as Ep by (unfold add; by repeat case_match).
  assert (StronglySorted (fun a b => entry_before a b = true) (queued (add v q).1)) as Hs.
  { unfold add. destruct (find_value v (queued q)) as [y|]; [case_match|]; simpl; try done; apply insert_entry_sorted; [|done].
    clear -H1. unfold erase_entry. induction H1 as [|x l Hs IH Hx]; [constructor|]. rewrite filter_cons. case_decide; [|done].
    constructor; [done|]. rewrite Forall_forall in *. intros z [_ Hz]%list_elem_of_filter. by apply Hx. }
  split; [|done]. split; [done| |].
  - apply sorted_once; [done|]. intros x y. rewrite !add_elem by done. intros [->|[Hx Hxv]] [->|[Hy Hyv]] E; simpl in *; try done.
    by apply (once_value q).
  - apply Forall_forall. intros x. rewrite add_elem, Ep by done. intros [->|[Hx _]]; simpl; [lia|]. rewrite Forall_forall in H3. by apply H3.
Qed.

Lemma reset_ok (q : PriorityQueue) : queue_ok q -> queue_ok (resetPriorities q).
Proof. intros [H1 H2 H3]. split; [done|done|]. eapply Forall_impl; [exact H3|]. simpl. lia. Qed.

(** All of these asked for, one after another. *)
Definition add_all (vs : list Z) (q : PriorityQueue) : PriorityQueue := foldl (fun q v => (add v q).1) q vs.

Lemma add_all_ok (vs : list Z) (q : PriorityQueue) : queue_ok q -> queue_ok (add_all vs q) /\ queuePriority (add_all vs q) = queuePriority q
  /\ forall x, x ∈ queued (add_all vs q) <-> (value x ∈ vs /\ entryPriority x = queuePriority q) \/ x ∈ queued q /\ (value x ∉ vs).
Proof.
  revert q. induction vs as [|v vs IH]; intros q Hq; simpl.
  - split_and!; [done|done|]. intros x. split; [intros Hx; right; split; [done|apply not_elem_of_nil]|intros [[?%not_elem_of_nil _]|[? _]]; done].
  - destruct (add_ok v q Hq) as [H1 E1]. destruct (IH _ H1) as (H2 & E2 & H3). split_and!; [done|congruence|].
    intros x. rewrite H3, add_elem, E1, not_elem_of_cons, elem_of_cons by done. destruct x as [vx px]. simpl.
    destruct (decide (vx ∈ vs)), (decide (vx = v)); intuition congruence.
Qed.

Lemma remove_ok (v : Z) (q : PriorityQueue) : queue_ok q -> queue_ok (remove_value v q).1 /\ forall x, x ∈ queued (remove_value v q).1 -> x ∈ queued q.
Proof.
  intros Hq. unfold remove_value. destruct (find_value v (queued q)) as [y|]; [|done]. simpl. destruct Hq as [H1 H2 H3].
  split; [split; simpl|intros x [_ Hx]%list_elem_of_filter; done].
  - clear -H1. unfold erase_entry. induction H1 as [|x l Hs IH Hx]; [constructor|]. rewrite filter_cons. case_decide; [|done].
    constructor; [done|]. rewrite Forall_forall in *. intros z [_ Hz]%list_elem_of_filter. by apply Hx.
  - eapply sublist_NoDup; [exact H2|]. apply fmap_sublist, sublist_filter.
  - rewrite Forall_forall in *. intros x [_ Hx]%list_elem_of_filter. by apply H3.
Qed.

Lemma take_first_ok (q q' : PriorityQueue) (v : Z) : queue_ok q -> take_first q = Some (v, q') ->
  queue_ok q' /\ v ∈ (value <$> queued q) /\ forall x, x ∈ (value <$> queued q') -> x ∈ (value <$> queued q) /\ x <> v.
Proof.
  intros [H1 H2 H3]. unfold take_first. destruct (queued q) as [|y r]; [done|]. intros [= <- <-]. simpl.
  rewrite fmap_cons in H2. apply NoDup_cons in H2 as [Hy H2]. inversion H1; subst. inversion H3; subst. split; [by split|].
  split; [by left|]. intros x Hx. split; [by right|]. by intros ->.
Qed.

(** Parts that are asked for after a reset come before all others, by offset;
    the others keep their order. *)
Theorem asked_last_comes_first (vs : list Z) (q : PriorityQueue) : queue_ok q ->
  value <$> queued (add_all vs (resetPriorities q))
  = sorted_elements (list_to_set vs) ++ filter (fun v => v ∉ vs) (value <$> queued q).
Proof.
  intros Hq. destruct (add_all_ok vs (resetPriorities q) (reset_ok q Hq)) as ([Hs _ _] & _ & He). cbn [resetPriorities queuePriority queued] in He.
  set (p := queuePriority q + 1) in *. set (new := (fun v => mk_entry v p) <$> sorted_elements (list_to_set vs)).
  set (old := filter (fun x => value x ∉ vs) (queued q)). pose proof Hq as [H1 H2 H3].
  assert (queued (add_all vs (resetPriorities q)) = new ++ old) as ->.
  { apply sorted_entries_unique; [done| |].
    - apply StronglySorted_app_iff. split_and!.
      + unfold new. pose proof (sorted_elements_sorted (list_to_set vs)) as Hl. induction Hl as [|a l Hl IH Ha]; [constructor|].
        rewrite fmap_cons. constructor; [done|]. apply Forall_fmap. eapply Forall_impl; [exact Ha|]. intros b Hb.
        unfold compose, entry_before. simpl. rewrite Z.ltb_irrefl. by apply Z.ltb_lt.
      + unfold old. clear -H1. induction H1 as [|x l Hs IH Hx]; [constructor|]. rewrite filter_cons. case_decide; [|done].
        constructor; [done|]. rewrite Forall_forall in *. intros z [_ Hz]%list_elem_of_filter. by apply Hx.
      + intros x y (v & -> & _)%list_elem_of_fmap [_ Hy]%list_elem_of_filter. rewrite Forall_forall in H3. specialize (H3 y Hy).
        unfold entry_before. simpl in *. rewrite (proj2 (Z.ltb_lt _ _)); [done|]. unfold p. lia.
    - intros x. rewrite He, elem_of_app. unfold new, old. rewrite list_elem_of_fmap, list_elem_of_filter.
      setoid_rewrite elem_of_sorted_elements. setoid_rewrite elem_of_list_to_set. destruct x as [v px]. simpl. split.
      + intros [[Hv ->]|[Hx Hv]]; [left; by exists v|by right].
      + intros [(v' & [= -> ->] & Hv)|[Hv Hx]]; [by left|by right]. }
  rewrite fmap_app. f_equal.
  - unfold new. rewrite <- list_fmap_compose. rewrite <- (list_fmap_id (sorted_elements _)) at 2. by apply list_fmap_ext.
  - unfold old. clear. induction (queued q) as [|x l IH]; [done|]. rewrite filter_cons, fmap_cons, filter_cons.
    case_decide; [by rewrite fmap_cons, IH|done].
Qed.

(** A player that jumps: parts 5 and 4 are asked for while 1, 2 and 5 wait. *)
Lemma asked_last_comes_first_witness :
  let q := add_all [2; 1; 5] PriorityQueue_new in
  queue_ok q /\ value <$> queued (add_all [5; 4] (resetPriorities q)) = sorted_elements (list_to_set [5; 4]) ++ filter (fun v => v ∉ [5; 4]) (value <$> queued q).
Proof.
  intros q. assert (queue_ok q) as H.
  { apply add_all_ok. split; constructor. }
  split; [exact H|]. exact (asked_last_comes_first [5; 4] q H).
Defined.
