(* ===== verification/Loaders.v ===== *)
(** * Loaders as tasks

    The tasks of [Download]: files ([FileLoader]) and what a player asks for
    ([Streaming], [media_streaming_loader_mtproto.cpp]), with what is done to
    them from outside. Each of these is made of operations of the manager. *)

From S2P Require Import Prelude Text DownloadQueue StateMonad Download DownloadFacts DownloadSend DownloadRemove DownloadSystem FileLoader FileFacts Streaming.

(** ** [LoaderMtproto] *)

Definition kFailedOffset : Z := -1.

Record LoaderMtproto := mk_stream {
  streamSize : Z; streamPriority : Z; requestedParts : PriorityQueue; attached : bool; parts : list (Z * list Z) }.

Definition set_requested (q : PriorityQueue) (l : LoaderMtproto) : LoaderMtproto :=
  mk_stream (streamSize l) (streamPriority l) q (attached l) (parts l).
Definition set_stream_priority (p : Z) (l : LoaderMtproto) : LoaderMtproto :=
  mk_stream (streamSize l) p (requestedParts l) (attached l) (parts l).
Definition set_attached (b : bool) (l : LoaderMtproto) : LoaderMtproto :=
  mk_stream (streamSize l) (streamPriority l) (requestedParts l) b (parts l).
Definition fire_part (o : Z) (bytes : list Z) (l : LoaderMtproto) : LoaderMtproto :=
  mk_stream (streamSize l) (streamPriority l) (requestedParts l) (attached l) (parts l ++ [(o, bytes)]).

(** [LoadedPart::valid] *)
Definition valid_part (size : Z) (p : Z * list Z) : bool :=
  negb (p.1 =? kFailedOffset)
  && ((Z.of_nat (length p.2) =? kDownloadPartSize) || (p.1 + Z.of_nat (length p.2) =? size)).

Definition LoaderMtproto_new (size : Z) : LoaderMtproto := mk_stream size 0 PriorityQueue_new false [].

#[export] Instance stream_loader : Loader LoaderMtproto := {
  readyToRequest _ l := negb (bool_decide (queued (requestedParts l) = []));
  takeNextRequestOffset _ l := r <-? take_first (requestedParts l) ; Some (r.1, set_requested r.2 l);
  feedPart _ o bytes l := Some (fire_part o bytes l, [], true);
  setWebFileSizeHook _ l := (l, [], true);
  cancelOnFail l := (fire_part kFailedOffset [] l, []) }.

Definition wanted (l : LoaderMtproto) : list Z := value <$> queued (requestedParts l).
Definition stream_sound (l : LoaderMtproto) : Prop := queue_ok (requestedParts l) /\ -1 <= streamPriority l.

#[export] Instance stream_loader_laws : LoaderLaws LoaderMtproto.
Proof.
  refine (Build_LoaderLaws _ _ stream_sound (fun l o => o ∈ wanted l) (fun _ => True) _ _ _ _); simpl.
  - intros have l [Hq Hp] Hr. split; [done|]. destruct (take_first (requestedParts l)) as [[v q]|] eqn:E.
    + destruct (take_first_ok _ _ _ Hq E) as (H1 & H2 & H3). exists v, (set_requested q l). by split_and!.
    + unfold take_first in E. apply negb_true_iff, bool_decide_eq_false in Hr. by destruct (queued _).
  - intros have o bytes l Hs _. eexists _, _, _. split; [done|]. split; [done|]. split; [done|]. split; [by intros ?%not_elem_of_nil|by left].
  - intros size l Hs _. split_and!; try done. by intros ?%not_elem_of_nil.
  - intros l Hs. split_and!; try done; [by intros ?%not_elem_of_nil|by left].
Defined.

(** ** Tasks of either kind *)

Section Either.
Context {A B : Type} `{!Loader A, !Loader B}.

#[export] Instance either_loader : Loader (A + B) := {
  readyToRequest have l := match l with inl a => readyToRequest have a | inr b => readyToRequest have b end;
  takeNextRequestOffset have l := match l with
    | inl a => r <-? takeNextRequestOffset have a ; Some (r.1, inl r.2)
    | inr b => r <-? takeNextRequestOffset have b ; Some (r.1, inr r.2)
    end;
  feedPart have o bytes l := match l with
    | inl a => r <-? feedPart have o bytes a ; Some (inl r.1.1, r.1.2, r.2)
    | inr b => r <-? feedPart have o bytes b ; Some (inr r.1.1, r.1.2, r.2)
    end;
  setWebFileSizeHook size l := match l with
    | inl a => let r := setWebFileSizeHook size a in (inl r.1.1, r.1.2, r.2)
    | inr b => let r := setWebFileSizeHook size b in (inr r.1.1, r.1.2, r.2)
    end;
  cancelOnFail l := match l with
    | inl a => let r := cancelOnFail a in (inl r.1, r.2)
    | inr b => let r := cancelOnFail b in (inr r.1, r.2)
    end }.

Context `{!LoaderLaws A, !LoaderLaws B}.

#[export] Instance either_loader_laws : LoaderLaws (A + B).
Proof.
  refine (Build_LoaderLaws _ _ (fun l => match l with inl a => sound a | inr b => sound b end)
    (fun l o => match l with inl a => wants a o | inr b => wants b o end)
    (fun l => match l with inl a => alive a | inr b => alive b end) _ _ _ _).
  - intros have [a|b] Hs Hr; simpl in *.
    + destruct (take_ok have a Hs Hr) as (Ha & o & a' & -> & H). split; [done|]. by exists o, (inl a').
    + destruct (take_ok have b Hs Hr) as (Hb & o & b' & -> & H). split; [done|]. by exists o, (inr b').
  - intros have o bytes [a|b] Hs Ha; simpl in *.
    + destruct (feed_ok have o bytes a Hs Ha) as (a' & effects & ok & -> & H). by exists (inl a'), effects, ok.
    + destruct (feed_ok have o bytes b Hs Ha) as (b' & effects & ok & -> & H). by exists (inr b'), effects, ok.
  - intros size [a|b] Hs Ha; simpl in *; by apply hook_ok.
  - intros [a|b] Hs; simpl in *; by apply cancel_ok.
Defined.
End Either.

(** ** What is done to loaders *)

Section Loaders.
Context (can_open : list Z -> bool) (can_write : Z -> list Z -> bool) (hole : Z) (readLoadedPart : Z -> list Z) (now : Z).

#[local] Existing Instance file_loader.
#[local] Existing Instance file_loader_laws.
#[local] Instance files : Loader FileLoader := file_loader can_open can_write hole.
#[local] Instance files_laws : LoaderLaws FileLoader := file_loader_laws can_open can_write hole.

Definition task_loader : Type := FileLoader + LoaderMtproto.
Definition as_file (l : task_loader) : option FileLoader := match l with inl f => Some f | inr _ => None end.
Definition as_stream (l : task_loader) : option LoaderMtproto := match l with inr s => Some s | inl _ => None end.
Implicit Types (w : manager task_loader) (d : Task task_loader).

Definition the_stream (t : Z) : M (manager task_loader) (Task task_loader * LoaderMtproto) :=
  d <- the_task t ;; l <- lift (as_stream (loader d)) ;; ret (d, l).

Definition put (t : Z) (l : task_loader) : M (manager task_loader) unit := change_task t (set_loader l).

(** [FileLoader::cancel()] and [increaseLoadSize] *)
Definition cancelFile (t : Z) : M (manager task_loader) unit :=
  l <- the_loader as_file t ;;
  let r := cancel false l.1 in
  each (applyEffect now t) r.2 ;;; put t (inl r.1).

Definition increaseLoadSizeOf (t n : Z) (auto : bool) : M (manager task_loader) unit :=
  l <- the_loader as_file t ;; l' <- lift (increaseLoadSize n auto l.1) ;; put t (inl l').

Definition addToQueueWithPriority (t : Z) : M (manager task_loader) unit :=
  dl <- the_stream t ;; enqueueTask now t (streamPriority dl.2).

Definition cancelForOffset (t o : Z) : M (manager task_loader) unit :=
  dl <- the_stream t ;;
  if haveSentRequestForOffset o dl.1 then
    cancelRequestForOffset now t o ;;;
    if bool_decide (queued (requestedParts dl.2) = []) then ret tt else addToQueueWithPriority t
  else put t (inr (set_requested (remove_value o (requestedParts dl.2)).1 dl.2)).

(** A part the download has is given at once. *)
Definition loadStreamPart (t o : Z) : M (manager task_loader) unit :=
  dl <- the_stream t ;;
  let bytes := if attached dl.2 then readLoadedPart o else [] in
  if negb (bool_decide (bytes = [])) then
    cancelForOffset t o ;;;
    dl <- the_stream t ;;
    put t (inr (fire_part o bytes dl.2))
  else if haveSentRequestForOffset o dl.1 then ret tt
  else
    let r := add o (requestedParts dl.2) in
    put t (inr (set_requested r.1 dl.2)) ;;;
    if r.2 then addToQueueWithPriority t else ret tt.

Definition stop (t : Z) : M (manager task_loader) unit :=
  dl <- the_stream t ;;
  cancelAllRequests now t ;;;
  put t (inr (set_requested (clear (requestedParts dl.2)) dl.2)) ;;;
  removeTask now t.

Definition tryRemoveFromQueue (t : Z) : M (manager task_loader) unit :=
  dl <- the_stream t ;;
  if bool_decide (queued (requestedParts dl.2) = []) && negb (haveSentRequests dl.1) then removeTask now t else ret tt.

Definition setPriority (t p : Z) : M (manager task_loader) unit :=
  dl <- the_stream t ;;
  if streamPriority dl.2 =? p then ret tt else
  put t (inr (set_stream_priority p dl.2)) ;;;
  if haveSentRequests dl.1 then addToQueueWithPriority t else ret tt.

Definition resetPrioritiesOf (t : Z) : M (manager task_loader) unit :=
  dl <- the_stream t ;; put t (inr (set_requested (resetPriorities (requestedParts dl.2)) dl.2)).

Definition attachDownloader (t : Z) (b : bool) : M (manager task_loader) unit :=
  dl <- the_stream t ;; put t (inr (set_attached b dl.2)).

Inductive loader_operation :=
  | Start (t : Z) | LocalLoaded (t : Z) (bytes : list Z) | CancelFile (t : Z) | DestroyFile (t : Z) | IncreaseLoadSize (t n : Z) (auto : bool)
  | LoadPart (t o : Z) | CancelPart (t o : Z) | Stop (t : Z) | TryRemove (t : Z) | SetPriority (t p : Z) | ResetParts (t : Z)
  | Attach (t : Z) (b : bool).

Definition run_loader (op : loader_operation) : M (manager task_loader) unit :=
  match op with
  | Start t => startTask can_open now as_file inl t
  | LocalLoaded t bytes => localLoadedTask can_open can_write hole now as_file inl t bytes
  | CancelFile t => cancelFile t
  | DestroyFile t => destroyTask now as_file inl t
  | IncreaseLoadSize t n auto => increaseLoadSizeOf t n auto
  | LoadPart t o => loadStreamPart t o
  | CancelPart t o => cancelForOffset t o
  | Stop t => stop t
  | TryRemove t => tryRemoveFromQueue t
  | SetPriority t p => setPriority t p
  | ResetParts t => resetPrioritiesOf t
  | Attach t b => attachDownloader t b
  end.

(** The cache answers while nothing has been asked of the server. *)
Definition loader_allowed (op : loader_operation) w : Prop :=
  match op with
  | Start t | CancelFile t | DestroyFile t => exists d l, tasks w !! t = Some d /\ loader d = inl l
  | LocalLoaded t _ => exists d l, tasks w !! t = Some d /\ loader d = inl l /\ sentRequests d = ∅ /\ finished_ l = false
  | IncreaseLoadSize t n _ => exists d l, tasks w !! t = Some d /\ loader d = inl l /\ loadSize l < n <= fullSize l
  | LoadPart t _ | CancelPart t _ | Stop t | TryRemove t | ResetParts t | Attach t _ => exists d l, tasks w !! t = Some d /\ loader d = inr l
  | SetPriority t p => -1 <= p /\ exists d l, tasks w !! t = Some d /\ loader d = inr l
  end.

End Loaders.
