(* ===== verification/LoaderSystem.v ===== *)
(** * Loaders at work

    What is done to loaders from outside never fails, and leads where the
    manager's own operations lead. *)

From S2P Require Import Prelude Text DownloadQueue StateMonad Download DownloadFacts DownloadSend DownloadRemove DownloadSystem FileLoader FileFacts Streaming Loaders.

(** ** Steps of the manager *)

Section Reach.
Context {L : Type} `{!Loader L, !LoaderLaws L} (now : Z).
Implicit Types (w : manager L) (d : Task L).

Lemma reach (op : operation L) w (P : manager L -> Prop) : reached now w -> allowed op w -> wp (run now op) (fun _ => P) w ->
  wp (run now op) (fun _ w' => reached now w' /\ P w') w.
Proof.
  intros Hr Ha Hp. unfold wp in *. destruct (run now op w) as [[[] w']|] eqn:E; [|done]. split; [|done]. by eapply reached_step.
Qed.

Lemma put_reached w (t : Z) d (l : L) : reached now w -> tasks w !! t = Some d -> sound l ->
  (forall o, wants l o -> requestByOffset d !! o = None) -> (sentRequests d <> ∅ -> alive l) ->
  wp (change_task t (set_loader l)) (fun _ w' => reached now w' /\ tasks w' !! t = Some (set_loader l d)) w.
Proof.
  intros Hr Ht Hs Hw Ha. apply (reach (Change t l) w); [done|by exists d|]. apply wp_modify. simpl. by rewrite lookup_alter_eq, Ht.
Qed.

Lemma enqueue_reached w (t p : Z) d : reached now w -> tasks w !! t = Some d -> -1 <= p ->
  wp (enqueueTask now t p) (fun _ w' => reached now w' /\ exists d', tasks w' !! t = Some d' /\ taken (loader d) (loader d')) w.
Proof.
  intros Hr Ht Hp. apply (reach (Enqueue t p) w); [done|split; [by exists d|done]|].
  eapply wp_mono; [by apply (enqueueTask_ok now w t p d (reached_inv _ _ Hr))|]. intros [] w' (_ & _ & _ & H). by apply H.
Qed.

Lemma leave_reached w (t : Z) d : reached now w -> tasks w !! t = Some d -> sentRequests d = ∅ ->
  wp (removeTask now t) (fun _ w' => reached now w' /\ tasks w' !! t = Some d) w.
Proof.
  intros Hr Ht Hs. apply (reach (Leave t) w); [done|by exists d|]. eapply wp_mono; [by apply (removeTask_ok now w t d (reached_inv _ _ Hr))|].
  intros [] w'. tauto.
Qed.

Lemma cancelAll_reached w (t : Z) d : reached now w -> tasks w !! t = Some d ->
  wp (cancelAllRequests now t) (fun _ w' => reached now w' /\ tasks w' !! t = Some (set_sent ∅ ∅ d)) w.
Proof.
  intros Hr Ht. apply (reach (CancelRequests t) w); [done|by exists d|].
  eapply wp_mono; [by apply (cancelAllRequests_ok now None w t d (reached_inv _ _ Hr))|]. intros [] w' (_ & _ & ->). by rewrite lookup_insert_eq.
Qed.

Lemma offset_reached w (t o : Z) d : reached now w -> tasks w !! t = Some d ->
  wp (cancelRequestForOffset now t o) (fun _ w' => reached now w' /\ exists d', tasks w' !! t = Some d' /\ loader d' = loader d) w.
Proof.
  intros Hr Ht. apply (reach (CancelOffset t o) w); [done|by exists d|].
  eapply wp_mono; [by apply (cancelRequestForOffset_ok now w t o d (reached_inv _ _ Hr))|]. by intros [] w' [].
Qed.

Lemma destroy_reached w (t : Z) d : reached now w -> tasks w !! t = Some d -> wp (destroy now t) (fun _ => reached now) w.
Proof.
  intros Hr Ht. eapply wp_mono; [apply (reach (Destroy t) w (fun _ => True)); [done|by exists d|]|by intros [] w' []].
  eapply wp_mono; [apply (run_ok now _ _ (reached_inv _ _ Hr)); by exists d|done].
Qed.

Lemma effects_reached (t : Z) d (effects : list effect) : (RemoveFromQueue ∈ effects -> sentRequests d = ∅) ->
  forall w m o, reached now w -> tasks w !! t = Some (set_sent m o d) -> (sentRequests d = ∅ -> m = ∅) ->
  wp (each (applyEffect now t) effects) (fun _ w' => reached now w' /\ exists m' o', tasks w' !! t = Some (set_sent m' o' d)
    /\ (m = ∅ -> m' = ∅) /\ (CancelAll ∈ effects -> m' = ∅)) w.
Proof.
  induction effects as [|x l IH]; intros Hleave w m o H Ht Hm; cbn [each].
  - split; [done|]. exists m, o. split_and!; [done|done|by intros ?%not_elem_of_nil].
  - assert (wp (applyEffect now t x) (fun _ w' => reached now w' /\ exists m1 o1, tasks w' !! t = Some (set_sent m1 o1 d)
      /\ (m = ∅ -> m1 = ∅) /\ (x = CancelAll -> m1 = ∅)) w) as Hx.
    { destruct x; cbn [applyEffect].
      - eapply wp_mono; [apply (leave_reached w t _ H Ht); apply Hm, Hleave; by left|].
        intros [] w' (H' & Ht'). split; [done|]. by exists m, o.
      - eapply wp_mono; [by apply (cancelAll_reached w t _ H Ht)|]. intros [] w' (H' & Ht'). split; [done|]. by exists ∅, ∅. }
    apply wp_bind. eapply wp_mono; [exact Hx|]. intros [] w1 (H1 & m1 & o1 & Ht1 & Hm1 & Hc1).
    eapply wp_mono; [apply (IH ltac:(intros; apply Hleave; by right) w1 m1 o1 H1 Ht1); auto|].
    intros [] w2 (H2 & m2 & o2 & Ht2 & Hm2 & Hc2). split; [done|]. exists m2, o2. split_and!; [done|auto|].
    intros [<-|Hin]%elem_of_cons; auto.
Qed.

(** What a loader calls, then what it has become. *)
Lemma settled_reached w (t : Z) d (effects : list effect) (l : L) : reached now w -> tasks w !! t = Some d -> sound l ->
  (RemoveFromQueue ∈ effects -> sentRequests d = ∅) ->
  (forall x, wants l x -> wants (loader d) x \/ sentRequests d = ∅) -> (sentRequests d = ∅ \/ alive l \/ CancelAll ∈ effects) ->
  wp (each (applyEffect now t) effects ;;; change_task t (set_loader l)) (fun _ w' => reached now w' /\ is_Some (tasks w' !! t)) w.
Proof.
  intros H Ht Hs Hleave Hw Hend. apply wp_bind.
  assert (tasks w !! t = Some (set_sent (sentRequests d) (requestByOffset d) d)) as Ht0 by (by destruct d).
  eapply wp_mono; [by apply (effects_reached t d effects Hleave w _ _ H Ht0)|]. intros [] w' (H' & m & o & Ht' & Hm & Hc).
  pose proof (inv_task _ _ _ (reached_inv _ _ H') _ _ Ht') as G.
  eapply wp_mono; [apply (put_reached w' t _ l H' Ht' Hs)|intros [] w2 [? ->]; by split].
  - intros x Hx. destruct (Hw x Hx) as [Hx'|E]; [by apply (task_wants _ _ _ G)|]. by rewrite (no_offsets _ _ _ G (Hm E)).
  - intros Hne. simpl in Hne. destruct Hend as [E|[|Hin]]; [|done|]; destruct Hne; auto.
Qed.
End Reach.

(** ** Steps of loaders *)

Section Operations.
Context (can_open : list Z -> bool) (can_write : Z -> list Z -> bool) (hole : Z) (readLoadedPart : Z -> list Z) (now : Z).

#[local] Instance the_files : Loader FileLoader := files can_open can_write hole.
#[local] Instance the_files_laws : LoaderLaws FileLoader := files_laws can_open can_write hole.
Implicit Types (w : manager task_loader) (d : Task task_loader).

Lemma start_ends (l : FileLoader) : nextRequestOffset (start can_open l).1.1 = nextRequestOffset l
  /\ (start can_open l).1.2 ⊆ [CancelAll] /\ (finished_ (start can_open l).1.1 = finished_ l \/ CancelAll ∈ (start can_open l).1.2).
Proof.
  unfold start, tryLoadLocal, checkForOpen.
  destruct (finished_ l) eqn:Ef; [by split_and!; [|apply list_subseteq_nil|left]|].
  destruct (localStatus l); try destruct (toCache l); try destruct (hasCacheKey l); cbn; try destruct (localLoading l); cbn; try destruct (fromCloud l); cbn;
    repeat match goal with |- context [if ?b then _ else _] => destruct b; cbn end;
    split_and!; rewrite ?Ef; try done; try apply list_subseteq_nil; try (by left); right; by left.
Qed.

Lemma checkForOpen_opened (l l' : FileLoader) (effects : list effect) : checkForOpen can_open l = (l', effects, true) ->
  finished_ l' = finished_ l.
Proof. unfold checkForOpen. destruct (_ || _); [by intros [= <- _]|]. destruct (can_open _); [by intros [= <- _]|by destruct (cancel true l)]. Qed.

Lemma localLoaded_ends (have : bool) (bytes : list Z) (l : FileLoader) : finished_ l = false ->
  is_Some (localLoaded can_open can_write hole have bytes l).
Proof.
  intros Hf. unfold localLoaded. case_bool_decide; [by eexists|]. destruct (_ && _) eqn:Ep; [|by eexists].
  apply andb_true_iff in Ep as [Hp%bool_decide_eq_true _].
  destruct (checkForOpen _ _) as [[l' e] opened] eqn:Eo. destruct opened; [|by eexists].
  apply checkForOpen_opened in Eo. cbn in Eo. unfold startLoadingWithPartial. rewrite bool_decide_eq_true_2 by done. cbn [negb].
  match goal with |- context [if 0 <? ?u then _ else _] => set (use := u) end. destruct (0 <? use); [|by eexists].
  match goal with |- context [feedPart_ _ _ _ _ _ ?b ?x] => destruct (@feed_ok FileLoader _ the_files_laws have 0 b x I) as (l2 & e2 & ok & E & _) end;
    [by cbn; rewrite Eo|]. change (feedPart_ can_open can_write hole) with (@feedPart FileLoader the_files). rewrite E. by eexists.
Qed.

(** Who the task is. *)
Lemma loader_step w (t : Z) d (l : FileLoader) : tasks w !! t = Some d -> loader d = inl l ->
  the_loader as_file t w = Some ((l, haveSentRequests d), w).
Proof. intros Ht El. unfold the_loader, bind, the_task. rewrite Ht. unfold lift. by rewrite El. Qed.

Lemma stream_step w (t : Z) d (l : LoaderMtproto) : tasks w !! t = Some d -> loader d = inr l -> the_stream t w = Some ((d, l), w).
Proof. intros Ht El. unfold the_stream, bind, the_task. rewrite Ht. unfold lift. by rewrite El. Qed.

Lemma stream_facts w (t : Z) d (l : LoaderMtproto) : reached now w -> tasks w !! t = Some d -> loader d = inr l ->
  stream_sound l /\ forall o, o ∈ wanted l -> requestByOffset d !! o = None.
Proof.
  intros Hr Ht El. pose proof (inv_task _ _ _ (reached_inv _ _ Hr) _ _ Ht) as [_ _ G3 _ G5 _]. rewrite El in *. split; [exact G5|exact G3].
Qed.

(** A player's loader with other parts asked for. *)
Lemma put_stream w (t : Z) d (l l' : LoaderMtproto) : reached now w -> tasks w !! t = Some d -> loader d = inr l -> stream_sound l' ->
  (forall o, o ∈ wanted l' -> o ∈ wanted l \/ requestByOffset d !! o = None) ->
  wp (put t (inr l')) (fun _ w' => reached now w' /\ tasks w' !! t = Some (set_loader (inr l' : task_loader) d)) w.
Proof.
  intros Hr Ht El Hs Hw. destruct (stream_facts w t d l Hr Ht El) as [_ Hold]. apply (put_reached now w t d); [done|done|done| |done].
  intros o Ho. destruct (Hw o Ho) as [H|H]; [by apply Hold|done].
Qed.

(** The task stays a player's. *)
Definition streams (t : Z) w : Prop := exists d l, tasks w !! t = Some d /\ loader d = inr l.

Lemma taken_stream (x y : task_loader) : taken x y -> (exists l, x = inr l) -> exists l, y = inr l.
Proof.
  induction 1 as [|x y z (have & o & E) _ IH]; [done|]. intros [l ->]. apply IH. simpl in E. unfold either_loader in E. simpl in E.
  destruct (take_first _) as [[v q]|]; [|done]. injection E as _ <-. by eexists.
Qed.

Lemma enqueue_stream w (t : Z) d (l : LoaderMtproto) : reached now w -> tasks w !! t = Some d -> loader d = inr l -> -1 <= streamPriority l ->
  wp (addToQueueWithPriority can_open can_write hole now t) (fun _ w' => reached now w' /\ streams t w') w.
Proof.
  intros Hr Ht El Hp. unfold addToQueueWithPriority. eapply wp_step; [by eapply stream_step|].
  eapply wp_mono; [by apply (enqueue_reached now w t _ d)|]. intros [] w' (H' & d' & Ht' & Htk). split; [done|].
  destruct (taken_stream _ _ Htk) as [l' El']; [by exists l|]. by exists d', l'.
Qed.

Lemma cancelForOffset_reached w (t o : Z) d (l : LoaderMtproto) : reached now w -> tasks w !! t = Some d -> loader d = inr l ->
  wp (cancelForOffset can_open can_write hole now t o) (fun _ w' => reached now w' /\ streams t w') w.
Proof.
  intros Hr Ht El. destruct (stream_facts w t d l Hr Ht El) as [[Hq Hp] _]. unfold cancelForOffset. eapply wp_step; [by eapply stream_step|]. cbn [fst snd].
  destruct (haveSentRequestForOffset o d).
  - apply wp_bind. eapply wp_mono; [by apply (offset_reached now w t o d)|]. intros [] w1 (H1 & d1 & Ht1 & El1).
    case_bool_decide; [split; [done|exists d1, l; split; [done|congruence]]|]. apply (enqueue_stream w1 t d1 l); [done|done|congruence|done].
  - destruct (remove_ok o (requestedParts l) Hq) as [Hq' Hin]. eapply wp_mono; [eapply (put_stream w t d l); [done|done|done|by split|]|].
    + intros x (y & -> & Hy)%list_elem_of_fmap. left. apply list_elem_of_fmap_2, Hin, Hy.
    + intros [] w' [H' Ht']. split; [done|]. by eexists _, _.
Qed.

(** A file's loader after what it calls. *)
Lemma settle_file w (t : Z) d (l l' : FileLoader) (effects : list effect) : reached now w -> tasks w !! t = Some d -> loader d = inl l ->
  (RemoveFromQueue ∈ effects -> sentRequests d = ∅) -> (nextRequestOffset l <= nextRequestOffset l' \/ sentRequests d = ∅) ->
  (sentRequests d = ∅ \/ finished_ l' = false \/ CancelAll ∈ effects) ->
  wp (each (applyEffect now t) effects ;;; change_task t (set_loader (inl l' : task_loader)))
    (fun _ w' => reached now w' /\ is_Some (tasks w' !! t)) w.
Proof.
  intros Hr Ht El Hleave Hn Hend. apply (settled_reached now w t d); [done|done|done|done| |done].
  intros x Hx. rewrite El. simpl in *. destruct Hn as [Hn|Hn]; [left; lia|by right].
Qed.

Lemma file_alive w (t : Z) d (l : FileLoader) : reached now w -> tasks w !! t = Some d -> loader d = inl l ->
  sentRequests d = ∅ \/ finished_ l = false.
Proof.
  intros Hr Ht El. destruct (decide (sentRequests d = ∅)) as [|Hne]; [by left|right].
  pose proof (task_alive _ _ _ (inv_task _ _ _ (reached_inv _ _ Hr) _ _ Ht) Hne) as Ha. by rewrite El in Ha.
Qed.

Lemma start_reached w (t : Z) d (l : FileLoader) : reached now w -> tasks w !! t = Some d -> loader d = inl l ->
  wp (startTask can_open now as_file inl t) (fun _ => reached now) w.
Proof.
  intros Hr Ht El. unfold startTask. eapply wp_step; [by eapply loader_step|]. cbv zeta. cbn [fst].
  destruct (start_ends l) as (En & He & Hf). set (r := start can_open l) in *. apply wp_assoc, wp_bind.
  eapply wp_mono; [apply (settle_file w t d l r.1.1 r.1.2); try done; [|by rewrite En; left|]|].
  - intros Hin%He. by apply list_elem_of_singleton in Hin.
  - destruct (file_alive w t d l Hr Ht El); [by left|]. destruct Hf as [->|]; auto.
  - intros [] w' [Hr' Ht']. destruct r.2; [|done].
    destruct Ht' as [d' Ht']. eapply wp_mono; [by apply (enqueue_reached now w' t 0 d')|]. by intros [] w2 [].
Qed.

Lemma localLoaded_reached w (t : Z) (bytes : list Z) d (l : FileLoader) : reached now w -> tasks w !! t = Some d -> loader d = inl l ->
  sentRequests d = ∅ -> finished_ l = false ->
  wp (localLoadedTask can_open can_write hole now as_file inl t bytes) (fun _ => reached now) w.
Proof.
  intros Hr Ht El Hs Hf. unfold localLoadedTask. eapply wp_step; [by eapply loader_step|]. cbn [fst snd].
  destruct (localLoaded_ends (haveSentRequests d) bytes l Hf) as [r E]. eapply wp_step; [unfold lift; by rewrite E|].
  apply wp_assoc, wp_bind. eapply wp_mono; [apply (settle_file w t d l r.1.1 r.1.2); auto|].
  intros [] w' [Hr' Ht']. destruct r.2; [|done].
    destruct Ht' as [d' Ht']. eapply wp_mono; [by apply (enqueue_reached now w' t 0 d')|]. by intros [] w2 [].
Qed.

Lemma cancelFile_reached w (t : Z) d (l : FileLoader) : reached now w -> tasks w !! t = Some d -> loader d = inl l ->
  wp (each (applyEffect now t) (cancel false l).2 ;;; change_task t (set_loader (inl (cancel false l).1 : task_loader)))
    (fun _ w' => reached now w' /\ is_Some (tasks w' !! t)) w.
Proof.
  intros Hr Ht El. destruct (cancel_ends false l) as (En & _ & _). apply (settle_file w t d l); try done.
  - by intros ?%list_elem_of_singleton.
  - left. by rewrite En.
  - right. right. by left.
Qed.

Lemma stream_reached w (t : Z) d (l : LoaderMtproto) (op : loader_operation) : reached now w -> tasks w !! t = Some d -> loader d = inr l ->
  match op with
  | LoadPart t' _ | CancelPart t' _ | Stop t' | TryRemove t' | ResetParts t' | Attach t' _ => t' = t
  | SetPriority t' p => t' = t /\ -1 <= p
  | _ => False
  end -> wp (run_loader can_open can_write hole readLoadedPart now op) (fun _ => reached now) w.
Proof.
  intros Hr Ht El Hop. destruct (stream_facts w t d l Hr Ht El) as [[Hq Hp] Hw]. pose proof (stream_step w t d l Ht El) as Hstep.
  destruct op as [| | | | |t' o|t' o|t'|t'|t' p|t'|t' b]; try done; cbn [run_loader].
  - subst t'. unfold loadStreamPart. eapply wp_step; [done|]. cbn [fst snd]. destruct (negb _).
    + apply wp_bind. eapply wp_mono; [by eapply cancelForOffset_reached|]. intros [] w1 (H1 & d1 & l1 & Ht1 & El1).
      eapply wp_step; [by eapply stream_step|]. destruct (stream_facts w1 t d1 l1 H1 Ht1 El1) as [Hs1 _].
      eapply wp_mono; [eapply (put_stream w1 t d1 l1); [done|done|done|done|by left]|by intros [] w2 []].
    + destruct (haveSentRequestForOffset o d) eqn:Eh; [done|]. cbv zeta. destruct (add_ok o _ Hq) as [Hq' _]. apply wp_bind.
      eapply wp_mono; [apply (put_stream w t d l); [done|done|done|by split|]|].
      * intros x (y & -> & Hy)%list_elem_of_fmap. apply add_elem in Hy as [->|[Hy _]]; [right; simpl|left; by apply list_elem_of_fmap_2|done].
        unfold haveSentRequestForOffset in Eh. apply orb_false_iff in Eh as [Eh _]. apply bool_decide_eq_false in Eh. by apply eq_None_not_Some.
      * intros [] w1 [H1 Ht1]. destruct (add _ _).2; [|done]. eapply wp_mono; [by eapply enqueue_stream|]. by intros [] w2 [].
  - subst t'. eapply wp_mono; [by eapply cancelForOffset_reached|]. by intros [] w2 [].
  - subst t'. unfold stop. eapply wp_step; [done|]. cbn [fst snd]. apply wp_bind. eapply wp_mono; [by apply cancelAll_reached|].
    intros [] w1 [H1 Ht1]. apply wp_bind. eapply wp_mono; [eapply (put_stream w1 t _ l); [done|done|done| |]|].
    + split; [split; constructor|done].
    + by intros x ?%not_elem_of_nil.
    + intros [] w2 [H2 Ht2]. eapply wp_mono; [by eapply leave_reached|]. by intros [] w3 [].
  - subst t'. unfold tryRemoveFromQueue. eapply wp_step; [done|]. cbn [fst snd]. destruct (_ && _) eqn:E; [|done].
    apply andb_true_iff in E as [_ E%negb_true_iff%have_none]. eapply wp_mono; [by eapply leave_reached|]. by intros [] w3 [].
  - destruct Hop as [-> Hpp]. unfold setPriority. eapply wp_step; [done|]. cbn [fst snd]. case_match; [done|]. apply wp_bind.
    eapply wp_mono; [eapply (put_stream w t d l); [done|done|done|by split|by left]|].
    intros [] w1 [H1 Ht1]. case_match; [|done]. eapply wp_mono; [by eapply enqueue_stream|]. by intros [] w2 [].
  - subst t'. unfold resetPrioritiesOf. eapply wp_step; [done|]. cbn [fst snd].
    eapply wp_mono; [eapply (put_stream w t d l); [done|done|done|split; [by apply reset_ok|done]|by left]|by intros [] w1 []].
  - subst t'. unfold attachDownloader. eapply wp_step; [done|]. cbn [fst snd].
    eapply wp_mono; [eapply (put_stream w t d l); [done|done|done|by split|by left]|by intros [] w1 []].
Qed.

Lemma run_loader_ok w (op : loader_operation) : reached now w -> loader_allowed op w ->
  wp (run_loader can_open can_write hole readLoadedPart now op) (fun _ => reached now) w.
Proof.
  intros Hr Ha. destruct op; simpl in Ha; try (destruct Ha as (d & l & Ht & El); by apply (stream_reached w t d l)); cbn [run_loader].
  - destruct Ha as (d & l & Ht & El). by eapply start_reached.
  - destruct Ha as (d & l & Ht & El & Hs & Hf). by eapply localLoaded_reached.
  - destruct Ha as (d & l & Ht & El). unfold cancelFile. eapply wp_step; [by eapply loader_step|]. cbv zeta. cbn [fst].
    eapply wp_mono; [by eapply cancelFile_reached|]. by intros [] w' [].
  - destruct Ha as (d & l & Ht & El). unfold destroyTask. eapply wp_step; [by eapply loader_step|]. cbn [fst]. apply wp_bind.
    destruct (finished_ l); [by eapply destroy_reached|]. eapply wp_mono; [by eapply cancelFile_reached|].
    intros [] w' [H' [d' Ht']]. by eapply destroy_reached.
  - destruct Ha as (d & l & Ht & El & Hn). unfold increaseLoadSizeOf. eapply wp_step; [by eapply loader_step|]. cbn [fst].
    unfold increaseLoadSize. rewrite (proj2 (Z.ltb_lt _ _)), (proj2 (Z.leb_le _ _)) by lia. cbn [andb]. eapply wp_step; [done|].
    eapply wp_mono; [apply (settle_file w t d l (set_sizes n (fullSize l) auto l) []); try done|by intros [] w' []].
    + by intros ?%not_elem_of_nil.
    + by left.
    + destruct (file_alive w t d l Hr Ht El); auto.
  - destruct Ha as (Hp & d & l & Ht & El). by apply (stream_reached w t d l (SetPriority t p)).
Qed.

(** With these loaders. *)
Definition reached_with : Z -> manager task_loader -> Prop := reached.

End Operations.

(** C28. What is done to the loaders of files and players never fails, and leaves the
    manager as its own operations could have. *)
Theorem loaders_never_fail can_open can_write hole readLoadedPart (now : Z) (w : manager task_loader) (op : loader_operation) :
  reached_with can_open can_write hole now w -> loader_allowed op w ->
  exists w', run_loader can_open can_write hole readLoadedPart now op w = Some (tt, w')
  /\ reached_with can_open can_write hole now w' /\ accounted w'.
Proof.
  intros Hr Ha. pose proof (run_loader_ok can_open can_write hole readLoadedPart now w op Hr Ha) as Hok. unfold wp in Hok.
  destruct (run_loader _ _ _ _ _ op w) as [[[] w']|]; [|done]. exists w'. split; [done|]. split; [exact Hok|].
  eapply inv_accounted, reached_inv. exact Hok.
Qed.
