(* ===== verification/DownloadExample.v ===== *)
(** * Downloads: concrete runs

    A player that downloads twelve parts of a file, as a script of operations:
    the theorems of [DownloadSystem] and [LoaderSystem] at work, and a run of
    the content network that fails. *)

From S2P Require Import Prelude Ids Text Errors DownloadQueue StateMonad Download DownloadFacts DownloadSend DownloadRemove DownloadSystem FileLoader FileFacts Streaming Loaders LoaderSystem.

Definition offsets (n : nat) : list Z := (fun i => Z.of_nat i * kDownloadPartSize) <$> seq 0 n.

Definition player : LoaderMtproto := set_requested (add_all (offsets 12) PriorityQueue_new) (LoaderMtproto_new (12 * kDownloadPartSize)).

Lemma player_sound : stream_sound player.
Proof. split; [|done]. apply add_all_ok. split; constructor. Qed.

Definition allowed_now (op : operation LoaderMtproto) (w : manager LoaderMtproto) : bool :=
  match op with
  | Enqueue t p => bool_decide (is_Some (tasks w !! t)) && (-1 <=? p)
  | PartLoaded t _ id => match tasks w !! t with Some d => bool_decide (is_Some (sentRequests d !! id)) | None => false end
  | TimedOut _ _ => true
  | _ => false
  end.

Fixpoint play (now : Z) (l : list (Z * operation LoaderMtproto)) (w : manager LoaderMtproto) : option (Z * manager LoaderMtproto) :=
  match l with
  | [] => Some (now, w)
  | (later, op) :: l =>
      if (now <=? later) && allowed_now op w then r <-? run later op w ; play later l r.2 else None
  end.

Lemma allowed_now_ok (op : operation LoaderMtproto) (w : manager LoaderMtproto) : allowed_now op w = true -> allowed op w.
Proof.
  destruct op; simpl; try done.
  - intros [H%bool_decide_eq_true Hp]%andb_true_iff. split; [done|]. by apply Z.leb_le.
  - destruct (tasks w !! t) as [d|] eqn:E; [|done]. intros [r Hr]%bool_decide_eq_true. by exists d, r.
Qed.

Lemma play_reached (l : list (Z * operation LoaderMtproto)) (now later : Z) (w w' : manager LoaderMtproto) : reached now w ->
  play now l w = Some (later, w') -> reached later w'.
Proof.
  revert now w. induction l as [|[t op] l IH]; intros now w Hr; simpl; [by intros [= <- <-]|].
  destruct (_ && _) eqn:E; [|done]. apply andb_true_iff in E as [Ht%Z.leb_le Ha%allowed_now_ok].
  destruct (run t op w) as [[[] w1]|] eqn:Er; [|done]. apply IH. by eapply reached_step.
Qed.

Definition with_player : manager LoaderMtproto :=
  match run 0 (Create 1 2 false [] player) (manager_new 0) with Some (_, w) => w | None => manager_new 0 end.

Lemma with_player_reached : reached 0 with_player.
Proof.
  apply (reached_step 0 0 (Create 1 2 false [] player) (manager_new 0)); [by constructor|done| |reflexivity].
  split; [done|apply player_sound].
Qed.

(** In line, three parts answered in time: a session is added. *)
Definition two_sessions : list (Z * operation LoaderMtproto) :=
  [(1, Enqueue 1 0); (2, PartLoaded 1 [0] 1); (3, PartLoaded 1 [0] 2); (4, PartLoaded 1 [0] 3)].
Definition timeouts_3 : list (Z * operation LoaderMtproto) := [(5, TimedOut 2 0); (6, TimedOut 2 0); (7, TimedOut 2 1)].

(** Where a script leads, and what can be computed there. *)
Lemma played {A} (l : list (Z * operation LoaderMtproto)) (f : Z -> manager LoaderMtproto -> A) (a : A) :
  (fun x => f x.1 x.2) <$> play 0 l with_player = Some a -> exists now w, reached now w /\ f now w = a.
Proof.
  destruct (play 0 l with_player) as [[now w]|] eqn:E; [|done]. intros [= <-]. exists now, w. split; [|done].
  by eapply play_reached; [apply with_player_reached|].
Qed.

Lemma downloads_never_fail_witness : exists now w, reached now w /\
  exists w', run 2 (PartLoaded 1 [0] 1) w = Some (tt, w') /\ reached 2 w' /\ accounted w'.
Proof.
  destruct (played [(1, Enqueue 1 0)] (fun now w => (now <=? 2) && allowed_now (PartLoaded 1 [0] 1) w) true) as (now & w & Hr & Ha); [vm_compute; reflexivity|].
  apply andb_true_iff in Ha as [Hn%Z.leb_le Ha%allowed_now_ok]. exists now, w. split; [exact Hr|].
  exact (downloads_never_fail now 2 w (PartLoaded 1 [0] 1) Hr Hn Ha).
Defined.

Lemma downloads_keep_busy_witness : exists now w, reached now w /\ exists w', run 2 (PartLoaded 1 [0] 1) w = Some (tt, w') /\ yields 2 w'.
Proof.
  destruct (played [(1, Enqueue 1 0)] (fun now w => (now <=? 2) && allowed_now (PartLoaded 1 [0] 1) w
    && bool_decide (sends_of (PartLoaded 1 [0] 1) w = Some 2)) true) as (now & w & Hr & Ha); [vm_compute; reflexivity|].
  apply andb_true_iff in Ha as [Ha Hs%bool_decide_eq_true]. apply andb_true_iff in Ha as [Hn%Z.leb_le Ha%allowed_now_ok].
  exists now, w. split; [exact Hr|]. exact (downloads_keep_busy now 2 2 w (PartLoaded 1 [0] 1) Hr Hn Ha Hs).
Defined.

Lemma removed_session_moves_witness : exists now w, reached now w /\ one_too_many 2 1 w = Some 1%nat /\
  exists w' b', run 8 (TimedOut 2 1) w = Some (tt, w') /\ balanceData w' !! 2 = Some b' /\ length (sessions b') = 1%nat
    /\ forall t d, tasks w !! t = Some d -> exists d', tasks w' !! t = Some d'
       /\ (forall o, is_Some (requestByOffset d' !! o) <-> is_Some (requestByOffset d !! o))
       /\ (dcId d = 2 -> forall id r, sentRequests d' !! id = Some r -> (sessionIndex r < 1)%nat).
Proof.
  destruct (played (two_sessions ++ timeouts_3) (fun now w => (now <=? 8) && bool_decide (one_too_many 2 1 w = Some 1%nat)) true)
    as (now & w & Hr & Ha); [vm_compute; reflexivity|].
  apply andb_true_iff in Ha as [Hn%Z.leb_le Ho%bool_decide_eq_true]. exists now, w. split; [exact Hr|]. split; [exact Ho|].
  exact (removed_session_moves now 8 2 1 1 w Hr Hn Ho).
Defined.

Lemma download_timeouts_ignored_witness : exists now w, reached now w /\ Dc.downloadDcId 2 0 = Some 160002
  /\ run 8 (Restarted 160002) w = Some (tt, w).
Proof.
  destruct (played two_sessions (fun _ _ => tt) tt) as (now & w & Hr & _); [vm_compute; reflexivity|].
  exists now, w. split; [exact Hr|]. split; [reflexivity|].
  apply (download_timeouts_ignored now 8 2 160002 0 w Hr); [by vm_compute|reflexivity].
Defined.

(** ** Files and players together *)

Definition open_all : list Z -> bool := fun _ => true.
Definition write_all : Z -> list Z -> bool := fun _ _ => true.

Definition with_file : manager task_loader :=
  match create 1 2 false [] (inl small_loader : task_loader) (manager_new 0) with Some (_, w) => w | None => manager_new 0 end.

Lemma loaders_never_fail_witness : reached_with open_all write_all 0 0 with_file /\ loader_allowed (Start 1) with_file /\
  exists w', run_loader open_all write_all 0 (fun _ => []) 0 (Start 1) with_file = Some (tt, w')
    /\ reached_with open_all write_all 0 0 w' /\ accounted w'.
Proof.
  assert (reached_with open_all write_all 0 0 with_file) as Hr.
  { unfold reached_with.
    apply (reached_step 0 0 (Create 1 2 false [] (inl small_loader : task_loader)) (manager_new 0)); [by constructor|done|by split|reflexivity]. }
  assert (loader_allowed (Start 1) with_file) as Ha by (eexists _, small_loader; split; reflexivity).
  split; [exact Hr|]. split; [exact Ha|]. exact (loaders_never_fail open_all write_all 0 (fun _ => []) 0 with_file (Start 1) Hr Ha).
Defined.

(** ** The content network *)

Section Cdn.
Context (sha256 : list Z -> list Z) (keystream : list Z -> list Z -> nat -> Z).

Definition cdn_key : list Z := replicate 32 1.
Definition cdn_iv : list Z := replicate 16 2.
Definition redirect : file_result := CdnRedirect 203 [5] cdn_key cdn_iv [].
Definition token_invalid : Error := mk_error 400 (codes "FILE_TOKEN_INVALID") [].

(** Two parts. The first answer redirects to the content network, where the
    first part comes without its hash, which is asked for; but the token of the
    second is not valid any more, and everything under way is asked for again
    as a part - the request for hashes too, though its part is there. *)
Definition hashes_again : M (manager LoaderMtproto) unit :=
  create 1 2 false [] (set_requested (add_all (offsets 2) PriorityQueue_new) (LoaderMtproto_new (2 * kDownloadPartSize))) ;;;
  enqueueTask 1 1 0 ;;;
  normalPartLoaded 2 1 redirect 1 ;;;
  cdnPartLoaded 3 sha256 keystream 1 (CdnFile [0]) 4 ;;;
  cdnPartFailed 4 1 token_invalid 3 ;;; ret tt.

(** The redirection comes again, and the second part without its hash. *)
Definition hashes_twice : M (manager LoaderMtproto) unit :=
  hashes_again ;;;
  normalPartLoaded 5 1 redirect 7 ;;;
  cdnPartLoaded 6 sha256 keystream 1 (CdnFile [0]) 9.

(** After these answers the first part is both there without its hash and under
    way as a part; asking for its hash again fails. *)
Theorem cdn_hashes_requested_as_part :
  (exists w d, hashes_again (manager_new 0) = Some (tt, w) /\ tasks w !! 1 = Some d
     /\ cdnUncheckedParts d !! 0 = Some (mk_unchecked 0 [Z.lxor 0 (keystream cdn_key (cdn_ivec cdn_iv 0) 0)])
     /\ requestByOffset d !! 0 = Some 6 /\ In (Send 6 160002 (GetFile 0)) (calls w))
  /\ hashes_twice (manager_new 0) = None.
Proof.
  split; [|vm_compute; reflexivity]. eexists _, _. split; [vm_compute; reflexivity|].
  split; [vm_compute; reflexivity|]. repeat split; [by vm_compute..|]. vm_compute. tauto.
Qed.

End Cdn.
