(* ===== verification/SliceCache.v ===== *)
(** * Streaming: the cache of slices

    [media/streaming/media_streaming_reader.cpp]: how parts of a file are
    written to the cache and read back. An entry of the cache is all of a slice,
    part after part, or a list of parts with their offsets; the entry of the
    header may have the first slice after it. The formats are told apart by
    their lengths. [None] is a failed [Ensures], [Assert] or a span out of
    range. *)

From S2P Require Import Prelude Tcp.

Definition kPartSize : Z := 128 * 1024.
Definition kPartsInSlice : Z := 64.
Definition kInSlice : Z := kPartsInSlice * kPartSize.
Definition kMaxOnlyInHeader : Z := 80 * kPartSize.
Definition kPartsOutsideFirstSliceGood : Z := 8.

Definition len {A} (l : list A) : Z := Z.of_nat (length l).

(** Parts by offset. *)
Abbreviation PartsMap := (gmap Z (list Z)).

Record ParsedCacheEntry := mk_parsed { parsed : PartsMap; included : option PartsMap }.

Definition IsContiguousSerialization (serializedSize maxSliceSize : Z) : bool :=
  (crem serializedSize kPartSize =? 0) || (serializedSize =? maxSliceSize).

Definition IsFullInHeader (size : Z) : bool := size <=? kMaxOnlyInHeader.

Definition ComputeIsGoodHeader (size : Z) (header : PartsMap) : bool :=
  if IsFullInHeader size then false else
  let l := entries header in
  len (drop (partition_point (fun x => x.1 <? kInSlice) l) l) <=? kPartsOutsideFirstSliceGood.

(** [Ensures(result < 0x1FFU)] *)
Definition SlicesCount (size : Z) : option Z :=
  let result := wrapu 32 (size + kInSlice - 1) / kInSlice in
  if result <? 0x1FF then Some result else None.

(** As an [int]. *)
Definition MaxSliceSize (sliceNumber : nat) (size : Z) : option Z :=
  if (sliceNumber =? 0)%nat then Some (wraps 32 size) else
  count <-? SlicesCount size ;
  Some (if Z.of_nat sliceNumber =? count
        then wraps 32 (wrapu 32 (size - wrapu 32 ((Z.of_nat sliceNumber - 1) * kInSlice)))
        else wraps 32 kInSlice).

(** ** Reading *)

Definition takeInt (data : list Z) : option Z * list Z :=
  match data with
  | a :: b :: c :: d :: rest => (Some (u32_at a b c d), rest)
  | _ => (None, data)
  end.

Definition takeBytes (count : Z) (data : list Z) : list Z * list Z :=
  if (count <=? 0) || (len data <? count) then ([], data)
  else (take (Z.to_nat count) data, drop (Z.to_nat count) data).

(** The loop over the parts of a complex serialization. *)
Fixpoint parseParts (n : nat) (maxSize : Z) (result : PartsMap) (data : list Z) : PartsMap * list Z :=
  match n with
  | O => (result, data)
  | S n =>
      let (offset, data) := takeInt data in let offset := default 0 offset in
      let (size, data) := takeInt data in let size := default 0 size in
      let (bytes, data) := takeBytes (wraps 32 size) data in
      let maxSize' := wrapu 32 maxSize in
      if (maxSize' <=? offset) || (size =? 0) || (maxSize' <? size) || (maxSize' <? wrapu 32 (offset + size))
        || negb (len bytes =? size)
      then (result, [])
      else parseParts n maxSize (emplace offset bytes result) data
  end.

Definition ParseComplexCachedMap (result : PartsMap) (data : list Z) (maxSize : Z) : PartsMap * list Z :=
  match takeInt data with
  | (None, _) => (result, [])
  | (Some count, data) =>
      if (count =? 0) || (kMaxOnlyInHeader / kPartSize <? count) then (result, data)
      else parseParts (Z.to_nat count) maxSize result data
  end.

(** One part after another. *)
Fixpoint splitParts (n : nat) (offset : Z) (data : list Z) (result : PartsMap) : PartsMap :=
  match n with
  | O => result
  | S n =>
      match data with
      | [] => result
      | _ => splitParts n (offset + kPartSize) (drop (Z.to_nat kPartSize) data)
               (emplace (wrapu 32 offset) (take (Z.to_nat kPartSize) data) result)
      end
  end.

Definition ParseCachedMap (result : PartsMap) (data : list Z) (maxSize : Z) : PartsMap * list Z :=
  let size := wraps 32 (len data) in
  if IsContiguousSerialization size maxSize then
    if maxSize <? size then (result, [])
    else (splitParts (Z.to_nat (size / kPartSize + 1)) 0 data result, [])
  else ParseComplexCachedMap result data maxSize.

Definition ParseCacheEntry (data : list Z) (sliceNumber : nat) (size : Z) : option ParsedCacheEntry :=
  maxSize <-? MaxSliceSize sliceNumber size ;
  let (parts, remaining) := ParseCachedMap ∅ data maxSize in
  if (sliceNumber =? 0)%nat && ComputeIsGoodHeader size parts then
    maxSize <-? MaxSliceSize 1 size ;
    Some (mk_parsed parts (Some (ParseCachedMap ∅ remaining maxSize).1))
  else Some (mk_parsed parts None).

(** ** Writing *)

Definition serializeComplexSlice (parts : PartsMap) : list Z :=
  le32 (Z.of_nat (size parts)) ++ (entries parts ≫= fun x => le32 x.1 ++ le32 (len x.2) ++ x.2).

(** The end of what is there without a gap. *)
Fixpoint FindNotLoadedStart (parts : list (Z * list Z)) (result : Z) : Z :=
  match parts with
  | [] => result
  | (partStart, bytes) :: parts =>
      let partEnd := wrapu 32 (partStart + len bytes) in
      if (partStart <=? result) && (result <=? partEnd) then FindNotLoadedStart parts partEnd else result
  end.

(** [filled] is the offset of the front of the buffer. *)
Fixpoint CopyLoaded (buffer : list Z) (parts : list (Z * list Z)) (filled till : Z) : option (list Z) :=
  match parts with
  | [] => Some buffer
  | (partStart, bytes) :: parts =>
      let copyTill := Z.min (wrapu 32 (partStart + len bytes)) till in
      if (partStart <=? filled) && (filled <? copyTill) then
        copied <-? subspan bytes (filled - partStart) (copyTill - filled) ;
        if len buffer <? len copied then None else
        rest <-? CopyLoaded (drop (length copied) buffer) parts copyTill till ;
        Some (copied ++ rest)
      else None
  end.

(** Zeros until the data is not taken for a continuous serialization. *)
Fixpoint padded (fuel : nat) (maxSize : Z) (data : list Z) : option (list Z) :=
  match fuel with
  | O => None
  | S fuel => if IsContiguousSerialization (len data) maxSize then padded fuel maxSize (data ++ [0]) else Some data
  end.
