(* ===== verification/Slices.v ===== *)
(** * Streaming: the slices of a file

    [Reader::Slices] of [media/streaming/media_streaming_reader.cpp]: the parts
    of a file that are in memory, by slices of 64 parts, with a header of the
    parts that came first; slices are read from the cache, filled with parts
    from the server, copied to the buffer of a player and written to the cache
    when others are used. The methods of a slice are functions of its parts.
    [None] is a failed [Expects], [Assert] or an index out of range; loops
    without a structural bound have fuel. *)

From S2P Require Import Prelude Tcp StateMonad SliceCache.

Definition kMaxPartsInHeader : nat := 64.
Definition kSlicesInMemory : nat := 2.
Definition kPreloadPartsAhead : Z := 8.
Definition kLoadFromRemoteMax : nat := 8.
Definition kReadFromCacheMax : nat := 2.

(** ** Vectors of a few numbers *)

(** [uint32(-1)], which ends them. *)
Definition kEnd : Z := 2 ^ 32 - 1.
Definition StackIntVector_new (Size : nat) : list Z := kEnd :: replicate (Size - 1) 0.

Definition is_value (x : Z) : bool := negb (x =? kEnd).
Definition add_int (value : Z) (v : list Z) : list Z * bool :=
  let i := partition_point is_value v in
  if (i =? length v)%nat then (v, false)
  else (<[S i := kEnd]> (<[i := value]> v), true).

Definition values (v : list Z) : list Z := take (partition_point is_value v) v.

(** ** A slice *)

Record Slice := mk_slice {
  parts : PartsMap; loadingFromCache : bool; loadedFromCache : bool; changedSinceCache : bool; fullInCache : bool }.
Definition Slice_new : Slice := mk_slice ∅ false false false false.

Definition set_parts (p : PartsMap) (s : Slice) : Slice :=
  mk_slice p (loadingFromCache s) (loadedFromCache s) (changedSinceCache s) (fullInCache s).
Definition set_loading (b : bool) (s : Slice) : Slice :=
  mk_slice (parts s) b (loadedFromCache s) (changedSinceCache s) (fullInCache s).
Definition set_loaded (b : bool) (s : Slice) : Slice :=
  mk_slice (parts s) (loadingFromCache s) b (changedSinceCache s) (fullInCache s).
Definition set_changed (b : bool) (s : Slice) : Slice :=
  mk_slice (parts s) (loadingFromCache s) (loadedFromCache s) b (fullInCache s).
Definition set_full (b : bool) (s : Slice) : Slice :=
  mk_slice (parts s) (loadingFromCache s) (loadedFromCache s) (changedSinceCache s) b.

(** What is there stays. *)
Definition processCacheData (d : PartsMap) (s : Slice) : option Slice :=
  if negb (loadingFromCache s) || loadedFromCache s then None
  else Some (set_loading false (set_loaded true (set_parts (parts s ∪ d) s))).

Definition addPart (offset : Z) (bytes : list Z) (s : Slice) : option Slice :=
  if bool_decide (is_Some (parts s !! offset)) then None
  else
    let s := set_parts (<[offset := bytes]> (parts s)) s in
    Some (if loadedFromCache s then set_changed true s else s).

(** Offsets that are not there, from [offset] on, [check] being the parts not
    before it. *)
Definition kOffsetsFuel : nat := 256.
Fixpoint offsetsLoop (fuel : nat) (check : list (Z * list Z)) (offset till : Z) (result : list Z) : option (list Z) :=
  match fuel with
  | O => None
  | S fuel =>
      if offset =? till then Some result else
      let check := drop (partition_point (fun x => x.1 <? offset) check) check in
      let next := wrapu 32 (offset + kPartSize) in
      if match check with x :: _ => x.1 =? offset | [] => false end then offsetsLoop fuel check next till result
      else
        let (result, ok) := add_int offset result in
        if ok : bool then offsetsLoop fuel check next till result else Some result
  end.

Definition offsetsFromLoader (from till : Z) (s : Slice) : option (list Z) :=
  let l := entries (parts s) in
  let after := partition_point (fun x => x.1 <=? from) l in
  offsetsLoop kOffsetsFuel (drop (after - 1) l) from till (StackIntVector_new kLoadFromRemoteMax).

Record PrepareFillResult := mk_prepare { offsets : list Z; range : list (Z * list Z); ready : bool }.
Definition PrepareFillResult_new : PrepareFillResult := mk_prepare (StackIntVector_new kLoadFromRemoteMax) [] true.

Definition prepareFill (from till : Z) (s : Slice) : option PrepareFillResult :=
  let fromOffset := from / kPartSize * kPartSize in
  let tillPart := (till + kPartSize - 1) / kPartSize in
  let preloadTillOffset := wrapu 32 ((tillPart + kPreloadPartsAhead) * kPartSize) in
  let l := entries (parts s) in
  let after := partition_point (fun x => x.1 <=? from) l in
  if (after =? 0)%nat then
    o <-? offsetsFromLoader fromOffset preloadTillOffset s ; Some (mk_prepare o [] false)
  else
    let start := drop (after - 1) l in
    let found := take (partition_point (fun x => x.1 <? till) start) start in
    let haveTill := FindNotLoadedStart found fromOffset in
    if haveTill <? till then
      o <-? offsetsFromLoader haveTill preloadTillOffset s ; Some (mk_prepare o [] false)
    else
      o <-? offsetsFromLoader (wrapu 32 (tillPart * kPartSize)) preloadTillOffset s ; Some (mk_prepare o found true).

(** ** All slices *)

Inductive HeaderMode := Unknown | Small | Good | Full | NoCache.
#[export] Instance HeaderMode_eq_dec : EqDecision HeaderMode.
Proof. solve_decision. Defined.

Inductive FillState := Success | WaitingCache | WaitingRemote | Failed.
#[export] Instance FillState_eq_dec : EqDecision FillState.
Proof. solve_decision. Defined.

Record Slices := mk_slices {
  data : list Slice; header : Slice; usedSlices : list nat; size : Z; headerMode : HeaderMode; allInCache : bool }.

Definition set_data (d : list Slice) (s : Slices) : Slices :=
  mk_slices d (header s) (usedSlices s) (size s) (headerMode s) (allInCache s).
Definition set_header (h : Slice) (s : Slices) : Slices :=
  mk_slices (data s) h (usedSlices s) (size s) (headerMode s) (allInCache s).
Definition set_used (u : list nat) (s : Slices) : Slices :=
  mk_slices (data s) (header s) u (size s) (headerMode s) (allInCache s).
Definition set_mode (m : HeaderMode) (s : Slices) : Slices :=
  mk_slices (data s) (header s) (usedSlices s) (size s) m (allInCache s).
Definition set_all (b : bool) (s : Slices) : Slices :=
  mk_slices (data s) (header s) (usedSlices s) (size s) (headerMode s) b.

Record SerializedSlice := mk_serialized { number : nat; serialized : list Z }.
(** Without a slice to write, [number] is -1. *)
Record FillResult := mk_fill {
  sliceNumbersFromCache : list Z; fillOffsets : list Z; toCache : option SerializedSlice; state : FillState }.
Definition FillResult_new : FillResult :=
  mk_fill (StackIntVector_new kReadFromCacheMax) (StackIntVector_new kLoadFromRemoteMax) None WaitingRemote.

Definition isFullInHeader (s : Slices) : bool := IsFullInHeader (size s).
Definition isGoodHeader (s : Slices) : bool := bool_decide (headerMode s = Good).
Definition headerModeUnknown (s : Slices) : bool := bool_decide (headerMode s = Unknown).
Definition computeIsGoodHeader (s : Slices) : bool := ComputeIsGoodHeader (size s) (parts (header s)).
Definition headerSize (s : Slices) : Z := wraps 32 (Z.of_nat (base.size (parts (header s))) * kPartSize).
Definition requestSliceSizesCount (s : Slices) : nat :=
  if negb (headerModeUnknown s) || isFullInHeader s then O else length (data s).
Definition headerWontBeFilled (s : Slices) : bool :=
  headerModeUnknown s && (kMaxPartsInHeader <=? base.size (parts (header s)))%nat.
Definition waitingForHeaderCache (s : Slices) : bool := loadingFromCache (header s).
Definition maxSliceSize (sliceNumber : nat) (s : Slices) : option Z := MaxSliceSize sliceNumber (size s).

Definition Slices_new (sz : Z) (useCache : bool) : option Slices :=
  if negb (0 <? sz) then None else
  count <-? (if IsFullInHeader sz then Some 0 else SlicesCount sz) ;
  Some (mk_slices (replicate (Z.to_nat count) Slice_new) (set_loading useCache Slice_new) [] sz
    (if useCache then Unknown else NoCache) false).

(** Slice 0 is the header, the others are one further. *)
Definition slice_at (n : nat) : M Slices Slice := fun s =>
  match n with
  | O => Some (header s, s)
  | S i => x <-? data s !! i ; Some (x, s)
  end.
Definition put_slice (n : nat) (x : Slice) : M Slices unit :=
  modify (fun s => match n with O => set_header x s | S i => set_data (<[i := x]> (data s)) s end).
Definition change_slice (n : nat) (f : Slice -> Slice) : M Slices unit := x <- slice_at n ;; put_slice n (f x).
Definition add_part (n : nat) (offset : Z) (bytes : list Z) : M Slices unit :=
  x <- slice_at n ;; x <- lift (addPart offset bytes x) ;; put_slice n x.

Definition mark_loaded (x : Slice) : option Slice :=
  if loadingFromCache x || loadedFromCache x then None else Some (set_loaded true x).

Definition headerDone (fromCache : bool) : M Slices unit :=
  s <- gets id ;;
  if negb (headerModeUnknown s) then ret tt else
  modify (set_mode (if isFullInHeader s then Full else if computeIsGoodHeader s then Good else Small)) ;;;
  if fromCache then ret tt else
  d <- lift (mapM mark_loaded (data s)) ;; modify (set_data d).

(** The parts of the header that are before the first in a slice that does
    not satisfy the predicate go to their slices. *)
Fixpoint applyWhile (predicate : nat -> bool) (l : list (Z * list Z)) : M Slices unit :=
  match l with
  | [] => ret tt
  | (offset, part) :: l =>
      let index := Z.to_nat (offset / kInSlice) in
      if predicate index then
        add_part (S index) (offset - Z.of_nat index * kInSlice) part ;;; applyWhile predicate l
      else ret tt
  end.

Definition applyHeaderCacheData : M Slices unit :=
  s <- gets id ;;
  let l := entries (parts (header s)) in
  if bool_decide (l = []) then ret tt else
  match headerMode s with
  | Good => applyWhile (fun i => (i =? 0)%nat) l
  | Unknown =>
      if isFullInHeader s then headerDone true
      else applyWhile (fun i => (i <? length (data s))%nat) l ;;; headerDone true
  | _ => ret tt
  end.

Definition checkFullInCache (s : Slices) : bool :=
  if isFullInHeader s then fullInCache (header s) else forallb fullInCache (data s).

Definition checkSliceFullLoaded (sliceNumber : nat) : M Slices unit :=
  s <- gets id ;;
  if (sliceNumber =? 0)%nat && negb (isFullInHeader s) then ret tt else
  let partsCount :=
    if (sliceNumber =? 0)%nat then (size s + kPartSize - 1) / kPartSize
    else if (sliceNumber <? length (data s))%nat then kPartsInSlice
    else (wrapu 32 (size s - wrapu 32 ((Z.of_nat sliceNumber - 1) * kInSlice)) + kPartSize - 1) / kPartSize in
  slice <- slice_at sliceNumber ;;
  let loaded := Z.of_nat (base.size (parts slice)) =? partsCount in
  if fullInCache slice && negb loaded then put_slice sliceNumber (set_full false slice) ;;; modify (set_all false)
  else if negb (fullInCache slice) && loaded then
    put_slice sliceNumber (set_full true slice) ;;; modify (fun s => set_all (checkFullInCache s) s)
  else ret tt.

(** The header may be read because of the first slice, which is written with
    it. *)
Definition processCacheResult (sliceNumber : nat) (result : PartsMap) : M Slices unit :=
  s <- gets id ;;
  if (length (data s) <? sliceNumber)%nat then lift None else
  again <- (if (sliceNumber =? 0)%nat && isGoodHeader s then
              first <- slice_at 1 ;;
              if negb (loadingFromCache first) then ret false
              else change_slice 0 (fun h => set_loaded false (set_loading true h)) ;;; ret true
            else ret true) ;;
  slice <- slice_at sliceNumber ;;
  if negb again || negb (loadingFromCache slice) then ret tt else
  slice <- lift (processCacheData result slice) ;;
  put_slice sliceNumber slice ;;;
  checkSliceFullLoaded sliceNumber ;;;
  if (sliceNumber =? 0)%nat then
    applyHeaderCacheData ;;;
    good <- gets isGoodHeader ;;
    if good : bool then change_slice 1 (set_loading true) else ret tt
  else ret tt.

(** Sizes of the entries, as they are in the cache. *)
Definition apply_size (s : Slices) (i : nat) (x : Slice) (n : Z) : Slice :=
  let sliceNumber := S i in
  let sliceSize := if (sliceNumber <? length (data s))%nat then kInSlice
                   else wrapu 32 (size s - wrapu 32 ((Z.of_nat sliceNumber - 1) * kInSlice)) in
  if negb (fullInCache x) && (n =? sliceSize) then set_full true x else x.

Definition processCachedSizes (sizes : list Z) : M Slices unit :=
  s <- gets id ;;
  if negb (length sizes =? length (data s))%nat then lift None else
  let d := zip_with (fun ix n => apply_size s ix.1 ix.2 n) (zip (seq 0 (length (data s))) (data s)) sizes in
  modify (set_data d) ;;;
  modify (set_all (forallb fullInCache d)).

Definition processPart (offset : Z) (bytes : list Z) : M Slices unit :=
  s <- gets id ;;
  let index := Z.to_nat (offset / kInSlice) in
  if isFullInHeader s then add_part 0 offset bytes ;;; checkSliceFullLoaded 0
  else if negb (index <? length (data s))%nat then lift None
  else
    let there := bool_decide (is_Some (parts (header s) !! offset)) in
    if headerModeUnknown s && there then ret tt else
    (if headerModeUnknown s && (base.size (parts (header s)) <? kMaxPartsInHeader)%nat
     then add_part 0 offset bytes else ret tt) ;;;
    add_part (S index) (offset - Z.of_nat index * kInSlice) bytes ;;;
    checkSliceFullLoaded (S index).

(** ** To the cache *)

Definition unloadSlice (x : Slice) : Slice := set_full (fullInCache x) Slice_new.

Definition serializeAndUnloadFirstSliceNoHeader : M Slices (list Z) :=
  slice <- slice_at 1 ;;
  if negb (loadedFromCache slice) then lift None else
  h <- gets header ;;
  let rest := filter (fun x => parts h !! x.1 = None) (parts slice) in
  put_slice 1 (unloadSlice slice) ;;; ret (serializeComplexSlice rest).

Definition serializeAndUnloadSlice (sliceNumber : nat) : M Slices SerializedSlice :=
  s <- gets id ;;
  if bool_decide (headerMode s = Unknown) || bool_decide (headerMode s = NoCache)
    || (length (data s) <? sliceNumber)%nat then lift None else
  let sliceNumber := if isGoodHeader s && (sliceNumber =? 1)%nat then O else sliceNumber in
  let writeHeaderAndSlice := isGoodHeader s && (sliceNumber =? 0)%nat in
  slice <- slice_at sliceNumber ;;
  let l := entries (parts slice) in
  back <- lift (last l) ;;
  let continuousTill := if writeHeaderAndSlice then 0 else FindNotLoadedStart l 0 in
  bytes <- (if back.1 <? continuousTill then ret (l ≫= snd)
            else
              first <- (if writeHeaderAndSlice then serializeAndUnloadFirstSliceNoHeader else ret []) ;;
              maxSize <- lift (maxSliceSize sliceNumber s) ;;
              lift (padded 4 maxSize (serializeComplexSlice (parts slice) ++ first))) ;;
  (** The header is still needed. *)
  put_slice sliceNumber (if (sliceNumber =? 0)%nat then set_changed false slice else unloadSlice slice) ;;;
  ret (mk_serialized sliceNumber bytes).

Definition serializeAndUnloadUnused : M Slices (option SerializedSlice) :=
  s <- gets id ;;
  if headerModeUnknown s || (length (usedSlices s) <=? kSlicesInMemory)%nat then ret None else
  match usedSlices s with
  | [] => lift None
  | purgeSlice :: rest =>
      modify (set_used rest) ;;;
      slice <- slice_at (S purgeSlice) ;;
      if negb (loadedFromCache slice) then ret None else
      let noNeedToSaveToCache :=
        bool_decide (headerMode s = NoCache)
        || negb (changedSinceCache slice)
           && (negb (isGoodHeader s) || (0 <? purgeSlice)%nat || negb (changedSinceCache (header s))) in
      if noNeedToSaveToCache then put_slice (S purgeSlice) (unloadSlice slice) ;;; ret None
      else x <- serializeAndUnloadSlice (S purgeSlice) ;; ret (Some x)
  end.

(** What is still to be written, one after another. *)
Definition unloadToCache : M Slices (option SerializedSlice) :=
  s <- gets id ;;
  if bool_decide (headerMode s = Unknown) || bool_decide (headerMode s = NoCache) then ret None else
  if changedSinceCache (header s) then x <- serializeAndUnloadSlice 0 ;; ret (Some x) else
  match list_find (fun x => changedSinceCache x = true) (data s) with
  | Some (i, _) => x <- serializeAndUnloadSlice (S i) ;; ret (Some x)
  | None => ret None
  end.

(** ** To a player *)

Definition markSliceUsed (sliceIndex : nat) : M Slices unit :=
  modify (fun s => set_used (filter (fun i => i <> sliceIndex) (usedSlices s) ++ [sliceIndex]) s).

Definition add_all_ints (l : list Z) (v : list Z) : list Z := foldl (fun v x => (add_int x v).1) v l.

Definition fillFromHeader (offset : Z) (buffer : list Z) : M Slices (FillResult * list Z) :=
  s <- gets id ;;
  let till := wrapu 32 (offset + len buffer) in
  prepared <- lift (prepareFill offset till (header s)) ;;
  let more := add_all_ints (filter (fun full => full < size s) (values (offsets prepared))) (StackIntVector_new kLoadFromRemoteMax) in
  if ready prepared then
    buffer <- lift (CopyLoaded buffer (range prepared) offset till) ;;
    ret (mk_fill (StackIntVector_new kReadFromCacheMax) more None Success, buffer)
  else ret (mk_fill (StackIntVector_new kReadFromCacheMax) more None WaitingRemote, buffer).

Definition cacheNotLoaded (s : Slices) (x : Slice) : bool :=
  negb (bool_decide (headerMode s = NoCache)) && negb (headerModeUnknown s) && negb (loadedFromCache x).

Definition handlePrepareResult (sliceIndex : nat) (prepared : PrepareFillResult) (offsets_ : list Z) : M Slices (list Z) :=
  s <- gets id ;;
  x <- slice_at (S sliceIndex) ;;
  if cacheNotLoaded s x then ret offsets_ else
  let good offset := bool_decide (offset < kInSlice) && bool_decide (offset + Z.of_nat sliceIndex * kInSlice < size s) in
  ret (add_all_ints ((fun offset => offset + Z.of_nat sliceIndex * kInSlice) <$> filter good (values (offsets prepared))) offsets_).

Definition handleReadFromCache (sliceIndex : nat) (r : list Z * FillState) : M Slices (list Z * FillState) :=
  s <- gets id ;;
  x <- slice_at (S sliceIndex) ;;
  if negb (cacheNotLoaded s x) then ret r
  else if negb (loadingFromCache x) then
    put_slice (S sliceIndex) (set_loading true x) ;;; ret ((add_int (Z.of_nat (S sliceIndex)) r.1).1, WaitingCache)
  else ret (r.1, WaitingCache).

Definition fill (offset : Z) (buffer : list Z) : M Slices (FillResult * list Z) :=
  s <- gets id ;;
  if bool_decide (buffer = []) || (size s <=? offset) || (size s <? offset + len buffer) || (kInSlice <? len buffer) then lift None else
  if negb (bool_decide (headerMode s = NoCache)) && negb (loadedFromCache (header s)) then
    if waitingForHeaderCache s then ret (FillResult_new, buffer) else lift None
  else if isFullInHeader s then fillFromHeader offset buffer else
  let till := wrapu 32 (offset + len buffer) in
  let fromSlice := Z.to_nat (offset / kInSlice) in
  let tillSlice := Z.to_nat (wrapu 32 (till + kInSlice - 1) / kInSlice) in
  let two := (S fromSlice <? tillSlice)%nat in
  if negb (((S fromSlice =? tillSlice) || (S (S fromSlice) =? tillSlice))%nat && (tillSlice <=? length (data s))%nat)
  then lift None else
  let firstFrom := offset - Z.of_nat fromSlice * kInSlice in
  let firstTill := Z.min kInSlice (till - Z.of_nat fromSlice * kInSlice) in
  let next := Z.of_nat (S fromSlice) * kInSlice in
  let secondTill := if next <? till then till - next else 0 in
  x <- slice_at (S fromSlice) ;;
  first <- lift (prepareFill firstFrom firstTill x) ;;
  second <- (if two then y <- slice_at (S (S fromSlice)) ;; lift (prepareFill 0 secondTill y) else ret PrepareFillResult_new) ;;
  o <- handlePrepareResult fromSlice first (StackIntVector_new kLoadFromRemoteMax) ;;
  o <- (if two then handlePrepareResult (S fromSlice) second o else ret o) ;;
  if ready first && ready second then
    markSliceUsed fromSlice ;;;
    buffer <- lift (CopyLoaded buffer (range first) firstFrom firstTill) ;;
    buffer <- (if two then
                 markSliceUsed (S fromSlice) ;;;
                 let n := Z.to_nat (firstTill - firstFrom) in
                 rest <- lift (CopyLoaded (drop n buffer) (range second) 0 secondTill) ;; ret (take n buffer ++ rest)
               else ret buffer) ;;
    written <- serializeAndUnloadUnused ;;
    ret (mk_fill (StackIntVector_new kReadFromCacheMax) o written Success, buffer)
  else
    r <- handleReadFromCache fromSlice (StackIntVector_new kReadFromCacheMax, WaitingRemote) ;;
    r <- (if two then handleReadFromCache (S fromSlice) r else ret r) ;;
    ret (mk_fill r.1 o None r.2, buffer).

(** ** Downloads over a player *)

Definition partForDownloader (offset : Z) (s : Slices) : option (list Z) :=
  if size s <=? offset then None else
  match parts (header s) !! offset with
  | Some bytes => Some bytes
  | None =>
      if isFullInHeader s then Some [] else
      let index := Z.to_nat (offset / kInSlice) in
      x <-? data s !! index ;
      Some (default [] (parts x !! (offset - Z.of_nat index * kInSlice)))
  end.

Definition readCacheForDownloaderRequired (offset : Z) (s : Slices) : option bool :=
  if (size s <=? offset) || waitingForHeaderCache s then None else
  if isFullInHeader s then Some false else
  x <-? data s !! Z.to_nat (offset / kInSlice) ; Some (negb (loadedFromCache x)).
