(* ===== verification/CacheFacts.v ===== *)
(** * Streaming: what is in the cache

    The parts of a slice that are written to the cache are read back. *)

From S2P Require Import Prelude Tcp SliceCache.

Lemma part_is : kPartSize = 131072.
Proof. done. Qed.
Lemma slice_is : kInSlice = 8388608.
Proof. done. Qed.
Lemma only_in_header_is : kMaxOnlyInHeader = 10485760.
Proof. done. Qed.
#[global] Opaque kPartSize kInSlice kMaxOnlyInHeader.
(** The sizes, for arithmetic. *)
Ltac sizes := pose proof part_is; pose proof slice_is; pose proof only_in_header_is.

Lemma len_app {A} (l k : list A) : len (l ++ k) = len l + len k.
Proof. unfold len. rewrite length_app. lia. Qed.
Lemma len_nonneg {A} (l : list A) : 0 <= len l.
Proof. unfold len. lia. Qed.
Lemma len_le32 (v : Z) : len (le32 v) = 4.
Proof. unfold len. by rewrite le32_length. Qed.

(** ** Lists of parts *)

Lemma takeInt_le32 (v : Z) (rest : list Z) : fits_u 32 v -> takeInt (le32 v ++ rest) = (Some v, rest).
Proof. intros Hv. destruct (u32_le32 v rest Hv) as (a & b & c & d & -> & <-). done. Qed.

Lemma takeBytes_app (bytes rest : list Z) : bytes <> [] -> takeBytes (len bytes) (bytes ++ rest) = (bytes, rest).
Proof.
  intros Hb. unfold takeBytes. rewrite len_app. pose proof (len_nonneg rest).
  assert (0 < len bytes) by (destruct bytes; [done|unfold len; simpl; lia]).
  rewrite (proj2 (Z.leb_gt _ _)), (proj2 (Z.ltb_ge _ _)) by lia. simpl. unfold len. rewrite Nat2Z.id.
  by rewrite take_app_length, drop_app_length.
Qed.

(** A part that fits in an entry of at most this many bytes. *)
Definition fits_entry (max : Z) (x : Z * list Z) : Prop := 0 <= x.1 /\ x.2 <> [] /\ x.1 + len x.2 <= max /\ len x.2 < 2 ^ 31.

Lemma parseParts_ok (l : list (Z * list Z)) (max : Z) (result : PartsMap) (rest : list Z) :
  Forall (fits_entry (wrapu 32 max)) l -> NoDup l.*1 -> (forall o, o ∈ l.*1 -> result !! o = None) ->
  parseParts (length l) max result ((l ≫= fun x => le32 x.1 ++ le32 (len x.2) ++ x.2) ++ rest)
  = (list_to_map l ∪ result, rest).
Proof.
  intros Hl. pose proof (wrapu_bound 32 max ltac:(lia)) as Hm. revert result. induction Hl as [|[o b] l (H1 & H2 & H3 & H4) Hl IH]; intros result Hnd Hfree.
  - simpl. by rewrite (left_id_L ∅ (∪)).
  - rewrite bind_cons. cbn [length parseParts fst snd fmap list_fmap list_to_map] in *. apply NoDup_cons in Hnd as [Ho Hnd]. pose proof (len_nonneg b). unfold fits_u in Hm.
    assert (0 < len b) by (destruct b; [done|unfold len; simpl; lia]).
    rewrite <- !app_assoc, takeInt_le32 by (unfold fits_u; lia). rewrite takeInt_le32 by (unfold fits_u; lia). cbn [from_option]. unfold id.
    rewrite wraps_small by (unfold fits_s; lia). rewrite takeBytes_app by done.
    rewrite (wrapu_small 32 (o + len b)) by (unfold fits_u; lia).
    rewrite (proj2 (Z.leb_gt _ _)), (proj2 (Z.eqb_neq (len b) 0)), !(proj2 (Z.ltb_ge _ _)), Z.eqb_refl by lia. simpl.
    rewrite emplace_fresh by (apply Hfree; by left). rewrite IH; [|done|].
    + f_equal. cbn [list_to_map foldr]. rewrite <- insert_union_l, <- insert_union_r; [done|by apply not_elem_of_list_to_map_1].
    + intros o' Ho'. rewrite lookup_insert_ne by (by intros ->). apply Hfree. by right.
Qed.

Lemma list_to_map_entries {V} (m : gmap Z V) : list_to_map (entries m) = m.
Proof.
  rewrite (list_to_map_proper _ (map_to_list m)); [apply list_to_map_to_list| |apply entries_perm].
  rewrite entries_keys. apply sorted_elements_NoDup.
Qed.

Lemma entries_length {V} (m : gmap Z V) : length (entries m) = size m.
Proof. by rewrite entries_perm, length_map_to_list. Qed.

Lemma entries_nodup {V} (m : gmap Z V) : NoDup (entries m).*1.
Proof. rewrite entries_keys. apply sorted_elements_NoDup. Qed.

Definition entry_ok (max : Z) (p : PartsMap) : Prop := forall o b, p !! o = Some b -> fits_entry max (o, b).

Lemma entry_ok_forall (max : Z) (p : PartsMap) : entry_ok max p -> Forall (fits_entry max) (entries p).
Proof. intros H. apply Forall_forall. intros [o b] Hx. by apply H, elem_of_entries. Qed.

Lemma parse_complex (p : PartsMap) (max : Z) (rest : list Z) : entry_ok (wrapu 32 max) p -> (size p <= 80)%nat ->
  ParseComplexCachedMap ∅ (serializeComplexSlice p ++ rest) max = (p, rest).
Proof.
  intros Hp Hs. unfold ParseComplexCachedMap, serializeComplexSlice. rewrite <- app_assoc, takeInt_le32 by (unfold fits_u; lia).
  rewrite part_is, only_in_header_is. change (10485760 / 131072) with 80. rewrite (proj2 (Z.ltb_ge 80 _)) by lia. rewrite orb_false_r.
  destruct (Z.eqb_spec (Z.of_nat (size p)) 0) as [E|E].
  - assert (p = ∅) as -> by (apply map_size_empty_iff; lia). done.
  - rewrite Nat2Z.id, <- entries_length.
    pose proof (parseParts_ok (entries p) max ∅ rest (entry_ok_forall _ _ Hp) (entries_nodup p)) as ->.
    + by rewrite list_to_map_entries, (right_id_L ∅ (∪)).
    + intros. apply lookup_empty.
Qed.

(** ** Parts without a gap *)

(** One part after another from [r] on, all whole but for the last. *)
Fixpoint chain (r : Z) (l : list (Z * list Z)) : Prop :=
  match l with
  | [] => True
  | (o, b) :: l => o = r /\ 0 < len b <= kPartSize /\ (l <> [] -> len b = kPartSize) /\ chain (r + len b) l
  end.
Fixpoint chain_end (r : Z) (l : list (Z * list Z)) : Z :=
  match l with [] => r | (o, b) :: l => chain_end (r + len b) l end.

Lemma chain_end_len (l : list (Z * list Z)) (r : Z) : chain_end r l = r + len (l ≫= snd).
Proof.
  revert r. induction l as [|[o b] l IH]; intros r; [unfold len; simpl; lia|]. cbn [chain_end]. rewrite bind_cons, len_app, IH. simpl. lia.
Qed.

Lemma chain_keys (l : list (Z * list Z)) (r : Z) : chain r l -> Forall (fun x => r <= x.1 < chain_end r l) l.
Proof.
  revert r. induction l as [|[o b] l IH]; intros r; [constructor|]. intros (-> & Hb & _ & Hl). cbn [chain_end].
  rewrite chain_end_len. pose proof (len_nonneg (l ≫= snd)). constructor; [simpl; lia|].
  eapply Forall_impl; [by apply IH|]. intros x. simpl. rewrite chain_end_len. lia.
Qed.

Lemma chain_length (l : list (Z * list Z)) (r : Z) : chain r l -> (len l - 1) * kPartSize < chain_end r l - r + 1.
Proof.
  revert r. induction l as [|[o b] l IH]; intros r; [unfold len; sizes; cbn [length chain_end]; lia|]. intros (-> & Hb & Hn & Hl). cbn [chain_end].
  specialize (IH _ Hl). unfold len in *. cbn [length]. destruct l as [|x l]; [sizes; cbn [length chain_end] in *; lia|].
  rewrite Hn in * by done. lia.
Qed.

Lemma splitParts_chain (l : list (Z * list Z)) (r : Z) (fuel : nat) (result : PartsMap) : chain r l -> 0 <= r ->
  chain_end r l < 2 ^ 32 -> (length l <= fuel)%nat -> (forall o, o ∈ l.*1 -> result !! o = None) ->
  splitParts fuel r (l ≫= snd) result = list_to_map l ∪ result.
Proof.
  revert r fuel result. induction l as [|[o b] l IH]; intros r fuel result Hc Hr He Hf Hn.
  - simpl. rewrite (left_id_L ∅ (∪)). by destruct fuel.
  - pose proof (chain_keys _ _ Hc) as Hk. destruct Hc as (-> & Hb & Hw & Hc). cbn [length] in Hf. destruct fuel as [|fuel]; [lia|].
    rewrite bind_cons. cbn [splitParts snd]. destruct b as [|b0 b]; [unfold len in Hb; simpl in Hb; lia|]. cbn [app].
    change (b0 :: b ++ (l ≫= snd)) with ((b0 :: b) ++ (l ≫= snd)). set (bs := b0 :: b) in *.
    apply Forall_cons in Hk as [Hk0 _]. cbn [fst] in Hk0. rewrite wrapu_small by (unfold fits_u; lia).
    rewrite emplace_fresh by (apply Hn; by left).
    assert (take (Z.to_nat kPartSize) (bs ++ (l ≫= snd)) = bs /\ drop (Z.to_nat kPartSize) (bs ++ (l ≫= snd)) = l ≫= snd) as [-> ->].
    { destruct (decide (l = [])) as [->|Hne].
      - change ([] ≫= snd) with (@nil Z). rewrite app_nil_r. unfold len in Hb. by rewrite take_ge, drop_ge by lia.
      - rewrite <- (Hw Hne). unfold len. by rewrite Nat2Z.id, take_app_length, drop_app_length. }
    assert (l = [] \/ len bs = kPartSize) as Hlast by (destruct (decide (l = [])); [by left|right; auto]).
    assert (splitParts fuel (r + kPartSize) (l ≫= snd) (<[r:=bs]> result) = list_to_map l ∪ <[r:=bs]> result) as ->.
    { destruct Hlast as [->|<-]; [change ([] ≫= snd) with (@nil Z); cbn [list_to_map foldr]; rewrite (left_id_L ∅ (∪)); by destruct fuel|].
      apply IH; [done|lia|done|lia|]. intros o' Ho'. rewrite lookup_insert_ne; [apply Hn; by right|].
      apply list_elem_of_fmap in Ho' as (x & -> & Hx). pose proof (chain_keys _ _ Hc) as Hk2. rewrite Forall_forall in Hk2.
      specialize (Hk2 x Hx). simpl in Hk2. lia. }
    cbn [list_to_map foldr]. rewrite <- insert_union_l, <- insert_union_r; [done|].
    apply not_elem_of_list_to_map_1. intros (x & Ex & Hx)%list_elem_of_fmap. pose proof (chain_keys _ _ Hc) as Hk2.
    rewrite Forall_forall in Hk2. specialize (Hk2 x Hx). simpl in *. lia.
Qed.

Lemma parse_contiguous (p : PartsMap) (max : Z) : chain 0 (entries p) -> chain_end 0 (entries p) <= max < 2 ^ 31 ->
  IsContiguousSerialization (chain_end 0 (entries p)) max = true -> ParseCachedMap ∅ (entries p ≫= snd) max = (p, []).
Proof.
  intros Hc Hm Hs. unfold ParseCachedMap. pose proof (chain_end_len (entries p) 0) as El. pose proof (len_nonneg (entries p ≫= snd)).
  rewrite wraps_small by (unfold fits_s; lia). rewrite <- (Z.add_0_l (len _)), <- El, Hs. rewrite (proj2 (Z.ltb_ge _ _)) by lia.
  rewrite splitParts_chain; [|done|lia|lia| |intros; apply lookup_empty].
  - by rewrite list_to_map_entries, (right_id_L ∅ (∪)).
  - pose proof (chain_length _ _ Hc) as Hl. rewrite Z.sub_0_r in Hl. unfold len in Hl.
    assert (Z.of_nat (length (entries p)) - 1 <= chain_end 0 (entries p) / kPartSize); [|lia].
    apply Z.div_le_lower_bound; [done|]. lia.
Qed.

(** A list of parts is told from parts without a gap. *)
Lemma parse_listed (p : PartsMap) (max : Z) (rest : list Z) : entry_ok (wrapu 32 max) p -> (size p <= 80)%nat ->
  IsContiguousSerialization (len (serializeComplexSlice p ++ rest)) max = false -> len (serializeComplexSlice p ++ rest) < 2 ^ 31 ->
  ParseCachedMap ∅ (serializeComplexSlice p ++ rest) max = (p, rest).
Proof.
  intros Hp Hs Hc Hl. unfold ParseCachedMap. pose proof (len_nonneg (serializeComplexSlice p ++ rest)).
  rewrite wraps_small, Hc by (unfold fits_s; lia). by apply parse_complex.
Qed.
