(* ===== verification/SliceFacts.v ===== *)
(** * Streaming: one slice

    The bytes of a file, parts of it that are true, and what a slice of such
    parts gives to a player or asks for. *)

From S2P Require Import Prelude Tcp StateMonad SliceCache Slices CacheFacts.

(** ** Vectors *)

(** [v] holds the numbers [l], and has room for [n]. *)
Definition vec (n : nat) (l v : list Z) : Prop :=
  (kEnd ∉ l) /\ length v = n /\ (v = l \/ exists junk, v = l ++ kEnd :: junk).

Lemma not_end (l : list Z) : kEnd ∉ l -> forall x, x ∈ l -> is_value x = true.
Proof. intros H x Hx. apply negb_true_iff, Z.eqb_neq. by intros ->. Qed.

Lemma vec_point (n : nat) (l v : list Z) : vec n l v -> partition_point is_value v = length l.
Proof.
  intros (He & _ & [->|[junk ->]]).
  - rewrite <- (app_nil_r l) at 1. apply partition_point_app; [by apply not_end|]. by intros ? ?%not_elem_of_nil.
  - induction l as [|x l IH]; [done|]. apply not_elem_of_cons in He as [Hx He]. simpl.
    rewrite (not_end (x :: l)); [by rewrite IH| |by left]. by apply not_elem_of_cons.
Qed.

Lemma vec_new (n : nat) : (0 < n)%nat -> vec n [] (StackIntVector_new n).
Proof.
  intros Hn. unfold StackIntVector_new. split; [apply not_elem_of_nil|]. split; [|right; by eexists].
  cbn [length]. rewrite length_replicate. lia.
Qed.

Lemma vec_values (n : nat) (l v : list Z) : vec n l v -> values v = l.
Proof.
  intros H. unfold values. rewrite (vec_point n l v H). destruct H as (_ & _ & [->|[junk ->]]); [apply firstn_all|apply take_app_length].
Qed.

Lemma vec_length (n : nat) (l v : list Z) : vec n l v -> (length l <= n)%nat.
Proof. intros (_ & <- & [->|[junk ->]]); rewrite ?length_app; lia. Qed.

Lemma vec_add (n : nat) (l v : list Z) (x : Z) : vec n l v -> x <> kEnd ->
  if (length l <? n)%nat then exists v', add_int x v = (v', true) /\ vec n (l ++ [x]) v' else add_int x v = (v, false).
Proof.
  intros H Hx. pose proof (vec_point n l v H) as Hp. unfold add_int. rewrite Hp. destruct H as (He & Hn & H). rewrite Hn.
  destruct (Nat.ltb_spec (length l) n) as [Hl|Hl].
  - rewrite (proj2 (Nat.eqb_neq _ _)) by lia. eexists. split; [done|]. destruct H as [->|[junk ->]]; [lia|].
    split; [rewrite elem_of_app, list_elem_of_singleton; intros [?|?]; [done|by symmetry in H]|].
    split; [by rewrite !length_insert|]. rewrite <- (Nat.add_0_r (length l)), insert_app_r. simpl.
    rewrite Nat.add_0_r, <- Nat.add_1_r, insert_app_r. destruct junk as [|y junk]; [by left|right]. exists junk. by rewrite <- app_assoc.
  - rewrite (proj2 (Nat.eqb_eq _ _)); [done|]. pose proof (vec_length n l v ltac:(by split)). lia.
Qed.

Lemma vec_add_all (n : nat) (xs l v : list Z) : vec n l v -> kEnd ∉ xs ->
  vec n (take n (l ++ xs)) (add_all_ints xs v).
Proof.
  revert l v. induction xs as [|x xs IH]; intros l v H Hx; simpl.
  - rewrite app_nil_r, take_ge; [done|by apply (vec_length n l v)].
  - apply not_elem_of_cons in Hx as [Hx Hxs]. pose proof (vec_add n l v x H ltac:(done)) as Ha. pose proof (vec_length _ _ _ H).
    destruct (Nat.ltb_spec (length l) n) as [Hl|Hl].
    + destruct Ha as (v' & -> & Hv'). simpl. pose proof (IH _ _ Hv' Hxs) as Hi. by rewrite <- app_assoc in Hi.
    + rewrite Ha. simpl. pose proof (IH _ _ H Hxs) as Hi. rewrite !take_app_le in * by lia. done.
Qed.

(** ** The bytes of a file *)

Section Truth.
Context (C : Z -> Z) (S : Z).
Hypothesis size_positive : 0 < S.
Hypothesis size_bound : S <= 510 * kInSlice.

Definition content (o n : Z) : list Z := (fun i => C (o + Z.of_nat i)) <$> seq 0 (Z.to_nat n).
Definition part (o : Z) : list Z := content o (Z.min kPartSize (S - o)).

Lemma content_len (o n : Z) : 0 <= n -> len (content o n) = n.
Proof. intros. unfold len, content. rewrite length_fmap, length_seq. lia. Qed.

Lemma content_app (o a b : Z) : 0 <= a -> 0 <= b -> content o (a + b) = content o a ++ content (o + a) b.
Proof.
  intros Ha Hb. unfold content. rewrite Z2Nat.inj_add, seq_app, fmap_app by lia. f_equal.
  rewrite Nat.add_0_l, <- (Nat.add_0_r (Z.to_nat a)) at 1. rewrite <- fmap_add_seq, <- list_fmap_compose.
  apply list_fmap_ext. intros _ i _. simpl. f_equal. lia.
Qed.

Lemma content_sub (o n a b : Z) : 0 <= a -> 0 <= b -> a + b <= n -> subspan (content o n) a b = Some (content (o + a) b).
Proof.
  intros Ha Hb Hn. unfold subspan. pose proof (content_len o n ltac:(lia)) as Hl. unfold len in Hl.
  rewrite !(proj2 (Z.leb_le _ _)) by lia. simpl. f_equal.
  replace n with (a + (b + (n - a - b))) by lia. rewrite !content_app by lia.
  rewrite drop_app_length' by (unfold content; rewrite length_fmap, length_seq; lia).
  by rewrite take_app_length' by (unfold content; rewrite length_fmap, length_seq; lia).
Qed.

(** Parts of the file from [base] on, with offsets below [limit]. *)
Definition true_part (base limit : Z) (x : Z * list Z) : Prop :=
  0 <= x.1 < limit /\ base + x.1 < S /\ x.1 mod kPartSize = 0 /\ x.2 = part (base + x.1).
Definition true_parts (base limit : Z) (p : PartsMap) : Prop := forall o b, p !! o = Some b -> true_part base limit (o, b).

Lemma true_part_len (base limit : Z) (x : Z * list Z) : 0 <= base -> true_part base limit x ->
  len x.2 = Z.min kPartSize (S - base - x.1) /\ 0 < len x.2 <= kPartSize.
Proof.
  intros Hb (H1 & H2 & _ & ->). unfold part. sizes. rewrite content_len by lia. lia.
Qed.

(** ** What is there without a gap *)

Lemma grid_next (a b : Z) : a mod kPartSize = 0 -> b mod kPartSize = 0 -> a < b -> a + kPartSize <= b.
Proof.
  intros Ha Hb Hl. sizes. pose proof (Z.div_mod a kPartSize ltac:(lia)). pose proof (Z.div_mod b kPartSize ltac:(lia)).
  assert (a / kPartSize < b / kPartSize) by (apply Z.lt_nge; intros ?; nia). nia.
Qed.

Lemma grid_add (a : Z) : a mod kPartSize = 0 -> (a + kPartSize) mod kPartSize = 0.
Proof. intros Ha. sizes. by rewrite Z.add_mod, Ha, Z.mod_same by lia. Qed.

(** Sorted true parts from [r] on, below [till]: either they go on without a
    gap up to [till], or there is a first offset that is not among them. *)
Lemma find_start (base limit r till : Z) (l : list (Z * list Z)) : 0 <= base -> base + till <= S -> till < 2 ^ 32 - kPartSize ->
  Forall (true_part base limit) l -> StronglySorted (fun a b => a.1 < b.1) l ->
  Forall (fun x => r <= x.1 < till) l -> r mod kPartSize = 0 -> 0 <= r ->
  let e := FindNotLoadedStart l r in
  r <= e /\ (e < till -> e mod kPartSize = 0 /\ e ∉ l.*1) /\ (till <= e -> chain r l /\ chain_end r l = e).
Proof.
  intros Hb Ht Ht32 Htrue Hs Hk. revert r Hk. induction Hs as [|[o b] l Hs IH Ho]; intros r Hk Hr Hr0; simpl.
  - split; [lia|]. split; [|done]. intros _. split; [done|apply not_elem_of_nil].
  - apply Forall_cons in Htrue as [Hx Htrue]. apply Forall_cons in Hk as [Hk0 Hk]. simpl in Hk0.
    pose proof (true_part_len base limit (o, b) Hb Hx) as [El Hl]. simpl in El, Hl. sizes.
    rewrite wrapu_small by (unfold fits_u; lia). destruct (Z.leb_spec o r) as [Hle|Hlt]; simpl.
    + assert (o = r) as -> by lia. rewrite (proj2 (Z.leb_le _ _)) by lia.
      assert (S - base <= r + len b \/ len b = kPartSize) as [Hend|Hfull] by lia.
      { (* the last part of the file *)
        assert (l = []) as ->.
        { destruct l as [|[o2 b2] l]; [done|]. apply Forall_cons in Ho as [Ho _]. apply Forall_cons in Hk as [Hk _]. simpl in *.
          destruct Hx as (_ & _ & Hm & _). apply Forall_cons in Htrue as [(_ & _ & Hm2 & _) _]. simpl in *.
          pose proof (grid_next r o2 Hm Hm2 Ho). lia. }
        simpl. split; [lia|]. split; [lia|]. intros _. by split_and!; try lia. }
      destruct (IH Htrue (r + len b)) as (I1 & I2 & I3).
      { apply Forall_forall. intros y Hy. rewrite Forall_forall in Ho, Hk, Htrue. specialize (Ho y Hy). specialize (Hk y Hy). simpl in *.
        destruct (Htrue y Hy) as (_ & _ & Hm2 & _). pose proof (grid_next r y.1 Hr Hm2 Ho). lia. }
      { rewrite Hfull. by apply grid_add. }
      { lia. }
      split; [lia|]. split.
      * intros He. destruct (I2 He) as [? ?]. split; [done|]. rewrite not_elem_of_cons. split; [simpl; lia|done].
      * intros He. destruct (I3 He) as [? ?]. split; [|done]. split_and!; try done; lia.
    + split; [lia|]. split; [|lia]. intros _. split; [done|]. rewrite not_elem_of_cons. split; [simpl; lia|].
      intros (y & -> & Hy)%list_elem_of_fmap. rewrite Forall_forall in Ho. specialize (Ho y Hy). simpl in Ho. lia.
Qed.

Lemma copied (base limit r filled till : Z) (l : list (Z * list Z)) (buffer : list Z) : 0 <= base -> base + till <= S -> till < 2 ^ 31 ->
  Forall (true_part base limit) l -> chain r l -> Forall (fun x => x.1 < till) l -> r <= filled -> 0 <= r ->
  (l <> [] -> filled < till) -> (forall x, head l = Some x -> filled < x.1 + len x.2) -> till <= chain_end r l -> (l = [] -> filled = till) ->
  till - filled <= len buffer ->
  CopyLoaded buffer l filled till = Some (content (base + filled) (till - filled) ++ drop (Z.to_nat (till - filled)) buffer).
Proof.
  intros Hb Ht Ht32 Htrue. revert r filled buffer. induction Htrue as [|[o b] l Hx Htrue IH]; intros r filled buffer Hc Hk Hr Hr0 Hf Hh He Hn Hlen; cbn [CopyLoaded].
  - rewrite Hn, Z.sub_diag by done. done.
  - destruct Hc as (-> & Hb1 & Hw & Hc). apply Forall_cons in Hk as [Hk0 Hk]. simpl in Hk0. specialize (Hf ltac:(done)).
    specialize (Hh _ eq_refl). simpl in Hh. sizes. rewrite wrapu_small by (unfold fits_u; lia).
    pose proof (true_part_len base limit (r, b) Hb Hx) as [El _]. simpl in El.
    rewrite (proj2 (Z.leb_le _ _)), (proj2 (Z.ltb_lt _ _)) by lia. simpl.
    destruct Hx as (_ & _ & Hm & Eb). simpl in Hm, Eb. set (copyTill := Z.min (r + len b) till) in *.
    assert (b = content (base + r) (len b)) as Eb' by (rewrite El, <- Z.sub_add_distr; exact Eb).
    rewrite Eb', content_sub by (pose proof (len_nonneg b); lia). simpl. replace (base + r + (filled - r)) with (base + filled) by lia.
    rewrite content_len by lia. rewrite (proj2 (Z.ltb_ge _ _)) by lia.
    assert (length (content (base + filled) (copyTill - filled)) = Z.to_nat (copyTill - filled)) as El2
      by (pose proof (content_len (base + filled) (copyTill - filled) ltac:(lia)); unfold len in *; lia).
    rewrite El2.
    destruct (decide (l = [])) as [->|Hne].
    + simpl in He. assert (copyTill = till) as Ect by lia. cbn [CopyLoaded]. by rewrite Ect.
    + assert (copyTill = r + len b) as Ect.
      { apply Z.min_l. destruct l as [|[o2 b2] l]; [done|]. destruct Hc as (-> & _). apply Forall_cons in Hk as [Hk _]. simpl in Hk. lia. }
      assert (r + len b < till) as Hlt.
      { destruct l as [|[o2 b2] l]; [done|]. destruct Hc as (-> & _). apply Forall_cons in Hk as [Hk _]. simpl in Hk. lia. }
      rewrite (IH (r + len b)); [|done|done|lia|lia|lia| |exact He|done|unfold len in *; rewrite length_drop; lia].
      * simpl. rewrite app_assoc, drop_drop, Ect. replace (base + (r + len b)) with (base + filled + (r + len b - filled)) by lia.
        rewrite <- content_app by lia. do 2 f_equal; [f_equal; lia|f_equal; lia].
      * intros [o2 b2]. destruct l as [|y l]; [done|]. intros [= ->]. destruct Hc as (-> & Hb2 & _). simpl. lia.
Qed.

(** ** What is not there *)

Definition grid (o : Z) (n : nat) : list Z := (fun i => o + Z.of_nat i * kPartSize) <$> seq 0 n.

Lemma grid_S (o : Z) (n : nat) : grid o (Datatypes.S n) = o :: grid (o + kPartSize) n.
Proof.
  unfold grid. cbn [seq fmap list_fmap]. f_equal; [lia|]. rewrite <- fmap_S_seq, <- list_fmap_compose.
  apply list_fmap_ext. intros _ i _. unfold compose. rewrite Nat2Z.inj_succ. lia.
Qed.

Lemma grid_elem (o x : Z) (n : nat) : x ∈ grid o n <-> exists i, (i < n)%nat /\ x = o + Z.of_nat i * kPartSize.
Proof.
  unfold grid. rewrite list_elem_of_fmap. setoid_rewrite elem_of_seq. split.
  - intros (i & -> & Hi). exists i. split; [lia|done].
  - intros (i & Hi & ->). exists i. split; [done|lia].
Qed.

Lemma take_app_full {A} (n : nat) (l k : list A) : length l = n -> take n (l ++ k) = l.
Proof. intros <-. apply take_app_length. Qed.

Lemma offsets_loop (p : PartsMap) (fuel n : nat) (check : list (Z * list Z)) (o : Z) (l result : list Z) : (n < fuel)%nat -> 0 <= o ->
  o + Z.of_nat n * kPartSize < 2 ^ 32 -> StronglySorted (fun a b => a.1 < b.1) check ->
  (forall x b, o <= x -> (x, b) ∈ check <-> p !! x = Some b) -> vec kLoadFromRemoteMax l result ->
  exists v, offsetsLoop fuel check o (o + Z.of_nat n * kPartSize) result = Some v
    /\ vec kLoadFromRemoteMax (take kLoadFromRemoteMax (l ++ filter (fun x => p !! x = None) (grid o n))) v.
Proof.
  revert n check o l result. induction fuel as [|fuel IH]; intros n check o l result Hf Ho Ht Hs Hc Hv; [lia|]. cbn [offsetsLoop]. sizes.
  destruct n as [|n].
  - rewrite (proj2 (Z.eqb_eq _ _)) by lia. exists result. split; [done|]. cbn. rewrite app_nil_r, take_ge by (apply (vec_length _ _ _ Hv)). done.
  - rewrite (proj2 (Z.eqb_neq _ _)) by lia. set (c := drop _ check).
    assert (StronglySorted (fun a b : Z * list Z => a.1 < b.1) c /\ forall x b, o <= x -> (x, b) ∈ c <-> p !! x = Some b) as [Hsc Hcc].
    { subst c. rewrite <- (take_drop (partition_point (fun x => x.1 <? o) check) check) in Hs. pose proof Hs as Hs0.
      apply StronglySorted_app_iff in Hs as (_ & Hs & _). split; [done|]. intros x b Hx. rewrite <- Hc by done.
      split; intros Hin.
      - rewrite <- (take_drop (partition_point (fun x => x.1 <? o) check) check). apply elem_of_app. by right.
      - rewrite <- (take_drop (partition_point (fun x => x.1 <? o) check) check) in Hin. apply elem_of_app in Hin as [Hin|?]; [|done].
        apply partition_point_take in Hin. apply Z.ltb_lt in Hin. simpl in Hin. lia. }
    assert (forall x, x ∈ c -> o <= x.1) as Hge.
    { intros x Hx. apply Z.ltb_ge. subst c. apply (partition_point_after (fun x : Z * list Z => x.1 <? o) check x); [|done].
      eapply StronglySorted_impl; [|exact Hs]. intros a b _ _ Hab. cbn beta in *. rewrite !Z.ltb_lt. lia. }
    replace (o + Z.of_nat (Datatypes.S n) * kPartSize) with (o + kPartSize + Z.of_nat n * kPartSize) in * by lia.
    rewrite (wrapu_small 32 (o + kPartSize)) by (unfold fits_u; nia).
    assert (match c with x :: _ => x.1 =? o | [] => false end = bool_decide (is_Some (p !! o))) as ->.
    { destruct (p !! o) as [b|] eqn:E.
      - rewrite bool_decide_eq_true_2 by done. apply Hcc in E; [|lia]. destruct c as [|y c]; [by apply not_elem_of_nil in E|].
        apply Z.eqb_eq. apply elem_of_cons in E as [<-|E]; [done|]. inversion Hsc as [|? ? _ Hall]; subst. rewrite Forall_forall in Hall.
        specialize (Hall _ E). specialize (Hge y ltac:(left)). simpl in *. lia.
      - rewrite bool_decide_eq_false_2 by (intros [? ?]; congruence). destruct c as [|[y b] c]; [done|]. apply Z.eqb_neq. intros Ey. simpl in Ey.
        assert (p !! y = Some b) by (apply Hcc; [lia|left]). congruence. }
    rewrite grid_S, filter_cons. destruct (p !! o) as [b|] eqn:E.
    + rewrite bool_decide_eq_true_2 by done. rewrite decide_False by done.
      apply IH; [lia|lia|lia|done|intros; apply Hcc; lia|done].
    + rewrite bool_decide_eq_false_2 by (intros [? ?]; done). rewrite decide_True by done.
      pose proof (vec_add _ l result o Hv) as Ha. unfold kEnd in Ha. specialize (Ha ltac:(nia)). pose proof (vec_length _ _ _ Hv).
      destruct (Nat.ltb_spec (length l) kLoadFromRemoteMax).
      * destruct Ha as (v' & -> & Hv'). destruct (IH n c (o + kPartSize) (l ++ [o]) v') as (v & -> & Hw); [lia|lia|lia|done|intros; apply Hcc; lia|done|].
        exists v. split; [done|]. by rewrite <- app_assoc in Hw.
      * rewrite Ha. exists result. split; [done|]. by rewrite take_app_full by lia.
Qed.

(** The entries from the last one not after [from] on. *)
Lemma start_entries (p : PartsMap) (from : Z) :
  let l := entries p in let after := partition_point (fun x => x.1 <=? from) l in
  StronglySorted (fun a b => a.1 < b.1) (drop (after - 1) l)
  /\ (forall x b, from <= x -> (x, b) ∈ drop (after - 1) l <-> p !! x = Some b)
  /\ (after = 0%nat -> forall x, x <= from -> p !! x = None)
  /\ (after <> 0%nat -> exists o b r, drop (after - 1) l = (o, b) :: r /\ p !! o = Some b /\ o <= from
       /\ (forall x, o < x <= from -> p !! x = None) /\ Forall (fun x => from < x.1) r).
Proof.
  intros l after. pose proof (entries_sorted p) as Hs. fold l in Hs. pose proof (partition_point_le (fun x => x.1 <=? from) l) as Hle. fold after in Hle.
  assert (forall x, x ∈ drop after l -> from < x.1) as Hafter.
  { intros x Hx. apply Z.leb_gt. subst after. apply (partition_point_after (fun x : Z * list Z => x.1 <=? from) l x); [|done].
    eapply StronglySorted_impl; [|exact Hs]. intros a b _ _ Hab. cbn beta in *. rewrite !Z.leb_le. lia. }
  assert (forall x, x ∈ take after l -> x.1 <= from) as Hbefore by (intros x Hx; by apply Z.leb_le, (partition_point_take (fun x => x.1 <=? from) l)).
  destruct (Nat.eq_dec after 0%nat) as [E|E].
  - rewrite E in *. rewrite drop_0. split; [done|]. split; [intros; apply elem_of_entries|]. split; [|done]. intros _ x Hx.
    destruct (p !! x) as [b|] eqn:Ex; [|done]. apply elem_of_entries in Ex. specialize (Hafter (x, b)). rewrite drop_0 in Hafter.
    specialize (Hafter Ex). simpl in Hafter. lia.
  - destruct (lookup_lt_is_Some_2 l (after - 1)) as [[o b] Hx]; [lia|]. pose proof (drop_S l (o, b) (after - 1) Hx) as Ed.
    replace (Datatypes.S (after - 1)%nat) with after in Ed by lia. rewrite Ed. pose proof Hs as Hs2. rewrite <- (take_drop (after - 1) l), Ed in Hs2.
    apply StronglySorted_app_iff in Hs2 as (_ & Hs2 & Hlt). assert (o <= from) as Ho.
    { apply (Hbefore (o, b)). apply list_elem_of_lookup. exists (after - 1)%nat. by rewrite lookup_take_lt by lia. }
    split; [done|]. split; [|split; [done|]].
    + intros x b' Hxf. rewrite <- elem_of_entries. fold l. rewrite <- Ed. split; intros Hin.
      * rewrite <- (take_drop (after - 1) l). apply elem_of_app. by right.
      * rewrite <- (take_drop (after - 1) l) in Hin. apply elem_of_app in Hin as [Hin|?]; [|done].
        specialize (Hlt (x, b') (o, b) Hin ltac:(left)). simpl in Hlt. lia.
    + intros _. exists o, b, (drop after l). split; [done|]. split; [apply elem_of_entries, list_elem_of_lookup; by eexists|]. split; [done|].
      split; [|by apply Forall_forall]. intros x Hx2. destruct (p !! x) as [b'|] eqn:Ex; [|done]. apply elem_of_entries in Ex. fold l in Ex.
      rewrite <- (take_drop (after - 1) l), Ed in Ex. apply elem_of_app in Ex as [Ex|[[= -> ->]|Ex]%elem_of_cons].
      * specialize (Hlt _ (o, b) Ex ltac:(left)). simpl in Hlt. lia.
      * lia.
      * specialize (Hafter _ Ex). simpl in Hafter. lia.
Qed.

Lemma offsets_ok (s : Slice) (from till : Z) (n : nat) : 0 <= from -> till = from + Z.of_nat n * kPartSize -> till < 2 ^ 32 ->
  (n < kOffsetsFuel)%nat ->
  exists v, offsetsFromLoader from till s = Some v
    /\ vec kLoadFromRemoteMax (take kLoadFromRemoteMax (filter (fun x => parts s !! x = None) (grid from n))) v.
Proof.
  intros Hf -> Ht Hn. unfold offsetsFromLoader. destruct (start_entries (parts s) from) as (Hs & Hc & _).
  destruct (offsets_loop (parts s) kOffsetsFuel n _ from [] (StackIntVector_new kLoadFromRemoteMax) Hn Hf Ht Hs Hc) as (v & -> & Hv).
  - apply vec_new. unfold kLoadFromRemoteMax. lia.
  - by exists v.
Qed.

Definition asks (s : Slice) (l : list Z) : Prop := forall o, o ∈ l -> 0 <= o /\ o mod kPartSize = 0 /\ parts s !! o = None.

(** What is asked for up to the parts after [till], from [x] on. *)
Lemma ask_from (s : Slice) (x till : Z) : 0 <= x -> x mod kPartSize = 0 -> x <= till + kPartSize -> 0 <= till <= kMaxOnlyInHeader ->
  exists v l, offsetsFromLoader x (wrapu 32 (((till + kPartSize - 1) / kPartSize + kPreloadPartsAhead) * kPartSize)) s = Some v
    /\ vec kLoadFromRemoteMax l v /\ asks s l /\ (forall o, o ∈ l -> x <= o) /\ (parts s !! x = None -> x ∈ l).
Proof.
  intros Hx Hm Hle Ht. sizes. set (q := (till + kPartSize - 1) / kPartSize + kPreloadPartsAhead).
  pose proof (Z.div_mod (till + kPartSize - 1) kPartSize ltac:(lia)) as D. pose proof (Z.mod_pos_bound (till + kPartSize - 1) kPartSize ltac:(lia)) as B.
  pose proof (Z.div_mod x kPartSize ltac:(lia)) as Dx. rewrite Hm in Dx. unfold kPreloadPartsAhead in q.
  assert (till <= (q - 8) * kPartSize < till + kPartSize) by nia. assert (x / kPartSize < q) by nia. assert (0 <= x / kPartSize) by nia.
  assert (q <= 256 - 1) by nia. rewrite (wrapu_small 32 (q * kPartSize)) by (unfold fits_u; nia).
  destruct (offsets_ok s x (q * kPartSize) (Z.to_nat (q - x / kPartSize)) Hx) as (v & E & Hv).
  { rewrite Z2Nat.id by lia. nia. }
  { nia. }
  { unfold kOffsetsFuel. lia. }
  exists v, (take kLoadFromRemoteMax (filter (fun x => parts s !! x = None) (grid x (Z.to_nat (q - x / kPartSize))))).
  split; [done|]. split; [done|]. split; [|split].
  - intros o Ho. apply (subseteq_take) in Ho. apply list_elem_of_filter in Ho as [Hn Hg]. apply grid_elem in Hg as (i & Hi & ->).
    split; [nia|]. split; [|done]. rewrite Z.mod_add by lia. done.
  - intros o Ho. apply (subseteq_take) in Ho. apply list_elem_of_filter in Ho as [_ Hg]. apply grid_elem in Hg as (i & _ & ->). nia.
  - intros Hn. destruct (Z.to_nat (q - x / kPartSize)) as [|n] eqn:En; [lia|]. rewrite grid_S, filter_cons, decide_True by done.
    unfold kLoadFromRemoteMax. simpl. left.
Qed.

(** What a slice does for [from] to [till]: the bytes when they are there, and
    otherwise the first part that is not is asked for. *)
Definition prepared (base from till : Z) (s : Slice) (r : PrepareFillResult) : Prop :=
  exists l, vec kLoadFromRemoteMax l (offsets r) /\ asks s l /\
    if ready r then (forall o, o ∈ l -> till <= o) /\ forall buffer, till - from <= len buffer ->
      CopyLoaded buffer (range r) from till = Some (content (base + from) (till - from) ++ drop (Z.to_nat (till - from)) buffer)
    else exists o, o ∈ l /\ from < o + kPartSize /\ o < till.

Lemma prepare_ok (base limit from till : Z) (s : Slice) : true_parts base limit (parts s) -> 0 <= base -> 0 <= from < till ->
  base + till <= S -> till <= kMaxOnlyInHeader -> exists r, prepareFill from till s = Some r /\ prepared base from till s r.
Proof.
  intros Htrue Hb Hft Hts Htm. unfold prepareFill. sizes. set (fromOffset := from / kPartSize * kPartSize).
  pose proof (Z.div_mod from kPartSize ltac:(lia)) as D. pose proof (Z.mod_pos_bound from kPartSize ltac:(lia)) as B.
  assert (fromOffset mod kPartSize = 0) as Hfm by (apply Z.mod_mul; lia). assert (fromOffset <= from < fromOffset + kPartSize) as Hfo by lia.
  assert (0 <= fromOffset) as Hf0 by nia.
  destruct (start_entries (parts s) from) as (Hs & Hc & Hnone & Hstart). set (after := partition_point _ _) in *.
  destruct (Nat.eqb_spec after 0) as [Ea|Ea].
  - destruct (ask_from s fromOffset till) as (v & l & -> & Hv & Hl & _ & Hx); [lia|done|lia|lia|].
    eexists. split; [done|]. exists l. split; [done|]. split; [done|]. exists fromOffset. split; [|lia]. apply Hx, (Hnone Ea). lia.
  - destruct (Hstart Ea) as (o & b & r & Er & Ho & Hle & Hgap & Hr). rewrite Er in *. destruct (Htrue o b Ho) as (Ho0 & _ & Hom & _). simpl in Ho0, Hom.
    set (found := take _ _).
    assert (Forall (true_part base limit) found /\ StronglySorted (fun a b => a.1 < b.1) found /\ Forall (fun x => x.1 < till) found) as (Hft1 & Hfs & Hfk).
    { split_and!.
      - apply Forall_forall. intros [x b'] Hx. apply subseteq_take in Hx. apply Htrue. destruct (Z.le_gt_cases from x); [by apply Hc|].
        apply elem_of_cons in Hx as [[= -> ->]|Hx]; [done|]. rewrite Forall_forall in Hr. specialize (Hr _ Hx). simpl in Hr. lia.
      - rewrite <- (take_drop (partition_point (fun x => x.1 <? till) ((o, b) :: r)) ((o, b) :: r)) in Hs. by apply StronglySorted_app_iff in Hs as (? & _).
      - apply Forall_forall. intros x Hx. by apply Z.ltb_lt, (partition_point_take (fun x => x.1 <? till) ((o, b) :: r)). }
    assert (exists r', found = (o, b) :: r' /\ Forall (fun x => from < x.1) r') as (r' & Ef & Hr').
    { unfold found. cbn [partition_point fst]. rewrite (proj2 (Z.ltb_lt _ _)) by lia. cbn [take]. eexists. split; [done|]. by apply Forall_take. }
    destruct (Z.eq_dec o fromOffset) as [->|Hne].
    + destruct (find_start base limit fromOffset till found) as (F1 & F2 & F3); [done|done|lia|done|done| |done|done|].
      { rewrite Ef in *. apply Forall_cons in Hfk as [_ Hfk]. constructor; [simpl; lia|]. apply Forall_forall. intros x Hx.
        rewrite Forall_forall in Hfk, Hr'. specialize (Hfk x Hx). specialize (Hr' x Hx). simpl in *. lia. }
      set (e := FindNotLoadedStart found fromOffset) in *. destruct (Z.ltb_spec e till) as [He|He].
      * destruct (F2 He) as [Hem Hen]. destruct (ask_from s e till) as (v & l & -> & Hv & Hl & _ & Hx); [lia|done|lia|lia|].
        eexists. split; [done|]. exists l. split; [done|]. split; [done|]. exists e. split; [|lia]. apply Hx.
        destruct (parts s !! e) as [b'|] eqn:Ee; [|done]. destruct Hen. apply list_elem_of_fmap. exists (e, b'). split; [done|].
        destruct (Z.eq_dec e fromOffset) as [->|Hn]; [rewrite Ho in Ee; injection Ee as <-; rewrite Ef; by left|].
        pose proof (grid_next fromOffset e Hfm Hem ltac:(lia)). apply Hc in Ee; [|lia].
        rewrite <- (take_drop (partition_point (fun x => x.1 <? till) ((fromOffset, b) :: r)) ((fromOffset, b) :: r)) in Ee.
        apply elem_of_app in Ee as [?|Ee]; [done|]. exfalso. apply (partition_point_after (fun x : Z * list Z => x.1 <? till)) in Ee.
        -- apply Z.ltb_ge in Ee. simpl in Ee. lia.
        -- eapply StronglySorted_impl; [|exact Hs]. intros x y _ _ Hxy. cbn beta in *. rewrite !Z.ltb_lt. lia.
      * destruct (F3 He) as [Hch Hend]. set (tp := (till + kPartSize - 1) / kPartSize).
        pose proof (Z.div_mod (till + kPartSize - 1) kPartSize ltac:(lia)) as D2. pose proof (Z.mod_pos_bound (till + kPartSize - 1) kPartSize ltac:(lia)) as B2.
        fold tp in D2. rewrite (wrapu_small 32 (tp * kPartSize)) by (unfold fits_u; nia).
        destruct (ask_from s (tp * kPartSize) till) as (v & l & E & Hv & Hl & Hge & _); [nia|apply Z.mod_mul; lia|nia|lia|]. fold tp in E. rewrite E.
        eexists. split; [done|]. exists l. split; [done|]. split; [done|]. cbn [ready range]. split; [intros o' Ho'; specialize (Hge o' Ho'); nia|]. intros buffer Hbuf.
        apply (copied base limit fromOffset); try done; try lia.
        rewrite Ef. intros x [= <-]. simpl. rewrite Ef in Hft1, Hch. apply Forall_cons in Hft1 as [Hp _].
        destruct (true_part_len base limit (fromOffset, b) Hb Hp) as [El _]. simpl in El. lia.
        rewrite Ef. done.
    + assert (o < fromOffset) as Hlt.
      { destruct (Z.lt_trichotomy o fromOffset) as [?|[?|?]]; [done|done|].
        pose proof (grid_next fromOffset o Hfm Hom ltac:(lia)). lia. }
      pose proof (grid_next o fromOffset Hom Hfm Hlt). assert (FindNotLoadedStart found fromOffset = fromOffset) as ->.
      { rewrite Ef in *. cbn [FindNotLoadedStart]. apply Forall_cons in Hft1 as [Hp _]. destruct (true_part_len base limit (o, b) Hb Hp) as [El ?]. simpl in El.
        rewrite wrapu_small by (unfold fits_u; simpl in *; lia). destruct (_ && _) eqn:E; [|done]. apply andb_true_iff in E as [_ E%Z.leb_le].
        assert (o + len b = fromOffset) as -> by (simpl in *; lia). destruct r' as [|[x b'] r']; [done|]. cbn [FindNotLoadedStart].
        apply Forall_cons in Hr' as [Hx _]. simpl in Hx. by rewrite (proj2 (Z.leb_gt _ _)) by lia. }
      rewrite (proj2 (Z.ltb_lt _ _)) by lia. destruct (ask_from s fromOffset till) as (v & l & -> & Hv & Hl & _ & Hx); [lia|done|lia|lia|].
      eexists. split; [done|]. exists l. split; [done|]. split; [done|]. exists fromOffset. split; [|lia]. apply Hx, Hgap. lia.
Qed.

End Truth.
