(* ===== verification/SlicesFacts.v ===== *)
(** * Streaming: the invariant of the slices

    What is in memory is true, and the flags say what was read from the cache
    and what is to be written. *)

From S2P Require Import Prelude Tcp StateMonad SliceCache Slices CacheFacts SliceFacts.

Definition base (i : nat) : Z := Z.of_nat i * kInSlice.
Definition index_of (o : Z) : nat := Z.to_nat (o / kInSlice).

Lemma index_base (o : Z) : 0 <= o -> base (index_of o) <= o < base (index_of o) + kInSlice.
Proof.
  intros Ho. unfold base, index_of. sizes. pose proof (Z.div_mod o kInSlice ltac:(lia)). pose proof (Z.mod_pos_bound o kInSlice ltac:(lia)).
  assert (0 <= o / kInSlice) by (apply Z.div_pos; lia). rewrite Z2Nat.id by done. lia.
Qed.

Lemma index_unique (o : Z) (i : nat) : base i <= o < base i + kInSlice -> index_of o = i.
Proof.
  intros H. unfold base, index_of in *. sizes. rewrite <- (Nat2Z.id i). f_equal. symmetry. apply (Z.div_unique o kInSlice _ (o - Z.of_nat i * kInSlice)); lia.
Qed.

(** At most 64 parts fit in a slice, and 80 in a header with everything. *)
Lemma grid_size (p : PartsMap) (n : nat) : (forall o b, p !! o = Some b -> 0 <= o < Z.of_nat n * kPartSize /\ o mod kPartSize = 0) ->
  (base.size p <= n)%nat.
Proof.
  intros H. rewrite <- size_dom. change (length (elements (dom p)) <= n)%nat.
  assert (length (grid 0 n) = n) as <- by (unfold grid; by rewrite length_fmap, length_seq).
  apply submseteq_length, NoDup_submseteq; [apply NoDup_elements|]. intros o [b Ho]%elem_of_elements%elem_of_dom.
  destruct (H o b Ho) as [Hr Hm]. sizes. apply grid_elem. exists (Z.to_nat (o / kPartSize)).
  pose proof (Z.div_mod o kPartSize ltac:(lia)). assert (0 <= o / kPartSize) by (apply Z.div_pos; lia). split; nia.
Qed.

(** ** But for what is known to be in the cache *)

Definition core (x : Slice) : Slice := set_full false x.
Definition bare (s : Slices) : Slices :=
  mk_slices (core <$> data s) (core (header s)) (usedSlices s) (size s) (headerMode s) false.
Definition like (s t : Slices) : Prop := bare s = bare t.
#[export] Instance like_equivalence : Equivalence like.
Proof. split; [by intros s|by intros s t|]. intros s t u E1 E2. unfold like in *. congruence. Qed.

Lemma like_data (s t : Slices) : like s t -> core <$> data s = core <$> data t.
Proof. intros E. exact (f_equal data E). Qed.
Lemma like_header (s t : Slices) : like s t -> core (header s) = core (header t).
Proof. intros E. exact (f_equal header E). Qed.
Lemma like_size (s t : Slices) : like s t -> size s = size t.
Proof. intros E. exact (f_equal size E). Qed.
Lemma like_mode (s t : Slices) : like s t -> headerMode s = headerMode t.
Proof. intros E. exact (f_equal headerMode E). Qed.
Lemma like_used (s t : Slices) : like s t -> usedSlices s = usedSlices t.
Proof. intros E. exact (f_equal usedSlices E). Qed.
Lemma like_length (s t : Slices) : like s t -> length (data s) = length (data t).
Proof. intros E%like_data%(f_equal length). by rewrite !length_fmap in E. Qed.
Lemma like_lookup (s t : Slices) (i : nat) (x : Slice) : like s t -> data s !! i = Some x -> exists y, data t !! i = Some y /\ core x = core y.
Proof.
  intros E%like_data%(f_equal (fun l => l !! i)) Hx. rewrite !list_lookup_fmap, Hx in E.
  destruct (data t !! i) as [y|]; [|done]. exists y. split; [done|]. cbn [fmap option_fmap option_map] in E. congruence.
Qed.

Lemma core_eq (x y : Slice) : core x = core y -> parts x = parts y /\ loadingFromCache x = loadingFromCache y
  /\ loadedFromCache x = loadedFromCache y /\ changedSinceCache x = changedSinceCache y.
Proof. destruct x, y. by intros [= -> -> -> ->]. Qed.

Section Slices.
Context (C : Z -> Z) (S : Z).
Hypothesis size_positive : 0 < S.
Hypothesis size_bound : S <= 510 * kInSlice.

Definition full : bool := IsFullInHeader S.
Definition slice_count : nat := if full then O else Z.to_nat ((S + kInSlice - 1) / kInSlice).

Record flags_ok (x : Slice) : Prop := {
  flag_one : loadingFromCache x = true -> loadedFromCache x = false;
  flag_changed : changedSinceCache x = true -> loadedFromCache x = true /\ parts x <> ∅ }.

Definition untouched (x : Slice) : Prop := loadingFromCache x = false /\ loadedFromCache x = false.

(** What the header has of slice [i] is in the slice. *)
Definition applied (h : PartsMap) (i : nat) (x : Slice) : Prop :=
  forall o, 0 <= o < kInSlice -> is_Some (h !! (base i + o)) -> is_Some (parts x !! o).

Definition mode_ok (s : Slices) : Prop :=
  match headerMode s with
  | NoCache => untouched (header s) /\ Forall untouched (data s)
  | Unknown => Forall untouched (data s) /\ loadedFromCache (header s) = negb (loadingFromCache (header s))
      /\ (loadingFromCache (header s) = true -> parts (header s) = ∅ /\ Forall (fun x => parts x = ∅) (data s))
      /\ (forall i x, data s !! i = Some x -> applied (parts (header s)) i x)
  | Small => full = false /\ loadedFromCache (header s) = true /\ ComputeIsGoodHeader S (parts (header s)) = false
  | Full => full = true /\ loadedFromCache (header s) = true
  | Good => full = false /\ loadedFromCache (header s) = true /\ parts (header s) <> ∅ /\ ComputeIsGoodHeader S (parts (header s)) = true
      /\ forall x, data s !! 0%nat = Some x -> (changedSinceCache (header s) = true -> loadedFromCache x = true)
        /\ (loadedFromCache x = true -> applied (parts (header s)) 0 x)
  end.

Record sound (s : Slices) : Prop := {
  sd_size : size s = S;
  sd_count : length (data s) = slice_count;
  sd_header : true_parts C S 0 S (parts (header s));
  sd_slice : forall i x, data s !! i = Some x -> true_parts C S (base i) kInSlice (parts x);
  sd_header_flags : flags_ok (header s);
  sd_flags : Forall flags_ok (data s);
  sd_many : full = false -> (base.size (parts (header s)) <= kMaxPartsInHeader)%nat;
  sd_used : Forall (fun i => (i < slice_count)%nat) (usedSlices s);
  sd_mode : mode_ok s }.

Lemma full_in_header : full = true <-> S <= kMaxOnlyInHeader.
Proof. unfold full, IsFullInHeader. apply Z.leb_le. Qed.

Lemma sound_full (s : Slices) : sound s -> isFullInHeader s = full.
Proof. intros H. unfold isFullInHeader. by rewrite (sd_size _ H). Qed.

Lemma slice_count_ok : full = false -> base slice_count - kInSlice < S <= base slice_count /\ (0 < slice_count <= 510)%nat.
Proof.
  intros E. assert (~ S <= kMaxOnlyInHeader) by (rewrite <- full_in_header, E; done). unfold slice_count, base. rewrite E. sizes.
  pose proof (Z.div_mod (S + kInSlice - 1) kInSlice ltac:(lia)). pose proof (Z.mod_pos_bound (S + kInSlice - 1) kInSlice ltac:(lia)).
  assert (0 <= (S + kInSlice - 1) / kInSlice) by (apply Z.div_pos; lia). rewrite Z2Nat.id by done. split; [lia|].
  assert (0 < (S + kInSlice - 1) / kInSlice <= 510) by nia. lia.
Qed.

Lemma index_in (o : Z) : full = false -> 0 <= o < S -> (index_of o < slice_count)%nat.
Proof.
  intros E Ho. destruct (slice_count_ok E) as [H1 _]. pose proof (index_base o ltac:(lia)). unfold base in *. sizes. nia.
Qed.

Lemma count_is : full = false -> SlicesCount S = Some (Z.of_nat slice_count).
Proof.
  intros E. destruct (slice_count_ok E) as [_ H2]. unfold SlicesCount. sizes. rewrite wrapu_small by (unfold fits_u; lia).
  unfold slice_count in *. rewrite E in *. assert (0 <= (S + kInSlice - 1) / kInSlice) by (apply Z.div_pos; lia).
  rewrite Z2Nat.id by done. by rewrite (proj2 (Z.ltb_lt _ _)) by lia.
Qed.

Lemma sound_like (s t : Slices) : like s t -> sound s -> sound t.
Proof.
  intros E [H1 H2 H3 H4 H5 H6 H7 H8 H9]. pose proof (core_eq _ _ (like_header _ _ E)) as (P1 & P2 & P3 & P4).
  assert (forall i y, data t !! i = Some y -> exists x, data s !! i = Some x /\ core y = core x) as Hl
    by (intros i y; apply like_lookup; by symmetry).
  assert (forall (P : Slice -> Prop), (forall x y, core y = core x -> P x -> P y) -> Forall P (data s) -> Forall P (data t)) as Hf.
  { intros P Hp Ha. apply Forall_lookup. intros i y Hy. destruct (Hl i y Hy) as (x & Hx & Ec). rewrite Forall_lookup in Ha. eauto. }
  split.
  - by rewrite <- (like_size _ _ E).
  - by rewrite <- (like_length _ _ E).
  - by rewrite <- P1.
  - intros i y Hy. destruct (Hl i y Hy) as (x & Hx & Ec). destruct (core_eq _ _ Ec) as (-> & _). by apply H4.
  - destruct H5. split; by rewrite <- ?P1, <- ?P2, <- ?P3, <- ?P4.
  - apply Hf; [|done]. intros x y (Q1 & Q2 & Q3 & Q4)%core_eq [? ?]. split; by rewrite ?Q1, ?Q2, ?Q3, ?Q4.
  - by rewrite <- P1.
  - by rewrite <- (like_used _ _ E).
  - assert (Forall untouched (data s) -> Forall untouched (data t)) as Hu
      by (apply Hf; intros x y (Q1 & Q2 & Q3 & Q4)%core_eq [? ?]; split; congruence).
    unfold mode_ok in *. rewrite <- (like_mode _ _ E). destruct (headerMode s).
    + destruct H9 as (A1 & A2 & A3 & A4). split; [by apply Hu|]. rewrite <- P1, <- P2, <- P3. split; [done|]. split.
      * intros Hx. destruct (A3 Hx) as [? ?]. split; [done|]. eapply Hf; [|done]. intros x y (Q & _)%core_eq. by rewrite Q.
      * intros i y Hy. destruct (Hl i y Hy) as (x & Hx & (Q & _)%core_eq). unfold applied. rewrite Q. exact (A4 i x Hx).
    + by rewrite <- P1, <- P3.
    + rewrite <- P1, <- P3, <- P4. destruct H9 as (A1 & A2 & A3 & A5 & A4). split_and!; try done. intros y Hy.
      destruct (Hl 0%nat y Hy) as (x & Hx & (Q & _ & Q3 & _)%core_eq). unfold applied. rewrite Q, Q3. exact (A4 x Hx).
    + by rewrite <- P3.
    + destruct H9 as [[? ?] ?]. split; [split; congruence|by apply Hu].
Qed.

(** ** The parts of a file that come *)

Definition at_ (n : nat) (s : Slices) : option Slice := match n with O => Some (header s) | Datatypes.S i => data s !! i end.

Lemma wp_slice_at {A} (n : nat) (k : Slice -> M Slices A) Q s x : at_ n s = Some x -> wp (k x) Q s -> wp (y <- slice_at n ;; k y) Q s.
Proof. intros H Hk. unfold wp, bind, slice_at. destruct n as [|i]; simpl in H; [by injection H as ->|by rewrite H]. Qed.

Lemma set_full_like (n : nat) (s : Slices) (x : Slice) (b : bool) : at_ n s = Some x ->
  like s (match n with O => set_header (set_full b x) s | Datatypes.S i => set_data (<[i := set_full b x]> (data s)) s end).
Proof.
  intros H. destruct n as [|i]; simpl in H; unfold like, bare; [by injection H as <-|]. cbn. f_equal.
  rewrite list_fmap_insert. symmetry. apply list_insert_id. rewrite list_lookup_fmap, H. done.
Qed.

Lemma set_all_like (b : bool) (s : Slices) : like s (set_all b s).
Proof. done. Qed.

Lemma at_some (n : nat) (s : Slices) : sound s -> (n <= slice_count)%nat -> is_Some (at_ n s).
Proof. intros H Hn. destruct n as [|i]; [by eexists|]. simpl. apply lookup_lt_is_Some. by rewrite (sd_count _ H). Qed.

Lemma checkSliceFullLoaded_ok (n : nat) (s : Slices) : is_Some (at_ n s) -> wp (checkSliceFullLoaded n) (fun _ s' => like s s') s.
Proof.
  intros [x Hx]. unfold checkSliceFullLoaded. apply wp_bind, wp_gets. destruct (_ && _); [by apply wp_ret|].
  apply (wp_slice_at n _ _ s x Hx). unfold id. cbv zeta.
  destruct (fullInCache x && _); [|destruct (negb (fullInCache x) && _); [|by apply wp_ret]]; apply wp_bind, wp_modify, wp_modify;
    (etrans; [eapply (set_full_like n); exact Hx|]); apply set_all_like.
Qed.

(** What a part changes in its slice. *)
Definition added (o : Z) (bytes : list Z) (x : Slice) : Slice :=
  let x := set_parts (<[o := bytes]> (parts x)) x in if loadedFromCache x then set_changed true x else x.

Lemma addPart_ok (o : Z) (bytes : list Z) (x : Slice) : parts x !! o = None -> addPart o bytes x = Some (added o bytes x).
Proof. intros Ho. unfold addPart. by rewrite Ho, bool_decide_eq_false_2 by (by intros [? ?]). Qed.

Lemma added_parts (o : Z) (bytes : list Z) (x : Slice) : parts (added o bytes x) = <[o := bytes]> (parts x).
Proof. unfold added. by destruct (loadedFromCache _). Qed.
Lemma added_loading (o : Z) (bytes : list Z) (x : Slice) : loadingFromCache (added o bytes x) = loadingFromCache x.
Proof. unfold added. by destruct (loadedFromCache _). Qed.
Lemma added_loaded (o : Z) (bytes : list Z) (x : Slice) : loadedFromCache (added o bytes x) = loadedFromCache x.
Proof. unfold added. simpl. destruct (loadedFromCache x) eqn:E; simpl; by rewrite E. Qed.
Lemma added_changed (o : Z) (bytes : list Z) (x : Slice) : changedSinceCache (added o bytes x) = changedSinceCache x || loadedFromCache x.
Proof. unfold added. simpl. destruct (loadedFromCache x); simpl; [by rewrite orb_true_r|by rewrite orb_false_r]. Qed.

Lemma added_full (o : Z) (bytes : list Z) (x : Slice) : fullInCache (added o bytes x) = fullInCache x.
Proof. unfold added. simpl. by destruct (loadedFromCache x). Qed.

Lemma added_flags (o : Z) (bytes : list Z) (x : Slice) : flags_ok x -> flags_ok (added o bytes x).
Proof.
  intros [H1 H2]. split; rewrite ?added_loading, ?added_loaded, ?added_changed, ?added_parts; [done|]. intros [E|E]%orb_true_iff.
  - split; [by apply H2|apply insert_non_empty].
  - split; [done|apply insert_non_empty].
Qed.

Lemma true_added (base limit o : Z) (x : Slice) : 0 <= base -> 0 <= o < limit -> base + o < S -> o mod kPartSize = 0 ->
  true_parts C S base limit (parts x) -> true_parts C S base limit (parts (added o (part C S (base + o)) x)).
Proof.
  intros Hb Ho Hs Hm H o' b. rewrite added_parts. intros [[<- <-]|[_ ?]]%lookup_insert_Some; [split; [done|by split]|by apply H].
Qed.

(** The file has no part at [o] yet, where it would be put. *)
Definition absent (s : Slices) (o : Z) : Prop :=
  if full then parts (header s) !! o = None
  else (forall x, data s !! index_of o = Some x -> parts x !! (o - base (index_of o)) = None)
    /\ (headerMode s = Good -> index_of o = 0%nat -> parts (header s) !! o = None).

Definition on_grid (o : Z) : Prop := 0 <= o < S /\ o mod kPartSize = 0.

Lemma on_grid_slice (o : Z) : on_grid o -> 0 <= o - base (index_of o) < kInSlice /\ (o - base (index_of o)) mod kPartSize = 0.
Proof.
  intros [Ho Hm]. pose proof (index_base o ltac:(lia)). split; [lia|]. unfold base.
  replace (Z.of_nat (index_of o) * kInSlice) with (Z.of_nat (index_of o) * 64 * kPartSize) by (sizes; lia).
  sizes. by rewrite Zminus_mod, Z.mod_mul, Hm, Z.sub_0_r, Z.mod_0_l by lia.
Qed.

(** What a part changes. *)
Definition in_header (o : Z) (bytes : list Z) (s : Slices) : Slices := set_header (added o bytes (header s)) s.
Definition in_slice (o : Z) (bytes : list Z) (s : Slices) : Slices :=
  set_data (alter (added (o - base (index_of o)) bytes) (index_of o) (data s)) s.
Definition fed (o : Z) (bytes : list Z) (s : Slices) : Slices :=
  if full then in_header o bytes s
  else in_slice o bytes (if headerModeUnknown s && (base.size (parts (header s)) <? kMaxPartsInHeader)%nat then in_header o bytes s else s).

Lemma alter_insert_list {A} (f : A -> A) (i : nat) (l : list A) (x : A) : l !! i = Some x -> alter f i l = <[i := f x]> l.
Proof. revert i. induction l as [|y l IH]; intros [|i] H; simpl in *; try done; [by injection H as ->|]. f_equal. by apply IH. Qed.

Lemma in_header_sound (o : Z) (s : Slices) : sound s -> on_grid o -> parts (header s) !! o = None ->
  (full = true \/ (base.size (parts (header s)) < kMaxPartsInHeader)%nat) ->
  match headerMode s with
  | Unknown => loadingFromCache (header s) = false /\ (forall x, data s !! index_of o = Some x -> is_Some (parts x !! (o - base (index_of o))))
  | Good | Small => False | _ => True end ->
  sound (in_header o (part C S o) s).
Proof.
  intros [H1 H2 H3 H4 H5 H6 H7 H8 H9] [Ho Hm] Hn Hs Hmode. assert (true_parts C S 0 S (parts (added o (part C S o) (header s)))) as Ht
    by (apply (true_added 0 S o); try done; lia).
  split; try done; simpl.
  - by apply added_flags.
  - intros Ef. destruct Hs as [?|Hs]; [congruence|]. rewrite added_parts, map_size_insert, Hn. lia.
  - unfold mode_ok in *. simpl. destruct (headerMode s) eqn:E.
    + destruct H9 as (A1 & A2 & A3 & A4), Hmode as [Hl Hx]. rewrite added_loading, added_loaded, added_parts. split; [done|]. split; [done|].
      split; [by rewrite Hl|]. intros i x Hi o' Ho' Hin. destruct (decide (base i + o' = o)) as [Eo|Eo].
      * assert (index_of o = i) as Ei by (apply index_unique; lia). rewrite Ei in Hx. specialize (Hx x Hi).
        by replace (o - base i) with o' in Hx by lia.
      * rewrite lookup_insert_ne in Hin by done. by apply (A4 i x Hi).
    + done.
    + done.
    + by rewrite added_loaded.
    + destruct H9 as [[? ?] ?]. split; [|done]. split; by rewrite ?added_loading, ?added_loaded.
Qed.

Lemma in_slice_sound (o : Z) (s : Slices) : sound s -> on_grid o -> full = false ->
  (headerMode s = Unknown -> loadingFromCache (header s) = false) -> sound (in_slice o (part C S o) s).
Proof.
  intros [H1 H2 H3 H4 H5 H6 H7 H8 H9] Ho Ef Hl. pose proof (on_grid_slice o Ho) as [Hr Hm]. destruct Ho as [Ho _].
  pose proof (index_in o Ef Ho) as Hi. destruct (lookup_lt_is_Some_2 (data s) (index_of o)) as [x Hx]; [by rewrite H2|].
  assert (forall j y, alter (added (o - base (index_of o)) (part C S o)) (index_of o) (data s) !! j = Some y -> exists z, data s !! j = Some z
    /\ (y = z \/ j = index_of o /\ y = added (o - base (index_of o)) (part C S o) z)) as Hj.
  { intros j y. destruct (decide (j = index_of o)) as [->|Hne]; [rewrite list_lookup_alter, Hx|rewrite list_lookup_alter_ne by done].
    - rewrite decide_True by done. intros Ey. injection Ey as Ey. exists x. split; [done|right; by split].
    - intros Hy. exists y. split; [done|by left]. }
  assert (forall P : Slice -> Prop, (forall z, P z -> P (added (o - base (index_of o)) (part C S o) z)) -> Forall P (data s) ->
    Forall P (alter (added (o - base (index_of o)) (part C S o)) (index_of o) (data s))) as Hf.
  { intros P Hp Ha. apply Forall_lookup. intros j y Hy. rewrite Forall_lookup in Ha. destruct (Hj j y Hy) as (z & Hz & [->|[_ ->]]); eauto. }
  assert (Forall untouched (data s) -> Forall untouched (alter (added (o - base (index_of o)) (part C S o)) (index_of o) (data s))) as Hu.
  { apply Hf. intros z [? ?]. split; by rewrite ?added_loading, ?added_loaded. }
  assert (forall i h y z, y = z \/ i = index_of o /\ y = added (o - base (index_of o)) (part C S o) z -> applied h i z -> applied h i y) as Happ.
  { intros i h y z [->|[_ ->]]; [done|]. intros Ha o' Ho' Hin. rewrite added_parts. apply lookup_insert_is_Some'. right. by apply Ha. }
  split; try done; simpl.
  - by rewrite length_alter.
  - intros j y Hy. destruct (Hj j y Hy) as (z & Hz & [->|[-> ->]]); [by apply H4|].
    replace (part C S o) with (part C S (base (index_of o) + (o - base (index_of o)))) by (f_equal; lia).
    apply true_added; [unfold base; sizes; lia|lia|lia|done|by apply H4].
  - apply Hf; [|done]. intros z. apply added_flags.
  - unfold mode_ok in *. simpl. destruct (headerMode s); try done.
    + destruct H9 as (A1 & A2 & A3 & A4). split; [by apply Hu|]. split; [done|]. split; [by rewrite Hl|].
      intros i y Hy. destruct (Hj i y Hy) as (z & Hz & Hor). by apply (Happ i _ y z Hor), A4.
    + destruct H9 as (A1 & A2 & A3 & A5 & A4). split_and!; try done. intros y Hy. destruct (Hj _ _ Hy) as (z & Hz & Hor). destruct (A4 z Hz) as [B1 B2].
      assert (loadedFromCache y = loadedFromCache z) as -> by (destruct Hor as [->|[_ ->]]; [done|apply added_loaded]).
      split; [done|]. intros Hld. by apply (Happ 0%nat _ y z Hor), B2.
    + destruct H9. split; [done|by apply Hu].
Qed.

(** Parts come only after the header was looked for in the cache. *)
Definition header_known (s : Slices) : Prop := headerMode s = Unknown -> loadingFromCache (header s) = false.

Lemma absent_in_header (o : Z) (s : Slices) : sound s -> on_grid o -> full = false -> headerMode s = Unknown -> absent s o ->
  parts (header s) !! o = None.
Proof.
  intros H Ho Ef E Ha. unfold absent in Ha. rewrite Ef in Ha. destruct Ha as [Ha _]. destruct (parts (header s) !! o) as [b|] eqn:Eb; [|done].
  pose proof (on_grid_slice o Ho) as [Hr _]. pose proof (index_in o Ef (proj1 Ho)) as Hi.
  destruct (lookup_lt_is_Some_2 (data s) (index_of o)) as [x Hx]; [by rewrite (sd_count _ H)|].
  pose proof (sd_mode _ H) as Hm. unfold mode_ok in Hm. rewrite E in Hm. destruct Hm as (_ & _ & _ & A4).
  specialize (A4 _ x Hx (o - base (index_of o)) Hr). rewrite (Ha x Hx) in A4.
  destruct A4; [|done]. replace (base (index_of o) + (o - base (index_of o))) with o by lia. by eexists.
Qed.

Lemma fed_sound (o : Z) (s : Slices) : sound s -> on_grid o -> absent s o -> header_known s -> sound (fed o (part C S o) s).
Proof.
  intros H Ho Ha Hk. unfold fed. destruct full eqn:Ef.
  - pose proof Ha as Ha'. unfold absent in Ha'. rewrite Ef in Ha'. apply in_header_sound; [done|done|done|by left|].
    pose proof (sd_mode _ H) as Hm. unfold mode_ok in Hm. pose proof (sd_count _ H) as Hc. unfold slice_count in Hc. rewrite Ef in Hc.
    destruct (headerMode s) eqn:E; try done; [|by destruct Hm; congruence|by destruct Hm; congruence]. split; [by apply Hk|]. intros x Hx.
    by destruct (data s).
  - destruct (headerModeUnknown s && _) eqn:E; [|by apply in_slice_sound].
    apply andb_true_iff in E as [E%bool_decide_eq_true Hs%Nat.ltb_lt]. pose proof (absent_in_header o s H Ho Ef E Ha) as Hn.
    change (in_slice o (part C S o) (in_header o (part C S o) s)) with (in_header o (part C S o) (in_slice o (part C S o) s)).
    apply in_header_sound; [by apply in_slice_sound|done|done|by right|]. simpl. rewrite E. split; [by apply Hk|]. intros x Hx.
    pose proof (index_in o Ef (proj1 Ho)) as Hi. destruct (lookup_lt_is_Some_2 (data s) (index_of o)) as [y Hy]; [by rewrite (sd_count _ H)|].
    rewrite (alter_insert_list _ _ _ y Hy), list_lookup_insert_eq in Hx by (by eapply lookup_lt_Some). injection Hx as <-.
    rewrite added_parts, lookup_insert_eq. by eexists.
Qed.

Lemma wp_add_part (n : nat) (o : Z) (bytes : list Z) (s : Slices) (x : Slice) (Q : unit -> Slices -> Prop) : at_ n s = Some x -> parts x !! o = None ->
  Q tt (match n with O => set_header (added o bytes x) s | Datatypes.S i => set_data (<[i := added o bytes x]> (data s)) s end) ->
  wp (add_part n o bytes) Q s.
Proof.
  intros Hx Ho HQ. unfold add_part. apply (wp_slice_at n _ _ s x Hx). apply wp_bind. eapply wp_lift; [by apply addPart_ok|].
  unfold put_slice. apply wp_modify. by destruct n.
Qed.

Lemma processPart_ok (o : Z) (s : Slices) : sound s -> on_grid o -> absent s o -> header_known s ->
  wp (processPart o (part C S o)) (fun _ s' => sound s' /\ like s' (fed o (part C S o) s)) s.
Proof.
  intros H Ho Ha Hk. pose proof (fed_sound o s H Ho Ha Hk) as Hs. unfold processPart. apply wp_bind, wp_gets. unfold id.
  assert (forall n s0, (n <= slice_count)%nat -> s0 = fed o (part C S o) s ->
    wp (checkSliceFullLoaded n) (fun _ s' => sound s' /\ like s' (fed o (part C S o) s)) s0) as Hcheck.
  { intros n s0 Hn ->. eapply wp_mono; [by apply checkSliceFullLoaded_ok, at_some|]. intros [] s' Hl. split; [by eapply sound_like|by symmetry]. }
  rewrite (sound_full s H). unfold fed in Hcheck |- *. destruct full eqn:Ef.
  - unfold absent in Ha. rewrite Ef in Ha. apply wp_bind, (wp_add_part 0 _ _ s (header s)); [done|done|]. apply Hcheck; [lia|done].
  - fold (index_of o). pose proof (index_in o Ef (proj1 Ho)) as Hi. rewrite (proj2 (Nat.ltb_lt _ _)) by (by rewrite (sd_count _ H)). simpl negb. cbv iota.
    destruct (lookup_lt_is_Some_2 (data s) (index_of o)) as [x Hx]; [by rewrite (sd_count _ H)|].
    pose proof Ha as Ha'. unfold absent in Ha'. rewrite Ef in Ha'. destruct Ha' as [Hax _]. specialize (Hax x Hx). fold (base (index_of o)).
    assert (headerModeUnknown s = true -> parts (header s) !! o = None) as Hn
      by (intros E%bool_decide_eq_true; by apply (absent_in_header o s H Ho Ef)).
    destruct (headerModeUnknown s) eqn:Eu.
    + rewrite Hn, bool_decide_eq_false_2 by (done || (rewrite Hn by done; by intros [? ?])). simpl. apply wp_bind.
      destruct (_ <? _)%nat eqn:Es.
      * apply (wp_add_part 0 _ _ s (header s)); [done|by apply Hn|]. apply wp_bind, (wp_add_part (Datatypes.S (index_of o)) _ _ _ x); [done|done|].
        apply Hcheck; [lia|]. unfold in_slice. simpl. by rewrite (alter_insert_list _ _ _ x Hx).
      * apply wp_ret, wp_bind, (wp_add_part (Datatypes.S (index_of o)) _ _ _ x); [done|done|].
        apply Hcheck; [lia|]. unfold in_slice. by rewrite (alter_insert_list _ _ _ x Hx).
    + simpl. apply wp_bind, wp_ret, wp_bind, (wp_add_part (Datatypes.S (index_of o)) _ _ _ x); [done|done|].
      apply Hcheck; [lia|]. unfold in_slice. by rewrite (alter_insert_list _ _ _ x Hx).
Qed.

(** ** Parts of the header go to their slices *)

Definition put_part (d : list Slice) (x : Z * list Z) : list Slice := alter (added (x.1 - base (index_of x.1)) x.2) (index_of x.1) d.
Definition put_parts (l : list (Z * list Z)) (d : list Slice) : list Slice := foldl put_part d l.

(** None of these is there. *)
Definition free (l : list (Z * list Z)) (d : list Slice) : Prop :=
  forall o b x, (o, b) ∈ l -> d !! index_of o = Some x -> parts x !! (o - base (index_of o)) = None.

Lemma put_part_lookup (x : Z * list Z) (d : list Slice) (i : nat) :
  put_part d x !! i = (if decide (index_of x.1 = i) then added (x.1 - base i) x.2 <$> d !! i else d !! i).
Proof. unfold put_part. rewrite list_lookup_alter. destruct (decide (index_of x.1 = i)) as [->|]; done. Qed.

Lemma put_part_free (x : Z * list Z) (l : list (Z * list Z)) (d : list Slice) : NoDup (x :: l).*1 -> free (x :: l) d -> free l (put_part d x).
Proof.
  intros Hnd Hf o b y Hin. rewrite put_part_lookup. apply NoDup_cons in Hnd as [Hx _].
  destruct (decide (index_of x.1 = index_of o)) as [E|E]; [|intros Hy; eapply (Hf o b); [by right|done]].
  destruct (d !! index_of o) as [z|] eqn:Ez; [|done]. intros [= <-]. rewrite added_parts, lookup_insert_ne.
  - eapply (Hf o b); [by right|done].
  - intros Eo. apply Hx. apply list_elem_of_fmap. exists (o, b). split; [simpl; lia|done].
Qed.

Lemma applyWhile_ok (predicate : nat -> bool) (l : list (Z * list Z)) (s : Slices) : Forall (fun x => 0 <= x.1) l -> NoDup l.*1 ->
  free (take (partition_point (fun x => predicate (index_of x.1)) l) l) (data s) ->
  (forall x, x ∈ l -> predicate (index_of x.1) = true -> (index_of x.1 < length (data s))%nat) ->
  applyWhile predicate l s
  = Some (tt, set_data (put_parts (take (partition_point (fun x => predicate (index_of x.1)) l) l) (data s)) s).
Proof.
  intros Hp. revert s. induction Hp as [|[o b] l Ho Hp IH]; intros s Hnd Hf Hin; [by destruct s|].
  cbn [applyWhile partition_point fst] in *. fold (index_of o). destruct (predicate (index_of o)) eqn:E; [|by destruct s].
  cbn [take] in *. unfold bind at 1, add_part. unfold bind at 1, slice_at.
  destruct (lookup_lt_is_Some_2 (data s) (index_of o)) as [x Hx]; [apply (Hin (o, b)); [by left|done]|]. rewrite Hx. fold (base (index_of o)).
  unfold bind at 1, lift. rewrite addPart_ok by (eapply (Hf o b); [by left|done]). unfold put_slice, modify.
  assert (NoDup ((o, b) :: take (partition_point (fun x => predicate (index_of x.1)) l) l).*1) as Hnd'.
  { rewrite !fmap_cons in *. apply NoDup_cons in Hnd as [Ho' Hnd]. rewrite fmap_take. constructor; [by intros ?%subseteq_take|].
    rewrite <- (take_drop (partition_point (fun x => predicate (index_of x.1)) l) l.*1) in Hnd. by apply NoDup_app in Hnd as [? _]. }
  pose proof (put_part_free _ _ _ Hnd' Hf) as Hf'. unfold put_part in Hf'. rewrite (alter_insert_list _ _ _ x Hx) in Hf'. simpl in Hf'.
  rewrite IH; [|by apply NoDup_cons in Hnd as [_ ?]|done|intros y Hy Hpy; simpl; rewrite length_insert; apply Hin; [by right|done]].
  do 2 f_equal. unfold put_parts. cbn [foldl]. unfold put_part at 3. simpl. by rewrite (alter_insert_list _ _ _ x Hx).
Qed.

Lemma put_parts_lookup (l : list (Z * list Z)) (d : list Slice) (i : nat) (x' : Slice) : NoDup l.*1 -> free l d -> put_parts l d !! i = Some x' ->
  exists x, d !! i = Some x /\ loadingFromCache x' = loadingFromCache x /\ loadedFromCache x' = loadedFromCache x
    /\ fullInCache x' = fullInCache x /\ (loadedFromCache x = false -> changedSinceCache x' = changedSinceCache x)
    /\ forall o b, parts x' !! o = Some b <-> parts x !! o = Some b \/ exists o', (o', b) ∈ l /\ index_of o' = i /\ o = o' - base i.
Proof.
  revert d. induction l as [|[o0 b0] l IH]; intros d Hnd Hf; simpl.
  - intros Hx. exists x'. split_and!; try done. intros o b. split; [by left|]. intros [?|(? & ?%not_elem_of_nil & _)]; done.
  - intros Hx. destruct (IH (put_part d (o0, b0))) as (y & Hy & E1 & E2 & E3 & E4 & E5); [by apply NoDup_cons in Hnd as [_ ?]|by apply put_part_free|done|].
    rewrite put_part_lookup in Hy. simpl in Hy. destruct (decide (index_of o0 = i)) as [Ei|Ei].
    + destruct (d !! i) as [x|] eqn:Ex; [|done]. simpl in Hy. injection Hy as <-. exists x. rewrite added_loading in E1. rewrite added_loaded in E2, E4.
      split; [done|]. split; [done|]. split; [done|]. split; [by rewrite E3, added_full|].
      split; [intros El; rewrite E4, added_changed, El by done; apply orb_false_r|]. intros o b. rewrite E5, added_parts.
      assert (parts x !! (o0 - base i) = None) as Hn by (rewrite <- Ei; apply (Hf o0 b0); [by left|by rewrite Ei]). split.
      * intros [[[<- <-]|[_ ?]]%lookup_insert_Some|(o' & ? & ? & ?)]; [right|by left|right].
        -- exists o0. split_and!; [by left|done|done].
        -- exists o'. split_and!; [by right|done|done].
      * intros [Hb|(o' & [[= -> ->]|?]%elem_of_cons & ? & ->)]; [left|left|right].
        -- rewrite lookup_insert_ne; [done|]. intros E. rewrite E in Hn. congruence.
        -- apply lookup_insert_eq.
        -- by exists o'.
    + exists y. split_and!; try done. intros o b. rewrite E5. split; (intros [?|(o' & Ho' & Hi' & ->)]; [by left|right]).
      * exists o'. split_and!; [by right|done|done].
      * apply elem_of_cons in Ho' as [[= -> ->]|?]; [done|]. by exists o'.
Qed.

Lemma put_parts_other (l : list (Z * list Z)) (d : list Slice) (i : nat) : (forall x, x ∈ l -> index_of x.1 <> i) -> put_parts l d !! i = d !! i.
Proof.
  revert d. induction l as [|x l IH]; intros d H; [done|]. simpl. rewrite IH by (intros; apply H; by right).
  rewrite put_part_lookup, decide_False; [done|]. apply H. by left.
Qed.

Lemma put_parts_length (l : list (Z * list Z)) (d : list Slice) : length (put_parts l d) = length d.
Proof. revert d. induction l as [|x l IH]; intros d; simpl; [done|]. rewrite IH. unfold put_part. apply length_alter. Qed.

(** ** What the cache has *)

Definition cached (r : PartsMap) (x : Slice) : Slice := set_loading false (set_loaded true (set_parts (parts x ∪ r) x)).

Lemma processCacheData_ok (r : PartsMap) (x : Slice) : flags_ok x -> loadingFromCache x = true -> processCacheData r x = Some (cached r x).
Proof. intros [H _] Hl. unfold processCacheData. by rewrite H, Hl. Qed.

Lemma cached_flags (r : PartsMap) (x : Slice) : flags_ok x -> loadingFromCache x = true -> flags_ok (cached r x).
Proof. intros [H1 H2] Hl. split; simpl; [done|]. intros Hc. destruct (H2 Hc). rewrite H1 in *; done. Qed.

Lemma true_union (base limit : Z) (p r : PartsMap) : true_parts C S base limit p -> true_parts C S base limit r -> true_parts C S base limit (p ∪ r).
Proof. intros Hp Hr o b [?|[_ ?]]%lookup_union_Some_raw; [by apply Hp|by apply Hr]. Qed.

(** A slice is changed when the header is known. *)
Lemma sound_slice (i : nat) (x : Slice) (s : Slices) : sound s -> headerMode s <> Unknown -> flags_ok x ->
  true_parts C S (base i) kInSlice (parts x) -> (headerMode s = NoCache -> untouched x) ->
  (headerMode s = Good -> i = 0%nat -> (changedSinceCache (header s) = true -> loadedFromCache x = true)
    /\ (loadedFromCache x = true -> applied (parts (header s)) 0 x)) -> sound (set_data (<[i := x]> (data s)) s).
Proof.
  intros [H1 H2 H3 H4 H5 H6 H7 H8 H9] E Hf Ht Hn Hg. split; try done; simpl.
  - by rewrite length_insert.
  - intros j y [(-> & <- & _)|[_ Hy]]%list_lookup_insert_Some; [done|by apply H4].
  - by apply Forall_insert.
  - unfold mode_ok in *. simpl. destruct (headerMode s) eqn:Em; try done.
    + destruct H9 as (A1 & A2 & A3 & A5 & A4). split_and!; try done. intros y [(Ei & <- & _)|[_ Hy]]%list_lookup_insert_Some; [by apply Hg|by apply A4].
    + destruct H9 as [? ?]. split; [done|]. apply Forall_insert; [done|by apply Hn].
Qed.

(** The cache had this for slice [i]. *)
Definition slice_read (i : nat) (r : PartsMap) (s : Slices) : Slices := set_data (alter (cached r) i (data s)) s.

Lemma slice_read_sound (i : nat) (r : PartsMap) (s : Slices) (x : Slice) : sound s -> data s !! i = Some x -> loadingFromCache x = true ->
  true_parts C S (base i) kInSlice r -> (headerMode s = Good -> i = 0%nat -> applied (parts (header s)) 0 x) -> sound (slice_read i r s).
Proof.
  intros H Hx Hl Hr Ha. unfold slice_read. rewrite (alter_insert_list _ _ _ x Hx).
  pose proof (Forall_lookup_1 _ _ _ _ (sd_flags _ H) Hx) as Hfx. pose proof (sd_mode _ H) as Hm. unfold mode_ok in Hm.
  assert (forall m, headerMode s = m -> m = Unknown \/ m = NoCache -> False) as Hno.
  { intros m Em Hor. assert (Forall untouched (data s)) as Hu by (rewrite Em in Hm; by destruct Hor as [-> | ->]; destruct Hm).
    rewrite Forall_lookup in Hu. destruct (Hu i x Hx). congruence. }
  apply sound_slice; [done|intros Em; by apply (Hno _ Em); left|by apply cached_flags| |intros Em; by destruct (Hno _ Em); right|].
  - apply true_union; [by apply (sd_slice _ H)|done].
  - intros Em ->. split; [done|]. intros _ o Ho Hin. simpl. apply lookup_union_is_Some. left. by apply (Ha Em eq_refl).
Qed.

Lemma result_slice (i : nat) (r : PartsMap) (s : Slices) (x : Slice) : sound s -> data s !! i = Some x -> loadingFromCache x = true ->
  wp (processCacheResult (Datatypes.S i) r) (fun _ s' => like (slice_read i r s) s') s.
Proof.
  intros H Hx Hl. unfold processCacheResult. apply wp_bind, wp_gets. unfold id. pose proof (lookup_lt_Some _ _ _ Hx).
  rewrite (proj2 (Nat.ltb_ge _ _)) by lia. simpl. apply wp_bind, wp_ret. apply (wp_slice_at (Datatypes.S i) _ _ s x Hx). rewrite Hl. simpl.
  pose proof (Forall_lookup_1 _ _ _ _ (sd_flags _ H) Hx) as Hfx. apply wp_bind. eapply wp_lift; [by apply processCacheData_ok|].
  apply wp_bind. unfold put_slice. apply wp_modify, wp_bind. rewrite <- (alter_insert_list _ _ _ x Hx).
  eapply wp_mono; [apply checkSliceFullLoaded_ok; simpl; rewrite list_lookup_alter, decide_True, Hx by done; by eexists|].
  intros [] s' Hs. by apply wp_ret.
Qed.

Lemma result_ignored (n : nat) (r : PartsMap) (s : Slices) : sound s -> (n <= length (data s))%nat ->
  (if (n =? 0)%nat && isGoodHeader s then forall x, data s !! 0%nat = Some x -> loadingFromCache x = false
   else forall x, at_ n s = Some x -> loadingFromCache x = false) ->
  wp (processCacheResult n r) (fun _ s' => s' = s) s.
Proof.
  intros H Hn Hl. unfold processCacheResult. apply wp_bind, wp_gets. unfold id. rewrite (proj2 (Nat.ltb_ge _ _)) by lia.
  destruct (_ && _) eqn:E.
  - apply andb_true_iff in E as [->%Nat.eqb_eq E%bool_decide_eq_true]. pose proof (sd_mode _ H) as Hm. unfold mode_ok in Hm. rewrite E in Hm.
    destruct Hm as [Ef _]. destruct (lookup_lt_is_Some_2 (data s) 0) as [x Hx]; [rewrite (sd_count _ H); by apply slice_count_ok|].
    apply wp_bind. apply (wp_slice_at 1 _ _ s x Hx). rewrite (Hl x Hx). simpl. apply wp_ret.
    apply (wp_slice_at 0 _ _ s (header s)); [done|]. by apply wp_ret.
  - apply wp_bind, wp_ret. destruct (at_ n s) as [x|] eqn:Ex.
    + apply (wp_slice_at n _ _ s x Ex). rewrite (Hl x eq_refl). by apply wp_ret.
    + destruct (at_some n s H) as [? ?]; [by rewrite <- (sd_count _ H)|congruence].
Qed.

(** *** The header *)

Definition good_from (r : PartsMap) : HeaderMode := if full then Full else if ComputeIsGoodHeader S r then Good else Small.

(** After the header was found: its parts are in their slices. *)
Record header_read (r : PartsMap) (s s' : Slices) : Prop := {
  hr_mode : headerMode s' = if bool_decide (r = ∅) then Unknown else good_from r;
  hr_parts : parts (header s') = r;
  hr_loading : loadingFromCache (header s') = false;
  hr_loaded : loadedFromCache (header s') = true;
  hr_changed : changedSinceCache (header s') = false;
  hr_used : usedSlices s' = usedSlices s;
  hr_slices : forall i x', data s' !! i = Some x' -> loadingFromCache x' = bool_decide (headerMode s' = Good /\ i = 0%nat)
    /\ loadedFromCache x' = false /\ changedSinceCache x' = false
    /\ forall o b, parts x' !! o = Some b <-> 0 <= o < kInSlice /\ r !! (base i + o) = Some b }.

Lemma entries_nil {V} (m : gmap Z V) : entries m = [] <-> m = ∅.
Proof. rewrite <- (map_size_empty_iff m), <- entries_length. by destruct (entries m). Qed.

Lemma partition_point_all {A} (p : A -> bool) (l : list A) : (forall x, x ∈ l -> p x = true) -> take (partition_point p l) l = l.
Proof.
  induction l as [|x l IH]; intros H; [done|]. simpl. rewrite (H x ltac:(left)). simpl. f_equal. apply IH. intros y Hy. apply H. by right.
Qed.

Lemma slice_of_entries (r : PartsMap) (i : nat) (o : Z) (b : list Z) : true_parts C S 0 S r ->
  (exists o', (o', b) ∈ entries r /\ index_of o' = i /\ o = o' - base i) <-> 0 <= o < kInSlice /\ r !! (base i + o) = Some b.
Proof.
  intros Ht. split.
  - intros (o' & Ho'%elem_of_entries & <- & ->). destruct (Ht o' b Ho') as ([? _] & _). simpl in *. pose proof (index_base o' ltac:(lia)).
    split; [lia|]. by replace (base (index_of o') + (o' - base (index_of o'))) with o' by lia.
  - intros [Ho Hr]. exists (base i + o). split; [by apply elem_of_entries|]. split; [apply index_unique; lia|lia].
Qed.

Lemma unchanged (x : Slice) : flags_ok x -> loadedFromCache x = false -> changedSinceCache x = false.
Proof. intros [_ H] Hl. destruct (changedSinceCache x); [|done]. destruct (H eq_refl). congruence. Qed.

Lemma header_read_sound (r : PartsMap) (s s' : Slices) : sound s -> headerMode s = Unknown -> loadingFromCache (header s) = true ->
  true_parts C S 0 S r -> (full = false -> (base.size r <= kMaxPartsInHeader)%nat) -> header_read r s s' -> size s' = S -> length (data s') = slice_count -> sound s'.
Proof.
  intros H E Hl Hr Hn [R1 R2 R3 R4 R5 R6 R7] Hsz Hlen. split; try done.
  - by rewrite R2.
  - intros i x Hx o b Hb. destruct (R7 i x Hx) as (_ & _ & _ & Hp). apply Hp in Hb as [Ho Hb]. destruct (Hr _ _ Hb) as (A1 & A2 & A3 & A4). simpl in *.
    split; [done|]. split; [done|]. split; [|done]. simpl. unfold base in A3.
    replace (Z.of_nat i * kInSlice + o) with (o + Z.of_nat i * 64 * kPartSize) in A3 by (sizes; lia). sizes. by rewrite Z.mod_add in A3 by lia.
  - split; congruence.
  - apply Forall_lookup. intros i x Hx. destruct (R7 i x Hx) as (_ & B & D & _). split; congruence.
  - by rewrite R2.
  - rewrite R6. apply (sd_used _ H).
  - unfold mode_ok. rewrite R2, R3, R4, R5. assert (headerMode s' <> Good -> Forall untouched (data s')) as Hu.
    { intros Hg. apply Forall_lookup. intros i x Hx. destruct (R7 i x Hx) as (A & B & _). split; [|done]. rewrite A.
      apply bool_decide_eq_false. intros [? _]. done. }
    destruct (bool_decide (r = ∅)) eqn:Er.
    + rewrite R1 in *. apply bool_decide_eq_true in Er as ->. split; [by apply Hu|]. split; [done|]. split; [done|].
      intros i x Hx o Ho [b Hb]. by rewrite lookup_empty in Hb.
    + apply bool_decide_eq_false in Er. rewrite R1 in *. unfold good_from in *. destruct full eqn:Ef; [done|].
      destruct (ComputeIsGoodHeader S r) eqn:Eg; [|done]. split_and!; try done. intros x Hx. destruct (R7 _ x Hx) as (_ & B & _). by rewrite B.
Qed.

Lemma put_parts_nil (l : list (Z * list Z)) : put_parts l [] = [].
Proof. by induction l. Qed.

Lemma free_empty (l : list (Z * list Z)) (d : list Slice) : (forall i x, d !! i = Some x -> parts x = ∅) -> free l d.
Proof. intros H o b x _ Hx. by rewrite (H _ _ Hx). Qed.

Lemma true_entries (base_ limit : Z) (r : PartsMap) : true_parts C S base_ limit r -> Forall (fun x => 0 <= x.1) (entries r).
Proof. intros Hr. apply Forall_forall. intros [o b] Hx%elem_of_entries. destruct (Hr o b Hx) as (? & _). simpl in *. lia. Qed.

Lemma apply_header_ok (r : PartsMap) (s : Slices) : headerMode s = Unknown -> size s = S -> length (data s) = slice_count ->
  parts (header s) = r -> true_parts C S 0 S r -> (forall i x, data s !! i = Some x -> parts x = ∅) ->
  applyHeaderCacheData s = Some (tt, if bool_decide (r = ∅) then s
    else set_mode (good_from r) (set_data (put_parts (entries r) (data s)) s)).
Proof.
  intros E Hsz Hlen Hp Hr He. unfold applyHeaderCacheData. unfold bind at 1, gets, id. rewrite Hp, E.
  destruct (decide (r = ∅)) as [->|Hne].
  - by rewrite !bool_decide_eq_true_2 by (done || by apply entries_nil).
  - rewrite !bool_decide_eq_false_2 by (done || by intros ?%entries_nil). unfold isFullInHeader. rewrite Hsz. fold full. unfold good_from.
    assert (forall s2, headerMode s2 = Unknown -> size s2 = S -> headerDone true s2
      = Some (tt, set_mode (if full then Full else if ComputeIsGoodHeader S (parts (header s2)) then Good else Small) s2)) as Hd.
    { intros s2 E2 Hsz2. unfold headerDone, bind, gets, id, headerModeUnknown, isFullInHeader, computeIsGoodHeader. rewrite E2, Hsz2. simpl. done. }
    destruct full eqn:Ef.
    + rewrite Hd by done. do 2 f_equal. unfold slice_count in Hlen. rewrite Ef in Hlen. destruct s as [[|? ?] ? ? ? ? ?]; [|done]. simpl. by rewrite put_parts_nil.
    + unfold bind at 1. rewrite applyWhile_ok; [|by apply (true_entries 0 S)|apply entries_nodup|by apply free_empty|intros; by apply Nat.ltb_lt].
      rewrite partition_point_all.
      * rewrite Hd by done. simpl. by rewrite Hp.
      * intros [o b] Hx%elem_of_entries. destruct (Hr o b Hx) as (Ho & _). simpl in *. apply Nat.ltb_lt. rewrite Hlen. apply index_in; [done|lia].
Qed.

Lemma result_header (r : PartsMap) (s : Slices) : sound s -> headerMode s = Unknown -> loadingFromCache (header s) = true ->
  true_parts C S 0 S r -> (full = false -> (base.size r <= kMaxPartsInHeader)%nat) ->
  wp (processCacheResult 0 r) (fun _ s' => sound s' /\ header_read r s s') s.
Proof.
  intros H E Hl Hr Hn. pose proof (sd_mode _ H) as Hm. unfold mode_ok in Hm. rewrite E in Hm. destruct Hm as (A1 & A2 & A3 & A4).
  destruct (A3 Hl) as [Ep Hpe]. enough (wp (processCacheResult 0 r) (fun _ s' => header_read r s s' /\ size s' = S /\ length (data s') = slice_count) s) as Hw.
  { eapply wp_mono; [exact Hw|]. intros [] s' (R & Hsz & Hlen). split; [|done]. by apply (header_read_sound r s s'). }
  unfold processCacheResult. apply wp_bind, wp_gets. unfold id. simpl. unfold isGoodHeader. rewrite E. simpl. apply wp_bind, wp_ret.
  apply (wp_slice_at 0 _ _ s (header s)); [done|]. rewrite Hl. simpl. apply wp_bind.
  eapply wp_lift; [apply processCacheData_ok; [apply (sd_header_flags _ H)|done]|].
  unfold put_slice. apply wp_bind, wp_modify, wp_bind. eapply wp_mono; [apply checkSliceFullLoaded_ok; by eexists|]. intros [] s1 Hl1.
  assert (parts (header s1) = r /\ loadingFromCache (header s1) = false /\ loadedFromCache (header s1) = true /\ changedSinceCache (header s1) = false) as (P1 & P2 & P3 & P4).
  { destruct (core_eq _ _ (like_header _ _ Hl1)) as (<- & <- & <- & <-). simpl. rewrite Ep, (left_id_L ∅ (∪)).
    split_and!; [done|done|done|]. apply (unchanged (header s)); [apply (sd_header_flags _ H)|by rewrite A2, Hl]. }
  pose proof (like_mode _ _ Hl1) as M1. pose proof (like_size _ _ Hl1) as S1. pose proof (like_used _ _ Hl1) as U1. pose proof (like_length _ _ Hl1) as L1. simpl in M1, S1, U1, L1.
  assert (forall i x, data s1 !! i = Some x -> loadingFromCache x = false /\ loadedFromCache x = false /\ changedSinceCache x = false /\ parts x = ∅) as D1.
  { intros i x Hx. destruct (like_lookup s1 _ i x ltac:(by symmetry) Hx) as (y & Hy & (-> & -> & -> & ->)%core_eq). simpl in Hy.
    rewrite Forall_lookup in A1, Hpe. destruct (A1 i y Hy). split; [done|]. split; [done|]. split; [|by apply (Hpe i)].
    apply unchanged; [|done]. by apply (Forall_lookup_1 _ _ _ _ (sd_flags _ H) Hy). }
  rewrite (sd_size _ H) in S1. rewrite (sd_count _ H) in L1.
  eapply wp_step; [apply (apply_header_ok r s1); [congruence|done|done|done|done|intros i x Hx; by apply (D1 i x Hx)]|].
  set (s2 := if bool_decide _ then s1 else _).
  assert (header s2 = header s1 /\ usedSlices s2 = usedSlices s1 /\ size s2 = S /\ length (data s2) = slice_count
    /\ headerMode s2 = if bool_decide (r = ∅) then Unknown else good_from r) as (E1 & E2 & E3 & E4 & E5).
  { subst s2. destruct (bool_decide (r = ∅)); simpl; rewrite ?put_parts_length; split_and!; congruence. }
  assert (forall i x, data s2 !! i = Some x -> loadingFromCache x = false /\ loadedFromCache x = false /\ changedSinceCache x = false
    /\ forall o b, parts x !! o = Some b <-> 0 <= o < kInSlice /\ r !! (base i + o) = Some b) as D2.
  { intros i x Hx. subst s2. destruct (decide (r = ∅)) as [->|Hne].
    - rewrite bool_decide_eq_true_2 in Hx by done. destruct (D1 i x Hx) as (B1 & B2 & B3 & B4). split_and!; try done. intros o b.
      rewrite B4, !lookup_empty. split; [done|by intros [_ ?]].
    - rewrite bool_decide_eq_false_2 in Hx by done. simpl in Hx. apply put_parts_lookup in Hx as (y & Hy & -> & B2 & _ & B4 & B5);
        [|apply entries_nodup|apply free_empty; intros j z Hz; by apply (D1 j z Hz)].
      destruct (D1 i y Hy) as (F1 & F2 & F3 & F4). rewrite B2, B4 by done. split_and!; try done. intros o b. rewrite B5, F4, lookup_empty.
      rewrite slice_of_entries by done. split; [by intros [?|?]|by right]. }
  apply wp_bind, wp_gets. unfold isGoodHeader. destruct (bool_decide (headerMode s2 = Good)) eqn:Eg.
  - apply bool_decide_eq_true in Eg. assert (full = false) as Ef.
    { rewrite Eg in E5. unfold good_from in E5. by destruct (bool_decide (r = ∅)), full. }
    destruct (lookup_lt_is_Some_2 (data s2) 0) as [x0 Hx0]; [rewrite E4; by apply slice_count_ok|].
    unfold change_slice. apply (wp_slice_at 1 _ _ s2 x0 Hx0). unfold put_slice. apply wp_modify.
    split; [|split; [done|simpl; by rewrite length_insert]]. split; simpl; try congruence.
    intros i x [(<- & <- & _)|[Hi Hx]]%list_lookup_insert_Some.
    + destruct (D2 _ x0 Hx0) as (_ & ? & ? & ?). simpl. rewrite Eg, bool_decide_eq_true_2 by done. by split_and!.
    + destruct (D2 i x Hx) as (-> & ? & ? & ?). rewrite bool_decide_eq_false_2 by (by intros [_ ->]). by split_and!.
  - apply bool_decide_eq_false in Eg. apply wp_ret. split; [|done]. split; try congruence. intros i x Hx. destruct (D2 i x Hx) as (-> & ? & ? & ?).
    split_and!; try done. symmetry. apply bool_decide_eq_false. by intros [? _].
Qed.

(** The header again, for the first slice. *)
Record header_again (x : Slice) (s s' : Slices) : Prop := {
  ha_slice : exists x', like s' (set_data (<[0%nat := x']> (data s)) s) /\ loadingFromCache x' = true /\ loadedFromCache x' = false
    /\ changedSinceCache x' = false /\ forall o b, parts x' !! o = Some b <-> parts x !! o = Some b \/ 0 <= o < kInSlice /\ parts (header s) !! o = Some b }.

Lemma index_mono (a b : Z) : 0 <= a <= b -> (index_of a <= index_of b)%nat.
Proof. intros H. unfold index_of. sizes. apply Z2Nat.inj_le; [apply Z.div_pos; lia..|apply Z.div_le_mono; lia]. Qed.

Lemma first_entries (r : PartsMap) (o : Z) (b : list Z) : true_parts C S 0 S r ->
  (o, b) ∈ take (partition_point (fun x => (index_of x.1 =? 0)%nat) (entries r)) (entries r) <-> r !! o = Some b /\ index_of o = 0%nat.
Proof.
  intros Hr. set (p := fun x : Z * list Z => (index_of x.1 =? 0)%nat). split.
  - intros Hx. pose proof (partition_point_take p _ _ Hx) as Hp%Nat.eqb_eq. split; [|done]. apply subseteq_take in Hx. by apply elem_of_entries.
  - intros [Hb Hi]. pose proof Hb as Hin%elem_of_entries. rewrite <- (take_drop (partition_point p (entries r)) (entries r)) in Hin.
    apply elem_of_app in Hin as [?|Hin]; [done|]. exfalso. apply (partition_point_after p) in Hin.
    + by apply Nat.eqb_neq in Hin.
    + eapply StronglySorted_impl; [|apply entries_sorted]. intros [o1 b1] [o2 b2] Hx%elem_of_entries _ Hlt. unfold p. rewrite !Nat.eqb_eq. simpl in *.
      destruct (Hr _ _ Hx) as (? & _). simpl in *. pose proof (index_mono o1 o2 ltac:(lia)). lia.
Qed.

Lemma index_zero (o : Z) : 0 <= o -> index_of o = 0%nat <-> o < kInSlice.
Proof.
  intros Ho. pose proof (index_base o Ho) as H. unfold base in H. split; intros E; [rewrite E in H; lia|]. apply index_unique. unfold base. lia.
Qed.

Lemma result_header_again (r : PartsMap) (s : Slices) (x : Slice) : sound s -> headerMode s = Good -> data s !! 0%nat = Some x ->
  loadingFromCache x = true -> (forall o, is_Some (r !! o) -> is_Some (parts (header s) !! o)) ->
  (forall o, 0 <= o < kInSlice -> is_Some (parts (header s) !! o) -> parts x !! o = None) ->
  wp (processCacheResult 0 r) (fun _ s' => sound s' /\ header_again x s s') s.
Proof.
  intros H E Hx Hl Hr Hd. pose proof (sd_mode _ H) as Hm. unfold mode_ok in Hm. rewrite E in Hm. destruct Hm as (Ef & A2 & A3 & A5 & A4).
  pose proof (Forall_lookup_1 _ _ _ _ (sd_flags _ H) Hx) as [Fx1 Fx2]. specialize (Fx1 Hl).
  assert (changedSinceCache x = false) as Hcx by (apply unchanged; [by split|done]).
  assert (changedSinceCache (header s) = false) as Hch.
  { destruct (changedSinceCache (header s)) eqn:Ec; [|done]. destruct (A4 x Hx) as [B _]. specialize (B eq_refl). congruence. }
  unfold processCacheResult. apply wp_bind, wp_gets. unfold id. simpl. unfold isGoodHeader. rewrite E. simpl.
  apply wp_bind. apply (wp_slice_at 1 _ _ s x Hx). rewrite Hl. simpl. apply wp_bind. unfold change_slice at 1.
  apply (wp_slice_at 0 _ _ s (header s)); [done|]. unfold put_slice at 1. apply wp_modify, wp_ret.
  set (h1 := set_loaded false _). set (s1 := set_header h1 s). apply (wp_slice_at 0 _ _ s1 h1); [done|]. simpl.
  apply wp_bind. eapply wp_lift; [apply processCacheData_ok; [split; simpl; [done|congruence]|done]|].
  assert (like (set_header (cached r h1) s1) s) as Hlk1.
  { unfold like, bare. simpl. f_equal. unfold core, cached, h1, set_full, set_loading, set_loaded, set_parts. simpl. rewrite Hch, A2.
    assert (loadingFromCache (header s) = false) as -> by (destruct (loadingFromCache (header s)) eqn:El; [|done]; rewrite (flag_one _ (sd_header_flags _ H)) in A2; done).
    f_equal. apply map_eq. intros o. rewrite lookup_union. destruct (parts (header s) !! o) eqn:Eo; [by destruct (r !! o)|].
    destruct (r !! o) eqn:Er; [|done]. destruct (Hr o); [by eexists|congruence]. }
  unfold put_slice at 1. apply wp_bind, wp_modify, wp_bind. eapply wp_mono; [apply checkSliceFullLoaded_ok; by eexists|]. intros [] s2 Hl2.
  assert (like s2 s) as Hlk2 by (etrans; [by symmetry|done]). clear Hl2 Hlk1. assert (sound s2) as H2 by (eapply sound_like; [by symmetry|done]).
  pose proof (core_eq _ _ (like_header _ _ Hlk2)) as (Ph & _). destruct (like_lookup s s2 0 x ltac:(by symmetry) Hx) as (y & Hy & Ey).
  pose proof (core_eq _ _ Ey) as (Py & Ly & Dy & Cy).
  set (l := entries (parts (header s2))). set (first := take (partition_point (fun x => (index_of x.1 =? 0)%nat) l) l).
  assert (free first (data s2)) as Hfree.
  { intros o b z Ho Hz. apply first_entries in Ho as [Ho Hi]; [|apply (sd_header _ H2)]. rewrite Hi in *. assert (z = y) as -> by congruence.
    unfold base. rewrite <- Py. destruct (sd_header _ H2 o b Ho) as ((Ho0 & _) & _). simpl in Ho0. apply index_zero in Hi; [|done].
    rewrite Z.sub_0_r. apply Hd; [lia|]. rewrite <- Ph. by eexists. }
  assert (applyHeaderCacheData s2 = Some (tt, set_data (put_parts first (data s2)) s2)) as Ea.
  { unfold applyHeaderCacheData, bind, gets, id. rewrite bool_decide_eq_false_2 by (intros ?%entries_nil; congruence).
    rewrite (like_mode _ _ Hlk2), E. rewrite applyWhile_ok; [done|by apply (true_entries 0 S), (sd_header _ H2)|apply entries_nodup|done|].
    intros z _ ->%Nat.eqb_eq. by eapply lookup_lt_Some. }
  eapply wp_step; [exact Ea|].
  assert (exists y', put_parts first (data s2) = <[0%nat := y']> (data s2) /\ loadingFromCache y' = true /\ loadedFromCache y' = false
    /\ changedSinceCache y' = false /\ forall o b, parts y' !! o = Some b <-> parts x !! o = Some b \/ 0 <= o < kInSlice /\ parts (header s) !! o = Some b) as (y' & Ey' & L1 & L2 & L3 & L4).
  { assert (length (put_parts first (data s2)) = length (data s2)) as Hlen by apply put_parts_length.
    assert (NoDup first.*1) as Hnd.
    { pose proof (entries_nodup (parts (header s2))) as Hn. fold l in Hn. unfold first. rewrite fmap_take.
      rewrite <- (take_drop (partition_point (fun x => (index_of x.1 =? 0)%nat) l) l.*1) in Hn. by apply NoDup_app in Hn as [? _]. }
    destruct (lookup_lt_is_Some_2 (put_parts first (data s2)) 0) as [y' Hy']; [rewrite Hlen; by eapply lookup_lt_Some|].
    destruct (put_parts_lookup _ _ _ _ Hnd Hfree Hy') as (z & Hz & B1 & B2 & _ & B4 & B5). assert (z = y) as -> by congruence.
    exists y'. split.
    - apply list_eq. intros i. destruct (decide (i = 0%nat)) as [->|Hi].
      + rewrite list_lookup_insert_eq by (by eapply lookup_lt_Some). done.
      + rewrite list_lookup_insert_ne by done. apply put_parts_other. intros [o b] Hin. simpl.
        apply first_entries in Hin as [_ ->]; [done|apply (sd_header _ H2)].
    - rewrite B1, B2, B4 by congruence. split_and!; try congruence. intros o b. rewrite B5, <- Py. split; (intros [?|Hin]; [by left|right]).
      + destruct Hin as (o' & Ho' & Hi' & ->). apply first_entries in Ho' as [Ho' _]; [|apply (sd_header _ H2)]. rewrite <- Ph.
        destruct (sd_header _ H2 o' b Ho') as ((Ho0 & _) & _). simpl in Ho0. apply index_zero in Hi'; [|done]. unfold base. rewrite Z.sub_0_r. split; [lia|done].
      + destruct Hin as [Ho Hb]. rewrite <- Ph in Hb. exists o. split; [apply first_entries; [apply (sd_header _ H2)|]; split; [done|]|split; [|unfold base; lia]];
          apply index_zero; lia. }
  rewrite Ey'. apply wp_bind, wp_gets. unfold isGoodHeader. simpl. rewrite (like_mode _ _ Hlk2), E. simpl.
  set (s3 := set_data _ s2). assert (data s3 !! 0%nat = Some y') as Hy' by (simpl; apply list_lookup_insert_eq; by eapply lookup_lt_Some).
  unfold change_slice. apply (wp_slice_at 1 _ _ s3 y' Hy'). unfold put_slice. apply wp_modify. simpl. rewrite list_insert_insert_eq.
  assert (like (set_data (<[0%nat := set_loading true y']> (data s2)) s3) (set_data (<[0%nat := set_loading true y']> (data s)) s)) as Hlk.
  { pose proof (like_data _ _ Hlk2) as Ed. unfold like, bare in *. simpl. rewrite !list_fmap_insert, Ed. f_equal; try apply Hlk2.
    - by apply like_header.
    - by apply like_used.
    - by apply like_size.
    - by apply like_mode. }
  split; [|split; eexists; split; [exact Hlk|]; by split_and!].
  eapply sound_like; [symmetry; exact Hlk|]. apply sound_slice; [done|by rewrite E|split; simpl; congruence| |by rewrite E|].
  - intros o b. simpl. intros [Hb|[Ho Hb]]%L4; [by apply (sd_slice _ H _ x Hx)|].
    destruct (sd_header _ H o b Hb) as (B1 & B2 & B3 & B4). by split.
  - intros _ _. simpl. rewrite Hch, L2. by split.
Qed.

(** *** Without the cache *)

(** The player has read the header: what is there is all that is known. *)
Definition header_done (s : Slices) : Slices :=
  set_data (set_loaded true <$> data s) (set_mode (good_from (parts (header s))) s).

Lemma mark_all (d : list Slice) : Forall untouched d -> mapM mark_loaded d = Some (set_loaded true <$> d).
Proof.
  induction 1 as [|x d [Hx1 Hx2] Hd IH]; [done|].
  assert (mark_loaded x = Some (set_loaded true x)) as Em by (unfold mark_loaded; by rewrite Hx1, Hx2).
  cbn [mapM]. rewrite Em. simpl. by rewrite IH.
Qed.

Lemma headerDone_ok (s : Slices) : sound s -> headerMode s = Unknown -> loadingFromCache (header s) = false -> parts (header s) <> ∅ ->
  headerDone false s = Some (tt, header_done s) /\ sound (header_done s).
Proof.
  intros [H1 H2 H3 H4 H5 H6 H7 H8 H9] E Hl Hne. unfold mode_ok in H9. rewrite E in H9. destruct H9 as (A1 & A2 & A3 & A4). split.
  - unfold headerDone, bind, gets, id, headerModeUnknown, modify, lift, isFullInHeader, computeIsGoodHeader. rewrite E, H1. simpl.
    rewrite mark_all by done. done.
  - assert (forall i x, data (header_done s) !! i = Some x -> exists y, data s !! i = Some y /\ x = set_loaded true y) as Hd.
    { intros i x. simpl. rewrite list_lookup_fmap. destruct (data s !! i) as [y|]; [|done]. intros [= <-]. by exists y. }
    split; try done.
    + simpl. by rewrite length_fmap.
    + intros i x (y & Hy & ->)%Hd. by apply (H4 i y).
    + apply Forall_lookup. intros i x (y & Hy & ->)%Hd. rewrite Forall_lookup in A1, H6. destruct (A1 i y Hy) as [U1 U2].
      split; simpl; [congruence|]. intros Hc. destruct (flag_changed _ (H6 i y Hy) Hc). congruence.
    + assert (loadedFromCache (header s) = true) as Hld by (by rewrite A2, Hl).
      unfold mode_ok. simpl. unfold good_from. destruct full eqn:Ef; [done|]. destruct (ComputeIsGoodHeader S (parts (header s))) eqn:Eg; [|done].
      split_and!; try done. intros x (y & Hy & ->)%Hd. split; [done|]. intros _. exact (A4 0%nat y Hy).
Qed.

Lemma headerDone_again (s : Slices) (b : bool) : headerMode s <> Unknown -> headerDone b s = Some (tt, s).
Proof. intros E. unfold headerDone, bind, gets, id, headerModeUnknown. by rewrite bool_decide_eq_false_2 by done. Qed.

Lemma processCachedSizes_ok (sizes : list Z) (s : Slices) : length sizes = length (data s) ->
  wp (processCachedSizes sizes) (fun _ s' => like s s') s.
Proof.
  intros Hn. unfold processCachedSizes. apply wp_bind, wp_gets. unfold id. rewrite Hn, Nat.eqb_refl. simpl.
  apply wp_bind, wp_modify, wp_modify. etrans; [|apply set_all_like]. unfold like, bare. simpl. f_equal.
  apply list_eq. intros i. rewrite !list_lookup_fmap, lookup_zip_with, lookup_zip_with.
  destruct (data s !! i) as [x|] eqn:Ex.
  - pose proof (lookup_lt_Some _ _ _ Ex) as Hlt. rewrite lookup_seq_lt by done. simpl.
    destruct (lookup_lt_is_Some_2 sizes i) as [n Hs]; [lia|]. rewrite Hs. simpl. f_equal. unfold apply_size. by destruct (negb _ && _).
  - apply lookup_ge_None in Ex. rewrite lookup_seq_ge by done. done.
Qed.

End Slices.
