(* ===== verification/SlicesWrite.v ===== *)
(** * Streaming: slices written to the cache

    What is written of a slice, or of the header with the first slice, is read
    back as exactly that. *)

From S2P Require Import Prelude Tcp StateMonad SliceCache Slices CacheFacts SliceFacts SlicesFacts.

(** At most two zeros are added. *)
Lemma padded_ok (maxSize : Z) (d : list Z) : exists k, (k <= 2)%nat /\ padded 4 maxSize d = Some (d ++ replicate k 0)
  /\ IsContiguousSerialization (len (d ++ replicate k 0)) maxSize = false.
Proof.
  assert (forall n, 0 <= n -> IsContiguousSerialization n maxSize = true <-> n mod kPartSize = 0 \/ n = maxSize) as Hc.
  { intros n Hn. unfold IsContiguousSerialization, crem. sizes. rewrite orb_true_iff, !Z.eqb_eq, Z.rem_mod_nonneg by lia. done. }
  assert (forall k, len (d ++ replicate k 0) = len d + Z.of_nat k) as Hl by (intros; unfold len; rewrite length_app, length_replicate; lia).
  pose proof (len_nonneg d) as Hn. set (n := len d) in *. sizes.
  assert (forall a, a mod kPartSize = 0 -> forall b, 0 < b < 3 -> (a + b) mod kPartSize = b) as Hm.
  { intros a Ha b Hb. rewrite Z.add_mod, Ha, Z.add_0_l, Z.mod_mod by lia. apply Z.mod_small. lia. }
  destruct (IsContiguousSerialization n maxSize) eqn:E0.
  - destruct (IsContiguousSerialization (n + 1) maxSize) eqn:E1.
    + assert (IsContiguousSerialization (n + 2) maxSize = false) as E2.
      { apply not_true_is_false. intros E2. apply Hc in E0, E1, E2; try lia.
        destruct E0 as [E0|E0], E1 as [E1|E1], E2 as [E2|E2]; try lia;
          try (pose proof (Hm n E0 1 ltac:(lia)); lia); try (pose proof (Hm n E0 2 ltac:(lia)); lia).
        replace (n + 2) with (n + 1 + 1) in E2 by lia. pose proof (Hm (n + 1) E1 1 ltac:(lia)). lia. }
      exists 2%nat. rewrite Hl. split; [lia|]. split; [|exact E2]. cbn [padded]. fold n. rewrite E0, len_app. fold n. change (len [0]) with 1. rewrite E1.
      rewrite !len_app. fold n. change (len [0]) with 1. replace (n + 1 + 1) with (n + 2) by lia. rewrite E2. by rewrite <- app_assoc.
    + exists 1%nat. rewrite Hl. split; [lia|]. split; [|exact E1]. cbn [padded]. fold n. rewrite E0, len_app. fold n. change (len [0]) with 1. by rewrite E1.
  - exists 0%nat. rewrite Hl. split; [lia|]. replace (n + Z.of_nat 0) with n by lia. split; [|exact E0]. cbn [padded]. fold n. rewrite E0. by rewrite app_nil_r.
Qed.

Section Write.
Context (C : Z -> Z) (S : Z).
Hypothesis size_positive : 0 < S.
Hypothesis size_bound : S <= 510 * kInSlice.

#[local] Abbreviation sound := (sound C S).
#[local] Abbreviation full := (full S).
#[local] Abbreviation slice_count := (slice_count S).
#[local] Abbreviation true_parts := (true_parts C S).

(** Where slice [n] begins and ends, the header being 0. *)
Definition start_of (n : nat) : Z := match n with O => 0 | Datatypes.S i => base i end.
Definition end_of (n : nat) : Z := match n with O => S | Datatypes.S i => Z.min S (base i + kInSlice) end.
Definition limit_of (n : nat) : Z := match n with O => S | Datatypes.S _ => kInSlice end.

Lemma at_true (n : nat) (s : Slices) (x : Slice) : sound s -> at_ n s = Some x -> true_parts (start_of n) (limit_of n) (parts x).
Proof. intros H Hx. destruct n as [|i]; simpl in *; [injection Hx as <-; apply (sd_header _ _ _ H)|by apply (sd_slice _ _ _ H)]. Qed.

Lemma true_fits (n : nat) (p : PartsMap) : true_parts (start_of n) (limit_of n) p -> entry_ok (end_of n - start_of n) p.
Proof.
  intros Ht o b Hb. pose proof (Ht o b Hb) as Hp. assert (0 <= start_of n) by (destruct n; simpl; unfold base; sizes; lia).
  destruct (true_part_len C S (start_of n) (limit_of n) (o, b) ltac:(done) Hp) as [El Hl].
  destruct Hp as (A1 & A2 & A3 & _). simpl in *. sizes. unfold fits_entry. simpl. split; [lia|]. split; [intros ->; unfold len in Hl; simpl in Hl; lia|]. split; [|lia].
  destruct n as [|i]; simpl in *; [lia|].
  assert (o + kPartSize <= kInSlice) by (apply grid_next; [done|done|lia]). lia.
Qed.

Lemma max_size (n : nat) : full = false \/ n = O -> (n <= slice_count)%nat ->
  exists m, MaxSliceSize n S = Some m /\ fits_s 32 m /\ wrapu 32 m = end_of n - start_of n
    /\ (n <> O \/ full = true -> m = end_of n - start_of n).
Proof.
  intros Hor Hn. sizes. unfold MaxSliceSize. destruct n as [|i]; cbn [Nat.eqb end_of start_of].
  - eexists. split; [done|]. split; [apply wraps_bound; lia|]. rewrite wrapu_wraps, wrapu_small by (unfold fits_u; lia).
    split; [lia|]. intros [?|Hf]; [done|]. apply full_in_header in Hf. rewrite wraps_small by (unfold fits_s; lia). lia.
  - destruct Hor as [Ef|?]; [|done]. destruct (slice_count_ok S size_bound Ef) as [B1 B2]. rewrite (count_is S size_positive size_bound Ef).
    assert (forall j, Z.of_nat j * kInSlice = Z.of_nat j * 8388608) as Hj by (intros; by rewrite slice_is).
    eexists. split; [done|]. unfold base in *. pose proof (Hj i). pose proof (Hj slice_count). destruct (Z.eqb_spec (Z.of_nat (Datatypes.S i)) (Z.of_nat slice_count)) as [E|E].
    + replace (Z.of_nat (Datatypes.S i) - 1) with (Z.of_nat i) by lia. rewrite (wrapu_small 32 (Z.of_nat i * kInSlice)) by (unfold fits_u; lia).
      rewrite wrapu_small by (unfold fits_u; lia). rewrite !wraps_small by (unfold fits_s; lia).
      rewrite Z.min_l by lia. split; [unfold fits_s; lia|]. split; [apply wrapu_small; unfold fits_u; lia|]. done.
    + rewrite wraps_small by (unfold fits_s; lia). rewrite Z.min_r by nia. split; [unfold fits_s; lia|].
      split; [rewrite wrapu_small by (unfold fits_u; lia); lia|]. intros _. lia.
Qed.

(** ** One slice *)

Lemma true_rest (base_ limit : Z) (p : PartsMap) (P : Z * list Z -> Prop) `{forall x, Decision (P x)} :
  true_parts base_ limit p -> true_parts base_ limit (filter P p).
Proof. intros Hp o b [Hb _]%map_lookup_filter_Some. by apply Hp. Qed.

Lemma true_size (base_ limit : Z) (k : nat) (p : PartsMap) : true_parts base_ limit p -> limit <= Z.of_nat k * kPartSize -> (base.size p <= k)%nat.
Proof. intros Hp Hl. apply grid_size. intros o b Hb. destruct (Hp o b Hb) as ([? ?] & _ & ? & _). simpl in *. split; [lia|done]. Qed.

Lemma serialized_length (base_ limit : Z) (p : PartsMap) : 0 <= base_ -> true_parts base_ limit p ->
  4 <= len (serializeComplexSlice p) <= 4 + Z.of_nat (base.size p) * (8 + kPartSize).
Proof.
  intros Hb Hp. unfold serializeComplexSlice. rewrite len_app, len_le32, <- entries_length.
  assert (Forall (true_part C S base_ limit) (entries p)) as Ht by (apply Forall_forall; intros [o b] Hx%elem_of_entries; by apply Hp).
  induction Ht as [|x l Hx Ht IH]; [unfold len; simpl; lia|]. rewrite bind_cons, !len_app, !len_le32. cbn [length].
  destruct (true_part_len C S base_ limit x Hb Hx) as [_ ?]. lia.
Qed.

Lemma chain_back (l : list (Z * list Z)) (r : Z) (x : Z * list Z) : chain r l -> last l = Some x -> chain_end r l = x.1 + len x.2.
Proof.
  revert r. induction l as [|[o b] l IH]; intros r; [done|]. intros (-> & _ & _ & Hl). destruct l as [|y l]; [by intros [= <-]|].
  rewrite last_cons_cons. cbn [chain_end]. by apply IH.
Qed.

Lemma last_after (l : list (Z * list Z)) (x : Z * list Z) : StronglySorted (fun a b => a.1 < b.1) l -> last l = Some x -> Forall (fun y => y.1 <= x.1) l.
Proof.
  intros Hs [k ->]%last_Some. apply StronglySorted_app_iff in Hs as (_ & _ & Hk). apply Forall_forall. intros y [Hy|Hy]%elem_of_app.
  - specialize (Hk y x Hy ltac:(left)). simpl in Hk. lia.
  - by apply list_elem_of_singleton in Hy as ->.
Qed.

(** All parts without a gap are written one after another. *)
Lemma contiguous_chain (n : nat) (p : PartsMap) (back : Z * list Z) : true_parts (start_of n) (limit_of n) p -> last (entries p) = Some back ->
  back.1 < FindNotLoadedStart (entries p) 0 -> limit_of n <= 510 * kInSlice ->
  chain 0 (entries p) /\ chain_end 0 (entries p) = back.1 + len back.2 /\ true_part C S (start_of n) (limit_of n) back.
Proof.
  intros Hp Hl Hlt Hlim. sizes. assert (0 <= start_of n) as Hn by (destruct n; simpl; unfold base; lia).
  assert (Forall (true_part C S (start_of n) (limit_of n)) (entries p)) as Ht by (apply Forall_forall; intros [o b] Hx%elem_of_entries; by apply Hp).
  pose proof (entries_sorted p) as Hs. pose proof (last_after _ _ Hs Hl) as Hle.
  pose proof (last_Some_elem_of _ _ Hl) as Hin. rewrite Forall_forall in Ht. pose proof (Ht _ Hin) as Hb. rewrite <- Forall_forall in Ht.
  destruct (find_start C S size_bound (start_of n) (limit_of n) 0 (back.1 + 1) (entries p)) as (_ & _ & F3); try done; try (destruct Hb as (? & ? & _); lia).
  { apply Forall_forall. intros x Hx. rewrite Forall_forall in Hle, Ht. specialize (Hle x Hx). destruct (Ht x Hx) as (? & _). simpl in *. lia. }
  destruct (F3 ltac:(lia)) as [Hc He]. split; [done|]. split; [by apply chain_back|done].
Qed.

Lemma contiguous_written (n : nat) (p : PartsMap) (m : Z) (back : Z * list Z) : true_parts (start_of n) (limit_of n) p ->
  last (entries p) = Some back -> back.1 < FindNotLoadedStart (entries p) 0 -> limit_of n <= 510 * kInSlice ->
  m = end_of n - start_of n -> m < 2 ^ 31 -> ParseCachedMap ∅ (entries p ≫= snd) m = (p, []).
Proof.
  intros Hp Hl Hlt Hlim Hm Hm2. sizes. assert (0 <= start_of n) as Hn by (destruct n; simpl; unfold base; lia).
  destruct (contiguous_chain n p back Hp Hl Hlt Hlim) as (Hc & Hce & Hb). destruct (true_part_len C S _ _ back Hn Hb) as [El Hlen].
  destruct Hb as (B1 & B2 & B3 & B4). assert (back.1 + len back.2 <= m) as Hend.
  { pose proof (true_fits n p Hp) as Hf. pose proof (last_Some_elem_of _ _ Hl) as Hin. destruct back as [o b]. simpl in *.
    apply elem_of_entries in Hin. destruct (Hf o b Hin) as (_ & _ & ? & _). simpl in *. lia. }
  apply parse_contiguous; [done|lia|]. rewrite Hce. unfold IsContiguousSerialization, crem. apply orb_true_iff. rewrite !Z.eqb_eq.
  destruct (Z.eq_dec (len back.2) kPartSize) as [Ek|Ek].
  - left. rewrite Z.rem_mod_nonneg by lia. rewrite Ek. by apply grid_add.
  - right. destruct n as [|i]; simpl in *; lia.
Qed.

Lemma chain_upper (l : list (Z * list Z)) (r : Z) : chain r l -> chain_end r l <= r + Z.of_nat (length l) * kPartSize.
Proof. revert r. induction l as [|[o b] l IH]; intros r; [simpl; lia|]. intros (_ & ? & _ & Hl). cbn [chain_end length]. specialize (IH _ Hl). lia. Qed.

(** The parts of a small header have a gap. *)
Lemma small_gap (p : PartsMap) (back : Z * list Z) : true_parts 0 S p -> full = false -> (base.size p <= kMaxPartsInHeader)%nat ->
  ComputeIsGoodHeader S p = false -> last (entries p) = Some back -> FindNotLoadedStart (entries p) 0 <= back.1.
Proof.
  intros Hp Ef Hs Hg Hl. apply Z.nlt_ge. intros Hlt. destruct (contiguous_chain 0 p back Hp Hl Hlt ltac:(sizes; simpl; lia)) as (Hc & _ & _).
  pose proof (chain_upper _ _ Hc) as Hu. pose proof (chain_keys _ _ Hc) as Hk. rewrite entries_length in Hu. unfold kMaxPartsInHeader in Hs. sizes.
  unfold ComputeIsGoodHeader in Hg. change (IsFullInHeader S) with full in Hg. rewrite Ef in Hg.
  assert (partition_point (fun x : Z * list Z => x.1 <? kInSlice) (entries p) = length (entries p)) as E.
  { rewrite <- (app_nil_r (entries p)) at 1. apply partition_point_app; [|by intros ? ?%not_elem_of_nil]. intros x Hx.
    rewrite Forall_forall in Hk. specialize (Hk x Hx). simpl in Hk. apply Z.ltb_lt. lia. }
  rewrite E, drop_all in Hg. done.
Qed.

(** Others are listed. *)
Lemma listed_written (n : nat) (p : PartsMap) (m : Z) (rest : list Z) : true_parts (start_of n) (limit_of n) p -> (base.size p <= 80)%nat ->
  wrapu 32 m = end_of n - start_of n -> len rest <= 2 ^ 30 -> IsContiguousSerialization (len (serializeComplexSlice p ++ rest)) m = false ->
  ParseCachedMap ∅ (serializeComplexSlice p ++ rest) m = (p, rest).
Proof.
  intros Hp Hs Hm Hr Hc. assert (0 <= start_of n) as Hn by (destruct n; simpl; unfold base; sizes; lia).
  apply parse_listed; [rewrite Hm; by apply true_fits|done|done|]. rewrite len_app.
  pose proof (serialized_length _ _ p Hn Hp) as Hl. rewrite part_is in Hl. nia.
Qed.

(** What is in the entry of slice [n] when it is written, and what is left. *)
Definition entry_of (n : nat) (s : Slices) : ParsedCacheEntry :=
  mk_parsed (from_option parts ∅ (at_ n s))
    (if (n =? 0)%nat && isGoodHeader s
     then Some (filter (fun x => parts (header s) !! x.1 = None) (from_option parts ∅ (data s !! 0%nat))) else None).

Definition saved (n : nat) (s : Slices) : Slices :=
  match n with
  | O => set_header (set_changed false (header s)) (if isGoodHeader s then set_data (alter unloadSlice 0%nat (data s)) s else s)
  | Datatypes.S i => set_data (alter unloadSlice i (data s)) s
  end.

(** Slice 1 is written with a good header. *)
Definition target (n : nat) (s : Slices) : nat := if isGoodHeader s && (n =? 1)%nat then O else n.

Record writable (n : nat) (s : Slices) (x : Slice) : Prop := {
  wr_sound : sound s;
  wr_mode : headerMode s <> Unknown /\ headerMode s <> NoCache;
  wr_at : at_ n s = Some x;
  wr_some : parts x <> ∅;
  wr_first : headerMode s = Good -> n = O -> exists y, data s !! 0%nat = Some y /\ loadedFromCache y = true }.

Lemma last_entries (p : PartsMap) : p <> ∅ -> exists back, last (entries p) = Some back.
Proof. intros Hp. apply last_is_Some. by rewrite entries_nil. Qed.

Lemma plain_bytes (n : nat) (p : PartsMap) (m : Z) (back : Z * list Z) (s : Slices) : true_parts (start_of n) (limit_of n) p -> (base.size p <= 80)%nat ->
  limit_of n <= 510 * kInSlice -> last (entries p) = Some back -> wrapu 32 m = end_of n - start_of n ->
  (back.1 < FindNotLoadedStart (entries p) 0 -> m = end_of n - start_of n /\ m < 2 ^ 31) ->
  exists bytes rest, ParseCachedMap ∅ bytes m = (p, rest)
    /\ (if back.1 <? FindNotLoadedStart (entries p) 0 then ret (entries p ≫= snd)
        else first <- ret [] ;; maxSize <- lift (Some m) ;; lift (padded 4 maxSize (serializeComplexSlice p ++ first))) s = Some (bytes, s).
Proof.
  intros Hp Hs Hlim Hl Hm Hc. destruct (Z.ltb_spec back.1 (FindNotLoadedStart (entries p) 0)) as [Hlt|_].
  - destruct (Hc Hlt). do 2 eexists. split; [|done]. by apply (contiguous_written n p m back).
  - destruct (padded_ok m (serializeComplexSlice p)) as (k & Hk & E & Hno). do 2 eexists. split.
    + apply (listed_written n); [done|done|done| |exact Hno]. unfold len. rewrite length_replicate. lia.
    + unfold bind, ret, lift. by rewrite app_nil_r, E.
Qed.

(** The first slice after the header. *)
Lemma first_read (p : PartsMap) (k : nat) (z : Z) : true_parts 0 kInSlice p -> full = false -> (k <= 2)%nat -> MaxSliceSize 1 S = Some z ->
  ParseCachedMap ∅ (serializeComplexSlice p ++ replicate k 0) z = (p, replicate k 0).
Proof.
  intros Hp Ef Hk Hz. sizes. destruct (slice_count_ok S size_bound Ef) as [B1 B2]. assert (~ S <= kMaxOnlyInHeader) as Hbig by (rewrite <- full_in_header; by rewrite Ef).
  destruct (max_size 1 (or_introl Ef) ltac:(lia)) as (z' & E & Hf & Hw & Hm). rewrite Hz in E. injection E as <-.
  specialize (Hm ltac:(by left)). unfold end_of, start_of, base in Hm, Hw. rewrite Z.min_r in Hm, Hw by lia. assert (z = kInSlice) as Ez by lia.
  assert (Forall (fun x => len x.2 = kPartSize) (entries p)) as Hfull.
  { apply Forall_forall. intros [o b] Hx%elem_of_entries. pose proof (Hp o b Hx) as Ht. destruct (true_part_len C S 0 kInSlice (o, b) ltac:(lia) Ht) as [El _].
    destruct Ht as (H1' & _ & H3 & _). simpl in *. assert (o + kPartSize <= kInSlice) by (apply grid_next; [done|by rewrite slice_is, part_is|lia]). lia. }
  pose proof (true_size 0 kInSlice 64 p Hp ltac:(lia)) as Hsz.
  assert (len (serializeComplexSlice p) = 4 + Z.of_nat (base.size p) * 8 + Z.of_nat (base.size p) * kPartSize) as El.
  { unfold serializeComplexSlice. rewrite len_app, len_le32, <- entries_length. clear -Hfull.
    induction Hfull as [|x l Hx Hl IH]; [unfold len; simpl; lia|]. rewrite bind_cons, !len_app, !len_le32, Hx. cbn [length]. lia. }
  apply (listed_written 1); [done|lia| | |].
  - change (end_of 1 - start_of 1) with (Z.min S (base 0 + kInSlice) - base 0). unfold base. rewrite Ez, Z.min_r by lia. rewrite wrapu_small by (unfold fits_u; lia). lia.
  - unfold len. rewrite length_replicate. lia.
  - rewrite len_app, El. replace (len (replicate k 0)) with (Z.of_nat k) by (unfold len; by rewrite length_replicate).
    unfold IsContiguousSerialization, crem. apply orb_false_iff. rewrite !Z.eqb_neq, Z.rem_mod_nonneg by lia.
    rewrite Z.add_shuffle0, Z.mod_add by lia. rewrite Z.mod_small by lia. split; [lia|]. rewrite Ez, slice_is, part_is. lia.
Qed.

Lemma bind_slice_at {A} (n : nat) (k : Slice -> M Slices A) (s : Slices) (x : Slice) : at_ n s = Some x -> (y <- slice_at n ;; k y) s = k x s.
Proof. intros H. unfold bind, slice_at. destruct n as [|i]; simpl in H; [by injection H as ->|by rewrite H]. Qed.

Lemma limit_small (n : nat) : limit_of n <= 510 * kInSlice.
Proof. destruct n as [|i]; simpl; sizes; lia. Qed.

Lemma writable_size (n : nat) (s : Slices) (x : Slice) : writable n s x -> (base.size (parts x) <= 80)%nat.
Proof.
  intros H. pose proof (at_true n s x (wr_sound _ _ _ H) (wr_at _ _ _ H)) as Ht. sizes. destruct n as [|i].
  - destruct full eqn:Ef; [apply (true_size _ _ 80 _ Ht); apply full_in_header in Ef; simpl; lia|].
    pose proof (sd_many _ _ _ (wr_sound _ _ _ H) Ef) as Hm. pose proof (wr_at _ _ _ H) as Hx. injection Hx as <-. unfold kMaxPartsInHeader in Hm. lia.
  - apply (true_size _ _ 80 _ Ht). simpl. lia.
Qed.

Lemma serialize_plain (n : nat) (s : Slices) (x : Slice) : (n <= slice_count)%nat -> writable n s x -> target n s = n ->
  (n =? 0)%nat && isGoodHeader s = false -> exists bytes, serializeAndUnloadSlice n s = Some (mk_serialized n bytes, saved n s)
    /\ ParseCacheEntry bytes n S = Some (entry_of n s).
Proof.
  intros Hn H Et Eg. pose proof H as [Hs [Hm1 Hm2] Hx Hne Hf]. pose proof (at_true n s x Hs Hx) as Ht.
  destruct (last_entries _ Hne) as [back Hl]. assert (full = false \/ n = O) as Hor.
  { destruct n as [|i]; [by right|left]. unfold slice_count in Hn. destruct full; [lia|done]. }
  destruct (max_size n Hor Hn) as (m & Em & Hfit & Hw & Hmx).
  destruct (plain_bytes n (parts x) m back s Ht (writable_size n s x H) (limit_small n) Hl Hw) as (bytes & rest & Hp & Hb).
  { intros Hlt. assert (n <> O \/ full = true) as Hor2.
    { destruct n as [|i]; [right|by left]. destruct full eqn:Ef; [done|]. injection Hx as <-. pose proof (sd_mode _ _ _ Hs) as Hmode. unfold mode_ok in Hmode.
      assert (headerMode s = Small) as Es by (unfold isGoodHeader in Eg; simpl in Eg; apply bool_decide_eq_false in Eg; destruct (headerMode s); try done; destruct Hmode; congruence).
      rewrite Es in Hmode. destruct Hmode as (_ & _ & Hg). pose proof (small_gap _ back Ht Ef (sd_many _ _ _ Hs Ef) Hg Hl). lia. }
    rewrite (Hmx Hor2). split; [done|]. destruct Hfit. rewrite <- (Hmx Hor2). lia. }
  exists bytes. split.
  - unfold serializeAndUnloadSlice. unfold bind at 1, gets, id. rewrite !bool_decide_eq_false_2 by done.
    rewrite (proj2 (Nat.ltb_ge _ _)) by (by rewrite (sd_count _ _ _ Hs)). simpl orb. cbv iota. fold (target n s). rewrite Et.
    rewrite andb_comm, Eg. cbn [orb]. cbv zeta iota. rewrite (bind_slice_at n _ s x Hx). unfold bind at 1, lift at 1. rewrite Hl.
    unfold maxSliceSize. rewrite (sd_size _ _ _ Hs), Em. unfold bind at 1. rewrite Hb. unfold bind, put_slice, modify, ret.
    do 2 f_equal. destruct n as [|i]; simpl.
    + unfold saved. simpl in Eg. rewrite Eg. by injection Hx as <-.
    + simpl in Hx. by rewrite (alter_insert_list _ _ _ x Hx).
  - unfold ParseCacheEntry. rewrite Em. simpl. rewrite Hp. unfold entry_of. rewrite Eg, Hx. simpl.
    destruct (n =? 0)%nat eqn:E0; [|done]. apply Nat.eqb_eq in E0 as ->. simpl in *. injection Hx as <-.
    assert (ComputeIsGoodHeader S (parts (header s)) = false) as ->; [|done]. pose proof (sd_mode _ _ _ Hs) as Hmode. unfold mode_ok in Hmode.
    unfold isGoodHeader in Eg. apply bool_decide_eq_false in Eg. destruct (headerMode s); try done; [by destruct Hmode as (_ & _ & ?)|].
    destruct Hmode as [Ef _]. unfold ComputeIsGoodHeader. change (IsFullInHeader S) with full. by rewrite Ef.
Qed.

Lemma serialize_good (n : nat) (s : Slices) : writable 0 s (header s) -> target n s = O -> (n <= slice_count)%nat -> headerMode s = Good ->
  exists bytes, serializeAndUnloadSlice n s = Some (mk_serialized 0 bytes, saved 0 s) /\ ParseCacheEntry bytes 0 S = Some (entry_of 0 s).
Proof.
  intros H Et Hn Eg. pose proof H as [Hs [Hm1 Hm2] Hx Hne Hf]. pose proof (at_true 0 s _ Hs Hx) as Ht.
  destruct (last_entries _ Hne) as [back Hl]. destruct (Hf Eg eq_refl) as (y & Hy & Hld).
  pose proof (sd_mode _ _ _ Hs) as Hmode. unfold mode_ok in Hmode. rewrite Eg in Hmode. destruct Hmode as (Ef & _ & _ & Hgood & _).
  assert (isGoodHeader s = true) as Eb by (unfold isGoodHeader; by rewrite Eg).
  destruct (max_size 0 ltac:(by right) ltac:(lia)) as (m & Em & Hfit & Hw & _). destruct (slice_count_ok S size_bound Ef) as [_ Hcount].
  destruct (max_size 1 (or_introl Ef) ltac:(lia)) as (m1 & Em1 & _).
  pose proof (true_rest _ _ _ (fun x => parts (header s) !! x.1 = None) (sd_slice _ _ _ Hs 0%nat y Hy)) as Hrest.
  set (r := filter _ (parts y)) in *. change (base 0) with 0 in Hrest.
  destruct (padded_ok m (serializeComplexSlice (parts (header s)) ++ serializeComplexSlice r)) as (k & Hk & E & Hno).
  assert (FindNotLoadedStart (entries (parts (header s))) 0 = FindNotLoadedStart (entries (parts (header s))) 0) as _ by done.
  assert (0 <= back.1) as Hb0.
  { destruct back as [o b]. apply last_Some_elem_of, elem_of_entries in Hl. destruct (Ht o b Hl) as [[? ?] _]. simpl in *. lia. }
  eexists. split.
  - unfold serializeAndUnloadSlice. unfold bind at 1, gets, id. rewrite !bool_decide_eq_false_2 by done.
    rewrite (proj2 (Nat.ltb_ge _ _)) by (by rewrite (sd_count _ _ _ Hs)). simpl orb. cbv iota. fold (target n s). rewrite Et.
    rewrite Eb. cbn [orb andb Nat.eqb]. cbv zeta iota. rewrite (bind_slice_at 0 _ s _ Hx). unfold bind at 1, lift at 1. rewrite Hl.
    rewrite (proj2 (Z.ltb_ge _ _)) by lia. unfold maxSliceSize. rewrite (sd_size _ _ _ Hs), Em.
    assert (serializeAndUnloadFirstSliceNoHeader s = Some (serializeComplexSlice r, set_data (alter unloadSlice 0%nat (data s)) s)) as E1.
    { unfold serializeAndUnloadFirstSliceNoHeader. rewrite (bind_slice_at 1 _ s y Hy), Hld. by rewrite (alter_insert_list _ _ _ y Hy). }
    unfold bind. rewrite E1. unfold lift. rewrite E. unfold put_slice, modify, ret. do 2 f_equal. unfold saved. by rewrite Eb.
  - unfold ParseCacheEntry. rewrite Em. cbv beta iota. rewrite <- app_assoc in Hno |- *.
    rewrite (listed_written 0 (parts (header s)) m); [|done|by apply (writable_size 0 s)|done| |exact Hno].
    + rewrite Hgood, Em1. cbn [andb Nat.eqb]. rewrite (first_read r k m1 Hrest Ef Hk Em1). unfold entry_of. simpl. rewrite Eb, Hy. done.
    + pose proof (serialized_length 0 kInSlice r ltac:(lia) Hrest) as Hl2. pose proof (true_size 0 kInSlice 64 r Hrest ltac:(sizes; lia)) as Hl3.
      rewrite len_app. replace (len (replicate k 0)) with (Z.of_nat k) by (unfold len; by rewrite length_replicate). rewrite part_is in Hl2. nia.
Qed.

Lemma serialize_ok (n : nat) (s : Slices) (x : Slice) : (n <= slice_count)%nat -> writable (target n s) s x ->
  exists bytes, serializeAndUnloadSlice n s = Some (mk_serialized (target n s) bytes, saved (target n s) s)
    /\ ParseCacheEntry bytes (target n s) S = Some (entry_of (target n s) s).
Proof.
  intros Hn H. destruct (isGoodHeader s) eqn:Eg; [destruct (Nat.eq_dec (target n s) 0%nat) as [E|E]|].
  - rewrite E in *. pose proof (wr_at _ _ _ H) as Hx. injection Hx as <-. apply serialize_good; try done. by apply bool_decide_eq_true in Eg.
  - assert (target n s = n) as Et by (unfold target in *; destruct (_ && _); done). rewrite Et in *.
    apply (serialize_plain n s x); try done. by rewrite (proj2 (Nat.eqb_neq _ _)).
  - assert (target n s = n) as Et by (unfold target; by rewrite Eg). rewrite Et in *. apply (serialize_plain n s x); try done. by rewrite andb_comm, Eg.
Qed.

Lemma unload_flags (x : Slice) : flags_ok (unloadSlice x).
Proof. by split. Qed.

Lemma target_idem (n : nat) (s : Slices) : target (target n s) s = target n s.
Proof. unfold target. destruct (isGoodHeader s), n as [|[|n]]; done. Qed.

Lemma saved_used (n : nat) (u : list nat) (s : Slices) : saved n (set_used u s) = set_used u (saved n s).
Proof. destruct n; simpl; [|done]. unfold isGoodHeader. simpl. by destruct (bool_decide _). Qed.

Lemma saved_sound (n : nat) (s : Slices) (x : Slice) : writable n s x -> n = target n s -> sound (saved n s).
Proof.
  intros [Hs [Hm1 Hm2] Hx Hne Hf] Et. destruct n as [|i]; simpl.
  - assert (sound (set_header (set_changed false (header s)) s)) as Hh.
    { destruct Hs as [H1 H2 H3 H4 [H5 _] H6 H7 H8 H9]. split; try done. unfold mode_ok in *. simpl.
      destruct (headerMode s); try done. destruct H9 as (A1 & A2 & A3 & A4 & A5). split_and!; try done. intros y Hy. by split; [|apply A5]. }
    destruct (isGoodHeader s) eqn:Eg; [|done]. apply bool_decide_eq_true in Eg. destruct (Hf Eg eq_refl) as (y & Hy & _).
    rewrite (alter_insert_list _ _ _ y Hy).
    apply (sound_slice C S 0 (unloadSlice y) (set_header (set_changed false (header s)) s)); done.
  - simpl in Hx. rewrite (alter_insert_list _ _ _ x Hx). apply sound_slice; try done. intros Eg ->.
    unfold target, isGoodHeader in Et. by rewrite Eg in Et.
Qed.

(** ** Slices that are not used *)

Lemma unload_unchanged (i : nat) (s : Slices) (x : Slice) : sound s -> headerMode s <> Unknown -> data s !! i = Some x ->
  (headerMode s = Good -> i = 0%nat -> changedSinceCache (header s) = false) -> sound (set_data (alter unloadSlice i (data s)) s).
Proof.
  intros Hs Hm Hx Hg. rewrite (alter_insert_list _ _ _ x Hx). apply sound_slice; try done. intros Eg Ei. by rewrite Hg.
Qed.

Lemma set_used_sound (u : list nat) (s : Slices) : sound s -> Forall (fun i => (i < slice_count)%nat) u -> sound (set_used u s).
Proof. intros [H1 H2 H3 H4 H5 H6 H7 H8 H9] Hu. by split. Qed.

(** What [serializeAndUnloadUnused] does: nothing, or the slice used first is
    unloaded, or it is written. *)
Inductive purge (s : Slices) : option SerializedSlice -> Slices -> Prop :=
  | purge_none s' : data s' = data s -> header s' = header s -> headerMode s' = headerMode s -> purge s None s'
  | purge_drop i u x : data s !! i = Some x -> loadedFromCache x = true -> changedSinceCache x = false ->
      (headerMode s = Good -> i = 0%nat -> changedSinceCache (header s) = false) -> purge s None (set_used u (set_data (alter unloadSlice i (data s)) s))
  | purge_write i u x bytes : data s !! i = Some x -> writable (target (Datatypes.S i) s) s (default Slice_new (at_ (target (Datatypes.S i) s) s)) ->
      ParseCacheEntry bytes (target (Datatypes.S i) s) S = Some (entry_of (target (Datatypes.S i) s) s) ->
      purge s (Some (mk_serialized (target (Datatypes.S i) s) bytes)) (set_used u (saved (target (Datatypes.S i) s) s)).

Lemma purge_ok (s : Slices) : sound s -> wp serializeAndUnloadUnused (fun r s' => sound s' /\ purge s r s') s.
Proof.
  intros Hs. unfold serializeAndUnloadUnused. apply wp_bind, wp_gets. unfold id, headerModeUnknown.
  destruct (bool_decide_reflect (headerMode s = Unknown)) as [|Hm]; [by apply wp_ret; split; [|apply purge_none]|]. cbn [orb].
  destruct (Nat.leb_spec (length (usedSlices s)) kSlicesInMemory); [by apply wp_ret; split; [|apply purge_none]|].
  pose proof (sd_used _ _ _ Hs) as Hu. destruct (usedSlices s) as [|i u] eqn:Eu; [simpl in *; lia|].
  apply Forall_cons in Hu as [Hi Hu]. pose proof (set_used_sound u s Hs Hu) as Hs'.
  destruct (lookup_lt_is_Some_2 (data s) i) as [x Hx]; [by rewrite (sd_count _ _ _ Hs)|].
  apply wp_bind, wp_modify, (wp_slice_at (Datatypes.S i) _ _ (set_used u s) x Hx).
  destruct (loadedFromCache x) eqn:Hl; [|by apply wp_ret; split; [|apply purge_none]]. cbn [negb].
  pose proof (sd_mode _ _ _ Hs) as Hmode. unfold mode_ok in Hmode.
  assert (headerMode s <> NoCache) as Hnc.
  { intros E. rewrite E in Hmode. destruct Hmode as [_ Hmode]. pose proof (Forall_lookup_1 _ _ _ _ Hmode Hx) as [_ ?]. congruence. }
  pose proof (Forall_lookup_1 _ _ _ _ (sd_flags _ _ _ Hs) Hx) as Hfx.
  rewrite (bool_decide_eq_false_2 (headerMode s = NoCache)) by done. cbn [orb]. destruct (negb (changedSinceCache x) && _) eqn:E.
  - apply andb_true_iff in E as [Ec%negb_true_iff E]. assert (headerMode s = Good -> i = 0%nat -> changedSinceCache (header s) = false) as Hg.
    { intros Eg ->. unfold isGoodHeader in E. rewrite Eg in E. simpl in E. by apply negb_true_iff in E. }
    apply wp_bind. unfold put_slice. apply wp_modify, wp_ret.
    change (set_data (<[i := unloadSlice x]> (data (set_used u s))) (set_used u s)) with (set_used u (set_data (<[i := unloadSlice x]> (data s)) s)).
    rewrite <- (alter_insert_list _ _ _ x Hx). split; [|by apply (purge_drop s i u x)].
    change (sound (set_data (alter unloadSlice i (data (set_used u s))) (set_used u s))). by apply (unload_unchanged i _ x).
  - assert (Datatypes.S i <= slice_count)%nat as Hn by lia. set (n := target (Datatypes.S i) s).
    assert (exists y, writable n s y) as [y Hw].
    { unfold n, target. destruct (isGoodHeader s) eqn:Eg; [destruct (Nat.eqb_spec (Datatypes.S i) 1) as [Ei|Ei]|]; cbn [andb].
      - pose proof Eg as Eg'%bool_decide_eq_true. rewrite Eg' in Hmode. destruct Hmode as (_ & _ & Hp & _). exists (header s). split; try done.
        intros _ _. replace i with 0%nat in Hx by lia. by exists x.
      - exists x. split; try done. rewrite (proj2 (Nat.ltb_lt 0 i)) in E by lia. destruct Hfx as [_ Hfx]. apply Hfx.
        by destruct (changedSinceCache x).
      - exists x. split; try done. destruct Hfx as [_ Hfx]. apply Hfx. by destruct (changedSinceCache x). }
    assert (default Slice_new (at_ n s) = y) as Ey by (by rewrite (wr_at _ _ _ Hw)).
    assert (writable n (set_used u s) y) as Hw' by (destruct Hw; by split).
    destruct (serialize_ok (Datatypes.S i) (set_used u s) y Hn Hw') as (bytes & Es & Ep). apply wp_bind. unfold wp. rewrite Es.
    change (target (Datatypes.S i) (set_used u s)) with n in *. rewrite saved_used.
    split; [|apply (purge_write s i u x); [done|fold n; by rewrite Ey|]].
    + rewrite <- saved_used. apply (saved_sound n _ y Hw'). symmetry. apply (target_idem (Datatypes.S i) (set_used u s)).
    + fold n. by rewrite Ep.
Qed.

End Write.
