(* ===== verification/SlicesFill.v ===== *)
(** * Streaming: what a player is given

    [fill] gives the bytes of the file, or says what it waits for: offsets that
    are not there and are needed, slices that are now read from the cache, or
    the header. *)

From S2P Require Import Prelude Tcp StateMonad SliceCache Slices CacheFacts SliceFacts SlicesFacts SlicesWrite.

Section Fill.
Context (C : Z -> Z) (S : Z).
Hypothesis size_positive : 0 < S.
Hypothesis size_bound : S <= 510 * kInSlice.

#[local] Abbreviation sound := (sound C S).
#[local] Abbreviation full := (full S).
#[local] Abbreviation slice_count := (slice_count S).
#[local] Abbreviation prepared := (prepared C).
#[local] Abbreviation content := (content C).

(** The slice of an offset was read from the cache, where there is something to
    read. *)
Definition looked_at (s : Slices) (o : Z) : Prop :=
  headerMode s = NoCache \/ headerMode s = Unknown \/ full = true \/ exists x, data s !! index_of o = Some x /\ loadedFromCache x = true.

(** Offsets of parts that are not there. *)
Definition asked (s : Slices) (l : list Z) : Prop := Forall (fun o => (on_grid S o /\ absent S s o) /\ looked_at s o) l.

(** One of them has bytes from [from] to [till]. *)
Definition needed (from till : Z) (l : list Z) : Prop := exists o, o ∈ l /\ from < o + kPartSize /\ o < till.

Lemma no_end (l : list Z) : Forall (fun o => o < S) l -> kEnd ∉ l.
Proof. intros H Hin. rewrite Forall_forall in H. specialize (H _ Hin). unfold kEnd in H. sizes. lia. Qed.

Lemma fillFromHeader_ok (offset : Z) (buffer : list Z) (s : Slices) : sound s -> full = true -> 0 <= offset -> buffer <> [] ->
  offset + len buffer <= S ->
  wp (fillFromHeader offset buffer) (fun r s' => s' = s /\ toCache r.1 = None /\ vec kReadFromCacheMax [] (sliceNumbersFromCache r.1)
    /\ exists l, vec kLoadFromRemoteMax l (fillOffsets r.1) /\ asked s l
      /\ match state r.1 with
         | Success => r.2 = content offset (len buffer)
         | WaitingRemote => r.2 = buffer /\ needed offset (offset + len buffer) l
         | _ => False
         end) s.
Proof.
  intros Hs Ef Ho Hb Hl. pose proof (sd_header _ _ _ Hs) as Ht. sizes. pose proof Ef as Hsz%full_in_header.
  assert (0 < len buffer) as Hlen by (destruct buffer; [done|unfold len; simpl; lia]).
  unfold fillFromHeader. apply wp_bind, wp_gets. unfold id. rewrite wrapu_small by (unfold fits_u; lia).
  destruct (prepare_ok C S size_bound 0 S offset (offset + len buffer) (header s) Ht) as (r & E & l & Hv & Ha & Hr); [lia..|].
  apply wp_bind. eapply wp_lift; [exact E|]. rewrite (vec_values _ _ _ Hv), (sd_size _ _ _ Hs).
  set (l' := filter (fun full => full < S) l). pose proof (vec_length _ _ _ Hv) as Hlm.
  assert (asked s l') as Hask.
  { apply Forall_forall. intros o [Hlt Hin]%list_elem_of_filter. destruct (Ha o Hin) as (A1 & A2 & A3). split; [|by right; right; left].
    split; [split; [lia|done]|]. unfold absent. fold full. by rewrite Ef. }
  assert (vec kLoadFromRemoteMax l' (add_all_ints l' (StackIntVector_new kLoadFromRemoteMax))) as Hv'.
  { pose proof (vec_add_all kLoadFromRemoteMax l' [] (StackIntVector_new kLoadFromRemoteMax)) as Hva. rewrite app_nil_l, take_ge in Hva.
    - apply Hva; [apply vec_new; unfold kLoadFromRemoteMax; lia|]. apply no_end. eapply Forall_impl; [exact Hask|]. intros o [[[[? ?] _] _] _]. lia.
    - unfold l'. pose proof (length_filter (fun full => full < S) l). lia. }
  pose proof (vec_new kReadFromCacheMax ltac:(unfold kReadFromCacheMax; lia)) as Hn.
  destruct (ready r).
  - destruct Hr as [_ Hr]. apply wp_bind. eapply wp_lift; [apply Hr; lia|]. apply wp_ret. split_and!; try done. exists l'. split_and!; try done.
    cbn [snd]. replace (offset + len buffer - offset) with (len buffer) by lia. rewrite drop_ge, app_nil_r by (unfold len; lia). done.
  - destruct Hr as (o & Hin & H1' & H2'). apply wp_ret. split_and!; try done. exists l'. split_and!; try done. split; [done|].
    exists o. split; [|lia]. apply list_elem_of_filter. split; [lia|done].
Qed.

Lemma asked_slice (s : Slices) (i : nat) (x : Slice) (o : Z) : sound s -> full = false -> data s !! i = Some x -> cacheNotLoaded s x = false ->
  0 <= o < kInSlice -> o mod kPartSize = 0 -> base i + o < S -> parts x !! o = None -> on_grid S (base i + o) /\ absent S s (base i + o).
Proof.
  intros Hs Ef Hx Hc Ho Hm Hlt Hn. assert (index_of (base i + o) = i) as Ei by (apply index_unique; lia).
  assert (0 <= base i) by (unfold base; sizes; lia). split.
  - split; [lia|]. unfold base. replace (Z.of_nat i * kInSlice) with (Z.of_nat i * 64 * kPartSize) by (rewrite slice_is, part_is; lia).
    sizes. by rewrite Z.add_comm, Z.mod_add by lia.
  - unfold absent. fold full. rewrite Ef, Ei. split; [intros y Hy|intros Eg ->].
    + rewrite Hx in Hy. injection Hy as <-. by replace (base i + o - base i) with o by lia.
    + pose proof (sd_mode _ _ _ Hs) as Hmode. unfold mode_ok in Hmode. unfold cacheNotLoaded, headerModeUnknown in Hc. rewrite Eg in *.
      cbn in Hc. apply negb_false_iff in Hc. destruct Hmode as (_ & _ & _ & _ & Ha). destruct (Ha x Hx) as [_ Ha']. specialize (Ha' Hc o Ho).
      destruct (parts (header s) !! (base 0 + o)); [|done]. destruct Ha' as [b Hb]; [by eexists|congruence].
Qed.

Lemma handlePrepareResult_ok (i : nat) (s : Slices) (x : Slice) (r : PrepareFillResult) (from till : Z) (l0 v : list Z) :
  sound s -> full = false -> data s !! i = Some x -> prepared (base i) from till x r -> base i + till <= S -> till <= kInSlice ->
  vec kLoadFromRemoteMax l0 v -> exists l v', handlePrepareResult i r v s = Some (v', s) /\ vec kLoadFromRemoteMax (take kLoadFromRemoteMax (l0 ++ l)) v'
    /\ asked s l /\ (length l <= kLoadFromRemoteMax)%nat
    /\ (cacheNotLoaded s x = false -> if ready r then till = kInSlice -> l = [] else needed (base i + from) (base i + till) l).
Proof.
  intros Hs Ef Hx (lp & Hvp & Ha & Hr) Ht Hts Hv. unfold handlePrepareResult. unfold bind at 1, gets, id.
  rewrite (bind_slice_at (Datatypes.S i) _ s x Hx). destruct (cacheNotLoaded s x) eqn:Ec.
  { exists [], v. rewrite app_nil_r, take_ge by (by apply (vec_length _ _ _ Hv)). split_and!; try done; [constructor|simpl; lia]. }
  rewrite (vec_values _ _ _ Hvp), (sd_size _ _ _ Hs). fold (base i).
  set (good := fun offset : Z => bool_decide (offset < kInSlice) && bool_decide (offset + base i < S)). set (l := (fun offset => offset + base i) <$> filter (fun x => good x) lp).
  assert (asked s l) as Hask.
  { apply Forall_forall. intros o' (o & -> & [Hg Hin]%list_elem_of_filter)%list_elem_of_fmap. unfold good in Hg.
    apply andb_prop_elim in Hg as [Hg1%bool_decide_unpack Hg2%bool_decide_unpack]. destruct (Ha o Hin) as (? & ? & ?).
    rewrite Z.add_comm. split; [apply (asked_slice s i x o); try done; lia|].
    assert (index_of (base i + o) = i) as Ei by (apply index_unique; lia). unfold looked_at. rewrite Ei.
    unfold cacheNotLoaded, headerModeUnknown in Ec. destruct (bool_decide_reflect (headerMode s = NoCache)); [by left|right].
    destruct (bool_decide_reflect (headerMode s = Unknown)); [by left|do 2 right]. exists x. split; [done|]. by apply negb_false_iff in Ec. }
  exists l. eexists. split; [done|]. split; [|split; [done|split]].
  - apply vec_add_all; [done|]. apply no_end. eapply Forall_impl; [exact Hask|]. intros o [[[? _] _] _]. lia.
  - unfold l. rewrite length_fmap. pose proof (length_filter (fun x => good x) lp). pose proof (vec_length _ _ _ Hvp). lia.
  - intros _. destruct (ready r).
    + destruct Hr as [Hge _]. intros ->. unfold l. destruct (filter _ lp) as [|o k] eqn:E; [done|]. exfalso.
      assert (o ∈ filter (fun x => good x) lp) as Hin by (rewrite E; left). apply list_elem_of_filter in Hin as [Hg Hin]. unfold good in Hg.
      apply andb_prop_elim in Hg as [Hg%bool_decide_unpack _]. specialize (Hge o Hin). lia.
    + destruct Hr as (o & Hin & Hlo & Hhi). exists (o + base i). split; [|lia]. apply list_elem_of_fmap. exists o. split; [done|].
      apply list_elem_of_filter. split; [|done]. unfold good. apply andb_prop_intro. split; apply bool_decide_pack; unfold base in *; lia.
Qed.

(** A slice that is now read from the cache. *)
Definition reading (i : nat) (s : Slices) : Slices := set_data (alter (set_loading true) i (data s)) s.

Lemma not_loaded (s : Slices) (x : Slice) : cacheNotLoaded s x = true <-> headerMode s <> NoCache /\ headerMode s <> Unknown /\ loadedFromCache x = false.
Proof.
  unfold cacheNotLoaded, headerModeUnknown. rewrite !andb_true_iff, !negb_true_iff, !bool_decide_eq_false. tauto.
Qed.

Lemma reading_sound (i : nat) (s : Slices) (x : Slice) : sound s -> data s !! i = Some x -> cacheNotLoaded s x = true -> sound (reading i s).
Proof.
  intros Hs Hx (H1 & H2 & H3)%not_loaded. unfold reading. rewrite (alter_insert_list _ _ _ x Hx).
  pose proof (Forall_lookup_1 _ _ _ _ (sd_flags _ _ _ Hs) Hx) as [F1 F2].
  apply sound_slice; [done|done|split; simpl; [done|exact F2]|exact (sd_slice _ _ _ Hs i x Hx)|done|]. intros Eg ->. simpl.
  pose proof (sd_mode _ _ _ Hs) as Hmode. unfold mode_ok in Hmode. rewrite Eg in Hmode. destruct Hmode as (_ & _ & _ & _ & Ha). apply (Ha x Hx).
Qed.

Lemma handleReadFromCache_ok (i : nat) (s : Slices) (x : Slice) (r : list Z * FillState) (nums : list nat) : data s !! i = Some x ->
  vec kReadFromCacheMax ((fun i => Z.of_nat (Datatypes.S i)) <$> nums) r.1 -> (length nums < kReadFromCacheMax)%nat -> (i < 510)%nat ->
  exists nums' v, handleReadFromCache i r s = Some ((v, if cacheNotLoaded s x then WaitingCache else r.2), foldl (fun s i => reading i s) s nums')
    /\ vec kReadFromCacheMax ((fun i => Z.of_nat (Datatypes.S i)) <$> nums ++ nums') v
    /\ nums' = if cacheNotLoaded s x && negb (loadingFromCache x) then [i] else [].
Proof.
  intros Hx Hv Hn Hi. unfold handleReadFromCache. unfold bind at 1, gets, id. rewrite (bind_slice_at (Datatypes.S i) _ s x Hx).
  destruct (cacheNotLoaded s x); [|exists [], r.1; rewrite app_nil_r; by destruct r]. destruct (loadingFromCache x); cbn [negb andb].
  - exists [], r.1. by rewrite app_nil_r.
  - pose proof (vec_add _ _ _ (Z.of_nat (Datatypes.S i)) Hv ltac:(unfold kEnd; lia)) as Ha. rewrite length_fmap in Ha.
    rewrite (proj2 (Nat.ltb_lt _ _)) in Ha by done. destruct Ha as (v' & E & Hv'). exists [i], v'. rewrite E. rewrite fmap_app. split; [|done].
    unfold bind, put_slice, modify, ret, foldl, reading. by rewrite (alter_insert_list _ _ _ x Hx).
Qed.

(** No parts more than before. *)
Record fewer (s s' : Slices) : Prop := {
  fw_header : parts (header s') = parts (header s);
  fw_mode : headerMode s' = headerMode s;
  fw_data : forall i y, data s' !! i = Some y -> exists x, data s !! i = Some x /\ forall o, parts x !! o = None -> parts y !! o = None }.

Lemma fewer_same (s : Slices) : fewer s s.
Proof. split; [done|done|]. intros i y Hy. by exists y. Qed.

Lemma fewer_chain (s t u : Slices) : fewer s t -> fewer t u -> fewer s u.
Proof.
  intros [H1 H2 H3] [G1 G2 G3]. split; [congruence|congruence|]. intros i z Hz. destruct (G3 i z Hz) as (y & Hy & Hyz).
  destruct (H3 i y Hy) as (x & Hx & Hxy). exists x. split; [done|]. intros o Ho. by apply Hyz, Hxy.
Qed.

Lemma fewer_absent (s s' : Slices) (o : Z) : fewer s s' -> absent S s o -> absent S s' o.
Proof.
  intros [H1 H2 H3]. unfold absent. destruct (SlicesFacts.full S); [by rewrite H1|]. intros [A1 A2]. split; [|by rewrite H1, H2].
  intros y Hy. destruct (H3 _ y Hy) as (x & Hx & Hxy). by apply Hxy, A1.
Qed.

Lemma fewer_alter (i : nat) (f : Slice -> Slice) (s : Slices) : (forall x o, parts x !! o = None -> parts (f x) !! o = None) ->
  fewer s (set_data (alter f i (data s)) s).
Proof.
  intros Hf. split; [done|done|]. intros j y. simpl. rewrite list_lookup_alter. destruct (decide (i = j)) as [<-|?].
  - destruct (data s !! i) as [x|]; [|done]. intros [= <-]. exists x. split; [done|]. intros o. apply Hf.
  - intros Hy. by exists y.
Qed.

Lemma fewer_saved (n : nat) (s : Slices) : fewer s (saved n s).
Proof.
  destruct n as [|i]; simpl; [|by apply fewer_alter]. destruct (isGoodHeader s).
  - eapply fewer_chain; [apply (fewer_alter 0%nat unloadSlice); done|]. by split; [| |intros i y Hy; exists y].
  - by split; [| |intros i y Hy; exists y].
Qed.

Lemma fewer_purge (s s' : Slices) (r : option SerializedSlice) : purge C S s r s' -> fewer s s'.
Proof.
  assert (forall u t, fewer s t -> fewer s (set_used u t)) as Hu by (intros u t [H1 H2 H3]; by split).
  intros [t Hd Hh Hm|i u x Hx _ _ _|i u x bytes _ _ _].
  - split; [by rewrite Hh|done|]. intros i y Hy. rewrite Hd in Hy. by exists y.
  - by apply Hu, fewer_alter.
  - apply Hu, fewer_saved.
Qed.

Lemma fewer_reading (l : list nat) (s : Slices) : fewer s (foldl (fun s i => reading i s) s l).
Proof.
  revert s. induction l as [|i l IH]; intros s; [apply fewer_same|]. simpl. eapply fewer_chain; [|apply IH]. by apply fewer_alter.
Qed.

(** ** The slices of what is asked for *)

Lemma spans (offset n : Z) : full = false -> 0 <= offset -> 0 < n <= kInSlice -> offset + n <= S ->
  let i := index_of offset in
  Z.to_nat ((offset + n + kInSlice - 1) / kInSlice) = (if base (Datatypes.S i) <? offset + n then Datatypes.S (Datatypes.S i) else Datatypes.S i)
  /\ (Z.to_nat ((offset + n + kInSlice - 1) / kInSlice) <= slice_count)%nat.
Proof.
  intros Ef Ho Hn Hs i. pose proof (index_base offset Ho) as Hb. fold i in Hb. destruct (slice_count_ok S size_bound Ef) as [Hc1 Hc2].
  assert (base (Datatypes.S i) = base i + kInSlice) as Eb by (unfold base; lia).
  assert (forall a b, b * kInSlice < a + kInSlice <= b * kInSlice + kInSlice -> (a + kInSlice - 1) / kInSlice = b) as Hdiv.
  { intros a b Hab. symmetry. apply (Z.div_unique _ kInSlice b (a + kInSlice - 1 - b * kInSlice)); sizes; lia. }
  assert (Z.to_nat ((offset + n + kInSlice - 1) / kInSlice) = (if base (Datatypes.S i) <? offset + n then Datatypes.S (Datatypes.S i) else Datatypes.S i)) as E.
  { destruct (Z.ltb_spec (base (Datatypes.S i)) (offset + n)).
    - rewrite (Hdiv _ (Z.of_nat (Datatypes.S (Datatypes.S i)))); [lia|]. unfold base in *. sizes. lia.
    - rewrite (Hdiv _ (Z.of_nat (Datatypes.S i))); [lia|]. unfold base in *. sizes. lia. }
  split; [done|]. rewrite E. destruct (Z.ltb_spec (base (Datatypes.S i)) (offset + n)); unfold base in *; sizes; nia.
Qed.

(** What [fill] answers for [offset] and [n]. *)
Record filled (offset : Z) (buffer : list Z) (s : Slices) (r : FillResult * list Z) (s' : Slices) (l : list Z) (nums : list nat) : Prop := {
  fd_offsets : vec kLoadFromRemoteMax l (fillOffsets r.1);
  fd_asked : asked s l;
  fd_numbers : vec kReadFromCacheMax ((fun i => Z.of_nat (Datatypes.S i)) <$> nums) (sliceNumbersFromCache r.1);
  fd_state : match state r.1 with
    | Success => r.2 = content offset (len buffer) /\ nums = [] /\ exists u, purge C S (set_used u s) (toCache r.1) s'
    | WaitingCache => r.2 = buffer /\ toCache r.1 = None /\ s' = foldl (fun s i => reading i s) s nums /\ NoDup nums
        /\ Forall (fun i => exists x, data s !! i = Some x /\ cacheNotLoaded s x = true /\ loadingFromCache x = false) nums
        /\ exists i x, (base i < offset + len buffer /\ offset < base i + kInSlice) /\ data s' !! i = Some x /\ loadingFromCache x = true
    | WaitingRemote => r.2 = buffer /\ toCache r.1 = None /\ s' = s /\ nums = []
        /\ (loadingFromCache (header s) = true \/ needed offset (offset + len buffer) l)
    | Failed => False
    end }.

Lemma mark_used (i : nat) (s : Slices) : sound s -> (i < slice_count)%nat -> exists u, markSliceUsed i s = Some (tt, set_used u s) /\ sound (set_used u s).
Proof.
  intros Hs Hi. eexists. split; [done|]. apply set_used_sound; [done|]. apply Forall_app. split; [|by constructor].
  apply Forall_forall. intros j [_ Hj]%list_elem_of_filter. pose proof (sd_used _ _ _ Hs) as Hu. rewrite Forall_forall in Hu. by apply Hu.
Qed.

(** At the end the slice used first may be written. *)
Lemma written_ok (offset : Z) (buffer bytes v l : list Z) (s : Slices) (u : list nat) : sound s -> sound (set_used u s) ->
  bytes = content offset (len buffer) -> vec kLoadFromRemoteMax l v -> asked s l ->
  wp (written <- serializeAndUnloadUnused ;; ret (mk_fill (StackIntVector_new kReadFromCacheMax) v written Success, bytes))
    (fun r s' => sound s' /\ exists l nums, filled offset buffer s r s' l nums) (set_used u s).
Proof.
  intros Hs Hu -> Hv Ha. apply wp_bind. eapply wp_mono; [by apply (purge_ok C S)|]. intros w s' [Hs' Hp]. apply wp_ret. split; [done|].
  exists l, []. split; try done; [apply vec_new; unfold kReadFromCacheMax; lia|]. simpl. eauto.
Qed.

Lemma reading_lookup (nums : list nat) (s : Slices) (i : nat) : data (foldl (fun s i => reading i s) s nums) !! i
  = if decide (i ∈ nums) then set_loading true <$> data s !! i else data s !! i.
Proof.
  revert s. induction nums as [|j nums IH]; intros s; [by rewrite decide_False by apply not_elem_of_nil|]. cbn [foldl]. rewrite IH. clear IH.
  assert (data (reading j s) !! i = if decide (j = i) then set_loading true <$> data s !! i else data s !! i) as E.
  { unfold reading. simpl. rewrite list_lookup_alter. by destruct (decide (j = i)) as [->|]. }
  rewrite E. destruct (decide (j = i)) as [->|Hne].
  - rewrite (decide_True (P := i ∈ i :: nums)) by left. destruct (decide (i ∈ nums)); [|done]. by destruct (data s !! i).
  - destruct (decide (i ∈ nums)); [rewrite decide_True by (by right); done|rewrite decide_False; [done|]]. by apply not_elem_of_cons.
Qed.

Lemma readings_sound (nums : list nat) (s : Slices) : sound s ->
  Forall (fun i => exists x, data s !! i = Some x /\ cacheNotLoaded s x = true) nums -> sound (foldl (fun s i => reading i s) s nums).
Proof.
  revert s. induction nums as [|i nums IH]; intros s Hs H; [done|]. apply Forall_cons in H as [(x & Hx & Hc) H]. cbn [foldl].
  apply IH; [by apply (reading_sound i s x)|]. eapply Forall_impl; [exact H|]. intros j (y & Hy & Hcy). pose proof (reading_lookup [i] s j) as E.
  cbn [foldl] in E. rewrite E, Hy. destruct (decide _); [exists (set_loading true y)|exists y]; done.
Qed.

(** What is waited for. *)
Definition to_read (s : Slices) (x : Slice) : bool := cacheNotLoaded s x && negb (loadingFromCache x).

Lemma waiting_ok (offset : Z) (buffer : list Z) (s : Slices) (ix : list (nat * Slice)) (l v w : list Z) (st : FillState) : sound s ->
  Forall (fun x => data s !! x.1 = Some x.2 /\ base x.1 < offset + len buffer /\ offset < base x.1 + kInSlice) ix -> NoDup ix.*1 ->
  vec kLoadFromRemoteMax l v -> asked s l -> let nums := (filter (fun x => to_read s x.2) ix).*1 in
  vec kReadFromCacheMax ((fun i => Z.of_nat (Datatypes.S i)) <$> nums) w ->
  st = (if existsb (fun x => cacheNotLoaded s x.2) ix then WaitingCache else WaitingRemote) ->
  (existsb (fun x => cacheNotLoaded s x.2) ix = false -> needed offset (offset + len buffer) l) ->
  let s' := foldl (fun s i => reading i s) s nums in sound s' /\ exists l nums, filled offset buffer s (mk_fill w v None st, buffer) s' l nums.
Proof.
  intros Hs Hix Hnd Hv Ha nums Hw -> Hn s'. rewrite Forall_forall in Hix.
  assert (Forall (fun i => exists x, data s !! i = Some x /\ cacheNotLoaded s x = true /\ loadingFromCache x = false) nums) as Hnums.
  { apply Forall_forall. intros i ([j x] & -> & [Hr Hin]%list_elem_of_filter)%list_elem_of_fmap. exists x. destruct (Hix _ Hin) as [? _].
    unfold to_read in Hr. simpl in *. apply andb_prop_elim in Hr as [? ?]. split; [done|]. split; [by apply Is_true_eq_true|by apply negb_true_iff, Is_true_eq_true]. }
  split. { apply readings_sound; [done|]. eapply Forall_impl; [exact Hnums|]. intros i (x & ? & ? & _). eauto. }
  exists l, nums. split; try done. simpl. destruct (existsb _ ix) eqn:Ee.
  - assert (NoDup nums) as Hndn. { unfold nums. eapply sublist_NoDup; [exact Hnd|]. apply fmap_sublist, sublist_filter. }
    split_and!; try done. apply existsb_exists in Ee as ([i x] & Hin & Hc). apply list_elem_of_In in Hin. destruct (Hix _ Hin) as (Hx & H1 & H2). simpl in *.
    unfold s'. destruct (loadingFromCache x) eqn:El; [|]; exists i; rewrite reading_lookup, Hx; destruct (decide (i ∈ nums)) as [|Hi]; try by eexists.
    destruct Hi. apply list_elem_of_fmap. exists (i, x). split; [done|]. apply list_elem_of_filter. split; [|done]. unfold to_read. simpl. by rewrite Hc, El.
  - assert (nums = []) as E0.
    { unfold nums. destruct (filter _ ix) as [|[i x] k] eqn:Ef; [done|]. assert ((i, x) ∈ filter (fun x => to_read s x.2) ix) as Hin by (rewrite Ef; left).
      apply list_elem_of_filter in Hin as [Hr Hin]. unfold to_read in Hr. apply andb_prop_elim in Hr as [Hr _]. simpl in Hr.
      assert (existsb (fun x => cacheNotLoaded s x.2) ix = true) as Et; [|congruence]. apply existsb_exists. exists (i, x). split; [by apply list_elem_of_In|by apply Is_true_eq_true]. }
    unfold s'. rewrite E0. split_and!; try done. right. by apply Hn.
Qed.

Lemma fill_slices (offset : Z) (buffer : list Z) (s : Slices) : sound s -> full = false -> 0 <= offset -> buffer <> [] -> len buffer <= kInSlice ->
  offset + len buffer <= S -> (headerMode s = NoCache \/ loadedFromCache (header s) = true) ->
  wp (fill offset buffer) (fun r s' => sound s' /\ exists l nums, filled offset buffer s r s' l nums) s.
Proof.
  intros Hs Ef Ho Hb Hlk Hl Hh. assert (0 < len buffer) as Hlen by (destruct buffer; [done|unfold len; simpl; lia]). sizes.
  unfold fill. apply wp_bind, wp_gets. unfold id. rewrite (sd_size _ _ _ Hs).
  rewrite (bool_decide_eq_false_2 (buffer = [])), (proj2 (Z.leb_gt _ _)), !(proj2 (Z.ltb_ge _ _)) by (done || lia). cbn [orb].
  assert (negb (bool_decide (headerMode s = NoCache)) && negb (loadedFromCache (header s)) = false) as ->.
  { destruct Hh as [-> | ->]; [done|]. apply andb_false_r. }
  rewrite (sound_full _ _ s Hs), Ef. rewrite (wrapu_small 32 (offset + len buffer)) by (unfold fits_u; lia).
  rewrite (wrapu_small 32 (offset + len buffer + kInSlice - 1)) by (unfold fits_u; lia).
  fold (index_of offset). set (i := index_of offset). fold (base i). fold (base (Datatypes.S i)).
  destruct (spans offset (len buffer) Ef Ho ltac:(lia) Hl) as [E1 E2]. fold i in E1, E2. rewrite E1 in *. cbv zeta.
  pose proof (index_base offset Ho) as Hbi. fold i in Hbi. assert (0 <= base i) as Hb0 by (unfold base; lia).
  assert (base (Datatypes.S i) = base i + kInSlice) as Eb by (unfold base; lia).
  assert (i < slice_count)%nat as Hi by (destruct (_ <? _); lia).
  destruct (slice_count_ok S size_bound Ef) as [_ H510]. destruct (lookup_lt_is_Some_2 (data s) i) as [x Hx]; [by rewrite (sd_count _ _ _ Hs)|].
  set (ff := offset - base i). set (ft := Z.min kInSlice (offset + len buffer - base i)).
  destruct (prepare_ok C S size_bound (base i) kInSlice ff ft x (sd_slice _ _ _ Hs i x Hx)) as (p1 & Ep1 & Hp1); [lia..|].
  destruct (handlePrepareResult_ok i s x p1 ff ft [] (StackIntVector_new kLoadFromRemoteMax) Hs Ef Hx Hp1) as (l1 & v1 & Eh1 & Hv1 & Ha1 & Hl1 & Hn1);
    [lia|lia|apply vec_new; unfold kLoadFromRemoteMax; lia|]. rewrite app_nil_l, take_ge in Hv1 by done.
  rewrite (sd_count _ _ _ Hs). destruct (Z.ltb_spec (base (Datatypes.S i)) (offset + len buffer)) as [Htwo|Hone].
  - rewrite (proj2 (Nat.eqb_neq (Datatypes.S i) _)), Nat.eqb_refl, (proj2 (Nat.leb_le _ _)), (proj2 (Nat.ltb_lt _ _)) by lia. cbn [orb andb negb].
    assert (ft = kInSlice) as Eft by lia. set (st := offset + len buffer - base (Datatypes.S i)).
    destruct (lookup_lt_is_Some_2 (data s) (Datatypes.S i)) as [y Hy]; [by rewrite (sd_count _ _ _ Hs)|].
    destruct (prepare_ok C S size_bound (base (Datatypes.S i)) kInSlice 0 st y (sd_slice _ _ _ Hs _ y Hy)) as (p2 & Ep2 & Hp2); [lia..|].
    destruct (handlePrepareResult_ok (Datatypes.S i) s y p2 0 st l1 v1 Hs Ef Hy Hp2) as (l2 & v2 & Eh2 & Hv2 & Ha2 & Hl2 & Hn2); [lia|lia|done|].
    set (l := take kLoadFromRemoteMax (l1 ++ l2)) in *. assert (asked s l) as Ha by (by apply Forall_take, Forall_app).
    apply (wp_slice_at (Datatypes.S i) _ _ s x Hx). apply wp_bind. eapply wp_lift; [exact Ep1|].
    apply wp_bind, (wp_slice_at (Datatypes.S (Datatypes.S i)) _ _ s y Hy). eapply wp_lift; [exact Ep2|].
    apply (wp_step _ _ _ _ _ _ Eh1), (wp_step _ _ _ _ _ _ Eh2). destruct (ready p1 && ready p2) eqn:Er.
    + apply andb_true_iff in Er as [Er1 Er2]. destruct (mark_used i s Hs Hi) as (u & Eu & Hu).
      destruct (mark_used (Datatypes.S i) _ Hu ltac:(lia)) as (u2 & Eu2 & Hu2). apply (wp_step _ _ _ _ _ _ Eu).
      destruct Hp1 as (lp1 & _ & _ & Hr1), Hp2 as (lp2 & _ & _ & Hr2). rewrite Er1 in Hr1. rewrite Er2 in Hr2.
      apply wp_bind. eapply wp_lift; [apply Hr1; lia|]. apply wp_bind, (wp_step _ _ _ _ _ _ Eu2). apply wp_bind.
      assert (length (content (base i + ff) (ft - ff)) = Z.to_nat (ft - ff)) as Elen
        by (pose proof (content_len C (base i + ff) (ft - ff) ltac:(lia)); unfold len in *; lia).
      rewrite drop_app_length', take_app_length' by done. eapply wp_lift; [apply Hr2; unfold len in *; rewrite length_drop; lia|]. apply wp_ret.
      apply (written_ok offset buffer _ v2 l s u2); try done. rewrite drop_drop, drop_ge, app_nil_r by (unfold len in *; lia).
      replace (len buffer) with (ft - ff + st) by lia. rewrite content_app by lia. f_equal; [f_equal; lia|f_equal; lia].
    + destruct (handleReadFromCache_ok i s x (StackIntVector_new kReadFromCacheMax, WaitingRemote) [] Hx) as (nums & w & Er1 & Hw & En);
        [apply vec_new; unfold kReadFromCacheMax; lia|unfold kReadFromCacheMax; simpl; lia|lia|].
      fold (to_read s x) in En. assert (length nums <= 1)%nat as Hnum by (rewrite En; destruct (to_read s x); simpl; lia). rewrite app_nil_l in Hw.
      set (s1 := foldl (fun s i => reading i s) s nums) in *. assert (data s1 !! Datatypes.S i = Some y) as Hy1.
      { unfold s1. rewrite reading_lookup, decide_False; [done|]. rewrite En. destruct (to_read s x); [|apply not_elem_of_nil].
        rewrite list_elem_of_singleton. lia. }
      assert (headerMode s1 = headerMode s) as Em by apply (fewer_reading nums s).
      assert (cacheNotLoaded s1 y = cacheNotLoaded s y) as Ec by (unfold cacheNotLoaded, headerModeUnknown; by rewrite Em).
      set (r1 := (w, if cacheNotLoaded s x then WaitingCache else WaitingRemote)) in *.
      destruct (handleReadFromCache_ok (Datatypes.S i) s1 y r1 nums Hy1 Hw) as (nums2 & w2 & Er2 & Hw2 & En2); [unfold kReadFromCacheMax; lia|lia|].
      apply (wp_step _ _ _ _ _ _ Er1), (wp_step _ _ _ _ _ _ Er2), wp_ret. rewrite Ec in *.
      assert (nums ++ nums2 = (filter (fun x => to_read s x.2) [(i, x); (Datatypes.S i, y)]).*1) as E.
      { rewrite En, En2. fold (to_read s x). fold (to_read s y). rewrite !filter_cons. simpl. by destruct (to_read s x), (to_read s y). }
      unfold s1. rewrite <- foldl_app, E in *.
      apply (waiting_ok offset buffer s [(i, x); (Datatypes.S i, y)] l v2 w2); try done.
      * repeat constructor; simpl; try done; lia.
      * simpl. apply NoDup_cons. split; [rewrite list_elem_of_singleton; lia|apply NoDup_singleton].
      * unfold r1. simpl. rewrite orb_false_r. by destruct (cacheNotLoaded s x), (cacheNotLoaded s y).
      * simpl. rewrite orb_false_r. intros [Hc1 Hc2]%orb_false_iff. specialize (Hn1 Hc1). specialize (Hn2 Hc2). destruct (ready p1) eqn:Er0.
        -- cbn [andb] in Er. rewrite Er in Hn2. destruct Hn2 as (o & Hin & ?). exists o. unfold l. rewrite (Hn1 Eft), app_nil_l, take_ge by done.
           split; [done|]. unfold st. lia.
        -- destruct Hn1 as (o & Hin & ?). exists o. split; [|unfold ff, ft in *; lia]. unfold l. rewrite take_app_ge by done. apply elem_of_app. by left.
  - rewrite !Nat.eqb_refl, Nat.ltb_irrefl, (proj2 (Nat.leb_le _ _)) by lia. cbn [orb andb negb]. assert (ft = offset + len buffer - base i) as Eft by lia.
    apply (wp_slice_at (Datatypes.S i) _ _ s x Hx). apply wp_bind. eapply wp_lift; [exact Ep1|]. apply wp_bind, wp_ret.
    apply (wp_step _ _ _ _ _ _ Eh1). apply wp_bind, wp_ret. cbn [ready PrepareFillResult_new]. rewrite andb_true_r.
    destruct (mark_used i s Hs Hi) as (u & Eu & Hu). destruct Hp1 as (lp & Hvp & Hask & Hr). destruct (ready p1) eqn:Er.
    + destruct Hr as [_ Hr]. apply (wp_step _ _ _ _ _ _ Eu). apply wp_bind. eapply wp_lift; [apply Hr; lia|]. apply wp_bind, wp_ret.
      apply (written_ok offset buffer _ v1 l1 s u); try done. replace (base i + ff) with offset by lia. replace (ft - ff) with (len buffer) by lia.
      by rewrite drop_ge, app_nil_r by (unfold len; lia).
    + destruct (handleReadFromCache_ok i s x (StackIntVector_new kReadFromCacheMax, WaitingRemote) [] Hx) as (nums & w & Er1 & Hw & En);
        [apply vec_new; unfold kReadFromCacheMax; lia|unfold kReadFromCacheMax; simpl; lia|lia|].
      apply (wp_step _ _ _ _ _ _ Er1). apply wp_bind, wp_ret, wp_ret.
      assert (nums = (filter (fun x => to_read s x.2) [(i, x)]).*1) as E by (rewrite En; fold (to_read s x); rewrite filter_cons; simpl; by destruct (to_read s x)).
      rewrite E in *. apply (waiting_ok offset buffer s [(i, x)] l1 v1 w); try done.
      * apply Forall_singleton. simpl. split; [done|lia].
      * apply NoDup_singleton.
      * simpl. by rewrite orb_false_r.
      * simpl. rewrite orb_false_r. intros Hc. specialize (Hn1 Hc). destruct Hn1 as (o & Hin & ?). exists o. split; [done|]. unfold ff, ft in *. lia.
Qed.

Lemma fill_header (offset : Z) (buffer : list Z) (s : Slices) : sound s -> full = true -> 0 <= offset -> buffer <> [] -> len buffer <= kInSlice ->
  offset + len buffer <= S -> (headerMode s = NoCache \/ loadedFromCache (header s) = true) ->
  wp (fill offset buffer) (fun r s' => sound s' /\ exists l nums, filled offset buffer s r s' l nums) s.
Proof.
  intros Hs Ef Ho Hb Hlk Hl Hh. assert (0 < len buffer) as Hlen by (destruct buffer; [done|unfold len; simpl; lia]). sizes.
  unfold fill. apply wp_bind, wp_gets. unfold id. rewrite (sd_size _ _ _ Hs).
  rewrite (bool_decide_eq_false_2 (buffer = [])), (proj2 (Z.leb_gt _ _)), !(proj2 (Z.ltb_ge _ _)) by (done || lia). cbn [orb].
  assert (negb (bool_decide (headerMode s = NoCache)) && negb (loadedFromCache (header s)) = false) as ->.
  { destruct Hh as [-> | ->]; [done|]. apply andb_false_r. }
  rewrite (sound_full _ _ s Hs), Ef. eapply wp_mono; [by apply fillFromHeader_ok|]. intros r s' (-> & Hto & Hn & l & Hv & Ha & Hst).
  split; [done|]. exists l, []. split; try done. destruct (state r.1); try done.
  - split; [done|]. split; [done|]. rewrite Hto. exists (usedSlices s). by apply purge_none.
  - destruct Hst. split_and!; try done. by right.
Qed.

Lemma fill_right (offset : Z) (buffer : list Z) (s : Slices) : sound s -> 0 <= offset -> buffer <> [] -> len buffer <= kInSlice ->
  offset + len buffer <= S -> wp (fill offset buffer) (fun r s' => sound s' /\ exists l nums, filled offset buffer s r s' l nums) s.
Proof.
  intros Hs Ho Hb Hlk Hl. destruct (decide (headerMode s = NoCache \/ loadedFromCache (header s) = true)) as [Hh|Hh].
  { destruct full eqn:Ef; [by apply fill_header|by apply fill_slices]. }
  apply Decidable.not_or in Hh as [Hm Hld%not_true_iff_false]. assert (0 < len buffer) as Hlen by (destruct buffer; [done|unfold len; simpl; lia]). sizes.
  pose proof (sd_mode _ _ _ Hs) as Hmode. unfold mode_ok in Hmode. assert (headerMode s = Unknown) as Eu.
  { destruct (headerMode s); try done; [by destruct Hmode as (_ & ? & _); congruence|by destruct Hmode as (_ & ? & _); congruence|by destruct Hmode as (_ & ?); congruence]. }
  rewrite Eu in Hmode. destruct Hmode as (_ & Hlo & _). rewrite Hld in Hlo. symmetry in Hlo. apply negb_false_iff in Hlo.
  unfold fill. apply wp_bind, wp_gets. unfold id. rewrite (sd_size _ _ _ Hs).
  rewrite (bool_decide_eq_false_2 (buffer = [])), (proj2 (Z.leb_gt _ _)), !(proj2 (Z.ltb_ge _ _)) by (done || lia). cbn [orb].
  rewrite (bool_decide_eq_false_2 (headerMode s = NoCache)) by done. unfold waitingForHeaderCache. rewrite Hld, Hlo. cbn [andb negb]. apply wp_ret.
  split; [done|]. exists [], []. split; try done.
  - apply vec_new. unfold kLoadFromRemoteMax. lia.
  - constructor.
  - apply vec_new. unfold kReadFromCacheMax. lia.
  - simpl. split_and!; try done. by left.
Qed.

Lemma filled_fewer (offset : Z) (buffer : list Z) (s s' : Slices) (r : FillResult * list Z) (l : list Z) (nums : list nat) :
  filled offset buffer s r s' l nums -> fewer s s'.
Proof.
  intros [_ _ _ H]. destruct (state r.1).
  - destruct H as (_ & _ & u & Hp). apply fewer_purge in Hp. by destruct Hp.
  - destruct H as (_ & _ & -> & _). apply fewer_reading.
  - destruct H as (_ & _ & -> & _). apply fewer_same.
  - done.
Qed.

End Fill.
