(* ===== verification/SlicesRead.v ===== *)
(** * Streaming: slices read from the cache

    What the answers of the cache that came change, one after another: the
    header first, and then each slice that is being read. *)

From S2P Require Import Prelude Tcp StateMonad SliceCache Slices CacheFacts SliceFacts SlicesFacts SlicesWrite SlicesFill.

Section Read.
Context (C : Z -> Z) (S : Z).
Hypothesis size_positive : 0 < S.
Hypothesis size_bound : S <= 510 * kInSlice.

#[local] Abbreviation sound := (sound C S).
#[local] Abbreviation full := (full S).
#[local] Abbreviation slice_count := (slice_count S).
#[local] Abbreviation true_parts := (true_parts C S).

(** ** One slice *)

Definition read (r : PartsMap) (x : Slice) : Slice := if loadingFromCache x then cached r x else x.
Definition read_one (i : nat) (r : PartsMap) (s : Slices) : Slices := set_data (alter (read r) i (data s)) s.

Lemma read_core (r : PartsMap) (x y : Slice) : core x = core y -> core (read r x) = core (read r y).
Proof.
  intros E. pose proof (core_eq _ _ E) as (E1 & E2 & E3 & E4). unfold read. rewrite E2. destruct (loadingFromCache y); [|done].
  unfold core, cached, set_full, set_loading, set_loaded, set_parts. simpl. by rewrite E1, E4.
Qed.

Lemma read_one_like (i : nat) (r : PartsMap) (s t : Slices) : like s t -> like (read_one i r s) (read_one i r t).
Proof.
  intros E. pose proof (like_data _ _ E) as Ed. unfold like, bare. simpl.
  rewrite (like_header _ _ E), (like_used _ _ E), (like_size _ _ E), (like_mode _ _ E). f_equal.
  apply list_eq. intros j. apply (f_equal (fun l => l !! j)) in Ed. rewrite !list_lookup_fmap in *. rewrite !list_lookup_alter.
  destruct (decide (i = j)) as [->|]; [|done]. destruct (data s !! j) as [x|], (data t !! j) as [y|]; try done.
  cbn [fmap option_fmap option_map] in *. assert (core x = core y) as Ec by congruence. by rewrite (read_core r x y Ec).
Qed.

Lemma result_one (i : nat) (r : PartsMap) (s : Slices) : sound s -> (i < slice_count)%nat -> true_parts (base i) kInSlice r ->
  (headerMode s = Good -> i = 0%nat -> forall x, data s !! 0%nat = Some x -> loadingFromCache x = true -> applied (parts (header s)) 0 x) ->
  wp (processCacheResult (Datatypes.S i) r) (fun _ s' => sound s' /\ like (read_one i r s) s') s.
Proof.
  intros Hs Hi Hr Ha. destruct (lookup_lt_is_Some_2 (data s) i) as [x Hx]; [by rewrite (sd_count _ _ _ Hs)|].
  destruct (loadingFromCache x) eqn:El.
  - assert (read_one i r s = slice_read i r s) as E.
    { unfold read_one, slice_read. rewrite !(alter_insert_list _ _ _ x Hx). unfold read. by rewrite El. }
    eapply wp_mono; [by apply (result_slice C S i r s x)|]. intros [] s' Hl. rewrite E. split; [|done]. eapply sound_like; [exact Hl|].
    apply (slice_read_sound C S i r s x); try done. intros Eg ->. by apply Ha.
  - assert (read_one i r s = s) as E.
    { unfold read_one. rewrite (alter_insert_list _ _ _ x Hx). unfold read. rewrite El, list_insert_id by done. by destruct s. }
    eapply wp_mono; [apply (result_ignored C S size_bound); [done|rewrite (sd_count _ _ _ Hs); lia|]|].
    + simpl. intros y Hy. congruence.
    + intros [] s' ->. by rewrite E.
Qed.

(** ** Several slices *)

Definition index (n : Z) : nat := (Z.to_nat n - 1)%nat.
Definition read_all (l : list (Z * PartsMap)) (s : Slices) : Slices := foldl (fun s x => read_one (index x.1) x.2 s) s l.

Lemma read_all_like (l : list (Z * PartsMap)) (s t : Slices) : like s t -> like (read_all l s) (read_all l t).
Proof. revert s t. induction l as [|x l IH]; intros s t E; [done|]. by apply IH, read_one_like. Qed.

Lemma read_one_lookup (i j : nat) (r : PartsMap) (s : Slices) : data (read_one i r s) !! j = if decide (i = j) then read r <$> data s !! i else data s !! j.
Proof. unfold read_one. simpl. rewrite list_lookup_alter. by destruct (decide (i = j)) as [->|]. Qed.

Lemma read_all_lookup (res : gmap Z PartsMap) (l : list (Z * PartsMap)) (s : Slices) (i : nat) : Forall (fun x => 0 < x.1) l -> NoDup l.*1 ->
  (forall n p, (n, p) ∈ l <-> res !! n = Some p) ->
  data (read_all l s) !! i = match res !! Z.of_nat (Datatypes.S i) with Some p => read p <$> data s !! i | None => data s !! i end.
Proof.
  intros Hp. revert res s. induction Hp as [|[n p] l Hn Hp IH]; intros res s Hnd Hres; simpl in *.
  - destruct (res !! _) eqn:E; [|done]. by apply Hres, not_elem_of_nil in E.
  - apply NoDup_cons in Hnd as [Hnl Hnd]. rewrite (IH (delete n res)); [|done|].
    + rewrite read_one_lookup. destruct (decide (n = Z.of_nat (Datatypes.S i))) as [->|Hne].
      * rewrite lookup_delete_eq. assert (res !! Z.of_nat (Datatypes.S i) = Some p) as -> by (apply Hres; left).
        unfold index. rewrite Nat2Z.id. replace (Datatypes.S i - 1)%nat with i by lia. by rewrite decide_True.
      * rewrite lookup_delete_ne by done. rewrite decide_False; [done|]. unfold index. lia.
    + intros n' p'. rewrite lookup_delete_Some, <- Hres, elem_of_cons. split.
      * intros Hin. split; [|by right]. intros <-. apply Hnl, list_elem_of_fmap. by exists (n, p').
      * intros [Hne [[= -> ->]|?]]; done.
Qed.

Definition res_ok (x : Z * PartsMap) : Prop := 0 < x.1 <= Z.of_nat slice_count /\ true_parts (base (index x.1)) kInSlice x.2.

Lemma results_slices (l : list (Z * PartsMap)) (s : Slices) : sound s -> Forall res_ok l -> NoDup l.*1 ->
  (headerMode s = Good -> 1 ∈ l.*1 -> forall x, data s !! 0%nat = Some x -> loadingFromCache x = true -> applied (parts (header s)) 0 x) ->
  wp (each (fun x => processCacheResult (Z.to_nat x.1) x.2) l) (fun _ s' => sound s' /\ like (read_all l s) s') s.
Proof.
  intros Hs Hl. revert s Hs. induction Hl as [|[n p] l [Hn Hp] Hl IH]; intros s Hs Hnd Ha; [by apply wp_ret|]. cbn [each fst snd]. simpl in Hn, Hp.
  apply NoDup_cons in Hnd as [Hnl Hnd]. apply wp_bind. replace (Z.to_nat n) with (Datatypes.S (index n)) by (unfold index; lia).
  eapply wp_mono; [apply result_one; [done|unfold index; lia|done|]|].
  { intros Eg Ei. apply Ha; [done|]. apply list_elem_of_fmap. exists (n, p). split; [unfold index in Ei; simpl; lia|left]. }
  intros [] s1 [Hs1 Hl1]. pose proof (like_mode _ _ Hl1) as Hm. pose proof (core_eq _ _ (like_header _ _ Hl1)) as (Hh & _). simpl in Hm, Hh.
  eapply wp_mono; [apply IH; [done|done|]|].
  - rewrite <- Hm, <- Hh. intros Eg Hin y Hy Hly. destruct (like_lookup s1 (read_one (index n) p s) 0 y ltac:(by symmetry) Hy) as (z & Hz & Ez).
    pose proof (core_eq _ _ Ez) as (Pz & Lz & _). rewrite read_one_lookup in Hz. rewrite decide_False in Hz.
    + unfold applied. rewrite Pz. apply (Ha Eg ltac:(by right) z Hz). congruence.
    + unfold index. intros Ei. apply Hnl. replace n with 1 by lia. done.
  - intros [] s' [Hs' Hl']. split; [done|]. etrans; [exact (read_all_like l _ _ Hl1)|exact Hl'].
Qed.

(** ** The header first *)

Lemma sorted_unique (l k : list (Z * PartsMap)) : StronglySorted (fun a b => a.1 < b.1) l -> StronglySorted (fun a b => a.1 < b.1) k ->
  (forall x, x ∈ l <-> x ∈ k) -> l = k.
Proof.
  intros Hl. revert k. induction Hl as [|x l Hl IH Hx]; intros k Hk E.
  - destruct k as [|y k]; [done|]. assert (y ∈ []) as ?%not_elem_of_nil by (apply E; left). done.
  - destruct Hk as [|y k Hk Hy]; [assert (x ∈ []) as ?%not_elem_of_nil by (apply E; left); done|]. rewrite Forall_forall in Hx, Hy.
    assert (x = y) as ->.
    { assert (x ∈ y :: k) as [->|Hxk]%elem_of_cons by (apply E; left); [done|]. assert (y ∈ x :: l) as [->|Hyl]%elem_of_cons by (apply E; left); [done|].
      specialize (Hx y Hyl). specialize (Hy x Hxk). lia. }
    f_equal. apply IH; [done|]. intros z. specialize (E z). rewrite !elem_of_cons in E. split; intros Hz.
    + destruct E as [[->|?] _]; [by right| |done]. specialize (Hx y Hz). lia.
    + destruct E as [_ [->|?]]; [by right| |done]. specialize (Hy y Hz). lia.
Qed.

Lemma entries_first (res : gmap Z PartsMap) (p : PartsMap) : (forall n, is_Some (res !! n) -> 0 <= n) -> res !! 0 = Some p ->
  entries res = (0, p) :: entries (delete 0 res).
Proof.
  intros Hk Hp. apply sorted_unique; [apply entries_sorted|constructor; [apply entries_sorted|]|].
  - apply Forall_forall. intros [n q] [Hn Hq]%elem_of_entries%lookup_delete_Some. simpl. assert (0 <= n) by (apply Hk; by eexists). lia.
  - intros [n q]. rewrite elem_of_cons, !elem_of_entries, lookup_delete_Some. split.
    + intros Hq. destruct (decide (n = 0)) as [->|]; [left; congruence|by right].
    + by intros [[= -> ->]|[_ ?]].
Qed.

Record results_fit (res : gmap Z PartsMap) (s : Slices) : Prop := {
  rf_header : forall p, res !! 0 = Some p -> true_parts 0 S p /\ (full = false -> (base.size p <= kMaxPartsInHeader)%nat);
  rf_slices : forall n p, n <> 0 -> res !! n = Some p -> res_ok (n, p);
  rf_included : forall p, res !! 0 = Some p -> full = false -> ComputeIsGoodHeader S p = true -> is_Some (res !! 1);
  rf_good : headerMode s = Good -> (is_Some (res !! 0) <-> is_Some (res !! 1))
    /\ forall p o, res !! 0 = Some p -> is_Some (p !! o) -> is_Some (parts (header s) !! o);
  rf_first : headerMode s = Good -> forall x o, data s !! 0%nat = Some x -> loadedFromCache x = false -> 0 <= o < kInSlice ->
    is_Some (parts (header s) !! o) -> parts x !! o = None }.

(** What the header that came changes. *)
Inductive header_step (res : gmap Z PartsMap) (s : Slices) : Slices -> Prop :=
  | hs_read p s1 : res !! 0 = Some p -> headerMode s = Unknown -> loadingFromCache (header s) = true -> header_read S p s s1 -> header_step res s s1
  | hs_again x s1 : is_Some (res !! 0) -> headerMode s = Good -> data s !! 0%nat = Some x -> loadingFromCache x = true -> header_again x s s1 -> header_step res s s1
  | hs_none : (headerMode s = Unknown -> loadingFromCache (header s) = true -> res !! 0 = None) ->
      (headerMode s = Good -> forall x, data s !! 0%nat = Some x -> loadingFromCache x = true -> res !! 0 = None) -> header_step res s s.

Lemma header_idle (s : Slices) : sound s -> headerMode s <> Unknown -> loadingFromCache (header s) = false.
Proof.
  intros Hs Hm. pose proof (sd_mode _ _ _ Hs) as H. unfold mode_ok in H. destruct (sd_header_flags _ _ _ Hs) as [Hf _].
  destruct (loadingFromCache (header s)) eqn:E; [|done]. specialize (Hf eq_refl).
  destruct (headerMode s); try done; [destruct H as (_ & ? & _)|destruct H as (_ & ? & _)|destruct H as (_ & ?)|destruct H as [[? _] _]]; congruence.
Qed.

Lemma header_result (res : gmap Z PartsMap) (p : PartsMap) (s : Slices) : sound s -> results_fit res s -> res !! 0 = Some p ->
  wp (processCacheResult 0 p) (fun _ s1 => sound s1 /\ header_step res s s1) s.
Proof.
  intros Hs [F1 F2 _ F3 F4] Hp. destruct (F1 p Hp) as [Ht Hn]. destruct (decide (headerMode s = Unknown /\ loadingFromCache (header s) = true)) as [[Em El]|Hno].
  { eapply wp_mono; [by apply (result_header C S size_bound)|]. intros [] s1 [Hs1 Hr]. split; [done|]. by apply (hs_read res s p). }
  assert (headerMode s = Unknown -> loadingFromCache (header s) = false) as Hh by (intros Em; apply not_true_is_false; tauto).
  assert (loadingFromCache (header s) = false) as Hl by (destruct (decide (headerMode s = Unknown)); [by apply Hh|by apply header_idle]).
  destruct (decide (headerMode s = Good)) as [Eg|Eg].
  - pose proof (sd_mode _ _ _ Hs) as Hm. unfold mode_ok in Hm. rewrite Eg in Hm. destruct Hm as [Ef _].
    destruct (lookup_lt_is_Some_2 (data s) 0) as [x Hx]; [rewrite (sd_count _ _ _ Hs); by apply slice_count_ok|].
    destruct (loadingFromCache x) eqn:El.
    + destruct (F3 Eg) as [_ Hdom]. pose proof (Forall_lookup_1 _ _ _ _ (sd_flags _ _ _ Hs) Hx) as [Fx _].
      eapply wp_mono; [apply (result_header_again C S p s x); try done|].
      * intros o Ho. by apply (Hdom p).
      * intros o Ho Hin. apply (F4 Eg x o Hx); [by apply Fx|done|done].
      * intros [] s1 [Hs1 Ha]. split; [done|]. by apply (hs_again res s x).
    + eapply wp_mono; [apply (result_ignored C S size_bound); [done|lia|]|].
      * simpl. unfold isGoodHeader. rewrite Eg. simpl. intros y Hy. congruence.
      * intros [] s1 ->. split; [done|]. apply hs_none; [by rewrite Hl|]. intros _ y Hy. congruence.
  - eapply wp_mono; [apply (result_ignored C S size_bound); [done|lia|]|].
    + simpl. unfold isGoodHeader. rewrite bool_decide_eq_false_2 by done. intros y [= <-]. done.
    + intros [] s1 ->. split; [done|]. apply hs_none; [by rewrite Hl|done].
Qed.

Lemma fit_keys (res : gmap Z PartsMap) (s : Slices) (n : Z) : results_fit res s -> is_Some (res !! n) -> 0 <= n.
Proof.
  intros H [p Hp]. destruct (decide (n = 0)) as [->|Hn]; [done|]. destruct (rf_slices _ _ H n p Hn Hp) as [? _]. simpl in *. lia.
Qed.

Lemma keys_elem (m : gmap Z PartsMap) (n : Z) : n ∈ (entries m).*1 <-> is_Some (m !! n).
Proof.
  rewrite list_elem_of_fmap. split.
  - intros ([k p] & -> & Hin%elem_of_entries). by eexists.
  - intros [p Hp]. exists (n, p). split; [done|by apply elem_of_entries].
Qed.

(** The first slice has what the header has before it is read. *)
Lemma first_applied (res : gmap Z PartsMap) (s s1 : Slices) (x : Slice) : results_fit res s -> header_step res s s1 -> headerMode s1 = Good ->
  is_Some (res !! 1) -> data s1 !! 0%nat = Some x -> loadingFromCache x = true -> applied (parts (header s1)) 0 x.
Proof.
  intros Hf Hstep Eg H1 Hx Hl. destruct Hstep as [p s1 Hp Em Eh Hr|y s1 Hp Em Hy Hly [Ha]|_ Hnone].
  - intros o Ho [b Hb]. destruct (hr_slices _ _ _ _ Hr 0%nat x Hx) as (_ & _ & _ & Hparts). rewrite (hr_parts _ _ _ _ Hr) in Hb. exists b. by apply Hparts.
  - destruct Ha as (x' & Hlike & _ & _ & _ & Hparts). destruct (like_lookup _ _ 0 x Hlike Hx) as (z & Hz & (Pz & _)%core_eq).
    simpl in Hz. rewrite list_lookup_insert_eq in Hz by (by eapply lookup_lt_Some). injection Hz as <-.
    pose proof (core_eq _ _ (like_header _ _ Hlike)) as (Ph & _). simpl in Ph. intros o Ho [b Hb]. rewrite Pz. exists b. apply Hparts. right.
    split; [done|]. unfold base in Hb. rewrite Ph in Hb. by replace (Z.of_nat 0 * kInSlice + o) with o in Hb by lia.
  - exfalso. pose proof (Hnone Eg x Hx Hl) as E. destruct (rf_good _ _ Hf Eg) as [[_ H10] _]. destruct (H10 H1). congruence.
Qed.

Lemma results_all (res : gmap Z PartsMap) (s : Slices) : sound s -> results_fit res s ->
  wp (each (fun x => processCacheResult (Z.to_nat x.1) x.2) (entries res))
    (fun _ s' => sound s' /\ exists s1, header_step res s s1 /\ like (read_all (entries (delete 0 res)) s1) s') s.
Proof.
  intros Hs Hf. assert (forall s1, sound s1 -> header_step res s s1 ->
    wp (each (fun x => processCacheResult (Z.to_nat x.1) x.2) (entries (delete 0 res)))
      (fun _ s' => sound s' /\ exists s1, header_step res s s1 /\ like (read_all (entries (delete 0 res)) s1) s') s1) as Hrest.
  { intros s1 Hs1 Hstep. eapply wp_mono; [apply results_slices; [done| |apply entries_nodup|]|].
    - apply Forall_forall. intros [n p] [Hn Hp]%elem_of_entries%lookup_delete_Some. by apply (rf_slices _ _ Hf).
    - intros Eg [q [_ Hq]%lookup_delete_Some]%keys_elem x Hx Hl. apply (first_applied res s s1); try done.
    - intros [] s' [Hs' Hl]. split; [done|]. by exists s1. }
  destruct (res !! 0) as [p|] eqn:Ep.
  - rewrite (entries_first res p); [|intros n; by apply (fit_keys res s)|done]. cbn [each fst snd]. apply wp_bind.
    eapply wp_mono; [apply (header_result res p s Hs Hf Ep)|]. intros [] s1 [Hs1 Hstep]. by apply Hrest.
  - replace (entries res) with (entries (delete 0 res)) by (by rewrite delete_id). apply Hrest; [done|]. by apply hs_none.
Qed.

(** ** What it comes to *)

Record results_done (res : gmap Z PartsMap) (s s' : Slices) : Prop := {
  rd_sound : sound s';
  rd_mode : if bool_decide (headerMode s = Unknown) && loadingFromCache (header s)
    then match res !! 0 with
         | Some p => parts (header s') = p /\ loadingFromCache (header s') = false /\ headerMode s' = if bool_decide (p = ∅) then Unknown else good_from S p
         | None => headerMode s' = Unknown /\ loadingFromCache (header s') = true
         end
    else headerMode s' = headerMode s /\ parts (header s') = parts (header s) /\ loadingFromCache (header s') = loadingFromCache (header s);
  rd_changed : (headerMode s = Unknown -> loadingFromCache (header s) = false) -> changedSinceCache (header s') = changedSinceCache (header s);
  rd_absent : forall o, (headerMode s = Unknown -> loadingFromCache (header s) = false) -> absent S s o ->
    (forall p, res !! Z.of_nat (Datatypes.S (index_of o)) = Some p -> p !! (o - base (index_of o)) = None) -> absent S s' o;
  rd_reading : forall i x, data s' !! i = Some x -> loadingFromCache x = true ->
    res !! Z.of_nat (Datatypes.S i) = None /\ exists y, data s !! i = Some y /\ loadingFromCache y = true;
  rd_first : headerMode s' = Good -> forall x o, data s' !! 0%nat = Some x -> loadedFromCache x = false -> 0 <= o < kInSlice ->
    is_Some (parts (header s') !! o) -> parts x !! o = None;
  rd_loaded : forall i x, data s' !! i = Some x -> loadedFromCache x = true ->
    (exists y, data s !! i = Some y /\ loadedFromCache y = true /\ forall o, is_Some (parts y !! o) -> is_Some (parts x !! o))
    \/ (exists p, res !! Z.of_nat (Datatypes.S i) = Some p /\ forall o, is_Some (p !! o) -> is_Some (parts x !! o))
       /\ (headerMode s = Unknown -> headerMode s' = Good /\ i = 0%nat) }.

Lemma read_all_same (l : list (Z * PartsMap)) (s : Slices) : header (read_all l s) = header s /\ headerMode (read_all l s) = headerMode s.
Proof. revert s. induction l as [|x l IH]; intros s; [done|]. exact (IH (read_one (index x.1) x.2 s)). Qed.

Lemma read_slices (res : gmap Z PartsMap) (s s1 s' : Slices) (i : nat) (x : Slice) : results_fit res s ->
  like (read_all (entries (delete 0 res)) s1) s' -> data s' !! i = Some x ->
  exists y, data s1 !! i = Some y /\ core x = core (match res !! Z.of_nat (Datatypes.S i) with Some p => read p y | None => y end).
Proof.
  intros Hf Hl Hx. destruct (like_lookup s' _ i x ltac:(by symmetry) Hx) as (z & Hz & Ez).
  rewrite (read_all_lookup (delete 0 res)) in Hz.
  - rewrite lookup_delete_ne in Hz by lia. destruct (res !! _) as [p|]; [|by exists z]. destruct (data s1 !! i) as [y|]; [|done].
    injection Hz as <-. by exists y.
  - apply Forall_forall. intros [n p] [Hn Hp]%elem_of_entries%lookup_delete_Some. simpl. pose proof (fit_keys res s n Hf ltac:(by eexists)). lia.
  - apply entries_nodup.
  - intros n p. apply elem_of_entries.
Qed.

Lemma read_parts (r : PartsMap) (x : Slice) (o : Z) : parts x !! o = None -> r !! o = None -> parts (read r x) !! o = None.
Proof. intros Hx Hr. unfold read. destruct (loadingFromCache x); [|done]. simpl. by apply lookup_union_None. Qed.

Lemma good_from_good (p : PartsMap) : (if bool_decide (p = ∅) then Unknown else good_from S p) = Good -> full = false /\ ComputeIsGoodHeader S p = true.
Proof. unfold good_from. fold full. destruct (bool_decide _), full, (ComputeIsGoodHeader S p); done. Qed.

Lemma step_absent (res : gmap Z PartsMap) (s s1 : Slices) (o : Z) : header_step res s s1 -> sound s ->
  (headerMode s = Unknown -> loadingFromCache (header s) = false) -> absent S s o -> absent S s1 o.
Proof.
  intros Hstep Hs Hk Ha. destruct Hstep as [p s1 Hp0 Eu Eld Hr|z s1 H0 Eg Hz Hlz [Hag]|Hn Hn2]; [by rewrite Hk in Eld| |done].
  pose proof (sd_mode _ _ _ Hs) as Hm. unfold mode_ok in Hm. rewrite Eg in Hm. destruct Hm as [Ef _].
  destruct Hag as (x' & Hlk & _ & _ & _ & Hp). pose proof (core_eq _ _ (like_header _ _ Hlk)) as (Ph & _). simpl in Ph.
  unfold absent in *. rewrite Ef in *. rewrite Ph, (like_mode _ _ Hlk). destruct Ha as [A1 A2]. split; [|done]. intros y Hy.
  destruct (like_lookup _ _ _ y Hlk Hy) as (w & Hw & (-> & _)%core_eq). simpl in Hw.
  apply list_lookup_insert_Some in Hw as [(Ei & <- & _)|[_ Hw]]; [|by apply A1].
  rewrite <- Ei in *. destruct (parts x' !! (o - base 0)) as [b|] eqn:Eb; [|done]. apply Hp in Eb as [Hb|[_ Hb]].
  - rewrite (A1 z Hz) in Hb. done.
  - unfold base in Hb. replace (o - Z.of_nat 0 * kInSlice) with o in Hb by lia. rewrite A2 in Hb by done. done.
Qed.

(** A slice that was read before the others were. *)
Lemma step_loaded (res : gmap Z PartsMap) (s s1 : Slices) (i : nat) (y : Slice) : header_step res s s1 -> data s1 !! i = Some y ->
  loadedFromCache y = true -> data s !! i = Some y \/ exists x, data s !! i = Some x /\ loadedFromCache x = true /\ parts y = parts x.
Proof.
  intros Hstep Hy Hl. destruct Hstep as [p s1 _ _ _ Hr|z s1 _ _ _ _ [(x' & Hlk & _ & Lx' & _)]|_ _]; [| |by left].
  - destruct (hr_slices _ _ _ _ Hr i y Hy) as (_ & E & _). congruence.
  - right. destruct (like_lookup _ _ i y Hlk Hy) as (w & Hw & (P & _ & L & _)%core_eq). simpl in Hw.
    apply list_lookup_insert_Some in Hw as [(_ & <- & _)|[_ Hw]]; [congruence|]. exists w. split; [done|]. split; congruence.
Qed.

(** When the header is not known, a slice that is read is the first one. *)
Lemma step_reading (res : gmap Z PartsMap) (s s1 : Slices) (i : nat) (y : Slice) : header_step res s s1 -> sound s -> data s1 !! i = Some y ->
  loadingFromCache y = true -> headerMode s = Unknown -> headerMode s1 = Good /\ i = 0%nat.
Proof.
  intros Hstep Hs Hy Hl Eu. destruct Hstep as [p s1 _ _ _ Hr|z s1 _ Eg _ _ _|_ _]; [|congruence|].
  - destruct (hr_slices _ _ _ _ Hr i y Hy) as (E & _). rewrite Hl in E. symmetry in E. by apply bool_decide_eq_true in E.
  - pose proof (sd_mode _ _ _ Hs) as Hm. unfold mode_ok in Hm. rewrite Eu in Hm. destruct Hm as [Hu _].
    destruct (Forall_lookup_1 _ _ _ _ Hu Hy). congruence.
Qed.

Lemma results_done_ok (res : gmap Z PartsMap) (s s1 s' : Slices) : sound s -> results_fit res s -> header_step res s s1 ->
  like (read_all (entries (delete 0 res)) s1) s' -> sound s' -> results_done res s s'.
Proof.
  intros Hs Hf Hstep Hl Hs'. pose proof (read_all_same (entries (delete 0 res)) s1) as [Eh Em].
  pose proof (like_mode _ _ Hl) as Hm. pose proof (core_eq _ _ (like_header _ _ Hl)) as (Hp & Hld & _ & Hch). rewrite Eh in Hp, Hld, Hch. rewrite Em in Hm.
  assert (forall i x, data s' !! i = Some x -> exists y, data s1 !! i = Some y
    /\ core x = core (match res !! Z.of_nat (Datatypes.S i) with Some p => read p y | None => y end)) as Hread by (intros i x; by apply (read_slices res s)).
  assert (forall i x, data s' !! i = Some x -> loadingFromCache x = true ->
    res !! Z.of_nat (Datatypes.S i) = None /\ exists y, data s1 !! i = Some y /\ loadingFromCache y = true) as Hreading.
  { intros i x Hx Hlx. destruct (Hread i x Hx) as (y & Hy & Ey). pose proof (core_eq _ _ Ey) as (_ & Ly & _). rewrite Hlx in Ly.
    destruct (res !! _); [|split; [done|by exists y]]. exfalso. unfold read in Ly. destruct (loadingFromCache y) eqn:E; [done|congruence]. }
  split; [done| | | | | |].
  - rewrite <- Hm, <- Hp, <- Hld. destruct Hstep as [p s1 Hp0 Eu Eld Hr|x s1 H0 Eg Hx Hlx [Ha]|Hn Hn2].
    + rewrite Eu, bool_decide_eq_true_2, Eld, Hp0 by done. simpl. by destruct Hr.
    + rewrite Eg, bool_decide_eq_false_2 by done. simpl. destruct Ha as (x' & Hlk & _).
      pose proof (core_eq _ _ (like_header _ _ Hlk)) as (-> & -> & _). by rewrite (like_mode _ _ Hlk).
    + destruct (bool_decide_reflect (headerMode s = Unknown)) as [Eu|]; [|done]. destruct (loadingFromCache (header s)) eqn:El; [|done]. simpl. by rewrite (Hn Eu eq_refl).
  - rewrite <- Hch. intros Hk. destruct Hstep as [p s1 Hp0 Eu Eld Hr|x s1 H0 Eg Hx Hlx [Ha]|Hn Hn2]; [by rewrite Hk in Eld| |done].
    destruct Ha as (x' & Hlk & _). by pose proof (core_eq _ _ (like_header _ _ Hlk)) as (_ & _ & _ & ->).
  - intros o Hk Ha Hd. assert (absent S s1 o) as Ha1 by (by apply (step_absent res s)). unfold absent in *. fold full in *.
    destruct full; [by rewrite <- Hp|]. destruct Ha1 as [A1 A2]. rewrite <- Hm, <- Hp. split; [|done]. intros x Hx.
    destruct (Hread _ x Hx) as (y & Hy & (-> & _)%core_eq). specialize (A1 y Hy). destruct (res !! _) as [p|]; [|done]. apply read_parts; [done|by apply Hd].
  - intros i x Hx Hlx. destruct (Hreading i x Hx Hlx) as (Hi & y & Hy & Hly). split; [done|].
    destruct Hstep as [p s1 Hp0 Eu Eld Hr|z s1 H0 Eg Hz Hlz [Ha]|Hn Hn2].
    + exfalso. destruct (hr_slices _ _ _ _ Hr i y Hy) as (E & _). rewrite Hly in E. symmetry in E. apply bool_decide_eq_true in E as [Eg ->].
      rewrite (hr_mode _ _ _ _ Hr) in Eg. destruct (good_from_good p Eg) as [E1 E2]. destruct (rf_included _ _ Hf p Hp0 E1 E2). change (Z.of_nat 1) with 1 in Hi. congruence.
    + destruct Ha as (x' & Hlk & _). destruct (like_lookup _ _ i y Hlk Hy) as (w & Hw & (_ & Lw & _)%core_eq). simpl in Hw.
      apply list_lookup_insert_Some in Hw as [(<- & _)|[_ Hw]]; [by exists z|]. exists w. split; [done|congruence].
    + by exists y.
  - rewrite <- Hm, <- Hp. intros Eg x o Hx Hld' Ho Hin. destruct (Hread 0%nat x Hx) as (y & Hy & (-> & _ & Dy & _)%core_eq). rewrite Hld' in Dy.
    assert (loadingFromCache y = true -> res !! Z.of_nat 1 = None) as Hl1.
    { intros Hly. destruct (res !! _) as [p|]; [|done]. unfold read in Dy. by rewrite Hly in Dy. }
    destruct Hstep as [p s1 Hp0 Eu Eld Hr|z s1 H0 Eg' Hz Hlz [Ha]|Hn Hn2].
    + exfalso. destruct (hr_slices _ _ _ _ Hr 0%nat y Hy) as (E & _). rewrite bool_decide_eq_true_2 in E by done. specialize (Hl1 E).
      rewrite (hr_mode _ _ _ _ Hr) in Eg. destruct (good_from_good p Eg) as [E1 E2]. destruct (rf_included _ _ Hf p Hp0 E1 E2). change (Z.of_nat 1) with 1 in Hl1. congruence.
    + exfalso. destruct Ha as (x' & Hlk & Lx' & _). destruct (like_lookup _ _ 0 y Hlk Hy) as (w & Hw & (_ & Lw & _)%core_eq). simpl in Hw.
      rewrite list_lookup_insert_eq in Hw by (by eapply lookup_lt_Some). injection Hw as <-. rewrite Lx' in Lw. specialize (Hl1 Lw).
      destruct (rf_good _ _ Hf Eg') as [[H01 _] _]. destruct (H01 H0). change (Z.of_nat 1) with 1 in Hl1. congruence.
    + assert (loadingFromCache y = false -> parts y !! o = None) as Hyn.
      { intros Hly. apply (rf_first _ _ Hf Eg y o Hy); [|done|done]. destruct (res !! Z.of_nat 1) as [p|]; [|by symmetry]. unfold read in Dy. rewrite Hly in Dy. by symmetry. }
      destruct (loadingFromCache y) eqn:Hly.
      * rewrite (Hl1 eq_refl) in *. apply (rf_first _ _ Hf Eg y o Hy); [by symmetry|done|done].
      * destruct (res !! Z.of_nat 1) as [p|]; [|by apply Hyn]. unfold read. rewrite Hly. by apply Hyn.
  - intros i x Hx Hlx. destruct (Hread i x Hx) as (y & Hy & (Px & _ & Lx & _)%core_eq). rewrite Hlx in Lx. symmetry in Lx.
    assert (forall z, loadedFromCache z = true -> data s1 !! i = Some z -> parts x = parts z ->
      exists y, data s !! i = Some y /\ loadedFromCache y = true /\ forall o, is_Some (parts y !! o) -> is_Some (parts x !! o)) as Hold.
    { intros z Hlz Hz Ez. destruct (step_loaded res s s1 i z Hstep Hz Hlz) as [Hz'|(w & Hw & Hlw & Ew)]; [exists z|exists w]; split_and!; try done.
      - by rewrite Ez.
      - by rewrite Ez, Ew. }
    destruct (res !! Z.of_nat (Datatypes.S i)) as [p|] eqn:Ep; [|left; by apply (Hold y)].
    unfold read in Px, Lx. destruct (loadingFromCache y) eqn:Ely; [right|left; by apply (Hold y)]. split.
    + exists p. split; [done|]. intros o Ho. rewrite Px. simpl. rewrite lookup_union_is_Some. by right.
    + intros Eu. rewrite <- Hm. by apply (step_reading res s s1 i y).
Qed.

Lemma results_read (res : gmap Z PartsMap) (s : Slices) : sound s -> results_fit res s ->
  wp (each (fun x => processCacheResult (Z.to_nat x.1) x.2) (entries res))
    (fun _ s' => forall s'', like s' s'' -> results_done res s s'') s.
Proof.
  intros Hs Hf. eapply wp_mono; [by apply results_all|]. intros [] s' (Hs' & s1 & Hstep & Hl) s'' Hl'.
  apply (results_done_ok res s s1); try done; [by etrans|by apply (sound_like C S s')].
Qed.

End Read.
