(* ===== verification/SlicesEnd.v ===== *)
(** * Streaming: everything is written at the end

    Each call of [unloadToCache] writes one of the slices that changed, or the
    header with the first one, and leaves one less to write. *)

From S2P Require Import Prelude Tcp StateMonad SliceCache Slices CacheFacts SliceFacts SlicesFacts SlicesWrite.

Section End_.
Context (C : Z -> Z) (S : Z).
Hypothesis size_positive : 0 < S.
Hypothesis size_bound : S <= 510 * kInSlice.

#[local] Abbreviation sound := (sound C S).
#[local] Abbreviation slice_count := (slice_count S).

Definition changed (x : Slice) : bool := changedSinceCache x.
Definition changed_count (s : Slices) : nat :=
  ((if changed (header s) then 1 else 0) + length (filter (fun x => changed x) (data s)))%nat.

Lemma filter_alter (i : nat) (d : list Slice) (x : Slice) : d !! i = Some x ->
  (length (filter (fun x => changed x) (alter unloadSlice i d)) + (if changed x then 1 else 0) = length (filter (fun x => changed x) d))%nat.
Proof.
  revert i. induction d as [|y d IH]; intros [|i] Hx; try done; simpl in Hx.
  - injection Hx as ->. cbn [alter list_alter]. rewrite !filter_cons. rewrite decide_False by (intros H; exact H).
    destruct (changed x) eqn:E; [rewrite decide_True by done|rewrite decide_False by (intros H; exact H)]; simpl; lia.
  - change (alter unloadSlice (Datatypes.S i) (y :: d)) with (y :: alter unloadSlice i d). rewrite !filter_cons. specialize (IH i Hx).
    destruct (decide (changed y)); simpl; lia.
Qed.

Lemma count_saved (n m : nat) (s : Slices) (x : Slice) : at_ m s = Some x -> changed x = true ->
  n = target m s -> (m <> O -> changed (header s) = false) -> (headerMode s = Good -> is_Some (data s !! 0%nat)) ->
  (changed_count (saved n s) < changed_count s)%nat.
Proof.
  intros Hx Hc -> Hh Hg. unfold changed_count, target. destruct (isGoodHeader s) eqn:Eg.
  - pose proof Eg as Eg'%bool_decide_eq_true. destruct (Hg Eg') as [y Hy]. destruct m as [|[|m]]; cbn [andb Nat.eqb].
    + injection Hx as <-. unfold saved. rewrite Eg. simpl. rewrite Hc. pose proof (filter_alter 0 (data s) y Hy). simpl in *. destruct (changed y); lia.
    + simpl in Hx. unfold saved. rewrite Eg. simpl. rewrite Hh by done. pose proof (filter_alter 0 (data s) x Hx). rewrite Hc in *. simpl in *. lia.
    + simpl in Hx. unfold saved. simpl. pose proof (filter_alter (Datatypes.S m) (data s) x Hx). rewrite Hc in *. simpl in *. lia.
  - cbn [andb]. destruct m as [|i].
    + injection Hx as <-. unfold saved. rewrite Eg. simpl. rewrite Hc. simpl. lia.
    + simpl in Hx. unfold saved. simpl. pose proof (filter_alter i (data s) x Hx). rewrite Hc in *. simpl in *. lia.
Qed.

(** What one step writes. *)
Inductive unloads (s : Slices) : option SerializedSlice -> Slices -> Prop :=
  | unloads_none : headerMode s = Unknown \/ headerMode s = NoCache \/ (forall m x, at_ m s = Some x -> changed x = false) -> unloads s None s
  | unloads_one m x bytes : headerMode s <> Unknown -> headerMode s <> NoCache -> at_ m s = Some x -> changed x = true -> (m <> O -> changed (header s) = false) ->
      ParseCacheEntry bytes (target m s) S = Some (entry_of (target m s) s) -> (changed_count (saved (target m s) s) < changed_count s)%nat ->
      unloads s (Some (mk_serialized (target m s) bytes)) (saved (target m s) s).

Lemma unload_one (m : nat) (s : Slices) (x : Slice) : sound s -> headerMode s <> Unknown -> headerMode s <> NoCache -> at_ m s = Some x ->
  changed x = true -> (m <> O -> changed (header s) = false) ->
  wp (x <- serializeAndUnloadSlice m ;; ret (Some x)) (fun r s' => sound s' /\ unloads s r s') s.
Proof.
  intros Hs Hu Hn Hx Hc Hh. pose proof (sd_mode _ _ _ Hs) as Hm. unfold mode_ok in Hm.
  assert (headerMode s = Good -> exists y, data s !! 0%nat = Some y) as Hfirst.
  { intros Eg. rewrite Eg in Hm. destruct Hm as [Ef _]. apply lookup_lt_is_Some_2. rewrite (sd_count _ _ _ Hs). by apply slice_count_ok. }
  assert (flags_ok x) as [_ Hfx].
  { destruct m; simpl in Hx; [injection Hx as <-; apply (sd_header_flags _ _ _ Hs)|by apply (Forall_lookup_1 _ _ _ _ (sd_flags _ _ _ Hs) Hx)]. }
  destruct (Hfx Hc) as [Hld Hne]. assert (exists y, writable C S (target m s) s y) as [y Hw].
  { unfold target. destruct (isGoodHeader s) eqn:Eg; [destruct (Nat.eqb_spec m 1) as [->|Hm1]|]; cbn [andb].
    - pose proof Eg as Eg'%bool_decide_eq_true. exists (header s). rewrite Eg' in Hm. destruct Hm as (_ & _ & Hp & _). split; try done.
      intros _ _. by exists x.
    - pose proof Eg as Eg'%bool_decide_eq_true. exists x. split; try done. intros _ ->. destruct (Hfirst Eg') as [z Hz]. exists z. split; [done|].
      injection Hx as <-. rewrite Eg' in Hm. destruct Hm as (_ & _ & _ & _ & Ha). by apply (Ha z Hz).
    - exists x. split; try done. intros Eg'. unfold isGoodHeader in Eg. by rewrite Eg' in Eg. }
  assert (m <= slice_count)%nat as Hle. { destruct m; [lia|]. simpl in Hx. apply lookup_lt_Some in Hx. rewrite (sd_count _ _ _ Hs) in Hx. lia. }
  destruct (serialize_ok C S size_positive size_bound m s y Hle Hw) as (bytes & E & Ep). apply wp_bind. unfold wp at 1. rewrite E. apply wp_ret.
  split; [apply (saved_sound C S _ s y Hw); symmetry; apply target_idem|]. apply (unloads_one s m x); try done.
  apply (count_saved _ m s x); try done.
Qed.

Lemma unload_ok (s : Slices) : sound s -> wp unloadToCache (fun r s' => sound s' /\ unloads s r s') s.
Proof.
  intros Hs. unfold unloadToCache. apply wp_bind, wp_gets. unfold id.
  destruct (bool_decide_reflect (headerMode s = Unknown)); [apply wp_ret; split; [done|]; apply unloads_none; by left|].
  destruct (bool_decide_reflect (headerMode s = NoCache)); [apply wp_ret; split; [done|]; apply unloads_none; right; by left|]. cbn [orb].
  destruct (changedSinceCache (header s)) eqn:Eh; [by apply (unload_one 0 s (header s))|].
  destruct (list_find _ (data s)) as [[i x]|] eqn:E.
  - apply list_find_Some in E as (Hx & Hc & _). by apply (unload_one (Datatypes.S i) s x).
  - apply list_find_None in E. apply wp_ret. split; [done|]. apply unloads_none. right. right. intros [|i] y Hy; simpl in Hy.
    + by injection Hy as <-.
    + rewrite Forall_lookup in E. apply not_true_is_false. by apply (E i y).
Qed.

(** What is not written stays as it was. *)
Lemma entry_saved (n m : nat) (s : Slices) : n <> m -> n = target n s -> m = target m s -> entry_of n (saved m s) = entry_of n s.
Proof.
  intros Hne Hn Hm. assert (isGoodHeader (saved m s) = isGoodHeader s /\ parts (header (saved m s)) = parts (header s)) as [Eg Ep].
  { unfold saved. destruct m; [|done]. destruct (isGoodHeader s) eqn:E; (split; [exact E|done]). }
  assert (isGoodHeader s = true -> n <> 1%nat /\ m <> 1%nat) as Hg.
  { intros E. split; intros ->; unfold target in *; rewrite E in *; done. }
  unfold entry_of. rewrite Eg, Ep. f_equal.
  - destruct n as [|i]; simpl; [done|]. destruct m as [|j]; simpl.
    + destruct (isGoodHeader s) eqn:E; simpl; [|done]. rewrite list_lookup_alter_ne; [done|]. intros <-. by destruct (Hg eq_refl).
    + rewrite list_lookup_alter_ne; [done|]. congruence.
  - destruct ((n =? 0)%nat && isGoodHeader s) eqn:E; [|done]. apply andb_true_iff in E as [->%Nat.eqb_eq E]. destruct (Hg E) as [_ Hm1].
    destruct m as [|[|j]]; [done|done|]. simpl. by rewrite list_lookup_alter_ne.
Qed.

Lemma at_saved (n m : nat) (s : Slices) : at_ m (saved n s) =
  match n, m with
  | O, O => Some (set_changed false (header s))
  | O, Datatypes.S i => if isGoodHeader s && (i =? 0)%nat then unloadSlice <$> data s !! i else data s !! i
  | Datatypes.S _, O => Some (header s)
  | Datatypes.S j, Datatypes.S i => if (i =? j)%nat then unloadSlice <$> data s !! i else data s !! i
  end.
Proof.
  destruct n as [|j], m as [|i]; try done; simpl.
  - destruct (isGoodHeader s); simpl; [|done]. rewrite list_lookup_alter. destruct (Nat.eqb_spec i 0) as [->|]; [done|]. by rewrite decide_False.
  - rewrite list_lookup_alter. destruct (Nat.eqb_spec i j) as [->|]; [by rewrite decide_True|]. rewrite decide_False; [done|congruence].
Qed.

(** What is still to be written is what was, without what was written. *)
Lemma changed_saved (n m : nat) (s : Slices) (x : Slice) : n = target n s -> changed x = true ->
  at_ m (saved n s) = Some x <-> at_ m s = Some x /\ target m s <> n.
Proof.
  intros Hn Hc. rewrite at_saved. assert (isGoodHeader s = true -> n <> 1%nat) as Hg by (intros E ->; unfold target in Hn; by rewrite E in Hn).
  assert (forall y, unloadSlice <$> y = Some x -> False) as Hu by (intros [y|] Hy; [injection Hy as <-|]; done).
  unfold target. destruct n as [|j], m as [|i]; simpl.
  - split; [by intros [= <-]|by intros [_ ?]].
  - destruct (isGoodHeader s) eqn:E; [|split; [intros ?; by split|by intros [? _]]]. destruct (Nat.eqb_spec i 0) as [->|Hi]; simpl.
    + split; [by intros ?%Hu|by intros [_ ?]].
    + split; [intros ?; by split|by intros [? _]].
  - split; [intros ?; split; [done|by destruct (_ && _)]|by intros [? _]].
  - destruct (Nat.eqb_spec i j) as [->|Hij].
    + split; [by intros ?%Hu|]. intros [_ H]. destruct H. destruct (isGoodHeader s) eqn:E; [|done]. destruct j; [by destruct (Hg eq_refl)|done].
    + split; [|by intros [? _]]. intros Hx. split; [done|]. destruct (_ && _); congruence.
Qed.

Lemma target_saved (n m : nat) (s : Slices) : target m (saved n s) = target m s.
Proof.
  unfold target. replace (isGoodHeader (saved n s)) with (isGoodHeader s); [done|]. unfold saved. destruct n; [|done]. destruct (isGoodHeader s) eqn:E; by symmetry.
Qed.

End End_.
