(* ===== verification/Reader.v ===== *)
(** * Streaming: the reader

    [media/streaming/media_streaming_reader.cpp]: what a player and a download
    of one file share. The streaming thread fills buffers from the slices, the
    main thread brings parts from the loader and from the cache and serves the
    download. An operation is atomic, and [fill] is one step for each turn of its
    loop; what is called (the loader, the cache, semaphores, the main queue) is
    a log that [ReaderSystem] acts on. [None] is a failed [Expects] or [Assert]. *)

From S2P Require Import Prelude Tcp StateMonad Streaming SliceCache Slices.

Definition kDownloaderRequestsLimit : nat := 4.
Definition kFailed : Z := -1.

Inductive StreamingError := OpenFailed | LoadFailed | InvalidData | NotStreamable.

(** What is called. *)
Inductive Call :=
  | Load (offset : Z) | Cancel (offset : Z) | ResetPriorities | SetPriority (priority : Z) | TryRemoveFromQueue
  | AttachDownloader (downloader : nat) | ClearAttachedDownloader
  | GetWithSizes (sliceNumber count : nat) | Put (sliceNumber : nat) (bytes : list Z) | Sync
  | Release | Fired (offset : Z) (bytes : list Z)
  | OnMainFire (offset : Z) (bytes : list Z) | OnMainStop | OnMainCheck.

(** [CacheHelper], the keys of which are slice numbers. *)
Record CacheHelper := mk_helper { results : gmap Z PartsMap; sizes : list Z; cacheWaiting : bool }.
Definition CacheHelper_new : CacheHelper := mk_helper ∅ [] false.

(** The turn of the loop of [fill] that is to come. *)
Record Filling := mk_filling { fillOffset : Z; fillBuffer : list Z; lastResult : FillState }.

Record Reader := mk_reader {
  loaderSize : Z;
  cacheHelper : option CacheHelper;
  loadedParts : list (Z * list Z);
  waiting : bool; sleeping : bool; stopStreamingAsync_ : bool;
  loadingOffsets : PriorityQueue;
  slices : Slices;
  streamingError : option StreamingError;
  attachedDownloader : option nat; realPriority : Z; streamingActive : bool;
  offsetsForDownloader : list Z; downloaderOffsetsRequested : gset Z; downloaderReadCache : gmap Z (option PartsMap);
  downloaderOffsetRequests : list Z; downloaderOffsetAcks : list Z;
  filling : option Filling;
  calls : list Call }.

Definition set_helper (v : option CacheHelper) (r : Reader) : Reader :=
  mk_reader (loaderSize r) v (loadedParts r) (waiting r) (sleeping r) (stopStreamingAsync_ r) (loadingOffsets r) (slices r)
    (streamingError r) (attachedDownloader r) (realPriority r) (streamingActive r) (offsetsForDownloader r)
    (downloaderOffsetsRequested r) (downloaderReadCache r) (downloaderOffsetRequests r) (downloaderOffsetAcks r) (filling r) (calls r).
Definition set_loadedParts (v : list (Z * list Z)) (r : Reader) : Reader :=
  mk_reader (loaderSize r) (cacheHelper r) v (waiting r) (sleeping r) (stopStreamingAsync_ r) (loadingOffsets r) (slices r)
    (streamingError r) (attachedDownloader r) (realPriority r) (streamingActive r) (offsetsForDownloader r)
    (downloaderOffsetsRequested r) (downloaderReadCache r) (downloaderOffsetRequests r) (downloaderOffsetAcks r) (filling r) (calls r).
Definition set_waiting (v : bool) (r : Reader) : Reader :=
  mk_reader (loaderSize r) (cacheHelper r) (loadedParts r) v (sleeping r) (stopStreamingAsync_ r) (loadingOffsets r) (slices r)
    (streamingError r) (attachedDownloader r) (realPriority r) (streamingActive r) (offsetsForDownloader r)
    (downloaderOffsetsRequested r) (downloaderReadCache r) (downloaderOffsetRequests r) (downloaderOffsetAcks r) (filling r) (calls r).
Definition set_sleeping (v : bool) (r : Reader) : Reader :=
  mk_reader (loaderSize r) (cacheHelper r) (loadedParts r) (waiting r) v (stopStreamingAsync_ r) (loadingOffsets r) (slices r)
    (streamingError r) (attachedDownloader r) (realPriority r) (streamingActive r) (offsetsForDownloader r)
    (downloaderOffsetsRequested r) (downloaderReadCache r) (downloaderOffsetRequests r) (downloaderOffsetAcks r) (filling r) (calls r).
Definition set_stop (v : bool) (r : Reader) : Reader :=
  mk_reader (loaderSize r) (cacheHelper r) (loadedParts r) (waiting r) (sleeping r) v (loadingOffsets r) (slices r)
    (streamingError r) (attachedDownloader r) (realPriority r) (streamingActive r) (offsetsForDownloader r)
    (downloaderOffsetsRequested r) (downloaderReadCache r) (downloaderOffsetRequests r) (downloaderOffsetAcks r) (filling r) (calls r).
Definition set_offsets (v : PriorityQueue) (r : Reader) : Reader :=
  mk_reader (loaderSize r) (cacheHelper r) (loadedParts r) (waiting r) (sleeping r) (stopStreamingAsync_ r) v (slices r)
    (streamingError r) (attachedDownloader r) (realPriority r) (streamingActive r) (offsetsForDownloader r)
    (downloaderOffsetsRequested r) (downloaderReadCache r) (downloaderOffsetRequests r) (downloaderOffsetAcks r) (filling r) (calls r).
Definition set_slices (v : Slices) (r : Reader) : Reader :=
  mk_reader (loaderSize r) (cacheHelper r) (loadedParts r) (waiting r) (sleeping r) (stopStreamingAsync_ r) (loadingOffsets r) v
    (streamingError r) (attachedDownloader r) (realPriority r) (streamingActive r) (offsetsForDownloader r)
    (downloaderOffsetsRequested r) (downloaderReadCache r) (downloaderOffsetRequests r) (downloaderOffsetAcks r) (filling r) (calls r).
Definition set_error (v : option StreamingError) (r : Reader) : Reader :=
  mk_reader (loaderSize r) (cacheHelper r) (loadedParts r) (waiting r) (sleeping r) (stopStreamingAsync_ r) (loadingOffsets r) (slices r)
    v (attachedDownloader r) (realPriority r) (streamingActive r) (offsetsForDownloader r)
    (downloaderOffsetsRequested r) (downloaderReadCache r) (downloaderOffsetRequests r) (downloaderOffsetAcks r) (filling r) (calls r).
Definition set_downloader (v : option nat) (r : Reader) : Reader :=
  mk_reader (loaderSize r) (cacheHelper r) (loadedParts r) (waiting r) (sleeping r) (stopStreamingAsync_ r) (loadingOffsets r) (slices r)
    (streamingError r) v (realPriority r) (streamingActive r) (offsetsForDownloader r)
    (downloaderOffsetsRequested r) (downloaderReadCache r) (downloaderOffsetRequests r) (downloaderOffsetAcks r) (filling r) (calls r).
Definition set_priority (v : Z) (r : Reader) : Reader :=
  mk_reader (loaderSize r) (cacheHelper r) (loadedParts r) (waiting r) (sleeping r) (stopStreamingAsync_ r) (loadingOffsets r) (slices r)
    (streamingError r) (attachedDownloader r) v (streamingActive r) (offsetsForDownloader r)
    (downloaderOffsetsRequested r) (downloaderReadCache r) (downloaderOffsetRequests r) (downloaderOffsetAcks r) (filling r) (calls r).
Definition set_active (v : bool) (r : Reader) : Reader :=
  mk_reader (loaderSize r) (cacheHelper r) (loadedParts r) (waiting r) (sleeping r) (stopStreamingAsync_ r) (loadingOffsets r) (slices r)
    (streamingError r) (attachedDownloader r) (realPriority r) v (offsetsForDownloader r)
    (downloaderOffsetsRequested r) (downloaderReadCache r) (downloaderOffsetRequests r) (downloaderOffsetAcks r) (filling r) (calls r).
Definition set_wanted (v : list Z) (r : Reader) : Reader :=
  mk_reader (loaderSize r) (cacheHelper r) (loadedParts r) (waiting r) (sleeping r) (stopStreamingAsync_ r) (loadingOffsets r) (slices r)
    (streamingError r) (attachedDownloader r) (realPriority r) (streamingActive r) v
    (downloaderOffsetsRequested r) (downloaderReadCache r) (downloaderOffsetRequests r) (downloaderOffsetAcks r) (filling r) (calls r).
Definition set_asked (v : gset Z) (r : Reader) : Reader :=
  mk_reader (loaderSize r) (cacheHelper r) (loadedParts r) (waiting r) (sleeping r) (stopStreamingAsync_ r) (loadingOffsets r) (slices r)
    (streamingError r) (attachedDownloader r) (realPriority r) (streamingActive r) (offsetsForDownloader r)
    v (downloaderReadCache r) (downloaderOffsetRequests r) (downloaderOffsetAcks r) (filling r) (calls r).
Definition set_readCache (v : gmap Z (option PartsMap)) (r : Reader) : Reader :=
  mk_reader (loaderSize r) (cacheHelper r) (loadedParts r) (waiting r) (sleeping r) (stopStreamingAsync_ r) (loadingOffsets r) (slices r)
    (streamingError r) (attachedDownloader r) (realPriority r) (streamingActive r) (offsetsForDownloader r)
    (downloaderOffsetsRequested r) v (downloaderOffsetRequests r) (downloaderOffsetAcks r) (filling r) (calls r).
Definition set_requests (v : list Z) (r : Reader) : Reader :=
  mk_reader (loaderSize r) (cacheHelper r) (loadedParts r) (waiting r) (sleeping r) (stopStreamingAsync_ r) (loadingOffsets r) (slices r)
    (streamingError r) (attachedDownloader r) (realPriority r) (streamingActive r) (offsetsForDownloader r)
    (downloaderOffsetsRequested r) (downloaderReadCache r) v (downloaderOffsetAcks r) (filling r) (calls r).
Definition set_acks (v : list Z) (r : Reader) : Reader :=
  mk_reader (loaderSize r) (cacheHelper r) (loadedParts r) (waiting r) (sleeping r) (stopStreamingAsync_ r) (loadingOffsets r) (slices r)
    (streamingError r) (attachedDownloader r) (realPriority r) (streamingActive r) (offsetsForDownloader r)
    (downloaderOffsetsRequested r) (downloaderReadCache r) (downloaderOffsetRequests r) v (filling r) (calls r).
Definition set_filling (v : option Filling) (r : Reader) : Reader :=
  mk_reader (loaderSize r) (cacheHelper r) (loadedParts r) (waiting r) (sleeping r) (stopStreamingAsync_ r) (loadingOffsets r) (slices r)
    (streamingError r) (attachedDownloader r) (realPriority r) (streamingActive r) (offsetsForDownloader r)
    (downloaderOffsetsRequested r) (downloaderReadCache r) (downloaderOffsetRequests r) (downloaderOffsetAcks r) v (calls r).
Definition set_calls (v : list Call) (r : Reader) : Reader :=
  mk_reader (loaderSize r) (cacheHelper r) (loadedParts r) (waiting r) (sleeping r) (stopStreamingAsync_ r) (loadingOffsets r) (slices r)
    (streamingError r) (attachedDownloader r) (realPriority r) (streamingActive r) (offsetsForDownloader r)
    (downloaderOffsetsRequested r) (downloaderReadCache r) (downloaderOffsetRequests r) (downloaderOffsetAcks r) (filling r) v.

Definition call (c : Call) : M Reader unit := modify (fun r => set_calls (calls r ++ [c]) r).
Definition on_slices {A} (m : M Slices A) : M Reader A := fun r =>
  match m (slices r) with Some (a, s) => Some (a, set_slices s r) | None => None end.
Definition with_helper (f : CacheHelper -> CacheHelper) : M Reader unit := modify (fun r => set_helper (f <$> cacheHelper r) r).
Definition set_cacheWaiting (b : bool) (h : CacheHelper) : CacheHelper := mk_helper (results h) (sizes h) b.

Definition Reader_init (size : Z) (useCache : bool) : option Reader :=
  s <-? Slices_new (wrapu 32 size) useCache ;
  Some (mk_reader size (if useCache then Some CacheHelper_new else None) [] false false false PriorityQueue_new s None None 1 false
    [] ∅ ∅ [] [] None []).

(** ** The cache *)

Definition readFromCache (sliceNumber : nat) : M Reader unit :=
  r <- gets id ;;
  if bool_decide (cacheHelper r = None) || negb (sliceNumber =? 0)%nat && headerModeUnknown (slices r) then lift None else
  let n := if (sliceNumber =? 1)%nat && isGoodHeader (slices r) then O else sliceNumber in
  call (GetWithSizes n (requestSliceSizesCount (slices r))).

Definition readFromCacheForDownloader (sliceNumber : nat) : M Reader bool :=
  r <- gets id ;;
  if bool_decide (cacheHelper r = None) || (sliceNumber =? 0)%nat then lift None
  else if headerModeUnknown (slices r) then ret false
  else readFromCache sliceNumber ;;; ret true.

Definition putToCache (slice : SerializedSlice) : M Reader unit :=
  h <- gets cacheHelper ;; if bool_decide (h = None) then lift None else call (Put (number slice) (serialized slice)).

(** The constructor. *)
Definition Reader_new (size : Z) (useCache : bool) : option Reader :=
  r <-? Reader_init size useCache ;
  if useCache then snd <$> readFromCache 0 r else Some r.

Fixpoint finalizeLoop (fuel : nat) : M Reader unit :=
  match fuel with
  | O => lift None
  | S fuel =>
      toCache <- on_slices unloadToCache ;;
      match toCache with None => ret tt | Some slice => putToCache slice ;;; finalizeLoop fuel end
  end.

Definition finalizeCache : M Reader unit :=
  r <- gets id ;;
  if bool_decide (cacheHelper r = None) then ret tt else
  with_helper (set_cacheWaiting false) ;;;
  finalizeLoop (length (data (slices r)) + 2) ;;;
  call Sync.

(** The answer of the cache, when it was parsed. *)
Definition cacheResult (sliceNumber : nat) (entry : ParsedCacheEntry) (sizes_ : list Z) : M Reader unit :=
  r <- gets id ;;
  match cacheHelper r with
  | None => ret tt
  | Some h =>
      let found := emplace (Z.of_nat sliceNumber) (parsed entry) (results h) in
      let found := match included entry with
                   | Some first => if (sliceNumber =? 0)%nat then emplace 1 first found else found
                   | None => found
                   end in
      modify (set_helper (Some (mk_helper found sizes_ false))) ;;;
      call (if cacheWaiting h then Release else OnMainCheck)
  end.

Definition processCacheResults : M Reader bool :=
  r <- gets id ;;
  match cacheHelper r with
  | None => ret false
  | Some h =>
      let loaded := results h in
      modify (set_helper (Some (mk_helper ∅ [] (cacheWaiting h)))) ;;;
      modify (fun r => set_readCache (map_imap (fun n c =>
        Some (match c with None => loaded !! n | Some p => Some p end)) (downloaderReadCache r)) r) ;;;
      if bool_decide (is_Some (streamingError r)) then ret false else
      each (fun x => on_slices (processCacheResult (Z.to_nat x.1) x.2)) (entries loaded) ;;;
      (if bool_decide (sizes h = []) then ret tt else on_slices (processCachedSizes (sizes h))) ;;;
      good <- gets (fun r => isGoodHeader (slices r)) ;;
      match entries loaded with
      | [] => ret false
      | (n, _) :: rest =>
          if (n =? 0) && good && negb (bool_decide (fst <$> head rest = Some 1)) then lift None else ret true
      end
  end.

(** ** The loader *)

Definition processLoadedPart (part : Z * list Z) : M Reader unit :=
  r <- gets id ;;
  let (offsets, there) := remove_value part.1 (loadingOffsets r) in
  modify (set_offsets offsets) ;;;
  if there : bool then on_slices (processPart part.1 part.2) else ret tt.

Definition valid_part (size : Z) (p : Z * list Z) : bool :=
  negb (p.1 =? kFailed) && ((len p.2 =? kPartSize) || (p.1 + len p.2 =? size)).

(** Parts up to the first that is not valid. *)
Fixpoint processParts (loaded : list (Z * list Z)) : M Reader bool :=
  match loaded with
  | [] => ret true
  | part :: loaded =>
      r <- gets id ;;
      if negb (valid_part (loaderSize r) part) then modify (set_error (Some LoadFailed)) ;;; ret false
      else processLoadedPart part ;;; processParts loaded
  end.

Definition processLoadedParts : M Reader bool :=
  r <- gets id ;;
  if bool_decide (is_Some (streamingError r)) then ret false else
  modify (set_loadedParts []) ;;;
  ok <- processParts (loadedParts r) ;;
  ret (ok && negb (bool_decide (loadedParts r = []))).

Definition checkForSomethingMoreReceived : M Reader bool :=
  result1 <- processCacheResults ;; result2 <- processLoadedParts ;; ret (result1 || result2).

Definition loadAtOffset (offset : Z) : M Reader unit :=
  r <- gets id ;;
  let (offsets, added) := add offset (loadingOffsets r) in
  modify (set_offsets offsets) ;;;
  if added : bool then call (Load offset) else ret tt.

Definition checkLoadWillBeFirst (offset : Z) : M Reader unit :=
  r <- gets id ;;
  if default offset (front (loadingOffsets r)) =? offset then ret tt
  else modify (set_offsets (resetPriorities (loadingOffsets r))) ;;; call ResetPriorities.

Definition cancelLoadInRange (from till : Z) : M Reader unit :=
  r <- gets id ;;
  let (taken, left) := takeInRange from till (loadingOffsets r) in
  modify (set_offsets left) ;;;
  each (fun offset => if bool_decide (offset ∈ downloaderOffsetsRequested r) then ret tt else call (Cancel offset))
    (sorted_elements taken).

(** A part from the loader. *)
Definition partArrived (offset : Z) (bytes : list Z) : M Reader unit :=
  r <- gets id ;;
  (if bool_decide (attachedDownloader r = None) then ret tt else call (Fired offset bytes)) ;;;
  (if streamingActive r then modify (fun r => set_loadedParts (loadedParts r ++ [(offset, bytes)]) r) else ret tt) ;;;
  if waiting r then modify (set_waiting false) ;;; call Release else ret tt.

(** ** Filling *)

Definition fillFromSlices (offset : Z) (buffer : list Z) : M Reader (FillState * list Z) :=
  x <- on_slices (fill offset buffer) ;;
  let (result, buffer) := x : FillResult * list Z in
  r <- gets id ;;
  if negb (bool_decide (state result = Success)) && headerWontBeFilled (slices r)
  then modify (set_error (Some NotStreamable)) ;;; ret (Failed, buffer) else
  each (fun n => readFromCache (Z.to_nat n)) (values (sliceNumbersFromCache result)) ;;;
  match cacheHelper r, toCache result with
  | Some _, Some slice =>
      if (number slice =? 0)%nat && negb (isGoodHeader (slices r)) then lift None else
      let index := Z.of_nat (Nat.max (number slice) 1 - 1) in
      cancelLoadInRange (index * kInSlice) ((index + 1) * kInSlice) ;;;
      putToCache slice
  | _, _ => ret tt
  end ;;;
  match values (fillOffsets result) with [] => ret tt | first :: _ => checkLoadWillBeFirst first end ;;;
  each loadAtOffset (values (fillOffsets result)) ;;;
  ret (state result, buffer).

(** [startWaiting] and [clearWaiting]. *)
Definition setWaiting (b : bool) : M Reader unit := with_helper (set_cacheWaiting b) ;;; modify (set_waiting b).

(** One turn of the loop: the end of [fill], or what is left to do. *)
Definition fillTurn (offset : Z) (buffer : list Z) : M Reader (option (FillState * list Z)) :=
  x <- fillFromSlices offset buffer ;;
  if bool_decide (x.1 = Success) then setWaiting false ;;; ret (Some x)
  else setWaiting true ;;; modify (set_filling (Some (mk_filling offset x.2 x.1))) ;;; ret None.

Definition startFill (offset : Z) (buffer : list Z) : M Reader (option (FillState * list Z)) :=
  r <- gets id ;;
  let sz := loaderSize r in
  if (sz <? offset + len buffer) || (offset <? 0) || (2 ^ 32 <=? sz) then lift None else
  checkForSomethingMoreReceived ;;;
  error <- gets streamingError ;;
  if bool_decide (is_Some error) then ret (Some (Failed, buffer)) else fillTurn offset buffer.

Definition continueFill : M Reader (option (FillState * list Z)) :=
  f <- gets filling ;; f <- lift f ;;
  more <- checkForSomethingMoreReceived ;;
  modify (set_filling None) ;;;
  if more : bool then fillTurn (fillOffset f) (fillBuffer f) else
  error <- gets streamingError ;;
  if bool_decide (is_Some error) then setWaiting false ;;; call Release ;;; ret (Some (Failed, fillBuffer f))
  else ret (Some (lastResult f, fillBuffer f)).

Definition readerHeaderDone : M Reader unit := on_slices (headerDone false).

(** ** A download of the same file *)

(** The first place where the second offset is not after the first. *)
Fixpoint adjacent_find (l : list Z) : option nat :=
  match l with
  | first :: (second :: _) as rest => if second <=? first then Some O else S <$> adjacent_find rest
  | _ => None
  end.

Definition checkForDownloaderChange (checkItemsCount : nat) : M Reader unit :=
  r <- gets id ;;
  let l := offsetsForDownloader r in
  if (length l <? checkItemsCount)%nat then lift None else
  let before := (length l - checkItemsCount)%nat in
  match adjacent_find (drop before l) with
  | Some changed => modify (fun r => set_acks [] (set_readCache ∅ (set_wanted (drop (before + changed + 1) l) r)))
  | None => ret tt
  end.

(** Nothing is left in [offsets] when it was moved from. *)
Definition enqueueDownloaderOffsets : M Reader unit :=
  r <- gets id ;;
  let offsets := downloaderOffsetRequests r in
  modify (set_requests []) ;;;
  if bool_decide (offsets = []) then ret tt
  else if negb (bool_decide (offsetsForDownloader r = [])) then
    modify (set_wanted (offsetsForDownloader r ++ offsets)) ;;; checkForDownloaderChange (length offsets + 1)
  else modify (set_wanted offsets) ;;; checkForDownloaderChange 0.

Definition unavailableInBytes (offset : Z) (bytes : list Z) : M Reader bool :=
  if bool_decide (bytes = []) then ret true else call (OnMainFire offset bytes) ;;; ret false.

Definition unavailableInCache (offset : Z) : M Reader bool :=
  r <- gets id ;;
  let index := offset / kInSlice in
  match downloaderReadCache r !! (index + 1) with
  | Some (Some p) =>
      match p !! (offset - index * kInSlice) with
      | Some bytes =>
          (** The bytes are moved from the cache. *)
          modify (set_readCache (<[index + 1 := Some (<[offset - index * kInSlice := []]> p)]> (downloaderReadCache r))) ;;;
          unavailableInBytes offset bytes
      | None => ret true
      end
  | _ => ret true
  end.

Definition unavailable (offset : Z) : M Reader bool :=
  r <- gets id ;;
  bytes <- lift (partForDownloader offset (slices r)) ;;
  u <- unavailableInBytes offset bytes ;;
  if u : bool then unavailableInCache offset else ret false.

Fixpoint dropReady (l : list Z) : M Reader (list Z) :=
  match l with
  | [] => ret []
  | offset :: rest => u <- unavailable offset ;; if u : bool then ret l else dropReady rest
  end.

Definition checkForDownloaderReadyOffsets : M Reader unit :=
  l <- gets offsetsForDownloader ;; l <- dropReady l ;; modify (set_wanted l).

Fixpoint erase_first (x : Z) (l : list Z) : list Z :=
  match l with [] => [] | y :: l => if y =? x then l else y :: erase_first x l end.

Definition pruneDoneDownloaderRequests : M Reader unit :=
  acks <- gets downloaderOffsetAcks ;;
  modify (set_acks []) ;;;
  modify (fun r => set_wanted (foldl (fun l done => erase_first done l) (offsetsForDownloader r) acks)
    (set_asked (downloaderOffsetsRequested r ∖ list_to_set acks) r)).

Definition pruneDownloaderCache (minimalOffset : Z) : M Reader unit :=
  modify (fun r => set_readCache (filter (fun x => minimalOffset / kInSlice + 1 <= x.1) (downloaderReadCache r)) r).

Definition downloaderWaitForCachedSlice (offset : Z) : M Reader bool :=
  r <- gets id ;;
  if waitingForHeaderCache (slices r) then ret true else
  required <- lift (readCacheForDownloaderRequired offset (slices r)) ;;
  if negb required then ret false else
  let sliceNumber := offset / kInSlice + 1 in
  match downloaderReadCache r !! sliceNumber with
  | Some c => ret (bool_decide (c = None))
  | None =>
      asked <- readFromCacheForDownloader (Z.to_nat sliceNumber) ;;
      modify (fun r => set_readCache (<[sliceNumber := if asked : bool then None else Some ∅]> (downloaderReadCache r)) r) ;;;
      ret asked
  end.

Definition sendDownloaderRequest (offset : Z) : M Reader unit :=
  h <- gets cacheHelper ;;
  wait <- (if bool_decide (h = None) then ret false else downloaderWaitForCachedSlice offset) ;;
  r <- gets id ;;
  if wait || bool_decide (offset ∈ downloaderOffsetsRequested r) then ret tt
  else modify (set_asked ({[offset]} ∪ downloaderOffsetsRequested r)) ;;; call (Load offset).

Definition sendDownloaderRequests : M Reader unit :=
  l <- gets offsetsForDownloader ;; each sendDownloaderRequest (take kDownloaderRequestsLimit l).

Definition processDownloaderRequests : M Reader unit :=
  processCacheResults ;;;
  enqueueDownloaderOffsets ;;;
  checkForDownloaderReadyOffsets ;;;
  pruneDoneDownloaderRequests ;;;
  l <- gets offsetsForDownloader ;;
  match l with
  | [] => ret tt
  | minimalOffset :: _ => pruneDownloaderCache minimalOffset ;;; sendDownloaderRequests
  end.

Definition checkCacheResultsForDownloader : M Reader unit :=
  active <- gets streamingActive ;; if active : bool then ret tt else processDownloaderRequests.

Definition refreshLoaderPriority : M Reader unit :=
  r <- gets id ;; call (SetPriority (if streamingActive r then realPriority r else 0)).

Definition setLoaderPriority (priority : Z) : M Reader unit :=
  r <- gets id ;;
  if realPriority r =? priority then ret tt else modify (set_priority priority) ;;; refreshLoaderPriority.

(** ** Sleep and the end of streaming *)

Definition startSleep : M Reader unit := modify (set_sleeping true) ;;; processDownloaderRequests.
Definition wakeFromSleep : M Reader unit :=
  r <- gets id ;; if sleeping r then modify (set_sleeping false) ;;; call Release else ret tt.
Definition stopSleep : M Reader unit := modify (set_sleeping false).

Definition startStreaming : M Reader unit := modify (set_active true) ;;; refreshLoaderPriority.

Definition stopStreaming (stillActive : bool) : M Reader unit :=
  r <- gets id ;;
  if sleeping r then lift None else
  modify (set_stop false) ;;;
  modify (set_waiting false) ;;;
  if stillActive then ret tt else
  modify (set_active false) ;;;
  refreshLoaderPriority ;;;
  modify (fun r => set_offsets (clear (loadingOffsets r)) r) ;;;
  processDownloaderRequests.

Definition stopStreamingAsync : M Reader unit := modify (set_stop true) ;;; call OnMainStop.
(** What it leaves to the main thread. *)
Definition stopStreamingLater : M Reader unit :=
  r <- gets id ;; if stopStreamingAsync_ r then stopStreaming false else ret tt.

Definition tryRemoveLoaderAsync : M Reader unit := call TryRemoveFromQueue.

Definition cancelForDownloader (downloader : nat) : M Reader unit :=
  r <- gets id ;;
  if bool_decide (attachedDownloader r = Some downloader)
  then modify (fun r => set_downloader None (set_requests [] r)) ;;; call ClearAttachedDownloader else ret tt.

Definition loadForDownloader (downloader : nat) (offset : Z) : M Reader unit :=
  r <- gets id ;;
  if (offset <? 0) || (2 ^ 32 <=? offset) then lift None else
  (if bool_decide (attachedDownloader r = Some downloader) then ret tt else
     match attachedDownloader r with Some old => cancelForDownloader old | None => ret tt end ;;;
     modify (set_downloader (Some downloader)) ;;; call (AttachDownloader downloader)) ;;;
  modify (fun r => set_requests (downloaderOffsetRequests r ++ [offset]) r) ;;;
  if streamingActive r then wakeFromSleep else processDownloaderRequests.

Definition doneForDownloader (offset : Z) : M Reader unit :=
  r <- gets id ;;
  if (offset <? 0) || (2 ^ 32 <=? offset) then lift None else
  modify (fun r => set_acks (downloaderOffsetAcks r ++ [offset]) r) ;;;
  if streamingActive r then ret tt else processDownloaderRequests.
