(* ===== verification/ReaderSystem.v ===== *)
(** * Streaming: a reader with its cache and its loader

    The cache database keeps an entry for each slice number; what is read is
    what the entry was when it was asked for. The loader has the offsets that
    were asked for, until they come. What is left to the main thread runs later,
    in order. *)

From S2P Require Import Prelude Tcp StateMonad Streaming SliceCache Slices Reader.

Inductive Task := FireTask (offset : Z) (bytes : list Z) | StopTask | CheckTask.

(** An entry that is being read, with the sizes asked for. *)
Record Get := mk_get { getNumber : nat; getBytes : list Z; getSizes : list Z }.

Record World := mk_world {
  reader : Reader; db : gmap nat (list Z); gets : list Get; tasks : list Task; atLoader : gset Z; fired : list (Z * list Z) }.

Definition set_reader (r : Reader) (w : World) : World := mk_world r (db w) (gets w) (tasks w) (atLoader w) (fired w).

Definition entry_in (d : gmap nat (list Z)) (n : nat) : list Z := default [] (d !! n).

(** What a call does. *)
Definition absorb (w : World) (c : Call) : World :=
  let later t := mk_world (reader w) (db w) (gets w) (tasks w ++ [t]) (atLoader w) (fired w) in
  let loader s := mk_world (reader w) (db w) (gets w) (tasks w) s (fired w) in
  match c with
  | Load o => loader ({[o]} ∪ atLoader w)
  | Cancel o => loader (atLoader w ∖ {[o]})
  | GetWithSizes n count =>
      let sizes := (fun i => len (entry_in (db w) (S i))) <$> seq 0 count in
      mk_world (reader w) (db w) (gets w ++ [mk_get n (entry_in (db w) n) sizes]) (tasks w) (atLoader w) (fired w)
  | Put n bytes => mk_world (reader w) (<[n := bytes]> (db w)) (gets w) (tasks w) (atLoader w) (fired w)
  | OnMainFire o bytes => later (FireTask o bytes)
  | OnMainStop => later StopTask
  | OnMainCheck => later CheckTask
  | Fired o bytes => mk_world (reader w) (db w) (gets w) (tasks w) (atLoader w) (fired w ++ [(o, bytes)])
  | ResetPriorities | SetPriority _ | TryRemoveFromQueue | AttachDownloader _ | ClearAttachedDownloader | Sync | Release => w
  end.

Definition settle (w : World) (r : Reader) : World := foldl absorb (set_reader (set_calls [] r) w) (calls r).

Definition run {A} (m : M Reader A) (w : World) : option (A * World) :=
  match m (reader w) with Some (a, r) => Some (a, settle w r) | None => None end.

(** ** What happens *)

Inductive Event :=
  | StartFill (offset : Z) (buffer : list Z) | ContinueFill | HeaderDone | StartSleep | StopSleep | WakeFromSleep
  | StopStreamingAsync | TryRemoveLoaderAsync | StartStreaming | StopStreaming (stillActive : bool)
  | LoadForDownloader (downloader : nat) (offset : Z) | DoneForDownloader (offset : Z) | CancelForDownloader (downloader : nat)
  | SetLoaderPriority (priority : Z)
  | PartArrived (offset : Z) (bytes : list Z) | CacheAnswered (i : nat) | RunTask.

Definition Answer : Type := option (FillState * list Z).
Definition quiet (x : option (unit * World)) : option (Answer * World) := (fun x => (None, x.2)) <$> x.

Definition happen (e : Event) (w : World) : option (Answer * World) :=
  match e with
  | StartFill offset buffer => run (startFill offset buffer) w
  | ContinueFill => run continueFill w
  | HeaderDone => quiet (run readerHeaderDone w)
  | StartSleep => quiet (run startSleep w)
  | StopSleep => quiet (run stopSleep w)
  | WakeFromSleep => quiet (run wakeFromSleep w)
  | StopStreamingAsync => quiet (run stopStreamingAsync w)
  | TryRemoveLoaderAsync => quiet (run tryRemoveLoaderAsync w)
  | StartStreaming => quiet (run startStreaming w)
  | StopStreaming stillActive => quiet (run (stopStreaming stillActive) w)
  | LoadForDownloader d o => quiet (run (loadForDownloader d o) w)
  | DoneForDownloader o => quiet (run (doneForDownloader o) w)
  | CancelForDownloader d => quiet (run (cancelForDownloader d) w)
  | SetLoaderPriority p => quiet (run (setLoaderPriority p) w)
  | PartArrived o bytes =>
      quiet (run (partArrived o bytes) (mk_world (reader w) (db w) (gets w) (tasks w) (atLoader w ∖ {[o]}) (fired w)))
  | CacheAnswered i =>
      g <-? gets w !! i ;
      entry <-? ParseCacheEntry (getBytes g) (getNumber g) (loaderSize (reader w)) ;
      quiet (run (cacheResult (getNumber g) entry (getSizes g))
        (mk_world (reader w) (db w) (delete i (gets w)) (tasks w) (atLoader w) (fired w)))
  | RunTask =>
      match tasks w with
      | [] => Some (None, w)
      | t :: rest =>
          let w := mk_world (reader w) (db w) (gets w) rest (atLoader w) (fired w) in
          match t with
          | FireTask o bytes => Some (None, mk_world (reader w) (db w) (gets w) rest (atLoader w) (fired w ++ [(o, bytes)]))
          | StopTask => quiet (run stopStreamingLater w)
          | CheckTask => quiet (run checkCacheResultsForDownloader w)
          end
      end
  end.

Definition World_new (d : gmap nat (list Z)) (size : Z) (useCache : bool) : option World :=
  r <-? Reader_new size useCache ;
  Some (settle (mk_world r d [] [] ∅ []) r).
