(* ===== verification/ReaderFacts.v ===== *)
(** * Streaming: what every operation of a reader keeps

    Parts that are being loaded are not there; what came and is not used yet is
    of the file. Each operation keeps this, and what it calls is in order. *)

From S2P Require Import Prelude Tcp StateMonad DownloadQueue Streaming SliceCache Slices CacheFacts SliceFacts SlicesFacts SlicesWrite SlicesFill SlicesRead Reader.

(** ** Offsets *)

Definition offs (q : PriorityQueue) : list Z := value <$> queued q.

Lemma offs_add (v o : Z) (q : PriorityQueue) : queue_ok q -> o ∈ offs (add v q).1 <-> o = v \/ o ∈ offs q.
Proof.
  intros Hq. unfold offs. rewrite !list_elem_of_fmap. setoid_rewrite (add_elem v q); [|done]. split.
  - intros (x & -> & [->|[Hx _]]); [by left|right; by exists x].
  - intros [->|(x & -> & Hx)]; [exists (mk_entry v (queuePriority q)); split; [done|by left]|].
    destruct (decide (value x = v)) as [<-|]; [exists (mk_entry (value x) (queuePriority q)); split; [done|by left]|exists x; split; [done|by right]].
Qed.

Lemma offs_add_there (v : Z) (q : PriorityQueue) : (add v q).2 = false -> v ∈ offs q.
Proof.
  unfold add. destruct (find_value v (queued q)) as [x|] eqn:E; [|done]. intros _. apply find_value_some in E as [Hx <-]. by apply list_elem_of_fmap_2.
Qed.

Lemma offs_remove (v : Z) (q : PriorityQueue) : queue_ok q ->
  (remove_value v q).2 = bool_decide (v ∈ offs q) /\ forall o, o ∈ offs (remove_value v q).1 <-> o ∈ offs q /\ o <> v.
Proof.
  intros Hq. unfold remove_value. destruct (find_value v (queued q)) as [x|] eqn:E.
  - apply find_value_some in E as [Hx <-]. simpl. split; [symmetry; apply bool_decide_eq_true; by apply list_elem_of_fmap_2|].
    intros o. unfold offs. simpl. rewrite !list_elem_of_fmap. unfold erase_entry. split.
    + intros (y & -> & [Hy1 Hy2]%list_elem_of_filter). split; [by exists y|]. intros Ev. apply Hy1. by apply (once_value q).
    + intros [(y & -> & Hy) Hne]. exists y. split; [done|]. apply list_elem_of_filter. split; [by intros ->|done].
  - apply find_value_none in E. simpl. split; [symmetry; by apply bool_decide_eq_false|]. intros o. split; [|by intros [? _]]. intros Ho. split; [done|]. by intros ->.
Qed.

Lemma offs_range (from till : Z) (q : PriorityQueue) : queue_ok q -> queue_ok (takeInRange from till q).2
  /\ (forall o, o ∈ offs (takeInRange from till q).2 <-> o ∈ offs q /\ ~ (from <= o /\ o < till))
  /\ (forall o, o ∈ (takeInRange from till q).1 <-> o ∈ offs q /\ from <= o /\ o < till).
Proof.
  intros [H1 H2 H3]. split_and!.
  - split; simpl.
    + clear -H1. induction H1 as [|x l Hs IH Hx]; [constructor|]. rewrite filter_cons. case_decide; [|done].
      constructor; [done|]. rewrite Forall_forall in *. intros z [_ Hz]%list_elem_of_filter. by apply Hx.
    + eapply sublist_NoDup; [exact H2|]. apply fmap_sublist, sublist_filter.
    + rewrite Forall_forall in *. intros x [_ Hx]%list_elem_of_filter. by apply H3.
  - intros o. unfold offs. simpl. rewrite !list_elem_of_fmap. setoid_rewrite list_elem_of_filter.
    split; [intros (y & -> & ? & ?); split; [by exists y|done]|intros [(y & -> & ?) ?]; by exists y].
  - intros o. unfold offs. simpl. rewrite elem_of_list_to_set, !list_elem_of_fmap. setoid_rewrite list_elem_of_filter.
    split; [intros (y & -> & ? & ?); split; [by exists y|done]|intros [(y & -> & ?) ?]; by exists y].
Qed.

Lemma offs_reset (q : PriorityQueue) : offs (resetPriorities q) = offs q.
Proof. done. Qed.

(** ** What is called *)

(** Which offsets are at the loader after a call. *)
Definition after_call (P : Z -> Prop) (c : Call) : Z -> Prop :=
  match c with Load o => fun x => x = o \/ P x | Cancel o => fun x => x <> o /\ P x | _ => P end.
Definition after_calls (l : list Call) (P : Z -> Prop) : Z -> Prop := foldl after_call P l.

Lemma after_calls_app (l k : list Call) (P : Z -> Prop) : after_calls (l ++ k) P = after_calls k (after_calls l P).
Proof. apply foldl_app. Qed.

Lemma after_calls_mono (l : list Call) (P Q : Z -> Prop) : (forall o, P o -> Q o) -> forall o, after_calls l P o -> after_calls l Q o.
Proof.
  revert P Q. induction l as [|c l IH]; intros P Q H o; [apply H|]. apply IH. intros x. destruct c; simpl; try apply H; intuition.
Qed.

Section Facts.
Context (C : Z -> Z) (S : Z).
Hypothesis size_positive : 0 < S.
Hypothesis size_bound : S <= 510 * kInSlice.

#[local] Abbreviation sound := (sound C S).
#[local] Abbreviation full := (full S).
#[local] Abbreviation slice_count := (slice_count S).
#[local] Abbreviation absent := (absent S).
#[local] Abbreviation on_grid := (on_grid S).
#[local] Abbreviation part := (part C S).

(** An entry of the cache is of the file. *)
Definition entry_honest (n : nat) (bytes : list Z) : Prop := exists e, ParseCacheEntry bytes n S = Some e
  /\ true_parts C S (start_of n) (limit_of S n) (parsed e) /\ (n = O -> full = false -> (base.size (parsed e) <= kMaxPartsInHeader)%nat)
  /\ forall p, included e = Some p -> true_parts C S 0 kInSlice p.

(** The header of a good one has the first slice after it. *)
Definition header_entry (h : PartsMap) (bytes : list Z) : Prop := exists e, ParseCacheEntry bytes 0 S = Some e
  /\ is_Some (included e) /\ forall o, is_Some (parsed e !! o) -> is_Some (h !! o).

Definition call_ok (s : Slices) (c : Call) : Prop :=
  match c with
  | Put n bytes => headerMode s <> Unknown /\ (n <= slice_count)%nat /\ entry_honest n bytes
      /\ (headerMode s = Good -> n = O -> header_entry (parts (header s)) bytes)
  | GetWithSizes n count => headerMode s <> Unknown /\ headerMode s <> NoCache /\ (n <= slice_count)%nat /\ (headerMode s = Good -> n <> 1%nat) /\ (n = O -> headerMode s = Good) /\ count = O
  | OnMainFire o bytes => on_grid o /\ bytes = part o
  | Load o => on_grid o
  | Fired o bytes => valid_part S (o, bytes) = true -> on_grid o -> bytes = part o
  | _ => True
  end.

(** The entry that is read for slice [i]. *)
Definition read_number (s : Slices) (i : nat) : nat := if isGoodHeader s && (i =? 0)%nat then O else Datatypes.S i.

(** The part at [o] of slice [i] is in its entry. *)
Definition holds (good : bool) (i : nat) (bytes : list Z) (o : Z) : Prop :=
  if good && (i =? 0)%nat then exists e p, ParseCacheEntry bytes 0 S = Some e /\ included e = Some p /\ is_Some (p !! o)
  else exists e, ParseCacheEntry bytes (Datatypes.S i) S = Some e /\ is_Some (parsed e !! o).

Lemma read_number_inj (s : Slices) (i j : nat) : read_number s i = read_number s j -> i = j.
Proof. unfold read_number. destruct (isGoodHeader s), i, j; simpl; lia. Qed.

(** The slices are read from the cache and written to it. *)
Definition uses_cache (s : Slices) : Prop := headerMode s <> Unknown /\ headerMode s <> NoCache /\ full = false.

Definition helper_results (r : Reader) : gmap Z PartsMap := from_option results ∅ (cacheHelper r).

Record main (r : Reader) : Prop := {
  mn_size : loaderSize r = S;
  mn_sound : sound (slices r);
  mn_queue : queue_ok (loadingOffsets r);
  mn_loading : forall o, o ∈ offs (loadingOffsets r) -> on_grid o /\ absent (slices r) o;
  mn_waits : headerMode (slices r) = Unknown -> loadingFromCache (header (slices r)) = true -> offs (loadingOffsets r) = [];
  mn_header : headerMode (slices r) = Unknown -> loadingFromCache (header (slices r)) = false -> parts (header (slices r)) <> ∅ ->
    changedSinceCache (header (slices r)) = true;
  mn_helper : cacheHelper r = None <-> headerMode (slices r) = NoCache;
  mn_results : results_fit C S (helper_results r) (slices r);
  mn_clear : forall o p, o ∈ offs (loadingOffsets r) -> helper_results r !! Z.of_nat (Datatypes.S (index_of o)) = Some p -> p !! (o - base (index_of o)) = None;
  mn_sizes : forall h, cacheHelper r = Some h -> (sizes h = [] \/ length (sizes h) = slice_count) /\ (results h = ∅ -> sizes h = []);
  mn_parts : forall p, p ∈ loadedParts r -> valid_part S p = true -> on_grid p.1 -> p.2 = part p.1 }.

(** What the download has. *)
Record down (r : Reader) : Prop := {
  dn_wanted : Forall on_grid (offsetsForDownloader r ++ downloaderOffsetRequests r);
  dn_read : forall n c, downloaderReadCache r !! n = Some c -> 1 <= n /\ forall p o b, c = Some p -> p !! o = Some b ->
    b = [] \/ true_part C S (base (index n)) kInSlice (o, b) }.

Definition puts_first (l : list Call) : Prop := exists bytes, Put 0 bytes ∈ l.

(** A good header is read when it is written. *)
Definition reads_written (s : Slices) (l : list Call) : Prop := headerMode s = Good -> forall a n b, l = a ++ GetWithSizes 0 n :: b ->
  changedSinceCache (header s) = false \/ puts_first a.

(** What an operation with the calls [new] does to the slices that were read
    from the cache, and to what is being loaded: a slice that is there was there,
    with its parts, and is not written; an offset that is queued was queued, or
    is of a part that is not there in a slice that was read, and an entry that is
    written does not hold it. *)
Record keeps (r r' : Reader) (new : list Call) : Prop := {
  kp_loaded : forall i y, data (slices r') !! i = Some y -> loadedFromCache y = true ->
    (forall b, Put (read_number (slices r) i) b ∉ new)
    /\ exists x, data (slices r) !! i = Some x /\ loadedFromCache x = true /\ forall o, is_Some (parts x !! o) -> is_Some (parts y !! o);
  kp_asked : forall o, o ∈ offs (loadingOffsets r') ->
    (forall b, Put (read_number (slices r) (index_of o)) b ∈ new -> ~ holds (isGoodHeader (slices r)) (index_of o) b (o - base (index_of o)))
    /\ (o ∈ offs (loadingOffsets r)
        \/ exists x, data (slices r) !! index_of o = Some x /\ loadedFromCache x = true /\ parts x !! (o - base (index_of o)) = None);
  kp_results : (exists n b, Put n b ∈ new) -> helper_results r = ∅ }.

(** What an operation does but for the header that is found, which only
    [processCacheResults] and [headerDone] have to do with. *)
Record steady (r r' : Reader) : Prop := {
  st_mode : headerMode (slices r') = headerMode (slices r);
  st_header : loadingFromCache (header (slices r')) = loadingFromCache (header (slices r));
  st_good : headerMode (slices r) = Good -> parts (header (slices r')) = parts (header (slices r));
  st_results : helper_results r' = helper_results r;
  st_error : streamingError r' = None -> streamingError r = None;
  st_active : streamingActive r' = streamingActive r;
  st_calls : exists new, calls r' = calls r ++ new /\ Forall (call_ok (slices r)) new
    /\ reads_written (slices r) new /\ (headerMode (slices r) = Good -> changedSinceCache (header (slices r')) = false ->
          changedSinceCache (header (slices r)) = false \/ puts_first new)
    /\ (forall i x, data (slices r') !! i = Some x -> loadingFromCache x = true ->
        (exists y, data (slices r) !! i = Some y /\ loadingFromCache y = true) \/ GetWithSizes (read_number (slices r) i) 0 ∈ new)
    /\ (streamingError r' = None -> forall P : Z -> Prop, (forall o, o ∈ offs (loadingOffsets r) -> P o \/ o ∈ (loadedParts r).*1) ->
        forall o, o ∈ offs (loadingOffsets r') -> after_calls new P o \/ o ∈ (loadedParts r').*1)
    /\ (uses_cache (slices r) -> keeps r r' new) }.

Lemma call_ok_same (s s' : Slices) (c : Call) : headerMode s' = headerMode s -> (headerMode s = Good -> parts (header s') = parts (header s)) ->
  call_ok s' c -> call_ok s c.
Proof.
  intros Em Ep. destruct c; simpl; try done; rewrite Em; [done|]. intros (H1 & H2 & H3 & H4). split_and!; try done. intros Eg En. rewrite <- Ep by done. auto.
Qed.

Lemma reads_app (s s' : Slices) (l k : list Call) : (headerMode s = Good -> headerMode s' = Good) ->
  (headerMode s = Good -> changedSinceCache (header s') = false -> changedSinceCache (header s) = false \/ puts_first l) ->
  reads_written s l -> reads_written s' k -> reads_written s (l ++ k).
Proof.
  intros Hm Hc Hl Hk Eg a n b E. assert (forall u v, u ⊆ v -> puts_first u -> puts_first v) as Hsub by (intros u v H [x Hx]; exists x; by apply H).
  apply app_eq_inv in E as [(c & -> & E)|(c & -> & E)].
  - destruct c as [|x c]; simpl in E.
    + destruct (Hk (Hm Eg) [] n b) as [Hs|[x Hx%not_elem_of_nil]]; [done| |done]. rewrite app_nil_r in *. by apply Hc.
    + injection E as <- ->. by apply (Hl Eg a n c).
  - destruct (Hk (Hm Eg) c n b E) as [Hs|Hp]; [|right; eapply Hsub; [|exact Hp]; intros y Hy; apply elem_of_app; by right].
    destruct (Hc Eg Hs) as [?|Hp]; [by left|right; eapply Hsub; [|exact Hp]; intros y Hy; apply elem_of_app; by left].
Qed.

Lemma reads_nil (s : Slices) : reads_written s [].
Proof. intros _ a n b E. by destruct a. Qed.

(** An operation that leaves the slices and the queue, or takes from it. *)
Lemma keeps_same (r r' : Reader) (new : list Call) : (forall n b, Put n b ∉ new) ->
  (forall i y, data (slices r') !! i = Some y -> loadedFromCache y = true ->
    exists x, data (slices r) !! i = Some x /\ loadedFromCache x = true /\ forall o, is_Some (parts x !! o) -> is_Some (parts y !! o)) ->
  (forall o, o ∈ offs (loadingOffsets r') -> o ∈ offs (loadingOffsets r)) -> keeps r r' new.
Proof.
  intros Hn Hd Ho. split.
  - intros i y Hy Hl. split; [intros b; apply Hn|by apply Hd].
  - intros o Hin. split; [by intros b Hb%Hn|left; by apply Ho].
  - by intros (n & b & Hb%Hn).
Qed.

Lemma keeps_calls_trans (r1 r2 r3 : Reader) (n1 n2 : list Call) : isGoodHeader (slices r2) = isGoodHeader (slices r1) ->
  helper_results r2 = helper_results r1 -> keeps r1 r2 n1 -> keeps r2 r3 n2 -> keeps r1 r3 (n1 ++ n2).
Proof.
  intros Eg Er [A1 A2 A3] [B1 B2 B3].
  assert (forall i, read_number (slices r2) i = read_number (slices r1) i) as En by (intros i; unfold read_number; by rewrite Eg).
  split.
  - intros i z Hz Hl. destruct (B1 i z Hz Hl) as (N2 & y & Hy & Hly & Hyz). destruct (A1 i y Hy Hly) as (N1 & x & Hx & Hlx & Hxy). rewrite En in N2.
    split; [by intros b [?%N1|?%N2]%elem_of_app|]. exists x. split_and!; [done|done|]. intros o Ho. by apply Hyz, Hxy.
  - intros o Ho. destruct (B2 o Ho) as [N2 H2]. rewrite En, Eg in N2. destruct H2 as [Ho2|(y & Hy & Hly & Hny)].
    + destruct (A2 o Ho2) as [N1 H1]. split; [|done]. intros b [?|?]%elem_of_app; [by apply N1|by apply N2].
    + destruct (A1 _ y Hy Hly) as (N1 & x & Hx & Hlx & Hxy). split.
      * intros b [Hb|?]%elem_of_app; [by destruct (N1 b)|by apply N2].
      * right. exists x. split_and!; [done|done|]. destruct (parts x !! _) eqn:E; [|done]. destruct (Hxy (o - base (index_of o))) as [c Hc]; [by eexists|congruence].
  - intros (n & b & [Hb|Hb]%elem_of_app); [apply A3; eauto|rewrite <- Er; apply B3; eauto].
Qed.

Lemma steady_refl (r : Reader) : steady r r.
Proof.
  split; try done. exists []. rewrite app_nil_r. split_and!; try done; [apply reads_nil|by left| |].
  - intros i x Hx Hl. left. by exists x.
  - intros _. apply keeps_same; [intros n b; apply not_elem_of_nil| |done]. intros i y Hy Hl. by exists y.
Qed.

Lemma steady_trans (r1 r2 r3 : Reader) : steady r1 r2 -> steady r2 r3 -> steady r1 r3.
Proof.
  intros [A1 A2 A3 A4 A5 A6 (n1 & A7 & A8 & A11 & A12 & A9 & A10 & A13)] [B1 B2 B3 B4 B5 B6 (n2 & B7 & B8 & B11 & B12 & B9 & B10 & B13)].
  assert (isGoodHeader (slices r2) = isGoodHeader (slices r1)) as Eg by (unfold isGoodHeader; by rewrite A1).
  split; try congruence.
  - intros Hg. rewrite B3, A3 by congruence. done.
  - auto.
  - exists (n1 ++ n2). rewrite B7, A7, app_assoc. split; [done|]. split; [|split; [|split; [|split; [|split]]]].
    + apply Forall_app. split; [done|]. eapply Forall_impl; [exact B8|]. intros c. by apply call_ok_same.
    + apply (reads_app _ (slices r2)); [congruence|done|done|done].
    + intros Hg Hc. destruct B12 as [Hc2|[x Hx]]; [congruence|done| |right; exists x; apply elem_of_app; by right].
      destruct (A12 Hg Hc2) as [?|[x Hx]]; [by left|right; exists x; apply elem_of_app; by left].
    + intros i x Hx Hl. destruct (B9 i x Hx Hl) as [(y & Hy & Hly)|Hin].
      * destruct (A9 i y Hy Hly) as [?|?]; [by left|right]. apply elem_of_app. by left.
      * right. apply elem_of_app. right. unfold read_number in *. by rewrite <- Eg.
    + intros He P HP o Ho. rewrite after_calls_app. apply B10; [done| |done]. apply A10; [by apply B5|done].
    + intros Hu. apply (keeps_calls_trans r1 r2); [done|done|by apply A13|]. apply B13. unfold uses_cache in *. by rewrite A1.
Qed.

(** *** Frames *)

Definition quiet_call (s : Slices) (c : Call) : Prop := (forall o, c <> Cancel o) /\ (forall n b, c <> Put n b)
  /\ forall n, c = GetWithSizes 0 n -> headerMode s = Good -> changedSinceCache (header s) = false.

(** The slices, the loader and the cache stay as they are. *)
Record calm (r r' : Reader) : Prop := {
  cm_size : loaderSize r' = loaderSize r;
  cm_slices : slices r' = slices r;
  cm_offsets : loadingOffsets r' = loadingOffsets r;
  cm_helper : helper_results r' = helper_results r /\ (cacheHelper r' = None <-> cacheHelper r = None) /\ (sizes <$> cacheHelper r') = (sizes <$> cacheHelper r);
  cm_parts : loadedParts r' = loadedParts r;
  cm_error : streamingError r' = streamingError r;
  cm_active : streamingActive r' = streamingActive r;
  cm_calls : exists new, calls r' = calls r ++ new /\ Forall (call_ok (slices r)) new /\ Forall (quiet_call (slices r)) new }.

Lemma calm_refl (r : Reader) : calm r r.
Proof. split; try done. exists []. by rewrite app_nil_r. Qed.

Lemma calm_trans (r1 r2 r3 : Reader) : calm r1 r2 -> calm r2 r3 -> calm r1 r3.
Proof.
  intros [A0 A1 A2 (A3 & A4 & A5) A6 A7 A8 (n1 & A10 & A11 & A12)] [B0 B1 B2 (B3 & B4 & B5) B6 B7 B8 (n2 & B10 & B11 & B12)].
  split; try congruence.
  - split_and!; [congruence| |congruence]. by rewrite B4.
  - exists (n1 ++ n2). rewrite B10, A10, app_assoc, !Forall_app, <- A1. by rewrite <- A1 in A11, A12.
Qed.

#[export] Instance calm_preorder : PreOrder calm.
Proof. split; [exact calm_refl|exact calm_trans]. Qed.
#[export] Instance steady_preorder : PreOrder steady.
Proof. split; [exact steady_refl|exact steady_trans]. Qed.

Lemma no_cancel (s : Slices) (l : list Call) (P : Z -> Prop) (o : Z) : Forall (quiet_call s) l -> P o -> after_calls l P o.
Proof.
  intros Hl. revert P. induction Hl as [|c l (Hc & _) Hl IH]; intros P Ho; [done|]. apply IH. destruct c; try done; [by right|]. by destruct (Hc offset).
Qed.

Lemma calm_steady (r r' : Reader) : calm r r' -> steady r r'.
Proof.
  intros [A0 A1 A2 (A3 & A4 & A5) A6 A7 A8 (n1 & A10 & A11 & A12)]. split; rewrite ?A1; try done; [by rewrite A7|].
  exists n1. split_and!; try done; [|by left|intros i x Hx Hl; left; by exists x| |].
  - intros Eg a n b ->. apply Forall_app in A12 as [_ [(_ & _ & Hq) _]%Forall_cons]. left. by apply (Hq n).
  - intros _ P HP o Ho. rewrite A2 in Ho. rewrite A6. destruct (HP o Ho) as [?|?]; [left; by apply (no_cancel (slices r))|by right].
  - intros _. rewrite Forall_forall in A12. apply keeps_same; [|intros i y Hy Hl; exists y; by rewrite A1 in Hy|by rewrite A2].
    intros n b Hb. destruct (A12 _ Hb) as (_ & Hp & _). by apply (Hp n b).
Qed.

Lemma calm_main (r r' : Reader) : calm r r' -> main r -> main r'.
Proof.
  intros [A0 A1 A2 (A3 & A4 & A5) A6 A7 A8 _] H. pose proof H as []. split; rewrite ?A0, ?A1, ?A2, ?A3, ?A6; try done; [by rewrite A4|].
  intros h Hh. unfold helper_results in A3. destruct (cacheHelper r) as [h0|] eqn:E; [|by rewrite (proj2 A4) in Hh]. rewrite Hh in A3, A5.
  simpl in A3, A5. injection A5 as ->. rewrite A3. by apply (mn_sizes _ H).
Qed.

(** *** The slices inside of a reader *)

Lemma wp_on_slices {A} (m : M Slices A) (Q : A -> Reader -> Prop) (r : Reader) :
  wp m (fun a s => Q a (set_slices s r)) (slices r) -> wp (on_slices m) Q r.
Proof. unfold wp, on_slices. by destruct (m (slices r)) as [[a s]|]. Qed.

Lemma each_on_slices {A} (f : A -> M Slices unit) (l : list A) (r : Reader) : each (fun x => on_slices (f x)) l r = on_slices (each f l) r.
Proof.
  revert r. induction l as [|x l IH]; intros r; [by destruct r|]. cbn [each]. unfold bind, on_slices at 1 3. destruct (f x (slices r)) as [[[] s]|]; [|done].
  rewrite IH. unfold on_slices. simpl. by destruct (each f l s) as [[[] s']|].
Qed.

(** *** What the cache answered *)

Record took (r r' : Reader) : Prop := {
  tk_same : loaderSize r' = loaderSize r /\ loadingOffsets r' = loadingOffsets r /\ loadedParts r' = loadedParts r /\ streamingError r' = streamingError r
    /\ streamingActive r' = streamingActive r /\ filling r' = filling r /\ calls r' = calls r /\ offsetsForDownloader r' = offsetsForDownloader r
    /\ downloaderOffsetRequests r' = downloaderOffsetRequests r /\ (cacheHelper r' = None <-> cacheHelper r = None);
  tk_sleeping : sleeping r' = sleeping r;
  tk_helper : forall h, cacheHelper r' = Some h -> results h = ∅ /\ sizes h = [];
  tk_slices : (streamingError r <> None \/ cacheHelper r = None) /\ slices r' = slices r
    \/ streamingError r = None /\ results_done C S (helper_results r) (slices r) (slices r') }.

Lemma fit_empty (s' : Slices) : (headerMode s' = Good -> forall x o, data s' !! 0%nat = Some x -> loadedFromCache x = false -> 0 <= o < kInSlice ->
    is_Some (parts (header s') !! o) -> parts x !! o = None) -> results_fit C S ∅ s'.
Proof. intros H. by split. Qed.

Lemma took_main (r r' : Reader) : main r -> took r r' -> main r'.
Proof.
  intros H [(T1 & T2 & T3 & _ & _ & _ & _ & _ & _ & T4) _ Th Ts]. pose proof H as [].
  assert (helper_results r' = ∅) as Er by (unfold helper_results; destruct (cacheHelper r') as [h|]; [by apply Th|done]).
  destruct Ts as [[_ Es]|[_ [R1 R2 R6 R3 R4 R5]]].
  - split; rewrite ?T1, ?T2, ?T3, ?Es, ?Er; try done.
    + by rewrite T4.
    + apply fit_empty, (rf_first _ _ _ _ (mn_results _ H)).
    + intros h Hh. destruct (Th h Hh) as [? ->]. split; [by left|done].
  - assert (headerMode (slices r) = Unknown -> loadingFromCache (header (slices r)) = true -> offs (loadingOffsets r) = []) as Hw by exact (mn_waits _ H).
    destruct (bool_decide_reflect (headerMode (slices r) = Unknown)) as [Em|Em]; cbn [andb] in R2; [destruct (loadingFromCache (header (slices r))) eqn:El|].
    + assert (offs (loadingOffsets r) = []) as Eo by (by apply (mn_waits _ H)). split; rewrite ?T1, ?T2, ?T3, ?Er, ?Eo; try done.
      * by intros o ?%not_elem_of_nil.
      * intros Eu Hl Hp. destruct (_ !! 0) as [p|]; [|destruct R2; congruence]. destruct R2 as (E1 & _ & E3). rewrite E3 in Eu.
        destruct (bool_decide_reflect (p = ∅)) as [E|E]; [congruence|]. unfold good_from in Eu. destruct (SlicesFacts.full S), (ComputeIsGoodHeader S p); done.
      * rewrite T4, (mn_helper _ H), Em. split; [done|]. destruct (_ !! 0) as [p|].
        -- destruct R2 as (_ & _ & ->). unfold good_from. destruct (bool_decide _), (SlicesFacts.full S), (ComputeIsGoodHeader S p); done.
        -- destruct R2 as [-> _]. done.
      * intros h Hh. destruct (Th h Hh) as [? ->]. split; [by left|done].
    + destruct R2 as (E1 & E2 & E3). split; rewrite ?T1, ?T2, ?T3, ?Er; try done.
      * intros o Ho. destruct (mn_loading _ H o Ho) as [? ?]. split; [done|]. apply R3; [done|done|]. intros p. by apply (mn_clear _ H).
      * congruence.
      * rewrite E2, R6 by done. intros _ _. by apply (mn_header _ H).
      * rewrite E1, T4. apply (mn_helper _ H).
      * intros h Hh. destruct (Th h Hh) as [? ->]. split; [by left|done].
    + destruct R2 as (E1 & E2 & E3). split; rewrite ?T1, ?T2, ?T3, ?Er; try done.
      * intros o Ho. destruct (mn_loading _ H o Ho) as [? ?]. split; [done|]. apply R3; [done|done|]. intros p. by apply (mn_clear _ H).
      * congruence.
      * congruence.
      * rewrite E1, T4. apply (mn_helper _ H).
      * intros h Hh. destruct (Th h Hh) as [? ->]. split; [by left|done].
Qed.

End Facts.
