(* ===== verification/ReaderSteps.v ===== *)
(** * Streaming: the steps of a reader

    What came from the cache and from the loader goes to the slices, and what is
    asked for is read, loaded or written; nothing fails. *)

From S2P Require Import Prelude Tcp StateMonad DownloadQueue Streaming SliceCache Slices CacheFacts SliceFacts SlicesFacts SlicesWrite SlicesFill SlicesRead Reader ReaderFacts.

Section Steps.
Context (C : Z -> Z) (S : Z).
Hypothesis size_positive : 0 < S.
Hypothesis size_bound : S <= 510 * kInSlice.

#[local] Abbreviation sound := (sound C S).
#[local] Abbreviation full := (full S).
#[local] Abbreviation slice_count := (slice_count S).
#[local] Abbreviation absent := (absent S).
#[local] Abbreviation on_grid := (on_grid S).
#[local] Abbreviation part := (part C S).
#[local] Abbreviation main := (main C S).
#[local] Abbreviation down := (down C S).
#[local] Abbreviation took := (took C S).
#[local] Abbreviation steady := (steady C S).
#[local] Abbreviation calm := (calm C S).

(** ** What the cache answered *)

Lemma entries_least (m : gmap Z PartsMap) (k : Z) (p : PartsMap) : (forall n, is_Some (m !! n) -> k <= n) -> m !! k = Some p ->
  exists rest, entries m = (k, p) :: rest.
Proof.
  intros Hk Hp. pose proof (entries_sorted m) as Hs. assert ((k, p) ∈ entries m) as Hin by (by apply elem_of_entries).
  destruct (entries m) as [|[n q] rest] eqn:E; [by apply not_elem_of_nil in Hin|]. exists rest. apply elem_of_cons in Hin as [<-|Hin]; [done|].
  inversion Hs as [|? ? _ Hf]; subst. rewrite Forall_forall in Hf. specialize (Hf _ Hin). simpl in Hf.
  assert (m !! n = Some q) as Hn by (apply elem_of_entries; rewrite E; left). specialize (Hk n ltac:(by eexists)). lia.
Qed.

(** The header comes with the first slice, when it is a good one. *)
Lemma good_second (res : gmap Z PartsMap) (s s' : Slices) (n : Z) (p : PartsMap) (rest : list (Z * PartsMap)) : results_fit C S res s ->
  results_done C S res s s' -> entries res = (n, p) :: rest -> (n =? 0) && isGoodHeader s' && negb (bool_decide (fst <$> head rest = Some 1)) = false.
Proof.
  intros Hf Hd E. destruct (Z.eqb_spec n 0) as [->|]; [|done]. destruct (bool_decide_reflect (headerMode s' = Good)) as [Eg|]; [|unfold isGoodHeader; by rewrite bool_decide_eq_false_2].
  unfold isGoodHeader. rewrite bool_decide_eq_true_2 by done. cbn [andb]. assert (res !! 0 = Some p) as Hp by (apply elem_of_entries; rewrite E; left).
  assert (is_Some (res !! 1)) as [q Hq].
  { pose proof (rd_mode _ _ _ _ _ Hd) as Hm. rewrite Hp in Hm. destruct (bool_decide _ && _).
    - destruct Hm as (_ & _ & Em). rewrite Em in Eg. destruct (good_from_good S p Eg). by apply (rf_included _ _ _ _ Hf p).
    - destruct Hm as (Em & _). apply (rf_good _ _ _ _ Hf); [congruence|by eexists]. }
  assert (forall k, is_Some (res !! k) -> 0 <= k) as Hk by (intros k Hk; pose proof (fit_keys C S res s k Hf Hk); lia).
  rewrite (entries_first res p) in E by done.
  assert (rest = entries (delete 0 res)) as -> by congruence.
  destruct (entries_least (delete 0 res) 1 q) as [rest' ->]; [|by rewrite lookup_delete_ne|done].
  intros k [r [Hne Hr]%lookup_delete_Some]. assert (0 <= k) by (apply Hk; by eexists). lia.
Qed.

Lemma wp_each_slices {A} (f : A -> M Slices unit) (l : list A) (Q : unit -> Reader -> Prop) (r : Reader) :
  wp (each f l) (fun a s => Q a (set_slices s r)) (slices r) -> wp (each (fun x => on_slices (f x)) l) Q r.
Proof. intros H. unfold wp. rewrite each_on_slices. by apply wp_on_slices. Qed.

(** What the download keeps of the cache. *)
Lemma down_results (r r' : Reader) (loaded : gmap Z PartsMap) : down r -> results_fit C S loaded (slices r) ->
  offsetsForDownloader r' = offsetsForDownloader r -> downloaderOffsetRequests r' = downloaderOffsetRequests r ->
  downloaderReadCache r' = map_imap (fun n c => Some (match c with None => loaded !! n | Some p => Some p end)) (downloaderReadCache r) -> down r'.
Proof.
  intros [D1 D2] Hf E1 E2 E3. split; [by rewrite E1, E2|]. rewrite E3. intros n c. rewrite map_lookup_imap.
  destruct (downloaderReadCache r !! n) as [[p|]|] eqn:E; simpl; [| |done]; intros [= <-].
  - by apply (D2 n (Some p)).
  - destruct (D2 n None E) as [Hn _]. split; [done|]. intros p o b Ep Hb. right. destruct (rf_slices _ _ _ _ Hf n p ltac:(lia) Ep) as [_ Ht]. by apply Ht.
Qed.

Lemma processCacheResults_ok (r : Reader) : main r -> down r -> wp processCacheResults (fun b r' => took r r' /\ down r'
  /\ (b = false -> slices r' = slices r)) r.
Proof.
  intros H Hd. pose proof (mn_results _ _ _ H) as Hf. unfold processCacheResults. apply wp_bind, wp_gets. unfold id.
  destruct (cacheHelper r) as [h|] eqn:Eh.
  2:{ apply wp_ret. split_and!; try done. split; [done|done| |left; by split; [right|]]. by rewrite Eh. }
  unfold helper_results in Hf. rewrite Eh in Hf. cbn [from_option] in Hf. destruct (mn_sizes _ _ _ H h Eh) as [Hsz Hsz0].
  apply wp_bind, wp_modify, wp_bind, wp_modify. set (r1 := set_readCache _ _).
  assert (forall s', down (set_slices s' r1)) as Hd1 by (intros s'; by apply (down_results r (set_slices s' r1) (results h))).
  assert (forall s', (streamingError r <> None /\ s' = slices r \/ streamingError r = None /\ results_done C S (results h) (slices r) s') -> took r (set_slices s' r1)) as Htook.
  { intros s' Hs'. split.
    - unfold r1. simpl. rewrite Eh. split_and!; try done.
    - done.
    - intros h' [= <-]. by split.
    - unfold helper_results. rewrite Eh. destruct Hs' as [[? ->]|?]; [left|by right]. split; [by left|done]. }
  destruct (streamingError r) as [e|] eqn:Ee; cbn [is_Some].
  { rewrite bool_decide_eq_true_2 by (by eexists). apply wp_ret. change r1 with (set_slices (slices r) r1). split_and!; [apply Htook; by left|done|done]. }
  rewrite bool_decide_eq_false_2 by (by intros [? ?]).
  apply wp_bind, wp_each_slices. eapply wp_mono.
  { eapply (wp_also _ _ (fun _ s1 => results h = ∅ -> s1 = slices r)); [apply results_read; [apply size_bound|apply (mn_sound _ _ _ H)|exact Hf]|].
    intros [] s1 E E0. rewrite E0 in E. by injection E. }
  intros [] s1 [Hres Hsame]. apply wp_bind.
  assert (forall s2, like s1 s2 -> (results h = ∅ -> s2 = slices r) ->
    wp (good <- gets (fun r => isGoodHeader (slices r)) ;;
        match entries (results h) with
        | [] => ret false
        | (n, _) :: rest => if (n =? 0) && good && negb (bool_decide (fst <$> head rest = Some 1)) then lift None else ret true
        end) (fun b r' => took r r' /\ down r' /\ (b = false -> slices r' = slices r)) (set_slices s2 r1)) as Hend.
  { intros s2 Hs2%Hres Hs2'. apply wp_bind, wp_gets. cbn [slices set_slices]. destruct (entries (results h)) as [|[n p] rest] eqn:E.
    - apply wp_ret. split_and!; [apply Htook; by right|done|]. intros _. by apply Hs2', entries_nil.
    - rewrite (good_second _ _ _ n p rest Hf Hs2 E). apply wp_ret. split_and!; [apply Htook; by right|done|done]. }
  destruct (decide (sizes h = [])) as [Ez|Ez]; [rewrite bool_decide_eq_true_2 by done; by apply wp_ret, Hend|rewrite bool_decide_eq_false_2 by done].
  assert (sound s1) as Hs1 by (apply (rd_sound _ _ _ _ _ (Hres s1 ltac:(done)))). apply wp_on_slices. eapply wp_mono.
  - apply processCachedSizes_ok. destruct Hsz as [?| ->]; [done|]. symmetry. apply (sd_count _ _ _ Hs1).
  - intros [] s2 Hl. apply Hend; [done|]. by intros ?%Hsz0.
Qed.

(** ** Parts from the loader *)

(** One part more. *)
Record gained (o : Z) (s s' : Slices) : Prop := {
  gn_sound : sound s';
  gn_mode : headerMode s' = headerMode s;
  gn_loading : loadingFromCache (header s') = loadingFromCache (header s);
  gn_good : headerMode s = Good -> parts (header s') = parts (header s) /\ changedSinceCache (header s') = changedSinceCache (header s);
  gn_changed : loadedFromCache (header s) = true -> parts (header s') = parts (header s) /\ changedSinceCache (header s') = changedSinceCache (header s)
    \/ changedSinceCache (header s') = true;
  gn_header : forall o', o' <> o -> parts (header s') !! o' = parts (header s) !! o';
  gn_slices : forall i y, data s' !! i = Some y -> exists x, data s !! i = Some x /\ loadingFromCache y = loadingFromCache x /\ loadedFromCache y = loadedFromCache x
    /\ (forall o', base i + o' <> o -> parts y !! o' = parts x !! o') /\ forall o', is_Some (parts x !! o') -> is_Some (parts y !! o') }.

Lemma fed_gained (o : Z) (s s' : Slices) : sound s' -> like s' (fed S o (part o) s) -> gained o s s'.
Proof.
  intros Hs Hl. pose proof (core_eq _ _ (like_header _ _ Hl)) as (P1 & P2 & P3 & P4). pose proof (like_mode _ _ Hl) as Em.
  set (b := full || (headerModeUnknown s && (base.size (parts (header s)) <? kMaxPartsInHeader)%nat)).
  assert (header (fed S o (part o) s) = if b then added o (part o) (header s) else header s) as Eh.
  { unfold fed, b. destruct (SlicesFacts.full S); [done|]. cbn [orb]. by destruct (_ && _). }
  assert (headerMode (fed S o (part o) s) = headerMode s) as Ef by (unfold fed; by destruct (SlicesFacts.full S), (headerModeUnknown s && _)).
  rewrite Eh in P1, P2, P3, P4. split; [done|congruence| | | | |].
  - rewrite P2. destruct b; [apply added_loading|done].
  - intros Eg. rewrite P1, P4. unfold b, headerModeUnknown. rewrite Eg. pose proof (sd_mode _ _ _ Hs) as Hm. unfold mode_ok in Hm. rewrite Em, Ef, Eg in Hm.
    destruct Hm as [-> _]. done.
  - intros Hld. rewrite P1, P4. destruct b; [right|by left]. by rewrite added_changed, Hld, orb_true_r.
  - intros o' Hne. rewrite P1. destruct b; [|done]. rewrite added_parts. by apply lookup_insert_ne.
  - intros i y Hy. destruct (like_lookup _ _ i y Hl Hy) as (z & Hz & (Z1 & Z2 & Z3 & _)%core_eq). rewrite Z1, Z2, Z3.
    assert (data (fed S o (part o) s) = if full then data s else data (in_slice o (part o) s)) as Ed.
    { unfold fed. destruct (SlicesFacts.full S); [done|]. by destruct (_ && _). }
    rewrite Ed in Hz. destruct (SlicesFacts.full S); [by exists z; split_and!|]. unfold in_slice in Hz. simpl in Hz. rewrite list_lookup_alter in Hz.
    destruct (decide (index_of o = i)) as [<-|]; [|by exists z; split_and!]. destruct (data s !! index_of o) as [x|]; [|done]. injection Hz as <-. exists x.
    rewrite added_loading, added_loaded, added_parts. split_and!; try done; [intros o' Hne; apply lookup_insert_ne; lia|].
    intros o' Ho'. apply lookup_insert_is_Some'. by right.
Qed.

Lemma gained_absent (o o' : Z) (s s' : Slices) : gained o s s' -> on_grid o' -> o' <> o -> absent s o' -> absent s' o'.
Proof.
  intros [_ E1 _ E2 _ E3 E4] Ho' Hne. unfold absent. destruct (SlicesFacts.full S); [by rewrite E3|]. intros [A1 A2]. split.
  - intros y Hy. destruct (E4 _ y Hy) as (x & Hx & _ & _ & Hp & _). rewrite Hp by lia. by apply A1.
  - rewrite E1. intros Eg Ei. destruct (E2 Eg) as [-> _]. by apply A2.
Qed.

Lemma gained_first (o : Z) (s s' : Slices) : gained o s s' -> sound s -> absent s o -> 0 <= o -> results_fit C S ∅ s -> results_fit C S ∅ s'.
Proof.
  intros [_ E1 _ E2 _ E3 E4] Hs Ha Ho Hf. apply fit_empty. rewrite E1. intros Eg y o' Hy Hld Ho' Hin. destruct (E2 Eg) as [Ep _]. rewrite Ep in Hin.
  destruct (E4 0%nat y Hy) as (x & Hx & _ & Ex & Hp & _). rewrite Ex in Hld. rewrite Hp; [by apply (rf_first _ _ _ _ Hf Eg x)|]. intros <-.
  unfold absent in Ha. pose proof (sd_mode _ _ _ Hs) as Hm. unfold mode_ok in Hm. rewrite Eg in Hm. destruct Hm as [Ef _]. rewrite Ef in Ha. destruct Ha as [_ Ha].
  unfold base in *. replace (Z.of_nat 0 * kInSlice + o') with o' in * by lia. rewrite Ha in Hin; [by destruct Hin|done|]. apply index_zero; lia.
Qed.

(** What does not change with the slices and the loader. *)
Definition rest (r : Reader) := (loaderSize r, cacheHelper r, loadedParts r, streamingActive r, filling r, calls r,
  (offsetsForDownloader r, downloaderOffsetRequests r, downloaderReadCache r, downloaderOffsetsRequested r), (sleeping r, waiting r)).

Record fed_with (l : list Z) (r r' : Reader) : Prop := {
  fh_rest : rest r' = rest r;
  fh_mode : headerMode (slices r') = headerMode (slices r) /\ loadingFromCache (header (slices r')) = loadingFromCache (header (slices r));
  fh_good : headerMode (slices r) = Good -> parts (header (slices r')) = parts (header (slices r)) /\ changedSinceCache (header (slices r')) = changedSinceCache (header (slices r));
  fh_reading : forall i y, data (slices r') !! i = Some y -> loadingFromCache y = true -> exists x, data (slices r) !! i = Some x /\ loadingFromCache x = true;
  fh_loaded : forall i y, data (slices r') !! i = Some y -> loadedFromCache y = true ->
    exists x, data (slices r) !! i = Some x /\ loadedFromCache x = true /\ forall o, is_Some (parts x !! o) -> is_Some (parts y !! o);
  fh_offsets : forall o, o ∈ offs (loadingOffsets r') -> o ∈ offs (loadingOffsets r);
  fh_done : streamingError r' = None -> streamingError r = None /\ forall o, o ∈ offs (loadingOffsets r') -> o ∉ l }.

(** What [fill] and the download have besides. *)
Definition side (r : Reader) := (filling r, sleeping r, (offsetsForDownloader r, downloaderOffsetRequests r, downloaderReadCache r)).

Lemma side_down (r r' : Reader) : side r' = side r -> down r -> down r'.
Proof. intros [= _ _ E1 E2 E3] [D1 D2]. split; [by rewrite E1, E2|by rewrite E3]. Qed.

Lemma fed_with_cons (o : Z) (l : list Z) (r1 r2 r3 : Reader) : fed_with [o] r1 r2 -> fed_with l r2 r3 -> fed_with (o :: l) r1 r3.
Proof.
  intros [A1 [A2 A3] A4 A5 A8 A6 A7] [B1 [B2 B3] B4 B5 B8 B6 B7]. split; try (split; congruence); try congruence.
  - intros Eg. destruct B4 as [-> ->]; [congruence|]. by apply A4.
  - intros i z Hz Hlz. destruct (B5 i z Hz Hlz) as (y & Hy & Hly). by apply (A5 i y).
  - intros i z Hz Hlz. destruct (B8 i z Hz Hlz) as (y & Hy & Hly & Hyz). destruct (A8 i y Hy Hly) as (x & Hx & Hlx & Hxy). exists x. split_and!; auto.
  - intros x Hx. by apply A6, B6.
  - intros He. destruct (B7 He) as [He2 Hd]. destruct (A7 He2) as [He1 Hd1]. split; [done|]. intros x Hx [->|?]%elem_of_cons; [|by apply (Hd x)].
    apply (Hd1 o); [by apply B6|by left].
Qed.

(** One part from the loader. *)
Lemma processLoadedPart_ok (p : Z * list Z) (r : Reader) : main r -> helper_results r = ∅ -> loadedParts r = [] ->
  (on_grid p.1 -> p.2 = part p.1) -> wp (processLoadedPart p) (fun _ r' => main r' /\ fed_with [p.1] r r' /\ streamingError r' = streamingError r) r.
Proof.
  intros H Hr Hl Hp. unfold processLoadedPart. apply wp_bind, wp_gets. unfold id. pose proof (mn_queue _ _ _ H) as Hq.
  destruct (offs_remove p.1 _ Hq) as [E2 Hoffs]. destruct (remove_ok p.1 _ Hq) as [Hq' _]. destruct (remove_value p.1 (loadingOffsets r)) as [q there]. simpl in *.
  apply wp_bind, wp_modify. assert (loaderSize r = S) as Esz by apply H. assert (results_fit C S ∅ (slices r)) as Hfit by (rewrite <- Hr; apply H). destruct there.
  - symmetry in E2. apply bool_decide_eq_true in E2. destruct (mn_loading _ _ _ H _ E2) as [Hg Ha]. rewrite (Hp Hg). apply wp_on_slices. eapply wp_mono.
    { apply processPart_ok; [done|apply (mn_sound _ _ _ H)|done|done|]. intros Eu. destruct (loadingFromCache _) eqn:El; [|done]. simpl in *.
      rewrite (mn_waits _ _ _ H Eu El) in E2. by apply not_elem_of_nil in E2. }
    intros [] s' [Hs' Hlike]. apply fed_gained in Hlike as G; [|done]. cbn [slices set_offsets] in *. split; [|split; [|done]].
    + assert (~ (headerMode (slices r) = Unknown /\ loadingFromCache (header (slices r)) = true)) as Hnot.
      { intros [Eu El]. rewrite (mn_waits _ _ _ H Eu El) in E2. by apply not_elem_of_nil in E2. }
      split; try (by apply H); try done; cbn [slices set_slices loadingOffsets set_offsets cacheHelper].
      * intros o [Ho Hne]%Hoffs. destruct (mn_loading _ _ _ H o Ho) as [? ?]. split; [done|]. by apply (gained_absent p.1 o (slices r)).
      * rewrite (gn_mode _ _ _ G), (gn_loading _ _ _ G). intros Eu El. by destruct Hnot.
      * rewrite (gn_mode _ _ _ G), (gn_loading _ _ _ G). intros Eu El Hne. destruct (gn_changed _ _ _ G) as [[E3 ->]|]; [|by apply (mn_header _ _ _ H); [| |by rewrite <- E3]|done].
        pose proof (sd_mode _ _ _ (mn_sound _ _ _ H)) as Hm. unfold mode_ok in Hm. rewrite Eu in Hm. destruct Hm as (_ & -> & _). by rewrite El.
      * rewrite (gn_mode _ _ _ G). apply (mn_helper _ _ _ H).
      * change (results_fit C S (helper_results r) s'). rewrite Hr. apply (gained_first p.1 (slices r)); [done|apply (mn_sound _ _ _ H)|done|apply Hg|done].
      * change (helper_results (set_slices s' (set_offsets q r))) with (helper_results r). by rewrite Hr.
    + split; [done| | | | | |]; cbn [slices set_slices loadingOffsets set_offsets streamingError].
      * by rewrite (gn_mode _ _ _ G), (gn_loading _ _ _ G).
      * apply (gn_good _ _ _ G).
      * intros i y Hy Hly. destruct (gn_slices _ _ _ G i y Hy) as (x & Hx & Ex & _). exists x. split; [done|congruence].
      * intros i y Hy Hly. destruct (gn_slices _ _ _ G i y Hy) as (x & Hx & _ & Ex & _ & Hxy). exists x. split_and!; [done|congruence|done].
      * by intros o [Ho _]%Hoffs.
      * intros He. split; [done|]. intros o [_ Hne]%Hoffs. by rewrite list_elem_of_singleton.
  - symmetry in E2. apply bool_decide_eq_false in E2. apply wp_ret. split; [|split; [|done]].
    + split; try (by apply H); try done; cbn [slices set_slices loadingOffsets set_offsets].
      * intros o [Ho _]%Hoffs. by apply (mn_loading _ _ _ H).
      * intros Eu El. pose proof (mn_waits _ _ _ H Eu El) as E0. destruct (offs q) as [|o k]; [done|].
        assert (o ∈ offs (loadingOffsets r)) as Ho by (apply Hoffs; left). rewrite E0 in Ho. by apply not_elem_of_nil in Ho.
      * intros o b [Ho _]%Hoffs. by apply (mn_clear _ _ _ H).
    + split; [done|done|done| | | |]; cbn [slices set_slices loadingOffsets set_offsets streamingError].
      * intros i y Hy Hly. by exists y.
      * intros i y Hy Hly. by exists y.
      * by intros o [Ho _]%Hoffs.
      * intros He. split; [done|]. intros o [_ Hne]%Hoffs. by rewrite list_elem_of_singleton.
Qed.

Lemma fed_with_refl (r : Reader) : fed_with [] r r.
Proof.
  split; try done; [intros i y Hy Hl; by exists y..|]. intros He. split; [done|]. intros o _. apply not_elem_of_nil.
Qed.

Lemma processParts_ok (l : list (Z * list Z)) (r : Reader) : main r -> helper_results r = ∅ -> loadedParts r = [] -> streamingError r = None ->
  (forall p, p ∈ l -> valid_part S p = true -> on_grid p.1 -> p.2 = part p.1) ->
  wp (processParts l) (fun b r' => main r' /\ fed_with l.*1 r r' /\ (b = false -> streamingError r' <> None)) r.
Proof.
  revert r. induction l as [|p l IH]; intros r H Hr Hl He Hp; [by apply wp_ret; split_and!; [|apply fed_with_refl|]|]. cbn [processParts].
  apply wp_bind, wp_gets. unfold id. assert (loaderSize r = S) as -> by apply H. destruct (valid_part S p) eqn:Ev; cbn [negb].
  - apply wp_bind. eapply wp_mono; [apply (processLoadedPart_ok p r H Hr Hl); intros Hg; apply Hp; [by left|done|done]|].
    intros [] r1 (H1 & F1 & E1). assert (rest r1 = rest r) as Er by apply F1. eapply wp_mono; [apply IH|].
    + done.
    + unfold helper_results in *. injection Er as _ -> _. done.
    + injection Er as _ _ -> _. done.
    + congruence.
    + intros q Hq. apply Hp. by right.
    + intros b r2 (H2 & F2 & E2). split_and!; [done|by apply (fed_with_cons _ _ r r1)|done].
  - apply wp_bind, wp_modify, wp_ret. split; [by split; try apply H|]. split; [|done]. split; try done; intros i y Hy Hly; by exists y.
Qed.

Lemma processLoadedParts_ok (r : Reader) : main r -> helper_results r = ∅ -> wp processLoadedParts (fun b r' => main r' /\ steady r r' /\ side r' = side r
  /\ (b = false -> streamingError r' = None -> slices r' = slices r /\ loadingOffsets r' = loadingOffsets r)) r.
Proof.
  intros H Hr. unfold processLoadedParts. apply wp_bind, wp_gets. unfold id. destruct (streamingError r) as [e|] eqn:Ee.
  { rewrite bool_decide_eq_true_2 by (by eexists). apply wp_ret. split; [done|]. split; [apply steady_refl|done]. }
  rewrite bool_decide_eq_false_2 by (by intros [? ?]). apply wp_bind, wp_modify. set (r1 := set_loadedParts [] r).
  assert (main r1) as H1 by (split; try apply H; by intros ? ?%not_elem_of_nil).
  destruct (decide (loadedParts r = [])) as [El|El].
  { rewrite El. cbn [processParts]. apply wp_bind, wp_ret, wp_ret. unfold r1. split; [done|]. split; [|done].
    replace (set_loadedParts [] r) with r by (rewrite <- El; by destruct r). apply steady_refl. }
  rewrite (bool_decide_eq_false_2 (loadedParts r = [])) by done. apply wp_bind. eapply wp_mono; [by apply processParts_ok; try done; apply (mn_parts _ _ _ H)|].
  intros b r2 (H2 & F & Eb). apply wp_ret. split; [done|]. rewrite andb_true_r.
  destruct F as [F1 [F2 F3] F4 F5 F8 F6 F7]. injection F1 as R1 R2 R3 R4 R5 R6 D1 D2 D3 _ D5 _. simpl in *.
  split; [|split; [unfold side; congruence|by intros ? ?; destruct Eb]]. split; try done.
  - intros Hg. by apply F4.
  - unfold helper_results. by rewrite R2.
  - exists []. rewrite app_nil_r. split_and!; [done|done|apply reads_nil|intros Hg; destruct (F4 Hg) as [_ ->]; by left| | |].
    + intros i x Hx Hlx. left. by apply (F5 i x).
    + intros He P HP o Ho. destruct (F7 He) as [_ Hd]. destruct (HP o (F6 o Ho)) as [?|Hin]; [by left|]. by destruct (Hd o Ho).
    + intros _. apply keeps_same; [intros n b0; apply not_elem_of_nil|exact F8|exact F6].
Qed.

(** ** Filling *)

Lemma entry_of_honest (n : nat) (bytes : list Z) (s : Slices) (x : Slice) : sound s -> at_ n s = Some x ->
  ParseCacheEntry bytes n S = Some (entry_of n s) -> entry_honest C S n bytes /\ (headerMode s = Good -> n = O -> header_entry S (parts (header s)) bytes).
Proof.
  intros Hs Hx Hp. split.
  - exists (entry_of n s). unfold entry_of in *. rewrite Hx in *. cbn [from_option parsed included] in *. split_and!; [done| | |].
    + by apply (at_true C S n s).
    + intros -> Ef. injection Hx as <-. by apply (sd_many _ _ _ Hs).
    + intros p. destruct (_ && _); [|done]. intros [= <-]. destruct (data s !! 0%nat) as [y|] eqn:Ey; simpl.
      * apply (true_rest C S). apply (sd_slice _ _ _ Hs 0%nat y Ey).
      * intros o b [Hb _]%map_lookup_filter_Some. done.
  - intros Eg ->. exists (entry_of 0 s). unfold entry_of in *. injection Hx as <-. unfold isGoodHeader in *. rewrite Eg, bool_decide_eq_true_2 in * by done.
    cbn [Nat.eqb andb included parsed at_ from_option]. split_and!; [done|by eexists|done].
Qed.

(** What [fill] does to the slices, and what it is to read and to write. *)
Record turned (s s' : Slices) (nums : list nat) (w : option SerializedSlice) : Prop := {
  tn_sound : sound s';
  tn_fewer : fewer s s';
  tn_loading : loadingFromCache (header s') = loadingFromCache (header s);
  tn_changed : changedSinceCache (header s') = changedSinceCache (header s) \/ exists bytes, w = Some (mk_serialized 0 bytes);
  tn_first : results_fit C S ∅ s -> results_fit C S ∅ s';
  tn_reading : forall i y, data s' !! i = Some y -> loadingFromCache y = true -> i ∈ nums \/ exists x, data s !! i = Some x /\ loadingFromCache x = true;
  tn_nums : forall i, i ∈ nums -> headerMode s <> Unknown /\ headerMode s <> NoCache /\ (i < slice_count)%nat
    /\ (headerMode s = Good -> i = 0%nat -> changedSinceCache (header s) = false);
  tn_written : forall x, w = Some x -> headerMode s <> Unknown /\ headerMode s <> NoCache /\ (number x <= slice_count)%nat
    /\ (number x = O -> headerMode s = Good) /\ call_ok C S s (Put (number x) (serialized x));
  tn_loaded : forall i y, data s' !! i = Some y -> loadedFromCache y = true -> (forall x, w = Some x -> number x <> read_number s i)
    /\ exists x, data s !! i = Some x /\ loadedFromCache x = true /\ parts y = parts x;
  tn_holds : forall x i o, w = Some x -> number x = read_number s i -> holds S (isGoodHeader s) i (serialized x) o ->
    exists y, data s !! i = Some y /\ is_Some (parts y !! o) }.

(** An entry has the parts of its slice. *)
Lemma entry_holds (s : Slices) (i j : nat) (bytes : list Z) (o : Z) : sound s -> headerMode s <> Unknown ->
  ParseCacheEntry bytes (read_number s i) S = Some (entry_of (read_number s i) s) -> holds S (isGoodHeader s) i bytes o ->
  exists y, data s !! i = Some y /\ is_Some (parts y !! o).
Proof.
  intros Hs Hu Hp. unfold holds, read_number in *. destruct (isGoodHeader s && (i =? 0)%nat) eqn:E.
  - apply andb_true_iff in E as [Eg ->%Nat.eqb_eq]. intros (e & p & He & Hi & Ho). rewrite Hp in He. injection He as <-.
    unfold entry_of in Hi. rewrite Eg in Hi. simpl in Hi. injection Hi as <-. destruct Ho as [b [Ho _]%map_lookup_filter_Some].
    destruct (data s !! 0%nat) as [y|]; [|simpl in Ho; by rewrite lookup_empty in Ho]. exists y. split; [done|by eexists].
  - intros (e & He & [b Hb]). rewrite Hp in He. injection He as <-. unfold entry_of in Hb. simpl in Hb.
    destruct (data s !! i) as [y|]; [|simpl in Hb; by rewrite lookup_empty in Hb]. exists y. split; [done|by eexists].
Qed.

Lemma target_reads (s : Slices) (i : nat) : target (Datatypes.S i) s = read_number s i.
Proof. unfold target, read_number. by destruct i. Qed.

Lemma unloaded (i j : nat) (d : list Slice) (y : Slice) : alter unloadSlice i d !! j = Some y ->
  loadingFromCache y = true \/ loadedFromCache y = true -> d !! j = Some y.
Proof.
  rewrite list_lookup_alter. destruct (decide (i = j)) as [->|]; [|done]. destruct (d !! j) as [z|]; [|done]. intros [= <-] [?|?]; done.
Qed.

Lemma first_unloaded (s s' : Slices) : headerMode s' = headerMode s -> parts (header s') = parts (header s) ->
  (forall y, data s' !! 0%nat = Some y -> parts y = ∅ \/ exists x, data s !! 0%nat = Some x /\ parts y = parts x /\ loadedFromCache y = loadedFromCache x) ->
  results_fit C S ∅ s -> results_fit C S ∅ s'.
Proof.
  intros Em Ep Hd Hf. apply fit_empty. rewrite Em, Ep. intros Eg y o Hy Hld Ho Hin. destruct (Hd y Hy) as [->|(x & Hx & -> & Ex)]; [done|].
  apply (rf_first _ _ _ _ Hf Eg x); [done|congruence|done|done].
Qed.

Lemma purge_turned (s s' : Slices) (u : list nat) (w : option SerializedSlice) : sound s -> sound s' -> purge C S (set_used u s) w s' -> turned s s' [] w.
Proof.
  intros Hs Hs' Hp. assert (fewer s s') as Hf by (apply fewer_purge in Hp; by destruct Hp). pose proof Hf as [F1 F2 _].
  destruct Hp as [s' Hd Hh Hm|i u' x Hx Hld Hc Hg|i u' x bytes Hx Hw Hpc].
  - split; try done.
    + by rewrite Hh.
    + left. by rewrite Hh.
    + apply first_unloaded; [done|done|]. intros y Hy. right. rewrite Hd in Hy. by exists y.
    + intros i y Hy Hl. right. rewrite Hd in Hy. by exists y.
    + by intros i ?%not_elem_of_nil.
    + intros i y Hy Hl. rewrite Hd in Hy. split; [done|by exists y].
  - split; try done.
    + by left.
    + apply first_unloaded; [done|done|]. intros y Hy. simpl in Hy. rewrite list_lookup_alter in Hy. destruct (decide (i = 0%nat)).
      * destruct (data s !! _); [|done]. injection Hy as <-. by left.
      * right. by exists y.
    + intros j y Hy Hl. right. exists y. split; [|done]. apply (unloaded i j _ y Hy). by left.
    + by intros j ?%not_elem_of_nil.
    + intros j y Hy Hl. split; [done|]. exists y. split; [|done]. apply (unloaded i j _ y Hy). by right.
  - set (n := target (Datatypes.S i) (set_used u s)) in *. pose proof (wr_at _ _ _ _ _ Hw) as Hat. destruct (wr_mode _ _ _ _ _ Hw) as [Hm1 Hm2]. simpl in Hm1, Hm2.
    assert (n <= slice_count)%nat as Hn.
    { unfold n, target. destruct (_ && _); [lia|]. simpl in Hx. apply lookup_lt_Some in Hx. rewrite (sd_count _ _ _ Hs) in Hx. lia. }
    assert (n = O -> headerMode s = Good) as Hgood.
    { unfold n, target, isGoodHeader. simpl. destruct (bool_decide_reflect (headerMode s = Good)); [done|]. by destruct i. }
    assert (data (saved n (set_used u s)) = match n with O => alter unloadSlice 0%nat (data s) | Datatypes.S j => alter unloadSlice j (data s) end) as Ed.
    { unfold saved. destruct n as [|j]; [|done]. unfold isGoodHeader. simpl. by rewrite bool_decide_eq_true_2 by (by apply Hgood). }
    split; try done.
    + unfold saved. destruct n; [simpl; by destruct (isGoodHeader (set_used u s))|done].
    + unfold saved. destruct n; [right; by eexists|by left].
    + apply first_unloaded; [done|done|]. intros y Hy. cbn [data set_used] in Hy. rewrite Ed in Hy.
      assert (forall j, alter unloadSlice j (data s) !! 0%nat = Some y -> parts y = ∅ \/ data s !! 0%nat = Some y) as Hcase.
      { intros j. rewrite list_lookup_alter. destruct (decide (j = 0%nat)); [|by right]. destruct (data s !! _); [|done]. intros [= <-]. by left. }
      destruct n; (destruct (Hcase _ Hy) as [?|?]; [by left|right; by exists y]).
    + intros j y Hy Hl. cbn [data set_used] in Hy. rewrite Ed in Hy. right. exists y. split; [|done]. destruct n; (eapply unloaded; [exact Hy|by left]).
    + by intros j ?%not_elem_of_nil.
    + intros x' [= <-]. cbn [number serialized]. split_and!; try done. destruct (entry_of_honest n bytes (set_used u s) _ (wr_sound _ _ _ _ _ Hw) Hat Hpc) as [H1 H2].
      split_and!; done.
    + intros j y Hy Hl. cbn [data set_used] in Hy. rewrite Ed in Hy.
      assert (forall k, alter unloadSlice k (data s) !! j = Some y -> data s !! j = Some y /\ j <> k) as Hcase.
      { intros k Hk. split; [apply (unloaded k j _ y Hk); by right|]. intros ->. rewrite list_lookup_alter, decide_True in Hk by done.
        destruct (data s !! k); [|done]. by injection Hk as <-. }
      split; [|exists y; split; [|done]; destruct n; by destruct (Hcase _ Hy)].
      intros x' [= <-] En. cbn [number] in En. unfold n in En. rewrite target_reads in En. change (read_number s i = read_number s j) in En.
      apply read_number_inj in En as ->. assert (n = read_number s j) as En by (unfold n; by rewrite target_reads).
      unfold read_number in En. destruct (isGoodHeader s && (j =? 0)%nat) eqn:E.
      * apply andb_true_iff in E as [_ ->%Nat.eqb_eq]. rewrite En in Hy. by destruct (Hcase _ Hy).
      * rewrite En in Hy. by destruct (Hcase _ Hy).
    + intros x' j o [= <-]. cbn [number serialized]. intros En. rewrite En in Hpc. apply (entry_holds (set_used u s) j j bytes o); [apply Hw|done|exact Hpc].
Qed.

Lemma filled_turned (offset : Z) (buffer : list Z) (s s' : Slices) (r : FillResult * list Z) (l : list Z) (nums : list nat) : sound s -> sound s' ->
  filled C S offset buffer s r s' l nums -> turned s s' nums (toCache r.1).
Proof.
  intros Hs Hs' Hfd. pose proof (filled_fewer _ _ _ _ _ _ _ _ _ Hfd) as Hf. destruct Hfd as [_ _ _ H]. destruct (state r.1).
  - destruct H as (_ & -> & u & Hp). by apply (purge_turned s s' u).
  - destruct H as (_ & -> & -> & _ & Hn & _). rewrite Forall_forall in Hn.
    assert (header (foldl (fun s i => reading i s) s nums) = header s) as Eh.
    { clear. revert s. induction nums as [|i nums IH]; intros s; [done|]. cbn [foldl]. by rewrite IH. }
    split; try done; rewrite ?Eh; [done|by left| | | |].
    + apply first_unloaded; [apply Hf|apply Hf|]. intros y. rewrite reading_lookup. destruct (decide _); [|right; by exists y].
      destruct (data s !! 0%nat) as [x|]; [|done]. intros [= <-]. right. by exists x.
    + intros i y. rewrite reading_lookup. destruct (decide (i ∈ nums)); [by left|]. right. by exists y.
    + intros i Hi. destruct (Hn i Hi) as (x & Hx & (H1 & H2 & H3)%(not_loaded C S) & _). pose proof (lookup_lt_Some _ _ _ Hx) as Hlt. rewrite (sd_count _ _ _ Hs) in Hlt.
      split_and!; try done. intros Eg ->. pose proof (sd_mode _ _ _ Hs) as Hm. unfold mode_ok in Hm. rewrite Eg in Hm. destruct Hm as (_ & _ & _ & _ & Ha).
      destruct (changedSinceCache (header s)) eqn:Ec; [|done]. destruct (Ha x Hx) as [Hc _]. rewrite Hc in H3; done.
    + intros i y Hy Hl. split; [done|]. rewrite reading_lookup in Hy. destruct (decide (i ∈ nums)); [|by exists y].
      destruct (data s !! i) as [x|]; [|done]. injection Hy as <-. by exists x.
  - destruct H as (_ & -> & -> & -> & _). split; try done; [by left| |by intros i ?%not_elem_of_nil|]; intros i y Hy Hl; [right; by exists y|split; [done|by exists y]].
  - done.
Qed.

(** *** What is called *)

Lemma read_called (i : nat) (r : Reader) : cacheHelper r <> None -> headerMode (slices r) <> Unknown ->
  readFromCache (Datatypes.S i) r = Some (tt, set_calls (calls r ++ [GetWithSizes (read_number (slices r) i) 0]) r).
Proof.
  intros H1 H2. unfold readFromCache, bind, gets, id, headerModeUnknown. rewrite !bool_decide_eq_false_2 by done. rewrite andb_false_r. cbn [orb].
  unfold call, modify. cbv zeta. assert (requestSliceSizesCount (slices r) = O) as -> by (unfold requestSliceSizesCount, headerModeUnknown; by rewrite bool_decide_eq_false_2).
  unfold read_number. rewrite andb_comm. by destruct i.
Qed.

Lemma reads_called (nums : list nat) (r : Reader) : (nums <> [] -> cacheHelper r <> None /\ headerMode (slices r) <> Unknown) ->
  each (fun n => readFromCache (Z.to_nat n)) ((fun i => Z.of_nat (Datatypes.S i)) <$> nums) r
  = Some (tt, set_calls (calls r ++ ((fun i => GetWithSizes (read_number (slices r) i) 0) <$> nums)) r).
Proof.
  revert r. induction nums as [|i nums IH]; intros r H; [cbn; rewrite app_nil_r; by destruct r|]. destruct (H ltac:(done)) as [H1 H2].
  rewrite !fmap_cons. cbn [each]. rewrite Nat2Z.id. unfold bind. rewrite read_called, IH by done. cbn [calls set_calls slices]. by rewrite <- app_assoc.
Qed.

Lemma each_cancel (D : gset Z) (l : list Z) (r : Reader) : exists l', l' ⊆ l
  /\ each (fun o => if bool_decide (o ∈ D) then ret tt else call (Cancel o)) l r = Some (tt, set_calls (calls r ++ (Cancel <$> l')) r).
Proof.
  revert r. induction l as [|o l IH]; intros r; [exists []; cbn; rewrite app_nil_r; by destruct r|]. cbn [each]. unfold bind at 1.
  destruct (bool_decide (o ∈ D)); cbn.
  - destruct (IH r) as (l' & Hl & ->). exists l'. split; [|done]. intros x Hx. right. by apply Hl.
  - destruct (IH (set_calls (calls r ++ [Cancel o]) r)) as (l' & Hl & ->). exists (o :: l'). cbn. rewrite <- app_assoc. split; [|done].
    by apply list_subseteq_skip.
Qed.

Lemma cancels_called (from till : Z) (r : Reader) : queue_ok (loadingOffsets r) -> exists q l,
  cancelLoadInRange from till r = Some (tt, set_calls (calls r ++ (Cancel <$> l)) (set_offsets q r)) /\ queue_ok q
  /\ (forall o, o ∈ offs q <-> o ∈ offs (loadingOffsets r) /\ ~ (from <= o /\ o < till)) /\ Forall (fun o => from <= o /\ o < till) l.
Proof.
  intros Hq. destruct (offs_range from till _ Hq) as (H1 & H2 & H3). unfold cancelLoadInRange, bind, gets, id, modify.
  destruct (takeInRange from till (loadingOffsets r)) as [taken q]. cbn [fst snd] in *.
  destruct (each_cancel (downloaderOffsetsRequested r) (sorted_elements taken) (set_offsets q r)) as (l & Hl & ->).
  exists q, l. split_and!; try done. apply Forall_forall. intros o Ho. by apply H3, elem_of_sorted_elements, Hl.
Qed.

Lemma first_called (o : Z) (r : Reader) : exists q new, checkLoadWillBeFirst o r = Some (tt, set_calls (calls r ++ new) (set_offsets q r))
  /\ (queue_ok (loadingOffsets r) -> queue_ok q) /\ offs q = offs (loadingOffsets r) /\ Forall (fun c => c = ResetPriorities) new.
Proof.
  unfold checkLoadWillBeFirst, bind, gets, id. destruct (_ =? _).
  - exists (loadingOffsets r), []. rewrite app_nil_r. split; [by destruct r|done].
  - exists (resetPriorities (loadingOffsets r)), [ResetPriorities]. split_and!; [done|apply reset_ok|done|by constructor].
Qed.

Lemma loads_called (l : list Z) (r : Reader) : queue_ok (loadingOffsets r) -> exists q k,
  each loadAtOffset l r = Some (tt, set_calls (calls r ++ (Load <$> k)) (set_offsets q r)) /\ queue_ok q /\ k ⊆ l
  /\ (forall o, o ∈ offs q <-> o ∈ l \/ o ∈ offs (loadingOffsets r)) /\ (forall o, o ∈ l -> o ∈ k \/ o ∈ offs (loadingOffsets r)).
Proof.
  revert r. induction l as [|o l IH]; intros r Hq.
  - exists (loadingOffsets r), []. cbn. rewrite app_nil_r. split; [by destruct r|]. split_and!; [done|done| |by intros ? ?%not_elem_of_nil].
    intros o. split; [by right|]. by intros [?%not_elem_of_nil|?].
  - cbn [each]. pose proof (fun x => offs_add o x _ Hq) as Ha. pose proof (offs_add_there o (loadingOffsets r)) as Hthere.
    destruct (add_ok o _ Hq) as [Hq1 _]. set (k0 := if (add o (loadingOffsets r)).2 then [o] else []).
    assert (loadAtOffset o r = Some (tt, set_calls (calls r ++ (Load <$> k0)) (set_offsets (add o (loadingOffsets r)).1 r))) as E.
    { unfold loadAtOffset, bind, gets, id, k0. destruct (add o (loadingOffsets r)) as [q1 [|]]; cbn; by rewrite ?app_nil_r. }
    unfold bind. rewrite E. set (r1 := set_calls _ _). destruct (IH r1 Hq1) as (q & k & -> & Hq2 & Hk & Hoffs & Hin). cbn in Hoffs, Hin |- *. exists q, (k0 ++ k).
    rewrite fmap_app, <- app_assoc. split; [done|]. split; [done|]. split; [|split].
    + unfold k0. intros x [Hx|Hx]%elem_of_app; [|right; by apply Hk]. destruct (add o _).2; [|by apply not_elem_of_nil in Hx].
      apply list_elem_of_singleton in Hx as ->. left.
    + intros x. rewrite Hoffs, Ha, elem_of_cons. tauto.
    + assert (forall x, x = o -> x ∈ k0 \/ x ∈ offs (loadingOffsets r)) as Ho.
      { intros x ->. unfold k0. destruct (add o _).2; [left; left|right; by apply Hthere]. }
      intros x Hx. rewrite elem_of_app. apply elem_of_cons in Hx as [->|Hx]; [destruct (Ho o eq_refl); tauto|].
      destruct (Hin x Hx) as [?|[?|?]%Ha]; [tauto|destruct (Ho x); tauto|tauto].
Qed.

(** All that one turn calls. *)
Record called (s : Slices) (r : Reader) (nums : list nat) (w : option SerializedSlice) (l : list Z) (q : PriorityQueue) (new : list Call) : Prop := {
  cl_queue : queue_ok q;
  cl_offsets : forall o, o ∈ offs q -> o ∈ l \/ o ∈ offs (loadingOffsets r);
  cl_asked : forall o, o ∈ l -> o ∈ offs q;
  cl_new : forall c, c ∈ new -> match c with
    | GetWithSizes n m => exists i, i ∈ nums /\ n = read_number s i /\ m = O
    | Put n bytes => w = Some (mk_serialized n bytes)
    | Load o => o ∈ l
    | Cancel _ | ResetPriorities => True
    | _ => False
    end;
  cl_reads : forall i, i ∈ nums -> GetWithSizes (read_number s i) 0 ∈ new;
  cl_put : forall x, w = Some x -> Put (number x) (serialized x) ∈ new;
  cl_after : forall (P : Z -> Prop) o, o ∈ offs q -> (o ∈ offs (loadingOffsets r) -> P o) -> after_calls new P o }.

Lemma after_loads (k : list Z) (P : Z -> Prop) (o : Z) : after_calls (Load <$> k) P o <-> o ∈ k \/ P o.
Proof.
  revert P. induction k as [|x k IH]; intros P; [split; [by right|by intros [?%not_elem_of_nil|?]]|].
  rewrite fmap_cons. change (after_calls (Load x :: (Load <$> k)) P o) with (after_calls (Load <$> k) (fun y => y = x \/ P y) o).
  rewrite IH, elem_of_cons. tauto.
Qed.

Lemma after_cancels (k : list Z) (P : Z -> Prop) (o : Z) : o ∉ k -> P o -> after_calls (Cancel <$> k) P o.
Proof.
  revert P. induction k as [|x k IH]; intros P Ho HP; [done|]. apply not_elem_of_cons in Ho as [Hne Ho]. by apply IH.
Qed.

Lemma after_others (k : list Call) (P : Z -> Prop) : Forall (fun c => match c with Load _ | Cancel _ => False | _ => True end) k -> after_calls k P = P.
Proof. induction 1 as [|c k Hc Hk IH]; [done|]. destruct c; done. Qed.

Lemma put_called (x : SerializedSlice) (r : Reader) : cacheHelper r <> None ->
  putToCache x r = Some (tt, set_calls (calls r ++ [Put (number x) (serialized x)]) r).
Proof. intros H. unfold putToCache, bind, gets. by rewrite bool_decide_eq_false_2. Qed.

Lemma bind_step {A B} (m : M Reader A) (k : A -> M Reader B) (r r' : Reader) (a : A) : m r = Some (a, r') -> bind m k r = k a r'.
Proof. unfold bind. by intros ->. Qed.

Lemma wp_is {A} (m : M Reader A) (Q : A -> Reader -> Prop) (r r' : Reader) (a : A) : m r = Some (a, r') -> Q a r' -> wp m Q r.
Proof. unfold wp. by intros ->. Qed.

Lemma fill_calls (result : FillResult) (buffer l : list Z) (nums : list nat) (r : Reader) : queue_ok (loadingOffsets r) ->
  values (sliceNumbersFromCache result) = (fun i => Z.of_nat (Datatypes.S i)) <$> nums -> values (fillOffsets result) = l ->
  (nums <> [] -> cacheHelper r <> None /\ headerMode (slices r) <> Unknown) ->
  (forall x, toCache result = Some x -> cacheHelper r <> None /\ (number x = O -> headerMode (slices r) = Good)) ->
  exists q new, (each (fun n => readFromCache (Z.to_nat n)) (values (sliceNumbersFromCache result)) ;;;
    match cacheHelper r, toCache result with
    | Some _, Some slice =>
        if (number slice =? 0)%nat && negb (isGoodHeader (slices r)) then lift None else
        let index := Z.of_nat (Nat.max (number slice) 1 - 1) in
        cancelLoadInRange (index * kInSlice) ((index + 1) * kInSlice) ;;;
        putToCache slice
    | _, _ => ret tt
    end ;;;
    match values (fillOffsets result) with [] => ret tt | first :: _ => checkLoadWillBeFirst first end ;;;
    each loadAtOffset (values (fillOffsets result)) ;;;
    ret (state result, buffer)) r = Some ((state result, buffer), set_calls (calls r ++ new) (set_offsets q r))
    /\ called (slices r) r nums (toCache result) l q new.
Proof.
  intros Hq En El Hr Hw. rewrite En, El. set (reads := (fun i => GetWithSizes (read_number (slices r) i) 0) <$> nums).
  set (r1 := set_calls (calls r ++ reads) r). rewrite (bind_step _ _ r r1 tt) by (by apply reads_called).
  assert (exists q1 puts, (match cacheHelper r, toCache result with
    | Some _, Some slice =>
        if (number slice =? 0)%nat && negb (isGoodHeader (slices r)) then lift None else
        let index := Z.of_nat (Nat.max (number slice) 1 - 1) in
        cancelLoadInRange (index * kInSlice) ((index + 1) * kInSlice) ;;;
        putToCache slice
    | _, _ => ret tt
    end) r1 = Some (tt, set_calls (calls r1 ++ puts) (set_offsets q1 r1)) /\ queue_ok q1 /\ (forall o, o ∈ offs q1 -> o ∈ offs (loadingOffsets r))
    /\ (forall c, c ∈ puts -> match c with Put n bytes => toCache result = Some (mk_serialized n bytes) | Cancel _ => True | _ => False end)
    /\ (forall x, toCache result = Some x -> Put (number x) (serialized x) ∈ puts)
    /\ forall (P : Z -> Prop) o, o ∈ offs q1 -> (o ∈ offs (loadingOffsets r) -> P o) -> after_calls puts P o) as (q1 & puts & E1 & Hq1 & Ho1 & Hp1 & Hp2 & Ha1).
  { destruct (toCache result) as [x|].
    - destruct (Hw x eq_refl) as [Hh Hg]. destruct (cacheHelper r) as [h|] eqn:Eh; [|done].
      assert ((number x =? 0)%nat && negb (isGoodHeader (slices r)) = false) as ->.
      { destruct (Nat.eqb_spec (number x) 0) as [E|]; [|done]. unfold isGoodHeader. by rewrite bool_decide_eq_true_2 by (by apply Hg). }
      cbv zeta. set (index := Z.of_nat _). destruct (cancels_called (index * kInSlice) ((index + 1) * kInSlice) r1 Hq) as (q1 & k & E & Hq1 & Ho1 & Hk).
      unfold bind. rewrite E, put_called by (simpl; by rewrite Eh). exists q1, ((Cancel <$> k) ++ [Put (number x) (serialized x)]). simpl. rewrite <- !app_assoc.
      split_and!; [done|done|by intros o [? _]%Ho1| | |].
      + intros c [(o & -> & _)%list_elem_of_fmap| ->%list_elem_of_singleton]%elem_of_app; [done|]. by destruct x.
      + intros x' [= <-]. apply elem_of_app. right. left.
      + intros P o Ho HP. rewrite after_calls_app. simpl. apply Ho1 in Ho as [Ho Hout]. apply after_cancels; [|by apply HP].
        intros Hin. rewrite Forall_forall in Hk. by apply Hout, Hk.
    - exists (loadingOffsets r), []. simpl. rewrite !app_nil_r. split_and!; try done; [by destruct (cacheHelper r), r|by intros c ?%not_elem_of_nil|]. intros P o Ho HP. by apply HP. }
  rewrite (bind_step _ _ _ _ _ E1). set (r2 := set_calls (calls r1 ++ puts) _).
  assert (exists q2 firsts, match l with [] => ret tt | first :: _ => checkLoadWillBeFirst first end r2 = Some (tt, set_calls (calls r2 ++ firsts) (set_offsets q2 r2))
    /\ queue_ok q2 /\ offs q2 = offs q1 /\ Forall (fun c => c = ResetPriorities) firsts) as (q2 & firsts & E2 & Hq2 & Ho2 & Hf2).
  { destruct l as [|o l']; [exists q1, []; rewrite app_nil_r; by split_and!|]. destruct (first_called o r2) as (q2 & new & E & H1 & H2 & H3). exists q2, new. split_and!; try done. by apply H1. }
  rewrite (bind_step _ _ _ _ _ E2). set (r3 := set_calls (calls r2 ++ firsts) _).
  destruct (loads_called l r3 Hq2) as (q & k & E3 & Hq3 & Hk & Ho3 & Hin). rewrite (bind_step _ _ _ _ _ E3).
  exists q, (reads ++ puts ++ firsts ++ (Load <$> k)). simpl. rewrite <- !app_assoc. split; [done|]. split.
  - done.
  - intros o [?|Ho]%Ho3; [by left|right]. apply Ho1. simpl in Ho. by rewrite <- Ho2.
  - intros o Ho. apply Ho3. by left.
  - intros c Hc. rewrite !elem_of_app in Hc. destruct Hc as [Hc|[Hc|[Hc|Hc]]].
    + apply list_elem_of_fmap in Hc as (i & -> & Hi). by exists i.
    + specialize (Hp1 c Hc). by destruct c.
    + rewrite Forall_forall in Hf2. by rewrite (Hf2 c Hc).
    + apply list_elem_of_fmap in Hc as (o & -> & Ho). by apply Hk.
  - intros i Hi. apply elem_of_app. left. apply list_elem_of_fmap. by exists i.
  - intros x Hx. apply elem_of_app. right. apply elem_of_app. left. by apply Hp2.
  - intros P o Ho HP. rewrite !after_calls_app, after_loads. destruct (decide (o ∈ k)) as [|Hnk]; [by left|right].
    rewrite (after_others firsts) by (eapply Forall_impl; [exact Hf2|by intros c ->]).
    rewrite (after_others reads) by (apply Forall_forall; by intros c (i & -> & _)%list_elem_of_fmap).
    assert (o ∈ offs q1) as Ho'. { rewrite <- Ho2. apply Ho3 in Ho as [Ho|]; [|done]. by destruct (Hin o Ho). }
    by apply Ha1.
Qed.

(** *** One turn *)

Lemma fewer_mode (s s' : Slices) : fewer s s' -> isGoodHeader s' = isGoodHeader s.
Proof. intros [_ E _]. unfold isGoodHeader. by rewrite E. Qed.

Lemma turn_keeps (r : Reader) (s' : Slices) (nums : list nat) (w : option SerializedSlice) (l : list Z) (q : PriorityQueue) (new : list Call) :
  main r -> helper_results r = ∅ -> turned (slices r) s' nums w -> asked S (slices r) l -> called (slices r) r nums w l q new -> uses_cache S (slices r) ->
  keeps S r (set_calls (calls r ++ new) (set_offsets q (set_slices s' r))) new.
Proof.
  intros H Hr T Hl K (Hu & Hn & Ef). unfold asked in Hl. rewrite Forall_forall in Hl.
  assert (forall n b, Put n b ∈ new -> w = Some (mk_serialized n b)) as Hput by (intros n b Hb; exact (cl_new _ _ _ _ _ _ _ K _ Hb)).
  split; cbn [slices set_slices set_offsets set_calls loadingOffsets].
  - intros i y Hy Hly. destruct (tn_loaded _ _ _ _ T i y Hy Hly) as (Hw & x & Hx & Hlx & ->). split; [|by exists x].
    intros b Hb%Hput. by apply (Hw _ Hb).
  - intros o Ho. assert (on_grid o /\ absent (slices r) o) as [Hg Ha].
    { destruct (cl_offsets _ _ _ _ _ _ _ K o Ho) as [Hin|Hin]; [by apply Hl|by apply (mn_loading _ _ _ H)]. }
    unfold absent in Ha. rewrite Ef in Ha. destruct Ha as [Ha _]. split.
    + intros b Hb%Hput Hh. destruct (tn_holds _ _ _ _ T _ (index_of o) _ Hb eq_refl Hh) as (y & Hy & [c Hc]). rewrite (Ha y Hy) in Hc. done.
    + destruct (cl_offsets _ _ _ _ _ _ _ K o Ho) as [Hin|Hin]; [right|by left]. destruct (Hl o Hin) as [_ Hk].
      destruct Hk as [?|[?|[?|(x & Hx & Hlx)]]]; [done|done|congruence|]. exists x. split_and!; [done|done|by apply Ha].
  - done.
Qed.

Lemma turn_ok (r : Reader) (s' : Slices) (nums : list nat) (w : option SerializedSlice) (l : list Z) (q : PriorityQueue) (new : list Call) :
  main r -> helper_results r = ∅ -> turned (slices r) s' nums w -> asked S (slices r) l ->
  (headerMode (slices r) = Unknown -> loadingFromCache (header (slices r)) = true -> l = []) -> called (slices r) r nums w l q new ->
  let r' := set_calls (calls r ++ new) (set_offsets q (set_slices s' r)) in main r' /\ steady r r'.
Proof.
  intros H Hr T Hl Hwait K r'. pose proof (tn_fewer _ _ _ _ T) as F. pose proof F as [F1 F2 _]. unfold asked in Hl. rewrite Forall_forall in Hl. split.
  - split; try (by apply H); try (by apply T); try (by apply K); simpl.
    + intros o [Hin|Hin]%(cl_offsets _ _ _ _ _ _ _ K).
      * destruct (Hl o Hin) as [[? Ha] _]. split; [done|]. by apply (fewer_absent S (slices r)).
      * destruct (mn_loading _ _ _ H o Hin) as [? Ha]. split; [done|]. by apply (fewer_absent S (slices r)).
    + rewrite F2, (tn_loading _ _ _ _ T). intros Eu El. destruct (offs q) as [|o k] eqn:E; [done|]. exfalso.
      assert (o ∈ offs q) as [Hin|Hin]%(cl_offsets _ _ _ _ _ _ _ K) by (rewrite E; left).
      * rewrite Hwait in Hin by done. by apply not_elem_of_nil in Hin.
      * rewrite (mn_waits _ _ _ H Eu El) in Hin. by apply not_elem_of_nil in Hin.
    + rewrite F1, F2, (tn_loading _ _ _ _ T). intros Eu El Hne. destruct (tn_changed _ _ _ _ T) as [->|[bytes Ew]]; [by apply (mn_header _ _ _ H)|].
      by destruct (tn_written _ _ _ _ T _ Ew) as (? & _).
    + rewrite F2. apply (mn_helper _ _ _ H).
    + change (helper_results r') with (helper_results r). rewrite Hr. apply (tn_first _ _ _ _ T). rewrite <- Hr. apply (mn_results _ _ _ H).
    + intros o p _. change (helper_results r') with (helper_results r). by rewrite Hr.
  - split; try done; simpl.
    + apply (tn_loading _ _ _ _ T).
    + exists new. split; [done|]. split; [|split; [|split; [|split; [|split]]]].
      * apply Forall_forall. intros c Hc. pose proof (cl_new _ _ _ _ _ _ _ K c Hc) as Hn. destruct c; simpl; try done.
        -- by destruct (Hl _ Hn) as [[? _] _].
        -- destruct Hn as (i & Hi & -> & ->). destruct (tn_nums _ _ _ _ T i Hi) as (H1 & H2 & H3 & _). split_and!; try done.
           ++ unfold read_number. destruct (_ && _); lia.
           ++ unfold read_number, isGoodHeader. intros ->. rewrite bool_decide_eq_true_2 by done. by destruct i.
           ++ unfold read_number, isGoodHeader. destruct (bool_decide_reflect (headerMode (slices r) = Good)); [done|]. by destruct i.
        -- destruct (tn_written _ _ _ _ T _ Hn) as (_ & _ & _ & _ & Hok). exact Hok.
      * intros Eg a n b ->. left. assert (GetWithSizes 0 n ∈ a ++ GetWithSizes 0 n :: b) as Hin by (apply elem_of_app; right; left).
        apply (cl_new _ _ _ _ _ _ _ K) in Hin. destruct Hin as (i & Hi & En & _). destruct (tn_nums _ _ _ _ T i Hi) as (_ & _ & _ & Hg). apply Hg; [done|].
        unfold read_number in En. by destruct i; [|rewrite andb_false_r in En].
      * intros Eg Hc. destruct (tn_changed _ _ _ _ T) as [E|[bytes Ew]]; [left; congruence|right]. exists bytes. exact (cl_put _ _ _ _ _ _ _ K _ Ew).
      * intros i y Hy Hly. destruct (tn_reading _ _ _ _ T i y Hy Hly) as [Hi|?]; [right|by left]. by apply (cl_reads _ _ _ _ _ _ _ K).
      * intros He P HP o Ho. destruct (decide (o ∈ (loadedParts r).*1)); [by right|left]. apply (cl_after _ _ _ _ _ _ _ K); [done|].
        intros Hin. by destruct (HP o Hin).
      * apply (turn_keeps r s' nums w l q new H Hr T); [by apply Forall_forall|done].
Qed.

Lemma error_steady (e : StreamingError) (r r' : Reader) : steady r r' -> steady r (set_error (Some e) r').
Proof. intros [A1 A2 A3 A4 A5 A6 (new & A7 & A8 & A9 & A10 & A11 & _ & A12)]. split; try done. exists new.
  split_and!; try done. intros Hu. destruct (A12 Hu). by split.
Qed.

Lemma error_main (e : option StreamingError) (r : Reader) : main r -> main (set_error e r).
Proof. intros H. split; apply H. Qed.

Lemma fill_waiting (offset : Z) (buffer : list Z) (s : Slices) : sound s -> 0 <= offset -> buffer <> [] -> len buffer <= kInSlice -> offset + len buffer <= S ->
  headerMode s = Unknown -> loadingFromCache (header s) = true -> fill offset buffer s = Some ((FillResult_new, buffer), s).
Proof.
  intros Hs Ho Hb Hlk Hl Eu El. assert (0 < len buffer) as Hlen by (destruct buffer; [done|unfold len; simpl; lia]). sizes.
  unfold fill, bind at 1, gets, id. rewrite (sd_size _ _ _ Hs), (bool_decide_eq_false_2 (buffer = [])), (proj2 (Z.leb_gt _ _)), !(proj2 (Z.ltb_ge _ _)) by (done || lia).
  cbn [orb]. unfold waitingForHeaderCache. rewrite Eu, El, (flag_one _ (sd_header_flags _ _ _ Hs) El). done.
Qed.

(** What a player waits for. *)
Definition awaits (offset n : Z) (r : Reader) : Prop :=
  loadingFromCache (header (slices r)) = true
  \/ (exists i x, data (slices r) !! i = Some x /\ loadingFromCache x = true /\ base i < offset + n /\ offset < base i + kInSlice)
  \/ exists o, o ∈ offs (loadingOffsets r) /\ offset < o + kPartSize /\ o < offset + n.

Record answered (offset : Z) (buffer : list Z) (x : FillState * list Z) (r r' : Reader) : Prop := {
  an_main : main r';
  an_steady : steady r r';
  an_side : side r' = side r;
  an_right : if decide (x.1 = Success) then x.2 = content C offset (len buffer)
    else x.2 = buffer /\ (streamingError r' = None -> awaits offset (len buffer) r');
  an_failed : x.1 = Failed -> streamingError r' <> None }.

Lemma fillFromSlices_ok (offset : Z) (buffer : list Z) (r : Reader) : main r -> helper_results r = ∅ ->
  0 <= offset -> buffer <> [] -> len buffer <= kInSlice -> offset + len buffer <= S ->
  wp (fillFromSlices offset buffer) (fun x r' => answered offset buffer x r r') r.
Proof.
  intros H Hr Ho Hb Hlk Hl. pose proof (mn_sound _ _ _ H) as Hs. unfold fillFromSlices. apply wp_bind, wp_on_slices.
  eapply wp_mono; [eapply (wp_also _ _ (fun x s' => headerMode (slices r) = Unknown -> loadingFromCache (header (slices r)) = true -> x.1 = FillResult_new));
    [by apply (fill_right C S)|]|].
  { intros x s' E Eu El. rewrite (fill_waiting offset buffer) in E by done. by injection E as <- _. }
  intros [result buffer'] s' ((Hs' & l & nums & Hfd) & Hnew). pose proof (filled_turned _ _ _ _ _ _ _ Hs Hs' Hfd) as T. pose proof Hfd as [V1 Ha V2 Hst].
  simpl in V1, V2, Hst, T, Hnew.
  assert (forall x, toCache result = Some x -> cacheHelper r <> None /\ (number x = O -> headerMode s' = Good)) as Hw.
  { intros x Hx. destruct (tn_written _ _ _ _ T x Hx) as (H1 & H2 & _ & H3 & _). split; [by rewrite (mn_helper _ _ _ H)|].
    intros E. rewrite (fw_mode _ _ (tn_fewer _ _ _ _ T)). by apply H3. }
  assert (nums <> [] -> cacheHelper r <> None /\ headerMode s' <> Unknown) as Hn.
  { intros Hne. destruct nums as [|i k]; [done|]. destruct (tn_nums _ _ _ _ T i ltac:(left)) as (H1 & H2 & _).
    rewrite (mn_helper _ _ _ H), (fw_mode _ _ (tn_fewer _ _ _ _ T)). done. }
  apply wp_bind, wp_gets. unfold id. destruct (_ && headerWontBeFilled _) eqn:Efail.
  - apply andb_true_iff in Efail as [Ef1%negb_true_iff Ef2]. apply bool_decide_eq_false in Ef1.
    apply andb_true_iff in Ef2 as [Eu%bool_decide_eq_true _]. cbn [slices set_slices] in Eu. rewrite (fw_mode _ _ (tn_fewer _ _ _ _ T)) in Eu.
    assert (called (slices r) r nums (toCache result) [] (loadingOffsets r) []) as K.
    { split; [apply H|by right|by intros ? ?%not_elem_of_nil|by intros ? ?%not_elem_of_nil| | |by intros P o Hin HP; apply HP].
      - intros i Hi. by destruct (tn_nums _ _ _ _ T i Hi).
      - intros x Hx. by destruct (tn_written _ _ _ _ T x Hx). }
    destruct (turn_ok r s' nums (toCache result) [] (loadingOffsets r) [] H Hr T) as [Hm Hsteady]; [constructor|done|exact K|].
    rewrite app_nil_r in Hm, Hsteady. apply wp_bind, wp_modify, wp_ret. split; [apply (error_main _ _ Hm)|apply (error_steady _ _ _ Hsteady)|done| |done].
    cbn [fst snd]. rewrite decide_False by done. split; [|done]. destruct (state result); [done|by destruct Hst|by destruct Hst|done].
  - destruct (fill_calls result buffer' l nums (set_slices s' r)) as (q & new & E & K); try done; [apply H|by apply (vec_values _ _ _ V2)|by apply (vec_values _ _ _ V1)|].
    apply (wp_is _ _ _ _ _ E). assert (called (slices r) r nums (toCache result) l q new) as K'.
    { destruct K as [K1 K2 K3 K4 K5 K6 K7]. assert (forall i, read_number s' i = read_number (slices r) i) as Er.
      { intros i. unfold read_number. by rewrite (fewer_mode _ _ (tn_fewer _ _ _ _ T)). }
      split; try done.
      - intros c Hc. specialize (K4 c Hc). destruct c; try done. destruct K4 as (i & ? & -> & ->). exists i. by rewrite <- Er.
      - intros i Hi. rewrite <- Er. by apply K5. }
    destruct (turn_ok r s' nums (toCache result) l q new H Hr T) as [Hm Hsteady]; [done| |exact K'|].
    { intros Eu El. rewrite (Hnew Eu El) in V1. pose proof (vec_values _ _ _ V1) as <-. reflexivity. }
    split; [exact Hm|exact Hsteady|done| |cbn [fst]; intros Ef; by rewrite Ef in Hst]. cbn [fst snd]. destruct (state result).
    + rewrite decide_True by done. by destruct Hst.
    + rewrite decide_False by done. destruct Hst as (-> & _ & -> & _ & _ & i & x & [Hi1 Hi2] & Hx & Hlx). split; [done|]. intros _. right. left. by exists i, x; split_and!.
    + rewrite decide_False by done. destruct Hst as (-> & _ & -> & _ & [Hld|(o & Hin & Hno)]); (split; [done|]); intros _; [by left|right; right].
      exists o. split; [by apply (cl_asked _ _ _ _ _ _ _ K')|done].
    + done.
Qed.

(** ** The loop of [fill] *)

(** What came is taken, and then the slices are filled. *)
Record stepped (r r' : Reader) : Prop := {
  sp_main : main r';
  sp_down : down r';
  sp_way : exists r1, took r r1 /\ down r1 /\ steady r1 r';
  sp_results : helper_results r' = ∅;
  sp_sleeping : sleeping r' = sleeping r }.

Lemma stepped_steady (r r1 r2 : Reader) : stepped r r1 -> steady r1 r2 -> main r2 -> down r2 -> sleeping r2 = sleeping r1 -> stepped r r2.
Proof.
  intros [A1 A2 (r0 & A3 & A7 & A4) A5 A6] Hs Hm Hd Hl. split; [done|done| | |congruence].
  - exists r0. split; [done|]. split; [done|]. by apply (steady_trans C S r0 r1).
  - by rewrite (st_results _ _ _ _ Hs).
Qed.

Lemma took_results (r r' : Reader) : took r r' -> helper_results r' = ∅.
Proof. intros T. unfold helper_results. destruct (cacheHelper r') as [h|] eqn:E; [|done]. by apply (tk_helper _ _ _ _ T). Qed.

Lemma more_ok (r : Reader) : main r -> down r -> wp checkForSomethingMoreReceived (fun b r' => stepped r r' /\ filling r' = filling r
  /\ (b = false -> streamingError r' = None -> slices r' = slices r /\ loadingOffsets r' = loadingOffsets r)) r.
Proof.
  intros H Hd. unfold checkForSomethingMoreReceived. apply wp_bind. eapply wp_mono; [by apply processCacheResults_ok|].
  intros b1 r1 (T & Hd1 & E1). pose proof (took_main _ _ _ _ H T) as H1. pose proof (took_results _ _ T) as R1. apply wp_bind.
  eapply wp_mono; [by apply processLoadedParts_ok|]. intros b2 r2 (H2 & S2 & D2 & E2). pose proof D2 as [= D3 D4 _ _ _]. apply wp_ret.
  destruct (tk_same _ _ _ _ T) as (_ & T1 & _ & _ & _ & T2 & _). split; [|split; [congruence|]].
  - split; [done|by apply (side_down r1)|by exists r1|by rewrite (st_results _ _ _ _ S2)|]. rewrite D4. apply (tk_sleeping _ _ _ _ T).
  - intros [Eb1 Eb2]%orb_false_iff He. destruct (E2 Eb2 He) as [-> ->]. split; [by apply E1|done].
Qed.

Lemma waiting_calm (b : bool) (r : Reader) : exists r', setWaiting b r = Some (tt, r') /\ calm r r' /\ side r' = side r.
Proof.
  eexists. split; [done|]. split; [|done]. split; try done.
  - unfold helper_results. simpl. by destruct (cacheHelper r).
  - exists []. by rewrite app_nil_r.
Qed.

Lemma filling_calm (f : option Filling) (r : Reader) : calm r (set_filling f r).
Proof. split; try done. exists []. by rewrite app_nil_r. Qed.

Definition valid_ask (offset : Z) (buffer : list Z) : Prop := 0 <= offset /\ buffer <> [] /\ len buffer <= kInSlice /\ offset + len buffer <= S.

(** The answer, or what is left to do. *)
Definition turn_done (offset : Z) (buffer : list Z) (a : option (FillState * list Z)) (r' : Reader) : Prop :=
  match a with
  | Some x => filling r' = None /\ (x.1 = Success -> x.2 = content C offset (len buffer)) /\ (x.1 <> Success -> x.2 = buffer)
      /\ (x.1 = Failed -> streamingError r' <> None)
      /\ (x.1 <> Success -> streamingError r' = None -> awaits offset (len buffer) r')
  | None => exists st, filling r' = Some (mk_filling offset buffer st) /\ st <> Success /\ (st = Failed -> streamingError r' <> None)
      /\ (streamingError r' = None -> awaits offset (len buffer) r')
  end.

Lemma fillTurn_ok (offset : Z) (buffer : list Z) (r : Reader) : main r -> down r -> helper_results r = ∅ -> filling r = None -> valid_ask offset buffer ->
  wp (fillTurn offset buffer) (fun a r' => main r' /\ down r' /\ steady r r' /\ sleeping r' = sleeping r /\ turn_done offset buffer a r') r.
Proof.
  intros H Hd Hr Hf (A1 & A2 & A3 & A4). unfold fillTurn. apply wp_bind. eapply wp_mono; [by apply fillFromSlices_ok|].
  intros [st buffer'] r1 [M1 S1 D1 An Af]. cbn [fst snd] in An, Af. pose proof (side_down _ _ D1 Hd) as Hd1. pose proof D1 as [= F1 L1 _ _ _].
  destruct (waiting_calm false r1) as (r2 & E2 & C2 & D2), (waiting_calm true r1) as (r3 & E3 & C3 & D3). pose proof D2 as [= F2 L2 _ _ _]. pose proof D3 as [= F3 L3 _ _ _]. cbn [fst].
  destruct (decide (st = Success)) as [->|Hst]; [rewrite bool_decide_eq_true_2 by done|rewrite bool_decide_eq_false_2 by done].
  - apply (wp_step _ _ _ _ _ _ E2), wp_ret. split; [by apply (calm_main C S r1)|]. split; [by apply (side_down r1)|].
    split; [by apply (steady_trans C S r r1), calm_steady|]. split; [congruence|]. by split_and!; [congruence|..].
  - apply (wp_step _ _ _ _ _ _ E3). apply wp_bind, wp_modify, wp_ret. cbn [fst snd]. destruct An as [-> An].
    pose proof (calm_trans C S r1 r3 _ C3 (filling_calm (Some (mk_filling offset buffer st)) r3)) as C4.
    split; [by apply (calm_main C S r1)|]. split; [pose proof (side_down _ _ D3 Hd1) as []; by split|].
    split; [by apply (steady_trans C S r r1), calm_steady|]. split; [simpl; congruence|]. exists st. split; [done|]. split; [done|].
    rewrite (cm_error _ _ _ _ C4). split; [done|]. intros He. unfold awaits. rewrite (cm_slices _ _ _ _ C4), (cm_offsets _ _ _ _ C4). by apply An.
Qed.

Lemma startFill_ok (offset : Z) (buffer : list Z) (r : Reader) : main r -> down r -> filling r = None -> valid_ask offset buffer ->
  wp (startFill offset buffer) (fun a r' => stepped r r' /\ turn_done offset buffer a r') r.
Proof.
  intros H Hd Hf Ha. pose proof Ha as (A1 & A2 & A3 & A4). unfold startFill. apply wp_bind, wp_gets. unfold id. cbv zeta. assert (loaderSize r = S) as -> by apply H.
  sizes. rewrite !(proj2 (Z.ltb_ge _ _)), (proj2 (Z.leb_gt _ _)) by lia. cbn [orb]. apply wp_bind. eapply wp_mono; [by apply more_ok|].
  intros b r1 (Hsp & F1 & _). apply wp_bind, wp_gets. destruct (streamingError r1) as [e|] eqn:Ee.
  - rewrite bool_decide_eq_true_2 by (by eexists). apply wp_ret. split; [done|]. cbn [turn_done fst snd]. rewrite Ee. by split_and!; [congruence|..].
  - rewrite bool_decide_eq_false_2 by (by intros [? ?]). destruct Hsp as [M1 D1 W1 R1 L1] eqn:E. clear E. eapply wp_mono; [apply fillTurn_ok; [done|done|done|congruence|done]|].
    intros a r2 (M2 & D2 & S2 & L2 & T2). split; [|done]. by apply (stepped_steady r r1).
Qed.

Lemma continueFill_ok (f : Filling) (r : Reader) : main r -> down r -> filling r = Some f -> valid_ask (fillOffset f) (fillBuffer f) -> lastResult f <> Success ->
  (lastResult f = Failed -> streamingError r <> None) -> (streamingError r = None -> awaits (fillOffset f) (len (fillBuffer f)) r) -> wp continueFill (fun a r' => stepped r r' /\ turn_done (fillOffset f) (fillBuffer f) a r') r.
Proof.
  intros H Hd Hf Ha Hl Hlf Haw. unfold continueFill. apply wp_bind, wp_gets. rewrite Hf. apply wp_bind. eapply wp_lift; [done|].
  apply wp_bind. eapply wp_mono; [by apply more_ok|]. intros b r1 (Hsp & F1 & Hmore). apply wp_bind, wp_modify.
  set (r1' := set_filling None r1). assert (calm r1 r1') as C1 by apply filling_calm. pose proof Hsp as [M1 D1 W1 R1 L1].
  assert (main r1') as M1' by (by apply (calm_main C S r1)). assert (down r1') as D1' by (destruct D1; by split).
  assert (stepped r r1') as Hsp' by (by apply (stepped_steady r r1 r1' Hsp (calm_steady _ _ _ _ C1))).
  destruct b.
  - eapply wp_mono; [by apply fillTurn_ok|]. intros a r2 (M2 & D2 & S2 & L2 & T2). split; [|done]. by apply (stepped_steady r r1').
  - apply wp_bind, wp_gets. destruct (streamingError r1') as [e|] eqn:Ee.
    + rewrite bool_decide_eq_true_2 by (by eexists). destruct (waiting_calm false r1') as (r2 & E2 & C2 & D2). apply (wp_step _ _ _ _ _ _ E2). pose proof D2 as [= F2 L2 _ _ _].
      apply wp_bind, wp_modify, wp_ret. set (r3 := set_calls _ r2).
      assert (calm r2 r3) as C3 by (split; try done; exists [Release]; split_and!; [done|by repeat constructor|by repeat constructor]).
      pose proof (calm_trans C S _ _ _ C2 C3) as C4. split.
      * apply (stepped_steady r r1' r3 Hsp' (calm_steady _ _ _ _ C4)); [by apply (calm_main C S r1')| |done]. by apply (side_down r1').
      * cbn [turn_done fst snd]. rewrite (cm_error _ _ _ _ C4), Ee. split_and!; try done.
    + rewrite bool_decide_eq_false_2 by (by intros [? ?]). apply wp_ret. split; [done|]. cbn [turn_done fst snd].
      assert (streamingError r = None) as E0.
      { destruct W1 as (r0 & T & _ & S0). destruct (tk_same _ _ _ _ T) as (_ & _ & _ & <- & _). apply (st_error _ _ _ _ S0). exact Ee. }
      split_and!; try done; [intros E; by destruct (Hlf E)|]. intros _ _. destruct (Hmore eq_refl Ee) as [Es Eo].
      unfold awaits. cbn [r1' slices loadingOffsets set_filling]. rewrite Es, Eo. by apply Haw.
Qed.

End Steps.
