(* ===== verification/ReaderDown.v ===== *)
(** * Streaming: a download of the same file

    Nothing of what a reader does for a download fails, and it leaves the slices
    as they are: parts that are there go to the download, and they are of the
    file; others are asked for. *)

From S2P Require Import Prelude Tcp StateMonad DownloadQueue Streaming SliceCache Slices CacheFacts SliceFacts SlicesFacts SlicesWrite SlicesFill SlicesRead Reader ReaderFacts ReaderSteps.

Section Down.
Context (C : Z -> Z) (S : Z).
Hypothesis size_positive : 0 < S.
Hypothesis size_bound : S <= 510 * kInSlice.

#[local] Abbreviation sound := (sound C S).
#[local] Abbreviation full := (full S).
#[local] Abbreviation slice_count := (slice_count S).
#[local] Abbreviation on_grid := (on_grid S).
#[local] Abbreviation part := (part C S).
#[local] Abbreviation main := (main C S).
#[local] Abbreviation down := (down C S).
#[local] Abbreviation calm := (calm C S).

(** What an operation for the download does. *)
Record easy (r r' : Reader) : Prop := {
  es_main : main r';
  es_down : down r';
  es_calm : calm r r';
  es_still : filling r' = filling r /\ sleeping r' = sleeping r }.

Lemma easy_refl (r : Reader) : main r -> down r -> easy r r.
Proof. intros H Hd. by split; [|done|apply calm_refl|]. Qed.

Lemma easy_trans (r1 r2 r3 : Reader) : easy r1 r2 -> easy r2 r3 -> easy r1 r3.
Proof. intros [_ _ A3 [A4 A5]] [B1 B2 B3 [B4 B5]]. split; [done|done|by apply (calm_trans C S r1 r2)|split; congruence]. Qed.

(** What the download does not touch. *)
Definition kept (r : Reader) := (loaderSize r, slices r, loadingOffsets r, (cacheHelper r, loadedParts r, streamingError r), (streamingActive r, filling r, sleeping r)).

Lemma easy_calls (r r' : Reader) (new : list Call) : main r -> down r' -> kept r' = kept r -> calls r' = calls r ++ new ->
  Forall (call_ok C S (slices r)) new -> Forall (quiet_call (slices r)) new -> easy r r'.
Proof.
  intros H Hd [= E1 E2 E3 E4 E5 E6 E7 E8 E9] Ec Ho Hq. assert (calm r r') as Hc.
  { split; try done; [|by exists new]. unfold helper_results. by rewrite E4. }
  split; [by apply (calm_main C S r)|done|done|done].
Qed.

Lemma easy_quiet (r r' : Reader) : main r -> down r' -> kept r' = kept r -> calls r' = calls r -> easy r r'.
Proof. intros H Hd Hk Hc. apply (easy_calls r r' []); try done. by rewrite app_nil_r. Qed.

(** ** Offsets that are asked for *)

Lemma wanted_down (r r' : Reader) : down r ->
  offsetsForDownloader r' ++ downloaderOffsetRequests r' ⊆ offsetsForDownloader r ++ downloaderOffsetRequests r ->
  (downloaderReadCache r' = ∅ \/ downloaderReadCache r' = downloaderReadCache r) -> down r'.
Proof.
  intros [D1 D2] Hs Hc. split.
  - rewrite Forall_forall in *. intros o Ho. by apply D1, Hs.
  - intros n c. destruct Hc as [-> | ->]; [by rewrite lookup_empty|]. apply D2.
Qed.

Lemma change_ok (n : nat) (r : Reader) : main r -> down r -> (n <= length (offsetsForDownloader r))%nat ->
  wp (checkForDownloaderChange n) (fun _ r' => easy r r') r.
Proof.
  intros H Hd Hn. unfold checkForDownloaderChange. apply wp_bind, wp_gets. unfold id. rewrite (proj2 (Nat.ltb_ge _ _)) by done.
  destruct (adjacent_find _) as [changed|]; [|by apply wp_ret, easy_refl]. apply wp_modify, easy_quiet; [done| |done|done].
  apply (wanted_down r _ Hd); [|by left]. cbn [offsetsForDownloader downloaderOffsetRequests set_acks set_readCache set_wanted].
  intros o [Ho|Ho]%elem_of_app; apply elem_of_app; [left|by right]. by apply subseteq_drop in Ho.
Qed.

Lemma enqueue_ok (r : Reader) : main r -> down r -> wp enqueueDownloaderOffsets (fun _ r' => easy r r') r.
Proof.
  intros H Hd. unfold enqueueDownloaderOffsets. apply wp_bind, wp_gets. unfold id. apply wp_bind, wp_modify. set (r1 := set_requests [] r).
  assert (easy r r1) as E1.
  { apply easy_quiet; [done| |done|done]. apply (wanted_down r _ Hd); [|by right]. simpl. rewrite app_nil_r. by apply list_subseteq_app_l. }
  destruct (bool_decide_reflect (downloaderOffsetRequests r = [])); [by apply wp_ret|].
  assert (forall l n, l ⊆ offsetsForDownloader r ++ downloaderOffsetRequests r -> (n <= length l)%nat ->
    wp (modify (set_wanted l) ;;; checkForDownloaderChange n) (fun _ r' => easy r r') r1) as Hgo.
  { intros l m Hl Hm. apply wp_bind, wp_modify. assert (easy r (set_wanted l r1)) as E2.
    { apply easy_quiet; [done| |done|done]. apply (wanted_down r _ Hd); [|by right]. simpl. by rewrite app_nil_r. }
    eapply wp_mono; [apply change_ok; [apply E2|apply E2|done]|]. intros [] r2 E3. by apply (easy_trans r (set_wanted l r1)). }
  destruct (negb _) eqn:En; apply Hgo.
  - done.
  - apply negb_true_iff, bool_decide_eq_false in En. rewrite length_app. destruct (offsetsForDownloader r); [done|]. simpl. lia.
  - by apply list_subseteq_app_r.
  - lia.
Qed.

(** ** Parts that are there *)

Lemma part_there (o : Z) (s : Slices) : sound s -> on_grid o -> exists bytes, partForDownloader o s = Some bytes /\ (bytes = [] \/ bytes = part o).
Proof.
  intros Hs Ho. pose proof Ho as [Hr _]. unfold partForDownloader. rewrite (sd_size _ _ _ Hs), (proj2 (Z.leb_gt _ _)) by lia.
  destruct (parts (header s) !! o) as [b|] eqn:E.
  - exists b. split; [done|]. right. by destruct (sd_header _ _ _ Hs o b E) as (_ & _ & _ & Hb).
  - rewrite (sound_full C S s Hs). destruct (SlicesFacts.full S) eqn:Ef; [exists []; by split; [|left]|]. fold (index_of o). cbv zeta.
    destruct (lookup_lt_is_Some_2 (data s) (index_of o)) as [x Hx]; [rewrite (sd_count _ _ _ Hs); by apply index_in|]. rewrite Hx.
    eexists. split; [done|]. destruct (parts x !! _) as [b|] eqn:Eb; [right|by left]. fold (base (index_of o)) in Eb. simpl.
    destruct (sd_slice _ _ _ Hs _ x Hx _ b Eb) as (_ & _ & _ & Hb). simpl in Hb. rewrite Hb. f_equal. lia.
Qed.

Lemma bytes_ok (o : Z) (bytes : list Z) (r : Reader) : main r -> down r -> on_grid o -> bytes = [] \/ bytes = part o ->
  wp (unavailableInBytes o bytes) (fun _ r' => easy r r') r.
Proof.
  intros H Hd Ho Hb. unfold unavailableInBytes. destruct (bool_decide_reflect (bytes = [])); [by apply wp_ret, easy_refl|].
  destruct Hb as [|Hb]; [done|]. apply wp_bind, wp_modify, wp_ret. apply (easy_calls r _ [OnMainFire o bytes]); try done; [by destruct Hd|by apply Forall_singleton|by apply Forall_singleton].
Qed.

Lemma unavailable_ok (o : Z) (r : Reader) : main r -> down r -> on_grid o -> wp (unavailable o) (fun _ r' => easy r r') r.
Proof.
  intros H Hd Ho. unfold unavailable. apply wp_bind, wp_gets. unfold id. destruct (part_there o (slices r) (mn_sound _ _ _ H) Ho) as (bytes & E & Hb).
  apply wp_bind. eapply wp_lift; [exact E|]. apply wp_bind. eapply wp_mono; [by apply bytes_ok|]. intros [] r1 E1; [|by apply wp_ret].
  unfold unavailableInCache. apply wp_bind, wp_gets. unfold id. cbv zeta. destruct (downloaderReadCache r1 !! _) as [[p|]|] eqn:Ec; [|by apply wp_ret..].
  destruct (p !! _) as [b|] eqn:Eb; [|by apply wp_ret]. pose proof (es_down _ _ E1) as Hd1. destruct (dn_read _ _ _ Hd1 _ _ Ec) as [Hn Hp].
  apply wp_bind, wp_modify. set (r2 := set_readCache _ r1). assert (easy r1 r2) as E2.
  { apply easy_quiet; [apply E1| |done|done]. split; [apply Hd1|]. intros n c. unfold r2. cbn [downloaderReadCache set_readCache].
    intros [[<- <-]|[_ Hc]]%lookup_insert_Some; [|by apply (dn_read _ _ _ Hd1)]. split; [done|].
    intros p' o' b' [= <-] [[_ <-]|[_ Hb']]%lookup_insert_Some; [by left|]. by apply (Hp p). }
  eapply wp_mono; [apply bytes_ok; [apply E2|apply E2|done|]|intros u r3 E3; apply (easy_trans r r1); [done|by apply (easy_trans r1 r2)]].
  destruct (Hp p _ b eq_refl Eb) as [?|(_ & _ & _ & Eb')]; [by left|right]. simpl in Eb'. rewrite Eb'. f_equal. pose proof (index_base o ltac:(destruct Ho; lia)).
  replace (index (o / kInSlice + 1)) with (index_of o); [unfold base; unfold index_of|unfold index, index_of; lia].
  rewrite Z2Nat.id; [lia|]. sizes. apply Z.div_pos; destruct Ho; lia.
Qed.

Lemma dropReady_ok (l : list Z) (r : Reader) : main r -> down r -> Forall on_grid l -> wp (dropReady l) (fun k r' => easy r r' /\ k ⊆ l) r.
Proof.
  intros H Hd Hl. revert r H Hd. induction Hl as [|o l Ho Hl IH]; intros r H Hd; cbn [dropReady]; [by apply wp_ret; split; [apply easy_refl|]|].
  apply wp_bind. eapply wp_mono; [by apply unavailable_ok|]. intros [] r1 E1; [by apply wp_ret|].
  eapply wp_mono; [apply IH; apply E1|]. intros k r2 [E2 Hk]. split; [by apply (easy_trans r r1)|]. intros x Hx. right. by apply Hk.
Qed.

Lemma down_offsets (r : Reader) : down r -> Forall on_grid (offsetsForDownloader r).
Proof. intros [H _]. by apply Forall_app in H as [? _]. Qed.

Lemma wanted_ok (l : list Z) (r : Reader) : main r -> down r -> Forall on_grid l -> easy r (set_wanted l r).
Proof.
  intros H Hd Hl. apply easy_quiet; [done| |done|done]. destruct Hd as [[_ D1]%Forall_app D2]. split; [by apply Forall_app|done].
Qed.

Lemma checked_ready (r : Reader) : main r -> down r -> wp checkForDownloaderReadyOffsets (fun _ r' => easy r r') r.
Proof.
  intros H Hd. unfold checkForDownloaderReadyOffsets. apply wp_bind, wp_gets, wp_bind. pose proof (down_offsets _ Hd) as Hw.
  eapply wp_mono; [by apply dropReady_ok|]. intros k r1 [E1 Hk]. apply wp_modify. apply (easy_trans r r1); [done|].
  apply wanted_ok; [apply E1|apply E1|]. rewrite Forall_forall in *. intros o Ho. by apply Hw, Hk.
Qed.

Lemma erase_first_sub (x : Z) (l : list Z) : erase_first x l ⊆ l.
Proof. induction l as [|y l IH]; [done|]. cbn [erase_first]. destruct (y =? x); [by apply list_subseteq_cons|]. by apply list_subseteq_skip. Qed.

Lemma pruneDone_ok (r : Reader) : main r -> down r -> wp pruneDoneDownloaderRequests (fun _ r' => easy r r') r.
Proof.
  intros H Hd. unfold pruneDoneDownloaderRequests. apply wp_bind, wp_gets, wp_bind, wp_modify, wp_modify.
  apply easy_quiet; [done| |done|done]. apply (wanted_down r _ Hd); [|by right]. cbn [offsetsForDownloader downloaderOffsetRequests set_wanted set_asked set_acks].
  assert (forall acks l, foldl (fun l done => erase_first done l) l acks ⊆ l) as Hsub.
  { intros acks. induction acks as [|a acks IH]; intros l; [done|]. cbn [foldl]. etrans; [apply IH|apply erase_first_sub]. }
  intros o [Ho|Ho]%elem_of_app; apply elem_of_app; [left; by eapply Hsub|by right].
Qed.

Lemma pruneCache_ok (o : Z) (r : Reader) : main r -> down r -> wp (pruneDownloaderCache o) (fun _ r' => easy r r') r.
Proof.
  intros H Hd. apply wp_modify, easy_quiet; [done| |done|done]. split; [apply Hd|]. intros n c [Hc _]%map_lookup_filter_Some. by apply (dn_read _ _ _ Hd).
Qed.

(** ** Parts that are not there *)

Lemma required_ok (o : Z) (s : Slices) : sound s -> on_grid o -> waitingForHeaderCache s = false -> exists b, readCacheForDownloaderRequired o s = Some b
  /\ (b = true -> (index_of o < slice_count)%nat /\ (headerMode s = Good -> index_of o = 0%nat -> changedSinceCache (header s) = false)).
Proof.
  intros Hs Ho Hw. pose proof Ho as [Hr _]. unfold readCacheForDownloaderRequired. rewrite (sd_size _ _ _ Hs), (proj2 (Z.leb_gt _ _)), Hw by lia. cbn [orb].
  rewrite (sound_full C S s Hs). destruct (SlicesFacts.full S) eqn:Ef; [by exists false|]. fold (index_of o).
  assert (index_of o < slice_count)%nat as Hi by (by apply index_in). destruct (lookup_lt_is_Some_2 (data s) (index_of o)) as [x Hx]; [by rewrite (sd_count _ _ _ Hs)|].
  rewrite Hx. eexists. split; [done|]. intros Hld%negb_true_iff. split; [done|]. intros Eg Ei. rewrite Ei in Hx.
  pose proof (sd_mode _ _ _ Hs) as Hm. unfold mode_ok in Hm. rewrite Eg in Hm. destruct Hm as (_ & _ & _ & _ & Ha). destruct (Ha x Hx) as [Hc _].
  destruct (changedSinceCache (header s)); [|done]. rewrite Hc in Hld; done.
Qed.

Lemma slice_number (o : Z) : 0 <= o -> Z.to_nat (o / kInSlice + 1) = Datatypes.S (index_of o).
Proof. intros Ho. unfold index_of. sizes. assert (0 <= o / kInSlice) by (apply Z.div_pos; lia). lia. Qed.

Lemma wait_ok (o : Z) (r : Reader) : main r -> down r -> on_grid o -> cacheHelper r <> None -> wp (downloaderWaitForCachedSlice o) (fun _ r' => easy r r') r.
Proof.
  intros H Hd Ho Hh. pose proof (easy_refl _ H Hd) as Er. unfold downloaderWaitForCachedSlice. apply wp_bind, wp_gets. unfold id.
  destruct (waitingForHeaderCache (slices r)) eqn:Ew; [by apply wp_ret|].
  destruct (required_ok o (slices r) (mn_sound _ _ _ H) Ho Ew) as (b & E & Hb). apply wp_bind. eapply wp_lift; [exact E|]. destruct b; [|by apply wp_ret].
  destruct (Hb eq_refl) as [Hi Hg]. cbn [negb]. cbv zeta. destruct (downloaderReadCache r !! _); [by apply wp_ret|].
  assert (0 <= o) as Ho0 by (destruct Ho; lia). rewrite (slice_number o Ho0).
  assert (exists b r1, readFromCacheForDownloader (Datatypes.S (index_of o)) r = Some (b, r1) /\ easy r r1) as (b & r1 & E1 & He).
  { unfold readFromCacheForDownloader, bind, gets, id. rewrite (bool_decide_eq_false_2 (cacheHelper r = None)) by done. cbn [orb Nat.eqb].
    destruct (bool_decide_reflect (headerMode (slices r) = Unknown)) as [Eu|Eu].
    - unfold headerModeUnknown. rewrite bool_decide_eq_true_2 by done. by exists false, r.
    - unfold headerModeUnknown. rewrite bool_decide_eq_false_2, read_called by done. eexists true, _. split; [done|].
      assert (headerMode (slices r) <> NoCache) as Hn by (by rewrite <- (mn_helper _ _ _ H)).
      apply (easy_calls r _ [GetWithSizes (read_number (slices r) (index_of o)) 0]); [done|by destruct Hd|done|done|apply Forall_singleton|apply Forall_singleton].
      + unfold read_number. split_and!; try done; [destruct (_ && _); lia|unfold isGoodHeader; intros ->; rewrite bool_decide_eq_true_2 by done; by destruct (index_of o)|].
        unfold isGoodHeader. destruct (bool_decide_reflect (headerMode (slices r) = Good)); [done|]. by destruct (index_of o).
      + split_and!; try done. intros n [= En _] Eg. apply Hg; [done|]. unfold read_number in En. by destruct (index_of o); [|rewrite andb_false_r in En]. }
  apply (wp_step _ _ _ _ _ _ E1). apply wp_bind, wp_modify, wp_ret. apply (easy_trans r r1); [done|].
  apply easy_quiet; [apply He| |done|done]. split; [apply He|]. intros n c. cbn [downloaderReadCache set_readCache].
  intros [[<- <-]|[_ Hc]]%lookup_insert_Some; [|by apply (dn_read _ _ _ (es_down _ _ He))].
  split; [sizes; assert (0 <= o / kInSlice) by (apply Z.div_pos; lia); lia|]. intros p o' b'. destruct b; [done|]. intros [= <-]. by rewrite lookup_empty.
Qed.

Lemma send_ok (o : Z) (r : Reader) : main r -> down r -> on_grid o -> wp (sendDownloaderRequest o) (fun _ r' => easy r r') r.
Proof.
  intros H Hd Ho. unfold sendDownloaderRequest. apply wp_bind, wp_gets, wp_bind.
  eapply (wp_mono _ (fun _ r1 => easy r r1)).
  { destruct (bool_decide_reflect (cacheHelper r = None)); [by apply wp_ret, easy_refl|by apply wait_ok]. }
  intros b r1 E1. apply wp_bind, wp_gets. unfold id. destruct (_ || _); [by apply wp_ret|]. apply wp_bind, wp_modify, wp_modify. apply (easy_trans r r1); [done|].
  apply (easy_calls r1 _ [Load o]); [apply E1|by destruct (es_down _ _ E1)|done|done|by apply Forall_singleton|by apply Forall_singleton].
Qed.

Lemma each_easy {A} (f : A -> M Reader unit) (l : list A) (r : Reader) : main r -> down r ->
  (forall x r, x ∈ l -> main r -> down r -> wp (f x) (fun _ r' => easy r r') r) -> wp (each f l) (fun _ r' => easy r r') r.
Proof.
  intros H Hd Hf. apply (wp_each (fun r' => easy r r')); [|by apply easy_refl]. intros x r1 Hx E1.
  eapply wp_mono; [apply Hf; [done|apply E1|apply E1]|]. intros [] r2 E2. by apply (easy_trans r r1).
Qed.

Lemma sends_ok (r : Reader) : main r -> down r -> wp sendDownloaderRequests (fun _ r' => easy r r') r.
Proof.
  intros H Hd. unfold sendDownloaderRequests. apply wp_bind, wp_gets. apply each_easy; [done|done|]. intros o r1 Ho H1 Hd1. apply send_ok; [done|done|].
  pose proof (down_offsets _ Hd) as Hw. rewrite Forall_forall in Hw. apply Hw. by apply subseteq_take in Ho.
Qed.

(** What came from the cache is taken, and the download is served. *)
Lemma processDownloader_ok (r : Reader) : main r -> down r -> wp processDownloaderRequests (fun _ r' => stepped C S r r' /\ filling r' = filling r
  /\ exists r1, took C S r r1 /\ calm r1 r') r.
Proof.
  intros H Hd. unfold processDownloaderRequests. apply wp_bind. eapply wp_mono; [by apply (processCacheResults_ok C S)|]. intros b r1 (T & Hd1 & _).
  pose proof (took_main _ _ _ _ H T) as H1.
  assert (wp (enqueueDownloaderOffsets ;;; checkForDownloaderReadyOffsets ;;; pruneDoneDownloaderRequests ;;;
    l <- gets offsetsForDownloader ;; match l with [] => ret tt | o :: _ => pruneDownloaderCache o ;;; sendDownloaderRequests end) (fun _ r' => easy r1 r') r1) as Hw.
  { apply wp_bind. eapply wp_mono; [by apply enqueue_ok|]. intros [] r2 E2. apply wp_bind. eapply wp_mono; [apply checked_ready; apply E2|]. intros [] r3 E3.
    apply wp_bind. eapply wp_mono; [apply pruneDone_ok; apply E3|]. intros [] r4 E4. pose proof (easy_trans _ _ _ E2 (easy_trans _ _ _ E3 E4)) as E5.
    apply wp_bind, wp_gets. destruct (offsetsForDownloader r4) as [|o l]; [by apply wp_ret|]. apply wp_bind.
    eapply wp_mono; [apply pruneCache_ok; apply E4|]. intros [] r5 E6. eapply wp_mono; [apply sends_ok; apply E6|]. intros [] r6 E7.
    by apply (easy_trans r1 r4), (easy_trans r4 r5). }
  eapply wp_mono; [exact Hw|]. intros [] r' [M D K [F L]]. destruct (tk_same _ _ _ _ T) as (_ & _ & _ & _ & _ & T2 & _). split_and!; [|congruence|by exists r1].
  split; [done|done|exists r1; split_and!; [done|done|by apply calm_steady]| |rewrite L; apply (tk_sleeping _ _ _ _ T)].
  destruct (cm_helper _ _ _ _ K) as [-> _]. by apply (took_results C S r).
Qed.

End Down.
