(* ===== verification/ReaderWorld.v ===== *)
(** * Streaming: what the cache and the loader have

    What the calls of an operation make of the cache database, the entries that
    are being read, the loader and the tasks. *)

From S2P Require Import Prelude Tcp StateMonad DownloadQueue Streaming SliceCache Slices CacheFacts SliceFacts SlicesFacts SlicesWrite SlicesFill SlicesRead Reader ReaderSystem ReaderFacts.

(** ** Calls one after another *)

Definition absorbed (l : list Call) (w : World) : World := foldl absorb w l.

Lemma absorbed_other (l : list Call) (r : Reader) (w : World) : absorbed l (set_reader r w) = set_reader r (absorbed l w).
Proof. unfold absorbed. revert w. induction l as [|c l IH]; intros w; [done|]. cbn [foldl]. rewrite <- IH. by destruct c. Qed.

Lemma settled (w : World) (r : Reader) (new : list Call) : calls r = new -> settle w r = set_reader (set_calls [] r) (absorbed new w).
Proof. intros <-. apply absorbed_other. Qed.

Lemma absorbed_reader (l : list Call) (w : World) : reader (absorbed l w) = reader w.
Proof. revert w. induction l as [|c l IH]; intros w; [done|]. change (absorbed (c :: l) w) with (absorbed l (absorb w c)). rewrite IH. by destruct c. Qed.

Lemma absorbed_loader (l : list Call) (w : World) (o : Z) : o ∈ atLoader (absorbed l w) <-> after_calls l (fun o => o ∈ atLoader w) o.
Proof.
  unfold absorbed. revert w. induction l as [|c l IH]; intros w; [done|]. cbn [foldl]. rewrite IH. clear IH.
  assert (forall P Q : Z -> Prop, (forall x, P x <-> Q x) -> after_calls l P o <-> after_calls l Q o) as Hext.
  { intros P Q E. split; apply after_calls_mono; intros x; apply E. }
  apply Hext. intros x. destruct c; simpl; try done; rewrite ?elem_of_union, ?elem_of_difference, elem_of_singleton; tauto.
Qed.

Lemma entry_insert (d : gmap nat (list Z)) (n m : nat) (bytes : list Z) : entry_in (<[n := bytes]> d) m = if decide (n = m) then bytes else entry_in d m.
Proof. unfold entry_in. destruct (decide (n = m)) as [->|]; [by rewrite lookup_insert_eq|by rewrite lookup_insert_ne]. Qed.

(** An entry is what was put last. *)
Lemma absorbed_db (l : list Call) (w : World) (n : nat) : entry_in (db (absorbed l w)) n = entry_in (db w) n /\ (forall b, Put n b ∉ l)
  \/ exists b, Put n b ∈ l /\ entry_in (db (absorbed l w)) n = b.
Proof.
  unfold absorbed. revert w. induction l as [|c l IH]; intros w; [left; split; [done|intros b; apply not_elem_of_nil]|]. cbn [foldl].
  destruct (IH (absorb w c)) as [[E Hn]|(b & Hb & E)]; [|right; exists b; split; [by right|done]]. rewrite E.
  assert ((exists b, c = Put n b) \/ entry_in (db (absorb w c)) n = entry_in (db w) n /\ forall b, c <> Put n b) as [[b ->]|[-> Hc]].
  { destruct c as [| | | | | | | |m bytes| | | | | |]; try (right; split; done). destruct (decide (m = n)) as [->|Hne]; [left; by eexists|right].
    simpl. rewrite entry_insert, decide_False by done. split; [done|]. by intros b [= ? _]. }
  - right. exists b. split; [left|]. simpl. by rewrite entry_insert, decide_True.
  - left. split; [done|]. intros b [Hb|Hb]%elem_of_cons; [by apply (Hc b)|by apply (Hn b)].
Qed.

Lemma absorbed_gets (l : list Call) (w : World) (g : Get) : g ∈ gets (absorbed l w) -> g ∈ gets w
  \/ exists a c k, l = a ++ GetWithSizes (getNumber g) c :: k /\ getBytes g = entry_in (db (absorbed a w)) (getNumber g) /\ length (getSizes g) = c.
Proof.
  unfold absorbed. revert w. induction l as [|c l IH]; intros w Hg; [by left|]. cbn [foldl] in Hg. destruct (IH _ Hg) as [Hg'|(a & n & k & -> & E1 & E2)].
  - destruct c as [| | | | | | |n count| | | | | | |]; try (by left). simpl in Hg'. apply elem_of_app in Hg' as [?| ->%list_elem_of_singleton]; [by left|right].
    exists [], count, l. simpl. split_and!; [done|done|]. by rewrite length_fmap, length_seq.
  - right. by exists (c :: a), n, k.
Qed.

Lemma absorbed_gets_stay (l : list Call) (w : World) (g : Get) : g ∈ gets w -> g ∈ gets (absorbed l w).
Proof.
  unfold absorbed. revert w. induction l as [|c l IH]; intros w Hg; [done|]. cbn [foldl]. apply IH. destruct c; simpl; try done. apply elem_of_app. by left.
Qed.

Lemma absorbed_gets_new (l : list Call) (w : World) (n count : nat) : GetWithSizes n count ∈ l -> exists g, g ∈ gets (absorbed l w) /\ getNumber g = n.
Proof.
  revert w. induction l as [|c l IH]; intros w Hin; [by apply not_elem_of_nil in Hin|]. change (absorbed (c :: l) w) with (absorbed l (absorb w c)).
  apply elem_of_cons in Hin as [<-|Hin]; [|by apply IH]. eexists. split; [apply absorbed_gets_stay; simpl; apply elem_of_app; right; left|done].
Qed.

Lemma absorbed_no_gets (l : list Call) (w : World) : (forall n c, GetWithSizes n c ∉ l) -> gets (absorbed l w) = gets w.
Proof.
  unfold absorbed. revert w. induction l as [|c l IH]; intros w H; [done|]. cbn [foldl]. rewrite IH by (intros n m Hin; apply (H n m); by right).
  destruct c as [| | | | | | |n m| | | | | | |]; try done. destruct (H n m). left.
Qed.

Lemma absorbed_tasks (l : list Call) (w : World) (o : Z) (b : list Z) : FireTask o b ∈ tasks (absorbed l w) -> FireTask o b ∈ tasks w \/ OnMainFire o b ∈ l.
Proof.
  unfold absorbed. revert w. induction l as [|c l IH]; intros w H; [by left|]. cbn [foldl] in H. destruct (IH _ H) as [H'|?]; [|right; by right].
  destruct c; try (by left); simpl in H'; apply elem_of_app in H' as [?|E%list_elem_of_singleton]; try (by left); try done. injection E as -> ->. right. left.
Qed.

Lemma absorbed_fired (l : list Call) (w : World) (x : Z * list Z) : x ∈ fired (absorbed l w) -> x ∈ fired w \/ Fired x.1 x.2 ∈ l.
Proof.
  unfold absorbed. revert w. induction l as [|c l IH]; intros w H; [by left|]. cbn [foldl] in H. destruct (IH _ H) as [H'|?]; [|right; by right].
  destruct c; try (by left). simpl in H'. apply elem_of_app in H' as [?| ->%list_elem_of_singleton]; [by left|right; left].
Qed.
