(* ===== verification/ReaderFine.v ===== *)
(** * Streaming: a reader is as it should be

    What every event keeps: the cache database is of the file, a good header is
    in it or changed, slices that are being read have an answer on its way, and
    what is being loaded is at the loader or came. *)

From S2P Require Import Prelude Tcp StateMonad DownloadQueue Streaming SliceCache Slices CacheFacts SliceFacts SlicesFacts SlicesWrite SlicesFill SlicesRead Reader ReaderSystem ReaderFacts ReaderSteps ReaderDown ReaderWorld.

Section Fine.
Context (C : Z -> Z) (S : Z).
Hypothesis size_positive : 0 < S.
Hypothesis size_bound : S <= 510 * kInSlice.

#[local] Abbreviation sound := (sound C S).
#[local] Abbreviation full := (full S).
#[local] Abbreviation slice_count := (slice_count S).
#[local] Abbreviation on_grid := (on_grid S).
#[local] Abbreviation part := (part C S).
#[local] Abbreviation main := (main C S).
#[local] Abbreviation down := (down C S).
#[local] Abbreviation calm := (calm C S).
#[local] Abbreviation steady := (steady C S).
#[local] Abbreviation took := (took C S).
#[local] Abbreviation entry_honest := (entry_honest C S).
#[local] Abbreviation header_entry := (header_entry S).

Definition world_results (w : World) : gmap Z PartsMap := helper_results (reader w).
Definition world_header (w : World) : Slice := header (slices (reader w)).
Definition world_mode (w : World) : HeaderMode := headerMode (slices (reader w)).

(** An entry that is being read. *)
Record get_ok (w : World) (g : Get) : Prop := {
  gk_number : (getNumber g <= slice_count)%nat;
  gk_honest : entry_honest (getNumber g) (getBytes g);
  gk_sizes : getSizes g = [] \/ length (getSizes g) = slice_count;
  gk_good : world_mode w = Good -> getNumber g <> 1%nat /\ (getNumber g = O -> header_entry (parts (world_header w)) (getBytes g));
  gk_zero : (getNumber g = O -> world_mode w = Unknown \/ world_mode w = Good) /\ (world_mode w = Unknown -> getNumber g = O) }.

(** A database that has parts of the file has a header ([evicted_header_fails] of
    [ReaderStale] is without this). *)
Definition headed (d : gmap nat (list Z)) : Prop := forall e, ParseCacheEntry (entry_in d 0) 0 S = Some e -> parsed e = ∅ ->
  (forall p, included e = Some p -> p = ∅)
  /\ forall i e', (i < slice_count)%nat -> ParseCacheEntry (entry_in d (Datatypes.S i)) (Datatypes.S i) S = Some e' -> parsed e' = ∅.

(** The entry of a slice holds the part at [o]. *)
Definition stored (w : World) (i : nat) (o : Z) : Prop :=
  holds S (isGoodHeader (slices (reader w))) i (entry_in (db w) (read_number (slices (reader w)) i)) o.

(** What the slices have of the cache database: a slice that was read has all
    that its entry holds, and so has an answer that was not taken yet; nothing
    that is being loaded is in an entry. Before the header was looked for, and
    when none was found, there is nothing. *)
Record held (w : World) : Prop := {
  hd_slices : uses_cache S (slices (reader w)) -> forall i y o, data (slices (reader w)) !! i = Some y -> loadedFromCache y = true ->
    stored w i o -> is_Some (parts y !! o);
  hd_asked : uses_cache S (slices (reader w)) -> forall o, o ∈ offs (loadingOffsets (reader w)) -> ~ stored w (index_of o) (o - base (index_of o));
  hd_results : uses_cache S (slices (reader w)) -> forall i p o, world_results w !! Z.of_nat (Datatypes.S i) = Some p -> stored w i o -> is_Some (p !! o);
  hd_first : world_mode w = Unknown -> forall e p q o, ParseCacheEntry (entry_in (db w) 0) 0 S = Some e -> included e = Some p ->
    world_results w !! 1 = Some q -> is_Some (p !! o) -> is_Some (q !! o);
  hd_headed : world_mode w = Unknown -> headed (db w);
  hd_nothing : world_mode w = Unknown -> loadingFromCache (world_header w) = false ->
    exists e, ParseCacheEntry (entry_in (db w) 0) 0 S = Some e /\ parsed e = ∅ }.

Record core (w : World) : Prop := {
  cr_main : main (reader w);
  cr_down : down (reader w);
  cr_calls : calls (reader w) = [];
  cr_db : forall n, (n <= slice_count)%nat -> entry_honest n (entry_in (db w) n);
  cr_gets : forall g, g ∈ gets w -> get_ok w g;
  cr_good : world_mode w = Good -> changedSinceCache (world_header w) = true \/ header_entry (parts (world_header w)) (entry_in (db w) 0);
  cr_looking : world_mode w = Unknown -> loadingFromCache (world_header w) = true -> streamingError (reader w) = None ->
    (exists g, gets w = [g] /\ getNumber g = O /\ getBytes g = entry_in (db w) 0 /\ world_results w = ∅)
    \/ (gets w = [] /\ exists e, ParseCacheEntry (entry_in (db w) 0) 0 S = Some e /\ world_results w !! 0 = Some (parsed e));
  cr_looked : world_mode w = Unknown -> loadingFromCache (world_header w) = false -> gets w = [] /\ world_results w = ∅;
  cr_reading : streamingError (reader w) = None -> forall i x, data (slices (reader w)) !! i = Some x -> loadingFromCache x = true ->
    (exists g, g ∈ gets w /\ getNumber g = read_number (slices (reader w)) i) \/ is_Some (world_results w !! Z.of_nat (Datatypes.S i));
  cr_loading : streamingError (reader w) = None -> forall o, o ∈ offs (loadingOffsets (reader w)) -> o ∈ atLoader w \/ o ∈ (loadedParts (reader w)).*1;
  cr_tasks : forall o b, FireTask o b ∈ tasks w -> on_grid o /\ b = part o;
  cr_fired : forall x, x ∈ fired w -> valid_part S x = true -> on_grid x.1 -> x.2 = part x.1;
  cr_grid : forall o, o ∈ atLoader w -> on_grid o;
  cr_held : held w }.

Lemma after_calls_from (l : list Call) (P : Z -> Prop) (o : Z) : after_calls l P o -> P o \/ Load o ∈ l.
Proof.
  revert P. induction l as [|c l IH]; intros P H; [by left|]. change (after_calls (c :: l) P o) with (after_calls l (after_call P c) o) in H.
  apply IH in H as [H|?]; [|right; by right]. destruct c; simpl in H; try (by left).
  - destruct H as [->|?]; [right; left|by left].
  - left. by destruct H.
Qed.

Lemma get_ok_same (w w' : World) (g : Get) : world_mode w' = world_mode w -> (world_mode w' = Good -> parts (world_header w') = parts (world_header w)) ->
  get_ok w g -> get_ok w' g.
Proof.
  intros Em H [G1 G2 G3 G4 G5]. split; try done.
  - intros Eg. rewrite (H Eg). apply G4. congruence.
  - rewrite Em. exact G5.
Qed.

Lemma parsed_included (bytes : list Z) (e : ParsedCacheEntry) : ParseCacheEntry bytes 0 S = Some e ->
  ComputeIsGoodHeader S (parsed e) = true -> is_Some (included e).
Proof.
  unfold ParseCacheEntry. destruct (MaxSliceSize 0 S) as [m|]; [|done]. destruct (ParseCachedMap ∅ bytes m) as [p rest]. simpl.
  destruct (ComputeIsGoodHeader S p) eqn:Eg; [|intros [= <-]; simpl; congruence]. destruct (MaxSliceSize 1 S); [|done]. intros [= <-] _. by eexists.
Qed.

Lemma none_reading (s : Slices) (i : nat) (x : Slice) : sound s -> headerMode s = Unknown -> data s !! i = Some x -> loadingFromCache x = false.
Proof.
  intros Hs Eu Hx. pose proof (sd_mode _ _ _ Hs) as Hm. unfold mode_ok in Hm. rewrite Eu in Hm. destruct Hm as [Hu _]. by destruct (Forall_lookup_1 _ _ _ _ Hu Hx).
Qed.

Lemma none_read (s : Slices) (i : nat) (x : Slice) : sound s -> headerMode s = Unknown -> data s !! i = Some x -> loadedFromCache x = false.
Proof.
  intros Hs Eu Hx. pose proof (sd_mode _ _ _ Hs) as Hm. unfold mode_ok in Hm. rewrite Eu in Hm. destruct Hm as [Hu _]. by destruct (Forall_lookup_1 _ _ _ _ Hu Hx).
Qed.

(** ** What the slices have of the cache *)

(** Slices, queue and answers are the same, or there is less of them. *)
Lemma held_less (w w' : World) : held w -> slices (reader w') = slices (reader w) -> db w' = db w ->
  (forall o, o ∈ offs (loadingOffsets (reader w')) -> o ∈ offs (loadingOffsets (reader w))) ->
  (forall n p, world_results w' !! n = Some p -> world_results w !! n = Some p) -> held w'.
Proof.
  intros [H1 H2 H3 H4 H5 H6] Es Ed Ho Hr. unfold stored, world_mode, world_header in *. split; unfold stored, world_mode, world_header; rewrite ?Es, ?Ed; try done.
  - intros Hu o Hin. apply H2; [done|by apply Ho].
  - intros Hu i p o Hp. apply H3; [done|by apply Hr].
  - intros Eu e p q o He Hi Hq. by apply (H4 Eu e p q o He Hi), Hr.
Qed.

Lemma held_took (w : World) (r : Reader) : core w -> took (reader w) r -> held (set_reader r w).
Proof.
  intros K T. pose proof (cr_held _ K) as H. pose proof (cr_main _ K) as M. pose proof (took_results C S _ _ T) as Hr.
  assert (offs (loadingOffsets r) = offs (loadingOffsets (reader w))) as Eo by (by destruct (tk_same _ _ _ _ T) as (_ & -> & _)).
  destruct (tk_slices _ _ _ _ T) as [[_ Es]|[He D]].
  { apply (held_less w); [done|done|done|by rewrite <- Eo|]. unfold world_results. simpl. intros n p. by rewrite Hr, lookup_empty. }
  pose proof (rd_mode _ _ _ _ _ D) as Dm. fold (world_mode w) (world_header w) (world_results w) in Dm, D.
  assert (world_mode w <> Unknown -> headerMode (slices r) = world_mode w) as Hsame.
  { intros Hn. rewrite bool_decide_eq_false_2 in Dm by done. by destruct Dm. }
  assert (world_mode w <> Unknown -> isGoodHeader (slices r) = isGoodHeader (slices (reader w))) as Hgood.
  { intros Hn. unfold isGoodHeader. by rewrite Hsame. }
  split; unfold stored, uses_cache, read_number, world_mode, world_header, world_results; cbn [reader db set_reader]; rewrite ?Hr.
  - intros (Hu & Hc & Ef) i y o Hy Hly Hst. destruct (rd_loaded _ _ _ _ _ D i y Hy Hly) as [(x & Hx & Hlx & Hxy)|((p & Hp & Hpy) & Hfirst)].
    + apply Hxy. destruct (decide (world_mode w = Unknown)) as [Eu|Eu].
      { rewrite (none_read _ i x (mn_sound _ _ _ M) Eu Hx) in Hlx. done. }
      rewrite Hgood in Hst by done. rewrite Hsame in Hu, Hc by done. by apply (hd_slices _ H ltac:(by split) i x).
    + apply Hpy. destruct (decide (world_mode w = Unknown)) as [Eu|Eu].
      * destruct (Hfirst Eu) as [Eg ->]. unfold isGoodHeader in Hst. rewrite bool_decide_eq_true_2 in Hst by done. simpl in Hst.
        destruct Hst as (e & q & Hq & Hi & Ho). by apply (hd_first _ H Eu e q p o).
      * rewrite Hgood in Hst by done. rewrite Hsame in Hu, Hc by done. by apply (hd_results _ H ltac:(by split) i p).
  - intros (Hu & Hc & Ef) o Ho. rewrite Eo in Ho. destruct (decide (world_mode w = Unknown)) as [Eu|Eu].
    + destruct (bool_decide_reflect (world_mode w = Unknown)); [|done]. cbn [andb] in Dm. destruct (loadingFromCache (world_header w)) eqn:El.
      * rewrite (mn_waits _ _ _ M Eu El) in Ho. by apply not_elem_of_nil in Ho.
      * destruct Dm as [Dm _]. congruence.
    + rewrite Hgood by done. rewrite Hsame in Hu, Hc by done. by apply (hd_asked _ H).
  - intros _ i p o. by rewrite lookup_empty.
  - intros _ e p q o _ _. by rewrite lookup_empty.
  - intros Eu. apply (hd_headed _ H). destruct (decide (world_mode w = Unknown)) as [|Hn]; [done|]. by rewrite <- Hsame.
  - intros Eu El. assert (world_mode w = Unknown) as Ew by (destruct (decide (world_mode w = Unknown)) as [|Hn]; [done|]; by rewrite <- Hsame).
    destruct (loadingFromCache (world_header w)) eqn:Elw; [|by apply (hd_nothing _ H)]. rewrite bool_decide_eq_true_2 in Dm by done. cbn [andb] in Dm.
    destruct (cr_looking _ K Ew Elw He) as [(g & _ & _ & _ & Er)|(_ & e & Ep & Er)].
    + rewrite Er, lookup_empty in Dm. destruct Dm. congruence.
    + exists e. split; [done|]. rewrite Er in Dm. destruct Dm as (_ & _ & Dm). destruct (bool_decide_reflect (parsed e = ∅)) as [|Hne]; [done|].
      unfold good_from in Dm. destruct (SlicesFacts.full S), (ComputeIsGoodHeader S (parsed e)); congruence.
Qed.

(** ** Answers of the cache are taken *)

Lemma core_took (w : World) (r : Reader) : core w -> took (reader w) r -> down r -> core (set_reader r w).
Proof.
  intros K T Hd. pose proof (held_took w r K T) as Hheld. pose proof (took_main C S _ _ (cr_main _ K) T) as Hm. pose proof (took_results C S _ _ T) as Hr.
  pose proof (sd_mode _ _ _ (mn_sound _ _ _ (cr_main _ K))) as Hmode. unfold mode_ok in Hmode.
  destruct (tk_same _ _ _ _ T) as (_ & T1 & T2 & T3 & _ & _ & T4 & _). destruct (tk_slices _ _ _ _ T) as [[Hwhy Es]|[He D]].
  - split; try (by apply K); unfold world_mode, world_header, world_results; simpl; rewrite ?T1, ?T2, ?T3, ?T4, ?Es, ?Hr; try (by apply K); try done.
    + intros g Hg. apply (get_ok_same w); [| |by apply K]; unfold world_mode, world_header; simpl; by rewrite Es.
    + intros Eu El Ee. destruct Hwhy as [?|Hn]; [done|]. apply (mn_helper _ _ _ (cr_main _ K)) in Hn. congruence.
    + intros Eu El. destruct (cr_looked _ K Eu El) as [-> _]. done.
    + intros Ee i x Hx Hlx. destruct Hwhy as [?|Hn]; [done|]. apply (mn_helper _ _ _ (cr_main _ K)) in Hn. rewrite Hn in Hmode.
      destruct Hmode as [_ Hu]. destruct (Forall_lookup_1 _ _ _ _ Hu Hx). congruence.
  - pose proof (rd_mode _ _ _ _ _ D) as Dm. fold (world_mode w) in Hmode, Dm. fold (world_header w) in Hmode, Dm. fold (world_results w) in D, Dm.
    assert (world_mode w = Unknown -> forall i x, data (slices r) !! i = Some x -> loadingFromCache x = true -> False) as Hnone.
    { intros Eu i x Hx Hlx. destruct (rd_reading _ _ _ _ _ D i x Hx Hlx) as (_ & y & Hy & Hly).
      rewrite (none_reading _ i y (mn_sound _ _ _ (cr_main _ K)) Eu Hy) in Hly. done. }
    destruct (bool_decide_reflect (world_mode w = Unknown)) as [Eu|Eu]; cbn [andb] in Dm; [destruct (loadingFromCache (world_header w)) eqn:El|].
    + destruct (cr_looking _ K Eu El He) as [(g & Eg & Hg1 & Hg2 & Er)|(Eg & e & Ep & Er)].
      * rewrite Er, lookup_empty in Dm. destruct Dm as [Dm1 Dm2].
        split; try (by apply K); unfold world_mode, world_header, world_results; simpl; rewrite ?T1, ?T2, ?T3, ?T4, ?Hr; try (by apply K); try congruence.
        -- intros g' Hg'. apply (get_ok_same w); [| |by apply K]; unfold world_mode in *; simpl; congruence.
        -- intros _ _ _. left. by exists g.
        -- intros _ i x Hx Hlx. by destruct (Hnone Eu i x).
      * rewrite Er in Dm. destruct Dm as (Dm1 & Dm2 & Dm3).
        split; try (by apply K); unfold world_mode, world_header, world_results; simpl; rewrite ?T1, ?T2, ?T3, ?T4, ?Hr, ?Eg; try (by apply K); try congruence.
        -- by intros g' ?%not_elem_of_nil.
        -- intros Egood. right. rewrite Dm3 in Egood. destruct (good_from_good S _ Egood) as [_ Egd]. exists e. split; [done|].
           split; [by apply (parsed_included (entry_in (db w) 0))|]. by rewrite Dm1.
        -- done.
        -- intros _ i x Hx Hlx. by destruct (Hnone Eu i x).
    + destruct Dm as (Dm1 & Dm2 & Dm3). destruct (cr_looked _ K Eu El) as [Eg Er].
      split; try (by apply K); unfold world_mode, world_header, world_results; simpl; rewrite ?T1, ?T2, ?T3, ?T4, ?Hr, ?Eg; try (by apply K); try congruence.
      * by intros g' ?%not_elem_of_nil.
      * done.
      * intros _ i x Hx Hlx. by destruct (Hnone Eu i x).
    + destruct Dm as (Dm1 & Dm2 & Dm3). pose proof (rd_changed _ _ _ _ _ D ltac:(intros ?; by destruct Eu)) as Dc.
      split; try (by apply K); unfold world_mode, world_header, world_results; simpl; rewrite ?T1, ?T2, ?T3, ?T4, ?Hr, ?Dm1; try (by apply K); try done.
      * intros g' Hg'. apply (get_ok_same w); [done| |by apply K]. unfold world_mode, world_header. simpl. by rewrite Dm2.
      * rewrite Dm2, Dc. apply (cr_good _ K).
      * intros _ i x Hx Hlx. destruct (rd_reading _ _ _ _ _ D i x Hx Hlx) as (Hn & y & Hy & Hly). left.
        destruct (cr_reading _ K He i y Hy Hly) as [(g & Hg & En)|[p Hp]]; [|congruence]. exists g. split; [done|]. rewrite En. unfold read_number, isGoodHeader. by rewrite Dm1.
Qed.

(** ** Calls are made *)

(** Entry 0 has a good header, after it was written. *)
Lemma entry_written (w : World) (a : list Call) : core w -> world_mode w = Good -> Forall (call_ok C S (slices (reader w))) a ->
  changedSinceCache (world_header w) = false \/ puts_first a -> header_entry (parts (world_header w)) (entry_in (db (absorbed a w)) 0).
Proof.
  intros K Eg Ha Hc. rewrite Forall_forall in Ha. destruct (absorbed_db a w 0) as [[-> Hn]|(b & Hb & ->)].
  - destruct Hc as [Hc|[b Hb]]; [|by destruct (Hn b)]. destruct (cr_good _ K Eg); [congruence|done].
  - destruct (Ha _ Hb) as (_ & _ & _ & Hh). by apply Hh.
Qed.

Lemma core_absorbed (w : World) (new : list Call) (n : nat) : core w -> Forall (call_ok C S (slices (reader w))) new -> (n <= slice_count)%nat ->
  entry_honest n (entry_in (db (absorbed new w)) n).
Proof.
  intros K Ha Hn. rewrite Forall_forall in Ha. destruct (absorbed_db new w n) as [[-> _]|(b & Hb & ->)]; [by apply K|].
  destruct (Ha _ Hb) as (_ & _ & Hh & _). exact Hh.
Qed.

Lemma core_gets (w : World) (new : list Call) (g : Get) : core w -> Forall (call_ok C S (slices (reader w))) new -> reads_written (slices (reader w)) new ->
  g ∈ gets (absorbed new w) -> get_ok w g.
Proof.
  intros K Ha Hr [Hg|(a & c & k & E & Eb & Es)]%absorbed_gets; [by apply K|]. pose proof Ha as Hall. rewrite E in Ha. apply Forall_app in Ha as [Ha1 [Hc _]%Forall_cons].
  destruct Hc as (Hmu & _ & Hn & Hone & Hz & Hc0). split; [done| |left; apply length_zero_iff_nil; congruence| |split; [intros E0; right; by apply Hz|by intros ?%Hmu]].
  - rewrite Eb. by apply core_absorbed.
  - intros Eg. split; [by apply Hone|]. intros E0. rewrite Eb, E0. apply entry_written; [done|done|done|].
    rewrite E0 in E. by apply (Hr Eg a c k).
Qed.

Lemma held_steady (w : World) (r : Reader) (new : list Call) : core w -> steady (reader w) r -> main r -> calls r = new ->
  Forall (call_ok C S (slices (reader w))) new -> (uses_cache S (slices (reader w)) -> keeps S (reader w) r new) -> held (settle w r).
Proof.
  intros K T M En Hok Hk. rewrite (settled w r new En). pose proof (cr_held _ K) as H. rewrite Forall_forall in Hok.
  pose proof (st_mode _ _ _ _ T) as Em. assert (isGoodHeader (slices r) = isGoodHeader (slices (reader w))) as Eg by (unfold isGoodHeader; by rewrite Em).
  assert (forall i, read_number (slices r) i = read_number (slices (reader w)) i) as En' by (intros i; unfold read_number; by rewrite Eg).
  assert (uses_cache S (slices r) -> uses_cache S (slices (reader w))) as Hu by (unfold uses_cache; by rewrite Em).
  assert (world_mode w = Unknown -> forall n, entry_in (db (absorbed new w)) n = entry_in (db w) n) as Hnone.
  { intros Eu n. destruct (absorbed_db new w n) as [[? _]|(b & [Hb _]%Hok & _)]; done. }
  split; unfold stored, world_mode, world_header, world_results; cbn [reader db set_reader set_calls slices loadingOffsets]; rewrite ?Em, ?Eg; try setoid_rewrite En';
    change (helper_results (set_calls [] r)) with (helper_results r); rewrite ?(st_results _ _ _ _ T).
  - intros Huc i y o Hy Hly Hst. apply Hu in Huc. destruct (kp_loaded _ _ _ _ (Hk Huc) i y Hy Hly) as (Hp & x & Hx & Hlx & Hxy). apply Hxy.
    destruct (absorbed_db new w (read_number (slices (reader w)) i)) as [[E _]|(b & Hb & _)]; [|by destruct (Hp b)].
    rewrite E in Hst. by apply (hd_slices _ H Huc i x).
  - intros Huc o Ho Hst. apply Hu in Huc. destruct (kp_asked _ _ _ _ (Hk Huc) o Ho) as (Hp & Hor).
    destruct (absorbed_db new w (read_number (slices (reader w)) (index_of o))) as [[E _]|(b & Hb & E)]; rewrite E in Hst; [|by apply (Hp b)].
    destruct Hor as [Hin|(x & Hx & Hlx & Hno)]; [by apply (hd_asked _ H Huc o)|].
    destruct (hd_slices _ H Huc _ x _ Hx Hlx Hst) as [c Hc]. congruence.
  - intros Huc i p o Hp Hst. apply Hu in Huc.
    destruct (absorbed_db new w (read_number (slices (reader w)) i)) as [[E _]|(b & Hb & _)].
    + rewrite E in Hst. by apply (hd_results _ H Huc i p).
    + rewrite (kp_results _ _ _ _ (Hk Huc)) in Hp by eauto. by rewrite lookup_empty in Hp.
  - intros Eu. rewrite Hnone by done. by apply (hd_first _ H).
  - intros Eu. unfold headed. setoid_rewrite (Hnone Eu). by apply (hd_headed _ H).
  - intros Eu. rewrite (st_header _ _ _ _ T), Hnone by done. by apply (hd_nothing _ H).
Qed.

Lemma core_steady (w : World) (r : Reader) : core w -> steady (reader w) r -> main r -> down r -> core (settle w r).
Proof.
  intros K T Hm Hd. destruct (st_calls _ _ _ _ T) as (new & En & Hok & Hreads & Hch & Hread & Hload & Hk). rewrite (cr_calls _ K) in En. simpl in En.
  pose proof (held_steady w r new K T Hm En Hok Hk) as Hheld. rewrite (settled w r new En) in *. pose proof Hok as Hok'. rewrite Forall_forall in Hok'.
  assert (world_mode w = Unknown -> gets (absorbed new w) = gets w /\ entry_in (db (absorbed new w)) 0 = entry_in (db w) 0) as Hnone.
  { intros Eu. split; [apply absorbed_no_gets; by intros n c [? _]%Hok'|]. destruct (absorbed_db new w 0) as [[? _]|(b & [Hb _]%Hok' & _)]; done. }
  split; unfold world_mode, world_header, world_results; simpl; rewrite ?(st_mode _ _ _ _ T), ?(st_header _ _ _ _ T).
  - split; apply Hm.
  - split; apply Hd.
  - done.
  - intros n Hn. by apply core_absorbed.
  - intros g Hg. apply (get_ok_same w); [| |by apply (core_gets w new)]; unfold world_mode, world_header; simpl; rewrite (st_mode _ _ _ _ T); [done|].
    intros Eg. by apply (st_good _ _ _ _ T).
  - intros Eg. rewrite (st_good _ _ _ _ T) by done. destruct (changedSinceCache (header (slices r))) eqn:Ec; [by left|right].
    apply entry_written; [done|done|done|by apply Hch].
  - intros Eu El Ee. destruct (Hnone Eu) as [-> ->]. change (helper_results (set_calls [] r)) with (helper_results r). rewrite (st_results _ _ _ _ T).
    by apply (cr_looking _ K), (st_error _ _ _ _ T).
  - intros Eu El. destruct (Hnone Eu) as [-> _]. change (helper_results (set_calls [] r)) with (helper_results r). rewrite (st_results _ _ _ _ T). by apply (cr_looked _ K).
  - intros Ee i x Hx Hlx. assert (read_number (slices r) i = read_number (slices (reader w)) i) as -> by (unfold read_number, isGoodHeader; by rewrite (st_mode _ _ _ _ T)).
    change (helper_results (set_calls [] r)) with (helper_results r). rewrite (st_results _ _ _ _ T).
    destruct (Hread i x Hx Hlx) as [(y & Hy & Hly)|Hin].
    + destruct (cr_reading _ K (st_error _ _ _ _ T Ee) i y Hy Hly) as [(g & Hg & Hn)|?]; [left; exists g; split; [by apply absorbed_gets_stay|done]|by right].
    + left. by apply (absorbed_gets_new new w _ 0).
  - intros Ee o Ho. rewrite absorbed_loader. apply Hload; [done|apply (cr_loading _ K); by apply (st_error _ _ _ _ T)|done].
  - intros o b [Ht|Ht]%absorbed_tasks; [by apply K|]. by destruct (Hok' _ Ht).
  - intros x [Hx|Hx]%absorbed_fired; [by apply (cr_fired _ K)|]. destruct x. by apply (Hok' _ Hx).
  - intros o [Ho|Ho]%absorbed_loader%after_calls_from; [by apply (cr_grid _ K)|]. exact (Hok' _ Ho).
  - exact Hheld.
Qed.

(** *** With calls that were made before *)

Lemma settle_reader (w : World) (r : Reader) : reader (settle w r) = set_calls [] r.
Proof. by rewrite (settled w r (calls r)). Qed.

Lemma settle_nil (w : World) (r : Reader) : calls r = [] -> settle w r = set_reader r w.
Proof. intros E. rewrite (settled w r [] E). unfold absorbed. simpl. by destruct r; simpl in *; subst. Qed.

Lemma settle_world (w : World) : calls (reader w) = [] -> settle w (reader w) = w.
Proof. intros E. rewrite settle_nil by done. by destruct w. Qed.

Definition core_at (w : World) (r : Reader) : Prop := core (settle w r).

Lemma core_at_main (w : World) (r : Reader) : core_at w r -> main r /\ down r.
Proof. intros K. pose proof (cr_main _ K) as M. pose proof (cr_down _ K) as D. rewrite settle_reader in M, D. split; split; try apply M; apply D. Qed.

Lemma core_at_took (w : World) (r r' : Reader) : core_at w r -> took r r' -> down r' -> core_at w r'.
Proof.
  intros K T Hd. unfold core_at in *. destruct (tk_same _ _ _ _ T) as (T1 & T2 & T3 & T4 & T5 & T6 & T7 & T8 & T9 & T10).
  assert (settle w r' = set_reader (set_calls [] r') (settle w r)) as ->.
  { rewrite (settled w r' (calls r)), (settled w r (calls r)) by done. done. }
  apply core_took; [done| |split; apply Hd]. rewrite settle_reader. split; [by split_and!|apply T|apply T|apply T].
Qed.

Lemma core_at_steady (w : World) (r r' : Reader) : core_at w r -> steady r r' -> main r' -> down r' -> core_at w r'.
Proof.
  intros K T Hm Hd. unfold core_at in *. destruct (st_calls _ _ _ _ T) as (new & En & Hrest).
  assert (settle w r' = settle (settle w r) (set_calls new r')) as ->.
  { rewrite (settled w r' (calls r ++ new)), (settled (settle w r) (set_calls new r') new), (settled w r (calls r)) by done.
    unfold absorbed. rewrite foldl_app. fold (absorbed (calls r) w). fold (absorbed new (absorbed (calls r) w)). by fold (absorbed new (set_reader (set_calls [] r) (absorbed (calls r) w))); rewrite absorbed_other. }
  apply core_steady; [done| |split; apply Hm|split; apply Hd]. rewrite settle_reader. split; try apply T. exists new. split; [done|].
  destruct Hrest as (H1 & H2 & H3 & H4 & H5 & H6). split_and!; try done. intros Hu. destruct (H6 Hu). by split.
Qed.

Lemma core_at_stepped (w : World) (r r' : Reader) : core_at w r -> stepped C S r r' -> core_at w r'.
Proof. intros K [Hm Hd (r1 & T & Hd1 & Hs) _ _]. apply (core_at_steady w r1); [by apply (core_at_took w r)|done|done|done]. Qed.

Lemma core_at_calm (w : World) (r r' : Reader) : core_at w r -> calm r r' -> down r' -> core_at w r'.
Proof. intros K Hc Hd. apply (core_at_steady w r); [done|by apply calm_steady|apply (calm_main C S r); [done|by apply (core_at_main w)]|done]. Qed.

(** ** Every event *)

(** A reader with the calls that it made. *)
Record fine_at (w : World) (r : Reader) : Prop := {
  fn_core : core_at w r;
  fn_idle : streamingActive r = false -> offs (loadingOffsets r) = [];
  fn_filling : forall f, filling r = Some f -> streamingActive r = true /\ valid_ask S (fillOffset f) (fillBuffer f)
    /\ lastResult f <> Success /\ (lastResult f = Failed -> streamingError r <> None)
    /\ (streamingError r = None -> awaits (fillOffset f) (len (fillBuffer f)) r) }.

Definition fine (w : World) : Prop := calls (reader w) = [] /\ fine_at w (reader w).

Lemma fine_settled (w : World) (r : Reader) : fine_at w r -> fine (settle w r).
Proof.
  intros [K I F]. unfold fine. rewrite settle_reader. split; [done|]. split; [|exact I|exact F]. unfold core_at in *.
  rewrite (settle_nil _ (set_calls [] r)) by done. by rewrite (settled w r (calls r)) in *.
Qed.

Lemma fine_calm (w : World) (r r' : Reader) : fine_at w r -> calm r r' -> down r' -> filling r' = filling r -> fine_at w r'.
Proof.
  intros [K I F] Hc Hd Ef. split; [by apply (core_at_calm w r)| |].
  - rewrite (cm_active _ _ _ _ Hc), (cm_offsets _ _ _ _ Hc). exact I.
  - rewrite Ef, (cm_active _ _ _ _ Hc), (cm_error _ _ _ _ Hc). unfold awaits. rewrite (cm_slices _ _ _ _ Hc), (cm_offsets _ _ _ _ Hc). exact F.
Qed.

Lemma fine_main (w : World) (r : Reader) : fine_at w r -> main r /\ down r.
Proof. intros [K _ _]. by apply (core_at_main w). Qed.

(** What the player, the loader and the cache do. A player fills after it started
    and one buffer at a time, does not sleep or stop in a fill, and says that the
    header is done when it was looked for in the cache and has parts. A part that
    comes is of the file, or is not valid. An answer of the cache is what its
    entry is when it comes: an entry that is being read is not written before
    the answer came ([late_answer_fails] of [ReaderStale] is without this). *)
Definition stoppable (w : World) : Prop := sleeping (reader w) = false /\ filling (reader w) = None.

Definition allowed (e : Event) (w : World) : Prop :=
  match e with
  | StartFill offset buffer => valid_ask S offset buffer /\ filling (reader w) = None /\ streamingActive (reader w) = true
  | ContinueFill => filling (reader w) <> None
  | HeaderDone => filling (reader w) = None /\ (world_mode w = Unknown -> loadingFromCache (world_header w) = false /\ parts (world_header w) <> ∅)
  | StartSleep => filling (reader w) = None
  | StopStreaming _ => stoppable w
  | LoadForDownloader _ offset => on_grid offset
  | DoneForDownloader offset => 0 <= offset < 2 ^ 32
  | PartArrived offset bytes => valid_part S (offset, bytes) = true -> on_grid offset -> bytes = part offset
  | CacheAnswered i => exists g, gets w !! i = Some g /\ getBytes g = entry_in (db w) (getNumber g)
  | RunTask => head (tasks w) = Some StopTask -> stopStreamingAsync_ (reader w) = true -> stoppable w
  | _ => True
  end.

(** What is asked for. *)
Definition asked_for (e : Event) (w : World) : option (Z * list Z) :=
  match e with
  | StartFill offset buffer => Some (offset, buffer)
  | ContinueFill => (fun f => (fillOffset f, fillBuffer f)) <$> filling (reader w)
  | _ => None
  end.

(** A player gets the bytes of the file, or nothing is changed. *)
Definition right_answer (e : Event) (w : World) (a : Answer) : Prop :=
  match a with
  | Some (st, bytes) => exists offset buffer, asked_for e w = Some (offset, buffer)
      /\ bytes = if decide (st = Success) then content C offset (len buffer) else buffer
  | None => True
  end.

Lemma run_settled {A} (m : M Reader A) (w : World) (Q : A -> Reader -> Prop) : wp m Q (reader w) -> exists a r, run m w = Some (a, settle w r) /\ Q a r.
Proof. unfold wp, run. destruct (m (reader w)) as [[a r]|]; [|done]. intros H. by exists a, r. Qed.

(** ** Fills *)

Lemma stepped_active (r r' : Reader) : stepped C S r r' -> streamingActive r' = streamingActive r.
Proof. intros [_ _ (r1 & T & _ & Hs) _ _]. rewrite (st_active _ _ _ _ Hs). by destruct (tk_same _ _ _ _ T) as (_ & _ & _ & _ & ? & _). Qed.

Lemma fine_filled (offset : Z) (buffer : list Z) (a : option (FillState * list Z)) (w : World) (r r' : Reader) : fine_at w r -> streamingActive r = true ->
  valid_ask S offset buffer -> stepped C S r r' -> turn_done C offset buffer a r' -> fine_at w r'.
Proof.
  intros [K _ _] Ha Hv Hs Ht. pose proof (stepped_active _ _ Hs) as Ea. rewrite Ha in Ea. split; [by apply (core_at_stepped w r)|congruence|].
  intros f Hf. destruct a as [x|]; cbn [turn_done] in Ht; [destruct Ht as [Ef _]; congruence|]. destruct Ht as (st & Ef & H1 & H2 & H3). rewrite Ef in Hf. injection Hf as <-. by split_and!.
Qed.

Lemma turn_answer (offset : Z) (buffer : list Z) (x : FillState * list Z) (r : Reader) : turn_done C offset buffer (Some x) r ->
  x.2 = if decide (x.1 = Success) then content C offset (len buffer) else buffer.
Proof. intros (_ & H1 & H2 & _ & _). destruct (decide _); auto. Qed.

Lemma start_fine (offset : Z) (buffer : list Z) (w : World) : fine w -> allowed (StartFill offset buffer) w ->
  exists a w', happen (StartFill offset buffer) w = Some (a, w') /\ fine w' /\ right_answer (StartFill offset buffer) w a.
Proof.
  intros [_ Hf] (Hv & Hn & Ha). destruct (fine_main _ _ Hf) as [Hm Hd]. destruct (run_settled _ w _ (startFill_ok C S size_positive size_bound offset buffer _ Hm Hd Hn Hv)) as (a & r & E & Hs & Ht).
  exists a, (settle w r). split; [exact E|]. split; [by apply fine_settled, (fine_filled offset buffer a w (reader w))|].
  destruct a as [[st bytes]|]; [|done]. exists offset, buffer. split; [done|]. exact (turn_answer _ _ _ _ Ht).
Qed.

Lemma continue_fine (w : World) : fine w -> allowed ContinueFill w ->
  exists a w', happen ContinueFill w = Some (a, w') /\ fine w' /\ right_answer ContinueFill w a.
Proof.
  intros [_ Hf] Hn. destruct (fine_main _ _ Hf) as [Hm Hd]. simpl in Hn. destruct (filling (reader w)) as [f|] eqn:Ef; [|done].
  destruct (fn_filling _ _ Hf f Ef) as (Ha & Hv & Hl & Hfail & Haw).
  destruct (run_settled _ w _ (continueFill_ok C S size_positive size_bound f _ Hm Hd Ef Hv Hl Hfail Haw)) as (a & r & E & Hs & Ht).
  exists a, (settle w r). split; [exact E|]. split; [by apply fine_settled, (fine_filled (fillOffset f) (fillBuffer f) a w (reader w))|].
  destruct a as [[st bytes]|]; [|done]. exists (fillOffset f), (fillBuffer f). split; [simpl; by rewrite Ef|]. exact (turn_answer _ _ _ _ Ht).
Qed.

(** ** The main thread *)

(** What is run keeps a reader as it should be. *)
Definition safe (m : M Reader unit) (w : World) (r : Reader) : Prop := wp m (fun _ r' => fine_at w r') r.

Lemma safe_quiet (m : M Reader unit) (e : Event) (w : World) : happen e w = quiet (run m w) -> safe m w (reader w) ->
  exists a w', happen e w = Some (a, w') /\ fine w' /\ right_answer e w a.
Proof.
  intros -> Hs. destruct (run_settled m w _ Hs) as ([] & r & E & Hf). rewrite E. exists None, (settle w r). split; [done|]. split; [by apply fine_settled|done].
Qed.

Lemma safe_then (m k : M Reader unit) (w : World) (r : Reader) : safe m w r -> (forall r', fine_at w r' -> safe k w r') -> safe (m ;;; k) w r.
Proof. intros Hm Hk. apply wp_bind. eapply wp_mono; [exact Hm|]. intros [] r' Hf. by apply Hk. Qed.

End Fine.
