(* ===== verification/ReaderEvents.v ===== *)
(** * Streaming: every event of a reader

    Nothing that a player, the loader, the cache and a download do makes a
    reader fail, and it stays as it should be. *)

From S2P Require Import Prelude Tcp StateMonad DownloadQueue Streaming SliceCache Slices CacheFacts SliceFacts SlicesFacts SlicesWrite SlicesFill SlicesRead Reader ReaderSystem ReaderFacts ReaderSteps ReaderDown ReaderWorld ReaderFine.

Section Events.
Context (C : Z -> Z) (S : Z).
Hypothesis size_positive : 0 < S.
Hypothesis size_bound : S <= 510 * kInSlice.

#[local] Abbreviation sound := (sound C S).
#[local] Abbreviation slice_count := (slice_count S).
#[local] Abbreviation on_grid := (on_grid S).
#[local] Abbreviation part := (part C S).
#[local] Abbreviation main := (main C S).
#[local] Abbreviation down := (down C S).
#[local] Abbreviation calm := (calm C S).
#[local] Abbreviation core := (core C S).
#[local] Abbreviation core_at := (core_at C S).
#[local] Abbreviation fine_at := (fine_at C S).
#[local] Abbreviation fine := (fine C S).
#[local] Abbreviation safe := (safe C S).

(** ** The download *)

Lemma safe_served (w : World) (r : Reader) : fine_at w r -> filling r = None -> safe processDownloaderRequests w r.
Proof.
  intros Hf Hn. destruct (fine_main C S _ _ Hf) as [Hm Hd]. eapply wp_mono; [by apply (processDownloader_ok C S)|].
  intros [] r' (Hs & Ef & r1 & T & Hc). split; [by apply (core_at_stepped C S w r), Hs; apply Hf| |congruence].
  rewrite (stepped_active C S _ _ Hs), (cm_offsets _ _ _ _ Hc). destruct (tk_same _ _ _ _ T) as (_ & -> & _). apply Hf.
Qed.

Lemma safe_calm (f : Reader -> Reader) (w : World) (r : Reader) : fine_at w r -> calm r (f r) -> down (f r) -> filling (f r) = filling r -> safe (modify f) w r.
Proof. intros Hf Hc Hd Ef. apply wp_modify. by apply (fine_calm C S w r). Qed.

Lemma safe_ret (w : World) (r : Reader) : fine_at w r -> safe (ret tt) w r.
Proof. done. Qed.

(** Steps that call nothing, and calls that do nothing to the slices. *)
Lemma safe_set (f : Reader -> Reader) (w : World) (r : Reader) : fine_at w r -> down (f r) -> kept (f r) = kept r -> calls (f r) = calls r -> safe (modify f) w r.
Proof.
  intros Hf Hd Hk Hc. destruct (fine_main C S _ _ Hf) as [Hm _]. pose proof (easy_quiet C S r (f r) Hm Hd Hk Hc) as He. apply safe_calm; [done|apply He|done|apply He].
Qed.

Lemma safe_call (c : Call) (w : World) (r : Reader) : fine_at w r -> call_ok C S (slices r) c -> quiet_call (slices r) c -> safe (call c) w r.
Proof.
  intros Hf Ho Hq. destruct (fine_main C S _ _ Hf) as [Hm Hd]. apply safe_calm; [done| |by split; apply Hd|done].
  split; try done. exists [c]. split; [done|]. by split; apply Forall_singleton.
Qed.

Lemma safe_same (f : Reader -> Reader) (w : World) (r : Reader) : fine_at w r -> offsetsForDownloader (f r) = offsetsForDownloader r ->
  downloaderOffsetRequests (f r) = downloaderOffsetRequests r -> downloaderReadCache (f r) = downloaderReadCache r -> kept (f r) = kept r -> calls (f r) = calls r ->
  safe (modify f) w r.
Proof.
  intros Hf E1 E2 E3 Hk Hc. destruct (fine_main C S _ _ Hf) as [_ Hd]. apply safe_set; [done| |done|done]. split; [rewrite E1, E2|rewrite E3]; apply Hd.
Qed.

Lemma safe_gets {A} (f : Reader -> A) (k : A -> M Reader unit) (w : World) (r : Reader) : safe (k (f r)) w r -> safe (x <- StateMonad.gets f ;; k x) w r.
Proof. intros H. apply wp_bind, wp_gets, H. Qed.

Lemma safe_if (b : bool) (m k : M Reader unit) (w : World) (r : Reader) : (b = true -> safe m w r) -> (b = false -> safe k w r) -> safe (if b then m else k) w r.
Proof. destruct b; auto. Qed.

Lemma safe_refresh (w : World) (r : Reader) : fine_at w r -> safe refreshLoaderPriority w r.
Proof. intros Hf. apply safe_gets, safe_call; [done|done|done]. Qed.

Lemma safe_priority (p : Z) (w : World) (r : Reader) : fine_at w r -> safe (setLoaderPriority p) w r.
Proof.
  intros Hf. apply safe_gets, safe_if; intros _; [by apply safe_ret|]. apply (safe_then C S); [by apply safe_same|]. intros r1. apply safe_refresh.
Qed.

Lemma safe_sleeping (b : bool) (w : World) (r : Reader) : fine_at w r -> safe (modify (set_sleeping b)) w r.
Proof.
  intros Hf. destruct (fine_main C S _ _ Hf) as [_ Hd]. apply safe_calm; [done| |split; apply Hd|done]. split; try done. exists []. by rewrite app_nil_r.
Qed.

Lemma safe_wake (w : World) (r : Reader) : fine_at w r -> safe wakeFromSleep w r.
Proof.
  intros Hf. apply safe_gets, safe_if; intros _; [|by apply safe_ret]. apply (safe_then C S); [by apply safe_sleeping|]. intros r1 H1. by apply safe_call.
Qed.

Lemma safe_cancel (d : nat) (w : World) (r : Reader) : fine_at w r -> safe (cancelForDownloader d) w r.
Proof.
  intros Hf. destruct (fine_main C S _ _ Hf) as [_ Hd]. apply safe_gets, safe_if; intros _; [|by apply safe_ret]. apply (safe_then C S).
  - apply safe_set; [done| |done|done]. apply (wanted_down C S r _ Hd); [|by right]. simpl. rewrite app_nil_r. by apply list_subseteq_app_l.
  - intros r1 H1. by apply safe_call.
Qed.

Lemma safe_serve_idle (w : World) (r : Reader) : fine_at w r -> streamingActive r = false -> safe processDownloaderRequests w r.
Proof.
  intros Hf Ha. apply safe_served; [done|]. destruct (filling r) as [f|] eqn:Ef; [|done]. destruct (fn_filling _ _ _ _ Hf f Ef) as [? _]. congruence.
Qed.

Lemma safe_done (offset : Z) (w : World) (r : Reader) : fine_at w r -> 0 <= offset < 2 ^ 32 -> safe (doneForDownloader offset) w r.
Proof.
  intros Hf Ho. apply safe_gets. unfold id. rewrite (proj2 (Z.ltb_ge offset 0)), (proj2 (Z.leb_gt (2 ^ 32) offset)) by lia. cbn [orb].
  apply wp_bind, wp_modify. set (r1 := set_acks _ r). assert (fine_at w r1) as H1 by exact (safe_same (fun r => set_acks (downloaderOffsetAcks r ++ [offset]) r) w r Hf eq_refl eq_refl eq_refl eq_refl eq_refl).
  apply safe_if; intros Ha; [by apply safe_ret|by apply safe_serve_idle].
Qed.

Lemma safe_load (d : nat) (offset : Z) (w : World) (r : Reader) : fine_at w r -> on_grid offset -> safe (loadForDownloader d offset) w r.
Proof.
  intros Hf Ho. pose proof Ho as [Hr _]. apply safe_gets. unfold id. sizes. rewrite (proj2 (Z.ltb_ge offset 0)), (proj2 (Z.leb_gt (2 ^ 32) offset)) by lia. cbn [orb].
  assert (forall r', streamingActive r' = streamingActive r -> fine_at w r' -> safe (modify (fun r => set_requests (downloaderOffsetRequests r ++ [offset]) r) ;;;
    if streamingActive r then wakeFromSleep else processDownloaderRequests) w r') as Hrest.
  { intros r' Ea Hf'. destruct (fine_main C S _ _ Hf') as [_ [D1 D2]]. apply wp_bind, wp_modify. set (r2 := set_requests _ r').
    assert (fine_at w r2) as H2.
    { refine (safe_set (fun r => set_requests (downloaderOffsetRequests r ++ [offset]) r) w r' Hf' _ eq_refl eq_refl). split; [|done]. simpl. rewrite app_assoc.
      apply Forall_app. split; [done|]. by apply Forall_singleton. }
    apply safe_if; intros Ha; [by apply safe_wake|apply safe_serve_idle; [done|]]. simpl. congruence. }
  assert (forall (m : M Reader unit) r', safe m w r' -> along (fun a b => streamingActive b = streamingActive a) m -> streamingActive r' = streamingActive r ->
    safe (m ;;; modify (fun r => set_requests (downloaderOffsetRequests r ++ [offset]) r) ;;; if streamingActive r then wakeFromSleep else processDownloaderRequests) w r') as Hafter.
  { intros m r' Hm Ha Ea. apply wp_bind. eapply wp_mono; [apply (wp_also _ _ (fun _ r'' => streamingActive r'' = streamingActive r) _ Hm)|].
    - intros [] r'' E. rewrite <- Ea. by apply (Ha r' tt).
    - intros [] r'' [Hf1 Ea1]. by apply Hrest. }
  assert (PreOrder (fun a b : Reader => streamingActive b = streamingActive a)) as Hpre by (split; [by intros ?|intros a b c; congruence]).
  assert (forall r', fine_at w r' -> safe (modify (set_downloader (Some d)) ;;; call (AttachDownloader d)) w r') as Hattach.
  { intros r' Hf'. apply (safe_then C S); [by apply safe_same|]. intros r1 Hf1. by apply safe_call. }
  apply Hafter; [|unfold cancelForDownloader, call; along; by apply along_modify|done]. apply safe_if; intros _; [by apply safe_ret|].
  destruct (attachedDownloader r) as [old|]; (apply (safe_then C S); [|intros r1; apply Hattach]); [by apply safe_cancel|by apply safe_ret].
Qed.

(** ** The player comes and goes *)

Lemma core_less (w : World) (r r' : Reader) : core_at w r -> main r' -> down r' -> calls r' = calls r -> slices r' = slices r ->
  helper_results r' = helper_results r -> streamingError r' = streamingError r -> loadedParts r' = loadedParts r ->
  (forall o, o ∈ offs (loadingOffsets r') -> o ∈ offs (loadingOffsets r)) -> core_at w r'.
Proof.
  intros K Hm Hd Ec Es Er Ee Ep Ho. unfold ReaderFine.core_at in *. rewrite (settled w r (calls r)) in K by done. rewrite (settled w r' (calls r)) by done.
  destruct K as [K1 K2 K3 K4 K5 K6 K7 K8 K9 K10 K11 K12 K13 K14]. assert (held S (set_reader (set_calls [] r') (absorbed (calls r) w))) as K14'.
  { eapply (held_less S); [exact K14|done..|]. unfold world_results. simpl. change (helper_results (set_calls [] r')) with (helper_results r'). by rewrite Er. }
  unfold world_mode, world_header, world_results in *. simpl in *.
  split; unfold world_mode, world_header, world_results; simpl; rewrite ?Es, ?Ee, ?Ep; try done.
  - by split; try apply Hm.
  - by split; apply Hd.
  - intros g Hg. apply (get_ok_same C S (set_reader (set_calls [] r) (absorbed (calls r) w))); [| |by apply K5]; unfold world_mode, world_header; simpl; by rewrite Es.
  - change (helper_results (set_calls [] r')) with (helper_results r'). by rewrite Er.
  - change (helper_results (set_calls [] r')) with (helper_results r'). by rewrite Er.
  - change (helper_results (set_calls [] r')) with (helper_results r'). by rewrite Er.
  - intros He o Hin. by apply K10, Ho.
Qed.

Lemma safe_start (w : World) (r : Reader) : fine_at w r -> safe startStreaming w r.
Proof.
  intros Hf. destruct (fine_main C S _ _ Hf) as [Hm Hd]. apply (safe_then C S); [|intros r1; apply safe_refresh]. apply wp_modify. split.
  - apply (core_less w r); [apply Hf|by split; try apply Hm|by split; apply Hd|done..].
  - done.
  - intros f Hff. by destruct (fn_filling _ _ _ _ Hf f Hff) as [_ ?].
Qed.

Lemma safe_stop (b : bool) (w : World) (r : Reader) : fine_at w r -> sleeping r = false -> filling r = None -> safe (stopStreaming b) w r.
Proof.
  intros Hf Hs Hn. destruct (fine_main C S _ _ Hf) as [Hm Hd]. apply safe_gets. unfold id. rewrite Hs. apply wp_bind, wp_modify, wp_bind, wp_modify.
  set (r1 := set_waiting false (set_stop false r)). assert (fine_at w r1) as H1.
  { apply (fine_calm C S w r); [done| |by split; apply Hd|done]. split; try done. exists []. by rewrite app_nil_r. }
  apply safe_if; intros _; [by apply safe_ret|]. set (q := clear (loadingOffsets r)).
  assert (core_at w (set_active false r1)) as K2 by (apply (core_less w r1); [apply H1|by split; try apply Hm|by split; apply Hd|done..]).
  set (r2 := set_calls (calls r ++ [SetPriority 0]) (set_active false r1)). assert (core_at w r2) as K3.
  { apply (core_at_calm C S w (set_active false r1)); [done| |by split; apply Hd]. split; try done. exists [SetPriority 0]. split; [done|]. by split; apply Forall_singleton. }
  assert (core_at w (set_offsets q r2)) as K4.
  { apply (core_less w r2); [done| |by split; apply Hd|done..|by intros o ?%not_elem_of_nil].
    split; try (by apply Hm); try done; simpl; [split; [apply SSorted_nil|apply NoDup_nil_2|done]|by intros o ?%not_elem_of_nil|by intros o p ?%not_elem_of_nil]. }
  apply wp_bind, wp_modify, wp_bind, wp_bind, wp_gets, wp_modify, wp_bind, wp_modify. apply safe_served; [|done]. split; [exact K4|done|].
  intros f Hff. simpl in Hff. congruence.
Qed.

(** ** The header is read *)

Lemma done_absent (s : Slices) (o : Z) : sound s -> headerMode s = Unknown -> on_grid o -> absent S s o -> absent S (header_done S s) o.
Proof.
  intros Hs Eu Ho Ha. pose proof (absent_in_header C S size_bound o s Hs Ho) as Hh. unfold absent in *. destruct (full S); [done|]. split.
  - intros x. simpl. rewrite list_lookup_fmap. destruct (data s !! index_of o) as [y|] eqn:Ey; [|done]. intros [= <-]. destruct Ha as [A1 _]. by apply (A1 y).
  - intros _ _. by apply Hh.
Qed.

Lemma good_from_known (p : PartsMap) : good_from S p <> Unknown /\ good_from S p <> NoCache.
Proof. unfold good_from. by destruct (full S), (ComputeIsGoodHeader S p). Qed.

Lemma fine_core_world (w : World) : fine w -> core w.
Proof. intros [Ec Hf]. pose proof (fn_core _ _ _ _ Hf) as K. unfold ReaderFine.core_at in K. by rewrite settle_world in K. Qed.

(** Nothing is in the cache when no header was found. *)
Lemma done_held (w : World) (s' : Slices) : core w -> world_mode w = Unknown -> loadingFromCache (world_header w) = false ->
  sound s' -> headerMode s' <> Unknown -> held S (set_reader (set_slices s' (reader w)) w).
Proof.
  intros K Eu El Hs' Hm. pose proof (cr_held _ _ _ K) as H. destruct (hd_nothing _ _ H Eu El) as (e & He & Ee).
  destruct (hd_headed _ _ H Eu e He Ee) as [Hinc Hrest]. destruct (cr_looked _ _ _ K Eu El) as [_ Er].
  set (w' := set_reader _ w). assert (forall i o, (i < slice_count)%nat -> ~ stored S w' i o) as Hno.
  { intros i o Hi. unfold stored, holds, read_number, w'. simpl. destruct (isGoodHeader s' && (i =? 0)%nat).
    - intros (e' & p & He' & Hp & [b Hb]). rewrite He in He'. injection He' as <-. by rewrite (Hinc p Hp), lookup_empty in Hb.
    - intros (e' & He' & [b Hb]). by rewrite (Hrest i e' Hi He'), lookup_empty in Hb. }
  split; unfold world_mode, world_header, world_results in *; cbn [reader db set_reader w' slices set_slices loadingOffsets].
  - intros _ i y o Hy _ Hst. destruct (Hno i o); [|done]. rewrite <- (sd_count _ _ _ Hs'). by eapply lookup_lt_Some.
  - intros (_ & _ & Ef) o Ho. apply Hno. apply (index_in S size_bound); [done|]. by apply (mn_loading _ _ _ (cr_main _ _ _ K)).
  - intros _ i p o. change (helper_results (set_slices s' (reader w))) with (helper_results (reader w)). by rewrite Er, lookup_empty.
  - done.
  - done.
  - done.
Qed.

Lemma safe_header (w : World) : fine w -> allowed C S HeaderDone w -> safe readerHeaderDone w (reader w).
Proof.
  intros [Ec Hf] [Hn Ha]. destruct (fine_main C S _ _ Hf) as [Hm Hd]. apply wp_on_slices.
  destruct (decide (headerMode (slices (reader w)) = Unknown)) as [Eu|Eu]; [|unfold wp; rewrite headerDone_again by done; by replace (set_slices (slices (reader w)) (reader w)) with (reader w) by (by destruct (reader w))].
  destruct (Ha Eu) as [El Hp]. unfold world_header in El, Hp. pose proof (mn_sound _ _ _ Hm) as Hs. destruct (headerDone_ok C S _ Hs Eu El Hp) as [E Hs']. unfold wp. rewrite E.
  set (s' := header_done S (slices (reader w))) in *. destruct (good_from_known (parts (header (slices (reader w))))) as [G1 G2].
  assert (core w) as K by (pose proof (fn_core _ _ _ _ Hf) as K; unfold ReaderFine.core_at in K; by rewrite settle_world in K).
  destruct (cr_looked _ _ _ K Eu El) as [Eg Er]. unfold world_results in Er.
  assert (forall i x, data s' !! i = Some x -> loadedFromCache x = true /\ loadingFromCache x = false) as Hdata.
  { intros i x. simpl. rewrite list_lookup_fmap. destruct (data (slices (reader w)) !! i) as [y|] eqn:Ey; [|done]. intros [= <-]. split; [done|]. by apply (none_reading C S _ i y Hs Eu). }
  assert (main (set_slices s' (reader w))) as Hm'.
  { split; try (by apply Hm); try done; simpl.
    - intros o Ho. destruct (mn_loading _ _ _ Hm o Ho) as [? Hab]. split; [done|by apply done_absent].
    - rewrite (mn_helper _ _ _ Hm), Eu. split; [done|]. intros E'. by destruct G2.
    - change (helper_results (set_slices s' (reader w))) with (helper_results (reader w)). rewrite Er. apply fit_empty. intros _ x o Hx Hld. destruct (Hdata _ x Hx). congruence. }
  split; [|apply Hf|intros f Hff; simpl in Hff; congruence]. unfold ReaderFine.core_at. rewrite settle_nil by done.
  pose proof (done_held w s' (fine_core_world w (conj Ec Hf)) Eu El) as Hheld.
  destruct K as [K1 K2 K3 K4 K5 K6 K7 K8 K9 K10 K11 K12 K13 K14]. split; try done; unfold world_mode, world_header, world_results; simpl.
  - by split; apply Hd.
  - rewrite Eg. by intros g ?%not_elem_of_nil.
  - intros _. left. by apply (mn_header _ _ _ Hm).
  - intros _ i x Hx Hlx. destruct (Hdata i x Hx). congruence.
  - apply Hheld; [exact Hs'|by destruct (good_from_known (parts (header (slices (reader w)))))].
Qed.

(** ** A part comes *)

Definition with_part (offset : Z) (bytes : list Z) (r : Reader) : Reader :=
  if streamingActive r then set_loadedParts (loadedParts r ++ [(offset, bytes)]) r else r.

Lemma arrived_core (offset : Z) (bytes : list Z) (w : World) : fine w -> allowed C S (PartArrived offset bytes) w ->
  core (mk_world (with_part offset bytes (reader w)) (db w) (gets w) (tasks w) (atLoader w ∖ {[offset]}) (fired w)).
Proof.
  intros Hw Ha. pose proof (fine_core_world w Hw) as K. destruct Hw as [Ec Hf]. pose proof (fn_idle _ _ _ _ Hf) as Hidle.
  assert (held S (mk_world (with_part offset bytes (reader w)) (db w) (gets w) (tasks w) (atLoader w ∖ {[offset]}) (fired w))) as Hheld.
  { eapply (held_less S); [exact (cr_held _ _ _ K)|..]; unfold with_part, world_results; simpl; by destruct (streamingActive _). }
  destruct K as [K1 K2 K3 K4 K5 K6 K7 K8 K9 K10 K11 K12 K13 K14].
  assert (main (with_part offset bytes (reader w)) /\ down (with_part offset bytes (reader w))) as [M D].
  { unfold with_part. destruct (streamingActive (reader w)); [|done]. split; [|by split; apply K2]. split; try (by apply K1); try apply K1; simpl.
    intros p [Hp| ->%list_elem_of_singleton]%elem_of_app; [by apply (mn_parts _ _ _ K1)|done]. }
  split; unfold world_mode, world_header, world_results in *; try done; cbn [reader db gets tasks atLoader fired].
  - unfold with_part. by destruct (streamingActive _).
  - intros g Hg. apply (get_ok_same C S w); [| |by apply K5]; unfold world_mode, world_header, with_part; simpl; by destruct (streamingActive _).
  - unfold with_part. by destruct (streamingActive _).
  - unfold with_part. by destruct (streamingActive _).
  - unfold with_part. by destruct (streamingActive _).
  - unfold with_part. by destruct (streamingActive _).
  - intros He o Ho. unfold with_part in *. destruct (streamingActive (reader w)) eqn:Eact; simpl in *.
    + rewrite fmap_app, elem_of_app. destruct (decide (o = offset)) as [->|Hne]; [right; right; left|].
      destruct (K10 He o Ho) as [?|?]; [left; apply elem_of_difference; by split; [|apply not_elem_of_singleton]|right; by left].
    + rewrite (Hidle eq_refl) in Ho. by apply not_elem_of_nil in Ho.
  - intros o [Ho _]%elem_of_difference. by apply K13.
Qed.

Lemma arrived_fine (offset : Z) (bytes : list Z) (w : World) : fine w -> allowed C S (PartArrived offset bytes) w ->
  exists a w', happen (PartArrived offset bytes) w = Some (a, w') /\ fine w' /\ right_answer C (PartArrived offset bytes) w a.
Proof.
  intros Hw Ha. pose proof (arrived_core offset bytes w Hw Ha) as K. destruct Hw as [Ec Hf]. set (r1 := with_part offset bytes (reader w)) in *.
  set (w1 := mk_world (reader w) (db w) (gets w) (tasks w) (atLoader w ∖ {[offset]}) (fired w)). assert (calls r1 = []) as E1 by (unfold r1, with_part; by destruct (streamingActive _)).
  assert (fine_at w1 r1) as H1.
  { split; [unfold ReaderFine.core_at; rewrite settle_nil by done; exact K| |]; unfold r1, with_part; destruct (streamingActive (reader w)) eqn:E; try done; try (by apply Hf). }
  destruct (fine_main C S _ _ H1) as [M1 D1].
  assert (exists r', partArrived offset bytes (reader w) = Some (tt, r') /\ calm r1 r' /\ down r' /\ filling r' = filling r1) as (r' & E & Hc & Hd & Ef).
  { set (new := (if bool_decide (attachedDownloader (reader w) = None) then [] else [Fired offset bytes]) ++ (if waiting (reader w) then [Release] else [])).
    assert (forall b, calm r1 (set_calls new (set_waiting b r1))) as Hcalm.
    { intros b. split; try done. exists new. simpl. rewrite E1. split; [done|]. unfold new.
      split; (apply Forall_app; split; [by destruct (bool_decide _); [|apply Forall_singleton]|by destruct (waiting _); [apply Forall_singleton|]]). }
    exists (set_calls new (set_waiting false r1)). split; [|split; [apply Hcalm|split; [by split; apply D1|done]]].
    unfold partArrived, bind, StateMonad.gets, id, r1, with_part, new. clear -Ec. destruct (reader w) as [? ? ? wait ? ? ? ? ? attached ? active ? ? ? ? ? ? made]. simpl in *. subst made.
    by destruct attached, active, wait. }
  assert (run (partArrived offset bytes) w1 = Some (tt, settle w1 r')) as Er by (unfold run; simpl; by rewrite E).
  unfold happen. fold w1. rewrite Er. exists None, (settle w1 r'). split; [done|]. split; [|done]. by apply fine_settled, (fine_calm C S w1 r1).
Qed.

(** ** The cache answers *)

Lemma emplace_some {V} (k j : Z) (v x : V) (m : gmap Z V) : emplace k v m !! j = Some x <-> m !! j = Some x \/ m !! j = None /\ j = k /\ x = v.
Proof.
  unfold emplace. destruct (m !! k) as [y|] eqn:E.
  - split; [by left|]. intros [?|(Hj & -> & _)]; [done|congruence].
  - rewrite lookup_insert_Some. split.
    + intros [[<- <-]|[_ ?]]; [by right|by left].
    + intros [Hj|(_ & -> & ->)]; [|by left]. right. split; [|done]. intros ->. congruence.
Qed.

(** What the helper has after an answer. *)
Definition found_with (n : nat) (e : ParsedCacheEntry) (res : gmap Z PartsMap) : gmap Z PartsMap :=
  let found := emplace (Z.of_nat n) (parsed e) res in
  match included e with Some first => if (n =? 0)%nat then emplace 1 first found else found | None => found end.

Lemma found_some (n : nat) (e : ParsedCacheEntry) (res : gmap Z PartsMap) (j : Z) (p : PartsMap) : found_with n e res !! j = Some p ->
  res !! j = Some p \/ j = Z.of_nat n /\ p = parsed e \/ j = 1 /\ n = O /\ included e = Some p.
Proof.
  unfold found_with. destruct (included e) as [first|]; [destruct (Nat.eqb_spec n 0) as [->|]|].
  - intros [[?|(_ & -> & ->)]%emplace_some|(_ & -> & ->)]%emplace_some; [by left|right; by left|right; by right].
  - intros [?|(_ & -> & ->)]%emplace_some; [by left|right; by left].
  - intros [?|(_ & -> & ->)]%emplace_some; [by left|right; by left].
Qed.

Lemma emplace_stays {V} (k j : Z) (v : V) (m : gmap Z V) : is_Some (m !! j) \/ j = k -> is_Some (emplace k v m !! j).
Proof.
  unfold emplace. intros H. destruct (m !! k) as [y|] eqn:E; [destruct H as [?| ->]; [done|by eexists]|].
  destruct (decide (k = j)) as [->|]; [rewrite lookup_insert_eq; by eexists|rewrite lookup_insert_ne by done]. by destruct H.
Qed.

Lemma found_stays (n : nat) (e : ParsedCacheEntry) (res : gmap Z PartsMap) (j : Z) :
  is_Some (res !! j) \/ j = Z.of_nat n \/ j = 1 /\ n = O /\ is_Some (included e) -> is_Some (found_with n e res !! j).
Proof.
  intros H. unfold found_with. destruct (included e) as [first|]; [destruct (Nat.eqb_spec n 0) as [->|]|].
  - apply emplace_stays. destruct H as [?|[?|(? & _)]]; [left; apply emplace_stays; by left|left; apply emplace_stays; by right|by right].
  - apply emplace_stays. destruct H as [?|[?|(_ & ? & _)]]; [by left|by right|done].
  - apply emplace_stays. destruct H as [?|[?|(_ & _ & ?)]]; [by left|by right|by destruct H].
Qed.

Lemma included_not_full (bytes : list Z) (n : nat) (e : ParsedCacheEntry) : ParseCacheEntry bytes n S = Some e -> is_Some (included e) -> n = O /\ full S = false.
Proof.
  unfold ParseCacheEntry, full. destruct (MaxSliceSize n S) as [m|]; [|done]. destruct (ParseCachedMap ∅ bytes m) as [p rest].
  destruct ((n =? 0)%nat && _) eqn:E; [|intros [= <-] [? ?]; done]. apply andb_true_iff in E as [E1%Nat.eqb_eq E2]. intros _ _. split; [done|].
  unfold ComputeIsGoodHeader in E2. by destruct (IsFullInHeader S).
Qed.

Lemma found_fits (w : World) (g : Get) (e : ParsedCacheEntry) : main (reader w) -> get_ok C S w g -> ParseCacheEntry (getBytes g) (getNumber g) S = Some e ->
  results_fit C S (found_with (getNumber g) e (world_results w)) (slices (reader w)).
Proof.
  intros M [G1 (e' & Ep & Ht & Hsz & Hinc) _ G4] E. rewrite E in Ep. injection Ep as <-. pose proof (mn_results _ _ _ M) as [F1 F2 F3 F4 F5]. fold (world_results w) in *.
  set (n := getNumber g) in *. split; [| | | |exact F5].
  - intros p [?|[[En ->]|(? & _)]]%found_some; [by apply F1| |done]. assert (n = O) as E0 by lia. rewrite E0 in *. split; [exact Ht|by apply Hsz].
  - intros j p Hj [?|[[-> ->]|(-> & E0 & Hi)]]%found_some; [by apply F2| |].
    + destruct n as [|k]; [done|]. split; [simpl in *; lia|]. cbn [snd fst]. replace (index (Z.of_nat (Datatypes.S k))) with k by (unfold index; lia). exact Ht.
    + destruct (included_not_full _ _ _ E ltac:(by eexists)) as [_ Ef]. destruct (slice_count_ok S size_bound Ef) as [_ ?]. split; [simpl; lia|]. exact (Hinc p Hi).
  - intros p Hp Ef Hgood. apply found_stays. apply found_some in Hp as [Hp|[[En ->]|(? & _)]]; [left; by apply (F3 p)| |done].
    right. right. assert (n = O) as E0 by lia. split; [done|]. split; [done|]. rewrite E0 in E. by apply (parsed_included S (getBytes g)).
  - intros Eg. destruct (F4 Eg) as [[F6 F7] F8]. destruct (G4 Eg) as [G5 G6]. split; [split|].
    + intros [p Hp]. apply found_stays. apply found_some in Hp as [Hp|[[En ->]|(? & _)]]; [left; apply F6; by eexists| |done].
      right. right. assert (n = O) as E0 by lia. destruct (G6 E0) as (e' & Ee' & Hi & _). rewrite E0 in E. rewrite E in Ee'. injection Ee' as <-. done.
    + intros [p Hp]. apply found_stays. apply found_some in Hp as [Hp|[[En ->]|(_ & E0 & _)]]; [left; apply F7; by eexists| |right; left; lia]. destruct G5. lia.
    + intros p o Hp Ho. apply found_some in Hp as [Hp|[[En ->]|(? & _)]]; [by apply (F8 p)| |done]. assert (n = O) as E0 by lia.
      destruct (G6 E0) as (e' & Ee' & _ & Hs). rewrite E0 in E. rewrite E in Ee'. injection Ee' as <-. by apply Hs.
Qed.

(** An answer that holds nothing of what is being loaded. *)
Definition unseen (o : Z) (n : nat) (e : ParsedCacheEntry) : Prop :=
  (n = Datatypes.S (index_of o) -> parsed e !! (o - base (index_of o)) = None)
  /\ (n = O -> index_of o = O -> forall p, included e = Some p -> p !! o = None).

(** An answer is such if its entry was not written since it was asked for. *)
Lemma answer_unseen (w : World) (g : Get) (e : ParsedCacheEntry) (o : Z) : core w -> g ∈ gets w -> getBytes g = entry_in (db w) (getNumber g) ->
  cacheHelper (reader w) <> None -> ParseCacheEntry (getBytes g) (getNumber g) S = Some e -> o ∈ offs (loadingOffsets (reader w)) -> unseen o (getNumber g) e.
Proof.
  intros K Hg Hb Hh Ep Ho. pose proof (cr_main _ _ _ K) as M. destruct (cr_gets _ _ _ K g Hg) as [G1 _ _ G4 G5].
  destruct (decide (world_mode w = Unknown)) as [Eu|Eu].
  { exfalso. destruct (loadingFromCache (world_header w)) eqn:El.
    - rewrite (mn_waits _ _ _ M Eu El) in Ho. by apply not_elem_of_nil in Ho.
    - destruct (cr_looked _ _ _ K Eu El) as [E _]. rewrite E in Hg. by apply not_elem_of_nil in Hg. }
  assert (world_mode w <> NoCache) as Hc by (intros E; apply Hh, (mn_helper _ _ _ M), E).
  destruct (full S) eqn:Ef.
  { assert (slice_count = O) as E0 by (unfold SlicesFacts.slice_count; by rewrite Ef). split; [lia|]. intros _ _ p Hp.
    destruct (included_not_full _ _ _ Ep ltac:(by eexists)) as [_ ?]. congruence. }
  pose proof (hd_asked _ _ (cr_held _ _ _ K) (conj Eu (conj Hc Ef)) o Ho) as Hno. unfold stored, holds, read_number, isGoodHeader in Hno.
  fold (world_mode w) in Hno. rewrite Hb in Ep. split.
  - intros En. rewrite En in Ep. destruct (bool_decide (world_mode w = Good) && (index_of o =? 0)%nat) eqn:E.
    + apply andb_true_iff in E as [Eg%bool_decide_eq_true Ei%Nat.eqb_eq]. destruct (G4 Eg) as [Hn _]. by rewrite En, Ei in Hn.
    + destruct (parsed e !! _) as [c|] eqn:Ec; [|done]. destruct Hno. exists e. split; [done|by eexists].
  - intros En Ei p Hp. rewrite En in Ep. destruct (proj1 G5 En) as [?|Eg]; [done|]. rewrite Ei, bool_decide_eq_true_2 in Hno by done. simpl in Hno.
    unfold base in Hno. replace (o - Z.of_nat 0 * kInSlice) with o in Hno by lia. destruct (p !! o) as [c|] eqn:Ec; [|done].
    destruct Hno. exists e, p. split_and!; [done|done|by eexists].
Qed.

Definition with_answer (n : nat) (e : ParsedCacheEntry) (sizes_ : list Z) (r : Reader) : Reader :=
  match cacheHelper r with
  | Some h => set_helper (Some (mk_helper (found_with n e (results h)) sizes_ false)) r
  | None => r
  end.

Lemma gets_delete (w : World) (i : nat) (g g' : Get) : gets w !! i = Some g -> g' ∈ gets w -> g' = g \/ g' ∈ delete i (gets w).
Proof.
  intros Hi Hg. rewrite (delete_take_drop (gets w) i), elem_of_app. rewrite <- (take_drop_middle (gets w) i g Hi), elem_of_app, elem_of_cons in Hg. tauto.
Qed.

Lemma delete_sub {A} (l : list A) (i : nat) : delete i l ⊆ l.
Proof. intros x. rewrite delete_take_drop, elem_of_app. intros [?%subseteq_take|?%subseteq_drop]; done. Qed.

Lemma answered_main (w : World) (i : nat) (g : Get) (e : ParsedCacheEntry) (h : CacheHelper) : core w -> gets w !! i = Some g -> cacheHelper (reader w) = Some h ->
  ParseCacheEntry (getBytes g) (getNumber g) S = Some e -> (forall o, o ∈ offs (loadingOffsets (reader w)) -> unseen o (getNumber g) e) ->
  main (with_answer (getNumber g) e (getSizes g) (reader w)) /\ down (with_answer (getNumber g) e (getSizes g) (reader w)).
Proof.
  intros K Hi Eh Ep Hun. pose proof (cr_main _ _ _ K) as M. pose proof (cr_down _ _ _ K) as D. assert (get_ok C S w g) as Hg by (apply (cr_gets _ _ _ K); by eapply list_elem_of_lookup_2).
  pose proof (found_fits w g e M Hg Ep) as Hfit. assert (world_results w = results h) as Er by (unfold world_results, helper_results; by rewrite Eh). rewrite Er in Hfit.
  unfold with_answer. rewrite Eh. split; [|split; apply D]. split; try (by apply M); try apply M; simpl.
  - split; [done|]. intros E. apply (mn_helper _ _ _ M) in E. congruence.
  - exact Hfit.
  - intros o p Ho. unfold helper_results. simpl. pose proof (mn_clear _ _ _ M o p Ho) as Hc. unfold helper_results in Hc. rewrite Eh in Hc. simpl in Hc.
    destruct (Hun o Ho) as [U1 U2]. intros [Hp|[[En ->]|(E1 & E0 & Hp)]]%found_some; [by apply Hc|apply U1; lia|].
    assert (index_of o = 0%nat) as Eo by lia. rewrite Eo. unfold base. replace (o - Z.of_nat 0 * kInSlice) with o by lia. by apply U2.
  - intros h' [= <-]. simpl. split; [apply (gk_sizes _ _ _ _ Hg)|]. intros Em.
    destruct (found_stays (getNumber g) e (results h) (Z.of_nat (getNumber g))) as [x Hx]; [right; by left|]. rewrite Em, lookup_empty in Hx. done.
Qed.

(** What was taken before the answer has what the entry holds, and so has the
    answer. *)
Lemma answered_held (w : World) (i : nat) (g : Get) (e : ParsedCacheEntry) (h : CacheHelper) : core w -> gets w !! i = Some g ->
  cacheHelper (reader w) = Some h -> ParseCacheEntry (getBytes g) (getNumber g) S = Some e -> getBytes g = entry_in (db w) (getNumber g) ->
  held S (mk_world (with_answer (getNumber g) e (getSizes g) (reader w)) (db w) (delete i (gets w)) (tasks w) (atLoader w) (fired w)).
Proof.
  intros K Hi Eh Ep Hb. rewrite Hb in Ep. pose proof (cr_held _ _ _ K) as [H1 H2 H3 H4 H5 H6]. pose proof (list_elem_of_lookup_2 _ _ _ Hi) as Hg.
  destruct (cr_gets _ _ _ K g Hg) as [_ _ _ G4 G5]. unfold with_answer. rewrite Eh. set (r' := set_helper _ (reader w)).
  assert (world_results w = results h) as Er by (unfold world_results, helper_results; by rewrite Eh). rewrite Er in H3, H4.
  split; try done; unfold world_mode, world_results in *; cbn [reader db]; change (helper_results r') with (found_with (getNumber g) e (results h)).
  - intros Hu j p o [Hp|[[En ->]|(E1 & En & Hp)]]%found_some Hst; [by apply (H3 Hu j p)| |].
    + unfold stored, holds in Hst. cbn [reader db] in Hst. change (slices r') with (slices (reader w)) in Hst.
      assert (getNumber g = Datatypes.S j) as En' by lia. unfold read_number in Hst.
      destruct (isGoodHeader (slices (reader w)) && (j =? 0)%nat) eqn:E.
      * apply andb_true_iff in E as [Eg%bool_decide_eq_true ->%Nat.eqb_eq]. by destruct (G4 Eg).
      * rewrite En' in Ep. destruct Hst as (e' & He' & Ho). rewrite Ep in He'. by injection He' as <-.
    + assert (j = 0%nat) as -> by lia. destruct (proj1 G5 En) as [?|Eg]; [by destruct Hu|]. unfold stored, holds, read_number, isGoodHeader in Hst. cbn [reader db] in Hst.
      change (slices r') with (slices (reader w)) in Hst. rewrite bool_decide_eq_true_2 in Hst by done. simpl in Hst.
      destruct Hst as (e' & p' & He' & Hp' & Ho). rewrite En, He' in Ep. injection Ep as <-. congruence.
  - intros Eu e' p q o He' Hp [Hq|[[En _]|(_ & En & Hq)]]%found_some Ho; [by apply (H4 Eu e' p q o)| |].
    + pose proof (proj2 G5 Eu). lia.
    + rewrite En, He' in Ep. injection Ep as <-. congruence.
Qed.

Lemma answered_core (w : World) (i : nat) (g : Get) (e : ParsedCacheEntry) (h : CacheHelper) : core w -> gets w !! i = Some g -> cacheHelper (reader w) = Some h ->
  ParseCacheEntry (getBytes g) (getNumber g) S = Some e -> getBytes g = entry_in (db w) (getNumber g) ->
  core (mk_world (with_answer (getNumber g) e (getSizes g) (reader w)) (db w) (delete i (gets w)) (tasks w) (atLoader w) (fired w)).
Proof.
  intros K Hi Eh Ep Hb. assert (forall o, o ∈ offs (loadingOffsets (reader w)) -> unseen o (getNumber g) e) as Hun
    by (intros o Ho; apply (answer_unseen w g e o); try done; [by eapply list_elem_of_lookup_2|congruence]).
  destruct (answered_main w i g e h K Hi Eh Ep Hun) as [M D]. assert (get_ok C S w g) as Hg by (apply (cr_gets _ _ _ K); by eapply list_elem_of_lookup_2).
  assert (world_results w = results h) as Er by (unfold world_results, helper_results; by rewrite Eh).
  assert (gets w = [] -> False) as Hsome by (intros E0; by rewrite E0 in Hi).
  assert (held S (mk_world (with_answer (getNumber g) e (getSizes g) (reader w)) (db w) (delete i (gets w)) (tasks w) (atLoader w) (fired w))) as Hheld
    by (by apply (answered_held w i g e h)).
  destruct K as [K1 K2 K3 K4 K5 K6 K7 K8 K9 K10 K11 K12 K13 K14]. unfold with_answer in *. rewrite Eh in *.
  split; unfold world_mode, world_header, world_results in *; try done; simpl.
  - intros g' Hg'. apply (get_ok_same C S w); [done|done|]. by apply K5, (delete_sub _ i).
  - intros Eu El Ee. right. destruct (K7 Eu El Ee) as [(g' & Eg & En & Eb & Em)|[E0 _]]; [|by destruct Hsome]. rewrite Eg in Hi |- *.
    destruct i; [|done]. injection Hi as ->. split; [done|]. exists e. rewrite <- Eb. rewrite En in Ep. split; [done|]. unfold helper_results. simpl.
    rewrite Em in Er. rewrite <- Er, En. unfold found_with.
    assert (emplace (Z.of_nat 0) (parsed e) (∅ : gmap Z PartsMap) !! 0 = Some (parsed e)) as E0 by (apply emplace_some; right; by rewrite lookup_empty).
    destruct (included e); [|done]. simpl Nat.eqb. cbv iota. apply emplace_some. by left.
  - intros Eu El. by destruct (K8 Eu El) as [? _].
  - intros Ee j x Hx Hlx. unfold helper_results. simpl. destruct (K9 Ee j x Hx Hlx) as [(g' & Hg' & En)|Hr].
    + destruct (gets_delete w i g g' Hi Hg') as [->|?]; [right|left; by exists g']. apply found_stays. right.
      unfold read_number in En. destruct (isGoodHeader (slices (reader w)) && (j =? 0)%nat) eqn:Ej; [right|left; by rewrite En].
      apply andb_true_iff in Ej as [Eg%bool_decide_eq_true ->%Nat.eqb_eq]. split; [done|]. split; [done|]. destruct (gk_good _ _ _ _ Hg Eg) as [_ Hh].
      destruct (Hh En) as (e' & Ee' & Hinc & _). rewrite En in Ep. rewrite Ep in Ee'. by injection Ee' as <-.
    + right. apply found_stays. left. by rewrite Er in Hr.
Qed.

Lemma answered_none (w : World) (i : nat) : core w -> cacheHelper (reader w) = None ->
  core (mk_world (reader w) (db w) (delete i (gets w)) (tasks w) (atLoader w) (fired w)).
Proof.
  intros K Eh. apply (mn_helper _ _ _ (cr_main _ _ _ K)) in Eh. pose proof (sd_mode _ _ _ (mn_sound _ _ _ (cr_main _ _ _ K))) as Hm. unfold mode_ok in Hm. rewrite Eh in Hm.
  assert (held S (mk_world (reader w) (db w) (delete i (gets w)) (tasks w) (atLoader w) (fired w))) as Hheld by (by apply (held_less S w); [apply K|..]).
  destruct K as [K1 K2 K3 K4 K5 K6 K7 K8 K9 K10 K11 K12 K13 K14]. split; unfold world_mode, world_header, world_results in *; try done; simpl.
  - intros g' Hg'. apply (get_ok_same C S w); [done|done|]. by apply K5, (delete_sub _ i).
  - congruence.
  - congruence.
  - intros Ee j x Hx Hlx. destruct Hm as [_ Hu]. destruct (Forall_lookup_1 _ _ _ _ Hu Hx). congruence.
Qed.

Lemma answered_fine (i : nat) (w : World) : fine w -> allowed C S (CacheAnswered i) w ->
  exists a w', happen (CacheAnswered i) w = Some (a, w') /\ fine w' /\ right_answer C (CacheAnswered i) w a.
Proof.
  intros Hw (g & Hi & Hb). pose proof (fine_core_world w Hw) as K. destruct Hw as [Ec Hf].
  assert (get_ok C S w g) as [_ (e & Ep & _) _ _] by (apply (cr_gets _ _ _ K); by eapply list_elem_of_lookup_2).
  assert (loaderSize (reader w) = S) as Esz by apply (cr_main _ _ _ K).
  set (w1 := mk_world (reader w) (db w) (delete i (gets w)) (tasks w) (atLoader w) (fired w)). set (r1 := with_answer (getNumber g) e (getSizes g) (reader w)).
  assert (calls r1 = []) as E1 by (unfold r1, with_answer; by destruct (cacheHelper (reader w))).
  assert (fine_at w1 r1) as H1.
  { split.
    - unfold ReaderFine.core_at. rewrite settle_nil by done. destruct (cacheHelper (reader w)) as [h|] eqn:Eh.
      + exact (answered_core w i g e h K Hi Eh Ep Hb).
      + unfold r1, with_answer. rewrite Eh. exact (answered_none w i K Eh).
    - unfold r1, with_answer. destruct (cacheHelper (reader w)); apply Hf.
    - unfold r1, with_answer. destruct (cacheHelper (reader w)); apply Hf. }
  destruct (fine_main C S _ _ H1) as [M1 D1].
  assert (exists r', cacheResult (getNumber g) e (getSizes g) (reader w) = Some (tt, r') /\ calm r1 r' /\ down r' /\ filling r' = filling r1) as (r' & E & Hc & Hd & Ef).
  { unfold cacheResult, bind, StateMonad.gets, id, r1, with_answer. destruct (cacheHelper (reader w)) as [h|] eqn:Eh.
    - set (r2 := set_helper _ _). eexists. split; [reflexivity|]. unfold r1, with_answer in D1. rewrite Eh in D1. split; [|split; [by split; apply D1|done]].
      split; try done. eexists. split; [reflexivity|]. destruct (cacheWaiting h); by split; apply Forall_singleton.
    - exists (reader w). unfold r1, with_answer in D1. rewrite Eh in D1. split; [done|]. split; [apply calm_refl|done]. }
  assert (run (cacheResult (getNumber g) e (getSizes g)) w1 = Some (tt, settle w1 r')) as Er by (unfold run; simpl; by rewrite E).
  unfold happen. rewrite Hi, Esz, Ep. fold w1. rewrite Er. exists None, (settle w1 r'). split; [done|]. split; [|done]. by apply fine_settled, (fine_calm C S w1 r1).
Qed.

(** ** Tasks *)

Lemma fine_other (w w' : World) : fine w -> reader w' = reader w -> db w' = db w -> gets w' = gets w -> atLoader w' = atLoader w -> tasks w' ⊆ tasks w ->
  (forall x, x ∈ fired w' -> x ∈ fired w \/ FireTask x.1 x.2 ∈ tasks w) -> fine w'.
Proof.
  intros Hw E1 E2 E3 E4 Ht Hx. pose proof (fine_core_world w Hw) as K. destruct Hw as [Ec Hf]. split; [by rewrite E1|]. rewrite E1. destruct Hf as [_ I F]. split; [|done|done].
  unfold ReaderFine.core_at. rewrite settle_nil by done.
  assert (held S (set_reader (reader w) w')) as Hheld by (by apply (held_less S w); [apply K|..]).
  destruct K as [K1 K2 K3 K4 K5 K6 K7 K8 K9 K10 K11 K12 K13 K14].
  split; unfold world_mode, world_header, world_results in *; simpl; rewrite ?E2, ?E3, ?E4; try done.
  - intros g Hg. apply (get_ok_same C S w); [done|done|by apply K5].
  - intros o b Ho. by apply K11, Ht.
  - intros x [?|Hin]%Hx; [by apply K12|]. destruct (K11 _ _ Hin) as [_ ->]. done.
Qed.

Lemma task_fine (w : World) : fine w -> allowed C S RunTask w ->
  exists a w', happen RunTask w = Some (a, w') /\ fine w' /\ right_answer C RunTask w a.
Proof.
  intros Hw Ha. unfold happen. unfold allowed in Ha. destruct (tasks w) as [|t rest] eqn:Et; [by exists None, w|].
  set (w1 := mk_world (reader w) (db w) (gets w) rest (atLoader w) (fired w)).
  assert (fine w1) as Hw1 by (apply (fine_other w); [done..|rewrite Et; by apply list_subseteq_cons|by left]). destruct t as [o b| |].
  - eexists None, _. split; [done|]. split; [|done]. apply (fine_other w); try done; [rewrite Et; by apply list_subseteq_cons|]. simpl.
    intros x [?| ->%list_elem_of_singleton]%elem_of_app; [by left|right]. rewrite Et. left.
  - assert (safe stopStreamingLater w1 (reader w1)) as Hs.
    { apply safe_gets, safe_if; intros E; [|by apply safe_ret, Hw1]. destruct (Ha eq_refl E) as [? ?]. by apply safe_stop; [apply Hw1| |]. }
    destruct (run_settled _ w1 _ Hs) as ([] & r & E & Hf). rewrite E. exists None, (settle w1 r). split; [done|]. split; [by apply fine_settled|done].
  - assert (safe checkCacheResultsForDownloader w1 (reader w1)) as Hs.
    { apply safe_gets, safe_if; intros E; [by apply safe_ret, Hw1|]. by apply safe_serve_idle; [apply Hw1|]. }
    destruct (run_settled _ w1 _ Hs) as ([] & r & E & Hf). rewrite E. exists None, (settle w1 r). split; [done|]. split; [by apply fine_settled|done].
Qed.

(** ** All of them *)

Lemma event_fine (e : Event) (w : World) : fine w -> allowed C S e w ->
  exists a w', happen e w = Some (a, w') /\ fine w' /\ right_answer C e w a.
Proof.
  intros Hw Ha. assert (fine_at w (reader w)) as Hf by apply Hw. destruct e.
  - by apply (start_fine C S).
  - by apply (continue_fine C S).
  - apply (safe_quiet C S readerHeaderDone); [done|by apply safe_header].
  - apply (safe_quiet C S startSleep); [done|]. apply wp_bind, wp_modify, safe_served; [|done]. exact (safe_sleeping true w _ Hf).
  - apply (safe_quiet C S stopSleep); [done|by apply safe_sleeping].
  - apply (safe_quiet C S wakeFromSleep); [done|by apply safe_wake].
  - apply (safe_quiet C S stopStreamingAsync); [done|]. destruct (fine_main C S _ _ Hf) as [_ Hd]. apply (safe_then C S); [|intros r1 H1; by apply safe_call].
    apply safe_calm; [done| |split; apply Hd|done]. split; try done. exists []. by rewrite app_nil_r.
  - apply (safe_quiet C S tryRemoveLoaderAsync); [done|by apply safe_call].
  - apply (safe_quiet C S startStreaming); [done|by apply safe_start].
  - destruct Ha. apply (safe_quiet C S (stopStreaming stillActive)); [done|by apply safe_stop].
  - apply (safe_quiet C S (loadForDownloader downloader offset)); [done|by apply safe_load].
  - apply (safe_quiet C S (doneForDownloader offset)); [done|by apply safe_done].
  - apply (safe_quiet C S (cancelForDownloader downloader)); [done|by apply safe_cancel].
  - apply (safe_quiet C S (setLoaderPriority priority)); [done|by apply safe_priority].
  - by apply arrived_fine.
  - by apply answered_fine.
  - by apply task_fine.
Qed.

End Events.
