(* ===== verification/ReaderRun.v ===== *)
(** * Streaming: what a player is promised

    From an empty reader on nothing fails, and a player gets the bytes of the
    file; what is waited for, in the slices or in the queue, is on its way. *)

From S2P Require Import Prelude Tcp StateMonad DownloadQueue Streaming SliceCache Slices CacheFacts SliceFacts SlicesFacts SlicesWrite SlicesFill SlicesRead Reader ReaderSystem ReaderFacts ReaderSteps ReaderDown ReaderWorld ReaderFine ReaderEvents.

Section Run.
Context (C : Z -> Z) (S : Z).
Hypothesis size_positive : 0 < S.
Hypothesis size_bound : S <= 510 * kInSlice.

#[local] Abbreviation sound := (sound C S).
#[local] Abbreviation slice_count := (slice_count S).
#[local] Abbreviation on_grid := (on_grid S).
#[local] Abbreviation part := (part C S).
#[local] Abbreviation main := (main C S).
#[local] Abbreviation down := (down C S).
#[local] Abbreviation core := (core C S).
#[local] Abbreviation fine := (fine C S).

(** ** A reader that is new *)

Lemma new_slices (useCache : bool) : exists s, Slices_new S useCache = Some s /\ sound s
  /\ s = mk_slices (replicate slice_count Slice_new) (set_loading useCache Slice_new) [] S (if useCache then Unknown else NoCache) false.
Proof.
  assert ((if IsFullInHeader S then Some 0 else SlicesCount S) = Some (Z.of_nat slice_count)) as Ec.
  { destruct (IsFullInHeader S) eqn:Ef; [|by apply count_is]. unfold SlicesFacts.slice_count, full. by rewrite Ef. }
  eexists. split; [|split; [|done]].
  { unfold Slices_new. rewrite (proj2 (Z.ltb_lt 0 S)) by done. cbn [negb]. rewrite Ec. cbn. by rewrite Nat2Z.id. }
  assert (forall i x, replicate slice_count Slice_new !! i = Some x -> x = Slice_new) as Hr by (intros i x [? _]%lookup_replicate; done).
  split; simpl; try done.
  - by rewrite length_replicate.
  - intros i x ->%Hr. done.
  - apply Forall_lookup. intros i x ->%Hr. by split.
  - intros _. rewrite map_size_empty. lia.
  - unfold mode_ok. simpl. destruct useCache; simpl.
    + split_and!; try done; [apply Forall_lookup; intros i x ->%Hr; done| |intros i x ->%Hr o _ [b Hb]; by rewrite lookup_empty in Hb].
      intros _. split; [done|]. apply Forall_lookup. intros i x ->%Hr. done.
    + split; [done|]. apply Forall_lookup. intros i x ->%Hr. done.
Qed.

(** The entries of a cache database are of the file. *)
Definition honest (d : gmap nat (list Z)) : Prop := forall n, (n <= slice_count)%nat -> entry_honest C S n (entry_in d n).

Lemma new_main (s : Slices) (useCache : bool) : sound s ->
  s = mk_slices (replicate slice_count Slice_new) (set_loading useCache Slice_new) [] S (if useCache then Unknown else NoCache) false ->
  let r := mk_reader S (if useCache then Some CacheHelper_new else None) [] false false false PriorityQueue_new s None None 1 false [] ∅ ∅ [] [] None [] in
  main r /\ down r.
Proof.
  intros Hs -> r. split.
  - split; try done; simpl.
    + split; simpl; [apply SSorted_nil|apply NoDup_nil_2|done].
    + by intros o ?%not_elem_of_nil.
    + by destruct useCache.
    + assert (helper_results r = ∅) as -> by (unfold r, helper_results; by destruct useCache). apply fit_empty. by destruct useCache.
    + by intros o p ?%not_elem_of_nil.
    + destruct useCache; [|done]. intros h [= <-]. by split; [left|].
    + by intros p ?%not_elem_of_nil.
  - split; simpl; [constructor|]. intros n c. by rewrite lookup_empty.
Qed.

Lemma new_fine (d : gmap nat (list Z)) (useCache : bool) : honest d -> headed S d -> exists w, World_new d S useCache = Some w /\ fine w.
Proof.
  intros Hd Hhd. destruct (new_slices useCache) as (s & E & Hs & Es). destruct (new_main s useCache Hs Es) as [M D]. sizes.
  unfold World_new, Reader_new, Reader_init. rewrite (wrapu_small 32 S) by (unfold fits_u; lia). rewrite E. cbv beta zeta iota.
  set (r := mk_reader _ _ _ _ _ _ _ _ _ _ _ _ _ _ _ _ _ _ _) in *.
  assert (forall i x, data s !! i = Some x -> loadingFromCache x = false) as Hnone by (rewrite Es; intros i x [-> _]%lookup_replicate; done).
  assert (requestSliceSizesCount s = if useCache then slice_count else O) as Ecount.
  { rewrite Es. unfold requestSliceSizesCount, headerModeUnknown, isFullInHeader. cbn [headerMode data Slices.size]. destruct useCache; [|done].
    rewrite bool_decide_eq_true_2, length_replicate by done. cbn [negb orb]. unfold SlicesFacts.slice_count, full. by destruct (IsFullInHeader S). }
  assert (forall g, (forall x, x ∈ g -> useCache = true /\ x = mk_get 0 (entry_in d 0) ((fun i => len (entry_in d (Datatypes.S i))) <$> seq 0 slice_count)) ->
    (useCache = true -> g <> []) -> (length g <= 1)%nat -> fine (mk_world r d g [] ∅ [])) as Hfine.
  { intros g Hg Hsome Hone. split; [done|]. split; [|done|done]. unfold core_at. rewrite settle_nil by done. unfold set_reader. cbn [reader db gets tasks atLoader fired].
    split; unfold world_mode, world_header, world_results; cbn [reader db gets tasks atLoader fired slices]; try done.
    - intros x [-> ->]%Hg. split; cbn [getNumber getBytes getSizes]; [lia|apply Hd; lia| | |].
      + right. by rewrite length_fmap, length_seq.
      + unfold world_mode, r. simpl. by rewrite Es.
      + unfold world_mode, r. simpl. rewrite Es. simpl. split; [by left|done].
    - unfold r. simpl. rewrite Es. simpl. by destruct useCache.
    - unfold r. simpl. rewrite Es. simpl. destruct useCache; [|done]. intros _ _ _. left. destruct g as [|x [|y g]]; [by destruct Hsome| |simpl in Hone; lia].
      destruct (Hg x) as [_ ->]; [left|]. by eexists.
    - unfold r. simpl. rewrite Es. simpl. by destruct useCache.
    - intros _ i x Hx Hlx. rewrite (Hnone i x Hx) in Hlx. done.
    - by intros _ o ?%not_elem_of_nil.
    - by intros o b ?%not_elem_of_nil.
    - by intros x ?%not_elem_of_nil.
    - assert (helper_results r = ∅) as Er by (unfold r, helper_results; by destruct useCache).
      split; unfold world_mode, world_header, world_results; cbn [reader db]; rewrite ?Er; try done.
      + intros _ i y o Hy Hly. change (data s !! i = Some y) in Hy. rewrite Es in Hy. apply lookup_replicate in Hy as [-> _]. done.
      + by intros _ o ?%not_elem_of_nil.
      + unfold r. simpl. rewrite Es. simpl. by destruct useCache. }
  destruct useCache; eexists; (split; [reflexivity|]).
  - apply (Hfine [_]); [|done|simpl; lia]. intros x ->%list_elem_of_singleton. by rewrite <- Ecount.
  - apply (Hfine []); [|done|simpl; lia]. by intros x ?%not_elem_of_nil.
Qed.

(** ** All that can happen *)

Inductive reached (d : gmap nat (list Z)) (useCache : bool) : World -> Prop :=
  | reached_new w : World_new d S useCache = Some w -> reached d useCache w
  | reached_event w e a w' : reached d useCache w -> allowed C S e w -> happen e w = Some (a, w') -> reached d useCache w'.

Lemma reached_fine (d : gmap nat (list Z)) (useCache : bool) (w : World) : honest d -> headed S d -> reached d useCache w -> fine w.
Proof.
  intros Hd Hhd. induction 1 as [w Hw|w e a w' Hw IH Ha He].
  - destruct (new_fine d useCache Hd Hhd) as (w' & E & Hf). congruence.
  - destruct (event_fine C S size_positive size_bound e w IH Ha) as (b & w2 & E & Hf & _). congruence.
Qed.

(** The world after an event. *)
Definition next (e : Event) (w : World) : World := from_option snd w (happen e w).

Lemma reached_next (d : gmap nat (list Z)) (useCache : bool) (e : Event) (w : World) : reached d useCache w -> allowed C S e w -> reached d useCache (next e w).
Proof. intros Hw Ha. unfold next. destruct (happen e w) as [[a w']|] eqn:E; [by eapply reached_event|done]. Qed.

(** C8. A reader never fails, in whatever order the loader, a player, a download
    and the cache do something; a player that is answered has the bytes of the
    file, or its buffer as it was. Two things are asked of the cache, without
    which it does fail ([evicted_header_fails], [late_answer_fails]): a database
    that has parts of the file has its header, and an answer is what the entry
    is when the answer comes, that is, an entry is not written while it is being
    read. *)
Theorem reader_never_fails (d : gmap nat (list Z)) (useCache : bool) (w : World) (e : Event) : honest d -> headed S d -> reached d useCache w -> allowed C S e w ->
  exists a w', happen e w = Some (a, w') /\ right_answer C e w a.
Proof.
  intros Hd Hhd Hw Ha. destruct (event_fine C S size_positive size_bound e w (reached_fine d useCache w Hd Hhd Hw) Ha) as (a & w' & E & _ & Hr). by exists a, w'.
Qed.

(** What a player waits for is on its way: the header or a slice is read from
    the cache, or something was read and waits to be taken, or a part that is
    needed is at the loader or came. *)
Definition on_its_way (offset n : Z) (w : World) : Prop :=
  (exists g, g ∈ gets w /\ (world_mode w = Unknown /\ getNumber g = O
    \/ exists i, getNumber g = read_number (slices (reader w)) i /\ base i < offset + n /\ offset < base i + kInSlice))
  \/ world_results w <> ∅
  \/ exists o, offset < o + kPartSize /\ o < offset + n /\ (o ∈ atLoader w \/ o ∈ (loadedParts (reader w)).*1).

Lemma some_result (w : World) (n : Z) : is_Some (world_results w !! n) -> world_results w <> ∅.
Proof. intros [p Hp] E. by rewrite E, lookup_empty in Hp. Qed.

Lemma awaited_on_its_way (offset n : Z) (w : World) : fine w -> streamingError (reader w) = None -> awaits offset n (reader w) -> on_its_way offset n w.
Proof.
  intros Hf Ee Ha. pose proof (fine_core_world C S w Hf) as K. unfold on_its_way. destruct Ha as [El|[(i & x & Hx & Hlx & Hi1 & Hi2)|(o & Ho & Ho1 & Ho2)]].
  - assert (world_mode w = Unknown) as Eu.
    { pose proof (mn_sound _ _ _ (cr_main _ _ _ K)) as Hs. pose proof (sd_mode _ _ _ Hs) as Hm. pose proof (flag_one _ (sd_header_flags _ _ _ Hs) El) as Hld.
      unfold mode_ok in Hm. fold (world_mode w) in Hm. destruct (world_mode w); [done| | | |].
      - destruct Hm as (_ & ? & _). congruence.
      - destruct Hm as (_ & ? & _). congruence.
      - destruct Hm as (_ & ?). congruence.
      - destruct Hm as [[? _] _]. congruence. }
    destruct (cr_looking _ _ _ K Eu El Ee) as [(g & Eg & En & _)|(_ & e & _ & Er)].
    + left. exists g. split; [rewrite Eg; left|by left].
    + right. left. apply (some_result w 0). by eexists.
  - destruct (cr_reading _ _ _ K Ee i x Hx Hlx) as [(g & Hg & En)|Hr].
    + left. exists g. split; [done|]. right. by exists i.
    + right. left. by apply (some_result w (Z.of_nat (Datatypes.S i))).
  - right. right. exists o. split; [done|]. split; [done|]. by apply (cr_loading _ _ _ K).
Qed.

(** C20. Between events the slices are well formed (each part is of the file, of its
    length and in its slice, the flags agree with the mode of the header), the
    queue of offsets is sorted and has each offset once, and no offset of it is
    of a part already in memory; what is asked of the cache is as for
    [reader_never_fails]. *)
Theorem reader_well_formed (d : gmap nat (list Z)) (useCache : bool) (w : World) : honest d -> headed S d -> reached d useCache w ->
  let r := reader w in sound (slices r) /\ queue_ok (loadingOffsets r)
  /\ forall o, o ∈ offs (loadingOffsets r) -> on_grid o /\ absent S (slices r) o.
Proof.
  intros Hd Hhd Hw. pose proof (cr_main _ _ _ (fine_core_world C S w (reached_fine d useCache w Hd Hhd Hw))) as M.
  split; [exact (mn_sound _ _ _ M)|]. split; [exact (mn_queue _ _ _ M)|exact (mn_loading _ _ _ M)].
Qed.

End Run.
