(* ===== verification/ReaderWaits.v ===== *)
(** * Streaming: a player that waits, and what a download is given

    A player was told to wait and was not woken since: what it waits for is on
    its way. What is given to a download is of the file, or comes from the loader
    as it is. *)

From S2P Require Import Prelude Tcp StateMonad DownloadQueue Streaming SliceCache Slices CacheFacts SliceFacts SlicesFacts SlicesWrite SlicesFill SlicesRead Reader ReaderSystem ReaderFacts ReaderSteps ReaderDown ReaderWorld ReaderFine ReaderEvents ReaderRun.

(** ** Nothing is given to a download on the way *)

(** Parts are fired where they come from the loader, and by the main thread. *)
Definition no_fired (r r' : Reader) : Prop := forall o b, Fired o b ∈ calls r' -> Fired o b ∈ calls r.

#[local] Instance no_fired_preorder : PreOrder no_fired.
Proof. split; [by intros r o b|]. intros r1 r2 r3 H1 H2 o b H. by apply H1, H2. Qed.

Lemma nf_same (f : Reader -> Reader) : (forall r, calls (f r) = calls r) -> along no_fired (modify f).
Proof. intros Hf. apply along_modify. intros r o b. by rewrite Hf. Qed.

Lemma nf_call (c : Call) : (forall o b, c <> Fired o b) -> along no_fired (call c).
Proof.
  intros Hc. apply along_modify. intros r o b. simpl. intros [?|E%list_elem_of_singleton]%elem_of_app; [done|]. by destruct (Hc o b).
Qed.

Lemma nf_slices {A} (m : M Slices A) : along no_fired (on_slices m).
Proof. intros r a r'. unfold on_slices. destruct (m (slices r)) as [[x s]|]; [|done]. by intros [= _ <-] o b. Qed.

#[local] Hint Resolve nf_slices : along.
#[local] Hint Extern 2 (along no_fired (modify _)) => (apply nf_same; done) : along.
#[local] Hint Extern 2 (along no_fired (call _)) => (apply nf_call; intros; repeat case_match; done) : along.
#[local] Hint Extern 2 (along no_fired (with_helper _)) => (apply nf_same; done) : along.
#[local] Hint Extern 3 (along no_fired (each _ _)) => (apply along_each; intros ?; along) : along.

Lemma nf_results : along no_fired processCacheResults.
Proof. unfold processCacheResults. along. Qed.

Lemma nf_parts (l : list (Z * list Z)) : along no_fired (processParts l).
Proof. induction l as [|p l IH]; cbn [processParts]; unfold processLoadedPart; along. Qed.
#[local] Hint Resolve nf_results nf_parts : along.

Lemma nf_more : along no_fired checkForSomethingMoreReceived.
Proof. unfold checkForSomethingMoreReceived, processLoadedParts. along. Qed.
#[local] Hint Resolve nf_more : along.

Lemma nf_fill (offset : Z) (buffer : list Z) : along no_fired (fillFromSlices offset buffer).
Proof.
  unfold fillFromSlices, readFromCache, cancelLoadInRange, putToCache, checkLoadWillBeFirst, loadAtOffset. along.
Qed.
#[local] Hint Resolve nf_fill : along.

Lemma nf_fillTurn (offset : Z) (buffer : list Z) : along no_fired (fillTurn offset buffer).
Proof. unfold fillTurn, setWaiting. along. Qed.
#[local] Hint Resolve nf_fillTurn : along.

Lemma nf_start (offset : Z) (buffer : list Z) : along no_fired (startFill offset buffer).
Proof. unfold startFill. along. Qed.

Lemma nf_continue : along no_fired continueFill.
Proof. unfold continueFill, setWaiting. along. Qed.

Lemma nf_unavailable (o : Z) : along no_fired (unavailable o).
Proof. unfold unavailable, unavailableInCache, unavailableInBytes. along. Qed.
#[local] Hint Resolve nf_unavailable : along.

Lemma nf_ready (l : list Z) : along no_fired (dropReady l).
Proof. induction l; cbn [dropReady]; along. Qed.
#[local] Hint Resolve nf_ready : along.

Lemma nf_request (o : Z) : along no_fired (sendDownloaderRequest o).
Proof. unfold sendDownloaderRequest, downloaderWaitForCachedSlice, readFromCacheForDownloader, readFromCache. along. Qed.
#[local] Hint Resolve nf_request : along.

Lemma nf_requests : along no_fired processDownloaderRequests.
Proof.
  unfold processDownloaderRequests, enqueueDownloaderOffsets, checkForDownloaderChange, checkForDownloaderReadyOffsets, pruneDoneDownloaderRequests, pruneDownloaderCache, sendDownloaderRequests. along.
Qed.
#[local] Hint Resolve nf_requests : along.

Lemma nf_wake : along no_fired wakeFromSleep.
Proof. unfold wakeFromSleep. along. Qed.
Lemma nf_cancel (d : nat) : along no_fired (cancelForDownloader d).
Proof. unfold cancelForDownloader. along. Qed.
#[local] Hint Resolve nf_wake nf_cancel : along.

Lemma nf_load (d : nat) (o : Z) : along no_fired (loadForDownloader d o).
Proof. unfold loadForDownloader. along. Qed.
Lemma nf_stop (b : bool) : along no_fired (stopStreaming b).
Proof. unfold stopStreaming, refreshLoaderPriority. along. Qed.
Lemma nf_answer (n : nat) (e : ParsedCacheEntry) (l : list Z) : along no_fired (cacheResult n e l).
Proof. unfold cacheResult. along. Qed.
#[local] Hint Resolve nf_load nf_stop nf_answer : along.

(** What is given to the download by calls. *)
Definition given (l : list Call) : list (Z * list Z) := omap (fun c => match c with Fired o b => Some (o, b) | _ => None end) l.

Lemma absorbed_given (l : list Call) (w : World) : fired (absorbed l w) = fired w ++ given l.
Proof.
  revert w. induction l as [|c l IH]; intros w; [by rewrite app_nil_r|]. change (absorbed (c :: l) w) with (absorbed l (absorb w c)). rewrite IH.
  destruct c; try done. simpl. by rewrite <- app_assoc.
Qed.

Lemma run_given {A} (m : M Reader A) (w w' : World) (a : A) : along no_fired m -> calls (reader w) = [] -> run m w = Some (a, w') -> fired w' = fired w.
Proof.
  unfold run. intros Hm Hc. destruct (m (reader w)) as [[x r]|] eqn:E; [|done]. intros [= _ <-]. rewrite (settled w r _ eq_refl). simpl. rewrite absorbed_given.
  destruct (given (calls r)) as [|[o b] l] eqn:Eg; [by rewrite app_nil_r|]. exfalso.
  assert ((o, b) ∈ given (calls r)) as (c & Hin & Ec)%list_elem_of_omap by (rewrite Eg; left). destruct c; try done. injection Ec as -> ->.
  apply (Hm _ _ _ E) in Hin. rewrite Hc in Hin. by apply not_elem_of_nil in Hin.
Qed.

Lemma quiet_given (m : M Reader unit) (w w' : World) (a : Answer) : along no_fired m -> calls (reader w) = [] -> quiet (run m w) = Some (a, w') -> fired w' = fired w.
Proof. intros Hm Hc. unfold quiet. destruct (run m w) as [[[] w1]|] eqn:E; [|done]. intros [= _ <-]. by apply (run_given m w w1 tt). Qed.

Lemma same_given (l k : list (Z * list Z)) (P : Z * list Z -> Prop) : l = k -> exists new, l = k ++ new /\ Forall P new.
Proof. intros ->. exists []. by rewrite app_nil_r. Qed.

Lemma arrived_given (w w' : World) (o : Z) (bytes : list Z) (a : Answer) : calls (reader w) = [] -> happen (PartArrived o bytes) w = Some (a, w') ->
  fired w' = fired w ++ (if bool_decide (attachedDownloader (reader w) = None) then [] else [(o, bytes)]).
Proof.
  intros Hc. cbn [happen]. unfold run. cbn [reader]. destruct (partArrived o bytes (reader w)) as [[[] r]|] eqn:E; [|done]. intros [= _ <-].
  rewrite (settled _ r _ eq_refl). simpl. rewrite absorbed_given. simpl. f_equal. revert E. unfold partArrived, bind, StateMonad.gets, id.
  destruct (bool_decide _), (streamingActive (reader w)), (waiting (reader w)) eqn:Ew; unfold ret, call, modify; cbn; rewrite ?Ew; unfold ret; cbn; intros [= <-]; cbn; rewrite ?Hc; done.
Qed.

Lemma task_given (w w' : World) (a : Answer) (P : Z * list Z -> Prop) : calls (reader w) = [] -> (forall o b, FireTask o b ∈ tasks w -> P (o, b)) ->
  happen RunTask w = Some (a, w') -> exists new, fired w' = fired w ++ new /\ Forall P new.
Proof.
  intros Hc HP. cbn [happen]. destruct (tasks w) as [|[o b| |] rest]; [intros [= _ <-]; by apply same_given| | |].
  - intros [= _ <-]. exists [(o, b)]. split; [done|]. apply Forall_singleton, HP. left.
  - intros H. apply same_given. apply quiet_given in H; [done| |exact Hc]. unfold stopStreamingLater. along.
  - intros H. apply same_given. apply quiet_given in H; [done| |exact Hc]. unfold checkCacheResultsForDownloader. along.
Qed.

(** ** A player that was not woken *)

(** The player waits on its semaphore, and for the cache if there is one. *)
Definition unnotified (r : Reader) : Prop := waiting r = true /\ forall h, cacheHelper r = Some h -> cacheWaiting h = true.

(** Nothing waits to be taken from the cache. *)
Definition drained (r : Reader) : Prop := forall h, cacheHelper r = Some h -> results h = ∅ /\ sizes h = [].

(** As long as the player is not woken, what it waits for stays. *)
Record dozing (r r' : Reader) : Prop := {
  dz_error : streamingError r' = streamingError r;
  dz_back : unnotified r' -> unnotified r;
  dz_same : unnotified r' -> drained r -> drained r' /\ slices r' = slices r /\ loadingOffsets r' = loadingOffsets r }.

#[local] Instance dozing_preorder : PreOrder dozing.
Proof.
  split; [by intros r|]. intros r1 r2 r3 [A1 A2 A3] [B1 B2 B3]. split; [congruence|auto|]. intros Hu Hd.
  destruct (A3 (B2 Hu) Hd) as (Hd2 & ? & ?). destruct (B3 Hu Hd2) as (? & ? & ?). split_and!; [done|congruence|congruence].
Qed.

(** What a player waits for, in a reader. *)
Definition seen (r : Reader) := (waiting r, cacheHelper r, slices r, loadingOffsets r, streamingError r).

Lemma dz_seen (r r' : Reader) : seen r' = seen r -> dozing r r'.
Proof. intros [= E1 E2 E3 E4 E5]. split; [done|..]; unfold unnotified, drained; by rewrite E1, E2. Qed.

Lemma dz_modify (f : Reader -> Reader) : (forall r, seen (f r) = seen r) -> along dozing (modify f).
Proof. intros Hf. apply along_modify. intros r. apply dz_seen, Hf. Qed.

Lemma dz_woken (r r' : Reader) : waiting r' = false -> streamingError r' = streamingError r -> dozing r r'.
Proof. intros Ew Ee. split; [done|..]; intros [? _]; congruence. Qed.

#[local] Hint Extern 2 (along dozing (modify (set_waiting false))) => (apply along_modify; intros ?; by apply dz_woken) : along.
#[local] Hint Extern 2 (along dozing (modify _)) => (apply dz_modify; done) : along.
#[local] Hint Extern 2 (along dozing (call _)) => (apply dz_modify; done) : along.
#[local] Hint Extern 3 (along dozing (each _ _)) => (apply along_each; intros ?; along) : along.

(** Answers are taken: the player is where it was. *)
Definition posted (r r' : Reader) : Prop := waiting r' = waiting r /\ (cacheWaiting <$> cacheHelper r') = (cacheWaiting <$> cacheHelper r) /\ streamingError r' = streamingError r.

#[local] Instance posted_preorder : PreOrder posted.
Proof. split; [by intros r|]. intros r1 r2 r3 (A1 & A2 & A3) (B1 & B2 & B3). split_and!; congruence. Qed.

Lemma posted_slices {A} (m : M Slices A) : along posted (on_slices m).
Proof. intros r a r'. unfold on_slices. destruct (m (slices r)) as [[x s]|]; [|done]. by intros [= _ <-]. Qed.
#[local] Hint Resolve posted_slices : along.

Lemma posted_back (r r' : Reader) : posted r r' -> unnotified r' -> unnotified r.
Proof.
  intros (E1 & E2 & _) [H1 H2]. split; [congruence|]. intros h Eh. rewrite Eh in E2. destruct (cacheHelper r') as [h'|]; [|done]. injection E2 as <-. by apply H2.
Qed.

Lemma dz_results : along dozing processCacheResults.
Proof.
  intros r b r' E. unfold processCacheResults in E. unfold bind at 1, StateMonad.gets, id in E. destruct (cacheHelper r) as [h|] eqn:Eh; [|by injection E as _ <-].
  assert (posted r r') as Hp.
  { revert E. unfold bind at 1, modify at 1. set (r1 := set_helper _ r). intros E. assert (posted r r1) as H1 by (split_and!; [done|by rewrite Eh|done]).
    trans r1; [done|]. revert E. match goal with |- ?m _ = _ -> _ => cut (along posted m); [intros Ha; apply Ha|] end.
    along; try (by apply along_modify; intros ?). apply along_each. intros ?. along. }
  split; [apply Hp|by apply posted_back|]. intros _ Hd. destruct (Hd h Eh) as [Er Es]. rewrite Er, Es in E. unfold bind at 1, modify at 1 in E.
  unfold bind at 1, modify at 1 in E. unfold bind in E. cbn in E.
  assert (entries (∅ : gmap Z PartsMap) = []) as En by reflexivity. rewrite En in E. cbn [each] in E.
  destruct (bool_decide _); injection E as _ <-; (split_and!; [|done|done]); by intros h' [= <-].
Qed.
#[local] Hint Resolve dz_results : along.

Lemma dz_unavailable (o : Z) : along dozing (unavailable o).
Proof. unfold unavailable, unavailableInCache, unavailableInBytes. along. Qed.
#[local] Hint Resolve dz_unavailable : along.

Lemma dz_ready (l : list Z) : along dozing (dropReady l).
Proof. induction l; cbn [dropReady]; along. Qed.
#[local] Hint Resolve dz_ready : along.

Lemma dz_request (o : Z) : along dozing (sendDownloaderRequest o).
Proof. unfold sendDownloaderRequest, downloaderWaitForCachedSlice, readFromCacheForDownloader, readFromCache. along. Qed.
#[local] Hint Resolve dz_request : along.

Lemma dz_requests : along dozing processDownloaderRequests.
Proof.
  unfold processDownloaderRequests, enqueueDownloaderOffsets, checkForDownloaderChange, checkForDownloaderReadyOffsets, pruneDoneDownloaderRequests, pruneDownloaderCache, sendDownloaderRequests. along.
Qed.
#[local] Hint Resolve dz_requests : along.

Lemma dz_wake : along dozing wakeFromSleep.
Proof. unfold wakeFromSleep. along. Qed.
Lemma dz_cancel (d : nat) : along dozing (cancelForDownloader d).
Proof. unfold cancelForDownloader. along. Qed.
#[local] Hint Resolve dz_wake dz_cancel : along.

Lemma dz_load (d : nat) (o : Z) : along dozing (loadForDownloader d o).
Proof. unfold loadForDownloader. along. Qed.
Lemma dz_arrived (o : Z) (bytes : list Z) : along dozing (partArrived o bytes).
Proof. unfold partArrived. along. Qed.

(** The end of streaming wakes the player. *)
Lemma dz_stop (b : bool) : along dozing (stopStreaming b).
Proof.
  intros r a r'. unfold stopStreaming, bind, StateMonad.gets, id. destruct (sleeping r); [done|]. destruct b; cbn; [by intros [= _ <-]; apply dz_woken|].
  intros E. apply dz_requests in E as [E1 E2 _]. split; [done|..]; by intros [? _]%E2.
Qed.
#[local] Hint Resolve dz_load dz_arrived dz_stop : along.

Lemma dz_answer (n : nat) (e : ParsedCacheEntry) (l : list Z) : along dozing (cacheResult n e l).
Proof.
  intros r a r'. unfold cacheResult, bind, StateMonad.gets, id. destruct (cacheHelper r) as [h|] eqn:Eh; [|by intros [= _ <-]].
  intros [= _ <-]. split; [done|..]; intros [_ Hw]; by specialize (Hw _ eq_refl).
Qed.
#[local] Hint Resolve dz_answer : along.

Lemma dz_run (m : M Reader unit) (w w' : World) (a : Answer) : along dozing m -> quiet (run m w) = Some (a, w') -> dozing (reader w) (reader w').
Proof.
  unfold quiet, run. intros Hm. destruct (m (reader w)) as [[[] r]|] eqn:E; [|done]. intros [= _ <-]. rewrite settle_reader.
  trans r; [by apply (Hm _ _ _ E)|by apply dz_seen].
Qed.

Lemma dz_event (e : Event) (w w' : World) (a : Answer) : filling (reader w) = None -> asked_for e w = None -> e <> HeaderDone ->
  happen e w = Some (a, w') -> dozing (reader w) (reader w').
Proof.
  intros Hf Hn Hh. destruct e; try done; cbn [happen]; try (apply dz_run; unfold startSleep, stopSleep, stopStreamingAsync, tryRemoveLoaderAsync, startStreaming, refreshLoaderPriority, doneForDownloader, setLoaderPriority; by along).
  - unfold run, continueFill, bind, StateMonad.gets. by rewrite Hf.
  - intros E. by apply dz_run in E; [|along].
  - destruct (gets w !! i) as [g|]; [|done]. cbn. destruct (ParseCacheEntry _ _ _) as [entry|]; [|done]. cbn. intros E. by apply dz_run in E; [|along].
  - destruct (tasks w) as [|[o b| |] rest]; [by intros [= _ <-]|by intros [= _ <-]| |]; intros E; (apply dz_run in E; [done|]).
    + unfold stopStreamingLater. along.
    + unfold checkCacheResultsForDownloader. along.
Qed.

Section Waits.
Context (C : Z -> Z) (S : Z).
Hypothesis size_positive : 0 < S.
Hypothesis size_bound : S <= 510 * kInSlice.

(** C19. The download is given each part as it comes from the loader, and besides
    these whole parts of the file only; the cache has entries of the file only. *)
Theorem download_gets_file (d : gmap nat (list Z)) (useCache : bool) (w : World) (e : Event) (a : Answer) (w' : World) :
  honest C S d -> headed S d -> reached C S d useCache w -> allowed C S e w -> happen e w = Some (a, w') ->
  honest C S (db w') /\ match e with
  | PartArrived o bytes => fired w' = fired w ++ (if bool_decide (attachedDownloader (reader w) = None) then [] else [(o, bytes)])
  | _ => exists new, fired w' = fired w ++ new /\ Forall (fun x => on_grid S x.1 /\ x.2 = part C S x.1) new
  end.
Proof.
  intros Hd Hhd Hw Ha He. pose proof (reached_fine C S size_positive size_bound d useCache w Hd Hhd Hw) as Hf. pose proof (fine_core_world C S w Hf) as K.
  assert (reached C S d useCache w') as Hw' by (by eapply reached_event).
  split; [exact (cr_db _ _ _ (fine_core_world C S w' (reached_fine C S size_positive size_bound d useCache w' Hd Hhd Hw')))|].
  destruct Hf as [Ec _]. destruct e; try (apply same_given; revert He; cbn [happen]; first
    [apply run_given; [first [apply nf_start|apply nf_continue]|done]|apply quiet_given; [|done]; unfold readerHeaderDone, startSleep, stopSleep, stopStreamingAsync, tryRemoveLoaderAsync, startStreaming, refreshLoaderPriority, doneForDownloader, setLoaderPriority; along]).
  - exact (arrived_given w w' offset bytes a Ec He).
  - cbn [happen] in He. destruct (gets w !! i) as [g|]; [|done]. cbn in He. destruct (ParseCacheEntry _ _ _) as [entry|]; [|done]. cbn in He.
    apply same_given. apply quiet_given in He; [done|apply nf_answer|exact Ec].
  - apply (task_given w w' a _ Ec); [exact (cr_tasks _ _ _ K)|done].
Qed.

(** *** A player that waits *)

(** Events that are not of the player keep what it waits for, as long as it is
    not woken. *)
Lemma header_waits (w w' : World) (a : Answer) (offset n : Z) : fine C S w -> allowed C S HeaderDone w -> happen HeaderDone w = Some (a, w') ->
  streamingError (reader w') = streamingError (reader w) /\ (unnotified (reader w') -> unnotified (reader w)) /\ (drained (reader w) -> drained (reader w'))
  /\ (awaits offset n (reader w) -> awaits offset n (reader w')).
Proof.
  intros Hf [Hn Ha] He. pose proof (fine_core_world C S w Hf) as K. pose proof (mn_sound _ _ _ (cr_main _ _ _ K)) as Hs. cbn [happen] in He. unfold quiet, run, readerHeaderDone, on_slices in He.
  destruct (headerDone false (slices (reader w))) as [[[] s']|] eqn:E; [|done]. injection He as _ <-. rewrite settle_reader.
  split; [done|]. split; [done|]. split; [done|]. unfold awaits. cbn [slices set_calls set_slices loadingOffsets].
  destruct (decide (headerMode (slices (reader w)) = Unknown)) as [Eu|Eu].
  - destruct (Ha Eu) as [El Hp]. rewrite (proj1 (headerDone_ok C S _ Hs Eu El Hp)) in E. injection E as <-.
    intros [El'|[(i & x & Hx & Hlx & _)|Hq]]; [unfold world_header in El; congruence| |by right; right].
    rewrite (none_reading C S _ i x Hs Eu Hx) in Hlx. done.
  - rewrite headerDone_again in E by done. by injection E as <-.
Qed.

Lemma event_waits (e : Event) (w w' : World) (a : Answer) (offset n : Z) : fine C S w -> filling (reader w) = None -> asked_for e w = None -> allowed C S e w ->
  happen e w = Some (a, w') -> drained (reader w) -> (streamingError (reader w) = None -> awaits offset n (reader w)) -> unnotified (reader w') ->
  drained (reader w') /\ (streamingError (reader w') = None -> awaits offset n (reader w')).
Proof.
  intros Hf Hn Hq Ha He Hd Hw Hu. assert ({e = HeaderDone} + {e <> HeaderDone}) as [->|Hne] by (destruct e; (by left) || by right).
  - destruct (header_waits w w' a offset n Hf Ha He) as (E1 & _ & E3 & E4). split; [auto|]. rewrite E1. auto.
  - destruct (dz_event e w w' a Hn Hq Hne He) as [E1 _ E3]. destruct (E3 Hu Hd) as (Hd' & Es & Eo). split; [done|]. rewrite E1. unfold awaits. rewrite Es, Eo. exact Hw.
Qed.

Lemma stepped_drained (r r' : Reader) : stepped C S r r' -> drained r'.
Proof.
  intros [M _ _ Hr _] h Eh. unfold helper_results in Hr. rewrite Eh in Hr. split; [exact Hr|]. by apply (mn_sizes _ _ _ M h Eh).
Qed.

(** The answer of a fill: when it is not the bytes, the player is to wait. *)
Lemma filled_waits (e : Event) (w w' : World) (st : FillState) (bytes buffer : list Z) (offset : Z) : fine C S w -> allowed C S e w ->
  asked_for e w = Some (offset, buffer) -> happen e w = Some (Some (st, bytes), w') -> st <> Success ->
  drained (reader w') /\ (streamingError (reader w') = None -> awaits offset (len buffer) (reader w')).
Proof.
  intros [Ec Hf] Ha Hq He Hst. destruct (fine_main _ _ _ _ Hf) as [Hm Hd].
  assert (forall m r, run m w = Some (Some (st, bytes), w') -> wp m (fun a r' => stepped C S r r' /\ turn_done C offset buffer a r') (reader w) ->
    drained (reader w') /\ (streamingError (reader w') = None -> awaits offset (len buffer) (reader w'))) as Hend.
  { unfold run, wp. intros m r. destruct (m (reader w)) as [[x r']|]; [|done]. intros [= -> <-] [Hs (_ & _ & _ & _ & Haw)]. rewrite settle_reader.
    split; [by apply (stepped_drained r r')|]. by apply Haw. }
  destruct e; try done.
  - injection Hq as <- <-. destruct Ha as (Hv & Hn & _). apply (Hend _ (reader w) He). by apply startFill_ok.
  - cbn [asked_for] in Hq. destruct (filling (reader w)) as [f|] eqn:Ef; [|done]. injection Hq as <- <-. destruct (fn_filling _ _ _ _ Hf f Ef) as (_ & Hv & Hl & Hfail & Haw).
    apply (Hend _ (reader w) He). by apply continueFill_ok.
Qed.

(** A player waits: inside of a fill, when the next turn of its loop is to come;
    after a fill that told it to, and then until it is woken. *)
Inductive waits (d : gmap nat (list Z)) (useCache : bool) : Z -> Z -> World -> Prop :=
  | waits_turn w f : reached C S d useCache w -> filling (reader w) = Some f -> waits d useCache (fillOffset f) (len (fillBuffer f)) w
  | waits_answered w e st bytes w' offset buffer : reached C S d useCache w -> allowed C S e w -> asked_for e w = Some (offset, buffer) ->
      happen e w = Some (Some (st, bytes), w') -> st = WaitingRemote \/ st = WaitingCache -> unnotified (reader w') -> waits d useCache offset (len buffer) w'
  | waits_on offset n w e a w' : waits d useCache offset n w -> filling (reader w) = None -> allowed C S e w -> asked_for e w = None ->
      happen e w = Some (a, w') -> unnotified (reader w') -> waits d useCache offset n w'.

Lemma waits_reached (d : gmap nat (list Z)) (useCache : bool) (offset n : Z) (w : World) : waits d useCache offset n w -> reached C S d useCache w.
Proof. induction 1; [done|by eapply reached_event..]. Qed.

Lemma waits_awaits (d : gmap nat (list Z)) (useCache : bool) (offset n : Z) (w : World) : honest C S d -> headed S d -> waits d useCache offset n w ->
  (filling (reader w) = None -> drained (reader w)) /\ (streamingError (reader w) = None -> awaits offset n (reader w)).
Proof.
  intros Hd Hhd. pose proof (reached_fine C S size_positive size_bound d useCache) as Hfine. induction 1 as [w f Hw Ef|w e st bytes w' offset buffer Hw Ha Hq He Hst Hu|offset n w e a w' Hw IH Hn Ha Hq He Hu].
  - split; [congruence|]. destruct (Hfine w Hd Hhd Hw) as [_ Hf]. by apply (fn_filling _ _ _ _ Hf f Ef).
  - destruct (filled_waits e w w' st bytes buffer offset) as [? ?]; [by apply Hfine|done..|by destruct Hst as [->| ->]|by split].
  - destruct IH as [Hdr Haw]. destruct (event_waits e w w' a offset n) as [? ?]; [by apply Hfine, (waits_reached d useCache offset n)|done|done|done|done|by apply Hdr|done|done|by split].
Qed.

(** C9. A player that waits and was not woken waits for something that is on its
    way, unless there was an error: in a fill, and after a fill told it to wait,
    whatever happens until it is woken. *)
Theorem player_waits_for_something (d : gmap nat (list Z)) (useCache : bool) (offset n : Z) (w : World) : honest C S d -> headed S d ->
  waits d useCache offset n w -> streamingError (reader w) = None -> on_its_way offset n w.
Proof.
  intros Hd Hhd Hw He. destruct (waits_awaits d useCache offset n w Hd Hhd Hw) as [_ Ha].
  apply (awaited_on_its_way C S); [|done|by apply Ha]. by apply (reached_fine C S size_positive size_bound d useCache w Hd Hhd), (waits_reached d useCache offset n).
Qed.

End Waits.
