(* ===== verification/ReaderEnd.v ===== *)
(** * Streaming: the end of a reader

    How many slices a file has, and what the destructor of a reader leaves in
    the cache. *)

From S2P Require Import Prelude Tcp StateMonad DownloadQueue Streaming SliceCache Slices CacheFacts SliceFacts SlicesFacts SlicesWrite SlicesFill SlicesRead SlicesEnd Reader ReaderSystem ReaderFacts ReaderSteps ReaderDown ReaderWorld ReaderFine ReaderEvents ReaderRun.

(** ** Sizes of files *)

(** C36. The slices are counted right up to 510 of them; with 511 the count is
    refused, and above it wraps around to none at all, so that nothing can be
    read. *)
Theorem slices_count_bounds (S : Z) : 0 < S < 2 ^ 32 ->
  if S <=? 510 * kInSlice then SlicesCount S = Some ((S + kInSlice - 1) / kInSlice)
  else if S <=? 511 * kInSlice then SlicesCount S = None
  else SlicesCount S = Some 0 /\ exists s, Slices_new S true = Some s
    /\ forall offset buffer, 0 <= offset -> 0 < len buffer <= kInSlice -> offset + len buffer <= S ->
       fill offset buffer (set_header (set_loaded true Slice_new) s) = None.
Proof.
  intros HS. sizes. assert (forall a, 0 <= a < 2 ^ 32 -> wrapu 32 a = a) as Hw by (intros; apply wrapu_small; unfold fits_u; lia).
  unfold SlicesCount. destruct (Z.leb_spec S (510 * kInSlice)); [|destruct (Z.leb_spec S (511 * kInSlice))].
  - rewrite Hw by lia. assert ((S + kInSlice - 1) / kInSlice < 511) by (apply Z.div_lt_upper_bound; lia). by rewrite (proj2 (Z.ltb_lt _ _)) by lia.
  - rewrite Hw by lia. assert (511 <= (S + kInSlice - 1) / kInSlice) by (apply Z.div_le_lower_bound; lia). by rewrite (proj2 (Z.ltb_ge _ _)) by lia.
  - assert (wrapu 32 (S + kInSlice - 1) / kInSlice = 0) as E0.
    { assert (wrapu 32 (S + kInSlice - 1) = S + kInSlice - 1 - 2 ^ 32) as ->; [|apply Z.div_small; lia].
      unfold wrapu. symmetry. apply (Z.mod_unique _ _ 1); lia. }
    rewrite E0. split; [done|]. unfold Slices_new, SlicesCount. rewrite (proj2 (Z.ltb_lt 0 S)), E0 by lia.
    unfold IsFullInHeader. rewrite (proj2 (Z.leb_gt _ _)) by lia. eexists. split; [done|]. intros offset buffer Ho Hl Hs.
    unfold fill. unfold bind at 1, StateMonad.gets, id. unfold isFullInHeader, IsFullInHeader. cbn [Slices.size set_header header headerMode data loadedFromCache set_loaded].
    rewrite (bool_decide_eq_false_2 (buffer = [])) by (intros ->; unfold len in Hl; simpl in Hl; lia).
    rewrite (proj2 (Z.leb_gt S offset)), !(proj2 (Z.ltb_ge _ _)), (proj2 (Z.leb_gt S _)) by lia. cbn [orb negb andb]. rewrite andb_false_r.
    set (t := Z.to_nat _). set (u := Z.to_nat _).
    change (length (replicate (Z.to_nat 0) Slice_new)) with 0%nat. by replace (((Datatypes.S t =? u) || (Datatypes.S (Datatypes.S t) =? u))%nat && (u <=? 0)%nat) with false by (destruct u; [done|by rewrite andb_comm]).
Qed.

(** ** The destructor *)

Section Finalize.
Context (C : Z -> Z) (S : Z).
Hypothesis size_positive : 0 < S.
Hypothesis size_bound : S <= 510 * kInSlice.

Definition put_all (puts : list (nat * list Z)) : list Call := (fun x => Put x.1 x.2) <$> puts.

(** Each entry that is to be written is written once, as it is in the slices. *)
Record written (s : Slices) (puts : list (nat * list Z)) : Prop := {
  wn_once : NoDup puts.*1;
  wn_reads : forall n bytes, (n, bytes) ∈ puts -> ParseCacheEntry bytes n S = Some (entry_of n s);
  wn_changed : forall n, n ∈ puts.*1 <-> exists m x, at_ m s = Some x /\ changed x = true /\ target m s = n }.

Lemma finalize_loop (fuel : nat) (r : Reader) : sound C S (slices r) -> headerMode (slices r) <> Unknown -> headerMode (slices r) <> NoCache ->
  cacheHelper r <> None -> (changed_count (slices r) < fuel)%nat -> exists puts s', finalizeLoop fuel r = Some (tt, set_calls (calls r ++ put_all puts) (set_slices s' r))
    /\ written (slices r) puts.
Proof.
  revert r. induction fuel as [|fuel IH]; intros r Hs Hu Hn Hh Hf; [lia|]. cbn [finalizeLoop]. pose proof (unload_ok C S size_positive size_bound _ Hs) as Hw.
  unfold wp in Hw. destruct (unloadToCache (slices r)) as [[x s1]|] eqn:E; [|done]. destruct Hw as [Hs1 Hw].
  unfold bind at 1, on_slices. rewrite E. destruct Hw as [Hno|m x bytes _ _ Hx Hc Hfirst Hp Hcount].
  - exists [], (slices r). unfold put_all. simpl. rewrite app_nil_r. split; [by destruct r|]. split; [constructor|by intros ? ? ?%not_elem_of_nil|].
    intros n. split; [by intros ?%not_elem_of_nil|]. intros (m & x & Hx & Hc & _). destruct Hno as [?|[?|Hno]]; [done|done|]. by rewrite (Hno m x Hx) in Hc.
  - set (s := slices r) in *. set (n := target m s) in *. assert (n = target n s) as Hnt by (symmetry; apply target_idem).
    unfold bind at 1, putToCache, bind at 1, StateMonad.gets. cbn [cacheHelper set_slices]. rewrite bool_decide_eq_false_2 by done.
    unfold call, modify. cbn [number serialized]. set (r1 := set_calls _ _).
    assert (headerMode (saved n s) = headerMode s) as Em by (unfold saved; destruct n; [simpl; by destruct (isGoodHeader s)|done]).
    destruct (IH r1) as (puts & s' & -> & [W1 W2 W3]); [done|by simpl; rewrite Em|by simpl; rewrite Em|done|simpl; lia|].
    assert (n ∉ puts.*1) as Hnin.
    { intros (k & y & Hy & Hcy & Hk)%W3. simpl in Hy, Hk. rewrite target_saved in Hk. apply (changed_saved n k s y Hnt Hcy) in Hy as [_ ?]. done. }
    exists ((n, bytes) :: puts), s'. unfold put_all. simpl. rewrite <- app_assoc. split; [done|]. split.
    + simpl. by apply NoDup_cons.
    + intros k b [[= -> ->]|Hin]%elem_of_cons; [done|]. rewrite (W2 k b Hin). simpl. f_equal. apply entry_saved; [| |exact Hnt].
      * intros ->. apply Hnin. apply list_elem_of_fmap. by exists (n, b).
      * assert (k ∈ puts.*1) as (j & y & _ & _ & <-)%W3 by (apply list_elem_of_fmap; by exists (k, b)).
        simpl. by rewrite target_saved, target_idem.
    + intros k. simpl. rewrite elem_of_cons, W3. simpl. setoid_rewrite target_saved. split.
      * intros [->|(j & y & Hy & Hcy & <-)]; [by exists m, x|]. apply (changed_saved n j s y Hnt Hcy) in Hy as [Hy _]. by exists j, y.
      * intros (j & y & Hy & Hcy & <-). destruct (decide (target j s = n)) as [->|Hne]; [by left|right].
        exists j, y. split; [by apply (changed_saved n j s y Hnt Hcy)|done].
Qed.

Lemma finalize_calls (r : Reader) : sound C S (slices r) -> cacheHelper r <> None -> headerMode (slices r) <> Unknown -> headerMode (slices r) <> NoCache ->
  exists r' puts, finalizeCache r = Some (tt, r') /\ calls r' = calls r ++ put_all puts ++ [Sync] /\ written (slices r) puts.
Proof.
  intros Hs Hh Hu Hn. unfold finalizeCache. unfold bind at 1, StateMonad.gets, id. rewrite bool_decide_eq_false_2 by done.
  unfold bind at 1, with_helper, modify. set (r1 := set_helper _ r).
  destruct (finalize_loop (length (data (slices r)) + 2) r1) as (puts & s' & E & Hw); try done.
  { unfold r1. simpl. by destruct (cacheHelper r). }
  { unfold changed_count. pose proof (length_filter (fun x => changed x) (data (slices r1))). simpl in *. destruct (changed _); lia. }
  unfold bind. rewrite E. eexists _, puts. split; [done|]. simpl. rewrite <- app_assoc. split; [done|exact Hw].
Qed.

Lemma put_in (puts : list (nat * list Z)) (n : nat) (bytes : list Z) : Put n bytes ∈ put_all puts ++ [Sync] <-> (n, bytes) ∈ puts.
Proof.
  unfold put_all. rewrite elem_of_app, list_elem_of_fmap, list_elem_of_singleton. split.
  - intros [([m b] & [= -> ->] & Hx)|[=]]. done.
  - intros Hx. left. by exists (n, bytes).
Qed.

(** Without a cache, or before the header is known, nothing is written. *)
Lemma finalize_nothing (r : Reader) : calls r = [] -> cacheHelper r = None \/ headerMode (slices r) = Unknown ->
  exists r', finalizeCache r = Some (tt, r') /\ (calls r' = [] \/ calls r' = [Sync]).
Proof.
  intros Hc Hor. unfold finalizeCache. unfold bind at 1, StateMonad.gets, id. destruct (cacheHelper r) as [h|] eqn:Eh.
  - rewrite bool_decide_eq_false_2 by done. destruct Hor as [?|Eu]; [done|]. rewrite Nat.add_comm. cbn [Nat.add finalizeLoop].
    unfold bind, with_helper, modify, on_slices, unloadToCache, StateMonad.gets, id, call. cbn. rewrite Eu, bool_decide_eq_true_2 by done. cbn.
    eexists. split; [reflexivity|]. right. simpl. by rewrite Hc.
  - rewrite bool_decide_eq_true_2 by done. exists r. split; [done|by left].
Qed.

(** C18. The destructor ends, and the cache database stays honest. Without a cache,
    or before the header is known, the database is left as it is; else each entry
    that changed in memory is in it then, so that what is read back is what was
    there, and the other entries are left as they are. *)
Theorem finalize_saves (d : gmap nat (list Z)) (useCache : bool) (w : World) : honest C S d -> headed S d -> reached C S d useCache w ->
  exists w', run finalizeCache w = Some (tt, w') /\ honest C S (db w')
    /\ if bool_decide (cacheHelper (reader w) = None) || bool_decide (world_mode w = Unknown) then db w' = db w else
      forall n, let s := slices (reader w) in let changed_here := exists m x, at_ m s = Some x /\ changedSinceCache x = true /\ target m s = n in
        (changed_here -> ParseCacheEntry (entry_in (db w') n) n S = Some (entry_of n s)) /\ (~ changed_here -> entry_in (db w') n = entry_in (db w) n).
Proof.
  intros Hd Hhd Hw. pose proof (reached_fine C S size_positive size_bound d useCache w Hd Hhd Hw) as Hf. pose proof (fine_core_world C S w Hf) as K.
  pose proof (cr_main _ _ _ K) as M. pose proof (mn_sound _ _ _ M) as Hs.
  assert (cacheHelper (reader w) = None \/ world_mode w = Unknown -> exists w', run finalizeCache w = Some (tt, w') /\ db w' = db w) as Hnone.
  { intros Hor. destruct (finalize_nothing (reader w) (cr_calls _ _ _ K) Hor) as (r' & E & Ec). exists (settle w r'). unfold run. rewrite E. split; [done|].
    unfold settle. by destruct Ec as [->| ->]. }
  destruct (bool_decide_reflect (cacheHelper (reader w) = None)) as [Eh|Hh].
  { destruct (Hnone (or_introl Eh)) as (w' & E & Ed). exists w'. split; [done|]. rewrite Ed. split; [exact (cr_db _ _ _ K)|done]. }
  destruct (bool_decide_reflect (world_mode w = Unknown)) as [Eu|Hu].
  { destruct (Hnone (or_intror Eu)) as (w' & E & Ed). exists w'. split; [done|]. rewrite Ed. split; [exact (cr_db _ _ _ K)|done]. }
  clear Hnone. cbn [orb]. assert (headerMode (slices (reader w)) <> NoCache) as Hn by (by rewrite <- (mn_helper _ _ _ M)).
  destruct (finalize_calls (reader w) Hs Hh Hu Hn) as (r' & puts & E & Ec & [W1 W2 W3]). rewrite (cr_calls _ _ _ K) in Ec. simpl in Ec.
  exists (settle w r'). unfold run. rewrite E. split; [done|]. rewrite (settled w r' _ Ec).
  change (db (set_reader (set_calls [] r') (absorbed (put_all puts ++ [Sync]) w))) with (db (absorbed (put_all puts ++ [Sync]) w)).
  assert (forall n, (exists b, (n, b) ∈ puts /\ entry_in (db (absorbed (put_all puts ++ [Sync]) w)) n = b)
    \/ (n ∉ puts.*1) /\ entry_in (db (absorbed (put_all puts ++ [Sync]) w)) n = entry_in (db w) n) as Hdb.
  { intros n. destruct (absorbed_db (put_all puts ++ [Sync]) w n) as [[-> Hno]|(b & Hb%put_in & ->)]; [right|left; by exists b].
    split; [|done]. intros ([k b] & -> & Hin)%list_elem_of_fmap. destruct (Hno b). by apply put_in. }
  split.
  - intros n Hle. destruct (Hdb n) as [(b & Hb & ->)|[_ ->]]; [|by apply (cr_db _ _ _ K)].
    assert (exists x, at_ n (slices (reader w)) = Some x) as [x Hx] by (by apply (at_some C S)).
    apply (entry_of_honest C S n b (slices (reader w)) x Hs Hx). by apply W2.
  - intros n. split; intros Hch; destruct (Hdb n) as [(b & Hb & E')|[Hno E']].
    + rewrite E'. by apply W2.
    + destruct Hno. by apply W3.
    + destruct Hch. apply W3. apply list_elem_of_fmap. by exists (n, b).
    + done.
Qed.

End Finalize.
