(* ===== verification/ReaderExample.v ===== *)
(** * Streaming: a small file

    A file of one part: its header is looked for in an empty cache, a player
    waits for the part, a download is attached, the part comes, and at the end
    it is written to the cache. *)

From S2P Require Import Prelude Tcp StateMonad DownloadQueue Streaming SliceCache Slices CacheFacts SliceFacts SlicesFacts SlicesWrite SlicesFill SlicesRead SlicesEnd Reader ReaderSystem ReaderFacts ReaderSteps ReaderDown ReaderWorld ReaderFine ReaderEvents ReaderRun ReaderWaits ReaderEnd.

Definition file (i : Z) : Z := i mod 7.
Definition file_size : Z := 100.
Definition asked_bytes : list Z := replicate 10 0.

Lemma file_positive : 0 < file_size.
Proof. done. Qed.
Lemma file_bound : file_size <= 510 * kInSlice.
Proof. vm_compute. discriminate. Qed.

Lemma honest_empty : honest file file_size ∅.
Proof.
  intros n Hn. assert (slice_count file_size = O) as E by (vm_compute; reflexivity). assert (n = O) as -> by lia.
  exists (mk_parsed ∅ None). split; [vm_compute; reflexivity|]. split; [by intros o b Hb; vm_compute in Hb|]. split; [|done]. intros _ _. simpl. rewrite map_size_empty. lia.
Qed.

Lemma headed_empty : headed file_size ∅.
Proof.
  intros e He _. vm_compute in He. injection He as <-. split; [done|]. intros i e' Hi. assert (slice_count file_size = O) as E by (vm_compute; reflexivity). lia.
Qed.

Definition w_new : World := match World_new ∅ file_size true with Some w => w | None => mk_world (mk_reader 0 None [] false false false PriorityQueue_new
  (mk_slices [] Slice_new [] 0 Unknown false) None None 1 false [] ∅ ∅ [] [] None []) ∅ [] [] ∅ [] end.
Definition w_looked : World := next (CacheAnswered 0) w_new.
Definition w_started : World := next StartStreaming w_looked.
Definition w_waiting : World := next (StartFill 20 asked_bytes) w_started.
Definition w_attached : World := next (LoadForDownloader 1 0) w_waiting.
Definition w_arrived : World := next (PartArrived 0 (part file file_size 0)) w_attached.
Definition w_filled : World := next ContinueFill w_arrived.
Definition w_known : World := next HeaderDone w_filled.

Example w_answer : fst <$> happen ContinueFill w_arrived = Some (Some (Success, content file 20 10)).
Proof. vm_compute. reflexivity. Qed.

Local Abbreviation reached_ := (reached file file_size ∅ true).

Lemma reached_new_ : reached_ w_new.
Proof. apply reached_new. vm_compute. reflexivity. Qed.

Lemma reached_looked : reached_ w_looked.
Proof.
  apply reached_next; [exact reached_new_|]. exists (mk_get 0 [] []). split; vm_compute; reflexivity.
Qed.

Lemma reached_started : reached_ w_started.
Proof. by apply reached_next; [exact reached_looked|]. Qed.

Lemma reached_waiting : reached_ w_waiting.
Proof.
  apply reached_next; [exact reached_started|]. split; [|split; vm_compute; reflexivity]. split; [lia|]. split; [done|]. split; [vm_compute; discriminate|vm_compute; discriminate].
Qed.

Lemma reached_attached : reached_ w_attached.
Proof. apply reached_next; [exact reached_waiting|]. split; [unfold file_size; lia|reflexivity]. Qed.

Lemma reached_arrived : reached_ w_arrived.
Proof. by apply reached_next; [exact reached_attached|]. Qed.

Lemma reached_filled : reached_ w_filled.
Proof. apply reached_next; [exact reached_arrived|]. vm_compute. discriminate. Qed.

Lemma header_allowed : allowed file file_size HeaderDone w_filled.
Proof. split; [vm_compute; reflexivity|]. intros _. split; [vm_compute; reflexivity|]. intros E. vm_compute in E. discriminate. Qed.

Lemma reached_known : reached_ w_known.
Proof. apply reached_next; [exact reached_filled|exact header_allowed]. Qed.

(** ** The theorems for this file *)

Example reader_never_fails_witness : exists a w', happen ContinueFill w_arrived = Some (a, w') /\ right_answer file ContinueFill w_arrived a.
Proof.
  apply (reader_never_fails file file_size file_positive file_bound ∅ true w_arrived ContinueFill); [exact honest_empty|exact headed_empty|exact reached_arrived|].
  vm_compute. discriminate.
Defined.

(** The player is told to wait, and a download comes meanwhile. *)
Definition w_told : World := next ContinueFill w_waiting.
Definition w_later : World := next (LoadForDownloader 1 0) w_told.

Lemma waits_later : waits file file_size ∅ true 20 10 w_later.
Proof.
  apply (waits_on file file_size ∅ true 20 10 w_told (LoadForDownloader 1 0) None).
  - apply (waits_answered file file_size ∅ true w_waiting ContinueFill WaitingRemote asked_bytes w_told 20 asked_bytes); try (vm_compute; reflexivity).
    + exact reached_waiting.
    + vm_compute. discriminate.
    + by left.
    + split; [vm_compute; reflexivity|]. intros h Hh. vm_compute in Hh. by injection Hh as <-.
  - vm_compute. reflexivity.
  - split; [unfold file_size; lia|reflexivity].
  - reflexivity.
  - vm_compute. reflexivity.
  - split; [vm_compute; reflexivity|]. intros h Hh. vm_compute in Hh. by injection Hh as <-.
Qed.

Example player_waits_for_something_witness : on_its_way 20 10 w_waiting /\ on_its_way 20 10 w_later.
Proof.
  split.
  - apply (player_waits_for_something file file_size file_positive file_bound ∅ true 20 10 w_waiting); [exact honest_empty|exact headed_empty| |vm_compute; reflexivity].
    apply (waits_turn file file_size ∅ true w_waiting (mk_filling 20 asked_bytes WaitingRemote)); [exact reached_waiting|vm_compute; reflexivity].
  - apply (player_waits_for_something file file_size file_positive file_bound ∅ true 20 10 w_later); [exact honest_empty|exact headed_empty|exact waits_later|vm_compute; reflexivity].
Defined.

Example reader_well_formed_witness : sound file file_size (slices (reader w_known)) /\ queue_ok (loadingOffsets (reader w_waiting)).
Proof.
  split.
  - apply (reader_well_formed file file_size file_positive file_bound ∅ true w_known); [exact honest_empty|exact headed_empty|exact reached_known].
  - apply (reader_well_formed file file_size file_positive file_bound ∅ true w_waiting); [exact honest_empty|exact headed_empty|exact reached_waiting].
Defined.

Example download_gets_file_witness : fired w_arrived = fired w_attached ++ [(0, part file file_size 0)] /\ honest file file_size (db w_known).
Proof.
  split.
  - assert (happen (PartArrived 0 (part file file_size 0)) w_attached = Some (None, w_arrived)) as E by (vm_compute; reflexivity).
    destruct (download_gets_file file file_size file_positive file_bound ∅ true w_attached (PartArrived 0 (part file file_size 0)) None w_arrived honest_empty headed_empty reached_attached (fun _ _ => eq_refl) E) as [_ ->].
    by replace (attachedDownloader (reader w_attached)) with (Some 1%nat) by (vm_compute; reflexivity).
  - assert (happen HeaderDone w_filled = Some (None, w_known)) as E by (vm_compute; reflexivity).
    apply (download_gets_file file file_size file_positive file_bound ∅ true w_filled HeaderDone None w_known); [exact honest_empty|exact headed_empty|exact reached_filled|exact header_allowed|exact E].
Defined.

Example finalize_saves_witness : exists w', run finalizeCache w_known = Some (tt, w')
  /\ ParseCacheEntry (entry_in (db w') 0) 0 file_size = Some (entry_of 0 (slices (reader w_known))) /\ parsed (entry_of 0 (slices (reader w_known))) !! 0 = Some (part file file_size 0).
Proof.
  destruct (finalize_saves file file_size file_positive file_bound ∅ true w_known honest_empty headed_empty reached_known) as (w' & E & _ & H).
  exists w'. split; [exact E|]. replace (bool_decide (cacheHelper (reader w_known) = None) || bool_decide (world_mode w_known = Unknown)) with false in H by (vm_compute; reflexivity).
  split; [|vm_compute; reflexivity]. apply (H 0%nat). exists 0%nat, (header (slices (reader w_known))). split; [done|]. vm_compute. by split.
Defined.

Example slices_count_bounds_witness : SlicesCount (510 * kInSlice) = Some 510 /\ SlicesCount (511 * kInSlice) = None /\ SlicesCount 4294967000 = Some 0.
Proof.
  split; [|split].
  - apply (slices_count_bounds (510 * kInSlice)). vm_compute. split; reflexivity.
  - apply (slices_count_bounds (511 * kInSlice)). vm_compute. split; reflexivity.
  - apply (slices_count_bounds 4294967000). lia.
Defined.
