(* ===== verification/ReaderStale.v ===== *)
(** * Streaming: when a reader does fail

    Two things that the theorems on a reader exclude, by what they ask of the
    cache, and that the code does not exclude: then a part that is in memory is
    asked for and comes, and [Expects] of [Slice::addPart] fails. Both times a
    slice is unloaded as it is ([noNeedToSaveToCache] in
    [serializeAndUnloadUnused]), which does not cancel its parts at the loader. *)

From S2P Require Import Prelude StateMonad Streaming SliceCache Slices Reader ReaderSystem.

(** A file of four slices, with the same byte everywhere. *)
Definition long_size : Z := 4 * kInSlice.
Definition long_part : list Z := replicate (Z.to_nat kPartSize) 7.
Definition ten : list Z := replicate 10 0.

Definition happened (l : list Event) (w : World) : option World := foldl (fun w e => w <-? w ; snd <$> happen e w) (Some w) l.

(** From a new reader on: all of [script] goes through, and then [e] fails. *)
Definition fails_after (d : gmap nat (list Z)) (script : list Event) (e : Event) : bool :=
  match (w <-? World_new d long_size true ; happened script w) with
  | Some w => match happen e w with Some _ => false | None => true end
  | None => false
  end.

(** ** A database without the header *)

(** The entry of the header was dropped from the database; that of slice 1 is
    there, with the second part. *)
Definition no_header : gmap nat (list Z) := {[ 2%nat := serializeComplexSlice {[ kPartSize := long_part ]} ]}.

(** A player reads at [o], and the part comes from the loader. *)
Definition read_from_loader (o : Z) : list Event := [StartFill o ten; ContinueFill; PartArrived o long_part; StartFill o ten].

(** Slice 1 is read before the header is done, with its second part asked for
    ahead; the reads of slices 2 and 3 unload it. Read again, it comes from the
    cache, with its second part; then this part comes from the loader. *)
Definition without_header : list Event :=
  [CacheAnswered 0; StartStreaming] ++ read_from_loader 0 ++ read_from_loader kInSlice ++ [HeaderDone]
  ++ read_from_loader (2 * kInSlice) ++ read_from_loader (3 * kInSlice)
  ++ [StartFill kInSlice ten; CacheAnswered 0; ContinueFill; PartArrived (kInSlice + kPartSize) long_part].

Lemma evicted_header_fails : fails_after no_header without_header (StartFill kInSlice ten) = true.
Proof. vm_compute. reflexivity. Qed.

(** ** An answer that comes late *)

(** The header and the first parts of the other slices. *)
Definition first_parts : gmap nat (list Z) :=
  let entry := serializeComplexSlice {[ 0 := long_part ]} in {[ 0%nat := entry; 2%nat := entry; 3%nat := entry; 4%nat := entry ]}.

(** A player reads at [o], and the answer [i] comes from the cache. *)
Definition read_from_cache (o : Z) (i : nat) : list Event := [StartFill o ten; CacheAnswered i; ContinueFill].

(** The player and the download both read slice 1 from the cache. The answer of
    the download comes after slice 1 was written with one more part and unloaded,
    and is taken for that of the next read: the part is asked for again, while
    its entry holds it. *)
Definition with_late_answer : list Event :=
  [CacheAnswered 0; StartStreaming; StartFill kInSlice ten; ContinueFill; LoadForDownloader 1 (kInSlice + 32 * kPartSize); StartSleep; StopSleep;
   CacheAnswered 0; StartFill kInSlice ten; PartArrived (kInSlice + kPartSize) long_part]
  ++ read_from_cache (2 * kInSlice) 1 ++ read_from_cache (3 * kInSlice) 1
  ++ read_from_cache kInSlice 0 ++ read_from_cache (2 * kInSlice) 1 ++ read_from_cache (3 * kInSlice) 1
  ++ read_from_cache kInSlice 0 ++ [PartArrived (kInSlice + kPartSize) long_part].

Lemma late_answer_fails : fails_after first_parts with_late_answer (StartFill kInSlice ten) = true.
Proof. vm_compute. reflexivity. Qed.
