(* ===== verification/ChatReading.v ===== *)
(** * Chats: what is read in a chat

    The reading state of [History] ([history/history.cpp]): up to where incoming
    messages are read, how many are not, and how both follow from the messages
    that are loaded. Messages are in blocks, in order; those that are regular
    are known to the server by their ids. A chat is known by a number, as its
    object never moves. [None] is a failed [Expects] or a message of an empty
    block. What a chat is shown as in the list of chats is not here. *)

From S2P Require Import Prelude Ids.

Record Item := mk_item { itemId : Z; isRegular : bool; out : bool; isFromScheduled : bool; date : Z }.

(** A message that only this client knows of. *)
Record ClientSide := mk_client { client_out : bool; client_unread : bool }.

Record Peer := mk_peer { asChannel : bool; amIn : bool; canDelete : bool; asChat : bool; amCreator : bool; clearUnreadOnClientSide : bool }.

Record History := mk_history {
  peer : Peer; inboxReadBefore : option Z; unreadCount_ : option Z; unreadMark : bool; folderKnown : bool;
  lastMessage_ : option (option Item); lastServerMessage_ : option (option Item); clientSideMessages : list ClientSide;
  blocks : list (list Item); loadedAtTop : bool; loadedAtBottom : bool }.

Definition set_before (v : option Z) (h : History) : History :=
  mk_history (peer h) v (unreadCount_ h) (unreadMark h) (folderKnown h) (lastMessage_ h) (lastServerMessage_ h) (clientSideMessages h) (blocks h) (loadedAtTop h) (loadedAtBottom h).
Definition set_count (v : option Z) (h : History) : History :=
  mk_history (peer h) (inboxReadBefore h) v (unreadMark h) (folderKnown h) (lastMessage_ h) (lastServerMessage_ h) (clientSideMessages h) (blocks h) (loadedAtTop h) (loadedAtBottom h).
Definition set_mark (v : bool) (h : History) : History :=
  mk_history (peer h) (inboxReadBefore h) (unreadCount_ h) v (folderKnown h) (lastMessage_ h) (lastServerMessage_ h) (clientSideMessages h) (blocks h) (loadedAtTop h) (loadedAtBottom h).
Definition set_folderKnown (v : bool) (h : History) : History :=
  mk_history (peer h) (inboxReadBefore h) (unreadCount_ h) (unreadMark h) v (lastMessage_ h) (lastServerMessage_ h) (clientSideMessages h) (blocks h) (loadedAtTop h) (loadedAtBottom h).
Definition set_lasts (v w : option (option Item)) (h : History) : History :=
  mk_history (peer h) (inboxReadBefore h) (unreadCount_ h) (unreadMark h) (folderKnown h) v w (clientSideMessages h) (blocks h) (loadedAtTop h) (loadedAtBottom h).
Definition set_clientSide (v : list ClientSide) (h : History) : History :=
  mk_history (peer h) (inboxReadBefore h) (unreadCount_ h) (unreadMark h) (folderKnown h) (lastMessage_ h) (lastServerMessage_ h) v (blocks h) (loadedAtTop h) (loadedAtBottom h).

(** ** What is there *)

Definition isEmpty (h : History) : bool := bool_decide (blocks h = []).
Definition unreadCount (h : History) : Z := default 0 (unreadCount_ h).
Definition unreadCountKnown (h : History) : bool := bool_decide (is_Some (unreadCount_ h)).
Definition lastMessage (h : History) : option Item := default None (lastMessage_ h).
Definition lastMessageKnown (h : History) : bool := bool_decide (is_Some (lastMessage_ h)).
Definition lastServerMessage (h : History) : option Item := default None (lastServerMessage_ h).
Definition lastServerMessageKnown (h : History) : bool := bool_decide (is_Some (lastServerMessage_ h)).
Definition trackUnreadMessages (h : History) : bool := if asChannel (peer h) then amIn (peer h) else true.

Definition first_regular (l : list Item) : Z :=
  match filter (fun x => isRegular x = true) l with x :: _ => itemId x | [] => 0 end.
Definition minMsgId (h : History) : Z := first_regular (concat (blocks h)).
Definition maxMsgId (h : History) : Z := first_regular (rev (concat (blocks h))).

(** [blocks.back()->messages.back()]. *)
Definition lastAvailable (h : History) : option Item := block <-? last (blocks h) ; last block.

Definition msgIdForRead (h : History) : Z :=
  let result := match lastMessage h with Some l => if isRegular l then itemId l else 0 | None => 0 end in
  if loadedAtBottom h then Z.max result (maxMsgId h) else result.

(** ** Read and unread *)

Definition setInboxReadTill (upTo : Z) (h : History) : History :=
  match inboxReadBefore h with
  | Some b => set_before (Some (Z.max b (upTo + 1))) h
  | None => set_before (Some (upTo + 1)) h
  end.

Definition lastOutgoing (h : History) : option bool :=
  match lastMessage h with
  | Some l =>
      if isRegular l && loadedAtBottom h && negb (isEmpty h) then
        b <-? lastAvailable h ; Some ((itemId b =? itemId l) && out l)
      else Some false
  | None => Some false
  end.

Definition setUnreadCount (newUnreadCount : Z) (h : History) : option History :=
  if negb (folderKnown h) then None else
  if bool_decide (unreadCount_ h = Some newUnreadCount) then Some h else
  let h := set_count (Some newUnreadCount) h in
  outgoing <-? lastOutgoing h ;
  let last := msgIdForRead h in
  Some (if (newUnreadCount =? 1) && negb outgoing then if last =? 0 then h else setInboxReadTill (last - 1) h
        else if newUnreadCount =? 0 then if last =? 0 then h else setInboxReadTill last h
        else h).

Definition setUnreadMark (unread : bool) (h : History) : History :=
  set_mark (if clearUnreadOnClientSide (peer h) then false else unread) h.

(** From the first message on, those read already skipped; a loop ends at the
    first one past [till], in each block. *)
Fixpoint countBlock (before till : Z) (messages : list Item) : Z :=
  match messages with
  | [] => 0
  | x :: messages =>
      if negb (isRegular x) || (out x && negb (isFromScheduled x)) then countBlock before till messages
      else if till <? itemId x then 0
      else (if before <=? itemId x then 1 else 0) + countBlock before till messages
  end.
Fixpoint countBlocks (before till : Z) (l : list (list Item)) : Z :=
  match l with
  | [] => 0
  | block :: l => countBlock before till block + countBlocks before till l
  end.

(** From the last message back. *)
Fixpoint countBack (till : Z) (messages : list Item) (result : Z) : Z :=
  match messages with
  | [] => result
  | x :: messages =>
      if isRegular x then
        if itemId x <=? till then result
        else countBack till messages (if out x then result else result + 1)
      else countBack till messages result
  end.

Definition countAtEnd (readTillId : Z) (h : History) : option Z :=
  let minimalServerId := minMsgId h in
  if negb (loadedAtBottom h) || (negb (loadedAtTop h) && (minimalServerId =? 0)) || (readTillId <? minimalServerId) then None
  else Some (countBack readTillId (rev (concat (blocks h))) 0).

Definition countStillUnreadLocal (readTillId : Z) (h : History) : option Z :=
  if isEmpty h || negb (folderKnown h) then None else
  match inboxReadBefore h, unreadCount_ h with
  | Some before, Some count =>
      if (minMsgId h <=? before) && (readTillId <=? maxMsgId h)
      then Some (Z.max (count - countBlocks before readTillId (blocks h)) 0)
      else countAtEnd readTillId h
  | _, _ => countAtEnd readTillId h
  end.

Definition unreadCountRefreshNeeded (readTillId : Z) (h : History) : bool :=
  negb (unreadCountKnown h) || (default 0 (inboxReadBefore h) <? readTillId + 1).

Definition readClientSideMessage (c : ClientSide) (h : History) : option (ClientSide * History) :=
  if client_out c || negb (client_unread c) then Some (c, h) else
  let c := mk_client (client_out c) false in
  if unreadCount h =? 0 then Some (c, h) else h <-? setUnreadCount (unreadCount h - 1) h ; Some (c, h).

Fixpoint readClientSideLoop (l : list ClientSide) (h : History) : option (list ClientSide * History) :=
  match l with
  | [] => Some ([], h)
  | c :: l =>
      r <-? readClientSideMessage c h ;
      r' <-? readClientSideLoop l r.2 ;
      Some (r.1 :: r'.1, r'.2)
  end.
Definition readClientSideMessages (h : History) : option History :=
  r <-? readClientSideLoop (clientSideMessages h) h ; Some (set_clientSide r.1 r.2).

(** ** The last message *)

Definition setLastMessage (item : option Item) (h : History) : History :=
  if bool_decide (option_map (option_map itemId) (lastMessage_ h) = Some (option_map itemId item)) then h
  else set_lasts (Some item) (if match item with Some i => isRegular i | None => true end then Some item else lastServerMessage_ h) h.

Definition setLastServerMessage (item : option Item) (h : History) : History :=
  let h := set_lasts (lastMessage_ h) (Some item) h in
  match lastMessage_ h with
  | Some (Some l) =>
      if negb (isRegular l) && match item with Some i => date i <? date l | None => true end then h else setLastMessage item h
  | _ => setLastMessage item h
  end.

(** [History::dialogEntryApplied], but for the list of chats. *)
Definition entryApplied (h : History) : History :=
  if negb (lastServerMessageKnown h) then setLastServerMessage None h
  else if negb (lastMessageKnown h) then setLastMessage None h
  else h.

(** ** What the server says of a chat *)

Record Dialog := mk_dialog { d_unread : Z; d_readInbox : Z; d_top : Z; d_item : option Item; d_mark : bool }.

Definition applyDialogFields (d : Dialog) (h : History) : option History :=
  let h := set_folderKnown true h in
  if negb (clearUnreadOnClientSide (peer h)) && (default 1 (inboxReadBefore h) <=? d_readInbox d + 1) then
    h <-? setUnreadCount (d_unread d) h ;
    Some (setInboxReadTill (d_readInbox d) h)
  else Some h.

Definition applyDialogTopMessage (d : Dialog) (h : History) : option History :=
  let h := setLastServerMessage (if d_top d =? 0 then None else d_item d) h in
  if clearUnreadOnClientSide (peer h) then
    h <-? setUnreadCount 0 h ;
    Some (match lastMessage h with Some l => setInboxReadTill (itemId l) h | None => h end)
  else Some h.

Definition applyDialog (d : Dialog) (h : History) : option History :=
  h <-? applyDialogFields d h ;
  h <-? applyDialogTopMessage d h ;
  Some (setUnreadMark (d_mark d) h).
