(* ===== verification/ChatFacts.v ===== *)
(** * Chats: reading goes forward

    What every change of the reading state keeps: ids that the server knows, a
    count of unread messages only for chats whose folder is known, and what was
    read stays read. The count of what is left unread is right. *)

From S2P Require Import Prelude Ids ChatReading.

(** ** What is kept *)

Definition server_item (x : Item) : Prop := isRegular x = true -> Msg.IsServerMsgId (itemId x) = true.

Record chat_ok (h : History) : Prop := {
  co_count : is_Some (unreadCount_ h) -> folderKnown h = true;
  co_blocks : Forall (fun b => b <> []) (blocks h);
  co_items : Forall (Forall server_item) (blocks h);
  co_last : forall i, lastServerMessage_ h = Some (Some i) -> Msg.IsServerMsgId (itemId i) = true;
  co_regular : forall i, lastMessage_ h = Some (Some i) -> server_item i }.

Record grows (h h' : History) : Prop := {
  gr_before : forall b, inboxReadBefore h = Some b -> exists b', inboxReadBefore h' = Some b' /\ b <= b';
  gr_folder : folderKnown h = true -> folderKnown h' = true;
  gr_peer : peer h' = peer h;
  gr_known : (is_Some (lastServerMessage_ h) -> is_Some (lastServerMessage_ h')) /\ (is_Some (lastMessage_ h) -> is_Some (lastMessage_ h')) }.

#[export] Instance grows_preorder : PreOrder grows.
Proof.
  split.
  - intros h. split; [|done..]. intros b Hb. by exists b.
  - intros h1 h2 h3 [A1 A2 A3 [A4 A5]] [B1 B2 B3 [B4 B5]]. split; [|auto|congruence|auto]. intros b (b2 & H2 & ?)%A1. apply B1 in H2 as (b3 & ? & ?). exists b3. split; [done|lia].
Qed.

Lemma setInboxReadTill_ok (upTo : Z) (h : History) : chat_ok h -> chat_ok (setInboxReadTill upTo h) /\ grows h (setInboxReadTill upTo h)
  /\ exists b, inboxReadBefore (setInboxReadTill upTo h) = Some b /\ upTo < b.
Proof.
  intros [H1 H2 H3 H4 H5]. unfold setInboxReadTill. destruct (inboxReadBefore h) as [b|] eqn:E; (split; [by split|]); (split; [split; [|done..]; simpl; rewrite E|]); try done.
  - intros b' [= <-]. eexists. split; [done|lia].
  - eexists. split; [done|lia].
  - eexists. split; [done|lia].
Qed.

Lemma last_available (h : History) : chat_ok h -> isEmpty h = false -> exists i, lastAvailable h = Some i.
Proof.
  intros H. unfold isEmpty, lastAvailable. rewrite bool_decide_eq_false. intros Hb. destruct (last (blocks h)) as [b|] eqn:E; [|by apply last_None in E].
  destruct (last b) as [i|] eqn:Ei; [by exists i|]. apply last_None in Ei. subst b. apply last_Some_elem_of in E.
  by eapply Forall_forall in E; [|apply (co_blocks h H)].
Qed.

Lemma setUnreadCount_ok (n : Z) (h : History) : chat_ok h -> folderKnown h = true -> exists h', setUnreadCount n h = Some h' /\ chat_ok h' /\ grows h h'.
Proof.
  intros H Hf. unfold setUnreadCount. rewrite Hf. simpl. case_bool_decide; [by exists h|]. set (h1 := set_count (Some n) h).
  assert (chat_ok h1) as H1 by (destruct H; by split). assert (grows h h1) as G1 by (split; [intros b Hb; by exists b|done..]).
  assert (exists o, lastOutgoing h1 = Some o) as [o ->].
  { unfold lastOutgoing. destruct (lastMessage h1) as [l|]; [|by eexists]. destruct (isRegular l && loadedAtBottom h1); [|by eexists]. simpl.
    destruct (isEmpty h1) eqn:Ee; [by eexists|]. simpl. destruct (last_available h1 H1 Ee) as [i ->]. by eexists. }
  eexists. split; [done|].
  repeat case_match; try done; (split; [by apply setInboxReadTill_ok|]); (etrans; [exact G1|by apply setInboxReadTill_ok]).
Qed.

Lemma setUnreadMark_ok (b : bool) (h : History) : chat_ok h -> chat_ok (setUnreadMark b h) /\ grows h (setUnreadMark b h).
Proof. intros []. split; [by split|]. split; [|done..]. intros c Hc. by exists c. Qed.

Lemma readClientSideMessage_ok (c : ClientSide) (h : History) : chat_ok h -> exists c' h', readClientSideMessage c h = Some (c', h') /\ chat_ok h' /\ grows h h'.
Proof.
  intros H. unfold readClientSideMessage. destruct (_ || _); [by exists c, h|]. destruct (Z.eqb_spec (unreadCount h) 0) as [|Hn]; [by eexists _, h|].
  destruct (setUnreadCount_ok (unreadCount h - 1) h H) as (h1 & -> & ? & ?); [|by eexists _, h1].
  apply (co_count h H). unfold unreadCount in Hn. destruct (unreadCount_ h); [done|]. by simpl in Hn.
Qed.

Lemma readClientSideLoop_ok (l : list ClientSide) (h : History) : chat_ok h -> exists l' h', readClientSideLoop l h = Some (l', h') /\ chat_ok h' /\ grows h h'.
Proof.
  revert h. induction l as [|c l IH]; intros h H; [by exists [], h|]. cbn [readClientSideLoop].
  destruct (readClientSideMessage_ok c h H) as (c' & h1 & -> & H1 & G1). simpl. destruct (IH h1 H1) as (l' & h' & -> & H' & G'). eexists _, _. split; [done|]. split; [done|by etrans].
Qed.

Lemma set_clientSide_ok (l : list ClientSide) (h : History) : chat_ok h -> chat_ok (set_clientSide l h) /\ grows h (set_clientSide l h).
Proof. intros []. split; [by split|]. split; [|done..]. intros b Hb. by exists b. Qed.

Lemma readClientSideMessages_ok (h : History) : chat_ok h -> exists h', readClientSideMessages h = Some h' /\ chat_ok h' /\ grows h h'.
Proof.
  intros H. unfold readClientSideMessages. destruct (readClientSideLoop_ok (clientSideMessages h) h H) as (l & h1 & -> & H1 & G1). simpl.
  eexists. split; [done|]. destruct (set_clientSide_ok l h1 H1). split; [done|by etrans].
Qed.

Lemma setLastMessage_ok (item : option Item) (h : History) : chat_ok h -> (forall i, item = Some i -> server_item i) ->
  chat_ok (setLastMessage item h) /\ grows h (setLastMessage item h) /\ is_Some (lastMessage_ (setLastMessage item h))
  /\ (is_Some (lastServerMessage_ h) -> is_Some (lastServerMessage_ (setLastMessage item h))).
Proof.
  intros H Hi. unfold setLastMessage. case_bool_decide as E; [split; [done|]; split; [done|]; split; [|done]; by destruct (lastMessage_ h)|]. split; [|split; [split; [intros b Hb; by exists b|done|done|simpl; split; [|done]; intros ?; destruct item as [i|]; [|done]; by destruct (isRegular i)]|split; [done|]]].
  - split; try apply H; simpl.
    + destruct item as [i|]; simpl; [|done]. destruct (isRegular i) eqn:Er; [|apply (co_last h H)]. intros j [= <-]. by apply Hi.
    + intros i [= ->]. by apply Hi.
  - simpl. intros ?. destruct item as [i|]; [|done]. by destruct (isRegular i).
Qed.

Lemma setLastServerMessage_ok (item : option Item) (h : History) : chat_ok h -> (forall i, item = Some i -> isRegular i = true /\ server_item i) ->
  chat_ok (setLastServerMessage item h) /\ grows h (setLastServerMessage item h) /\ is_Some (lastMessage_ (setLastServerMessage item h)) /\ is_Some (lastServerMessage_ (setLastServerMessage item h)).
Proof.
  intros H Hi. unfold setLastServerMessage. set (h1 := set_lasts _ _ h).
  assert (chat_ok h1) as H1.
  { split; try apply H. simpl. intros i [= ->]. destruct (Hi i) as [? Hs]; [done|]. by apply Hs. }
  assert (grows h h1) as G1 by (split; [intros b Hb; by exists b|done|done|done]).
  assert (chat_ok (setLastMessage item h1) /\ grows h (setLastMessage item h1) /\ is_Some (lastMessage_ (setLastMessage item h1)) /\ is_Some (lastServerMessage_ (setLastMessage item h1))) as Hset.
  { destruct (setLastMessage_ok item h1 H1) as (? & ? & ? & Hsv); [intros i Ei; by apply Hi|]. split; [done|]. split; [by etrans|]. split; [done|]. by apply Hsv. }
  destruct (lastMessage_ h1) as [[l|]|] eqn:El; [|done|done]. destruct (_ && _); [|done]. by rewrite El.
Qed.

(** What an entry that is applied makes known. *)
Lemma entryApplied_ok (h : History) : chat_ok h -> chat_ok (entryApplied h) /\ grows h (entryApplied h)
  /\ lastMessageKnown (entryApplied h) = true /\ lastServerMessageKnown (entryApplied h) = true.
Proof.
  intros H. unfold entryApplied, lastMessageKnown, lastServerMessageKnown. case_bool_decide as E1; simpl; [case_bool_decide as E2; simpl|].
  - split; [done|]. split; [done|]. by rewrite !bool_decide_eq_true_2.
  - destruct (setLastMessage_ok None h H) as (? & ? & ? & Hs); [done|]. split; [done|]. split; [done|]. rewrite !bool_decide_eq_true_2; auto.
  - destruct (setLastServerMessage_ok None h H) as (? & ? & ? & ?); [done|]. split; [done|]. split; [done|]. rewrite !bool_decide_eq_true_2; auto.
Qed.

Definition dialog_ok (d : Dialog) : Prop := forall i, d_item d = Some i -> isRegular i = true /\ server_item i.

Lemma applyDialog_ok (d : Dialog) (h : History) : dialog_ok d -> chat_ok h -> exists h', applyDialog d h = Some h' /\ chat_ok h' /\ grows h h'.
Proof.
  intros Hd H. unfold applyDialog. assert (exists h1, applyDialogFields d h = Some h1 /\ chat_ok h1 /\ grows h h1 /\ folderKnown h1 = true) as (h1 & -> & H1 & G1 & F1).
  { unfold applyDialogFields. set (h0 := set_folderKnown true h). assert (chat_ok h0) as H0 by (destruct H; by split).
    assert (grows h h0) as G0 by (split; [intros b Hb; by exists b|done..]). destruct (_ && _); [|by exists h0].
    destruct (setUnreadCount_ok (d_unread d) h0 H0) as (h1 & -> & H1 & G1); [done|]. destruct (setInboxReadTill_ok (d_readInbox d) h1 H1) as (? & G2 & _).
    eexists. split; [done|]. split; [done|]. split; [by do 2 (etrans; [done|])|]. apply G2, G1. done. }
  assert (exists h2, applyDialogTopMessage d h1 = Some h2 /\ chat_ok h2 /\ grows h1 h2) as (h2 & -> & H2 & G2).
  { unfold applyDialogTopMessage. set (h2 := setLastServerMessage _ h1). destruct (setLastServerMessage_ok (if d_top d =? 0 then None else d_item d) h1 H1) as (H2 & G2 & _).
    { destruct (_ =? _); [done|exact Hd]. } fold h2 in H2, G2. destruct (clearUnreadOnClientSide _); [|by exists h2].
    destruct (setUnreadCount_ok 0 h2 H2) as (h3 & -> & H3 & G3); [by apply G2|]. eexists. split; [done|]. destruct (lastMessage h3); [|split; [done|by etrans]].
    destruct (setInboxReadTill_ok (itemId i) h3 H3) as (? & ? & _). split; [done|]. by do 2 (etrans; [done|]). }
  destruct (setUnreadMark_ok (d_mark d) h2 H2). eexists. split; [done|]. split; [done|]. by do 2 (etrans; [done|]).
Qed.

Lemma still_known (t n : Z) (h : History) : countStillUnreadLocal t h = Some n -> folderKnown h = true.
Proof. unfold countStillUnreadLocal. destruct (folderKnown h); [done|]. by rewrite orb_true_r. Qed.

(** ** How many are left unread *)

Definition count (p : Item -> bool) (l : list Item) : Z := Z.of_nat (length (filter (fun x => p x = true) l)).
Definition unread (x : Item) : bool := negb (out x && negb (isFromScheduled x)).
Definition regulars (l : list Item) : list Item := filter (fun x => isRegular x = true) l.
Definition by_id (l : list Item) : Prop := StronglySorted (fun x y => itemId x < itemId y) l.

Lemma count_cons (p : Item -> bool) (x : Item) (l : list Item) : count p (x :: l) = (if p x then 1 else 0) + count p l.
Proof. unfold count. rewrite filter_cons. destruct (p x); case_decide; try done; simpl; lia. Qed.
Lemma count_app (p : Item -> bool) (l k : list Item) : count p (l ++ k) = count p l + count p k.
Proof. unfold count. rewrite filter_app, length_app. lia. Qed.
Lemma count_ext (p q : Item -> bool) (l : list Item) : (forall x, x ∈ l -> p x = q x) -> count p l = count q l.
Proof.
  induction l as [|x l IH]; intros H; [done|]. rewrite !count_cons, (H x) by left. rewrite IH; [done|]. intros y Hy. apply H. by right.
Qed.
Lemma count_none (p : Item -> bool) (l : list Item) : (forall x, x ∈ l -> p x = false) -> count p l = 0.
Proof.
  induction l as [|x l IH]; intros H; [done|]. rewrite count_cons, (H x) by left. rewrite IH; [done|]. intros y Hy. apply H. by right.
Qed.
Lemma count_filter (p q : Item -> bool) (l : list Item) : count p (filter (fun x => q x = true) l) = count (fun x => q x && p x) l.
Proof.
  induction l as [|x l IH]; [done|]. rewrite filter_cons, count_cons. case_decide as E; [rewrite E, count_cons, IH; done|].
  rewrite IH. destruct (q x); done.
Qed.
Lemma count_split (p q : Item -> bool) (l : list Item) : count p l = count (fun x => q x && p x) l + count (fun x => negb (q x) && p x) l.
Proof. induction l as [|x l IH]; [done|]. rewrite !count_cons, IH. destruct (p x), (q x); simpl; lia. Qed.
Lemma count_rev (p : Item -> bool) (l : list Item) : count p (rev l) = count p l.
Proof. induction l as [|x l IH]; [done|]. simpl. rewrite count_app, IH, !count_cons. unfold count at 2. simpl. simpl. lia. Qed.
Lemma count_nonneg (p : Item -> bool) (l : list Item) : 0 <= count p l.
Proof. unfold count. lia. Qed.

Lemma regulars_app (l k : list Item) : regulars (l ++ k) = regulars l ++ regulars k.
Proof. apply filter_app. Qed.
Lemma elem_of_regulars (x : Item) (l : list Item) : x ∈ regulars l <-> isRegular x = true /\ x ∈ l.
Proof. unfold regulars. by rewrite list_elem_of_filter. Qed.

Definition between (before till : Z) (x : Item) : bool := isRegular x && (before <=? itemId x) && (itemId x <=? till) && unread x.

Lemma countBlock_is (before till : Z) (l : list Item) : by_id (regulars l) -> countBlock before till l = count (between before till) l.
Proof.
  induction l as [|x l IH]; intros Hs; [done|]. cbn [countBlock]. rewrite count_cons. unfold between at 1, unread. unfold regulars in Hs. rewrite filter_cons in Hs.
  case_decide as Er; rewrite ?Er; simpl.
  - apply StronglySorted_inv in Hs as [Hs Hx]. destruct (out x && negb (isFromScheduled x)); simpl; [rewrite andb_false_r; by apply IH|]. rewrite andb_true_r.
    destruct (Z.ltb_spec till (itemId x)).
    + rewrite (proj2 (Z.leb_gt (itemId x) till)), andb_false_r by lia. rewrite count_none; [done|]. intros y Hy. unfold between.
      destruct (isRegular y) eqn:Ey; [|done]. eapply Forall_forall in Hx; [|by apply elem_of_regulars]. rewrite (proj2 (Z.leb_gt (itemId y) till)) by lia. by rewrite andb_false_r.
    + rewrite (proj2 (Z.leb_le (itemId x) till)), andb_true_r by lia. by rewrite IH.
  - destruct (isRegular x); [done|]. simpl. by apply IH.
Qed.

Lemma countBlocks_is (before till : Z) (l : list (list Item)) : by_id (regulars (concat l)) -> countBlocks before till l = count (between before till) (concat l).
Proof.
  induction l as [|b l IH]; [done|]. simpl. rewrite regulars_app, count_app. intros (H1 & H2 & _)%StronglySorted_app_iff. by rewrite countBlock_is, IH.
Qed.

Definition after_ (till : Z) (x : Item) : bool := isRegular x && (till <? itemId x) && negb (out x).

Lemma countBack_is (till : Z) (l : list Item) (n : Z) : by_id (regulars (rev l)) -> countBack till l n = n + count (after_ till) l.
Proof.
  revert n. induction l as [|x l IH]; intros n Hs; [unfold count; simpl; lia|]. cbn [countBack]. rewrite count_cons. unfold after_ at 1. simpl in Hs. rewrite regulars_app in Hs.
  apply StronglySorted_app_iff in Hs as (Hs & _ & Hx). destruct (isRegular x) eqn:Er; simpl; [|rewrite IH by done; lia].
  destruct (Z.leb_spec (itemId x) till).
  - rewrite (proj2 (Z.ltb_ge till (itemId x))) by lia. simpl. rewrite count_none; [lia|]. intros y Hy. unfold after_. destruct (isRegular y) eqn:Ey; [|done].
    assert (itemId y < itemId x) by (apply Hx; apply elem_of_regulars; [split; [done|]; by apply list_elem_of_In, in_rev; rewrite rev_involutive; apply list_elem_of_In|]; split; [done|left]).
    by rewrite (proj2 (Z.ltb_ge till (itemId y))) by lia.
  - rewrite (proj2 (Z.ltb_lt till (itemId x))) by lia. simpl. rewrite IH by done. destruct (out x); simpl; lia.
Qed.

(** What is loaded is a part of what the server has, and the counter is right. *)
Record true_to (server : list Item) (h : History) : Prop := {
  tt_sorted : by_id server;
  tt_server : Forall (fun x => isRegular x = true /\ 0 < itemId x) server;
  tt_window : regulars (concat (blocks h)) = filter (fun x => (minMsgId h <=? itemId x) && (itemId x <=? maxMsgId h) = true) server;
  tt_bottom : loadedAtBottom h = true -> Forall (fun x => itemId x <= maxMsgId h) server;
  tt_top : loadedAtTop h = true -> Forall (fun x => minMsgId h <= itemId x) server;
  tt_count : forall n b, unreadCount_ h = Some n -> inboxReadBefore h = Some b -> n = count (fun x => (b <=? itemId x) && unread x) server }.

Lemma by_id_filter (p : Item -> bool) (l : list Item) : by_id l -> by_id (filter (fun x => p x = true) l).
Proof.
  induction 1 as [|x l Hs IH Hx]; [constructor|]. rewrite filter_cons. case_decide; [|done]. constructor; [done|].
  apply Forall_forall. intros y [_ Hy]%list_elem_of_filter. by eapply Forall_forall in Hx.
Qed.

Lemma loaded_sorted (server : list Item) (h : History) : true_to server h -> by_id (regulars (concat (blocks h))).
Proof. intros H. rewrite (tt_window _ _ H). apply (by_id_filter (fun x => (minMsgId h <=? itemId x) && (itemId x <=? maxMsgId h))), (tt_sorted _ _ H). Qed.

(** Among what is loaded, as among all that is in its range. *)
Lemma count_loaded (server : list Item) (h : History) (p : Item -> bool) : true_to server h ->
  count (fun x => isRegular x && p x) (concat (blocks h)) = count (fun x => ((minMsgId h <=? itemId x) && (itemId x <=? maxMsgId h)) && p x) server.
Proof.
  intros H. rewrite <- (count_filter p isRegular). fold (regulars (concat (blocks h))). rewrite (tt_window _ _ H).
  apply (count_filter p (fun x => (minMsgId h <=? itemId x) && (itemId x <=? maxMsgId h))).
Qed.

(** C23. The number of messages that will be unread is counted right from what is
    loaded, whether from the counter or from the end of the chat. *)
Theorem still_unread_right (server : list Item) (h : History) (t n : Z) : true_to server h -> Forall (fun x => out x = true -> isFromScheduled x = false) server ->
  0 < t -> default 1 (inboxReadBefore h) <= t -> countStillUnreadLocal t h = Some n -> n = count (fun x => (t <? itemId x) && unread x) server.
Proof.
  intros H Hown Ht Hb. unfold countStillUnreadLocal. destruct (_ || _); [done|]. assert (forall n, countAtEnd t h = Some n -> n = count (fun x => (t <? itemId x) && unread x) server) as Hend.
  { clear n. intros n. unfold countAtEnd. destruct (loadedAtBottom h) eqn:Eb; [|done]. simpl. destruct (_ && _) eqn:Et; [done|]. simpl. destruct (Z.ltb_spec t (minMsgId h)); [done|]. intros [= <-].
    rewrite countBack_is by (rewrite rev_involutive; by apply (loaded_sorted server)). rewrite count_rev. simpl.
    rewrite (count_ext _ (fun x => isRegular x && ((t <? itemId x) && negb (out x)))) by (intros; unfold after_; by rewrite andb_assoc).
    rewrite (count_loaded server h (fun x => (t <? itemId x) && negb (out x)) H). apply count_ext. intros x Hx.
    pose proof (tt_bottom _ _ H Eb) as Hmax. pose proof (tt_server _ _ H) as Hs. eapply Forall_forall in Hmax, Hs, Hown; [|done..].
    destruct (Z.ltb_spec t (itemId x)); [|by rewrite andb_false_r]. rewrite !(proj2 (Z.leb_le _ _)) by lia. simpl. unfold unread. destruct (out x); [by rewrite Hown|done]. }
  destruct (inboxReadBefore h) as [b|] eqn:Eb; [|by apply Hend]. destruct (unreadCount_ h) as [c|] eqn:Ec; [|by apply Hend]. simpl in Hb.
  destruct (_ && _) eqn:Ew; [|by apply Hend]. apply andb_true_iff in Ew as [Hmin%Z.leb_le Hmax%Z.leb_le]. intros [= <-].
  rewrite (tt_count _ _ H c b Ec Eb), (countBlocks_is b t) by by apply (loaded_sorted server).
  rewrite (count_ext (between b t) (fun x => isRegular x && ((b <=? itemId x) && (itemId x <=? t) && unread x))) by (intros; unfold between; by rewrite !andb_assoc).
  rewrite (count_loaded server h (fun x => (b <=? itemId x) && (itemId x <=? t) && unread x) H), (count_split (fun x => (b <=? itemId x) && unread x) (fun x => itemId x <=? t)).
  set (A := count _ server). set (B := count _ server). set (D := count _ server).
  assert (A = D) as ->.
  { apply count_ext. intros x Hx. destruct (Z.leb_spec b (itemId x)), (Z.leb_spec (itemId x) t); simpl; rewrite ?andb_false_r; try done.
    by rewrite !(proj2 (Z.leb_le _ _)) by lia. }
  assert (B = count (fun x => (t <? itemId x) && unread x) server) as <-.
  { apply count_ext. intros x Hx. destruct (Z.leb_spec (itemId x) t), (Z.ltb_spec t (itemId x)); simpl; try lia; try done. by rewrite (proj2 (Z.leb_le b _)) by lia. }
  pose proof (count_nonneg (fun x => negb (itemId x <=? t) && ((b <=? itemId x) && unread x)) server) as Hpos. fold B in Hpos. lia.
Qed.
