(* ===== verification/Histories.v ===== *)
(** * Chats: requests and reading

    [data/data_histories.cpp]: the requests of each chat, of which those for
    messages wait while something is deleted; the entries of chats asked from
    the server, with what waits for them; reading reported to the server. A
    request that is made is in [api] until it is answered or cancelled, with what
    its answer does, and what a handler of another part of the program does
    besides is not here; a call that is left for later is counted. The number of
    a request does not wrap around. [None] is a failed [Expects] or [Assert]. *)

From S2P Require Import Prelude Ids StateMonad ChatReading.

Definition kReadRequestTimeout : Z := 3000.

Inductive RequestType := NoType | HistoryRequest | ReadInbox | Delete | Send.
#[export] Instance RequestType_eq : EqDecision RequestType.
Proof. solve_decision. Defined.

(** What makes a request, when it is called. [Outside] is of another part. *)
Inductive Generator :=
  | Outside (what : Z) | FakeChatList | GroupAround (id : Z) | ReadTill (tillId : Z)
  | DeleteMessages (ids : list Z) (revoke : bool) | DeleteAll (deleteTillId : Z) (justClear revoke : bool)
  | DeleteByDates (minDate maxDate : Z) (revoke : bool).

Inductive DeleteMethod := DeleteChannel | DeleteChannelHistory | DeleteChat | DeleteHistory.

(** A request that was made: the chat, the id and what made it, for those with
    one; the method for those that delete everything. *)
Inductive Asked :=
  | Generated (history id : Z) (g : Generator) (method : DeleteMethod)
  | PeerDialogs (histories : list Z) | FolderDialogs (folder : Z) | MarkUnread (history : Z) (unread : bool)
  | JoinToDelete (history deleteTillId : Z) (justClear revoke : bool).

Inductive Callback := CallReadInbox | CallChatListMessage | CallOutside (what : Z).

Record SentRequest := mk_sent { generator : Generator; sentId : Z; type : RequestType }.
Record State := mk_hstate {
  postponed : gmap Z Generator; sent : gmap Z SentRequest; willReadTill : Z; sentReadTill : Z; willReadWhen : Z;
  sentReadDone : bool; postponedRequestEntry : bool }.
Definition State_new : State := mk_hstate ∅ ∅ 0 0 0 false false.

Record Histories := mk_histories {
  chats : Z -> History; states : gmap Z State; historyByRequest : gmap Z Z; requestAutoincrement : Z;
  readRequestsTimer : option Z; dialogFolderRequests : gset Z; dialogRequests : gmap Z (list Callback);
  dialogRequestsPending : gmap Z (list Callback); fakeChatListRequests : gset Z; chatListGroupRequests : gmap Z (Z * Z);
  now : Z; api : gmap Z Asked; lastRequest : Z; postedCalls : nat; called : list Z }.
Definition Histories_new (chats : Z -> History) (now : Z) : Histories :=
  mk_histories chats ∅ ∅ 0 None ∅ ∅ ∅ ∅ ∅ now ∅ 0 0 [].

Definition set_postponed (v : gmap Z Generator) (s : State) : State :=
  mk_hstate v (sent s) (willReadTill s) (sentReadTill s) (willReadWhen s) (sentReadDone s) (postponedRequestEntry s).
Definition set_sent (v : gmap Z SentRequest) (s : State) : State :=
  mk_hstate (postponed s) v (willReadTill s) (sentReadTill s) (willReadWhen s) (sentReadDone s) (postponedRequestEntry s).
Definition set_willReadTill (v : Z) (s : State) : State :=
  mk_hstate (postponed s) (sent s) v (sentReadTill s) (willReadWhen s) (sentReadDone s) (postponedRequestEntry s).
Definition set_sentReadTill (v : Z) (s : State) : State :=
  mk_hstate (postponed s) (sent s) (willReadTill s) v (willReadWhen s) (sentReadDone s) (postponedRequestEntry s).
Definition set_willReadWhen (v : Z) (s : State) : State :=
  mk_hstate (postponed s) (sent s) (willReadTill s) (sentReadTill s) v (sentReadDone s) (postponedRequestEntry s).
Definition set_sentReadDone (v : bool) (s : State) : State :=
  mk_hstate (postponed s) (sent s) (willReadTill s) (sentReadTill s) (willReadWhen s) v (postponedRequestEntry s).
Definition set_postponedRequestEntry (v : bool) (s : State) : State :=
  mk_hstate (postponed s) (sent s) (willReadTill s) (sentReadTill s) (willReadWhen s) (sentReadDone s) v.

Definition set_chats (v : Z -> History) (w : Histories) : Histories :=
  mk_histories v (states w) (historyByRequest w) (requestAutoincrement w) (readRequestsTimer w) (dialogFolderRequests w) (dialogRequests w) (dialogRequestsPending w) (fakeChatListRequests w) (chatListGroupRequests w) (now w) (api w) (lastRequest w) (postedCalls w) (called w).
Definition set_states (v : gmap Z State) (w : Histories) : Histories :=
  mk_histories (chats w) v (historyByRequest w) (requestAutoincrement w) (readRequestsTimer w) (dialogFolderRequests w) (dialogRequests w) (dialogRequestsPending w) (fakeChatListRequests w) (chatListGroupRequests w) (now w) (api w) (lastRequest w) (postedCalls w) (called w).
Definition set_byRequest (v : gmap Z Z) (w : Histories) : Histories :=
  mk_histories (chats w) (states w) v (requestAutoincrement w) (readRequestsTimer w) (dialogFolderRequests w) (dialogRequests w) (dialogRequestsPending w) (fakeChatListRequests w) (chatListGroupRequests w) (now w) (api w) (lastRequest w) (postedCalls w) (called w).
Definition set_autoincrement (v : Z) (w : Histories) : Histories :=
  mk_histories (chats w) (states w) (historyByRequest w) v (readRequestsTimer w) (dialogFolderRequests w) (dialogRequests w) (dialogRequestsPending w) (fakeChatListRequests w) (chatListGroupRequests w) (now w) (api w) (lastRequest w) (postedCalls w) (called w).
Definition set_timer (v : option Z) (w : Histories) : Histories :=
  mk_histories (chats w) (states w) (historyByRequest w) (requestAutoincrement w) v (dialogFolderRequests w) (dialogRequests w) (dialogRequestsPending w) (fakeChatListRequests w) (chatListGroupRequests w) (now w) (api w) (lastRequest w) (postedCalls w) (called w).
Definition set_folders (v : gset Z) (w : Histories) : Histories :=
  mk_histories (chats w) (states w) (historyByRequest w) (requestAutoincrement w) (readRequestsTimer w) v (dialogRequests w) (dialogRequestsPending w) (fakeChatListRequests w) (chatListGroupRequests w) (now w) (api w) (lastRequest w) (postedCalls w) (called w).
Definition set_dialogs (v : gmap Z (list Callback)) (w : Histories) : Histories :=
  mk_histories (chats w) (states w) (historyByRequest w) (requestAutoincrement w) (readRequestsTimer w) (dialogFolderRequests w) v (dialogRequestsPending w) (fakeChatListRequests w) (chatListGroupRequests w) (now w) (api w) (lastRequest w) (postedCalls w) (called w).
Definition set_pending (v : gmap Z (list Callback)) (w : Histories) : Histories :=
  mk_histories (chats w) (states w) (historyByRequest w) (requestAutoincrement w) (readRequestsTimer w) (dialogFolderRequests w) (dialogRequests w) v (fakeChatListRequests w) (chatListGroupRequests w) (now w) (api w) (lastRequest w) (postedCalls w) (called w).
Definition set_fakes (v : gset Z) (w : Histories) : Histories :=
  mk_histories (chats w) (states w) (historyByRequest w) (requestAutoincrement w) (readRequestsTimer w) (dialogFolderRequests w) (dialogRequests w) (dialogRequestsPending w) v (chatListGroupRequests w) (now w) (api w) (lastRequest w) (postedCalls w) (called w).
Definition set_groups (v : gmap Z (Z * Z)) (w : Histories) : Histories :=
  mk_histories (chats w) (states w) (historyByRequest w) (requestAutoincrement w) (readRequestsTimer w) (dialogFolderRequests w) (dialogRequests w) (dialogRequestsPending w) (fakeChatListRequests w) v (now w) (api w) (lastRequest w) (postedCalls w) (called w).
Definition set_now (v : Z) (w : Histories) : Histories :=
  mk_histories (chats w) (states w) (historyByRequest w) (requestAutoincrement w) (readRequestsTimer w) (dialogFolderRequests w) (dialogRequests w) (dialogRequestsPending w) (fakeChatListRequests w) (chatListGroupRequests w) v (api w) (lastRequest w) (postedCalls w) (called w).
Definition set_api (v : gmap Z Asked) (w : Histories) : Histories :=
  mk_histories (chats w) (states w) (historyByRequest w) (requestAutoincrement w) (readRequestsTimer w) (dialogFolderRequests w) (dialogRequests w) (dialogRequestsPending w) (fakeChatListRequests w) (chatListGroupRequests w) (now w) v (lastRequest w) (postedCalls w) (called w).
Definition set_lastRequest (v : Z) (w : Histories) : Histories :=
  mk_histories (chats w) (states w) (historyByRequest w) (requestAutoincrement w) (readRequestsTimer w) (dialogFolderRequests w) (dialogRequests w) (dialogRequestsPending w) (fakeChatListRequests w) (chatListGroupRequests w) (now w) (api w) v (postedCalls w) (called w).
Definition set_posted (v : nat) (w : Histories) : Histories :=
  mk_histories (chats w) (states w) (historyByRequest w) (requestAutoincrement w) (readRequestsTimer w) (dialogFolderRequests w) (dialogRequests w) (dialogRequestsPending w) (fakeChatListRequests w) (chatListGroupRequests w) (now w) (api w) (lastRequest w) v (called w).
Definition set_called (v : list Z) (w : Histories) : Histories :=
  mk_histories (chats w) (states w) (historyByRequest w) (requestAutoincrement w) (readRequestsTimer w) (dialogFolderRequests w) (dialogRequests w) (dialogRequestsPending w) (fakeChatListRequests w) (chatListGroupRequests w) (now w) (api w) (lastRequest w) (postedCalls w) v.

Definition updated (history : Z) (h : History) (f : Z -> History) : Z -> History := fun x => if x =? history then h else f x.
Definition set_chat (history : Z) (h : History) (w : Histories) : Histories := set_chats (updated history h (chats w)) w.
Definition set_state (history : Z) (s : State) (w : Histories) : Histories := set_states (<[history := s]> (states w)) w.

Definition on_chat (history : Z) (f : History -> option History) : M Histories unit := fun w =>
  h <-? f (chats w history) ; Some (tt, set_chat history h w).
Definition on_state (history : Z) (f : State -> State) : M Histories unit := fun w =>
  s <-? states w !! history ; Some (tt, set_state history (f s) w).
Definition lookup_state (history : Z) : M Histories (option State) := StateMonad.gets (fun w => states w !! history).
Definition chat_of (history : Z) : M Histories History := StateMonad.gets (fun w => chats w history).
Definition when (b : bool) (m : M Histories unit) : M Histories unit := if b then m else ret tt.
Definition expect (b : bool) : M Histories unit := if b then ret tt else lift None.

(** ** Requests *)

Definition send (a : Asked) : M Histories Z :=
  w <- StateMonad.gets id ;;
  let id := lastRequest w + 1 in
  modify (fun w => set_lastRequest id (set_api (<[id := a]> (api w)) w)) ;;;
  ret id.
Definition cancel (requestId : Z) : M Histories unit := modify (fun w => set_api (delete requestId (api w)) w).

Definition deleteMethod (p : Peer) (g : Generator) : DeleteMethod :=
  match g with
  | DeleteAll _ justClear revoke =>
      if negb justClear && revoke && asChannel p && canDelete p then DeleteChannel
      else if asChannel p then DeleteChannelHistory
      else if revoke && asChat p && amCreator p then DeleteChat
      else DeleteHistory
  | _ => DeleteHistory
  end.

Definition generate (history id : Z) (g : Generator) : M Histories Z :=
  h <- chat_of history ;;
  send (Generated history id g (deleteMethod (peer h) g)).

Definition postponeHistoryRequest (s : State) : bool :=
  existsb (fun x => bool_decide (type x.2 = Delete)) (entries (sent s)).
Definition postponeEntryRequest (s : State) : bool :=
  existsb (fun x => negb (bool_decide (type x.2 = HistoryRequest))) (entries (sent s)).

Definition empty_state (s : State) : bool :=
  bool_decide (postponed s = ∅) && negb (postponedRequestEntry s) && bool_decide (sent s = ∅)
  && (willReadTill s =? 0) && (sentReadTill s =? 0).
Definition checkEmptyState (history : Z) : M Histories unit :=
  s <- lookup_state history ;;
  match s with
  | Some s => when (empty_state s) (modify (fun w => set_states (delete history (states w)) w))
  | None => ret tt
  end.

(** A request for messages that was sent waits until the deletion is over. *)
Fixpoint resendLoop (history : Z) (l : list (Z * SentRequest)) : M Histories unit :=
  match l with
  | [] => ret tt
  | (id, x) :: l =>
      when (bool_decide (type x = HistoryRequest)) (
        on_state history (fun s => set_sent (delete id (sent s)) (set_postponed (emplace id (generator x) (postponed s)) s)) ;;;
        cancel (sentId x)) ;;;
      resendLoop history l
  end.

Definition sendRequest (history : Z) (t : RequestType) (g : Generator) : M Histories Z :=
  expect (negb (bool_decide (t = NoType))) ;;;
  w <- StateMonad.gets id ;;
  let state := default State_new (states w !! history) in
  let id := requestAutoincrement w + 1 in
  modify (fun w => set_byRequest (emplace id history (historyByRequest w)) (set_autoincrement id (set_state history state w))) ;;;
  if bool_decide (t = HistoryRequest) && postponeHistoryRequest state then
    on_state history (fun s => set_postponed (emplace id g (postponed s)) s) ;;;
    ret id
  else
    requestId <- generate history id g ;;
    on_state history (fun s => set_sent (emplace id (mk_sent g requestId t) (sent s)) s) ;;;
    w <- StateMonad.gets Datatypes.id ;;
    state <- lift (states w !! history) ;;
    when (negb (postponedRequestEntry state) && postponeEntryRequest state && bool_decide (is_Some (dialogRequests w !! history)))
      (on_state history (set_postponedRequestEntry true)) ;;;
    when (postponeHistoryRequest state) (resendLoop history (entries (sent state))) ;;;
    ret id.

Definition postponeRequestDialogEntries : M Histories unit :=
  w <- StateMonad.gets id ;;
  if (1 <? size (dialogRequestsPending w))%nat then ret tt else modify (set_posted (Datatypes.S (postedCalls w))).

Fixpoint sendPostponed (history : Z) (l : list (Z * Generator)) : M Histories unit :=
  match l with
  | [] => ret tt
  | (id, g) :: l =>
      requestId <- generate history id g ;;
      on_state history (fun s => set_sent (emplace id (mk_sent g requestId HistoryRequest) (sent s)) s) ;;;
      sendPostponed history l
  end.

Definition finishSentRequest (history id : Z) : M Histories unit :=
  modify (fun w => set_byRequest (delete id (historyByRequest w)) w) ;;;
  s <- bind (lookup_state history) lift ;;
  match sent s !! id with
  | Some x => cancel (sentId x) ;;; on_state history (fun s => set_sent (delete id (sent s)) s)
  | None => ret tt
  end ;;;
  s <- bind (lookup_state history) lift ;;
  when (negb (bool_decide (postponed s = ∅)) && negb (postponeHistoryRequest s)) (
    on_state history (set_postponed ∅) ;;;
    sendPostponed history (entries (postponed s))) ;;;
  s <- bind (lookup_state history) lift ;;
  when (postponedRequestEntry s && negb (postponeEntryRequest s)) (
    w <- StateMonad.gets Datatypes.id ;;
    callbacks <- lift (dialogRequests w !! history) ;;
    expect (bool_decide (dialogRequestsPending w !! history = None)) ;;;
    modify (fun w => set_dialogs (delete history (dialogRequests w)) (set_pending (<[history := callbacks]> (dialogRequestsPending w)) w)) ;;;
    on_state history (set_postponedRequestEntry false) ;;;
    postponeRequestDialogEntries) ;;;
  checkEmptyState history.

Definition checkPostponed (history id : Z) : M Histories unit :=
  s <- lookup_state history ;;
  if bool_decide (is_Some s) then finishSentRequest history id else ret tt.

Definition cancelRequest (id : Z) : M Histories unit :=
  if id =? 0 then ret tt else
  w <- StateMonad.gets Datatypes.id ;;
  match historyByRequest w !! id with
  | None => ret tt
  | Some history =>
      modify (fun w => set_byRequest (delete id (historyByRequest w)) w) ;;;
      s <- lookup_state history ;;
      if bool_decide (is_Some s) then
        on_state history (fun s => set_postponed (delete id (postponed s)) s) ;;;
        finishSentRequest history id
      else ret tt
  end.

(** ** Entries of the list of chats *)

Definition requestFolderEntry (folder : Z) : M Histories unit :=
  w <- StateMonad.gets id ;;
  if bool_decide (folder ∈ dialogFolderRequests w) then ret tt else
  modify (set_folders ({[folder]} ∪ dialogFolderRequests w)) ;;;
  send (FolderDialogs folder) ;;; ret tt.

Definition requestDialogEntry (history : Z) (callback : option Callback) : M Histories unit :=
  w <- StateMonad.gets id ;;
  let more := match callback with Some c => [c] | None => [] end in
  match dialogRequests w !! history with
  | Some l => modify (set_dialogs (<[history := l ++ more]> (dialogRequests w)))
  | None =>
      let was := dialogRequestsPending w !! history in
      modify (set_pending (<[history := default [] was ++ more]> (dialogRequestsPending w))) ;;;
      if bool_decide (is_Some was) then ret tt else postponeRequestDialogEntries
  end.

(** The chats to ask for; the others are marked. *)
Fixpoint chooseHistories (l : list Z) : M Histories (list Z) :=
  match l with
  | [] => ret []
  | history :: l =>
      s <- lookup_state history ;;
      if match s with Some s => postponeEntryRequest s | None => false end then
        on_state history (set_postponedRequestEntry true) ;;; chooseHistories l
      else more <- chooseHistories l ;; ret (history :: more)
  end.

Definition sendDialogRequests : M Histories unit :=
  w <- StateMonad.gets id ;;
  if bool_decide (dialogRequestsPending w = ∅) then ret tt else
  histories <- chooseHistories (sorted_keys (dialogRequestsPending w)) ;;
  modify (fun w => set_pending ∅ (set_dialogs (dialogRequests w ∪ dialogRequestsPending w) w)) ;;;
  send (PeerDialogs histories) ;;; ret tt.

(** [History::requestChatListMessage], up to the list of chats. *)
Definition requestChatListMessage (history : Z) : M Histories unit :=
  h <- chat_of history ;;
  if lastMessageKnown h then ret tt else requestDialogEntry history (Some CallChatListMessage).

Definition requestFakeChatListMessage (history : Z) : M Histories unit :=
  w <- StateMonad.gets id ;;
  if bool_decide (history ∈ fakeChatListRequests w) then ret tt else
  modify (set_fakes ({[history]} ∪ fakeChatListRequests w)) ;;;
  sendRequest history HistoryRequest FakeChatList ;;; ret tt.

(** What is cancelled is the number of a request of the chat. *)
Definition requestGroupAround (history itemId : Z) : M Histories unit :=
  w <- StateMonad.gets id ;;
  let request :=
    requestId <- sendRequest history HistoryRequest (GroupAround itemId) ;;
    modify (fun w => set_groups (emplace history (itemId, requestId) (chatListGroupRequests w)) w) in
  match chatListGroupRequests w !! history with
  | Some (aroundId, requestId) =>
      if aroundId =? itemId then ret tt else
      cancelRequest requestId ;;;
      modify (fun w => set_groups (delete history (chatListGroupRequests w)) w) ;;;
      request
  | None => request
  end.

(** ** Reading *)

Definition changeDialogUnreadMark (history : Z) (unread : bool) : M Histories unit :=
  on_chat history (fun h => Some (setUnreadMark unread h)) ;;;
  send (MarkUnread history unread) ;;; ret tt.

Definition readInboxTillNeedsRequest (history tillId : Z) : M Histories bool :=
  expect ((tillId =? 0) || Msg.IsServerMsgId tillId) ;;;
  on_chat history readClientSideMessages ;;;
  h <- chat_of history ;;
  when (unreadMark h) (changeDialogUnreadMark history false) ;;;
  ret (Msg.IsServerMsgId tillId && (default 1 (inboxReadBefore h) <=? tillId)).

Definition sendReadRequest (history : Z) : M Histories unit :=
  s <- bind (lookup_state history) lift ;;
  expect (sentReadTill s <? willReadTill s) ;;;
  let tillId := willReadTill s in
  on_state history (fun s => set_sentReadDone false (set_willReadWhen 0 (set_willReadTill 0 (set_sentReadTill tillId s)))) ;;;
  sendRequest history ReadInbox (ReadTill tillId) ;;; ret tt.

Fixpoint readLoop (l : list Z) (next : option Z) : M Histories (option Z) :=
  match l with
  | [] => ret next
  | history :: l =>
      s <- bind (lookup_state history) lift ;;
      w <- StateMonad.gets id ;;
      if willReadTill s =? 0 then readLoop l next
      else if willReadWhen s <=? now w then sendReadRequest history ;;; readLoop l next
      else readLoop l (Some (match next with Some n => if willReadWhen s <? n then willReadWhen s else n | None => willReadWhen s end))
  end.

Definition sendReadRequests : M Histories unit :=
  w <- StateMonad.gets id ;;
  if bool_decide (states w = ∅) then ret tt else
  next <- readLoop (sorted_keys (states w)) None ;;
  modify (set_timer next).

Definition sendPendingReadInbox (history : Z) : M Histories unit :=
  s <- lookup_state history ;;
  match s with
  | Some s =>
      when (negb (willReadTill s =? 0) && negb (willReadWhen s =? 0)) (
        on_state history (set_willReadWhen 0) ;;; sendReadRequests)
  | None => ret tt
  end.

(** After the check of what was read before. *)
Definition readTill (history tillId : Z) (stillUnread : option Z) (force : bool) : M Histories unit :=
  modify (fun w => set_state history (set_willReadTill tillId (default State_new (states w !! history))) w) ;;;
  let mark (unread : Z) := on_chat history (fun h => setUnreadCount unread (setInboxReadTill tillId h)) in
  match stillUnread with
  | None => on_state history (set_willReadWhen 0) ;;; sendReadRequests
  | Some unread =>
      s <- bind (lookup_state history) lift ;;
      (if force || (unread =? 0) then on_state history (set_willReadWhen 0) ;;; sendReadRequests
       else if willReadWhen s =? 0 then
         w <- StateMonad.gets id ;;
         on_state history (set_willReadWhen (now w + kReadRequestTimeout)) ;;;
         when (negb (bool_decide (is_Some (readRequestsTimer w)))) (modify (set_timer (Some (now w + kReadRequestTimeout))))
       else ret tt) ;;;
      mark unread
  end.

Definition readInboxTillBody (history tillId : Z) (force : bool) : M Histories unit :=
  needsRequest <- readInboxTillNeedsRequest history tillId ;;
  h <- chat_of history ;;
  if negb needsRequest && negb force then ret tt
  else if negb (trackUnreadMessages h) then ret tt else
  maybeState <- lookup_state history ;;
  if match maybeState with Some s => tillId <=? sentReadTill s | None => false end then ret tt
  else if match maybeState with Some s => tillId <=? willReadTill s | None => false end then
    when force (sendPendingReadInbox history)
  else if negb needsRequest && match maybeState with Some s => willReadTill s =? 0 | None => true end then ret tt
  else
    let stillUnread := countStillUnreadLocal tillId h in
    if negb force && unreadCountKnown h && bool_decide (stillUnread = Some (unreadCount h)) then
      on_chat history (fun h => Some (setInboxReadTill tillId h))
    else readTill history tillId stillUnread force.

(** The guard that runs at the end. *)
Definition syncGuard (history tillId : Z) : M Histories unit :=
  on_chat history (fun h =>
    if (0 <? unreadCount h) && match lastServerMessage h with Some l => itemId l =? tillId | None => false end
    then setUnreadCount 0 h else Some h).

Definition readInboxTill (history tillId : Z) (force : bool) : M Histories unit :=
  expect (Msg.IsServerMsgId tillId || ((tillId =? 0) && negb force)) ;;;
  readInboxTillBody history tillId force ;;;
  syncGuard history tillId.

Definition lastServerId (h : History) : Z := match lastServerMessage h with Some l => itemId l | None => 0 end.

Definition readInbox (history : Z) : M Histories unit :=
  h <- chat_of history ;;
  if lastServerMessageKnown h then readInboxTill history (lastServerId h) false
  else if loadedAtBottom h && negb (maxMsgId h =? 0) then readInboxTill history (maxMsgId h) false
  else if loadedAtBottom h && loadedAtTop h then readInboxTill history 0 false
  else requestDialogEntry history (Some CallReadInbox).

(** A message that only this client knows of. *)
Definition readClientSide (history : Z) (i : nat) : M Histories unit :=
  on_chat history (fun h =>
    c <-? clientSideMessages h !! i ;
    r <-? readClientSideMessage c h ;
    Some (set_clientSide (<[i := r.1]> (clientSideMessages h)) r.2)).

(** The message that the server knows, at or before a place in the blocks. *)
Definition regularInBlock (itemIndex : nat) (block : list Item) : option Item :=
  find (fun x => isRegular x) (rev (take itemIndex block)).
Fixpoint regularBefore (l : list (list Item)) (blockIndex itemIndex : nat) : option Item :=
  match regularInBlock itemIndex (default [] (l !! blockIndex)), blockIndex with
  | Some x, _ => Some x
  | None, O => None
  | None, Datatypes.S b => regularBefore l b (length (default [] (l !! b)))
  end.

(** What is read up to: a message of the server, or one that is not, which may be
    unread on the client's side and may be shown at some place. *)
Inductive ReadItem := RegularItem (id : Z) | LocalItem (clientSide : option nat) (place : option (nat * nat)).

Definition readInboxTillItem (history : Z) (x : ReadItem) : M Histories unit :=
  match x with
  | RegularItem id => readInboxTill history id false
  | LocalItem clientSide place =>
      match clientSide with Some i => readClientSide history i | None => ret tt end ;;;
      h <- chat_of history ;;
      match place with
      | Some (blockIndex, itemIndex) =>
          match regularBefore (blocks h) blockIndex itemIndex with
          | Some item => readInboxTill history (itemId item) false
          | None => ret tt
          end
      | None => ret tt
      end
  end.

Definition readInboxOnNewMessage (history tillId : Z) : M Histories unit := readInboxTill history tillId true.

(** ** Entries that came *)

Definition callback (history : Z) (c : Callback) : M Histories unit :=
  match c with
  | CallReadInbox =>
      h <- chat_of history ;;
      expect (lastServerMessageKnown h) ;;;
      readInboxTill history (lastServerId h) false
  | CallChatListMessage => requestChatListMessage history
  | CallOutside what => modify (fun w => set_called (called w ++ [what]) w)
  end.

Definition dialogEntryApplied (history : Z) : M Histories unit :=
  s <- lookup_state history ;;
  if match s with Some s => postponedRequestEntry s | None => false end then ret tt else
  on_chat history (fun h => Some (entryApplied h)) ;;;
  w <- StateMonad.gets id ;;
  modify (set_pending (delete history (dialogRequestsPending w))) ;;;
  each (callback history) (default [] (dialogRequestsPending w !! history)) ;;;
  w <- StateMonad.gets id ;;
  modify (set_dialogs (delete history (dialogRequests w))) ;;;
  each (callback history) (default [] (dialogRequests w !! history)) ;;;
  s <- lookup_state history ;;
  match s with
  | Some s =>
      when (negb (sentReadTill s =? 0) && sentReadDone s) (
        on_state history (set_sentReadTill 0) ;;;
        on_chat history (fun h => Some (setInboxReadTill (sentReadTill s) h)) ;;;
        checkEmptyState history)
  | None => ret tt
  end.

Definition applyPeerDialogs (dialogs : list (Z * Dialog)) : M Histories unit :=
  each (fun x => on_chat x.1 (applyDialog x.2) ;;; dialogEntryApplied x.1) dialogs.

Definition finalize (histories : list Z) : M Histories unit :=
  each (fun history =>
    s <- lookup_state history ;;
    if match s with Some s => postponedRequestEntry s | None => false end then ret tt else dialogEntryApplied history) histories.

(** ** Deletions *)

Definition deleteMessages (history : Z) (ids : list Z) (revoke : bool) : M Histories unit :=
  sendRequest history Delete (DeleteMessages ids revoke) ;;; ret tt.
Definition deleteAllMessages (history deleteTillId : Z) (justClear revoke : bool) : M Histories unit :=
  sendRequest history Delete (DeleteAll deleteTillId justClear revoke) ;;; ret tt.
Definition deleteMessagesByDates (history minDate maxDate : Z) (revoke : bool) : M Histories unit :=
  sendRequest history Delete (DeleteByDates minDate maxDate revoke) ;;; ret tt.

(** ** Answers *)

(** What a request is answered with, as far as it matters here. *)
Inductive Response := Done (offset : Z) (dialogs : list (Z * Dialog)) | Failed (peerIdInvalid : bool).

Definition readFinished (history id tillId : Z) : M Histories unit :=
  s <- bind (lookup_state history) lift ;;
  (if sentReadTill s =? tillId then
     on_state history (set_sentReadDone true) ;;;
     h <- chat_of history ;;
     if unreadCountRefreshNeeded tillId h then requestDialogEntry history None
     else on_state history (set_sentReadTill 0)
   else expect ((sentReadTill s =? 0) || (tillId <? sentReadTill s))) ;;;
  sendReadRequests ;;;
  checkPostponed history id.

Definition generatedAnswered (history id : Z) (g : Generator) (method : DeleteMethod) (r : Response) : M Histories unit :=
  match g, r with
  | Outside _, _ => checkPostponed history id
  | FakeChatList, _ =>
      modify (fun w => set_fakes (fakeChatListRequests w ∖ {[history]}) w) ;;;
      checkPostponed history id
  | GroupAround _, _ =>
      modify (fun w => set_groups (delete history (chatListGroupRequests w)) w) ;;;
      checkPostponed history id
  | ReadTill tillId, _ => readFinished history id tillId
  | DeleteMessages _ _, Done _ _ => checkPostponed history id ;;; requestChatListMessage history
  | DeleteMessages _ _, Failed _ => checkPostponed history id
  | DeleteAll deleteTillId justClear revoke, _ =>
      match method, r with
      (** Nothing is finished here. *)
      | DeleteChannel, _ => ret tt
      | DeleteChat, Failed true =>
          send (JoinToDelete history deleteTillId justClear revoke) ;;;
          checkPostponed history id
      | DeleteHistory, Done offset _ =>
          when (0 <? offset) (deleteAllMessages history deleteTillId justClear revoke) ;;;
          checkPostponed history id
      | _, _ => checkPostponed history id
      end
  | DeleteByDates minDate maxDate revoke, Done offset _ =>
      when (0 <? offset) (deleteMessagesByDates history minDate maxDate revoke) ;;;
      checkPostponed history id
  | DeleteByDates _ _ _, Failed _ => checkPostponed history id
  end.

Definition answered (requestId : Z) (r : Response) : M Histories unit :=
  w <- StateMonad.gets id ;;
  match api w !! requestId with
  | None => ret tt
  | Some a =>
      cancel requestId ;;;
      match a, r with
      | Generated history id g method, _ => generatedAnswered history id g method r
      | PeerDialogs histories, Done _ dialogs => applyPeerDialogs dialogs ;;; finalize histories
      | PeerDialogs histories, Failed _ => finalize histories
      | FolderDialogs folder, Done _ dialogs =>
          applyPeerDialogs dialogs ;;; modify (fun w => set_folders (dialogFolderRequests w ∖ {[folder]}) w)
      | FolderDialogs folder, Failed _ => modify (fun w => set_folders (dialogFolderRequests w ∖ {[folder]}) w)
      | MarkUnread _ _, _ => ret tt
      | JoinToDelete history deleteTillId justClear revoke, Done _ _ => deleteAllMessages history deleteTillId justClear revoke
      | JoinToDelete _ _ _ _, Failed _ => ret tt
      end
  end.
