(* ===== verification/HistoriesFacts.v ===== *)
(** * Chats: what holds of the requests of chats

    A request of a chat is sent or waits for a deletion; what is reported as read
    goes up; an entry that is asked for is on its way. The steps of an operation
    may leave something open, which is named. *)

From S2P Require Import Prelude Ids StateMonad ChatReading ChatFacts Histories.

Definition has_delete (s : State) : Prop := exists id x, sent s !! id = Some x /\ type x = Delete.

(** The type that goes with what makes a request. *)
Definition type_ok (x : SentRequest) : Prop :=
  match generator x with
  | Outside _ => type x = HistoryRequest \/ type x = Send
  | FakeChatList | GroupAround _ => type x = HistoryRequest
  | ReadTill _ => type x = ReadInbox
  | DeleteMessages _ _ | DeleteAll _ _ _ | DeleteByDates _ _ _ => type x = Delete
  end.
Definition for_history (g : Generator) : Prop :=
  match g with Outside _ | FakeChatList | GroupAround _ => True | _ => False end.

(** What [deleteAllMessages] may make as the deletion of a channel. *)
Definition revokes_all (g : Generator) : bool := match g with DeleteAll _ false true => true | _ => false end.

Definition requested (w : Histories) (h : Z) : Prop := is_Some (dialogRequests w !! h) \/ is_Some (dialogRequestsPending w !! h).

(** What is left open: a request that is being finished, chats whose reading is
    between two states, chats whose entry came and is being applied, reading
    that is due; and the deletions of channels that were answered, which nothing
    finishes. *)
Record Open := mk_open { o_finish : option (Z * Z); o_reading : list Z; o_applied : list Z; o_due : bool; o_dropped : gset Z }.
Definition closed (dropped : gset Z) : Open := mk_open None [] [] false dropped.

Record good (o : Open) (w : Histories) (h : Z) (s : State) : Prop := {
  gd_apart : forall id, is_Some (sent s !! id) -> postponed s !! id = None;
  gd_type : forall id x, sent s !! id = Some x -> type_ok x;
  gd_old : forall id x, sent s !! id = Some x -> sentId x <= lastRequest w;
  gd_own : forall id x a, sent s !! id = Some x -> api w !! sentId x = Some a -> exists m, a = Generated h id (generator x) m;
  gd_asked : forall id x, sent s !! id = Some x -> o_finish o = Some (h, id) \/ (sentId x ∈ o_dropped o /\ revokes_all (generator x) = true) \/ is_Some (api w !! sentId x);
  gd_postponed : forall id g, postponed s !! id = Some g -> for_history g;
  gd_waiting : has_delete s -> forall id x, sent s !! id = Some x -> type x <> HistoryRequest;
  gd_deleting : fst <$> o_finish o <> Some h -> postponed s <> ∅ -> has_delete s;
  gd_closing : forall id, o_finish o = Some (h, id) -> postponed s !! id = None;
  gd_reads : forall id x t, sent s !! id = Some x -> generator x = ReadTill t -> 0 < t /\ (sentReadTill s <> 0 -> t <= sentReadTill s)
    /\ (sentReadTill s = 0 -> exists b, inboxReadBefore (chats w h) = Some b /\ t < b) /\ (willReadTill s <> 0 -> t < willReadTill s);
  gd_will : 0 <= sentReadTill s /\ 0 <= willReadTill s /\ (willReadTill s <> 0 -> sentReadTill s < willReadTill s);
  gd_when : 0 <= willReadWhen s <= now w + kReadRequestTimeout /\ (willReadTill s = 0 -> willReadWhen s = 0);
  gd_reading : h ∉ o_reading o -> sentReadTill s <> 0 ->
    (sentReadDone s = false /\ exists id x, sent s !! id = Some x /\ generator x = ReadTill (sentReadTill s)) \/ (sentReadDone s = true /\ (requested w h \/ h ∈ o_applied o));
  gd_finish : forall id x, h ∉ o_reading o -> o_finish o = Some (h, id) -> sent s !! id = Some x -> generator x = ReadTill (sentReadTill s) -> sentReadDone s = true;
  gd_flag : postponedRequestEntry s = true -> is_Some (dialogRequests w !! h);
  gd_held : fst <$> o_finish o <> Some h -> postponedRequestEntry s = true -> postponeEntryRequest s = true }.

Definition tracked (w : Histories) (h id : Z) : Prop := exists s, states w !! h = Some s /\ (is_Some (sent s !! id) \/ is_Some (postponed s !! id)).
Definition flagged (w : Histories) (h : Z) : Prop := exists s, states w !! h = Some s /\ postponedRequestEntry s = true.
Definition entry_asked (w : Histories) (h : Z) : Prop := exists rid l, api w !! rid = Some (PeerDialogs l) /\ h ∈ l.

Record inv (o : Open) (w : Histories) : Prop := {
  iv_chats : forall h, chat_ok (chats w h);
  iv_by : forall id h, o_finish o <> Some (h, id) -> historyByRequest w !! id = Some h <-> tracked w h id;
  iv_ids : forall id h, historyByRequest w !! id = Some h \/ tracked w h id -> 0 < id <= requestAutoincrement w;
  iv_one : forall id h h', tracked w h id -> tracked w h' id -> h = h';
  iv_count : 0 <= requestAutoincrement w;
  iv_api : forall rid a, api w !! rid = Some a -> rid <= lastRequest w
    /\ forall h id g m, a = Generated h id g m -> exists s x, states w !! h = Some s /\ sent s !! id = Some x /\ generator x = g /\ sentId x = rid;
  iv_groups : forall h i id, chatListGroupRequests w !! h = Some (i, id) -> id <= requestAutoincrement w
    /\ forall h' s x, states w !! h' = Some s -> sent s !! id = Some x -> type x = HistoryRequest;
  iv_states : forall h s, states w !! h = Some s -> good o w h s;
  iv_filled : forall h s, states w !! h = Some s -> fst <$> o_finish o <> Some h -> h ∉ o_reading o -> empty_state s = false;
  iv_finish : forall h id, o_finish o = Some (h, id) -> id <= requestAutoincrement w /\ (forall k, tracked w k id -> k = h)
    /\ (historyByRequest w !! id = Some h -> is_Some (states w !! h));
  iv_apart : forall h, is_Some (dialogRequests w !! h) -> dialogRequestsPending w !! h = None;
  iv_posted : dialogRequestsPending w <> ∅ -> (0 < postedCalls w)%nat;
  iv_asked : forall h, is_Some (dialogRequests w !! h) -> flagged w h \/ h ∈ o_applied o \/ entry_asked w h;
  iv_now : 0 <= now w;
  iv_timer : forall d, readRequestsTimer w = Some d -> d <= now w + kReadRequestTimeout;
  iv_due : o_due o = false -> forall h s, states w !! h = Some s -> willReadTill s <> 0 ->
    0 < willReadWhen s /\ exists d, readRequestsTimer w = Some d /\ d <= willReadWhen s }.

(** What the state of a chat depends on, besides itself. *)
Record kept (h : Z) (w w' : Histories) : Prop := {
  kp_before : forall b, inboxReadBefore (chats w h) = Some b -> exists b', inboxReadBefore (chats w' h) = Some b' /\ b <= b';
  kp_api : forall rid id g m, api w !! rid = Some (Generated h id g m) -> api w' !! rid = Some (Generated h id g m);
  kp_old : forall rid a, rid <= lastRequest w -> api w' !! rid = Some a -> api w !! rid = Some a;
  kp_last : lastRequest w <= lastRequest w';
  kp_now : now w <= now w';
  kp_requested : requested w h -> requested w' h;
  kp_dialogs : is_Some (dialogRequests w !! h) -> is_Some (dialogRequests w' !! h) }.

#[export] Instance kept_preorder (h : Z) : PreOrder (kept h).
Proof.
  split.
  - intros w. split; try done. intros b Hb. by exists b.
  - intros w1 w2 w3 [A1 A2 A3 A4 A5 A6 A7] [B1 B2 B3 B4 B5 B6 B7]. split; eauto; try lia.
    + intros b (b2 & H2 & ?)%A1. apply B1 in H2 as (b3 & ? & ?). exists b3. split; [done|lia].
    + intros rid a Hr Ha. apply A3; [done|]. apply B3; [lia|done].
Qed.

Lemma good_kept (o : Open) (w w' : Histories) (h : Z) (s : State) : kept h w w' -> good o w h s -> good o w' h s.
Proof.
  intros K G. split; try apply G.
  - intros id x Hx. pose proof (gd_old _ _ _ _ G id x Hx). pose proof (kp_last _ _ _ K). lia.
  - intros id x a Hx Ha. apply (gd_own _ _ _ _ G id x a Hx), (kp_old _ _ _ K); [by eapply gd_old|done].
  - intros id x Hx. destruct (gd_asked _ _ _ _ G id x Hx) as [?|[?|[a Ha]]]; [by left|right; by left|right; right].
    destruct (gd_own _ _ _ _ G id x a Hx Ha) as [m ->]. eexists. by apply (kp_api _ _ _ K).
  - intros id x t Hx Ht. destruct (gd_reads _ _ _ _ G id x t Hx Ht) as (? & ? & Hb & ?). split; [done|]. split; [done|]. split; [|done].
    intros E. destruct (Hb E) as (b & Hb' & ?). destruct (kp_before _ _ _ K b Hb') as (b' & ? & ?). exists b'. split; [done|lia].
  - destruct (gd_when _ _ _ _ G). pose proof (kp_now _ _ _ K). split; [lia|done].
  - intros H1 H2. destruct (gd_reading _ _ _ _ G H1 H2) as [?|[? ?]]; [by left|right]. split; [done|]. pose proof (kp_requested _ _ _ K). tauto.
  - intros Hf. by apply (kp_dialogs _ _ _ K), (gd_flag _ _ _ _ G).
Qed.

(** ** Deletions and other requests *)

Lemma any_entry (p : SentRequest -> bool) (m : gmap Z SentRequest) : existsb (fun x => p x.2) (entries m) = true <-> exists id x, m !! id = Some x /\ p x = true.
Proof.
  rewrite existsb_exists. split.
  - intros ([id x] & Hin%list_elem_of_In & Hp). apply elem_of_entries in Hin. by exists id, x.
  - intros (id & x & Hx & Hp). exists (id, x). split; [|done]. apply list_elem_of_In. by apply elem_of_entries.
Qed.

Lemma postpone_history (s : State) : postponeHistoryRequest s = true <-> has_delete s.
Proof.
  etrans; [exact (any_entry (fun x => bool_decide (type x = Delete)) (sent s))|]. unfold has_delete. by setoid_rewrite bool_decide_eq_true.
Qed.

Lemma postpone_entry (s : State) : postponeEntryRequest s = true <-> exists id x, sent s !! id = Some x /\ type x <> HistoryRequest.
Proof.
  etrans; [exact (any_entry (fun x => negb (bool_decide (type x = HistoryRequest))) (sent s))|]. split; intros (id & x & Hx & Ht); exists id, x; (split; [done|]).
  - by case_bool_decide.
  - by rewrite bool_decide_eq_false_2.
Qed.

Lemma not_empty (s : State) : empty_state s = false <-> sent s <> ∅ \/ postponed s <> ∅ \/ postponedRequestEntry s = true \/ willReadTill s <> 0 \/ sentReadTill s <> 0.
Proof.
  unfold empty_state. rewrite !andb_false_iff, !bool_decide_eq_false, negb_false_iff, !Z.eqb_neq. tauto.
Qed.

Lemma insert_iff {V} (m : gmap Z V) (k i : Z) (v x : V) : <[k := v]> m !! i = Some x <-> i = k /\ x = v \/ i <> k /\ m !! i = Some x.
Proof.
  rewrite lookup_insert_Some. split; (intros [[? ?]|[? ?]]; [left|right]; by split).
Qed.
Lemma delete_iff {V} (m : gmap Z V) (k i : Z) (x : V) : delete k m !! i = Some x <-> i <> k /\ m !! i = Some x.
Proof. rewrite lookup_delete_Some. split; intros [? ?]; by split. Qed.

Lemma updated_eq (h : Z) (c : History) (f : Z -> History) : updated h c f h = c.
Proof. unfold updated. by rewrite Z.eqb_refl. Qed.
Lemma updated_ne (h k : Z) (c : History) (f : Z -> History) : h <> k -> updated h c f k = f k.
Proof. intros. unfold updated. by rewrite (proj2 (Z.eqb_neq k h)) by done. Qed.

(** ** A request is made *)

Definition scalars (s : State) : Z * Z * Z * bool := (willReadTill s, sentReadTill s, willReadWhen s, sentReadDone s).
Definition rest (w : Histories) := (chats w, readRequestsTimer w, dialogRequests w, dialogRequestsPending w, chatListGroupRequests w, now w, postedCalls w).
Definition books (w : Histories) := (historyByRequest w, requestAutoincrement w).

Lemma state_new_good (o : Open) (w : Histories) (h : Z) : 0 <= now w -> good o w h State_new.
Proof.
  intros Hn. split; simpl; try done. unfold kReadRequestTimeout. lia.
Qed.

(** The state of a chat, as [_states[history]] finds or makes it. *)
Definition state_in (w : Histories) (h : Z) : State := default State_new (states w !! h).

Lemma state_in_good (o : Open) (w : Histories) (h : Z) : inv o w -> good o w h (state_in w h).
Proof.
  intros H. unfold state_in. destruct (states w !! h) as [s|] eqn:E; [by apply (iv_states _ _ H)|]. by apply state_new_good, (iv_now _ _ H).
Qed.

Lemma on_state_is (h : Z) (f : State -> State) (s : State) (w : Histories) : states w !! h = Some s -> on_state h f w = Some (tt, set_state h (f s) w).
Proof. unfold on_state. by intros ->. Qed.

Record resent (h : Z) (l : list (Z * SentRequest)) (s : State) (w : Histories) (s' : State) (w' : Histories) : Prop := {
  rs_state : states w' = <[h := s']> (states w);
  rs_rest : rest w' = rest w /\ books w' = books w /\ lastRequest w' = lastRequest w;
  rs_scalars : scalars s' = scalars s /\ postponedRequestEntry s' = postponedRequestEntry s;
  rs_sent : forall id x, sent s' !! id = Some x <-> sent s !! id = Some x /\ ~ (id ∈ l.*1 /\ type x = HistoryRequest);
  rs_postponed : forall id g, postponed s' !! id = Some g <-> postponed s !! id = Some g \/ exists x, (id, x) ∈ l /\ type x = HistoryRequest /\ g = generator x;
  rs_api : forall rid a, api w' !! rid = Some a <-> api w !! rid = Some a /\ forall id x, (id, x) ∈ l -> type x = HistoryRequest -> sentId x <> rid }.

Lemma resendLoop_is (h : Z) (l : list (Z * SentRequest)) (s : State) (w : Histories) : states w !! h = Some s -> NoDup l.*1 ->
  (forall id x, (id, x) ∈ l -> sent s !! id = Some x) -> (forall id, is_Some (sent s !! id) -> postponed s !! id = None) ->
  exists s' w', resendLoop h l w = Some (tt, w') /\ resent h l s w s' w'.
Proof.
  revert s w. induction l as [|[id x] l IH]; intros s w Hs Hd Hl Hp.
  { exists s, w. split; [done|]. split; try done; simpl.
    - by rewrite insert_id.
    - intros i y. split; [|by intros []]. intros ?. split; [done|]. by intros [?%not_elem_of_nil _].
    - intros i g. split; [by left|]. intros [?|(y & ?%not_elem_of_nil & _)]; done.
    - intros r a. split; [|by intros []]. intros ?. split; [done|]. by intros i y ?%not_elem_of_nil. }
  cbn [fmap list_fmap fst] in Hd. apply NoDup_cons in Hd as [Hid Hd]. assert (sent s !! id = Some x) as Hx by (apply Hl; left).
  cbn [resendLoop]. unfold when. case_bool_decide as Et.
  - set (s1 := set_sent (delete id (sent s)) (set_postponed (emplace id (generator x) (postponed s)) s)).
    set (w1 := set_api (delete (sentId x) (api w)) (set_state h s1 w)).
    assert (emplace id (generator x) (postponed s) = <[id := generator x]> (postponed s)) as Em by (apply emplace_fresh, Hp; by rewrite Hx).
    assert (states w1 !! h = Some s1) as Hs1 by (simpl; by rewrite lookup_insert_eq).
    destruct (IH s1 w1 Hs1 Hd) as (s' & w' & E & [R1 R2 R3 R4 R5 R6]).
    { intros i y Hin. simpl. rewrite lookup_delete_ne; [apply Hl; by right|]. intros ->. apply Hid, list_elem_of_fmap. by exists (i, y). }
    { intros i. simpl. rewrite Em. intros [y [Hne Hy]%lookup_delete_Some]. rewrite lookup_insert_ne by done. apply Hp. by rewrite Hy. }
    exists s', w'. split; [by unfold bind, modify, cancel; rewrite (on_state_is h _ s w Hs)|]. split.
    + rewrite R1. simpl. by rewrite insert_insert_eq.
    + by destruct R2 as (-> & -> & ->).
    + by destruct R3 as [-> ->].
    + intros i y. rewrite R4. simpl. rewrite lookup_delete_Some, elem_of_cons. split.
      * intros [[Hne Hy] Hn]. split; [done|]. intros [[->|?] ?]; [done|]. by apply Hn.
      * intros [Hy Hn]. split; [split; [|done]|]; [intros ->; apply Hn; split; [by left|congruence]|]. intros [? ?]. apply Hn. split; [by right|done].
    + intros i g. rewrite R5. simpl. rewrite Em. setoid_rewrite elem_of_cons. split.
      * intros [Hg|(y & Hy & ? & ?)]; [|right; exists y; by split; [right|]]. apply lookup_insert_Some in Hg as [[<- <-]|[? ?]]; [right; exists x; by split; [left|]|by left].
      * intros [Hg|(y & [[= -> ->]|Hy] & ? & ->)].
        -- left. rewrite lookup_insert_ne; [done|]. intros <-. by rewrite Hp in Hg.
        -- left. by rewrite lookup_insert_eq.
        -- right. by exists y.
    + intros r a. rewrite R6. simpl. rewrite lookup_delete_Some. setoid_rewrite elem_of_cons. split.
      * intros [[Hne Ha] Hn]. split; [done|]. intros i y [[= -> ->]|Hy] ?; [done|]. by eapply Hn.
      * intros [Ha Hn]. split; [split; [|done]|]; [apply (Hn id x); [by left|done]|]. intros i y Hy. apply (Hn i y). by right.
  - destruct (IH s w Hs Hd) as (s' & w' & E & [R1 R2 R3 R4 R5 R6]); [intros i y Hin; apply Hl; by right|done|].
    exists s', w'. split; [done|]. split; try done.
    + intros i y. rewrite R4, fmap_cons, elem_of_cons. simpl. split; intros [Hy Hn]; (split; [done|]).
      * intros [[->|?] ?]; [congruence|by apply Hn].
      * intros [? ?]. apply Hn. split; [by right|done].
    + intros i g. rewrite R5. setoid_rewrite elem_of_cons. split; (intros [?|(y & Hy & ? & ?)]; [by left|right; exists y]).
      * by split; [right|].
      * destruct Hy as [[= -> ->]|?]; [congruence|done].
    + intros r a. rewrite R6. setoid_rewrite elem_of_cons. split; intros [Ha Hn]; (split; [done|]).
      * intros i y [[= -> ->]|Hy] ?; [congruence|by eapply Hn].
      * intros i y Hy. apply (Hn i y). by right.
Qed.
