(* ===== verification/HistoriesSend.v ===== *)
(** * Chats: requests that are made

    A request is sent, or waits if it is for messages and a deletion is under
    way; when a deletion is sent, the requests for messages that were sent wait
    again. *)

From S2P Require Import Prelude Ids StateMonad ChatReading ChatFacts Histories HistoriesFacts.

Section Made.
Context (h : Z) (t : RequestType) (g : Generator).

Definition next_id (w : Histories) : Z := requestAutoincrement w + 1.
Definition next_request (w : Histories) : Z := lastRequest w + 1.
Definition new_sent (w : Histories) : SentRequest := mk_sent g (next_request w) t.
Definition new_asked (w : Histories) : Asked := Generated h (next_id w) g (deleteMethod (peer (chats w h)) g).
Definition deleting (w : Histories) : Prop := has_delete (state_in w h) \/ t = Delete.

(** What a request that is sent changes. *)
Record made (w : Histories) (s' : State) (w' : Histories) : Prop := {
  md_state : states w' = <[h := s']> (states w);
  md_rest : rest w' = rest w;
  md_by : historyByRequest w' = emplace (next_id w) h (historyByRequest w);
  md_count : requestAutoincrement w' = next_id w;
  md_last : lastRequest w' = next_request w;
  md_scalars : scalars s' = scalars (state_in w h);
  md_flag : postponedRequestEntry s' = true -> postponedRequestEntry (state_in w h) = true \/ (t <> HistoryRequest \/ postponeEntryRequest (state_in w h) = true) /\ is_Some (dialogRequests w !! h);
  md_flag_kept : postponedRequestEntry (state_in w h) = true -> postponedRequestEntry s' = true;
  md_sent : forall i x, sent s' !! i = Some x <-> (i = next_id w /\ x = new_sent w \/ i <> next_id w /\ sent (state_in w h) !! i = Some x) /\ ~ (deleting w /\ type x = HistoryRequest);
  md_postponed : forall i k, postponed s' !! i = Some k <-> postponed (state_in w h) !! i = Some k
    \/ deleting w /\ exists x, sent (state_in w h) !! i = Some x /\ type x = HistoryRequest /\ k = generator x;
  md_api : forall r a, api w' !! r = Some a <-> (r = next_request w /\ a = new_asked w \/ r <> next_request w /\ api w !! r = Some a)
    /\ ~ (deleting w /\ exists i x, sent (state_in w h) !! i = Some x /\ type x = HistoryRequest /\ sentId x = r) }.

(** The request is sent, and a chat whose entry is asked for is marked. *)
Record gone (w : Histories) (s4 : State) (w4 : Histories) : Prop := {
  gn_states : states w4 = <[h := s4]> (states w);
  gn_rest : rest w4 = rest w;
  gn_books : books w4 = (emplace (next_id w) h (historyByRequest w), next_id w);
  gn_last : lastRequest w4 = next_request w;
  gn_api : api w4 = <[next_request w := new_asked w]> (api w);
  gn_sent : sent s4 = <[next_id w := new_sent w]> (sent (state_in w h));
  gn_postponed : postponed s4 = postponed (state_in w h);
  gn_scalars : scalars s4 = scalars (state_in w h);
  gn_flag : postponedRequestEntry s4 = true -> postponedRequestEntry (state_in w h) = true \/ (t <> HistoryRequest \/ postponeEntryRequest (state_in w h) = true) /\ is_Some (dialogRequests w !! h);
  gn_kept : postponedRequestEntry (state_in w h) = true -> postponedRequestEntry s4 = true;
  gn_deleting : has_delete s4 <-> deleting w }.

Lemma sendRequest_gone (w : Histories) : t <> NoType -> (t = HistoryRequest -> ~ has_delete (state_in w h)) -> sent (state_in w h) !! next_id w = None ->
  exists s4 w4, gone w s4 w4 /\ sendRequest h t g w = (when (postponeHistoryRequest s4) (resendLoop h (entries (sent s4))) ;;; ret (next_id w)) w4.
Proof.
  intros Ht Hp Hfs. set (s := state_in w h) in *. unfold sendRequest, expect. rewrite bool_decide_eq_false_2 by done. simpl negb.
  unfold bind at 1, ret at 1. unfold bind at 1, StateMonad.gets at 1, Datatypes.id. unfold bind at 1, modify at 1. fold (next_id w). fold (state_in w h). fold s.
  replace (bool_decide (t = HistoryRequest) && postponeHistoryRequest s) with false; cycle 1.
  { symmetry. apply andb_false_iff. case_bool_decide as E; [right|by left]. apply not_true_iff_false. rewrite postpone_history. by apply Hp. }
  set (w1 := set_byRequest _ _). unfold bind at 1, generate, bind at 1, chat_of, StateMonad.gets at 1, send, bind at 1, StateMonad.gets at 1, Datatypes.id, bind at 1, modify at 1, ret at 1.
  set (w2 := set_lastRequest _ _). assert (states w2 !! h = Some s) as Hs2 by (simpl; by rewrite lookup_insert_eq).
  unfold bind at 1. rewrite (on_state_is h _ s w2 Hs2). fold (next_request w).
  change (lastRequest w1 + 1) with (next_request w). fold (new_sent w). set (s3 := set_sent (emplace (next_id w) (new_sent w) (sent s)) s).
  assert (sent s3 = <[next_id w := new_sent w]> (sent s)) as E3 by (simpl; by apply emplace_fresh).
  set (w3 := set_state h s3 w2). assert (states w3 !! h = Some s3) as Hs3 by (simpl; by rewrite lookup_insert_eq).
  unfold bind at 1, StateMonad.gets at 1, Datatypes.id. unfold bind at 1, lift at 1. rewrite Hs3.
  set (fl := negb (postponedRequestEntry s3) && postponeEntryRequest s3 && bool_decide (is_Some (dialogRequests w3 !! h))).
  set (s4 := if fl then set_postponedRequestEntry true s3 else s3). set (w4 := if fl then set_state h s4 w3 else w3).
  assert (when fl (on_state h (set_postponedRequestEntry true)) w3 = Some (tt, w4)) as Ew.
  { unfold when, w4, s4. destruct fl; [|done]. by rewrite (on_state_is h _ s3 w3 Hs3). }
  assert (sent s4 = sent s3) as E4 by (unfold s4; by destruct fl). unfold bind at 1. rewrite Ew. exists s4, w4. split.
  - split; try (unfold w4, s4; by destruct fl); [unfold w4, s4; destruct fl; simpl; by rewrite !insert_insert_eq| |].
    + unfold s4. destruct fl eqn:Ef; [|by left]. intros _. right. unfold fl in Ef. apply andb_true_iff in Ef as [[_ Ef]%andb_true_iff Ed%bool_decide_eq_true]. split; [|done].
      apply postpone_entry in Ef as (i & x & Hx & Htx). rewrite E3 in Hx. apply lookup_insert_Some in Hx as [[<- <-]|[? Hx]]; [by left|right]. apply postpone_entry. by exists i, x.
    + unfold deleting, has_delete. rewrite E4, E3. fold s. split.
      * intros (i & x & [[<- <-]|[Hne Hx]]%lookup_insert_Some & Hd); [by right|]. left. by exists i, x.
      * intros [(i & x & Hx & Hd)|Hd]; [|by exists (next_id w), (new_sent w); rewrite lookup_insert_eq]. exists i, x. split; [|done]. rewrite lookup_insert_ne; [done|]. intros <-. by rewrite Hfs in Hx.
  - replace (postponeHistoryRequest s4) with (postponeHistoryRequest s3) by (unfold postponeHistoryRequest; by rewrite E4). by rewrite E4.
Qed.

Lemma sendRequest_is (w : Histories) : t <> NoType -> (t = HistoryRequest -> ~ has_delete (state_in w h)) ->
  sent (state_in w h) !! next_id w = None -> postponed (state_in w h) !! next_id w = None ->
  (forall i, is_Some (sent (state_in w h) !! i) -> postponed (state_in w h) !! i = None) ->
  exists s' w', sendRequest h t g w = Some (next_id w, w') /\ made w s' w'.
Proof.
  intros Ht Hp Hfs Hfp Hap. destruct (sendRequest_gone w Ht Hp Hfs) as (s4 & w4 & [Es4 Er4 Eb4 El4 Ea4 Et4 Ep4 Ec4 Hf4 Hk4 Hdel] & ->). set (s := state_in w h) in *. unfold when. unfold books in Eb4. injection Eb4 as Hb3 Hb4.
  assert (states w4 !! h = Some s4) as Hs4 by (rewrite Es4; by rewrite lookup_insert_eq). destruct (postponeHistoryRequest s4) eqn:Ed.
  - apply postpone_history, Hdel in Ed.
    destruct (resendLoop_is h (entries (sent s4)) s4 w4 Hs4) as (s' & w' & E & [R1 (R2 & R2' & R2'') [R3 R3'] R4 R5 R6]).
    { rewrite entries_keys. apply sorted_elements_NoDup. }
    { intros i x. by rewrite elem_of_entries. }
    { intros i. rewrite Ep4, Et4. intros [x [[<- <-]|[_ Hx]]%lookup_insert_Some]; [done|]. apply Hap. by rewrite Hx. }
    unfold bind at 1. rewrite E. exists s', w'. split; [done|]. assert (forall i x, (i, x) ∈ entries (sent s4) <-> i = next_id w /\ x = new_sent w \/ i <> next_id w /\ sent s !! i = Some x) as Hin.
    { intros i x. by rewrite elem_of_entries, Et4, insert_iff. }
    assert (forall i x, i = next_id w /\ x = new_sent w \/ i <> next_id w /\ sent s !! i = Some x -> type x = HistoryRequest -> sent s !! i = Some x) as Hold'.
    { intros i x [[-> ->]|[_ ?]] Hx; [|done]. simpl in Hx. destruct Ed as [Ed|Ed]; [by destruct (Hp Hx)|congruence]. }
    unfold books in R2'. injection R2' as Hb1 Hb2. split; fold s; try congruence.
    + by rewrite R1, Es4, insert_insert_eq.
    + by rewrite R3'.
    + by rewrite R3'.
    + intros i x. rewrite R4, <- Hin, elem_of_entries. split; (intros [Hx Hn]; split; [done|]); [intros [_ ?]|intros [_ ?]]; apply Hn; (split; [|done]); [|done].
      apply list_elem_of_fmap. exists (i, x). split; [done|]. by apply elem_of_entries.
    + intros i k. rewrite R5, Ep4. setoid_rewrite Hin. split; (intros [?|Hx]; [by left|right]).
      * destruct Hx as (x & Hx & Htx & ->). split; [done|]. exists x. split; [by apply Hold'|done].
      * destruct Hx as (_ & x & Hx & Htx & ->). exists x. split; [|done]. right. split; [|done]. intros ->. congruence.
    + intros r a. rewrite R6, Ea4, insert_iff. setoid_rewrite Hin. split; intros [Ha Hn]; (split; [done|]).
      * intros (_ & i & x & Hx & Htx & Hr). apply (Hn i x); [|done..]. right. split; [|done]. intros ->. congruence.
      * intros i x Hx Htx Hr. apply Hn. split; [done|]. exists i, x. split; [by apply Hold'|done].
  - assert (~ deleting w) as Hnd by (rewrite <- Hdel, <- postpone_history; congruence). exists s4, w4. split; [done|]. split; fold s; try done.
    + intros i x. rewrite Et4, insert_iff. tauto.
    + intros i k. rewrite Ep4. tauto.
    + intros r a. rewrite Ea4, insert_iff. tauto.
Qed.
End Made.

(** ** A request keeps what holds *)

Record effect (h : Z) (t : RequestType) (g : Generator) (w w' : Histories) : Prop := {
  ef_rest : rest w' = rest w;
  ef_states : forall k, k <> h -> states w' !! k = states w !! k;
  ef_state : exists s', states w' !! h = Some s' /\ scalars s' = scalars (state_in w h)
    /\ (forall x, sent s' !! next_id w = Some x -> type x = t)
    /\ (t <> HistoryRequest -> exists x, sent s' !! next_id w = Some x /\ generator x = g)
    /\ (is_Some (sent s' !! next_id w) \/ is_Some (postponed s' !! next_id w));
  ef_tracked : forall k i, tracked w' k i <-> tracked w k i \/ k = h /\ i = next_id w;
  ef_by : historyByRequest w' = <[next_id w := h]> (historyByRequest w);
  ef_count : requestAutoincrement w' = next_id w;
  ef_types : forall k i s' x, states w' !! k = Some s' -> sent s' !! i = Some x -> k = h /\ i = next_id w \/ exists s, states w !! k = Some s /\ sent s !! i = Some x;
  ef_asked : forall r l, api w' !! r = Some (PeerDialogs l) <-> api w !! r = Some (PeerDialogs l);
  ef_flag : forall k, flagged w k -> flagged w' k }.

Lemma deleting_dec (h : Z) (t : RequestType) (w : Histories) : deleting h t w \/ ~ deleting h t w.
Proof.
  unfold deleting. destruct (decide (t = Delete)) as [|Ht]; [by left; right|]. destruct (postponeHistoryRequest (state_in w h)) eqn:E.
  - left. left. by apply postpone_history.
  - right. intros [Hd|?]; [|done]. apply postpone_history in Hd. congruence.
Qed.

Lemma no_delete_new : ~ has_delete State_new.
Proof. by intros (i & x & Hx & _). Qed.

Lemma tracked_in (w : Histories) (h i : Z) : tracked w h i <-> is_Some (sent (state_in w h) !! i) \/ is_Some (postponed (state_in w h) !! i).
Proof.
  unfold tracked, state_in. destruct (states w !! h) as [s|]; simpl.
  - split; [by intros (s' & [= <-] & ?)|]. intros ?. by exists s.
  - split; [by intros (s' & ? & _)|]. by intros [[x Hx]|[x Hx]].
Qed.

Lemma next_fresh (o : Open) (w : Histories) (h : Z) : inv o w -> sent (state_in w h) !! next_id w = None /\ postponed (state_in w h) !! next_id w = None
  /\ historyByRequest w !! next_id w = None.
Proof.
  intros H. assert (forall k, ~ tracked w k (next_id w)) as Hn.
  { intros k Ht. destruct (iv_ids _ _ H (next_id w) k); [by right|]. unfold next_id in *. lia. }
  specialize (Hn h). rewrite tracked_in in Hn. split; [|split].
  - apply eq_None_not_Some. tauto.
  - apply eq_None_not_Some. tauto.
  - destruct (historyByRequest w !! next_id w) as [k|] eqn:E; [|done]. destruct (iv_ids _ _ H (next_id w) k); [by left|]. unfold next_id in *. lia.
Qed.

Lemma state_in_cases (w : Histories) (h : Z) : (exists s, states w !! h = Some s /\ state_in w h = s) \/ states w !! h = None /\ state_in w h = State_new.
Proof. unfold state_in. destruct (states w !! h) as [s|]; [left; by exists s|by right]. Qed.
Lemma state_in_is (w : Histories) (h : Z) (s : State) : states w !! h = Some s -> state_in w h = s.
Proof. unfold state_in. by intros ->. Qed.

Section Keeps.
Context (o : Open) (w : Histories) (h : Z) (t : RequestType) (g : Generator).
Hypothesis Hw : inv o w.
Hypothesis Ht : t <> NoType.
Hypothesis Htype : type_ok (new_sent t g w).
Hypothesis Hread : forall till, g = ReadTill till -> 0 < till /\ sentReadTill (state_in w h) = till /\ willReadTill (state_in w h) = 0.

#[local] Abbreviation s := (state_in w h).
Hypothesis Hclosing : forall id x, o_finish o = Some (h, id) -> sent s !! id = Some x -> type x = HistoryRequest -> t <> Delete.
Let Hs : good o w h s := state_in_good o w h Hw.

(** What is sent afterwards. *)
Lemma made_sent (s' : State) (w' : Histories) (i : Z) (x : SentRequest) : made h t g w s' w' -> sent s' !! i = Some x ->
  (i = next_id w /\ x = new_sent t g w \/ i <> next_id w /\ sent s !! i = Some x) /\ ~ (deleting h t w /\ type x = HistoryRequest).
Proof. intros M. apply (md_sent _ _ _ _ _ _ M). Qed.

Lemma made_new (s' : State) (w' : Histories) : (t = HistoryRequest -> ~ has_delete s) -> made h t g w s' w' -> sent s' !! next_id w = Some (new_sent t g w).
Proof.
  intros Hp M. apply (md_sent _ _ _ _ _ _ M). split; [by left|]. intros [[Hd|Hd] Hx]; simpl in Hx; [by apply (Hp Hx)|congruence].
Qed.

Lemma made_effect (s' : State) (w' : Histories) : (t = HistoryRequest -> ~ has_delete s) -> made h t g w s' w' -> effect h t g w w'.
Proof.
  intros Hp M. destruct (next_fresh o w h Hw) as (F1 & F2 & F3).
  assert (states w' !! h = Some s') as Es' by (rewrite (md_state _ _ _ _ _ _ M); by rewrite lookup_insert_eq).
  pose proof (made_new s' w' Hp M) as Hnew.
  split.
  - exact (md_rest _ _ _ _ _ _ M).
  - intros k Hk. rewrite (md_state _ _ _ _ _ _ M). by rewrite lookup_insert_ne.
  - exists s'. split; [done|]. split; [exact (md_scalars _ _ _ _ _ _ M)|]. rewrite Hnew. split; [by intros x [= <-]|]. split; [intros _; by eexists|by left].
  - intros k i. destruct (decide (k = h)) as [->|Hk].
    + rewrite (tracked_in w). unfold tracked. rewrite Es'. split.
      * intros (s0 & [= <-] & [[x Hx]|[x Hx]]).
        -- apply (md_sent _ _ _ _ _ _ M) in Hx as [[[-> _]|[_ Hx]] _]; [by right|left; left; by exists x].
        -- apply (md_postponed _ _ _ _ _ _ M) in Hx as [Hx|(_ & y & Hx & _)]; left; [right; by exists x|left; by exists y].
      * intros [Hi|[_ ->]]; (exists s'; split; [done|]); [|left; by rewrite Hnew]. destruct Hi as [[x Hx]|[x Hx]].
        -- destruct (deleting_dec h t w) as [Hd|Hd]; [destruct (decide (type x = HistoryRequest)) as [Hx'|Hx']|].
           ++ right. exists (generator x). apply (md_postponed _ _ _ _ _ _ M). right. split; [done|]. by exists x.
           ++ left. exists x. apply (md_sent _ _ _ _ _ _ M). split; [|tauto]. right. split; [intros ->; congruence|done].
           ++ left. exists x. apply (md_sent _ _ _ _ _ _ M). split; [|tauto]. right. split; [intros ->; congruence|done].
        -- right. exists x. apply (md_postponed _ _ _ _ _ _ M). by left.
    + unfold tracked. rewrite (md_state _ _ _ _ _ _ M), lookup_insert_ne by done. split; [by left|]. by intros [?|[? _]].
  - rewrite (md_by _ _ _ _ _ _ M). by apply emplace_fresh.
  - exact (md_count _ _ _ _ _ _ M).
  - intros k i s0 x Hk Hx. destruct (decide (k = h)) as [->|Hne].
    + rewrite Es' in Hk. injection Hk as <-. apply (md_sent _ _ _ _ _ _ M) in Hx as [[[-> _]|[_ Hx]] _]; [by left|right]. unfold state_in in Hx.
      destruct (states w !! h) as [s1|] eqn:E; [by exists s1|done].
    + right. rewrite (md_state _ _ _ _ _ _ M), lookup_insert_ne in Hk by done. by exists s0.
  - intros r l. rewrite (md_api _ _ _ _ _ _ M). split.
    + by intros [[[_ [=]]|[_ ?]] _].
    + intros Ha. split; [right; split; [|done]|].
      * intros ->. destruct (iv_api _ _ Hw _ _ Ha) as [? _]. unfold next_request in *. lia.
      * intros (_ & i & x & Hx & _ & <-). by destruct (gd_own _ _ _ _ Hs i x _ Hx Ha) as [m ?].
  - intros k (s0 & Hk & Hf). destruct (decide (k = h)) as [->|Hne].
    + exists s'. split; [done|]. apply (md_flag_kept _ _ _ _ _ _ M). unfold state_in. by rewrite Hk.
    + exists s0. split; [|done]. by rewrite (md_state _ _ _ _ _ _ M), lookup_insert_ne.
Qed.

(** The fields that are read are those of before. *)
Lemma rest_fields (w1 w2 : Histories) : rest w2 = rest w1 -> chats w2 = chats w1 /\ readRequestsTimer w2 = readRequestsTimer w1 /\ dialogRequests w2 = dialogRequests w1
  /\ dialogRequestsPending w2 = dialogRequestsPending w1 /\ chatListGroupRequests w2 = chatListGroupRequests w1 /\ now w2 = now w1 /\ postedCalls w2 = postedCalls w1.
Proof. unfold rest. intros [=]. by split_and!. Qed.
Lemma scalar_fields (s1 s2 : State) : scalars s2 = scalars s1 -> willReadTill s2 = willReadTill s1 /\ sentReadTill s2 = sentReadTill s1
  /\ willReadWhen s2 = willReadWhen s1 /\ sentReadDone s2 = sentReadDone s1.
Proof. unfold scalars. intros [=]. by split_and!. Qed.

Lemma for_messages (x : SentRequest) : type_ok x -> type x = HistoryRequest -> for_history (generator x).
Proof. unfold type_ok. destruct (generator x); simpl; try done; congruence. Qed.

Lemma made_stays (s' : State) (w' : Histories) (i : Z) (x : SentRequest) : made h t g w s' w' -> sent s !! i = Some x -> type x <> HistoryRequest -> sent s' !! i = Some x.
Proof.
  intros M Hx Hn. destruct (next_fresh o w h Hw) as (F1 & _). apply (md_sent _ _ _ _ _ _ M). split; [right; split; [intros ->; congruence|done]|tauto].
Qed.

Lemma made_requests (s' : State) (w' : Histories) : (t = HistoryRequest -> ~ has_delete s) -> made h t g w s' w' ->
  (forall i, is_Some (sent s' !! i) -> postponed s' !! i = None) /\ (forall i x, sent s' !! i = Some x -> type_ok x) /\ (forall i x, sent s' !! i = Some x -> sentId x <= lastRequest w')
  /\ (forall i x a, sent s' !! i = Some x -> api w' !! sentId x = Some a -> exists m, a = Generated h i (generator x) m)
  /\ (forall i x, sent s' !! i = Some x -> o_finish o = Some (h, i) \/ (sentId x ∈ o_dropped o /\ revokes_all (generator x) = true) \/ is_Some (api w' !! sentId x)).
Proof.
  intros Hp M. destruct (next_fresh o w h Hw) as (F1 & F2 & F3). pose proof (fun i x => made_sent s' w' i x M) as Hsent.
  assert (forall i x, sent s !! i = Some x -> sentId x < next_request w) as Hlt.
  { intros i x Hx. pose proof (gd_old _ _ _ _ Hs i x Hx). unfold next_request. lia. }
  split; [|split; [|split; [|split]]].
  - intros i [x Hx]. apply eq_None_not_Some. intros [k Hk]. apply Hsent in Hx as [[[-> ->]|[Hne Hx]] Hd]; apply (md_postponed _ _ _ _ _ _ M) in Hk as [Hk|(Hd' & y & Hy & Hty & _)]; try congruence.
    + by rewrite (gd_apart _ _ _ _ Hs i) in Hk by (by exists x).
    + rewrite Hx in Hy. injection Hy as <-. tauto.
  - intros i x [[[-> ->]|[_ Hx]] _]%Hsent; [done|by eapply gd_type].
  - rewrite (md_last _ _ _ _ _ _ M). intros i x [[[-> ->]|[_ Hx]] _]%Hsent; [done|]. apply Hlt in Hx. lia.
  - intros i x a [[[-> ->]|[_ Hx]] _]%Hsent Ha; apply (md_api _ _ _ _ _ _ M) in Ha as [[[Hr ->]|[Hr Ha]] _].
    + by eexists.
    + done.
    + apply Hlt in Hx. lia.
    + by eapply gd_own.
  - intros i x Hx. apply Hsent in Hx as [[[-> ->]|[_ Hx]] Hd].
    + right. right. exists (new_asked h g w). apply (md_api _ _ _ _ _ _ M). split; [by left|]. intros (_ & j & y & Hy & _ & Hr). apply Hlt in Hy. simpl in Hr. lia.
    + destruct (gd_asked _ _ _ _ Hs i x Hx) as [?|[?|[a Ha]]]; [by left|right; by left|right; right]. exists a. apply (md_api _ _ _ _ _ _ M). split.
      * right. split; [|done]. apply Hlt in Hx. lia.
      * intros (Hd' & j & y & Hy & Hty & Hr). destruct (gd_own _ _ _ _ Hs i x a Hx Ha) as [m Em]. rewrite <- Hr in Ha. destruct (gd_own _ _ _ _ Hs j y a Hy Ha) as [m' Em'].
        assert (i = j) as -> by congruence. assert (x = y) as -> by congruence. tauto.
Qed.

Lemma made_good (s' : State) (w' : Histories) : (t = HistoryRequest -> ~ has_delete s) -> made h t g w s' w' -> good o w' h s'.
Proof.
  intros Hp M. destruct (rest_fields _ _ (md_rest _ _ _ _ _ _ M)) as (E1 & E2 & E3 & E4 & E5 & E6 & E7). destruct (scalar_fields _ _ (md_scalars _ _ _ _ _ _ M)) as (C1 & C2 & C3 & C4).
  pose proof (fun i x => made_sent s' w' i x M) as Hsent. pose proof (made_new s' w' Hp M) as Hnew. pose proof (fun i x => made_stays s' w' i x M) as Hstay.
  assert (forall i x y, generator x = ReadTill y -> sent s !! i = Some x -> type x <> HistoryRequest) as Hrt.
  { intros i x y Hg Hx. pose proof (gd_type _ _ _ _ Hs i x Hx) as Hty. unfold type_ok in Hty. rewrite Hg in Hty. congruence. }
  destruct (made_requests s' w' Hp M) as (G1 & G2 & G3 & G4 & G5). split; [done..| | | | | | | | | | |].
  - intros i k Hk. apply (md_postponed _ _ _ _ _ _ M) in Hk as [Hk|(_ & y & Hy & Hty & ->)]; [by eapply (gd_postponed _ _ _ _ Hs)|]. apply for_messages; [by eapply (gd_type _ _ _ _ Hs)|done].
  - intros (j & y & [[[-> ->]|[_ Hy]] _]%Hsent & Hty) i x [_ Hd]%Hsent Hx; apply Hd; (split; [|done]); [right; exact Hty|left]. by exists j, y.
  - intros Hfin (i & k & Hk)%map_choose. assert (has_delete s -> has_delete s') as Hdd by (intros (j & y & Hy & Hty); exists j, y; split; [apply Hstay; [done|congruence]|done]).
    apply (md_postponed _ _ _ _ _ _ M) in Hk as [Hk|([Hd|Hd] & _)]; [|by apply Hdd|by exists (next_id w), (new_sent t g w)].
    apply Hdd, (gd_deleting _ _ _ _ Hs Hfin). intros E. by rewrite E, lookup_empty in Hk.
  - intros id Hf. apply eq_None_not_Some. intros [k Hk]. apply (md_postponed _ _ _ _ _ _ M) in Hk as [Hk|([Hd|Hd] & y & Hy & Hty & _)].
    + by rewrite (gd_closing _ _ _ _ Hs id Hf) in Hk.
    + by apply (gd_waiting _ _ _ _ Hs Hd id y Hy).
    + by apply (Hclosing id y).
  - rewrite C1, C2, E1. intros i x till [[[-> ->]|[_ Hx]] _]%Hsent Hg; [|by eapply (gd_reads _ _ _ _ Hs)]. simpl in Hg. destruct (Hread till Hg) as (H1 & H2 & H3).
    rewrite H2, H3. split; [done|]. split; [lia|]. split; lia.
  - rewrite C1, C2. apply (gd_will _ _ _ _ Hs).
  - rewrite C1, C3, E6. apply (gd_when _ _ _ _ Hs).
  - intros Hr. rewrite C2, C4. intros Hn. destruct (gd_reading _ _ _ _ Hs Hr Hn) as [[Hd (i & x & Hx & Hg)]|[Hd Hrq]].
    + left. split; [done|]. exists i, x. split; [apply Hstay; [done|by eapply Hrt]|done].
    + right. split; [done|]. unfold requested in *. by rewrite E3, E4.
  - intros i x Hr Hf. rewrite C2, C4. intros [[[-> ->]|[_ Hx]] _]%Hsent Hg.
    + destruct (iv_finish _ _ Hw _ _ Hf). unfold next_id in *. lia.
    + by eapply (gd_finish _ _ _ _ Hs).
  - intros Hf. rewrite E3. destruct (md_flag _ _ _ _ _ _ M Hf) as [Hf'|[_ Hd]]; [by apply (gd_flag _ _ _ _ Hs)|done].
  - intros Hfin Hf. assert (postponeEntryRequest s = true -> postponeEntryRequest s' = true) as Hpe.
    { rewrite !postpone_entry. intros (i & x & Hx & Hty). exists i, x. split; [by apply Hstay|done]. }
    destruct (md_flag _ _ _ _ _ _ M Hf) as [Hf'|[[Hor|Hor] Hd]]; [by apply Hpe, (gd_held _ _ _ _ Hs)| |by apply Hpe]. apply postpone_entry. by exists (next_id w), (new_sent t g w).
Qed.

Lemma made_kept (s' : State) (w' : Histories) (k : Z) : k <> h -> made h t g w s' w' -> kept k w w'.
Proof.
  intros Hk M. destruct (rest_fields _ _ (md_rest _ _ _ _ _ _ M)) as (E1 & E2 & E3 & E4 & E5 & E6 & E7). split.
  - rewrite E1. intros b Hb. by exists b.
  - intros r i k' m Ha. apply (md_api _ _ _ _ _ _ M). split.
    + right. split; [|done]. destruct (iv_api _ _ Hw _ _ Ha) as [? _]. unfold next_request. lia.
    + intros (_ & j & x & Hx & _ & <-). destruct (gd_own _ _ _ _ Hs j x _ Hx Ha) as [m' [=]]. done.
  - intros r a Hr [[[-> _]|[_ Ha]] _]%(md_api _ _ _ _ _ _ M); [unfold next_request in *; lia|done].
  - rewrite (md_last _ _ _ _ _ _ M). unfold next_request. lia.
  - by rewrite E6.
  - unfold requested. by rewrite E3, E4.
  - by rewrite E3.
Qed.

(** What holds besides the state of the chat follows from the effect. *)
Lemma effect_inv (w' : Histories) : effect h t g w w' -> (forall s', states w' !! h = Some s' -> good o w' h s' /\ empty_state s' = false) -> (forall k, k <> h -> kept k w w') ->
  (forall r a, api w' !! r = Some a -> r <= lastRequest w'
     /\ forall k id g m, a = Generated k id g m -> exists s x, states w' !! k = Some s /\ sent s !! id = Some x /\ generator x = g /\ sentId x = r) -> inv o w'.
Proof.
  intros F Hgood Hkept Hapi. destruct (rest_fields _ _ (ef_rest _ _ _ _ _ F)) as (E1 & E2 & E3 & E4 & E5 & E6 & E7). destruct (next_fresh o w h Hw) as (F1 & F2 & F3).
  pose proof (ef_count _ _ _ _ _ F) as Ec. split.
  - rewrite E1. apply (iv_chats _ _ Hw).
  - intros id k Ho. rewrite (ef_by _ _ _ _ _ F), insert_iff, (ef_tracked _ _ _ _ _ F), <- (iv_by _ _ Hw id k Ho). split.
    + intros [[-> ->]|[? ?]]; [by right|by left].
    + intros [Hb|[-> ->]]; [right|by left]. split; [|done]. intros ->. congruence.
  - intros id k. rewrite Ec, (ef_tracked _ _ _ _ _ F), (ef_by _ _ _ _ _ F), insert_iff. unfold next_id. intros [[[-> _]|[_ Hb]]|[Hk|[_ ->]]].
    + pose proof (iv_count _ _ Hw). lia.
    + destruct (iv_ids _ _ Hw id k); [by left|lia].
    + destruct (iv_ids _ _ Hw id k); [by right|lia].
    + pose proof (iv_count _ _ Hw). lia.
  - assert (forall k, ~ tracked w k (next_id w)) as Hnew by (intros k Hk; destruct (iv_ids _ _ Hw (next_id w) k); [by right|unfold next_id in *; lia]).
    intros id k k'. rewrite !(ef_tracked _ _ _ _ _ F). intros [Hk|[-> ->]] [Hk'|[-> E]]; try done; [by eapply (iv_one _ _ Hw)|subst id; by apply Hnew in Hk|by apply Hnew in Hk'].
  - rewrite Ec. unfold next_id. pose proof (iv_count _ _ Hw). lia.
  - exact Hapi.
  - rewrite E5, Ec. intros k i id Hg. destruct (iv_groups _ _ Hw k i id Hg) as [Hle Hty]. split; [unfold next_id; lia|].
    intros k' s' x Hk' Hx. destruct (ef_types _ _ _ _ _ F _ _ _ _ Hk' Hx) as [[_ ->]|(s0 & H0 & Hy)]; [unfold next_id in *; lia|by eapply Hty].
  - intros k s' Hk. destruct (decide (k = h)) as [->|Hne]; [by apply Hgood|]. apply (good_kept o w w' k s' (Hkept k Hne)), (iv_states _ _ Hw). by rewrite <- (ef_states _ _ _ _ _ F).
  - intros k s' Hk Ho Hr. destruct (decide (k = h)) as [->|Hne]; [by apply Hgood|]. apply (iv_filled _ _ Hw k s'); [|done..]. by rewrite <- (ef_states _ _ _ _ _ F).
  - intros k id Ho. rewrite Ec. destruct (iv_finish _ _ Hw k id Ho) as (Hle & Hone & Hsome). split; [unfold next_id; lia|]. split.
    + intros k'. rewrite (ef_tracked _ _ _ _ _ F). intros [?|[_ ->]]; [by apply Hone|unfold next_id in *; lia].
    + rewrite (ef_by _ _ _ _ _ F), lookup_insert_ne by (unfold next_id; lia). intros Hb. destruct (decide (k = h)) as [->|Hne].
      * destruct (ef_state _ _ _ _ _ F) as (s1 & -> & _). by eexists.
      * rewrite (ef_states _ _ _ _ _ F k Hne). by apply Hsome.
  - rewrite E3, E4. apply (iv_apart _ _ Hw).
  - rewrite E4, E7. apply (iv_posted _ _ Hw).
  - rewrite E3. intros k Hd. destruct (iv_asked _ _ Hw k Hd) as [Hf|[?|(r & l & Ha & Hin)]]; [left; by apply (ef_flag _ _ _ _ _ F)|right; by left|right; right].
    exists r, l. split; [by apply (ef_asked _ _ _ _ _ F)|done].
  - rewrite E6. apply (iv_now _ _ Hw).
  - rewrite E2, E6. apply (iv_timer _ _ Hw).
  - rewrite E2. intros Hdue k s' Hk Hn. destruct (decide (k = h)) as [->|Hne].
    + destruct (ef_state _ _ _ _ _ F) as (s1 & Hs1 & Hc & _). rewrite Hs1 in Hk. injection Hk as ->. destruct (scalar_fields _ _ Hc) as (C1 & C2 & C3 & C4). rewrite C1 in Hn. rewrite C3.
      destruct (state_in_cases w h) as [(s0 & Hs0 & E0)|[_ E0]]; rewrite E0 in Hn |- *; [by apply (iv_due _ _ Hw Hdue h s0)|done].
    + rewrite (ef_states _ _ _ _ _ F k Hne) in Hk. by apply (iv_due _ _ Hw Hdue k s').
Qed.

Lemma made_inv (s' : State) (w' : Histories) : (t = HistoryRequest -> ~ has_delete s) -> made h t g w s' w' -> inv o w'.
Proof.
  intros Hp M. pose proof (made_effect s' w' Hp M) as F. assert (states w' !! h = Some s') as Es' by (rewrite (md_state _ _ _ _ _ _ M); by rewrite lookup_insert_eq).
  apply (effect_inv w' F).
  - intros s0 Hs0. rewrite Es' in Hs0. injection Hs0 as <-. split; [by apply made_good|]. apply not_empty.
    destruct (ef_state _ _ _ _ _ F) as (s1 & Hs1 & _ & _ & _ & Hin). rewrite Es' in Hs1. injection Hs1 as <-.
    destruct Hin as [[x Hx]|[x Hx]]; [left|right; left]; intros E; by rewrite E, lookup_empty in Hx.
  - intros k Hk. by apply (made_kept s').
  - intros r a Ha. split.
    + apply (md_api _ _ _ _ _ _ M) in Ha as [[[-> _]|[_ Ha]] _]; rewrite (md_last _ _ _ _ _ _ M); [done|]. destruct (iv_api _ _ Hw r a Ha). unfold next_request. lia.
    + intros k id g0 m ->. apply (md_api _ _ _ _ _ _ M) in Ha as [[[-> Ha]|[Hr Ha]] Hn].
      * injection Ha as -> -> -> ->. destruct (ef_state _ _ _ _ _ F) as (s1 & Hs1 & _). exists s', (new_sent t g w). split; [done|].
        split; [|done]. apply (md_sent _ _ _ _ _ _ M). split; [by left|]. intros [[Hd|Hd] Hx]; simpl in Hx; [by apply (Hp Hx)|congruence].
      * destruct (iv_api _ _ Hw r _ Ha) as [_ Hg]. destruct (Hg k id g0 m eq_refl) as (s0 & x & Hk & Hx & Hgx & Hrx). destruct (decide (k = h)) as [->|Hne].
        -- exists s', x. split; [done|]. split; [|done]. pose proof (state_in_is w h s0 Hk) as E0. apply (md_sent _ _ _ _ _ _ M). rewrite E0. rewrite E0 in Hn. split.
           ++ right. split; [|done]. intros ->. destruct (next_fresh o w h Hw) as (Hf & _). rewrite E0 in Hf. congruence.
           ++ intros [Hd Hty]. apply Hn. split; [done|]. exists id, x. by split_and!.
        -- exists s0, x. split; [|done]. by rewrite (md_state _ _ _ _ _ _ M), lookup_insert_ne.
Qed.

(** A request for messages that waits. *)
Lemma waiting_is : t = HistoryRequest -> has_delete s -> exists w', sendRequest h t g w = Some (next_id w, w')
  /\ states w' = <[h := set_postponed (<[next_id w := g]> (postponed s)) s]> (states w) /\ rest w' = rest w
  /\ books w' = (<[next_id w := h]> (historyByRequest w), next_id w) /\ api w' = api w /\ lastRequest w' = lastRequest w.
Proof.
  intros Et Hd. destruct (next_fresh o w h Hw) as (F1 & F2 & F3). unfold sendRequest, expect. rewrite bool_decide_eq_false_2 by done. simpl negb.
  unfold bind at 1, ret at 1. unfold bind at 1, StateMonad.gets at 1, Datatypes.id. unfold bind at 1, modify at 1. fold (next_id w).
  change (from_option (fun x : State => x) State_new (states w !! h)) with (state_in w h). rewrite bool_decide_eq_true_2 by done. rewrite (proj2 (postpone_history _) Hd). cbn [andb]. cbv iota beta. unfold bind at 1. cbv beta. set (w1 := set_byRequest _ _).
  assert (states w1 !! h = Some s) as Hs1 by (simpl; by rewrite lookup_insert_eq). rewrite (on_state_is h _ s w1 Hs1). eexists. split; [done|]. simpl.
  rewrite insert_insert_eq. unfold books. simpl. by rewrite !emplace_fresh.
Qed.

Lemma waiting_good (w' : Histories) : t = HistoryRequest -> has_delete s -> rest w' = rest w -> api w' = api w -> lastRequest w' = lastRequest w ->
  good o w' h (set_postponed (<[next_id w := g]> (postponed s)) s).
Proof.
  intros Et Hd Hr Ha Hl. destruct (next_fresh o w h Hw) as (F1 & F2 & F3). destruct (rest_fields _ _ Hr) as (E1 & E2 & E3 & E4 & E5 & E6 & E7).
  assert (good o w' h s) as G.
  { apply (good_kept o w); [|done]. split; rewrite ?E1, ?Ha, ?Hl, ?E6, ?E3; try done; [intros b Hb; by exists b|]. unfold requested. by rewrite E3, E4. }
  destruct G as [G1 G2 G3 G4 G5 G6 G7 G8 G9 G10 G11 G12 G13 G14 G15 G16]. split; simpl; try done.
  - intros i Hi. rewrite lookup_insert_ne; [by apply G1|]. intros <-. rewrite F1 in Hi. by destruct Hi.
  - intros i k [[<- <-]|[_ Hk]]%lookup_insert_Some; [|by eapply G6]. apply (for_messages (new_sent t g w)); done.
  - intros id Hf. rewrite lookup_insert_ne; [by apply G9|]. intros <-. destruct (iv_finish _ _ Hw _ _ Hf). unfold next_id in *. lia.
Qed.

Lemma sendRequest_ok : exists w', sendRequest h t g w = Some (next_id w, w') /\ inv o w' /\ effect h t g w w'.
Proof.
  destruct (next_fresh o w h Hw) as (F1 & F2 & F3). assert (t = HistoryRequest /\ has_delete s \/ (t = HistoryRequest -> ~ has_delete s)) as [[Et Hd]|Hp].
  { destruct (decide (t = HistoryRequest)) as [Et|Et]; [|by right]. destruct (postponeHistoryRequest s) eqn:E; [left; split; [done|by apply postpone_history]|].
    right. intros _ Hd. apply postpone_history in Hd. congruence. }
  - destruct (waiting_is Et Hd) as (w' & E & Es & Er & Eb & Ea & El). exists w'. split; [done|]. set (s' := set_postponed _ _) in Es. unfold books in Eb. injection Eb as Eb1 Eb2.
    assert (exists s0, states w !! h = Some s0 /\ s = s0) as (s0 & Hs0 & E0).
    { destruct (state_in_cases w h) as [?|[_ E0]]; [done|]. rewrite E0 in Hd. by apply no_delete_new in Hd. }
    assert (effect h t g w w') as F.
    { split; try done.
      - intros k Hk. by rewrite Es, lookup_insert_ne.
      - exists s'. rewrite Es, lookup_insert_eq. split; [done|]. split; [done|]. simpl. split; [intros x Hx; congruence|]. split; [done|]. right. by rewrite lookup_insert_eq.
      - intros k i. destruct (decide (k = h)) as [->|Hk].
        + rewrite (tracked_in w), (tracked_in w'), (state_in_is w' h s') by (by rewrite Es, lookup_insert_eq). simpl. destruct (decide (i = next_id w)) as [->|Hi].
          * rewrite lookup_insert_eq. split; [by right|]. intros _. right. by eexists.
          * rewrite lookup_insert_ne by done. tauto.
        + unfold tracked. rewrite Es, lookup_insert_ne by done. tauto.
      - intros k i s1 x Hk Hx. right. destruct (decide (k = h)) as [->|Hne].
        + rewrite Es, lookup_insert_eq in Hk. injection Hk as <-. exists s0. rewrite <- E0. split; [by rewrite E0|done].
        + rewrite Es, lookup_insert_ne in Hk by done. by exists s1.
      - intros r l. by rewrite Ea.
      - intros k (s1 & Hk & Hf). destruct (decide (k = h)) as [->|Hne].
        + exists s'. rewrite Es, lookup_insert_eq. split; [done|]. simpl. rewrite E0. congruence.
        + exists s1. by rewrite Es, lookup_insert_ne. }
    split; [|done]. apply (effect_inv w' F).
    + intros s1. rewrite Es, lookup_insert_eq. intros [= <-]. split; [by apply waiting_good|]. apply not_empty. right. left. simpl. apply insert_non_empty.
    + intros k Hk. destruct (rest_fields _ _ Er) as (E1 & E2 & E3 & E4 & E5 & E6 & E7). split; rewrite ?E1, ?Ea, ?El, ?E6, ?E3; try done; [intros b Hb; by exists b|]. unfold requested. by rewrite E3, E4.
    + rewrite Ea, El. intros r a Hra. destruct (iv_api _ _ Hw r a Hra) as [Hle Hg]. split; [done|]. intros k id g0 m Hm. destruct (Hg k id g0 m Hm) as (s1 & x & Hk & Hx & ?).
      destruct (decide (k = h)) as [->|Hne]; [|exists s1, x; by rewrite Es, lookup_insert_ne].
      exists s', x. rewrite Es, lookup_insert_eq. split; [done|]. simpl. rewrite (state_in_is w h s1 Hk). done.
  - destruct (sendRequest_is h t g w Ht Hp F1 F2) as (s' & w' & E & M).
    + apply (gd_apart _ _ _ _ Hs).
    + exists w'. split; [done|]. split; [by apply (made_inv s')|by apply (made_effect s')].
Qed.
End Keeps.
