(* ===== verification/HistoriesFinish.v ===== *)
(** * Chats: requests that end

    A request that ends, or is cancelled, is forgotten; when the last deletion
    ends, what waits is sent, and an entry that waited is asked for again. *)

From S2P Require Import Prelude Ids StateMonad ChatReading ChatFacts Histories HistoriesFacts HistoriesSend.

(** ** What waits is sent *)

Record postponed_sent (h : Z) (l : list (Z * Generator)) (s : State) (w : Histories) (s' : State) (w' : Histories) : Prop := {
  ps_state : states w' = <[h := s']> (states w);
  ps_rest : rest w' = rest w /\ historyByRequest w' = historyByRequest w /\ requestAutoincrement w' = requestAutoincrement w;
  ps_last : lastRequest w <= lastRequest w';
  ps_scalars : scalars s' = scalars s /\ postponedRequestEntry s' = postponedRequestEntry s /\ postponed s' = postponed s;
  ps_stay : forall i x, sent s !! i = Some x -> sent s' !! i = Some x;
  ps_all : forall i g, (i, g) ∈ l -> is_Some (sent s' !! i);
  ps_sent : forall i x, sent s' !! i = Some x -> sent s !! i = Some x \/ (i, generator x) ∈ l /\ type x = HistoryRequest
    /\ lastRequest w < sentId x <= lastRequest w' /\ exists m, api w' !! sentId x = Some (Generated h i (generator x) m);
  ps_old : forall r, r <= lastRequest w -> api w' !! r = api w !! r;
  ps_new : forall r a, lastRequest w < r -> api w' !! r = Some a -> r <= lastRequest w'
    /\ exists i x m, sent s' !! i = Some x /\ (i, generator x) ∈ l /\ sentId x = r /\ a = Generated h i (generator x) m }.

Lemma sendPostponed_is (h : Z) (l : list (Z * Generator)) (s : State) (w : Histories) : states w !! h = Some s -> NoDup l.*1 ->
  (forall i, i ∈ l.*1 -> sent s !! i = None) -> (forall r, is_Some (api w !! r) -> r <= lastRequest w) ->
  exists s' w', sendPostponed h l w = Some (tt, w') /\ postponed_sent h l s w s' w'.
Proof.
  revert s w. induction l as [|[i g] l IH]; intros s w Hs Hd Hl Ha.
  { exists s, w. split; [done|]. split; try done.
    - by rewrite insert_id.
    - by intros i g ?%not_elem_of_nil.
    - by left.
    - intros r a Hr Hra. assert (is_Some (api w !! r)) as H%Ha by by eexists. lia. }
  cbn [fmap list_fmap fst] in Hd, Hl. apply NoDup_cons in Hd as [Hi Hd]. cbn [sendPostponed].
  unfold bind at 1, generate, bind at 1, chat_of, StateMonad.gets at 1, send, bind at 1, StateMonad.gets at 1, bind at 1, modify at 1, ret at 1. cbv beta.
  change (lastRequest (id w) + 1) with (lastRequest w + 1). set (rid := lastRequest w + 1). set (a0 := Generated h i g _). set (w1 := set_lastRequest rid _).
  unfold bind at 1. rewrite (on_state_is h _ s w1 Hs). set (x0 := mk_sent g rid HistoryRequest). set (s1 := set_sent _ s). set (w2 := set_state h s1 w1).
  assert (sent s !! i = None) as Hsi by (apply Hl; left). assert (sent s1 = <[i := x0]> (sent s)) as Es1 by (simpl; by apply emplace_fresh).
  assert (states w2 !! h = Some s1) as Hs2 by (simpl; by rewrite lookup_insert_eq).
  destruct (IH s1 w2 Hs2 Hd) as (s' & w' & E & [P1 (P2 & P2' & P2'') P3 (P4 & P4' & P4'') P5 P6 P7 P8 P9]).
  { intros j Hj. rewrite Es1, lookup_insert_ne; [apply Hl; by right|]. intros <-. done. }
  { intros r. simpl. intros [a [[<- _]|[_ Hr]]%lookup_insert_Some]; [lia|]. assert (is_Some (api w !! r)) as H%Ha by by eexists. unfold rid. lia. }
  exists s', w'. split; [exact E|]. simpl in P3. assert (api w' !! rid = Some a0) as Hrid by (rewrite P8 by done; simpl; by rewrite lookup_insert_eq).
  assert (sent s' !! i = Some x0) as Hx0 by (apply P5; rewrite Es1; by rewrite lookup_insert_eq).
  split; try done.
  - rewrite P1. simpl. by rewrite insert_insert_eq.
  - unfold rid in P3. lia.
  - intros j x Hx. apply P5. rewrite Es1, lookup_insert_ne; [done|]. intros <-. congruence.
  - intros j k [[= -> ->]|Hin]%elem_of_cons; [by eexists|by eapply P6].
  - intros j x Hx. destruct (P7 j x Hx) as [Hj|(Hj & Hty & Hlt & Hm)].
    + rewrite Es1 in Hj. apply lookup_insert_Some in Hj as [[<- <-]|[_ Hj]]; [right|by left]. split; [left|]. split; [done|]. simpl. split; [unfold rid in *; lia|]. by eexists.
    + right. split; [by right|]. split; [done|]. simpl in Hlt. split; [unfold rid in *; lia|done].
  - intros r Hr. rewrite P8 by (simpl; unfold rid; lia). simpl. rewrite lookup_insert_ne; [done|]. unfold rid. lia.
  - intros r a Hr Hra. destruct (decide (r = rid)) as [->|Hne].
    + rewrite Hrid in Hra. injection Hra as <-. split; [done|]. exists i, x0. eexists. split; [done|]. split; [left|]. by split.
    + destruct (P9 r a) as (Hle & j & x & m & Hx & Hin & ? & ?); [simpl; unfold rid in *; lia|done|]. split; [done|]. exists j, x, m. split; [done|]. split; [by right|done].
Qed.

(** ** One that ends *)

Definition settled (o : Open) : Open := mk_open None (o_reading o) (o_applied o) (o_due o) (o_dropped o).

Section Finish.
Context (o : Open) (h id : Z).
Hypothesis Ho : o_finish o = Some (h, id).

Lemma closing_fst (k : Z) : fst <$> o_finish o <> Some k <-> k <> h.
Proof. rewrite Ho. simpl. split; congruence. Qed.

(** The request is out of the tables. *)
Record out_ (w w' : Histories) (s' : State) : Prop := {
  ou_inv : inv o w';
  ou_state : states w' !! h = Some s';
  ou_sent : sent s' !! id = None;
  ou_by : historyByRequest w' !! id <> Some h }.

(** A chat with less sent. *)
Lemma less_good (w w' : Histories) (s : State) : good o w h s -> chats w' = chats w -> lastRequest w' = lastRequest w -> now w' = now w -> dialogRequests w' = dialogRequests w ->
  dialogRequestsPending w' = dialogRequestsPending w -> (forall i x a, i <> id -> sent s !! i = Some x -> api w !! sentId x = Some a -> api w' !! sentId x = Some a) ->
  (forall r a, api w' !! r = Some a -> api w !! r = Some a) -> good o w' h (set_sent (delete id (sent s)) s).
Proof.
  intros G E1 E2 E3 E4 E5 Ha1 Ha2. assert (forall i x, delete id (sent s) !! i = Some x -> i <> id /\ sent s !! i = Some x) as Hsub by (intros i x Hx; by apply delete_iff).
  split; simpl; rewrite ?E1, ?E2, ?E3, ?E4.
  - intros i [x [_ Hx]%Hsub]. apply (gd_apart _ _ _ _ G). by eexists.
  - intros i x [_ Hx]%Hsub. by eapply gd_type.
  - intros i x [_ Hx]%Hsub. by eapply gd_old.
  - intros i x a [_ Hx]%Hsub Ha. eapply gd_own; [done..|]. by apply Ha2.
  - intros i x [Hi Hx]%Hsub. destruct (gd_asked _ _ _ _ G i x Hx) as [?|[?|[a Ha]]]; [by left|right; by left|right; right]. exists a. by eapply Ha1.
  - apply (gd_postponed _ _ _ _ G).
  - intros (j & y & [_ Hy]%Hsub & Hty) i x [_ Hx]%Hsub. eapply (gd_waiting _ _ _ _ G); [|done]. by exists j, y.
  - by intros Hc%closing_fst.
  - apply (gd_closing _ _ _ _ G).
  - intros i x t [_ Hx]%Hsub. by eapply gd_reads.
  - apply (gd_will _ _ _ _ G).
  - apply (gd_when _ _ _ _ G).
  - intros Hr Hn. destruct (gd_reading _ _ _ _ G Hr Hn) as [[Hd (i & x & Hx & Hg)]|[Hd Hq]]; [left|right; split; [done|unfold requested in *; by rewrite E4, E5]].
    split; [done|]. exists i, x. split; [|done]. apply delete_iff. split; [|done]. intros ->. pose proof (gd_finish _ _ _ _ G id x Hr Ho Hx Hg). congruence.
  - intros i x Hr Hf [_ Hx]%Hsub. by eapply gd_finish.
  - apply (gd_flag _ _ _ _ G).
  - by intros Hc%closing_fst.
Qed.

(** Others do not see what is dropped of the chat. *)
Lemma drop_kept (w w' : Histories) (k : Z) (drop : option Z) : chats w' = chats w -> lastRequest w' = lastRequest w -> now w' = now w -> dialogRequests w' = dialogRequests w ->
  dialogRequestsPending w' = dialogRequestsPending w -> api w' = match drop with Some r => delete r (api w) | None => api w end ->
  (forall r a, drop = Some r -> api w !! r = Some a -> exists i g m, a = Generated h i g m) -> k <> h -> kept k w w'.
Proof.
  intros E1 E2 E3 E4 E5 Ea Hd Hk. split; rewrite ?E1, ?E2, ?E3, ?E4, ?Ea; try done.
  - intros b Hb. by exists b.
  - intros r i g m Hr. destruct drop as [r0|]; [|done]. rewrite lookup_delete_ne; [done|]. intros <-. destruct (Hd r0 _ eq_refl Hr) as (? & ? & ? & [=]). done.
  - intros r a _. destruct drop as [r0|]; [|done]. by intros [_ ?]%lookup_delete_Some.
  - unfold requested. by rewrite E4, E5.
Qed.

Definition sent_id (s : State) : option Z := sentId <$> sent s !! id.

Lemma take_out_is (w : Histories) (s : State) : states w !! h = Some s -> exists w', (modify (fun w => set_byRequest (delete id (historyByRequest w)) w) ;;;
    s <- bind (lookup_state h) lift ;;
    match sent s !! id with
    | Some x => cancel (sentId x) ;;; on_state h (fun s => set_sent (delete id (sent s)) s)
    | None => ret tt
    end) w = Some (tt, w') /\ states w' = <[h := set_sent (delete id (sent s)) s]> (states w) /\ rest w' = rest w /\ lastRequest w' = lastRequest w
  /\ historyByRequest w' = delete id (historyByRequest w) /\ requestAutoincrement w' = requestAutoincrement w
  /\ api w' = match sent_id s with Some r => delete r (api w) | None => api w end.
Proof.
  intros Hs. unfold bind at 1, modify at 1. set (w1 := set_byRequest _ w). unfold bind at 1, lookup_state, bind at 1, StateMonad.gets at 1, lift at 1.
  change (states w1 !! h) with (states w !! h). rewrite Hs. unfold sent_id. destruct (sent s !! id) as [x|] eqn:Ex; simpl.
  - unfold bind at 1, cancel, modify at 1. set (w2 := set_api _ w1). rewrite (on_state_is h _ s w2 Hs). eexists. by split_and!.
  - eexists. split; [done|]. rewrite delete_id by done. split; [|done]. simpl. rewrite insert_id; [done|]. rewrite Hs. by destruct s.
Qed.

Lemma chat_take_out (w : Histories) (s : State) : inv o w -> states w !! h = Some s ->
  exists w', (modify (fun w => set_byRequest (delete id (historyByRequest w)) w) ;;;
    s <- bind (lookup_state h) lift ;;
    match sent s !! id with
    | Some x => cancel (sentId x) ;;; on_state h (fun s => set_sent (delete id (sent s)) s)
    | None => ret tt
    end) w = Some (tt, w') /\ out_ w w' (set_sent (delete id (sent s)) s).
Proof.
  intros H Hs. destruct (take_out_is w s Hs) as (w' & E & Es & Er & El & Eb & Ec & Ea). exists w'. split; [exact E|]. clear E. set (s' := set_sent _ s) in *.
  destruct (rest_fields _ _ Er) as (E1 & E2 & E3 & E4 & E5 & E6 & E7). pose proof (iv_states _ _ H h s Hs) as G. destruct (iv_finish _ _ H h id Ho) as (Hle & Hone & _).
  assert (forall r a, sent_id s = Some r -> api w !! r = Some a -> exists i g m, a = Generated h i g m) as Hown.
  { unfold sent_id. intros r a (x & Hx & ->)%fmap_Some Ha. destruct (gd_own _ _ _ _ G id x a Hx Ha) as [m ->]. by eexists _, _, _. }
  assert (forall r a, api w' !! r = Some a -> api w !! r = Some a) as Hsub.
  { intros r a. rewrite Ea. destruct (sent_id s); [|done]. by intros [_ ?]%lookup_delete_Some. }
  assert (forall k i, i <> id -> tracked w' k i <-> tracked w k i) as Htr.
  { intros k i Hi. unfold tracked. rewrite Es. destruct (decide (k = h)) as [->|Hk]; [|by rewrite lookup_insert_ne]. rewrite lookup_insert_eq, Hs. split.
    - intros (s0 & [= <-] & Hx). exists s. split; [done|]. simpl in Hx. by rewrite lookup_delete_ne in Hx.
    - intros (s0 & [= <-] & Hx). exists s'. split; [done|]. simpl. by rewrite lookup_delete_ne. }
  assert (forall k, ~ tracked w' k id) as Hno.
  { intros k (s0 & Hk & Hx). rewrite Es in Hk. apply lookup_insert_Some in Hk as [[<- <-]|[Hne Hk]].
    - simpl in Hx. rewrite lookup_delete_eq, (gd_closing _ _ _ _ G id Ho) in Hx. by destruct Hx as [[? ?]|[? ?]].
    - destruct Hne. symmetry. apply Hone. by exists s0. }
  split; [|rewrite Es; by rewrite lookup_insert_eq|simpl; by rewrite lookup_delete_eq|rewrite Eb; by rewrite lookup_delete_eq].
  split.
  - rewrite E1. apply (iv_chats _ _ H).
  - intros i k Hik. rewrite Eb. destruct (decide (i = id)) as [->|Hi]; [rewrite lookup_delete_eq; split; [done|by intros ?%Hno]|].
    rewrite lookup_delete_ne, Htr by done. by apply (iv_by _ _ H).
  - intros i k. rewrite Ec, Eb. destruct (decide (i = id)) as [->|Hi]; [rewrite lookup_delete_eq; by intros [?|?%Hno]|]. rewrite lookup_delete_ne, Htr by done. apply (iv_ids _ _ H).
  - intros i k k'. destruct (decide (i = id)) as [->|Hi]; [by intros ?%Hno|]. rewrite !Htr by done. apply (iv_one _ _ H).
  - rewrite Ec. apply (iv_count _ _ H).
  - intros r a Ha. rewrite El. destruct (iv_api _ _ H r a (Hsub r a Ha)) as [Hr Hg]. split; [done|]. intros k i g m Em. destruct (Hg k i g m Em) as (s0 & x & Hk & Hx & Hgx & Hrx).
    destruct (decide (k = h)) as [->|Hne]; [|exists s0, x; by rewrite Es, lookup_insert_ne].
    assert (s0 = s) as -> by congruence. exists s', x. rewrite Es, lookup_insert_eq. split; [done|]. split; [|done]. simpl. apply delete_iff. split; [|done]. intros ->.
    rewrite Ea in Ha. unfold sent_id in Ha. rewrite Hx in Ha. simpl in Ha. rewrite Hrx, lookup_delete_eq in Ha. done.
  - rewrite E5, Ec. intros k i j Hg. destruct (iv_groups _ _ H k i j Hg) as [Hj Hty]. split; [done|]. intros k' s0 x Hk Hx. rewrite Es in Hk.
    apply lookup_insert_Some in Hk as [[<- <-]|[Hne Hk]]; [|by eapply Hty]. simpl in Hx. apply lookup_delete_Some in Hx as [_ Hx]. by eapply Hty.
  - intros k s0 Hk. rewrite Es in Hk. apply lookup_insert_Some in Hk as [[<- <-]|[Hne Hk]].
    + apply (less_good w); try done. intros i x a Hi Hx Ha. rewrite Ea. destruct (sent_id s) as [r|] eqn:Er'; [|done]. rewrite lookup_delete_ne; [done|]. intros ->.
      unfold sent_id in Er'. apply fmap_Some in Er' as (y & Hy & Ery). rewrite Ery in Ha. destruct (gd_own _ _ _ _ G id y a Hy Ha) as [m Em].
      rewrite <- Ery in Ha. destruct (gd_own _ _ _ _ G i x a Hx Ha). congruence.
    + apply (good_kept o w); [|by apply (iv_states _ _ H)]. by apply (drop_kept w w' k (sent_id s)).
  - intros k s0 Hk Hc%closing_fst Hr. rewrite Es, lookup_insert_ne in Hk by done. apply (iv_filled _ _ H k s0 Hk); [by apply closing_fst|done].
  - intros k i Hk. rewrite Ec. rewrite Ho in Hk. injection Hk as <- <-. split; [done|]. split; [by intros k ?%Hno|]. by rewrite Eb, lookup_delete_eq.
  - rewrite E3, E4. apply (iv_apart _ _ H).
  - rewrite E4, E7. apply (iv_posted _ _ H).
  - rewrite E3. intros k Hk. destruct (iv_asked _ _ H k Hk) as [(s0 & Hs0 & Hf)|[?|(r & l & Hr & Hin)]]; [left|right; by left|right; right].
    + destruct (decide (k = h)) as [->|Hne]; [exists s'; rewrite Es, lookup_insert_eq; split; [done|simpl; congruence]|]. exists s0. by rewrite Es, lookup_insert_ne.
    + exists r, l. split; [|done]. rewrite Ea. destruct (sent_id s) as [r0|] eqn:E0; [|done]. rewrite lookup_delete_ne; [done|]. intros ->. by destruct (Hown r _ eq_refl Hr) as (? & ? & ? & [=]).
  - rewrite E6. apply (iv_now _ _ H).
  - rewrite E2, E6. apply (iv_timer _ _ H).
  - rewrite E2. intros Hdue k s0 Hk. rewrite Es in Hk. apply lookup_insert_Some in Hk as [[<- <-]|[Hne Hk]]; [by apply (iv_due _ _ H Hdue h s)|by apply (iv_due _ _ H Hdue k s0)].
Qed.

(** What waits is sent when nothing is deleted any more. *)
Section Waiting.
Context (w : Histories) (s : State) (w' : Histories) (s' : State).
Hypothesis Hw : inv o w.
Hypothesis Hs : states w !! h = Some s.
Hypothesis Hid : sent s !! id = None.
Hypothesis Hno : ~ has_delete s.
Hypothesis P : postponed_sent h (entries (postponed s)) (set_postponed ∅ s) (set_state h (set_postponed ∅ s) w) s' w'.

Lemma waited_in (i : Z) (x : SentRequest) : sent s' !! i = Some x -> sent s !! i = Some x \/ postponed s !! i = Some (generator x) /\ type x = HistoryRequest
  /\ lastRequest w < sentId x <= lastRequest w' /\ exists m, api w' !! sentId x = Some (Generated h i (generator x) m).
Proof. intros Hx. destruct (ps_sent _ _ _ _ _ _ P i x Hx) as [?|(Hin & ?)]; [by left|right]. by rewrite elem_of_entries in Hin. Qed.

Lemma waited_state : states w' = <[h := s']> (states w).
Proof. rewrite (ps_state _ _ _ _ _ _ P). simpl. by rewrite insert_insert_eq. Qed.

Lemma waited_tracked (k i : Z) : tracked w' k i <-> tracked w k i.
Proof.
  unfold tracked. rewrite waited_state. destruct (decide (k = h)) as [->|Hk]; [|by rewrite lookup_insert_ne]. rewrite lookup_insert_eq, Hs.
  destruct (ps_scalars _ _ _ _ _ _ P) as (_ & _ & Ep). simpl in Ep. split; intros (s0 & [= <-] & Hi).
  - exists s. split; [done|]. rewrite Ep in Hi. destruct Hi as [[x Hx]|[x Hx]]; [|by rewrite lookup_empty in Hx]. apply waited_in in Hx as [Hx|(Hx & _)]; [left|right]; by eexists.
  - exists s'. split; [done|]. left. destruct Hi as [[x Hx]|[g Hg]].
    + exists x. by apply (ps_stay _ _ _ _ _ _ P).
    + apply (ps_all _ _ _ _ _ _ P i g). by apply elem_of_entries.
Qed.

Lemma waited_good : good o w' h s'.
Proof.
  pose proof (iv_states _ _ Hw h s Hs) as G. destruct (rest_fields _ _ (proj1 (ps_rest _ _ _ _ _ _ P))) as (E1 & E2 & E3 & E4 & E5 & E6 & E7). simpl in E1, E2, E3, E4, E5, E6, E7.
  destruct (ps_scalars _ _ _ _ _ _ P) as (Hc & Ef & Ep). destruct (scalar_fields _ _ Hc) as (C1 & C2 & C3 & C4). simpl in C1, C2, C3, C4, Ef, Ep. pose proof (ps_last _ _ _ _ _ _ P) as El. simpl in El.
  assert (forall r, r <= lastRequest w -> api w' !! r = api w !! r) as Hold by apply (ps_old _ _ _ _ _ _ P).
  assert (forall i x, sent s !! i = Some x -> sent s' !! i = Some x) as Hstay by apply (ps_stay _ _ _ _ _ _ P).
  split; rewrite ?Ep, ?C1, ?C2, ?C3, ?C4, ?E6, ?E3, ?Ef; try done.
  - intros i x [Hx|(Hx & Hty & _)]%waited_in; [by eapply gd_type|]. pose proof (gd_postponed _ _ _ _ G i _ Hx) as Hg. unfold type_ok, for_history in *. destruct (generator x); auto; done.
  - intros i x [Hx|(_ & _ & ? & _)]%waited_in; [|lia]. pose proof (gd_old _ _ _ _ G i x Hx). lia.
  - intros i x a [Hx|(_ & _ & _ & m & Hm)]%waited_in Ha; [|rewrite Hm in Ha; injection Ha as <-; by eexists].
    rewrite Hold in Ha by (by eapply (gd_old _ _ _ _ G)). by eapply gd_own.
  - intros i x [Hx|(_ & _ & _ & m & Hm)]%waited_in; [|right; right; by eexists]. rewrite Hold by (by eapply (gd_old _ _ _ _ G)). by eapply (gd_asked _ _ _ _ G).
  - intros (j & y & [Hy|(_ & Hy & _)]%waited_in & Hty); [|congruence]. destruct Hno. by exists j, y.
  - rewrite E1. intros i x t [Hx|(Hx & _)]%waited_in Hg; [by eapply (gd_reads _ _ _ _ G)|]. apply (gd_postponed _ _ _ _ G) in Hx. by rewrite Hg in Hx.
  - apply (gd_will _ _ _ _ G).
  - apply (gd_when _ _ _ _ G).
  - intros Hr Hn. destruct (gd_reading _ _ _ _ G Hr Hn) as [[Hd (i & x & Hx & Hg)]|[Hd Hq]]; [left|right; split; [done|unfold requested in *; by rewrite E3, E4]].
    split; [done|]. exists i, x. split; [by apply Hstay|done].
  - intros i x Hr Hf [Hx|(Hx & _)]%waited_in Hg; [by eapply gd_finish|]. apply (gd_postponed _ _ _ _ G) in Hx. by rewrite Hg in Hx.
  - apply (gd_flag _ _ _ _ G).
  - by intros Hc'%closing_fst.
Qed.

Lemma waited_kept (k : Z) : k <> h -> kept k w w'.
Proof.
  intros Hk. destruct (rest_fields _ _ (proj1 (ps_rest _ _ _ _ _ _ P))) as (E1 & E2 & E3 & E4 & E5 & E6 & E7). simpl in *. split; rewrite ?E1, ?E3, ?E6; try done.
  - intros b Hb. by exists b.
  - intros r i g m Ha. rewrite (ps_old _ _ _ _ _ _ P); [done|]. by apply (iv_api _ _ Hw _ _ Ha).
  - intros r a Hr. by rewrite (ps_old _ _ _ _ _ _ P) by done.
  - apply (ps_last _ _ _ _ _ _ P).
  - unfold requested. by rewrite E3, E4.
Qed.

Lemma waited_out : historyByRequest w !! id <> Some h -> out_ w w' s' /\ postponed s' = ∅.
Proof.
  intros Hb. destruct (ps_rest _ _ _ _ _ _ P) as (Hr & Eb & Ec). destruct (rest_fields _ _ Hr) as (E1 & E2 & E3 & E4 & E5 & E6 & E7). simpl in E1, E2, E3, E4, E5, E6, E7, Eb, Ec.
  destruct (ps_scalars _ _ _ _ _ _ P) as (Hsc & Ef & Ep). destruct (scalar_fields _ _ Hsc) as (C1 & C2 & C3 & C4). simpl in C1, C2, C3, C4, Ef, Ep. pose proof waited_state as Es. pose proof (iv_states _ _ Hw h s Hs) as G.
  split; [|done]. split; [|rewrite Es; by rewrite lookup_insert_eq| |by rewrite Eb].
  2:{ apply eq_None_not_Some. intros [x [Hx|(Hx & _)]%waited_in]; [congruence|]. by rewrite (gd_closing _ _ _ _ G id Ho) in Hx. }
  split; rewrite ?E1, ?E2, ?E3, ?E4, ?E5, ?E6, ?E7, ?Eb, ?Ec; try apply Hw.
  - intros i k Hk. rewrite waited_tracked. by apply (iv_by _ _ Hw).
  - intros i k. rewrite waited_tracked. apply (iv_ids _ _ Hw).
  - intros i k k'. rewrite !waited_tracked. apply (iv_one _ _ Hw).
  - intros r a Ha. destruct (decide (r <= lastRequest w)) as [Hle|Hlt].
    + rewrite (ps_old _ _ _ _ _ _ P) in Ha by done. destruct (iv_api _ _ Hw r a Ha) as [? Hg]. pose proof (ps_last _ _ _ _ _ _ P) as El. simpl in El. split; [lia|].
      intros k i g m Em. destruct (Hg k i g m Em) as (s0 & x & Hk & Hx & ?). destruct (decide (k = h)) as [->|Hne]; [|exists s0, x; by rewrite Es, lookup_insert_ne].
      assert (s0 = s) as -> by congruence. exists s', x. rewrite Es, lookup_insert_eq. split; [done|]. split; [|done]. by apply (ps_stay _ _ _ _ _ _ P).
    + destruct (ps_new _ _ _ _ _ _ P r a) as (Hr' & i & x & m & Hx & Hin & Hrx & ->); [simpl; lia|done|]. split; [done|].
      intros k j g m' [= <- <- <- <-]. exists s', x. rewrite Es, lookup_insert_eq. by split_and!.
  - intros k i j Hg. destruct (iv_groups _ _ Hw k i j Hg) as [? Hty]. split; [done|]. intros k' s0 x Hk Hx. rewrite Es in Hk. apply lookup_insert_Some in Hk as [[<- <-]|[_ Hk]]; [|by eapply Hty].
    apply waited_in in Hx as [Hx|(_ & ? & _)]; [by eapply Hty|done].
  - intros k s0 Hk. rewrite Es in Hk. apply lookup_insert_Some in Hk as [[<- <-]|[Hne Hk]]; [apply waited_good|].
    apply (good_kept o w); [by apply waited_kept|by apply (iv_states _ _ Hw)].
  - intros k s0 Hk Hc Hr'. pose proof (proj1 (closing_fst k) Hc). rewrite Es, lookup_insert_ne in Hk by done. by apply (iv_filled _ _ Hw k s0).
  - intros k i Hk. destruct (iv_finish _ _ Hw k i Hk) as (? & Hone & Hsome). split; [done|]. split; [intros k'; rewrite waited_tracked; apply Hone|].
    rewrite Es. destruct (decide (k = h)) as [->|Hne]; [rewrite lookup_insert_eq; by eexists|by rewrite lookup_insert_ne].
  - intros k Hk. destruct (iv_asked _ _ Hw k Hk) as [(s0 & Hs0 & Hf)|[?|(r & l & Hr' & Hin)]]; [left|right; by left|right; right].
    + destruct (decide (k = h)) as [->|Hne]; [exists s'; rewrite Es, lookup_insert_eq; split; [done|congruence]|]. exists s0. by rewrite Es, lookup_insert_ne.
    + exists r, l. split; [|done]. rewrite (ps_old _ _ _ _ _ _ P); [done|]. by apply (iv_api _ _ Hw _ _ Hr').
  - intros Hdue k s0 Hk. rewrite Es in Hk. apply lookup_insert_Some in Hk as [[<- <-]|[_ Hk]]; [|by apply (iv_due _ _ Hw Hdue k s0)]. rewrite C1, C3. by apply (iv_due _ _ Hw Hdue h s).
Qed.
End Waiting.

Lemma send_waiting (w : Histories) (s : State) : inv o w -> states w !! h = Some s -> sent s !! id = None -> historyByRequest w !! id <> Some h ->
  exists w' s', (s <- bind (lookup_state h) lift ;;
    when (negb (bool_decide (postponed s = ∅)) && negb (postponeHistoryRequest s)) (
      on_state h (set_postponed ∅) ;;;
      sendPostponed h (entries (postponed s)))) w = Some (tt, w') /\ out_ w w' s' /\ (postponed s' <> ∅ -> has_delete s').
Proof.
  intros Hw Hs Hid Hb. unfold bind at 1, lookup_state, bind at 1, StateMonad.gets at 1, lift at 1. rewrite Hs. unfold when.
  destruct (bool_decide (postponed s = ∅)) eqn:Ep; [|destruct (postponeHistoryRequest s) eqn:Ed]; cbv [negb andb].
  - apply bool_decide_eq_true in Ep. exists w, s. split; [done|]. split; [by split|done].
  - exists w, s. split; [done|]. split; [by split|]. intros _. by apply postpone_history.
  - unfold bind at 1. rewrite (on_state_is h _ s w Hs). assert (~ has_delete s) as Hno by (rewrite <- postpone_history; congruence).
    destruct (sendPostponed_is h (entries (postponed s)) (set_postponed ∅ s) (set_state h (set_postponed ∅ s) w)) as (s' & w' & E & P).
    + simpl. by rewrite lookup_insert_eq.
    + rewrite entries_keys. apply sorted_elements_NoDup.
    + intros i ([i' g] & -> & Hin%elem_of_entries)%list_elem_of_fmap. simpl in *. apply eq_None_not_Some. intros Hi.
      by rewrite (gd_apart _ _ _ _ (iv_states _ _ Hw h s Hs) i' Hi) in Hin.
    + simpl. intros r [a Ha]. by apply (iv_api _ _ Hw r a).
    + exists w', s'. split; [done|]. destruct (waited_out w s w' s' Hw Hs Hid Hno P Hb) as [? E0]. split; [done|]. by rewrite E0.
Qed.

(** ** The entry that waited, and an empty state *)

Record ended (w w' : Histories) (s' : State) : Prop := {
  en_out : out_ w w' s';
  en_deleting : postponed s' <> ∅ -> has_delete s';
  en_held : postponedRequestEntry s' = true -> postponeEntryRequest s' = true }.

Lemma postpone_again (w : Histories) (s : State) (callbacks : list Callback) (n : nat) : inv o w -> states w !! h = Some s -> dialogRequests w !! h = Some callbacks ->
  ((0 < n)%nat) -> let s' := set_postponedRequestEntry false s in
  inv o (set_posted n (set_state h s' (set_dialogs (delete h (dialogRequests w)) (set_pending (<[h := callbacks]> (dialogRequestsPending w)) w)))).
Proof.
  intros Hw Hs Hd Hn s'. set (w' := set_posted _ _). pose proof (iv_states _ _ Hw h s Hs) as G. assert (states w' = <[h := s']> (states w)) as Es by done.
  assert (forall k i, tracked w' k i <-> tracked w k i) as Htr.
  { intros k i. unfold tracked. rewrite Es. destruct (decide (k = h)) as [->|Hk]; [|by rewrite lookup_insert_ne]. rewrite lookup_insert_eq, Hs.
    split; intros (s0 & [= <-] & Hi); [by exists s|by exists s']. }
  assert (forall k, requested w k -> requested w' k) as Hrq.
  { intros k Hk. unfold requested in *. simpl. destruct (decide (k = h)) as [->|Hne]; [right; rewrite lookup_insert_eq; by eexists|]. by rewrite lookup_delete_ne, lookup_insert_ne. }
  split; simpl; try apply Hw.
  - intros i k Hk. rewrite Htr. by apply (iv_by _ _ Hw).
  - intros i k. rewrite Htr. apply (iv_ids _ _ Hw).
  - intros i k k'. rewrite !Htr. apply (iv_one _ _ Hw).
  - intros r a Ha. destruct (iv_api _ _ Hw r a Ha) as [? Hg]. split; [done|]. intros k i g m Em. destruct (Hg k i g m Em) as (s0 & x & Hk & Hx & ?).
    destruct (decide (k = h)) as [->|Hne]; [|exists s0, x; by rewrite lookup_insert_ne]. assert (s0 = s) as -> by congruence. exists s', x. by rewrite lookup_insert_eq.
  - intros k i j Hg. destruct (iv_groups _ _ Hw k i j Hg) as [? Hty]. split; [done|]. intros k' s0 x Hk Hx. apply lookup_insert_Some in Hk as [[<- <-]|[_ Hk]]; [|by eapply Hty].
    by eapply (Hty h s).
  - intros k s0 Hk. apply lookup_insert_Some in Hk as [[<- <-]|[Hne Hk]].
    + destruct G as [G1 G2 G3 G4 G5 G6 G7 G8 G9 G10 G11 G12 G13 G14 G15 G16]. split; simpl; try done.
      intros Hr Hz. destruct (G13 Hr Hz) as [?|[? ?]]; [by left|right]. split; [done|]. pose proof (Hrq h). tauto.
    + apply (good_kept o w); [|by apply (iv_states _ _ Hw)]. split; simpl; try done; [intros b Hb; by exists b|apply Hrq|]. by rewrite lookup_delete_ne.
  - intros k s0 Hk Hc Hr. pose proof (proj1 (closing_fst k) Hc). rewrite lookup_insert_ne in Hk by done. by apply (iv_filled _ _ Hw k s0).
  - intros k i Hk. destruct (iv_finish _ _ Hw k i Hk) as (? & Hone & Hsome). split; [done|]. split; [intros k'; rewrite Htr; apply Hone|].
    destruct (decide (k = h)) as [->|Hne]; [rewrite lookup_insert_eq; by eexists|by rewrite lookup_insert_ne].
  - intros k [l Hk]. apply lookup_delete_Some in Hk as [Hne Hk]. rewrite lookup_insert_ne by done. apply (iv_apart _ _ Hw). by eexists.
  - done.
  - intros k [l Hk]. apply lookup_delete_Some in Hk as [Hne Hk]. destruct (iv_asked _ _ Hw k) as [(s0 & Hs0 & Hf)|[?|?]]; [by eexists| |right; by left|by right; right].
    left. exists s0. split; [|done]. simpl. by rewrite lookup_insert_ne.
  - intros Hdue k s0 Hk. apply lookup_insert_Some in Hk as [[<- <-]|[_ Hk]]; [by apply (iv_due _ _ Hw Hdue h s)|by apply (iv_due _ _ Hw Hdue k s0)].
Qed.

Lemma again_is (w0 w : Histories) (s : State) : out_ w0 w s -> (postponed s <> ∅ -> has_delete s) -> exists w' s',
  (s <- bind (lookup_state h) lift ;;
   when (postponedRequestEntry s && negb (postponeEntryRequest s)) (
    w <- StateMonad.gets Datatypes.id ;;
    callbacks <- lift (dialogRequests w !! h) ;;
    expect (bool_decide (dialogRequestsPending w !! h = None)) ;;;
    modify (fun w => set_dialogs (delete h (dialogRequests w)) (set_pending (<[h := callbacks]> (dialogRequestsPending w)) w)) ;;;
    on_state h (set_postponedRequestEntry false) ;;;
    postponeRequestDialogEntries)) w = Some (tt, w') /\ ended w0 w' s'.
Proof.
  intros [Hw Hs Hid Hb] Hdel. unfold bind at 1, lookup_state, bind at 1, StateMonad.gets at 1, lift at 1. rewrite Hs. unfold when.
  destruct (postponedRequestEntry s) eqn:Ef; [|by exists w, s; split; [done|split; [by split|done|congruence]]].
  destruct (postponeEntryRequest s) eqn:Ep; [by exists w, s; split; [done|split; [by split|done|done]]|]. cbv [negb andb].
  destruct (gd_flag _ _ _ _ (iv_states _ _ Hw h s Hs) Ef) as [callbacks Hd]. pose proof (iv_apart _ _ Hw h ltac:(by eexists)) as Hp.
  unfold bind at 1, StateMonad.gets at 1, bind at 1, lift at 1. change (dialogRequests (Datatypes.id w)) with (dialogRequests w). rewrite Hd.
  unfold bind at 1, expect. change (dialogRequestsPending (Datatypes.id w)) with (dialogRequestsPending w). rewrite bool_decide_eq_true_2 by done. unfold ret at 1. unfold bind at 1, modify at 1. set (w1 := set_dialogs _ _).
  unfold bind at 1. assert (states w1 !! h = Some s) as Hs1 by done. rewrite (on_state_is h _ s w1 Hs1). set (w2 := set_state _ _ _).
  unfold postponeRequestDialogEntries, bind, StateMonad.gets, modify. change (dialogRequestsPending (Datatypes.id w2)) with (<[h := callbacks]> (dialogRequestsPending w)).
  assert (exists n, (0 < n)%nat /\ (if (1 <? size (<[h:=callbacks]> (dialogRequestsPending w)))%nat then ret () else (fun s => Some ((), set_posted (S (postedCalls (Datatypes.id w2))) s))) w2
    = Some (tt, set_posted n w2)) as (n & Hn & ->).
  { destruct (Nat.ltb_spec 1 (size (<[h:=callbacks]> (dialogRequestsPending w)))) as [Hlt|]; [|exists (S (postedCalls w2)); split; [lia|done]].
    exists (postedCalls w2). split; [|by destruct w2]. apply (iv_posted _ _ Hw). intros E. rewrite E, insert_empty, map_size_singleton in Hlt. lia. }
  eexists _, (set_postponedRequestEntry false s). split; [done|]. split; [split|done|done].
  - exact (postpone_again w s callbacks n Hw Hs Hd Hn).
  - simpl. by rewrite lookup_insert_eq.
  - done.
  - done.
Qed.

Lemma settle_other (w : Histories) (k : Z) (s : State) : k <> h -> good o w k s -> good (settled o) w k s.
Proof.
  intros Hk G. assert (forall i, o_finish o <> Some (k, i)) as Hn by (intros i; rewrite Ho; congruence). split; try apply G; simpl; try done.
  - intros i x Hx. destruct (gd_asked _ _ _ _ G i x Hx) as [Hf|?]; [by apply Hn in Hf|by right].
  - intros _. apply (gd_deleting _ _ _ _ G). by apply closing_fst.
  - intros _. apply (gd_held _ _ _ _ G). by apply closing_fst.
Qed.

Lemma settle_this (w : Histories) (s : State) : sent s !! id = None -> (postponed s <> ∅ -> has_delete s) -> (postponedRequestEntry s = true -> postponeEntryRequest s = true) ->
  good o w h s -> good (settled o) w h s.
Proof.
  intros Hid Hd Hf G. split; try apply G; simpl; try done.
  intros i x Hx. destruct (gd_asked _ _ _ _ G i x Hx) as [E|?]; [|by right]. rewrite Ho in E. injection E as ->. congruence.
Qed.

(** An empty state is left out, and nothing is being finished any more. *)
Lemma close_ok (w0 w : Histories) (s : State) : h ∉ o_reading o -> ended w0 w s -> wp (checkEmptyState h) (fun _ w' => inv (settled o) w') w.
Proof.
  intros Hr [[Hw Hs Hid Hb] Hdel Hheld]. unfold checkEmptyState, wp, bind, lookup_state, StateMonad.gets. rewrite Hs. pose proof (iv_states _ _ Hw h s Hs) as G.
  pose proof (gd_closing _ _ _ _ G id Ho) as Hpid.
  assert (forall k, ~ tracked w k id) as Hno.
  { intros k Hk. pose proof (proj1 (proj2 (iv_finish _ _ Hw h id Ho)) k Hk) as ->. destruct Hk as (s0 & Hs0 & [[x Hx]|[x Hx]]); congruence. }
  assert (inv (settled o) w \/ empty_state s = true) as Hinv.
  { destruct (empty_state s) eqn:Ee; [by right|left]. split; try apply Hw; simpl; try done.
    - intros i k _. destruct (decide (k = h /\ i = id)) as [[-> ->]|Hne]; [split; [done|by intros ?%Hno]|]. apply (iv_by _ _ Hw). rewrite Ho. intros [= -> ->]. by apply Hne.
    - intros k s0 Hk. destruct (decide (k = h)) as [->|Hne]; [|apply settle_other; [done|by apply (iv_states _ _ Hw)]]. assert (s0 = s) as -> by congruence. by apply settle_this.
    - intros k s0 Hk _ Hr'. destruct (decide (k = h)) as [->|Hne]; [assert (s0 = s) as -> by congruence; done|]. apply (iv_filled _ _ Hw k s0); [done|by apply closing_fst|done]. }
  unfold when. destruct (empty_state s) eqn:Ee; [|by destruct Hinv]. clear Hinv. simpl. set (w' := set_states _ w).
  assert (sent s = ∅ /\ postponed s = ∅ /\ postponedRequestEntry s = false) as (Es & Ep & Ef).
  { unfold empty_state in Ee. rewrite !andb_true_iff, !bool_decide_eq_true, negb_true_iff in Ee. tauto. }
  assert (forall k s0, states w' !! k = Some s0 <-> k <> h /\ states w !! k = Some s0) as Hst by (intros k s0; apply delete_iff).
  assert (forall k i, tracked w' k i <-> tracked w k i) as Htr.
  { intros k i. unfold tracked. split; [intros (s0 & [_ Hk]%Hst & Hi); by exists s0|]. intros (s0 & Hk & Hi). exists s0. split; [|done]. apply Hst. split; [|done]. intros ->.
    assert (s0 = s) as -> by congruence. rewrite Es, Ep in Hi. by destruct Hi as [[? ?]|[? ?]]. }
  split; simpl; try apply Hw; try done.
  - intros i k _. rewrite Htr. destruct (decide (k = h /\ i = id)) as [[-> ->]|Hne]; [split; [done|by intros ?%Hno]|]. apply (iv_by _ _ Hw). rewrite Ho. intros [= -> ->]. by apply Hne.
  - intros i k. rewrite Htr. apply (iv_ids _ _ Hw).
  - intros i k k'. rewrite !Htr. apply (iv_one _ _ Hw).
  - intros r a Ha. destruct (iv_api _ _ Hw r a Ha) as [? Hg]. split; [done|]. intros k i g m Em. destruct (Hg k i g m Em) as (s0 & x & Hk & Hx & ?). exists s0, x. split; [|done].
    apply Hst. split; [|done]. intros ->. assert (s0 = s) as -> by congruence. by rewrite Es in Hx.
  - intros k i j Hg. destruct (iv_groups _ _ Hw k i j Hg) as [? Hty]. split; [done|]. intros k' s0 x [_ Hk]%Hst. by eapply Hty.
  - intros k s0 [Hne Hk]%Hst. apply settle_other; [done|]. apply (good_kept o w); [|by apply (iv_states _ _ Hw)]. split; simpl; try done. intros b Hb'. by exists b.
  - intros k s0 [Hne Hk]%Hst _ Hr'. apply (iv_filled _ _ Hw k s0); [done|by apply closing_fst|done].
  - intros k Hk. destruct (iv_asked _ _ Hw k Hk) as [(s0 & Hs0 & Hf)|[?|?]]; [left|right; by left|by right; right]. exists s0. split; [|done]. apply Hst. split; [|done]. intros ->. congruence.
  - intros Hdue k s0 [_ Hk]%Hst. by apply (iv_due _ _ Hw Hdue k s0).
Qed.

Lemma regroup {A B S} (m : M S unit) (k : M S A) (f : A -> M S unit) (n : M S B) (Q : B -> S -> Prop) (w : S) :
  wp ((m ;;; (a <- k ;; f a)) ;;; n) Q w -> wp (m ;;; a <- k ;; f a ;;; n) Q w.
Proof. unfold wp, bind. destruct (m w) as [[[] w1]|]; [|done]. by destruct (k w1) as [[a w2]|]. Qed.

(** A request that ends leaves nothing open. *)
Lemma chat_finish_ok (w : Histories) (s : State) : h ∉ o_reading o -> inv o w -> states w !! h = Some s -> wp (finishSentRequest h id) (fun _ w' => inv (settled o) w') w.
Proof.
  intros Hr Hw Hs. destruct (chat_take_out w s Hw Hs) as (w1 & E1 & [H1 H1s H1i H1b]). destruct (send_waiting w1 _ H1 H1s H1i H1b) as (w2 & s2 & E2 & O2 & D2).
  destruct (again_is w1 w2 s2 O2 D2) as (w3 & s3 & E3 & En).
  apply regroup. eapply wp_step; [exact E1|]. apply wp_assoc. eapply wp_step; [exact E2|]. apply wp_assoc. eapply wp_step; [exact E3|]. exact (close_ok _ _ _ Hr En).
Qed.

Lemma checkPostponed_ok (w : Histories) : h ∉ o_reading o -> inv o w -> wp (checkPostponed h id) (fun _ w' => inv (settled o) w') w.
Proof.
  intros Hr Hw. unfold checkPostponed. unfold wp, bind at 1, lookup_state, StateMonad.gets. case_bool_decide as Es; [destruct Es as [s Hs]; by apply (chat_finish_ok w s)|].
  simpl. assert (forall i, ~ tracked w h i) as Hno by (intros i (s & Hs & _); by destruct Es).
  destruct (iv_finish _ _ Hw h id Ho) as (_ & Hone & Hsome). split; try apply Hw; simpl; try done.
  - intros i k _. destruct (decide (k = h /\ i = id)) as [[-> ->]|Hne]; [|apply (iv_by _ _ Hw); rewrite Ho; intros [= -> ->]; by apply Hne].
    split; [by intros ?%Hsome|by intros ?%Hno].
  - intros k s Hk. apply settle_other; [|by apply (iv_states _ _ Hw)]. intros ->. apply Es. by eexists.
  - intros k s Hk _. apply (iv_filled _ _ Hw k s Hk), closing_fst. intros ->. apply Es. by eexists.
Qed.
End Finish.
