(* ===== verification/HistoriesRead.v ===== *)
(** * Chats: reading is reported

    What a chat is read up to is sent to the server, now or when the timer fires;
    nothing that was read is forgotten. *)

From S2P Require Import Prelude Ids StateMonad ChatReading ChatFacts Histories HistoriesFacts HistoriesSend.

(** ** Chats *)

Lemma set_chat_inv (o : Open) (w : Histories) (h : Z) (c : History) : inv o w -> chat_ok c ->
  (forall b, inboxReadBefore (chats w h) = Some b -> exists b', inboxReadBefore c = Some b' /\ b <= b') -> inv o (set_chat h c w).
Proof.
  intros H Hc Hg. split; simpl; try apply H.
  - intros k. destruct (decide (h = k)) as [<-|Hne]; [by rewrite updated_eq|]. rewrite updated_ne by done. apply (iv_chats _ _ H).
  - intros k s Hk. apply (good_kept o w); [|by apply (iv_states _ _ H)]. split; simpl; try done.
    intros b Hb. destruct (decide (h = k)) as [<-|Hne]; [rewrite updated_eq; by apply Hg|]. rewrite updated_ne by done. by exists b.
Qed.

Lemma on_chat_ok (o : Open) (h : Z) (f : History -> option History) (Q : unit -> Histories -> Prop) (w : Histories) : inv o w ->
  (exists c, f (chats w h) = Some c /\ chat_ok c /\ grows (chats w h) c /\ (inv o (set_chat h c w) -> Q tt (set_chat h c w))) -> wp (on_chat h f) Q w.
Proof. intros H (c & Hf & Hc & Hg & HQ). unfold wp, on_chat. rewrite Hf. apply HQ, set_chat_inv; [done|done|apply Hg]. Qed.

(** ** Entries that are asked for *)

Record asks (h : Z) (w w' : Histories) : Prop := {
  ak_states : states w' = states w;
  ak_chats : chats w' = chats w;
  ak_requested : requested w' h }.

Lemma requestDialogEntry_ok (o : Open) (h : Z) (c : option Callback) (w : Histories) : inv o w -> wp (requestDialogEntry h c) (fun _ w' => inv o w' /\ asks h w w') w.
Proof.
  intros H. unfold requestDialogEntry, wp, bind at 1, StateMonad.gets. change (Datatypes.id w) with w. destruct (dialogRequests w !! h) as [l|] eqn:Ed.
  - simpl. set (w' := set_dialogs _ w). assert (forall k, is_Some (dialogRequests w' !! k) <-> is_Some (dialogRequests w !! k)) as Hd.
    { intros k. simpl. destruct (decide (k = h)) as [->|Hne]; [rewrite lookup_insert_eq, Ed; split; intros; by eexists|by rewrite lookup_insert_ne]. }
    split; [|split; [done|done|left; apply Hd; by eexists]]. split; try apply H.
    + intros k s Hk. apply (good_kept o w); [|by apply (iv_states _ _ H)]. split; try done; [intros b Hb; by exists b| |by apply Hd].
      intros [?|?]; [left; by apply Hd|by right].
    + intros k Hk%Hd. by apply (iv_apart _ _ H).
    + intros k Hk%Hd. by apply (iv_asked _ _ H).
  - set (more := match c with Some c => [c] | None => [] end). set (was := dialogRequestsPending w !! h). unfold bind, modify. set (w1 := set_pending _ w).
    assert (forall n, (0 < n)%nat -> let w' := set_posted n w1 in inv o w' /\ asks h w w') as Hset.
    { intros n Hn w'. assert (forall k, requested w k -> requested w' k) as Hr.
      { intros k [?|?]; [by left|right]. simpl. destruct (decide (k = h)) as [->|Hne]; [rewrite lookup_insert_eq; by eexists|by rewrite lookup_insert_ne]. }
      split; [|split; [done|done|right; simpl; rewrite lookup_insert_eq; by eexists]]. split; try apply H.
      - intros k s Hk. apply (good_kept o w); [|by apply (iv_states _ _ H)]. split; try done; [intros b Hb; by exists b|apply Hr].
      - simpl. intros k Hk. rewrite lookup_insert_ne; [by apply (iv_apart _ _ H)|]. intros <-. rewrite Ed in Hk. by destruct Hk.
      - done. }
    case_bool_decide as Ew.
    + assert (w1 = set_posted (postedCalls w1) w1) as -> by done. apply Hset. simpl. apply (iv_posted _ _ H). intros E. unfold was in Ew. rewrite E, lookup_empty in Ew. by destruct Ew.
    + unfold postponeRequestDialogEntries, bind, StateMonad.gets, modify. change (Datatypes.id w1) with w1. destruct (Nat.ltb_spec 1 (size (dialogRequestsPending w1))) as [Hlt|].
      * assert (w1 = set_posted (postedCalls w1) w1) as E1 by done. unfold ret. rewrite E1. apply Hset. simpl. apply (iv_posted _ _ H). intros E. simpl in Hlt.
        rewrite E, insert_empty, map_size_singleton in Hlt. lia.
      * apply Hset. simpl. lia.
Qed.

Lemma requestChatListMessage_ok (o : Open) (h : Z) (w : Histories) : inv o w -> wp (requestChatListMessage h) (fun _ w' => inv o w' /\ states w' = states w) w.
Proof.
  intros H. unfold requestChatListMessage. apply wp_bind, wp_gets. destruct (lastMessageKnown _); [by apply wp_ret|].
  eapply wp_mono; [by apply requestDialogEntry_ok|]. intros [] w' [? A]. split; [done|]. exact (ak_states _ _ _ A).
Qed.

(** ** Reports *)

Definition opening (h : Z) (o : Open) : Open := mk_open (o_finish o) (h :: o_reading o) (o_applied o) (o_due o) (o_dropped o).
Definition with_due (b : bool) (o : Open) : Open := mk_open (o_finish o) (o_reading o) (o_applied o) b (o_dropped o).

Definition marks (s : State) : Z * Z * bool := (willReadTill s, sentReadTill s, sentReadDone s).

(** What reports change. *)
Record reports (w w' : Histories) : Prop := {
  rp_chats : chats w' = chats w;
  rp_rest : dialogRequests w' = dialogRequests w /\ dialogRequestsPending w' = dialogRequestsPending w /\ chatListGroupRequests w' = chatListGroupRequests w
    /\ now w' = now w /\ postedCalls w' = postedCalls w;
  rp_dom : forall h, is_Some (states w' !! h) <-> is_Some (states w !! h);
  rp_states : forall h s, states w !! h = Some s -> exists s', states w' !! h = Some s'
    /\ (marks s' = marks s \/ willReadTill s <> 0 /\ marks s' = (0, willReadTill s, false)) }.

#[export] Instance reports_preorder : PreOrder reports.
Proof.
  split.
  - intros w. split; try done. intros h s Hs. exists s. split; [done|by left].
  - intros w1 w2 w3 [A1 (A2 & A3 & A4 & A5 & A6) A7 A8] [B1 (B2 & B3 & B4 & B5 & B6) B7 B8]. split; try congruence.
    + by split_and!; etrans.
    + intros h. by rewrite B7.
    + intros h s Hs. destruct (A8 h s Hs) as (s2 & H2 & C2). destruct (B8 h s2 H2) as (s3 & H3 & C3). exists s3. split; [done|].
      destruct C2 as [E2|[Hn E2]], C3 as [E3|[Hn3 E3]].
      * left. congruence.
      * right. unfold marks in E2. injection E2 as C1 C2 C3. rewrite <- C1. by split.
      * right. split; [done|]. congruence.
      * unfold marks in E2. injection E2 as F1 F2 F3. congruence.
Qed.

(** The chat is settled again. *)
Lemma closing_reading (o : Open) (w : Histories) (h : Z) (s : State) : inv (opening h o) w -> states w !! h = Some s ->
  (sentReadTill s <> 0 -> (sentReadDone s = false /\ exists id x, sent s !! id = Some x /\ generator x = ReadTill (sentReadTill s)) \/ (sentReadDone s = true /\ (requested w h \/ h ∈ o_applied o))) ->
  (forall id x, o_finish o = Some (h, id) -> sent s !! id = Some x -> generator x = ReadTill (sentReadTill s) -> sentReadDone s = true) ->
  (fst <$> o_finish o <> Some h -> empty_state s = false) -> inv o w.
Proof.
  intros H Hs Hr Hf He. split; try apply H.
  - intros k s0 Hk. pose proof (iv_states _ _ H k s0 Hk) as G. destruct (decide (k = h)) as [->|Hne].
    + assert (s0 = s) as -> by congruence. split; try apply G; [intros _; exact Hr|intros id x _; by apply Hf].
    + split; try apply G; [|intros id x]; intros Hk'; apply G; simpl; rewrite not_elem_of_cons; by split.
  - intros k s0 Hk Hc Hr'. destruct (decide (k = h)) as [->|Hne]; [assert (s0 = s) as -> by congruence; by apply He|].
    apply (iv_filled _ _ H k s0); [done|done|]. simpl. rewrite not_elem_of_cons. by split.
Qed.

Lemma opening_inv (o : Open) (w : Histories) (h : Z) : inv o w -> inv (opening h o) w.
Proof.
  intros H. split; try apply H.
  - intros k s Hk. pose proof (iv_states _ _ H k s Hk) as G. split; try apply G; [|intros id x]; simpl; intros [_ Hn]%not_elem_of_cons; by apply G.
  - intros k s Hk Hc. simpl. intros [_ Hn]%not_elem_of_cons. by apply (iv_filled _ _ H k s).
Qed.

Lemma set_state_tracked (w w' : Histories) (h : Z) (s s' : State) : states w !! h = Some s -> states w' = <[h := s']> (states w) -> sent s' = sent s -> postponed s' = postponed s ->
  forall k i, tracked w' k i <-> tracked w k i.
Proof.
  intros Hs Es E1 E2 k i. unfold tracked. rewrite Es. destruct (decide (k = h)) as [->|Hk]; [|by rewrite lookup_insert_ne]. rewrite lookup_insert_eq, Hs.
  split; intros (s0 & [= <-] & Hi); [exists s|exists s']; by rewrite ?E1, ?E2 in *.
Qed.

(** A state of a chat with the same requests. *)
Lemma set_state_inv (o : Open) (w : Histories) (h : Z) (s s' : State) : inv o w -> states w !! h = Some s -> sent s' = sent s -> postponed s' = postponed s ->
  (postponedRequestEntry s = true -> postponedRequestEntry s' = true) -> good o w h s' -> (fst <$> o_finish o <> Some h -> h ∉ o_reading o -> empty_state s' = false) ->
  (o_due o = false -> willReadTill s' <> 0 -> 0 < willReadWhen s' /\ exists d, readRequestsTimer w = Some d /\ d <= willReadWhen s') -> inv o (set_state h s' w).
Proof.
  intros H Hs E1 E2 E3 G He Hd. pose proof (set_state_tracked w (set_state h s' w) h s s' Hs eq_refl E1 E2) as Htr.
  assert (forall k, kept k w (set_state h s' w)) as Hkept by (intros k; split; try done; intros b Hb; by exists b).
  split; simpl; try apply H.
  - intros i k Hk. rewrite Htr. by apply (iv_by _ _ H).
  - intros i k. rewrite Htr. apply (iv_ids _ _ H).
  - intros i k k'. rewrite !Htr. apply (iv_one _ _ H).
  - intros r a Ha. destruct (iv_api _ _ H r a Ha) as [? Hg]. split; [done|]. intros k i g m Em. destruct (Hg k i g m Em) as (s0 & x & Hk & Hx & ?).
    destruct (decide (k = h)) as [->|Hne]; [|exists s0, x; by rewrite lookup_insert_ne]. assert (s0 = s) as -> by congruence. exists s', x. by rewrite lookup_insert_eq, E1.
  - intros k i j Hg. destruct (iv_groups _ _ H k i j Hg) as [? Hty]. split; [done|]. intros k' s0 x Hk Hx. apply lookup_insert_Some in Hk as [[<- <-]|[_ Hk]]; [|by eapply Hty].
    rewrite E1 in Hx. by eapply (Hty h s).
  - intros k s0 Hk. apply lookup_insert_Some in Hk as [[<- <-]|[Hne Hk]]; [by apply (good_kept o w)|]. apply (good_kept o w); [done|]. by apply (iv_states _ _ H).
  - intros k s0 Hk. apply lookup_insert_Some in Hk as [[<- <-]|[Hne Hk]]; [done|]. by apply (iv_filled _ _ H k s0).
  - intros k i Hk. destruct (iv_finish _ _ H k i Hk) as (? & Hone & Hsome). split; [done|]. split; [intros k'; rewrite Htr; apply Hone|].
    destruct (decide (k = h)) as [->|Hne]; [rewrite lookup_insert_eq; by eexists|by rewrite lookup_insert_ne].
  - intros k Hk. destruct (iv_asked _ _ H k Hk) as [(s0 & Hs0 & Hf)|[?|?]]; [left|right; by left|by right; right].
    destruct (decide (k = h)) as [->|Hne]; [exists s'; simpl; rewrite lookup_insert_eq; split; [done|apply E3; congruence]|]. exists s0. simpl. by rewrite lookup_insert_ne.
  - intros Hdue k s0 Hk. apply lookup_insert_Some in Hk as [[<- <-]|[_ Hk]]; [by apply Hd|by apply (iv_due _ _ H Hdue k s0)].
Qed.

Lemma sendReadRequest_ok (o : Open) (w : Histories) (h : Z) (s : State) : inv o w -> states w !! h = Some s -> willReadTill s <> 0 ->
  wp (sendReadRequest h) (fun _ w' => inv o w' /\ reports w w' /\ readRequestsTimer w' = readRequestsTimer w
    /\ (forall k, k <> h -> states w' !! k = states w !! k) /\ exists s', states w' !! h = Some s' /\ scalars s' = (0, willReadTill s, 0, false)) w.
Proof.
  intros H Hs Hn. pose proof (iv_states _ _ H h s Hs) as G. destruct (gd_will _ _ _ _ G) as (W1 & W2 & W3). specialize (W3 Hn). set (t := willReadTill s) in *.
  unfold sendReadRequest. eapply wp_step; [unfold bind, lookup_state, StateMonad.gets, lift; by rewrite Hs|]. eapply wp_step; [unfold expect; rewrite (proj2 (Z.ltb_lt _ _)) by exact W3; done|].
  fold t. set (f := fun s => _ : State). eapply wp_step; [exact (on_state_is h f s w Hs)|]. set (s1 := f s). set (w1 := set_state h s1 w).
  assert (inv (opening h o) w1) as H1.
  { apply (set_state_inv _ _ _ s); try done; [by apply opening_inv| |by simpl; intros _ []%not_elem_of_cons].
    destruct G as [G1 G2 G3 G4 G5 G6 G7 G8 G9 G10 G11 G12 G13 G14 G15 G16]. split; unfold s1, f; simpl; fold t; try done.
    - intros i x t' Hx Hg. destruct (G10 i x t' Hx Hg) as (? & _ & _ & Hw). specialize (Hw Hn). fold t in Hw. split; [done|]. split; [lia|]. split; [lia|done].
    - lia.
    - by intros []%not_elem_of_cons.
    - by intros i x []%not_elem_of_cons. }
  assert (state_in w1 h = s1) as E1 by (apply state_in_is; simpl; by rewrite lookup_insert_eq).
  destruct (sendRequest_ok (opening h o) w1 h ReadInbox (ReadTill t) H1) as (w2 & E & H2 & F); try done.
  { rewrite E1. intros till [= <-]. simpl. split; [lia|done]. }
  apply wp_bind. unfold wp. rewrite E. destruct (rest_fields _ _ (ef_rest _ _ _ _ _ F)) as (R1 & R2 & R3 & R4 & R5 & R6 & R7).
  destruct (ef_state _ _ _ _ _ F) as (s2 & Hs2 & C2 & _ & Hnew & _). rewrite E1 in C2. destruct Hnew as (x & Hx & Hg); [done|]. simpl in C2.
  assert (sentReadTill s2 = t /\ sentReadDone s2 = false) as [Ct Cd] by (unfold scalars in C2; injection C2; simpl; done).
  assert (forall k, k <> h -> states w2 !! k = states w !! k) as Hoth by (intros k Hk; rewrite (ef_states _ _ _ _ _ F k Hk); simpl; by rewrite lookup_insert_ne).
  assert (scalars s2 = (0, t, 0, false)) as C2' by (by rewrite C2). split; [|split; [|split; [done|split; [done|by exists s2]]]].
  - apply (closing_reading o w2 h s2 H2 Hs2); rewrite ?Ct, ?Cd.
    + intros _. left. split; [done|]. by eexists _, x.
    + intros i y Hf Hy Hgy. destruct (ef_types _ _ _ _ _ F _ _ _ _ Hs2 Hy) as [[_ ->]|(s0 & H0 & Hy0)].
      * destruct (iv_finish _ _ H1 h (next_id w1) Hf) as [Hle _]. unfold next_id in Hle. lia.
      * simpl in H0. rewrite lookup_insert_eq in H0. injection H0 as <-. destruct (gd_reads _ _ _ _ G i y t Hy0 Hgy) as (_ & _ & _ & Hlt). specialize (Hlt Hn). fold t in Hlt. lia.
    + intros _. apply not_empty. left. intros E0. by rewrite E0, lookup_empty in Hx.
  - split; try done.
    + intros k. destruct (decide (k = h)) as [->|Hk]; [rewrite Hs2, Hs; split; intros; by eexists|by rewrite Hoth].
    + intros k s0 Hk. destruct (decide (k = h)) as [->|Hne]; [|exists s0; rewrite Hoth by done; split; [done|by left]]. assert (s0 = s) as -> by congruence.
      exists s2. split; [done|]. right. split; [done|]. unfold scalars in C2'. injection C2' as F1 F2 F3 F4. unfold marks. by rewrite F1, F2, F4.
Qed.

(** Reading of the chats looked at so far is sent, or later than now. *)
Definition looked (l : list Z) (next : option Z) (w : Histories) : Prop :=
  (forall h s, h ∈ l -> states w !! h = Some s -> willReadTill s <> 0 -> now w < willReadWhen s /\ exists n, next = Some n /\ n <= willReadWhen s)
  /\ forall n, next = Some n -> n <= now w + kReadRequestTimeout.

Lemma readLoop_ok (o : Open) (w : Histories) (l seen : list Z) (next : option Z) : inv o w -> (forall h, h ∈ l -> is_Some (states w !! h)) -> looked seen next w ->
  wp (readLoop l next) (fun next' w' => inv o w' /\ reports w w' /\ readRequestsTimer w' = readRequestsTimer w /\ looked (l ++ seen) next' w') w.
Proof.
  revert w seen next. induction l as [|h l IH]; intros w seen next H Hl [Hk1 Hk2]; [by apply wp_ret|].
  destruct (Hl h) as [s Hs]; [left|]. pose proof (iv_states _ _ H h s Hs) as G. cbn [readLoop].
  eapply wp_step; [unfold bind, lookup_state, StateMonad.gets, lift; by rewrite Hs|]. apply wp_bind, wp_gets. change (Datatypes.id w) with w.
  assert (forall w1 next1, inv o w1 -> reports w w1 -> readRequestsTimer w1 = readRequestsTimer w -> looked (h :: seen) next1 w1 ->
    wp (readLoop l next1) (fun next' w' => inv o w' /\ reports w w' /\ readRequestsTimer w' = readRequestsTimer w /\ looked ((h :: l) ++ seen) next' w') w1) as Hgo.
  { intros w1 next1 H1 R1 T1 K1. eapply wp_mono; [apply (IH w1 (h :: seen) next1 H1); [|done]|].
    - intros k Hk. apply (rp_dom _ _ R1). apply Hl. by right.
    - intros next' w' (? & R & T & K3 & K4). split; [done|]. split; [by etrans|]. split; [congruence|]. split; [|done]. intros k s0 Hk. apply K3.
      rewrite !elem_of_app, !elem_of_cons in *. tauto. }
  destruct (Z.eqb_spec (willReadTill s) 0) as [E0|E0]; [|destruct (Z.leb_spec (willReadWhen s) (now w)) as [Hle|Hlt]].
  - apply Hgo; try done. split; [|done]. intros k s0 [->|Hk]%elem_of_cons Hs0; [congruence|by apply (Hk1 k s0)].
  - apply wp_bind. eapply wp_mono; [by apply sendReadRequest_ok|]. intros [] w1 (H1 & R1 & T1 & O1 & s1 & Hs1 & C1). apply Hgo; try done.
    destruct (rp_rest _ _ R1) as (_ & _ & _ & En & _). split; rewrite En; [|done]. intros k s0 Hk Hs0 Hn. destruct (decide (k = h)) as [->|Hne].
    + assert (s0 = s1) as -> by congruence. unfold scalars in C1. injection C1 as ? ? ? ?. congruence.
    + apply elem_of_cons in Hk as [?|Hk]; [done|]. rewrite O1 in Hs0 by done. by apply (Hk1 k s0).
  - apply Hgo; try done. destruct (gd_when _ _ _ _ G) as [Hwb _]. split.
    + intros k s0 Hk Hs0 Hn. apply elem_of_cons in Hk as [->|Hk].
      * assert (s0 = s) as -> by congruence. split; [done|]. eexists. split; [done|]. destruct next as [n|]; [destruct (Z.ltb_spec (willReadWhen s) n); lia|lia].
      * destruct (Hk1 k s0 Hk Hs0 Hn) as (? & n & -> & ?). split; [done|]. eexists. split; [done|]. destruct (Z.ltb_spec (willReadWhen s) n); lia.
    + intros n [= <-]. destruct next as [n|]; [|lia]. specialize (Hk2 n eq_refl). destruct (Z.ltb_spec (willReadWhen s) n); lia.
Qed.

Lemma due_inv (b : bool) (o : Open) (w : Histories) : (o_due o = true -> b = true) -> inv o w -> inv (with_due b o) w.
Proof.
  intros Hb H. split; try apply H.
  - intros k s Hk. destruct (iv_states _ _ H k s Hk). by split.
  - simpl. intros ->. apply (iv_due _ _ H). by destruct (o_due o); [destruct Hb|].
Qed.

(** All that is due is sent, and the timer is set for the rest. *)
Lemma sendReadRequests_ok (o : Open) (w : Histories) : inv o w -> wp sendReadRequests (fun _ w' => inv (with_due false o) w' /\ reports w w') w.
Proof.
  intros H. unfold sendReadRequests. apply wp_bind, wp_gets. change (Datatypes.id w) with w. case_bool_decide as Ee.
  - apply wp_ret. split; [|done]. split; try apply H.
    + intros k s Hk. by rewrite Ee, lookup_empty in Hk.
    + intros _ k s Hk. by rewrite Ee, lookup_empty in Hk.
  - apply wp_bind. assert (forall h, h ∈ sorted_keys (states w) <-> is_Some (states w !! h)) as Hkeys by (intros h; by rewrite elem_of_sorted_keys).
    eapply wp_mono; [apply (readLoop_ok o w _ [] None H); [by intros h ?%Hkeys|]|].
    + split; [by intros h s ?%not_elem_of_nil|done].
    + intros next w' (H' & R & T & K1 & K2). apply wp_modify. split.
      * split; try apply H'; simpl.
        -- intros k s Hk. pose proof (iv_states _ _ H' k s Hk) as G. apply (good_kept (with_due false o) w'); [split; try done; intros b Hb; by exists b|]. by destruct G; split.
        -- exact K2.
        -- intros _ k s Hk Hn. rewrite app_nil_r in K1. destruct (K1 k s) as (? & n & -> & ?); [apply Hkeys, (rp_dom _ _ R); by eexists|done|done|].
           pose proof (iv_now _ _ H'). split; [lia|]. by exists n.
      * etrans; [exact R|]. split; try done. intros k s Hk. exists s. split; [done|by left].
Qed.

(** ** What was read *)

Lemma with_due_id (b : bool) (o : Open) : with_due (o_due o) (with_due b o) = o.
Proof. by destruct o. Qed.

(** The server will be told, or was, or the chat was read that far before. *)
Definition noted (h t : Z) (w : Histories) : Prop :=
  trackUnreadMessages (chats w h) = false \/ (exists b, inboxReadBefore (chats w h) = Some b /\ t < b)
  \/ exists s, states w !! h = Some s /\ (t <= sentReadTill s \/ t <= willReadTill s).

(** What reading leaves as it is, and how chats change. *)
Record reading (w w' : Histories) : Prop := {
  rd_dialogs : dialogRequests w' = dialogRequests w /\ dialogRequestsPending w' = dialogRequestsPending w;
  rd_chats : forall k, grows (chats w k) (chats w' k) }.

#[export] Instance reading_preorder : PreOrder reading.
Proof.
  split; [intros w; split; [done|]; intros k; reflexivity|]. intros w1 w2 w3 [[A1 A2] A3] [[B1 B2] B3]. split; [split; congruence|]. intros k. etrans; [apply A3|apply B3].
Qed.

Lemma reports_reading (w w' : Histories) : reports w w' -> reading w w'.
Proof. intros R. destruct (rp_rest _ _ R) as (? & ? & _). split; [done|]. intros k. by rewrite (rp_chats _ _ R). Qed.
Lemma set_chat_reading (w : Histories) (h : Z) (c : History) : grows (chats w h) c -> reading w (set_chat h c w).
Proof. intros Hg. split; [done|]. intros k. simpl. destruct (decide (h = k)) as [<-|Hne]; [by rewrite updated_eq|by rewrite updated_ne]. Qed.

Lemma noted_chat (h t : Z) (w w' : Histories) : states w' !! h = states w !! h -> grows (chats w h) (chats w' h) -> noted h t w -> noted h t w'.
Proof.
  intros Es G [Hn|[(b & Hb & ?)|Hn]].
  - left. unfold trackUnreadMessages in *. by rewrite (gr_peer _ _ G).
  - right. left. destruct (gr_before _ _ G b Hb) as (b' & ? & ?). exists b'. split; [done|lia].
  - right. right. by rewrite Es.
Qed.

Lemma noted_reports (o : Open) (h t : Z) (w w' : Histories) : 0 < t -> inv o w -> reports w w' -> noted h t w -> noted h t w'.
Proof.
  intros Ht H R [Hn|[Hn|(s & Hs & Hn)]]; [left; by rewrite (rp_chats _ _ R)|right; left; by rewrite (rp_chats _ _ R)|right; right].
  destruct (rp_states _ _ R h s Hs) as (s' & Hs' & C). exists s'. split; [done|]. destruct C as [C|[Hw C]].
  - unfold marks in C. injection C as -> -> _. done.
  - unfold marks in C. injection C as C1 C2 C3. rewrite C2. left. destruct (gd_will _ _ _ _ (iv_states _ _ H h s Hs)) as (_ & _ & Hlt). specialize (Hlt Hw). lia.
Qed.

Lemma send_other (o : Open) (a : Asked) (w : Histories) : inv o w -> (forall h id g m, a <> Generated h id g m) ->
  exists r w', send a w = Some (r, w') /\ inv o w' /\ rest w' = rest w /\ states w' = states w /\ api w' !! r = Some a /\ (forall r' a', api w !! r' = Some a' -> api w' !! r' = Some a').
Proof.
  intros H Ha. unfold send, bind, StateMonad.gets, modify, ret. eexists _, _. split; [done|]. change (Datatypes.id w) with w.
  assert (api w !! (lastRequest w + 1) = None) as Hf.
  { destruct (api w !! (lastRequest w + 1)) eqn:E; [|done]. destruct (iv_api _ _ H _ _ E). lia. }
  split; [|split; [done|split; [done|split; [simpl; by rewrite lookup_insert_eq|]]]].
  - split; simpl; try apply H.
    + intros r b [[<- <-]|[Hne Hb]]%lookup_insert_Some; [split; [done|]; intros h id g m E; by apply Ha in E|]. destruct (iv_api _ _ H r b Hb) as [? ?]. split; [lia|done].
    + intros k s Hk. apply (good_kept o w); [|by apply (iv_states _ _ H)]. split; simpl; try done; [intros b Hb; by exists b| | |lia].
      * intros r i g m Hr. rewrite lookup_insert_ne; [done|]. intros <-. congruence.
      * intros r b Hr [[<- _]|[_ Hb]]%lookup_insert_Some; [lia|done].
    + intros k Hk. destruct (iv_asked _ _ H k Hk) as [?|[?|(r & l & Hr & ?)]]; [by left|right; by left|right; right]. exists r, l. split; [|done].
      simpl. rewrite lookup_insert_ne; [done|]. intros <-. congruence.
  - simpl. intros r' a' Hr. rewrite lookup_insert_ne; [done|]. intros <-. congruence.
Qed.

Lemma changeDialogUnreadMark_ok (o : Open) (h : Z) (b : bool) (w : Histories) : inv o w ->
  wp (changeDialogUnreadMark h b) (fun _ w' => inv o w' /\ reading w w' /\ states w' = states w /\ inboxReadBefore (chats w' h) = inboxReadBefore (chats w h)) w.
Proof.
  intros H. unfold changeDialogUnreadMark. apply wp_bind. eapply (on_chat_ok o); [done|]. destruct (setUnreadMark_ok b (chats w h) (iv_chats _ _ H h)) as [Hc Hg].
  eexists. split; [done|]. split; [done|]. split; [done|]. intros H1. set (w1 := set_chat _ _ w) in *.
  destruct (send_other o (MarkUnread h b) w1 H1) as (r & w2 & E & H2 & R & S & _); [done|]. apply wp_bind. unfold wp. rewrite E. cbv beta iota.
  split; [done|]. destruct (rest_fields _ _ R) as (R1 & R2 & R3 & R4 & _). split; [|split; [done|rewrite R1; simpl; by rewrite updated_eq]].
  etrans; [by apply set_chat_reading|]. split; [by split|]. intros k. by rewrite R1.
Qed.

Lemma readInboxTillNeedsRequest_ok (o : Open) (h t : Z) (w : Histories) : inv o w -> t = 0 \/ Msg.IsServerMsgId t = true ->
  wp (readInboxTillNeedsRequest h t) (fun b w' => inv o w' /\ reading w w' /\ states w' = states w
    /\ b = Msg.IsServerMsgId t && (default 1 (inboxReadBefore (chats w' h)) <=? t)) w.
Proof.
  intros H Ht. unfold readInboxTillNeedsRequest. eapply wp_step; [unfold expect; replace ((t =? 0) || Msg.IsServerMsgId t) with true; [done|]|].
  { destruct Ht as [->| ->]; [done|by rewrite orb_true_r]. }
  apply wp_bind. eapply (on_chat_ok o); [done|]. destruct (readClientSideMessages_ok (chats w h) (iv_chats _ _ H h)) as (c & Ec & Hc & Hg).
  exists c. split; [done|]. split; [done|]. split; [done|]. intros H1. set (w1 := set_chat h c w) in *. apply wp_bind, wp_gets. apply wp_bind. unfold when.
  destruct (unreadMark (chats w1 h)).
  - eapply wp_mono; [by apply changeDialogUnreadMark_ok|]. intros [] w2 (H2 & R2 & S2 & B2). apply wp_ret. split; [done|]. split; [etrans; [by apply set_chat_reading|done]|]. split; [done|]. by rewrite B2.
  - apply wp_ret, wp_ret. split; [done|]. split; [by apply set_chat_reading|done].
Qed.

(** Reading of a chat with the time changed. *)
Lemma when_inv (o : Open) (w : Histories) (h v : Z) (s : State) : inv o w -> o_due o = true -> states w !! h = Some s -> willReadTill s <> 0 -> 0 <= v <= now w + kReadRequestTimeout ->
  inv o (set_state h (set_willReadWhen v s) w).
Proof.
  intros H Hdue Hs Hn Hv. pose proof (iv_states _ _ H h s Hs) as G. apply (set_state_inv _ _ _ s); try done.
  - destruct G as [G1 G2 G3 G4 G5 G6 G7 G8 G9 G10 G11 G12 G13 G14 G15 G16]. split; try done.
  - intros _ _. apply not_empty. do 3 right. by left.
  - by rewrite Hdue.
Qed.

Lemma same_marks_reports (w : Histories) (h : Z) (s s' : State) : states w !! h = Some s -> marks s' = marks s -> reports w (set_state h s' w).
Proof.
  intros Hs Hm. split; try done.
  - intros k. simpl. destruct (decide (k = h)) as [->|Hne]; [rewrite lookup_insert_eq, Hs; split; intros; by eexists|by rewrite lookup_insert_ne].
  - intros k s0 Hk. destruct (decide (k = h)) as [->|Hne]; [|exists s0; simpl; rewrite lookup_insert_ne by done; split; [done|by left]].
    assert (s0 = s) as -> by congruence. exists s'. simpl. rewrite lookup_insert_eq. split; [done|by left].
Qed.

(** Reading that was put off is due now. *)
Lemma due_now (o : Open) (w : Histories) (h : Z) (s : State) : inv (with_due true o) w -> states w !! h = Some s -> willReadTill s <> 0 -> o_due o = false ->
  wp (on_state h (set_willReadWhen 0) ;;; sendReadRequests) (fun _ w' => inv o w' /\ reports w w') w.
Proof.
  intros H Hs Hn Hdue. eapply wp_step; [exact (on_state_is h _ s w Hs)|]. pose proof (iv_now _ _ H) as Hnow.
  assert (inv (with_due true o) (set_state h (set_willReadWhen 0 s) w)) as H1 by (apply when_inv; try done; unfold kReadRequestTimeout; lia).
  eapply wp_mono; [by apply sendReadRequests_ok|]. intros [] w' [H' R]. split; [by rewrite <- Hdue, with_due_id in H' |].
  etrans; [by apply (same_marks_reports w h s (set_willReadWhen 0 s))|exact R].
Qed.

Lemma sendPendingReadInbox_ok (o : Open) (h : Z) (w : Histories) : inv o w -> o_due o = false -> wp (sendPendingReadInbox h) (fun _ w' => inv o w' /\ reports w w') w.
Proof.
  intros H Hdue. unfold sendPendingReadInbox. apply wp_bind, wp_gets. destruct (states w !! h) as [s|] eqn:Hs; [|by apply wp_ret]. unfold when.
  destruct (negb (willReadTill s =? 0) && negb (willReadWhen s =? 0)) eqn:Ew; [|by apply wp_ret]. apply andb_true_iff in Ew as [Ew%negb_true_iff%Z.eqb_neq _].
  apply (due_now o w h s); [by apply due_inv|done..].
Qed.

Lemma new_state_inv (o : Open) (w : Histories) (h : Z) : inv o w -> states w !! h = None -> inv (opening h o) (set_state h State_new w).
Proof.
  intros H Hs. assert (forall k i, tracked (set_state h State_new w) k i <-> tracked w k i) as Htr.
  { intros k i. unfold tracked. simpl. destruct (decide (k = h)) as [->|Hk]; [|by rewrite lookup_insert_ne]. rewrite lookup_insert_eq, Hs.
    split; [|by intros (s & ? & _)]. intros (s & [= <-] & [[x Hx]|[x Hx]]); done. }
  assert (forall k s, states w !! k = Some s -> k <> h) as Hne by (intros k s Hk ->; congruence).
  pose proof (opening_inv o w h H) as H'. split; simpl; try apply H'.
  - intros i k Hk. rewrite Htr. by apply (iv_by _ _ H).
  - intros i k. rewrite Htr. apply (iv_ids _ _ H).
  - intros i k k'. rewrite !Htr. apply (iv_one _ _ H).
  - intros r a Ha. destruct (iv_api _ _ H r a Ha) as [? Hg]. split; [done|]. intros k i g m Em. destruct (Hg k i g m Em) as (s & x & Hk & Hx). exists s, x.
    rewrite lookup_insert_ne; [done|]. intros <-. by apply Hne in Hk.
  - intros k i j Hg. destruct (iv_groups _ _ H k i j Hg) as [? Hty]. split; [done|]. intros k' s x Hk. apply lookup_insert_Some in Hk as [[<- <-]|[_ Hk]]; [done|by eapply Hty].
  - intros k s Hk. apply lookup_insert_Some in Hk as [[<- <-]|[_ Hk]].
    + apply state_new_good, (iv_now _ _ H).
    + apply (good_kept _ w); [split; try done; intros b Hb; by exists b|by apply (iv_states _ _ H')].
  - intros k s Hk Hc. simpl. intros [Hkh Hn]%not_elem_of_cons. rewrite lookup_insert_ne in Hk by done. by apply (iv_filled _ _ H k s).
  - intros k i Hk. destruct (iv_finish _ _ H k i Hk) as (? & Hone & Hsome). split; [done|]. split; [intros k'; rewrite Htr; apply Hone|].
    destruct (decide (k = h)) as [->|Hk']; [rewrite lookup_insert_eq; by eexists|by rewrite lookup_insert_ne].
  - intros k Hk. destruct (iv_asked _ _ H k Hk) as [(s0 & Hs0 & Hf)|[?|?]]; [left|right; by left|by right; right]. exists s0. simpl. rewrite lookup_insert_ne; [done|]. intros <-. by apply Hne in Hs0.
  - intros Hdue k s Hk. apply lookup_insert_Some in Hk as [[<- <-]|[_ Hk]]; [done|by apply (iv_due _ _ H Hdue k s)].
Qed.

(** The chat is read up to [t]; the rest is still to be put down. *)
Lemma mark_inv (o : Open) (w : Histories) (h t : Z) (s := state_in w h) : inv o w -> 0 < t -> sentReadTill s < t ->
  (forall i x t', sent s !! i = Some x -> generator x = ReadTill t' -> t' < t) -> inv (with_due true o) (set_state h (set_willReadTill t s) w).
Proof.
  intros H Ht Hlt Hreads. pose proof (due_inv true o w ltac:(done) H) as Hd. set (o1 := with_due true o) in *.
  assert (forall o2 w2, inv o2 w2 -> o_due o2 = true -> states w2 !! h = Some s -> chats w2 = chats w -> inv o2 (set_state h (set_willReadTill t s) w2)) as Hset.
  { intros o2 w2 H2 Hdue Hs Hc. pose proof (iv_states _ _ H2 h s Hs) as G. apply (set_state_inv _ _ _ s); try done; [|intros _ _; apply not_empty; do 3 right; left; simpl; lia|by rewrite Hdue].
    destruct G as [G1 G2 G3 G4 G5 G6 G7 G8 G9 G10 G11 G12 G13 G14 G15 G16]. split; simpl; try done.
    - intros i x t' Hx Hg. destruct (G10 i x t' Hx Hg) as (? & ? & ? & _). split; [done|]. split; [done|]. split; [done|]. intros _. by eapply Hreads.
    - lia.
    - split; [apply G12|lia]. }
  destruct (state_in_cases w h) as [(s0 & Hs & E0)|[Hs E0]]; fold s in E0.
  - apply Hset; [done|done|congruence|done].
  - set (w1 := set_state h s w). assert (set_state h (set_willReadTill t s) w = set_state h (set_willReadTill t s) w1) as ->.
    { unfold w1, set_state, set_states. simpl. by rewrite insert_insert_eq. }
    assert (inv (opening h o1) w1) as H1 by (unfold w1; rewrite E0; by apply new_state_inv).
    assert (states w1 !! h = Some s) as Hs1 by (simpl; by rewrite lookup_insert_eq).
    apply (closing_reading o1 _ h (set_willReadTill t s)).
    + by apply Hset.
    + simpl. by rewrite lookup_insert_eq.
    + simpl. by rewrite E0.
    + rewrite E0. done.
    + intros _. apply not_empty. do 3 right. left. simpl. lia.
Qed.

(** What is read is put down in the chat. *)
Lemma mark_read_ok (o : Open) (h t n : Z) (w0 w : Histories) : inv o w -> reading w0 w -> noted h t w -> folderKnown (chats w h) = true ->
  wp (on_chat h (fun c => setUnreadCount n (setInboxReadTill t c))) (fun _ w' => inv o w' /\ reading w0 w' /\ noted h t w') w.
Proof.
  intros H R N Hf. eapply (on_chat_ok o); [done|]. destruct (setInboxReadTill_ok t (chats w h) (iv_chats _ _ H h)) as (C1 & G1 & _).
  destruct (setUnreadCount_ok n _ C1) as (c & -> & C2 & G2); [by apply G1|]. assert (grows (chats w h) c) as G by by etrans.
  exists c. split; [done|]. split; [done|]. split; [done|]. intros H2. split; [done|]. split; [etrans; [done|by apply set_chat_reading]|].
  apply (noted_chat h t w); [done|simpl; by rewrite updated_eq|done].
Qed.

(** The timer is set early enough. *)
Lemma timer_inv (o : Open) (w : Histories) (d : Z) : inv (with_due true o) w -> o_due o = false -> d <= now w + kReadRequestTimeout ->
  (forall h s, states w !! h = Some s -> willReadTill s <> 0 -> 0 < willReadWhen s /\ d <= willReadWhen s) -> inv o (set_timer (Some d) w).
Proof.
  intros H Hdue Hd Hall. split; simpl; try apply H.
  - intros k s Hk. apply (good_kept o w); [split; try done; intros b Hb; by exists b|]. destruct (iv_states _ _ H k s Hk). by split.
  - by intros d' [= <-].
  - intros _ k s Hk Hn. destruct (Hall k s Hk Hn). split; [done|]. by exists d.
Qed.

Lemma timer_same (w : Histories) (d : Z) : readRequestsTimer w = Some d -> set_timer (Some d) w = w.
Proof. destruct w. simpl. by intros ->. Qed.

(** Reading is put off, unless it was. *)
Definition put_off (h : Z) (s : State) : M Histories unit :=
  if willReadWhen s =? 0 then
    w <- StateMonad.gets id ;;
    on_state h (set_willReadWhen (now w + kReadRequestTimeout)) ;;;
    when (negb (bool_decide (is_Some (readRequestsTimer w)))) (modify (set_timer (Some (now w + kReadRequestTimeout))))
  else ret tt.

Lemma put_off_ok (o : Open) (w : Histories) (h : Z) (s : State) : inv (with_due true o) w -> o_due o = false -> states w !! h = Some s -> willReadTill s <> 0 ->
  (forall k s', states w !! k = Some s' -> k <> h \/ willReadWhen s <> 0 -> willReadTill s' <> 0 -> 0 < willReadWhen s' /\ exists d, readRequestsTimer w = Some d /\ d <= willReadWhen s') ->
  wp (put_off h s) (fun _ w' => inv o w' /\ reading w w' /\ chats w' = chats w /\ exists s', states w' !! h = Some s' /\ willReadTill s' = willReadTill s) w.
Proof.
  intros H Hdue Hs Hn Hall. unfold put_off. pose proof (iv_now _ _ H) as Hnow. assert (forall w', chats w' = chats w -> dialogRequests w' = dialogRequests w -> dialogRequestsPending w' = dialogRequestsPending w -> reading w w') as Hrd.
  { intros w' E1 E2 E3. split; [done|]. intros k. by rewrite E1. }
  destruct (Z.eqb_spec (willReadWhen s) 0) as [Ew|Ew].
  - apply wp_bind, wp_gets. change (Datatypes.id w) with w. set (v := now w + kReadRequestTimeout). eapply wp_step; [exact (on_state_is h _ s w Hs)|].
    set (s2 := set_willReadWhen v s). set (w2 := set_state h s2 w). assert (0 < v) as Hv by (unfold v, kReadRequestTimeout; lia).
    assert (inv (with_due true o) w2) as H2 by (apply when_inv; try done; unfold v; lia).
    assert (exists s', states w2 !! h = Some s' /\ willReadTill s' = willReadTill s) as Hex by (exists s2; simpl; by rewrite lookup_insert_eq).
    assert (forall d, d <= v -> (forall d', readRequestsTimer w = Some d' -> d = d') -> inv o (set_timer (Some d) w2)) as Htm.
    { intros d Hd Heq. apply timer_inv; [done|done|done|]. intros k s0 Hk Hn0. change (<[h := s2]> (states w) !! k = Some s0) in Hk. apply lookup_insert_Some in Hk as [[<- <-]|[Hne Hk]]; [done|].
      destruct (Hall k s0 Hk) as (? & d' & Hd' & ?); [by left|done|]. split; [done|]. by rewrite (Heq d' Hd'). }
    unfold when. case_bool_decide as Etm; simpl negb; cbv iota.
    + apply wp_ret. destruct Etm as [d Hd]. split; [|split; [by apply Hrd|by split]]. rewrite <- (timer_same w2 d) by done. apply Htm; [by apply (iv_timer _ _ H)|congruence].
    + apply wp_modify. split; [|split; [by apply Hrd|by split]]. apply Htm; [done|]. intros d Hd. destruct Etm. by rewrite Hd.
  - apply wp_ret. destruct (Hall h s Hs) as (_ & d & Hd & _); [by right|done|]. split; [|split; [by apply Hrd|split; [done|by exists s]]]. rewrite <- (timer_same w d) by done.
    apply timer_inv; [done|done|by apply (iv_timer _ _ H)|]. intros k s0 Hk Hn0. destruct (Hall k s0 Hk) as (? & d' & Hd' & ?); [by right|done|]. split; [done|]. congruence.
Qed.

Lemma readTill_ok (o : Open) (h t : Z) (still : option Z) (force : bool) (w : Histories) (s := state_in w h) : inv o w -> o_due o = false -> 0 < t -> sentReadTill s < t ->
  (forall i x t', sent s !! i = Some x -> generator x = ReadTill t' -> t' < t) -> (forall n, still = Some n -> folderKnown (chats w h) = true) ->
  wp (readTill h t still force) (fun _ w' => inv o w' /\ reading w w' /\ noted h t w') w.
Proof.
  intros H Hdue Ht Hlt Hreads Hf. pose proof (mark_inv o w h t H Ht Hlt Hreads) as H1. unfold readTill. apply wp_bind, wp_modify. fold (state_in w h). fold s in H1 |- *.
  set (s1 := set_willReadTill t s) in *. set (w1 := set_state h s1 w) in *. assert (states w1 !! h = Some s1) as Hs1 by (simpl; by rewrite lookup_insert_eq).
  assert (willReadTill s1 <> 0) as Hn by (simpl; lia). assert (reading w w1) as R1 by (split; [done|]; intros k; reflexivity).
  assert (noted h t w1) as N1 by (right; right; exists s1; split; [done|]; right; simpl; lia).
  assert (forall w', inv o w' -> reports w1 w' -> reading w w' /\ noted h t w') as Hrep.
  { intros w' H' R'. split; [etrans; [exact R1|by apply reports_reading]|]. by apply (noted_reports (with_due true o) h t w1). }
  destruct still as [n|]; [|eapply wp_mono; [by apply (due_now o w1 h s1)|]; intros [] w' [H' R']; by destruct (Hrep w' H' R')].
  eapply wp_step; [unfold bind, lookup_state, StateMonad.gets, lift; by rewrite Hs1|]. fold (put_off h s1). apply wp_bind. specialize (Hf n eq_refl). destruct (force || (n =? 0)).
  - eapply wp_mono; [by apply (due_now o w1 h s1)|]. intros [] w' [H' R']. destruct (Hrep w' H' R'). apply mark_read_ok; try done. by rewrite (rp_chats _ _ R').
  - eapply wp_mono; [apply (put_off_ok o w1 h s1); try done|].
    + intros k s0 Hk Hor Hn0. change (<[h := s1]> (states w) !! k = Some s0) in Hk. apply lookup_insert_Some in Hk as [[<- <-]|[Hne Hk]]; [|by apply (iv_due _ _ H Hdue k s0)]. destruct Hor as [?|Ew]; [done|]. simpl in Ew |- *.
      destruct (state_in_cases w h) as [(s0 & Hs & E0)|[Hs E0]]; fold s in E0; rewrite E0 in Ew |- *; [|done]. apply (iv_due _ _ H Hdue h s0); [done|].
      intros Ez. apply Ew. by apply (gd_when _ _ _ _ (iv_states _ _ H h s0 Hs)).
    + intros [] w' (H' & R' & Ec & s2 & Hs2 & Ew2). apply mark_read_ok; [done|by etrans| |by rewrite Ec]. right. right. exists s2. split; [done|]. right. rewrite Ew2. simpl. lia.
Qed.

Lemma server_positive (t : Z) : Msg.IsServerMsgId t = true -> 0 < t.
Proof. unfold Msg.IsServerMsgId. by intros [?%Z.ltb_lt _]%andb_true_iff. Qed.

Definition read_ok (o : Open) (h t : Z) (w w' : Histories) : Prop := inv o w' /\ reading w w' /\ (t <> 0 -> noted h t w').

Lemma readInboxTillBody_ok (o : Open) (h t : Z) (force : bool) (w : Histories) : inv o w -> o_due o = false -> (Msg.IsServerMsgId t = true \/ t = 0 /\ force = false) ->
  wp (readInboxTillBody h t force) (fun _ w' => read_ok o h t w w') w.
Proof.
  intros H Hdue Ht. unfold readInboxTillBody. apply wp_bind. eapply wp_mono; [apply (readInboxTillNeedsRequest_ok o); [done|destruct Ht as [?|[? _]]; [by right|by left]]|].
  intros needs w1 (H1 & R1 & _ & Eneeds). apply wp_bind, wp_gets. set (c := chats w1 h) in *.
  assert (needs = false -> t <> 0 -> noted h t w1) as Hread.
  { intros -> Hn. destruct Ht as [Hs|[? _]]; [|done]. rewrite Hs in Eneeds. simpl in Eneeds. symmetry in Eneeds. apply Z.leb_gt in Eneeds. fold c in Eneeds. right. left. fold c.
    pose proof (server_positive t Hs). destruct (inboxReadBefore c) as [b|]; simpl in Eneeds; [by exists b|lia]. }
  assert (forall w', inv o w' -> reading w1 w' -> (t <> 0 -> noted h t w') -> read_ok o h t w w') as Hdone by (intros w' ? ? ?; split; [done|split; [by etrans|done]]).
  destruct (negb needs && negb force) eqn:Enf.
  { apply andb_true_iff in Enf as [->%negb_true_iff _]. apply wp_ret, Hdone; [done|done|auto]. }
  assert (0 < t) as Hpos.
  { destruct Ht as [Hs|[-> ->]]; [by apply server_positive|]. simpl in Eneeds. by subst needs. }
  destruct (trackUnreadMessages c) eqn:Etr; cbn [negb]; [|apply wp_ret, Hdone; [done|done|intros _; by left]].
  apply wp_bind, wp_gets. set (s := state_in w1 h).
  replace (match states w1 !! h with Some s => t <=? sentReadTill s | None => false end) with (t <=? sentReadTill s)
    by (unfold s, state_in; destruct (states w1 !! h); [done|by apply Z.leb_gt]).
  replace (match states w1 !! h with Some s => t <=? willReadTill s | None => false end) with (t <=? willReadTill s)
    by (unfold s, state_in; destruct (states w1 !! h); [done|by apply Z.leb_gt]).
  replace (match states w1 !! h with Some s => willReadTill s =? 0 | None => true end) with (willReadTill s =? 0) by (unfold s, state_in; by destruct (states w1 !! h)).
  assert (forall p : State -> Prop, ~ p State_new -> p s -> exists s', states w1 !! h = Some s' /\ p s') as Hin.
  { intros p Hp Hs. destruct (state_in_cases w1 h) as [(s' & Hs' & E)|[_ E]]; fold s in E; rewrite E in Hs; [by exists s'|done]. }
  pose proof (state_in_good o w1 h H1) as G. fold s in G.
  destruct (Z.leb_spec t (sentReadTill s)) as [Hst|Hst].
  { apply wp_ret, Hdone; [done|done|]. intros _. right. right. destruct (Hin (fun s => t <= sentReadTill s)) as (s' & ? & ?); [simpl; lia|done|]. exists s'. by split; [|left]. }
  destruct (Z.leb_spec t (willReadTill s)) as [Hwt|Hwt].
  { assert (noted h t w1) as N1 by (right; right; destruct (Hin (fun s => t <= willReadTill s)) as (s' & ? & ?); [simpl; lia|done|]; exists s'; by split; [|right]).
    unfold when. destruct force; [|by apply wp_ret, Hdone]. eapply wp_mono; [by apply (sendPendingReadInbox_ok o)|]. intros [] w' [H' R']. apply Hdone; [done|by apply reports_reading|]. intros _. by apply (noted_reports o h t w1). }
  destruct (negb needs && (willReadTill s =? 0)) eqn:Enw.
  { apply andb_true_iff in Enw as [->%negb_true_iff _]. apply wp_ret, Hdone; [done|done|auto]. }
  cbv zeta. destruct (negb force && unreadCountKnown c && bool_decide (countStillUnreadLocal t c = Some (unreadCount c))).
  - eapply (on_chat_ok o); [done|]. destruct (setInboxReadTill_ok t (chats w1 h) (iv_chats _ _ H1 h)) as (C & Gr & b & Hb & Hlt). eexists. split; [done|]. split; [done|]. split; [done|].
    intros H2. apply Hdone; [done|by apply set_chat_reading|]. intros _. right. left. exists b. simpl. by rewrite updated_eq.
  - eapply wp_mono; [apply (readTill_ok o h t); try done|].
    + intros i x t' Hx Hg. destruct (gd_reads _ _ _ _ G i x t' Hx Hg) as (_ & G1 & G2 & G3). destruct (decide (sentReadTill s = 0)) as [E0|E0]; [|specialize (G1 E0); lia].
      destruct needs; [|cbn [negb andb] in Enw; apply Z.eqb_neq in Enw; specialize (G3 Enw); lia]. symmetry in Eneeds. apply andb_true_iff in Eneeds as [_ Eb%Z.leb_le]. fold c in Eb.
      destruct (G2 E0) as (b & Hb & ?). fold c in Hb. rewrite Hb in Eb. simpl in Eb. lia.
    + intros n Hn. by apply still_known in Hn.
    + intros [] w' (H' & R' & N'). by apply Hdone.
Qed.

(** Reading does not fail, and is not forgotten. *)
Lemma readInboxTill_ok (o : Open) (h t : Z) (force : bool) (w : Histories) : inv o w -> o_due o = false -> (Msg.IsServerMsgId t = true \/ t = 0 /\ force = false) ->
  wp (readInboxTill h t force) (fun _ w' => read_ok o h t w w') w.
Proof.
  intros H Hdue Ht. unfold readInboxTill. eapply wp_step; [unfold expect; replace (_ || _) with true; [done|]|].
  { destruct Ht as [->|[-> ->]]; [done|]. by rewrite orb_true_r. }
  apply wp_bind. eapply wp_mono; [by apply (readInboxTillBody_ok o)|]. intros [] w1 (H1 & R1 & N1). unfold syncGuard. eapply (on_chat_ok o); [done|].
  assert (exists c, (if (0 <? unreadCount (chats w1 h)) && match lastServerMessage (chats w1 h) with Some l => itemId l =? t | None => false end
    then setUnreadCount 0 (chats w1 h) else Some (chats w1 h)) = Some c /\ chat_ok c /\ grows (chats w1 h) c) as (c & -> & Hc & Hg).
  { destruct (_ && _) eqn:E; [|exists (chats w1 h); split; [done|split; [apply (iv_chats _ _ H1)|done]]]. apply andb_true_iff in E as [E%Z.ltb_lt _].
    apply setUnreadCount_ok; [apply (iv_chats _ _ H1)|]. apply (co_count _ (iv_chats _ _ H1 h)). unfold unreadCount in E. destruct (unreadCount_ (chats w1 h)); [done|simpl in E; lia]. }
  exists c. split; [done|]. split; [done|]. split; [done|]. intros H2. split; [done|]. split; [etrans; [done|by apply set_chat_reading]|].
  intros Hn. apply (noted_chat h t w1); [done|simpl; by rewrite updated_eq|by apply N1].
Qed.

Lemma first_regular_server (l : list Item) : Forall server_item l -> Msg.IsServerMsgId (first_regular l) = true \/ first_regular l = 0.
Proof.
  intros Hl. unfold first_regular. destruct (filter _ l) as [|x k] eqn:E; [by right|left].
  assert (x ∈ filter (fun x => isRegular x = true) l) as [Hr Hx]%list_elem_of_filter by (rewrite E; left). eapply Forall_forall in Hl; [|done]. by apply Hl.
Qed.

Lemma last_server (c : History) : chat_ok c -> Msg.IsServerMsgId (lastServerId c) = true \/ lastServerId c = 0 /\ false = false.
Proof.
  intros Hc. unfold lastServerId, lastServerMessage. pose proof (co_last _ Hc) as Hl. destruct (lastServerMessage_ c) as [[i|]|]; simpl; [left; by apply Hl|by right|by right].
Qed.

Lemma readInbox_ok (o : Open) (h : Z) (w : Histories) : inv o w -> o_due o = false -> wp (readInbox h) (fun _ w' => inv o w') w.
Proof.
  intros H Hdue. unfold readInbox. apply wp_bind, wp_gets. pose proof (iv_chats _ _ H h) as Hc. assert (forall t, Msg.IsServerMsgId t = true \/ t = 0 -> wp (readInboxTill h t false) (fun _ w' => inv o w') w) as Ht.
  { intros t Ht. eapply wp_mono; [apply (readInboxTill_ok o); [done|done|tauto]|]. by intros [] w' []. }
  destruct (lastServerMessageKnown _); [apply Ht; destruct (last_server _ Hc) as [?|[? _]]; tauto|].
  destruct (_ && _); [|destruct (_ && _); [apply Ht; by right|eapply wp_mono; [by apply (requestDialogEntry_ok o)|]; by intros [] w' []]].
  apply Ht. apply first_regular_server. apply Forall_forall. intros x Hx%list_elem_of_In%in_rev%list_elem_of_In. apply list_elem_of_In, in_concat in Hx as (b & Hb%list_elem_of_In & Hx%list_elem_of_In).
  pose proof (co_items _ Hc) as Hi. eapply Forall_forall in Hi; [|exact Hb]. by eapply Forall_forall in Hi.
Qed.
