(* ===== verification/HistoriesApply.v ===== *)
(** * Chats: entries that came

    What waits for the entry of a chat is called when it comes, and what was
    read is put down; nothing that waits is left without a request. *)

From S2P Require Import Prelude Ids StateMonad ChatReading ChatFacts Histories HistoriesFacts HistoriesSend HistoriesFinish HistoriesRead.

Definition applying (h : Z) (o : Open) : Open := mk_open (o_finish o) (o_reading o) (h :: o_applied o) (o_due o) (o_dropped o).

Lemma applying_inv (o : Open) (w : Histories) (h : Z) : inv o w -> inv (applying h o) w.
Proof.
  intros H. split; try apply H.
  - intros k s Hk. pose proof (iv_states _ _ H k s Hk) as G. split; try apply G. intros Hr Hn. destruct (gd_reading _ _ _ _ G Hr Hn) as [?|[? [?|?]]]; [by left|right..]; (split; [done|]); [by left|right; by right].
  - intros k Hk. destruct (iv_asked _ _ H k Hk) as [?|[?|?]]; [by left|right; left; by right|by right; right].
Qed.

Lemma done_applying (o : Open) (w : Histories) (h : Z) : inv (applying h o) w -> (is_Some (dialogRequests w !! h) -> flagged w h) ->
  (forall s, states w !! h = Some s -> h ∉ o_reading o -> sentReadTill s <> 0 -> sentReadDone s = true -> requested w h) -> inv o w.
Proof.
  intros H Hf Hr. split; try apply H.
  - intros k s Hk. pose proof (iv_states _ _ H k s Hk) as G. split; try apply G. intros Hr' Hn. destruct (gd_reading _ _ _ _ G Hr' Hn) as [?|[Hd [?|Hin]]]; [by left|right..]; (split; [done|]); [by left|].
    simpl in Hin. apply elem_of_cons in Hin as [->|?]; [left; by apply (Hr s)|by right].
  - intros k Hk. destruct (iv_asked _ _ H k Hk) as [?|[Hin|?]]; [by left| |by right; right]. simpl in Hin. apply elem_of_cons in Hin as [->|?]; [left; by apply Hf|right; by left].
Qed.

Lemma flagged_done (o : Open) (w : Histories) (h : Z) : inv (applying h o) w -> flagged w h -> inv o w.
Proof.
  intros H Hf. apply (done_applying o w h H); [done|]. intros s Hs _ _ _. left. destruct Hf as (s0 & Hs0 & Ef). by apply (gd_flag _ _ _ _ (iv_states _ _ H h s0 Hs0)).
Qed.

(** What waits is taken. *)
Lemma take_pending (o : Open) (w : Histories) (h : Z) : h ∈ o_applied o -> inv o w -> inv o (set_pending (delete h (dialogRequestsPending w)) w).
Proof.
  intros Hh H. split; simpl; try apply H.
  - intros k s Hk. pose proof (iv_states _ _ H k s Hk) as G. destruct (decide (k = h)) as [->|Hne].
    + destruct G as [G1 G2 G3 G4 G5 G6 G7 G8 G9 G10 G11 G12 G13 G14 G15 G16]. split; try done. intros Hr Hn. destruct (G13 Hr Hn) as [?|[? _]]; [by left|right]. split; [done|by right].
    + apply (good_kept o w); [|done]. split; simpl; try done; [intros b Hb; by exists b|]. unfold requested. simpl. by rewrite lookup_delete_ne.
  - intros k Hk. apply lookup_delete_None. right. by apply (iv_apart _ _ H).
  - intros Hn. apply (iv_posted _ _ H). intros E. by rewrite E, delete_empty in Hn.
Qed.

Lemma take_asked (o : Open) (w : Histories) (h : Z) : h ∈ o_applied o -> ~ flagged w h -> inv o w -> inv o (set_dialogs (delete h (dialogRequests w)) w).
Proof.
  intros Hh Hf H. assert (forall k, is_Some (delete h (dialogRequests w) !! k) -> k <> h /\ is_Some (dialogRequests w !! k)) as Hd.
  { intros k [l [Hne Hl]%lookup_delete_Some]. split; [done|by eexists]. }
  split; simpl; try apply H.
  - intros k s Hk. pose proof (iv_states _ _ H k s Hk) as G. destruct (decide (k = h)) as [->|Hne].
    + destruct G as [G1 G2 G3 G4 G5 G6 G7 G8 G9 G10 G11 G12 G13 G14 G15 G16]. split; try done; [|intros Ef; destruct Hf; by exists s].
      intros Hr Hn. destruct (G13 Hr Hn) as [?|[? _]]; [by left|right]. split; [done|by right].
    + apply (good_kept o w); [|done]. split; simpl; try done; [intros b Hb; by exists b| |by rewrite lookup_delete_ne]. unfold requested. simpl. by rewrite lookup_delete_ne.
  - intros k [_ Hk]%Hd. by apply (iv_apart _ _ H).
  - intros k [_ Hk]%Hd. by apply (iv_asked _ _ H).
Qed.

(** What nothing here depends on. *)
Lemma same_inv (o : Open) (w w' : Histories) : rest w' = rest w -> states w' = states w -> books w' = books w -> api w' = api w -> lastRequest w' = lastRequest w -> inv o w -> inv o w'.
Proof.
  intros R S [= B1 B2] A L H. destruct (rest_fields _ _ R) as (R1 & R2 & R3 & R4 & R5 & R6 & R7).
  assert (forall k i, tracked w' k i <-> tracked w k i) as Ht by (intros k i; unfold tracked; by rewrite S).
  split; rewrite ?R1, ?R2, ?R3, ?R4, ?R5, ?R6, ?R7, ?S, ?B1, ?B2, ?A, ?L; try apply H.
  - intros i k Hk. rewrite Ht. by apply (iv_by _ _ H).
  - intros i k. rewrite Ht. apply (iv_ids _ _ H).
  - intros i k k'. rewrite !Ht. apply (iv_one _ _ H).
  - intros k s Hk. apply (good_kept o w); [|by apply (iv_states _ _ H)]. split; rewrite ?R1, ?R3, ?R6, ?A, ?L; try done; [intros b Hb; by exists b|]. unfold requested. by rewrite R3, R4.
  - intros k i Hk. destruct (iv_finish _ _ H k i Hk) as (? & Hone & ?). split; [done|]. split; [|done]. intros j. rewrite Ht. apply Hone.
  - intros k Hk. destruct (iv_asked _ _ H k Hk) as [(s & Hs & ?)|[?|(r & l & Hr & ?)]]; [left; exists s; by rewrite S|right; by left|right; right; exists r, l; by rewrite A].
Qed.

(** ** What waits is called *)

Definition known (c : History) : Prop := lastMessageKnown c = true /\ lastServerMessageKnown c = true.

Lemma known_grows (c c' : History) : grows c c' -> known c -> known c'.
Proof. unfold known, lastMessageKnown, lastServerMessageKnown. rewrite !bool_decide_eq_true. intros G [? ?]. split; by apply (gr_known _ _ G). Qed.

Lemma callback_ok (o : Open) (h : Z) (c : Callback) (w : Histories) : inv o w -> o_due o = false -> known (chats w h) -> wp (callback h c) (fun _ w' => inv o w' /\ reading w w') w.
Proof.
  intros H Hdue [K1 K2]. destruct c as [| |what]; cbn [callback].
  - apply wp_bind, wp_gets. eapply wp_step; [unfold expect; by rewrite K2|]. eapply wp_mono; [apply (readInboxTill_ok o); [done|done|]|].
    + destruct (last_server _ (iv_chats _ _ H h)) as [?|[? _]]; tauto.
    + by intros [] w' (? & ? & _).
  - unfold requestChatListMessage. apply wp_bind, wp_gets. rewrite K1. by apply wp_ret.
  - apply wp_modify. split; [by apply (same_inv o w)|]. split; [done|]. intros k. done.
Qed.

Lemma callbacks_ok (o : Open) (h : Z) (l : list Callback) (w : Histories) : inv o w -> o_due o = false -> known (chats w h) -> wp (each (callback h) l) (fun _ w' => inv o w' /\ reading w w') w.
Proof.
  intros H Hdue K. apply (wp_each (fun w' => inv o w' /\ reading w w')); [|by split]. intros c w1 _ [H1 R1]. eapply wp_mono; [apply (callback_ok o); [done|done|]|].
  - by apply (known_grows (chats w h)); [apply R1|].
  - intros [] w2 [H2 R2]. split; [done|by etrans].
Qed.

(** ** A request that nobody knows *)

Lemma late_inv (o : Open) (w : Histories) (h id : Z) : inv o w -> o_finish o = None -> id <= requestAutoincrement w -> historyByRequest w !! id = None ->
  inv (mk_open (Some (h, id)) (o_reading o) (o_applied o) (o_due o) (o_dropped o)) w.
Proof.
  intros H Ho Hle Hb. assert (forall k, ~ tracked w k id) as Hno by (intros k Hk; apply (iv_by _ _ H) in Hk; [congruence|by rewrite Ho]).
  split; try apply H.
  - intros i k _. apply (iv_by _ _ H). by rewrite Ho.
  - intros k s Hk. pose proof (iv_states _ _ H k s Hk) as G. assert (forall i x, (h, id) = (k, i) -> sent s !! i = Some x -> False) as Hnot.
    { intros i x [= <- <-] Hx. apply (Hno h). exists s. split; [done|left; by eexists]. }
    split; try apply G; simpl.
    + intros i x Hx. destruct (gd_asked _ _ _ _ G i x Hx) as [E|?]; [by rewrite Ho in E|by right].
    + intros _. apply (gd_deleting _ _ _ _ G). by rewrite Ho.
    + intros i [= <- <-]. apply eq_None_not_Some. intros Hp. apply (Hno h). exists s. split; [done|by right].
    + intros i x _ [= <- <-] Hx. by destruct (Hnot id x eq_refl Hx).
    + intros _. apply (gd_held _ _ _ _ G). by rewrite Ho.
  - intros k s Hk _. apply (iv_filled _ _ H k s Hk). by rewrite Ho.
  - intros k i [= <- <-]. split; [done|]. split; [by intros k ?%Hno|]. by rewrite Hb.
Qed.

(** ** The entry of a chat *)

Lemma read_settled (o : Open) (w : Histories) (h : Z) (s : State) : inv (applying h o) w -> o_finish o = None -> o_due o = false -> h ∉ o_reading o -> dialogRequests w !! h = None ->
  states w !! h = Some s -> sentReadTill s <> 0 ->
  wp (on_state h (set_sentReadTill 0) ;;; on_chat h (fun c => Some (setInboxReadTill (sentReadTill s) c)) ;;; checkEmptyState h) (fun _ w' => inv o w') w.
Proof.
  intros H Ho Hdue Hr Hd Hs Hn. eapply wp_step; [exact (on_state_is h _ s w Hs)|]. set (s1 := set_sentReadTill 0 s).
  destruct (setInboxReadTill_ok (sentReadTill s) (chats w h) (iv_chats _ _ H h)) as (Cc & Cg & b & Hb & Hlt). set (c := setInboxReadTill _ _) in *.
  set (o0 := mk_open (Some (h, 0)) (o_reading o) (o_applied o) (o_due o) (o_dropped o)). assert (requestAutoincrement w >= 0) as Hcount by (pose proof (iv_count _ _ H); lia).
  assert (historyByRequest w !! 0 = None) as Hb0.
  { destruct (historyByRequest w !! 0) as [k|] eqn:E; [|done]. destruct (iv_ids _ _ H 0 k); [by left|lia]. }
  assert (inv (applying h o0) w) as H0 by (apply (late_inv (applying h o) w h 0); [done|done|lia|done]).
  assert (inv (applying h o0) (set_chat h c w)) as H1 by (apply set_chat_inv; [done|done|apply Cg]).
  set (w2 := set_state h s1 (set_chat h c w)). pose proof (iv_states _ _ H h s Hs) as Gs.
  assert (inv (applying h o0) w2) as H2.
  { apply (set_state_inv _ _ _ s); try done.
    - pose proof (iv_states _ _ H1 h s Hs) as G. destruct G as [G1 G2 G3 G4 G5 G6 G7 G8 G9 G10 G11 G12 G13 G14 G15 G16]. split; try done.
      + intros i x t Hx Hg. destruct (G10 i x t Hx Hg) as (? & Hle & _ & ?). split; [done|]. split; [done|]. split; [|done]. intros _. simpl. rewrite updated_eq. exists b. split; [done|]. specialize (Hle Hn). lia.
      + simpl. destruct G11 as (? & ? & ?). split; [done|]. split; [done|]. intros Hw. lia.
      + intros i x _ [= <-] Hx. destruct (iv_ids _ _ H 0 h); [right; exists s; split; [done|left; by eexists]|lia].
    - intros Hdue'. by apply (iv_due _ _ H Hdue' h s). }
  assert (inv o0 w2) as H3.
  { apply (done_applying o0 w2 h H2); [simpl; rewrite Hd; by intros []|]. simpl. intros s' Hs' _ Hn'. rewrite lookup_insert_eq in Hs'. injection Hs' as <-. done. }
  apply wp_bind. unfold wp, on_chat. simpl. change (wp (checkEmptyState h) (fun _ w' => inv o w') w2).
  assert (settled o0 = o) as Eo by (destruct o; simpl in *; by subst).
  eapply wp_mono; [apply (close_ok o0 h 0 eq_refl w2 w2 s1); [done|]|intros [] w' H'; by rewrite <- Eo]. split; [split; [done|simpl; by rewrite lookup_insert_eq| |simpl; by rewrite Hb0]| |].
  - simpl. apply eq_None_not_Some. intros Hx. destruct (iv_ids _ _ H 0 h); [right; exists s; split; [done|by left]|lia].
  - apply (gd_deleting _ _ _ _ Gs). simpl. by rewrite Ho.
  - apply (gd_held _ _ _ _ Gs). simpl. by rewrite Ho.
Qed.

(** What waits before a request was sent is called. *)
Lemma pending_called (o : Open) (h : Z) (w : Histories) : h ∈ o_applied o -> o_due o = false -> inv o w -> ~ flagged w h -> known (chats w h) ->
  wp (modify (set_pending (delete h (dialogRequestsPending w))) ;;; each (callback h) (default [] (dialogRequestsPending w !! h)))
    (fun _ w' => inv o w' /\ ~ flagged w' h /\ known (chats w' h) /\ dialogRequestsPending w' !! h = None) w.
Proof.
  intros Hh Hdue H Hnf K. apply wp_bind, wp_modify. set (w1 := set_pending _ w). assert (inv o w1) as H1 by by apply take_pending.
  assert (dialogRequestsPending w1 !! h = None) as Hp1 by (simpl; apply lookup_delete_eq). destruct (dialogRequestsPending w !! h) as [l|] eqn:Ep.
  - assert (dialogRequests w1 !! h = None) as Hd by (apply eq_None_not_Some; intros Hd%(iv_apart _ _ H); congruence).
    eapply wp_mono; [by apply (callbacks_ok o)|]. intros [] w2 [H2 [[R1 R2] R3]]. split; [done|]. split; [|split; [by apply (known_grows (chats w1 h))|by rewrite R2]].
    intros (s & Hs & Hf). apply (gd_flag _ _ _ _ (iv_states _ _ H2 h s Hs)) in Hf. rewrite R1, Hd in Hf. by destruct Hf.
  - by apply wp_ret.
Qed.

Lemma asked_called (o : Open) (h : Z) (w : Histories) : h ∈ o_applied o -> o_due o = false -> inv o w -> ~ flagged w h -> known (chats w h) -> dialogRequestsPending w !! h = None ->
  wp (modify (set_dialogs (delete h (dialogRequests w))) ;;; each (callback h) (default [] (dialogRequests w !! h)))
    (fun _ w' => inv o w' /\ dialogRequests w' !! h = None /\ dialogRequestsPending w' !! h = None) w.
Proof.
  intros Hh Hdue H Hnf K Hp. apply wp_bind, wp_modify. set (w1 := set_dialogs _ w). assert (inv o w1) as H1 by by apply take_asked.
  eapply wp_mono; [by apply (callbacks_ok o)|]. intros [] w2 [H2 [[-> ->] _]]. split; [done|]. split; [|done]. apply lookup_delete_eq.
Qed.

(** Reading that was confirmed needs the entry no more. *)
Lemma settle_reading (o : Open) (h : Z) (w : Histories) : inv (applying h o) w -> o_finish o = None -> o_due o = false -> h ∉ o_reading o ->
  dialogRequests w !! h = None -> dialogRequestsPending w !! h = None ->
  wp (s <- lookup_state h ;;
      match s with
      | Some s => when (negb (sentReadTill s =? 0) && sentReadDone s) (
          on_state h (set_sentReadTill 0) ;;; on_chat h (fun c => Some (setInboxReadTill (sentReadTill s) c)) ;;; checkEmptyState h)
      | None => ret tt
      end) (fun _ w' => inv o w') w.
Proof.
  intros H Ho Hdue Hr Hd Hp. apply wp_bind, wp_gets. destruct (states w !! h) as [s|] eqn:Es.
  - unfold when. destruct (negb (sentReadTill s =? 0) && sentReadDone s) eqn:E.
    + apply andb_true_iff in E as [E%negb_true_iff _]. apply read_settled; try done. by apply Z.eqb_neq.
    + apply wp_ret, (done_applying o w h H); [rewrite Hd; by intros []|]. intros s0 Hs0 _ Hn Hdone. assert (s0 = s) as -> by congruence.
      rewrite Hdone, andb_true_r in E. apply negb_false_iff, Z.eqb_eq in E. done.
  - apply wp_ret, (done_applying o w h H); [rewrite Hd; by intros []|]. intros s Hs. congruence.
Qed.

Lemma flag_is (w : Histories) (h : Z) : match states w !! h with Some s => postponedRequestEntry s | None => false end = true <-> flagged w h.
Proof.
  unfold flagged. destruct (states w !! h) as [s|]; [|split; [done|by intros (? & ? & _)]]. split; [intros Ef; by exists s|by intros (s0 & [= <-] & ?)].
Qed.

Lemma dialogEntryApplied_ok (o : Open) (h : Z) (w : Histories) : inv (applying h o) w -> o_finish o = None -> o_due o = false -> h ∉ o_reading o ->
  wp (dialogEntryApplied h) (fun _ w' => inv o w') w.
Proof.
  intros H Ho Hdue Hr. unfold dialogEntryApplied. apply wp_bind, wp_gets. pose proof (flag_is w h) as Hfl.
  destruct (match states w !! h with Some s => postponedRequestEntry s | None => false end); [apply wp_ret, (flagged_done o w h H); by apply Hfl|].
  assert (~ flagged w h) as Hnf by (intros Hf%Hfl; done). clear Hfl. apply wp_bind. eapply (on_chat_ok (applying h o)); [done|].
  destruct (entryApplied_ok (chats w h) (iv_chats _ _ H h)) as (Cc & Cg & Ck). eexists. split; [done|]. split; [done|]. split; [done|]. set (w1 := set_chat _ _ w). intros H1.
  assert (h ∈ o_applied (applying h o)) as Hin by left. apply wp_bind, wp_gets. change (Datatypes.id w1) with w1. apply wp_assoc, wp_bind.
  eapply wp_mono; [apply (pending_called (applying h o)); try done; simpl; by rewrite updated_eq|]. intros [] w2 (H2 & Hnf2 & K2 & P2).
  apply wp_bind, wp_gets. change (Datatypes.id w2) with w2. apply wp_assoc, wp_bind. eapply wp_mono; [by apply (asked_called (applying h o))|].
  intros [] w3 (H3 & D3 & P3). by apply settle_reading.
Qed.

(** ** Entries that came *)

Lemma applyPeerDialogs_ok (o : Open) (l : list (Z * Dialog)) (w : Histories) : inv o w -> o_finish o = None -> o_due o = false -> o_reading o = [] -> Forall (fun x => dialog_ok x.2) l ->
  wp (applyPeerDialogs l) (fun _ w' => inv o w') w.
Proof.
  intros H Ho Hdue Hr Hl. unfold applyPeerDialogs. apply (wp_each (inv o)); [|done]. intros [h d] w1 Hin H1. eapply Forall_forall in Hl; [|done]. simpl in *.
  apply wp_bind. eapply (on_chat_ok o); [done|]. destruct (applyDialog_ok d (chats w1 h) Hl (iv_chats _ _ H1 h)) as (c & Hc & Cc & Cg). exists c. split; [done|]. split; [done|]. split; [done|].
  intros H2. apply dialogEntryApplied_ok; [by apply applying_inv|done|done|]. rewrite Hr. by apply not_elem_of_nil.
Qed.

(** All the chats of the request are done with. *)
Lemma finalize_ok (l applied : list Z) (D : gset Z) (w : Histories) : inv (mk_open None [] (l ++ applied) false D) w -> wp (finalize l) (fun _ w' => inv (mk_open None [] applied false D) w') w.
Proof.
  revert w. induction l as [|h l IH]; intros w H; [by apply wp_ret|]. unfold finalize. cbn [each]. apply wp_bind.
  set (o := mk_open None [] (l ++ applied) false D). change (inv (applying h o) w) in H. apply (wp_mono _ (fun _ w' => inv o w')); [|by intros [] w'; apply IH].
  apply wp_bind, wp_gets. pose proof (flag_is w h) as Hfl. destruct (match states w !! h with Some s => postponedRequestEntry s | None => false end).
  - apply wp_ret, (flagged_done o w h H). by apply Hfl.
  - apply dialogEntryApplied_ok; try done. by apply not_elem_of_nil.
Qed.
