(* ===== verification/HistoriesEntries.v ===== *)
(** * Chats: entries are asked for

    The entries that wait are asked for in one request; a chat with a request
    under way that may change its entry is marked, and asked for later. *)

From S2P Require Import Prelude Ids StateMonad ChatReading ChatFacts Histories HistoriesFacts HistoriesSend HistoriesFinish HistoriesRead HistoriesApply.

(** What is asked for, as soon as the request is sent. *)
Definition asking (w : Histories) : Histories := set_pending ∅ (set_dialogs (dialogRequests w ∪ dialogRequestsPending w) w).

Lemma asking_requested (w : Histories) (h : Z) : is_Some (dialogRequests (asking w) !! h) <-> requested w h.
Proof. unfold asking, requested, is_Some. simpl. setoid_rewrite lookup_union_is_Some. done. Qed.

Definition apply_all (l : list Z) (o : Open) : Open := mk_open (o_finish o) (o_reading o) (l ++ o_applied o) (o_due o) (o_dropped o).

Lemma asking_inv (o : Open) (w : Histories) : inv o w -> inv (apply_all (sorted_keys (dialogRequestsPending w)) o) (asking w).
Proof.
  intros H. assert (forall k, requested (asking w) k <-> requested w k) as Hr.
  { intros k. unfold requested at 1. rewrite asking_requested. split; [intros [?|Hp]; [done|]|by left]. simpl in Hp. rewrite lookup_empty in Hp. by destruct Hp. }
  split; try apply H.
  - intros k s Hk. pose proof (iv_states _ _ H k s Hk) as G. destruct G as [G1 G2 G3 G4 G5 G6 G7 G8 G9 G10 G11 G12 G13 G14 G15 G16]. split; try done.
    + intros Hn1 Hn2. destruct (G13 Hn1 Hn2) as [?|[? [Hq|Hq]]]; [by left|right; (split; [done|]); left; by apply Hr|right; (split; [done|]); right]. simpl. apply elem_of_app. by right.
    + intros Hf. apply asking_requested. left. by apply G15.
  - done.
  - done.
  - intros k [Hk|Hk]%asking_requested.
    + destruct (iv_asked _ _ H k Hk) as [?|[?|?]]; [by left|right; left; simpl; apply elem_of_app; by right|by right; right].
    + right. left. simpl. apply elem_of_app. left. by apply elem_of_sorted_keys.
Qed.

(** A chat is marked. *)
Lemma flag_inv (o : Open) (w : Histories) (h : Z) (s : State) : inv o w -> states w !! h = Some s -> is_Some (dialogRequests w !! h) -> postponeEntryRequest s = true ->
  inv o (set_state h (set_postponedRequestEntry true s) w).
Proof.
  intros H Hs Hd Hp. pose proof (iv_states _ _ H h s Hs) as G. apply (set_state_inv _ _ _ s); try done.
  - destruct G as [G1 G2 G3 G4 G5 G6 G7 G8 G9 G10 G11 G12 G13 G14 G15 G16]. split; done.
  - intros _ _. apply not_empty. right. right. by left.
  - intros Hdue. by apply (iv_due _ _ H Hdue h s).
Qed.

(** Choosing looks at the states of chats only. *)
Lemma choose_asking (l : list Z) (w : Histories) (d p : gmap Z (list Callback)) :
  chooseHistories l (set_pending p (set_dialogs d w)) = '(r, w') ← chooseHistories l w; Some (r, set_pending p (set_dialogs d w')).
Proof.
  revert w. induction l as [|h l IH]; intros w; [done|]. cbn [chooseHistories]. unfold bind, lookup_state, StateMonad.gets, on_state.
  change (states (set_pending p (set_dialogs d w))) with (states w). destruct (match states w !! h with Some s => postponeEntryRequest s | None => false end).
  - change (states (set_pending p (set_dialogs d w))) with (states w). destruct (states w !! h) as [s|]; [|done]. exact (IH (set_state h (set_postponedRequestEntry true s) w)).
  - rewrite IH. by destruct (chooseHistories l w) as [[r w']|].
Qed.

Lemma choose_dialogs (l : list Z) (w : Histories) (r : list Z) (w1 : Histories) : chooseHistories l w = Some (r, w1) ->
  dialogRequests w1 = dialogRequests w /\ dialogRequestsPending w1 = dialogRequestsPending w.
Proof.
  revert w r w1. induction l as [|h k IH]; intros w r w1; cbn [chooseHistories]; [by intros [= _ <-]|]. unfold bind, lookup_state, StateMonad.gets, on_state.
  destruct (match states w !! h with Some s => postponeEntryRequest s | None => false end); [destruct (states w !! h); [|done]; exact (IH _ r w1)|].
  destruct (chooseHistories k w) as [[r' w']|] eqn:E; [|done]. intros [= _ <-]. by eapply IH.
Qed.

(** Of the chats to ask for, those that are not asked for are marked. *)
Lemma chooseHistories_ok (o : Open) (l : list Z) (w : Histories) : inv o w -> (forall h, h ∈ l -> is_Some (dialogRequests w !! h)) ->
  wp (chooseHistories l) (fun r w' => inv o w' /\ rest w' = rest w /\ (forall h, flagged w h -> flagged w' h) /\ forall h, h ∈ l -> h ∈ r \/ flagged w' h) w.
Proof.
  revert w. induction l as [|h l IH]; intros w H Hl.
  { apply wp_ret. split; [done|]. split; [done|]. split; [done|]. by intros h ?%not_elem_of_nil. }
  cbn [chooseHistories]. apply wp_bind, wp_gets. destruct (match states w !! h with Some s => postponeEntryRequest s | None => false end) eqn:E.
  - destruct (states w !! h) as [s|] eqn:Es; [|done]. eapply wp_step; [exact (on_state_is h _ s w Es)|].
    assert (inv o (set_state h (set_postponedRequestEntry true s) w)) as H1 by (apply flag_inv; [done|done|apply Hl; left|done]).
    set (w1 := set_state _ _ w) in *. assert (flagged w1 h) as Hf by (eexists; split; [simpl; by rewrite lookup_insert_eq|done]).
    assert (forall k, flagged w k -> flagged w1 k) as Hmono.
    { intros k (s0 & Hk & Hf0). destruct (decide (k = h)) as [->|Hne]; [done|]. exists s0. split; [|done]. simpl. by rewrite lookup_insert_ne. }
    eapply wp_mono; [apply (IH w1 H1); intros k Hk; apply Hl; by right|]. intros r w' (H' & R' & M' & A'). split; [done|]. split; [done|]. split; [auto|].
    intros k [->|Hk]%elem_of_cons; [right; by apply M'|by apply A'].
  - apply wp_bind. eapply wp_mono; [apply (IH w H); intros k Hk; apply Hl; by right|]. intros r w' (H' & R' & M' & A'). apply wp_ret. split; [done|]. split; [done|]. split; [done|].
    intros k [->|Hk]%elem_of_cons; [left; left|]. destruct (A' k Hk) as [?|?]; [left; by right|by right].
Qed.

(** All that waits is asked for, or marked. *)
Lemma asked_all (o : Open) (l : list Z) (w : Histories) : inv (apply_all l o) w -> (forall h, h ∈ l -> is_Some (dialogRequests w !! h) /\ (flagged w h \/ entry_asked w h)) -> inv o w.
Proof.
  intros H Hl. split; try apply H.
  - intros k s Hk. pose proof (iv_states _ _ H k s Hk) as G. split; try apply G. intros Hn1 Hn2. destruct (gd_reading _ _ _ _ G Hn1 Hn2) as [?|[? [Hq|Hq]]]; [by left|right; by split; [|left]|right; split; [done|]].
    simpl in Hq. apply elem_of_app in Hq as [Hq|?]; [left; left; by apply Hl|by right].
  - intros k Hk. destruct (iv_asked _ _ H k Hk) as [?|[Hq|?]]; [by left| |by right; right]. simpl in Hq. apply elem_of_app in Hq as [Hq|?]; [|right; by left].
    destruct (Hl k Hq) as [_ [?|?]]; [by left|by right; right].
Qed.

Lemma posted_inv (o : Open) (w : Histories) (n : nat) : dialogRequestsPending w = ∅ -> inv o w -> inv o (set_posted n w).
Proof.
  intros Hp H. split; try apply H; [|done]. intros k s Hk. apply (good_kept o w); [|by apply (iv_states _ _ H)]. split; try done. intros b Hb. by exists b.
Qed.

(** A call that was left for later has come. *)
Lemma sendDialogRequests_ok (o : Open) (w0 : Histories) (n : nat) : inv o w0 -> wp sendDialogRequests (fun _ w' => inv o w') (set_posted n w0).
Proof.
  intros H0. set (w := set_posted n w0). unfold sendDialogRequests. apply wp_bind, wp_gets. change (Datatypes.id w) with w. case_bool_decide as Ee; [by apply wp_ret, posted_inv|].
  set (l := sorted_keys (dialogRequestsPending w)). pose proof (posted_inv _ (asking w0) n eq_refl (asking_inv o w0 H0)) as H1. change (inv (apply_all l o) (asking w)) in H1. clearbody w.
  assert (forall h, h ∈ l -> is_Some (dialogRequests (asking w) !! h)) as Hd by (intros h Hh; apply asking_requested; right; by apply elem_of_sorted_keys).
  pose proof (chooseHistories_ok _ l (asking w) H1 Hd) as Hc. unfold asking in Hc. unfold wp in Hc. rewrite choose_asking in Hc. unfold bind at 1, wp.
  pose proof (choose_dialogs l w) as Hsame.
  destruct (chooseHistories l w) as [[r w1]|]; [|done]. destruct (Hsame r w1 eq_refl) as [D1 D2]. simpl in Hc. destruct Hc as (H2 & R2 & _ & A2).
  unfold bind at 1, modify. rewrite <- D1, <- D2 in H2, R2, A2. set (w2 := set_pending ∅ (set_dialogs (dialogRequests w1 ∪ dialogRequestsPending w1) w1)) in *.
  destruct (send_other _ (PeerDialogs r) w2 H2) as (rid & w3 & E & H3 & R3 & S3 & Ha & _); [done|]. unfold bind. rewrite E. unfold ret.
  apply (asked_all o l w3 H3). destruct (rest_fields _ _ R2) as (_ & _ & F2 & _), (rest_fields _ _ R3) as (_ & _ & F3 & _). intros h Hh. split; [rewrite F3, F2; simpl; rewrite D1, D2; by apply Hd|].
  destruct (A2 h Hh) as [Hr|(s & Hs & Hf)]; [right; by exists rid, r|left]. exists s. by rewrite S3.
Qed.

Lemma requestFolderEntry_ok (o : Open) (folder : Z) (w : Histories) : inv o w -> wp (requestFolderEntry folder) (fun _ w' => inv o w') w.
Proof.
  intros H. unfold requestFolderEntry. apply wp_bind, wp_gets. case_bool_decide; [by apply wp_ret|]. apply wp_bind, wp_modify. set (w1 := set_folders _ w).
  assert (inv o w1) as H1 by by apply (same_inv o w).
  destruct (send_other o (FolderDialogs folder) w1 H1) as (rid & w2 & E & H2 & _); [done|]. eapply wp_step; [exact E|]. by apply wp_ret.
Qed.
