(* ===== verification/HistoriesAnswers.v ===== *)
(** * Chats: requests are answered or cancelled

    Every answer of the server finishes its request, but for the deletion of a
    channel, whose answer finishes nothing. *)

From S2P Require Import Prelude Ids StateMonad ChatReading ChatFacts Histories HistoriesFacts HistoriesSend HistoriesFinish HistoriesRead HistoriesApply HistoriesEntries.

Definition finishing (h id : Z) (o : Open) : Open := mk_open (Some (h, id)) (o_reading o) (o_applied o) (o_due o) (o_dropped o).

Lemma finishing_settled (h id : Z) (o : Open) : o_finish o = None -> settled (finishing h id o) = o.
Proof. destruct o. simpl. by intros ->. Qed.

(** ** An answer comes *)

Lemma dropped_api (w : Histories) (rid r : Z) (a : Asked) : api (set_api (delete rid (api w)) w) !! r = Some a -> api w !! r = Some a.
Proof. simpl. by intros [_ ?]%lookup_delete_Some. Qed.

(** What another part asked for. *)
Lemma drop_other (o : Open) (w : Histories) (rid : Z) (a : Asked) (l : list Z) : inv o w -> api w !! rid = Some a -> (forall h id g m, a <> Generated h id g m) ->
  (forall k h, a = PeerDialogs k -> h ∈ k -> h ∈ l) -> inv (apply_all l o) (set_api (delete rid (api w)) w).
Proof.
  intros H Ha Hg Hl. split; simpl; try apply H.
  - intros r b [_ Hb]%lookup_delete_Some. by apply (iv_api _ _ H).
  - intros k s Hk. pose proof (iv_states _ _ H k s Hk) as G. destruct G as [G1 G2 G3 G4 G5 G6 G7 G8 G9 G10 G11 G12 G13 G14 G15 G16]. split; try done.
    + intros i x b Hx Hb%dropped_api. by apply G4.
    + intros i x Hx. destruct (G5 i x Hx) as [?|[?|[b Hb]]]; [by left|right; by left|right; right]. exists b. apply lookup_delete_Some. split; [|done]. intros E.
      destruct (G4 i x b Hx Hb) as [m ->]. rewrite <- E, Ha in Hb. injection Hb as ->. by eapply Hg.
    + intros Hn1 Hn2. destruct (G13 Hn1 Hn2) as [?|[? [?|?]]]; [by left|right; by split; [|left]|right; split; [done|right]]. simpl. apply elem_of_app. by right.
  - intros k Hk. destruct (iv_asked _ _ H k Hk) as [?|[?|(r & j & Hr & Hj)]]; [by left|right; left; apply elem_of_app; by right|]. right. destruct (decide (r = rid)) as [->|Hne].
    + left. apply elem_of_app. left. apply (Hl j); congruence.
    + right. exists r, j. split; [|done]. simpl. by rewrite lookup_delete_ne.
Qed.

Lemma apply_none (o : Open) : apply_all [] o = o.
Proof. by destruct o. Qed.

(** A request of a chat is being finished. *)
Lemma answer_opens (o : Open) (w : Histories) (rid h id : Z) (g : Generator) (m : DeleteMethod) : inv o w -> o_finish o = None -> api w !! rid = Some (Generated h id g m) ->
  inv (opening h (finishing h id o)) (set_api (delete rid (api w)) w)
  /\ exists s x, states w !! h = Some s /\ sent s !! id = Some x /\ generator x = g.
Proof.
  intros H Ho Ha. destruct (iv_api _ _ H rid _ Ha) as [_ Hg]. destruct (Hg h id g m eq_refl) as (s0 & x0 & Hs0 & Hx0 & Hg0 & Hr0). clear Hg. split; [|by exists s0, x0].
  assert (tracked w h id) as Ht by (exists s0; split; [done|left; by eexists]). split; simpl; try apply H.
  - intros i k _. apply (iv_by _ _ H). by rewrite Ho.
  - intros r b [_ Hb]%lookup_delete_Some. by apply (iv_api _ _ H).
  - intros k s Hk. pose proof (iv_states _ _ H k s Hk) as G. split; try apply G; simpl.
    + intros i x b Hx [_ Hb]%lookup_delete_Some. by eapply gd_own.
    + intros i x Hx. destruct (gd_asked _ _ _ _ G i x Hx) as [Hf|[?|[b Hb]]]; [by rewrite Ho in Hf|right; by left|]. destruct (decide (sentId x = rid)) as [E|Hne].
      * left. destruct (gd_own _ _ _ _ G i x b Hx Hb) as [m' ->]. rewrite E, Ha in Hb. by injection Hb as -> -> _ _.
      * right. right. exists b. apply lookup_delete_Some. split; [|done]. congruence.
    + intros _. apply (gd_deleting _ _ _ _ G). by rewrite Ho.
    + intros i [= <- <-]. apply (gd_apart _ _ _ _ G). assert (s = s0) as -> by congruence. by eexists.
    + intros [_ Hn]%not_elem_of_cons. by apply (gd_reading _ _ _ _ G).
    + intros i x Hn [= -> ->]. by apply not_elem_of_cons in Hn as [? _].
    + intros _. apply (gd_held _ _ _ _ G). by rewrite Ho.
  - intros k s Hk _ [_ Hn]%not_elem_of_cons. apply (iv_filled _ _ H k s Hk); [by rewrite Ho|done].
  - intros k i [= <- <-]. split; [by apply (iv_ids _ _ H id h); right|]. split; [|intros _; by eexists]. intros k Hk. by apply (iv_one _ _ H id).
  - intros k Hk. destruct (iv_asked _ _ H k Hk) as [?|[?|(r & j & Hr & Hj)]]; [by left|right; by left|right; right]. exists r, j. split; [|done]. simpl. rewrite lookup_delete_ne; [done|]. intros <-. congruence.
Qed.

(** One that reports no reading. *)
Lemma answer_other (o : Open) (w : Histories) (rid h id : Z) (g : Generator) (m : DeleteMethod) : inv o w -> o_finish o = None -> h ∉ o_reading o -> api w !! rid = Some (Generated h id g m) ->
  (forall t, g <> ReadTill t) -> inv (finishing h id o) (set_api (delete rid (api w)) w).
Proof.
  intros H Ho Hr Ha Hg. destruct (answer_opens o w rid h id g m H Ho Ha) as (H1 & s & x & Hs & Hx & Hgx). apply (closing_reading _ _ h s H1 Hs).
  - intros Hn. exact (gd_reading _ _ _ _ (iv_states _ _ H h s Hs) Hr Hn).
  - intros i y [= <-] Hy Hgy. assert (y = x) as -> by congruence. by destruct (Hg (sentReadTill s)); congruence.
  - by intros [].
Qed.

(** The deletion of a channel is not finished. *)
Definition dropping (dropped : gset Z) (o : Open) : Open := mk_open (o_finish o) (o_reading o) (o_applied o) (o_due o) (dropped ∪ o_dropped o).

Lemma answer_dropped (o : Open) (w : Histories) (rid h id : Z) (g : Generator) (m : DeleteMethod) : inv o w -> api w !! rid = Some (Generated h id g m) -> revokes_all g = true ->
  inv (dropping {[rid]} o) (set_api (delete rid (api w)) w).
Proof.
  intros H Ha Hg. split; simpl; try apply H.
  - intros r b [_ Hb]%lookup_delete_Some. by apply (iv_api _ _ H).
  - intros k s Hk. pose proof (iv_states _ _ H k s Hk) as G. split; try apply G; simpl.
    + intros i x b Hx [_ Hb]%lookup_delete_Some. by eapply gd_own.
    + intros i x Hx. destruct (gd_asked _ _ _ _ G i x Hx) as [Hf|[[? ?]|[b Hb]]]; [by left|right; left; split; [set_solver|done]|]. right. destruct (decide (sentId x = rid)) as [E|Hne].
      * left. split; [set_solver|]. destruct (gd_own _ _ _ _ G i x b Hx Hb) as [m' ->]. rewrite E, Ha in Hb. by injection Hb as _ _ <- _.
      * right. exists b. apply lookup_delete_Some. split; [|done]. congruence.
  - intros k Hk. destruct (iv_asked _ _ H k Hk) as [?|[?|(r & j & Hr & Hj)]]; [by left|right; by left|right; right]. exists r, j. split; [|done]. simpl. rewrite lookup_delete_ne; [done|]. intros <-. congruence.
Qed.

(** ** Requests end *)

Section End.
Context (o : Open) (h : Z).
Hypothesis Ho : o_finish o = None.
Hypothesis Hr : h ∉ o_reading o.

Lemma end_ok (id : Z) (w : Histories) : inv (finishing h id o) w -> wp (checkPostponed h id) (fun _ w' => inv o w') w.
Proof.
  intros H. eapply wp_mono; [by apply (checkPostponed_ok (finishing h id o) h id eq_refl)|]. intros [] w'. by rewrite finishing_settled.
Qed.

(** One that is called late has nothing left to do. *)
Lemma late_ok (id : Z) (w : Histories) : inv o w -> id <= requestAutoincrement w -> historyByRequest w !! id = None -> wp (checkPostponed h id) (fun _ w' => inv o w') w.
Proof. intros H Hle Hb. apply end_ok. by apply late_inv. Qed.

(** A request for messages that is cancelled waits no more. *)
Lemma cancel_opens (w : Histories) (id : Z) (s : State) : inv o w -> historyByRequest w !! id = Some h -> states w !! h = Some s ->
  (forall x, sent s !! id = Some x -> type x = HistoryRequest) ->
  inv (finishing h id o) (set_state h (set_postponed (delete id (postponed s)) s) (set_byRequest (delete id (historyByRequest w)) w)).
Proof.
  intros H Hb Hs Hty. set (s' := set_postponed _ s). set (w' := set_state h s' _). assert (tracked w h id) as Ht by (apply (iv_by _ _ H); [by rewrite Ho|done]).
  assert (forall k i, (k, i) <> (h, id) -> tracked w' k i <-> tracked w k i) as Htr.
  { intros k i Hne. unfold tracked, w'. simpl. destruct (decide (k = h)) as [->|Hk]; [|by rewrite lookup_insert_ne]. rewrite lookup_insert_eq, Hs. assert (i <> id) as Hi by congruence.
    split; intros (s0 & [= <-] & Hx); [exists s|exists s']; (split; [done|]); simpl in *; by rewrite lookup_delete_ne in *. }
  assert (forall k i, tracked w' k i -> tracked w k i) as Hsub.
  { intros k i Hk. destruct (decide ((k, i) = (h, id))) as [[= -> ->]|Hne]; [done|by apply Htr]. }
  pose proof (iv_states _ _ H h s Hs) as G. split; simpl; try apply H.
  - intros i k Hne. rewrite Htr by congruence. rewrite <- (iv_by _ _ H) by (by rewrite Ho). rewrite delete_iff. split; [by intros []|]. intros Hi. split; [|done]. intros ->. congruence.
  - intros i k [[_ Hi]%lookup_delete_Some|Hk%Hsub]; apply (iv_ids _ _ H i k); tauto.
  - intros i k k' Hk%Hsub Hk'%Hsub. by apply (iv_one _ _ H i).
  - intros r a Ha. destruct (iv_api _ _ H r a Ha) as [? Hg]. split; [done|]. intros k i g m Em. destruct (Hg k i g m Em) as (s0 & x & Hk & ?).
    destruct (decide (k = h)) as [->|Hne]; [|exists s0, x; by rewrite lookup_insert_ne]. assert (s0 = s) as -> by congruence. exists s', x. by rewrite lookup_insert_eq.
  - intros k i j Hg. destruct (iv_groups _ _ H k i j Hg) as [? Hq]. split; [done|]. intros k' s0 x [[-> ->]|[_ Hk]]%insert_iff Hx; [by apply (Hq h s)|by eapply Hq].
  - intros k s0 [[-> ->]|[Hne Hk]]%insert_iff.
    + apply (good_kept _ w); [split; try done; intros b Hb'; by exists b|]. destruct G as [G1 G2 G3 G4 G5 G6 G7 G8 G9 G10 G11 G12 G13 G14 G15 G16]. split; simpl; try done.
      * intros i Hi. apply lookup_delete_None. right. by apply G1.
      * intros i x Hx. destruct (G5 i x Hx) as [E|?]; [by rewrite Ho in E|by right].
      * intros i g [_ Hi]%lookup_delete_Some. by eapply G6.
      * intros i [= <-]. apply lookup_delete_eq.
      * intros i x _ [= <-] Hx Hg. specialize (Hty x Hx). specialize (G2 id x Hx). unfold type_ok in G2. rewrite Hg in G2. congruence.
    + apply (good_kept _ w); [split; try done; intros b Hb'; by exists b|]. destruct (iv_states _ _ H k s0 Hk) as [G1 G2 G3 G4 G5 G6 G7 G8 G9 G10 G11 G12 G13 G14 G15 G16]. split; simpl; try done.
      * intros i x Hx. destruct (G5 i x Hx) as [E|?]; [by rewrite Ho in E|by right].
      * intros _. apply G8. by rewrite Ho.
      * intros i [= E _]. congruence.
      * intros i x _ [= E _]. congruence.
      * intros _. apply G16. by rewrite Ho.
  - intros k s0 [[-> ->]|[Hne Hk]]%insert_iff Hk'; [by destruct Hk'|]. apply (iv_filled _ _ H k s0 Hk). by rewrite Ho.
  - intros k i [= <- <-]. split; [by apply (iv_ids _ _ H id h); left|]. split; [|intros _; rewrite lookup_insert_eq; by eexists]. intros k Hk%Hsub. by apply (iv_one _ _ H id).
  - intros k Hk. destruct (iv_asked _ _ H k Hk) as [(s0 & Hs0 & Hf)|[?|?]]; [left|right; by left|by right; right].
    destruct (decide (k = h)) as [->|Hne]; [exists s'; simpl; rewrite lookup_insert_eq; split; [done|]; simpl; congruence|]. exists s0. simpl. by rewrite lookup_insert_ne.
  - intros Hdue k s0 [[-> ->]|[Hne Hk]]%insert_iff; [by apply (iv_due _ _ H Hdue h s)|by apply (iv_due _ _ H Hdue k s0)].
Qed.
End End.
