(* ===== verification/HistoriesSteps.v ===== *)
(** * Chats: every operation keeps what holds

    Requests are made, cancelled and answered. *)

From S2P Require Import Prelude Ids StateMonad ChatReading ChatFacts Histories HistoriesFacts HistoriesSend HistoriesFinish HistoriesRead HistoriesApply HistoriesEntries HistoriesAnswers.

(** A request that reports no reading. *)
Lemma make_ok (o : Open) (w : Histories) (h : Z) (t : RequestType) (g : Generator) : inv o w -> t <> NoType -> type_ok (new_sent t g w) -> (forall till, g <> ReadTill till) ->
  (forall id x, o_finish o = Some (h, id) -> sent (state_in w h) !! id = Some x -> type x = HistoryRequest -> t <> Delete) ->
  wp (sendRequest h t g) (fun id w' => id = next_id w /\ inv o w' /\ effect h t g w w') w.
Proof.
  intros H Ht Hty Hg Hc. destruct (sendRequest_ok o w h t g H) as (w' & E & ? & ?); try done; [intros till ->; by destruct (Hg till)|]. unfold wp. by rewrite E.
Qed.

Lemma set_groups_inv (o : Open) (w : Histories) (v : gmap Z (Z * Z)) : inv o w ->
  (forall h i id, v !! h = Some (i, id) -> id <= requestAutoincrement w /\ forall h' s x, states w !! h' = Some s -> sent s !! id = Some x -> type x = HistoryRequest) ->
  inv o (set_groups v w).
Proof.
  intros H Hv. split; try apply H; [exact Hv|]. intros k s Hk. apply (good_kept o w); [|by apply (iv_states _ _ H)]. split; try done. intros b Hb. by exists b.
Qed.

Lemma delete_groups_inv (o : Open) (w : Histories) (h : Z) : inv o w -> inv o (set_groups (delete h (chatListGroupRequests w)) w).
Proof. intros H. apply set_groups_inv; [done|]. intros k i id [_ Hk]%lookup_delete_Some. by apply (iv_groups _ _ H k i). Qed.

(** A request for messages, for which nothing is left open in the chat. *)
Lemma chat_cancel_ok (o : Open) (id : Z) (w : Histories) : inv o w -> o_finish o = None -> o_reading o = [] ->
  (forall h s x, states w !! h = Some s -> sent s !! id = Some x -> type x = HistoryRequest) -> wp (cancelRequest id) (fun _ w' => inv o w') w.
Proof.
  intros H Ho Hr Hty. unfold cancelRequest. destruct (id =? 0); [by apply wp_ret|]. apply wp_bind, wp_gets. change (Datatypes.id w) with w.
  destruct (historyByRequest w !! id) as [h|] eqn:Eb; [|by apply wp_ret]. assert (tracked w h id) as (s & Hs & _) by (apply (iv_by _ _ H); [by rewrite Ho|done]).
  apply wp_bind, wp_modify. apply wp_bind, wp_gets. rewrite bool_decide_eq_true_2 by (simpl; by eexists). eapply wp_step; [exact (on_state_is h _ s (set_byRequest (delete id (historyByRequest w)) w) Hs)|].
  assert (h ∉ o_reading o) as Hn by (rewrite Hr; by apply not_elem_of_nil). pose proof (cancel_opens o h Ho w id s H Eb Hs (fun x => Hty h s x Hs)) as H1.
  eapply wp_mono; [eapply (chat_finish_ok (finishing h id o) h id eq_refl); [done|exact H1|simpl; by rewrite lookup_insert_eq]|]. intros [] w'. by rewrite finishing_settled.
Qed.

Lemma requestFakeChatListMessage_ok (o : Open) (h : Z) (w : Histories) : inv o w -> wp (requestFakeChatListMessage h) (fun _ w' => inv o w') w.
Proof.
  intros H. unfold requestFakeChatListMessage. apply wp_bind, wp_gets. case_bool_decide; [by apply wp_ret|]. apply wp_bind, wp_modify. set (w1 := set_fakes _ w).
  assert (inv o w1) as H1 by by apply (same_inv o w). apply wp_bind. eapply wp_mono; [by apply (make_ok o w1)|]. intros id w2 (_ & ? & _). by apply wp_ret.
Qed.

(** The request that is made is for messages, and is remembered. *)
Lemma group_requested (o : Open) (h item : Z) (w : Histories) : inv o w ->
  wp (id <- sendRequest h HistoryRequest (GroupAround item) ;; modify (fun w => set_groups (emplace h (item, id) (chatListGroupRequests w)) w)) (fun _ w' => inv o w') w.
Proof.
  intros H. apply wp_bind. eapply wp_mono; [by apply (make_ok o w)|]. intros id w1 (-> & H1 & F). apply wp_modify, set_groups_inv; [done|].
  assert (forall k s x, states w1 !! k = Some s -> sent s !! next_id w = Some x -> type x = HistoryRequest) as Hnew.
  { intros k s x Hk Hx. destruct (ef_types _ _ _ _ _ F k _ s x Hk Hx) as [[-> _]|(s0 & Hs0 & Hx0)].
    - destruct (ef_state _ _ _ _ _ F) as (s1 & Hs1 & _ & Hty & _). assert (s1 = s) as -> by congruence. by apply Hty.
    - destruct (iv_ids _ _ H (next_id w) k); [right; exists s0; split; [done|left; by eexists]|unfold next_id in *; lia]. }
  intros k i id. unfold emplace. destruct (chatListGroupRequests w1 !! h); [apply (iv_groups _ _ H1)|].
  intros [[_ [= _ <-]]|[_ Hk]]%lookup_insert_Some; [|by apply (iv_groups _ _ H1 k i)]. split; [by rewrite (ef_count _ _ _ _ _ F)|done].
Qed.

Lemma requestGroupAround_ok (o : Open) (h item : Z) (w : Histories) : inv o w -> o_finish o = None -> o_reading o = [] -> wp (requestGroupAround h item) (fun _ w' => inv o w') w.
Proof.
  intros H Ho Hr. unfold requestGroupAround. apply wp_bind, wp_gets. cbv zeta. change (Datatypes.id w) with w. destruct (chatListGroupRequests w !! h) as [[a id]|] eqn:Eg; [|by apply group_requested].
  destruct (a =? item); [by apply wp_ret|]. apply wp_bind. eapply wp_mono; [apply (chat_cancel_ok o); [done..|]; by apply (iv_groups _ _ H h a)|].
  intros [] w1 H1. apply wp_bind, wp_modify. apply group_requested. by apply delete_groups_inv.
Qed.

Lemma deletion_ok (o : Open) (h : Z) (g : Generator) (w : Histories) : inv o w -> type_ok (new_sent Delete g w) ->
  (forall id x, o_finish o = Some (h, id) -> sent (state_in w h) !! id = Some x -> type x <> HistoryRequest) ->
  wp (sendRequest h Delete g ;;; ret tt) (fun _ w' => inv o w') w.
Proof.
  intros H Hty Hc. apply wp_bind. eapply wp_mono; [apply (make_ok o w); try done|].
  - intros till ->. done.
  - intros id x Ho Hx Hn. by destruct (Hc id x Ho Hx).
  - intros id w' (_ & ? & _). by apply wp_ret.
Qed.

(** ** Reading that the server confirms *)

Lemma with_due_false (o : Open) : o_due o = false -> with_due false o = o.
Proof. destruct o. simpl. by intros ->. Qed.

(** Reading that was sent is confirmed, or later reading was sent since. *)
Lemma confirmed_ok (o : Open) (w : Histories) (h id t : Z) (s : State) (x : SentRequest) : inv (opening h (finishing h id o)) w ->
  states w !! h = Some s -> sent s !! id = Some x -> generator x = ReadTill t ->
  (sentReadTill s <> 0 -> (sentReadDone s = false /\ exists i y, sent s !! i = Some y /\ generator y = ReadTill (sentReadTill s)) \/ (sentReadDone s = true /\ (requested w h \/ h ∈ o_applied o))) ->
  wp (if sentReadTill s =? t then
       on_state h (set_sentReadDone true) ;;;
       c <- chat_of h ;;
       if unreadCountRefreshNeeded t c then requestDialogEntry h None else on_state h (set_sentReadTill 0)
     else expect ((sentReadTill s =? 0) || (t <? sentReadTill s))) (fun _ w' => inv (finishing h id o) w') w.
Proof.
  intros H Hs Hx Hg Hread. pose proof (iv_states _ _ H h s Hs) as G. destruct (gd_reads _ _ _ _ G id x t Hx Hg) as (Hpos & Hle & _ & Hw). destruct (Z.eqb_spec (sentReadTill s) t) as [E|Hne].
  - eapply wp_step; [exact (on_state_is h _ s w Hs)|]. set (s1 := set_sentReadDone true s). set (w1 := set_state h s1 w).
    assert (states w1 !! h = Some s1) as Hs1 by (simpl; by rewrite lookup_insert_eq).
    assert (inv (opening h (finishing h id o)) w1) as H1.
    { apply (set_state_inv _ _ _ s); try done; [|intros Hdue; by apply (iv_due _ _ H Hdue h s)].
      destruct G as [G1 G2 G3 G4 G5 G6 G7 G8 G9 G10 G11 G12 G13 G14 G15 G16]. split; simpl; try done. by intros []%not_elem_of_cons. }
    apply wp_bind, wp_gets. destruct (unreadCountRefreshNeeded t (chats w1 h)) eqn:Er.
    + eapply wp_mono; [by apply requestDialogEntry_ok|]. intros [] w2 [H2 A2]. apply (closing_reading _ _ h s1 H2); [by rewrite (ak_states _ _ _ A2)| |done|by intros []].
      intros _. right. split; [done|]. left. exact (ak_requested _ _ _ A2).
    + apply orb_false_iff in Er as [_ Er%Z.ltb_ge]. unfold wp. rewrite (on_state_is h _ s1 w1 Hs1). set (s2 := set_sentReadTill 0 s1). set (w2 := set_state h s2 w1).
      assert (inv (opening h (finishing h id o)) w2) as H2.
      { apply (set_state_inv _ _ _ s1); try done; [|intros Hdue; by apply (iv_due _ _ H Hdue h s)].
        destruct (iv_states _ _ H1 h s1 Hs1) as [G1 G2 G3 G4 G5 G6 G7 G8 G9 G10 G11 G12 G13 G14 G15 G16]. split; simpl; try done; [|lia].
        intros i y t' Hy Hgy. destruct (G10 i y t' Hy Hgy) as (? & Hle' & _ & ?). simpl in Hle'. split; [done|]. split; [done|]. split; [|done]. intros _. simpl in Er.
        destruct (inboxReadBefore (chats w h)) as [b|]; simpl in Er; [|lia]. exists b. split; [done|]. lia. }
      apply (closing_reading _ _ h s2 H2); [simpl; by rewrite lookup_insert_eq|done| |by intros []].
      intros i y _ Hy Hgy. destruct (gd_reads _ _ _ _ G i y 0 Hy Hgy). lia.
  - unfold expect. replace (_ || _) with true; cycle 1.
    { symmetry. apply orb_true_iff. destruct (Z.eqb_spec (sentReadTill s) 0) as [|Hn]; [by left|right]. apply Z.ltb_lt. specialize (Hle Hn). lia. }
    apply wp_ret, (closing_reading _ _ h s H Hs Hread); [|by intros []]. intros i y [= <-] Hy Hgy. assert (y = x) as -> by congruence. congruence.
Qed.

Lemma readFinished_ok (o : Open) (w : Histories) (h id t : Z) (s : State) (x : SentRequest) : inv (opening h (finishing h id o)) w -> o_finish o = None -> o_due o = false -> h ∉ o_reading o ->
  states w !! h = Some s -> sent s !! id = Some x -> generator x = ReadTill t ->
  (sentReadTill s <> 0 -> (sentReadDone s = false /\ exists i y, sent s !! i = Some y /\ generator y = ReadTill (sentReadTill s)) \/ (sentReadDone s = true /\ (requested w h \/ h ∈ o_applied o))) ->
  wp (readFinished h id t) (fun _ w' => inv o w') w.
Proof.
  intros H Ho Hdue Hr Hs Hx Hg Hread. unfold readFinished. eapply wp_step; [unfold bind, lookup_state, StateMonad.gets, lift; by rewrite Hs|].
  apply wp_bind. eapply wp_mono; [by eapply (confirmed_ok o)|]. intros [] w1 H1. apply wp_bind. eapply wp_mono; [by apply sendReadRequests_ok|]. intros [] w2 [H2 _].
  apply end_ok; [done|done|]. by rewrite with_due_false in H2.
Qed.

(** ** Answers *)

(** Only the deletion of a channel is made so that its answer finishes nothing. *)
Definition methods_ok (w : Histories) : Prop := forall rid h id g, api w !! rid = Some (Generated h id g DeleteChannel) -> revokes_all g = true.

Lemma generatedAnswered_ok (o : Open) (w : Histories) (rid h id : Z) (g : Generator) (m : DeleteMethod) (r : Response) : inv o w -> o_finish o = None -> o_due o = false -> o_reading o = [] ->
  m <> DeleteChannel \/ (forall till justClear revoke, g <> DeleteAll till justClear revoke) ->
  api w !! rid = Some (Generated h id g m) -> wp (generatedAnswered h id g m r) (fun _ w' => inv o w') (set_api (delete rid (api w)) w).
Proof.
  intros H Ho Hdue Hr Hm Ha. assert (h ∉ o_reading o) as Hn by (rewrite Hr; by apply not_elem_of_nil). set (w1 := set_api _ w).
  destruct (answer_opens o w rid h id g m H Ho Ha) as (H1 & s & x & Hs & Hx & Hg).
  assert (forall w2, inv (finishing h id o) w2 -> wp (checkPostponed h id) (fun _ w' => inv o w') w2) as Hend by (intros w2; by apply end_ok).
  assert ((exists t, g = ReadTill t) \/ forall t, g <> ReadTill t) as [[t ->]|Hnt] by (destruct g; try (by right); left; by eexists).
  { cbn [generatedAnswered]. apply (readFinished_ok o w1 h id t s x H1); try done. intros Hn'. exact (gd_reading _ _ _ _ (iv_states _ _ H h s Hs) Hn Hn'). }
  assert (inv (finishing h id o) w1) as H2 by by apply (answer_other o w rid h id g m).
  assert (forall g', type_ok (new_sent Delete g' w1) -> type_ok (new_sent Delete g w1) -> wp (sendRequest h Delete g' ;;; ret tt) (fun _ w' => inv (finishing h id o) w') w1) as Hdel.
  { intros g' Hty' Hty. apply (deletion_ok _ h g'); [done|done|]. intros i y [= <-] Hy. rewrite (state_in_is w1 h s Hs) in Hy. assert (y = x) as -> by congruence.
    pose proof (gd_type _ _ _ _ (iv_states _ _ H h s Hs) id x Hx) as Hty0. unfold type_ok in *. rewrite Hg in Hty0. simpl in Hty. destruct g; try congruence. by destruct Hty. }
  assert (forall (b : bool) g', type_ok (new_sent Delete g' w1) -> type_ok (new_sent Delete g w1) -> wp (when b (sendRequest h Delete g' ;;; ret tt) ;;; checkPostponed h id) (fun _ w' => inv o w') w1) as Hmore.
  { intros b g' Hty' Hty. apply wp_bind, (wp_mono _ (fun _ w' => inv (finishing h id o) w')); [|by intros [] w2 H3; apply Hend]. unfold when. destruct b; [by apply Hdel|by apply wp_ret]. }
  destruct g as [what| |i|t|ids revoke|till justClear revoke|a b revoke]; cbn [generatedAnswered].
  - by apply Hend.
  - apply wp_bind, wp_modify, Hend. by apply (same_inv _ w1).
  - apply wp_bind, wp_modify, Hend. by apply delete_groups_inv.
  - by destruct (Hnt t).
  - destruct r; [|by apply Hend]. apply wp_bind. eapply wp_mono; [by apply Hend|]. intros [] w2 H3. eapply wp_mono; [by apply requestChatListMessage_ok|]. by intros [] w3 [].
  - destruct m; [by destruct Hm as [?|Hm]; [|destruct (Hm till justClear revoke)]| | |].
    + by apply Hend.
    + destruct r as [|[]]; try by apply Hend. destruct (send_other _ (JoinToDelete h till justClear revoke) w1 H2) as (j & w2 & E & H3 & _); [done|]. eapply wp_step; [exact E|]. by apply Hend.
    + destruct r; [|by apply Hend]. by apply (Hmore _ (DeleteAll till justClear revoke)).
  - destruct r; [|by apply Hend]. by apply (Hmore _ (DeleteByDates a b revoke)).
Qed.

(** What an answer leaves for ever: the deletion of a channel. *)
Definition dropped_by (rid : Z) (w : Histories) : gset Z := match api w !! rid with Some (Generated _ _ _ DeleteChannel) => {[rid]} | _ => ∅ end.

Definition response_ok (r : Response) : Prop := match r with Done _ dialogs => Forall (fun x => dialog_ok x.2) dialogs | Failed _ => True end.

Section Answered.
Context (D : gset Z).
#[local] Abbreviation closed := (closed D).

Lemma entries_answered_ok (w : Histories) (rid : Z) (a : Asked) (l : list Z) (r : Response) (m : M Histories unit) : inv closed w -> response_ok r -> api w !! rid = Some a -> (forall h id g m, a <> Generated h id g m) ->
  (forall k h, a = PeerDialogs k -> h ∈ k -> h ∈ l) -> (forall w', inv (apply_all l closed) w' -> wp m (fun _ w' => inv closed w') w') ->
  wp (match r with Done _ dialogs => applyPeerDialogs dialogs ;;; m | Failed _ => m end) (fun _ w' => inv closed w') (set_api (delete rid (api w)) w).
Proof.
  intros H Hr Ha Hg Hl Hm. pose proof (drop_other closed w rid a l H Ha Hg Hl) as H1. destruct r as [off dialogs|]; [|by apply Hm]. apply wp_bind. eapply wp_mono; [by apply (applyPeerDialogs_ok (apply_all l closed))|].
  intros [] w2. apply Hm.
Qed.

Lemma answered_ok (w : Histories) (rid : Z) (r : Response) : inv closed w -> methods_ok w -> response_ok r -> wp (answered rid r) (fun _ w' => inv (dropping (dropped_by rid w) closed) w') w.
Proof.
  intros H Hm Hr. unfold answered, dropped_by. apply wp_bind, wp_gets. change (Datatypes.id w) with w.
  assert (dropping ∅ closed = closed) as Enone by (unfold dropping, HistoriesFacts.closed; simpl; by rewrite union_empty_l_L).
  destruct (api w !! rid) as [a|] eqn:Ha; [|rewrite Enone; by apply wp_ret]. apply wp_bind, wp_modify.
  assert ((forall h id g m, a <> Generated h id g m) -> (forall k, a <> PeerDialogs k) -> inv closed (set_api (delete rid (api w)) w)) as Hdrop.
  { intros Hg Hk. rewrite <- (apply_none closed). apply (drop_other closed w rid a []); try done. intros k h E. by destruct (Hk k). }
  destruct a as [h id g m|l|folder|h b|h till justClear revoke]; try rewrite Enone.
  - assert (m = DeleteChannel \/ m <> DeleteChannel) as [->|Hne] by (destruct m; (by left) || by right).
    + pose proof (Hm rid h id g Ha) as Hg. destruct g; try done. apply wp_ret. by apply (answer_dropped closed w rid h id (DeleteAll deleteTillId justClear revoke) DeleteChannel).
    + replace (match m with DeleteChannel => {[rid]} | _ => ∅ end) with (∅ : gset Z) by (by destruct m). rewrite Enone. apply (generatedAnswered_ok closed w rid h id g m r); try done. by left.
  - assert (forall w', inv (apply_all l closed) w' -> wp (finalize l) (fun _ w' => inv closed w') w') as Hf by (intros w'; by apply (finalize_ok l [] D)).
    pose proof (entries_answered_ok w rid (PeerDialogs l) l r (finalize l) H Hr Ha) as He. destruct r; (apply He; [done|by intros k h [= <-]|done]).
  - pose proof (entries_answered_ok w rid (FolderDialogs folder) [] r (modify (fun w => set_folders (dialogFolderRequests w ∖ {[folder]}) w)) H Hr Ha) as He.
    destruct r; (apply He; [done|done|]; intros w1; rewrite apply_none; intros H1; apply wp_modify; by apply (same_inv closed w1)).
  - destruct r; apply wp_ret; by apply Hdrop.
  - destruct r; [|by apply wp_ret, Hdrop]. apply (deletion_ok closed h (DeleteAll till justClear revoke)); [by apply Hdrop|done|done].
Qed.
End Answered.
