(* ===== verification/HistoriesSystem.v ===== *)
(** * Chats: what can happen

    The rest of the program asks for reading, entries, deletions and requests;
    the server answers, a timer fires, a call that was left for later comes,
    time passes. Nothing of it fails, and whatever waits has something on its way. *)

From S2P Require Import Prelude Ids StateMonad ChatReading ChatFacts Histories HistoriesFacts HistoriesSend HistoriesFinish HistoriesRead HistoriesApply HistoriesEntries HistoriesAnswers HistoriesSteps.

Inductive Event :=
  | Request (h : Z) (t : RequestType) (what : Z) | CancelRequest (id : Z) | LateFinish (h id : Z)
  | ReadInboxOf (h : Z) | ReadInboxTillOf (h t : Z) | ReadInboxItem (h : Z) (x : ReadItem) | NewMessageRead (h t : Z) | ClientSideRead (h : Z) (i : nat) | SendPending (h : Z)
  | RequestEntry (h : Z) (what : option Z) | RequestChatList (h : Z) | RequestFolder (folder : Z) | RequestFake (h : Z) | RequestGroup (h item : Z)
  | ChangeMark (h : Z) (unread : bool) | Deletion (h : Z) (ids : list Z) (revoke : bool) | ClearAll (h till : Z) (justClear revoke : bool) | ClearDates (h minDate maxDate : Z) (revoke : bool)
  | Answered (rid : Z) (r : Response) | TimerFires | Posted | Tick (t : Z) | EntryCame (h : Z) (d : Dialog) | ChatChanged (h : Z) (c : History).

Definition happen (e : Event) : M Histories unit :=
  match e with
  | Request h t what => sendRequest h t (Outside what) ;;; ret tt
  | CancelRequest id => cancelRequest id
  | LateFinish h id => checkPostponed h id
  | ReadInboxOf h => readInbox h
  | ReadInboxTillOf h t => readInboxTill h t false
  | ReadInboxItem h x => readInboxTillItem h x
  | NewMessageRead h t => readInboxOnNewMessage h t
  | ClientSideRead h i => readClientSide h i
  | SendPending h => sendPendingReadInbox h
  | RequestEntry h what => requestDialogEntry h (CallOutside <$> what)
  | RequestChatList h => requestChatListMessage h
  | RequestFolder folder => requestFolderEntry folder
  | RequestFake h => requestFakeChatListMessage h
  | RequestGroup h item => requestGroupAround h item
  | ChangeMark h unread => changeDialogUnreadMark h unread
  | Deletion h ids revoke => deleteMessages h ids revoke
  | ClearAll h till justClear revoke => deleteAllMessages h till justClear revoke
  | ClearDates h minDate maxDate revoke => deleteMessagesByDates h minDate maxDate revoke
  | Answered rid r => answered rid r
  | TimerFires => modify (set_timer None) ;;; sendReadRequests
  | Posted => modify (fun w => set_posted (pred (postedCalls w)) w) ;;; sendDialogRequests
  | Tick t => modify (set_now t)
  | EntryCame h d => applyPeerDialogs [(h, d)]
  | ChatChanged h c => on_chat h (fun _ => Some c)
  end.

(** A request of another part is for messages, or sends something; it is not
    finished twice. The server sends messages with ids of its own. *)
Definition allowed (e : Event) (w : Histories) : Prop :=
  match e with
  | Request _ t _ => t = HistoryRequest \/ t = Send
  | CancelRequest id => forall h s x, states w !! h = Some s -> sent s !! id = Some x -> type x = HistoryRequest
  | LateFinish _ id => id <= requestAutoincrement w /\ historyByRequest w !! id = None
  | ReadInboxTillOf _ t => t = 0 \/ Msg.IsServerMsgId t = true
  | ReadInboxItem _ (RegularItem id) => Msg.IsServerMsgId id = true
  | ReadInboxItem h (LocalItem (Some i) _) => is_Some (clientSideMessages (chats w h) !! i)
  | NewMessageRead _ t => Msg.IsServerMsgId t = true
  | ClientSideRead h i => is_Some (clientSideMessages (chats w h) !! i)
  | Answered _ r => response_ok r
  | TimerFires => exists d, readRequestsTimer w = Some d /\ d <= now w
  | Posted => (0 < postedCalls w)%nat
  | Tick t => now w <= t
  | EntryCame _ d => dialog_ok d
  | ChatChanged h c => chat_ok c /\ forall b, inboxReadBefore (chats w h) = Some b -> exists b', inboxReadBefore c = Some b' /\ b <= b'
  | _ => True
  end.

(** The deletions of channels that are answered by an event. *)
Definition drops (e : Event) (w : Histories) : gset Z := match e with Answered rid _ => dropped_by rid w | _ => ∅ end.

(** All that can happen, with the deletions of channels that were answered. *)
Inductive ran : gset Z -> Histories -> Prop :=
  | ran_new chats now : (forall h, chat_ok (chats h)) -> 0 <= now -> ran ∅ (Histories_new chats now)
  | ran_step D w e w' : ran D w -> allowed e w -> happen e w = Some (tt, w') -> ran (drops e w ∪ D) w'.
Definition reached (w : Histories) : Prop := exists D, ran D w.

Lemma reached_new (chats : Z -> History) (now : Z) : (forall h, chat_ok (chats h)) -> 0 <= now -> reached (Histories_new chats now).
Proof. intros ? ?. exists ∅. by apply ran_new. Qed.
Lemma reached_step (w : Histories) (e : Event) (w' : Histories) : reached w -> allowed e w -> happen e w = Some (tt, w') -> reached w'.
Proof. intros [D Hr] ? ?. exists (drops e w ∪ D). by apply ran_step. Qed.

(** ** The method of a deletion *)

Definition keeps_methods (w w' : Histories) : Prop := methods_ok w -> methods_ok w'.
#[local] Instance keeps_methods_preorder : PreOrder keeps_methods.
Proof. split; [by intros w H|]. intros w1 w2 w3 H1 H2 H. by apply H2, H1. Qed.

#[local] Abbreviation K := keeps_methods.

Lemma km_same (f : Histories -> Histories) : (forall w, api (f w) = api w) -> along K (modify f).
Proof. intros Hf. apply along_modify. intros w H rid h id g. rewrite Hf. apply H. Qed.
Lemma km_state (h : Z) (f : State -> State) : along K (on_state h f).
Proof. intros w [] w'. unfold on_state. destruct (states w !! h); [|done]. intros [= <-] H. exact H. Qed.
Lemma km_chat (h : Z) (f : History -> option History) : along K (on_chat h f).
Proof. intros w [] w'. unfold on_chat. destruct (f _); [|done]. intros [= <-] H. exact H. Qed.
Lemma km_expect (b : bool) : along K (expect b).
Proof. unfold expect. destruct b; [apply along_ret|apply along_lift]. Qed.
Lemma km_send (a : Asked) : (forall h id g, a = Generated h id g DeleteChannel -> revokes_all g = true) -> along K (send a).
Proof.
  intros Ha w r w'. unfold send, bind, StateMonad.gets, modify, ret. intros [= _ <-] H rid h id g. simpl. intros [[_ E]|[_ E]]%lookup_insert_Some; [by eapply Ha|by eapply H].
Qed.
Lemma km_generate (h id : Z) (g : Generator) : along K (generate h id g).
Proof.
  unfold generate. apply along_bind; [apply along_gets|]. intros c. apply km_send. intros k i g' [= _ _ <- E].
  unfold deleteMethod in E. destruct g; try done. destruct (_ && _) eqn:Eb; [|by repeat case_match]. simpl. destruct justClear, revoke; try done.
Qed.
Lemma km_cancel (rid : Z) : along K (cancel rid).
Proof. apply along_modify. intros w H r h id g. simpl. intros [_ Hr]%lookup_delete_Some. by eapply H. Qed.
Lemma km_when (b : bool) (m : M Histories unit) : along K m -> along K (when b m).
Proof. unfold when. destruct b; [done|]. intros _. apply along_ret. Qed.

#[local] Hint Resolve km_state km_chat km_expect km_generate km_cancel : along.
#[local] Hint Extern 2 (along K (modify _)) => (apply km_same; done) : along.
#[local] Hint Extern 2 (along K (send _)) => (apply km_send; done) : along.
#[local] Hint Extern 2 (along K (lookup_state _)) => apply along_gets : along.
#[local] Hint Extern 2 (along K (chat_of _)) => apply along_gets : along.
Ltac km := along; repeat (first [apply km_when | apply along_each; intros ?]; along).

Lemma km_resend (h : Z) (l : list (Z * SentRequest)) : along K (resendLoop h l).
Proof. induction l as [|[id x] l IH]; cbn [resendLoop]; km. Qed.
Lemma km_postponed (h : Z) (l : list (Z * Generator)) : along K (sendPostponed h l).
Proof. induction l as [|[id x] l IH]; cbn [sendPostponed]; km. Qed.
#[local] Hint Resolve km_resend km_postponed : along.
Lemma km_sendRequest (h : Z) (t : RequestType) (g : Generator) : along K (sendRequest h t g).
Proof. unfold sendRequest. km. Qed.

Lemma km_finish (h id : Z) : along K (finishSentRequest h id).
Proof. unfold finishSentRequest, postponeRequestDialogEntries. km. Qed.
#[local] Hint Resolve km_sendRequest km_finish : along.
Lemma km_check (h id : Z) : along K (checkPostponed h id).
Proof. unfold checkPostponed. km. Qed.
Lemma km_cancelRequest (id : Z) : along K (cancelRequest id).
Proof. unfold cancelRequest. km. Qed.
Lemma km_entry (h : Z) (c : option Callback) : along K (requestDialogEntry h c).
Proof. unfold requestDialogEntry, postponeRequestDialogEntries. km. Qed.
Lemma km_empty (h : Z) : along K (checkEmptyState h).
Proof. unfold checkEmptyState. km. Qed.
Lemma km_mark (h : Z) (b : bool) : along K (changeDialogUnreadMark h b).
Proof. unfold changeDialogUnreadMark. km. Qed.
#[local] Hint Resolve km_check km_cancelRequest km_entry km_empty km_mark : along.
Lemma km_chatList (h : Z) : along K (requestChatListMessage h).
Proof. unfold requestChatListMessage. km. Qed.
Lemma km_loop (l : list Z) (next : option Z) : along K (readLoop l next).
Proof. revert next. induction l as [|h l IH]; intros next; cbn [readLoop]; unfold sendReadRequest; km. Qed.
#[local] Hint Resolve km_chatList km_loop : along.
Lemma km_reads : along K sendReadRequests.
Proof. unfold sendReadRequests. km. Qed.
#[local] Hint Resolve km_reads : along.
Lemma km_till (h t : Z) (force : bool) : along K (readInboxTill h t force).
Proof.
  unfold readInboxTill, readInboxTillBody, readInboxTillNeedsRequest, readTill, sendPendingReadInbox, syncGuard. km.
Qed.
#[local] Hint Resolve km_till : along.
Lemma km_callback (h : Z) (c : Callback) : along K (callback h c).
Proof. unfold callback. km. Qed.
#[local] Hint Resolve km_callback : along.
Lemma km_applied (h : Z) : along K (dialogEntryApplied h).
Proof. unfold dialogEntryApplied. km. Qed.
#[local] Hint Resolve km_applied : along.
Lemma km_choose (l : list Z) : along K (chooseHistories l).
Proof. induction l as [|h l IH]; cbn [chooseHistories]; km. Qed.
#[local] Hint Resolve km_choose : along.
Lemma km_answered (rid : Z) (r : Response) : along K (answered rid r).
Proof. unfold answered, generatedAnswered, readFinished, applyPeerDialogs, finalize, deleteAllMessages, deleteMessagesByDates. km. Qed.
#[local] Hint Resolve km_answered : along.

Lemma km_happen (e : Event) : along K (happen e).
Proof.
  destruct e; unfold happen, readInbox, readInboxTillItem, readInboxOnNewMessage, readClientSide, sendPendingReadInbox, requestFolderEntry, requestFakeChatListMessage, requestGroupAround, deleteMessages, deleteAllMessages, deleteMessagesByDates, sendDialogRequests, applyPeerDialogs; km.
Qed.

(** ** Every event keeps what holds *)

Section Keeps.
Context (D : gset Z).
#[local] Abbreviation closed := (closed D).

Lemma timer_gone (w : Histories) : inv closed w -> inv (with_due true closed) (set_timer None w).
Proof.
  intros H. split; try apply H; try done. intros k s Hk. apply (good_kept _ w); [split; try done; intros b Hb; by exists b|]. destruct (iv_states _ _ H k s Hk). by split.
Qed.

Lemma time_passes (w : Histories) (t : Z) : now w <= t -> inv closed w -> inv closed (set_now t w).
Proof.
  intros Ht H. pose proof (iv_now _ _ H). split; try apply H; simpl; [|lia|].
  - intros k s Hk. apply (good_kept _ w); [split; try done; intros b Hb; by exists b|]. by apply (iv_states _ _ H).
  - intros d Hd. pose proof (iv_timer _ _ H d Hd). lia.
Qed.

Lemma client_side_ok (w : Histories) (h : Z) (i : nat) : inv closed w -> is_Some (clientSideMessages (chats w h) !! i) -> wp (readClientSide h i) (fun _ w' => inv closed w') w.
Proof.
  intros H [c Hc]. unfold readClientSide. eapply (on_chat_ok closed); [done|]. rewrite Hc. simpl.
  destruct (readClientSideMessage_ok c (chats w h) (iv_chats _ _ H h)) as (c' & h' & -> & H' & G'). simpl. eexists. split; [done|].
  destruct (set_clientSide_ok (<[i:=c']> (clientSideMessages (chats w h))) h' H'). split; [done|]. split; [by etrans|done].
Qed.

(** Reading of another part of the program. *)
Lemma till_ok (w : Histories) (h t : Z) (force : bool) : inv closed w -> Msg.IsServerMsgId t = true \/ t = 0 /\ force = false -> wp (readInboxTill h t force) (fun _ w' => inv closed w') w.
Proof. intros H Ht. eapply wp_mono; [by apply (readInboxTill_ok closed)|]. by intros [] w' (? & _). Qed.

Lemma regular_before (l : list (list Item)) (b i : nat) (x : Item) : Forall (Forall server_item) l -> regularBefore l b i = Some x -> Msg.IsServerMsgId (itemId x) = true.
Proof.
  intros Hl. assert (forall b i, regularInBlock i (default [] (l !! b)) = Some x -> Msg.IsServerMsgId (itemId x) = true) as Hblock.
  { intros b' i' [Hin Hr]%find_some. apply in_rev, list_elem_of_In in Hin. destruct (l !! b') as [k|] eqn:E; [|simpl in Hin; rewrite take_nil in Hin; by apply not_elem_of_nil in Hin].
    eapply Forall_lookup in Hl; [|done]. eapply Forall_forall in Hl; [by apply Hl|]. apply elem_of_take in Hin as (n & Hn & _). by eapply list_elem_of_lookup_2. }
  revert i. induction b as [|b IH]; intros i; cbn [regularBefore]; destruct (regularInBlock i _) as [y|] eqn:E; try done; [intros [= ->]; by apply (Hblock 0%nat i)|intros [= ->]; by apply (Hblock (Datatypes.S b) i)|apply IH].
Qed.

Lemma item_ok (w : Histories) (h : Z) (x : ReadItem) : inv closed w -> allowed (ReadInboxItem h x) w -> wp (readInboxTillItem h x) (fun _ w' => inv closed w') w.
Proof.
  intros H Hx. destruct x as [id|c place]; cbn [readInboxTillItem]; simpl in Hx; [apply till_ok; [done|by left]|]. apply wp_bind, (wp_mono _ (fun _ w' => inv closed w')).
  - destruct c as [i|]; [by apply client_side_ok|by apply wp_ret].
  - intros [] w1 H1. apply wp_bind, wp_gets. destruct place as [[b i]|]; [|by apply wp_ret]. destruct (regularBefore _ b i) as [y|] eqn:E; [|by apply wp_ret].
    apply till_ok; [done|left]. eapply regular_before; [|done]. apply (co_items _ (iv_chats _ _ H1 h)).
Qed.

Lemma happen_ok (e : Event) (w : Histories) : inv closed w -> methods_ok w -> allowed e w -> wp (happen e) (fun _ w' => inv (dropping (drops e w) closed) w') w.
Proof.
  assert (dropping ∅ closed = closed) as Enone by (unfold dropping, HistoriesFacts.closed; simpl; by rewrite union_empty_l_L).
  intros H Hm He. destruct e; cbn [happen drops]; simpl in He; try rewrite Enone.
  - apply wp_bind. eapply wp_mono; [apply (make_ok closed w); try done; by destruct He as [-> | ->]|]. intros id w' (_ & ? & _). by apply wp_ret.
  - by apply (chat_cancel_ok closed).
  - destruct He. apply (late_ok closed); [done|by apply not_elem_of_nil|done..].
  - by apply (readInbox_ok closed).
  - apply till_ok; [done|tauto].
  - by apply item_ok.
  - apply till_ok; [done|by left].
  - by apply client_side_ok.
  - eapply wp_mono; [by apply (sendPendingReadInbox_ok closed)|]. by intros [] w' [].
  - eapply wp_mono; [by apply (requestDialogEntry_ok closed)|]. by intros [] w' [].
  - eapply wp_mono; [by apply (requestChatListMessage_ok closed)|]. by intros [] w' [].
  - by apply requestFolderEntry_ok.
  - by apply requestFakeChatListMessage_ok.
  - by apply requestGroupAround_ok.
  - eapply wp_mono; [by apply (changeDialogUnreadMark_ok closed)|]. by intros [] w' [].
  - by apply (deletion_ok closed).
  - by apply (deletion_ok closed).
  - by apply (deletion_ok closed).
  - by apply answered_ok.
  - apply wp_bind, wp_modify. eapply wp_mono; [by apply (sendReadRequests_ok (with_due true closed)), timer_gone|]. by intros [] w' [].
  - apply wp_bind, wp_modify. by apply sendDialogRequests_ok.
  - apply wp_modify. by apply time_passes.
  - apply (applyPeerDialogs_ok closed); try done. by constructor.
  - destruct He. apply set_chat_inv; done.
Qed.
End Keeps.

Lemma chats_new_inv (chats : Z -> History) (now : Z) : (forall h, chat_ok (chats h)) -> 0 <= now -> inv (closed ∅) (Histories_new chats now).
Proof.
  intros Hc Hn. split; simpl; try done.
  - intros id h _. rewrite lookup_empty. split; [done|]. by intros (s & Hs & _).
  - intros id h [?|(s & Hs & _)]; done.
  - intros id h h' (s & Hs & _). done.
  - intros h [l Hl]. done.
Qed.

Lemma ran_ok (D : gset Z) (w : Histories) : ran D w -> inv (closed D) w /\ methods_ok w.
Proof.
  induction 1 as [chats now Hc Hn|D w e w' _ [H Hm] He E]; [split; [by apply chats_new_inv|by intros rid h id g]|].
  split; [|by apply (km_happen e w tt w')]. pose proof (happen_ok D e w H Hm He) as Hw. unfold wp in Hw. by rewrite E in Hw.
Qed.

Lemma reached_ok (w : Histories) : reached w -> exists D, inv (closed D) w /\ methods_ok w.
Proof. intros [D Hr]. exists D. by apply ran_ok. Qed.

(** ** What is promised *)

(** A request of the chat that the server will answer. *)
Definition under_way (w : Histories) (h id : Z) (x : SentRequest) : Prop := exists m, api w !! sentId x = Some (Generated h id (generator x) m).

Lemma sent_under_way (D : gset Z) (w : Histories) (h id : Z) (s : State) (x : SentRequest) : inv (closed D) w -> states w !! h = Some s -> sent s !! id = Some x ->
  under_way w h id x \/ sentId x ∈ D /\ revokes_all (generator x) = true.
Proof.
  intros H Hs Hx. pose proof (iv_states _ _ H h s Hs) as G. destruct (gd_asked _ _ _ _ G id x Hx) as [?|[?|[a Ha]]]; [done|by right|left].
  destruct (gd_own _ _ _ _ G id x a Hx Ha) as [m ->]. by exists m.
Qed.

(** C10. No operation on the requests of chats fails, whatever was done before:
    no assertion is violated by requests that are made, cancelled, answered or
    finished late, by reading, deletions, entries, timers and delayed calls. *)
Theorem histories_never_fail (w : Histories) (e : Event) : reached w -> allowed e w -> exists w', happen e w = Some (tt, w') /\ reached w'.
Proof.
  intros Hr He. destruct (reached_ok w Hr) as (D & H & Hm). pose proof (happen_ok D e w H Hm He) as Hw. unfold wp in Hw.
  destruct (happen e w) as [[[] w']|] eqn:E; [|done]. exists w'. split; [done|]. by apply (reached_step w e w').
Qed.

(** C11. Requests take turns: while a deletion of a chat is sent no request for
    its messages is; such a request waits only for a deletion that is sent; all
    that is sent will be answered, but for a deletion that was made as the
    deletion of a channel ([channels.deleteChannel]) and was answered, which
    nothing finishes; and each request is found by its number. *)
Theorem requests_take_turns (D : gset Z) (w : Histories) (h : Z) (s : State) : ran D w -> states w !! h = Some s ->
  (has_delete s -> forall id x, sent s !! id = Some x -> type x <> HistoryRequest)
  /\ (forall id g, postponed s !! id = Some g -> for_history g /\ sent s !! id = None /\ has_delete s)
  /\ (forall id x, sent s !! id = Some x -> type_ok x /\ (under_way w h id x \/ sentId x ∈ D /\ revokes_all (generator x) = true))
  /\ (forall id, historyByRequest w !! id = Some h <-> is_Some (sent s !! id) \/ is_Some (postponed s !! id))
  /\ empty_state s = false.
Proof.
  intros Hr Hs. destruct (ran_ok D w Hr) as [H _]. pose proof (iv_states _ _ H h s Hs) as G. split; [exact (gd_waiting _ _ _ _ G)|]. split; [|split; [|split]].
  - intros id g Hg. split; [by eapply gd_postponed|]. split.
    + apply eq_None_not_Some. intros Hx. apply (gd_apart _ _ _ _ G) in Hx. congruence.
    + apply (gd_deleting _ _ _ _ G); [done|]. intros E. by rewrite E, lookup_empty in Hg.
  - intros id x Hx. split; [by eapply gd_type|by eapply sent_under_way].
  - intros id. rewrite (iv_by _ _ H) by done. split; [intros (s0 & Hs0 & ?); by assert (s0 = s) as -> by congruence|]. intros ?. by exists s.
  - apply (iv_filled _ _ H h s Hs); [done|by apply not_elem_of_nil].
Qed.

(** No deletion of the chat as a channel was answered. *)
Definition not_blocked (D : gset Z) (w : Histories) (h : Z) : Prop := forall s id x, states w !! h = Some s -> sent s !! id = Some x -> sentId x ∉ D.

(** C14. What waits for the entry of a chat waits for something: a delayed call
    that will ask for it, an answer with the entry, or the answer of a request
    of the chat that may change it. A chat of which a deletion as a channel was
    answered is left out: there nothing is on its way
    ([channel_deletion_blocks]). *)
Theorem entries_are_on_their_way (D : gset Z) (w : Histories) (h : Z) : ran D w -> not_blocked D w h -> requested w h ->
  (dialogRequestsPending w !! h <> None /\ (0 < postedCalls w)%nat) \/ entry_asked w h
  \/ exists s id x, states w !! h = Some s /\ postponedRequestEntry s = true /\ sent s !! id = Some x /\ type x <> HistoryRequest /\ under_way w h id x.
Proof.
  intros Hr Hb Hq. destruct (ran_ok D w Hr) as [H _]. destruct Hq as [Hd|[l Hp]].
  - right. destruct (iv_asked _ _ H h Hd) as [(s & Hs & Hf)|[?%not_elem_of_nil|?]]; [right|done|by left].
    pose proof (gd_held _ _ _ _ (iv_states _ _ H h s Hs)) as Hh. apply postpone_entry in Hh as (id & x & Hx & Ht); [|done|done].
    exists s, id, x. split_and!; try done. destruct (sent_under_way D w h id s x H Hs Hx) as [?|[Hin _]]; [done|]. by destruct (Hb s id x Hs Hx).
  - left. split; [congruence|]. apply (iv_posted _ _ H). intros E. by rewrite E, lookup_empty in Hp.
Qed.

(** C12. What was read is reported: what is to be sent has the timer set in
    time, at most [kReadRequestTimeout] from now; what was sent is under way
    until it is confirmed, and then the entry of the chat is asked for. *)
Theorem reading_is_reported (w : Histories) (h : Z) (s : State) : reached w -> states w !! h = Some s ->
  (willReadTill s <> 0 -> sentReadTill s < willReadTill s /\ exists d, readRequestsTimer w = Some d /\ d <= willReadWhen s <= now w + kReadRequestTimeout)
  /\ (sentReadTill s <> 0 -> sentReadDone s = false /\ (exists id rid m, api w !! rid = Some (Generated h id (ReadTill (sentReadTill s)) m)) \/ sentReadDone s = true /\ requested w h).
Proof.
  intros Hr Hs. destruct (reached_ok w Hr) as (D & H & _). pose proof (iv_states _ _ H h s Hs) as G. split; intros Hn.
  - destruct (gd_will _ _ _ _ G) as (_ & _ & Hlt), (gd_when _ _ _ _ G) as [[_ Hle] _], (iv_due _ _ H eq_refl h s Hs Hn) as (_ & d & Hd & ?). split; [by apply Hlt|]. by exists d.
  - destruct (gd_reading _ _ _ _ G) as [[Hd (id & x & Hx & Hg)]|[Hd [?|?%not_elem_of_nil]]]; [by apply not_elem_of_nil|done| |by right|done].
    left. split; [done|]. destruct (sent_under_way D w h id s x H Hs Hx) as [[m Hm]|[_ Hu]]; [|by rewrite Hg in Hu]. rewrite Hg in Hm. by exists id, (sentId x), m.
Qed.

(** C17. Reading up to a message is never forgotten: afterwards the chat is read
    that far already, or it is being reported, or will be, or its messages are
    not tracked. *)
Theorem reading_is_noted (w : Histories) (h t : Z) (force : bool) : reached w -> Msg.IsServerMsgId t = true ->
  exists w', readInboxTill h t force w = Some (tt, w') /\ noted h t w' /\ forall k, grows (chats w k) (chats w' k).
Proof.
  intros Hr Ht. destruct (reached_ok w Hr) as (D & H & _). pose proof (readInboxTill_ok (closed D) h t force w H eq_refl (or_introl Ht)) as Hw. unfold wp in Hw.
  destruct (readInboxTill h t force w) as [[[] w']|]; [|done]. destruct Hw as (_ & R & N). exists w'. split; [done|]. split; [|apply R]. apply N. apply server_positive in Ht. lia.
Qed.
