(* ===== verification/HistoriesExample.v ===== *)
(** * Chats: a run

    A chat of a user with five messages, of which three are not read, and a
    channel. The theorems are applied to what the events lead to. *)

From S2P Require Import Prelude Ids StateMonad ChatReading ChatFacts Histories HistoriesFacts HistoriesSend HistoriesFinish HistoriesRead HistoriesApply HistoriesEntries HistoriesAnswers HistoriesSteps HistoriesSystem.

Definition message (id : Z) (own : bool) : Item := mk_item id true own false (1000 + id).
Definition messages : list Item := [message 11 false; message 12 true; message 13 false; message 14 false; message 15 false].
Definition user : Peer := mk_peer false false false false false false.
Definition channel : Peer := mk_peer true true true false false false.
Definition user_chat : History := mk_history user (Some 13) (Some 3) false true (Some (Some (message 15 false))) (Some (Some (message 15 false))) [mk_client false true] [[message 11 false; message 12 true]; [message 13 false; message 14 false; message 15 false]] true true.
Definition channel_chat : History := mk_history channel (Some 1) None false true None None [] [] false false.
Definition all_chats (h : Z) : History := if h =? 1 then user_chat else channel_chat.

Lemma message_ok (id : Z) (own : bool) : Msg.IsServerMsgId id = true -> server_item (message id own).
Proof. by intros H _. Qed.

Lemma all_chats_ok (h : Z) : chat_ok (all_chats h).
Proof.
  unfold all_chats. destruct (h =? 1); (split; simpl; [done| | | |]).
  - by repeat constructor.
  - repeat constructor; by apply message_ok.
  - by intros i [= <-].
  - intros i [= <-]. by apply message_ok.
  - constructor.
  - constructor.
  - done.
  - done.
Qed.

Definition w_new : Histories := Histories_new all_chats 5000.
Definition after (e : Event) (w : Histories) : Histories := match happen e w with Some (_, w') => w' | None => w end.

Lemma reached_after (e : Event) (w : Histories) : reached w -> allowed e w -> reached (after e w).
Proof. intros Hr He. destruct (histories_never_fail w e Hr He) as (w' & E & ?). unfold after. by rewrite E. Qed.

(** Messages are read, an entry is asked for; then all is deleted. *)
Definition w_asked : Histories := after (Request 1 HistoryRequest 7) w_new.
Definition w_read : Histories := after (ReadInboxTillOf 1 13) w_asked.
Definition w_deleting : Histories := after (ClearAll 1 0 false false) w_read.
Definition w_entry : Histories := after (RequestEntry 1 (Some 8)) w_deleting.
Definition w_held : Histories := after Posted w_entry.

Lemma ran_after (D : gset Z) (e : Event) (w : Histories) : ran D w -> allowed e w -> ran (drops e w ∪ D) (after e w).
Proof.
  intros Hr He. destruct (ran_ok D w Hr) as [H Hm]. pose proof (happen_ok D e w H Hm He) as Hw. unfold wp in Hw. unfold after.
  destruct (happen e w) as [[[] w']|] eqn:E; [|done]. by apply (ran_step D w e w').
Qed.

(** No deletion of a channel is answered. *)
Lemma ran_more (D : gset Z) (e : Event) (w : Histories) : ran D w -> allowed e w -> drops e w = ∅ -> ran D (after e w).
Proof. intros Hr He E. pose proof (ran_after D e w Hr He) as H. by rewrite E, union_empty_l_L in H. Qed.

Lemma ran_asked : ran ∅ w_asked.
Proof. apply ran_more; [apply ran_new; [exact all_chats_ok|lia]|by left|done]. Qed.
Lemma ran_read : ran ∅ w_read.
Proof. apply ran_more; [exact ran_asked|by right|done]. Qed.
Lemma ran_deleting : ran ∅ w_deleting.
Proof. by apply ran_more; [exact ran_read| |]. Qed.
Lemma ran_held : ran ∅ w_held.
Proof. apply ran_more; [by apply ran_more; [exact ran_deleting| |]| |done]. vm_compute. lia. Qed.
Lemma reached_held : reached w_held.
Proof. exists ∅. exact ran_held. Qed.

(** ** The deletion of a channel *)

Definition w_channel : Histories := after (ClearAll 2 0 false true) w_new.
Definition w_deleted : Histories := after (Answered 1 (Done 0 [])) w_channel.
Definition w_waits : Histories := after (Request 2 HistoryRequest 9) w_deleted.
Definition w_stuck : Histories := after (Answered 2 (Done 0 [])) (after Posted (after (RequestEntry 2 (Some 5)) w_waits)).

Lemma ran_deleted : ran {[1]} w_deleted.
Proof.
  assert (ran ∅ w_channel) as Hc by (apply ran_more; [apply ran_new; [exact all_chats_ok|lia]|done|done]).
  pose proof (ran_after ∅ (Answered 1 (Done 0 [])) w_channel Hc ltac:(constructor)) as H.
  replace (drops (Answered 1 (Done 0 [])) w_channel) with ({[1]} : gset Z) in H by (vm_compute; reflexivity). by rewrite union_empty_r_L in H.
Qed.
Lemma ran_waits : ran {[1]} w_waits.
Proof. apply ran_more; [exact ran_deleted|by left|done]. Qed.

(** After the server deleted a channel, a request for messages of the chat waits,
    and so does its entry, and nothing is under way any more that could end the
    wait: no request, no delayed call, no timer. *)
Example channel_deletion_blocks : reached w_stuck /\ entries (api w_stuck) = [] /\ postedCalls w_stuck = O /\ readRequestsTimer w_stuck = None /\ requested w_stuck 2
  /\ option_map (fun s => (map fst (entries (sent s)), entries (postponed s), postponedRequestEntry s)) (states w_stuck !! 2) = Some ([1], [(2, Outside 9)], true).
Proof.
  split; [|split; [vm_compute; reflexivity|split; [vm_compute; reflexivity|split; [vm_compute; reflexivity|split; [left; vm_compute; by eexists|vm_compute; reflexivity]]]]].
  exists {[1]}. apply ran_more; [apply ran_more; [by apply ran_more; [exact ran_waits| |]|vm_compute; lia|done]|constructor|vm_compute; reflexivity].
Qed.

(** ** The theorems for this run *)

Example histories_never_fail_witness : exists w', happen (Answered 2 (Done 0 [])) w_held = Some (tt, w') /\ reached w'.
Proof. apply (histories_never_fail w_held (Answered 2 (Done 0 []))); [exact reached_held|constructor]. Defined.

Example requests_take_turns_witness : exists s, states w_held !! 1 = Some s /\ has_delete s /\ postponed s !! 1 = Some (Outside 7) /\ under_way w_held 1 2 (mk_sent (DeleteAll 0 false false) 2 Delete).
Proof.
  assert (exists s, states w_held !! 1 = Some s /\ postponed s !! 1 = Some (Outside 7) /\ sent s !! 2 = Some (mk_sent (DeleteAll 0 false false) 2 Delete)) as (s & Hs & Hp & Hx).
  { eexists. split; [vm_compute; reflexivity|]. split; vm_compute; reflexivity. }
  exists s. split; [exact Hs|]. destruct (requests_take_turns ∅ w_held 1 s ran_held Hs) as (_ & Hw & Hu & _). destruct (Hw 1 (Outside 7) Hp) as (_ & _ & Hd).
  split; [exact Hd|]. split; [exact Hp|]. destruct (Hu 2 _ Hx) as [_ [Hway|[_ Hno]]]; [exact Hway|discriminate Hno].
Defined.

Lemma held_api : entries (api w_held) = [(2, Generated 1 2 (DeleteAll 0 false false) DeleteHistory); (3, PeerDialogs [])].
Proof. vm_compute. reflexivity. Qed.

Example entries_are_on_their_way_witness : exists s id x, states w_held !! 1 = Some s /\ sent s !! id = Some x /\ under_way w_held 1 id x.
Proof.
  destruct (entries_are_on_their_way ∅ w_held 1 ran_held) as [[H _]|[(rid & l & Ha & Hl)|(s & id & x & Hs & _ & Hx & _ & Hu)]].
  - intros s id x _ _. apply not_elem_of_empty.
  - left. vm_compute. by eexists.
  - destruct H. vm_compute. reflexivity.
  - exfalso. apply elem_of_entries in Ha. rewrite held_api in Ha. apply elem_of_cons in Ha as [[= _ ?]|Ha]. apply elem_of_cons in Ha as [[= _ ->]|Ha]; [|by apply not_elem_of_nil in Ha].
    by apply not_elem_of_nil in Hl.
  - exists s, id, x. split; [exact Hs|]. split; [exact Hx|exact Hu].
Defined.

Example reading_is_reported_witness : exists s d, states w_held !! 1 = Some s /\ willReadTill s = 13 /\ readRequestsTimer w_held = Some d /\ d <= willReadWhen s.
Proof.
  assert (exists s, states w_held !! 1 = Some s /\ willReadTill s = 13) as (s & Hs & Ht) by (eexists; split; vm_compute; reflexivity).
  destruct (reading_is_reported w_held 1 s reached_held Hs) as [Hwill _]. destruct Hwill as (_ & d & Hd & Hle & _); [rewrite Ht; discriminate|]. exists s, d. split; [exact Hs|]. split; [exact Ht|]. split; [exact Hd|exact Hle].
Defined.

Example reading_is_noted_witness : exists w', readInboxTill 1 15 true w_held = Some (tt, w') /\ noted 1 15 w'.
Proof. destruct (reading_is_noted w_held 1 15 true reached_held) as (w' & E & N & _); [reflexivity|]. exists w'. by split. Defined.

Lemma true_messages : true_to messages user_chat.
Proof.
  split.
  - repeat constructor.
  - repeat constructor.
  - vm_compute. reflexivity.
  - intros _. vm_compute. repeat constructor; discriminate.
  - intros _. vm_compute. repeat constructor; discriminate.
  - intros n b [= <-] [= <-]. vm_compute. reflexivity.
Qed.

Example still_unread_right_witness : countStillUnreadLocal 14 user_chat = Some 1 /\ 1 = count (fun x => (14 <? itemId x) && unread x) messages.
Proof.
  split; [vm_compute; reflexivity|]. apply (still_unread_right messages user_chat 14 1); [exact true_messages|by repeat constructor|lia| |vm_compute; reflexivity].
  vm_compute. discriminate.
Defined.
